(* ===== verification/_CoqProject ===== *)
-Q . S2P
Prelude.v
Floats.v
Signaling.v
FieldValidation.v
Invite.v
RoomState.v
RoomLocks.v
ScreenShare.v
Relay.v
SfuBridge.v
Tokens.v
SfuRelay.v
SubRooms.v
Voice.v
RoomInvariant.v
WsSession.v
SlidingWindow.v
JoinLimiter.v
AbuseGuards.v
WsTicket.v
WsLimits.v
Database.v
Channels.v
ChannelRules.v
Chat.v
Config.v
ClientIp.v
AbuseMetrics.v
AppState.v
Dispatch.v
DispatchSafety.v
DispatchInvariant.v
DispatchRules.v
Server.v
ServerInvariant.v
ServerRules.v
ChannelRoutes.v
Phrase.v
Accounts.v
AccountRules.v
AccountInvariant.v
Sessions.v
Pairing.v
Enrolment.v
AccountDemo.v
AccountRoutes.v
BugReports.v
JitterBuffer.v
NetworkControl.v
AudioBuffer.v
CallSession.v
RoomSession.v
Commands.v
Repl.v
FloatBounds.v
AudioMixing.v
Frames.v
ShareStream.v
LiveKit.v
ShareHelper.v
MicCapture.v
LiveKitStats.v
CallLoops.v
SystemAudio.v
