(* ===== verification/Prelude.v ===== *)
(** * Wavis: a verification development

    Wavis is a voice-chat system.  Its backend (wavis-backend/src, with the wire
    types of shared/src/signaling) keeps rooms, invites, sessions and limits in
    memory and accounts, channels and messages in a database, drives a media
    server (the SFU) through a bridge, and answers each WebSocket message with a
    list of outbound signals.  Its clients share a library (clients/shared/src)
    that runs calls and rooms and moves the audio; on it stand a terminal client
    (clients/wavis-client) and a desktop client (clients/wavis-gui/src-tauri).
    This library models the backend, the client library, the terminal client and
    the parts of the desktop client with logic of their own as executable
    definitions and proves what makes them correct.

    ** Parts and files

    The backend; paths are under wavis-backend/src unless they name another
    directory.

    - [Prelude]: [Result], machine integers with their wrap-around, time, the
      state-and-error monad [M] in which changes made before an early return
      stay, the [preserves] rules and tactics over it, and generic lemmas.
    - [Floats]: [f64] and [f32] arithmetic on [SpecFloat], comparisons, casts,
      the conversions of [Duration], and bounds on rounded results.
    - [Signaling] (shared/src/signaling/mod.rs): the messages and payloads,
      constructor for constructor, and the outbound signals.
    - [FieldValidation] (shared/src/signaling/validation.rs): the length limits
      every inbound message must respect.
    - [Invite] (channel/invite.rs): the invite store.
    - [RoomState] (state.rs): the room table, every method as one function, and
      the trait [RoomState] (voice/relay.rs) as a class with laws.
    - [RoomLocks] (state.rs): the same table with its locks, rooms as heap cells
      and methods as threads of critical sections.
    - [ScreenShare] (voice/screen_share.rs), [Relay] (voice/relay.rs): handlers
      on the room table; [Relay] is proved against the class only.
    - [SfuBridge] (voice/sfu_bridge.rs, mock_sfu_bridge.rs, livekit_bridge.rs,
      sfu_sdp.rs): the interface to the media server, with two instances.
    - [Tokens] (auth/jwt.rs): media, access and LiveKit tokens, key rotation.
    - [SfuRelay] (voice/sfu_relay.rs): the life of an SFU room, over rooms,
      invites and the bridge together.
    - [SubRooms], [Voice] (voice/voice_orchestrator.rs): sub-rooms with
      passthrough, and the voice room of a channel.
    - [RoomInvariant]: what the handlers do to who is in a room, for the whole
      server.
    - [WsSession] (ws/validation.rs, ws/ws_session.rs, connections.rs, the
      delivery of ws/ws_dispatch.rs): the message gate, delivery, teardown.
    - [SlidingWindow], [JoinLimiter], [AbuseGuards], [WsTicket], [WsLimits],
      [AbuseMetrics] (abuse/, the limiters of auth/, channel/ and diagnostics/,
      auth/ws_ticket.rs, ws/ws_rate_limit.rs): what protects the server.
    - [Database]: statements that can fail at any point, and transactions.
    - [Channels], [ChannelRules] (channel/channel.rs, channel_models.rs, the
      migrations): channels, members, roles, bans and invites over their tables,
      and the abstract rules they implement; [ChannelRoutes]
      (channel/routes.rs): the endpoints over them.
    - [Phrase] (auth/phrase.rs), [Accounts] (auth/auth.rs, device.rs, pairing.rs,
      alpha_invite.rs, the migrations): users, devices, refresh tokens, pairings
      and alpha invites over their tables; [AccountRules], [AccountInvariant],
      [Sessions], [Pairing], [Enrolment] prove what holds of them,
      [AccountDemo] runs them, [AccountRoutes] (auth/routes.rs, extractor.rs)
      has the endpoints.
    - [Chat] (chat/): relaying, the token bucket, stored messages, purging.
    - [BugReports] (diagnostics/): the checks, limits and redaction of bug
      reports, and their way to the issue tracker and the language model.
    - [Config] (config_validation.rs, voice/turn_cred.rs, the environment),
      [ClientIp] (ip.rs).
    - [AppState], [Dispatch] (ws/ws_dispatch.rs, app_state.rs): every arm of the
      message dispatch, in a monad over the shared state and the connection, with
      early return and panic as outcomes; [DispatchSafety], [DispatchInvariant],
      [DispatchRules] prove what holds of every arm.
    - [Server] (ws/ws.rs, the tasks of main.rs, ec2_control.rs): upgrades, the
      receive loop, timers, spawned tasks and background loops as events;
      [ServerInvariant], [ServerRules] prove what holds of every run.

    Every room handler goes through the table of [RoomState]; [SfuRelay] adds
    invites and the bridge, [Voice] the channel map, [WsSession] the connection
    queues, [AppState] limiters and tasks, [Server] connections and tickets.
    Each layer's state is a record that holds the one below.

    The client library; paths are under clients/shared/src.

    - [JitterBuffer] (audio_pipeline/jitter_buffer.rs): reordering and playout.
    - [NetworkControl] (audio_network_monitor.rs,
      audio_pipeline/bitrate_controller.rs): loss and jitter statistics, and the
      bitrate they lead to.
    - [AudioBuffer] (audio_buffer.rs, audio_mixer.rs, audio_meter.rs,
      peer_volumes.rs): the ring between device and network, mixing, levels.
    - [CallSession] (webrtc.rs, call_session.rs, signaling.rs, sdp_ice_guards.rs,
      audio.rs, ice_config.rs): one-to-one calls, against the class
      [ClientBackend] of the peer connection, the audio device and the socket.
    - [RoomSession] (room_session/): rooms, over the same class and
      [LiveKitConnection].
    - [FloatBounds]: bounds on binary32 results, for the files below.
    - [AudioMixing] (livekit_audio_mixing.rs, passthrough_filter.rs): remote
      tracks from frames to the speaker.
    - [LiveKit] (livekit_connection.rs, livekit_video.rs, and media_connect and
      media_disconnect of the desktop client): joining a media room, the four
      tracks, the background loops and the listener.
    - [MicCapture] (biquad.rs, passthrough_filter.rs, deesser_filter.rs,
      denoise_filter.rs, the capture loop): the microphone up to the track.
    - [LiveKitStats] (livekit_network_monitor.rs): statistics of a media room.
    - [CallLoops] (webrtc_loops.rs, webrtc_apm.rs, audio_pipeline_real.rs): the
      send, control and receive loops of a call and its receiver reports, over
      [JitterBuffer], [NetworkControl] and [AudioBuffer].

    The clients.

    - [Commands], [Repl] (clients/wavis-client): the commands of the terminal
      client and its loop over typed lines, messages and interrupts.
    - [Frames] (clients/wavis-gui, screen_capture/frame_processor.rs, media.rs):
      capping and converting captured frames.
    - [ShareStream] (media.rs, bug_report.rs): remote frames, the URLs and streams
      they are watched through, the log of bug reports.
    - [ShareHelper] (external_share_helper/): the threads of a share made with the
      help of another process, over [LiveKit].
    - [SystemAudio] (audio_capture/platform/linux.rs): sharing the system's audio,
      as commands to the sound server.

    ** How code becomes definitions

    A struct is a [Record], an enum an [Inductive], a handler a function of the
    state that returns its answer and the new state, or a program of [M] when it
    can fail half-way.  An [unwrap] or [expect] on a value that may be missing is an
    exit of its own, [None] or a constructor for the panic; those on a poisoned lock,
    which need an earlier panic, are left out.  A method that holds its locks for its
    whole body is one step.  Clock reads, random draws and database rows are arguments.  A [u32]
    is a [Z]; additions that can overflow wrap as in a release build.  [HashMap]
    and [HashSet] are [gmap] and [gset], and no theorem depends on their order.
    Third-party crates are parameters: the bridge is a class of operations, the
    JWT codec a class with the laws of [encode] and [decode], password
    hashing, encryption, the keyed hash and the [Uuid] text form are arguments.
    A trait is a class of operations, with a class of laws where theorems need
    what it documents, and the mocks of the source as an instance.  A float is a
    [spec_float] at the width of the source, rounded to nearest even.  SQL statements are functions on finite
    maps with the constraints of the migrations; an oracle says which of them
    fail, and a request is one step.  Loops over lists are structural;
    only [Chat.drain] has fuel, and [Chat.purge_loop_drains] shows how much is
    enough.  Loops that wait on a clock or a device take the readings as a list;
    [CallLoops.receive_terminates] shows how many always do.  The server is a
    transition system: one event at a time, in any order; so are the threads of
    [RoomLocks] and [ShareHelper], with their locks.

    ** What is shown

    - The whole server, over every run of its events in which the media tokens
      that frames ask for can be signed, the invite codes drawn are new and peer
      numbers are left: a peer listed in a room has a live connection whose session
      is in that room; no frame panics its handler.  Over every run: connections
      per address stay within the cap; a cold start of the media server ends.
    - Invariants of the components: the reverse index and the peer lists of the
      room table agree and refine a table without lists; rooms stay within
      capacity, also under every interleaving of capacity-checked methods; shares
      keep one slot per category; a participant is in at most one sub-room; a
      user has at most one session in a voice room; invite counters and use
      budgets are exact; the channel tables keep their constraints and one owner
      per channel; the account tables theirs.
    - Accounts: a refresh token is exchanged once, and using it again, logging
      out everywhere or revoking a device ends the access and refresh tokens for
      good, though not the WebSocket tickets issued before; a pairing code cannot
      be guessed by trying; a registered phrase recovers its account; registration
      needs an invite.
    - Clients, over every sequence of events: the jitter buffer never panics,
      holds a bounded number of packets and plays them in order, none that is
      buffered passed over; the ring buffer refines a queue; bitrates stay in
      range; a peer connection is open exactly while its call lives, as long as
      calls can be set up and the backend reports in time; the tracks and shares of
      a room follow the messages the client heeds; the terminal client's phase
      agrees with what it holds, whatever is typed or answered.
    - Media: the loops and tracks of the desktop client are those of the room it
      is in, and of no other; the threads of one helper session never block each
      other and never publish twice; a captured frame is converted exactly and
      inside its planes; the gate never amplifies, and a tick of either capture
      loop leaves a bounded backlog; handling a packet of a call terminates; one
      noise suppressor runs at a time; without a share the client has taken back
      everything it asked of the sound server.
    - Bug reports: the tracker is called only for reports that passed every check.
    - Authority: kicks, mutes, share permissions and the settings of the
      passthrough need the current role, joins a valid invite;
      another member's row is changed only by a moderator of higher rank; a ban
      lasts until it is lifted, and takes effect in voice at once.
    - Functional behaviour, all branches: joins (P2P, SFU, voice, sub-room),
      leaves, kicks, ejections, shares, passthrough, invite consumption,
      temporary bans, field validation, JSON depth.
    - Safety: an invite admits no more joins than its budget, a revoked one
      none; a kicked participant cannot rejoin while its tokens live; viewer
      tokens cannot publish; a ticket is used at most once; a cleaned-up
      connection holds nothing; a failed voice join leaves nothing behind; a
      client cannot choose its address; start-up fails closed.
    - Refinement and equivalence: seven uninterrupted lock-level methods of the
      room table equal the functions; channel requests implement the abstract rules, whatever
      statement fails; windows refine the log of requests; the depth scan equals
      the nesting of the text.
    - Round trips: tokens across key rotation; chat history; recovery phrases;
      the URL of a watched share; printed commands of the terminal client.
    - Bounds and termination: the rate any limiter admits; the packed per-second
      ceiling; the purge loop, whatever statement fails.

    The invariants of the room table, of the SFU and voice handlers and of the
    sub-rooms are over runs with a condition, named with each of them: a join that
    checks the capacity is made by a peer that is in no other room (in no room, for a
    voice join), and the sub-room step of a voice join by a participant that is in no
    sub-room.  [ServerInvariant] shows that the dispatcher keeps to the conditions on
    peers while tokens can be signed; [SfuRelay.create_room_token_failure_leaks] shows
    how it fails to when one cannot.

    Theorems without a claim id record where the code departs from its comments
    or its purpose, among them a join that succeeds in a room already gone
    ([RoomLocks.join_during_last_leave_orphans]), a late call that refills the
    global bucket ([AbuseGuards.GlobalLimiter.late_call_refills]), playback
    that stops for good after 32768 frames
    ([JitterBuffer.playback_stops_after_half_window]), round trips that are never
    measured over a steady path ([CallLoops.steady_path_never_measured]), two
    locks taken in both orders ([ShareHelper.HelperDemo.replaced_session_deadlocks])
    and a room that the server ends while its loops go on
    ([LiveKit.LkDemo.server_disconnect_leaks]).

    ** Not modelled

    JSON and HTTP decoding (serde, axum), whose behaviour is that of the
    libraries; socket writes that fail half-way; the interleaving of the
    statements of two database transactions, which depends on the isolation of
    the server; the set-up of router and secrets, logging, and the texts of the
    prompts sent to the language model.  Of the clients, the bindings to the
    WebRTC, LiveKit and sound card libraries, the codec, the noise suppressor and
    the native processing module, which appear as classes or answers; the windows,
    menus and commands of the desktop shell and its capture backends for screens
    and for the audio of macOS and Windows, which are calls to the platform.  The
    scripted test client, the test suites and the stress tools. *)

From stdpp Require Export base tactics option list gmap fin_maps fin_sets strings pretty numbers.
From stdpp Require Export relations.
From Stdlib Require Export ZArith Lia.

(** ** Results: Rust's [Result<A, E>] *)

Inductive Result (A E : Type) : Type :=
| Ok (a : A)
| Err (e : E).
Arguments Ok {A E} a.
Arguments Err {A E} e.

Definition is_Ok {A E} (r : Result A E) : bool :=
  match r with Ok _ => true | Err _ => false end.

(** [Result::map_err]. *)
Definition map_err {A E F} (f : E → F) (r : Result A E) : Result A F :=
  match r with Ok a => Ok a | Err e => Err (f e) end.

(** [Option::ok_or]. *)
Definition ok_or {A E} (o : option A) (e : E) : Result A E :=
  match o with Some a => Ok a | None => Err e end.

(** ** Machine integers

    A [u8], [u32], [u64] or [usize] is a [Z]; the operations of the code that
    can leave the range are written with the wrap-around or the saturation of
    the source. *)

Definition u32_modulus : Z := 4294967296.
Definition u64_modulus : Z := 18446744073709551616.

(** [x as u32], and the result of [u32] addition in a release build. *)
Definition wrap_u32 (x : Z) : Z := (x `mod` u32_modulus)%Z.

(** [saturating_sub] of an unsigned type. *)
Definition saturating_sub (x y : Z) : Z := (0 `max` (x - y))%Z.

(** [x.clamp(lo, hi)]. *)
Definition clamp (lo hi x : Z) : Z := if (x <? lo)%Z then lo else if (hi <? x)%Z then hi else x.

(** [Vec::len], [HashMap::len], [HashSet::len]. *)
Abbreviation len l := (Z.of_nat (length l)).
Abbreviation map_len m := (Z.of_nat (size m)).

(** ** Time

    [std::time::Instant] is a point of the monotonic clock and [Duration] a
    length of time, both in nanoseconds.  Every read of [Instant::now()] is an
    argument of the definition that makes it. *)

Abbreviation Instant := Z (only parsing).
Abbreviation Duration := Z (only parsing).

Definition nanos_per_sec : Z := 1000000000.

(** [Duration::from_secs] and [Duration::as_secs]. *)
Definition from_secs (s : Z) : Duration := (s * nanos_per_sec)%Z.
Definition as_secs (d : Duration) : Z := (d `div` nanos_per_sec)%Z.

(** [now.saturating_duration_since(t)]; [duration_since] and [elapsed] have the
    same behaviour since Rust 1.60. *)
Definition duration_since (now t : Instant) : Duration := saturating_sub now t.

(** ** Identifiers *)

Abbreviation PeerId := string (only parsing).
Abbreviation RoomId := string (only parsing).

(** ** The state-and-error monad of the handlers

    A handler that mutates shared state and may return early with [?] is a
    function from the state to its result and the new state.  As in the
    source, the mutations made before an early return stay. *)

Definition M (S E A : Type) : Type := S → Result A E * S.

Definition mret {S E A} (a : A) : M S E A := λ s, (Ok a, s).
Definition throw {S E A} (e : E) : M S E A := λ s, (Err e, s).
Definition mbind_ {S E A B} (m : M S E A) (k : A → M S E B) : M S E B :=
  λ s, match m s with
       | (Ok a, s') => k a s'
       | (Err e, s') => (Err e, s')
       end.
Definition gets {S E A} (f : S → A) : M S E A := λ s, (Ok (f s), s).
Definition modify {S E} (f : S → S) : M S E unit := λ s, (Ok tt, f s).
(** A state transformer that also returns a value. *)
Definition state {S E A} (f : S → A * S) : M S E A :=
  λ s, let '(a, s') := f s in (Ok a, s').
(** A computed result: [?] applied to it. *)
Definition lift_result {S E A} (r : Result A E) : M S E A := λ s, (r, s).
(** The result of a fallible call as a value: [match call { .. }] or [let _ = call]. *)
Definition attempt {S E F A} (m : M S E A) : M S F (Result A E) :=
  λ s, let '(r, s') := m s in (Ok r, s').
Definition map_err_m {S E F A} (f : E → F) (m : M S E A) : M S F A :=
  λ s, let '(r, s') := m s in (map_err f r, s').
Definition when {S E} (b : bool) (m : M S E unit) : M S E unit :=
  if b then m else mret tt.

Fixpoint for_each {S E A} (f : A → M S E unit) (l : list A) : M S E unit :=
  match l with
  | [] => mret tt
  | x :: l' => mbind_ (f x) (λ _, for_each f l')
  end.

Declare Scope prog_scope.
Delimit Scope prog_scope with prog.
Notation "'let!' x := m 'in' k" := (mbind_ m (λ x, k))
  (at level 10, x name, m at level 100, k at level 200, only parsing) : prog_scope.
Notation "'do!' m 'in' k" := (mbind_ m (λ _, k))
  (at level 10, m at level 100, k at level 200, only parsing) : prog_scope.

(** [preserves I m]: whatever [m] returns, it keeps the invariant [I]. *)
Definition preserves {S E A} (I : S → Prop) (m : M S E A) : Prop :=
  ∀ s, I s → I (m s).2.

(** Unfold the head of an application. *)
Ltac unfold_head m :=
  lazymatch m with
  | ?f _ => unfold_head f
  | ?f => unfold f
  end.

Create HintDb wavis.

Section preserves.
Context {S E : Type} (I : S → Prop).

Lemma preserves_mret {A} (a : A) : preserves (E:=E) I (mret a).
Proof. intros s Hs; exact Hs. Qed.

Lemma preserves_throw {A} (e : E) : preserves (A:=A) I (throw e).
Proof. intros s Hs; exact Hs. Qed.

Lemma preserves_gets {A} (f : S → A) : preserves (E:=E) I (gets f).
Proof. intros s Hs; exact Hs. Qed.

Lemma preserves_lift_result {A} (r : Result A E) : preserves I (lift_result r).
Proof. intros s Hs; exact Hs. Qed.

Lemma preserves_bind {A B} (m : M S E A) (k : A → M S E B) :
  preserves I m → (∀ a, preserves I (k a)) → preserves I (mbind_ m k).
Proof.
  intros Hm Hk s Hs. unfold mbind_. specialize (Hm s Hs).
  destruct (m s) as [[a|e] s']; simpl in *; [by apply Hk|done].
Qed.

Lemma preserves_modify (f : S → S) :
  (∀ s, I s → I (f s)) → preserves (E:=E) I (modify f).
Proof. intros Hf s Hs; exact (Hf s Hs). Qed.

Lemma preserves_state {A} (f : S → A * S) :
  (∀ s, I s → I (f s).2) → preserves (E:=E) I (state f).
Proof.
  intros Hf s Hs. specialize (Hf s Hs). unfold state.
  by destruct (f s) as [a s'].
Qed.

Lemma preserves_attempt {A F} (m : M S E A) :
  preserves I m → preserves (E:=F) I (attempt m).
Proof.
  intros Hm s Hs. specialize (Hm s Hs). unfold attempt.
  by destruct (m s) as [r s'].
Qed.

Lemma preserves_map_err {A F} (f : E → F) (m : M S E A) :
  preserves I m → preserves I (map_err_m f m).
Proof.
  intros Hm s Hs. specialize (Hm s Hs). unfold map_err_m.
  by destruct (m s) as [r s'].
Qed.

Lemma preserves_when (b : bool) (m : M S E unit) :
  preserves I m → preserves I (when b m).
Proof. destruct b; [done|intros _; apply preserves_mret]. Qed.

Lemma preserves_for_each {A} (f : A → M S E unit) (l : list A) :
  (∀ x, preserves I (f x)) → preserves I (for_each f l).
Proof.
  intros Hf. induction l as [|x l IH]; simpl;
    [apply preserves_mret|by apply preserves_bind].
Qed.
End preserves.

#[export] Hint Resolve preserves_mret preserves_throw preserves_gets
  preserves_lift_result preserves_bind preserves_modify preserves_state
  preserves_attempt preserves_map_err preserves_when preserves_for_each : wavis.

(** Structural proof of [preserves]: decompose the monadic code, split its
    conditionals, and use the [wavis] hints at the leaves. *)
Ltac solve_preserves :=
  repeat first
    [ progress intros
    | apply preserves_bind
    | apply preserves_attempt
    | apply preserves_map_err
    | apply preserves_when
    | apply preserves_for_each
    | solve [eauto 3 with wavis]
    | case_match ].

(** Split the first [match] of the goal or of a hypothesis and simplify. *)
Ltac split_match := repeat (case_match; simplify_eq/=).

(** Turn the outcomes of the guards into propositions. *)
Ltac decided :=
  repeat match goal with
  | H : bool_decide _ = true |- _ => apply bool_decide_eq_true in H
  | H : bool_decide _ = false |- _ => apply bool_decide_eq_false in H
  | H : negb _ = true |- _ => apply negb_true_iff in H
  | H : negb _ = false |- _ => apply negb_false_iff in H
  | H : _ || _ = false |- _ => apply orb_false_iff in H as [??]
  | H : _ && _ = true |- _ => apply andb_true_iff in H as [??]
  | H : ¬ is_Some _ |- _ => apply eq_None_not_Some in H
  | H : _ ≠ None |- _ => apply not_eq_None_Some in H
  end.

(** An inductive invariant holds in every reachable state. *)
Lemma rtc_invariant {A} (R : relation A) (I : A → Prop) x y :
  (∀ a b, R a b → I a → I b) → rtc R x y → I x → I y.
Proof. intros HR. induction 1; eauto. Qed.

(** ** Strings *)

(** [str::chars().count()] of UTF-8 text: the bytes that continue no character. *)
Fixpoint chars_count (s : string) : Z :=
  match s with
  | EmptyString => 0%Z
  | String c s' =>
      ((if bool_decide (128 ≤ Z.of_nat (Ascii.nat_of_ascii c) < 192)%Z then 0 else 1) + chars_count s')%Z
  end.

(** ** Lists *)

(** [Vec::contains]. *)
Definition contains {A} `{EqDecision A} (x : A) (l : list A) : bool :=
  bool_decide (x ∈ l).

(** [iter_mut().find(p)] followed by a mutation of the element found. *)
Fixpoint update_first {A} (p : A → bool) (f : A → A) (l : list A) : list A :=
  match l with
  | [] => []
  | x :: l' => if p x then f x :: l' else x :: update_first p f l'
  end.

(** [Vec::retain]. *)
Definition retain {A} (p : A → bool) (l : list A) : list A := List.filter p l.

Lemma elem_of_retain {A} (p : A → bool) (l : list A) x :
  x ∈ retain p l ↔ p x = true ∧ x ∈ l.
Proof. unfold retain. rewrite !list_elem_of_In, filter_In. tauto. Qed.

Lemma NoDup_retain {A} (p : A → bool) (l : list A) : NoDup l → NoDup (retain p l).
Proof. rewrite !NoDup_ListNoDup. apply List.NoDup_filter. Qed.

Lemma length_retain_le {A} (p : A → bool) (l : list A) :
  (length (retain p l) ≤ length l)%nat.
Proof. apply List.filter_length_le. Qed.

Lemma retain_all {A} (p : A → bool) (l : list A) :
  (∀ x, x ∈ l → p x = true) → retain p l = l.
Proof.
  unfold retain. induction l as [|x l IH]; intros Hp; [done|]. simpl.
  rewrite (Hp x) by set_solver. f_equal. apply IH. set_solver.
Qed.

Lemma update_first_map {A B} (g : A → B) (p : A → bool) (f : A → A) (l : list A) :
  (∀ x, g (f x) = g x) → map g (update_first p f l) = map g l.
Proof.
  intros Hg. induction l as [|x l IH]; simpl; [done|].
  destruct (p x); simpl; congruence.
Qed.

Lemma update_first_length {A} (p : A → bool) (f : A → A) (l : list A) :
  length (update_first p f l) = length l.
Proof. induction l as [|x l IH]; simpl; [done|destruct (p x); simpl; congruence]. Qed.

Lemma find_some_elem_of {A} (p : A → bool) (l : list A) x :
  List.find p l = Some x → x ∈ l ∧ p x = true.
Proof. intros [??]%List.find_some. by rewrite list_elem_of_In. Qed.

Lemma find_none_elem_of {A} (p : A → bool) (l : list A) x :
  List.find p l = None → x ∈ l → p x = false.
Proof. rewrite list_elem_of_In. intros H. exact (List.find_none p l H x). Qed.

Lemma elem_of_find_is_Some {A} (p : A → bool) (l : list A) x :
  x ∈ l → p x = true → is_Some (List.find p l).
Proof.
  intros Hx Hp. destruct (List.find p l) eqn:E; [eauto|].
  by rewrite (find_none_elem_of _ _ _ E Hx) in Hp.
Qed.

Lemma find_app {A} (p : A → bool) (l1 l2 : list A) :
  List.find p (l1 ++ l2) = match List.find p l1 with Some x => Some x | None => List.find p l2 end.
Proof. induction l1 as [|x l1 IH]; simpl; [done|]. by destruct (p x). Qed.

Lemma find_ext {A} (p q : A → bool) l : (∀ x, x ∈ l → p x = q x) → List.find p l = List.find q l.
Proof.
  induction l as [|x l IH]; simpl; intros H; [done|]. rewrite (H x) by set_solver.
  destruct (q x); [done|]. apply IH. set_solver.
Qed.

Lemma update_first_ext {A} (p q : A → bool) f l :
  (∀ x, x ∈ l → p x = q x) → update_first p f l = update_first q f l.
Proof.
  induction l as [|x l IH]; simpl; intros H; [done|]. rewrite (H x) by set_solver.
  destruct (q x); [done|]. f_equal. apply IH. set_solver.
Qed.

(** ** Finite maps *)

Section map_filter_size.
Context {K A : Type} `{Countable K} (P : K * A → Prop) `{!∀ x, Decision (P x)}.
Implicit Types (m : gmap K A) (k : K) (v : A).

Lemma size_filter_insert_new m k v :
  m !! k = None →
  size (filter P (<[k:=v]> m)) = ((if bool_decide (P (k, v)) then 1 else 0) + size (filter P m))%nat.
Proof.
  intros Hk. case_bool_decide.
  - rewrite map_filter_insert_True by done.
    by rewrite map_size_insert_None by by apply map_lookup_filter_None; left.
  - by rewrite map_filter_insert_not' by naive_solver.
Qed.

Lemma size_filter_insert_same m k v v0 :
  m !! k = Some v0 → (P (k, v0) ↔ P (k, v)) →
  size (filter P (<[k:=v]> m)) = size (filter P m).
Proof.
  intros Hk HP. destruct (decide (P (k, v))) as [Hp|Hp].
  - rewrite map_filter_insert_True by done.
    apply map_size_insert_Some. exists v0. apply map_lookup_filter_Some. naive_solver.
  - rewrite map_filter_insert_False by done.
    rewrite map_filter_delete_not; naive_solver.
Qed.

Lemma size_filter_le m : (size (filter P m) ≤ size m)%nat.
Proof. apply map_subseteq_size, map_filter_subseteq. Qed.

Lemma size_filter_split (Q : K * A → Prop) `{!∀ x, Decision (Q x)} m :
  size (filter P m) =
    (size (filter (λ x, P x ∧ Q x) m) + size (filter (λ x, P x ∧ ¬ Q x) m))%nat.
Proof.
  rewrite <-map_size_disj_union.
  - f_equal. apply map_eq. intros k. rewrite lookup_union.
    destruct (m !! k) as [v|] eqn:E; repeat rewrite map_lookup_filter;
      rewrite E; simpl; [|done].
    repeat (case_guard; simpl); try done; tauto.
  - apply map_disjoint_spec. intros k x y. rewrite !map_lookup_filter_Some. naive_solver.
Qed.

Lemma size_filter_compl m :
  size m = (size (filter P m) + size (filter (λ x, ¬ P x) m))%nat.
Proof.
  rewrite <-map_size_disj_union by apply map_disjoint_filter_complement.
  by rewrite map_filter_union_complement.
Qed.
End map_filter_size.
