(* ===== verification/Floats.v ===== *)
(** * Floating point

    [f64] and [f32] as the [spec_float]s of the Standard Library at the precision
    of binary64 and binary32, so every operation rounds as the source's does, and
    the conversions between them, integers and [Duration].  The lemmas bound the
    result of an operation by a representable number: rounding to nearest never
    passes one. *)

From Stdlib Require Import Floats.SpecFloat.
From S2P Require Import Prelude.
Local Open Scope Z_scope.

(** ** Rounding never passes a representable number *)

Lemma digits2_log2 (p : positive) : Z.pos (digits2_pos p) = Z.log2 (Z.pos p) + 1.
Proof.
  induction p as [p IH|p IH|]; [..|done]; cbn [digits2_pos]; rewrite Pos2Z.inj_succ, IH.
  - rewrite Pos2Z.inj_xI, Z.log2_succ_double; lia.
  - rewrite Pos2Z.inj_xO, Z.log2_double; lia.
Qed.

(** The shift register of the rounding: its integer part, and that part rounded
    up when something was shifted out. *)
Definition shr_floor (x : shr_record) : Z := shr_m x.
Definition shr_ceil (x : shr_record) : Z := shr_m x + (if shr_r x || shr_s x then 1 else 0).

Lemma shr_1_parts (x : shr_record) :
  0 ≤ shr_m x → shr_floor (shr_1 x) = shr_floor x / 2 ∧ shr_ceil (shr_1 x) = (shr_ceil x + 1) / 2.
Proof.
  destruct x as [m r s]; unfold shr_floor, shr_ceil; cbn; intros Hm.
  destruct m as [|[p|p|]|p]; destruct r, s; cbn [orb shr_1 shr_m shr_r shr_s];
    (lia || split; Z.to_euclidean_division_equations; lia).
Qed.

Lemma shr_parts (n : positive) (x : shr_record) :
  0 ≤ shr_m x →
  let y := SpecFloat.iter_pos shr_1 n x in
  shr_floor y = shr_floor x / 2 ^ Z.pos n ∧
  ∀ b, shr_ceil x ≤ b * 2 ^ Z.pos n → shr_ceil y ≤ b.
Proof.
  cbv zeta. revert x.
  assert (Hstep : ∀ n x, 0 ≤ shr_m x → 0 ≤ shr_floor x / 2 ^ Z.pos n)
    by (intros n' x Hx; apply Z.div_pos; [done|apply Z.pow_pos_nonneg; lia]).
  induction n as [n IH|n IH|]; intros x Hx; cbn [SpecFloat.iter_pos].
  - destruct (shr_1_parts x Hx) as [Hf Hc].
    assert (H0 : 0 ≤ shr_m (shr_1 x)) by (change (0 ≤ shr_floor (shr_1 x)); rewrite Hf; apply Z.div_pos; [done|lia]).
    destruct (IH _ H0) as [Hf1 Hc1].
    assert (H0' : 0 ≤ shr_m (SpecFloat.iter_pos shr_1 n (shr_1 x)))
      by (change (0 ≤ shr_floor (SpecFloat.iter_pos shr_1 n (shr_1 x))); rewrite Hf1; by apply Hstep).
    destruct (IH _ H0') as [Hf2 Hc2].
    assert (Hp : 2 ^ Z.pos n~1 = 2 * (2 ^ Z.pos n * 2 ^ Z.pos n))
      by (rewrite <-Z.pow_add_r, <-Z.pow_succ_r by lia; f_equal; lia).
    assert (0 < 2 ^ Z.pos n) by (apply Z.pow_pos_nonneg; lia).
    split.
    + by rewrite Hf2, Hf1, Hf, !Z.div_div, Hp by lia.
    + intros b Hb. apply Hc2, Hc1. rewrite Hc, <-Z.lt_succ_r.
      rewrite Hp in Hb. apply Z.div_lt_upper_bound; lia.
  - destruct (IH _ Hx) as [Hf1 Hc1].
    assert (H0' : 0 ≤ shr_m (SpecFloat.iter_pos shr_1 n x))
      by (change (0 ≤ shr_floor (SpecFloat.iter_pos shr_1 n x)); rewrite Hf1; by apply Hstep).
    destruct (IH _ H0') as [Hf2 Hc2].
    assert (Hp : 2 ^ Z.pos n~0 = 2 ^ Z.pos n * 2 ^ Z.pos n)
      by (rewrite <-Z.pow_add_r by lia; f_equal; lia).
    assert (0 < 2 ^ Z.pos n) by (apply Z.pow_pos_nonneg; lia).
    split.
    + by rewrite Hf2, Hf1, Z.div_div, Hp by lia.
    + intros b Hb. apply Hc2, Hc1. rewrite Hp in Hb. lia.
  - destruct (shr_1_parts x Hx) as [Hf Hc]. split; [done|].
    intros b Hb. rewrite Hc, <-Z.lt_succ_r. apply Z.div_lt_upper_bound; lia.
Qed.

Lemma round_between (x : shr_record) :
  shr_floor x ≤ round_nearest_even (shr_m x) (loc_of_shr_record x) ≤ shr_ceil x.
Proof.
  destruct x as [m [] []]; unfold shr_floor, shr_ceil; cbn; try lia.
  destruct (Z.even m); lia.
Qed.

Lemma log2_scaled_le (a b k : Z) :
  0 < a → 0 ≤ k → a ≤ b * 2 ^ k → Z.log2 a ≤ Z.log2 b + k.
Proof.
  intros Ha Hk Hab. destruct (decide (0 < b)) as [Hb|Hb];
    [|assert (0 < 2 ^ k) by (apply Z.pow_pos_nonneg; lia); nia].
  rewrite Z.add_comm, <-Z.log2_mul_pow2 by lia. by apply Z.log2_le_mono.
Qed.

Section rounding.
Context (prec emax : Z) (Hprec : 0 < prec).

(** [m * 2 ^ e] is at most, or at least, the representable number [my * 2 ^ ey],
    and so is its exponent: the order of the comparison, and of the values. *)
Definition below (m : Z) (e : Z) (my : positive) (ey : Z) : Prop :=
  e ≤ ey ∧ m ≤ Z.pos my * 2 ^ (ey - e).
Definition above (m : Z) (e : Z) (my : positive) (ey : Z) : Prop :=
  ey ≤ e ∧ Z.pos my ≤ m * 2 ^ (e - ey).

Lemma shr_fexp_spec (m e : Z) (l : location) :
  0 ≤ m →
  let s := Z.max 0 (fexp prec emax (Zdigits2 m + e) - e) in
  let '(x, e') := shr_fexp prec emax m e l in
  e' = e + s ∧ shr_floor x = m / 2 ^ s ∧
  ∀ b, shr_ceil (shr_record_of_loc m l) ≤ b * 2 ^ s → shr_ceil x ≤ b.
Proof.
  intros Hm; cbv zeta. unfold shr_fexp, shr.
  destruct (fexp prec emax (Zdigits2 m + e) - e) as [|n|n] eqn:Hn.
  1,3: rewrite Z.max_l, Z.pow_0_r, Z.div_1_r by lia; split_and!; [lia|by destruct l as [|[]]|intros b; lia].
  destruct (shr_parts n (shr_record_of_loc m l)) as [Hf Hc]; [by destruct l as [|[]]|].
  rewrite Z.max_r by lia. split_and!; [lia| |done]. rewrite Hf. by destruct l as [|[]].
Qed.

Lemma digits_scaled_le (a : Z) (ea : Z) (b : positive) (eb : Z) :
  0 < a → a ≤ Z.pos b * 2 ^ (eb - ea) →
  Zdigits2 a + ea ≤ Z.pos (digits2_pos b) + eb.
Proof.
  intros Ha Hab. assert (Hle : 0 ≤ eb - ea).
  { destruct (Z.neg_nonneg_cases (eb - ea)) as [Hneg|]; [|done].
    rewrite Z.pow_neg_r in Hab by done. lia. }
  pose proof (log2_scaled_le _ _ _ Ha Hle Hab).
  destruct a as [|a|a]; [lia| |lia]. cbn [Zdigits2]. rewrite !digits2_log2. lia.
Qed.

Lemma fexp_mono (x y : Z) : x ≤ y → fexp prec emax x ≤ fexp prec emax y.
Proof. unfold fexp. lia. Qed.

(** One normalisation step stays below a canonical number. *)
Lemma shr_fexp_upper (m e : Z) (l : location) (my : positive) (ey : Z) :
  0 ≤ m → e ≤ ey → fexp prec emax (Z.pos (digits2_pos my) + ey) = ey →
  shr_ceil (shr_record_of_loc m l) ≤ Z.pos my * 2 ^ (ey - e) →
  let '(x, e') := shr_fexp prec emax m e l in
  e' ≤ ey ∧ shr_ceil x ≤ Z.pos my * 2 ^ (ey - e').
Proof.
  intros Hm He Hcan Hle.
  assert (Hm' : m ≤ shr_ceil (shr_record_of_loc m l)) by (destruct l as [|[]]; unfold shr_ceil; cbn; lia).
  assert (Hf : fexp prec emax (Zdigits2 m + e) ≤ ey).
  { destruct (decide (m = 0)) as [->|]; [rewrite <-Hcan; unfold fexp in *; cbn; lia|].
    rewrite <-Hcan. apply fexp_mono, digits_scaled_le; lia. }
  pose proof (shr_fexp_spec m e l Hm) as Hspec. cbv zeta in Hspec.
  destruct (shr_fexp prec emax m e l) as [x e'], Hspec as (-> & _ & Hc).
  set (s := Z.max 0 _) in *. split; [lia|]. apply Hc.
  rewrite <-Z.mul_assoc, <-Z.pow_add_r by lia. by replace (ey - (e + s) + s) with (ey - e) by lia.
Qed.

(** Rounding a number below a representable one gives a number below it. *)
Lemma round_aux_upper (sx : bool) (m e : Z) (l : location) (my : positive) (ey : Z) :
  0 ≤ m → e ≤ ey → bounded prec emax my ey = true →
  shr_ceil (shr_record_of_loc m l) ≤ Z.pos my * 2 ^ (ey - e) →
  binary_round_aux prec emax sx m e l = S754_zero sx ∨
  ∃ m' e', binary_round_aux prec emax sx m e l = S754_finite sx m' e' ∧ below (Z.pos m') e' my ey.
Proof.
  unfold bounded, canonical_mantissa. intros Hm He [Hcan%Z.eqb_eq Hemax%Z.leb_le]%andb_true_iff Hle.
  unfold binary_round_aux. pose proof (shr_fexp_upper m e l my ey Hm He Hcan Hle) as Hu1.
  pose proof (shr_fexp_spec m e l ltac:(lia)) as Hs1.
  destruct (shr_fexp prec emax m e l) as [x e1], Hu1 as [Hey Hx], Hs1 as (_ & Hf1 & _).
  set (m1 := round_nearest_even _ _). pose proof (round_between x) as Hm1. fold m1 in Hm1.
  assert (0 ≤ m1) by (transitivity (shr_floor x); [rewrite Hf1; apply Z.div_pos; [|apply Z.pow_pos_nonneg]|]; lia).
  pose proof (shr_fexp_spec m1 e1 loc_Exact ltac:(done)) as Hs2.
  destruct (decide (m1 = 0)) as [Hz|Hnz].
  { left. destruct (shr_fexp prec emax m1 e1 loc_Exact) as [x2 e2], Hs2 as (_ & Hf2 & _).
    unfold shr_floor in Hf2. by rewrite Hf2, Hz, Z.div_0_l by (apply Z.pow_nonzero; lia). }
  pose proof (shr_fexp_upper m1 e1 loc_Exact my ey ltac:(lia) Hey Hcan) as Hu2.
  destruct (shr_fexp prec emax m1 e1 loc_Exact) as [x2 e2], Hs2 as (_ & Hf2 & _).
  destruct Hu2 as [He2 Hx2]; [unfold shr_ceil in *; cbn; lia|].
  assert (0 ≤ shr_m x2) by (change (0 ≤ shr_floor x2); rewrite Hf2; apply Z.div_pos; [|apply Z.pow_pos_nonneg]; lia).
  destruct (shr_m x2) as [|p|p] eqn:Hp; [by left| |lia]. right. exists p, e2.
  rewrite (proj2 (Z.leb_le _ _)) by lia. split; [done|]. split; [done|].
  unfold shr_ceil in Hx2. rewrite Hp in Hx2. destruct (_ || _); lia.
Qed.

Lemma shr_keeps_digits (m s : Z) :
  0 < m → 0 ≤ s < Zdigits2 m → 2 ^ (Zdigits2 m - 1 - s) ≤ m / 2 ^ s.
Proof.
  intros Hm Hs. apply Z.div_le_lower_bound; [apply Z.pow_pos_nonneg; lia|].
  rewrite <-Z.pow_add_r by lia. destruct m as [|p|p]; [lia| |lia].
  cbn [Zdigits2] in *. rewrite digits2_log2 in *.
  replace (s + _) with (Z.log2 (Z.pos p)) by lia. by apply Z.log2_spec.
Qed.

Lemma canonical_small (my : positive) (ey : Z) :
  fexp prec emax (Z.pos (digits2_pos my) + ey) = ey → Z.pos my < 2 ^ prec.
Proof.
  unfold fexp. rewrite digits2_log2. intros Hcan.
  pose proof (Z.log2_spec (Z.pos my) ltac:(lia)) as [_ Hlt].
  eapply Z.lt_le_trans; [exact Hlt|]. apply Z.pow_le_mono_r; lia.
Qed.

(** A full mantissa at a larger exponent is above a canonical number. *)
Lemma full_above (m e : Z) (my : positive) (ey : Z) :
  Z.pos my < 2 ^ prec → 2 ^ (prec - 1) ≤ m → ey < e → above m e my ey.
Proof.
  intros Hmy Hm He. split; [lia|].
  assert (2 ^ prec = 2 ^ (prec - 1) * 2) by (rewrite Z.mul_comm, <-Z.pow_succ_r by lia; f_equal; lia).
  assert (2 ^ 1 ≤ 2 ^ (e - ey)) by (apply Z.pow_le_mono_r; lia).
  assert (0 < 2 ^ (prec - 1)) by (apply Z.pow_pos_nonneg; lia). nia.
Qed.

Lemma digits_scaled_ge (a : Z) (ea : Z) (b : positive) (eb : Z) :
  ea ≤ eb → Z.pos b * 2 ^ (eb - ea) ≤ a → Z.pos (digits2_pos b) + eb ≤ Zdigits2 a + ea.
Proof.
  intros He Hle. pose proof (Z.log2_le_mono _ _ Hle) as Hlog.
  assert (0 < 2 ^ (eb - ea)) by (apply Z.pow_pos_nonneg; lia).
  destruct a as [|a|a]; [nia| |nia]. cbn [Zdigits2]. rewrite !digits2_log2.
  rewrite Z.log2_mul_pow2 in Hlog by lia. lia.
Qed.

(** One normalisation step stays above a canonical number. *)
Lemma shr_fexp_lower (m e : Z) (l : location) (my : positive) (ey : Z) :
  0 < m → fexp prec emax (Z.pos (digits2_pos my) + ey) = ey →
  above m e my ey ∨ e ≤ ey ∧ Z.pos my * 2 ^ (ey - e) ≤ m →
  let '(x, e') := shr_fexp prec emax m e l in above (shr_floor x) e' my ey.
Proof.
  intros Hm Hcan Hcase.
  assert (Hmin : emin prec emax ≤ ey) by (rewrite <-Hcan; unfold fexp; lia).
  assert (Hd : ey ≤ e ∨ ey ≤ fexp prec emax (Zdigits2 m + e)).
  { destruct Hcase as [[? _]|[He Hle]]; [by left|right]. rewrite <-Hcan at 1.
    by apply fexp_mono, digits_scaled_ge. }
  pose proof (shr_fexp_spec m e l ltac:(lia)) as Hs.
  destruct (shr_fexp prec emax m e l) as [x e1], Hs as (-> & -> & _).
  destruct (decide (fexp prec emax (Zdigits2 m + e) ≤ e)) as [Hle|Hgt].
  { rewrite Z.max_l, Z.pow_0_r, Z.div_1_r, Z.add_0_r by lia.
    destruct Hcase as [|[He Hm']]; [done|]. assert (e = ey) as -> by lia.
    unfold above. rewrite Z.sub_diag, Z.pow_0_r in *. lia. }
  rewrite Z.max_r by lia. set (f := fexp prec emax (Zdigits2 m + e)) in *.
  replace (e + (f - e)) with f by lia.
  destruct (decide (f = ey)) as [Heq|Hne].
  - destruct Hcase as [[? _]|[He Hm']]; [lia|]. rewrite Heq. split; [done|].
    rewrite Z.sub_diag, Z.mul_1_r. apply Z.div_le_lower_bound; [apply Z.pow_pos_nonneg; lia|]. lia.
  - assert (f = Zdigits2 m + e - prec) by (unfold f, fexp in *; lia).
    apply full_above; [by eapply canonical_small| |lia].
    replace (prec - 1) with (Zdigits2 m - 1 - (f - e)) by lia. apply shr_keeps_digits; lia.
Qed.

(** Rounding a number above a representable one gives a number above it. *)
Lemma round_aux_lower (sx : bool) (m e : Z) (l : location) (my : positive) (ey : Z) :
  0 < m → e ≤ fexp prec emax (Zdigits2 m + e) →
  fexp prec emax (Z.pos (digits2_pos my) + ey) = ey →
  ey < e ∨ e ≤ ey ∧ Z.pos my * 2 ^ (ey - e) ≤ m →
  binary_round_aux prec emax sx m e l = S754_infinity sx ∨
  ∃ m' e', binary_round_aux prec emax sx m e l = S754_finite sx m' e' ∧ above (Z.pos m') e' my ey.
Proof.
  intros Hm Hexp Hcan Hcase.
  assert (Hmin : emin prec emax ≤ ey) by (rewrite <-Hcan; unfold fexp; lia).
  assert (Hcase' : above m e my ey ∨ e ≤ ey ∧ Z.pos my * 2 ^ (ey - e) ≤ m).
  { destruct Hcase as [He|]; [left|by right]. apply full_above; [by eapply canonical_small| |done].
    transitivity (2 ^ (Zdigits2 m - 1 - 0)); [apply Z.pow_le_mono_r; unfold fexp in *; lia|].
    pose proof (shr_keeps_digits m 0 Hm) as Hk. rewrite Z.pow_0_r, Z.div_1_r in Hk.
    apply Hk. destruct m; cbn [Zdigits2]; lia. }
  unfold binary_round_aux. pose proof (shr_fexp_lower m e l my ey Hm Hcan Hcase') as Hs1.
  destruct (shr_fexp prec emax m e l) as [x e1]. pose proof (round_between x) as [Hm1 _].
  set (m1 := round_nearest_even _ _) in *.
  assert (Hab : above m1 e1 my ey).
  { destruct Hs1 as [? Hv]. split; [done|]. etransitivity; [exact Hv|].
    apply Z.mul_le_mono_nonneg_r; [apply Z.pow_nonneg; lia|done]. }
  assert (Hm1pos : 0 < m1).
  { destruct Hab as [? Hv]. assert (0 < 2 ^ (e1 - ey)) by (apply Z.pow_pos_nonneg; lia). nia. }
  pose proof (shr_fexp_lower m1 e1 loc_Exact my ey Hm1pos Hcan (or_introl Hab)) as Hs2.
  destruct (shr_fexp prec emax m1 e1 loc_Exact) as [x2 e2].
  unfold shr_floor, above in Hs2. destruct Hs2 as [He2 Hv].
  assert (0 < 2 ^ (e2 - ey)) by (apply Z.pow_pos_nonneg; lia).
  destruct (shr_m x2) as [|p|p]; [lia| |nia].
  destruct (e2 <=? emax - prec); [right; by exists p, e2|by left].
Qed.
End rounding.

(** ** Comparisons

    They do not depend on the precision; every comparison with a NaN is false. *)

Definition flt (x y : spec_float) : bool := SFltb x y.
Definition fle (x y : spec_float) : bool := SFleb x y.
Definition fgt (x y : spec_float) : bool := SFltb y x.
Definition fge (x y : spec_float) : bool := SFleb y x.

(** [min] and [max]: a NaN loses against the other argument. *)
Definition fmin (x y : spec_float) : spec_float :=
  match x, y with
  | S754_nan, _ => y
  | _, S754_nan => x
  | _, _ => if SFltb y x then y else x
  end.
Definition fmax (x y : spec_float) : spec_float :=
  match x, y with
  | S754_nan, _ => y
  | _, S754_nan => x
  | _, _ => if SFltb x y then y else x
  end.

(** [x.clamp(lo, hi)]: a NaN stays one. *)
Definition fclamp (lo hi x : spec_float) : spec_float :=
  let x := if flt x lo then lo else x in
  if fgt x hi then hi else x.

Definition is_nan (x : spec_float) : bool := match x with S754_nan => true | _ => false end.
Definition is_finite (x : spec_float) : bool :=
  match x with S754_zero _ | S754_finite _ _ _ => true | _ => false end.

(** The order of the comparison: class and sign first, then exponent, then
    mantissa. *)
Definition float_key (x : spec_float) : Z * Z * Z :=
  match x with
  | S754_infinity true => (-2, 0, 0)
  | S754_finite true m e => (-1, - e, Z.neg m)
  | S754_zero _ | S754_nan => (0, 0, 0)
  | S754_finite false m e => (1, e, Z.pos m)
  | S754_infinity false => (2, 0, 0)
  end.
Definition lex_lt (x y : Z * Z * Z) : Prop :=
  let '(c, e, m) := x in let '(c', e', m') := y in
  c < c' ∨ c = c' ∧ (e < e' ∨ e = e' ∧ m < m').

Lemma compare_key (x y : spec_float) :
  match SFcompare x y with
  | Some Lt => is_nan x = false ∧ is_nan y = false ∧ lex_lt (float_key x) (float_key y)
  | Some Eq => is_nan x = false ∧ is_nan y = false ∧ float_key x = float_key y
  | Some Gt => is_nan x = false ∧ is_nan y = false ∧ lex_lt (float_key y) (float_key x)
  | None => is_nan x = true ∨ is_nan y = true
  end.
Proof.
  destruct x as [[]|[]| |[] m e], y as [[]|[]| |[] m' e']; cbn; auto;
    try (split_and!; first [done | unfold lex_lt; lia]).
  all: destruct (Z.compare_spec e e') as [->| |]; try (split_and!; first [done | unfold lex_lt; lia]).
  all: change (Pos.compare_cont Eq m m') with (Pos.compare m m');
    destruct (Pos.compare_spec m m') as [->| |]; cbn; try (split_and!; first [done | unfold lex_lt; lia]).
Qed.

Lemma fle_key (x y : spec_float) :
  fle x y = true ↔ is_nan x = false ∧ is_nan y = false ∧ ¬ lex_lt (float_key y) (float_key x).
Proof.
  unfold fle, SFleb. pose proof (compare_key x y) as Hk.
  destruct (SFcompare x y) as [[]|]; [destruct Hk as (-> & -> & Hk)..|].
  - rewrite Hk. destruct (float_key y) as [[??]?]. cbn. split; [|done]. intros _. lia.
  - destruct (float_key x) as [[??]?], (float_key y) as [[??]?]. cbn in *. split; [|done]. intros _. lia.
  - split; [done|tauto].
  - split; [done|]. destruct Hk as [->| ->]; naive_solver.
Qed.

Lemma flt_key (x y : spec_float) :
  flt x y = true ↔ is_nan x = false ∧ is_nan y = false ∧ lex_lt (float_key x) (float_key y).
Proof.
  unfold flt, SFltb. pose proof (compare_key x y) as Hk.
  destruct (SFcompare x y) as [[]|]; [destruct Hk as (-> & -> & Hk)..|].
  - rewrite Hk. destruct (float_key y) as [[??]?]. cbn. split; [done|lia].
  - tauto.
  - destruct (float_key x) as [[??]?], (float_key y) as [[??]?]. cbn in *. split; [done|lia].
  - split; [done|]. destruct Hk as [->| ->]; naive_solver.
Qed.

Lemma fle_trans (x y z : spec_float) : fle x y = true → fle y z = true → fle x z = true.
Proof.
  rewrite !fle_key. destruct (float_key x) as [[??]?], (float_key y) as [[??]?], (float_key z) as [[??]?].
  cbn. intros (? & ? & ?) (? & ? & ?). split_and!; [done..|lia].
Qed.

Lemma fle_refl (x : spec_float) : is_nan x = false → fle x x = true.
Proof. rewrite fle_key. destruct (float_key x) as [[??]?]. cbn. intros. split_and!; [done..|lia]. Qed.

Lemma flt_fle (x y : spec_float) : flt x y = true → fle x y = true.
Proof.
  rewrite fle_key, flt_key. destruct (float_key x) as [[??]?], (float_key y) as [[??]?].
  cbn. intros (? & ? & ?). split_and!; [done..|lia].
Qed.

Lemma not_flt_fle (x y : spec_float) :
  is_nan x = false → is_nan y = false → flt x y = false → fle y x = true.
Proof.
  intros Hx Hy Hlt%not_true_iff_false. rewrite fle_key. split_and!; [done..|].
  contradict Hlt. by rewrite flt_key.
Qed.

Lemma fle_not_nan (x y : spec_float) : fle x y = true → is_nan x = false ∧ is_nan y = false.
Proof. rewrite fle_key. tauto. Qed.

(** Between two numbers: what [clamp] and [max] give. *)
Definition fin_range (lo hi x : spec_float) : Prop := fle lo x = true ∧ fle x hi = true.

Lemma fclamp_range (lo hi x : spec_float) :
  fle lo hi = true → is_nan x = false → fin_range lo hi (fclamp lo hi x).
Proof.
  intros Hlh Hx. destruct (fle_not_nan _ _ Hlh) as [Hl Hh]. unfold fclamp, fin_range, fgt.
  assert (H1 : let y := if flt x lo then lo else x in is_nan y = false ∧ fle lo y = true).
  { cbv zeta. destruct (flt x lo) eqn:Hlt; [by auto using fle_refl|]. auto using not_flt_fle. }
  cbv zeta in H1. set (y := if flt x lo then lo else x) in *. destruct H1 as [Hy Hly].
  change (SFltb hi y) with (flt hi y). destruct (flt hi y) eqn:Hlt; [by auto using fle_refl|].
  auto using not_flt_fle.
Qed.

Lemma fmax_range (lo hi x y : spec_float) :
  fin_range lo hi x → is_nan y = false → fle y hi = true → fin_range lo hi (fmax x y).
Proof.
  intros [Hl Hh] Hy Hyh. destruct (fle_not_nan _ _ Hl) as [_ Hx].
  assert (fmax x y = if flt x y then y else x) as ->
    by (unfold fmax, flt; destruct x as [[]|[]| |[]], y as [[]|[]| |[]]; done).
  destruct (flt x y) eqn:Hlt; [|done].
  split; [|done]. eapply fle_trans; [exact Hl|]. by apply flt_fle.
Qed.

(** ** Bounds on the results of the operations *)

Definition fnonneg (x : spec_float) : bool := fle (S754_zero false) x.

(** A number of a given sign. *)
Definition signed (s : bool) (x : spec_float) : Prop :=
  match x with
  | S754_nan => False
  | S754_zero s' | S754_infinity s' | S754_finite s' _ _ => s' = s
  end.

Lemma signed_nonneg (x : spec_float) : signed false x → fnonneg x = true.
Proof. by destruct x as [[]|[]| |[] m e]. Qed.

Lemma signed_neg_le (x : spec_float) (m : positive) (e : Z) :
  signed true x → fle x (S754_finite false m e) = true.
Proof. by destruct x as [[]|[]| |[] m' e']. Qed.

Section operations.
Context (prec emax : Z) (Hprec : 0 < prec).

Lemma round_aux_signed (s : bool) (m e : Z) (l : location) :
  0 ≤ m → signed s (binary_round_aux prec emax s m e l).
Proof.
  intros Hm. unfold binary_round_aux. pose proof (shr_fexp_spec prec emax m e l Hm) as Hs1.
  destruct (shr_fexp prec emax m e l) as [x e1], Hs1 as (_ & Hf1 & _).
  pose proof (round_between x) as [Hm1 _]. set (m1 := round_nearest_even _ _) in *.
  assert (0 ≤ m1) by (etransitivity; [|exact Hm1]; rewrite Hf1; apply Z.div_pos; [|apply Z.pow_pos_nonneg]; lia).
  pose proof (shr_fexp_spec prec emax m1 e1 loc_Exact ltac:(done)) as Hs2.
  destruct (shr_fexp prec emax m1 e1 loc_Exact) as [x2 e2], Hs2 as (_ & Hf2 & _).
  unfold shr_floor in Hf2.
  assert (0 ≤ shr_m x2) by (rewrite Hf2; apply Z.div_pos; [|apply Z.pow_pos_nonneg]; lia).
  destruct (shr_m x2); [done| |lia]. by destruct (_ <=? _).
Qed.

Lemma round_signed (s : bool) (m : positive) (e : Z) : signed s (binary_round prec emax s m e).
Proof. unfold binary_round. destruct (shl_align _ _ _) as [mz ez]. by apply round_aux_signed. Qed.

Lemma normalize_nonneg (m e : Z) : 0 ≤ m → fnonneg (binary_normalize prec emax m e false) = true.
Proof. intros Hm. destruct m; [done| |lia]. apply signed_nonneg, round_signed. Qed.

Lemma add_nonneg (x y : spec_float) :
  fnonneg x = true → fnonneg y = true → fnonneg (SFadd prec emax x y) = true.
Proof.
  destruct x as [[]|[]| |[] m e], y as [[]|[]| |[] m' e']; try done.
  intros _ _. by apply normalize_nonneg.
Qed.

Lemma mul_nonneg (m : positive) (e : Z) (y : spec_float) :
  fnonneg y = true → fnonneg (SFmul prec emax (S754_finite false m e) y) = true.
Proof.
  destruct y as [[]|[]| |[] m' e']; try done. intros _. by apply signed_nonneg, round_aux_signed.
Qed.

Lemma rescale (a b x y z w : Z) :
  z ≤ x → z ≤ y → w ≤ x → w ≤ y → a * 2 ^ (x - z) ≤ b * 2 ^ (y - z) → a * 2 ^ (x - w) ≤ b * 2 ^ (y - w).
Proof.
  intros Hzx Hzy Hwx Hwy Hle. set (v := Z.min z w).
  assert (Hv : a * 2 ^ (x - v) ≤ b * 2 ^ (y - v)).
  { replace (x - v) with ((x - z) + (z - v)) by lia. replace (y - v) with ((y - z) + (z - v)) by lia.
    rewrite !Z.pow_add_r, !Z.mul_assoc by lia. apply Z.mul_le_mono_nonneg_r; [apply Z.pow_nonneg|]; lia. }
  replace (x - v) with ((x - w) + (w - v)) in Hv by lia. replace (y - v) with ((y - w) + (w - v)) in Hv by lia.
  rewrite !Z.pow_add_r, !Z.mul_assoc in Hv by lia.
  apply Z.mul_le_mono_pos_r in Hv; [done|]. apply Z.pow_pos_nonneg; lia.
Qed.

Lemma div_core_spec (m1 : positive) (e1 : Z) (m2 : positive) (e2 : Z) :
  let '(q, e, l) := SFdiv_core_binary prec emax (Z.pos m1) e1 (Z.pos m2) e2 in
  e = Z.min (fexp prec emax (Z.pos (digits2_pos m1) + e1 - (Z.pos (digits2_pos m2) + e2))) (e1 - e2) ∧
  q = Z.pos m1 * 2 ^ (e1 - e2 - e) / Z.pos m2 ∧
  (Z.pos m1 * 2 ^ (e1 - e2 - e) mod Z.pos m2 = 0 → l = loc_Exact).
Proof.
  unfold SFdiv_core_binary. cbn [Zdigits2]. set (e := Z.min _ _).
  set (m' := match e1 - e2 - e with Z0 => _ | Z.pos _ => _ | Z.neg _ => _ end).
  assert (m' = Z.pos m1 * 2 ^ (e1 - e2 - e)) as ->.
  { assert (0 ≤ e1 - e2 - e) by lia. unfold m'. destruct (e1 - e2 - e) eqn:Hs; [cbn; lia| |lia].
    by rewrite Z.shiftl_mul_pow2. }
  destruct (Z.div_eucl _ _) as [q r] eqn:Hqr. unfold Z.div, Z.modulo. rewrite Hqr. split_and!; [done..|].
  intros ->. unfold new_location, new_location_even, new_location_odd. by destruct (Z.even _).
Qed.

Lemma div_nonneg (x : spec_float) (m : positive) (e : Z) :
  fnonneg x = true → fnonneg (SFdiv prec emax x (S754_finite false m e)) = true.
Proof.
  destruct x as [[]|[]| |[] m' e']; try done. intros _. unfold SFdiv.
  pose proof (div_core_spec m' e' m e) as Hd.
  destruct (SFdiv_core_binary prec emax (Z.pos m') e' (Z.pos m) e) as [[q e1] l], Hd as (_ & -> & _).
  apply signed_nonneg, round_aux_signed. apply Z.div_pos; [|done].
  apply Z.mul_nonneg_nonneg; [done|]. by apply Z.pow_nonneg.
Qed.

(** A quotient rounded is at most, or at least, the representable numbers it is at
    most, or at least. *)
Lemma div_upper (m1 : positive) (e1 : Z) (m2 : positive) (e2 : Z) (mc : positive) (ec z : Z) :
  bounded prec emax mc ec = true → z ≤ e1 → z ≤ ec + e2 →
  Z.pos m1 * 2 ^ (e1 - z) ≤ Z.pos (mc * m2) * 2 ^ (ec + e2 - z) →
  let r := SFdiv prec emax (S754_finite false m1 e1) (S754_finite false m2 e2) in
  r = S754_zero false ∨ ∃ m e, r = S754_finite false m e ∧ below (Z.pos m) e mc ec.
Proof.
  intros Hb Hz1 Hz2 Hle. cbv zeta. unfold SFdiv. pose proof (div_core_spec m1 e1 m2 e2) as Hd.
  destruct (SFdiv_core_binary prec emax (Z.pos m1) e1 (Z.pos m2) e2) as [[q e] l], Hd as (He & Hq & Hl).
  assert (He' : e ≤ ec).
  { pose proof Hb as [Hcan%Z.eqb_eq _]%andb_true_iff. rewrite <-Hcan.
    etransitivity; [by rewrite He; apply Z.le_min_l|]. apply fexp_mono. rewrite !digits2_log2.
    pose proof (Z.log2_le_mono _ _ Hle) as Hlog. rewrite !Z.log2_mul_pow2 in Hlog by lia.
    pose proof (Z.log2_mul_above (Z.pos mc) (Z.pos m2) ltac:(lia) ltac:(lia)) as Hab. rewrite <-Pos2Z.inj_mul in Hab. lia. }
  apply (rescale _ _ _ _ _ (e + e2)) in Hle; [|lia..].
  replace (e1 - (e + e2)) with (e1 - e2 - e) in Hle by lia.
  replace (ec + e2 - (e + e2)) with (ec - e) in Hle by lia.
  set (n := Z.pos m1 * 2 ^ (e1 - e2 - e)) in *.
  assert (0 ≤ n) by (unfold n; apply Z.mul_nonneg_nonneg; [|apply Z.pow_nonneg]; lia).
  pose proof (Z.div_mod n (Z.pos m2) ltac:(lia)). pose proof (Z.mod_pos_bound n (Z.pos m2) ltac:(lia)).
  apply round_aux_upper; [rewrite Hq; by apply Z.div_pos|done..|].
  assert (Hc : shr_ceil (shr_record_of_loc q l) ≤ q + (if decide (n mod Z.pos m2 = 0) then 0 else 1)).
  { destruct (decide _) as [Hz|]; [by rewrite (Hl Hz)|]. destruct l as [|[]]; unfold shr_ceil; cbn; lia. }
  etransitivity; [exact Hc|]. rewrite Pos2Z.inj_mul in Hle. rewrite <-Hq in *. destruct (decide _); nia.
Qed.

Lemma quotient_log2 (n q d : Z) :
  0 < n → 0 < d → q = n / d → 0 < q → Z.log2 n ≤ Z.log2 q + Z.log2 d + 1.
Proof.
  intros Hn Hd Hq Hq0. apply Z.lt_succ_r. apply Z.log2_lt_pow2; [done|].
  pose proof (Z.log2_spec q Hq0) as [_ Hq2]. pose proof (Z.log2_spec d Hd) as [_ Hd2].
  assert (n < (q + 1) * d) by (rewrite Hq; pose proof (Z.mul_succ_div_gt n d Hd); lia).
  replace (Z.succ (Z.log2 q + Z.log2 d + 1)) with (Z.succ (Z.log2 q) + Z.succ (Z.log2 d)) by lia.
  pose proof (Z.log2_nonneg q). pose proof (Z.log2_nonneg d). rewrite Z.pow_add_r by lia. nia.
Qed.

Lemma div_lower (m1 : positive) (e1 : Z) (m2 : positive) (e2 : Z) (mc : positive) (ec z : Z) :
  fexp prec emax (Z.pos (digits2_pos mc) + ec) = ec → z ≤ e1 → z ≤ ec + e2 →
  Z.pos (mc * m2) * 2 ^ (ec + e2 - z) ≤ Z.pos m1 * 2 ^ (e1 - z) →
  let r := SFdiv prec emax (S754_finite false m1 e1) (S754_finite false m2 e2) in
  r = S754_infinity false ∨ ∃ m e, r = S754_finite false m e ∧ above (Z.pos m) e mc ec.
Proof.
  intros Hcan Hz1 Hz2 Hle. cbv zeta. unfold SFdiv. pose proof (div_core_spec m1 e1 m2 e2) as Hd.
  destruct (SFdiv_core_binary prec emax (Z.pos m1) e1 (Z.pos m2) e2) as [[q e] l], Hd as (He & Hq & _).
  rewrite !digits2_log2 in He. set (n := Z.pos m1 * 2 ^ (e1 - e2 - e)) in *.
  assert (Hn : 0 < n) by (unfold n; apply Z.mul_pos_pos; [|apply Z.pow_pos_nonneg]; lia).
  assert (Hlogn : Z.log2 n = Z.log2 (Z.pos m1) + (e1 - e2 - e)) by (unfold n; rewrite Z.log2_mul_pow2; lia).
  assert (Hcase : ec < e ∨ e ≤ ec ∧ Z.pos mc * 2 ^ (ec - e) ≤ q).
  { destruct (decide (ec < e)); [by left|right]. split; [lia|].
    apply (rescale _ _ _ _ _ (e + e2)) in Hle; [|lia..].
    replace (e1 - (e + e2)) with (e1 - e2 - e) in Hle by lia.
    replace (ec + e2 - (e + e2)) with (ec - e) in Hle by lia. fold n in Hle.
    rewrite Pos2Z.inj_mul in Hle. rewrite Hq. apply Z.div_le_lower_bound; lia. }
  assert (Hq0 : 0 < q).
  { destruct Hcase as [Hec|[? Hmc]]; [|assert (0 < 2 ^ (ec - e)) by (apply Z.pow_pos_nonneg; lia); nia].
    rewrite Hq. apply Z.div_str_pos. split; [done|]. apply Z.lt_le_incl, Z.log2_lt_cancel.
    rewrite Hlogn. assert (emin prec emax ≤ ec) by (rewrite <-Hcan; unfold fexp; lia).
    unfold fexp in He. lia. }
  apply round_aux_lower; [done..| |done|done].
  pose proof (quotient_log2 n q (Z.pos m2) Hn ltac:(lia) Hq Hq0) as Hlog.
  etransitivity; [by rewrite He; apply Z.le_min_l|]. apply fexp_mono.
  destruct q as [|q|q]; [lia| |lia]. cbn [Zdigits2]. rewrite digits2_log2. lia.
Qed.

Lemma shl_align_spec (m : positive) (e f : Z) :
  let '(m', e') := shl_align m e f in e' = Z.min e f ∧ Z.pos m' = Z.pos m * 2 ^ (e - e').
Proof.
  unfold shl_align. destruct (f - e) as [|d|d] eqn:Hd.
  1,2: split; [lia|]; rewrite Z.sub_diag, Z.pow_0_r; lia.
  split; [lia|]. replace (e - f) with (Z.pos d) by lia. clear Hd.
  induction d as [|d IH] using Pos.peano_ind; [cbn; lia|].
  rewrite Pos.iter_succ, Pos2Z.inj_xO, IH, Pos2Z.inj_succ, Z.pow_succ_r by lia. lia.
Qed.

Lemma round_upper (s : bool) (m : positive) (e : Z) (my : positive) (ey : Z) :
  bounded prec emax my ey = true → below (Z.pos m) e my ey →
  binary_round prec emax s m e = S754_zero s ∨
  ∃ m' e', binary_round prec emax s m e = S754_finite s m' e' ∧ below (Z.pos m') e' my ey.
Proof.
  intros Hb [He Hle]. unfold binary_round. pose proof (shl_align_spec m e (fexp prec emax (Z.pos (digits2_pos m) + e))) as Ha.
  destruct (shl_align _ _ _) as [mz ez], Ha as [Hez Hmz].
  apply round_aux_upper; [done|lia|done|]. unfold shr_ceil; cbn. rewrite Z.add_0_r, Hmz.
  replace (ey - ez) with ((ey - e) + (e - ez)) by lia. rewrite Z.pow_add_r, Z.mul_assoc by lia.
  apply Z.mul_le_mono_nonneg_r; [apply Z.pow_nonneg|]; lia.
Qed.

(** Subtracting never increases. *)
Lemma sub_le (x y : spec_float) :
  is_finite x = true → fnonneg x = true → valid_binary prec emax x = true → fnonneg y = true →
  fle (SFsub prec emax x y) x = true.
Proof.
  destruct x as [sx|[]| |[] m e]; try done; intros _ _ Hv; [by destruct sx, y as [[]|[]| |[]]|].
  destruct y as [sy|[]| |[] m' e']; try done; intros _; [apply fle_refl; done|]. unfold SFsub.
  pose proof (shl_align_spec m e (Z.min e e')) as Ha. pose proof (shl_align_spec m' e' (Z.min e e')) as Hb.
  destruct (shl_align m e (Z.min e e')) as [m1 e1], (shl_align m' e' (Z.min e e')) as [m2 e2].
  destruct Ha as [-> Hm1], Hb as [_ _]. cbn [fst cond_Zopp].
  destruct (Z.pos m1 - Z.pos m2) as [|p|p] eqn:Hp; cbn [binary_normalize]; [done| |].
  - destruct (round_upper false p (Z.min e e') m e Hv) as [->|(m3 & e3 & -> & He3 & Hm3)]; [|done|].
    { split; [lia|].
      replace (Z.min e (Z.min e e')) with (Z.min e e') in Hm1 by lia. lia. }
    unfold fle, SFleb. cbn. destruct (Z.compare_spec e3 e) as [->| |]; [|done|lia].
    rewrite Z.sub_diag, Z.mul_1_r in Hm3. change (Pos.compare_cont Eq m3 m) with (Pos.compare m3 m).
    destruct (Pos.compare_spec m3 m); [done..|lia].
  - apply signed_neg_le, round_signed.
Qed.

(** ** Results are representable *)

Lemma digits_bound (m k : Z) : 0 ≤ m → 0 ≤ k → Zdigits2 m ≤ k ↔ m < 2 ^ k.
Proof.
  intros Hm Hk. destruct m as [|p|p]; [|cbn [Zdigits2]; rewrite digits2_log2|lia].
  - cbn. split; [intros _; apply Z.pow_pos_nonneg|]; lia.
  - rewrite Z.log2_lt_pow2 by lia. lia.
Qed.

Lemma digits_pos (m k : Z) : 0 ≤ k → 2 ^ k ≤ m → k < Zdigits2 m.
Proof.
  intros Hk Hm. assert (0 < 2 ^ k) by (apply Z.pow_pos_nonneg; lia).
  destruct (Z.lt_ge_cases k (Zdigits2 m)) as [|Hle]; [done|]. apply digits_bound in Hle; lia.
Qed.

Lemma digits_pow2 (k : Z) : 0 ≤ k → Zdigits2 (2 ^ k) = k + 1.
Proof.
  intros Hk. assert (0 < 2 ^ k) by (apply Z.pow_pos_nonneg; lia). pose proof (Z.log2_pow2 k Hk).
  destruct (2 ^ k); [lia| |lia]. cbn [Zdigits2]. rewrite digits2_log2. lia.
Qed.

Definition canonical (m e : Z) : Prop := fexp prec emax (Zdigits2 m + e) = e.

(** What the first normalisation gives: a mantissa within the precision, full when
    the exponent is not the least. *)
Lemma shr_fexp_fits (m e : Z) (l : location) :
  0 ≤ m → e ≤ fexp prec emax (Zdigits2 m + e) →
  let '(x, e') := shr_fexp prec emax m e l in
  emin prec emax ≤ e' ∧ 0 ≤ shr_floor x < 2 ^ prec ∧
  shr_ceil x ≤ shr_floor x + 1 ∧ (e' = emin prec emax ∨ 2 ^ (prec - 1) ≤ shr_floor x).
Proof.
  intros Hm Hexp. pose proof (shr_fexp_spec prec emax m e l Hm) as Hs.
  destruct (shr_fexp prec emax m e l) as [x e1], Hs as (-> & Hf & _). rewrite Z.max_r in * by lia.
  set (f := fexp prec emax (Zdigits2 m + e)) in *. rewrite Hf. replace (e + (f - e)) with f by lia.
  assert (Hd0 : 0 ≤ Zdigits2 m) by (destruct m; cbn; lia).
  split_and!; [unfold f, fexp; lia|apply Z.div_pos; [done|apply Z.pow_pos_nonneg; lia]| | |].
  - apply Z.div_lt_upper_bound; [apply Z.pow_pos_nonneg; lia|]. rewrite <-Z.pow_add_r by lia.
    apply digits_bound; unfold f, fexp in *; lia.
  - rewrite <-Hf. unfold shr_ceil, shr_floor. destruct (_ || _); lia.
  - destruct (decide (f = emin prec emax)) as [|Hne]; [by left|right].
    assert (f = Zdigits2 m + e - prec) by (unfold f, fexp in *; lia).
    replace (prec - 1) with (Zdigits2 m - 1 - (f - e)) by lia. apply shr_keeps_digits; [|lia].
    destruct m; cbn [Zdigits2] in *; lia.
Qed.

Lemma round_aux_valid (s : bool) (m e : Z) (l : location) :
  0 ≤ m → e ≤ fexp prec emax (Zdigits2 m + e) →
  valid_binary prec emax (binary_round_aux prec emax s m e l) = true.
Proof.
  intros Hm Hexp. unfold binary_round_aux. pose proof (shr_fexp_fits m e l Hm Hexp) as Hs1.
  destruct (shr_fexp prec emax m e l) as [x e1], Hs1 as (He1 & Hfl & Hce & Hfull).
  pose proof (round_between x) as Hm1. set (m1 := round_nearest_even _ _) in *. clearbody m1.
  pose proof (shr_fexp_spec prec emax m1 e1 loc_Exact ltac:(lia)) as Hs2.
  destruct (shr_fexp prec emax m1 e1 loc_Exact) as [x2 e2], Hs2 as (-> & Hf2 & _).
  unfold shr_floor in Hf2.
  assert (Hcan : canonical (shr_m x2) (e1 + Z.max 0 (fexp prec emax (Zdigits2 m1 + e1) - e1))).
  { destruct (decide (m1 < 2 ^ prec)) as [Hlt|Hge].
    - assert (Zdigits2 m1 ≤ prec) by (apply digits_bound; lia).
      assert (Hz : Z.max 0 (fexp prec emax (Zdigits2 m1 + e1) - e1) = 0) by (unfold fexp; lia).
      rewrite Hz, Z.pow_0_r, Z.div_1_r in Hf2. rewrite Hz, Z.add_0_r, Hf2. unfold canonical, fexp.
      destruct Hfull as [|Hfull]; [lia|]. pose proof (digits_pos m1 (prec - 1) ltac:(lia) ltac:(lia)). lia.
    - assert (m1 = 2 ^ prec) as -> by lia. rewrite digits_pow2 in * by lia.
      assert (Hz : Z.max 0 (fexp prec emax (prec + 1 + e1) - e1) = 1) by (unfold fexp; lia).
      rewrite Hz in *. replace (2 ^ prec) with (2 ^ (prec - 1) * 2 ^ 1) in Hf2
        by (rewrite <-Z.pow_add_r by lia; f_equal; lia).
      rewrite Z.div_mul in Hf2 by lia. rewrite Hf2.
      unfold canonical, fexp. rewrite digits_pow2 by lia. lia. }
  set (e2 := e1 + _) in *. destruct (shr_m x2) as [|p|p]; [done| |done].
  destruct (e2 <=? emax - prec) eqn:He2; [|done].
  cbn. unfold bounded, canonical_mantissa. rewrite He2, andb_true_r. apply Z.eqb_eq.
  exact Hcan.
Qed.

Lemma round_valid (s : bool) (m : positive) (e : Z) :
  valid_binary prec emax (binary_round prec emax s m e) = true.
Proof.
  unfold binary_round. set (f := fexp prec emax (Z.pos (digits2_pos m) + e)).
  pose proof (shl_align_spec m e f) as Ha. destruct (shl_align m e f) as [mz ez], Ha as [Hez Hmz].
  apply round_aux_valid; [done|]. cbn [Zdigits2]. rewrite digits2_log2, Hmz, Z.log2_mul_pow2 by lia.
  unfold f in Hez. rewrite digits2_log2 in Hez.
  replace (e - ez + Z.log2 (Z.pos m) + 1 + ez) with (Z.log2 (Z.pos m) + 1 + e) by lia. lia.
Qed.

Lemma normalize_valid (m e : Z) (s : bool) : valid_binary prec emax (binary_normalize prec emax m e s) = true.
Proof. destruct m; [done|apply round_valid..]. Qed.

Lemma add_valid (x y : spec_float) :
  valid_binary prec emax x = true → valid_binary prec emax y = true →
  valid_binary prec emax (SFadd prec emax x y) = true.
Proof.
  destruct x as [[]|[]| |sx m e], y as [[]|[]| |sy m' e']; try done. intros _ _. apply normalize_valid.
Qed.

Lemma sub_valid (s : bool) (m : positive) (e : Z) (y : spec_float) :
  bounded prec emax m e = true → valid_binary prec emax (SFsub prec emax (S754_finite s m e) y) = true.
Proof. intros Hb. destruct y as [[]|[]| |sy m' e']; try done. apply normalize_valid. Qed.

Lemma mul_valid (x y : spec_float) :
  emin prec emax ≤ 0 → valid_binary prec emax x = true → valid_binary prec emax y = true →
  valid_binary prec emax (SFmul prec emax x y) = true.
Proof.
  intros Hemin. destruct x as [[]|[]| |sx m e], y as [[]|[]| |sy m' e']; try done.
  intros [Hx%Z.eqb_eq _]%andb_true_iff [Hy%Z.eqb_eq _]%andb_true_iff.
  apply round_aux_valid; [done|]. cbn [Zdigits2]. unfold canonical_mantissa, fexp in *.
  rewrite digits2_log2 in *.
  pose proof (Z.log2_mul_below (Z.pos m) (Z.pos m') ltac:(lia) ltac:(lia)) as Hlog.
  rewrite <-Pos2Z.inj_mul in Hlog. pose proof (Z.log2_nonneg (Z.pos m)). pose proof (Z.log2_nonneg (Z.pos m')). lia.
Qed.

(** ** Exact results *)

Lemma round_aux_exact (s : bool) (m : positive) (e : Z) :
  bounded prec emax m e = true → binary_round_aux prec emax s (Z.pos m) e loc_Exact = S754_finite s m e.
Proof.
  intros Hb. pose proof Hb as [Hcan%Z.eqb_eq _]%andb_true_iff.
  destruct (round_aux_upper prec emax s (Z.pos m) e loc_Exact m e) as [Hu|(m1 & e1 & Hu & He1 & Hm1)]; [done..| | |].
  { unfold shr_ceil. cbn. rewrite Z.sub_diag. lia. }
  all: destruct (round_aux_lower prec emax Hprec s (Z.pos m) e loc_Exact m e) as [Hl|(m2 & e2 & Hl & He2 & Hm2)];
    [done|cbn [Zdigits2]; lia|done|right; rewrite Z.sub_diag; lia|congruence|].
  { congruence. }
  rewrite Hu in Hl. injection Hl as <- <-. assert (e1 = e) as -> by lia.
  rewrite Z.sub_diag, Z.pow_0_r, Z.mul_1_r in *. rewrite Hu. do 2 f_equal. lia.
Qed.

Lemma normalize_exact (n : Z) :
  emin prec emax ≤ 0 → prec ≤ emax → 0 < n < 2 ^ prec →
  ∃ m e, binary_normalize prec emax n 0 false = S754_finite false m e ∧
    e ≤ 0 ∧ Z.pos m = n * 2 ^ (- e) ∧ bounded prec emax m e = true.
Proof.
  intros Hemin Hemax Hn. destruct n as [|p|p]; [lia| |lia]. cbn [binary_normalize]. unfold binary_round.
  set (f := fexp prec emax (Z.pos (digits2_pos p) + 0)).
  assert (Hd : Z.pos (digits2_pos p) ≤ prec) by (apply (digits_bound (Z.pos p)); lia).
  assert (Hf : f ≤ 0) by (unfold f, fexp; lia).
  pose proof (shl_align_spec p 0 f) as Ha. destruct (shl_align p 0 f) as [m e], Ha as [He Hm].
  rewrite Z.min_r in He by done. subst e. rewrite Z.sub_0_l in Hm.
  assert (Hb : bounded prec emax m f = true).
  { unfold bounded, canonical_mantissa. apply andb_true_iff. rewrite Z.eqb_eq, Z.leb_le. split; [|lia].
    rewrite digits2_log2, Hm, Z.log2_mul_pow2 by lia.
    replace (_ + 1 + f) with (Z.pos (digits2_pos p) + 0) by (rewrite digits2_log2; lia). done. }
  exists m, f. split_and!; [|done..]. by apply round_aux_exact.
Qed.

End operations.

(** [x as u8], [x as u32], ..: truncated towards zero and saturated at the width;
    a NaN is 0. *)
Definition trunc_to (max : Z) (x : spec_float) : Z :=
  match x with
  | S754_finite false m e =>
      Z.min max (if 0 <=? e then Z.pos m * 2 ^ e else Z.pos m / 2 ^ (- e))
  | S754_infinity false => max
  | _ => 0
  end.
Definition as_u8 : spec_float → Z := trunc_to 255.
Definition as_u32 : spec_float → Z := trunc_to 4294967295.

(** The value of [x] rounded into a format: [x as f32], [x as f64]. *)
Definition convert (prec emax : Z) (x : spec_float) : spec_float :=
  match x with
  | S754_finite s m e => binary_normalize prec emax (cond_Zopp s (Z.pos m)) e s
  | _ => x
  end.

(** ** [f64] and [f32] *)

Module F64.
Abbreviation f64 := spec_float (only parsing).
Definition prec : Z := 53.
Definition emax : Z := 1024.
(** [n as f64]. *)
Definition of_Z (n : Z) : f64 := binary_normalize prec emax n 0 false.
Definition add (x y : f64) : f64 := SFadd prec emax x y.
Definition sub (x y : f64) : f64 := SFsub prec emax x y.
Definition mul (x y : f64) : f64 := SFmul prec emax x y.
Definition div (x y : f64) : f64 := SFdiv prec emax x y.
Definition sqrt (x : f64) : f64 := SFsqrt prec emax x.
Definition of_f32 (x : spec_float) : f64 := convert prec emax x.
(** The literal [n / d], correctly rounded. *)
Definition lit (n d : Z) : f64 := div (of_Z n) (of_Z d).
End F64.

Module F32.
Abbreviation f32 := spec_float (only parsing).
Definition prec : Z := 24.
Definition emax : Z := 128.
Definition of_Z (n : Z) : f32 := binary_normalize prec emax n 0 false.
Definition add (x y : f32) : f32 := SFadd prec emax x y.
Definition sub (x y : f32) : f32 := SFsub prec emax x y.
Definition mul (x y : f32) : f32 := SFmul prec emax x y.
Definition div (x y : f32) : f32 := SFdiv prec emax x y.
Definition sqrt (x : f32) : f32 := SFsqrt prec emax x.
Definition of_f64 (x : spec_float) : f32 := convert prec emax x.
Definition lit (n d : Z) : f32 := div (of_Z n) (of_Z d).
End F32.

(** ** Durations *)

(** [Duration::as_secs_f64]. *)
Definition as_secs_f64 (d : Duration) : spec_float :=
  F64.add (F64.of_Z (as_secs d)) (F64.div (F64.of_Z (d `mod` nanos_per_sec)) (F64.of_Z nanos_per_sec)).

(** [n / d] to the nearest integer, ties to even. *)
Definition nearest (n d : Z) : Z :=
  let q := n / d in
  match Z.compare (2 * (n mod d)) d with
  | Lt => q
  | Eq => if Z.even q then q else q + 1
  | Gt => q + 1
  end.

(** [Duration::from_secs_f64]: to the nearest nanosecond; [None] is the panic on a
    negative, non-finite or too large argument. *)
Definition from_secs_f64 (x : spec_float) : option Duration :=
  match x with
  | S754_zero _ => Some 0
  | S754_finite false m e =>
      if 0 <=? e then
        if Z.pos m * 2 ^ e <? u64_modulus then Some (Z.pos m * 2 ^ e * nanos_per_sec) else None
      else if Z.pos m / 2 ^ (- e) <? u64_modulus then
        Some (nearest (Z.pos m * nanos_per_sec) (2 ^ (- e)))
      else None
  | _ => None
  end.

Example delays :
  from_secs_f64 (F64.div (F64.of_Z 20) (F64.of_Z 1000)) = Some 20000000 ∧
  from_secs_f64 (F64.lit 2 10) = Some 200000000 ∧
  from_secs_f64 (F64.lit (-1) 1000) = None ∧ as_u32 (F64.mul (F64.of_Z 32000) (F64.lit 75 100)) = 24000.
Proof. vm_compute. done. Qed.
