(* ===== verification/Signaling.v ===== *)
(** * The signaling wire contract (shared/src/signaling/mod.rs)

    The payload structs and the [SignalingMessage] envelope shared by the
    backend and the clients, constructor for constructor, and the outbound
    signals ([voice/sfu_relay.rs]) the handlers address to peers.  A record
    field is the source's field name prefixed by the struct's name; strings are
    their UTF-8 bytes, unsigned integers are [Z].  JSON encoding is serde's and
    is not modelled. *)

From S2P Require Import Prelude.

(** ** Enumerations *)

(** [JoinRejectionReason]: machine-parseable reason for join rejection. *)
Inductive JoinRejectionReason : Type :=
| InviteExpired
| InviteRevoked
| InviteInvalid
| InviteRequired
| InviteExhausted
| RoomFull
| RateLimited
| NotAuthorized.

#[global] Instance JoinRejectionReason_eq_dec : EqDecision JoinRejectionReason.
Proof. solve_decision. Defined.

(** [WireSharePermission]: wire-format share permission value. *)
Inductive WireSharePermission : Type :=
| WireAnyone
| WireHostOnly.

#[global] Instance WireSharePermission_eq_dec : EqDecision WireSharePermission.
Proof. solve_decision. Defined.

(** [WireSharePermission::from_str_opt]. *)
Definition WireSharePermission_from_str_opt (s : string) : option WireSharePermission :=
  if bool_decide (s = "anyone") then Some WireAnyone
  else if bool_decide (s = "host_only") then Some WireHostOnly
  else None.

(** [WireSharePermission::as_str]. *)
Definition WireSharePermission_as_str (p : WireSharePermission) : string :=
  match p with
  | WireAnyone => "anyone"
  | WireHostOnly => "host_only"
  end.

(** [WireShareType]: wire-format screen share type. *)
Inductive WireShareType : Type :=
| ScreenAudio
| Window
| AudioOnly
| Browser.

#[global] Instance WireShareType_eq_dec : EqDecision WireShareType.
Proof. solve_decision. Defined.

#[global] Instance WireShareType_countable : Countable WireShareType.
Proof.
  refine (inj_countable'
    (λ t, match t with ScreenAudio => 0 | Window => 1 | AudioOnly => 2 | Browser => 3 end)%nat
    (λ n, match n with 0 => ScreenAudio | 1 => Window | 2 => AudioOnly | _ => Browser end)%nat _).
  by intros [].
Defined.

(** [WireShareType::is_audio_only]. *)
Definition is_audio_only (t : WireShareType) : bool :=
  match t with AudioOnly => true | _ => false end.

(** [WireSubRoomMembershipSource]: source of a participant's sub-room membership. *)
Inductive WireSubRoomMembershipSource : Type :=
| WireExplicit
| WireLegacyRoomOne.

(** ** Payloads *)

(** [JoinRejectedPayload]: Structured join rejection payload. *)
Record JoinRejectedPayload : Type := mkJoinRejectedPayload {
  JoinRejected_reason : JoinRejectionReason
}.

(** [SfuColdStartingPayload]: Server -> client: the SFU EC2 instance is cold-starting after an idle shutdown. *)
Record SfuColdStartingPayload : Type := mkSfuColdStartingPayload {
  SfuColdStarting_estimated_wait_secs : Z
}.

(** [CreateRoomPayload]: Client requests room creation. No invite code needed - creator becomes Host. *)
Record CreateRoomPayload : Type := mkCreateRoomPayload {
  CreateRoom_room_id : string;
  CreateRoom_room_type : option string;
  CreateRoom_display_name : option string;
  CreateRoom_profile_color : option string
}.

(** [InviteCreatePayload]: Client requests a new invite code for the room they're in. *)
Record InviteCreatePayload : Type := mkInviteCreatePayload {
  InviteCreate_max_uses : option Z
}.

(** [InviteCreatedPayload]: Server responds with the generated invite code. *)
Record InviteCreatedPayload : Type := mkInviteCreatedPayload {
  InviteCreated_invite_code : string;
  InviteCreated_expires_in_secs : Z;
  InviteCreated_max_uses : Z
}.

(** [InviteRevokePayload]: Client requests revocation of a specific invite code. *)
Record InviteRevokePayload : Type := mkInviteRevokePayload {
  InviteRevoke_invite_code : string
}.

(** [InviteRevokedPayload]: Server confirms revocation. *)
Record InviteRevokedPayload : Type := mkInviteRevokedPayload {
  InviteRevoked_invite_code : string
}.

(** [JoinPayload]: Client -> server request to join a room using a room id and optional invite. *)
Record JoinPayload : Type := mkJoinPayload {
  Join_room_id : string;
  Join_room_type : option string;
  Join_invite_code : option string;
  Join_display_name : option string;
  Join_profile_color : option string
}.

(** [IceConfigPayload]: ICE configuration with dynamic TURN credentials (Phase 3+). *)
Record IceConfigPayload : Type := mkIceConfigPayload {
  IceConfig_stun_urls : list string;
  IceConfig_turn_urls : list string;
  IceConfig_turn_username : string;
  IceConfig_turn_credential : string
}.

(** [RoomCreatedPayload]: Server confirms room creation. Creator is joined as Host with an initial invite code. *)
Record RoomCreatedPayload : Type := mkRoomCreatedPayload {
  RoomCreated_room_id : string;
  RoomCreated_peer_id : string;
  RoomCreated_invite_code : string;
  RoomCreated_expires_in_secs : Z;
  RoomCreated_max_uses : Z;
  RoomCreated_ice_config : option IceConfigPayload
}.

(** [SessionDescription]: WebRTC session description transported on the signaling channel. *)
Record SessionDescription : Type := mkSessionDescription {
  SessionDescription_sdp : string;
  SessionDescription_sdp_type : string
}.

(** [OfferPayload]: SDP offer payload carried by [`SignalingMessage::Offer`]. *)
Record OfferPayload : Type := mkOfferPayload {
  Offer_session_description : SessionDescription
}.

(** [AnswerPayload]: SDP answer payload carried by [`SignalingMessage::Answer`]. *)
Record AnswerPayload : Type := mkAnswerPayload {
  Answer_session_description : SessionDescription
}.

(** [IceCandidate]: Individual ICE candidate details emitted by the WebRTC stack. *)
Record IceCandidate : Type := mkIceCandidate {
  Ice_candidate : string;
  Ice_sdp_mid : string;
  Ice_sdp_mline_index : Z
}.

(** [IceCandidatePayload]: ICE candidate wrapper used inside `SignalingMessage::IceCandidate`. *)
Record IceCandidatePayload : Type := mkIceCandidatePayload {
  IceCandidate_candidate : IceCandidate
}.

(** [ErrorPayload]: Opaque signaling error payload returned by the server. *)
Record ErrorPayload : Type := mkErrorPayload {
  Error_message : string
}.

(** [ParticipantInfo]: Describes a participant in a multi-party room. *)
Record ParticipantInfo : Type := mkParticipantInfo {
  participant_id : string;
  display_name : string;
  user_id : option string;
  profile_color : option string;
  is_muted : bool;
  is_host_muted : bool;
  is_deafened : bool
}.

(** [JoinedPayload]: Server -> client confirmation payload for a successful room join. *)
Record JoinedPayload : Type := mkJoinedPayload {
  Joined_room_id : string;
  Joined_peer_id : string;
  Joined_peer_count : Z;
  Joined_participants : list ParticipantInfo;
  Joined_ice_config : option IceConfigPayload;
  Joined_share_permission : option WireSharePermission
}.

(** [ParticipantJoinedPayload]: Broadcast to existing participants when a new participant joins. *)
Record ParticipantJoinedPayload : Type := mkParticipantJoinedPayload {
  ParticipantJoined_participant_id : string;
  ParticipantJoined_display_name : string;
  ParticipantJoined_user_id : option string;
  ParticipantJoined_profile_color : option string
}.

(** [ParticipantLeftPayload]: Broadcast to remaining participants when a participant leaves. *)
Record ParticipantLeftPayload : Type := mkParticipantLeftPayload {
  ParticipantLeft_participant_id : string
}.

(** [RoomStatePayload]: Sent to late joiners with the current participant list. *)
Record RoomStatePayload : Type := mkRoomStatePayload {
  RoomState_participants : list ParticipantInfo
}.

(** [MediaTokenPayload]: Sent to a joining participant with their SFU media access token. *)
Record MediaTokenPayload : Type := mkMediaTokenPayload {
  MediaToken_token : string;
  MediaToken_sfu_url : string
}.

(** [RequestViewerTokenPayload]: Client requests a subscribe-only hidden viewer token for a child viewer. *)
Record RequestViewerTokenPayload : Type := mkRequestViewerTokenPayload {
  RequestViewerToken_window_id : string
}.

(** [ViewerTokenPayload]: Server response to `RequestViewerToken`, sent to the requester only. *)
Record ViewerTokenPayload : Type := mkViewerTokenPayload {
  ViewerToken_window_id : string;
  ViewerToken_token : string;
  ViewerToken_sfu_url : string;
  ViewerToken_identity : string
}.

(** [KickParticipantPayload]: Client requests to kick a participant from the room. *)
Record KickParticipantPayload : Type := mkKickParticipantPayload {
  KickParticipant_target_participant_id : string
}.

(** [MuteParticipantPayload]: Client requests to mute a participant in the room. *)
Record MuteParticipantPayload : Type := mkMuteParticipantPayload {
  MuteParticipant_target_participant_id : string
}.

(** [UnmuteParticipantPayload]: Client requests to unmute (release host-mute on) a participant in the room. *)
Record UnmuteParticipantPayload : Type := mkUnmuteParticipantPayload {
  UnmuteParticipant_target_participant_id : string
}.

(** [ParticipantKickedPayload]: Broadcast to all participants when a participant is kicked. *)
Record ParticipantKickedPayload : Type := mkParticipantKickedPayload {
  ParticipantKicked_participant_id : string;
  ParticipantKicked_reason : string
}.

(** [ParticipantMutedPayload]: Broadcast to all participants when a participant is muted. *)
Record ParticipantMutedPayload : Type := mkParticipantMutedPayload {
  ParticipantMuted_participant_id : string
}.

(** [ParticipantUnmutedPayload]: Broadcast to all participants when a participant's host-mute is released. *)
Record ParticipantUnmutedPayload : Type := mkParticipantUnmutedPayload {
  ParticipantUnmuted_participant_id : string
}.

(** [ParticipantSelfMutedPayload]: Broadcast to all participants when a participant mutes themselves. *)
Record ParticipantSelfMutedPayload : Type := mkParticipantSelfMutedPayload {
  ParticipantSelfMuted_participant_id : string
}.

(** [ParticipantSelfUnmutedPayload]: Broadcast to all participants when a participant unmutes themselves. *)
Record ParticipantSelfUnmutedPayload : Type := mkParticipantSelfUnmutedPayload {
  ParticipantSelfUnmuted_participant_id : string
}.

(** [ParticipantDeafenedPayload]: Broadcast to all participants when a participant deafens themselves. *)
Record ParticipantDeafenedPayload : Type := mkParticipantDeafenedPayload {
  ParticipantDeafened_participant_id : string
}.

(** [ParticipantUndeafenedPayload]: Broadcast to all participants when a participant undeafens themselves. *)
Record ParticipantUndeafenedPayload : Type := mkParticipantUndeafenedPayload {
  ParticipantUndeafened_participant_id : string
}.

(** [StartSharePayload]: Client requests to begin a screen share. *)
Record StartSharePayload : Type := mkStartSharePayload {
  StartShare_share_type : option WireShareType
}.

(** [ShareStartedPayload]: Broadcast to all participants when a screen share starts. *)
Record ShareStartedPayload : Type := mkShareStartedPayload {
  ShareStarted_participant_id : string;
  ShareStarted_display_name : string;
  ShareStarted_share_type : option WireShareType
}.

(** [StopSharePayload]: Client requests to stop a screen share (optionally targeting another participant's share). *)
Record StopSharePayload : Type := mkStopSharePayload {
  StopShare_target_participant_id : option string;
  StopShare_share_type : option WireShareType
}.

(** [ShareStoppedPayload]: Broadcast to all participants when a screen share stops. *)
Record ShareStoppedPayload : Type := mkShareStoppedPayload {
  ShareStopped_participant_id : string;
  ShareStopped_display_name : string;
  ShareStopped_share_type : option WireShareType
}.

(** [ActiveSharePayload]: Typed metadata for one active share in a late-join snapshot. *)
Record ActiveSharePayload : Type := mkActiveSharePayload {
  ActiveShare_participant_id : string;
  ActiveShare_share_type : option WireShareType
}.

(** [ShareStatePayload]: Snapshot of all active screen sharers in a room. Sent to late joiners. *)
Record ShareStatePayload : Type := mkShareStatePayload {
  ShareState_participant_ids : list string;
  ShareState_active_shares : list ActiveSharePayload
}.

(** [SetSharePermissionPayload]: Client (host) requests a share permission change. *)
Record SetSharePermissionPayload : Type := mkSetSharePermissionPayload {
  SetSharePermission_permission : WireSharePermission
}.

(** [SharePermissionChangedPayload]: Server broadcasts the new share permission to all participants. *)
Record SharePermissionChangedPayload : Type := mkSharePermissionChangedPayload {
  SharePermissionChanged_permission : WireSharePermission
}.

(** [ViewerSubscribedPayload]: Viewer tells server they subscribed to a sharer's stream (client → server). *)
Record ViewerSubscribedPayload : Type := mkViewerSubscribedPayload {
  ViewerSubscribed_target_id : string
}.

(** [ViewerJoinedPayload]: Server notifies sharer that someone started watching (server → sharer). *)
Record ViewerJoinedPayload : Type := mkViewerJoinedPayload {
  ViewerJoined_viewer_id : string;
  ViewerJoined_display_name : string
}.

(** [AuthPayload]: Client sends access token to authenticate the WebSocket connection. *)
Record AuthPayload : Type := mkAuthPayload {
  Auth_access_token : string
}.

(** [AuthSuccessPayload]: Server confirms authentication with the user_id. *)
Record AuthSuccessPayload : Type := mkAuthSuccessPayload {
  AuthSuccess_user_id : string
}.

(** [AuthFailedPayload]: Server rejects authentication with an opaque reason. *)
Record AuthFailedPayload : Type := mkAuthFailedPayload {
  AuthFailed_reason : string
}.

(** [JoinVoicePayload]: Client requests to join voice in a channel. The server resolves the active room internally. *)
Record JoinVoicePayload : Type := mkJoinVoicePayload {
  JoinVoice_channel_id : string;
  JoinVoice_display_name : option string;
  JoinVoice_profile_color : option string;
  JoinVoice_supports_sub_rooms : option bool
}.

(** [SubRoomInfoPayload]: Snapshot information for a single synchronized sub-room. *)
Record SubRoomInfoPayload : Type := mkSubRoomInfoPayload {
  SubRoomInfo_sub_room_id : string;
  SubRoomInfo_room_number : Z;
  SubRoomInfo_is_default : bool;
  SubRoomInfo_participant_ids : list string;
  SubRoomInfo_delete_at_ms : option Z
}.

(** [CreateSubRoomPayload]: Client requests a new sub-room in the active channel voice session. *)
Record CreateSubRoomPayload : Type := mkCreateSubRoomPayload { }.

(** [JoinSubRoomPayload]: Client requests to join a specific sub-room in the active channel voice session. *)
Record JoinSubRoomPayload : Type := mkJoinSubRoomPayload {
  JoinSubRoom_sub_room_id : string
}.

(** [LeaveSubRoomPayload]: Client requests to leave the current sub-room while remaining in the voice session. *)
Record LeaveSubRoomPayload : Type := mkLeaveSubRoomPayload { }.

(** [SetPassthroughPayload]: Client requests passthrough from their currently joined room to another synchronized sub-room. *)
Record SetPassthroughPayload : Type := mkSetPassthroughPayload {
  SetPassthrough_target_sub_room_id : string
}.

(** [ClearPassthroughPayload]: Client requests that the active passthrough pair be cleared. *)
Record ClearPassthroughPayload : Type := mkClearPassthroughPayload { }.

(** [SetPassthroughEnabledPayload]: Client (admin/owner) enables or disables new passthrough links for the channel. *)
Record SetPassthroughEnabledPayload : Type := mkSetPassthroughEnabledPayload {
  SetPassthroughEnabled_enabled : bool
}.

(** [SetPassthroughVolumePayload]: Client (admin/owner) sets the passthrough volume for all participants (0–100). *)
Record SetPassthroughVolumePayload : Type := mkSetPassthroughVolumePayload {
  SetPassthroughVolume_volume : Z
}.

(** [SetPassthroughFilterPayload]: Client (admin/owner) sets the passthrough muffle filter for all participants. *)
Record SetPassthroughFilterPayload : Type := mkSetPassthroughFilterPayload {
  SetPassthroughFilter_enabled : bool;
  SetPassthroughFilter_strength : Z
}.

(** [PassthroughStatePayload]: Authoritative passthrough pair included in synchronized sub-room snapshots. *)
Record PassthroughStatePayload : Type := mkPassthroughStatePayload {
  PassthroughState_source_sub_room_id : string;
  PassthroughState_target_sub_room_id : string;
  PassthroughState_label : string
}.

(** [SubRoomStatePayload]: Server snapshot of every sub-room in the active channel voice session. *)
Record SubRoomStatePayload : Type := mkSubRoomStatePayload {
  SubRoomState_rooms : list SubRoomInfoPayload;
  SubRoomState_passthrough : option PassthroughStatePayload;
  SubRoomState_passthrough_enabled : bool;
  SubRoomState_passthrough_volume_percent : Z;
  SubRoomState_passthrough_filters_enabled : bool;
  SubRoomState_passthrough_filter_strength : Z
}.

(** [SubRoomCreatedPayload]: Server announces a newly created sub-room. *)
Record SubRoomCreatedPayload : Type := mkSubRoomCreatedPayload {
  SubRoomCreated_room : SubRoomInfoPayload
}.

(** [SubRoomJoinedPayload]: Server announces that a participant joined or switched to a sub-room. *)
Record SubRoomJoinedPayload : Type := mkSubRoomJoinedPayload {
  SubRoomJoined_participant_id : string;
  SubRoomJoined_sub_room_id : string;
  SubRoomJoined_source : WireSubRoomMembershipSource
}.

(** [SubRoomLeftPayload]: Server announces that a participant left a sub-room. *)
Record SubRoomLeftPayload : Type := mkSubRoomLeftPayload {
  SubRoomLeft_participant_id : string;
  SubRoomLeft_sub_room_id : string
}.

(** [SubRoomDeletedPayload]: Server announces that a sub-room was deleted. *)
Record SubRoomDeletedPayload : Type := mkSubRoomDeletedPayload {
  SubRoomDeleted_sub_room_id : string
}.

(** [ChatSendPayload]: Client sends a chat message to the room (client → server). *)
Record ChatSendPayload : Type := mkChatSendPayload {
  ChatSend_text : string
}.

(** [ChatMessagePayload]: Server broadcasts a chat message to all room participants (server → client). *)
Record ChatMessagePayload : Type := mkChatMessagePayload {
  ChatMessage_participant_id : string;
  ChatMessage_user_id : option string;
  ChatMessage_display_name : string;
  ChatMessage_text : string;
  ChatMessage_timestamp : string;
  ChatMessage_message_id : option string
}.

(** [ChatHistoryRequestPayload]: Client requests chat history for the current room (client → server). *)
Record ChatHistoryRequestPayload : Type := mkChatHistoryRequestPayload {
  ChatHistoryRequest_since : option string
}.

(** [ChatHistoryMessagePayload]: A single historical chat message in a ChatHistoryResponse. *)
Record ChatHistoryMessagePayload : Type := mkChatHistoryMessagePayload {
  ChatHistoryMessage_message_id : string;
  ChatHistoryMessage_participant_id : string;
  ChatHistoryMessage_user_id : option string;
  ChatHistoryMessage_display_name : string;
  ChatHistoryMessage_text : string;
  ChatHistoryMessage_timestamp : string
}.

(** [ChatHistoryResponsePayload]: Server responds with historical chat messages (server → client). *)
Record ChatHistoryResponsePayload : Type := mkChatHistoryResponsePayload {
  ChatHistoryResponse_messages : list ChatHistoryMessagePayload
}.

(** [SessionDisplacedPayload]: Sent to a client whose session was displaced by the same user joining from another client. *)
Record SessionDisplacedPayload : Type := mkSessionDisplacedPayload {
  SessionDisplaced_reason : string
}.

(** [UpdateProfileColorPayload]: Client sends updated profile colour to the backend. *)
Record UpdateProfileColorPayload : Type := mkUpdateProfileColorPayload {
  UpdateProfileColor_profile_color : string
}.

(** [ParticipantColorUpdatedPayload]: Server broadcasts new colour to all room participants. *)
Record ParticipantColorUpdatedPayload : Type := mkParticipantColorUpdatedPayload {
  ParticipantColorUpdated_participant_id : string;
  ParticipantColorUpdated_profile_color : string
}.

(** [UpdateUsernamePayload]: Client sends updated username to the backend. *)
Record UpdateUsernamePayload : Type := mkUpdateUsernamePayload {
  UpdateUsername_username : string
}.

(** [ParticipantUsernameUpdatedPayload]: Server broadcasts new username to all room participants. *)
Record ParticipantUsernameUpdatedPayload : Type := mkParticipantUsernameUpdatedPayload {
  ParticipantUsernameUpdated_participant_id : string;
  ParticipantUsernameUpdated_username : string
}.

(** ** The envelope

    [SignalingMessage]: the constructors carry the payload of the source's
    variants. *)

Module Msg.

Inductive SignalingMessage : Type :=
| Join (p : JoinPayload)
| Joined (p : JoinedPayload)
| Offer (p : OfferPayload)
| Answer (p : AnswerPayload)
| IceCandidate (p : IceCandidatePayload)
| PeerLeft
| Leave
| Error (p : ErrorPayload)
| JoinRejected (p : JoinRejectedPayload)
| InviteCreate (p : InviteCreatePayload)
| InviteCreated (p : InviteCreatedPayload)
| InviteRevoke (p : InviteRevokePayload)
| InviteRevoked (p : InviteRevokedPayload)
| ParticipantJoined (p : ParticipantJoinedPayload)
| ParticipantLeft (p : ParticipantLeftPayload)
| RoomState (p : RoomStatePayload)
| MediaToken (p : MediaTokenPayload)
| RequestViewerToken (p : RequestViewerTokenPayload)
| ViewerToken (p : ViewerTokenPayload)
| KickParticipant (p : KickParticipantPayload)
| MuteParticipant (p : MuteParticipantPayload)
| UnmuteParticipant (p : UnmuteParticipantPayload)
| SelfMute
| SelfUnmute
| SelfDeafen
| SelfUndeafen
| ParticipantKicked (p : ParticipantKickedPayload)
| ParticipantMuted (p : ParticipantMutedPayload)
| ParticipantUnmuted (p : ParticipantUnmutedPayload)
| ParticipantSelfMuted (p : ParticipantSelfMutedPayload)
| ParticipantSelfUnmuted (p : ParticipantSelfUnmutedPayload)
| ParticipantDeafened (p : ParticipantDeafenedPayload)
| ParticipantUndeafened (p : ParticipantUndeafenedPayload)
| StartShare (p : StartSharePayload)
| ShareStarted (p : ShareStartedPayload)
| StopShare (p : StopSharePayload)
| ShareStopped (p : ShareStoppedPayload)
| StopAllShares
| ShareState (p : ShareStatePayload)
| SetSharePermission (p : SetSharePermissionPayload)
| SharePermissionChanged (p : SharePermissionChangedPayload)
| ViewerSubscribed (p : ViewerSubscribedPayload)
| ViewerJoined (p : ViewerJoinedPayload)
| CreateRoom (p : CreateRoomPayload)
| RoomCreated (p : RoomCreatedPayload)
| Auth (p : AuthPayload)
| AuthSuccess (p : AuthSuccessPayload)
| AuthFailed (p : AuthFailedPayload)
| JoinVoice (p : JoinVoicePayload)
| CreateSubRoom (p : CreateSubRoomPayload)
| JoinSubRoom (p : JoinSubRoomPayload)
| LeaveSubRoom (p : LeaveSubRoomPayload)
| SetPassthrough (p : SetPassthroughPayload)
| ClearPassthrough (p : ClearPassthroughPayload)
| SetPassthroughEnabled (p : SetPassthroughEnabledPayload)
| SetPassthroughVolume (p : SetPassthroughVolumePayload)
| SetPassthroughFilter (p : SetPassthroughFilterPayload)
| SubRoomState (p : SubRoomStatePayload)
| SubRoomCreated (p : SubRoomCreatedPayload)
| SubRoomJoined (p : SubRoomJoinedPayload)
| SubRoomLeft (p : SubRoomLeftPayload)
| SubRoomDeleted (p : SubRoomDeletedPayload)
| SfuColdStarting (p : SfuColdStartingPayload)
| ChatSend (p : ChatSendPayload)
| ChatMessage (p : ChatMessagePayload)
| ChatHistoryRequest (p : ChatHistoryRequestPayload)
| ChatHistoryResponse (p : ChatHistoryResponsePayload)
| Ping
| SessionDisplaced (p : SessionDisplacedPayload)
| UpdateProfileColor (p : UpdateProfileColorPayload)
| ParticipantColorUpdated (p : ParticipantColorUpdatedPayload)
| UpdateUsername (p : UpdateUsernamePayload)
| ParticipantUsernameUpdated (p : ParticipantUsernameUpdatedPayload).

End Msg.

Abbreviation SignalingMessage := Msg.SignalingMessage.

(** [SignalingMessage::Error] with the message [s]. *)
Definition error_message (s : string) : SignalingMessage :=
  Msg.Error (mkErrorPayload s).

(** ** Roles and outbound signals (voice/sfu_relay.rs) *)

(** [ParticipantRole]: participant role within a room. *)
Inductive ParticipantRole : Type :=
| Host
| Guest.

#[global] Instance ParticipantRole_eq_dec : EqDecision ParticipantRole.
Proof. solve_decision. Defined.

(** [SignalTarget]: who to send an outbound signaling message to. *)
Inductive SignalTarget : Type :=
| Peer (peer_id : PeerId)
| Broadcast (exclude : PeerId)
| BroadcastAll.

(** [OutboundSignal]: a targeted outbound signaling message. *)
Record OutboundSignal : Type := mkOutboundSignal {
  target : SignalTarget;
  msg : SignalingMessage
}.

(** [OutboundSignal::to_peer]. *)
Definition to_peer (peer_id : PeerId) (m : SignalingMessage) : OutboundSignal :=
  mkOutboundSignal (Peer peer_id) m.

(** [OutboundSignal::broadcast_except]. *)
Definition broadcast_except (exclude : PeerId) (m : SignalingMessage) : OutboundSignal :=
  mkOutboundSignal (Broadcast exclude) m.

(** [OutboundSignal::broadcast_all]. *)
Definition broadcast_all (m : SignalingMessage) : OutboundSignal :=
  mkOutboundSignal BroadcastAll m.

(** ** Round trip of the permission strings *)

Lemma from_str_opt_as_str p :
  WireSharePermission_from_str_opt (WireSharePermission_as_str p) = Some p.
Proof. by destruct p. Qed.

Lemma from_str_opt_Some s p :
  WireSharePermission_from_str_opt s = Some p ↔ s = WireSharePermission_as_str p.
Proof.
  split; [|intros ->; apply from_str_opt_as_str].
  unfold WireSharePermission_from_str_opt. intros H.
  repeat case_bool_decide; by destruct p; simplify_eq/=.
Qed.
