(* ===== verification/FieldValidation.v ===== *)
(** * Field length validation (shared/src/signaling/validation.rs)

    Every inbound message passes [validate_field_lengths] after deserialization
    and before it reaches a handler.  The early returns of the source are the
    error cases of [Result]. *)

From S2P Require Import Prelude Signaling.
Local Open Scope Z_scope.

(** The limits. *)
Definition MAX_ROOM_ID_LEN : Z := 128.
Definition MAX_PEER_ID_LEN : Z := 128.
Definition MAX_DISPLAY_NAME_LEN : Z := 64.
Definition MAX_INVITE_CODE_LEN : Z := 64.
Definition MAX_SDP_LEN : Z := 65536.
Definition MAX_CANDIDATE_LEN : Z := 2048.
Definition MAX_CHANNEL_ID_LEN : Z := 64.
Definition MAX_CHAT_TEXT_LEN : Z := 2000.
Definition MAX_PROFILE_COLOR_LEN : Z := 16.
Definition MAX_CHAT_HISTORY_SINCE_LEN : Z := 64.
Definition MAX_SUB_ROOM_ID_LEN : Z := 128.
Definition MAX_VIEWER_WINDOW_ID_LEN : Z := 32.

(** [ValidationError]. *)
Record ValidationError : Type := mkValidationError {
  field : string;
  actual_len : Z;
  max_len : Z
}.

Abbreviation Checked := (Result unit ValidationError) (only parsing).

(** [str::len] of a field. *)
Definition byte_len (s : string) : Z := Z.of_nat (String.length s).

(** [check]. *)
Definition check (f value : string) (max : Z) : Checked :=
  if bool_decide (max < byte_len value) then Err (mkValidationError f (byte_len value) max) else Ok tt.

(** [a?; b]. *)
Definition and_then (a b : Checked) : Checked :=
  match a with Ok _ => b | Err e => Err e end.
Infix ";;;" := and_then (at level 65, right associativity).

(** [if let Some(x) = o { f(x)?; }] and [for x in l { f(x)?; }]. *)
Definition check_opt {A} (f : A → Checked) (o : option A) : Checked :=
  match o with Some x => f x | None => Ok tt end.
Fixpoint check_all {A} (f : A → Checked) (l : list A) : Checked :=
  match l with [] => Ok tt | x :: l' => f x ;;; check_all f l' end.

(** [profileColor] of an optional field. *)
Definition check_color (o : option string) : Checked :=
  check_opt (λ color, check "profileColor" color MAX_PROFILE_COLOR_LEN) o.

(** The body of the participant loops. *)
Definition check_participant (p : ParticipantInfo) : Checked :=
  check "participant_id" (participant_id p) MAX_PEER_ID_LEN ;;;
  check "display_name" (display_name p) MAX_DISPLAY_NAME_LEN ;;;
  check_color (profile_color p).

(** A participant id of a share snapshot: not empty and within its limit. *)
Definition check_share_id (id : string) : Checked :=
  (if bool_decide (id = EmptyString)
   then Err (mkValidationError "participant_id" 0 MAX_PEER_ID_LEN) else Ok tt) ;;;
  check "participant_id" id MAX_PEER_ID_LEN.

Definition check_pid (id : string) : Checked := check "participant_id" id MAX_PEER_ID_LEN.
Definition check_target (id : string) : Checked := check "target_participant_id" id MAX_PEER_ID_LEN.

(** [validate_field_lengths]. *)
Definition validate_field_lengths (msg : SignalingMessage) : Checked :=
  match msg with
  | Msg.Join p =>
      check "room_id" (Join_room_id p) MAX_ROOM_ID_LEN ;;;
      check_opt (λ c, check "invite_code" c MAX_INVITE_CODE_LEN) (Join_invite_code p) ;;;
      check_opt (λ n, check "display_name" n MAX_DISPLAY_NAME_LEN) (Join_display_name p) ;;;
      check_color (Join_profile_color p)
  | Msg.Joined p =>
      check "room_id" (Joined_room_id p) MAX_ROOM_ID_LEN ;;;
      check "peer_id" (Joined_peer_id p) MAX_PEER_ID_LEN ;;;
      check_all check_participant (Joined_participants p)
  | Msg.Offer p => check "sdp" (SessionDescription_sdp (Offer_session_description p)) MAX_SDP_LEN
  | Msg.Answer p => check "sdp" (SessionDescription_sdp (Answer_session_description p)) MAX_SDP_LEN
  | Msg.IceCandidate p =>
      check "candidate" (Ice_candidate (IceCandidate_candidate p)) MAX_CANDIDATE_LEN
  | Msg.PeerLeft | Msg.Leave => Ok tt
  | Msg.Error p => check "message" (Error_message p) MAX_SDP_LEN
  | Msg.JoinRejected _ | Msg.InviteCreate _ => Ok tt
  | Msg.InviteCreated p => check "invite_code" (InviteCreated_invite_code p) MAX_INVITE_CODE_LEN
  | Msg.InviteRevoke p => check "invite_code" (InviteRevoke_invite_code p) MAX_INVITE_CODE_LEN
  | Msg.InviteRevoked p => check "invite_code" (InviteRevoked_invite_code p) MAX_INVITE_CODE_LEN
  | Msg.ParticipantJoined p =>
      check_pid (ParticipantJoined_participant_id p) ;;;
      check "display_name" (ParticipantJoined_display_name p) MAX_DISPLAY_NAME_LEN ;;;
      check_color (ParticipantJoined_profile_color p)
  | Msg.ParticipantLeft p => check_pid (ParticipantLeft_participant_id p)
  | Msg.RoomState p => check_all check_participant (RoomState_participants p)
  | Msg.MediaToken _ => Ok tt
  | Msg.RequestViewerToken p =>
      check "window_id" (RequestViewerToken_window_id p) MAX_VIEWER_WINDOW_ID_LEN
  | Msg.ViewerToken p =>
      check "window_id" (ViewerToken_window_id p) MAX_VIEWER_WINDOW_ID_LEN ;;;
      check "token" (ViewerToken_token p) MAX_SDP_LEN ;;;
      check "sfu_url" (ViewerToken_sfu_url p) MAX_CANDIDATE_LEN ;;;
      check "identity" (ViewerToken_identity p) MAX_PEER_ID_LEN
  | Msg.KickParticipant p => check_target (KickParticipant_target_participant_id p)
  | Msg.MuteParticipant p => check_target (MuteParticipant_target_participant_id p)
  | Msg.UnmuteParticipant p => check_target (UnmuteParticipant_target_participant_id p)
  | Msg.ParticipantKicked p => check_pid (ParticipantKicked_participant_id p)
  | Msg.ParticipantMuted p => check_pid (ParticipantMuted_participant_id p)
  | Msg.ParticipantUnmuted p => check_pid (ParticipantUnmuted_participant_id p)
  | Msg.SelfMute | Msg.SelfUnmute => Ok tt
  | Msg.ParticipantSelfMuted p => check_pid (ParticipantSelfMuted_participant_id p)
  | Msg.ParticipantSelfUnmuted p => check_pid (ParticipantSelfUnmuted_participant_id p)
  | Msg.SelfDeafen | Msg.SelfUndeafen => Ok tt
  | Msg.ParticipantDeafened p => check_pid (ParticipantDeafened_participant_id p)
  | Msg.ParticipantUndeafened p => check_pid (ParticipantUndeafened_participant_id p)
  | Msg.StartShare _ => Ok tt
  | Msg.ShareStarted p =>
      check_pid (ShareStarted_participant_id p) ;;;
      check "display_name" (ShareStarted_display_name p) MAX_DISPLAY_NAME_LEN
  | Msg.StopShare p => check_opt check_target (StopShare_target_participant_id p)
  | Msg.ShareStopped p =>
      check_pid (ShareStopped_participant_id p) ;;;
      check "display_name" (ShareStopped_display_name p) MAX_DISPLAY_NAME_LEN
  | Msg.StopAllShares => Ok tt
  | Msg.ShareState p =>
      check_all check_share_id (ShareState_participant_ids p) ;;;
      check_all (λ sh, check_share_id (ActiveShare_participant_id sh)) (ShareState_active_shares p)
  | Msg.SetSharePermission _ | Msg.SharePermissionChanged _ => Ok tt
  | Msg.CreateRoom p =>
      check "room_id" (CreateRoom_room_id p) MAX_ROOM_ID_LEN ;;;
      check_opt (λ n, check "display_name" n MAX_DISPLAY_NAME_LEN) (CreateRoom_display_name p) ;;;
      check_color (CreateRoom_profile_color p)
  | Msg.RoomCreated p =>
      check "room_id" (RoomCreated_room_id p) MAX_ROOM_ID_LEN ;;;
      check "peer_id" (RoomCreated_peer_id p) MAX_PEER_ID_LEN ;;;
      check "invite_code" (RoomCreated_invite_code p) MAX_INVITE_CODE_LEN
  | Msg.Auth p => check "accessToken" (Auth_access_token p) 2048
  | Msg.AuthSuccess p => check "userId" (AuthSuccess_user_id p) 64
  | Msg.AuthFailed p => check "reason" (AuthFailed_reason p) 256
  | Msg.JoinVoice p =>
      check "channelId" (JoinVoice_channel_id p) MAX_CHANNEL_ID_LEN ;;;
      check_opt (λ n, check "displayName" n MAX_DISPLAY_NAME_LEN) (JoinVoice_display_name p) ;;;
      check_color (JoinVoice_profile_color p)
  | Msg.CreateSubRoom _ => Ok tt
  | Msg.JoinSubRoom p => check "subRoomId" (JoinSubRoom_sub_room_id p) MAX_SUB_ROOM_ID_LEN
  | Msg.LeaveSubRoom _ => Ok tt
  | Msg.SetPassthrough p =>
      check "targetSubRoomId" (SetPassthrough_target_sub_room_id p) MAX_SUB_ROOM_ID_LEN
  | Msg.ClearPassthrough _ | Msg.SetPassthroughEnabled _ | Msg.SetPassthroughVolume _ => Ok tt
  | Msg.SetPassthroughFilter p =>
      if bool_decide (100 < SetPassthroughFilter_strength p)
      then Err (mkValidationError "strength" (SetPassthroughFilter_strength p) 100) else Ok tt
  | Msg.SubRoomState p =>
      check_all (λ room,
        check "subRoomId" (SubRoomInfo_sub_room_id room) MAX_SUB_ROOM_ID_LEN ;;;
        check_all (λ pid, check "participantId" pid MAX_PEER_ID_LEN) (SubRoomInfo_participant_ids room))
        (SubRoomState_rooms p) ;;;
      check_opt (λ pt,
        check "sourceSubRoomId" (PassthroughState_source_sub_room_id pt) MAX_SUB_ROOM_ID_LEN ;;;
        check "targetSubRoomId" (PassthroughState_target_sub_room_id pt) MAX_SUB_ROOM_ID_LEN)
        (SubRoomState_passthrough p)
  | Msg.SubRoomCreated p =>
      check "subRoomId" (SubRoomInfo_sub_room_id (SubRoomCreated_room p)) MAX_SUB_ROOM_ID_LEN ;;;
      check_all (λ pid, check "participantId" pid MAX_PEER_ID_LEN)
        (SubRoomInfo_participant_ids (SubRoomCreated_room p))
  | Msg.SubRoomJoined p =>
      check "participantId" (SubRoomJoined_participant_id p) MAX_PEER_ID_LEN ;;;
      check "subRoomId" (SubRoomJoined_sub_room_id p) MAX_SUB_ROOM_ID_LEN
  | Msg.SubRoomLeft p =>
      check "participantId" (SubRoomLeft_participant_id p) MAX_PEER_ID_LEN ;;;
      check "subRoomId" (SubRoomLeft_sub_room_id p) MAX_SUB_ROOM_ID_LEN
  | Msg.SubRoomDeleted p => check "subRoomId" (SubRoomDeleted_sub_room_id p) MAX_SUB_ROOM_ID_LEN
  | Msg.SfuColdStarting _ => Ok tt
  | Msg.ChatSend p => check "text" (ChatSend_text p) MAX_CHAT_TEXT_LEN
  | Msg.ChatMessage p =>
      check "text" (ChatMessage_text p) MAX_CHAT_TEXT_LEN ;;;
      check "participantId" (ChatMessage_participant_id p) MAX_PEER_ID_LEN ;;;
      check "displayName" (ChatMessage_display_name p) MAX_DISPLAY_NAME_LEN
  | Msg.ChatHistoryRequest p =>
      check_opt (λ since, check "since" since MAX_CHAT_HISTORY_SINCE_LEN) (ChatHistoryRequest_since p)
  | Msg.ChatHistoryResponse _ | Msg.Ping | Msg.SessionDisplaced _ => Ok tt
  | Msg.ViewerSubscribed p => check "targetId" (ViewerSubscribed_target_id p) MAX_PEER_ID_LEN
  | Msg.ViewerJoined _ => Ok tt
  | Msg.UpdateProfileColor p =>
      check "profileColor" (UpdateProfileColor_profile_color p) MAX_PROFILE_COLOR_LEN
  | Msg.ParticipantColorUpdated p =>
      check_pid (ParticipantColorUpdated_participant_id p) ;;;
      check "profileColor" (ParticipantColorUpdated_profile_color p) MAX_PROFILE_COLOR_LEN
  | Msg.UpdateUsername p => check "username" (UpdateUsername_username p) MAX_DISPLAY_NAME_LEN
  | Msg.ParticipantUsernameUpdated p =>
      check_pid (ParticipantUsernameUpdated_participant_id p) ;;;
      check "username" (ParticipantUsernameUpdated_username p) MAX_DISPLAY_NAME_LEN
  end.

(** ** What a validated client message satisfies *)

(** A declared bound on a field. *)
Inductive Bound : Type :=
| BLen (f value : string) (max : Z)
| BVal (f : string) (value max : Z).

Definition within (b : Bound) : Prop :=
  match b with
  | BLen _ v max => byte_len v ≤ max
  | BVal _ x max => x ≤ max
  end.

(** The error that reports the violation of [b]. *)
Definition report (b : Bound) : ValidationError :=
  match b with
  | BLen f v max => mkValidationError f (byte_len v) max
  | BVal f x max => mkValidationError f x max
  end.

(** The checks accept exactly when every bound holds, and otherwise report the
    first bound that does not. *)
Definition enforces (r : Checked) (L : list Bound) : Prop :=
  match r with
  | Ok _ => Forall within L
  | Err e => ∃ L1 b L2, L = L1 ++ b :: L2 ∧ Forall within L1 ∧ ¬ within b ∧ e = report b
  end.

Definition opt_len (f : string) (o : option string) (max : Z) : list Bound :=
  match o with Some v => [BLen f v max] | None => [] end.

(** The bounds of the messages a client sends. *)
Definition client_bounds (m : SignalingMessage) : option (list Bound) :=
  match m with
  | Msg.Join p => Some (
      BLen "room_id" (Join_room_id p) 128 :: opt_len "invite_code" (Join_invite_code p) 64 ++
      opt_len "display_name" (Join_display_name p) 64 ++
      opt_len "profileColor" (Join_profile_color p) 16)
  | Msg.CreateRoom p => Some (
      BLen "room_id" (CreateRoom_room_id p) 128 ::
      opt_len "display_name" (CreateRoom_display_name p) 64 ++
      opt_len "profileColor" (CreateRoom_profile_color p) 16)
  | Msg.JoinVoice p => Some (
      BLen "channelId" (JoinVoice_channel_id p) 64 ::
      opt_len "displayName" (JoinVoice_display_name p) 64 ++
      opt_len "profileColor" (JoinVoice_profile_color p) 16)
  | Msg.Auth p => Some [BLen "accessToken" (Auth_access_token p) 2048]
  | Msg.Offer p => Some [BLen "sdp" (SessionDescription_sdp (Offer_session_description p)) 65536]
  | Msg.Answer p => Some [BLen "sdp" (SessionDescription_sdp (Answer_session_description p)) 65536]
  | Msg.IceCandidate p => Some [BLen "candidate" (Ice_candidate (IceCandidate_candidate p)) 2048]
  | Msg.InviteRevoke p => Some [BLen "invite_code" (InviteRevoke_invite_code p) 64]
  | Msg.RequestViewerToken p => Some [BLen "window_id" (RequestViewerToken_window_id p) 32]
  | Msg.KickParticipant p =>
      Some [BLen "target_participant_id" (KickParticipant_target_participant_id p) 128]
  | Msg.MuteParticipant p =>
      Some [BLen "target_participant_id" (MuteParticipant_target_participant_id p) 128]
  | Msg.UnmuteParticipant p =>
      Some [BLen "target_participant_id" (UnmuteParticipant_target_participant_id p) 128]
  | Msg.StopShare p => Some (opt_len "target_participant_id" (StopShare_target_participant_id p) 128)
  | Msg.JoinSubRoom p => Some [BLen "subRoomId" (JoinSubRoom_sub_room_id p) 128]
  | Msg.SetPassthrough p => Some [BLen "targetSubRoomId" (SetPassthrough_target_sub_room_id p) 128]
  | Msg.SetPassthroughFilter p => Some [BVal "strength" (SetPassthroughFilter_strength p) 100]
  | Msg.ChatSend p => Some [BLen "text" (ChatSend_text p) 2000]
  | Msg.ChatHistoryRequest p => Some (opt_len "since" (ChatHistoryRequest_since p) 64)
  | Msg.ViewerSubscribed p => Some [BLen "targetId" (ViewerSubscribed_target_id p) 128]
  | Msg.UpdateProfileColor p => Some [BLen "profileColor" (UpdateProfileColor_profile_color p) 16]
  | Msg.UpdateUsername p => Some [BLen "username" (UpdateUsername_username p) 64]
  | _ => None
  end.

Lemma enforces_check f v max : enforces (check f v max) [BLen f v max].
Proof.
  unfold check. case_bool_decide; simpl.
  - exists [], (BLen f v max), []. split_and!; [done|constructor|simpl; lia|done].
  - constructor; [simpl; lia|constructor].
Qed.

Lemma enforces_and_then a b L1 L2 :
  enforces a L1 → enforces b L2 → enforces (a ;;; b) (L1 ++ L2).
Proof.
  destruct a as [[]|e]; simpl.
  - intros H1 H2. destruct b as [[]|e]; simpl in *; [by apply Forall_app|].
    destruct H2 as (M1 & x & M2 & -> & HM & Hx & ->). exists (L1 ++ M1), x, M2.
    split_and!; [by rewrite (assoc_L (++))|by apply Forall_app|done..].
  - intros (M1 & x & M2 & -> & HM & Hx & ->) _. exists M1, x, (M2 ++ L2).
    split_and!; [by rewrite <-(assoc_L (++))|done..].
Qed.

Lemma enforces_opt f o max : enforces (check_opt (λ v, check f v max) o) (opt_len f o max).
Proof. destruct o; [apply enforces_check|constructor]. Qed.

Lemma enforces_value f x max :
  enforces (if bool_decide (max < x) then Err (mkValidationError f x max) else Ok tt) [BVal f x max].
Proof.
  case_bool_decide; simpl.
  - exists [], (BVal f x max), []. split_and!; [done|constructor|simpl; lia|done].
  - constructor; [simpl; lia|constructor].
Qed.

Lemma enforces_color o : enforces (check_color o) (opt_len "profileColor" o 16).
Proof. apply enforces_opt. Qed.

#[local] Hint Resolve enforces_check enforces_and_then enforces_opt enforces_color : wavis.

(** For every message a client can send with bounded fields, validation
    accepts exactly the messages whose fields all respect their limits, and
    otherwise reports the first offending field with its actual size. *)
Theorem field_lengths_enforced m L :
  client_bounds m = Some L → enforces (validate_field_lengths m) L.
Proof.
  destruct m; simpl; try discriminate; intros [= <-];
    first [apply enforces_check | apply enforces_opt | apply enforces_value
          | apply (enforces_and_then _ _ [_]); auto with wavis].
Qed.

Lemma field_lengths_enforced_witness :
  let m := Msg.Join (mkJoinPayload "room" None (Some "code")
             (Some "a display name that is longer than the sixty-four bytes allowed..") None) in
  validate_field_lengths m = Err (mkValidationError "display_name" 65 64) ∧
  ∃ L, client_bounds m = Some L ∧ enforces (validate_field_lengths m) L.
Proof.
  intros m. split; [reflexivity|]. eexists. split; [reflexivity|].
  apply (field_lengths_enforced m). reflexivity.
Defined.

(** The media id of an ICE candidate, the type of a session description and
    the room type of a join are strings a client controls, yet no limit applies
    to them: messages that carry arbitrarily long ones are accepted. *)
Theorem some_client_strings_unbounded s :
  validate_field_lengths (Msg.IceCandidate (mkIceCandidatePayload (mkIceCandidate "c" s 0))) = Ok tt ∧
  validate_field_lengths (Msg.Offer (mkOfferPayload (mkSessionDescription "sdp" s))) = Ok tt ∧
  validate_field_lengths (Msg.Join (mkJoinPayload "r" (Some s) None None None)) = Ok tt.
Proof. split_and!; reflexivity. Qed.
