(* ===== verification/Invite.v ===== *)
(** * The invite store (wavis-backend/src/channel/invite.rs)

    In-memory storage of invite codes: generation under per-room and global
    limits, validation, atomic validate-and-consume, revocation, removal with
    the room and the expiry sweep.  The two [RwLock]ed maps are the fields of
    [InviteStore]; every method takes the locks it needs once and for its whole
    body, so a method is one step of the store.  The 128-bit code drawn from
    the CSPRNG is an argument of [generate]. *)

From S2P Require Import Prelude Signaling.
Local Open Scope Z_scope.

(** ** Data *)

(** [InviteRecord]: a single invite code record. *)
Record InviteRecord : Type := mkInviteRecord {
  ir_code : string;
  ir_room_id : RoomId;
  ir_issuer_id : PeerId;
  ir_issued_at : Instant;
  ir_expires_at : Instant;
  ir_remaining_uses : Z;
  ir_revoked : bool
}.

(** [InviteStoreConfig]. *)
Record InviteStoreConfig : Type := mkInviteStoreConfig {
  default_ttl : Duration;
  default_max_uses : Z;
  max_invites_per_room : Z;
  max_invites_global : Z;
  sweep_interval : Duration
}.

(** [InviteStoreConfig::default]. *)
Definition InviteStoreConfig_default : InviteStoreConfig :=
  mkInviteStoreConfig (from_secs 86400) 6 20 1000 (from_secs 60).

(** [InviteError]: errors of store operations. *)
Inductive InviteError : Type :=
| RoomLimitReached (room_id : RoomId) (limit : Z)
| GlobalLimitReached (limit : Z)
| InviteNotFound.

(** [InviteError]'s [Display], which [e.to_string()] uses. *)
Definition InviteError_to_string (e : InviteError) : string :=
  match e with
  | RoomLimitReached room_id limit =>
      "per-room invite limit (" +:+ pretty limit +:+ ") reached for room " +:+ room_id
  | GlobalLimitReached limit => "global invite limit (" +:+ pretty limit +:+ ") reached"
  | InviteNotFound => "invite code not found"
  end.

(** [InviteRevokeError]: errors of authorized revocation. *)
Inductive InviteRevokeError : Type :=
| RevokeNotFound
| RevokeUnauthorized.

(** [InviteStore]. *)
Record InviteStore : Type := mkInviteStore {
  invites : gmap string InviteRecord;
  room_invite_counts : gmap RoomId Z;
  invite_config : InviteStoreConfig
}.

Definition set_invites (f : gmap string InviteRecord → gmap string InviteRecord)
    (s : InviteStore) : InviteStore :=
  mkInviteStore (f (invites s)) (room_invite_counts s) (invite_config s).

Definition set_remaining_uses (n : Z) (r : InviteRecord) : InviteRecord :=
  mkInviteRecord (ir_code r) (ir_room_id r) (ir_issuer_id r) (ir_issued_at r)
    (ir_expires_at r) n (ir_revoked r).

Definition set_revoked (r : InviteRecord) : InviteRecord :=
  mkInviteRecord (ir_code r) (ir_room_id r) (ir_issuer_id r) (ir_issued_at r)
    (ir_expires_at r) (ir_remaining_uses r) true.

(** ** Operations *)

(** [InviteStore::new]. *)
Definition InviteStore_new (config : InviteStoreConfig) : InviteStore :=
  mkInviteStore ∅ ∅ config.

(** [counts.get(room_id).copied().unwrap_or(0)]. *)
Definition count_of (counts : gmap RoomId Z) (room_id : RoomId) : Z :=
  default 0 (counts !! room_id).

(** [InviteStore::generate]; [code] is the code drawn from the CSPRNG. *)
Definition generate (code : string) (room_id : RoomId) (issuer_id : PeerId)
    (max_uses : option Z) (now : Instant) (s : InviteStore)
    : Result InviteRecord InviteError * InviteStore :=
  let cfg := invite_config s in
  if bool_decide (max_invites_global cfg ≤ map_len (invites s)) then
    (Err (GlobalLimitReached (max_invites_global cfg)), s)
  else if bool_decide (max_invites_per_room cfg ≤ count_of (room_invite_counts s) room_id) then
    (Err (RoomLimitReached room_id (max_invites_per_room cfg)), s)
  else
    let record := mkInviteRecord code room_id issuer_id now (now + default_ttl cfg)
                    (default (default_max_uses cfg) max_uses) false in
    (Ok record,
     mkInviteStore (<[code := record]> (invites s))
       (<[room_id := count_of (room_invite_counts s) room_id + 1]> (room_invite_counts s))
       cfg).

(** The checks shared by [validate] and [validate_and_consume], in the order of
    the source. *)
Definition check_record (record : InviteRecord) (room_id : RoomId) (now : Instant)
    : Result unit JoinRejectionReason :=
  if ir_revoked record then Err InviteRevoked
  else if bool_decide (ir_expires_at record ≤ now) then Err InviteExpired
  else if bool_decide (ir_room_id record ≠ room_id) then Err InviteInvalid
  else if bool_decide (ir_remaining_uses record = 0) then Err InviteExhausted
  else Ok tt.

(** [InviteStore::validate]. *)
Definition validate (code : string) (room_id : RoomId) (now : Instant) (s : InviteStore)
    : Result unit JoinRejectionReason :=
  match invites s !! code with
  | None => Err InviteInvalid
  | Some record => check_record record room_id now
  end.

(** [InviteStore::consume_use]. *)
Definition consume_use (code : string) (s : InviteStore) : InviteStore :=
  match invites s !! code with
  | Some record =>
      if bool_decide (0 < ir_remaining_uses record) then
        set_invites <[code := set_remaining_uses (ir_remaining_uses record - 1) record]> s
      else s
  | None => s
  end.

(** [InviteStore::validate_and_consume]. *)
Definition validate_and_consume (code : string) (room_id : RoomId) (now : Instant)
    (s : InviteStore) : Result unit JoinRejectionReason * InviteStore :=
  match invites s !! code with
  | None => (Err InviteInvalid, s)
  | Some record =>
      match check_record record room_id now with
      | Err e => (Err e, s)
      | Ok _ =>
          (Ok tt,
           set_invites <[code := set_remaining_uses (ir_remaining_uses record - 1) record]> s)
      end
  end.

(** [InviteStore::revoke]. *)
Definition revoke (code : string) (s : InviteStore) : Result unit InviteError * InviteStore :=
  match invites s !! code with
  | None => (Err InviteNotFound, s)
  | Some record => (Ok tt, set_invites <[code := set_revoked record]> s)
  end.

(** [InviteStore::revoke_authorized]. *)
Definition revoke_authorized (code : string) (room_id : RoomId) (_requestor_id : PeerId)
    (requestor_role : ParticipantRole) (s : InviteStore)
    : Result unit InviteRevokeError * InviteStore :=
  match invites s !! code with
  | None => (Err RevokeNotFound, s)
  | Some record =>
      if bool_decide (ir_room_id record ≠ room_id) then (Err RevokeUnauthorized, s)
      else if bool_decide (requestor_role ≠ Host) then (Err RevokeUnauthorized, s)
      else (Ok tt, set_invites <[code := set_revoked record]> s)
  end.

(** [InviteStore::remove_room_invites]. *)
Definition remove_room_invites (room_id : RoomId) (s : InviteStore) : InviteStore :=
  mkInviteStore (filter (λ p, ir_room_id p.2 ≠ room_id) (invites s))
    (delete room_id (room_invite_counts s)) (invite_config s).

(** The closure of [sweep_expired]'s [retain], on the counts: the entry of an
    expired record's room is created at 0 and decremented when positive. *)
Definition sweep_step (now : Instant) (_ : string) (record : InviteRecord)
    (counts : gmap RoomId Z) : gmap RoomId Z :=
  if bool_decide (ir_expires_at record ≤ now) then
    let count := count_of counts (ir_room_id record) in
    <[ir_room_id record := if bool_decide (0 < count) then count - 1 else count]> counts
  else counts.

(** [InviteStore::sweep_expired]: the number removed and the new store. *)
Definition sweep_expired (now : Instant) (s : InviteStore) : Z * InviteStore :=
  let kept := filter (λ p, ¬ ir_expires_at p.2 ≤ now) (invites s) in
  let counts := map_fold (sweep_step now) (room_invite_counts s) (invites s) in
  (map_len (invites s) - map_len kept,
   mkInviteStore kept (filter (λ p, 0 < p.2) counts) (invite_config s)).

(** [InviteStore::default_ttl_secs]. *)
Definition default_ttl_secs (s : InviteStore) : Z := as_secs (default_ttl (invite_config s)).

(** [InviteStore::room_invite_count]. *)
Definition room_invite_count (room_id : RoomId) (s : InviteStore) : Z :=
  count_of (room_invite_counts s) room_id.

(** [InviteStore::total_invite_count]. *)
Definition total_invite_count (s : InviteStore) : Z := map_len (invites s).

(** ** The invariant of the store *)

(** Number of records of a room. *)
Definition room_size (s : InviteStore) (room_id : RoomId) : nat :=
  size (filter (λ p, ir_room_id p.2 = room_id) (invites s)).

(** Records are stored under their own code with a non-negative budget, the
    per-room counters are exact, and both limits hold. *)
Record store_wf (s : InviteStore) : Prop := {
  wf_key : ∀ c r, invites s !! c = Some r → ir_code r = c;
  wf_uses : ∀ c r, invites s !! c = Some r → 0 ≤ ir_remaining_uses r;
  wf_counts : ∀ room_id, room_invite_count room_id s = Z.of_nat (room_size s room_id);
  wf_global : total_invite_count s ≤ max_invites_global (invite_config s);
  wf_room : ∀ room_id, room_invite_count room_id s ≤ max_invites_per_room (invite_config s)
}.

(** A step of the store by one method call. *)
Inductive InviteOp : Type :=
| OpGenerate (code : string) (room_id : RoomId) (issuer_id : PeerId)
    (max_uses : option Z) (now : Instant)
| OpConsumeUse (code : string)
| OpValidateAndConsume (code : string) (room_id : RoomId) (now : Instant)
| OpRevoke (code : string)
| OpRevokeAuthorized (code : string) (room_id : RoomId) (requestor_id : PeerId)
    (role : ParticipantRole)
| OpRemoveRoomInvites (room_id : RoomId)
| OpSweepExpired (now : Instant).

Definition run_op (op : InviteOp) (s : InviteStore) : InviteStore :=
  match op with
  | OpGenerate c r i m now => (generate c r i m now s).2
  | OpConsumeUse c => consume_use c s
  | OpValidateAndConsume c r now => (validate_and_consume c r now s).2
  | OpRevoke c => (revoke c s).2
  | OpRevokeAuthorized c r i role => (revoke_authorized c r i role s).2
  | OpRemoveRoomInvites r => remove_room_invites r s
  | OpSweepExpired now => (sweep_expired now s).2
  end.

Definition run_ops (ops : list InviteOp) (s : InviteStore) : InviteStore :=
  foldl (λ s op, run_op op s) s ops.

(** The draws of the CSPRNG: a generated code is not one of the store's, and a
    requested budget is a [u32]. *)
Definition op_ok (op : InviteOp) (s : InviteStore) : Prop :=
  match op with
  | OpGenerate c _ _ m _ =>
      invites s !! c = None ∧ 0 ≤ default (default_max_uses (invite_config s)) m
  | _ => True
  end.

(** Replacing a record in place by one of the same code and room. *)
Lemma store_wf_replace s c r r' :
  store_wf s → invites s !! c = Some r →
  ir_code r' = ir_code r → ir_room_id r' = ir_room_id r → 0 ≤ ir_remaining_uses r' →
  store_wf (set_invites <[c := r']> s).
Proof.
  intros [Hk Hu Hc Hg Hr] Hr0 Hcode Hroom Huses.
  assert (∀ x, room_size (set_invites <[c:=r']> s) x = room_size s x) as Hsz.
  { intros x. apply size_filter_insert_same with r; [done|]. simpl. by rewrite Hroom. }
  split; simpl.
  - intros c' r1. rewrite lookup_insert. case_decide; intros [= <-] || intros ?; simplify_eq; eauto using eq_trans.
  - intros c' r1. rewrite lookup_insert. case_decide; intros [= <-] || intros ?; simplify_eq; eauto using eq_trans.
  - intros x. rewrite Hsz. apply Hc.
  - unfold total_invite_count, set_invites. simpl. by rewrite map_size_insert_Some.
  - apply Hr.
Qed.

Lemma count_of_insert counts x n y :
  count_of (<[x := n]> counts) y = if decide (x = y) then n else count_of counts y.
Proof. unfold count_of. rewrite lookup_insert. by case_decide. Qed.

Lemma generate_wf c r i m now s :
  store_wf s → op_ok (OpGenerate c r i m now) s → store_wf (generate c r i m now s).2.
Proof.
  intros Hwf [Hfresh Hm]. pose proof Hwf as [Hk Hu Hc Hg Hr].
  unfold generate. do 2 (case_bool_decide; [done|]). simpl.
  split; simpl.
  - intros c' r1. rewrite lookup_insert. case_decide; intros [= <-] || intros ?; simplify_eq; eauto using eq_trans.
  - intros c' r1. rewrite lookup_insert. case_decide; intros [= <-] || intros ?; simplify_eq; eauto using eq_trans.
  - intros x. unfold room_invite_count, room_size. simpl.
    rewrite count_of_insert, size_filter_insert_new by done. simpl.
    specialize (Hc x). unfold room_invite_count, room_size in Hc.
    case_decide; case_bool_decide; simplify_eq; lia.
  - unfold total_invite_count in *. simpl. rewrite map_size_insert_None by done. lia.
  - intros x. specialize (Hr x). unfold room_invite_count in *. simpl.
    rewrite count_of_insert. case_decide; simplify_eq; lia.
Qed.

Lemma check_record_Ok r room now :
  check_record r room now = Ok tt →
  ir_revoked r = false ∧ now < ir_expires_at r ∧ ir_room_id r = room ∧ ir_remaining_uses r ≠ 0.
Proof.
  unfold check_record. intros H. destruct (ir_revoked r); [done|].
  repeat (case_bool_decide; [done|]).
  by repeat split; [lia|..].
Qed.

Lemma validate_and_consume_wf c r now s :
  store_wf s → store_wf (validate_and_consume c r now s).2.
Proof.
  intros Hwf. unfold validate_and_consume. destruct (invites s !! c) as [rec|] eqn:E; [|done].
  destruct (check_record rec r now) as [[]|] eqn:Ec; [|done]. simpl.
  apply check_record_Ok in Ec as (_ & _ & _ & Hnz).
  pose proof (wf_uses _ Hwf _ _ E).
  eapply store_wf_replace; eauto. simpl. lia.
Qed.

Lemma remove_room_wf room s : store_wf s → store_wf (remove_room_invites room s).
Proof.
  intros [Hk Hu Hc Hg Hr]. split; simpl.
  - intros c r [??]%map_lookup_filter_Some. eauto.
  - intros c r [??]%map_lookup_filter_Some. eauto.
  - intros x. unfold room_invite_count, room_size, count_of. simpl.
    rewrite map_filter_filter, lookup_delete. case_decide; simplify_eq/=.
    + symmetry. apply (Nat2Z.inj_iff _ 0), map_size_empty_iff, map_empty.
      intros k. apply map_lookup_filter_None_2. right. naive_solver.
    + rewrite (Hc x : default 0 (room_invite_counts s !! x) = _).
      unfold room_size. do 2 f_equal. apply map_filter_ext. naive_solver.
  - pose proof (size_filter_le (λ p : string * InviteRecord, ir_room_id p.2 ≠ room) (invites s)).
    unfold total_invite_count in *. simpl. lia.
  - intros x. pose proof (Hc room) as Hr0. pose proof (Hr room) as Hr1. specialize (Hr x).
    unfold room_invite_count, count_of in *. simpl. rewrite lookup_delete.
    case_decide; simpl; [|done]. lia.
Qed.

(** ** The expiry sweep *)

(** Number of records of a room that are expired at [now]. *)
Definition room_expired (now : Instant) (m : gmap string InviteRecord) (room_id : RoomId) : nat :=
  size (filter (λ p, ir_room_id p.2 = room_id ∧ ir_expires_at p.2 ≤ now) m).

Lemma sweep_step_count now c r counts x :
  count_of (sweep_step now c r counts) x =
    if decide (ir_room_id r = x ∧ ir_expires_at r ≤ now)
    then (if bool_decide (0 < count_of counts x) then count_of counts x - 1 else count_of counts x)
    else count_of counts x.
Proof.
  unfold sweep_step. case_bool_decide as He; [|by rewrite decide_False by tauto].
  rewrite count_of_insert. case_decide; [subst; by rewrite decide_True|].
  by rewrite decide_False by tauto.
Qed.

(** The fold subtracts from every room its expired records, stopping at zero. *)
Lemma sweep_fold_count now counts m x :
  0 ≤ count_of counts x →
  count_of (map_fold (sweep_step now) counts m) x =
    Z.max 0 (count_of counts x - Z.of_nat (room_expired now m x)).
Proof.
  intros H0. revert m.
  apply (map_fold_weak_ind (λ res m, count_of res x =
    Z.max 0 (count_of counts x - Z.of_nat (room_expired now m x)))).
  - unfold room_expired. rewrite map_filter_empty, map_size_empty. lia.
  - intros c r m res Hc IH. rewrite sweep_step_count, IH. unfold room_expired.
    rewrite size_filter_insert_new by done. simpl.
    case_decide; repeat case_bool_decide; first [lia|tauto].
Qed.

Lemma count_of_filter_pos counts x :
  0 ≤ count_of counts x → count_of (filter (λ p, 0 < p.2) counts) x = count_of counts x.
Proof.
  unfold count_of. intros H. rewrite map_lookup_filter.
  destruct (counts !! x) as [n|]; simpl in *; [|done].
  case_guard; simpl in *; [done|lia].
Qed.

(** The room's records are its expired ones and the ones the sweep keeps. *)
Lemma room_size_sweep now s x :
  room_size s x = (room_expired now (invites s) x + room_size (sweep_expired now s).2 x)%nat.
Proof.
  unfold room_size, room_expired, sweep_expired. simpl.
  rewrite (size_filter_split (λ p, ir_room_id p.2 = x) (λ p, ir_expires_at p.2 ≤ now)).
  by rewrite map_filter_filter.
Qed.

Lemma sweep_wf now s : store_wf s → store_wf (sweep_expired now s).2.
Proof.
  intros [Hk Hu Hc Hg Hr].
  assert (∀ x, room_invite_count x (sweep_expired now s).2
               = Z.of_nat (room_size (sweep_expired now s).2 x)) as Hcount.
  { intros x. pose proof (Hc x) as Hx. pose proof (room_size_sweep now s x) as Hsz.
    change (room_invite_count x (sweep_expired now s).2) with
      (count_of (filter (λ p : RoomId * Z, 0 < p.2)
         (map_fold (sweep_step now) (room_invite_counts s) (invites s))) x).
    unfold room_invite_count in Hx.
    rewrite count_of_filter_pos; rewrite sweep_fold_count; lia. }
  split; try done.
  - intros c r [??]%map_lookup_filter_Some. eauto.
  - intros c r [??]%map_lookup_filter_Some. eauto.
  - pose proof (size_filter_le (λ p : string * InviteRecord, ¬ ir_expires_at p.2 ≤ now)
      (invites s)). unfold total_invite_count in *. simpl. lia.
  - intros x. rewrite Hcount. pose proof (room_size_sweep now s x).
    specialize (Hc x). specialize (Hr x). change (invite_config (sweep_expired now s).2)
      with (invite_config s). lia.
Qed.

(** ** Properties *)

(** The stores the methods can produce from an empty one. *)
Inductive reachable (cfg : InviteStoreConfig) : InviteStore → Prop :=
| reach_new : reachable cfg (InviteStore_new cfg)
| reach_step op s : reachable cfg s → op_ok op s → reachable cfg (run_op op s).

Lemma run_op_wf (op : InviteOp) (s : InviteStore) :
  store_wf s → op_ok op s → store_wf (run_op op s).
Proof.
  intros Hwf Hok. destruct op as [c r i m now|c|c r now|c|c r i role|r|now]; simpl.
  - by apply generate_wf.
  - unfold consume_use. destruct (invites s !! c) as [rec|] eqn:E; [|done].
    case_bool_decide; [|done]. eapply store_wf_replace; eauto. simpl. lia.
  - by apply validate_and_consume_wf.
  - unfold revoke. destruct (invites s !! c) as [rec|] eqn:E; [|done].
    eapply store_wf_replace; eauto. exact (wf_uses _ Hwf _ _ E).
  - unfold revoke_authorized. destruct (invites s !! c) as [rec|] eqn:E; [|done].
    repeat (case_bool_decide; [done|]). eapply store_wf_replace; eauto. exact (wf_uses _ Hwf _ _ E).
  - by apply remove_room_wf.
  - by apply sweep_wf.
Qed.

Lemma run_op_config op s : invite_config (run_op op s) = invite_config s.
Proof.
  destruct op; cbn [run_op]; unfold generate, consume_use, validate_and_consume, revoke,
    revoke_authorized; try done; repeat (case_match; try done).
Qed.

Lemma InviteStore_new_wf cfg :
  0 ≤ max_invites_global cfg → 0 ≤ max_invites_per_room cfg → store_wf (InviteStore_new cfg).
Proof.
  intros ??. by split.
Qed.

(** Whatever methods of the invite store run, in whatever order, the store
    stays well formed: records sit under their own code, no budget goes below
    zero, the per-room counters are exactly the number of stored records of the
    room, and the per-room and global limits of its configuration hold. *)
Theorem invite_store_reachable_wf (cfg : InviteStoreConfig) (s : InviteStore) :
  0 ≤ max_invites_global cfg → 0 ≤ max_invites_per_room cfg →
  reachable cfg s → store_wf s ∧ invite_config s = cfg.
Proof.
  intros ?? Hs. induction Hs as [|op s Hs [IH1 IH2] Hop].
  - split; [by apply InviteStore_new_wf|done].
  - split; [by apply run_op_wf|by rewrite run_op_config].
Qed.

Definition demo_store : InviteStore :=
  (generate "code-a" "room-1" "host" (Some 2) 0 (InviteStore_new InviteStoreConfig_default)).2.

Lemma demo_store_wf : store_wf demo_store.
Proof. apply generate_wf; [by apply InviteStore_new_wf|done]. Qed.

Lemma invite_store_reachable_wf_witness :
  store_wf demo_store ∧ invite_config demo_store = InviteStoreConfig_default.
Proof.
  apply (invite_store_reachable_wf InviteStoreConfig_default demo_store); [done|done|].
  apply (reach_step _ (OpGenerate "code-a" "room-1" "host" (Some 2) 0)); [apply reach_new|].
  split; [reflexivity|vm_compute; discriminate].
Defined.

Lemma validate_and_consume_eq code room_id now s :
  store_wf s →
  validate_and_consume code room_id now s =
    match validate code room_id now s with
    | Ok _ => (Ok tt, consume_use code s)
    | Err e => (Err e, s)
    end.
Proof.
  intros Hwf. unfold validate_and_consume, validate, consume_use.
  destruct (invites s !! code) as [rec|] eqn:E; [|done].
  destruct (check_record rec room_id now) as [[]|] eqn:Ec; [|done].
  apply check_record_Ok in Ec as (_ & _ & _ & Hnz). pose proof (wf_uses _ Hwf _ _ E).
  by rewrite bool_decide_eq_true_2 by lia.
Qed.

Lemma validate_not_full code room_id now s : validate code room_id now s ≠ Err RoomFull.
Proof. unfold validate, check_record. by repeat case_match. Qed.

(** [validate_and_consume] is [validate] followed, on success, by
    [consume_use], in one step: it returns what [validate] returns, takes
    exactly one use when that is [Ok], and leaves the store untouched
    otherwise. *)
Theorem validate_and_consume_spec (code : string) (room_id : RoomId) (now : Instant)
    (s : InviteStore) :
  store_wf s →
  validate_and_consume code room_id now s =
    match validate code room_id now s with
    | Ok _ => (Ok tt, consume_use code s)
    | Err e => (Err e, s)
    end.
Proof.
  apply validate_and_consume_eq.
Qed.

Lemma validate_and_consume_spec_witness :
  validate_and_consume "code-a" "room-1" 7 demo_store = (Ok tt, consume_use "code-a" demo_store).
Proof. apply (validate_and_consume_spec "code-a" "room-1" 7 demo_store). exact demo_store_wf. Defined.

(** A step that grants a join on [code]. *)
Definition grants (code : string) (op : InviteOp) (s : InviteStore) : Z :=
  match op with
  | OpValidateAndConsume c r now =>
      if bool_decide (c = code) && is_Ok (validate_and_consume c r now s).1 then 1 else 0
  | _ => 0
  end.

Fixpoint total_grants (code : string) (ops : list InviteOp) (s : InviteStore) : Z :=
  match ops with
  | [] => 0
  | op :: ops' => grants code op s + total_grants code ops' (run_op op s)
  end.

Definition generates (code : string) (op : InviteOp) : bool :=
  match op with OpGenerate c _ _ _ _ => bool_decide (c = code) | _ => false end.

(** What is left of the budget of a code; no record, no budget. *)
Definition budget (code : string) (s : InviteStore) : Z :=
  match invites s !! code with Some r => ir_remaining_uses r | None => 0 end.

Definition budgets_ok (s : InviteStore) : Prop :=
  ∀ c r, invites s !! c = Some r → 0 ≤ ir_remaining_uses r.

Lemma budget_nonneg code s : budgets_ok s → 0 ≤ budget code s.
Proof. intros Hb. unfold budget. destruct (invites s !! code) eqn:E; [by eapply Hb|done]. Qed.

Lemma budget_insert code s c r r0 :
  invites s !! c = Some r0 →
  budget code (set_invites <[c := r]> s) =
    if decide (c = code) then ir_remaining_uses r else budget code s.
Proof. intros _. unfold budget, set_invites. simpl. rewrite lookup_insert. by case_decide. Qed.

Lemma budget_filter code (P : string * InviteRecord → Prop) `{!∀ x, Decision (P x)} s counts cfg :
  budgets_ok s →
  budget code (mkInviteStore (filter P (invites s)) counts cfg) ≤ budget code s.
Proof.
  intros Hb. unfold budget at 1. simpl. rewrite map_lookup_filter.
  unfold budget. destruct (invites s !! code) eqn:E; simpl; [|done].
  case_guard; simpl; [done|by eapply Hb].
Qed.

Lemma budget_replace code s c r r0 :
  invites s !! c = Some r0 → ir_remaining_uses r ≤ ir_remaining_uses r0 →
  budget code (set_invites <[c := r]> s) ≤ budget code s.
Proof.
  intros E Hle. rewrite (budget_insert _ _ _ _ r0) by done.
  case_decide; [subst; unfold budget; by rewrite E|done].
Qed.

Lemma budget_step code op s :
  budgets_ok s → generates code op = false →
  grants code op s + budget code (run_op op s) ≤ budget code s.
Proof.
  intros Hb Hg. destruct op as [c r i m now|c|c r now|c|c r i role|r|now]; simpl in *;
    rewrite ?Z.add_0_l.
  - case_bool_decide as Hc; [done|]. unfold generate.
    do 2 (case_bool_decide; [done|]). unfold budget. simpl. by rewrite lookup_insert_ne.
  - unfold consume_use. destruct (invites s !! c) eqn:E; [|done]. case_bool_decide; [|done].
    eapply budget_replace; [done|simpl; lia].
  - unfold validate_and_consume. destruct (invites s !! c) as [rec|] eqn:E;
      [destruct (check_record rec r now) as [[]|] eqn:Ec|]; simpl; rewrite ?andb_false_r; [|done..].
    rewrite (budget_insert _ _ _ _ rec) by done. rewrite andb_true_r.
    case_bool_decide; [subst; rewrite decide_True by done|by rewrite decide_False].
    unfold budget. rewrite E. simpl. lia.
  - unfold revoke. destruct (invites s !! c) eqn:E; [|done]. by eapply budget_replace.
  - unfold revoke_authorized. destruct (invites s !! c) eqn:E; [|done].
    repeat (case_bool_decide; [done|]). by eapply budget_replace.
  - by apply budget_filter.
  - by apply budget_filter.
Qed.

(** The draws are fresh along the whole run. *)
Fixpoint run_ok (ops : list InviteOp) (s : InviteStore) : Prop :=
  match ops with
  | [] => True
  | op :: ops' => op_ok op s ∧ run_ok ops' (run_op op s)
  end.

(** C35: Over any sequence of store operations that does not generate the code
    again, the number of joins an invite code is granted is at most its
    remaining uses: neither revocation, removal, sweeping nor other codes ever
    give a use back. *)
Theorem invite_budget_bound (code : string) (ops : list InviteOp) (s : InviteStore) :
  store_wf s → run_ok ops s → Forall (λ op, generates code op = false) ops →
  total_grants code ops s ≤ budget code s.
Proof.
  revert s. induction ops as [|op ops IH]; intros s Hwf Hok Hg; simpl.
  - apply budget_nonneg. intros c r. apply (wf_uses _ Hwf).
  - destruct Hok as [Hop Hok]. apply Forall_cons in Hg as [Hg1 Hg].
    pose proof (budget_step code op s (wf_uses _ Hwf) Hg1).
    specialize (IH (run_op op s) (run_op_wf _ _ Hwf Hop) Hok Hg). lia.
Qed.

Lemma invite_budget_bound_witness :
  total_grants "code-a"
    [OpValidateAndConsume "code-a" "room-1" 1; OpValidateAndConsume "code-a" "room-1" 2;
     OpValidateAndConsume "code-a" "room-1" 3] demo_store ≤ budget "code-a" demo_store
  ∧ budget "code-a" demo_store = 2.
Proof.
  split; [|reflexivity].
  apply (invite_budget_bound "code-a"); [exact demo_store_wf|simpl; tauto|].
  repeat constructor.
Defined.

(** A code that can no longer be accepted: it has no record, or a revoked one. *)
Definition dead (code : string) (s : InviteStore) : Prop :=
  ∀ r, invites s !! code = Some r → ir_revoked r = true.

Lemma dead_insert code s c r r0 :
  dead code s → invites s !! c = Some r0 → (ir_revoked r0 = true → ir_revoked r = true) →
  dead code (set_invites <[c := r]> s).
Proof.
  intros Hd E Hr x. unfold set_invites. simpl. rewrite lookup_insert.
  case_decide; intros ?; simplify_eq; eauto.
Qed.

Lemma dead_step code op s : dead code s → generates code op = false → dead code (run_op op s).
Proof.
  intros Hd Hg. destruct op as [c r i m now|c|c r now|c|c r i role|r|now]; simpl in *.
  - apply bool_decide_eq_false in Hg. unfold generate. do 2 (case_bool_decide; [done|]).
    intros x. simpl. rewrite lookup_insert_ne by done. apply Hd.
  - unfold consume_use. destruct (invites s !! c) eqn:E; [|done].
    case_bool_decide; [by eapply dead_insert|done].
  - unfold validate_and_consume. destruct (invites s !! c) eqn:E; [|done].
    case_match; [by eapply dead_insert|done].
  - unfold revoke. destruct (invites s !! c) eqn:E; [by eapply dead_insert|done].
  - unfold revoke_authorized. destruct (invites s !! c) eqn:E; [|done].
    repeat (case_bool_decide; [done|]). by eapply dead_insert.
  - intros x [??]%map_lookup_filter_Some. by apply Hd.
  - intros x [??]%map_lookup_filter_Some. by apply Hd.
Qed.

Lemma dead_rejects code room now s :
  dead code s → is_Ok (validate_and_consume code room now s).1 = false.
Proof.
  intros Hd. unfold validate_and_consume. destruct (invites s !! code) as [r|] eqn:E; [|done].
  unfold check_record. by rewrite (Hd r E).
Qed.

(** A successful authorized revocation needs the Host role and the invite's
    own room, and is final: after any further operations that do not generate
    the code again, no join with it is granted, for any room and at any time. *)
Theorem revoke_authorized_final (code : string) (room_id : RoomId) (requestor : PeerId)
    (role : ParticipantRole) (s s' : InviteStore) (ops : list InviteOp)
    (room' : RoomId) (now : Instant) :
  revoke_authorized code room_id requestor role s = (Ok tt, s') →
  Forall (λ op, generates code op = false) ops →
  role = Host ∧ (∃ r, invites s !! code = Some r ∧ ir_room_id r = room_id) ∧
  is_Ok (validate_and_consume code room' now (run_ops ops s')).1 = false.
Proof.
  unfold revoke_authorized. destruct (invites s !! code) as [r|] eqn:E; [|done].
  repeat (case_bool_decide; [done|]). intros [= <-] Hg.
  assert (dead code (set_invites <[code := set_revoked r]> s)) as Hd.
  { intros x. simpl. rewrite lookup_insert_eq. by intros [= <-]. }
  split_and!; [done|by exists r|]. apply dead_rejects.
  revert Hd Hg. generalize (set_invites <[code := set_revoked r]> s) as t.
  clear. induction ops as [|op ops IH]; intros t Hd Hg; simpl; [done|].
  apply Forall_cons in Hg as [? ?]. apply IH; [by apply dead_step|done].
Qed.

Lemma revoke_authorized_final_witness :
  is_Ok (validate_and_consume "code-a" "room-1" 3
    (run_ops [OpConsumeUse "code-a"]
      (revoke_authorized "code-a" "room-1" "host" Host demo_store).2)).1 = false.
Proof.
  refine (proj2 (proj2 (revoke_authorized_final "code-a" "room-1" "host" Host demo_store
    _ [OpConsumeUse "code-a"] "room-1" 3 _ _))).
  - reflexivity.
  - repeat constructor.
Defined.

(** The sweep removes exactly the expired records: afterwards a code is
    present iff it was present and unexpired, with its record unchanged, and
    the number returned is the number removed. *)
Theorem sweep_expired_exact (now : Instant) (s : InviteStore) (code : string) (r : InviteRecord) :
  (invites (sweep_expired now s).2 !! code = Some r ↔
     invites s !! code = Some r ∧ now < ir_expires_at r) ∧
  (sweep_expired now s).1 =
     Z.of_nat (size (filter (λ p, ir_expires_at p.2 ≤ now) (invites s))).
Proof.
  split.
  - simpl. rewrite map_lookup_filter_Some. simpl. split; intros [??]; (split; [done|lia]).
  - unfold sweep_expired. simpl.
    pose proof (size_filter_compl (λ p, ir_expires_at p.2 ≤ now) (invites s)). lia.
Qed.

(** Generate and validate round trip: an invite generated with a positive
    budget is accepted for its room at every instant before its expiry, and is
    rejected as expired from then on; for another room it is invalid. *)
Theorem generate_validate_roundtrip (code : string) (room_id : RoomId) (issuer : PeerId)
    (max_uses : option Z) (now later : Instant) (r : InviteRecord) (s s' : InviteStore) :
  generate code room_id issuer max_uses now s = (Ok r, s') →
  0 < default (default_max_uses (invite_config s)) max_uses →
  validate code room_id later s' =
    (if bool_decide (later < now + default_ttl (invite_config s)) then Ok tt
     else Err InviteExpired) ∧
  (∀ other, other ≠ room_id → later < now + default_ttl (invite_config s) →
     validate code other later s' = Err InviteInvalid).
Proof.
  unfold generate. do 2 (case_bool_decide; [done|]). intros [= <- <-] Hpos.
  unfold validate. simpl. rewrite lookup_insert_eq. unfold check_record. simpl. split.
  - repeat case_bool_decide; first [done|lia].
  - intros other Hne Hlt. rewrite bool_decide_eq_false_2 by lia.
    by rewrite bool_decide_eq_true_2 by congruence.
Qed.

Lemma generate_validate_roundtrip_witness :
  validate "code-a" "room-1" 9 demo_store = Ok tt.
Proof.
  apply (generate_validate_roundtrip "code-a" "room-1" "host" (Some 2) 0 9
    (mkInviteRecord "code-a" "room-1" "host" 0 (from_secs 86400) 2 false)
    (InviteStore_new InviteStoreConfig_default)); [reflexivity|done].
Defined.

(** Revoking an invite does not free its slot: the per-room counter keeps
    counting revoked records, so a room whose invites are all revoked still
    reaches its limit, and further generation is refused. *)
Theorem revoked_invites_still_counted (code : string) (room_id other : RoomId)
    (requestor : PeerId) (role : ParticipantRole) (s : InviteStore) :
  room_invite_count other (revoke_authorized code room_id requestor role s).2
    = room_invite_count other s.
Proof.
  unfold revoke_authorized, room_invite_count.
  destruct (invites s !! code); [|done]. by repeat case_bool_decide.
Qed.
