(* ===== verification/RoomState.v ===== *)
(** * In-memory room state (wavis-backend/src/state.rs)

    Rooms with their peer list and metadata, and the reverse index from peers to
    rooms.  A method that holds its locks for its whole body is one function on
    [InMemoryRoomState]; [RoomLocks.v] refines the methods that release a lock
    between two critical sections into their lock-level steps.  [RoomInfo]'s
    [HashMap]s and [HashSet]s are [gmap]s and [gset]s; a [Vec] collected from
    one of them comes in the order of [elements]/[map_to_list], and no theorem
    depends on that order. *)

From S2P Require Import Prelude Signaling.
Local Open Scope Z_scope.

(** ** Data *)

(** [RoomType]. *)
Inductive RoomType : Type :=
| P2P
| Sfu.

#[global] Instance RoomType_eq_dec : EqDecision RoomType.
Proof. solve_decision. Defined.

(** [SharePermission]. *)
Inductive SharePermission : Type :=
| AllParticipants
| HostOnly.

#[global] Instance SharePermission_eq_dec : EqDecision SharePermission.
Proof. solve_decision. Defined.

(** [From<SharePermission> for WireSharePermission]. *)
Definition wire_of_share_permission (p : SharePermission) : WireSharePermission :=
  match p with AllParticipants => WireAnyone | HostOnly => WireHostOnly end.

(** [From<WireSharePermission> for SharePermission]. *)
Definition share_permission_of_wire (w : WireSharePermission) : SharePermission :=
  match w with WireAnyone => AllParticipants | WireHostOnly => HostOnly end.

(** [SubRoomMembershipSource]. *)
Inductive SubRoomMembershipSource : Type :=
| Explicit
| LegacyRoomOneFallback.

(** [SubRoomInfo]. *)
Record SubRoomInfo : Type := mkSubRoomInfo {
  sub_room_id : string;
  room_number : Z;
  is_default : bool;
  participant_ids : list string;
  delete_at : option Instant
}.

(** [SubRoomInfo::room_one]. *)
Definition room_one (id : string) : SubRoomInfo := mkSubRoomInfo id 1 true [] None.

(** [PassthroughPair]. *)
Record PassthroughPair : Type := mkPassthroughPair {
  source_sub_room_id : string;
  target_sub_room_id : string
}.

#[global] Instance PassthroughPair_eq_dec : EqDecision PassthroughPair.
Proof. solve_decision. Defined.

(** [SubRoomState]. *)
Record SubRoomState : Type := mkSubRoomState {
  sub_rooms : list SubRoomInfo;
  participant_assignments : gmap string string;
  membership_sources : gmap string SubRoomMembershipSource;
  active_passthrough : option PassthroughPair;
  passthrough_enabled : bool;
  passthrough_volume_percent : Z;
  passthrough_filters_enabled : bool;
  passthrough_filter_strength : Z
}.

(** [SubRoomState::new]. *)
Definition SubRoomState_new (room_one_id : string) : SubRoomState :=
  mkSubRoomState [room_one room_one_id] ∅ ∅ None false 20 true 50.

(** [SfuRoomHandle]: opaque handle to an SFU-side room. *)
Record SfuRoomHandle : Type := mkSfuRoomHandle { handle_id : string }.

(** [MAX_VIEWER_IDENTITIES_PER_PEER]. *)
Definition MAX_VIEWER_IDENTITIES_PER_PEER : Z := 8.

(** [RoomInfo]: room metadata stored alongside the peer list. *)
Record RoomInfo : Type := mkRoomInfo {
  room_type : RoomType;
  sfu_handle : option SfuRoomHandle;
  max_participants : Z;
  participants : list ParticipantInfo;
  created_at : Instant;
  token_issued_at : gmap string Instant;
  media_connected : gset string;
  revoked_participants : gmap string Instant;
  active_shares : gset string;
  active_share_types : gmap string (gset WireShareType);
  share_permission : SharePermission;
  sub_room_state : option SubRoomState;
  viewer_identities : gmap string (gset string)
}.

(** Field updates. *)
Definition set_participants (f : list ParticipantInfo → list ParticipantInfo) (i : RoomInfo) : RoomInfo :=
  mkRoomInfo (room_type i) (sfu_handle i) (max_participants i) (f (participants i)) (created_at i)
    (token_issued_at i) (media_connected i) (revoked_participants i) (active_shares i)
    (active_share_types i) (share_permission i) (sub_room_state i) (viewer_identities i).
Definition set_token_issued_at (f : gmap string Instant → gmap string Instant) (i : RoomInfo) : RoomInfo :=
  mkRoomInfo (room_type i) (sfu_handle i) (max_participants i) (participants i) (created_at i)
    (f (token_issued_at i)) (media_connected i) (revoked_participants i) (active_shares i)
    (active_share_types i) (share_permission i) (sub_room_state i) (viewer_identities i).
Definition set_media_connected (f : gset string → gset string) (i : RoomInfo) : RoomInfo :=
  mkRoomInfo (room_type i) (sfu_handle i) (max_participants i) (participants i) (created_at i)
    (token_issued_at i) (f (media_connected i)) (revoked_participants i) (active_shares i)
    (active_share_types i) (share_permission i) (sub_room_state i) (viewer_identities i).
Definition set_revoked_participants (f : gmap string Instant → gmap string Instant) (i : RoomInfo) : RoomInfo :=
  mkRoomInfo (room_type i) (sfu_handle i) (max_participants i) (participants i) (created_at i)
    (token_issued_at i) (media_connected i) (f (revoked_participants i)) (active_shares i)
    (active_share_types i) (share_permission i) (sub_room_state i) (viewer_identities i).
Definition set_shares (f : gset string → gset string)
    (g : gmap string (gset WireShareType) → gmap string (gset WireShareType)) (i : RoomInfo) : RoomInfo :=
  mkRoomInfo (room_type i) (sfu_handle i) (max_participants i) (participants i) (created_at i)
    (token_issued_at i) (media_connected i) (revoked_participants i) (f (active_shares i))
    (g (active_share_types i)) (share_permission i) (sub_room_state i) (viewer_identities i).
Definition set_share_permission (p : SharePermission) (i : RoomInfo) : RoomInfo :=
  mkRoomInfo (room_type i) (sfu_handle i) (max_participants i) (participants i) (created_at i)
    (token_issued_at i) (media_connected i) (revoked_participants i) (active_shares i)
    (active_share_types i) p (sub_room_state i) (viewer_identities i).
Definition set_sub_room_state (x : option SubRoomState) (i : RoomInfo) : RoomInfo :=
  mkRoomInfo (room_type i) (sfu_handle i) (max_participants i) (participants i) (created_at i)
    (token_issued_at i) (media_connected i) (revoked_participants i) (active_shares i)
    (active_share_types i) (share_permission i) x (viewer_identities i).
Definition set_viewer_identities (f : gmap string (gset string) → gmap string (gset string)) (i : RoomInfo) : RoomInfo :=
  mkRoomInfo (room_type i) (sfu_handle i) (max_participants i) (participants i) (created_at i)
    (token_issued_at i) (media_connected i) (revoked_participants i) (active_shares i)
    (active_share_types i) (share_permission i) (sub_room_state i) (f (viewer_identities i)).

(** [RoomInfo::new_p2p]. *)
Definition new_p2p (now : Instant) : RoomInfo :=
  mkRoomInfo P2P None 2 [] now ∅ ∅ ∅ ∅ ∅ AllParticipants None ∅.

(** [RoomInfo::new_sfu]. *)
Definition new_sfu (max : Z) (handle : SfuRoomHandle) (now : Instant) : RoomInfo :=
  mkRoomInfo Sfu (Some handle) (clamp 3 6 max) [] now ∅ ∅ ∅ ∅ ∅ AllParticipants None ∅.

(** ** Methods of [RoomInfo] *)

(** [RoomInfo::add_revoked_participant]. *)
Definition info_add_revoked_participant (participant_id : string) (now : Instant) : RoomInfo → RoomInfo :=
  set_revoked_participants <[participant_id := now]>.

(** [RoomInfo::is_participant_revoked]: also drops the entries older than the window. *)
Definition info_is_participant_revoked (participant_id : string) (ttl_window : Duration)
    (now : Instant) (i : RoomInfo) : bool * RoomInfo :=
  let i' := set_revoked_participants
              (filter (λ p, duration_since now p.2 < ttl_window)) i in
  (bool_decide (is_Some (revoked_participants i' !! participant_id)), i').

(** [RoomInfo::record_token_issued]. *)
Definition record_token_issued (peer_id : PeerId) (now : Instant) : RoomInfo → RoomInfo :=
  set_token_issued_at <[peer_id := now]>.

(** [RoomInfo::mark_media_connected] and [mark_media_disconnected]. *)
Definition mark_media_connected (peer_id : PeerId) : RoomInfo → RoomInfo :=
  set_media_connected (λ m, m ∪ {[peer_id]}).
Definition mark_media_disconnected (peer_id : PeerId) : RoomInfo → RoomInfo :=
  set_media_connected (λ m, m ∖ {[peer_id]}).

(** [identity.rfind(pat).map(|i| &identity[i..])]: the suffix that starts at the
    last occurrence of [pat]. *)
Fixpoint rfind_suffix (pat s : string) : option string :=
  match s with
  | EmptyString => if String.prefix pat s then Some s else None
  | String _ s' =>
      match rfind_suffix pat s' with
      | Some r => Some r
      | None => if String.prefix pat s then Some s else None
      end
  end.

(** [str::ends_with]. *)
Fixpoint ends_with (suffix s : string) : bool :=
  bool_decide (s = suffix) ||
  match s with EmptyString => false | String _ s' => ends_with suffix s' end.

(** [RoomInfo::record_viewer_identity]. *)
Definition record_viewer_identity (peer_id : PeerId) (identity : string) (i : RoomInfo)
    : bool * RoomInfo :=
  let entries := default ∅ (viewer_identities i !! peer_id) in
  let entries :=
    match rfind_suffix "-vw-" identity with
    | Some suffix => filter (λ existing, ends_with suffix existing = false) entries
    | None => entries
    end in
  if bool_decide (MAX_VIEWER_IDENTITIES_PER_PEER ≤ map_len entries) then
    (false, set_viewer_identities <[peer_id := entries]> i)
  else
    (true, set_viewer_identities <[peer_id := entries ∪ {[identity]}]> i).

(** [RoomInfo::take_viewer_identities]. *)
Definition take_viewer_identities (peer_id : PeerId) (i : RoomInfo) : list string * RoomInfo :=
  (match viewer_identities i !! peer_id with Some set => elements set | None => [] end,
   set_viewer_identities (delete peer_id) i).

(** [RoomInfo::peers_needing_token_refresh]. *)
Definition peers_needing_token_refresh (refresh_after_secs : Z) (now : Instant) (i : RoomInfo)
    : list string :=
  map fst (map_to_list (filter
    (λ p, (p.1 ∉ media_connected i) ∧ (refresh_after_secs ≤ as_secs (duration_since now p.2)))
    (token_issued_at i))).

(** ** The room table *)

(** [RoomMembers]. *)
Record RoomMembers : Type := mkRoomMembers {
  peers : list PeerId;
  info : RoomInfo
}.

Definition set_peers (f : list PeerId → list PeerId) (m : RoomMembers) : RoomMembers :=
  mkRoomMembers (f (peers m)) (info m).
Definition set_info (f : RoomInfo → RoomInfo) (m : RoomMembers) : RoomMembers :=
  mkRoomMembers (peers m) (f (info m)).

(** [RoomNotFound]. *)
Inductive RoomNotFound : Type := roomNotFound.

(** [InMemoryRoomState]. *)
Record InMemoryRoomState : Type := mkInMemoryRoomState {
  rooms : gmap RoomId RoomMembers;
  peer_to_room : gmap PeerId RoomId
}.

Definition set_rooms (f : gmap RoomId RoomMembers → gmap RoomId RoomMembers)
    (s : InMemoryRoomState) : InMemoryRoomState :=
  mkInMemoryRoomState (f (rooms s)) (peer_to_room s).
Definition set_peer_to_room (f : gmap PeerId RoomId → gmap PeerId RoomId)
    (s : InMemoryRoomState) : InMemoryRoomState :=
  mkInMemoryRoomState (rooms s) (f (peer_to_room s)).

(** [InMemoryRoomState::new]. *)
Definition InMemoryRoomState_new : InMemoryRoomState := mkInMemoryRoomState ∅ ∅.

(** [InMemoryRoomState::create_room]. *)
Definition create_room (room_id : RoomId) (i : RoomInfo) (s : InMemoryRoomState)
    : bool * InMemoryRoomState :=
  match rooms s !! room_id with
  | Some _ => (false, s)
  | None => (true, set_rooms <[room_id := mkRoomMembers [] i]> s)
  end.

(** [InMemoryRoomState::remove_empty_room]. *)
Definition remove_empty_room (room_id : RoomId) (s : InMemoryRoomState)
    : bool * InMemoryRoomState :=
  match rooms s !! room_id with
  | None => (false, s)
  | Some members =>
      match peers members with
      | [] => (true, set_rooms (delete room_id) s)
      | _ => (false, s)
      end
  end.

(** [InMemoryRoomState::get_room_info]. *)
Definition get_room_info (room_id : RoomId) (s : InMemoryRoomState) : option RoomInfo :=
  info <$> rooms s !! room_id.

(** [InMemoryRoomState::update_room_info]; [update_room_info_capture] is the same
    call with a closure that also assigns a captured variable, [init] before it. *)
Definition update_room_info_capture {A} (room_id : RoomId) (init : A)
    (f : RoomInfo → A * RoomInfo) (s : InMemoryRoomState) : A * InMemoryRoomState :=
  match rooms s !! room_id with
  | None => (init, s)
  | Some members =>
      let '(a, i) := f (info members) in
      (a, set_rooms <[room_id := mkRoomMembers (peers members) i]> s)
  end.
Definition update_room_info (room_id : RoomId) (f : RoomInfo → RoomInfo)
    (s : InMemoryRoomState) : InMemoryRoomState :=
  (update_room_info_capture room_id tt (λ i, (tt, f i)) s).2.

(** [InMemoryRoomState::with_room_write]. *)
Definition with_room_write {R} (room_id : RoomId) (f : RoomMembers → R * RoomMembers)
    (s : InMemoryRoomState) : Result R RoomNotFound * InMemoryRoomState :=
  match rooms s !! room_id with
  | None => (Err roomNotFound, s)
  | Some members => let '(r, m) := f members in (Ok r, set_rooms <[room_id := m]> s)
  end.

(** [InMemoryRoomState::add_revoked_participant]. *)
Definition add_revoked_participant (room_id : RoomId) (participant_id : string) (now : Instant)
    (s : InMemoryRoomState) : InMemoryRoomState :=
  update_room_info room_id (info_add_revoked_participant participant_id now) s.

(** [InMemoryRoomState::is_participant_revoked]. *)
Definition is_participant_revoked (room_id : RoomId) (participant_id : string)
    (ttl_window : Duration) (now : Instant) (s : InMemoryRoomState) : bool * InMemoryRoomState :=
  let '(r, s') := with_room_write room_id (λ m,
    let '(b, i) := info_is_participant_revoked participant_id ttl_window now (info m) in
    (b, mkRoomMembers (peers m) i)) s in
  (match r with Ok b => b | Err _ => false end, s').

(** [InMemoryRoomState::peer_count]. *)
Definition peer_count (room_id : RoomId) (s : InMemoryRoomState) : Z :=
  match rooms s !! room_id with Some m => len (peers m) | None => 0 end.

(** [InMemoryRoomState::try_add_peer_with]; the closure runs on its own captured
    state [X] (the invite store) under the room's write lock. *)
Definition try_add_peer_with {X} (peer_id : PeerId) (room_id : RoomId)
    (f : X → Result unit JoinRejectionReason * X) (s : InMemoryRoomState) (x : X)
    : Result Z JoinRejectionReason * InMemoryRoomState * X :=
  match rooms s !! room_id with
  | None => (Err RoomFull, s, x)
  | Some members =>
      if contains peer_id (peers members) then
        (Ok (len (peers members)), set_peer_to_room <[peer_id := room_id]> s, x)
      else if bool_decide (max_participants (info members) ≤ len (peers members)) then
        (Err RoomFull, s, x)
      else
        match f x with
        | (Err e, x') => (Err e, s, x')
        | (Ok _, x') =>
            let m := set_peers (λ l, l ++ [peer_id]) members in
            (Ok (len (peers m)),
             set_peer_to_room <[peer_id := room_id]> (set_rooms <[room_id := m]> s), x')
        end
  end.

(** [InMemoryRoomState::remove_peer_from_room_only]. *)
Definition remove_peer_from_room_only (peer_id : PeerId) (room_id : RoomId)
    (s : InMemoryRoomState) : InMemoryRoomState :=
  match rooms s !! room_id with
  | None => s
  | Some members =>
      let m := set_peers (retain (λ p, bool_decide (p ≠ peer_id))) members in
      match peers m with
      | [] => set_rooms (delete room_id) s
      | _ => set_rooms <[room_id := m]> s
      end
  end.

(** [if !members.peers.contains(&peer_id) { members.peers.push(peer_id) }]. *)
Definition push_if_absent (peer_id : PeerId) (m : RoomMembers) : RoomMembers :=
  if contains peer_id (peers m) then m else set_peers (λ l, l ++ [peer_id]) m.

(** [InMemoryRoomState::add_peer]. *)
Definition add_peer (peer_id : PeerId) (room_id : RoomId) (now : Instant)
    (s : InMemoryRoomState) : InMemoryRoomState :=
  let s0 := match rooms s !! room_id with
            | Some _ => s
            | None => set_rooms <[room_id := mkRoomMembers [] (new_p2p now)]> s
            end in
  let s1 := match peer_to_room s0 !! peer_id with
            | Some old_id =>
                if bool_decide (old_id ≠ room_id)
                then remove_peer_from_room_only peer_id old_id s0 else s0
            | None => s0
            end in
  set_peer_to_room <[peer_id := room_id]> (set_rooms (alter (push_if_absent peer_id) room_id) s1).

(** [InMemoryRoomState::add_peer] with its two [unwrap]s of the room it has just
    made sure of: [None] is a panic. *)
Definition add_peer_unwrapped (peer_id : PeerId) (room_id : RoomId) (now : Instant)
    (s : InMemoryRoomState) : option InMemoryRoomState :=
  let s0 := match rooms s !! room_id with
            | Some _ => s
            | None => set_rooms <[room_id := mkRoomMembers [] (new_p2p now)]> s
            end in
  members ← rooms s0 !! room_id;
  let insert_into (m : RoomMembers) (s : InMemoryRoomState) :=
    set_peer_to_room <[peer_id := room_id]> (set_rooms <[room_id := push_if_absent peer_id m]> s) in
  match peer_to_room s0 !! peer_id with
  | Some old_id =>
      if bool_decide (old_id ≠ room_id) then
        let s1 := remove_peer_from_room_only peer_id old_id s0 in
        m2 ← rooms s1 !! room_id;
        Some (insert_into m2 s1)
      else Some (insert_into members s0)
  | None => Some (insert_into members s0)
  end.

(** [InMemoryRoomState::remove_peer_internal]. *)
Definition remove_peer_internal (peer_id : PeerId) (remove_empty : bool)
    (s : InMemoryRoomState) : InMemoryRoomState :=
  match peer_to_room s !! peer_id with
  | None => s
  | Some room_id =>
      let s' := set_peer_to_room (delete peer_id) s in
      match rooms s' !! room_id with
      | None => s'
      | Some members =>
          let m := set_peers (retain (λ p, bool_decide (p ≠ peer_id))) members in
          match remove_empty, peers m with
          | true, [] => set_rooms (delete room_id) s'
          | _, _ => set_rooms <[room_id := m]> s'
          end
      end
  end.

(** [InMemoryRoomState::remove_peer] and [remove_peer_preserve_room]. *)
Definition remove_peer (peer_id : PeerId) (s : InMemoryRoomState) : InMemoryRoomState :=
  remove_peer_internal peer_id true s.
Definition remove_peer_preserve_room (peer_id : PeerId) (s : InMemoryRoomState) : InMemoryRoomState :=
  remove_peer_internal peer_id false s.

(** [InMemoryRoomState::snapshot_rooms], [active_room_count],
    [total_participant_count], [snapshot_room_ids]. *)
Definition snapshot_rooms (s : InMemoryRoomState) : gmap RoomId (list PeerId) := peers <$> rooms s.
Definition active_room_count (s : InMemoryRoomState) : Z := map_len (rooms s).
Definition total_participant_count (s : InMemoryRoomState) : Z :=
  foldr Z.add 0 (map (λ p, len (peers p.2)) (map_to_list (rooms s))).
Definition snapshot_room_ids (s : InMemoryRoomState) : list RoomId :=
  map fst (map_to_list (rooms s)).

(** [InMemoryRoomState::rooms_needing_token_refresh]. *)
Definition rooms_needing_token_refresh (refresh_after_secs : Z) (now : Instant)
    (s : InMemoryRoomState) : list (RoomId * SfuRoomHandle * list string) :=
  omap (λ '(room_id, members),
    if bool_decide (room_type (info members) ≠ Sfu) then None
    else match sfu_handle (info members) with
         | None => None
         | Some handle =>
             match peers_needing_token_refresh refresh_after_secs now (info members) with
             | [] => None
             | ps => Some (room_id, handle, ps)
             end
         end) (map_to_list (rooms s)).

(** ** The [RoomState] trait (voice/relay.rs)

    The interface through which the P2P relay reads room membership. *)

(** [RoomState]. *)
Class RoomState (S : Type) : Type := {
  get_room_for_peer : S → PeerId → option RoomId;
  get_peers_in_room : S → RoomId → list PeerId
}.

(** [impl RoomState for InMemoryRoomState]. *)
#[export] Instance InMemoryRoomState_RoomState : RoomState InMemoryRoomState := {
  get_room_for_peer s peer_id := peer_to_room s !! peer_id;
  get_peers_in_room s room_id :=
    match rooms s !! room_id with Some m => peers m | None => [] end
}.

(** ** Membership: what the methods do to the peer lists and the index *)

(** The peers of a room: [get_peers_in_room]. *)
Abbreviation peers_at := (get_peers_in_room (S:=InMemoryRoomState)) (only parsing).

Lemma peers_at_insert s r m r' :
  peers_at (set_rooms <[r := m]> s) r' = if decide (r = r') then peers m else peers_at s r'.
Proof. simpl. rewrite lookup_insert. by case_decide. Qed.

Lemma peers_at_delete s r r' :
  peers_at (set_rooms (delete r) s) r' = if decide (r = r') then [] else peers_at s r'.
Proof. simpl. rewrite lookup_delete. by case_decide. Qed.

Lemma peers_at_lookup s r m : rooms s !! r = Some m → peers_at s r = peers m.
Proof. simpl. by intros ->. Qed.

Lemma peers_at_update_capture {A} r (a : A) f s r' :
  peers_at (update_room_info_capture r a f s).2 r' = peers_at s r'.
Proof.
  unfold update_room_info_capture. destruct (rooms s !! r) as [m|] eqn:E; [|done].
  destruct (f (info m)) as [b i]. cbn [snd]. rewrite peers_at_insert.
  case_decide; [subst; by rewrite (peers_at_lookup _ _ _ E)|done].
Qed.

Lemma peer_to_room_update_capture {A} r (a : A) f s :
  peer_to_room (update_room_info_capture r a f s).2 = peer_to_room s.
Proof. unfold update_room_info_capture. by repeat case_match. Qed.

Lemma peers_at_update r f s r' : peers_at (update_room_info r f s) r' = peers_at s r'.
Proof. apply peers_at_update_capture. Qed.

Lemma peer_to_room_update r f s : peer_to_room (update_room_info r f s) = peer_to_room s.
Proof. apply peer_to_room_update_capture. Qed.

Lemma peers_at_create_room r i s r' : peers_at (create_room r i s).2 r' = peers_at s r'.
Proof.
  unfold create_room. destruct (rooms s !! r) eqn:E; [done|]. cbn [snd].
  rewrite peers_at_insert. case_decide; [subst; simpl; by rewrite E|done].
Qed.

Lemma peer_to_room_create_room r i s : peer_to_room (create_room r i s).2 = peer_to_room s.
Proof. unfold create_room. by case_match. Qed.

Lemma peers_at_remove_empty_room r s r' : peers_at (remove_empty_room r s).2 r' = peers_at s r'.
Proof.
  unfold remove_empty_room. destruct (rooms s !! r) as [m|] eqn:E; [|done].
  destruct (peers m) eqn:Em; [|done]. cbn [snd]. rewrite peers_at_delete.
  case_decide; [subst; by rewrite (peers_at_lookup _ _ _ E)|done].
Qed.

Lemma peer_to_room_remove_empty_room r s :
  peer_to_room (remove_empty_room r s).2 = peer_to_room s.
Proof. unfold remove_empty_room. by repeat case_match. Qed.

(** A [with_room_write] whose closure does not touch the peer list. *)
Lemma peers_at_with_room_write {R} r (f : RoomMembers → R * RoomMembers) s r' :
  (∀ m, peers (f m).2 = peers m) → peers_at (with_room_write r f s).2 r' = peers_at s r'.
Proof.
  intros Hf. unfold with_room_write. destruct (rooms s !! r) as [m|] eqn:E; [|done].
  specialize (Hf m). destruct (f m) as [x m']. cbn [snd] in *. rewrite peers_at_insert.
  case_decide; [subst; by rewrite (peers_at_lookup _ _ _ E)|done].
Qed.

Lemma peer_to_room_with_room_write {R} r (f : RoomMembers → R * RoomMembers) s :
  peer_to_room (with_room_write r f s).2 = peer_to_room s.
Proof. unfold with_room_write. by repeat case_match. Qed.

(** [remove_peer_internal]: the peer leaves the room the index names. *)
Lemma peers_at_remove_peer_internal p b s r :
  peers_at (remove_peer_internal p b s) r =
    if decide (peer_to_room s !! p = Some r)
    then retain (λ q, bool_decide (q ≠ p)) (peers_at s r) else peers_at s r.
Proof.
  unfold remove_peer_internal.
  destruct (peer_to_room s !! p) as [r0|] eqn:Ep; [|by rewrite decide_False].
  simpl rooms. destruct (rooms s !! r0) as [m|] eqn:E.
  - assert (peers_at (set_rooms <[r0 := set_peers (retain (λ q, bool_decide (q ≠ p))) m]>
        (set_peer_to_room (delete p) s)) r =
      if decide (Some r0 = Some r) then retain (λ q, bool_decide (q ≠ p)) (peers_at s r)
      else peers_at s r) as Hins.
    { rewrite peers_at_insert. repeat case_decide; simplify_eq/=; by rewrite ?E. }
    destruct b; [|exact Hins]. destruct (peers (set_peers _ m)) eqn:Em; [|exact Hins].
    by rewrite peers_at_delete, <-Hins, peers_at_insert, Em.
  - simpl. case_decide; simplify_eq/=; [by rewrite E|done].
Qed.

Lemma peer_to_room_remove_peer_internal p b s :
  peer_to_room (remove_peer_internal p b s) = delete p (peer_to_room s).
Proof.
  unfold remove_peer_internal. destruct (peer_to_room s !! p) eqn:Ep.
  - by repeat case_match.
  - by rewrite delete_id.
Qed.

Lemma peers_at_push s r p m r' :
  rooms s !! r = Some m →
  peers_at (set_rooms (alter (push_if_absent p) r) s) r' =
    if decide (r = r')
    then (if contains p (peers_at s r) then peers_at s r else peers_at s r ++ [p])
    else peers_at s r'.
Proof.
  intros E. simpl. rewrite lookup_alter, E. case_decide; [|done]. simpl.
  unfold push_if_absent. by destruct (contains p (peers m)).
Qed.

Lemma peers_at_try_add {X} p r (f : X → _) s x n s' x' :
  try_add_peer_with p r f s x = (Ok n, s', x') →
  (∀ r', peers_at s' r' =
    if decide (r = r')
    then (if contains p (peers_at s r) then peers_at s r else peers_at s r ++ [p])
    else peers_at s r') ∧
  peer_to_room s' = <[p := r]> (peer_to_room s) ∧ n = len (peers_at s' r).
Proof.
  unfold try_add_peer_with. destruct (rooms s !! r) as [m|] eqn:E; [|done].
  destruct (contains p (peers m)) eqn:Hc.
  - intros [= <- <- <-]. cbn [get_peers_in_room InMemoryRoomState_RoomState rooms set_peer_to_room].
    rewrite E, Hc. split; [|done]. intros r'. by case_decide; [subst; rewrite E|].
  - case_bool_decide; [done|]. destruct (f x) as [[]?]; [|done]. intros [= <- <- <-].
    cbn [get_peers_in_room InMemoryRoomState_RoomState rooms set_peer_to_room set_rooms].
    rewrite lookup_insert_eq, E, Hc. split; [|done].
    intros r'. rewrite lookup_insert. by case_decide.
Qed.

Lemma try_add_Err {X} p r (f : X → _) s x e s' x' :
  try_add_peer_with p r f s x = (Err e, s', x') → s' = s.
Proof. unfold try_add_peer_with. intros H. by repeat case_match; simplify_eq. Qed.

(** When the closure of [try_add_peer_with] runs. *)
Lemma try_add_closure {X} p r (f : X → _) s x res s' x' :
  try_add_peer_with p r f s x = (res, s', x') →
  match res with
  | Ok _ => if contains p (peers_at s r) then x' = x else f x = (Ok tt, x')
  | Err e => (e = RoomFull ∧ x' = x) ∨ f x = (Err e, x')
  end.
Proof.
  unfold try_add_peer_with. simpl.
  destruct (rooms s !! r) as [m|]; [|intros [= <- <- <-]; by left].
  destruct (contains p (peers m)); [by intros [= <- <- <-]|].
  case_bool_decide; [intros [= <- <- <-]; by left|].
  destruct (f x) as [[[]|e] y] eqn:Ef; intros [= <- <- <-]; [done|by right].
Qed.

Lemma peers_at_remove_from_room_only p r s r' :
  peers_at (remove_peer_from_room_only p r s) r' =
    if decide (r = r') then retain (λ q, bool_decide (q ≠ p)) (peers_at s r') else peers_at s r'.
Proof.
  unfold remove_peer_from_room_only. destruct (rooms s !! r) as [m|] eqn:E.
  - destruct (peers (set_peers _ m)) eqn:Em.
    + rewrite peers_at_delete. case_decide; subst; [by rewrite (peers_at_lookup _ _ _ E)|done].
    + rewrite peers_at_insert. case_decide; subst; [by rewrite (peers_at_lookup _ _ _ E)|done].
  - case_decide; subst; [|done]. simpl. by rewrite E.
Qed.

Lemma rooms_remove_from_room_only_ne p r s r' :
  r ≠ r' → rooms (remove_peer_from_room_only p r s) !! r' = rooms s !! r'.
Proof.
  intros Hne. unfold remove_peer_from_room_only. destruct (rooms s !! r) as [m|]; [|done].
  case_match; simpl; [by rewrite lookup_delete_ne|by rewrite lookup_insert_ne].
Qed.

(** [add_peer] moves a peer: it leaves the room the index names and is in the
    new one once. *)
Lemma peers_at_add_peer p r now s r' :
  peers_at (add_peer p r now s) r' =
    if decide (r = r')
    then (if contains p (peers_at s r) then peers_at s r else peers_at s r ++ [p])
    else if decide (peer_to_room s !! p = Some r')
    then retain (λ q, bool_decide (q ≠ p)) (peers_at s r') else peers_at s r'.
Proof.
  unfold add_peer.
  set (s0 := match rooms s !! r with Some _ => s | None => _ end).
  assert (is_Some (rooms s0 !! r)) as Hr.
  { subst s0. destruct (rooms s !! r) eqn:E; [by rewrite E|]. simpl. by rewrite lookup_insert_eq. }
  assert (∀ x, peers_at s0 x = peers_at s x) as Hs0.
  { intros x. subst s0. destruct (rooms s !! r) eqn:E; [done|]. rewrite peers_at_insert.
    case_decide; [subst; simpl; by rewrite E|done]. }
  assert (peer_to_room s0 = peer_to_room s) as Hp by (subst s0; by case_match).
  clearbody s0. rewrite Hp.
  change (peers_at (set_peer_to_room ?f ?t) r') with (peers_at t r').
  destruct (peer_to_room s !! p) as [old|]; [case_bool_decide as Hold|].
  - destruct Hr as [m Hm].
    rewrite (peers_at_push _ _ _ m) by (by rewrite rooms_remove_from_room_only_ne).
    rewrite !peers_at_remove_from_room_only, !Hs0, (decide_False (P:=old = r)) by done.
    case_decide; [done|]. repeat case_decide; by simplify_eq.
  - subst old. destruct Hr as [m Hm]. rewrite (peers_at_push _ _ _ m), !Hs0 by done.
    repeat case_decide; by simplify_eq.
  - destruct Hr as [m Hm]. rewrite (peers_at_push _ _ _ m), !Hs0 by done.
    repeat case_decide; by simplify_eq.
Qed.

(** Run without interruption, [add_peer] finds the room both times it unwraps it. *)
Lemma add_peer_never_panics p r now s : add_peer_unwrapped p r now s = Some (add_peer p r now s).
Proof.
  unfold add_peer_unwrapped, add_peer.
  set (s0 := match rooms s !! r with Some _ => s | None => _ end).
  assert (is_Some (rooms s0 !! r)) as [m Hm].
  { subst s0. destruct (rooms s !! r) eqn:E; [by rewrite E|]. simpl. by rewrite lookup_insert_eq. }
  clearbody s0. rewrite Hm. simpl.
  assert (∀ t, rooms t !! r = Some m →
    set_rooms <[r := push_if_absent p m]> t = set_rooms (alter (push_if_absent p) r) t) as Hins.
  { intros t Ht. unfold set_rooms. f_equal. apply map_eq. intros r'.
    rewrite lookup_insert, lookup_alter. case_decide; [by subst; rewrite Ht|done]. }
  destruct (peer_to_room s0 !! p) as [old|]; [|by rewrite Hins].
  case_bool_decide; [|by rewrite Hins].
  assert (rooms (remove_peer_from_room_only p old s0) !! r = Some m) as Hm'
    by (by rewrite rooms_remove_from_room_only_ne).
  rewrite Hm'. simpl. by rewrite Hins.
Qed.

Lemma peer_to_room_add_peer p r now s :
  peer_to_room (add_peer p r now s) = <[p := r]> (peer_to_room s).
Proof.
  unfold add_peer. simpl. f_equal.
  destruct (rooms s !! r); simpl; (destruct (peer_to_room s !! p); [|done]);
    (case_bool_decide; [|done]); unfold remove_peer_from_room_only; by repeat case_match.
Qed.

(** ** The index invariant

    The reverse index and the peer lists describe the same membership, and no
    room lists a peer twice: a peer is in at most one room. *)
Definition room_wf (s : InMemoryRoomState) : Prop :=
  (∀ p r, peer_to_room s !! p = Some r ↔ p ∈ peers_at s r) ∧ (∀ r, NoDup (peers_at s r)).

(** The operations of the table; the closure of [try_add_peer_with] is its verdict. *)
Inductive RoomOp : Type :=
| OpCreateRoom (room_id : RoomId) (i : RoomInfo)
| OpRemoveEmptyRoom (room_id : RoomId)
| OpUpdateRoomInfo (room_id : RoomId) (f : RoomInfo → RoomInfo)
| OpTryAddPeer (peer_id : PeerId) (room_id : RoomId) (verdict : Result unit JoinRejectionReason)
| OpAddPeer (peer_id : PeerId) (room_id : RoomId) (now : Instant)
| OpRemovePeer (peer_id : PeerId)
| OpRemovePeerPreserveRoom (peer_id : PeerId).

Definition run_room_op (op : RoomOp) (s : InMemoryRoomState) : InMemoryRoomState :=
  match op with
  | OpCreateRoom r i => (create_room r i s).2
  | OpRemoveEmptyRoom r => (remove_empty_room r s).2
  | OpUpdateRoomInfo r f => update_room_info r f s
  | OpTryAddPeer p r v => (try_add_peer_with p r (λ x : unit, (v, x)) s tt).1.2
  | OpAddPeer p r now => add_peer p r now s
  | OpRemovePeer p => remove_peer p s
  | OpRemovePeerPreserveRoom p => remove_peer_preserve_room p s
  end.

(** A capacity-checked join is for a peer that is in no other room; the
    signaling state machine rejects [Join] once a session exists. *)
Definition room_op_pre (op : RoomOp) (s : InMemoryRoomState) : Prop :=
  match op with
  | OpTryAddPeer p r _ => ∀ r0, peer_to_room s !! p = Some r0 → r0 = r
  | _ => True
  end.

(** *** The specification

    A table is the rooms there are, with their metadata, and the room each peer is
    in; it has no lists of peers, and the number of peers of a room is counted. *)
Record Table : Type := mkTable {
  t_rooms : gmap RoomId RoomInfo;
  t_members : gmap PeerId RoomId
}.

Definition headcount (r : RoomId) (M : gmap PeerId RoomId) : Z := map_len (filter (λ kv, kv.2 = r) M).
Definition close_if_empty (r : RoomId) (M : gmap PeerId RoomId) (R : gmap RoomId RoomInfo) : gmap RoomId RoomInfo :=
  if bool_decide (headcount r M = 0) then delete r R else R.

(** What each operation does, as a function: a checked join lets a peer in exactly
    when the room exists, has a place left and the verdict is favourable. *)
Definition table_step (op : RoomOp) (t : Table) : Table :=
  let '(mkTable R M) := t in
  match op with
  | OpCreateRoom r i => match R !! r with Some _ => t | None => mkTable (<[r := i]> R) M end
  | OpRemoveEmptyRoom r => mkTable (close_if_empty r M R) M
  | OpUpdateRoomInfo r f => mkTable (alter f r R) M
  | OpTryAddPeer p r v =>
      match R !! r, v with
      | Some i, Ok _ => if bool_decide (headcount r M < max_participants i) then mkTable R (<[p := r]> M) else t
      | _, _ => t
      end
  | OpAddPeer p r now =>
      let R' := match R !! r with Some _ => R | None => <[r := new_p2p now]> R end in
      let M' := <[p := r]> M in
      mkTable (match M !! p with
               | Some old => if bool_decide (old ≠ r) then close_if_empty old M' R' else R'
               | None => R'
               end) M'
  | OpRemovePeer p =>
      mkTable (match M !! p with Some r => close_if_empty r (delete p M) R | None => R end) (delete p M)
  | OpRemovePeerPreserveRoom p => mkTable R (delete p M)
  end.

(** The table the state stands for. *)
Definition table_of (s : InMemoryRoomState) : Table := mkTable (info <$> rooms s) (peer_to_room s).

(** [room_wf] only looks at the membership. *)
Lemma room_wf_ext s s' :
  peer_to_room s' = peer_to_room s → (∀ r, peers_at s' r = peers_at s r) →
  room_wf s → room_wf s'.
Proof.
  intros Hp Hl [H1 H2]. split; intros; rewrite Hl; [rewrite Hp|]; auto.
Qed.

(** After [p] left the room the index names, that room lists everybody else. *)
Lemma elem_of_left_room s p q r :
  room_wf s →
  q ∈ (if decide (peer_to_room s !! p = Some r)
       then retain (λ q, bool_decide (q ≠ p)) (peers_at s r) else peers_at s r) ↔
  q ≠ p ∧ peer_to_room s !! q = Some r.
Proof.
  intros [H1 _]. rewrite (H1 q r). case_decide as Hd.
  - by rewrite elem_of_retain, bool_decide_eq_true.
  - split; [|tauto]. intros Hq; split; [|done]. intros ->. by apply Hd, H1.
Qed.

Lemma room_wf_join s s' p r :
  room_wf s →
  (∀ r', peers_at s' r' =
    if decide (r = r')
    then (if contains p (peers_at s r) then peers_at s r else peers_at s r ++ [p])
    else if decide (peer_to_room s !! p = Some r')
    then retain (λ q, bool_decide (q ≠ p)) (peers_at s r') else peers_at s r') →
  peer_to_room s' = <[p := r]> (peer_to_room s) →
  room_wf s'.
Proof.
  intros Hwf Hl Hp. pose proof Hwf as [H1 H2]. split.
  - intros q r'. rewrite Hp, Hl, lookup_insert. destruct (decide (r = r')) as [->|Hne].
    + specialize (H1 q r') as Hq. unfold contains.
      case_bool_decide as Hc; [|rewrite elem_of_app, list_elem_of_singleton];
        case_decide; subst; naive_solver.
    + rewrite elem_of_left_room by done. case_decide; subst; naive_solver.
  - intros r'. rewrite Hl. case_decide; [|case_decide; auto using NoDup_retain].
    unfold contains. case_bool_decide; [done|].
    apply NoDup_app; split_and!; [done| |by apply NoDup_singleton].
    intros x Hx ->%list_elem_of_singleton. done.
Qed.

Lemma room_wf_leave s s' p :
  room_wf s →
  (∀ r, peers_at s' r =
    if decide (peer_to_room s !! p = Some r)
    then retain (λ q, bool_decide (q ≠ p)) (peers_at s r) else peers_at s r) →
  peer_to_room s' = delete p (peer_to_room s) →
  room_wf s'.
Proof.
  intros Hwf Hl Hp. pose proof Hwf as [H1 H2]. split.
  - intros q r. rewrite Hp, Hl, lookup_delete, elem_of_left_room by done.
    case_decide; naive_solver.
  - intros r. rewrite Hl. case_decide; auto using NoDup_retain.
Qed.

Lemma room_wf_try_add {X} p r (f : X → _) s x n s' x' :
  room_wf s → (∀ r0, peer_to_room s !! p = Some r0 → r0 = r) →
  try_add_peer_with p r f s x = (Ok n, s', x') → room_wf s'.
Proof.
  intros Hwf Hpre H. destruct (peers_at_try_add _ _ _ _ _ _ _ _ H) as (Hl & Hp & _).
  apply (room_wf_join s s' p r); [done| |done].
  intros r'. rewrite Hl. case_decide; [done|]. case_decide as Hd; [|done].
  by specialize (Hpre _ Hd).
Qed.

Lemma room_wf_new : room_wf InMemoryRoomState_new.
Proof. split; intros; simpl; rewrite ?lookup_empty; [set_solver|constructor]. Qed.

Lemma room_wf_step op s : room_wf s → room_op_pre op s → room_wf (run_room_op op s).
Proof.
  intros Hwf Hpre. destruct op as [r i|r|r f|p r v|p r now|p|p]; cbn [run_room_op room_op_pre] in *.
  - eauto using room_wf_ext, peers_at_create_room, peer_to_room_create_room.
  - eauto using room_wf_ext, peers_at_remove_empty_room, peer_to_room_remove_empty_room.
  - eauto using room_wf_ext, peers_at_update, peer_to_room_update.
  - destruct (try_add_peer_with _ _ _ _ _) as [[[n|e] s'] x] eqn:E; simpl; [eauto using room_wf_try_add|].
    by apply try_add_Err in E as ->.
  - eauto using room_wf_join, peers_at_add_peer, peer_to_room_add_peer.
  - eauto using room_wf_leave, peers_at_remove_peer_internal, peer_to_room_remove_peer_internal.
  - eauto using room_wf_leave, peers_at_remove_peer_internal, peer_to_room_remove_peer_internal.
Qed.

(** The count of the specification is the length of the list. *)
Lemma headcount_peers s r : room_wf s → headcount r (peer_to_room s) = len (peers_at s r).
Proof.
  intros [H1 H2]. unfold headcount. apply (f_equal Z.of_nat).
  rewrite <-(size_dom (D:=gset PeerId)), <-(size_list_to_set (C:=gset PeerId) (peers_at s r)) by done.
  f_equal. apply set_eq. intros q. rewrite elem_of_list_to_set, elem_of_dom, <-H1. split.
  - intros [r' [Hq Hr]%map_lookup_filter_Some]. simpl in Hr. by subst.
  - intros Hq. exists r. by apply map_lookup_filter_Some.
Qed.

Lemma headcount_zero r M : headcount r M = 0 ↔ ∀ q, M !! q ≠ Some r.
Proof.
  unfold headcount.
  trans (filter (λ kv : PeerId * RoomId, kv.2 = r) M = ∅); [rewrite <-map_size_empty_iff; lia|].
  split.
  - intros HM q Hq. apply (lookup_empty_Some (M:=gmap PeerId) q r). rewrite <-HM. by apply map_lookup_filter_Some.
  - intros HM. apply map_eq. intros q. rewrite lookup_empty. apply map_lookup_filter_None. right.
    intros r' Hq Hr. simpl in Hr. subst. by apply (HM q).
Qed.

(** A room is left empty by [p] when the table has nobody else in it. *)
Lemma left_room_nil s p r :
  room_wf s → retain (λ q, bool_decide (q ≠ p)) (peers_at s r) = [] ↔ ∀ q, q ≠ p → peer_to_room s !! q ≠ Some r.
Proof.
  intros [H1 _]. split.
  - intros Hn q Hq Hin%H1. apply (not_elem_of_nil q). rewrite <-Hn, elem_of_retain, bool_decide_eq_true. done.
  - intros Hq. apply elem_of_nil_inv. intros q [Hne Hin]%elem_of_retain. apply bool_decide_eq_true in Hne.
    by apply (Hq q Hne), H1.
Qed.

Lemma infos_push p r (m : gmap RoomId RoomMembers) : info <$> alter (push_if_absent p) r m = info <$> m.
Proof.
  apply map_eq. intros r'. rewrite !lookup_fmap, lookup_alter. case_decide; [|done]. subst.
  destruct (m !! r') as [x|]; [|done]. simpl. unfold push_if_absent. by destruct (contains p (peers x)).
Qed.

Lemma infos_insert_same (m : gmap RoomId RoomMembers) r x y :
  m !! r = Some x → info y = info x → info <$> <[r := y]> m = info <$> m.
Proof. intros Hx Hi. rewrite fmap_insert, Hi. apply insert_id. by rewrite lookup_fmap, Hx. Qed.

(** Leaving a room. *)
Lemma infos_remove_from_room_only p r s M :
  room_wf s → peer_to_room s !! p = Some r →
  (∀ q, M !! q ≠ Some r) ↔ (∀ q, q ≠ p → peer_to_room s !! q ≠ Some r) →
  info <$> rooms (remove_peer_from_room_only p r s) = close_if_empty r M (info <$> rooms s).
Proof.
  intros Hwf Hp HM. unfold remove_peer_from_room_only, close_if_empty.
  assert (p ∈ peers_at s r) as Hin by (by apply Hwf). destruct (rooms s !! r) as [m|] eqn:Em.
  2: { simpl in Hin. rewrite Em in Hin. by apply not_elem_of_nil in Hin. }
  pose proof (left_room_nil s p r Hwf) as Hnil. rewrite <-HM, <-headcount_zero in Hnil.
  rewrite (peers_at_lookup _ _ _ Em) in Hnil. cbn [set_peers peers].
  destruct (retain _ (peers m)) eqn:El; cbn [set_rooms rooms].
  - rewrite bool_decide_true by (by apply Hnil). by rewrite fmap_delete.
  - rewrite bool_decide_false by (by intros ?%Hnil). by apply (infos_insert_same _ _ m).
Qed.

Lemma infos_remove_peer p s :
  room_wf s →
  info <$> rooms (remove_peer p s) =
    match peer_to_room s !! p with
    | Some r => close_if_empty r (delete p (peer_to_room s)) (info <$> rooms s)
    | None => info <$> rooms s
    end.
Proof.
  intros Hwf. unfold remove_peer, remove_peer_internal. destruct (peer_to_room s !! p) as [r|] eqn:Ep; [|done].
  rewrite <-(infos_remove_from_room_only p r s); [|done|done|].
  - cbn [rooms set_peer_to_room]. unfold remove_peer_from_room_only.
    destruct (rooms s !! r); [|done]. by case_match.
  - split; intros Hq q; [intros Hne|]; specialize (Hq q); rewrite lookup_delete in *; case_decide; naive_solver.
Qed.

Lemma infos_remove_preserve p s : info <$> rooms (remove_peer_preserve_room p s) = info <$> rooms s.
Proof.
  unfold remove_peer_preserve_room, remove_peer_internal. destruct (peer_to_room s !! p) as [r|]; [|done].
  cbn [rooms set_peer_to_room]. destruct (rooms s !! r) as [m|] eqn:Em; [|done].
  by apply (infos_insert_same _ _ m).
Qed.

Lemma infos_add_peer p r now s :
  room_wf s → table_of (add_peer p r now s) = table_step (OpAddPeer p r now) (table_of s).
Proof.
  intros Hwf. unfold table_of, table_step. rewrite peer_to_room_add_peer. f_equal. unfold add_peer.
  set (s0 := match rooms s !! r with Some _ => s | None => _ end).
  assert (info <$> rooms s0 = match (info <$> rooms s) !! r with
    | Some _ => info <$> rooms s | None => <[r := new_p2p now]> (info <$> rooms s) end) as <-.
  { subst s0. rewrite lookup_fmap. destruct (rooms s !! r); simpl; [done|]. by rewrite fmap_insert. }
  assert (peer_to_room s0 = peer_to_room s) as Hp by (subst s0; by case_match).
  assert (room_wf s0) as Hwf0.
  { apply (room_wf_ext s); [done| |done]. intros x. subst s0. destruct (rooms s !! r) eqn:E; [done|].
    rewrite peers_at_insert. case_decide; [subst; simpl; by rewrite E|done]. }
  clearbody s0. cbn [set_peer_to_room set_rooms rooms]. rewrite infos_push, Hp.
  destruct (peer_to_room s !! p) as [old|] eqn:Ep; [|done]. case_bool_decide as Hold; [|done].
  apply infos_remove_from_room_only; [done|by rewrite Hp|]. rewrite Hp.
  split; intros Hq q; [intros Hne|]; specialize (Hq q); rewrite lookup_insert in *; case_decide; naive_solver.
Qed.

Lemma infos_try_add p r v s :
  room_wf s → room_op_pre (OpTryAddPeer p r v) s →
  table_of (try_add_peer_with p r (λ x : unit, (v, x)) s tt).1.2 = table_step (OpTryAddPeer p r v) (table_of s).
Proof.
  intros Hwf Hpre. pose proof (headcount_peers s r Hwf) as Hc. unfold table_of, table_step, try_add_peer_with.
  rewrite lookup_fmap. destruct (rooms s !! r) as [m|] eqn:Em; [|done]. cbn [fmap option_fmap option_map].
  rewrite (peers_at_lookup _ _ _ Em) in Hc. rewrite Hc. unfold contains. case_bool_decide as Hin.
  - assert (peer_to_room s !! p = Some r) as Hp by (apply Hwf; by rewrite (peers_at_lookup _ _ _ Em)).
    cbn [fst snd set_peer_to_room rooms peer_to_room]. rewrite !(insert_id (peer_to_room s) p r) by done.
    destruct v; [|done]. by case_bool_decide.
  - case_bool_decide as Hfull; cbn [fst snd].
    + destruct v; [|done]. by rewrite bool_decide_false by lia.
    + destruct v; [|done]. rewrite bool_decide_true by lia. cbn [fst snd set_peer_to_room set_rooms rooms peer_to_room].
      f_equal. by apply (infos_insert_same _ _ m).
Qed.

(** Each operation does on the state what its specification does on the table. *)
Lemma table_refined op s :
  room_wf s → room_op_pre op s → table_of (run_room_op op s) = table_step op (table_of s).
Proof.
  intros Hwf Hpre. destruct op as [r i|r|r f|p r v|p r now|p|p]; cbn [run_room_op];
    [| | |by apply infos_try_add|by apply infos_add_peer| |].
  - unfold table_of, table_step, create_room. rewrite lookup_fmap. destruct (rooms s !! r); [done|].
    simpl. by rewrite fmap_insert.
  - unfold table_of, table_step. rewrite peer_to_room_remove_empty_room. f_equal.
    unfold remove_empty_room, close_if_empty. pose proof (headcount_peers s r Hwf) as Hc. simpl in Hc.
    destruct (rooms s !! r) as [m|] eqn:Em; simpl in *.
    + rewrite Hc. destruct (peers m); simpl; [by rewrite fmap_delete|done].
    + rewrite bool_decide_true by done. symmetry. apply delete_id. by rewrite lookup_fmap, Em.
  - unfold table_of, table_step. rewrite peer_to_room_update. f_equal.
    unfold update_room_info, update_room_info_capture. destruct (rooms s !! r) as [m|] eqn:Em; simpl.
    + apply map_eq. intros r'. rewrite lookup_alter, !lookup_fmap, lookup_insert.
      case_decide; [by subst; rewrite Em|done].
    + symmetry. apply map_eq. intros r'. rewrite lookup_alter, !lookup_fmap. case_decide; [|done]. subst. by rewrite Em.
  - unfold table_of, table_step. rewrite infos_remove_peer by done. f_equal. apply peer_to_room_remove_peer_internal.
  - unfold table_of, table_step. rewrite infos_remove_preserve. f_equal. apply peer_to_room_remove_peer_internal.
Qed.

(** A run of the table: each operation meets its precondition when it starts. *)
Inductive room_run : InMemoryRoomState → list RoomOp → InMemoryRoomState → Prop :=
| room_run_nil s : room_run s [] s
| room_run_cons s op ops s' :
    room_op_pre op s → room_run (run_room_op op s) ops s' → room_run s (op :: ops) s'.

(** C34: The room table refines a specification without peer lists: the rooms with
    their metadata, the room each peer is in, and what each operation makes of
    them.  From the empty table, whatever sequence of room creations, removals of
    empty rooms, metadata updates, checked joins (whose closure is its verdict),
    direct adds and removals of peers runs, provided that a checked join is only
    made by a peer that is in no other room, the state after it stands for exactly
    the table the specification computes: a checked join lets a peer in if and only
    if the room exists, has a place left by the count of its members and the
    verdict is favourable; an add moves the peer and closes the room it leaves
    empty; a removal closes a room it empties unless it preserves it.  And the index
    and the peer lists agree, with no peer listed twice. *)
Theorem room_table_refines_membership s ops :
  room_run InMemoryRoomState_new ops s →
  room_wf s ∧ table_of s = foldl (λ t op, table_step op t) (mkTable ∅ ∅) ops.
Proof.
  assert (∀ s0, room_run s0 ops s → room_wf s0 →
    room_wf s ∧ table_of s = foldl (λ t op, table_step op t) (table_of s0) ops) as Hgen.
  { induction 1 as [s0|s0 op ops s' Hpre Hrun IH]; intros Hwf; [done|].
    destruct (IH (room_wf_step op s0 Hwf Hpre)) as [Hwf' ->]. split; [done|]. cbn [foldl]. by rewrite table_refined. }
  intros Hrun. apply (Hgen _ Hrun), room_wf_new.
Qed.

(** Two peers join a room and one moves on. *)
Definition demo_room_ops : list RoomOp :=
  [OpCreateRoom "r" (new_p2p 0); OpTryAddPeer "a" "r" (Ok tt); OpTryAddPeer "b" "r" (Ok tt);
   OpTryAddPeer "c" "r" (Ok tt); OpAddPeer "a" "q" 1; OpRemovePeer "b"].

Lemma room_table_refines_membership_witness :
  let s := foldl (λ s op, run_room_op op s) InMemoryRoomState_new demo_room_ops in
  snapshot_rooms s = {["q" := ["a"]]} ∧ room_wf s ∧
  table_of s = foldl (λ t op, table_step op t) (mkTable ∅ ∅) demo_room_ops.
Proof.
  intros s. split; [vm_compute; reflexivity|].
  apply (room_table_refines_membership s demo_room_ops).
  repeat (constructor; [first [exact I | intros r0 Hr; vm_compute in Hr; congruence]|]).
  constructor.
Defined.

(** ** Viewer identities *)

(** The identities issued for the viewer windows of a peer. *)
Definition viewers_of (p : PeerId) (i : RoomInfo) : gset string :=
  default ∅ (viewer_identities i !! p).

(** [existing] belongs to the window instance [identity] was issued for. *)
Definition same_window (identity existing : string) : Prop :=
  match rfind_suffix "-vw-" identity with
  | Some suffix => ends_with suffix existing = true
  | None => False
  end.

#[global] Instance same_window_dec identity existing : Decision (same_window identity existing).
Proof. unfold same_window. case_match; apply _. Defined.

Lemma record_viewer_identity_eq p id i :
  record_viewer_identity p id i =
    let kept := filter (λ e, ¬ same_window id e) (viewers_of p i) in
    if bool_decide (size kept < 8)%nat
    then (true, set_viewer_identities <[p := kept ∪ {[id]}]> i)
    else (false, set_viewer_identities <[p := kept]> i).
Proof.
  unfold record_viewer_identity, MAX_VIEWER_IDENTITIES_PER_PEER. cbv zeta.
  fold (viewers_of p i). set (kept := match rfind_suffix _ _ with Some _ => _ | None => _ end).
  replace (filter (λ e, ¬ same_window id e) (viewers_of p i)) with kept.
  - repeat case_bool_decide; try lia; done.
  - subst kept. apply leibniz_equiv; intros x. rewrite elem_of_filter. unfold same_window.
    destruct (rfind_suffix "-vw-" id); [|tauto]. by rewrite elem_of_filter, not_true_iff_false.
Qed.

Lemma viewers_of_insert p q vs i :
  viewers_of q (set_viewer_identities <[p := vs]> i) = if decide (p = q) then vs else viewers_of q i.
Proof. unfold viewers_of. simpl. rewrite lookup_insert. by case_decide. Qed.

Lemma viewers_of_record_ne p id i q :
  q ≠ p → viewers_of q (record_viewer_identity p id i).2 = viewers_of q i.
Proof.
  intros Hq. rewrite record_viewer_identity_eq. cbv zeta.
  case_bool_decide; cbn [snd]; by rewrite viewers_of_insert, decide_False.
Qed.

(** Issuing a viewer identity keeps every peer at no more than
    [MAX_VIEWER_IDENTITIES_PER_PEER] identities, touches no other peer, and
    accepts exactly when the peer has a free slot once the identity issued
    earlier for the same window instance is dropped; an accepted identity is
    the only one of its window. *)
Theorem record_viewer_identity_spec p id i b i' :
  (∀ q, map_len (viewers_of q i) ≤ MAX_VIEWER_IDENTITIES_PER_PEER) →
  record_viewer_identity p id i = (b, i') →
  (∀ q, map_len (viewers_of q i') ≤ MAX_VIEWER_IDENTITIES_PER_PEER) ∧
  (∀ q, q ≠ p → viewers_of q i' = viewers_of q i) ∧
  (b = true ↔ map_len (filter (λ e, ¬ same_window id e) (viewers_of p i)) < MAX_VIEWER_IDENTITIES_PER_PEER) ∧
  (b = true → ∀ e, e ∈ viewers_of p i' ↔ e = id ∨ e ∈ viewers_of p i ∧ ¬ same_window id e).
Proof.
  unfold MAX_VIEWER_IDENTITIES_PER_PEER. rewrite record_viewer_identity_eq. cbv zeta.
  set (kept := filter _ _). intros Hle.
  assert (size kept ≤ size (viewers_of p i))%nat by (apply subseteq_size; set_solver).
  specialize (Hle p) as Hp.
  assert (size (kept ∪ {[id]}) ≤ size kept + 1)%nat as Hu.
  { rewrite size_union_alt, <-(size_singleton (C:=gset string) id).
    apply Nat.add_le_mono_l, subseteq_size. set_solver. }
  case_bool_decide as Hk; intros [= <- <-]; split_and!.
  - intros q. rewrite viewers_of_insert. case_decide; [lia|auto].
  - intros q Hq. by rewrite viewers_of_insert, decide_False.
  - split; [lia|done].
  - intros _ e. rewrite viewers_of_insert, decide_True by done. set_solver.
  - intros q. rewrite viewers_of_insert. case_decide; [lia|auto].
  - intros q Hq. by rewrite viewers_of_insert, decide_False.
  - split; [done|lia].
  - done.
Qed.

Definition demo_viewers : RoomInfo :=
  (record_viewer_identity "p" "room-p-vw-2"
    (record_viewer_identity "p" "room-p-vw-1" (new_sfu 4 (mkSfuRoomHandle "h") 0)).2).2.

Lemma demo_viewers_bounded q : map_len (viewers_of q demo_viewers) ≤ MAX_VIEWER_IDENTITIES_PER_PEER.
Proof.
  destruct (decide (q = "p")) as [->|Hq]; [vm_compute; discriminate|].
  unfold demo_viewers. rewrite !viewers_of_record_ne by done. vm_compute. discriminate.
Qed.

Lemma record_viewer_identity_spec_witness :
  let '(b, i') := record_viewer_identity "p" "other-p-vw-1" demo_viewers in
  b = true ∧ (∀ q, map_len (viewers_of q i') ≤ MAX_VIEWER_IDENTITIES_PER_PEER) ∧
  ("room-p-vw-1" ∉ viewers_of "p" i') ∧ ("room-p-vw-2" ∈ viewers_of "p" i').
Proof.
  destruct (record_viewer_identity "p" "other-p-vw-1" demo_viewers) as [b i'] eqn:E.
  destruct (record_viewer_identity_spec _ _ _ _ _ demo_viewers_bounded E) as (H1 & _ & _ & H4).
  assert (b = true) as Hb by (revert E; vm_compute; congruence).
  split_and!; [done|exact H1| |].
  - rewrite (H4 Hb). intros [H|[_ H]]; [discriminate|apply H; vm_compute; reflexivity].
  - rewrite (H4 Hb). right. split; [|intros H; vm_compute in H; discriminate].
    apply (bool_decide_eq_true_1 _). vm_compute. reflexivity.
Defined.
