(* ===== verification/RoomLocks.v ===== *)
(** * The room table at lock granularity (wavis-backend/src/state.rs)

    [InMemoryRoomState] protects the room map, every room and the reverse index
    with a lock each, and most methods release one lock before they take the
    next.  Here a room is a heap cell that the map points to (the [Arc]), a
    method is a thread whose every step is one critical section, and threads
    interleave.  A critical section that takes a second lock while it holds the
    cell lock (the closure of [try_add_peer_with], the index read of [add_peer])
    is one step: nobody else can see the cell until it ends.

    The first part shows that a method that runs without interference is the
    function of [RoomState.v]; the second that the capacity bound survives every
    interleaving of capacity-checked methods; the third that the index and the
    map do not: a join that overlaps the removal of the last peer of its room
    succeeds in a room that no longer exists. *)

From S2P Require Import Prelude Signaling RoomState.
Local Open Scope Z_scope.

Section room_locks.
(** The state the closures of [try_add_peer_with] share (the invite store). *)
Context {X : Type}.

(** ** Shared memory and threads *)

Abbreviation Loc := nat (only parsing).

(** [rooms], the [RoomMembers] cells behind the [Arc]s, [peer_to_room]. *)
Record Shared : Type := mkShared {
  table : gmap RoomId Loc;
  heap : list RoomMembers;
  index : gmap PeerId RoomId;
  store : X
}.

Definition set_table (f : gmap RoomId Loc → gmap RoomId Loc) (s : Shared) : Shared :=
  mkShared (f (table s)) (heap s) (index s) (store s).
Definition set_heap (f : list RoomMembers → list RoomMembers) (s : Shared) : Shared :=
  mkShared (table s) (f (heap s)) (index s) (store s).
Definition set_index (f : gmap PeerId RoomId → gmap PeerId RoomId) (s : Shared) : Shared :=
  mkShared (table s) (heap s) (f (index s)) (store s).
Definition set_store (x : X) (s : Shared) : Shared :=
  mkShared (table s) (heap s) (index s) x.

(** [rooms.insert(room_id, Arc::new(RwLock::new(members)))]. *)
Definition alloc (room_id : RoomId) (m : RoomMembers) (s : Shared) : Shared :=
  mkShared (<[room_id := length (heap s)]> (table s)) (heap s ++ [m]) (index s) (store s).

Inductive Outcome : Type :=
| RUnit
| RBool (b : bool)
| RJoin (r : Result Z JoinRejectionReason)
| RPanic.

(** A thread: the method it executes and how far it is. *)
Inductive Thread : Type :=
| TCreate (room_id : RoomId) (i : RoomInfo)
| TRemoveEmpty (room_id : RoomId)
| TRemoveEmptyDrop (room_id : RoomId)
| TUpdate (room_id : RoomId) (f : RoomInfo → RoomInfo)
| TWrite (room_id : RoomId) (f : RoomMembers → RoomMembers)
| TWriteCell (f : RoomMembers → RoomMembers) (l : Loc)
| TJoin (peer_id : PeerId) (room_id : RoomId) (f : X → Result unit JoinRejectionReason * X)
| TJoinCell (peer_id : PeerId) (room_id : RoomId) (f : X → Result unit JoinRejectionReason * X) (l : Loc)
| TJoinIndex (peer_id : PeerId) (room_id : RoomId) (new_count : Z)
| TRemove (peer_id : PeerId) (remove_empty : bool)
| TRemoveLookup (peer_id : PeerId) (room_id : RoomId) (remove_empty : bool)
| TRemoveCell (peer_id : PeerId) (room_id : RoomId) (remove_empty : bool) (l : Loc)
| TRemoveDrop (room_id : RoomId)
| TAdd (peer_id : PeerId) (room_id : RoomId) (now : Instant)
| TAddGet (peer_id : PeerId) (room_id : RoomId)
| TAddCell (peer_id : PeerId) (room_id : RoomId) (l : Loc)
| TAddLeaveLookup (peer_id : PeerId) (room_id old_id : RoomId)
| TAddLeaveCell (peer_id : PeerId) (room_id old_id : RoomId) (l : Loc)
| TAddLeaveDrop (peer_id : PeerId) (room_id old_id : RoomId)
| TAddGet2 (peer_id : PeerId) (room_id : RoomId)
| TAddCell2 (peer_id : PeerId) (room_id : RoomId) (l : Loc)
| TAddIndex (peer_id : PeerId) (room_id : RoomId)
| TDone (o : Outcome).

(** [members.peers.retain(|p| p != peer_id)]. *)
Definition drop_peer (peer_id : PeerId) : RoomMembers → RoomMembers :=
  set_peers (retain (λ p, bool_decide (p ≠ peer_id))).

Definition is_empty_room (m : RoomMembers) : bool :=
  match peers m with [] => true | _ => false end.

(** [create_room]: one critical section on the map. *)
Definition step_create (r : RoomId) (i : RoomInfo) (s : Shared) : Thread * Shared :=
  match table s !! r with
  | Some _ => (TDone (RBool false), s)
  | None => (TDone (RBool true), alloc r (mkRoomMembers [] i) s)
  end.

(** [remove_empty_room]: the emptiness test, then the removal. *)
Definition step_remove_empty (r : RoomId) (s : Shared) : Thread * Shared :=
  match table s !! r ≫= (heap s !!.) with
  | None => (TDone (RBool false), s)
  | Some m => if is_empty_room m then (TRemoveEmptyDrop r, s) else (TDone (RBool false), s)
  end.

(** [try_add_peer_with], steps 3 to 6: capacity check, closure, insertion. *)
Definition step_join_cell (p : PeerId) (r : RoomId)
    (f : X → Result unit JoinRejectionReason * X) (l : Loc) (s : Shared) : Thread * Shared :=
  match heap s !! l with
  | None => (TDone RPanic, s)
  | Some m =>
      if contains p (peers m) then (TJoinIndex p r (len (peers m)), s)
      else if bool_decide (max_participants (info m) ≤ len (peers m))
      then (TDone (RJoin (Err RoomFull)), s)
      else match f (store s) with
           | (Err e, x) => (TDone (RJoin (Err e)), set_store x s)
           | (Ok _, x) =>
               let m' := set_peers (λ ps, ps ++ [p]) m in
               (TJoinIndex p r (len (peers m')), set_heap <[l := m']> (set_store x s))
           end
  end.

(** [remove_peer_internal], step 2: the peer list. *)
Definition step_remove_cell (p : PeerId) (r : RoomId) (remove_empty : bool) (l : Loc)
    (s : Shared) : Thread * Shared :=
  match heap s !! l with
  | None => (TDone RPanic, s)
  | Some m =>
      (if remove_empty && is_empty_room (drop_peer p m) then TRemoveDrop r else TDone RUnit,
       set_heap <[l := drop_peer p m]> s)
  end.

(** [add_peer]: the section under the new room's lock. *)
Definition step_add_cell (p : PeerId) (r : RoomId) (l : Loc) (s : Shared) : Thread * Shared :=
  match index s !! p with
  | Some old_id =>
      if bool_decide (old_id ≠ r) then (TAddLeaveLookup p r old_id, s)
      else (TAddIndex p r, set_heap (alter (push_if_absent p) l) s)
  | None => (TAddIndex p r, set_heap (alter (push_if_absent p) l) s)
  end.

(** [remove_peer_from_room_only] inside [add_peer]. *)
Definition step_add_leave_cell (p : PeerId) (r old_id : RoomId) (l : Loc) (s : Shared)
    : Thread * Shared :=
  match heap s !! l with
  | None => (TDone RPanic, s)
  | Some m =>
      (if is_empty_room (drop_peer p m) then TAddLeaveDrop p r old_id else TAddGet2 p r,
       set_heap <[l := drop_peer p m]> s)
  end.

(** The next critical section of a thread. *)
Definition thread_step (t : Thread) (s : Shared) : Thread * Shared :=
  match t with
  | TCreate r i => step_create r i s
  | TRemoveEmpty r => step_remove_empty r s
  | TRemoveEmptyDrop r =>
      (TDone (RBool (bool_decide (is_Some (table s !! r)))), set_table (delete r) s)
  | TUpdate r f =>
      match table s !! r with
      | None => (TDone RUnit, s)
      | Some l => (TDone RUnit, set_heap (alter (set_info f) l) s)
      end
  | TWrite r f =>
      match table s !! r with
      | None => (TDone RUnit, s)
      | Some l => (TWriteCell f l, s)
      end
  | TWriteCell f l => (TDone RUnit, set_heap (alter f l) s)
  | TJoin p r f =>
      match table s !! r with
      | None => (TDone (RJoin (Err RoomFull)), s)
      | Some l => (TJoinCell p r f l, s)
      end
  | TJoinCell p r f l => step_join_cell p r f l s
  | TJoinIndex p r n => (TDone (RJoin (Ok n)), set_index <[p := r]> s)
  | TRemove p b =>
      match index s !! p with
      | None => (TDone RUnit, s)
      | Some r => (TRemoveLookup p r b, set_index (delete p) s)
      end
  | TRemoveLookup p r b =>
      match table s !! r with
      | None => (TDone RUnit, s)
      | Some l => (TRemoveCell p r b l, s)
      end
  | TRemoveCell p r b l => step_remove_cell p r b l s
  | TRemoveDrop r => (TDone RUnit, set_table (delete r) s)
  | TAdd p r now =>
      (TAddGet p r,
       match table s !! r with Some _ => s | None => alloc r (mkRoomMembers [] (new_p2p now)) s end)
  | TAddGet p r =>
      match table s !! r with None => (TDone RPanic, s) | Some l => (TAddCell p r l, s) end
  | TAddCell p r l => step_add_cell p r l s
  | TAddLeaveLookup p r old_id =>
      match table s !! old_id with
      | None => (TAddGet2 p r, s)
      | Some l => (TAddLeaveCell p r old_id l, s)
      end
  | TAddLeaveCell p r old_id l => step_add_leave_cell p r old_id l s
  | TAddLeaveDrop p r old_id => (TAddGet2 p r, set_table (delete old_id) s)
  | TAddGet2 p r =>
      match table s !! r with None => (TDone RPanic, s) | Some l => (TAddCell2 p r l, s) end
  | TAddCell2 p r l => (TAddIndex p r, set_heap (alter (push_if_absent p) l) s)
  | TAddIndex p r => (TDone RUnit, set_index <[p := r]> s)
  | TDone o => (TDone o, s)
  end.

(** A schedule picks the thread that moves next; calls arrive at any time. *)
Inductive sched_step (callable : Thread → Prop) : Shared * list Thread → Shared * list Thread → Prop :=
| sched_call s ts t : callable t → sched_step callable (s, ts) (s, ts ++ [t])
| sched_run s ts i t : ts !! i = Some t →
    sched_step callable (s, ts) ((thread_step t s).2, <[i := (thread_step t s).1]> ts).

(** A thread that runs alone until it returns. *)
Inductive alone : Thread → Shared → Outcome → Shared → Prop :=
| alone_done o s : alone (TDone o) s o s
| alone_step t s t' s' o s'' :
    thread_step t s = (t', s') → alone t' s' o s'' → alone t s o s''.

(** ** Uninterrupted methods are the functions of [RoomState.v] *)

(** The table the shared memory represents. *)
Definition abs (s : Shared) : InMemoryRoomState :=
  mkInMemoryRoomState (omap (heap s !!.) (table s)) (index s).

(** Every entry of the map points to a cell of its own. *)
Definition shared_wf (s : Shared) : Prop :=
  (∀ r l, table s !! r = Some l → is_Some (heap s !! l)) ∧
  (∀ r1 r2 l, table s !! r1 = Some l → table s !! r2 = Some l → r1 = r2).

Lemma abs_lookup s r : rooms (abs s) !! r = table s !! r ≫= (heap s !!.).
Proof. apply lookup_omap. Qed.

Lemma abs_lookup_Some s r l :
  shared_wf s → table s !! r = Some l → ∃ m, heap s !! l = Some m ∧ rooms (abs s) !! r = Some m.
Proof.
  intros [Hb _] Hl. destruct (Hb _ _ Hl) as [m Hm]. exists m. by rewrite abs_lookup, Hl.
Qed.

Lemma abs_lookup_None s r : table s !! r = None → rooms (abs s) !! r = None.
Proof. intros Hr. by rewrite abs_lookup, Hr. Qed.

Lemma abs_alloc s r m :
  shared_wf s → table s !! r = None →
  abs (alloc r m s) = set_rooms <[r := m]> (abs s) ∧ shared_wf (alloc r m s).
Proof.
  intros [Hb Hi] Hr. unfold abs, set_rooms, alloc, shared_wf; simpl. split; [f_equal|split].
  - apply map_eq. intros r'. rewrite lookup_omap, !lookup_insert, lookup_omap.
    case_decide; simpl; [by rewrite list_lookup_middle|].
    destruct (table s !! r') as [l|] eqn:E; simpl; [|done].
    destruct (Hb _ _ E) as [m' Hm']. rewrite lookup_app_l; [done|]. by apply lookup_lt_Some in Hm'.
  - intros r' l. rewrite lookup_insert. case_decide; [intros [= <-]|intros Hl].
    + by rewrite list_lookup_middle.
    + destruct (Hb _ _ Hl) as [m' Hm']. exists m'. by apply lookup_app_l_Some.
  - intros r1 r2 l. rewrite !lookup_insert.
    assert (∀ r', table s !! r' = Some (length (heap s)) → False) as Hfresh.
    { intros r' H. destruct (Hb _ _ H) as [m' Hm']. apply lookup_lt_Some in Hm'. lia. }
    repeat case_decide; subst; intros; simplify_eq; [done|by exfalso; eauto..|by eauto].
Qed.

Lemma abs_alter s r l g :
  shared_wf s → table s !! r = Some l →
  abs (set_heap (alter g l) s) = set_rooms (alter g r) (abs s) ∧ shared_wf (set_heap (alter g l) s).
Proof.
  intros [Hb Hi] Hl. unfold abs, set_rooms, set_heap, shared_wf; simpl. split; [f_equal|split; [|done]].
  - apply map_eq. intros r'. rewrite lookup_omap, lookup_alter, !lookup_omap.
    destruct (table s !! r') as [l'|] eqn:E; cbn [mbind option_bind]; [|by case_decide; simplify_eq].
    rewrite list_lookup_alter. destruct (decide (r = r')) as [<-|Hne].
    + rewrite Hl in E. simplify_eq. by rewrite decide_True, Hl.
    + rewrite decide_False; [done|]. intros <-. by apply Hne, (Hi _ _ l).
  - intros r' l' H. rewrite list_lookup_alter. destruct (Hb _ _ H) as [m Hm].
    case_decide; subst; rewrite Hm; simpl; eauto.
Qed.

Lemma abs_insert s r l m m0 :
  shared_wf s → table s !! r = Some l → heap s !! l = Some m0 →
  abs (set_heap <[l := m]> s) = set_rooms <[r := m]> (abs s) ∧ shared_wf (set_heap <[l := m]> s).
Proof.
  intros Hwf Hl Hm. destruct (abs_alter s r l (λ _, m) Hwf Hl) as [Ha Hw].
  assert (set_heap (alter (λ _, m) l) s = set_heap <[l := m]> s) as Heq.
  { unfold set_heap. f_equal. apply list_eq. intros k.
    rewrite list_lookup_alter, list_lookup_insert. repeat case_decide; subst; rewrite ?Hm; try done.
    - exfalso. apply lookup_lt_Some in Hm. naive_solver.
    - naive_solver. }
  rewrite Heq in *. rewrite Ha. split; [|done]. unfold set_rooms. f_equal.
  apply map_eq. intros k. rewrite lookup_alter, lookup_insert. case_decide; subst; [|done].
  change (omap _ _) with (rooms (abs s)). by rewrite abs_lookup, Hl; simpl; rewrite Hm.
Qed.

Lemma abs_delete s r :
  shared_wf s →
  abs (set_table (delete r) s) = set_rooms (delete r) (abs s) ∧ shared_wf (set_table (delete r) s).
Proof.
  intros [Hb Hi]. unfold abs, set_rooms, set_table, shared_wf; simpl. split; [f_equal|split].
  - apply omap_delete.
  - intros r' l. rewrite lookup_delete_Some. naive_solver.
  - intros r1 r2 l. rewrite !lookup_delete_Some. naive_solver.
Qed.

Lemma abs_set_index f s : abs (set_index f s) = set_peer_to_room f (abs s).
Proof. done. Qed.

Lemma shared_wf_index f s : shared_wf s → shared_wf (set_index f s).
Proof. done. Qed.

(** The thread that executes an operation of the table. *)
Definition thread_of_op (op : RoomOp) : Thread :=
  match op with
  | OpCreateRoom r i => TCreate r i
  | OpRemoveEmptyRoom r => TRemoveEmpty r
  | OpUpdateRoomInfo r f => TUpdate r f
  | OpTryAddPeer p r v => TJoin p r (λ x, (v, x))
  | OpAddPeer p r now => TAdd p r now
  | OpRemovePeer p => TRemove p true
  | OpRemovePeerPreserveRoom p => TRemove p false
  end.

(** What the operation returns. *)
Definition op_outcome (op : RoomOp) (s : InMemoryRoomState) : Outcome :=
  match op with
  | OpCreateRoom r i => RBool (create_room r i s).1
  | OpRemoveEmptyRoom r => RBool (remove_empty_room r s).1
  | OpTryAddPeer p r v => RJoin (try_add_peer_with p r (λ x : unit, (v, x)) s tt).1.1
  | _ => RUnit
  end.

Definition refines_op (op : RoomOp) (s : Shared) : Prop :=
  ∃ s', alone (thread_of_op op) s (op_outcome op (abs s)) s' ∧
        abs s' = run_room_op op (abs s) ∧ shared_wf s'.

Ltac step := eapply alone_step; [simpl|].

Lemma create_refines r i s : shared_wf s → refines_op (OpCreateRoom r i) s.
Proof.
  intros Hwf. unfold refines_op; simpl. unfold create_room.
  destruct (table s !! r) as [l|] eqn:El.
  - destruct (abs_lookup_Some s r l Hwf El) as (m & Hm & ->). exists s.
    split_and!; [|done..]. step; [by unfold step_create; rewrite El|constructor].
  - rewrite abs_lookup_None by done.
    destruct (abs_alloc s r (mkRoomMembers [] i) Hwf El) as [Ha Hw].
    exists (alloc r (mkRoomMembers [] i) s). split_and!; [|done..].
    step; [by unfold step_create; rewrite El|constructor].
Qed.

Lemma remove_empty_refines r s : shared_wf s → refines_op (OpRemoveEmptyRoom r) s.
Proof.
  intros Hwf. unfold refines_op; simpl. unfold remove_empty_room.
  rewrite !abs_lookup. destruct (table s !! r) as [l|] eqn:El; simpl.
  - destruct (abs_lookup_Some s r l Hwf El) as (m & Hm & _). rewrite Hm.
    destruct (peers m) eqn:Ep.
    + destruct (abs_delete s r Hwf) as [Ha Hw]. exists (set_table (delete r) s).
      split_and!; [|done..].
      step; [unfold step_remove_empty; rewrite El; simpl; by rewrite Hm; unfold is_empty_room; rewrite Ep|].
      step; [by rewrite El|]. constructor.
    + exists s. split_and!; [|done..].
      step; [unfold step_remove_empty; rewrite El; simpl; by rewrite Hm; unfold is_empty_room; rewrite Ep|].
      constructor.
  - exists s. split_and!; [|done..]. step; [by unfold step_remove_empty; rewrite El|constructor].
Qed.

Lemma update_refines r f s : shared_wf s → refines_op (OpUpdateRoomInfo r f) s.
Proof.
  intros Hwf. unfold refines_op; simpl. unfold update_room_info, update_room_info_capture.
  destruct (table s !! r) as [l|] eqn:El.
  - destruct (abs_lookup_Some s r l Hwf El) as (m & Hm & Hr). rewrite Hr.
    destruct (abs_alter s r l (set_info f) Hwf El) as [Ha Hw].
    exists (set_heap (alter (set_info f) l) s). split_and!; [step; [by rewrite El|constructor]| |done].
    rewrite Ha. unfold set_rooms; simpl. f_equal. apply map_eq; intros r'.
    rewrite lookup_alter, lookup_insert. case_decide; [|done]. subst. simpl in Hr. by rewrite Hr.
  - rewrite abs_lookup_None by done. exists s.
    split_and!; [step; [by rewrite El|constructor]|done..].
Qed.

Lemma join_refines p r v s : shared_wf s → refines_op (OpTryAddPeer p r v) s.
Proof.
  intros Hwf. unfold refines_op; simpl. unfold try_add_peer_with.
  destruct (table s !! r) as [l|] eqn:El.
  2: { rewrite abs_lookup_None by done. exists s. split_and!; [step; [by rewrite El|constructor]|done..]. }
  destruct (abs_lookup_Some s r l Hwf El) as (m & Hm & Hr). rewrite Hr.
  destruct (contains p (peers m)) eqn:Ec.
  { exists (set_index <[p := r]> s). split_and!; [|done..]. step; [by rewrite El|].
    step; [by unfold step_join_cell; rewrite Hm, Ec|]. step; [done|]. constructor. }
  destruct (bool_decide (max_participants (info m) ≤ len (peers m))) eqn:Eb.
  { exists s. split_and!; [|done..]. step; [by rewrite El|].
    step; [by unfold step_join_cell; rewrite Hm, Ec, Eb|]. constructor. }
  destruct v as [[]|e].
  - destruct (abs_insert s r l (set_peers (λ l, l ++ [p]) m) m Hwf El Hm) as [Ha Hw].
    exists (set_index <[p := r]> (set_heap <[l := set_peers (λ l, l ++ [p]) m]> s)).
    split_and!; [| |by apply shared_wf_index].
    + step; [by rewrite El|]. step; [by unfold step_join_cell; rewrite Hm, Ec, Eb|].
      step; [done|]. destruct s; constructor.
    + by rewrite abs_set_index, Ha.
  - exists s. split_and!; [|done..]. step; [by rewrite El|].
    step; [by unfold step_join_cell; rewrite Hm, Ec, Eb|]. destruct s; constructor.
Qed.

(** The end of [remove_peer_internal]: the cell, then the map. *)
Lemma remove_cell_refines p r b l m s :
  shared_wf s → table s !! r = Some l → heap s !! l = Some m →
  ∃ s', alone (TRemoveCell p r b l) s RUnit s' ∧ shared_wf s' ∧
    abs s' = match b, peers (drop_peer p m) with
             | true, [] => set_rooms (delete r) (abs s)
             | _, _ => set_rooms <[r := drop_peer p m]> (abs s)
             end.
Proof.
  intros Hwf El Hm. destruct (abs_insert s r l (drop_peer p m) m Hwf El Hm) as [Ha Hw].
  destruct (b && is_empty_room (drop_peer p m)) eqn:Eb.
  - apply andb_prop in Eb as [-> Eb]. destruct (abs_delete _ r Hw) as [Hd Hwd].
    eexists. split_and!; [|exact Hwd|].
    + step; [by unfold step_remove_cell; rewrite Hm, Eb|]. step; [done|]. constructor.
    + rewrite Hd, Ha. unfold is_empty_room in Eb. destruct (peers (drop_peer p m)); [|done].
      unfold set_rooms; simpl. by rewrite delete_insert_eq.
  - eexists. split_and!; [|exact Hw|].
    + step; [by unfold step_remove_cell; rewrite Hm, Eb|]. constructor.
    + rewrite Ha. unfold is_empty_room in Eb. by destruct b, (peers (drop_peer p m)).
Qed.

Lemma remove_refines p b s :
  shared_wf s →
  ∃ s', alone (TRemove p b) s RUnit s' ∧ abs s' = remove_peer_internal p b (abs s) ∧ shared_wf s'.
Proof.
  intros Hwf. unfold remove_peer_internal. simpl peer_to_room.
  destruct (index s !! p) as [r|] eqn:Ep.
  2: { exists s. split_and!; [step; [by rewrite Ep|constructor]|done..]. }
  change (set_peer_to_room (delete p) (abs s)) with (abs (set_index (delete p) s)).
  assert (shared_wf (set_index (delete p) s)) as Hwf1 by by apply shared_wf_index.
  destruct (table s !! r) as [l|] eqn:El.
  - destruct (abs_lookup_Some _ r l Hwf1 El) as (m & Hm & Hr). rewrite Hr.
    destruct (remove_cell_refines p r b l m _ Hwf1 El Hm) as (s' & Hs' & Hw & Ha).
    exists s'. split_and!; [|by rewrite Ha|done].
    step; [by rewrite Ep|]. step; [by rewrite El|]. done.
  - rewrite abs_lookup_None by done. exists (set_index (delete p) s). split_and!; [|done..].
    step; [by rewrite Ep|]. step; [by rewrite El|]. constructor.
Qed.

(** The end of [add_peer]: the push, then the index. *)
Lemma add_push_refines p r l s :
  shared_wf s → table s !! r = Some l →
  let s' := set_index <[p := r]> (set_heap (alter (push_if_absent p) l) s) in
  alone (TAddIndex p r) (set_heap (alter (push_if_absent p) l) s) RUnit s' ∧ shared_wf s' ∧
  abs s' = set_peer_to_room <[p := r]> (set_rooms (alter (push_if_absent p) r) (abs s)).
Proof.
  intros Hwf El s'. destruct (abs_alter s r l (push_if_absent p) Hwf El) as [Ha Hw].
  split_and!; [step; [done|constructor]|by apply shared_wf_index|].
  subst s'. by rewrite abs_set_index, Ha.
Qed.

(** [add_peer] leaves the old room, then enters the new one. *)
Lemma add_leave_refines p r l old s :
  shared_wf s → table s !! r = Some l → old ≠ r →
  ∃ s1, (∀ o s', alone (TAddGet2 p r) s1 o s' → alone (TAddLeaveLookup p r old) s o s') ∧
    shared_wf s1 ∧ table s1 !! r = Some l ∧ abs s1 = remove_peer_from_room_only p old (abs s).
Proof.
  intros Hwf El Hne. unfold remove_peer_from_room_only.
  destruct (table s !! old) as [l'|] eqn:Eo.
  2: { rewrite abs_lookup_None by done. exists s. split_and!; [|done..].
       intros o s' H. step; [by rewrite Eo|done]. }
  destruct (abs_lookup_Some s old l' Hwf Eo) as (m & Hm & ->).
  destruct (abs_insert s old l' (drop_peer p m) m Hwf Eo Hm) as [Ha Hw].
  fold (drop_peer p). destruct (peers (drop_peer p m)) eqn:Ep.
  - destruct (abs_delete _ old Hw) as [Hd Hwd]. eexists. split_and!; [|exact Hwd|..].
    + intros o s' H. step; [by rewrite Eo|].
      step; [by unfold step_add_leave_cell, is_empty_room; rewrite Hm, Ep|]. step; [done|exact H].
    + simpl. by rewrite lookup_delete_ne.
    + rewrite Hd, Ha. unfold set_rooms; simpl. by rewrite delete_insert_eq.
  - eexists. split_and!; [|exact Hw|..].
    + intros o s' H. step; [by rewrite Eo|].
      step; [by unfold step_add_leave_cell, is_empty_room; rewrite Hm, Ep|exact H].
    + done.
    + by rewrite Ha.
Qed.

Lemma add_refines p r now s : shared_wf s → refines_op (OpAddPeer p r now) s.
Proof.
  intros Hwf. unfold refines_op; simpl.
  set (s0 := match table s !! r with Some _ => s
             | None => alloc r (mkRoomMembers [] (new_p2p now)) s end).
  assert (shared_wf s0 ∧ is_Some (table s0 !! r) ∧ index s0 = index s ∧
    abs s0 = match rooms (abs s) !! r with Some _ => abs s
             | None => set_rooms <[r := mkRoomMembers [] (new_p2p now)]> (abs s) end)
    as (Hw0 & [l El] & Hi0 & Ha0).
  { subst s0. destruct (table s !! r) as [l|] eqn:El.
    - destruct (abs_lookup_Some s r l Hwf El) as (m & Hm & ->). eauto.
    - rewrite abs_lookup_None by done.
      destruct (abs_alloc s r (mkRoomMembers [] (new_p2p now)) Hwf El) as [Ha Hw].
      split_and!; [done| |done..]. simpl. by rewrite lookup_insert_eq. }
  unfold add_peer. rewrite <-Ha0. clear Ha0.
  assert (∀ o s', alone (TAddCell p r l) s0 o s' → alone (TAdd p r now) s o s') as Hstart.
  { intros. step; [done|]. fold s0. step; [by rewrite El|done]. }
  clearbody s0. simpl peer_to_room. unfold step_add_cell in *.
  assert (∀ s1, shared_wf s1 → table s1 !! r = Some l →
    (∀ o s', alone (TAddIndex p r) (set_heap (alter (push_if_absent p) l) s1) o s' →
       alone (TAdd p r now) s o s') →
    ∃ s', alone (TAdd p r now) s RUnit s' ∧
      abs s' = set_peer_to_room <[p := r]> (set_rooms (alter (push_if_absent p) r) (abs s1)) ∧
      shared_wf s') as Hpush.
  { intros s1 Hw1 El1 Hgo. destruct (add_push_refines p r l s1 Hw1 El1) as (Hr & Hw & Ha). eauto. }
  destruct (index s0 !! p) as [old|] eqn:Ep; [case_bool_decide as Hold|].
  - destruct (add_leave_refines p r l old s0 Hw0 El Hold) as (s1 & Hgo & Hw1 & El1 & Ha1).
    rewrite <-Ha1. apply Hpush; [done..|]. intros o s' H. apply Hstart.
    step; [unfold step_add_cell; by rewrite Ep, bool_decide_true|]. apply Hgo.
    step; [by rewrite El1|]. step; [done|exact H].
  - apply Hpush; [done..|]. intros o s' H. apply Hstart.
    step; [unfold step_add_cell; rewrite Ep, bool_decide_false by naive_solver; done|exact H].
  - apply Hpush; [done..|]. intros o s' H. apply Hstart.
    step; [unfold step_add_cell; by rewrite Ep|exact H].
Qed.

(** Seven methods of the room table ([create_room], [remove_empty_room],
    [update_room_info], [try_add_peer_with], [add_peer], [remove_peer] and
    [remove_peer_preserve_room]), run without interference, return without panicking
    after finitely many critical sections, with the result and the table of their
    sequential definitions. *)
Theorem uninterrupted_method_refines op s :
  shared_wf s →
  ∃ s', alone (thread_of_op op) s (op_outcome op (abs s)) s' ∧
        abs s' = run_room_op op (abs s) ∧ shared_wf s'.
Proof.
  destruct op; simpl thread_of_op.
  - apply create_refines.
  - apply remove_empty_refines.
  - apply update_refines.
  - apply join_refines.
  - apply add_refines.
  - apply remove_refines.
  - apply remove_refines.
Qed.

(** ** Capacity under every interleaving *)

Definition Shared_new (x : X) : Shared := mkShared ∅ [] ∅ x.

Definition keeps_max (f : RoomInfo → RoomInfo) : Prop :=
  ∀ i, max_participants (f i) = max_participants i.
Definition keeps_peers (f : RoomMembers → RoomMembers) : Prop :=
  ∀ m, peers (f m) = peers m ∧ max_participants (info (f m)) = max_participants (info m).

(** The calls of the join, leave and room-update paths: rooms are created with
    a bound of at most 6 ([new_p2p], [new_sfu]), updates change neither the
    bound nor the peer list, and peers enter with [try_add_peer_with]. *)
Definition checked_call (t : Thread) : Prop :=
  match t with
  | TCreate _ i => 0 ≤ max_participants i ≤ 6
  | TUpdate _ f => keeps_max f
  | TWrite _ f => keeps_peers f
  | TJoin _ _ _ | TRemove _ _ | TRemoveEmpty _ => True
  | _ => False
  end.

(** What a thread of such a call may be doing. *)
Definition thread_ok (t : Thread) : Prop :=
  match t with
  | TCreate _ i => 0 ≤ max_participants i ≤ 6
  | TUpdate _ f => keeps_max f
  | TWrite _ f | TWriteCell f _ => keeps_peers f
  | TAdd _ _ _ | TAddGet _ _ | TAddCell _ _ _ | TAddLeaveLookup _ _ _ | TAddLeaveCell _ _ _ _
  | TAddLeaveDrop _ _ _ | TAddGet2 _ _ | TAddCell2 _ _ _ | TAddIndex _ _ => False
  | _ => True
  end.

Definition cell_ok (m : RoomMembers) : Prop :=
  NoDup (peers m) ∧ len (peers m) ≤ max_participants (info m) ≤ 6.

Definition config_ok (c : Shared * list Thread) : Prop :=
  Forall cell_ok (heap c.1) ∧ Forall thread_ok c.2.

Lemma Forall_alter_cell f l (h : list RoomMembers) :
  (∀ m, cell_ok m → cell_ok (f m)) → Forall cell_ok h → Forall cell_ok (alter f l h).
Proof. intros Hf Hh. apply Forall_alter; [done|]. auto. Qed.

Lemma cell_ok_drop p m : cell_ok m → cell_ok (drop_peer p m).
Proof.
  intros [Hn Hl]. split; simpl; [by apply NoDup_retain|].
  pose proof (length_retain_le (λ q, bool_decide (q ≠ p)) (peers m)). lia.
Qed.

Lemma cell_ok_push p m :
  cell_ok m → contains p (peers m) = false → len (peers m) < max_participants (info m) →
  cell_ok (set_peers (λ l, l ++ [p]) m).
Proof.
  unfold contains. intros [Hn Hl] Hc Hlt. apply bool_decide_eq_false in Hc. split; simpl.
  - apply NoDup_app; split_and!; [done|set_solver|apply NoDup_singleton].
  - rewrite length_app. simpl. lia.
Qed.

Lemma cell_ok_keeps f m : keeps_peers f → cell_ok m → cell_ok (f m).
Proof. unfold cell_ok. intros Hf. destruct (Hf m) as [-> ->]. done. Qed.

Lemma thread_step_ok t s :
  thread_ok t → Forall cell_ok (heap s) →
  thread_ok (thread_step t s).1 ∧ Forall cell_ok (heap (thread_step t s).2).
Proof.
  intros Ht Hs. destruct t; simpl in *; try done; try (case_match; simpl; done).
  - unfold step_create. case_match; simpl; split; try done.
    apply Forall_app; split; [done|]. repeat constructor; simpl; [lia..].
  - unfold step_remove_empty. by repeat case_match.
  - case_match; split; try done. simpl. apply Forall_alter_cell; [|done].
    intros m. apply cell_ok_keeps. split; [done|]. apply Ht.
  - split; [done|]. apply Forall_alter_cell; [|done]. intros m. by apply cell_ok_keeps.
  - unfold step_join_cell. destruct (heap s !! l) as [m|] eqn:Hm; [|done].
    destruct (contains _ _) eqn:Hc; [done|]. case_bool_decide as Hb; [done|].
    destruct (f (store s)) as [[]?]; [|done]. split; [done|]. simpl.
    apply Forall_insert; [done|]. apply cell_ok_push; [|done|lia].
    by eapply Forall_lookup_1.
  - unfold step_remove_cell. destruct (heap s !! l) as [m|] eqn:Hm; [|done]. simpl.
    split; [by case_match|]. apply Forall_insert; [done|]. apply cell_ok_drop.
    by eapply Forall_lookup_1.
Qed.

Lemma checked_call_ok t : checked_call t → thread_ok t.
Proof. by destruct t. Qed.

Lemma sched_step_ok c c' : sched_step checked_call c c' → config_ok c → config_ok c'.
Proof.
  intros [s ts t Ht|s ts i t Hi] [Hs Hts]; simpl in *.
  - split; [done|]. apply Forall_app; split; [done|]. repeat constructor. by apply checked_call_ok.
  - destruct (thread_step_ok t s) as [Ht' Hs']; [by eapply Forall_lookup_1|done|].
    split; [done|]. simpl. by apply Forall_insert.
Qed.

(** C6: Whatever the interleaving of room creations, capacity-checked joins,
    leaves, updates and room removals, no room, not even one already unlinked
    from the map, ever holds more peers than its [max_participants], at most 6,
    or the same peer twice. *)
Theorem capacity_all_interleavings x s ts :
  rtc (sched_step checked_call) (Shared_new x, []) (s, ts) →
  ∀ l m, heap s !! l = Some m →
    NoDup (peers m) ∧ len (peers m) ≤ max_participants (info m) ≤ 6.
Proof.
  intros Hrun l m Hm.
  assert (config_ok (s, ts)) as [Hs _].
  { apply (rtc_invariant _ config_ok _ _ sched_step_ok Hrun). split; constructor. }
  exact (Forall_lookup_1 _ _ _ _ Hs Hm).
Qed.

(** ** Executable schedules *)

Inductive Move : Type :=
| Call (t : Thread)
| Run (i : nat).

Definition play_move (c : Shared * list Thread) (m : Move) : Shared * list Thread :=
  match m with
  | Call t => (c.1, c.2 ++ [t])
  | Run i => match c.2 !! i with
             | Some t => ((thread_step t c.1).2, <[i := (thread_step t c.1).1]> c.2)
             | None => c
             end
  end.

Definition play (ms : list Move) (x : X) : Shared * list Thread :=
  foldl play_move (Shared_new x, []) ms.

Lemma play_reachable (callable : Thread → Prop) ms x :
  Forall (λ m, match m with Call t => callable t | Run _ => True end) ms →
  rtc (sched_step callable) (Shared_new x, []) (play ms x).
Proof.
  unfold play. generalize (@nil Thread) (Shared_new x). induction ms as [|m ms IH]; intros ts s Hms; [done|].
  apply Forall_cons in Hms as [Hm Hms]. simpl. destruct m as [t|i]; simpl.
  - eapply rtc_l; [by apply sched_call|]. by apply IH.
  - destruct (ts !! i) as [t|] eqn:Hi; [|by apply IH].
    eapply rtc_l; [by apply (sched_run _ s ts i t)|]. by apply IH.
Qed.

Definition no_invite : X → Result unit JoinRejectionReason * X := λ x, (Ok tt, x).

(** Room [r] holds [a]; [b] has looked the room up but not locked it yet. *)
Definition race_prefix : list Move :=
  [Call (TCreate "r" (new_p2p 0)); Run 0;
   Call (TJoin "a" "r" no_invite); Run 1; Run 1; Run 1;
   Call (TJoin "b" "r" no_invite); Run 2].

(** [a] leaves, and between its last two critical sections [b]'s join completes. *)
Definition race_moves : list Move :=
  race_prefix ++ [Call (TRemove "a" true); Run 3; Run 3; Run 3; Run 2; Run 2; Run 3].

Lemma race_moves_checked :
  Forall (λ m, match m with Call t => checked_call t | Run _ => True end) race_moves.
Proof. repeat constructor; done. Qed.

(** A capacity-checked join that overlaps the departure of the room's last
    peer can be told it succeeded although its room has left the map: the
    emptiness test of [remove_peer_internal] is not repeated when the map entry
    is dropped, so the joiner stays indexed in a room that does not exist. *)
Theorem join_during_last_leave_orphans x :
  ∃ s ts, rtc (sched_step checked_call) (Shared_new x, []) (s, ts) ∧
    ts = [TDone (RBool true); TDone (RJoin (Ok 1)); TDone (RJoin (Ok 1)); TDone RUnit] ∧
    index s !! "b" = Some "r" ∧ table s !! "r" = None ∧ ¬ room_wf (abs s).
Proof.
  exists (play race_moves x).1, (play race_moves x).2.
  rewrite <-surjective_pairing.
  split_and!; [exact (play_reachable _ _ x race_moves_checked)|reflexivity..|].
  intros [H _]. assert ("b" ∈ peers_at (abs (play race_moves x).1) "r") as Hin by (apply H; reflexivity).
  vm_compute in Hin. inversion Hin.
Qed.

End room_locks.
Arguments Shared X : clear implicits.
Arguments Thread X : clear implicits.

Lemma uninterrupted_method_refines_witness :
  ∃ s', alone (TJoin "b" "r" (λ x : unit, (Ok tt, x))) (play race_prefix tt).1 (RJoin (Ok 2)) s' ∧
    snapshot_rooms (abs s') = {["r" := ["a"; "b"]]}.
Proof.
  destruct (uninterrupted_method_refines (OpTryAddPeer "b" "r" (Ok tt)) (play race_prefix tt).1)
    as (s' & Hrun & Habs & _).
  - split.
    + intros r l Hr. vm_compute in Hr. vm_compute. destruct (decide (r = "r")) as [->|Hne].
      * vm_compute in Hr. simplify_eq. eauto.
      * exfalso. revert Hr. change (({["r" := 0%nat]} : gmap string nat) !! r = Some l → False).
        by rewrite lookup_singleton_ne.
    + intros r1 r2 l. change (({["r" := 0%nat]} : gmap string nat) !! r1 = Some l →
        ({["r" := 0%nat]} : gmap string nat) !! r2 = Some l → r1 = r2).
      rewrite !lookup_singleton_Some. naive_solver.
  - exists s'. split; [exact Hrun|]. rewrite Habs. vm_compute. reflexivity.
Defined.

Lemma capacity_all_interleavings_witness :
  ∃ m, heap (play (X:=unit) race_moves tt).1 !! 0%nat = Some m ∧ peers m = ["b"] ∧
    NoDup (peers m) ∧ len (peers m) ≤ max_participants (info m) ≤ 6.
Proof.
  destruct (heap (play (X:=unit) race_moves tt).1 !! 0%nat) as [m|] eqn:Em; [|vm_compute in Em; discriminate Em].
  exists m. split; [reflexivity|]. split; [vm_compute in Em; injection Em as <-; reflexivity|].
  apply (capacity_all_interleavings tt (play race_moves tt).1 (play race_moves tt).2) with (l := 0%nat); [|exact Em].
  rewrite <-surjective_pairing. exact (play_reachable _ _ tt race_moves_checked).
Defined.
