(* ===== verification/ScreenShare.v ===== *)
(** * Screen sharing (wavis-backend/src/voice/screen_share.rs)

    Each handler runs one closure under the room's write lock; here the closure
    is a function on [RoomMembers] and the handler applies [with_room_write].
    A participant has a video slot and an audio-only slot. *)

From S2P Require Import Prelude Signaling RoomState.
Local Open Scope Z_scope.

(** [lookup_display_name]. *)
Definition lookup_display_name (ps : list ParticipantInfo) (pid : string) : string :=
  match List.find (λ p, bool_decide (participant_id p = pid)) ps with
  | Some p => display_name p
  | None => pid
  end.

(** [ShareResult]. *)
Inductive ShareResult : Type :=
| ShareOk (signals : list OutboundSignal)
| Noop
| ShareError (m : SignalingMessage).

(** The two broadcasts. *)
Definition share_started (i : RoomInfo) (pid : string) (t : option WireShareType) : OutboundSignal :=
  broadcast_all (Msg.ShareStarted
    (mkShareStartedPayload pid (lookup_display_name (participants i) pid) t)).
Definition share_stopped (i : RoomInfo) (pid : string) (t : option WireShareType) : OutboundSignal :=
  broadcast_all (Msg.ShareStopped
    (mkShareStoppedPayload pid (lookup_display_name (participants i) pid) t)).

(** [active_share_types.entry(p).or_default()]: the slots recorded for [p]. *)
Definition types_of (p : string) (i : RoomInfo) : gset WireShareType :=
  default ∅ (active_share_types i !! p).

Definition set_types (p : string) (ts : gset WireShareType) (m : RoomMembers) : RoomMembers :=
  set_info (set_shares id <[p := ts]>) m.

(** The branch of [handle_start_share_with_type] for a sender that already shares. *)
Definition restart_share (sender_id : string) (share_type : option WireShareType)
    (m : RoomMembers) : ShareResult * RoomMembers :=
  let existing := types_of sender_id (info m) in
  let ok ts := (ShareOk [share_started (info m) sender_id share_type], set_types sender_id ts m) in
  match share_type with
  | Some t =>
      if bool_decide (t ∈ existing) then (Noop, set_types sender_id existing m)
      else ok (filter (λ t', is_audio_only t' ≠ is_audio_only t) existing ∪ {[t]})
  | None =>
      if bool_decide (existing = ∅) then (Noop, set_types sender_id existing m) else ok ∅
  end.

(** The closure of [handle_start_share_with_type]. *)
Definition start_share_locked (sender_id : string) (role : ParticipantRole)
    (share_type : option WireShareType) (m : RoomMembers) : ShareResult * RoomMembers :=
  let i := info m in
  if bool_decide (room_type i ≠ Sfu) then
    (ShareError (error_message "screen sharing unavailable in P2P mode"), m)
  else if bool_decide (share_permission i = HostOnly ∧ role ≠ Host) then
    (ShareError (error_message "permission denied: only host can share in this room"), m)
  else if negb (contains sender_id (peers m)) then
    (ShareError (error_message "not in room"), m)
  else if match sub_room_state i with
          | Some sub_rooms => bool_decide (participant_assignments sub_rooms !! sender_id = None)
          | None => false
          end then
    (ShareError (error_message "not in room"), m)
  else if bool_decide (sender_id ∈ active_shares i) then restart_share sender_id share_type m
  else
    (ShareOk [share_started i sender_id share_type],
     set_info (set_shares (λ a, a ∪ {[sender_id]})
       (match share_type with
        | Some t => <[sender_id := types_of sender_id i ∪ {[t]}]>
        | None => id
        end)) m).

(** [handle_start_share_with_type]. *)
Definition handle_start_share_with_type (room_id : RoomId) (sender_id : string)
    (role : ParticipantRole) (share_type : option WireShareType) (s : InMemoryRoomState)
    : ShareResult * InMemoryRoomState :=
  match with_room_write room_id (start_share_locked sender_id role share_type) s with
  | (Ok r, s') => (r, s')
  | (Err _, s') => (ShareError (error_message "not in room"), s')
  end.

(** [handle_start_share]. *)
Definition handle_start_share (room_id : RoomId) (sender_id : string) (role : ParticipantRole)
    (s : InMemoryRoomState) : ShareResult * InMemoryRoomState :=
  handle_start_share_with_type room_id sender_id role None s.

(** [active_shares.remove(p); active_share_types.remove(p)]. *)
Definition drop_shares (p : string) : RoomMembers → RoomMembers :=
  set_info (set_shares (λ a, a ∖ {[p]}) (delete p)).

(** The closure of [handle_stop_share]. *)
Definition stop_share_locked (target : string) (share_type_to_stop : option WireShareType)
    (m : RoomMembers) : ShareResult * RoomMembers :=
  let i := info m in
  let full := (ShareOk [share_stopped i target None], drop_shares target m) in
  if bool_decide (room_type i ≠ Sfu) then
    (ShareError (error_message "screen sharing unavailable in P2P mode"), m)
  else if negb (contains target (peers m)) then (Noop, m)
  else if bool_decide (target ∉ active_shares i) then (Noop, m)
  else
    match share_type_to_stop, active_share_types i !! target with
    | Some t, Some types =>
        if bool_decide (t ∉ types) then (Noop, m)
        else
          let types' := types ∖ {[t]} in
          if bool_decide (types' ≠ ∅)
          then (ShareOk [share_stopped i target (Some t)], set_types target types' m)
          else full
    | _, _ => full
    end.

(** [handle_stop_share]. *)
Definition handle_stop_share (room_id : RoomId) (peer_id : PeerId)
    (target_participant_id : option string) (role : ParticipantRole)
    (share_type_to_stop : option WireShareType) (s : InMemoryRoomState)
    : ShareResult * InMemoryRoomState :=
  let effective_target := default peer_id target_participant_id in
  if bool_decide (effective_target ≠ peer_id ∧ role ≠ Host) then
    (ShareError (error_message "permission denied: only host can stop another participant's share"), s)
  else
    match with_room_write room_id (stop_share_locked effective_target share_type_to_stop) s with
    | (Ok r, s') => (r, s')
    | (Err _, s') => (Noop, s')
    end.

(** The closure of [handle_stop_all_shares]. *)
Definition stop_all_locked (m : RoomMembers) : ShareResult * RoomMembers :=
  let i := info m in
  if bool_decide (room_type i ≠ Sfu) then
    (ShareError (error_message "screen sharing unavailable in P2P mode"), m)
  else if bool_decide (active_shares i = ∅) then (Noop, m)
  else (ShareOk (map (λ p, share_stopped i p None) (elements (active_shares i))),
        set_info (set_shares (λ _, ∅) (λ _, ∅)) m).

(** [handle_stop_all_shares]. *)
Definition handle_stop_all_shares (room_id : RoomId) (_peer_id : PeerId) (role : ParticipantRole)
    (s : InMemoryRoomState) : ShareResult * InMemoryRoomState :=
  if bool_decide (role ≠ Host) then
    (ShareError (error_message "permission denied: only host can stop all shares"), s)
  else
    match with_room_write room_id stop_all_locked s with
    | (Ok r, s') => (r, s')
    | (Err _, s') => (Noop, s')
    end.

(** The entries of one participant in a snapshot. *)
Definition share_entries (i : RoomInfo) (p : string) : list ActiveSharePayload :=
  match elements (types_of p i) with
  | [] => [mkActiveSharePayload p None]
  | types => map (λ t, mkActiveSharePayload p (Some t)) types
  end.

(** [share_state_snapshot]. *)
Definition share_state_snapshot (room_id : RoomId) (target_peer_id : PeerId)
    (s : InMemoryRoomState) : OutboundSignal :=
  let '(ids, shares) :=
    match get_room_info room_id s with
    | Some i => let ids := elements (active_shares i) in (ids, ids ≫= share_entries i)
    | None => ([], [])
    end in
  to_peer target_peer_id (Msg.ShareState (mkShareStatePayload ids shares)).

(** [cleanup_share_on_disconnect]. *)
Definition cleanup_share_locked (peer_id : PeerId) (m : RoomMembers)
    : option (list OutboundSignal) * RoomMembers :=
  if bool_decide (peer_id ∉ active_shares (info m)) then (None, m)
  else (Some [share_stopped (info m) peer_id None], drop_shares peer_id m).
Definition cleanup_share_on_disconnect (room_id : RoomId) (peer_id : PeerId)
    (s : InMemoryRoomState) : option (list OutboundSignal) * InMemoryRoomState :=
  match with_room_write room_id (cleanup_share_locked peer_id) s with
  | (Ok r, s') => (r, s')
  | (Err _, s') => (None, s')
  end.

(** [handle_set_share_permission]. *)
Definition set_permission_locked (sender_id : string) (permission : WireSharePermission)
    (m : RoomMembers) : ShareResult * RoomMembers :=
  let new_perm := share_permission_of_wire permission in
  if negb (contains sender_id (peers m)) then (ShareError (error_message "not in room"), m)
  else if bool_decide (room_type (info m) ≠ Sfu) then
    (ShareError (error_message "not supported in P2P mode"), m)
  else if bool_decide (share_permission (info m) = new_perm) then (Noop, m)
  else (ShareOk [broadcast_all (Msg.SharePermissionChanged (mkSharePermissionChangedPayload permission))],
        set_info (set_share_permission new_perm) m).
Definition handle_set_share_permission (room_id : RoomId) (sender_id : string)
    (role : ParticipantRole) (permission : WireSharePermission) (s : InMemoryRoomState)
    : ShareResult * InMemoryRoomState :=
  if bool_decide (role ≠ Host) then (ShareError (error_message "unauthorized"), s)
  else
    match with_room_write room_id (set_permission_locked sender_id permission) s with
    | (Ok r, s') => (r, s')
    | (Err _, s') => (ShareError (error_message "not in room"), s')
    end.

(** ** The slot invariant *)

(** At most one video share and one audio-only share. *)
Definition slots_ok (ts : gset WireShareType) : Prop :=
  ∀ t1 t2, t1 ∈ ts → t2 ∈ ts → is_audio_only t1 = is_audio_only t2 → t1 = t2.

(** Share types are recorded only for sharers, each sharer has at most one share
    per slot, and P2P rooms have no share. *)
Record share_wf (i : RoomInfo) : Prop := mk_share_wf {
  share_wf_dom : ∀ p, is_Some (active_share_types i !! p) → p ∈ active_shares i;
  share_wf_slots : ∀ p, slots_ok (types_of p i);
  share_wf_sfu : room_type i = P2P → active_shares i = ∅
}.

Definition shares_wf (s : InMemoryRoomState) : Prop :=
  ∀ r m, rooms s !! r = Some m → share_wf (info m).

(** [share_wf] depends on the share fields and the room type only. *)
Lemma share_wf_ext i i' :
  room_type i' = room_type i → active_shares i' = active_shares i →
  active_share_types i' = active_share_types i → share_wf i → share_wf i'.
Proof.
  intros Hr Ha Ht [H1 H2 H3]. split.
  - rewrite Ha, Ht. exact H1.
  - unfold types_of. rewrite Ht. exact H2.
  - rewrite Hr, Ha. exact H3.
Qed.

Lemma types_of_insert p q ts i f :
  types_of q (set_shares f <[p := ts]> i) = if decide (p = q) then ts else types_of q i.
Proof. unfold types_of. simpl. rewrite lookup_insert. by case_decide. Qed.

Lemma types_of_delete p q i f :
  types_of q (set_shares f (delete p) i) = if decide (p = q) then ∅ else types_of q i.
Proof. unfold types_of. simpl. rewrite lookup_delete. by case_decide. Qed.

Lemma types_of_not_sharing p i : share_wf i → p ∉ active_shares i → types_of p i = ∅.
Proof.
  intros Hwf Hp. unfold types_of. destruct (active_share_types i !! p) eqn:E; [|done].
  destruct Hp. apply (share_wf_dom _ Hwf). eauto.
Qed.

Lemma slots_ok_empty : slots_ok ∅.
Proof. intros ?? H. set_solver. Qed.

Lemma slots_ok_subseteq ts ts' : ts ⊆ ts' → slots_ok ts' → slots_ok ts.
Proof. intros Hs H t1 t2 H1 H2. apply H; set_solver. Qed.

(** Replacing the slot of the same kind keeps one share per slot. *)
Lemma slots_ok_replace t ts :
  slots_ok ts → slots_ok (filter (λ t', is_audio_only t' ≠ is_audio_only t) ts ∪ {[t]}).
Proof. intros H t1 t2. specialize (H t1 t2). set_solver. Qed.

Lemma share_wf_set_types p ts m :
  share_wf (info m) → p ∈ active_shares (info m) → slots_ok ts → share_wf (info (set_types p ts m)).
Proof.
  intros [H1 H2 H3] Hp Hts. split; simpl.
  - intros q. rewrite lookup_insert. case_decide; [by subst|apply H1].
  - intros q. rewrite types_of_insert. by case_decide.
  - exact H3.
Qed.

Lemma share_wf_add p f m :
  share_wf (info m) → room_type (info m) = Sfu →
  (∀ T, f T = T ∨ ∃ t, f T = <[p := ({[t]} : gset WireShareType)]> T) →
  share_wf (info (set_info (set_shares (λ a, a ∪ {[p]}) f) m)).
Proof.
  intros [H1 H2 H3] Hr Hf. split; simpl.
  - intros q Hq. destruct (decide (p = q)) as [->|Hne]; [set_solver|].
    destruct (Hf (active_share_types (info m))) as [Hf'|[t Hf']]; rewrite Hf' in Hq;
      rewrite ?lookup_insert_ne in Hq by done; apply H1 in Hq; set_solver.
  - intros q. unfold types_of; simpl.
    destruct (Hf (active_share_types (info m))) as [->|[t ->]]; [apply H2|].
    rewrite lookup_insert. case_decide; [|apply H2]. simpl. intros ??. set_solver.
  - congruence.
Qed.

Lemma share_wf_drop p m : share_wf (info m) → share_wf (info (drop_shares p m)).
Proof.
  intros [H1 H2 H3]. split; simpl.
  - intros q. rewrite lookup_delete. case_decide; [by intros [? ?]|]. intros Hq%H1. set_solver.
  - intros q. rewrite types_of_delete. case_decide; [apply slots_ok_empty|apply H2].
  - intros Hr. rewrite (H3 Hr). set_solver.
Qed.

#[local] Hint Resolve share_wf_drop share_wf_set_types slots_ok_empty slots_ok_replace : wavis.

Lemma start_share_locked_wf p role t m :
  share_wf (info m) → share_wf (info (start_share_locked p role t m).2).
Proof.
  intros Hwf. pose proof (share_wf_slots _ Hwf p). unfold start_share_locked.
  case_bool_decide as Hr; [done|]. case_bool_decide; [done|].
  destruct (negb _); [done|]. case_match; [done|]. case_bool_decide as Hp.
  - unfold restart_share. destruct t; case_bool_decide; cbn [snd]; auto with wavis.
  - apply share_wf_add; [done..|].
    intros T. destruct t as [t|]; [|by left]. right. exists t.
    rewrite types_of_not_sharing by done. f_equal. set_solver.
Qed.

Lemma stop_share_locked_wf p t m :
  share_wf (info m) → share_wf (info (stop_share_locked p t m).2).
Proof.
  intros Hwf. unfold stop_share_locked. case_bool_decide; [done|]. destruct (negb _); [done|].
  case_bool_decide as Hp; [done|]. destruct t as [t|]; [|by cbn [snd]; auto with wavis].
  destruct (active_share_types (info m) !! p) as [types|] eqn:Et; [|by cbn [snd]; auto with wavis].
  case_bool_decide; [done|]. case_bool_decide; cbn [snd]; [|by cbn [snd]; auto with wavis].
  apply share_wf_set_types; [done..|].
  apply (slots_ok_subseteq _ (types_of p (info m))); [|apply (share_wf_slots _ Hwf)].
  unfold types_of. rewrite Et. set_solver.
Qed.

Lemma stop_all_locked_wf m : share_wf (info m) → share_wf (info (stop_all_locked m).2).
Proof.
  intros Hwf. unfold stop_all_locked. case_bool_decide; [done|]. case_bool_decide; [done|].
  split; simpl; [intros q; rewrite lookup_empty; by intros []| |done].
  intros q. unfold types_of. simpl. rewrite lookup_empty. apply slots_ok_empty.
Qed.

Lemma cleanup_share_locked_wf p m :
  share_wf (info m) → share_wf (info (cleanup_share_locked p m).2).
Proof. intros Hwf. unfold cleanup_share_locked. case_bool_decide; cbn [snd]; auto with wavis. Qed.

Lemma set_permission_locked_wf p w m :
  share_wf (info m) → share_wf (info (set_permission_locked p w m).2).
Proof.
  intros Hwf. unfold set_permission_locked. repeat case_match; try done.
  by apply (share_wf_ext (info m)).
Qed.

Lemma shares_wf_with_room_write {R} r (f : RoomMembers → R * RoomMembers) s :
  (∀ m, share_wf (info m) → share_wf (info (f m).2)) →
  shares_wf s → shares_wf (with_room_write r f s).2.
Proof.
  intros Hf Hs. unfold with_room_write. destruct (rooms s !! r) as [m|] eqn:E; [|done].
  specialize (Hf m (Hs _ _ E)). destruct (f m) as [x m']. simpl in *.
  intros r' m'' . simpl. rewrite lookup_insert. case_decide; [|apply Hs]. by intros [= <-].
Qed.

(** The requests of the share protocol. *)
Inductive ShareOp : Type :=
| OpStart (room_id : RoomId) (sender : string) (role : ParticipantRole) (t : option WireShareType)
| OpStop (room_id : RoomId) (peer : PeerId) (target : option string) (role : ParticipantRole)
    (t : option WireShareType)
| OpStopAll (room_id : RoomId) (peer : PeerId) (role : ParticipantRole)
| OpCleanup (room_id : RoomId) (peer : PeerId)
| OpSetPermission (room_id : RoomId) (sender : string) (role : ParticipantRole)
    (w : WireSharePermission).

Definition run_share_op (op : ShareOp) (s : InMemoryRoomState) : InMemoryRoomState :=
  match op with
  | OpStart r p role t => (handle_start_share_with_type r p role t s).2
  | OpStop r p tgt role t => (handle_stop_share r p tgt role t s).2
  | OpStopAll r p role => (handle_stop_all_shares r p role s).2
  | OpCleanup r p => (cleanup_share_on_disconnect r p s).2
  | OpSetPermission r p role w => (handle_set_share_permission r p role w s).2
  end.

Lemma run_share_op_wf op s : shares_wf s → shares_wf (run_share_op op s).
Proof.
  intros Hs.
  assert (∀ R r (f : RoomMembers → R * RoomMembers),
    (∀ m, share_wf (info m) → share_wf (info (f m).2)) →
    shares_wf (with_room_write r f s).2) as Hw by auto using shares_wf_with_room_write.
  destruct op as [r p role t|r p tgt role t|r p role|r p|r p role w]; simpl.
  - unfold handle_start_share_with_type.
    specialize (Hw _ r _ (start_share_locked_wf p role t)). by repeat case_match.
  - unfold handle_stop_share. case_bool_decide; [done|].
    specialize (Hw _ r _ (stop_share_locked_wf (default p tgt) t)). by repeat case_match.
  - unfold handle_stop_all_shares. case_bool_decide; [done|].
    specialize (Hw _ r _ stop_all_locked_wf). by repeat case_match.
  - unfold cleanup_share_on_disconnect.
    specialize (Hw _ r _ (cleanup_share_locked_wf p)). by repeat case_match.
  - unfold handle_set_share_permission. case_bool_decide; [done|].
    specialize (Hw _ r _ (set_permission_locked_wf p w)). by repeat case_match.
Qed.

Lemma run_share_ops_wf ops s :
  shares_wf s → shares_wf (foldl (λ s op, run_share_op op s) s ops).
Proof.
  revert s. induction ops as [|op ops IH]; intros s Hs; simpl; [done|].
  by apply IH, run_share_op_wf.
Qed.

(** C36: Under any sequence of share requests, by hosts and guests alike, every
    participant of every room keeps at most one video share and one audio-only
    share, share types are recorded only for active sharers, and P2P rooms have
    no share. *)
Theorem share_slots_invariant ops s :
  shares_wf s → shares_wf (foldl (λ s op, run_share_op op s) s ops).
Proof. apply run_share_ops_wf. Qed.

(** The room a handler left behind. *)
Lemma with_room_write_eq {R} r (f : RoomMembers → R * RoomMembers) s m :
  rooms s !! r = Some m →
  with_room_write r f s = (Ok (f m).1, set_rooms <[r := (f m).2]> s).
Proof. unfold with_room_write. intros ->. by destruct (f m). Qed.

Lemma set_rooms_insert_id r m s : rooms s !! r = Some m → set_rooms <[r := m]> s = s.
Proof. intros H. destruct s. unfold set_rooms; simpl in *. by rewrite insert_id. Qed.

(** Who may share: the precondition of the share protocol. *)
Definition may_share (role : ParticipantRole) (p : string) (m : RoomMembers) : Prop :=
  room_type (info m) = Sfu ∧
  (share_permission (info m) = AllParticipants ∨ role = Host) ∧
  p ∈ peers m ∧
  (∀ sub, sub_room_state (info m) = Some sub → is_Some (participant_assignments sub !! p)).

(** The sharers and slots of everybody but [p] are the same. *)
Definition others_unchanged (p : string) (m m' : RoomMembers) : Prop :=
  peers m' = peers m ∧
  ∀ q, q ≠ p → types_of q (info m') = types_of q (info m) ∧
               (q ∈ active_shares (info m') ↔ q ∈ active_shares (info m)).

Lemma others_unchanged_set_types p ts m : others_unchanged p m (set_types p ts m).
Proof.
  split; [done|]. intros q Hq. simpl. rewrite types_of_insert, decide_False by done. done.
Qed.

Lemma others_unchanged_drop p m : others_unchanged p m (drop_shares p m).
Proof.
  split; [done|]. intros q Hq. simpl. rewrite types_of_delete, decide_False by done. set_solver.
Qed.

Definition start_post (role : ParticipantRole) (p : string) (t : WireShareType)
    (m : RoomMembers) (res : ShareResult * RoomMembers) : Prop :=
  match res.1 with
  | ShareOk sigs =>
      may_share role p m ∧ (t ∉ types_of p (info m)) ∧
      sigs = [share_started (info m) p (Some t)] ∧
      p ∈ active_shares (info res.2) ∧
      (∀ t', t' ∈ types_of p (info res.2) ↔
        t' = t ∨ t' ∈ types_of p (info m) ∧ is_audio_only t' ≠ is_audio_only t) ∧
      others_unchanged p m res.2
  | Noop =>
      may_share role p m ∧ t ∈ types_of p (info m) ∧
      types_of p (info res.2) = types_of p (info m) ∧
      active_shares (info res.2) = active_shares (info m) ∧ others_unchanged p m res.2
  | ShareError _ => ¬ may_share role p m ∧ res.2 = m
  end.

Lemma restart_share_post role p t m :
  may_share role p m → p ∈ active_shares (info m) →
  start_post role p t m (restart_share p (Some t) m).
Proof.
  intros Hmay Hp. unfold restart_share, start_post. case_bool_decide; cbn [fst snd].
  - simpl. rewrite types_of_insert, decide_True by done. auto using others_unchanged_set_types.
  - split_and!; auto using others_unchanged_set_types. intros t'. simpl.
    rewrite types_of_insert, decide_True by done. set_solver.
Qed.

Lemma start_share_locked_post role p t m :
  share_wf (info m) → start_post role p t m (start_share_locked p role (Some t) m).
Proof.
  intros Hwf. unfold start_share_locked, may_share.
  case_bool_decide as Hr; [split; [intros (? & [?|?] & ? & _); destruct_and?; congruence|done]|].
  case_bool_decide as Hperm; [split; [intros (? & [?|?] & ? & _); destruct_and?; congruence|done]|].
  unfold contains. case_bool_decide as Hin; simpl; [|split; [intros (? & [?|?] & ? & _); destruct_and?; congruence|done]].
  destruct (match sub_room_state (info m) with Some _ => _ | None => _ end) eqn:Esub.
  { split; [|done]. destruct (sub_room_state (info m)) as [sub|] eqn:E; [|done].
    apply bool_decide_eq_true in Esub. intros (_ & _ & _ & Hs). specialize (Hs sub E).
    rewrite Esub in Hs. by destruct Hs. }
  assert (may_share role p m) as Hmay.
  { split_and!; [done| |done|].
    - destruct (share_permission (info m)); [by left|]. right. destruct role; naive_solver.
    - intros sub E. rewrite E in Esub. apply bool_decide_eq_false in Esub.
      by destruct (participant_assignments sub !! p). }
  case_bool_decide as Hp; [by apply restart_share_post|].
  pose proof (types_of_not_sharing p _ Hwf Hp) as He.
  unfold start_post; cbn [fst snd]. rewrite He. split_and!; [done|set_solver|done|set_solver|..].
  - intros t'. simpl. rewrite types_of_insert, decide_True by done. set_solver.
  - split; [done|]. intros q Hq. simpl. rewrite types_of_insert, decide_False by done. set_solver.
Qed.

(** Starting a typed share, on every branch: it is refused exactly when the
    room is P2P, the policy excludes the role, the sender is not a member, or
    the sender is in no sub-room of a room that has them, and then changes
    nothing; otherwise it is a no-op exactly when that share is already active,
    and else it takes the slot of its kind, keeps the sender's other slot and
    every other participant's shares, and announces the share to the room. *)
Theorem start_share_spec r p role t s m :
  shares_wf s → rooms s !! r = Some m →
  ∃ m', (handle_start_share_with_type r p role (Some t) s).2 = set_rooms <[r := m']> s ∧
    start_post role p t m ((handle_start_share_with_type r p role (Some t) s).1, m').
Proof.
  intros Hwf Hm. unfold handle_start_share_with_type. rewrite (with_room_write_eq _ _ _ _ Hm).
  exists (start_share_locked p role (Some t) m).2. split; [done|]. simpl.
  exact (start_share_locked_post role p t m (Hwf _ _ Hm)).
Qed.

Definition stop_post (target : string) (t : option WireShareType)
    (m : RoomMembers) (res : ShareResult * RoomMembers) : Prop :=
  match res.1 with
  | ShareOk sigs =>
      target ∈ peers m ∧ target ∈ active_shares (info m) ∧
      types_of target (info res.2) =
        (match t with Some t0 => types_of target (info m) ∖ {[t0]} | None => ∅ end) ∧
      (target ∈ active_shares (info res.2) ↔ types_of target (info res.2) ≠ ∅) ∧
      sigs = [share_stopped (info m) target
                (if bool_decide (types_of target (info res.2) = ∅) then None else t)] ∧
      others_unchanged target m res.2
  | _ => res.2 = m
  end.

Lemma stop_share_locked_post target t m :
  share_wf (info m) → stop_post target t m (stop_share_locked target t m).
Proof.
  intros Hwf. unfold stop_share_locked. case_bool_decide; [done|]. unfold contains.
  case_bool_decide as Hin; simpl; [|done]. case_bool_decide as Hp; [done|].
  assert (∀ t', (match t' with Some t0 => types_of target (info m) ∖ {[t0]} | None => ∅ end) = ∅ →
    stop_post target t' m (ShareOk [share_stopped (info m) target None], drop_shares target m)) as Hfull.
  { intros t' He. unfold stop_post; cbn [fst snd]. simpl.
    rewrite types_of_delete, decide_True, bool_decide_true by done.
    split_and!; auto using others_unchanged_drop. set_solver. }
  destruct t as [t|]; [|by apply Hfull].
  destruct (active_share_types (info m) !! target) as [types|] eqn:Et.
  2: { apply Hfull. unfold types_of. rewrite Et. set_solver. }
  case_bool_decide; [done|]. assert (types_of target (info m) = types) as Hty
    by (unfold types_of; by rewrite Et).
  case_bool_decide as Hne; [|apply Hfull; by rewrite Hty].
  unfold stop_post; cbn [fst snd]. simpl. rewrite types_of_insert, decide_True, Hty by done.
  rewrite bool_decide_false by done. split_and!; auto using others_unchanged_set_types. set_solver.
Qed.

(** Stopping a share: only the sharer or a host can do it, a refused or
    no-op request changes nothing, and a successful one removes exactly the
    requested slot (every slot when none is named) of the target, who remains a
    sharer precisely while another slot is active; nobody else's shares move. *)
Theorem stop_share_spec r peer tgt role t s m :
  shares_wf s → rooms s !! r = Some m →
  let target := default peer tgt in
  let '(res, s') := handle_stop_share r peer tgt role t s in
  (∃ m', s' = set_rooms <[r := m']> s ∧ stop_post target t m (res, m')) ∧
  ((target ≠ peer ∧ role = Guest) → s' = s ∧ ∃ e, res = ShareError e).
Proof.
  intros Hwf Hm target. unfold handle_stop_share. fold target. case_bool_decide as Hg.
  - split; [|by eauto]. exists m. by rewrite (set_rooms_insert_id _ _ _ Hm).
  - rewrite (with_room_write_eq _ _ _ _ Hm). split.
    + exists (stop_share_locked target t m).2. split; [done|]. simpl.
      exact (stop_share_locked_post target t m (Hwf _ _ Hm)).
    + intros [Hne ->]. by destruct Hg.
Qed.

(** A host's stop-all ends every share of the room, with one [ShareStopped]
    per sharer and none for anybody else; a guest's is refused and changes
    nothing. *)
Theorem stop_all_shares_spec r p role s m :
  shares_wf s → rooms s !! r = Some m → room_type (info m) = Sfu →
  let '(res, s') := handle_stop_all_shares r p role s in
  match role with
  | Guest => s' = s ∧ ∃ e, res = ShareError e
  | Host => ∃ i', s' = set_rooms <[r := mkRoomMembers (peers m) i']> s ∧
      active_shares i' = ∅ ∧ (∀ q, types_of q i' = ∅) ∧
      let sigs := match res with ShareOk sigs => sigs | _ => [] end in
      NoDup sigs ∧
      ∀ sg, sg ∈ sigs ↔ ∃ q, q ∈ active_shares (info m) ∧ sg = share_stopped (info m) q None
  end.
Proof.
  intros Hwf Hm Hr. unfold handle_stop_all_shares. destruct role; [|rewrite bool_decide_true by done; by eauto].
  rewrite bool_decide_false by naive_solver. rewrite (with_room_write_eq _ _ _ _ Hm).
  unfold stop_all_locked. rewrite bool_decide_false by naive_solver.
  case_bool_decide as He; cbn [fst snd].
  - exists (info m). rewrite He. split_and!; [by destruct m|done| |constructor|].
    + intros q. apply types_of_not_sharing; [by apply (Hwf r)|set_solver].
    + intros sg. set_solver.
  - eexists. split_and!; [done|done| | |].
    + intros q. unfold types_of. simpl. by rewrite lookup_empty.
    + apply NoDup_fmap_2_strong; [|apply NoDup_elements].
      intros x y _ _ [= ?]. done.
    + intros sg. rewrite list_elem_of_fmap. setoid_rewrite elem_of_elements. naive_solver.
Qed.

(** The slots a snapshot has to show. *)
Definition shown (i : RoomInfo) (p : string) (t : option WireShareType) : Prop :=
  p ∈ active_shares i ∧
  match t with Some t0 => t0 ∈ types_of p i | None => types_of p i = ∅ end.

Lemma elem_of_share_entries i p a :
  a ∈ share_entries i p ↔
    ActiveShare_participant_id a = p ∧
    match ActiveShare_share_type a with
    | Some t => t ∈ types_of p i
    | None => types_of p i = ∅
    end.
Proof.
  unfold share_entries. destruct a as [q t]; simpl.
  destruct (elements (types_of p i)) as [|t0 ts] eqn:E.
  - apply elements_empty_inv in E. rewrite list_elem_of_singleton.
    destruct t; split; intros; simplify_eq/=; split_and?; try done; set_solver.
  - assert (∀ x, x ∈ types_of p i ↔ x ∈ t0 :: ts) as Hin
      by (intros x; by rewrite <-elem_of_elements, E).
    etrans; [apply (list_elem_of_fmap (λ t, mkActiveSharePayload p (Some t)) (t0 :: ts))|]. destruct t as [t|].
    + rewrite Hin. naive_solver.
    + split; [naive_solver|]. intros [_ He]. specialize (Hin t0). set_solver.
Qed.

(** The snapshot a late joiner receives lists every active sharer, and for
    each one exactly its active slots (one untyped entry for a share without
    recorded type). *)
Theorem share_snapshot_exact r target s i ids shares :
  get_room_info r s = Some i →
  share_state_snapshot r target s = to_peer target (Msg.ShareState (mkShareStatePayload ids shares)) →
  (∀ p, p ∈ ids ↔ p ∈ active_shares i) ∧
  (∀ p t, mkActiveSharePayload p t ∈ shares ↔ shown i p t).
Proof.
  unfold share_state_snapshot. intros -> [= <- <-]. split.
  - intros p. apply elem_of_elements.
  - intros p t. unfold shown. rewrite list_elem_of_bind. setoid_rewrite elem_of_share_entries.
    setoid_rewrite elem_of_elements. simpl. split; [|intros []; by exists p].
    intros (q & [<- ?] & ?). done.
Qed.

(** ** A demonstration room: [h] hosts, [g] is a guest *)

Definition demo_members : RoomMembers :=
  mkRoomMembers ["h"; "g"] (new_sfu 6 (mkSfuRoomHandle "sfu") 0).
Definition demo_rooms : InMemoryRoomState :=
  mkInMemoryRoomState {["r" := demo_members]} {["h" := "r"; "g" := "r"]}.

(** [g] shares a window and, beside it, system audio. *)
Definition demo_share_ops : list ShareOp :=
  [OpStart "r" "g" Guest (Some Window); OpStart "r" "g" Guest (Some AudioOnly);
   OpStart "r" "g" Guest (Some Browser); OpStart "x" "g" Guest None;
   OpSetPermission "r" "h" Host WireHostOnly; OpStart "r" "g" Guest (Some Window)].
Definition demo_sharing : InMemoryRoomState :=
  foldl (λ s op, run_share_op op s) demo_rooms demo_share_ops.
Definition demo_sharing_members : RoomMembers :=
  default demo_members (rooms demo_sharing !! "r").

Lemma demo_rooms_wf : shares_wf demo_rooms.
Proof.
  intros r m. simpl. rewrite lookup_singleton_Some. intros [_ <-].
  split; simpl; [intros p; rewrite lookup_empty; by intros []| |done].
  intros p. unfold types_of. simpl. rewrite lookup_empty. apply slots_ok_empty.
Qed.

Lemma share_slots_invariant_witness :
  elements (types_of "g" (info demo_sharing_members)) ≡ₚ [AudioOnly; Browser] ∧
  shares_wf demo_sharing.
Proof.
  split; [vm_compute; first [reflexivity | apply Permutation_swap]|].
  apply (share_slots_invariant demo_share_ops demo_rooms), demo_rooms_wf.
Defined.

Lemma demo_sharing_wf : shares_wf demo_sharing.
Proof. apply run_share_ops_wf, demo_rooms_wf. Qed.

Lemma start_share_spec_witness :
  ∃ m', start_post Host "h" ScreenAudio demo_sharing_members
          (ShareOk [share_started (info demo_sharing_members) "h" (Some ScreenAudio)], m').
Proof.
  destruct (start_share_spec "r" "h" Host ScreenAudio demo_sharing demo_sharing_members
    demo_sharing_wf ltac:(vm_compute; reflexivity)) as (m' & _ & Hpost).
  exists m'. exact Hpost.
Defined.

Lemma stop_share_spec_witness :
  ∃ m', stop_post "g" (Some Browser) demo_sharing_members
          (ShareOk [share_stopped (info demo_sharing_members) "g" (Some Browser)], m').
Proof.
  pose proof (stop_share_spec "r" "h" (Some "g") Host (Some Browser) demo_sharing
    demo_sharing_members demo_sharing_wf ltac:(vm_compute; reflexivity)) as Hspec.
  cbv zeta in Hspec.
  destruct (handle_stop_share "r" "h" (Some "g") Host (Some Browser) demo_sharing) as [res s'] eqn:E.
  destruct Hspec as [(m' & _ & Hpost) _]. exists m'.
  replace (ShareOk _) with res; [exact Hpost|].
  change res with (res, s').1. rewrite <-E. vm_compute. reflexivity.
Defined.

Lemma stop_all_shares_spec_witness :
  ∃ i', (handle_stop_all_shares "r" "h" Host demo_sharing).2 =
          set_rooms <["r" := mkRoomMembers ["h"; "g"] i']> demo_sharing ∧ active_shares i' = ∅.
Proof.
  pose proof (stop_all_shares_spec "r" "h" Host demo_sharing demo_sharing_members
    demo_sharing_wf ltac:(vm_compute; reflexivity) ltac:(vm_compute; reflexivity)) as Hspec.
  destruct (handle_stop_all_shares "r" "h" Host demo_sharing) as [res s'].
  destruct Hspec as (i' & Hs & Ha & _). exists i'. split; [exact Hs|exact Ha].
Defined.

Lemma share_snapshot_exact_witness :
  ∃ ids shares,
    share_state_snapshot "r" "n" demo_sharing =
      to_peer "n" (Msg.ShareState (mkShareStatePayload ids shares)) ∧
    (∀ p t, mkActiveSharePayload p t ∈ shares ↔ shown (info demo_sharing_members) p t).
Proof.
  eexists _, _. split.
  - vm_compute. reflexivity.
  - refine (proj2 (share_snapshot_exact "r" "n" demo_sharing (info demo_sharing_members) _ _ _ _));
      vm_compute; reflexivity.
Defined.

(** A repeated start request without a type is answered with [Noop], but it
    is not one: it records an empty type set, and a later typed stop of that
    share, which ended it before, is then ignored. *)
Theorem untyped_restart_not_idempotent :
  let started := (handle_start_share "r" "g" Guest demo_rooms).2 in
  let '(again, restarted) := handle_start_share "r" "g" Guest started in
  again = Noop ∧
  active_shares (info (default demo_members
    (rooms (handle_stop_share "r" "g" None Guest (Some Window) started).2 !! "r"))) = ∅ ∧
  (handle_stop_share "r" "g" None Guest (Some Window) restarted).1 = Noop ∧
  active_shares (info (default demo_members
    (rooms (handle_stop_share "r" "g" None Guest (Some Window) restarted).2 !! "r"))) = {["g"]}.
Proof. vm_compute. split_and!; reflexivity. Qed.
