(* ===== verification/Relay.v ===== *)
(** * P2P relay (wavis-backend/src/voice/relay.rs)

    Relaying between the two peers of a P2P room, P2P joins and disconnects.
    [relay_signaling] and [handle_disconnect] see the room table only through
    the [RoomState] trait: their theorems are proved against its laws, which the
    in-memory table discharges. *)

From S2P Require Import Prelude Signaling Invite RoomState.
Local Open Scope Z_scope.

(** [RelayResult]. *)
Inductive RelayResult : Type :=
| Relayed (target_peer_id : PeerId) (message : SignalingMessage)
| NoPeer (error : SignalingMessage).

(** [relay_signaling]. *)
Definition relay_signaling {S} `{RoomState S} (s : S) (sender_peer_id : PeerId)
    (message : SignalingMessage) : RelayResult :=
  match get_room_for_peer s sender_peer_id with
  | None => NoPeer (error_message "not in a room")
  | Some room_id =>
      match List.find (λ p, bool_decide (p ≠ sender_peer_id)) (get_peers_in_room s room_id) with
      | Some target => Relayed target message
      | None => NoPeer (error_message "no peer available")
      end
  end.

(** [handle_disconnect]. *)
Definition handle_disconnect {S} `{RoomState S} (s : S) (peer_id : PeerId)
    : option (PeerId * SignalingMessage) :=
  room_id ← get_room_for_peer s peer_id;
  remaining ← List.find (λ p, bool_decide (p ≠ peer_id)) (get_peers_in_room s room_id);
  Some (remaining, Msg.PeerLeft).

(** [P2PJoinResult]. *)
Inductive P2PJoinResult : Type :=
| P2PJoined (signals : list OutboundSignal)
| P2PRoomFull
| P2PInviteRejected (reason : JoinRejectionReason).

(** The closure of the join paths: consume a use of the invite, if one was given. *)
Definition consume_invite (room_id : RoomId) (invite_code : option string) (now : Instant)
    (inv : InviteStore) : Result unit JoinRejectionReason * InviteStore :=
  match invite_code with
  | Some code => validate_and_consume code room_id now inv
  | None => (Ok tt, inv)
  end.

Definition p2p_joined (room_id : RoomId) (peer_count : Z) (peer_id : PeerId) : OutboundSignal :=
  to_peer peer_id (Msg.Joined (mkJoinedPayload room_id peer_id peer_count [] None None)).

(** [handle_p2p_join]; [created_at] is the clock when [RoomInfo::new_p2p] runs. *)
Definition handle_p2p_join (room_id : RoomId) (peer_id : PeerId) (invite_code : option string)
    (created_at now : Instant) (s : InMemoryRoomState) (inv : InviteStore)
    : P2PJoinResult * InMemoryRoomState * InviteStore :=
  let peers_before := get_peers_in_room s room_id in
  let s0 := (create_room room_id (new_p2p created_at) s).2 in
  match try_add_peer_with peer_id room_id (consume_invite room_id invite_code now) s0 inv with
  | (Ok count, s', inv') =>
      let peer_count := wrap_u32 count in
      (P2PJoined (p2p_joined room_id peer_count peer_id ::
         map (p2p_joined room_id peer_count) (retain (λ p, bool_decide (p ≠ peer_id)) peers_before)),
       s', inv')
  | (Err RoomFull, s', inv') => (P2PRoomFull, s', inv')
  | (Err reason, s', inv') => (P2PInviteRejected reason, s', inv')
  end.

(** ** Relaying, against the laws of the room-state interface *)

(** What an implementation of [RoomState] promises: both queries describe one
    membership relation. *)
Class RoomStateLaws (S : Type) `{RoomState S} (wf : S → Prop) : Prop :=
  room_state_agree : ∀ s p r, wf s → get_room_for_peer s p = Some r ↔ p ∈ get_peers_in_room s r.

#[export] Instance InMemoryRoomState_laws : RoomStateLaws InMemoryRoomState room_wf.
Proof. intros s p r [H _]. exact (H p r). Qed.

Section relay.
Context {St : Type} `{RoomState St} (wf : St → Prop) `{!RoomStateLaws St wf}.

(** The other peer of a room. *)
Lemma find_other_peer s p r :
  wf s →
  match List.find (λ q, bool_decide (q ≠ p)) (get_peers_in_room s r) with
  | Some q => q ≠ p ∧ get_room_for_peer s q = Some r
  | None => ∀ q, get_room_for_peer s q = Some r → q = p
  end.
Proof.
  intros Hwf. destruct (List.find _ _) as [q|] eqn:E.
  - apply find_some_elem_of in E as [Hin Hq]. apply bool_decide_eq_true in Hq.
    split; [done|]. by apply room_state_agree.
  - intros q Hq. apply room_state_agree in Hq; [|done].
    pose proof (find_none_elem_of _ _ _ E Hq) as Hf. by apply bool_decide_eq_false, dec_stable in Hf.
Qed.

(** A relayed message reaches another peer of the sender's own room,
    unchanged and never the sender; it is refused exactly when the sender is in
    no room or nobody else is in it. *)
Theorem relay_reaches_other_peer s p m :
  wf s →
  match relay_signaling s p m with
  | Relayed q m' =>
      m' = m ∧ q ≠ p ∧ ∃ r, get_room_for_peer s p = Some r ∧ get_room_for_peer s q = Some r
  | NoPeer _ => ∀ r q, get_room_for_peer s p = Some r → get_room_for_peer s q = Some r → q = p
  end.
Proof.
  intros Hwf. unfold relay_signaling. destruct (get_room_for_peer s p) as [r|] eqn:Ep; [|done].
  pose proof (find_other_peer s p r Hwf). destruct (List.find _ _).
  - naive_solver.
  - intros r' q [= <-]. auto.
Qed.

(** In a room of two, a relay is answered to where it came from. *)
Lemma relay_symmetric s a b r m m' :
  wf s → get_peers_in_room s r = [a; b] → a ≠ b →
  relay_signaling s a m = Relayed b m ∧ relay_signaling s b m' = Relayed a m'.
Proof.
  intros Hwf Hp Hne.
  assert (∀ x, x ∈ [a; b] → get_room_for_peer s x = Some r) as Hr.
  { intros x Hx. apply room_state_agree; [done|]. by rewrite Hp. }
  unfold relay_signaling. rewrite !(Hr _) by set_solver. rewrite Hp. simpl.
  rewrite !bool_decide_false, !bool_decide_true by naive_solver. done.
Qed.

Lemma handle_disconnect_relay s p m :
  handle_disconnect s p =
    match relay_signaling s p m with Relayed q _ => Some (q, Msg.PeerLeft) | NoPeer _ => None end.
Proof.
  unfold handle_disconnect, relay_signaling. destruct (get_room_for_peer s p); [simpl|done].
  by destruct (List.find _ _).
Qed.
End relay.

(** ** P2P joins *)

Lemma consume_invite_spec r code now inv :
  store_wf inv →
  consume_invite r code now inv =
    match code with
    | None => (Ok tt, inv)
    | Some c => match validate c r now inv with
                | Ok _ => (Ok tt, consume_use c inv)
                | Err e => (Err e, inv)
                end
    end.
Proof.
  intros Hwf. destruct code as [c|]; [|done]. by apply validate_and_consume_eq.
Qed.

Lemma consume_invite_not_full r code now inv :
  store_wf inv → (consume_invite r code now inv).1 ≠ Err RoomFull.
Proof.
  intros Hwf. rewrite consume_invite_spec by done. destruct code as [c|]; [|done].
  pose proof (validate_not_full c r now inv). by destruct (validate c r now inv); simplify_eq/=.
Qed.

(** The peers a list of signals is addressed to. *)
Definition addressees (sigs : list OutboundSignal) : list PeerId :=
  omap (λ sg, match target sg with Peer p => Some p | _ => None end) sigs.

Lemma addressees_joined r n ps : addressees (map (p2p_joined r n) ps) = ps.
Proof. induction ps as [|p ps IH]; simpl; [done|]. by rewrite IH. Qed.

(** [p] followed by the others is the room after the join, in some order. *)
Lemma joined_perm p (l : list PeerId) :
  NoDup l →
  p :: retain (λ q, bool_decide (q ≠ p)) l ≡ₚ (if contains p l then l else l ++ [p]).
Proof.
  intros Hn. unfold contains. case_bool_decide as Hp.
  - apply NoDup_Permutation; [constructor|done|].
    + rewrite elem_of_retain, bool_decide_eq_true. naive_solver.
    + by apply NoDup_retain.
    + intros x. rewrite elem_of_cons, elem_of_retain, bool_decide_eq_true.
      destruct (decide (x = p)); naive_solver.
  - rewrite retain_all by (intros x Hx; apply bool_decide_eq_true; naive_solver).
    by rewrite Permutation_app_comm.
Qed.

(** A P2P join, on every branch.  On success the joiner is in the room, the
    index stays consistent, every peer of the room, the joiner included, is sent
    exactly one [Joined] with the new head count, and one use of the invite is
    spent unless the joiner was already there; a full room or a rejected invite
    changes neither the membership nor the invites. *)
Theorem p2p_join_spec r p code created now s inv :
  room_wf s → store_wf inv → (∀ r0, peer_to_room s !! p = Some r0 → r0 = r) →
  let '(res, s', inv') := handle_p2p_join r p code created now s inv in
  room_wf s' ∧
  match res with
  | P2PJoined sigs =>
      peer_to_room s' = <[p := r]> (peer_to_room s) ∧
      addressees sigs ≡ₚ peers_at s' r ∧
      Forall (λ sg, ∃ q, sg = p2p_joined r (wrap_u32 (len (peers_at s' r))) q) sigs ∧
      (if contains p (peers_at s r) then inv' = inv
       else (consume_invite r code now inv) = (Ok tt, inv'))
  | P2PRoomFull =>
      inv' = inv ∧ peer_to_room s' = peer_to_room s ∧ (∀ r', peers_at s' r' = peers_at s r')
  | P2PInviteRejected e =>
      inv' = inv ∧ peer_to_room s' = peer_to_room s ∧ (∀ r', peers_at s' r' = peers_at s r') ∧
      ∃ c, code = Some c ∧ validate c r now inv = Err e
  end.
Proof.
  intros Hwf Hinv Hpre. unfold handle_p2p_join.
  set (s0 := (create_room r (new_p2p created) s).2).
  assert (∀ x, peers_at s0 x = peers_at s x) as Hps0 by (intros; apply peers_at_create_room).
  assert (peer_to_room s0 = peer_to_room s) as Hpt0 by apply peer_to_room_create_room.
  assert (room_wf s0) as Hwf0 by (by apply (room_wf_ext s)). clearbody s0.
  destruct (try_add_peer_with p r (consume_invite r code now) s0 inv) as [[[n|e] s'] inv'] eqn:E.
  - pose proof (room_wf_try_add _ _ _ _ _ _ _ _ Hwf0 ltac:(by rewrite Hpt0) E) as Hwf'.
    destruct (peers_at_try_add _ _ _ _ _ _ _ _ E) as (Hl & Hp & ->).
    split_and!; [done|by rewrite Hp, Hpt0| | |].
    + change (?x :: map ?f ?l) with (map f (p :: l)). rewrite addressees_joined.
      rewrite (Hl r), decide_True, Hps0 by done. apply joined_perm, Hwf.
    + constructor; [by eexists|]. apply Forall_forall. intros sg Hsg.
      apply list_elem_of_In, in_map_iff in Hsg as (q & <- & _). by eexists.
    + apply try_add_closure in E. by rewrite Hps0 in E.
  - pose proof (try_add_closure _ _ _ _ _ _ _ _ E) as Hf. apply try_add_Err in E as ->.
    pose proof (consume_invite_not_full r code now inv Hinv) as Hnf.
    destruct Hf as [[-> ->]|Hf]; [split_and!; done|].
    rewrite Hf in Hnf. rewrite consume_invite_spec in Hf by done.
    destruct code as [c|]; [|done]. destruct (validate c r now inv) as [|e'] eqn:Ev; simplify_eq/=.
    destruct e; try done; split_and!; eauto.
Qed.

(** A fresh invite for room [r] and an empty room table. *)
Definition demo_invites : InviteStore :=
  (generate "code" "r" "h" (Some 5) 0 (InviteStore_new InviteStoreConfig_default)).2.

Lemma relay_reaches_other_peer_witness :
  let s := (handle_p2p_join "r" "b" None 0 0
             (handle_p2p_join "r" "a" None 0 0 InMemoryRoomState_new demo_invites).1.2 demo_invites).1.2 in
  relay_signaling s "a" Msg.PeerLeft = Relayed "b" Msg.PeerLeft ∧
  ∃ r, get_room_for_peer s "a" = Some r ∧ get_room_for_peer s "b" = Some r.
Proof.
  intros s. split; [vm_compute; reflexivity|].
  refine (proj2 (proj2 (relay_reaches_other_peer room_wf s "a" Msg.PeerLeft _))).
  change s with (run_room_op (OpTryAddPeer "b" "r" (Ok tt)) (run_room_op (OpTryAddPeer "a" "r" (Ok tt))
    (run_room_op (OpCreateRoom "r" (new_p2p 0)) InMemoryRoomState_new))).
  do 3 (apply room_wf_step; [|first [exact I|intros r0 Hr; vm_compute in Hr; congruence]]).
  exact room_wf_new.
Defined.

Lemma p2p_join_spec_witness :
  let '(res, s', inv') := handle_p2p_join "r" "a" (Some "code") 0 1 InMemoryRoomState_new demo_invites in
  peers_at s' "r" = ["a"] ∧ budget "code" inv' = 4 ∧ room_wf s'.
Proof.
  pose proof (p2p_join_spec "r" "a" (Some "code") 0 1 InMemoryRoomState_new demo_invites
    room_wf_new) as Hspec.
  destruct (handle_p2p_join "r" "a" (Some "code") 0 1 InMemoryRoomState_new demo_invites)
    as [[res s'] inv'] eqn:E.
  split_and!; [vm_compute in E; by simplify_eq..|].
  apply Hspec; [|intros r0 Hr; vm_compute in Hr; congruence].
  apply (generate_wf "code"); [|done]. apply InviteStore_new_wf; done.
Defined.
