(* ===== verification/SfuBridge.v ===== *)
(** * The SFU bridge (wavis-backend/src/voice/sfu_bridge.rs, mock_sfu_bridge.rs,
    livekit_bridge.rs, sfu_sdp.rs)

    [SfuRoomManager] and [SfuSignalingProxy] are the interfaces through which
    the backend drives the media server.  A call changes the server, so the
    methods pass an abstract bridge state along.  [MockSfuBridge] records the
    calls; [LiveKitSfuBridge] wraps the [RoomClient] of the livekit-api crate,
    which is a parameter. *)

From S2P Require Import Prelude Signaling RoomState.
Local Open Scope Z_scope.

(** [SfuHealth]. *)
Inductive SfuHealth : Type :=
| Available
| Unavailable (reason : string)
| Starting (since : Instant).

Module SfuErr.
(** [SfuError]. *)
Inductive SfuError : Type :=
| Unavailable (reason : string)
| RoomNotFound (reason : string)
| ParticipantError (reason : string)
| TransportError (reason : string)
| TokenError (reason : string)
| RoomFull
| InviteExhausted
| InvalidInput (reason : string)
| Unauthorized (reason : string).
End SfuErr.
Abbreviation SfuError := SfuErr.SfuError.

(** [Display] of [SfuError]. *)
Definition SfuError_to_string (e : SfuError) : string :=
  match e with
  | SfuErr.Unavailable s => "SFU unavailable: " +:+ s
  | SfuErr.RoomNotFound s => "room not found: " +:+ s
  | SfuErr.ParticipantError s => "participant error: " +:+ s
  | SfuErr.TransportError s => "transport error: " +:+ s
  | SfuErr.TokenError s => "token error: " +:+ s
  | SfuErr.RoomFull => "room is full"
  | SfuErr.InviteExhausted => "invite exhausted"
  | SfuErr.InvalidInput s => "invalid input: " +:+ s
  | SfuErr.Unauthorized s => "unauthorized: " +:+ s
  end.

(** [SfuRoomManager], with the state of the bridge passed along. *)
Class SfuRoomManager (B : Type) : Type := {
  sfu_create_room : string → B → Result SfuRoomHandle SfuError * B;
  sfu_destroy_room : SfuRoomHandle → B → Result unit SfuError * B;
  sfu_add_participant : SfuRoomHandle → string → B → Result unit SfuError * B;
  sfu_remove_participant : SfuRoomHandle → string → B → Result unit SfuError * B;
  sfu_health_check : B → Result SfuHealth SfuError * B
}.

(** [SfuSignalingProxy]. *)
Class SfuSignalingProxy (B : Type) : Type := {
  forward_offer : SfuRoomHandle → string → string → B → Result string SfuError * B;
  forward_ice_candidate : SfuRoomHandle → string → IceCandidate → B → Result unit SfuError * B;
  poll_sfu_ice_candidates : SfuRoomHandle → string → B → Result (list IceCandidate) SfuError * B
}.

(** ** The mock *)

Module Mock.
(** [MockSfuCall]. *)
Inductive MockSfuCall : Type :=
| CreateRoom (room_id : string)
| DestroyRoom (room_handle : string)
| AddParticipant (room_handle participant_id : string)
| RemoveParticipant (room_handle participant_id : string)
| HealthCheck
| ForwardOffer (room_handle participant_id sdp : string)
| ForwardIceCandidate (room_handle participant_id : string)
| PollSfuIceCandidates (room_handle participant_id : string).

(** [MockSfuConfig]. *)
Record MockSfuConfig : Type := mkMockSfuConfig {
  health_result : Result SfuHealth string;
  create_room_result : Result unit string;
  add_participant_result : Result unit string;
  remove_participant_result : Result unit string;
  destroy_room_result : Result unit string;
  forward_offer_answer : string;
  poll_ice_candidates : list IceCandidate
}.

(** [MockSfuConfig::default]. *)
Definition MockSfuConfig_default : MockSfuConfig :=
  mkMockSfuConfig (Ok Available) (Ok tt) (Ok tt) (Ok tt) (Ok tt) "mock-answer-sdp" [].

(** [MockSfuBridge]. *)
Record MockSfuBridge : Type := mkMockSfuBridge {
  calls : list MockSfuCall;
  config : MockSfuConfig
}.

(** [MockSfuBridge::new]. *)
Definition MockSfuBridge_new : MockSfuBridge := mkMockSfuBridge [] MockSfuConfig_default.

Definition record_call (c : MockSfuCall) (b : MockSfuBridge) : MockSfuBridge :=
  mkMockSfuBridge (calls b ++ [c]) (config b).

(** [impl SfuRoomManager for MockSfuBridge]. *)
#[export] Instance MockSfuBridge_manager : SfuRoomManager MockSfuBridge := {
  sfu_create_room room_id b :=
    (match create_room_result (config b) with
     | Ok _ => Ok (mkSfuRoomHandle room_id)
     | Err e => Err (SfuErr.Unavailable e)
     end, record_call (CreateRoom room_id) b);
  sfu_destroy_room handle b :=
    (map_err SfuErr.Unavailable (destroy_room_result (config b)),
     record_call (DestroyRoom (handle_id handle)) b);
  sfu_add_participant handle pid b :=
    (map_err SfuErr.ParticipantError (add_participant_result (config b)),
     record_call (AddParticipant (handle_id handle) pid) b);
  sfu_remove_participant handle pid b :=
    (map_err SfuErr.ParticipantError (remove_participant_result (config b)),
     record_call (RemoveParticipant (handle_id handle) pid) b);
  sfu_health_check b :=
    (map_err SfuErr.Unavailable (health_result (config b)), record_call HealthCheck b)
}.

(** [impl SfuSignalingProxy for MockSfuBridge]. *)
#[export] Instance MockSfuBridge_proxy : SfuSignalingProxy MockSfuBridge := {
  forward_offer handle pid sdp b :=
    (Ok (forward_offer_answer (config b)), record_call (ForwardOffer (handle_id handle) pid sdp) b);
  forward_ice_candidate handle pid _ b :=
    (Ok tt, record_call (ForwardIceCandidate (handle_id handle) pid) b);
  poll_sfu_ice_candidates handle pid b :=
    (Ok (poll_ice_candidates (config b)), record_call (PollSfuIceCandidates (handle_id handle) pid) b)
}.
End Mock.
Export (hints) Mock.

(** ** LiveKit *)

(** [c.is_ascii_alphanumeric() || c == '-' || c == '_'] on the bytes of the
    UTF-8 encoding: a multi-byte character has no byte in this class. *)
Definition identifier_char (c : Ascii.ascii) : bool :=
  let n := Ascii.nat_of_ascii c in
  bool_decide (48 ≤ n ≤ 57)%nat || bool_decide (65 ≤ n ≤ 90)%nat ||
  bool_decide (97 ≤ n ≤ 122)%nat || bool_decide (n = 45)%nat || bool_decide (n = 95)%nat.

(** [s.chars().all(identifier_char)]. *)
Fixpoint all_identifier_chars (s : string) : bool :=
  match s with
  | EmptyString => true
  | String c s' => identifier_char c && all_identifier_chars s'
  end.

(** [str::len] and [str::is_empty]. *)
Definition str_len (s : string) : Z := Z.of_nat (String.length s).
Definition str_is_empty (s : string) : bool := bool_decide (s = EmptyString).

(** [LiveKitSfuBridge::validate_identifier]. *)
Definition validate_identifier (value label : string) : Result unit SfuError :=
  if str_is_empty value || bool_decide (128 < str_len value) then
    Err (SfuErr.InvalidInput (label +:+ " must be 1–128 characters"))
  else if negb (all_identifier_chars value) then
    Err (SfuErr.InvalidInput (label +:+ " must contain only ASCII alphanumeric, hyphens, underscores"))
  else Ok tt.

Section livekit.
(** The [RoomClient] of livekit-api: its state and the calls the bridge makes. *)
Context {RoomClient : Type}.
Context (client_create_room : string → RoomClient → Result unit string * RoomClient).
Context (client_delete_room : string → RoomClient → Result unit string * RoomClient).
Context (client_remove_participant : string → string → RoomClient → Result unit string * RoomClient).
Context (client_list_rooms : RoomClient → Result unit string * RoomClient).

(** [impl SfuRoomManager for LiveKitSfuBridge]. *)
Definition LiveKitSfuBridge_manager : SfuRoomManager RoomClient := {|
  sfu_create_room room_id c :=
    match validate_identifier room_id "room_id" with
    | Err e => (Err e, c)
    | Ok _ => match client_create_room room_id c with
              | (Ok _, c') => (Ok (mkSfuRoomHandle room_id), c')
              | (Err e, c') => (Err (SfuErr.Unavailable e), c')
              end
    end;
  sfu_destroy_room handle c := (Ok tt, (client_delete_room (handle_id handle) c).2);
  sfu_add_participant _ pid c := (validate_identifier pid "participant_id", c);
  sfu_remove_participant handle pid c :=
    let '(r, c') := client_remove_participant (handle_id handle) pid c in
    (map_err SfuErr.ParticipantError r, c');
  sfu_health_check c :=
    match client_list_rooms c with
    | (Ok _, c') => (Ok Available, c')
    | (Err e, c') => (Ok (Unavailable e), c')
    end
|}.
End livekit.

(** ** SDP and ICE forwarding (sfu_sdp.rs) *)

(** [SfuRelayResult]. *)
Inductive SfuRelayResult : Type :=
| SdpAnswer (peer_id : PeerId) (answer_sdp : string)
| IceForwarded
| SfuRelayError (peer_id : PeerId) (error : SignalingMessage).

(** [handle_sfu_offer]. *)
Definition handle_sfu_offer {B} `{SfuSignalingProxy B} (handle : SfuRoomHandle)
    (sender_peer_id : PeerId) (offer_sdp : string) (b : B) : SfuRelayResult * B :=
  match forward_offer handle sender_peer_id offer_sdp b with
  | (Ok answer, b') => (SdpAnswer sender_peer_id answer, b')
  | (Err e, b') =>
      (SfuRelayError sender_peer_id (error_message ("SFU offer failed: " +:+ SfuError_to_string e)), b')
  end.

(** [handle_sfu_ice]. *)
Definition handle_sfu_ice {B} `{SfuSignalingProxy B} (handle : SfuRoomHandle)
    (sender_peer_id : PeerId) (candidate : IceCandidate) (b : B) : SfuRelayResult * B :=
  match forward_ice_candidate handle sender_peer_id candidate b with
  | (Ok _, b') => (IceForwarded, b')
  | (Err e, b') =>
      (SfuRelayError sender_peer_id
         (error_message ("SFU ICE forward failed: " +:+ SfuError_to_string e)), b')
  end.

(** ** Identifiers *)

Lemma all_identifier_chars_spec s :
  all_identifier_chars s = true ↔ ∀ n c, String.get n s = Some c → identifier_char c = true.
Proof.
  induction s as [|c s IH]; simpl; [split; [by intros _ []|done]|].
  rewrite andb_true_iff, IH. split.
  - intros [Hc Hs] [|n] x; [by intros [= <-]|apply Hs].
  - intros H. split; [by apply (H 0%nat)|]. intros n x Hx. by apply (H (S n)).
Qed.

Lemma validate_identifier_Ok value label :
  validate_identifier value label = Ok tt ↔
    1 ≤ str_len value ≤ 128 ∧ ∀ n c, String.get n value = Some c → identifier_char c = true.
Proof.
  rewrite <-all_identifier_chars_spec. unfold validate_identifier, str_is_empty, str_len.
  destruct value as [|c s]; [simpl; split; [done|lia]|].
  rewrite bool_decide_false by done. rewrite orb_false_l. case_bool_decide.
  - split; [done|lia].
  - destruct (all_identifier_chars (String c s)); simpl in *; split; try done.
    + intros _. split; [lia|done].
    + by intros [_ ?].
Qed.

Lemma all_identifier_chars_app s1 s2 :
  all_identifier_chars (s1 +:+ s2) = all_identifier_chars s1 && all_identifier_chars s2.
Proof.
  induction s1 as [|c s1 IH]; [done|]. simpl. change (String.app s1 s2) with (s1 +:+ s2).
  rewrite IH. by rewrite andb_assoc.
Qed.
