(* ===== verification/Tokens.v ===== *)
(** * Signed tokens (wavis-backend/src/auth/jwt.rs)

    Media tokens, device access tokens and LiveKit tokens.  The jsonwebtoken,
    livekit-api and uuid crates are parameters: a codec per claims type with the
    documented behaviour of [encode]/[decode] as laws, the [to_jwt] of an
    [AccessToken] and the textual form of a [Uuid].  Byte-string secrets are
    [string]s. *)

From S2P Require Import Prelude Signaling RoomState SfuBridge.
From Stdlib Require Import Ascii.
Local Open Scope Z_scope.

(** ** Claims and constants *)

(** [DEFAULT_TOKEN_TTL_SECS], [TOKEN_TTL_SECS], [LIVEKIT_TOKEN_TTL_SECS]. *)
Definition DEFAULT_TOKEN_TTL_SECS : Z := 21600.
Definition TOKEN_TTL_SECS : Z := DEFAULT_TOKEN_TTL_SECS.
Definition LIVEKIT_TOKEN_TTL_SECS : Z := 21600.
(** [SFU_AUDIENCE], [DEFAULT_JWT_ISSUER]. *)
Definition SFU_AUDIENCE : string := "wavis-sfu".
Definition DEFAULT_JWT_ISSUER : string := "wavis-backend".
(** [AUTH_AUDIENCE], [AUTH_ISSUER], [ACCESS_TOKEN_TTL_SECS]. *)
Definition AUTH_AUDIENCE : string := "wavis".
Definition AUTH_ISSUER : string := "wavis-backend".
Definition ACCESS_TOKEN_TTL_SECS : Z := 900.

(** [MediaTokenClaims]. *)
Record MediaTokenClaims : Type := mkMediaTokenClaims {
  mt_room_id : string;
  mt_participant_id : string;
  mt_permissions : list string;
  mt_exp : Z;
  mt_nbf : Z;
  mt_iat : Z;
  mt_jti : string;
  mt_aud : string;
  mt_iss : string
}.

(** [AuthTokenClaims]. *)
Record AuthTokenClaims : Type := mkAuthTokenClaims {
  at_sub : string;
  at_did : string;
  at_exp : Z;
  at_aud : string;
  at_iss : string;
  at_iat : Z;
  at_epoch : Z
}.

(** [AuthError] (auth/auth.rs). *)
Inductive AuthError : Type :=
| SecretTooShort
| SigningFailed (e : string)
| ValidationFailed
| TokenExpired
| InvalidToken
| RefreshTokenInvalid
| TokenReuseDetected
| EpochMismatch
| DatabaseError (e : string)
| PhraseVerificationFailed
| RecoveryIdNotFound
| DeviceRevoked
| AuthInviteInvalid.

(** [u64] addition in a release build. *)
Definition wrap_u64 (x : Z) : Z := x `mod` u64_modulus.

(** ** The jsonwebtoken crate *)

(** [errors::Error]: whether its kind is [ExpiredSignature], and its text. *)
Record JwtError : Type := mkJwtError {
  is_expired_signature : bool;
  jwt_error_text : string
}.

(** The part of [Validation] the code sets. *)
Record Validation : Type := mkValidation {
  val_audience : string;
  val_issuer : string;
  validate_nbf : bool
}.

(** [encode] and [decode] with HS256 at a given time. *)
Class JwtCodec (C : Type) : Type := {
  jwt_encode : C → string → Result string JwtError;
  jwt_decode : string → string → Validation → Z → Result C JwtError
}.

(** The registered claims the crate looks at. *)
Class RegisteredClaims (C : Type) : Type := {
  claim_exp : C → Z;
  claim_nbf : C → option Z;
  claim_aud : C → string;
  claim_iss : C → string
}.

#[export] Instance MediaTokenClaims_registered : RegisteredClaims MediaTokenClaims := {
  claim_exp := mt_exp; claim_nbf c := Some (mt_nbf c); claim_aud := mt_aud; claim_iss := mt_iss
}.
#[export] Instance AuthTokenClaims_registered : RegisteredClaims AuthTokenClaims := {
  claim_exp := at_exp; claim_nbf _ := None; claim_aud := at_aud; claim_iss := at_iss
}.

(** The default [leeway] of [Validation::new]. *)
Definition jwt_leeway : Z := 60.

Definition claims_valid {C} `{RegisteredClaims C} (v : Validation) (now : Z) (c : C) : bool :=
  bool_decide (now - jwt_leeway ≤ claim_exp c) &&
  match claim_nbf c with
  | Some nbf => negb (validate_nbf v) || bool_decide (nbf ≤ now + jwt_leeway)
  | None => true
  end &&
  bool_decide (claim_aud c = val_audience v) && bool_decide (claim_iss c = val_issuer v).

(** What the code relies on: a token verifies under the key that signed it while
    its registered claims are valid, and the claims read back are the ones that
    were signed, whichever key verifies it. *)
Class JwtCodecLaws (C : Type) `{JwtCodec C, RegisteredClaims C} : Prop := {
  jwt_decode_encode c key tok v now :
    jwt_encode c key = Ok tok → claims_valid v now c = true → jwt_decode tok key v now = Ok c;
  jwt_decode_payload c key tok key' v now c' :
    jwt_encode c key = Ok tok → jwt_decode tok key' v now = Ok c' → c' = c
}.

(** ** Media tokens *)

Section media.
Context `{JwtCodec MediaTokenClaims}.

(** [sign_media_token]; [clock] is [SystemTime::now().duration_since(UNIX_EPOCH)]
    in seconds, [jti] the random token id. *)
Definition sign_media_token (room_id participant_id secret issuer : string) (ttl_secs : Z)
    (clock : Result Z string) (jti : string) : Result string SfuError :=
  if bool_decide (str_len secret < 32) then
    Err (SfuErr.TokenError "SFU_JWT_SECRET must be at least 32 bytes")
  else
    match clock with
    | Err e => Err (SfuErr.TokenError ("system time error: " +:+ e))
    | Ok now =>
        let claims := mkMediaTokenClaims room_id participant_id ["publish"; "subscribe"]
                        (wrap_u64 (now + ttl_secs)) now now jti SFU_AUDIENCE issuer in
        map_err (λ e, SfuErr.TokenError ("JWT signing failed: " +:+ jwt_error_text e))
          (jwt_encode claims secret)
    end.

(** [validate_media_token]. *)
Definition validate_media_token (token secret expected_audience expected_issuer : string)
    (now : Z) : Result MediaTokenClaims SfuError :=
  if bool_decide (str_len secret < 32) then
    Err (SfuErr.TokenError "SFU_JWT_SECRET must be at least 32 bytes")
  else
    map_err (λ e, SfuErr.TokenError ("JWT validation failed: " +:+ jwt_error_text e))
      (jwt_decode token secret (mkValidation expected_audience expected_issuer true) now).

(** [validate_media_token_with_rotation]; [now] and [now2] are the clock of the
    two attempts. *)
Definition validate_media_token_with_rotation (token current_secret : string)
    (previous_secret : option string) (expected_audience expected_issuer : string)
    (now now2 : Z) : Result MediaTokenClaims SfuError :=
  match validate_media_token token current_secret expected_audience expected_issuer now,
        previous_secret with
  | Ok claims, _ => Ok claims
  | Err _, Some previous =>
      validate_media_token token previous expected_audience expected_issuer now2
  | Err e, None => Err e
  end.
End media.

(** ** LiveKit tokens *)

(** The grants of [VideoGrants] the code sets or relies on. *)
Record VideoGrants : Type := mkVideoGrants {
  room_join : bool;
  grant_room : string;
  can_publish : bool;
  can_subscribe : bool;
  can_publish_data : bool;
  hidden : bool
}.

(** The [AccessToken] builder. *)
Record AccessToken : Type := mkAccessToken {
  lk_api_key : string;
  lk_api_secret : string;
  lk_identity : string;
  lk_name : option string;
  lk_grants : VideoGrants;
  lk_ttl : Duration
}.

(** The livekit-api crate: [AccessToken::to_jwt] and [VideoGrants::default]. *)
Class LiveKitTokens : Type := {
  to_jwt : AccessToken → Result string string;
  VideoGrants_default : VideoGrants
}.

Section livekit_tokens.
Context `{LiveKitTokens}.

(** The token [sign_livekit_token] builds. *)
Definition livekit_access_token (room_id participant_id display_name key secret : string)
    (ttl_secs : Z) : AccessToken :=
  mkAccessToken key secret participant_id (Some display_name)
    (mkVideoGrants true room_id true true
      (can_publish_data VideoGrants_default) (hidden VideoGrants_default))
    (from_secs ttl_secs).

(** [sign_livekit_token]. *)
Definition sign_livekit_token (room_id participant_id display_name key secret : string)
    (ttl_secs : Z) : Result string SfuError :=
  if str_is_empty key || str_is_empty secret then
    Err (SfuErr.TokenError "LiveKit api_key and api_secret must be non-empty")
  else if str_is_empty room_id || str_is_empty participant_id then
    Err (SfuErr.TokenError "room_id and participant_id must be non-empty")
  else
    map_err (λ e, SfuErr.TokenError ("LiveKit token signing failed: " +:+ e))
      (to_jwt (livekit_access_token room_id participant_id display_name key secret ttl_secs)).

(** The token [sign_livekit_viewer_token] builds: subscribe-only and hidden. *)
Definition viewer_access_token (room_id viewer_identity key secret : string) (ttl_secs : Z)
    : AccessToken :=
  mkAccessToken key secret viewer_identity None
    (mkVideoGrants true room_id false true false true) (from_secs ttl_secs).

(** [sign_livekit_viewer_token]. *)
Definition sign_livekit_viewer_token (room_id viewer_identity key secret : string) (ttl_secs : Z)
    : Result string SfuError :=
  if str_is_empty key || str_is_empty secret then
    Err (SfuErr.TokenError "LiveKit api_key and api_secret must be non-empty")
  else if str_is_empty room_id || str_is_empty viewer_identity then
    Err (SfuErr.TokenError "room_id and viewer_identity must be non-empty")
  else
    map_err (λ e, SfuErr.TokenError ("LiveKit viewer token signing failed: " +:+ e))
      (to_jwt (viewer_access_token room_id viewer_identity key secret ttl_secs)).
End livekit_tokens.

(** [livekit_identity]. *)
Definition livekit_identity (peer_id : string) (user_id : option string) : string :=
  default peer_id user_id.

(** ** Device access tokens *)

(** The uuid crate: textual form and parsing. *)
Class UuidText (Uuid : Type) : Type := {
  uuid_to_string : Uuid → string;
  uuid_parse_str : string → option Uuid;
  uuid_nil : Uuid
}.

Class UuidTextLaws (Uuid : Type) `{UuidText Uuid} : Prop := {
  uuid_parse_to_string u : uuid_parse_str (uuid_to_string u) = Some u;
  uuid_to_string_nonempty u : uuid_to_string u ≠ EmptyString
}.

Section auth.
Context `{JwtCodec AuthTokenClaims} {Uuid : Type} `{UuidText Uuid}.

(** The claims of an access token issued at [now]. *)
Definition access_claims (user_id device_id : Uuid) (ttl_secs epoch now : Z) : AuthTokenClaims :=
  mkAuthTokenClaims (uuid_to_string user_id) (uuid_to_string device_id)
    (wrap_u64 (now + ttl_secs)) AUTH_AUDIENCE AUTH_ISSUER now epoch.

(** [sign_access_token]; [now] is the clock in seconds since the epoch. *)
Definition sign_access_token (user_id device_id : Uuid) (secret : string) (ttl_secs epoch now : Z)
    : Result string AuthError :=
  if bool_decide (str_len secret < 32) then Err SecretTooShort
  else map_err (λ e, SigningFailed (jwt_error_text e))
         (jwt_encode (access_claims user_id device_id ttl_secs epoch now) secret).

(** [validate_access_token]. *)
Definition validate_access_token (token secret : string) (now : Z)
    : Result (Uuid * Uuid * Z) AuthError :=
  match jwt_decode token secret (mkValidation AUTH_AUDIENCE AUTH_ISSUER false) now with
  | Err e => Err (if is_expired_signature e then TokenExpired else ValidationFailed)
  | Ok claims =>
      match uuid_parse_str (at_sub claims) with
      | None => Err InvalidToken
      | Some user_id =>
          if str_is_empty (at_did claims) then Ok (user_id, uuid_nil, at_epoch claims)
          else match uuid_parse_str (at_did claims) with
               | None => Err InvalidToken
               | Some device_id => Ok (user_id, device_id, at_epoch claims)
               end
      end
  end.

(** [validate_access_token_with_rotation]. *)
Definition validate_access_token_with_rotation (token current_secret : string)
    (previous_secret : option string) (now now2 : Z) : Result (Uuid * Uuid * Z) AuthError :=
  match validate_access_token token current_secret now with
  | Ok result => Ok result
  | Err _ =>
      match previous_secret with
      | Some prev => validate_access_token token prev now2
      | None => Err ValidationFailed
      end
  end.
End auth.

(** ** Round trips across a key rotation *)

Section media_roundtrip.
Context `{JwtCodec MediaTokenClaims, !JwtCodecLaws MediaTokenClaims}.

Definition media_claims (room_id participant_id issuer : string) (ttl_secs now : Z) (jti : string)
    : MediaTokenClaims :=
  mkMediaTokenClaims room_id participant_id ["publish"; "subscribe"] (now + ttl_secs) now now jti
    SFU_AUDIENCE issuer.

Lemma sign_media_token_Ok r p secret iss ttl t0 jti tok :
  0 ≤ t0 + ttl < u64_modulus →
  sign_media_token r p secret iss ttl (Ok t0) jti = Ok tok →
  32 ≤ str_len secret ∧ jwt_encode (media_claims r p iss ttl t0 jti) secret = Ok tok.
Proof.
  intros Ht. unfold sign_media_token. case_bool_decide; [done|].
  unfold wrap_u64. rewrite Z.mod_small by done. fold (media_claims r p iss ttl t0 jti).
  destruct (jwt_encode _ secret); simpl; [|done]. intros [= ->]. split; [lia|done].
Qed.

Lemma validate_media_token_own r p secret iss ttl t0 jti tok now :
  32 ≤ str_len secret → jwt_encode (media_claims r p iss ttl t0 jti) secret = Ok tok →
  t0 - jwt_leeway ≤ now ≤ t0 + ttl + jwt_leeway →
  validate_media_token tok secret SFU_AUDIENCE iss now = Ok (media_claims r p iss ttl t0 jti).
Proof.
  intros Hs He Hn. unfold validate_media_token. rewrite bool_decide_false by lia.
  rewrite (jwt_decode_encode _ _ _ _ now He); [done|].
  unfold claims_valid, jwt_leeway in *; simpl. rewrite !bool_decide_true by (done || lia). done.
Qed.

(** A media token signed with a secret of at least 32 bytes validates, from
    a minute before it is issued until a minute after it expires, with exactly
    the room, participant, permissions and expiry it was issued for, as long as
    its secret is the current or the previous one of the rotation. *)
Theorem media_token_rotation_roundtrip r p secret iss ttl t0 jti tok current previous now now2 :
  0 ≤ t0 + ttl < u64_modulus →
  sign_media_token r p secret iss ttl (Ok t0) jti = Ok tok →
  current = secret ∨ previous = Some secret →
  t0 - jwt_leeway ≤ now ≤ t0 + ttl + jwt_leeway →
  t0 - jwt_leeway ≤ now2 ≤ t0 + ttl + jwt_leeway →
  validate_media_token_with_rotation tok current previous SFU_AUDIENCE iss now now2 =
    Ok (media_claims r p iss ttl t0 jti).
Proof.
  intros Ht Hsign Hkey Hn Hn2. destruct (sign_media_token_Ok _ _ _ _ _ _ _ _ Ht Hsign) as [Hs He].
  unfold validate_media_token_with_rotation.
  destruct (validate_media_token tok current SFU_AUDIENCE iss now) as [c|e] eqn:Ev.
  - f_equal. unfold validate_media_token in Ev. case_bool_decide; [done|].
    destruct (jwt_decode tok current _ now) as [c'|] eqn:Ed; simplify_eq/=.
    by eapply jwt_decode_payload.
  - destruct Hkey as [-> | ->].
    + by rewrite (validate_media_token_own r p secret iss ttl t0 jti) in Ev.
    + by apply validate_media_token_own.
Qed.
End media_roundtrip.

Section auth_roundtrip.
Context `{JwtCodec AuthTokenClaims, !JwtCodecLaws AuthTokenClaims}.
Context {Uuid : Type} `{UuidText Uuid, !UuidTextLaws Uuid}.

Lemma sign_access_token_Ok (u d : Uuid) secret ttl epoch t0 tok :
  sign_access_token u d secret ttl epoch t0 = Ok tok →
  jwt_encode (access_claims u d ttl epoch t0) secret = Ok tok.
Proof.
  unfold sign_access_token. case_bool_decide; [done|].
  destruct (jwt_encode _ secret); simpl; congruence.
Qed.

(** Whichever secret verifies a token, it yields the identity that was signed. *)
Lemma validate_access_token_signed (u d : Uuid) secret key ttl epoch t0 tok now :
  jwt_encode (access_claims u d ttl epoch t0) secret = Ok tok →
  match validate_access_token (Uuid:=Uuid) tok key now with
  | Ok res => res = (u, d, epoch)
  | Err _ => ∃ e, jwt_decode tok key (mkValidation AUTH_AUDIENCE AUTH_ISSUER false) now = Err e
  end.
Proof.
  intros He. unfold validate_access_token.
  destruct (jwt_decode tok key _ now) as [c|e] eqn:Ed; [|by eauto].
  rewrite (jwt_decode_payload _ _ _ _ _ _ _ He Ed). simpl. unfold str_is_empty.
  rewrite !uuid_parse_to_string, bool_decide_false by apply uuid_to_string_nonempty. done.
Qed.

(** An access token yields the user, device and session epoch it was signed
    for, under the current or the previous secret, until a minute after it
    expires. *)
Theorem access_token_rotation_roundtrip (u d : Uuid) secret ttl epoch t0 tok current previous now now2 :
  0 ≤ t0 + ttl < u64_modulus →
  sign_access_token u d secret ttl epoch t0 = Ok tok →
  current = secret ∨ previous = Some secret →
  now ≤ t0 + ttl + jwt_leeway → now2 ≤ t0 + ttl + jwt_leeway →
  validate_access_token_with_rotation tok current previous now now2 = Ok (u, d, epoch).
Proof.
  intros Ht Hsign%sign_access_token_Ok Hkey Hn Hn2.
  assert (∀ t, t ≤ t0 + ttl + jwt_leeway →
    validate_access_token (Uuid:=Uuid) tok secret t = Ok (u, d, epoch)) as Hown.
  { intros t Hle. pose proof (validate_access_token_signed u d secret secret _ _ _ _ t Hsign) as Hv.
    destruct (validate_access_token tok secret t); [by subst|]. destruct Hv as [e' Hd].
    rewrite (jwt_decode_encode _ _ _ _ t Hsign) in Hd; [done|].
    unfold claims_valid, jwt_leeway in *; simpl. unfold wrap_u64. rewrite Z.mod_small by done.
    by rewrite !bool_decide_true by (done || lia). }
  unfold validate_access_token_with_rotation.
  pose proof (validate_access_token_signed u d secret current _ _ _ _ now Hsign) as Hc.
  destruct (validate_access_token tok current now) eqn:Ev; [by subst|].
  destruct Hkey as [->| ->]; [by rewrite Hown in Ev|by apply Hown].
Qed.
End auth_roundtrip.

(** ** A concrete codec

    The claims and the key written out in binary: it satisfies the laws the
    theorems assume. *)
Module PlainJwt.
Fixpoint pos_to_string (p : positive) : string :=
  match p with
  | xH => "1"
  | xO p' => String "0"%char (pos_to_string p')
  | xI p' => String "2"%char (pos_to_string p')
  end.
Fixpoint pos_of_string (s : string) : option positive :=
  match s with
  | EmptyString => None
  | String c s' =>
      if Ascii.eqb c "0"%char then xO <$> pos_of_string s'
      else if Ascii.eqb c "2"%char then xI <$> pos_of_string s'
      else Some xH
  end.

Lemma pos_of_to_string p : pos_of_string (pos_to_string p) = Some p.
Proof. induction p as [p IH|p IH|]; simpl; by rewrite ?IH. Qed.

#[export] Instance MediaTokenClaims_eq_dec : EqDecision MediaTokenClaims.
Proof. solve_decision. Defined.
#[export] Instance MediaTokenClaims_countable : Countable MediaTokenClaims.
Proof.
  refine (inj_countable' (λ c, (mt_room_id c, mt_participant_id c, mt_permissions c, mt_exp c,
    mt_nbf c, mt_iat c, mt_jti c, mt_aud c, mt_iss c))
    (λ '(a, b, c, d, e, f, g, h, i), mkMediaTokenClaims a b c d e f g h i) _).
  by intros [].
Defined.
#[export] Instance AuthTokenClaims_eq_dec : EqDecision AuthTokenClaims.
Proof. solve_decision. Defined.
#[export] Instance AuthTokenClaims_countable : Countable AuthTokenClaims.
Proof.
  refine (inj_countable' (λ c, (at_sub c, at_did c, at_exp c, at_aud c, at_iss c, at_iat c, at_epoch c))
    (λ '(a, b, c, d, e, f, g), mkAuthTokenClaims a b c d e f g) _).
  by intros [].
Defined.

Section plain.
Context {C : Type} `{Countable C} `{RegisteredClaims C}.

#[export] Instance plain_codec : JwtCodec C := {
  jwt_encode c key := Ok (pos_to_string (encode (c, key)));
  jwt_decode tok key v now :=
    match pos_of_string tok ≫= decode (A:=C * string) with
    | Some (c, key') =>
        if bool_decide (key = key') && claims_valid v now c then Ok c
        else Err (mkJwtError (negb (claims_valid v now c)) "invalid")
    | None => Err (mkJwtError false "malformed")
    end
}.

#[export] Instance plain_codec_laws : JwtCodecLaws C.
Proof.
  split; simpl.
  - intros c key tok v now [= <-] Hv. rewrite pos_of_to_string. simpl.
    by rewrite decode_encode, bool_decide_true, Hv.
  - intros c key tok key' v now c' [= <-]. rewrite pos_of_to_string. simpl.
    rewrite decode_encode. case_match; congruence.
Qed.
End plain.

(** Identifiers as their own text. *)
#[export] Instance plain_uuid : UuidText N := {
  uuid_to_string n := pos_to_string (N.succ_pos n);
  uuid_parse_str s := Pos.pred_N <$> pos_of_string s;
  uuid_nil := 0%N
}.
#[export] Instance plain_uuid_laws : UuidTextLaws N.
Proof.
  split; simpl.
  - intros u. rewrite pos_of_to_string. simpl. by rewrite N.pos_pred_succ.
  - intros u. by destruct (N.succ_pos u).
Qed.
End PlainJwt.

Section witnesses.
Import PlainJwt.

Definition demo_secret : string := "0123456789abcdef0123456789abcdef".

Lemma media_token_rotation_roundtrip_witness :
  ∃ tok, sign_media_token "r" "p" demo_secret "iss" 100 (Ok 1000) "id" = Ok tok ∧
    validate_media_token_with_rotation tok "new" (Some demo_secret) SFU_AUDIENCE "iss" 1100 1101 =
      Ok (media_claims "r" "p" "iss" 100 1000 "id").
Proof.
  eexists. split; [reflexivity|].
  apply (media_token_rotation_roundtrip "r" "p" demo_secret);
    [done|reflexivity|by right|unfold jwt_leeway; lia|unfold jwt_leeway; lia].
Defined.

Lemma access_token_rotation_roundtrip_witness :
  ∃ tok, sign_access_token 7%N 9%N demo_secret 900 3 1000 = Ok tok ∧
    validate_access_token_with_rotation tok demo_secret None 1500 1500 = Ok (7%N, 9%N, 3).
Proof.
  eexists. split; [reflexivity|].
  apply (access_token_rotation_roundtrip 7%N 9%N demo_secret 900 3 1000);
    [done|reflexivity|by left|unfold jwt_leeway; lia|unfold jwt_leeway; lia].
Defined.
End witnesses.
