(* ===== verification/SfuRelay.v ===== *)
(** * SFU room lifecycle (wavis-backend/src/voice/sfu_relay.rs)

    Join, leave, kick, mute, viewer tokens and explicit room creation.  The
    handlers work on the room table, the invite store and the SFU bridge; they
    are programs of the monad [M] over a [World], so that the changes made before
    an early return stay.  The signing libraries are parameters. *)

From S2P Require Import Prelude Signaling FieldValidation Invite RoomState ScreenShare Relay SfuBridge Tokens.
From Stdlib Require Import Ascii.
Local Open Scope Z_scope.
Local Open Scope prog_scope.

(** ** The world the handlers change *)

Record World (B : Type) : Type := mkWorld {
  w_rooms : InMemoryRoomState;
  w_invites : InviteStore;
  w_bridge : B
}.
Arguments mkWorld {B} _ _ _.
Arguments w_rooms {B} _.
Arguments w_invites {B} _.
Arguments w_bridge {B} _.

Section world.
Context {B E : Type}.

(** A read of, and a call on, the room table. *)
Definition read_rooms {A} (f : InMemoryRoomState → A) : M (World B) E A := gets (λ w, f (w_rooms w)).
Definition call_rooms {A} (f : InMemoryRoomState → A * InMemoryRoomState) : M (World B) E A :=
  state (λ w, let '(a, s) := f (w_rooms w) in (a, mkWorld s (w_invites w) (w_bridge w))).
Definition do_rooms (f : InMemoryRoomState → InMemoryRoomState) : M (World B) E unit :=
  modify (λ w, mkWorld (f (w_rooms w)) (w_invites w) (w_bridge w)).

(** A call on the SFU bridge. *)
Definition call_bridge {A X} (f : B → Result A X * B) : M (World B) X A :=
  λ w, let '(r, b) := f (w_bridge w) in (r, mkWorld (w_rooms w) (w_invites w) b).

(** A call on the invite store. *)
Definition call_invites {A X} (f : InviteStore → Result A X * InviteStore) : M (World B) X A :=
  λ w, let '(r, inv) := f (w_invites w) in (r, mkWorld (w_rooms w) inv (w_bridge w)).

(** [try_add_peer_with] with a closure on the invite store. *)
Definition join_rooms (peer_id : PeerId) (room_id : RoomId)
    (f : InviteStore → Result unit JoinRejectionReason * InviteStore)
    : M (World B) JoinRejectionReason Z :=
  λ w, let '(r, s, inv) := try_add_peer_with peer_id room_id f (w_rooms w) (w_invites w) in
       (r, mkWorld s inv (w_bridge w)).
End world.

(** The clocks and random draws of one call. *)
Record Reads : Type := mkReads {
  rd_created_at : Instant;
  rd_now : Instant;
  rd_clock : Result Z string;
  rd_jti : string;
  rd_invite_now : Instant;
  rd_token_now : Instant;
  rd_invite_code : string
}.

(** [TokenMode]. *)
Inductive TokenMode : Type :=
| Custom (jwt_secret issuer : string) (ttl_secs : Z)
| LiveKit (api_key api_secret : string) (ttl_secs : Z).

Definition token_ttl (t : TokenMode) : Z :=
  match t with Custom _ _ ttl => ttl | LiveKit _ _ ttl => ttl end.

Module CreateErr.
(** [CreateRoomError]. *)
Inductive CreateRoomError : Type :=
| RoomAlreadyExists
| InvalidRoomId
| SfuUnavailable
| OfSfu (e : SfuError)
| InviteGeneration (reason : string).
End CreateErr.
Abbreviation CreateRoomError := CreateErr.CreateRoomError.

(** ** [str::trim] and [str::split_whitespace]

    Characters with the Unicode [White_Space] property, as UTF-8 byte sequences. *)
Definition utf8 (l : list nat) : string := String.string_of_list_ascii (map ascii_of_nat l).

Definition whitespace : list (list nat) :=
  [[9]; [10]; [11]; [12]; [13]; [32]; [194; 133]; [194; 160]; [225; 154; 128];
   [226; 128; 128]; [226; 128; 129]; [226; 128; 130]; [226; 128; 131]; [226; 128; 132];
   [226; 128; 133]; [226; 128; 134]; [226; 128; 135]; [226; 128; 136]; [226; 128; 137];
   [226; 128; 138]; [226; 128; 168]; [226; 128; 169]; [226; 128; 175]; [226; 129; 159];
   [227; 128; 128]]%nat.

(** Drop one of the prefixes [ws], if the string starts with one. *)
Fixpoint strip_one (ws : list string) (s : string) : option string :=
  match ws with
  | [] => None
  | p :: ws' =>
      if String.prefix p s
      then Some (String.substring (String.length p) (String.length s - String.length p) s)
      else strip_one ws' s
  end.
Fixpoint strip_all (fuel : nat) (ws : list string) (s : string) : string :=
  match fuel with
  | O => s
  | S n => match strip_one ws s with Some s' => strip_all n ws s' | None => s end
  end.
Definition string_rev (s : string) : string :=
  String.string_of_list_ascii (rev (String.list_ascii_of_string s)).
Definition trim (s : string) : string :=
  let s1 := strip_all (String.length s) (map utf8 whitespace) s in
  string_rev (strip_all (String.length s1) (map (λ w, utf8 (rev w)) whitespace) (string_rev s1)).

(** [split_whitespace]: skip white space, take up to the next, and go on.  Every round
    takes at least a byte, so as many rounds as bytes are enough. *)
Fixpoint until_space (s : string) : string :=
  match s with
  | EmptyString => EmptyString
  | String c s' =>
      match strip_one (map utf8 whitespace) s with
      | Some _ => EmptyString
      | None => String c (until_space s')
      end
  end.
Fixpoint skip_bytes (n : nat) (s : string) : string :=
  match n, s with S n, String _ s' => skip_bytes n s' | _, _ => s end.
Fixpoint split_words (fuel : nat) (s : string) : list string :=
  match fuel with
  | O => []
  | S n =>
      let rest := strip_all (String.length s) (map utf8 whitespace) s in
      let w := until_space rest in
      if str_is_empty w then [] else w :: split_words n (skip_bytes (String.length w) rest)
  end.
Definition split_whitespace (s : string) : list string := split_words (String.length s) s.

(** [is_char_boundary]: a slice that starts or ends inside a character panics ([None]). *)
Definition continuation (c : Ascii.ascii) : bool :=
  let n := Ascii.nat_of_ascii c in (128 <=? n)%nat && (n <? 192)%nat.
Definition is_char_boundary (s : string) (i : nat) : bool :=
  match String.get i s with Some c => negb (continuation c) | None => (i =? String.length s)%nat end.
(** [&s[..i]] and [&s[i..]]. *)
Definition slice_to (s : string) (i : nat) : option string :=
  if is_char_boundary s i then Some (String.substring 0 i s) else None.
Definition slice_from (s : string) (i : nat) : option string :=
  if is_char_boundary s i then Some (String.substring i (String.length s - i) s) else None.

(** [determine_room_type]. *)
Definition determine_room_type (client_hint : option string) (max_participants_config : Z) : RoomType :=
  if bool_decide (client_hint = Some "p2p") then P2P
  else if bool_decide (client_hint = Some "sfu") then Sfu
  else if bool_decide (2 < max_participants_config) then Sfu else P2P.

(** [info.participants.iter().any(|p| p.participant_id == target_id)]. *)
Definition has_participant (target_id : string) (i : RoomInfo) : bool :=
  existsb (λ p, bool_decide (participant_id p = target_id)) (participants i).

(** [info.participants.retain(|p| p.participant_id != peer_id)]. *)
Definition drop_participant (peer_id : string) : RoomInfo → RoomInfo :=
  set_participants (retain (λ p, bool_decide (participant_id p ≠ peer_id))).

(** A participant record as the join paths write it. *)
Definition new_participant (peer_id display_name : string) (user_id color : option string)
    : ParticipantInfo :=
  mkParticipantInfo peer_id display_name user_id color false false false.

Section handlers.
Context {B : Type} `{SfuRoomManager B, JwtCodec MediaTokenClaims, LiveKitTokens}.

Abbreviation Prog := (M (World B) SfuError) (only parsing).

(** The token of a join or a room creation. *)
Definition mint_token (token_mode : TokenMode) (room_id peer_id display_name : string)
    (rd : Reads) : Result string SfuError :=
  match token_mode with
  | Custom secret issuer ttl =>
      sign_media_token room_id peer_id secret issuer ttl (rd_clock rd) (rd_jti rd)
  | LiveKit key secret ttl => sign_livekit_token room_id peer_id display_name key secret ttl
  end.

(** The SFU handle of a join: the room's, or that of a room created for it. *)
Definition sfu_handle_for (room_id : RoomId) (max_participants : Z) (created_at : Instant)
    : Prog SfuRoomHandle :=
  let! info := read_rooms (get_room_info room_id) in
  match info ≫= sfu_handle with
  | Some handle => mret handle
  | None =>
      let! handle := call_bridge (sfu_create_room room_id) in
      let! _b := call_rooms (create_room room_id (new_sfu max_participants handle created_at)) in
      mret handle
  end.

(** The rejection of the atomic join as an [SfuError]. *)
Definition join_rejection (e : JoinRejectionReason) : SfuError :=
  match e with
  | RoomFull => SfuErr.RoomFull
  | InviteExhausted => SfuErr.InviteExhausted
  | _ => SfuErr.RoomFull
  end.

(** The signals of a successful join. *)
Definition join_signals (room_id peer_id display_name : string) (profile_color : option string)
    (peer_count : Z) (existing : list ParticipantInfo) (share_perm : option WireSharePermission)
    (token sfu_url : string) (snapshot : OutboundSignal) : list OutboundSignal :=
  let me := new_participant peer_id display_name None profile_color in
  [to_peer peer_id (Msg.Joined (mkJoinedPayload room_id peer_id peer_count (existing ++ [me]) None share_perm));
   to_peer peer_id (Msg.MediaToken (mkMediaTokenPayload token sfu_url))] ++
  (match existing with
   | [] => []
   | _ => [to_peer peer_id (Msg.RoomState (mkRoomStatePayload existing))]
   end) ++
  [snapshot;
   broadcast_except peer_id (Msg.ParticipantJoined
     (mkParticipantJoinedPayload peer_id display_name None profile_color))].

(** [handle_sfu_join]. *)
Definition handle_sfu_join (room_id : RoomId) (peer_id : PeerId) (display_name : string)
    (profile_color : option string) (token_mode : TokenMode) (sfu_url : string)
    (max_participants : Z) (invite_code : option string) (rd : Reads)
    : Prog (list OutboundSignal) :=
  let! handle := sfu_handle_for room_id max_participants (rd_created_at rd) in
  do! call_bridge (sfu_add_participant handle peer_id) in
  let! revoked := call_rooms (is_participant_revoked room_id peer_id
                    (from_secs (token_ttl token_mode)) (rd_now rd)) in
  if revoked : bool then throw (SfuErr.TokenError "participant revoked")
  else
    let! token := lift_result (mint_token token_mode room_id peer_id display_name rd) in
    let! existing := read_rooms (λ s,
      match get_room_info room_id s with Some i => participants i | None => [] end) in
    let! _n := map_err_m join_rejection
      (join_rooms peer_id room_id (consume_invite room_id invite_code (rd_invite_now rd))) in
    do! do_rooms (update_room_info room_id (λ i,
      record_token_issued peer_id (rd_token_now rd)
        (set_participants (λ ps, ps ++ [new_participant peer_id display_name None profile_color]) i))) in
    let! count := read_rooms (peer_count room_id) in
    let! share_perm := read_rooms (λ s,
      wire_of_share_permission ∘ share_permission <$> get_room_info room_id s) in
    let! snapshot := read_rooms (share_state_snapshot room_id peer_id) in
    mret (join_signals room_id peer_id display_name profile_color (wrap_u32 count) existing
            share_perm token sfu_url snapshot).

(** The window-id check of [handle_viewer_token_request]. *)
Definition window_id_ok (window_id : string) : bool :=
  negb (str_is_empty window_id || bool_decide (MAX_VIEWER_WINDOW_ID_LEN < str_len window_id) ||
        negb (all_identifier_chars window_id)).

Definition viewer_identity (peer_id : string) (user_id : option string) (window_id : string) : string :=
  livekit_identity peer_id user_id +:+ "-vw-" +:+ window_id.

Definition is_sfu_room (room_id : RoomId) (s : InMemoryRoomState) : bool :=
  match get_room_info room_id s with
  | Some i => bool_decide (room_type i = Sfu) && bool_decide (is_Some (sfu_handle i))
  | None => false
  end.

Definition mint_viewer_token (token_mode : TokenMode) (room_id identity : string)
    : Result string SfuError :=
  match token_mode with
  | LiveKit key secret ttl => sign_livekit_viewer_token room_id identity key secret ttl
  | Custom _ _ _ => Err (SfuErr.TokenError "viewer tokens require LiveKit mode")
  end.

(** [handle_viewer_token_request]. *)
Definition handle_viewer_token_request (room_id : RoomId) (peer_id : PeerId)
    (user_id : option string) (window_id : string) (token_mode : TokenMode) (sfu_url : string)
    (rd : Reads) : Prog (list OutboundSignal) :=
  if negb (window_id_ok window_id) then
    throw (SfuErr.InvalidInput "window_id must be 1–32 chars of ASCII alphanumeric, hyphens, underscores")
  else
  let! sfu := read_rooms (is_sfu_room room_id) in
  if negb sfu then
    throw (SfuErr.ParticipantError "viewer tokens are only available in SFU rooms")
  else
  let! revoked := call_rooms (is_participant_revoked room_id peer_id
                    (from_secs (token_ttl token_mode)) (rd_now rd)) in
  if revoked : bool then throw (SfuErr.TokenError "participant revoked")
  else
  let identity := viewer_identity peer_id user_id window_id in
  do! lift_result (validate_identifier identity "viewer_identity") in
  let! token := lift_result (mint_viewer_token token_mode room_id identity) in
  let! recorded := call_rooms (update_room_info_capture room_id false
                     (record_viewer_identity peer_id identity)) in
  if negb recorded then throw (SfuErr.ParticipantError "too many viewer windows")
  else mret [to_peer peer_id (Msg.ViewerToken (mkViewerTokenPayload window_id token sfu_url identity))].

(** [let _ = bridge.remove_participant(handle, id)]. *)
Definition evict (handle : option SfuRoomHandle) (id : string) : Prog unit :=
  match handle with
  | Some h => let! _r := attempt (call_bridge (sfu_remove_participant h id)) in mret tt
  | None => mret tt
  end.

(** [handle_sfu_leave]. *)
Definition handle_sfu_leave (room_id : RoomId) (peer_id : PeerId) (rd : Reads)
    : Prog (list OutboundSignal) :=
  let! handle := read_rooms (λ s, get_room_info room_id s ≫= sfu_handle) in
  let! viewers := call_rooms (update_room_info_capture room_id [] (take_viewer_identities peer_id)) in
  do! evict handle peer_id in
  do! for_each (evict handle) viewers in
  let! shares := call_rooms (cleanup_share_on_disconnect room_id peer_id) in
  do! do_rooms (remove_peer peer_id) in
  do! do_rooms (update_room_info room_id (drop_participant peer_id)) in
  do! do_rooms (add_revoked_participant room_id peer_id (rd_now rd)) in
  let! remaining := read_rooms (peer_count room_id) in
  do! (match handle with
       | Some h => when (bool_decide (remaining = 0))
                     (let! _r := attempt (call_bridge (sfu_destroy_room h)) in mret tt)
       | None => mret tt
       end) in
  mret (broadcast_except peer_id (Msg.ParticipantLeft (mkParticipantLeftPayload peer_id))
        :: default [] shares).

(** Whether the target of a moderation request is in the room. *)
Definition target_in_room (room_id : RoomId) (target_id : string) (s : InMemoryRoomState) : bool :=
  match get_room_info room_id s with Some i => has_participant target_id i | None => false end.

Definition not_in_room (target_id : string) : SfuError :=
  SfuErr.ParticipantError ("target participant " +:+ target_id +:+ " not in room").

(** [handle_kick]. *)
Definition handle_kick (room_id : RoomId) (_kicker_id : PeerId) (kicker_role : ParticipantRole)
    (target_id : string) (rd : Reads) : Prog (list OutboundSignal) :=
  if bool_decide (kicker_role ≠ Host) then throw (SfuErr.Unauthorized "only hosts can kick participants")
  else
  let! present := read_rooms (target_in_room room_id target_id) in
  if negb present then throw (not_in_room target_id)
  else
  let! handle := read_rooms (λ s, get_room_info room_id s ≫= sfu_handle) in
  do! evict handle target_id in
  let! viewers := call_rooms (update_room_info_capture room_id [] (take_viewer_identities target_id)) in
  do! for_each (evict handle) viewers in
  do! do_rooms (remove_peer target_id) in
  do! do_rooms (update_room_info room_id (λ i,
    info_add_revoked_participant target_id (rd_now rd) (drop_participant target_id i))) in
  let kicked := Msg.ParticipantKicked (mkParticipantKickedPayload target_id "kicked") in
  mret [to_peer target_id kicked; broadcast_except target_id kicked].

Definition set_muted (muted : option bool) (host_muted : bool) (p : ParticipantInfo) : ParticipantInfo :=
  mkParticipantInfo (participant_id p) (display_name p) (user_id p) (profile_color p)
    (default (is_muted p) muted) host_muted (is_deafened p).

(** [handle_mute]. *)
Definition handle_mute (room_id : RoomId) (_muter_id : PeerId) (muter_role : ParticipantRole)
    (target_id : string) : Prog (list OutboundSignal) :=
  if bool_decide (muter_role ≠ Host) then throw (SfuErr.Unauthorized "only hosts can mute participants")
  else
  let! present := read_rooms (target_in_room room_id target_id) in
  if negb present then throw (not_in_room target_id)
  else
  do! do_rooms (update_room_info room_id (set_participants
    (update_first (λ p, bool_decide (participant_id p = target_id)) (set_muted (Some true) true)))) in
  mret [broadcast_all (Msg.ParticipantMuted (mkParticipantMutedPayload target_id))].

(** [handle_unmute]. *)
Definition handle_unmute (room_id : RoomId) (_unmuter_id : PeerId) (unmuter_role : ParticipantRole)
    (target_id : string) : Prog (list OutboundSignal) :=
  if bool_decide (unmuter_role ≠ Host) then throw (SfuErr.Unauthorized "only hosts can unmute participants")
  else
  let! present := read_rooms (target_in_room room_id target_id) in
  if negb present then throw (not_in_room target_id)
  else
  do! do_rooms (update_room_info room_id (set_participants
    (update_first (λ p, bool_decide (participant_id p = target_id)) (set_muted None false)))) in
  mret [broadcast_all (Msg.ParticipantUnmuted (mkParticipantUnmutedPayload target_id))].

(** The room and the first peer of [handle_create_room]. *)
Definition create_and_enter (room_type : RoomType) (room_id : RoomId) (peer_id : PeerId)
    (max_participants : Z) (sfu_available : bool) (rd : Reads) : M (World B) CreateRoomError unit :=
  match room_type with
  | P2P =>
      let! _b := call_rooms (create_room room_id (new_p2p (rd_created_at rd))) in
      do_rooms (add_peer peer_id room_id (rd_created_at rd))
  | Sfu =>
      if negb sfu_available then throw CreateErr.SfuUnavailable
      else
      let! handle := map_err_m CreateErr.OfSfu (call_bridge (sfu_create_room room_id)) in
      let! _b := call_rooms (create_room room_id (new_sfu max_participants handle (rd_created_at rd))) in
      do! do_rooms (add_peer peer_id room_id (rd_created_at rd)) in
      let! added := attempt (call_bridge (sfu_add_participant handle peer_id)) in
      match added with
      | Ok _ => mret tt
      | Err e => do! do_rooms (remove_peer peer_id) in throw (CreateErr.OfSfu e)
      end
  end.

(** [handle_create_room]. *)
Definition handle_create_room (room_id : RoomId) (peer_id : PeerId) (display_name : string)
    (profile_color room_type_hint : option string) (max_participants : Z) (issuer_id : string)
    (token_mode : TokenMode) (sfu_url : string) (sfu_available : bool) (rd : Reads)
    : M (World B) CreateRoomError (list OutboundSignal) :=
  let rid := trim room_id in
  if str_is_empty rid then throw CreateErr.InvalidRoomId
  else
  let! info := read_rooms (get_room_info rid) in
  if bool_decide (is_Some info) then throw CreateErr.RoomAlreadyExists
  else
  let room_type := determine_room_type room_type_hint max_participants in
  do! create_and_enter room_type rid peer_id max_participants sfu_available rd in
  let! generated := attempt (call_invites
    (generate (rd_invite_code rd) rid issuer_id None (rd_invite_now rd))) in
  match generated with
  | Err e =>
      do! do_rooms (remove_peer peer_id) in throw (CreateErr.InviteGeneration (InviteError_to_string e))
  | Ok record =>
      do! do_rooms (update_room_info rid (set_participants
        (λ ps, ps ++ [new_participant peer_id display_name None profile_color]))) in
      let! ttl_secs := gets (λ w, default_ttl_secs (w_invites w)) in
      let created := to_peer peer_id (Msg.RoomCreated (mkRoomCreatedPayload rid peer_id (ir_code record)
                       ttl_secs (ir_remaining_uses record) None)) in
      if bool_decide (room_type = Sfu) then
        let! token := lift_result (map_err CreateErr.OfSfu
                        (mint_token token_mode rid peer_id display_name rd)) in
        do! do_rooms (update_room_info rid (record_token_issued peer_id (rd_token_now rd))) in
        mret [created; to_peer peer_id (Msg.MediaToken (mkMediaTokenPayload token sfu_url))]
      else mret [created]
  end.
End handlers.

(** ** The invariant of the room table under the SFU handlers *)

Definition capacity_ok (s : InMemoryRoomState) : Prop :=
  ∀ r m, rooms s !! r = Some m → len (peers m) ≤ max_participants (info m).

(** The sub-room state of a room, if it has one, contains ROOM 1. *)
Definition has_one (sub : SubRoomState) : Prop := true ∈ map is_default (sub_rooms sub).
Definition one_ok (i : RoomInfo) : Prop := ∀ sub, sub_room_state i = Some sub → has_one sub.

Definition ones_ok (s : InMemoryRoomState) : Prop := ∀ r m, rooms s !! r = Some m → one_ok (info m).

Record rooms_ok (s : InMemoryRoomState) : Prop := mk_rooms_ok {
  rooms_ok_wf : room_wf s;
  rooms_ok_shares : shares_wf s;
  rooms_ok_capacity : capacity_ok s;
  rooms_ok_one : ones_ok s
}.

(** A change of room metadata that keeps the capacity, the share invariant and ROOM 1. *)
Definition info_safe (f : RoomInfo → RoomInfo) : Prop :=
  ∀ i, max_participants (f i) = max_participants i ∧ (share_wf i → share_wf (f i)) ∧ (one_ok i → one_ok (f i)).

Lemma info_safe_sub f :
  (∀ i, room_type (f i) = room_type i ∧ active_shares (f i) = active_shares i ∧
        active_share_types (f i) = active_share_types i ∧ max_participants (f i) = max_participants i) →
  (∀ i, one_ok i → one_ok (f i)) → info_safe f.
Proof.
  intros Hf Hone i. destruct (Hf i) as (H1 & H2 & H3 & H4). split_and!; [done| |apply Hone]. by apply share_wf_ext.
Qed.

Lemma one_ok_ext i i' : sub_room_state i' = sub_room_state i → one_ok i → one_ok i'.
Proof. intros E. unfold one_ok. by rewrite E. Qed.

Lemma info_safe_ext f :
  (∀ i, room_type (f i) = room_type i ∧ active_shares (f i) = active_shares i ∧
        active_share_types (f i) = active_share_types i ∧ max_participants (f i) = max_participants i ∧
        sub_room_state (f i) = sub_room_state i) →
  info_safe f.
Proof.
  intros Hf. apply info_safe_sub; intros i; destruct (Hf i) as (H1 & H2 & H3 & H4 & H5); [done|]. by apply one_ok_ext.
Qed.

Lemma rooms_ok_new : rooms_ok InMemoryRoomState_new.
Proof. split; [apply room_wf_new|by intros ??..]. Qed.

Lemma rooms_ok_update_capture {A} r (a : A) f s :
  info_safe (λ i, (f i).2) → rooms_ok s → rooms_ok (update_room_info_capture r a f s).2.
Proof.
  intros Hf [H1 H2 H3 H4]. split.
  - eauto using room_wf_ext, peers_at_update_capture, peer_to_room_update_capture.
  - unfold update_room_info_capture. destruct (rooms s !! r) as [m|] eqn:E; [|done].
    destruct (Hf (info m)) as (_ & Hs & _). specialize (Hs (H2 _ _ E)). destruct (f (info m)) as [b i].
    intros r' m'. simpl. rewrite lookup_insert. case_decide; [by intros [= <-]|apply H2].
  - unfold update_room_info_capture. destruct (rooms s !! r) as [m|] eqn:E; [|done].
    destruct (Hf (info m)) as [Hm _]. specialize (H3 _ _ E) as Hc. destruct (f (info m)) as [b i].
    intros r' m'. simpl in *. rewrite lookup_insert. case_decide; [|apply H3].
    intros [= <-]. simpl. lia.
  - unfold update_room_info_capture. destruct (rooms s !! r) as [m|] eqn:E; [|done].
    destruct (Hf (info m)) as (_ & _ & Hs). specialize (Hs (H4 _ _ E)). destruct (f (info m)) as [b i].
    intros r' m'. simpl. rewrite lookup_insert. case_decide; [by intros [= <-]|apply H4].
Qed.

Lemma rooms_ok_update r f s : info_safe f → rooms_ok s → rooms_ok (update_room_info r f s).
Proof. intros Hf. by apply rooms_ok_update_capture. Qed.

Lemma update_one r f s : (∀ i, one_ok i → one_ok (f i)) → ones_ok s → ones_ok (update_room_info r f s).
Proof.
  intros Hf Hs r' m'. unfold update_room_info, update_room_info_capture. destruct (rooms s !! r) as [m|] eqn:E; [|apply Hs].
  simpl. rewrite lookup_insert. case_decide; [intros [= <-]; by eapply Hf, Hs|apply Hs].
Qed.

(** A [with_room_write] whose closure keeps the peer list. *)
Lemma rooms_ok_with_room_write {R} r (f : RoomMembers → R * RoomMembers) s :
  (∀ m, peers (f m).2 = peers m ∧ max_participants (info (f m).2) = max_participants (info m) ∧
        (share_wf (info m) → share_wf (info (f m).2)) ∧ (one_ok (info m) → one_ok (info (f m).2))) →
  rooms_ok s → rooms_ok (with_room_write r f s).2.
Proof.
  intros Hf [H1 H2 H3 H4]. split.
  - apply (room_wf_ext s); [apply peer_to_room_with_room_write| |done].
    intros r'. apply peers_at_with_room_write. intros m. apply Hf.
  - apply shares_wf_with_room_write; [|done]. intros m. apply Hf.
  - unfold with_room_write. destruct (rooms s !! r) as [m|] eqn:E; [|done].
    destruct (Hf m) as (Hp & Hm & _). specialize (H3 _ _ E) as Hc. destruct (f m) as [x m'].
    intros r' m''. simpl in *. rewrite lookup_insert. case_decide; [|apply H3].
    intros [= <-]. rewrite Hp, Hm. done.
  - unfold with_room_write. destruct (rooms s !! r) as [m|] eqn:E; [|done].
    destruct (Hf m) as (_ & _ & _ & Ho). specialize (Ho (H4 _ _ E)). destruct (f m) as [x m'].
    intros r' m''. simpl in *. rewrite lookup_insert. case_decide; [by intros [= <-]|apply H4].
Qed.

Lemma rooms_ok_create_room r i s :
  0 ≤ max_participants i → share_wf i → one_ok i → rooms_ok s → rooms_ok (create_room r i s).2.
Proof.
  intros Hi Hw Ho [H1 H2 H3 H4]. split.
  - eauto using room_wf_ext, peers_at_create_room, peer_to_room_create_room.
  - unfold create_room. case_match; [done|]. intros r' m. simpl. rewrite lookup_insert.
    case_decide; [by intros [= <-]|apply H2].
  - unfold create_room. case_match; [done|]. intros r' m. simpl. rewrite lookup_insert.
    case_decide; [by intros [= <-]|apply H3].
  - unfold create_room. case_match; [done|]. intros r' m. simpl. rewrite lookup_insert.
    case_decide; [by intros [= <-]|apply H4].
Qed.

Lemma share_wf_fresh i :
  active_shares i = ∅ → active_share_types i = ∅ → share_wf i.
Proof.
  intros Ha Ht. split; [rewrite Ht; intros p []%lookup_empty_is_Some| |done].
  intros p. unfold types_of. rewrite Ht, lookup_empty. apply slots_ok_empty.
Qed.

Lemma share_wf_new_sfu n h t : share_wf (new_sfu n h t).
Proof. by apply share_wf_fresh. Qed.
Lemma share_wf_new_p2p t : share_wf (new_p2p t).
Proof. by apply share_wf_fresh. Qed.

Lemma one_ok_new_sfu n h t : one_ok (new_sfu n h t).
Proof. by intros sub. Qed.
Lemma one_ok_new_p2p t : one_ok (new_p2p t).
Proof. by intros sub. Qed.

Lemma max_new_sfu n h t : 3 ≤ max_participants (new_sfu n h t) ≤ 6.
Proof. simpl. unfold clamp. repeat case_match; lia. Qed.

(** A leave only shortens peer lists, and drops rooms it empties. *)
Lemma rooms_remove_peer_internal p b s r m :
  rooms (remove_peer_internal p b s) !! r = Some m →
  ∃ m0, rooms s !! r = Some m0 ∧ info m = info m0 ∧ (length (peers m) ≤ length (peers m0))%nat.
Proof.
  unfold remove_peer_internal. destruct (peer_to_room s !! p) as [r0|]; [|by eauto].
  simpl rooms. destruct (rooms s !! r0) as [m0|] eqn:E; [|by eauto].
  assert (∀ t, rooms t = <[r0 := set_peers (retain (λ q, bool_decide (q ≠ p))) m0]> (rooms s) →
    rooms t !! r = Some m → ∃ m1, rooms s !! r = Some m1 ∧ info m = info m1 ∧
      (length (peers m) ≤ length (peers m1))%nat) as Hins.
  { intros t ->. rewrite lookup_insert. case_decide; [|by eauto]. intros [= <-]. subst.
    exists m0. split_and!; [done..|]. apply length_retain_le. }
  assert (rooms (set_rooms (delete r0) (set_peer_to_room (delete p) s)) !! r = Some m →
    ∃ m1, rooms s !! r = Some m1 ∧ info m = info m1 ∧ (length (peers m) ≤ length (peers m1))%nat) as Hdel.
  { simpl. rewrite lookup_delete. case_decide; [done|by eauto]. }
  destruct b; [|by apply Hins]. case_match; [exact Hdel|by apply Hins].
Qed.

Lemma rooms_ok_remove_peer_internal p b s : rooms_ok s → rooms_ok (remove_peer_internal p b s).
Proof.
  intros [H1 H2 H3 H4]. split.
  - eauto using room_wf_leave, peers_at_remove_peer_internal, peer_to_room_remove_peer_internal.
  - intros r m (m0 & E & -> & _)%rooms_remove_peer_internal. by eapply H2.
  - intros r m (m0 & E & Hi & Hl)%rooms_remove_peer_internal. rewrite Hi. specialize (H3 _ _ E). lia.
  - intros r m (m0 & E & -> & _)%rooms_remove_peer_internal. by eapply H4.
Qed.

Lemma rooms_ok_remove_peer p s : rooms_ok s → rooms_ok (remove_peer p s).
Proof. apply rooms_ok_remove_peer_internal. Qed.

Lemma rooms_ok_try_add {X} p r (f : X → _) s x :
  (∀ r0, peer_to_room s !! p = Some r0 → r0 = r) →
  rooms_ok s → rooms_ok (try_add_peer_with p r f s x).1.2.
Proof.
  intros Hpre [H1 H2 H3 H4]. destruct (try_add_peer_with p r f s x) as [[[n|e] s'] x'] eqn:E.
  2: { apply try_add_Err in E as ->. done. }
  split; [eauto using room_wf_try_add|..]; revert E; unfold try_add_peer_with;
    (destruct (rooms s !! r) as [m|] eqn:Em; [|done]);
    (destruct (contains p (peers m)); [by intros [= <- <- <-]|]);
    (case_bool_decide; [done|]); (destruct (f x) as [[]?]; [|done]); intros [= <- <- <-];
    intros r' m'; simpl; rewrite lookup_insert; (case_decide; [intros [= <-]|eauto]).
  - exact (H2 _ _ Em).
  - simpl. rewrite length_app. simpl. lia.
  - exact (H4 _ _ Em).
Qed.

(** A room with somebody else in it survives a leave. *)
Lemma rooms_remove_peer_keeps p b s r m q :
  rooms s !! r = Some m → q ∈ peers m → q ≠ p →
  ∃ m', rooms (remove_peer_internal p b s) !! r = Some m' ∧ info m' = info m.
Proof.
  intros Hm Hq Hne. unfold remove_peer_internal.
  destruct (peer_to_room s !! p) as [r0|]; [|by eauto].
  simpl rooms. destruct (rooms s !! r0) as [m0|] eqn:E; [|by eauto].
  assert (∀ t, rooms t = <[r0 := set_peers (retain (λ q, bool_decide (q ≠ p))) m0]> (rooms s) →
    ∃ m', rooms t !! r = Some m' ∧ info m' = info m) as Hins.
  { intros t ->. rewrite lookup_insert. case_decide; [|by eauto]. simplify_eq. by eexists. }
  destruct b; [|by apply Hins].
  case_match eqn:Ep; [|by apply Hins].
  simpl. rewrite lookup_delete_ne; [by eauto|]. intros ->. simplify_eq. simpl in Ep.
  assert (q ∈ retain (λ q, bool_decide (q ≠ p)) (peers m)) as Hin.
  { apply elem_of_retain. split; [by apply bool_decide_eq_true|done]. }
  rewrite Ep in Hin. by apply not_elem_of_nil in Hin.
Qed.

(** Entering a room that was just created. *)
Lemma rooms_ok_enter_new p r i now s :
  rooms s !! r = None → 1 ≤ max_participants i → share_wf i → one_ok i →
  rooms_ok s → rooms_ok (add_peer p r now (create_room r i s).2).
Proof.
  intros Hr Hi Hw Ho Hs. pose proof (rooms_ok_create_room r i s ltac:(lia) Hw Ho Hs) as [C1 C2 C3 C4].
  set (s0 := (create_room r i s).2) in *.
  assert (rooms s0 !! r = Some (mkRoomMembers [] i)) as Hr0.
  { subst s0. unfold create_room. rewrite Hr. simpl. by rewrite lookup_insert_eq. }
  clearbody s0. set (t := match peer_to_room s0 !! p with
    | Some old => if bool_decide (old ≠ r) then remove_peer_from_room_only p old s0 else s0
    | None => s0 end).
  assert (add_peer p r now s0 =
    set_peer_to_room <[p := r]> (set_rooms (alter (push_if_absent p) r) t)) as Heq
    by (unfold add_peer; by rewrite Hr0).
  assert (rooms t !! r = Some (mkRoomMembers [] i)) as Ht.
  { subst t. destruct (peer_to_room s0 !! p) as [old|]; [case_bool_decide|]; try done.
    by rewrite rooms_remove_from_room_only_ne. }
  assert (∀ r' m, rooms t !! r' = Some m →
    ∃ m0, rooms s0 !! r' = Some m0 ∧ info m = info m0 ∧ (length (peers m) ≤ length (peers m0))%nat) as Hsub.
  { subst t. intros r' m. destruct (peer_to_room s0 !! p) as [old|]; [case_bool_decide|]; try by eauto.
    unfold remove_peer_from_room_only. destruct (rooms s0 !! old) as [m1|] eqn:E; [|by eauto].
    case_match; simpl; [rewrite lookup_delete|rewrite lookup_insert]; (case_decide; [|by eauto]); [done|].
    intros [= <-]. subst. exists m1. split_and!; [done..|]. apply length_retain_le. }
  rewrite Heq. split.
  - rewrite <-Heq. eauto using room_wf_join, peers_at_add_peer, peer_to_room_add_peer.
  - intros r' m. simpl. rewrite lookup_alter. case_decide; [subst; rewrite Ht; simpl; by intros [= <-]|].
    intros (m0 & E & -> & _)%Hsub. by eapply C2.
  - intros r' m. simpl. rewrite lookup_alter. case_decide.
    + subst. rewrite Ht. simpl. intros [= <-]. simpl. lia.
    + intros (m0 & E & Hi0 & Hl)%Hsub. rewrite Hi0. specialize (C3 _ _ E). lia.
  - intros r' m. simpl. rewrite lookup_alter. case_decide; [subst; rewrite Ht; simpl; by intros [= <-]|].
    intros (m0 & E & -> & _)%Hsub. by eapply C4.
Qed.

(** ** The world invariant *)

Section world_invariant.
Context {B : Type}.

Record world_wf (w : World B) : Prop := mk_world_wf {
  world_rooms_ok : rooms_ok (w_rooms w);
  world_store_wf : store_wf (w_invites w)
}.

(** [p] is in no other room than [r]. *)
Definition peer_free (p : PeerId) (r : RoomId) (s : InMemoryRoomState) : Prop :=
  ∀ r0, peer_to_room s !! p = Some r0 → r0 = r.

Definition joining (p : PeerId) (r : RoomId) (w : World B) : Prop :=
  world_wf w ∧ peer_free p r (w_rooms w).

Lemma preserves_read_rooms {E A} (I : World B → Prop) (f : InMemoryRoomState → A) :
  preserves (E:=E) I (read_rooms f).
Proof. apply preserves_gets. Qed.

Lemma world_wf_do_rooms {E} f :
  (∀ s, rooms_ok s → rooms_ok (f s)) → preserves (E:=E) world_wf (do_rooms f).
Proof. intros Hf. apply preserves_modify. intros w [H1 H2]. split; [by apply Hf|done]. Qed.

Lemma world_wf_call_rooms {E A} (f : InMemoryRoomState → A * InMemoryRoomState) :
  (∀ s, rooms_ok s → rooms_ok (f s).2) → preserves (E:=E) world_wf (call_rooms f).
Proof.
  intros Hf. apply preserves_state. intros w [H1 H2]. specialize (Hf _ H1).
  destruct (f (w_rooms w)) as [a s]. by split.
Qed.

Lemma world_wf_call_bridge {X A} (f : B → Result A X * B) : preserves world_wf (call_bridge f).
Proof. intros w [H1 H2]. unfold call_bridge. destruct (f (w_bridge w)). by split. Qed.

Lemma joining_do_rooms {E} p r f :
  (∀ s, rooms_ok s → rooms_ok (f s)) → (∀ s, peer_to_room (f s) = peer_to_room s) →
  preserves (E:=E) (joining p r) (do_rooms f).
Proof.
  intros Hf Hp w [Hw Hfree]. split; [by apply (world_wf_do_rooms (E:=E) f)|].
  unfold peer_free. simpl. by rewrite Hp.
Qed.

Lemma joining_call_rooms {E A} p r (f : InMemoryRoomState → A * InMemoryRoomState) :
  (∀ s, rooms_ok s → rooms_ok (f s).2) → (∀ s, peer_to_room (f s).2 = peer_to_room s) →
  preserves (E:=E) (joining p r) (call_rooms f).
Proof.
  intros Hf Hp w [Hw Hfree]. split; [by apply (world_wf_call_rooms (E:=E) f)|].
  unfold peer_free, call_rooms, state. specialize (Hp (w_rooms w)).
  destruct (f (w_rooms w)) as [a s]. simpl in *. by rewrite Hp.
Qed.

Lemma joining_call_bridge {X A} p r (f : B → Result A X * B) : preserves (joining p r) (call_bridge f).
Proof.
  intros w [Hw Hfree]. split; [by apply world_wf_call_bridge|].
  unfold call_bridge. by destruct (f (w_bridge w)).
Qed.

Lemma consume_invite_wf r code now inv : store_wf inv → store_wf (consume_invite r code now inv).2.
Proof. intros Hw. destruct code; [by apply validate_and_consume_wf|done]. Qed.

Lemma try_add_store p r code now s inv :
  store_wf inv →
  store_wf (try_add_peer_with p r (consume_invite r code now) s inv).2.
Proof.
  intros Hw. destruct (try_add_peer_with _ _ _ _ _) as [[res s'] inv'] eqn:E.
  apply try_add_closure in E. pose proof (consume_invite_wf r code now inv Hw) as Hc.
  destruct res; simpl; [case_match|destruct E as [[_ ->]|E]]; subst; try done;
    by rewrite E in Hc.
Qed.

Lemma joining_join_rooms p r code now :
  preserves (joining p r) (join_rooms (B:=B) p r (consume_invite r code now)).
Proof.
  intros w [[H1 H2] Hfree]. unfold join_rooms.
  pose proof (rooms_ok_try_add p r (consume_invite r code now) _ (w_invites w) Hfree H1) as Hok.
  pose proof (try_add_store p r code now (w_rooms w) _ H2) as Hst.
  destruct (try_add_peer_with _ _ _ _ _) as [[[n|e] s'] inv'] eqn:E; simpl in *;
    (split; [by split|]); unfold peer_free; simpl.
  - apply peers_at_try_add in E as (_ & -> & _). intros r0. rewrite lookup_insert_eq. congruence.
  - by apply try_add_Err in E as ->.
Qed.

Lemma info_safe_revoked_check p d now : info_safe (λ i, (info_is_participant_revoked p d now i).2).
Proof. by apply info_safe_ext. Qed.

Lemma rooms_ok_is_revoked r p d now s :
  rooms_ok s → rooms_ok (is_participant_revoked r p d now s).2.
Proof.
  intros Hs. unfold is_participant_revoked.
  pose proof (rooms_ok_with_room_write r (λ m,
    let '(b, i) := info_is_participant_revoked p d now (info m) in (b, mkRoomMembers (peers m) i)) s) as H.
  destruct (with_room_write _ _ _) as [x s']. simpl in *. apply H; [|done].
  intros m. by destruct (info_safe_revoked_check p d now (info m)) as (? & ? & ?).
Qed.

Lemma peer_to_room_is_revoked r p d now s :
  peer_to_room (is_participant_revoked r p d now s).2 = peer_to_room s.
Proof.
  unfold is_participant_revoked.
  pose proof (peer_to_room_with_room_write r (λ m,
    let '(b, i) := info_is_participant_revoked p d now (info m) in (b, mkRoomMembers (peers m) i)) s) as H.
  by destruct (with_room_write _ _ _).
Qed.

Lemma info_safe_participants f : info_safe (set_participants f).
Proof. by apply info_safe_ext. Qed.
Lemma info_safe_token p now : info_safe (record_token_issued p now).
Proof. by apply info_safe_ext. Qed.
Lemma info_safe_revoke p now : info_safe (info_add_revoked_participant p now).
Proof. by apply info_safe_ext. Qed.
Lemma info_safe_compose f g : info_safe f → info_safe g → info_safe (λ i, f (g i)).
Proof.
  intros Hf Hg i. destruct (Hf (g i)) as (H1 & H2 & H3), (Hg i) as (H4 & H5 & H6). split_and!; [congruence|auto..].
Qed.
Lemma info_safe_take p : info_safe (λ i, (take_viewer_identities p i).2).
Proof. by apply info_safe_ext. Qed.
Lemma info_safe_viewer p id : info_safe (λ i, (record_viewer_identity p id i).2).
Proof.
  apply info_safe_ext. intros i. rewrite record_viewer_identity_eq. cbv zeta. by case_bool_decide.
Qed.

Lemma rooms_ok_cleanup r p s : rooms_ok s → rooms_ok (cleanup_share_on_disconnect r p s).2.
Proof.
  intros Hs. unfold cleanup_share_on_disconnect.
  pose proof (rooms_ok_with_room_write r (cleanup_share_locked p) s) as H.
  destruct (with_room_write _ _ _) as [x s']. simpl in *.
  assert (rooms_ok s') as Hs'.
  { apply H; [|done]. intros m. split_and!; [| |apply cleanup_share_locked_wf|];
      unfold cleanup_share_locked; by case_bool_decide. }
  by destruct x.
Qed.
End world_invariant.

#[export] Hint Resolve preserves_read_rooms world_wf_do_rooms world_wf_call_rooms world_wf_call_bridge
  joining_do_rooms joining_call_rooms joining_call_bridge joining_join_rooms
  rooms_ok_is_revoked peer_to_room_is_revoked info_safe_participants info_safe_token info_safe_revoke
  info_safe_compose info_safe_take info_safe_viewer rooms_ok_cleanup rooms_ok_update
  rooms_ok_update_capture rooms_ok_remove_peer peer_to_room_update peer_to_room_update_capture : wavis.

(** ** Every handler keeps the invariant *)

Section handler_invariant.
Context {B : Type} `{SfuRoomManager B, JwtCodec MediaTokenClaims, LiveKitTokens}.

Lemma sfu_handle_for_joining p r max now :
  preserves (joining p r) (sfu_handle_for (B:=B) r max now).
Proof.
  unfold sfu_handle_for. solve_preserves.
  apply joining_call_rooms; intros s.
  - apply rooms_ok_create_room; [|apply share_wf_new_sfu|apply one_ok_new_sfu].
    pose proof (max_new_sfu max a0 now). lia.
  - apply peer_to_room_create_room.
Qed.

Lemma handle_sfu_join_joining r p name color mode url max code rd :
  preserves (joining p r) (handle_sfu_join (B:=B) r p name color mode url max code rd).
Proof.
  unfold handle_sfu_join. apply preserves_bind; [apply sfu_handle_for_joining|intros h].
  solve_preserves. eauto 6 with wavis.
Qed.

Lemma evict_wf h id : preserves world_wf (evict (B:=B) h id).
Proof. unfold evict. solve_preserves. Qed.

#[local] Hint Resolve evict_wf : wavis.

Lemma handle_sfu_leave_wf r p rd : preserves world_wf (handle_sfu_leave (B:=B) r p rd).
Proof. unfold handle_sfu_leave, add_revoked_participant, drop_participant. solve_preserves. Qed.

Lemma handle_kick_wf r k role t rd : preserves world_wf (handle_kick (B:=B) r k role t rd).
Proof. unfold handle_kick, drop_participant. solve_preserves. eauto 6 with wavis. Qed.

Lemma handle_mute_wf r k role t : preserves world_wf (handle_mute (B:=B) r k role t).
Proof. unfold handle_mute. solve_preserves. Qed.

Lemma handle_unmute_wf r k role t : preserves world_wf (handle_unmute (B:=B) r k role t).
Proof. unfold handle_unmute. solve_preserves. Qed.

Lemma handle_viewer_token_request_wf r p u win mode url rd :
  preserves world_wf (handle_viewer_token_request (B:=B) r p u win mode url rd).
Proof. unfold handle_viewer_token_request. solve_preserves. Qed.

(** *** Room creation *)

Lemma create_and_enter_wf ty r p max avail rd w :
  rooms (w_rooms w) !! r = None → world_wf w →
  world_wf (create_and_enter (B:=B) ty r p max avail rd w).2.
Proof.
  intros Hr [Hrooms Hst]. unfold create_and_enter. destruct ty.
  - unfold mbind_, call_rooms, state, do_rooms, modify.
    pose proof (rooms_ok_enter_new p r (new_p2p (rd_created_at rd)) (rd_created_at rd) _ Hr
      ltac:(simpl; lia) (share_wf_new_p2p _) (one_ok_new_p2p _) Hrooms) as Hok.
    destruct (create_room _ _ _) as [b s]. by split.
  - destruct avail; [|by split]. unfold mbind_, map_err_m, call_bridge, call_rooms, state, do_rooms,
      modify, attempt. simpl.
    destruct (sfu_create_room r (w_bridge w)) as [[h|e] b]; simpl; [|by split].
    pose proof (rooms_ok_enter_new p r (new_sfu max h (rd_created_at rd)) (rd_created_at rd) _ Hr
      ltac:(pose proof (max_new_sfu max h (rd_created_at rd)); lia) (share_wf_new_sfu _ _ _) (one_ok_new_sfu _ _ _) Hrooms) as Hok.
    destruct (create_room _ _ _) as [x s]. simpl in *.
    destruct (sfu_add_participant h p b) as [[[]|e] b']; simpl; split; simpl; auto using rooms_ok_remove_peer.
Qed.

Lemma create_and_enter_invites ty r p max avail rd w :
  w_invites (create_and_enter (B:=B) ty r p max avail rd w).2 = w_invites w.
Proof.
  unfold create_and_enter. destruct ty.
  - unfold mbind_, call_rooms, state, do_rooms, modify. by destruct (create_room _ _ _).
  - destruct avail; [|done]. unfold mbind_, map_err_m, call_bridge, call_rooms, state, do_rooms,
      modify, attempt. simpl.
    destruct (sfu_create_room r (w_bridge w)) as [[h|e] b]; simpl; [|done].
    destruct (create_room _ _ _) as [x s]. simpl.
    by destruct (sfu_add_participant h p b) as [[[]|e] b'].
Qed.

(** The drawn invite code is new, and the store grants a non-negative number of uses. *)
Definition draw_ok (rd : Reads) (w : World B) : Prop :=
  invites (w_invites w) !! rd_invite_code rd = None ∧
  0 ≤ default_max_uses (invite_config (w_invites w)).

Lemma handle_create_room_wf r p name color hint max issuer mode url avail rd w :
  draw_ok rd w → world_wf w →
  world_wf (handle_create_room (B:=B) r p name color hint max issuer mode url avail rd w).2.
Proof.
  intros Hfresh Hw. unfold handle_create_room. destruct (str_is_empty (trim r)); [done|].
  unfold mbind_ at 1. unfold read_rooms, gets. simpl.
  destruct (get_room_info (trim r) (w_rooms w)) as [i|] eqn:Ei; [by rewrite bool_decide_true by eauto|].
  rewrite bool_decide_false by (by intros []).
  assert (rooms (w_rooms w) !! trim r = None) as Hr.
  { unfold get_room_info in Ei. by destruct (rooms (w_rooms w) !! trim r). }
  pose proof (create_and_enter_wf (determine_room_type hint max) _ p max avail rd w Hr Hw) as Hce.
  unfold mbind_ at 1.
  assert (w_invites (create_and_enter (B:=B) (determine_room_type hint max) (trim r) p max avail rd w).2 =
    w_invites w) as Hinv by apply create_and_enter_invites.
  destruct (create_and_enter _ _ _ _ _ _ w) as [[[]|e] w1]; [|done]. simpl in Hce, Hinv.
  unfold mbind_ at 1, attempt, call_invites.
  pose proof (generate_wf (rd_invite_code rd) (trim r) issuer None (rd_invite_now rd) (w_invites w1)
    (world_store_wf _ Hce)) as Hg.
  destruct (generate _ _ _ _ _ (w_invites w1)) as [res inv'].
  assert (world_wf (mkWorld (w_rooms w1) inv' (w_bridge w1))) as Hw2.
  { split; [apply Hce|]. apply Hg. simpl. by rewrite Hinv. }
  clear Hce Hg. revert Hw2. generalize (mkWorld (w_rooms w1) inv' (w_bridge w1)).
  destruct res as [record|e].
  - match goal with |- ∀ w, _ → world_wf (?m w).2 => change (preserves world_wf m) end. solve_preserves.
  - match goal with |- ∀ w, _ → world_wf (?m w).2 => change (preserves world_wf m) end. solve_preserves.
Qed.
End handler_invariant.

(** ** Requests *)

(** A request to the SFU room lifecycle. *)
Inductive SfuReq : Type :=
| ReqJoin (r : RoomId) (p : PeerId) (name : string) (color : option string) (mode : TokenMode)
    (url : string) (max : Z) (code : option string) (rd : Reads)
| ReqLeave (r : RoomId) (p : PeerId) (rd : Reads)
| ReqKick (r : RoomId) (k : PeerId) (role : ParticipantRole) (t : string) (rd : Reads)
| ReqMute (r : RoomId) (k : PeerId) (role : ParticipantRole) (t : string)
| ReqUnmute (r : RoomId) (k : PeerId) (role : ParticipantRole) (t : string)
| ReqViewerToken (r : RoomId) (p : PeerId) (u : option string) (win : string) (mode : TokenMode)
    (url : string) (rd : Reads)
| ReqCreate (r : RoomId) (p : PeerId) (name : string) (color hint : option string) (max : Z)
    (issuer : string) (mode : TokenMode) (url : string) (avail : bool) (rd : Reads).

Section requests.
Context {B : Type} `{SfuRoomManager B, JwtCodec MediaTokenClaims, LiveKitTokens}.

Definition run_req (q : SfuReq) (w : World B) : World B :=
  match q with
  | ReqJoin r p name color mode url max code rd =>
      (handle_sfu_join r p name color mode url max code rd w).2
  | ReqLeave r p rd => (handle_sfu_leave r p rd w).2
  | ReqKick r k role t rd => (handle_kick r k role t rd w).2
  | ReqMute r k role t => (handle_mute r k role t w).2
  | ReqUnmute r k role t => (handle_unmute r k role t w).2
  | ReqViewerToken r p u win mode url rd => (handle_viewer_token_request r p u win mode url rd w).2
  | ReqCreate r p name color hint max issuer mode url avail rd =>
      (handle_create_room r p name color hint max issuer mode url avail rd w).2
  end.

(** A join is by a peer of no other room; a creation draws a fresh invite code. *)
Definition req_ok (q : SfuReq) (w : World B) : Prop :=
  match q with
  | ReqJoin r p _ _ _ _ _ _ _ => peer_free p r (w_rooms w)
  | ReqCreate _ _ _ _ _ _ _ _ _ _ rd => draw_ok rd w
  | _ => True
  end.

Inductive req_step : World B → World B → Prop :=
| req_step_intro q w : req_ok q w → req_step w (run_req q w).

Lemma run_req_wf q w : req_ok q w → world_wf w → world_wf (run_req q w).
Proof.
  destruct q; simpl; intros Hok Hw.
  - by apply handle_sfu_join_joining.
  - by apply handle_sfu_leave_wf.
  - by apply handle_kick_wf.
  - by apply handle_mute_wf.
  - by apply handle_unmute_wf.
  - by apply handle_viewer_token_request_wf.
  - by apply handle_create_room_wf.
Qed.

(** C5: Through any sequence of joins, leaves, kicks, mutes, viewer-token requests and
    room creations, whatever the media server answers, whether or not tokens can be
    signed and whichever requests succeed or fail, the index and the peer lists stay
    consistent, every room stays within its capacity, the share slots stay well formed
    and the invite store balanced, provided that a join is made only by a peer that is
    in no other room at that moment, and that the invite code a creation draws is not
    in use.  The first condition is not idle: a room creation that fails on its media
    token leaves its creator listed, and a later join of that peer to another room is
    not covered. *)
Theorem sfu_world_invariant w w' :
  world_wf w → rtc req_step w w' →
  room_wf (w_rooms w') ∧ shares_wf (w_rooms w') ∧ store_wf (w_invites w') ∧
  ∀ r m, rooms (w_rooms w') !! r = Some m → len (peers m) ≤ max_participants (info m).
Proof.
  intros Hw Hrun.
  assert (world_wf w') as [[H1' H2' H3'] H4'].
  { apply (rtc_invariant req_step world_wf w); [|done..]. intros a b []. by apply run_req_wf. }
  split_and!; done.
Qed.

(** ** Moderation *)

(** Kicking, muting and unmuting are host actions: a guest's request fails
    with [Unauthorized] and leaves rooms, invites and the media server alone. *)
Theorem moderation_requires_host r k t rd (w : World B) :
  (∃ m, handle_kick r k Guest t rd w = (Err (SfuErr.Unauthorized m), w)) ∧
  (∃ m, handle_mute r k Guest t w = (Err (SfuErr.Unauthorized m), w)) ∧
  (∃ m, handle_unmute r k Guest t w = (Err (SfuErr.Unauthorized m), w)).
Proof. split_and!; eexists; reflexivity. Qed.

(** Running one step of a handler. *)
Lemma bind_read {E A C} (f : InMemoryRoomState → A) (k : A → M (World B) E C) w :
  mbind_ (read_rooms f) k w = k (f (w_rooms w)) w.
Proof. done. Qed.

Lemma bind_call_rooms {E A C} (f : InMemoryRoomState → A * InMemoryRoomState)
    (k : A → M (World B) E C) w :
  mbind_ (call_rooms f) k w =
    k (f (w_rooms w)).1 (mkWorld (f (w_rooms w)).2 (w_invites w) (w_bridge w)).
Proof. unfold mbind_, call_rooms, state. by destruct (f (w_rooms w)). Qed.

Lemma bind_do_rooms {E C} f (k : unit → M (World B) E C) w :
  mbind_ (do_rooms f) k w = k tt (mkWorld (f (w_rooms w)) (w_invites w) (w_bridge w)).
Proof. done. Qed.

Lemma evict_eq h id (w : World B) :
  evict h id w = (Ok tt, mkWorld (w_rooms w) (w_invites w) (w_bridge (evict h id w).2)).
Proof.
  unfold evict. destruct h as [h|]; [|by destruct w]. unfold mbind_, attempt, call_bridge.
  by destruct (sfu_remove_participant h id (w_bridge w)).
Qed.

Lemma bind_evict {C} h id (k : unit → M (World B) SfuError C) w :
  mbind_ (evict h id) k w =
    k tt (mkWorld (w_rooms w) (w_invites w) (w_bridge (evict h id w).2)).
Proof. unfold mbind_. by rewrite evict_eq. Qed.

Lemma evict_all_eq h ids (w : World B) :
  for_each (evict h) ids w =
    (Ok tt, mkWorld (w_rooms w) (w_invites w) (w_bridge (for_each (evict h) ids w).2)).
Proof.
  revert w. induction ids as [|id ids IH]; intros w; [by destruct w|].
  simpl. rewrite bind_evict. exact (IH (mkWorld (w_rooms w) (w_invites w) (w_bridge (evict h id w).2))).
Qed.

Lemma bind_evict_all {C} h ids (k : unit → M (World B) SfuError C) w :
  mbind_ (for_each (evict h) ids) k w =
    k tt (mkWorld (w_rooms w) (w_invites w) (w_bridge (for_each (evict h) ids w).2)).
Proof. unfold mbind_ at 1. by rewrite evict_all_eq. Qed.

(** What a kick leaves of the room table. *)
Definition kicked_rooms (r : RoomId) (t : string) (now : Instant) (s : InMemoryRoomState)
    : InMemoryRoomState :=
  update_room_info r (λ i, info_add_revoked_participant t now (drop_participant t i))
    (remove_peer t (update_room_info_capture r [] (take_viewer_identities t) s).2).

Lemma handle_kick_eq r k t rd (w : World B) :
  target_in_room r t (w_rooms w) = true →
  ∃ sigs b, handle_kick r k Host t rd w =
    (Ok sigs, mkWorld (kicked_rooms r t (rd_now rd) (w_rooms w)) (w_invites w) b).
Proof.
  intros Ht. unfold handle_kick. rewrite bool_decide_false by naive_solver.
  rewrite bind_read, Ht. cbn [negb].
  rewrite bind_read, bind_evict, bind_call_rooms, bind_evict_all, !bind_do_rooms.
  by eexists _, _.
Qed.

Lemma update_capture_lookup {A} r (a : A) f s m :
  rooms s !! r = Some m →
  rooms (update_room_info_capture r a f s).2 !! r = Some (mkRoomMembers (peers m) (f (info m)).2).
Proof.
  intros Hm. unfold update_room_info_capture. rewrite Hm. destruct (f (info m)). simpl.
  by rewrite lookup_insert_eq.
Qed.

Lemma kicked_rooms_spec r t now s m q :
  room_wf s → rooms s !! r = Some m → q ∈ peers m → q ≠ t →
  ∃ m', rooms (kicked_rooms r t now s) !! r = Some m' ∧
    revoked_participants (info m') !! t = Some now ∧
    viewers_of t (info m') = ∅ ∧ has_participant t (info m') = false.
Proof.
  intros Hwf Hm Hq Hne. unfold kicked_rooms.
  pose proof (update_capture_lookup r [] (take_viewer_identities t) s m Hm) as H1'.
  destruct (rooms_remove_peer_keeps t true _ r _ q H1' Hq Hne) as (m1 & Hm1 & Hi).
  fold (remove_peer t) in Hm1. eexists. split; [by apply update_capture_lookup|].
  simpl. rewrite Hi. split_and!.
  - by rewrite lookup_insert_eq.
  - unfold viewers_of. simpl. by rewrite lookup_delete_eq.
  - unfold has_participant. apply not_true_iff_false. intros (x & Hx & Hid)%existsb_exists.
    simpl in Hx. apply list_elem_of_In, elem_of_retain in Hx as [Hx _].
    apply bool_decide_eq_true in Hx, Hid. done.
Qed.

Lemma kicked_rooms_index r t now s :
  peer_to_room (kicked_rooms r t now s) = delete t (peer_to_room s).
Proof.
  unfold kicked_rooms. rewrite peer_to_room_update. unfold remove_peer.
  by rewrite peer_to_room_remove_peer_internal, peer_to_room_update_capture.
Qed.

(** The handle step of a join into an existing room leaves the table alone. *)
Lemma sfu_handle_for_existing r max now w m :
  rooms (w_rooms w) !! r = Some m →
  w_rooms (sfu_handle_for (B:=B) r max now w).2 = w_rooms w.
Proof.
  intros Hm. unfold sfu_handle_for. rewrite bind_read.
  unfold get_room_info. rewrite Hm. simpl. destruct (sfu_handle (info m)); [done|].
  unfold mbind_, call_bridge. destruct (sfu_create_room r (w_bridge w)) as [[h|e] b]; [|done].
  unfold call_rooms, state, create_room. simpl. by rewrite Hm.
Qed.

(** A participant revoked less than a token lifetime ago is turned away. *)
Lemma revoked_join_rejected r p name color mode url max code rd (w : World B) m t0 :
  rooms (w_rooms w) !! r = Some m →
  revoked_participants (info m) !! p = Some t0 →
  duration_since (rd_now rd) t0 < from_secs (token_ttl mode) →
  ∃ e w', handle_sfu_join r p name color mode url max code rd w = (Err e, w') ∧
    peer_to_room (w_rooms w') = peer_to_room (w_rooms w) ∧ w_invites w' = w_invites w.
Proof.
  intros Hm Hrev Ht. unfold handle_sfu_join. unfold mbind_ at 1.
  pose proof (sfu_handle_for_existing r max (rd_created_at rd) w m Hm) as Hr1.
  assert (w_invites (sfu_handle_for (B:=B) r max (rd_created_at rd) w).2 = w_invites w) as Hi1.
  { unfold sfu_handle_for. rewrite bind_read. case_match; [done|].
    unfold mbind_, call_bridge. destruct (sfu_create_room r (w_bridge w)) as [[h|e] b]; [|done].
    unfold call_rooms, state. by destruct (create_room _ _ _). }
  destruct (sfu_handle_for _ _ _ w) as [[h|e] w1]; simpl in *; [|by eexists _, w1; rewrite Hr1].
  unfold mbind_ at 1, call_bridge.
  destruct (sfu_add_participant h p (w_bridge w1)) as [[[]|e] b].
  2: { by eexists _, _; split_and!; [done|simpl; by rewrite Hr1|]. }
  rewrite bind_call_rooms. simpl. unfold is_participant_revoked.
  rewrite (with_room_write_eq _ _ _ m) by (by rewrite Hr1). simpl.
  rewrite bool_decide_true.
  - by eexists _, _; split_and!; [done|simpl; by rewrite Hr1|].
  - exists t0. by apply map_lookup_filter_Some.
Qed.

(** A kick by the host, with somebody else in the room, takes the target off
    the index, the participant list and the viewer identities, and for the
    lifetime of a media token afterwards every attempt of the target to join
    that room again fails without consuming an invite. *)
Theorem kicked_cannot_rejoin r k t q rd m (w : World B) :
  room_wf (w_rooms w) → rooms (w_rooms w) !! r = Some m →
  has_participant t (info m) = true → q ∈ peers m → q ≠ t →
  ∃ sigs w1, handle_kick r k Host t rd w = (Ok sigs, w1) ∧
    peer_to_room (w_rooms w1) !! t = None ∧ (t ∉ peers_at (w_rooms w1) r) ∧
    (∀ i, get_room_info r (w_rooms w1) = Some i → viewers_of t i = ∅ ∧ has_participant t i = false) ∧
    ∀ name color mode url max code rd',
      duration_since (rd_now rd') (rd_now rd) < from_secs (token_ttl mode) →
      ∃ e w2, handle_sfu_join r t name color mode url max code rd' w1 = (Err e, w2) ∧
        peer_to_room (w_rooms w2) !! t = None ∧ w_invites w2 = w_invites w.
Proof.
  intros Hwf Hm Ht Hq Hne.
  destruct (handle_kick_eq r k t rd w) as (sigs & b & Hk).
  { unfold target_in_room, get_room_info. by rewrite Hm. }
  destruct (kicked_rooms_spec r t (rd_now rd) _ m q Hwf Hm Hq Hne) as (m' & Hm' & Hrev & Hv & Hp).
  eexists sigs, _. split; [exact Hk|]. simpl.
  assert (peer_to_room (kicked_rooms r t (rd_now rd) (w_rooms w)) !! t = None) as Hidx
    by (rewrite kicked_rooms_index; apply lookup_delete_eq).
  split_and!; [done| | |].
  - intros Hin. assert (room_wf (kicked_rooms r t (rd_now rd) (w_rooms w))) as [Hw _].
    { unfold kicked_rooms. eapply room_wf_ext; [apply peer_to_room_update|intros; apply peers_at_update|].
      eapply room_wf_leave; [|intros; apply peers_at_remove_peer_internal
        |apply peer_to_room_remove_peer_internal].
      eapply room_wf_ext; [apply peer_to_room_update_capture|intros; apply peers_at_update_capture|done]. }
    apply Hw in Hin. by rewrite Hidx in Hin.
  - intros i. unfold get_room_info. rewrite Hm'. by intros [= <-].
  - intros name color mode url max code rd' Hd.
    destruct (revoked_join_rejected r t name color mode url max code rd'
      (mkWorld (kicked_rooms r t (rd_now rd) (w_rooms w)) (w_invites w) b) m' (rd_now rd) Hm' Hrev Hd)
      as (e & w2 & Hj & Hp2 & Hi2).
    exists e, w2. rewrite Hp2. done.
Qed.
End requests.

(** ** Joining *)

Section join_spec.
Context {B : Type} `{SfuRoomManager B, JwtCodec MediaTokenClaims, LiveKitTokens}.

(** The participant list a joiner is shown. *)
Definition participants_of (r : RoomId) (s : InMemoryRoomState) : list ParticipantInfo :=
  match get_room_info r s with Some i => participants i | None => [] end.

Lemma participants_of_create_room r i s :
  participants i = [] → participants_of r (create_room r i s).2 = participants_of r s.
Proof.
  intros Hi. unfold participants_of, get_room_info, create_room.
  destruct (rooms s !! r) eqn:E; simpl; [by rewrite E|]. by rewrite lookup_insert_eq.
Qed.

Lemma participants_of_is_revoked r p d now s :
  participants_of r (is_participant_revoked r p d now s).2 = participants_of r s.
Proof.
  unfold participants_of, get_room_info, is_participant_revoked, with_room_write.
  destruct (rooms s !! r) eqn:E; simpl; [|by rewrite E]. by rewrite lookup_insert_eq.
Qed.

Lemma sfu_handle_for_Ok r max now w h w1 :
  sfu_handle_for (B:=B) r max now w = (Ok h, w1) →
  participants_of r (w_rooms w1) = participants_of r (w_rooms w) ∧ w_invites w1 = w_invites w.
Proof.
  unfold sfu_handle_for. rewrite bind_read. case_match; [by intros [= <- <-]|].
  unfold mbind_, call_bridge. destruct (sfu_create_room r (w_bridge w)) as [[h'|e] b]; [|done].
  unfold call_rooms, state. simpl.
  pose proof (participants_of_create_room r (new_sfu max h' now) (w_rooms w) eq_refl) as Hp.
  destruct (create_room _ _ _) as [x s]. simpl in *. by intros [= <- <-].
Qed.

(** A successful atomic join, seen from the room. *)
Lemma try_add_room {X} p r (f : X → _) s x n s' x' :
  try_add_peer_with p r f s x = (Ok n, s', x') →
  ∃ m m', rooms s !! r = Some m ∧ rooms s' !! r = Some m' ∧ info m' = info m ∧ p ∈ peers m' ∧
    peer_to_room s' !! p = Some r.
Proof.
  unfold try_add_peer_with. destruct (rooms s !! r) as [m|] eqn:E; [|done]. unfold contains.
  case_bool_decide as Hc.
  - intros [= <- <- <-]. simpl. exists m, m. by rewrite lookup_insert_eq.
  - case_bool_decide; [done|]. destruct (f x) as [[]?]; [|done]. intros [= <- <- <-]. simpl.
    eexists m, _. rewrite !lookup_insert_eq. split_and!; try done. set_solver.
Qed.

(** A successful SFU join: the joiner is in the room and indexed there, is
    appended once to the participants the others see, has a token of its own,
    and is told the head count and the list that result; the invite store is as
    before or has spent exactly one use of the joiner's invite. *)
Theorem sfu_join_spec r p name color mode url max code rd (w w' : World B) sigs :
  handle_sfu_join r p name color mode url max code rd w = (Ok sigs, w') →
  ∃ m' token,
    rooms (w_rooms w') !! r = Some m' ∧ p ∈ peers m' ∧ peer_to_room (w_rooms w') !! p = Some r ∧
    participants (info m') = participants_of r (w_rooms w) ++ [new_participant p name None color] ∧
    token_issued_at (info m') !! p = Some (rd_token_now rd) ∧
    mint_token mode r p name rd = Ok token ∧
    sigs = join_signals r p name color (wrap_u32 (len (peers m'))) (participants_of r (w_rooms w))
      (Some (wire_of_share_permission (share_permission (info m')))) token url
      (share_state_snapshot r p (w_rooms w')) ∧
    (w_invites w' = w_invites w ∨
     consume_invite r code (rd_invite_now rd) (w_invites w) = (Ok tt, w_invites w')).
Proof.
  unfold handle_sfu_join. unfold mbind_ at 1.
  destruct (sfu_handle_for r max (rd_created_at rd) w) as [[h|e] w1] eqn:Eh; [|done].
  apply sfu_handle_for_Ok in Eh as [Hp1 Hi1]. unfold mbind_ at 1, call_bridge.
  destruct (sfu_add_participant h p (w_bridge w1)) as [[[]|e] b]; [|done].
  rewrite bind_call_rooms. cbn [w_rooms w_invites w_bridge].
  pose proof (participants_of_is_revoked r p (from_secs (token_ttl mode)) (rd_now rd) (w_rooms w1)) as Hp2.
  destruct (is_participant_revoked r p _ _ (w_rooms w1)) as [[|] s2]; [done|]. cbn [fst snd] in *.
  unfold mbind_ at 1, lift_result. destruct (mint_token mode r p name rd) as [token|e]; [|done].
  rewrite bind_read. cbn [w_rooms]. fold (participants_of r s2). rewrite Hp2, Hp1.
  unfold mbind_ at 1, map_err_m, join_rooms. cbn [w_rooms w_invites w_bridge]. rewrite Hi1.
  destruct (try_add_peer_with p r _ s2 (w_invites w)) as [[[n|e] s3] inv3] eqn:Et; [|done].
  cbn [map_err]. rewrite bind_do_rooms, !bind_read. cbn [w_rooms w_invites w_bridge].
  unfold mret. intros [= <- <-]. cbn [w_rooms w_invites].
  destruct (try_add_room _ _ _ _ _ _ _ _ Et) as (m & m3 & Hm & Hm3 & Hinfo & Hin & Hidx).
  pose proof (try_add_closure _ _ _ _ _ _ _ _ Et) as Hcl.
  unfold update_room_info. eexists _, token. split_and!.
  - by apply update_capture_lookup.
  - done.
  - by rewrite peer_to_room_update_capture.
  - simpl. rewrite Hinfo, <-Hp1, <-Hp2. unfold participants_of, get_room_info. by rewrite Hm.
  - simpl. by rewrite lookup_insert_eq.
  - done.
  - unfold peer_count, get_room_info.
    rewrite (update_capture_lookup r tt _ s3 m3 Hm3). done.
  - destruct (contains p (peers_at s2 r)); [by left|by right].
Qed.
End join_spec.

(** ** Viewer tokens *)

Section viewer_spec.
Context {B : Type} `{SfuRoomManager B, JwtCodec MediaTokenClaims, LiveKitTokens}.

(** A viewer token that is handed out comes from LiveKit mode in a live SFU
    room, carries a valid identity derived from the requester, grants hidden
    subscription and neither media nor data publication, and is recorded for
    cleanup; nobody's membership changes, whatever the outcome. *)
Theorem viewer_token_least_privilege r p u win mode url rd (w : World B) :
  let '(res, w') := handle_viewer_token_request r p u win mode url rd w in
  peer_to_room (w_rooms w') = peer_to_room (w_rooms w) ∧
  (∀ r', peers_at (w_rooms w') r' = peers_at (w_rooms w) r') ∧
  match res with
  | Err _ => True
  | Ok sigs =>
      ∃ key secret ttl token m',
        mode = LiveKit key secret ttl ∧ is_sfu_room r (w_rooms w) = true ∧
        let id := viewer_identity p u win in
        let tok := viewer_access_token r id key secret ttl in
        validate_identifier id "viewer_identity" = Ok tt ∧
        to_jwt tok = Ok token ∧
        can_publish (lk_grants tok) = false ∧ can_publish_data (lk_grants tok) = false ∧
        hidden (lk_grants tok) = true ∧
        sigs = [to_peer p (Msg.ViewerToken (mkViewerTokenPayload win token url id))] ∧
        rooms (w_rooms w') !! r = Some m' ∧ id ∈ viewers_of p (info m')
  end.
Proof.
  unfold handle_viewer_token_request. destruct (window_id_ok win); [cbn [negb]|done].
  rewrite bind_read. destruct (is_sfu_room r (w_rooms w)) eqn:Esfu; [cbn [negb]|done].
  rewrite bind_call_rooms. unfold is_participant_revoked.
  set (f := λ m, let '(b, i) := info_is_participant_revoked p (from_secs (token_ttl mode)) (rd_now rd) (info m) in
    (b, mkRoomMembers (peers m) i)).
  pose proof (peer_to_room_with_room_write r f (w_rooms w)) as Hp.
  pose proof (λ r', peers_at_with_room_write r f (w_rooms w) r' ltac:(done)) as Hl.
  assert (is_Some (rooms (with_room_write r f (w_rooms w)).2 !! r)) as [m1 Hm1].
  { unfold is_sfu_room, get_room_info in Esfu. destruct (rooms (w_rooms w) !! r) as [m|] eqn:E; [|done].
    rewrite (with_room_write_eq _ _ _ _ E). simpl. rewrite lookup_insert_eq. eauto. }
  destruct (with_room_write r f (w_rooms w)) as [x s1]. cbn [fst snd] in *.
  destruct (match x with Ok b => b | Err _ => false end); [done|].
  unfold mbind_ at 1, lift_result at 1.
  destruct (validate_identifier (viewer_identity p u win) "viewer_identity") as [[]|e] eqn:Eid; [|done].
  unfold mbind_ at 1, lift_result at 1.
  destruct (mint_viewer_token mode r (viewer_identity p u win)) as [token|e] eqn:Etok; [|done].
  rewrite bind_call_rooms. cbn [w_rooms w_invites w_bridge].
  pose proof (update_capture_lookup r false (record_viewer_identity p (viewer_identity p u win)) s1 m1 Hm1) as Hm2.
  pose proof (peer_to_room_update_capture r false (record_viewer_identity p (viewer_identity p u win)) s1) as Hp2.
  pose proof (peers_at_update_capture r false (record_viewer_identity p (viewer_identity p u win)) s1) as Hl2.
  assert ((update_room_info_capture r false (record_viewer_identity p (viewer_identity p u win)) s1).1 =
    (record_viewer_identity p (viewer_identity p u win) (info m1)).1) as Hrec.
  { unfold update_room_info_capture. rewrite Hm1. by destruct (record_viewer_identity _ _ _). }
  destruct (update_room_info_capture r false _ s1) as [rec s2]. cbn [fst snd] in *.
  assert (∀ b : bool, peer_to_room s2 = peer_to_room (w_rooms w) ∧
    (∀ r', peers_at s2 r' = peers_at (w_rooms w) r')) as Hsame.
  { intros _. split; [by rewrite Hp2|]. intros r'. by rewrite Hl2, Hl. }
  destruct rec; cbn [negb]; [|by split_and!; [apply (Hsame true)..|]].
  split_and!; [apply (Hsame true)..|]. unfold mret.
  destruct mode as [|key secret ttl]; [done|]. unfold mint_viewer_token, sign_livekit_viewer_token in Etok.
  do 2 (destruct (_ || _); [done|]).
  destruct (to_jwt (viewer_access_token r (viewer_identity p u win) key secret ttl)) as [t|] eqn:Ej;
    [|done]. simplify_eq/=.
  eexists key, secret, ttl, token, _. split_and!; [done..|exact Hm2|]. simpl.
  rewrite record_viewer_identity_eq in Hrec |- *. cbv zeta in *.
  case_bool_decide; [|done]. cbn [fst snd]. rewrite viewers_of_insert, decide_True by done. set_solver.
Qed.
End viewer_spec.

(** ** What the media server is told

    With the recording mock for the media server, the calls of a leave. *)

Section mock_calls.
Context `{JwtCodec MediaTokenClaims, LiveKitTokens}.
Import Mock.

Lemma evict_mock h id (w : World MockSfuBridge) :
  calls (w_bridge (evict (Some h) id w).2) =
    calls (w_bridge w) ++ [RemoveParticipant (handle_id h) id].
Proof. done. Qed.

Lemma evict_all_mock h ids (w : World MockSfuBridge) :
  calls (w_bridge (for_each (evict (Some h)) ids w).2) =
    calls (w_bridge w) ++ map (RemoveParticipant (handle_id h)) ids.
Proof.
  revert w. induction ids as [|id ids IH]; intros w; cbn [for_each map]; [by rewrite app_nil_r|].
  rewrite bind_evict, IH. cbn [w_bridge]. rewrite evict_mock. by rewrite <-app_assoc.
Qed.

Lemma retain_others_nil p (l : list PeerId) :
  NoDup l → p ∈ l → retain (λ q, bool_decide (q ≠ p)) l = [] ↔ l = [p].
Proof.
  intros Hn Hp. split.
  - intros Hr. assert (∀ q, q ∈ l → q = p) as Hall.
    { intros q Hq. destruct (decide (q = p)); [done|].
      assert (q ∈ retain (λ q, bool_decide (q ≠ p)) l) as Hin
        by (apply elem_of_retain; by rewrite bool_decide_eq_true).
      rewrite Hr in Hin. by apply not_elem_of_nil in Hin. }
    destruct l as [|a [|b l]]; [by apply not_elem_of_nil in Hp|f_equal; apply Hall; set_solver|].
    apply NoDup_cons in Hn as [Ha _]. destruct Ha. rewrite (Hall a), (Hall b) by set_solver. set_solver.
  - intros ->. simpl. by rewrite bool_decide_false by naive_solver.
Qed.

(** What a leave does to the room table. *)
Definition left_rooms (r : RoomId) (p : PeerId) (now : Instant) (s : InMemoryRoomState)
    : InMemoryRoomState :=
  let s1 := (update_room_info_capture r [] (take_viewer_identities p) s).2 in
  let s2 := (cleanup_share_on_disconnect r p s1).2 in
  add_revoked_participant r p now (update_room_info r (drop_participant p) (remove_peer p s2)).

Lemma cleanup_share_membership r p s :
  peer_to_room (cleanup_share_on_disconnect r p s).2 = peer_to_room s ∧
  ∀ r', peers_at (cleanup_share_on_disconnect r p s).2 r' = peers_at s r'.
Proof.
  unfold cleanup_share_on_disconnect.
  pose proof (peer_to_room_with_room_write r (cleanup_share_locked p) s) as Hp.
  pose proof (λ r', peers_at_with_room_write r (cleanup_share_locked p) s r') as Hl.
  destruct (with_room_write _ _ _) as [[x|x] t]; cbn [snd] in *; (split; [done|]); intros r'; apply Hl;
    intros m; unfold cleanup_share_locked; by case_bool_decide.
Qed.

Lemma left_rooms_index r p now s :
  peer_to_room (left_rooms r p now s) = delete p (peer_to_room s).
Proof.
  unfold left_rooms, add_revoked_participant. rewrite !peer_to_room_update. unfold remove_peer.
  rewrite peer_to_room_remove_peer_internal.
  destruct (cleanup_share_membership r p (update_room_info_capture r [] (take_viewer_identities p) s).2)
    as [-> _].
  by rewrite peer_to_room_update_capture.
Qed.

Lemma left_rooms_peers r p now s m :
  room_wf s → rooms s !! r = Some m → p ∈ peers m →
  peers_at (left_rooms r p now s) r = retain (λ q, bool_decide (q ≠ p)) (peers m).
Proof.
  intros Hwf Hm Hp. unfold left_rooms, add_revoked_participant. rewrite !peers_at_update.
  unfold remove_peer. rewrite peers_at_remove_peer_internal.
  destruct (cleanup_share_membership r p (update_room_info_capture r [] (take_viewer_identities p) s).2)
    as [-> ->].
  rewrite peers_at_update_capture, peer_to_room_update_capture, (peers_at_lookup _ _ _ Hm), decide_True; [done|].
  apply Hwf. by rewrite (peers_at_lookup _ _ _ Hm).
Qed.

Lemma peer_count_peers_at r s : peer_count r s = len (peers_at s r).
Proof. unfold peer_count. simpl. by destruct (rooms s !! r). Qed.

Lemma taken_viewers r p s m :
  rooms s !! r = Some m →
  (update_room_info_capture r [] (take_viewer_identities p) s).1 = elements (viewers_of p (info m)).
Proof.
  intros Hm. unfold update_room_info_capture. rewrite Hm. simpl. unfold viewers_of.
  by destruct (viewer_identities (info m) !! p).
Qed.

(** A leave releases everything the peer holds on the media server: the
    participant and each of its hidden viewers are removed, and the server room
    is destroyed exactly when the peer was the last one in it. *)
Theorem leave_releases_sfu r p rd (w : World MockSfuBridge) m h :
  room_wf (w_rooms w) → rooms (w_rooms w) !! r = Some m → sfu_handle (info m) = Some h →
  p ∈ peers m →
  ∃ sigs w', handle_sfu_leave r p rd w = (Ok sigs, w') ∧
    peer_to_room (w_rooms w') !! p = None ∧
    calls (w_bridge w') = calls (w_bridge w) ++ [RemoveParticipant (handle_id h) p] ++
      map (RemoveParticipant (handle_id h)) (elements (viewers_of p (info m))) ++
      (if decide (peers m = [p]) then [DestroyRoom (handle_id h)] else []).
Proof.
  intros Hwf Hm Hh Hp. unfold handle_sfu_leave. rewrite bind_read.
  assert (get_room_info r (w_rooms w) ≫= sfu_handle = Some h) as ->
    by (unfold get_room_info; by rewrite Hm).
  rewrite bind_call_rooms, bind_evict, bind_evict_all, bind_call_rooms, !bind_do_rooms, bind_read.
  cbn [w_rooms w_invites w_bridge]. fold (left_rooms r p (rd_now rd) (w_rooms w)).
  rewrite (taken_viewers _ _ _ _ Hm), peer_count_peers_at, (left_rooms_peers _ _ _ _ _ Hwf Hm Hp).
  assert (NoDup (peers m)) as Hn by (rewrite <-(peers_at_lookup _ _ _ Hm); apply Hwf).
  pose proof (retain_others_nil p (peers m) Hn Hp) as Hnil.
  assert (bool_decide (len (retain (λ q, bool_decide (q ≠ p)) (peers m)) = 0) =
    bool_decide (peers m = [p])) as ->.
  { apply bool_decide_ext. rewrite <-Hnil. destruct (retain _ _); simpl; split; intros; by try lia. }
  set (w1 := mkWorld (left_rooms r p (rd_now rd) (w_rooms w)) _ _).
  assert (calls (w_bridge w1) = calls (w_bridge w) ++ [RemoveParticipant (handle_id h) p] ++
    map (RemoveParticipant (handle_id h)) (elements (viewers_of p (info m)))) as Hc.
  { subst w1. cbn [w_bridge]. rewrite evict_all_mock. cbn [w_bridge]. rewrite evict_mock.
    cbn [w_bridge]. by rewrite <-app_assoc. }
  assert (peer_to_room (w_rooms w1) !! p = None) as Hidx
    by (subst w1; cbn [w_rooms]; rewrite left_rooms_index; apply lookup_delete_eq).
  clearbody w1. destruct (decide (peers m = [p])) as [He|He].
  - rewrite bool_decide_true by done. eexists _, _. split_and!; [done|exact Hidx|].
    simpl. rewrite Hc. by rewrite <-!app_assoc.
  - rewrite bool_decide_false by done. eexists _, _. split_and!; [done|exact Hidx|].
    rewrite Hc. by rewrite app_nil_r.
Qed.
End mock_calls.

(** ** A demonstration: [h] creates an SFU room, [g] joins it with the invite *)

Module SfuDemo.
Import Mock PlainJwt.

#[export] Instance demo_livekit : LiveKitTokens := {
  to_jwt t := Ok (grant_room (lk_grants t) +:+ "/" +:+ lk_identity t);
  VideoGrants_default := mkVideoGrants false EmptyString false false false false
}.

Definition demo_mode : TokenMode := Custom demo_secret "wavis-backend" 3600.
Definition demo_reads (n : Z) : Reads :=
  mkReads n n (Ok n) "jti" n n "code".
Definition world0 : World MockSfuBridge :=
  mkWorld InMemoryRoomState_new (InviteStore_new InviteStoreConfig_default) MockSfuBridge_new.

Definition demo_create : SfuReq :=
  ReqCreate "  r " "h" "Host" None (Some "sfu") 4 "h" demo_mode "url" true (demo_reads 0).
Definition demo_join : SfuReq :=
  ReqJoin "r" "g" "Guest" None demo_mode "url" 4 (Some "code") (demo_reads 1).
Definition world1 : World MockSfuBridge := run_req demo_create world0.
Definition world2 : World MockSfuBridge := run_req demo_join world1.
Definition demo_room : RoomMembers :=
  default (mkRoomMembers [] (new_p2p 0)) (rooms (w_rooms world2) !! "r").

Lemma world0_wf : world_wf world0.
Proof. split; [apply rooms_ok_new|]. by apply InviteStore_new_wf. Qed.

Lemma demo_create_ok : req_ok demo_create world0.
Proof. split; vm_compute; [reflexivity|discriminate]. Qed.

Lemma demo_join_ok : req_ok demo_join world1.
Proof. intros r0 Hr. vm_compute in Hr. congruence. Qed.

Lemma world2_wf : world_wf world2.
Proof. apply run_req_wf; [apply demo_join_ok|]. apply run_req_wf; [apply demo_create_ok|apply world0_wf]. Qed.

Lemma demo_room_eq : rooms (w_rooms world2) !! "r" = Some demo_room.
Proof. vm_compute. reflexivity. Qed.
End SfuDemo.

Section sfu_witnesses.
Import Mock PlainJwt SfuDemo.

Lemma sfu_world_invariant_witness :
  peers_at (w_rooms world2) "r" = ["h"; "g"] ∧
  ∀ r m, rooms (w_rooms world2) !! r = Some m → len (peers m) ≤ max_participants (info m).
Proof.
  split; [vm_compute; reflexivity|].
  refine (proj2 (proj2 (proj2 (sfu_world_invariant world0 world2 world0_wf _)))).
  eapply rtc_l; [exact (req_step_intro demo_create world0 demo_create_ok)|].
  eapply rtc_l; [exact (req_step_intro demo_join world1 demo_join_ok)|]. constructor.
Defined.

Lemma kicked_cannot_rejoin_witness :
  ∃ sigs w1, handle_kick "r" "h" Host "g" (demo_reads 10) world2 = (Ok sigs, w1) ∧
    ∃ e w2, handle_sfu_join "r" "g" "Guest" None demo_mode "url" 4 None (demo_reads 11) w1 = (Err e, w2).
Proof.
  destruct (kicked_cannot_rejoin "r" "h" "g" "h" (demo_reads 10) demo_room world2)
    as (sigs & w1 & Hk & _ & _ & _ & Hj).
  - apply world2_wf.
  - apply demo_room_eq.
  - vm_compute. reflexivity.
  - apply (bool_decide_eq_true_1 _). vm_compute. reflexivity.
  - discriminate.
  - exists sigs, w1. split; [exact Hk|].
    destruct (Hj "Guest" None demo_mode "url" 4 None (demo_reads 11)) as (e & w2 & He & _).
    { vm_compute. reflexivity. }
    exists e, w2. exact He.
Defined.

Lemma sfu_join_spec_witness :
  ∃ sigs w' m', handle_sfu_join "r" "g" "Guest" None demo_mode "url" 4 (Some "code") (demo_reads 1) world1
      = (Ok sigs, w') ∧ rooms (w_rooms w') !! "r" = Some m' ∧ "g" ∈ peers m'.
Proof.
  pose (res := handle_sfu_join "r" "g" "Guest" None demo_mode "url" 4 (Some "code") (demo_reads 1) world1).
  assert (is_Ok res.1 = true) as Hok by (vm_compute; reflexivity).
  assert (handle_sfu_join "r" "g" "Guest" None demo_mode "url" 4 (Some "code") (demo_reads 1) world1 = res)
    as E by reflexivity.
  clearbody res. destruct res as [[sigs|e] w']; [|discriminate Hok].
  destruct (sfu_join_spec "r" "g" "Guest" None demo_mode "url" 4 (Some "code") (demo_reads 1)
    world1 w' sigs E) as (m' & token & Hm & Hin & _).
  exists sigs, w', m'. split_and!; [exact E|exact Hm|exact Hin].
Defined.

Lemma leave_releases_sfu_witness :
  ∃ sigs w', handle_sfu_leave "r" "g" (demo_reads 20) world2 = (Ok sigs, w') ∧
    peer_to_room (w_rooms w') !! "g" = None.
Proof.
  destruct (leave_releases_sfu "r" "g" (demo_reads 20) world2 demo_room (mkSfuRoomHandle "r"))
    as (sigs & w' & He & Hp & _).
  - apply world2_wf.
  - apply demo_room_eq.
  - vm_compute. reflexivity.
  - apply (bool_decide_eq_true_1 _). vm_compute. reflexivity.
  - exists sigs, w'. split; [exact He|exact Hp].
Defined.

(** Room creation is not rolled back when the media token cannot be signed:
    with a secret that is too short the request fails, yet the room, its only
    peer, its participant entry and its invite all stay. *)
Theorem create_room_token_failure_leaks :
  let '(res, w) := handle_create_room "r" "h" "Host" None (Some "sfu") 4 "h"
                     (Custom "short" "wavis-backend" 3600) "url" true (demo_reads 0) world0 in
  res = Err (CreateErr.OfSfu (SfuErr.TokenError "SFU_JWT_SECRET must be at least 32 bytes")) ∧
  peers_at (w_rooms w) "r" = ["h"] ∧ peer_to_room (w_rooms w) !! "h" = Some "r" ∧
  total_invite_count (w_invites w) = 1 ∧
  (∀ i, get_room_info "r" (w_rooms w) = Some i → has_participant "h" i = true).
Proof.
  vm_compute. split_and!; try reflexivity. intros i [= <-]. reflexivity.
Qed.

(** Kicking the only participant of a room removes the room from the table
    without destroying it on the media server, and the revocation is lost with
    it: the kicked peer can join again at once. *)
Theorem kick_last_participant_forgets :
  let '(res, w) := handle_kick "r" "h" Host "h" (demo_reads 10) world1 in
  is_Ok res = true ∧ rooms (w_rooms w) !! "r" = None ∧
  (DestroyRoom "r" ∉ calls (w_bridge w)) ∧
  is_Ok (handle_sfu_join "r" "h" "Host" None demo_mode "url" 4 None (demo_reads 11) w).1 = true.
Proof.
  vm_compute. split_and!; try reflexivity.
  intros Hin. repeat (apply elem_of_cons in Hin as [Hin|Hin]; [discriminate|]).
  by apply not_elem_of_nil in Hin.
Qed.
End sfu_witnesses.
