(* ===== verification/SubRooms.v ===== *)
(** * Sub-rooms and passthrough (wavis-backend/src/voice/voice_orchestrator.rs)

    The sub-rooms of a voice room: who is in which one, when an empty one
    expires, and which pair of them hears each other.  Every operation is one
    critical section on the room; here its closure is a function on [RoomInfo]
    that returns the captured variables. *)

From S2P Require Import Prelude Signaling Invite RoomState ScreenShare SfuBridge Tokens SfuRelay.
Local Open Scope Z_scope.

(** [DEFAULT_SUB_ROOM_ID], [SUB_ROOM_DELETE_AFTER]. *)
Definition DEFAULT_SUB_ROOM_ID : string := "room-1".
Definition SUB_ROOM_DELETE_AFTER : Duration := from_secs 60.

(** [PendingSubRoomExpiry]. *)
Record PendingSubRoomExpiry : Type := mkPendingSubRoomExpiry {
  pe_sub_room_id : string;
  pe_delete_at : Instant
}.

(** [SubRoomActionResult]. *)
Record SubRoomActionResult : Type := mkSubRoomActionResult {
  sar_signals : list OutboundSignal;
  sar_expiry : option PendingSubRoomExpiry
}.

(** [SubRoomActionResult::default]. *)
Definition SubRoomActionResult_default : SubRoomActionResult := mkSubRoomActionResult [] None.

(** ** Field updates *)

Definition set_sub_rooms (f : list SubRoomInfo → list SubRoomInfo) (s : SubRoomState) : SubRoomState :=
  mkSubRoomState (f (sub_rooms s)) (participant_assignments s) (membership_sources s)
    (active_passthrough s) (passthrough_enabled s) (passthrough_volume_percent s)
    (passthrough_filters_enabled s) (passthrough_filter_strength s).
Definition set_assignment (f : gmap string string → gmap string string)
    (g : gmap string SubRoomMembershipSource → gmap string SubRoomMembershipSource)
    (s : SubRoomState) : SubRoomState :=
  mkSubRoomState (sub_rooms s) (f (participant_assignments s)) (g (membership_sources s))
    (active_passthrough s) (passthrough_enabled s) (passthrough_volume_percent s)
    (passthrough_filters_enabled s) (passthrough_filter_strength s).
Definition set_active_passthrough (x : option PassthroughPair) (s : SubRoomState) : SubRoomState :=
  mkSubRoomState (sub_rooms s) (participant_assignments s) (membership_sources s)
    x (passthrough_enabled s) (passthrough_volume_percent s)
    (passthrough_filters_enabled s) (passthrough_filter_strength s).
Definition set_enabled (b : bool) (s : SubRoomState) : SubRoomState :=
  mkSubRoomState (sub_rooms s) (participant_assignments s) (membership_sources s)
    (active_passthrough s) b (passthrough_volume_percent s)
    (passthrough_filters_enabled s) (passthrough_filter_strength s).
Definition set_volume (v : Z) (s : SubRoomState) : SubRoomState :=
  mkSubRoomState (sub_rooms s) (participant_assignments s) (membership_sources s)
    (active_passthrough s) (passthrough_enabled s) v
    (passthrough_filters_enabled s) (passthrough_filter_strength s).
Definition set_filter (b : bool) (n : Z) (s : SubRoomState) : SubRoomState :=
  mkSubRoomState (sub_rooms s) (participant_assignments s) (membership_sources s)
    (active_passthrough s) (passthrough_enabled s) (passthrough_volume_percent s) b n.

Definition set_ids (f : list string → list string) (r : SubRoomInfo) : SubRoomInfo :=
  mkSubRoomInfo (sub_room_id r) (room_number r) (is_default r) (f (participant_ids r)) (delete_at r).
Definition set_delete_at (d : option Instant) (r : SubRoomInfo) : SubRoomInfo :=
  mkSubRoomInfo (sub_room_id r) (room_number r) (is_default r) (participant_ids r) d.

(** ** Payloads *)

(** [wire_membership_source]. *)
Definition wire_membership_source (s : SubRoomMembershipSource) : WireSubRoomMembershipSource :=
  match s with Explicit => WireExplicit | LegacyRoomOneFallback => WireLegacyRoomOne end.

(** [delete_at_epoch_ms]; [clk] is the pair of clock reads, the monotonic one and
    the milliseconds since the Unix epoch. *)
Definition delete_at_epoch_ms (clk : Instant * Z) (d : Instant) : Z :=
  let remaining_ms := wrap_u64 (duration_since d clk.1 `div` 1000000) in
  (wrap_u64 clk.2 + remaining_ms) `min` (u64_modulus - 1).

(** [sub_room_info_payload]; every payload reads the clocks for itself. *)
Definition sub_room_info_payload (clks : string → Instant * Z) (room : SubRoomInfo)
    : SubRoomInfoPayload :=
  mkSubRoomInfoPayload (sub_room_id room) (room_number room) (is_default room) (participant_ids room)
    (delete_at_epoch_ms (clks (sub_room_id room)) <$> delete_at room).

(** [passthrough_label]. *)
Definition passthrough_label (a b : Z) : string := pretty a +:+ " - " +:+ pretty b.

(** [rooms.iter().find(|room| room.sub_room_id == id)]. *)
Definition has_id (id : string) (room : SubRoomInfo) : bool := bool_decide (sub_room_id room = id).
Definition find_sub_room (id : string) (s : SubRoomState) : option SubRoomInfo :=
  List.find (has_id id) (sub_rooms s).

(** [active_passthrough_payload]. *)
Definition active_passthrough_payload (s : SubRoomState) : option PassthroughStatePayload :=
  pp ← active_passthrough s;
  source_room ← find_sub_room (source_sub_room_id pp) s;
  target_room ← find_sub_room (target_sub_room_id pp) s;
  Some (mkPassthroughStatePayload (source_sub_room_id pp) (target_sub_room_id pp)
    (passthrough_label (room_number source_room) (room_number target_room))).

(** [normalize_passthrough_pair]. *)
Definition normalize_passthrough_pair (s : SubRoomState) (source_id target_id : string)
    : Result PassthroughPair string :=
  if bool_decide (source_id = target_id) then Err "passthrough requires a different target room"
  else
    match find_sub_room source_id s with
    | None => Err "source room not found"
    | Some source_room =>
        match find_sub_room target_id s with
        | None => Err "target room not found"
        | Some target_room =>
            if bool_decide (room_number source_room ≤ room_number target_room)
            then Ok (mkPassthroughPair (sub_room_id source_room) (sub_room_id target_room))
            else Ok (mkPassthroughPair (sub_room_id target_room) (sub_room_id source_room))
        end
    end.

(** [clear_invalid_passthrough_locked]. *)
Definition clear_invalid_passthrough_locked (s : SubRoomState) : SubRoomState :=
  match active_passthrough s with
  | None => s
  | Some pp =>
      let has_source := existsb (has_id (source_sub_room_id pp)) (sub_rooms s) in
      let has_target := existsb (has_id (target_sub_room_id pp)) (sub_rooms s) in
      if negb has_source || negb has_target ||
         bool_decide (source_sub_room_id pp = target_sub_room_id pp)
      then set_active_passthrough None s else s
  end.

(** [sub_room_state_payload]. *)
Definition sub_room_state_payload (clks : string → Instant * Z) (s : SubRoomState)
    : SubRoomStatePayload :=
  mkSubRoomStatePayload (map (sub_room_info_payload clks) (sub_rooms s))
    (active_passthrough_payload s) (passthrough_enabled s) (passthrough_volume_percent s)
    (passthrough_filters_enabled s) (passthrough_filter_strength s).

(** [sub_room_state_signals]. *)
Definition sub_room_state_signals (clks : string → Instant * Z) (room_id : RoomId)
    (s : InMemoryRoomState) : list OutboundSignal :=
  match get_room_info room_id s ≫= sub_room_state with
  | Some sub => [broadcast_all (Msg.SubRoomState (sub_room_state_payload clks sub))]
  | None => []
  end.

(** [participant_display_name]. *)
Definition participant_display_name (ps : list ParticipantInfo) (pid : string) : string :=
  match List.find (λ p, bool_decide (participant_id p = pid)) ps with
  | Some p => display_name p
  | None => pid
  end.

(** ** Operations *)

(** [ensure_room_sub_rooms]. *)
Definition ensure_room_sub_rooms (i : RoomInfo) : RoomInfo :=
  match sub_room_state i with
  | None => set_sub_room_state (Some (SubRoomState_new DEFAULT_SUB_ROOM_ID)) i
  | Some _ => i
  end.

(** [schedule_empty_room_if_needed]. *)
Definition schedule_empty_room_if_needed (id : string) (now : Instant) (s : SubRoomState)
    : option PendingSubRoomExpiry * SubRoomState :=
  match find_sub_room id s with
  | None => (None, s)
  | Some room =>
      if is_default room || negb (bool_decide (participant_ids room = [])) then
        (None, set_sub_rooms (update_first (has_id id) (set_delete_at None)) s)
      else
        let d := now + SUB_ROOM_DELETE_AFTER in
        (Some (mkPendingSubRoomExpiry (sub_room_id room) d),
         set_sub_rooms (update_first (has_id id) (set_delete_at (Some d))) s)
  end.

(** [if !ids.contains(p) { ids.push(p) }]. *)
Definition push_id (p : string) (ids : list string) : list string :=
  if contains p ids then ids else ids ++ [p].
Definition drop_id (p : string) : list string → list string := retain (λ q, bool_decide (q ≠ p)).

(** The closure of [sync_sub_room_state_on_voice_join]: the event it announces, if
    any, or [None] for a panic, which is what the [expect] does without a default
    room. *)
Definition sync_locked (participant_id : string) (supports_sub_rooms : bool) (s : SubRoomState)
    : option (option SignalingMessage) * SubRoomState :=
  let s := clear_invalid_passthrough_locked s in
  if supports_sub_rooms then
    (Some None, set_sub_rooms (map (set_ids (drop_id participant_id)))
             (set_assignment (delete participant_id) (delete participant_id) s))
  else
    match List.find is_default (sub_rooms s) with
    | None => (None, s)
    | Some default_room =>
        (Some (Some (Msg.SubRoomJoined (mkSubRoomJoinedPayload participant_id (sub_room_id default_room)
                 (wire_membership_source LegacyRoomOneFallback)))),
         set_assignment <[participant_id := sub_room_id default_room]>
           <[participant_id := LegacyRoomOneFallback]>
           (set_sub_rooms (update_first is_default
              (λ r, set_delete_at None (set_ids (push_id participant_id) r))) s))
    end.

(** A closure on the sub-room state of a room that has one. *)
Definition on_sub_rooms {A} (init : A) (f : SubRoomState → A * SubRoomState) (i : RoomInfo)
    : A * RoomInfo :=
  match sub_room_state i with
  | None => (init, i)
  | Some s => let '(a, s') := f s in (a, set_sub_room_state (Some s') i)
  end.

(** [sync_sub_room_state_on_voice_join]; [None] when its closure panics. *)
Definition sync_sub_room_state_on_voice_join (room_id : RoomId) (participant_id : string)
    (supports_sub_rooms : bool) (clks : string → Instant * Z) (s : InMemoryRoomState)
    : option SubRoomActionResult * InMemoryRoomState :=
  let '(captured, s') := update_room_info_capture room_id (Some None)
    (λ i, on_sub_rooms (Some None) (sync_locked participant_id supports_sub_rooms) (ensure_room_sub_rooms i)) s in
  ((λ joined, mkSubRoomActionResult
      ((match joined with Some e => [broadcast_all e] | None => [] end) ++
       sub_room_state_signals clks room_id s') None) <$> captured, s').

(** The number of the next sub-room: the largest in use plus one. *)
Definition next_room_number (s : SubRoomState) : Z :=
  wrap_u32 (foldr Z.max 0 (map room_number (sub_rooms s)) + 1).

(** The closure of [create_sub_room]. *)
Definition create_locked (now : Instant) (s : SubRoomState) : option SubRoomInfo * SubRoomState :=
  let s := clear_invalid_passthrough_locked s in
  let n := next_room_number s in
  let room := mkSubRoomInfo ("room-" +:+ pretty n) n false [] (Some (now + SUB_ROOM_DELETE_AFTER)) in
  (Some room, set_sub_rooms (λ l, l ++ [room]) s).

(** [create_sub_room]. *)
Definition create_sub_room (room_id : RoomId) (now : Instant) (clks clks' : string → Instant * Z)
    (s : InMemoryRoomState) : Result SubRoomActionResult string * InMemoryRoomState :=
  match update_room_info_capture room_id None
          (λ i, on_sub_rooms None (create_locked now) (ensure_room_sub_rooms i)) s with
  | (None, s') => (Err "room state unavailable", s')
  | (Some room, s') =>
      (Ok (mkSubRoomActionResult
         (broadcast_all (Msg.SubRoomCreated (mkSubRoomCreatedPayload (sub_room_info_payload clks room)))
          :: sub_room_state_signals clks' room_id s')
         (Some (mkPendingSubRoomExpiry (sub_room_id room) (now + SUB_ROOM_DELETE_AFTER)))), s')
  end.

(** What the closure of [join_sub_room] captures. *)
Definition JoinCapture : Type := Result (option SignalingMessage * option PendingSubRoomExpiry) string.

(** The closure of [join_sub_room]. *)
Definition join_locked (target_id participant_id : string) (now : Instant) (s : SubRoomState)
    : JoinCapture * SubRoomState :=
  let s := clear_invalid_passthrough_locked s in
  match find_sub_room target_id s with
  | None => (Err "room not found", s)
  | Some _ =>
      let previous := participant_assignments s !! participant_id in
      if bool_decide (previous = Some target_id) then (Ok (None, None), s)
      else
        let '(expiry, s1) :=
          match previous with
          | Some old_id =>
              schedule_empty_room_if_needed old_id now
                (set_sub_rooms (update_first (has_id old_id) (set_ids (drop_id participant_id))) s)
          | None => (None, s)
          end in
        (Ok (Some (Msg.SubRoomJoined (mkSubRoomJoinedPayload participant_id target_id WireExplicit)), expiry),
         set_assignment <[participant_id := target_id]> <[participant_id := Explicit]>
           (set_sub_rooms (update_first (has_id target_id)
              (λ r, set_delete_at None (set_ids (push_id participant_id) r))) s1))
  end.

(** [join_sub_room]. *)
Definition join_sub_room (voice_room_id : RoomId) (sub_room_id participant_id : string)
    (now : Instant) (clks : string → Instant * Z) (s : InMemoryRoomState)
    : Result SubRoomActionResult string * InMemoryRoomState :=
  match with_room_write voice_room_id (λ m,
          let '(r, i) := on_sub_rooms (Err "room state unavailable")
            (join_locked sub_room_id participant_id now) (ensure_room_sub_rooms (info m)) in
          (r, mkRoomMembers (peers m) i)) s with
  | (Err _, s') => (Err "voice session not found", s')
  | (Ok (Err e), s') => (Err e, s')
  | (Ok (Ok (joined, expiry)), s') =>
      (Ok (mkSubRoomActionResult
         ((match joined with Some e => [broadcast_all e] | None => [] end) ++
          sub_room_state_signals clks voice_room_id s') expiry), s')
  end.

(** The sub-room part of [leave_sub_room]: the room left, and its expiry. *)
Definition leave_locked (participant_id : string) (now : Instant) (s : SubRoomState)
    : option (string * option PendingSubRoomExpiry) * SubRoomState :=
  let s := clear_invalid_passthrough_locked s in
  match participant_assignments s !! participant_id with
  | None => (None, set_assignment id (delete participant_id) s)
  | Some current_id =>
      let s1 := set_sub_rooms (update_first (has_id current_id) (set_ids (drop_id participant_id)))
                  (set_assignment (delete participant_id) (delete participant_id) s) in
      let '(expiry, s2) := schedule_empty_room_if_needed current_id now s1 in
      (Some (current_id, expiry), s2)
  end.

(** The closure of [leave_sub_room]: leaving a sub-room ends the participant's
    shares. *)
Definition leave_sub_room_locked (participant_id : string) (now : Instant) (m : RoomMembers)
    : (option (string * option PendingSubRoomExpiry) * option SignalingMessage) * RoomMembers :=
  match on_sub_rooms None (leave_locked participant_id now) (info m) with
  | (None, i) => ((None, None), mkRoomMembers (peers m) i)
  | (Some lft, i) =>
      if bool_decide (participant_id ∈ active_shares i) then
        ((Some lft, Some (Msg.ShareStopped (mkShareStoppedPayload participant_id
            (participant_display_name (participants i) participant_id) None))),
         drop_shares participant_id (mkRoomMembers (peers m) i))
      else ((Some lft, None), mkRoomMembers (peers m) i)
  end.

(** [leave_sub_room]. *)
Definition leave_sub_room (room_id : RoomId) (participant_id : string) (now : Instant)
    (clks : string → Instant * Z) (s : InMemoryRoomState)
    : Result SubRoomActionResult string * InMemoryRoomState :=
  match with_room_write room_id (leave_sub_room_locked participant_id now) s with
  | (Err _, s') => (Err "voice session not found", s')
  | (Ok (lft, share_stopped), s') =>
      (Ok (mkSubRoomActionResult
         ((match lft with
           | Some (id, _) => [broadcast_all (Msg.SubRoomLeft (mkSubRoomLeftPayload participant_id id))]
           | None => []
           end) ++
          (match share_stopped with Some e => [broadcast_all e] | None => [] end) ++
          sub_room_state_signals clks room_id s')
         (lft ≫= snd)), s')
  end.

(** [remove_participant_from_sub_room]. *)
Definition remove_participant_from_sub_room (room_id : RoomId) (participant_id : string)
    (now : Instant) (clks : string → Instant * Z) (s : InMemoryRoomState)
    : SubRoomActionResult * InMemoryRoomState :=
  match leave_sub_room room_id participant_id now clks s with
  | (Ok r, s') => (r, s')
  | (Err _, s') => (SubRoomActionResult_default, s')
  end.

(** [active_pair.source == id || active_pair.target == id]. *)
Definition involves (id : string) (pp : PassthroughPair) : bool :=
  bool_decide (source_sub_room_id pp = id) || bool_decide (target_sub_room_id pp = id).

(** The closure of [set_passthrough]. *)
Definition set_passthrough_locked (participant_id target_id : string) (s : SubRoomState)
    : Result bool string * SubRoomState :=
  let s := clear_invalid_passthrough_locked s in
  if negb (passthrough_enabled s) then (Err "passthrough is disabled", s)
  else
    match participant_assignments s !! participant_id with
    | None => (Err "join a room to use passthrough", s)
    | Some source_id =>
        if match active_passthrough s with Some pp => negb (involves source_id pp) | None => false end
        then (Err "passthrough is controlled by the active room pair", s)
        else
          match normalize_passthrough_pair s source_id target_id with
          | Err e => (Err e, s)
          | Ok pp =>
              (Ok (bool_decide (active_passthrough s ≠ Some pp)), set_active_passthrough (Some pp) s)
          end
    end.

(** The closure of [clear_passthrough]. *)
Definition clear_passthrough_locked (participant_id : string) (s : SubRoomState)
    : Result bool string * SubRoomState :=
  let s := clear_invalid_passthrough_locked s in
  match participant_assignments s !! participant_id with
  | None => (Err "join a room to use passthrough", s)
  | Some source_id =>
      match active_passthrough s with
      | None => (Ok false, s)
      | Some pp =>
          if negb (involves source_id pp)
          then (Err "passthrough is controlled by the active room pair", s)
          else (Ok true, set_active_passthrough None s)
      end
  end.

(** Run a closure on the room and report the sub-room state when it changed. *)
Definition report_change (not_found : string) (no_state : Result bool string) (room_id : RoomId)
    (f : SubRoomState → Result bool string * SubRoomState) (clks : string → Instant * Z)
    (s : InMemoryRoomState) : Result SubRoomActionResult string * InMemoryRoomState :=
  match with_room_write room_id (λ m,
          let '(r, i) := on_sub_rooms no_state f (info m) in (r, mkRoomMembers (peers m) i)) s with
  | (Err _, s') => (Err not_found, s')
  | (Ok (Err e), s') => (Err e, s')
  | (Ok (Ok false), s') => (Ok SubRoomActionResult_default, s')
  | (Ok (Ok true), s') => (Ok (mkSubRoomActionResult (sub_room_state_signals clks room_id s') None), s')
  end.

(** [set_passthrough] and [clear_passthrough]. *)
Definition set_passthrough (room_id : RoomId) (participant_id target_sub_room_id : string) :=
  report_change "voice session not found" (Err "room state unavailable") room_id
    (set_passthrough_locked participant_id target_sub_room_id).
Definition clear_passthrough (room_id : RoomId) (participant_id : string) :=
  report_change "voice session not found" (Err "room state unavailable") room_id
    (clear_passthrough_locked participant_id).

(** [set_passthrough_enabled]; [db] is the outcome of the channel update: the
    parse of the channel id, the number of rows, or the database's error. *)
Definition set_passthrough_enabled (db : Result Z string) (room_id : RoomId) (enabled : bool)
    (clks : string → Instant * Z) (s : InMemoryRoomState)
    : Result SubRoomActionResult string * InMemoryRoomState :=
  match db with
  | Err e => (Err e, s)
  | Ok rows =>
      if bool_decide (rows ≠ 1) then (Err "channel not found", s)
      else
        report_change "voice session not found" (Ok false) room_id (λ sub,
          if bool_decide (passthrough_enabled sub = enabled) then (Ok false, sub)
          else (Ok true, set_enabled enabled sub)) clks s
  end.

(** [set_passthrough_volume]. *)
Definition set_passthrough_volume (room_id : RoomId) (volume_percent : Z)
    (clks : string → Instant * Z) (s : InMemoryRoomState) : SubRoomActionResult * InMemoryRoomState :=
  let clamped := volume_percent `min` 100 in
  match report_change EmptyString (Ok false) room_id (λ sub,
          if bool_decide (passthrough_volume_percent sub = clamped) then (Ok false, sub)
          else (Ok true, set_volume clamped sub)) clks s with
  | (Ok r, s') => (r, s')
  | (Err _, s') => (SubRoomActionResult_default, s')
  end.

(** [set_passthrough_filter]. *)
Definition set_passthrough_filter (room_id : RoomId) (enabled : bool) (strength : Z) :=
  let clamped := strength `min` 100 in
  report_change "room not found" (Ok false) room_id (λ sub,
    if bool_decide (passthrough_filters_enabled sub = enabled ∧ passthrough_filter_strength sub = clamped)
    then (Ok false, sub) else (Ok true, set_filter enabled clamped sub)).

(** [rooms.remove(idx)] of the first room with the id. *)
Fixpoint remove_first {A} (p : A → bool) (l : list A) : list A :=
  match l with
  | [] => []
  | x :: l' => if p x then l' else x :: remove_first p l'
  end.

(** The closure of [expire_sub_room]. *)
Definition expire_locked (id : string) (expected_delete_at : Instant) (s : SubRoomState)
    : bool * SubRoomState :=
  let s := clear_invalid_passthrough_locked s in
  match find_sub_room id s with
  | None => (false, s)
  | Some room =>
      if is_default room || negb (bool_decide (participant_ids room = [])) ||
         bool_decide (delete_at room ≠ Some expected_delete_at)
      then (false, s)
      else (true, clear_invalid_passthrough_locked (set_sub_rooms (remove_first (has_id id)) s))
  end.

(** [expire_sub_room]. *)
Definition expire_sub_room (room_id : RoomId) (id : string) (expected_delete_at : Instant)
    (clks : string → Instant * Z) (s : InMemoryRoomState) : SubRoomActionResult * InMemoryRoomState :=
  match with_room_write room_id (λ m,
          let '(d, i) := on_sub_rooms false (expire_locked id expected_delete_at) (info m) in
          (d, mkRoomMembers (peers m) i)) s with
  | (Ok true, s') =>
      (mkSubRoomActionResult
         (broadcast_all (Msg.SubRoomDeleted (mkSubRoomDeletedPayload id))
          :: sub_room_state_signals clks room_id s') None, s')
  | (_, s') => (SubRoomActionResult_default, s')
  end.

(** ** ROOM 1 stays *)

(** A closure that leaves ROOM 1 in place, whatever else holds of the state. *)
Definition keeps_one {R} (f : SubRoomState → R * SubRoomState) : Prop := ∀ s, has_one s → has_one (f s).2.

Lemma has_one_ext s s' : map is_default (sub_rooms s') = map is_default (sub_rooms s) → has_one s → has_one s'.
Proof. intros E. unfold has_one. by rewrite E. Qed.

Lemma clear_invalid_sub_rooms s : sub_rooms (clear_invalid_passthrough_locked s) = sub_rooms s.
Proof. unfold clear_invalid_passthrough_locked. by repeat case_match. Qed.

Lemma has_one_clear s : has_one (clear_invalid_passthrough_locked s) ↔ has_one s.
Proof. unfold has_one. by rewrite clear_invalid_sub_rooms. Qed.

Lemma has_one_update p g s :
  (∀ x, is_default (g x) = is_default x) → has_one s → has_one (set_sub_rooms (update_first p g) s).
Proof. intros Hg. apply has_one_ext. simpl. by apply update_first_map. Qed.

Lemma has_one_schedule id now s : has_one s → has_one (schedule_empty_room_if_needed id now s).2.
Proof.
  intros Hs. unfold schedule_empty_room_if_needed. destruct (find_sub_room id s); [|done].
  case_match; by apply has_one_update.
Qed.

Lemma has_one_find s : has_one s → is_Some (List.find is_default (sub_rooms s)).
Proof.
  unfold has_one. induction (sub_rooms s) as [|x l IH]; simpl; [intros H; by apply not_elem_of_nil in H|].
  destruct (is_default x); [by eauto|]. intros [?|?]%elem_of_cons; [done|auto].
Qed.

Lemma has_one_new : has_one (SubRoomState_new DEFAULT_SUB_ROOM_ID).
Proof. by apply list_elem_of_here. Qed.

Lemma sync_locked_one p b : keeps_one (sync_locked p b).
Proof.
  intros s Hs. apply has_one_clear in Hs. unfold sync_locked. destruct b; cbn [snd].
  - revert Hs. apply has_one_ext. simpl. rewrite map_map. done.
  - destruct (List.find _ _); [|done]. by apply has_one_update.
Qed.

(** The [expect] of the closure finds ROOM 1. *)
Lemma sync_locked_finds_one p b s : has_one s → is_Some (sync_locked p b s).1.
Proof.
  intros Hs. apply has_one_clear in Hs. unfold sync_locked. destruct b; [by eauto|].
  destruct (has_one_find _ Hs) as [r ->]. by eauto.
Qed.

Lemma create_locked_one now : keeps_one (create_locked now).
Proof.
  intros s Hs. apply has_one_clear in Hs. unfold create_locked, has_one in *. cbn [snd]. simpl.
  rewrite map_app. by apply elem_of_app; left.
Qed.

Lemma join_locked_one id p now : keeps_one (join_locked id p now).
Proof.
  intros s Hs. apply has_one_clear in Hs. unfold join_locked. destruct (find_sub_room id _); [|done].
  case_bool_decide; [done|]. destruct (participant_assignments _ !! p) as [old|].
  - pose proof (has_one_schedule old now _ (has_one_update (has_id old) (set_ids (drop_id p)) _ (λ x, eq_refl) Hs)) as H1.
    destruct (schedule_empty_room_if_needed _ _ _) as [e s1]. by apply (has_one_update (has_id id)).
  - by apply (has_one_update (has_id id)).
Qed.

Lemma leave_locked_one p now : keeps_one (leave_locked p now).
Proof.
  intros s Hs. apply has_one_clear in Hs. unfold leave_locked.
  destruct (participant_assignments _ !! p) as [old|]; [|done].
  match goal with |- context [schedule_empty_room_if_needed _ _ ?x] => assert (has_one x) as H1 end.
  { by apply (has_one_update (has_id old) (set_ids (drop_id p))). }
  apply (has_one_schedule old now) in H1. by destruct (schedule_empty_room_if_needed _ _ _).
Qed.

Lemma set_passthrough_locked_one p t : keeps_one (set_passthrough_locked p t).
Proof. intros s Hs. apply has_one_clear in Hs. unfold set_passthrough_locked. by repeat case_match. Qed.

Lemma clear_passthrough_locked_one p : keeps_one (clear_passthrough_locked p).
Proof. intros s Hs. apply has_one_clear in Hs. unfold clear_passthrough_locked. by repeat case_match. Qed.

Lemma remove_first_one id l r :
  List.find (has_id id) l = Some r → is_default r = false →
  true ∈ map is_default l → true ∈ map is_default (remove_first (has_id id) l).
Proof.
  induction l as [|x l IH]; simpl; [done|]. destruct (has_id id x).
  - intros [= ->] ->. by intros [?|?]%elem_of_cons.
  - intros Hf Hr [Hx|Hx]%elem_of_cons; simpl; apply elem_of_cons; auto.
Qed.

Lemma expire_locked_one id d : keeps_one (expire_locked id d).
Proof.
  intros s Hs. apply has_one_clear in Hs. unfold expire_locked.
  destruct (find_sub_room id _) as [r|] eqn:Er; [|done].
  destruct (is_default r) eqn:Ed; [done|]. case_match; [done|]. cbn [snd]. apply has_one_clear.
  by eapply remove_first_one.
Qed.

Lemma on_sub_rooms_one {A} (a : A) f i : keeps_one f → one_ok i → one_ok (on_sub_rooms a f i).2.
Proof.
  intros Hf Hi. unfold on_sub_rooms. destruct (sub_room_state i) as [sub|] eqn:E; [|done].
  specialize (Hf sub (Hi sub E)). destruct (f sub) as [x sub']. by intros ? [= <-].
Qed.

Lemma ensure_one i : one_ok i → one_ok (ensure_room_sub_rooms i).
Proof.
  intros Hi. unfold ensure_room_sub_rooms. destruct (sub_room_state i); [done|].
  intros sub [= <-]. apply has_one_new.
Qed.

(** In a room whose sub-rooms contain ROOM 1, a voice join finds it. *)
Lemma sync_finds_one r p b clks s :
  (∀ m, rooms s !! r = Some m → one_ok (info m)) →
  is_Some (sync_sub_room_state_on_voice_join r p b clks s).1.
Proof.
  intros Hs. unfold sync_sub_room_state_on_voice_join, update_room_info_capture.
  destruct (rooms s !! r) as [m|] eqn:E; [|by eauto].
  pose proof (ensure_one _ (Hs m eq_refl)) as Hone. unfold on_sub_rooms.
  destruct (sub_room_state (ensure_room_sub_rooms (info m))) as [sub|] eqn:Es; [|by eauto].
  destruct (sync_locked_finds_one p b sub (Hone sub Es)) as [j Hj].
  destruct (sync_locked p b sub) as [x sub']. simpl in *. rewrite Hj. by eauto.
Qed.

(** ** Lookups by id *)

Lemma find_has_id id l r : List.find (has_id id) l = Some r → sub_room_id r = id.
Proof. intros [_ H]%find_some_elem_of. by apply bool_decide_eq_true in H. Qed.

Lemma find_sub_room_id id s r : find_sub_room id s = Some r → sub_room_id r = id.
Proof. apply find_has_id. Qed.

Lemma find_update id g s id' :
  (∀ x, sub_room_id (g x) = sub_room_id x) →
  find_sub_room id' (set_sub_rooms (update_first (has_id id) g) s) =
    if decide (id = id') then g <$> find_sub_room id' s else find_sub_room id' s.
Proof.
  intros Hg. unfold find_sub_room. simpl. induction (sub_rooms s) as [|x l IH]; simpl; [by case_decide|].
  unfold has_id in *. destruct (bool_decide (sub_room_id x = id)) eqn:Ex; simpl; rewrite ?Hg.
  - apply bool_decide_eq_true in Ex. rewrite Ex. case_bool_decide; case_decide; done.
  - apply bool_decide_eq_false in Ex. case_bool_decide; [|apply IH].
    rewrite decide_False by congruence. done.
Qed.

Lemma ids_update id g s :
  (∀ x, sub_room_id (g x) = sub_room_id x) →
  map sub_room_id (sub_rooms (set_sub_rooms (update_first (has_id id) g) s)) =
  map sub_room_id (sub_rooms s).
Proof. intros Hg. simpl. by apply update_first_map. Qed.

Lemma find_is_Some_ids id s : is_Some (find_sub_room id s) ↔ id ∈ map sub_room_id (sub_rooms s).
Proof.
  unfold find_sub_room. induction (sub_rooms s) as [|x l IH]; simpl.
  - split; [by intros []|intros H; by apply not_elem_of_nil in H].
  - unfold has_id in *. rewrite elem_of_cons. case_bool_decide; [split; [by left|eauto]|].
    rewrite IH. naive_solver.
Qed.

Lemma existsb_has_id id s : existsb (has_id id) (sub_rooms s) = bool_decide (is_Some (find_sub_room id s)).
Proof.
  unfold find_sub_room. induction (sub_rooms s) as [|x l IH]; simpl; [done|].
  unfold has_id in *. destruct (bool_decide (sub_room_id x = id)); simpl; [|apply IH].
  done.
Qed.

(** The deadline of a room: none for the default room and for occupied rooms. *)
Definition reschedule (now : Instant) (r : SubRoomInfo) : SubRoomInfo :=
  set_delete_at (if is_default r || negb (bool_decide (participant_ids r = []))
                 then None else Some (now + SUB_ROOM_DELETE_AFTER)) r.

(** Taking a participant out of a room and scheduling the room. *)
Definition vacate (p id : string) (now : Instant) (s : SubRoomState)
    : option PendingSubRoomExpiry * SubRoomState :=
  schedule_empty_room_if_needed id now (set_sub_rooms (update_first (has_id id) (set_ids (drop_id p))) s).

Lemma vacate_find p id now s id' :
  find_sub_room id' (vacate p id now s).2 =
    if decide (id = id') then reschedule now ∘ set_ids (drop_id p) <$> find_sub_room id' s
    else find_sub_room id' s.
Proof.
  unfold vacate, schedule_empty_room_if_needed. rewrite find_update by done.
  rewrite decide_True by done. destruct (find_sub_room id s) as [r|] eqn:E; simpl.
  - destruct (is_default r || _) eqn:Ed; cbn [snd]; rewrite !find_update by done;
      case_decide; subst; try done; rewrite E; simpl; unfold reschedule; simpl; by rewrite Ed.
  - rewrite find_update by done. case_decide; subst; [|done]. by rewrite E.
Qed.

Lemma vacate_frame p id now s :
  map sub_room_id (sub_rooms (vacate p id now s).2) = map sub_room_id (sub_rooms s) ∧
  participant_assignments (vacate p id now s).2 = participant_assignments s ∧
  active_passthrough (vacate p id now s).2 = active_passthrough s.
Proof.
  unfold vacate, schedule_empty_room_if_needed.
  case_match; [case_match|]; cbn [snd]; rewrite ?ids_update by done; done.
Qed.

(** ** The sub-room invariant *)

(** A room: its id spells its number, number 1 is the default, nobody is listed
    twice, and exactly the empty rooms other than the default have a deadline. *)
Record room_ok (id : string) (r : SubRoomInfo) : Prop := mk_room_ok {
  ro_id : id = "room-" +:+ pretty (room_number r);
  ro_number : 1 ≤ room_number r;
  ro_default : is_default r = true ↔ room_number r = 1;
  ro_nodup : NoDup (participant_ids r);
  ro_timer : delete_at r = None ↔ is_default r = true ∨ participant_ids r ≠ []
}.

Record sub_wf (s : SubRoomState) : Prop := mk_sub_wf {
  sw_ids : NoDup (map sub_room_id (sub_rooms s));
  sw_rooms : ∀ id r, find_sub_room id s = Some r → room_ok id r;
  sw_one : is_Some (find_sub_room DEFAULT_SUB_ROOM_ID s);
  sw_assign : ∀ p id, participant_assignments s !! p = Some id ↔
    ∃ r, find_sub_room id s = Some r ∧ p ∈ participant_ids r;
  sw_pair : ∀ pp, active_passthrough s = Some pp → ∃ r1 r2,
    find_sub_room (source_sub_room_id pp) s = Some r1 ∧
    find_sub_room (target_sub_room_id pp) s = Some r2 ∧ room_number r1 < room_number r2
}.

Lemma sub_wf_new : sub_wf (SubRoomState_new DEFAULT_SUB_ROOM_ID).
Proof.
  split; simpl.
  - apply NoDup_singleton.
  - intros id r. unfold find_sub_room, has_id; simpl. case_bool_decide; [|done].
    intros [= <-]. subst. split; simpl; [reflexivity|lia|done|constructor|].
    split; [by left|done].
  - by eexists.
  - intros p id. rewrite lookup_empty. split; [done|].
    intros (r & Hr & Hp). revert Hr. unfold find_sub_room, has_id; simpl.
    case_bool_decide; [|done]. intros [= <-]. by apply not_elem_of_nil in Hp.
  - done.
Qed.

(** Under the invariant the active pair is valid, so clearing is the identity. *)
Lemma clear_invalid_wf s : sub_wf s → clear_invalid_passthrough_locked s = s.
Proof.
  intros Hwf. unfold clear_invalid_passthrough_locked.
  destruct (active_passthrough s) as [pp|] eqn:E; [|done].
  destruct (sw_pair _ Hwf _ E) as (r1 & r2 & H1 & H2 & Hlt).
  rewrite !existsb_has_id, H1, H2. simpl. rewrite bool_decide_false; [done|].
  intros Heq. rewrite Heq in H1. simplify_eq. lia.
Qed.

(** Rooms whose invariant does not depend on who else is where. *)
Lemma room_ok_vacate p id now r : room_ok id r → room_ok id (reschedule now (set_ids (drop_id p) r)).
Proof.
  intros [H1 H2 H3 H4 H5]. split; simpl; [done..|by apply NoDup_retain|].
  destruct (is_default r); simpl; [split; [by left|done]|]. case_bool_decide; simpl; naive_solver.
Qed.

Lemma elem_of_drop_id p q l : q ∈ drop_id p l ↔ q ≠ p ∧ q ∈ l.
Proof. unfold drop_id. by rewrite elem_of_retain, bool_decide_eq_true. Qed.

Lemma elem_of_push_id p q l : q ∈ push_id p l ↔ q = p ∨ q ∈ l.
Proof. unfold push_id, contains. case_bool_decide; set_solver. Qed.

Lemma room_ok_push p id r :
  room_ok id r → room_ok id (set_delete_at None (set_ids (push_id p) r)).
Proof.
  intros [H1 H2 H3 H4 H5]. split; simpl; [done..| |].
  - unfold push_id, contains. case_bool_decide; [done|].
    apply NoDup_app; split_and!; [done|set_solver|apply NoDup_singleton].
  - split; [|done]. intros _. right. unfold push_id. destruct (contains _ _) eqn:Ec.
    + intros He. rewrite He in Ec. apply bool_decide_eq_true in Ec. by apply not_elem_of_nil in Ec.
    + by destruct (participant_ids r).
Qed.

(** The invariant is about the ids, the rooms by id, the assignments and the pair. *)
Lemma sub_wf_intro s s' :
  sub_wf s →
  map sub_room_id (sub_rooms s') = map sub_room_id (sub_rooms s) →
  (∀ id r, find_sub_room id s' = Some r → room_ok id r) →
  (∀ id r', find_sub_room id s' = Some r' → ∃ r, find_sub_room id s = Some r ∧ room_number r' = room_number r) →
  (∀ p id, participant_assignments s' !! p = Some id ↔
    ∃ r, find_sub_room id s' = Some r ∧ p ∈ participant_ids r) →
  active_passthrough s' = active_passthrough s →
  sub_wf s'.
Proof.
  intros Hwf Hids Hok Hnum Has Hpp. split; [by rewrite Hids; apply Hwf|done| |done|].
  - apply find_is_Some_ids. rewrite Hids. apply find_is_Some_ids, Hwf.
  - intros pp. rewrite Hpp. intros (r1 & r2 & H1 & H2 & Hlt)%(sw_pair _ Hwf).
    assert (∀ id r, find_sub_room id s = Some r →
      ∃ r', find_sub_room id s' = Some r' ∧ room_number r' = room_number r) as Hback.
    { intros id r Hr. assert (is_Some (find_sub_room id s')) as [r' Hr'].
      { apply find_is_Some_ids. rewrite Hids. apply find_is_Some_ids. eauto. }
      destruct (Hnum _ _ Hr') as (r0 & Hr0 & Hn). simplify_eq. eauto. }
    destruct (Hback _ _ H1) as (r1' & ? & ?), (Hback _ _ H2) as (r2' & ? & ?).
    exists r1', r2'. split_and!; [done..|lia].
Qed.

Lemma sub_wf_ext s s' :
  sub_rooms s' = sub_rooms s → participant_assignments s' = participant_assignments s →
  active_passthrough s' = active_passthrough s → sub_wf s → sub_wf s'.
Proof.
  intros Hr Ha Hp [H1 H2 H3 H4 H5].
  assert (∀ id, find_sub_room id s' = find_sub_room id s) as Hf
    by (intros id; unfold find_sub_room; by rewrite Hr).
  split; [by rewrite Hr|..].
  - intros id r. rewrite Hf. apply H2.
  - by rewrite Hf.
  - intros p id. rewrite Ha, Hf. apply H4.
  - intros pp. rewrite Hp, !Hf. apply H5.
Qed.

(** A participant is in the room it is assigned to and in no other. *)
Lemma assigned_unique s p id r :
  sub_wf s → find_sub_room id s = Some r → p ∈ participant_ids r →
  participant_assignments s !! p = Some id.
Proof. intros Hwf Hr Hp. apply (sw_assign _ Hwf). eauto. Qed.

(** Leaving: the room loses the participant and, if that empties it, gets a deadline. *)
Lemma vacate_wf s p old now g :
  sub_wf s → participant_assignments s !! p = Some old →
  sub_wf (set_assignment (delete p) g (vacate p old now s).2).
Proof.
  intros Hwf Hp. destruct (vacate_frame p old now s) as (Hids & Has & Hpp).
  assert (∀ id, find_sub_room id (set_assignment (delete p) g (vacate p old now s).2) =
    find_sub_room id (vacate p old now s).2) as Hf by done.
  apply (sub_wf_intro s); [done|done|..|done].
  - intros id r. rewrite Hf, vacate_find. case_decide; [|apply Hwf]. subst.
    destruct (find_sub_room id s) as [r0|] eqn:E; [|done]. intros [= <-].
    apply room_ok_vacate, (sw_rooms _ Hwf _ _ E).
  - intros id r'. rewrite Hf, vacate_find. case_decide; [|by eauto].
    destruct (find_sub_room id s) as [r0|]; [|done]. intros [= <-]. eauto.
  - intros q id. simpl. rewrite Has, lookup_delete_Some, Hf, vacate_find, (sw_assign _ Hwf).
    case_decide as Hid.
    + subst old. destruct (find_sub_room id s) as [r0|]; [|naive_solver]. simpl.
      split; [intros (Hne & r & [= <-] & Hin)|intros (r & [= <-] & Hin)].
      * eexists. split; [done|]. simpl. apply elem_of_drop_id. naive_solver.
      * simpl in Hin. apply elem_of_drop_id in Hin. naive_solver.
    + split; [naive_solver|]. intros (r & Hr & Hin). split; [|by eauto].
      intros ->. pose proof (assigned_unique _ _ _ _ Hwf Hr Hin). congruence.
Qed.

(** Entering: the room gains the participant and loses its deadline. *)
Lemma enter_wf s p id g :
  sub_wf s → participant_assignments s !! p = None → is_Some (find_sub_room id s) →
  sub_wf (set_assignment <[p := id]> g
    (set_sub_rooms (update_first (has_id id) (λ r, set_delete_at None (set_ids (push_id p) r))) s)).
Proof.
  intros Hwf Hp [r0 Hr0].
  set (s' := set_sub_rooms _ s).
  assert (∀ id', find_sub_room id' (set_assignment <[p := id]> g s') =
    if decide (id = id') then (λ r, set_delete_at None (set_ids (push_id p) r)) <$> find_sub_room id' s
    else find_sub_room id' s) as Hf by (intros id'; by apply (find_update id)).
  apply (sub_wf_intro s); [done|by apply ids_update|..|done].
  - intros id' r. rewrite Hf. case_decide; [|apply Hwf]. subst. rewrite Hr0. intros [= <-].
    apply room_ok_push, (sw_rooms _ Hwf _ _ Hr0).
  - intros id' r'. rewrite Hf. case_decide; [|by eauto]. subst. rewrite Hr0. intros [= <-]. eauto.
  - intros q id'. rewrite Hf. simpl. rewrite lookup_insert. pose proof (sw_assign _ Hwf q id') as Hq.
    destruct (decide (p = q)) as [<-|Hpq].
    + split.
      * intros [= <-]. rewrite decide_True, Hr0 by done. eexists. split; [done|]. simpl.
        apply elem_of_push_id. by left.
      * case_decide; [by subst|]. intros Hex. apply Hq in Hex. congruence.
    + rewrite Hq. case_decide; [|done]. subst. rewrite Hr0. simpl.
      split; intros (r & [= <-] & Hin); eexists; (split; [done|]); simpl in *;
        rewrite elem_of_push_id in *; naive_solver.
Qed.

Lemma join_locked_wf target p now s : sub_wf s → sub_wf (join_locked target p now s).2.
Proof.
  intros Hwf. unfold join_locked. rewrite (clear_invalid_wf _ Hwf).
  destruct (find_sub_room target s) as [rt|] eqn:Et; [|done]. case_bool_decide as Hprev; [done|].
  destruct (participant_assignments s !! p) as [old|] eqn:Ep.
  - fold (vacate p old now s). pose proof (vacate_wf s p old now (λ m, m) Hwf Ep) as Hv.
    pose proof (vacate_frame p old now s) as (Hids & Has & Hpp).
    assert (is_Some (find_sub_room target (vacate p old now s).2)) as Ht
      by (apply find_is_Some_ids; rewrite Hids; apply find_is_Some_ids; eauto).
    destruct (vacate p old now s) as [e s1]. cbn [snd] in *.
    eapply sub_wf_ext; [..|apply (enter_wf _ p target (λ m, m) Hv)]; simpl; try done.
    + by rewrite insert_delete_eq.
    + by rewrite lookup_delete_eq.
  - apply enter_wf; [done..|by eauto].
Qed.

Lemma leave_locked_wf p now s : sub_wf s → sub_wf (leave_locked p now s).2.
Proof.
  intros Hwf. unfold leave_locked. rewrite (clear_invalid_wf _ Hwf).
  destruct (participant_assignments s !! p) as [cur|] eqn:Ep; [|by apply (sub_wf_ext s)].
  pose proof (vacate_wf s p cur now (λ m, m) Hwf Ep) as Hv.
  destruct (vacate_frame p cur now s) as (_ & Has & Hpp).
  set (s1 := set_sub_rooms _ (set_assignment _ _ s)).
  assert (schedule_empty_room_if_needed cur now s1 = ((vacate p cur now s).1,
    set_assignment (delete p) (delete p) (vacate p cur now s).2)) as ->.
  { unfold vacate, schedule_empty_room_if_needed. subst s1.
    change (find_sub_room cur (set_sub_rooms ?f (set_assignment ?a ?b s))) with
      (find_sub_room cur (set_sub_rooms f s)).
    case_match; [case_match|]; done. }
  cbn [snd]. by apply (sub_wf_ext (set_assignment (delete p) (λ m, m) (vacate p cur now s).2)).
Qed.

Lemma find_elem s r : NoDup (map sub_room_id (sub_rooms s)) → r ∈ sub_rooms s →
  find_sub_room (sub_room_id r) s = Some r.
Proof.
  unfold find_sub_room. induction (sub_rooms s) as [|x l IH]; simpl;
    [intros _ H; by apply not_elem_of_nil in H|].
  intros [Hx Hn]%NoDup_cons [->|Hr]%elem_of_cons; unfold has_id at 1.
  - by rewrite bool_decide_true.
  - rewrite bool_decide_false; [by apply IH|]. intros Heq. apply Hx. rewrite Heq.
    apply list_elem_of_In, in_map, list_elem_of_In, Hr.
Qed.

(** The default room is the one with the default id. *)
Lemma is_default_has_id s r : sub_wf s → r ∈ sub_rooms s → is_default r = has_id DEFAULT_SUB_ROOM_ID r.
Proof.
  intros Hwf Hr. pose proof (find_elem s r (sw_ids _ Hwf) Hr) as Hf.
  destruct (sw_rooms _ Hwf _ _ Hf) as [Hid _ Hd _ _]. unfold has_id. rewrite Hid.
  apply eq_bool_prop_intro. rewrite bool_decide_spec, Is_true_true, Hd.
  split; [by intros ->|]. unfold DEFAULT_SUB_ROOM_ID.
  change "room-1" with ("room-" +:+ pretty 1). intros Heq.
  apply (inj (String.app "room-")) in Heq. by apply (inj pretty) in Heq.
Qed.

(** A participant that is in no sub-room yet. *)
Definition unassigned (p : string) (s : SubRoomState) : Prop := participant_assignments s !! p = None.

Lemma sync_locked_wf p b s : sub_wf s → unassigned p s → sub_wf (sync_locked p b s).2.
Proof.
  intros Hwf Hp. unfold sync_locked. rewrite (clear_invalid_wf _ Hwf). destruct b.
  - assert (map (set_ids (drop_id p)) (sub_rooms s) = sub_rooms s) as Hmap.
    { apply list_eq_same_length with (n := length (sub_rooms s)); [done|by rewrite length_map|].
      intros i x y Hi Hx Hy. apply list_lookup_fmap_Some in Hx as (r & -> & Hr). simplify_eq.
      pose proof (find_elem s r (sw_ids _ Hwf) (list_elem_of_lookup_2 _ _ _ Hr)) as Hf.
      unfold set_ids, drop_id. rewrite retain_all; [by destruct r|].
      intros q Hq. apply bool_decide_eq_true. intros ->.
      pose proof (assigned_unique _ _ _ _ Hwf Hf Hq). unfold unassigned in Hp. congruence. }
    apply (sub_wf_ext s); simpl; [done|by apply delete_id|done|done].
  - rewrite (find_ext _ (has_id DEFAULT_SUB_ROOM_ID)) by (intros x Hx; exact (is_default_has_id s x Hwf Hx)).
    fold (find_sub_room DEFAULT_SUB_ROOM_ID s). destruct (sw_one _ Hwf) as [r0 Hr0]. rewrite Hr0.
    rewrite (find_sub_room_id _ _ _ Hr0). cbn [snd].
    eapply sub_wf_ext; [..|apply (enter_wf s p DEFAULT_SUB_ROOM_ID (λ m, m) Hwf Hp)]; simpl; try done.
    apply update_first_ext. intros x Hx. exact (is_default_has_id s x Hwf Hx).
Qed.

(** The numbers in use are at most their maximum. *)
Lemma number_le_max s r : r ∈ sub_rooms s → room_number r ≤ foldr Z.max 0 (map room_number (sub_rooms s)).
Proof.
  induction (sub_rooms s) as [|x l IH]; simpl; [intros H; by apply not_elem_of_nil in H|].
  intros [->|Hr]%elem_of_cons; [lia|]. specialize (IH Hr). lia.
Qed.

(** The next number still fits into a [u32]. *)
Definition numbers_left (s : SubRoomState) : Prop :=
  foldr Z.max 0 (map room_number (sub_rooms s)) + 1 < u32_modulus.

Lemma create_locked_wf now s : sub_wf s → numbers_left s → sub_wf (create_locked now s).2.
Proof.
  intros Hwf Hmax. unfold create_locked. rewrite (clear_invalid_wf _ Hwf). cbn [snd].
  set (n := next_room_number s). set (room := mkSubRoomInfo _ _ _ _ _).
  assert (0 ≤ foldr Z.max 0 (map room_number (sub_rooms s))) as H0
    by (induction (sub_rooms s); simpl; lia).
  assert (n = foldr Z.max 0 (map room_number (sub_rooms s)) + 1) as Hn
    by (subst n; unfold next_room_number, wrap_u32, numbers_left in *; rewrite Z.mod_small by lia; done).
  assert (find_sub_room (sub_room_id room) s = None) as Hfresh.
  { destruct (find_sub_room (sub_room_id room) s) as [r|] eqn:E; [|done]. exfalso.
    pose proof (ro_id _ _ (sw_rooms _ Hwf _ _ E)) as Hid. subst room. simpl in Hid.
    apply (inj (String.app "room-")) in Hid. apply (inj pretty) in Hid.
    apply find_some_elem_of in E as [Hin _]. pose proof (number_le_max s r Hin). lia. }
  assert (∀ id, find_sub_room id (set_sub_rooms (λ l, l ++ [room]) s) =
    match find_sub_room id s with Some r => Some r | None => if decide (id = sub_room_id room) then Some room else None end) as Hf.
  { intros id. unfold find_sub_room. simpl. rewrite find_app. case_match; [done|].
    cbn [List.find]. unfold has_id. case_decide; [by rewrite bool_decide_true|by rewrite bool_decide_false]. }
  destruct Hwf as [W1 W2 W3 W4 W5]. split.
  - simpl. rewrite map_app. apply NoDup_app; split_and!; [done| |apply NoDup_singleton].
    intros x Hx ->%list_elem_of_singleton. apply find_is_Some_ids in Hx. rewrite Hfresh in Hx. by destruct Hx.
  - intros id r. rewrite Hf. destruct (find_sub_room id s) eqn:E; [intros [= <-]; by apply W2|].
    case_decide; [|done]. intros [= <-]. subst id. subst room. split; simpl; [done|lia| |constructor|].
    + assert (n ≠ 1) as Hne; [|naive_solver]. destruct W3 as [r1 Hr1].
      pose proof (ro_number _ _ (W2 _ _ Hr1)). apply find_some_elem_of in Hr1 as [Hin _].
      pose proof (number_le_max s r1 Hin). lia.
    + split; [done|]. by intros [|[]].
  - rewrite Hf. destruct W3 as [r1 ->]. eauto.
  - intros p id. simpl. rewrite W4, Hf. destruct (find_sub_room id s); [done|].
    case_decide; [|done]. split; [naive_solver|]. intros (r & [= <-] & Hin). by apply not_elem_of_nil in Hin.
  - intros pp Hpp. destruct (W5 pp Hpp) as (r1 & r2 & H1 & H2 & Hlt). exists r1, r2. by rewrite !Hf, H1, H2.
Qed.

(** Clearing leaves a valid pair whatever the rooms are. *)
Lemma clear_invalid_frame s :
  sub_rooms (clear_invalid_passthrough_locked s) = sub_rooms s ∧
  participant_assignments (clear_invalid_passthrough_locked s) = participant_assignments s.
Proof. unfold clear_invalid_passthrough_locked. by repeat case_match. Qed.

Lemma clear_invalid_pair s pp :
  active_passthrough (clear_invalid_passthrough_locked s) = Some pp →
  active_passthrough s = Some pp ∧
  is_Some (find_sub_room (source_sub_room_id pp) s) ∧ is_Some (find_sub_room (target_sub_room_id pp) s).
Proof.
  unfold clear_invalid_passthrough_locked. destruct (active_passthrough s) as [pp0|] eqn:E; [|by rewrite E].
  rewrite !existsb_has_id. repeat case_bool_decide; simpl; try done; rewrite E; by intros [= <-].
Qed.

Lemma find_remove_first id s id' :
  NoDup (map sub_room_id (sub_rooms s)) →
  find_sub_room id' (set_sub_rooms (remove_first (has_id id)) s) =
    if decide (id = id') then None else find_sub_room id' s.
Proof.
  intros Hn. assert (∀ l, id ∉ map sub_room_id l → List.find (has_id id) l = None) as Hnone.
  { induction l as [|x l IH]; simpl; [done|]. rewrite not_elem_of_cons. intros [Hx Hl].
    unfold has_id at 1. rewrite bool_decide_false by congruence. by apply IH. }
  unfold find_sub_room. simpl. induction (sub_rooms s) as [|x l IH]; simpl in *; [by case_decide|].
  apply NoDup_cons in Hn as [Hx Hn]. unfold has_id at 2 4.
  destruct (decide (sub_room_id x = id)) as [Ex|Ex].
  - rewrite bool_decide_true by done. case_decide; subst; [by apply Hnone|].
    by rewrite bool_decide_false.
  - rewrite bool_decide_false by done. cbn [List.find]. unfold has_id at 1.
    destruct (decide (sub_room_id x = id')) as [Ex'|Ex'].
    + rewrite !bool_decide_true, decide_False by congruence. done.
    + rewrite !bool_decide_false by done. apply IH, Hn.
Qed.

Lemma ids_remove_first id l : map sub_room_id (remove_first (has_id id) l) `sublist_of` map sub_room_id l.
Proof.
  induction l as [|x l IH]; simpl; [constructor|]. destruct (has_id id x); [by constructor|].
  simpl. by constructor.
Qed.

(** Removing an empty room other than the default. *)
Lemma expire_locked_wf id d s : sub_wf s → sub_wf (expire_locked id d s).2.
Proof.
  intros Hwf. unfold expire_locked. rewrite (clear_invalid_wf _ Hwf).
  destruct (find_sub_room id s) as [r|] eqn:Er; [|done].
  destruct (is_default r) eqn:Ed; [done|]. case_bool_decide as He; [|done]. case_bool_decide; [done|].
  cbn [negb orb snd]. set (s1 := set_sub_rooms _ s).
  destruct (clear_invalid_frame s1) as [Hrs Has]. pose proof (clear_invalid_pair s1) as Hpp.
  set (s2 := clear_invalid_passthrough_locked s1) in *.
  assert (∀ id', find_sub_room id' s2 = if decide (id = id') then None else find_sub_room id' s) as Hf.
  { intros id'. rewrite <-(find_remove_first id s id' (sw_ids _ Hwf)).
    unfold find_sub_room. by rewrite Hrs. }
  clearbody s2. destruct Hwf as [W1 W2 W3 W4 W5]. split.
  - rewrite Hrs. simpl. eapply sublist_NoDup; [exact W1|apply ids_remove_first].
  - intros id' r'. rewrite Hf. case_decide; [done|]. apply W2.
  - rewrite Hf, decide_False; [done|]. intros ->. destruct (W2 _ _ Er) as [Hid _ Hd _ _].
    unfold DEFAULT_SUB_ROOM_ID in Hid. change "room-1" with ("room-" +:+ pretty 1) in Hid.
    apply (inj (String.app "room-")) in Hid. apply (inj pretty) in Hid.
    assert (is_default r = true) by (by apply Hd). congruence.
  - intros p id'. rewrite Has. simpl. rewrite W4, Hf. case_decide; [|done]. subst id'. rewrite Er.
    split; [|naive_solver]. intros (r' & [= <-] & Hin). rewrite He in Hin. by apply not_elem_of_nil in Hin.
  - intros pp (Hp1 & [x Hx] & [y Hy])%Hpp. simpl in Hp1.
    destruct (W5 pp Hp1) as (r1 & r2 & H1 & H2 & Hlt). exists r1, r2.
    assert (∀ j z, find_sub_room j s1 = Some z → j ≠ id) as Hj.
    { intros j z Hz ->. unfold s1 in Hz. by rewrite (find_remove_first id s id W1), decide_True in Hz. }
    pose proof (Hj _ _ Hx). pose proof (Hj _ _ Hy). rewrite !Hf, !decide_False by congruence. done.
Qed.

Lemma normalize_pair_valid s a b pp :
  sub_wf s → normalize_passthrough_pair s a b = Ok pp →
  ∃ r1 r2, find_sub_room (source_sub_room_id pp) s = Some r1 ∧
    find_sub_room (target_sub_room_id pp) s = Some r2 ∧ room_number r1 < room_number r2.
Proof.
  intros Hwf. unfold normalize_passthrough_pair. case_bool_decide as Hab; [done|].
  destruct (find_sub_room a s) as [ra|] eqn:Ea; [|done].
  destruct (find_sub_room b s) as [rb|] eqn:Eb; [|done].
  assert (room_number ra ≠ room_number rb) as Hne.
  { intros Hn. apply Hab. rewrite (ro_id _ _ (sw_rooms _ Hwf _ _ Ea)), (ro_id _ _ (sw_rooms _ Hwf _ _ Eb)).
    by rewrite Hn. }
  case_bool_decide; intros [= <-]; simpl; rewrite !(find_sub_room_id _ _ _ Ea), !(find_sub_room_id _ _ _ Eb);
    eexists _, _; (split_and!; [done..|lia]).
Qed.

Lemma sub_wf_set_pair s pp :
  sub_wf s →
  (∀ q, pp = Some q → ∃ r1 r2, find_sub_room (source_sub_room_id q) s = Some r1 ∧
    find_sub_room (target_sub_room_id q) s = Some r2 ∧ room_number r1 < room_number r2) →
  sub_wf (set_active_passthrough pp s).
Proof. intros [W1 W2 W3 W4 W5] Hpp. split; try done. Qed.

Lemma set_passthrough_locked_wf p t s : sub_wf s → sub_wf (set_passthrough_locked p t s).2.
Proof.
  intros Hwf. unfold set_passthrough_locked. rewrite (clear_invalid_wf _ Hwf).
  destruct (passthrough_enabled s); [cbn [negb]|done].
  destruct (participant_assignments s !! p) as [src|]; [|done].
  destruct (match active_passthrough s with Some _ => _ | None => _ end); [done|].
  destruct (normalize_passthrough_pair s src t) as [pp|] eqn:En; [|done]. cbn [snd].
  apply sub_wf_set_pair; [done|]. intros q [= <-]. by eapply normalize_pair_valid.
Qed.

Lemma clear_passthrough_locked_wf p s : sub_wf s → sub_wf (clear_passthrough_locked p s).2.
Proof.
  intros Hwf. unfold clear_passthrough_locked. rewrite (clear_invalid_wf _ Hwf).
  repeat case_match; try done. by apply sub_wf_set_pair.
Qed.

(** ** The voice rooms *)

Definition subs_wf (s : InMemoryRoomState) : Prop :=
  ∀ r m sub, rooms s !! r = Some m → sub_room_state (info m) = Some sub → sub_wf sub.

(** What a closure on a room's metadata must keep. *)
Definition info_sub_ok (i : RoomInfo) : Prop := ∀ sub, sub_room_state i = Some sub → sub_wf sub.

Lemma subs_wf_update_capture {A} r (a : A) f s :
  (∀ m, rooms s !! r = Some m → info_sub_ok (info m) → info_sub_ok (f (info m)).2) →
  subs_wf s → subs_wf (update_room_info_capture r a f s).2.
Proof.
  intros Hf Hs. unfold update_room_info_capture. destruct (rooms s !! r) as [m|] eqn:E; [|done].
  specialize (Hf m eq_refl (λ sub, Hs r m sub E)). destruct (f (info m)) as [x i].
  intros r' m' sub. simpl. rewrite lookup_insert. case_decide; [intros [= <-]; apply Hf|apply Hs].
Qed.

Lemma subs_wf_with_room_write {R} r (f : RoomMembers → R * RoomMembers) s :
  (∀ m, rooms s !! r = Some m → info_sub_ok (info m) → info_sub_ok (info (f m).2)) →
  subs_wf s → subs_wf (with_room_write r f s).2.
Proof.
  intros Hf Hs. unfold with_room_write. destruct (rooms s !! r) as [m|] eqn:E; [|done].
  specialize (Hf m eq_refl (λ sub, Hs r m sub E)). destruct (f m) as [x m'].
  intros r' m'' sub. simpl. rewrite lookup_insert. case_decide; [intros [= <-]; apply Hf|apply Hs].
Qed.

Lemma on_sub_rooms_ok {A} (a : A) f i :
  (∀ sub, sub_room_state i = Some sub → sub_wf sub → sub_wf (f sub).2) →
  info_sub_ok i → info_sub_ok (on_sub_rooms a f i).2.
Proof.
  intros Hf Hi. unfold on_sub_rooms. destruct (sub_room_state i) as [sub|] eqn:E.
  - specialize (Hf sub eq_refl (Hi sub E)). destruct (f sub) as [x sub']. intros ? [= <-]. done.
  - intros sub. simpl. by rewrite E.
Qed.

Lemma ensure_ok i : info_sub_ok i → info_sub_ok (ensure_room_sub_rooms i).
Proof.
  intros Hi. unfold ensure_room_sub_rooms. destruct (sub_room_state i) eqn:E; [done|].
  intros sub [= <-]. apply sub_wf_new.
Qed.

(** The sub-room state a room has, or gets when it is first needed. *)
Definition sub_state_of (i : RoomInfo) : SubRoomState :=
  default (SubRoomState_new DEFAULT_SUB_ROOM_ID) (sub_room_state i).

Lemma ensure_sub_state i sub :
  sub_room_state (ensure_room_sub_rooms i) = Some sub → sub = sub_state_of i.
Proof.
  unfold ensure_room_sub_rooms, sub_state_of. destruct (sub_room_state i) eqn:E.
  - rewrite E. by intros [= <-].
  - by intros [= <-].
Qed.

Lemma subs_wf_report nf ns r f clks s :
  (∀ sub, sub_wf sub → sub_wf (f sub).2) → subs_wf s → subs_wf (report_change nf ns r f clks s).2.
Proof.
  intros Hf Hs. unfold report_change.
  pose proof (subs_wf_with_room_write r (λ m,
    let '(x, i) := on_sub_rooms ns f (info m) in (x, mkRoomMembers (peers m) i)) s) as Hw.
  assert (subs_wf (with_room_write r (λ m,
    let '(x, i) := on_sub_rooms ns f (info m) in (x, mkRoomMembers (peers m) i)) s).2) as Hok.
  { apply Hw; [|done]. intros m _ Hm. pose proof (on_sub_rooms_ok ns f (info m) (λ sub _, Hf sub) Hm) as H.
    by destruct (on_sub_rooms ns f (info m)). }
  by repeat case_match.
Qed.

(** The sub-room requests; [clks] are clock reads for the payloads. *)
Inductive SubOp : Type :=
| SubSync (r : RoomId) (p : string) (supports : bool)
| SubCreate (r : RoomId) (now : Instant)
| SubJoin (r : RoomId) (id p : string) (now : Instant)
| SubLeave (r : RoomId) (p : string) (now : Instant)
| SubSetPair (r : RoomId) (p target : string)
| SubClearPair (r : RoomId) (p : string)
| SubEnable (db : Result Z string) (r : RoomId) (b : bool)
| SubVolume (r : RoomId) (v : Z)
| SubFilter (r : RoomId) (b : bool) (n : Z)
| SubExpire (r : RoomId) (id : string) (d : Instant).

Section sub_ops.
Context (clks : string → Instant * Z).

Definition run_sub_op (op : SubOp) (s : InMemoryRoomState) : InMemoryRoomState :=
  match op with
  | SubSync r p b => (sync_sub_room_state_on_voice_join r p b clks s).2
  | SubCreate r now => (create_sub_room r now clks clks s).2
  | SubJoin r id p now => (join_sub_room r id p now clks s).2
  | SubLeave r p now => (leave_sub_room r p now clks s).2
  | SubSetPair r p t => (set_passthrough r p t clks s).2
  | SubClearPair r p => (clear_passthrough r p clks s).2
  | SubEnable db r b => (set_passthrough_enabled db r b clks s).2
  | SubVolume r v => (set_passthrough_volume r v clks s).2
  | SubFilter r b n => (set_passthrough_filter r b n clks s).2
  | SubExpire r id d => (expire_sub_room r id d clks s).2
  end.

(** A voice join brings a participant that is in no sub-room yet; sub-room
    numbers fit 32 bits. *)
Definition sub_op_ok (op : SubOp) (s : InMemoryRoomState) : Prop :=
  match op with
  | SubSync r p _ => ∀ m, rooms s !! r = Some m → unassigned p (sub_state_of (info m))
  | SubCreate r _ => ∀ m, rooms s !! r = Some m → numbers_left (sub_state_of (info m))
  | _ => True
  end.

Lemma subs_wf_ensured {A} r (a : A) f s :
  (∀ m, rooms s !! r = Some m → sub_wf (sub_state_of (info m)) → sub_wf (f (sub_state_of (info m))).2) →
  subs_wf s →
  subs_wf (update_room_info_capture r a (λ i, on_sub_rooms a f (ensure_room_sub_rooms i)) s).2.
Proof.
  intros Hf Hs. apply subs_wf_update_capture; [|done]. intros m Hm Hi.
  apply on_sub_rooms_ok; [|by apply ensure_ok]. intros sub Hsub Hwf.
  apply ensure_sub_state in Hsub as ->. by apply Hf.
Qed.

Lemma run_sub_op_wf op s : sub_op_ok op s → subs_wf s → subs_wf (run_sub_op op s).
Proof.
  intros Hok Hs. destruct op as [r p b|r now|r id p now|r p now|r p t|r p|db r b|r v|r b n|r id d];
    simpl in *.
  - unfold sync_sub_room_state_on_voice_join.
    pose proof (subs_wf_ensured r (Some None) (sync_locked p b) s) as H.
    destruct (update_room_info_capture _ _ _ _). apply H; [|done]. intros m Hm Hw.
    apply sync_locked_wf; auto.
  - unfold create_sub_room. pose proof (subs_wf_ensured r None (create_locked now) s) as H.
    destruct (update_room_info_capture _ _ _ _) as [x s'].
    assert (subs_wf s') as Hs'; [|by destruct x].
    apply H; [|done]. intros m Hm Hw. apply create_locked_wf; auto.
  - unfold join_sub_room. set (f := λ m : RoomMembers, _).
    assert (subs_wf (with_room_write r f s).2) as Hw; [|by repeat case_match].
    apply subs_wf_with_room_write; [|done]. intros m Hm Hi. subst f. simpl.
    pose proof (on_sub_rooms_ok (Err "room state unavailable") (join_locked id p now)
      (ensure_room_sub_rooms (info m)) (λ sub _, join_locked_wf id p now sub) (ensure_ok _ Hi)) as H.
    by destruct (on_sub_rooms _ _ _).
  - unfold leave_sub_room.
    assert (subs_wf (with_room_write r (leave_sub_room_locked p now) s).2) as Hw; [|by repeat case_match].
    apply subs_wf_with_room_write; [|done]. intros m Hm Hi. unfold leave_sub_room_locked.
    pose proof (on_sub_rooms_ok None (leave_locked p now) (info m) (λ sub _, leave_locked_wf p now sub) Hi) as H.
    destruct (on_sub_rooms _ _ _) as [[x|] i]; [|done]. by case_bool_decide.
  - apply subs_wf_report; [|done]. apply set_passthrough_locked_wf.
  - apply subs_wf_report; [|done]. apply clear_passthrough_locked_wf.
  - unfold set_passthrough_enabled. destruct db as [n|]; [|done]. case_bool_decide; [done|].
    apply subs_wf_report; [|done]. intros sub Hw. case_bool_decide; [done|]. by apply (sub_wf_ext sub).
  - unfold set_passthrough_volume.
    assert (∀ f, (∀ sub, sub_wf sub → sub_wf (f sub).2) →
      subs_wf (report_change EmptyString (Ok false) r f clks s).2) as H by (intros; by apply subs_wf_report).
    specialize (H (λ sub, if bool_decide (passthrough_volume_percent sub = v `min` 100) then (Ok false, sub)
      else (Ok true, set_volume (v `min` 100) sub))).
    destruct (report_change _ _ _ _ _ _) as [x s'].
    assert (subs_wf s') as Hs'; [|by destruct x]. apply H. intros sub Hw. case_bool_decide; [done|].
    by apply (sub_wf_ext sub).
  - apply subs_wf_report; [|done]. intros sub Hw. case_bool_decide; [done|]. by apply (sub_wf_ext sub).
  - unfold expire_sub_room. set (f := λ m : RoomMembers, _).
    assert (subs_wf (with_room_write r f s).2) as Hw; [|by repeat case_match].
    apply subs_wf_with_room_write; [|done]. intros m Hm Hi. subst f. simpl.
    pose proof (on_sub_rooms_ok false (expire_locked id d) (info m) (λ sub _, expire_locked_wf id d sub) Hi) as H.
    by destruct (on_sub_rooms _ _ _).
Qed.

Inductive sub_step : InMemoryRoomState → InMemoryRoomState → Prop :=
| sub_step_intro op s : sub_op_ok op s → sub_step s (run_sub_op op s).

(** C8: In every state the sub-room requests can reach, each room with sub-rooms has
    ROOM 1 and distinct ids, a participant is listed in exactly the one sub-room it is
    assigned to, exactly the empty sub-rooms other than ROOM 1 carry a deletion
    deadline, and an active passthrough joins two different existing sub-rooms
    in the order of their numbers.  The runs are those in which the step a voice join
    makes is taken by a participant that is not assigned to a sub-room of that room at
    that moment (taken by one that is, the step would leave it listed twice, or leave a
    sub-room empty without a deadline), and in which the numbers of the sub-rooms
    created stay below 2^32. *)
Theorem sub_rooms_invariant s s' :
  subs_wf s → rtc sub_step s s' → subs_wf s'.
Proof.
  intros Hs Hrun. apply (rtc_invariant sub_step subs_wf s); [|done..].
  intros a b []. by apply run_sub_op_wf.
Qed.
End sub_ops.

(** ** What the single requests do *)

(** Who is expelled from a room by its own departure: the room is not the default
    one and the participant was alone in it. *)
Definition empties (p : string) (old : string) (s : SubRoomState) : Prop :=
  old ≠ DEFAULT_SUB_ROOM_ID ∧ ∃ r, find_sub_room old s = Some r ∧ participant_ids r = [p].

Lemma drop_id_nil p l : NoDup l → p ∈ l → drop_id p l = [] ↔ l = [p].
Proof.
  intros Hn Hp. split.
  - intros Hd. assert (∀ q, q ∈ l → q = p) as Hall.
    { intros q Hq. destruct (decide (q = p)); [done|]. exfalso.
      apply (not_elem_of_nil q). rewrite <-Hd. by apply elem_of_drop_id. }
    destruct l as [|x l]; [by apply not_elem_of_nil in Hp|].
    assert (x = p) as -> by (apply Hall; set_solver).
    destruct l as [|y l]; [done|]. exfalso. assert (y = p) as -> by (apply Hall; set_solver).
    apply NoDup_cons in Hn as [Hn _]. apply Hn. set_solver.
  - intros ->. unfold drop_id, retain. simpl. by rewrite bool_decide_false by (intros H; by apply H).
Qed.

Lemma default_iff s id r :
  sub_wf s → find_sub_room id s = Some r → is_default r = true ↔ id = DEFAULT_SUB_ROOM_ID.
Proof.
  intros Hwf Hr. pose proof (find_some_elem_of _ _ _ Hr) as [Hin _].
  rewrite (is_default_has_id _ _ Hwf Hin). unfold has_id.
  by rewrite bool_decide_eq_true, (find_sub_room_id _ _ _ Hr).
Qed.

(** The deadline [vacate] hands to the expiry timer. *)
Lemma vacate_expiry p old now s e :
  sub_wf s → participant_assignments s !! p = Some old →
  (vacate p old now s).1 = Some e ↔
    empties p old s ∧ e = mkPendingSubRoomExpiry old (now + SUB_ROOM_DELETE_AFTER).
Proof.
  intros Hwf Hp. pose proof (sw_assign _ Hwf p old) as [(r & Hr & Hin) _]; [done|].
  pose proof (default_iff _ _ _ Hwf Hr) as Hd. pose proof (ro_nodup _ _ (sw_rooms _ Hwf _ _ Hr)) as Hn.
  pose proof (drop_id_nil p _ Hn Hin) as Hnil.
  unfold vacate, schedule_empty_room_if_needed. rewrite find_update by done.
  rewrite decide_True, Hr by done. cbn [fmap option_fmap option_map]. simpl.
  rewrite (find_sub_room_id _ _ _ Hr). unfold empties.
  destruct (is_default r); simpl; [naive_solver|]. case_bool_decide; simpl; naive_solver.
Qed.

Lemma sub_room_write_ext {A} r (x : A) f s m sub :
  rooms s !! r = Some m → sub_room_state (info m) = Some sub →
  with_room_write r (λ m, let '(y, i) := on_sub_rooms x f (info m) in (y, mkRoomMembers (peers m) i)) s =
    (Ok (f sub).1, set_rooms <[r := mkRoomMembers (peers m) (set_sub_room_state (Some (f sub).2) (info m))]> s).
Proof.
  intros Hm Hs. unfold with_room_write, on_sub_rooms. rewrite Hm, Hs. by destruct (f sub).
Qed.

Lemma ensured_room_ext {A} r (x : A) f s m :
  rooms s !! r = Some m →
  with_room_write r (λ m, let '(y, i) := on_sub_rooms x f (ensure_room_sub_rooms (info m)) in
      (y, mkRoomMembers (peers m) i)) s =
    (Ok (f (sub_state_of (info m))).1,
     set_rooms <[r := mkRoomMembers (peers m)
        (set_sub_room_state (Some (f (sub_state_of (info m))).2) (info m))]> s).
Proof.
  intros Hm. unfold with_room_write, on_sub_rooms, ensure_room_sub_rooms, sub_state_of. rewrite Hm.
  destruct (sub_room_state (info m)) as [sub|] eqn:E; simpl; rewrite ?E; by destruct (f _).
Qed.

(** The closure of [join_sub_room] on an existing target. *)
Lemma join_locked_spec target p now s :
  sub_wf s → is_Some (find_sub_room target s) →
  ∃ joined ex s', join_locked target p now s = (Ok (joined, ex), s') ∧
    participant_assignments s' = <[p := target]> (participant_assignments s) ∧
    ∀ e, ex = Some e ↔ ∃ old, participant_assignments s !! p = Some old ∧ old ≠ target ∧
      empties p old s ∧ e = mkPendingSubRoomExpiry old (now + SUB_ROOM_DELETE_AFTER).
Proof.
  intros Hwf [rt Hrt]. unfold join_locked. rewrite (clear_invalid_wf _ Hwf), Hrt.
  case_bool_decide as Hprev.
  - eexists _, _, _. split_and!; [done|by rewrite insert_id|]. split; [done|]. naive_solver.
  - destruct (participant_assignments s !! p) as [old|] eqn:Ep.
    + fold (vacate p old now s). pose proof (λ e, vacate_expiry p old now s e Hwf Ep) as Hexp.
      pose proof (vacate_frame p old now s) as (_ & Has & _).
      destruct (vacate p old now s) as [ex s1]. cbn [fst snd] in *.
      eexists _, _, _. split_and!; [done|simpl; by rewrite Has|].
      intros e. rewrite Hexp. naive_solver.
    + eexists _, _, _. split_and!; [done..|]. split; [done|]. naive_solver.
Qed.

(** Joining a sub-room that exists always succeeds.  It assigns the
    participant to that room and to no other, leaves everybody else's assignment
    and the room's peers alone, and asks for an expiry timer exactly when the
    participant was alone in another sub-room that is not ROOM 1; the timer then
    names that sub-room and fires sixty seconds after the join. *)
Theorem join_sub_room_spec r target p now clks s m :
  rooms s !! r = Some m →
  sub_wf (sub_state_of (info m)) →
  is_Some (find_sub_room target (sub_state_of (info m))) →
  ∃ res s' sub', join_sub_room r target p now clks s = (Ok res, s') ∧
    rooms s' !! r = Some (mkRoomMembers (peers m) (set_sub_room_state (Some sub') (info m))) ∧
    (∀ r', r' ≠ r → rooms s' !! r' = rooms s !! r') ∧
    participant_assignments sub' = <[p := target]> (participant_assignments (sub_state_of (info m))) ∧
    ∀ e, sar_expiry res = Some e ↔ ∃ old,
      participant_assignments (sub_state_of (info m)) !! p = Some old ∧ old ≠ target ∧
      empties p old (sub_state_of (info m)) ∧
      e = mkPendingSubRoomExpiry old (now + SUB_ROOM_DELETE_AFTER).
Proof.
  intros Hm Hwf Ht. unfold join_sub_room. rewrite (ensured_room_ext r _ _ s m Hm).
  destruct (join_locked_spec target p now _ Hwf Ht) as (joined & ex & sub' & -> & Has & Hexp).
  eexists _, _, sub'. split_and!; [reflexivity|apply lookup_insert_eq| |exact Has|exact Hexp].
  intros r' Hr'. by apply lookup_insert_ne.
Qed.

(** Removing a room clears the pair exactly if the pair names it. *)
Lemma clear_after_remove id s :
  sub_wf s →
  active_passthrough (clear_invalid_passthrough_locked (set_sub_rooms (remove_first (has_id id)) s)) =
    (pp ← active_passthrough s; if involves id pp then None else Some pp).
Proof.
  intros Hwf. unfold clear_invalid_passthrough_locked. cbn [active_passthrough set_sub_rooms].
  destruct (active_passthrough s) as [pp|] eqn:E; [|by simpl].
  destruct (sw_pair _ Hwf _ E) as (r1 & r2 & H1 & H2 & Hlt).
  rewrite !existsb_has_id, !(find_remove_first id s _ (sw_ids _ Hwf)), H1, H2. simpl. unfold involves.
  assert (source_sub_room_id pp ≠ target_sub_room_id pp) as Hne
    by (intros Heq; rewrite Heq in H1; simplify_eq; lia).
  rewrite (bool_decide_false (source_sub_room_id pp = target_sub_room_id pp)) by done.
  destruct (decide (id = source_sub_room_id pp)) as [<-|Hs]; simpl.
  - by rewrite bool_decide_true.
  - rewrite (bool_decide_false (source_sub_room_id pp = id)) by done.
    destruct (decide (id = target_sub_room_id pp)) as [<-|Ht]; simpl; [by rewrite bool_decide_true|].
    rewrite bool_decide_false by done. simpl. by rewrite E.
Qed.

Lemma expire_locked_spec id d s :
  sub_wf s →
  (∃ room s', find_sub_room id s = Some room ∧ participant_ids room = [] ∧
     id ≠ DEFAULT_SUB_ROOM_ID ∧ delete_at room = Some d ∧ expire_locked id d s = (true, s') ∧
     (∀ id', find_sub_room id' s' = if decide (id = id') then None else find_sub_room id' s) ∧
     participant_assignments s' = participant_assignments s ∧
     active_passthrough s' = (pp ← active_passthrough s; if involves id pp then None else Some pp)) ∨
  ((∀ room, find_sub_room id s = Some room → participant_ids room = [] →
      id ≠ DEFAULT_SUB_ROOM_ID → delete_at room ≠ Some d) ∧ expire_locked id d s = (false, s)).
Proof.
  intros Hwf. unfold expire_locked. rewrite (clear_invalid_wf _ Hwf).
  destruct (find_sub_room id s) as [r|] eqn:Er; [|by right].
  pose proof (default_iff _ _ _ Hwf Er) as Hd.
  destruct (is_default r); [right; split; naive_solver|]. case_bool_decide as He; [|right; split; naive_solver].
  case_bool_decide as Ht; cbn [negb orb]; [right; split; naive_solver|]. left.
  eexists r, _. split_and!; [done|done|naive_solver|done|done|..].
  - intros id'. rewrite <-(find_remove_first id s id' (sw_ids _ Hwf)).
    unfold find_sub_room. by rewrite (proj1 (clear_invalid_frame _)).
  - by rewrite (proj2 (clear_invalid_frame _)).
  - by apply clear_after_remove.
Qed.

(** The expiry timer of a sub-room deletes it exactly when the sub-room still
    exists, is empty, is not ROOM 1 and still carries the deadline the timer was
    started with; nobody is assigned to what it deletes, every other sub-room and
    every assignment stays, and a passthrough that named it is cleared.  In every
    other case, in particular after somebody joined in the meantime, the timer
    changes nothing and announces nothing. *)
Theorem expire_sub_room_spec r id d clks s m sub :
  rooms s !! r = Some m → sub_room_state (info m) = Some sub → sub_wf sub →
  (∃ room, find_sub_room id sub = Some room ∧ participant_ids room = [] ∧
     id ≠ DEFAULT_SUB_ROOM_ID ∧ delete_at room = Some d ∧
     (∀ p, participant_assignments sub !! p ≠ Some id) ∧
     ∃ res s' sub', expire_sub_room r id d clks s = (res, s') ∧
       rooms s' !! r = Some (mkRoomMembers (peers m) (set_sub_room_state (Some sub') (info m))) ∧
       (∀ id', find_sub_room id' sub' = if decide (id = id') then None else find_sub_room id' sub) ∧
       participant_assignments sub' = participant_assignments sub ∧
       active_passthrough sub' =
         (pp ← active_passthrough sub; if involves id pp then None else Some pp)) ∨
  ((∀ room, find_sub_room id sub = Some room → participant_ids room = [] →
      id ≠ DEFAULT_SUB_ROOM_ID → delete_at room ≠ Some d) ∧
   (expire_sub_room r id d clks s).1 = SubRoomActionResult_default ∧
   ∀ r', rooms (expire_sub_room r id d clks s).2 !! r' = rooms s !! r').
Proof.
  intros Hm Hs Hwf. unfold expire_sub_room. rewrite (sub_room_write_ext r false _ s m sub Hm Hs).
  destruct (expire_locked_spec id d sub Hwf)
    as [(room & sub' & Hr & He & Hid & Hd & -> & Hf & Has & Hpp)|[Hno ->]]; [left|right].
  - exists room. split_and!; [done..| |].
    + intros p (r' & Hr' & Hin)%(sw_assign _ Hwf). simplify_eq. rewrite He in Hin.
      by apply not_elem_of_nil in Hin.
    + eexists _, _, sub'. split_and!; [reflexivity|apply lookup_insert_eq|done..].
  - split_and!; [done..|]. intros r'. cbn [fst snd rooms set_rooms]. rewrite insert_id; [done|].
    rewrite Hm. destruct m as [ps i]. simpl in *. destruct i. simpl in *. by subst.
Qed.

(** Writing the sub-room state a room already has changes nothing. *)
Lemma set_sub_room_state_id r s m sub :
  rooms s !! r = Some m → sub_room_state (info m) = Some sub →
  set_rooms <[r := mkRoomMembers (peers m) (set_sub_room_state (Some sub) (info m))]> s = s.
Proof.
  intros Hm Hs. destruct s as [rs pr], m as [ps i]. unfold set_rooms. simpl in *. f_equal.
  apply insert_id. rewrite Hm. destruct i. simpl in *. by subst.
Qed.

(** Who may connect two sub-rooms: passthrough is enabled, the participant is in
    [src], no other pair is active, and the target is another existing room. *)
Definition may_connect (p src target : string) (s : SubRoomState) : Prop :=
  passthrough_enabled s = true ∧ participant_assignments s !! p = Some src ∧
  (∀ pp, active_passthrough s = Some pp → involves src pp = true) ∧
  src ≠ target ∧ is_Some (find_sub_room target s).

Lemma set_passthrough_locked_spec p target s :
  sub_wf s →
  (∃ src pp b, may_connect p src target s ∧
     (pp = mkPassthroughPair src target ∨ pp = mkPassthroughPair target src) ∧
     set_passthrough_locked p target s = (Ok b, set_active_passthrough (Some pp) s)) ∨
  ((∀ src, ~ may_connect p src target s) ∧ ∃ e, set_passthrough_locked p target s = (Err e, s)).
Proof.
  intros Hwf. unfold set_passthrough_locked, may_connect. rewrite (clear_invalid_wf _ Hwf).
  destruct (passthrough_enabled s); cbn [negb]; [|right; naive_solver].
  destruct (participant_assignments s !! p) as [src|] eqn:Ep; [|right; naive_solver].
  destruct (match active_passthrough s with Some pp => negb (involves src pp) | None => false end) eqn:Ea.
  { right. split; [|by eauto]. intros ? (_ & [= <-] & Hpp & _).
    destruct (active_passthrough s) as [pp|]; [|done]. by rewrite (Hpp pp eq_refl) in Ea. }
  pose proof (sw_assign _ Hwf p src) as [(rs & Hrs & _) _]; [done|].
  unfold normalize_passthrough_pair. rewrite Hrs. case_bool_decide as Hst; [right; naive_solver|].
  destruct (find_sub_room target s) as [rt|] eqn:Et.
  2:{ right. split; [|by eauto]. intros ? (_ & _ & _ & _ & [? Hx]). done. }
  left. exists src.
  assert (∀ pp, active_passthrough s = Some pp → involves src pp = true) as Hpp.
  { intros pp Hpp. rewrite Hpp in Ea. by apply negb_false_iff in Ea. }
  rewrite (find_sub_room_id _ _ _ Hrs), (find_sub_room_id _ _ _ Et).
  case_bool_decide; eexists _, _; (split_and!; [done|done|done|done|by eauto| |reflexivity]); auto.
Qed.

(** A participant can connect its own sub-room with another one exactly when
    passthrough is enabled, it is in a sub-room, and no pair that excludes its
    sub-room is active; the pair then joins exactly those two sub-rooms, and
    nothing else of the room changes.  Every other request is refused and leaves
    the room as it was. *)
Theorem set_passthrough_spec r p target clks s m sub :
  rooms s !! r = Some m → sub_room_state (info m) = Some sub → sub_wf sub →
  (∃ src pp res, may_connect p src target sub ∧
     (pp = mkPassthroughPair src target ∨ pp = mkPassthroughPair target src) ∧
     set_passthrough r p target clks s =
       (Ok res, set_rooms <[r := mkRoomMembers (peers m)
          (set_sub_room_state (Some (set_active_passthrough (Some pp) sub)) (info m))]> s)) ∨
  ((∀ src, ~ may_connect p src target sub) ∧
   ∃ e, set_passthrough r p target clks s = (Err e, s)).
Proof.
  intros Hm Hs Hwf. unfold set_passthrough, report_change.
  rewrite (sub_room_write_ext r _ _ s m sub Hm Hs).
  destruct (set_passthrough_locked_spec p target sub Hwf)
    as [(src & pp & b & Hmay & Hpair & ->)|(Hno & e & ->)]; [left|right]; cbn [fst snd].
  - exists src, pp. destruct b; eexists; (split_and!; [exact Hmay|exact Hpair|reflexivity]).
  - split; [done|]. exists e. by rewrite (set_sub_room_state_id r s m sub).
Qed.

(** ** A room on which the requests run *)
Module SubRoomDemo.
Definition clks : string → Instant * Z := λ _, (0, 0).
Definition room0 : RoomMembers := mkRoomMembers ["a"; "b"] (new_sfu 6 (mkSfuRoomHandle "h") 0).
Definition s0 : InMemoryRoomState :=
  mkInMemoryRoomState {["r" := room0]} (list_to_map [("a", "r"); ("b", "r")]).
(** A legacy client joins ROOM 1, then somebody creates ROOM 2 and moves there. *)
Definition script : list SubOp :=
  [SubSync "r" "a" false; SubSync "r" "b" true; SubCreate "r" 0; SubJoin "r" "room-2" "b" 5].
Definition s4 : InMemoryRoomState := foldl (λ s op, run_sub_op clks op s) s0 script.
Definition sub4 : SubRoomState :=
  match rooms s4 !! "r" with Some m => sub_state_of (info m) | None => SubRoomState_new DEFAULT_SUB_ROOM_ID end.
Definition m4 : RoomMembers := default room0 (rooms s4 !! "r").
(** "b" leaves ROOM 2 again at time 7. *)
Definition s5 : InMemoryRoomState := run_sub_op clks (SubJoin "r" "room-1" "b" 7) s4.
Definition m5 : RoomMembers := default room0 (rooms s5 !! "r").
Definition s6 : InMemoryRoomState := run_sub_op clks (SubEnable (Ok 1) "r" true) s4.
Definition m6 : RoomMembers := default room0 (rooms s6 !! "r").

Lemma s0_wf : subs_wf s0.
Proof.
  intros r m sub. simpl. rewrite lookup_singleton. case_decide; [|done]. by intros [= <-].
Qed.

Lemma script_run : rtc (sub_step clks) s0 s4.
Proof.
  unfold s4, script. cbn [foldl].
  eapply rtc_l; [apply (sub_step_intro clks (SubSync "r" "a" false))|].
  { intros m Hm. vm_compute in Hm. injection Hm as <-. reflexivity. }
  eapply rtc_l; [apply (sub_step_intro clks (SubSync "r" "b" true))|].
  { intros m Hm. vm_compute in Hm. injection Hm as <-. reflexivity. }
  eapply rtc_l; [apply (sub_step_intro clks (SubCreate "r" 0))|].
  { intros m Hm. vm_compute in Hm. injection Hm as <-. vm_compute. reflexivity. }
  eapply rtc_l; [apply (sub_step_intro clks (SubJoin "r" "room-2" "b" 5)); exact I|].
  apply rtc_refl.
Qed.

Lemma s4_wf : subs_wf s4.
Proof.
  apply (rtc_invariant (sub_step clks) subs_wf s0); [|apply script_run|apply s0_wf].
  intros a b []. by apply run_sub_op_wf.
Qed.

Lemma wf_at s m : subs_wf s → rooms s !! "r" = Some m → sub_wf (sub_state_of (info m)).
Proof.
  intros Hs Hm. unfold sub_state_of. destruct (sub_room_state (info m)) as [sub|] eqn:E; [|apply sub_wf_new].
  exact (Hs _ _ _ Hm E).
Qed.

Lemma m4_at : rooms s4 !! "r" = Some m4.
Proof. vm_compute. reflexivity. Qed.
Lemma m5_at : rooms s5 !! "r" = Some m5.
Proof. vm_compute. reflexivity. Qed.
Lemma m6_at : rooms s6 !! "r" = Some m6.
Proof. vm_compute. reflexivity. Qed.
Lemma m5_state : sub_room_state (info m5) = Some (sub_state_of (info m5)).
Proof. vm_compute. reflexivity. Qed.
Lemma m6_state : sub_room_state (info m6) = Some (sub_state_of (info m6)).
Proof. vm_compute. reflexivity. Qed.
Lemma m5_wf : sub_wf (sub_state_of (info m5)).
Proof. apply (wf_at s5); [|apply m5_at]. by apply run_sub_op_wf, s4_wf. Qed.
Lemma m6_wf : sub_wf (sub_state_of (info m6)).
Proof. apply (wf_at s6); [|apply m6_at]. by apply run_sub_op_wf, s4_wf. Qed.
End SubRoomDemo.

Lemma sub_rooms_invariant_witness :
  subs_wf SubRoomDemo.s4 ∧
  participant_assignments SubRoomDemo.sub4 = list_to_map [("a", "room-1"); ("b", "room-2")].
Proof.
  split; [exact (sub_rooms_invariant SubRoomDemo.clks _ _ SubRoomDemo.s0_wf SubRoomDemo.script_run)|].
  vm_compute. reflexivity.
Defined.

Lemma join_sub_room_spec_witness :
  ∃ res s', join_sub_room "r" "room-1" "b" 7 SubRoomDemo.clks SubRoomDemo.s4 = (Ok res, s') ∧
    sar_expiry res = Some (mkPendingSubRoomExpiry "room-2" (7 + SUB_ROOM_DELETE_AFTER)).
Proof.
  destruct (join_sub_room_spec "r" "room-1" "b" 7 SubRoomDemo.clks SubRoomDemo.s4 SubRoomDemo.m4)
    as (res & s' & sub' & Hrun & _ & _ & _ & Hexp).
  - exact SubRoomDemo.m4_at.
  - exact (SubRoomDemo.wf_at _ _ SubRoomDemo.s4_wf SubRoomDemo.m4_at).
  - vm_compute. eexists. reflexivity.
  - exists res, s'. split; [exact Hrun|]. apply Hexp. exists "room-2".
    split_and!; [vm_compute; reflexivity|discriminate| |reflexivity].
    split; [discriminate|]. vm_compute. eexists. split; reflexivity.
Defined.

Lemma expire_sub_room_spec_witness :
  let d := 7 + SUB_ROOM_DELETE_AFTER in
  (∃ room, find_sub_room "room-2" (sub_state_of (info SubRoomDemo.m5)) = Some room ∧
    delete_at room = Some d) ∧
  expire_sub_room "r" "room-2" (d + 1) SubRoomDemo.clks SubRoomDemo.s5 =
    (SubRoomActionResult_default, (expire_sub_room "r" "room-2" (d + 1) SubRoomDemo.clks SubRoomDemo.s5).2).
Proof.
  intros d. split.
  - destruct (expire_sub_room_spec "r" "room-2" d SubRoomDemo.clks SubRoomDemo.s5 SubRoomDemo.m5 _
      SubRoomDemo.m5_at SubRoomDemo.m5_state SubRoomDemo.m5_wf) as [(room & Hr & _ & _ & Hd & _)|(_ & He & _)].
    + exists room. exact (conj Hr Hd).
    + vm_compute in He. discriminate He.
  - vm_compute. reflexivity.
Defined.

Lemma set_passthrough_spec_witness :
  ∃ src, may_connect "b" src "room-1" (sub_state_of (info SubRoomDemo.m6)).
Proof.
  destruct (set_passthrough_spec "r" "b" "room-1" SubRoomDemo.clks SubRoomDemo.s6 SubRoomDemo.m6 _
    SubRoomDemo.m6_at SubRoomDemo.m6_state SubRoomDemo.m6_wf) as [(src & _ & _ & H & _)|(_ & e & He)].
  - exists src. exact H.
  - vm_compute in He. discriminate He.
Defined.
