(* ===== verification/Voice.v ===== *)
(** * Channel voice (wavis-backend/src/voice/voice_orchestrator.rs)

    The bridge between channel membership and rooms: the active-room map, the
    join of a channel member, the eviction of its stale session, and the
    ejection of a banned user.  The rows the database returns are arguments; the
    uuid crate is the class [UuidText]. *)

From S2P Require Import Prelude Signaling Invite RoomState ScreenShare SfuBridge Tokens SfuRelay SubRooms.
Local Open Scope Z_scope.
Local Open Scope prog_scope.

(** [ChannelRole]. *)
Inductive ChannelRole : Type :=
| Owner
| Admin
| Member.

(** [VoiceJoinError]; [VoicePanicked] is not of the source: it is the exit of a join whose
    [expect] found no value. *)
Inductive VoiceJoinError : Type :=
| NotChannelMember
| ChannelBanned
| InvalidChannelId
| VoiceRoomFull
| DatabaseError (reason : string)
| OfSfuError (reason : string)
| InternalError (reason : string)
| VoicePanicked.

(** [map_channel_role]. *)
Definition map_channel_role (role : ChannelRole) : ParticipantRole :=
  match role with Owner | Admin => Host | Member => Guest end.

(** [VoiceJoinResult]. *)
Record VoiceJoinResult : Type := mkVoiceJoinResult {
  vj_room_id : RoomId;
  vj_participant_role : ParticipantRole;
  vj_signals : list OutboundSignal;
  vj_channel_id : string;
  vj_evicted_peer_id : option string;
  vj_sub_room_expiry : option PendingSubRoomExpiry
}.

(** A row of the membership query: the role, when the user was banned, and the
    channel's passthrough setting. *)
Record MembershipRow : Type := mkMembershipRow {
  row_role : ChannelRole;
  row_banned_at : option Z;
  row_passthrough_enabled : bool
}.

(** The clocks and random draws of a voice join. *)
Record VoiceReads : Type := mkVoiceReads {
  vr_suffix : string;
  vr_reads : Reads;
  vr_clks : string → Instant * Z
}.

Section voice.
Context {B : Type} `{SfuRoomManager B, JwtCodec MediaTokenClaims, LiveKitTokens}.
Context {Uuid : Type} `{EqDecision Uuid} `{!Countable Uuid} `{UuidText Uuid}.

(** [ActiveRoomMap]. *)
Definition ActiveRoomMap : Type := gmap Uuid RoomId.

(** The state of the voice handlers. *)
Record VoiceWorld : Type := mkVoiceWorld {
  v_world : World B;
  v_map : ActiveRoomMap
}.

Definition on_world {E A} (m : M (World B) E A) : M VoiceWorld E A :=
  λ v, let '(r, w) := m (v_world v) in (r, mkVoiceWorld w (v_map v)).
Definition update_map {E} (f : ActiveRoomMap → ActiveRoomMap) : M VoiceWorld E unit :=
  modify (λ v, mkVoiceWorld (v_world v) (f (v_map v))).

Abbreviation VProg := (M VoiceWorld VoiceJoinError) (only parsing).
Abbreviation of_sfu := (λ e, OfSfuError (SfuError_to_string e)) (only parsing).

(** [sub_rooms.passthrough_enabled = enabled] on a room that has, or gets, sub-rooms. *)
Definition refresh_passthrough (enabled : bool) (i : RoomInfo) : RoomInfo :=
  let i := ensure_room_sub_rooms i in
  match sub_room_state i with
  | Some sub => set_sub_room_state (Some (set_enabled enabled sub)) i
  | None => i
  end.

(** [format!("channel-{channel_id}-{suffix}")]. *)
Definition channel_room_id (channel_id : Uuid) (suffix : string) : RoomId :=
  "channel-" +:+ uuid_to_string channel_id +:+ "-" +:+ suffix.

(** The creation of [ensure_active_room]: a room on the SFU, one in the table, and
    the mapping of the channel. *)
Definition create_active_room (channel_id : Uuid) (passthrough_enabled : bool)
    (max_participants : Z) (vr : VoiceReads) : VProg (RoomId * bool) :=
  let room_id := channel_room_id channel_id (vr_suffix vr) in
  let! handle := map_err_m of_sfu (on_world (call_bridge (sfu_create_room room_id))) in
  let info := set_sub_room_state
    (Some (set_enabled passthrough_enabled (SubRoomState_new DEFAULT_SUB_ROOM_ID)))
    (new_sfu max_participants handle (rd_created_at (vr_reads vr))) in
  let! created := on_world (call_rooms (create_room room_id info)) in
  if negb created then throw (InternalError "room already exists in state")
  else
    do! update_map <[channel_id := room_id]> in
    mret (room_id, true).

(** [ensure_active_room]. *)
Definition ensure_active_room (channel_id : Uuid) (passthrough_enabled : bool)
    (max_participants : Z) (vr : VoiceReads) : VProg (RoomId * bool) :=
  let! existing := gets (λ v, v_map v !! channel_id) in
  match existing with
  | Some room_id =>
      let! info := on_world (read_rooms (get_room_info room_id)) in
      if bool_decide (is_Some info) then
        do! on_world (do_rooms (update_room_info room_id (refresh_passthrough passthrough_enabled))) in
        mret (room_id, false)
      else
        do! update_map (delete channel_id) in
        create_active_room channel_id passthrough_enabled max_participants vr
  | None => create_active_room channel_id passthrough_enabled max_participants vr
  end.

(** [info.participants.iter().find(|p| p.user_id == Some(user_id))]. *)
Definition is_user (user_id_str : string) (p : ParticipantInfo) : bool :=
  bool_decide (user_id p = Some user_id_str).
Definition user_participant (room_id : RoomId) (user_id_str : string) (s : InMemoryRoomState)
    : option string :=
  i ← get_room_info room_id s;
  participant_id <$> List.find (is_user user_id_str) (participants i).

(** [evict_stale_session]. *)
Definition evict_stale_session (room_id : RoomId) (user_id_str : string) (vr : VoiceReads)
    : M (World B) SfuError
        (option (string * list OutboundSignal * option PendingSubRoomExpiry)) :=
  let! stale := read_rooms (user_participant room_id user_id_str) in
  match stale with
  | None => mret None
  | Some stale_peer_id =>
      let! handle := read_rooms (λ s, get_room_info room_id s ≫= sfu_handle) in
      do! evict handle user_id_str in
      let! viewers := call_rooms (update_room_info_capture room_id [] (take_viewer_identities stale_peer_id)) in
      do! for_each (evict handle) viewers in
      let! shares := call_rooms (cleanup_share_on_disconnect room_id stale_peer_id) in
      do! do_rooms (remove_peer_preserve_room stale_peer_id) in
      do! do_rooms (update_room_info room_id (drop_participant stale_peer_id)) in
      let! sub := call_rooms (remove_participant_from_sub_room room_id stale_peer_id
                    (rd_now (vr_reads vr)) (vr_clks vr)) in
      mret (Some (stale_peer_id,
        [broadcast_except stale_peer_id (Msg.ParticipantLeft (mkParticipantLeftPayload stale_peer_id))] ++
        sar_signals sub ++ default [] shares, sar_expiry sub))
  end.

(** [rollback_room]: the mapping is dropped only if it still names the room. *)
Definition unmap_room (channel_id : Uuid) (room_id : RoomId) (m : ActiveRoomMap) : ActiveRoomMap :=
  if bool_decide (m !! channel_id = Some room_id) then delete channel_id m else m.
Definition rollback_room {E} (room_id : RoomId) (channel_id : Uuid) : M VoiceWorld E unit :=
  let! _b := on_world (call_rooms (remove_empty_room room_id)) in
  update_map (unmap_room channel_id room_id).

(** The media token of a voice join: a LiveKit token names the user. *)
Definition mint_voice_token (token_mode : TokenMode) (room_id peer_id user_id_str display_name : string)
    (rd : Reads) : Result string SfuError :=
  match token_mode with
  | Custom secret issuer ttl =>
      sign_media_token room_id peer_id secret issuer ttl (rd_clock rd) (rd_jti rd)
  | LiveKit key secret ttl =>
      sign_livekit_token room_id (livekit_identity peer_id (Some user_id_str)) display_name key secret ttl
  end.

(** The signals of a successful voice join. *)
Definition voice_join_signals (room_id peer_id : string) (me : ParticipantInfo) (peer_count : Z)
    (existing : list ParticipantInfo) (share_perm : option WireSharePermission)
    (token sfu_url : string) (snapshot : OutboundSignal) : list OutboundSignal :=
  [to_peer peer_id (Msg.Joined (mkJoinedPayload room_id peer_id peer_count (existing ++ [me]) None share_perm));
   to_peer peer_id (Msg.MediaToken (mkMediaTokenPayload token sfu_url))] ++
  (match existing with
   | [] => []
   | _ => [to_peer peer_id (Msg.RoomState (mkRoomStatePayload existing))]
   end) ++
  [snapshot;
   broadcast_except peer_id (Msg.ParticipantJoined
     (mkParticipantJoinedPayload peer_id (display_name me) (user_id me) (profile_color me)))].

(** [room_state.try_add_peer_with(peer_id, room_id, || Ok(()))]. *)
Definition try_add_peer {E} (peer_id : PeerId) (room_id : RoomId)
    : M (World B) E (Result Z JoinRejectionReason) :=
  attempt (join_rooms peer_id room_id (λ inv, (Ok tt, inv))).

(** Undo the creation of the room, if it was created by this join. *)
Definition fail_join {A} (created : bool) (room_id : RoomId) (channel_id : Uuid) (e : VoiceJoinError)
    : VProg A :=
  do! when created (rollback_room room_id channel_id) in throw e.

(** Steps 5b to the end of [join_voice], after the eviction. *)
Definition enter_voice (room_id : RoomId) (created : bool) (channel_id : Uuid)
    (me : ParticipantInfo) (user_id_str : string) (token_mode : TokenMode) (sfu_url : string)
    (supports_sub_rooms : bool) (vr : VoiceReads) : VProg (list OutboundSignal) :=
  let peer_id := participant_id me in
  let! handle := on_world (read_rooms (λ s, get_room_info room_id s ≫= sfu_handle)) in
  match handle with
  | None => throw (InternalError "room missing SFU handle")
  | Some handle =>
      let! added := attempt (on_world (call_bridge
        (sfu_add_participant handle (livekit_identity peer_id (Some user_id_str))))) in
      match added with
      | Err e => fail_join created room_id channel_id (of_sfu e)
      | Ok _ =>
          let! existing := on_world (read_rooms (participants_of room_id)) in
          let! entered := on_world (try_add_peer peer_id room_id) in
          match entered with
          | Err _ => fail_join created room_id channel_id VoiceRoomFull
          | Ok _ =>
              do! on_world (do_rooms (update_room_info room_id (λ i,
                record_token_issued peer_id (rd_token_now (vr_reads vr))
                  (set_participants (λ ps, ps ++ [me]) i)))) in
              let! sync := on_world (call_rooms
                (sync_sub_room_state_on_voice_join room_id peer_id supports_sub_rooms (vr_clks vr))) in
              let! sync := lift_result (ok_or sync VoicePanicked) in
              let! token := lift_result (map_err of_sfu
                (mint_voice_token token_mode room_id peer_id user_id_str (display_name me) (vr_reads vr))) in
              let! count := on_world (read_rooms (peer_count room_id)) in
              let! share_perm := on_world (read_rooms (λ s,
                wire_of_share_permission ∘ share_permission <$> get_room_info room_id s)) in
              let! snapshot := on_world (read_rooms (share_state_snapshot room_id peer_id)) in
              mret (voice_join_signals room_id peer_id me (wrap_u32 count) existing share_perm token
                      sfu_url snapshot ++ sar_signals sync)
          end
      end
  end.

(** [join_voice]; [db] is the membership query for a channel and a user. *)
Definition join_voice (db : Uuid → Uuid → Result (option MembershipRow) string) (token_mode : TokenMode)
    (sfu_url channel_id_str : string) (uid : Uuid) (peer_id display_name : string)
    (profile_color : option string) (supports_sub_rooms : bool) (max_participants : Z)
    (vr : VoiceReads) : VProg VoiceJoinResult :=
  let! channel_id := lift_result (ok_or (uuid_parse_str channel_id_str) InvalidChannelId) in
  let! membership := lift_result (map_err DatabaseError (db channel_id uid)) in
  match membership with
  | None => throw NotChannelMember
  | Some row =>
      if bool_decide (is_Some (row_banned_at row)) then throw ChannelBanned
      else
        let participant_role := map_channel_role (row_role row) in
        let! active := ensure_active_room channel_id (row_passthrough_enabled row) max_participants vr in
        let '(room_id, created) := active in
        let user_id_str := uuid_to_string uid in
        let! evicted := map_err_m of_sfu (on_world (evict_stale_session room_id user_id_str vr)) in
        let me := new_participant peer_id display_name (Some user_id_str) profile_color in
        let! signals := enter_voice room_id created channel_id me user_id_str token_mode sfu_url
                          supports_sub_rooms vr in
        mret (mkVoiceJoinResult room_id participant_role
          (match evicted with Some (_, sigs, _) => sigs | None => [] end ++ signals)
          (uuid_to_string channel_id)
          (match evicted with Some (p, _, _) => Some p | None => None end)
          (match evicted with Some (_, _, e) => e | None => None end))
  end.

(** [find_user_in_voice]. *)
Definition find_user_in_voice (channel_id uid : Uuid) (v : VoiceWorld) : option (RoomId * string) :=
  room_id ← v_map v !! channel_id;
  p ← user_participant room_id (uuid_to_string uid) (w_rooms (v_world v));
  Some (room_id, p).

(** [eject_banned_user]. *)
Definition eject_banned_user (room_id : RoomId) (peer_id : PeerId) (channel_id : Uuid) (rd : Reads)
    : VProg (list OutboundSignal) :=
  let! signals := map_err_m (λ e, InternalError (SfuError_to_string e))
    (on_world (handle_kick room_id "__server__" Host peer_id rd)) in
  let! remaining := on_world (read_rooms (peer_count room_id)) in
  do! when (bool_decide (remaining = 0)) (
    let! handle := on_world (read_rooms (λ s, get_room_info room_id s ≫= sfu_handle)) in
    do! (match handle with
         | Some h => let! _r := attempt (on_world (call_bridge (sfu_destroy_room h))) in mret tt
         | None => mret tt
         end) in
    let! _b := on_world (call_rooms (remove_empty_room room_id)) in
    update_map (unmap_room channel_id room_id)) in
  mret signals.

(** [get_current_channel_role]; [db] is the query for a non-banned member. *)
Definition get_current_channel_role (db : Uuid → Uuid → Result (option ChannelRole) string)
    (channel_id : string) (uid : Uuid) : Result (option ChannelRole) VoiceJoinError :=
  match uuid_parse_str channel_id with
  | None => Err (InternalError "invalid channel_id in session")
  | Some channel_uuid => map_err DatabaseError (db channel_uuid uid)
  end.
End voice.
Arguments VoiceWorld B Uuid {_ _} : assert.

(** ** The participants of a room through the operations *)

Definition plist (r : RoomId) (s : InMemoryRoomState) : option (list ParticipantInfo) :=
  participants <$> get_room_info r s.

Lemma participants_of_plist r s : participants_of r s = default [] (plist r s).
Proof. unfold participants_of, plist. by destruct (get_room_info r s). Qed.

Lemma plist_update_capture {A} r (a : A) f g s :
  (∀ i, participants (f i).2 = g (participants i)) →
  plist r (update_room_info_capture r a f s).2 = g <$> plist r s.
Proof.
  intros Hf. unfold plist, get_room_info, update_room_info_capture.
  destruct (rooms s !! r) as [m|] eqn:E; simpl; [|by rewrite E].
  specialize (Hf (info m)). destruct (f (info m)). simpl in *. rewrite lookup_insert_eq. simpl. by f_equal.
Qed.

Lemma plist_update r f g s :
  (∀ i, participants (f i) = g (participants i)) →
  plist r (update_room_info r f s) = g <$> plist r s.
Proof. intros Hf. by apply plist_update_capture. Qed.

Lemma plist_update_same {A} r (a : A) f s :
  (∀ i, participants (f i).2 = participants i) →
  plist r (update_room_info_capture r a f s).2 = plist r s.
Proof. intros Hf. rewrite (plist_update_capture _ _ _ id) by done. apply option_fmap_id. Qed.

Lemma plist_with_room_write {R} r (f : RoomMembers → R * RoomMembers) s :
  (∀ m, participants (info (f m).2) = participants (info m)) →
  plist r (with_room_write r f s).2 = plist r s.
Proof.
  intros Hf. unfold plist, get_room_info, with_room_write.
  destruct (rooms s !! r) as [m|] eqn:E; simpl; [|by rewrite E].
  specialize (Hf m). destruct (f m). simpl in *. rewrite lookup_insert_eq. simpl. by f_equal.
Qed.

Lemma plist_remove_preserve p r s : plist r (remove_peer_preserve_room p s) = plist r s.
Proof.
  unfold plist, get_room_info, remove_peer_preserve_room, remove_peer_internal.
  destruct (peer_to_room s !! p) as [r0|]; [|done]. cbn [rooms set_peer_to_room].
  destruct (rooms s !! r0) as [m|] eqn:E; [|done]. simpl. rewrite lookup_insert.
  case_decide; [subst; by rewrite E|done].
Qed.

Lemma plist_cleanup r p s : plist r (cleanup_share_on_disconnect r p s).2 = plist r s.
Proof.
  unfold cleanup_share_on_disconnect.
  rewrite <-(plist_with_room_write r (cleanup_share_locked p) s).
  - by destruct (with_room_write _ _ _) as [[]].
  - intros m. unfold cleanup_share_locked. by case_bool_decide.
Qed.

Lemma on_sub_rooms_participants {A} (a : A) f i : participants (on_sub_rooms a f i).2 = participants i.
Proof. unfold on_sub_rooms. destruct (sub_room_state i) as [x|]; [|done]. by destruct (f x). Qed.

Lemma ensure_participants i : participants (ensure_room_sub_rooms i) = participants i.
Proof. unfold ensure_room_sub_rooms. by destruct (sub_room_state i). Qed.

Lemma plist_leave_sub_room r p now clks s :
  plist r (remove_participant_from_sub_room r p now clks s).2 = plist r s.
Proof.
  unfold remove_participant_from_sub_room, leave_sub_room.
  rewrite <-(plist_with_room_write r (leave_sub_room_locked p now) s).
  - by destruct (with_room_write _ _ _) as [[[]|]].
  - intros m. unfold leave_sub_room_locked.
    pose proof (on_sub_rooms_participants None (leave_locked p now) (info m)) as Hp.
    destruct (on_sub_rooms _ _ _) as [[x|] i]; [|done]. by case_bool_decide.
Qed.

Lemma plist_sync r p b clks s :
  plist r (sync_sub_room_state_on_voice_join r p b clks s).2 = plist r s.
Proof.
  unfold sync_sub_room_state_on_voice_join.
  set (f := λ i, on_sub_rooms (Some None) (sync_locked p b) (ensure_room_sub_rooms i)).
  pose proof (plist_update_same r (Some None) f s) as Hp.
  destruct (update_room_info_capture r (Some None) f s) as [x s']. apply Hp. intros i.
  unfold f. by rewrite on_sub_rooms_participants, ensure_participants.
Qed.

Lemma plist_try_add {X} p r (f : X → _) s x n s' x' :
  try_add_peer_with p r f s x = (Ok n, s', x') → plist r s' = plist r s.
Proof.
  intros (m & m' & Hm & Hm' & Hi & _)%try_add_room. unfold plist, get_room_info.
  rewrite Hm, Hm'. simpl. by rewrite Hi.
Qed.

(** The room after the sub-room step of a join. *)
Lemma sync_room r p b clks s m :
  rooms s !! r = Some m →
  peer_to_room (sync_sub_room_state_on_voice_join r p b clks s).2 = peer_to_room s ∧
  ∃ i, rooms (sync_sub_room_state_on_voice_join r p b clks s).2 !! r = Some (mkRoomMembers (peers m) i) ∧
    participants i = participants (info m).
Proof.
  intros Hm. unfold sync_sub_room_state_on_voice_join.
  set (f := λ i, on_sub_rooms (Some None) (sync_locked p b) (ensure_room_sub_rooms i)).
  pose proof (update_capture_lookup r (Some None) f s m Hm) as Hl.
  pose proof (peer_to_room_update_capture r (Some None) f s) as Hp.
  destruct (update_room_info_capture r (Some None) f s) as [x s']. split; [exact Hp|].
  eexists. split; [exact Hl|]. unfold f. by rewrite on_sub_rooms_participants, ensure_participants.
Qed.

(** ** Sessions *)

(** The entries of a user in a participant list. *)
Definition sessions (u : string) (ps : list ParticipantInfo) : list ParticipantInfo :=
  List.filter (is_user u) ps.

(** A user has at most one entry per room. *)
Definition one_session (s : InMemoryRoomState) : Prop :=
  ∀ r ps u, plist r s = Some ps → (length (sessions u ps) ≤ 1)%nat.

Lemma sessions_app u ps qs : sessions u (ps ++ qs) = sessions u ps ++ sessions u qs.
Proof. apply List.filter_app. Qed.

Lemma sessions_none u ps : List.find (is_user u) ps = None → sessions u ps = [].
Proof.
  induction ps as [|x ps IH]; simpl; [done|]. unfold sessions in *. simpl.
  destruct (is_user u x); [done|exact IH].
Qed.

Lemma sessions_dropped u ps q :
  List.find (is_user u) ps = Some q → (length (sessions u ps) ≤ 1)%nat →
  sessions u (retain (λ p, bool_decide (participant_id p ≠ participant_id q)) ps) = [].
Proof.
  intros [Hq Hu]%find_some_elem_of Hlen.
  assert (∀ x, x ∈ ps → is_user u x = true → x = q) as Huniq.
  { intros x Hx Hxu.
    assert (x ∈ sessions u ps ∧ q ∈ sessions u ps) as [H1 H2].
    { unfold sessions. by rewrite !list_elem_of_In, !filter_In, <-!list_elem_of_In. }
    destruct (sessions u ps) as [|y [|z l]]; simpl in Hlen; [by apply not_elem_of_nil in H1| |lia].
    apply list_elem_of_singleton in H1, H2. congruence. }
  destruct (sessions u (retain _ ps)) as [|x l] eqn:E; [done|]. exfalso.
  assert (x ∈ sessions u (retain (λ p, bool_decide (participant_id p ≠ participant_id q)) ps)) as Hx
    by (rewrite E; set_solver).
  unfold sessions in Hx. rewrite list_elem_of_In, filter_In, <-list_elem_of_In in Hx.
  destruct Hx as [[Hne Hin]%elem_of_retain Hxu]. apply bool_decide_eq_true in Hne.
  apply Hne. f_equal. by apply Huniq.
Qed.

(** ** Calls that only take participants away *)

(** A participant list afterwards is part of the list before. *)
Definition shrinks (s s' : InMemoryRoomState) : Prop :=
  ∀ r ps', plist r s' = Some ps' → ∃ ps, plist r s = Some ps ∧ ps' `sublist_of` ps.

Lemma shrinks_refl s : shrinks s s.
Proof. intros r ps Hp. by exists ps. Qed.

Lemma sessions_sublist u ps' ps : ps' `sublist_of` ps → (length (sessions u ps') ≤ length (sessions u ps))%nat.
Proof.
  induction 1; unfold sessions in *; simpl; [done|..]; destruct (is_user u _); simpl; lia.
Qed.

Lemma one_session_shrinks s s' : shrinks s s' → one_session s → one_session s'.
Proof.
  intros Hs H1 r ps' u Hp. destruct (Hs r ps' Hp) as (ps & Hps & Hsub).
  pose proof (sessions_sublist u _ _ Hsub). specialize (H1 r ps u Hps). lia.
Qed.

Lemma retain_sublist {A} (p : A → bool) l : retain p l `sublist_of` l.
Proof. induction l as [|x l IH]; simpl; [done|]. destruct (p x); by constructor. Qed.

Lemma shrinks_insert s s' r m m' :
  rooms s !! r = Some m → rooms s' = <[r := m']> (rooms s) →
  participants (info m') `sublist_of` participants (info m) → shrinks s s'.
Proof.
  intros Hm Hs' Hsub r' ps'. unfold plist, get_room_info. rewrite Hs', lookup_insert.
  case_decide; [|by eauto]. simpl. intros [= <-]. subst. rewrite Hm. by eexists.
Qed.

Lemma shrinks_update_capture {A} r (a : A) f s :
  (∀ i, participants (f i).2 `sublist_of` participants i) →
  shrinks s (update_room_info_capture r a f s).2.
Proof.
  intros Hf. unfold update_room_info_capture. destruct (rooms s !! r) as [m|] eqn:E; [|apply shrinks_refl].
  specialize (Hf (info m)). destruct (f (info m)) as [x i]. by eapply shrinks_insert.
Qed.

Lemma shrinks_update r f s :
  (∀ i, participants (f i) `sublist_of` participants i) → shrinks s (update_room_info r f s).
Proof. intros Hf. by apply shrinks_update_capture. Qed.

Lemma shrinks_with_room_write {R} r (f : RoomMembers → R * RoomMembers) s :
  (∀ m, participants (info (f m).2) `sublist_of` participants (info m)) →
  shrinks s (with_room_write r f s).2.
Proof.
  intros Hf. unfold with_room_write. destruct (rooms s !! r) as [m|] eqn:E; [|apply shrinks_refl].
  specialize (Hf m). destruct (f m) as [x m']. by eapply shrinks_insert.
Qed.

Lemma shrinks_delete s r : shrinks s (set_rooms (delete r) s).
Proof.
  intros r' ps'. unfold plist, get_room_info. simpl. rewrite lookup_delete.
  case_decide; [done|]. by eauto.
Qed.

Lemma shrinks_remove_empty_room r s : shrinks s (remove_empty_room r s).2.
Proof.
  unfold remove_empty_room. repeat case_match; cbn [snd]; auto using shrinks_refl, shrinks_delete.
Qed.

Lemma shrinks_remove_peer_internal p b s : shrinks s (remove_peer_internal p b s).
Proof.
  intros r ps'. unfold plist, get_room_info.
  destruct (rooms (remove_peer_internal p b s) !! r) as [m|] eqn:E; [|done]. simpl. intros [= <-].
  apply rooms_remove_peer_internal in E as (m0 & -> & -> & _). by eexists.
Qed.

Lemma shrinks_cleanup r p s : shrinks s (cleanup_share_on_disconnect r p s).2.
Proof.
  unfold cleanup_share_on_disconnect. pose proof (shrinks_with_room_write r (cleanup_share_locked p) s) as Hw.
  destruct (with_room_write _ _ _) as [[]]; apply Hw; intros m; unfold cleanup_share_locked;
    by case_bool_decide.
Qed.

Lemma leave_sub_room_locked_frame p now m :
  peers (leave_sub_room_locked p now m).2 = peers m ∧
  participants (info (leave_sub_room_locked p now m).2) = participants (info m) ∧
  max_participants (info (leave_sub_room_locked p now m).2) = max_participants (info m) ∧
  (share_wf (info m) → share_wf (info (leave_sub_room_locked p now m).2)) ∧
  (one_ok (info m) → one_ok (info (leave_sub_room_locked p now m).2)).
Proof.
  pose proof (on_sub_rooms_one None (leave_locked p now) (info m) (leave_locked_one p now)) as Ho. revert Ho.
  unfold leave_sub_room_locked, on_sub_rooms. destruct (sub_room_state (info m)) as [sub|].
  - destruct (leave_locked p now sub) as [[x|] sub']; [case_bool_decide|]; cbn [snd];
      intros Ho; split_and!; try done; intros Hs; [apply share_wf_drop|..]; by eapply share_wf_ext; [..|exact Hs].
  - intros Ho. split_and!; try done.
Qed.

Lemma rooms_ok_leave_sub r p now clks s :
  rooms_ok s → rooms_ok (remove_participant_from_sub_room r p now clks s).2.
Proof.
  intros Hs. unfold remove_participant_from_sub_room, leave_sub_room.
  pose proof (rooms_ok_with_room_write r (leave_sub_room_locked p now) s) as Hw.
  destruct (with_room_write _ _ _) as [[[]|] s']; (apply Hw; [|done]); intros m;
    destruct (leave_sub_room_locked_frame p now m) as (? & ? & ? & ? & ?); done.
Qed.

Lemma shrinks_leave_sub r p now clks s : shrinks s (remove_participant_from_sub_room r p now clks s).2.
Proof.
  unfold remove_participant_from_sub_room, leave_sub_room.
  pose proof (shrinks_with_room_write r (leave_sub_room_locked p now) s) as Hw.
  destruct (with_room_write _ _ _) as [[[]|] s']; apply Hw; intros m;
    destruct (leave_sub_room_locked_frame p now m) as (_ & -> & _); done.
Qed.

Lemma rooms_ok_remove_empty r s : rooms_ok s → rooms_ok (remove_empty_room r s).2.
Proof.
  intros [H1 H2 H3 H4]. split.
  - eauto using room_wf_ext, peers_at_remove_empty_room, peer_to_room_remove_empty_room.
  - unfold remove_empty_room. repeat case_match; try done. intros r' m'. simpl.
    rewrite lookup_delete. case_decide; [done|apply H2].
  - unfold remove_empty_room. repeat case_match; try done. intros r' m'. simpl.
    rewrite lookup_delete. case_decide; [done|apply H3].
  - unfold remove_empty_room. repeat case_match; try done. intros r' m'. simpl.
    rewrite lookup_delete. case_decide; [done|apply H4].
Qed.

(** A call that keeps the table's invariant, takes participants away at most, and
    takes peers off the index at most. *)
Record quiet (f : InMemoryRoomState → InMemoryRoomState) : Prop := mk_quiet {
  quiet_ok s : rooms_ok s → rooms_ok (f s);
  quiet_shrinks s : shrinks s (f s);
  quiet_index s : peer_to_room (f s) = peer_to_room s ∨ ∃ p, peer_to_room (f s) = delete p (peer_to_room s)
}.

Lemma quiet_update r f :
  info_safe f → (∀ i, participants (f i) `sublist_of` participants i) → quiet (update_room_info r f).
Proof.
  intros Hs Hp. split; intros s; [by apply rooms_ok_update|by apply shrinks_update|].
  left. apply peer_to_room_update.
Qed.

Lemma quiet_update_capture {A} r (a : A) f :
  info_safe (λ i, (f i).2) → (∀ i, participants (f i).2 = participants i) →
  quiet (λ s, (update_room_info_capture r a f s).2).
Proof.
  intros Hs Hp. split; intros s; [by apply rooms_ok_update_capture| |left; apply peer_to_room_update_capture].
  apply shrinks_update_capture. intros i. by rewrite Hp.
Qed.

Lemma quiet_cleanup r p : quiet (λ s, (cleanup_share_on_disconnect r p s).2).
Proof.
  split; intros s; [by apply rooms_ok_cleanup|apply shrinks_cleanup|left; apply cleanup_share_membership].
Qed.

Lemma quiet_remove_peer_internal p b : quiet (remove_peer_internal p b).
Proof.
  split; intros s; [by apply rooms_ok_remove_peer_internal|apply shrinks_remove_peer_internal|].
  right. exists p. apply peer_to_room_remove_peer_internal.
Qed.

Lemma quiet_remove_empty r : quiet (λ s, (remove_empty_room r s).2).
Proof.
  split; intros s; [by apply rooms_ok_remove_empty|apply shrinks_remove_empty_room|].
  left. apply peer_to_room_remove_empty_room.
Qed.

Lemma leave_sub_index r p now clks s :
  peer_to_room (remove_participant_from_sub_room r p now clks s).2 = peer_to_room s.
Proof.
  unfold remove_participant_from_sub_room, leave_sub_room.
  pose proof (peer_to_room_with_room_write r (leave_sub_room_locked p now) s) as Hw.
  by destruct (with_room_write _ _ _) as [[[]|] s'].
Qed.

Lemma quiet_leave_sub r p now clks : quiet (λ s, (remove_participant_from_sub_room r p now clks s).2).
Proof.
  split; intros s; [by apply rooms_ok_leave_sub|apply shrinks_leave_sub|]. left. apply leave_sub_index.
Qed.

Lemma drop_participant_sublist p i : participants (drop_participant p i) `sublist_of` participants i.
Proof. apply retain_sublist. Qed.

#[export] Hint Resolve quiet_update quiet_update_capture quiet_cleanup quiet_remove_peer_internal
  quiet_remove_empty quiet_leave_sub drop_participant_sublist : wavis.

(** The invariant of the voice handlers' world; [P] is kept by removals from the index. *)
Section sess_wf.
Context {B : Type} (P : gmap PeerId RoomId → Prop) (HP : ∀ m p, P m → P (delete p m)).

Record sess_wf (w : World B) : Prop := mk_sess_wf {
  sess_world : world_wf w;
  sess_one : one_session (w_rooms w);
  sess_index : P (peer_to_room (w_rooms w))
}.

Lemma sess_wf_quiet f (w : World B) :
  quiet f → sess_wf w → sess_wf (mkWorld (f (w_rooms w)) (w_invites w) (w_bridge w)).
Proof.
  intros [F1 F2 F3] [[W1 W2] W3 W4]. split; [split; [by apply F1|done]| |].
  - simpl. eapply one_session_shrinks; [apply F2|done].
  - simpl. destruct (F3 (w_rooms w)) as [->|[p ->]]; auto.
Qed.

Lemma sess_wf_do_rooms {E} f : quiet f → preserves (E:=E) sess_wf (do_rooms f).
Proof. intros Hf. apply preserves_modify. intros w. by apply sess_wf_quiet. Qed.

Lemma sess_wf_call_rooms {E A} (f : InMemoryRoomState → A * InMemoryRoomState) :
  quiet (λ s, (f s).2) → preserves (E:=E) sess_wf (call_rooms f).
Proof.
  intros Hf. apply preserves_state. intros w Hw. pose proof (sess_wf_quiet _ w Hf Hw) as Hq.
  simpl in Hq. by destruct (f (w_rooms w)).
Qed.

Lemma sess_wf_call_bridge {X A} (f : B → Result A X * B) : preserves sess_wf (call_bridge f).
Proof.
  intros w [[W1 W2] W3 W4]. unfold call_bridge. destruct (f (w_bridge w)). by split; [split|..].
Qed.
End sess_wf.

#[export] Hint Resolve sess_wf_do_rooms sess_wf_call_rooms sess_wf_call_bridge : wavis.

Section voice_join.
Context {B : Type} `{SfuRoomManager B, JwtCodec MediaTokenClaims, LiveKitTokens}.
Context {Uuid : Type} `{EqDecision Uuid} `{!Countable Uuid} `{UuidText Uuid}.

Abbreviation VW := (VoiceWorld B Uuid) (only parsing).
Abbreviation table v := (w_rooms (v_world v)) (only parsing).

Lemma evict_stale_session_spec r u vr (w : World B) :
  ∃ out s' b, evict_stale_session r u vr w = (Ok out, mkWorld s' (w_invites w) b) ∧
    match user_participant r u (w_rooms w) with
    | None => out = None ∧ s' = w_rooms w
    | Some p => (∃ sigs e, out = Some (p, sigs, e)) ∧
        plist r s' = retain (λ q, bool_decide (participant_id q ≠ p)) <$> plist r (w_rooms w)
    end.
Proof.
  unfold evict_stale_session. rewrite bind_read.
  destruct (user_participant r u (w_rooms w)) as [p|].
  - rewrite bind_read, bind_evict, bind_call_rooms, bind_evict_all, bind_call_rooms, !bind_do_rooms,
      bind_call_rooms. eexists _, _, _. split; [reflexivity|]. cbn [w_rooms].
    split; [by eexists _, _|]. rewrite plist_leave_sub_room.
    rewrite (plist_update _ _ (retain (λ q, bool_decide (participant_id q ≠ p)))) by done.
    rewrite plist_remove_preserve, plist_cleanup, plist_update_same by done. done.
  - destruct w as [s inv b]. by eexists _, _, _.
Qed.

Lemma bind_on_world {E A C} (m : M (World B) E A) (k : A → M VW E C) (v : VW) :
  mbind_ (on_world m) k v =
    match m (v_world v) with
    | (Ok a, w) => k a (mkVoiceWorld w (v_map v))
    | (Err e, w) => (Err e, mkVoiceWorld w (v_map v))
    end.
Proof. unfold mbind_, on_world. by destruct (m (v_world v)) as [[]]. Qed.

(** What [ensure_active_room] does to the room it returns. *)
Definition ensured (r : RoomId) (created : bool) (s s1 : InMemoryRoomState) : Prop :=
  (created = false ∧ plist r s1 = plist r s) ∨
  (created = true ∧ rooms s !! r = None ∧ plist r s1 = Some []).

Lemma create_active_room_Ok c b max vr (v v1 : VW) r created :
  create_active_room c b max vr v = (Ok (r, created), v1) →
  created = true ∧ r = channel_room_id c (vr_suffix vr) ∧ v_map v1 = <[c := r]> (v_map v) ∧
  rooms (table v) !! r = None ∧ plist r (table v1) = Some [].
Proof.
  unfold create_active_room. unfold mbind_ at 1, map_err_m, on_world at 1, call_bridge.
  destruct (sfu_create_room _ _) as [[h|e] b']; [|done]. cbn [map_err].
  rewrite bind_on_world. unfold call_rooms, state, create_room. cbn [v_world v_map w_rooms].
  destruct (rooms (table v) !! _) eqn:Er; [done|]. intros [= <- <- <-]. cbn [v_map v_world w_rooms].
  split_and!; [done..|]. unfold plist, get_room_info. simpl. by rewrite lookup_insert_eq.
Qed.

(** The room a voice join ends up in, before the joiner is added. *)
Lemma ensure_active_room_Ok c b max vr (v v1 : VW) r created :
  ensure_active_room c b max vr v = (Ok (r, created), v1) →
  v_map v1 !! c = Some r ∧ ensured r created (table v) (table v1).
Proof.
  assert (∀ v0 : VW, table v0 = table v →
    create_active_room c b max vr v0 = (Ok (r, created), v1) →
    v_map v1 !! c = Some r ∧ created = true ∧ rooms (table v) !! r = None ∧
    plist r (table v1) = Some []) as Hnew.
  { intros v0 Ht (-> & _ & Hmap & Hr & Hp)%create_active_room_Ok. rewrite Hmap, <-Ht.
    split; [|done]. apply (lookup_insert_eq (M:=gmap Uuid)). }
  unfold ensure_active_room. unfold mbind_ at 1, gets.
  destruct (v_map v !! c) as [r0|] eqn:Em; [|intros Hc; destruct (Hnew v eq_refl Hc); split; [done|by right]].
  rewrite bind_on_world. cbn [read_rooms gets]. case_bool_decide as Hlive.
  - rewrite bind_on_world. intros [= <- <- <-]. cbn [v_map v_world w_rooms].
    split; [done|]. left. split; [done|]. rewrite (plist_update _ _ id); [apply option_fmap_id|].
    intros i. unfold refresh_passthrough. rewrite <-(ensure_participants i). by case_match.
  - unfold mbind_ at 1. intros Hc. eapply Hnew in Hc as []; [split; [done|by right]|done].
Qed.

Lemma rollback_throws {A} created r c e (v v' : VW) (a : A) :
  fail_join created r c e v ≠ (Ok a, v').
Proof.
  unfold fail_join, when, rollback_room. destruct created; [|by intros [=]].
  unfold mbind_ at 1. rewrite bind_on_world. unfold call_rooms, state. simpl.
  destruct (remove_empty_room r (table v)). by intros [=].
Qed.

Lemma fail_join_reason {A} created r c e (v : VW) :
  e ≠ VoicePanicked → (fail_join (A:=A) created r c e v).1 ≠ Err VoicePanicked.
Proof.
  intros He. unfold fail_join, when. destruct created; [|simpl; congruence].
  unfold rollback_room, mbind_, on_world, call_rooms, state, update_map, modify, throw. cbn.
  destruct (remove_empty_room _ _). cbn. congruence.
Qed.

(** Entering a room that exists. *)
Lemma enter_voice_Ok r created c me u mode url sub vr (v v' : VW) sigs :
  enter_voice r created c me u mode url sub vr v = (Ok sigs, v') →
  v_map v' = v_map v ∧ ∃ ps m' token,
    plist r (table v) = Some ps ∧ rooms (table v') !! r = Some m' ∧
    participant_id me ∈ peers m' ∧ peer_to_room (table v') !! participant_id me = Some r ∧
    participants (info m') = ps ++ [me] ∧
    mint_voice_token mode r (participant_id me) u (display_name me) (vr_reads vr) = Ok token.
Proof.
  unfold enter_voice. rewrite bind_on_world. cbn [read_rooms gets].
  destruct (get_room_info r (table v) ≫= sfu_handle) as [h|]; [|by intros [=]].
  unfold mbind_ at 1, attempt, on_world at 1, call_bridge. cbn [v_world v_map].
  destruct (sfu_add_participant _ _ _) as [[[]|e] b]; [|by intros ?%rollback_throws].
  rewrite bind_on_world. cbn [read_rooms gets v_world v_map w_rooms].
  rewrite bind_on_world. unfold try_add_peer, attempt, join_rooms. cbn [v_world v_map w_rooms w_invites w_bridge].
  destruct (try_add_peer_with (participant_id me) r _ (table v) (w_invites (v_world v)))
    as [[[n|e] s1] inv1] eqn:Et; [|by intros ?%rollback_throws].
  rewrite bind_on_world. cbn [do_rooms modify v_world v_map w_rooms w_invites w_bridge].
  rewrite bind_on_world. unfold call_rooms, state. cbn [v_world v_map w_rooms w_invites w_bridge].
  destruct (try_add_room _ _ _ _ _ _ _ _ Et) as (m & m1 & Hm & Hm1 & Hi & Hin & Hidx).
  set (s2 := update_room_info r _ s1).
  pose proof (update_capture_lookup r tt (λ i, (tt, record_token_issued (participant_id me)
    (rd_token_now (vr_reads vr)) (set_participants (λ ps, ps ++ [me]) i))) s1 m1 Hm1) as Hm2.
  pose proof (sync_room r (participant_id me) sub (vr_clks vr) s2 _ Hm2) as (Hp3 & i3 & Hm3 & Hi3).
  destruct (sync_sub_room_state_on_voice_join _ _ _ _ s2) as [[sync|] s3]; cbn [snd] in *;
    [|by intros [=]].
  unfold mbind_ at 1, lift_result at 1. cbn [ok_or]. unfold mbind_ at 1, lift_result.
  destruct (mint_voice_token _ _ _ _ _ _) as [token|e]; [|by intros [=]]. cbn [map_err].
  rewrite !bind_on_world. intros [= <- <-]. cbn [v_map v_world w_rooms].
  split; [done|]. eexists (participants (info m)), _, token. split_and!; [|exact Hm3|done| | |done].
  - unfold plist, get_room_info. by rewrite Hm.
  - rewrite Hp3. unfold s2. by rewrite peer_to_room_update.
  - cbn [info]. rewrite Hi3. simpl. by rewrite Hi.
Qed.

(** ** The invariant of the voice rooms *)

Lemma evict_sess P h id : preserves (sess_wf P) (evict (B:=B) h id).
Proof. unfold evict. solve_preserves. Qed.
#[local] Hint Resolve evict_sess : wavis.

Lemma evict_stale_session_sess P r u vr :
  (∀ m p, P m → P (delete p m)) → preserves (sess_wf P) (evict_stale_session (B:=B) r u vr).
Proof. intros HP. unfold evict_stale_session, remove_peer_preserve_room. solve_preserves. Qed.

Lemma handle_kick_sess P r k role t rd :
  (∀ m p, P m → P (delete p m)) → preserves (sess_wf P) (handle_kick (B:=B) r k role t rd).
Proof.
  intros HP. unfold handle_kick, remove_peer. solve_preserves.
  apply sess_wf_do_rooms; [done|]. apply quiet_update; [by eauto with wavis|apply drop_participant_sublist].
Qed.

(** Every mapped room is named after its channel. *)
Definition map_ok (m : gmap Uuid RoomId) : Prop :=
  ∀ c r, m !! c = Some r → ∃ suffix, r = channel_room_id c suffix.

Record voice_wf (P : gmap PeerId RoomId → Prop) (v : VW) : Prop := mk_voice_wf {
  voice_sess : sess_wf P (v_world v);
  voice_map : map_ok (v_map v)
}.

Lemma voice_wf_on_world {E A} P (m : M (World B) E A) :
  preserves (sess_wf P) m → preserves (voice_wf P) (on_world (Uuid:=Uuid) m).
Proof.
  intros Hm v [H1' H2']. unfold on_world. specialize (Hm _ H1'). by destruct (m (v_world v)).
Qed.

Lemma voice_wf_update_map {E} P f :
  (∀ m, map_ok m → map_ok (f m)) → preserves (E:=E) (voice_wf P) (update_map f).
Proof. intros Hf. apply preserves_modify. intros v [H1' H2']. split; [done|by apply Hf]. Qed.

Lemma map_ok_delete c m : map_ok m → map_ok (delete c m).
Proof. intros Hm c' r. rewrite lookup_delete_Some. intros [_ ?]. by apply Hm. Qed.

Lemma map_ok_insert c suffix m : map_ok m → map_ok (<[c := channel_room_id c suffix]> m).
Proof.
  intros Hm c' r. rewrite lookup_insert_Some. intros [[<- <-]|[_ ?]]; [by eexists|by apply Hm].
Qed.

Lemma map_ok_unmap c r m : map_ok m → map_ok (unmap_room c r m).
Proof. intros Hm. unfold unmap_room. case_bool_decide; [by apply map_ok_delete|done]. Qed.

#[local] Hint Resolve voice_wf_on_world voice_wf_update_map map_ok_delete map_ok_insert map_ok_unmap : wavis.

Lemma sess_wf_create_room {E} P r i :
  0 ≤ max_participants i → share_wf i → one_ok i → participants i = [] →
  preserves (E:=E) (sess_wf P) (call_rooms (B:=B) (create_room r i)).
Proof.
  intros Hmax Hsh Hone Hp. apply preserves_state. intros w [[W1 W2] W3 W4].
  pose proof (rooms_ok_create_room r i _ Hmax Hsh Hone W1) as Hok.
  pose proof (peer_to_room_create_room r i (w_rooms w)) as Hidx.
  assert (one_session (create_room r i (w_rooms w)).2) as H1'.
  { unfold create_room. destruct (rooms (w_rooms w) !! r) eqn:E1; [done|].
    intros r' ps u. unfold plist, get_room_info. simpl. rewrite lookup_insert. case_decide.
    - intros [= <-]. rewrite Hp. simpl. lia.
    - apply W3. }
  destruct (create_room r i (w_rooms w)) as [b s]. cbn [snd] in *. split; [by split|done|].
  simpl. by rewrite Hidx.
Qed.

Lemma info_safe_refresh b : info_safe (refresh_passthrough b).
Proof.
  apply info_safe_sub; intros i.
  - unfold refresh_passthrough, ensure_room_sub_rooms. by destruct (sub_room_state i) eqn:E; simpl; rewrite ?E.
  - intros Hi%ensure_one. unfold refresh_passthrough. cbv zeta.
    destruct (sub_room_state (ensure_room_sub_rooms i)) as [sub|] eqn:E; [|done]. intros ? [= <-]. exact (Hi sub E).
Qed.

Lemma create_active_room_wf P c b max vr : preserves (voice_wf P) (create_active_room (B:=B) c b max vr).
Proof.
  unfold create_active_room. solve_preserves. apply voice_wf_on_world, sess_wf_create_room;
    [|by apply share_wf_fresh| |done]; [|intros ? [= <-]; apply has_one_new].
  pose proof (max_new_sfu max a (rd_created_at (vr_reads vr))) as Hmax. simpl in *. lia.
Qed.

Lemma ensure_active_room_wf P c b max vr :
  (∀ m p, P m → P (delete p m)) → preserves (voice_wf P) (ensure_active_room (B:=B) c b max vr).
Proof.
  intros HP. unfold ensure_active_room. pose proof (create_active_room_wf P c b max vr) as Hc.
  revert Hc. generalize (create_active_room (B:=B) c b max vr). intros create Hc. solve_preserves. apply voice_wf_on_world, sess_wf_do_rooms; [done|].
  apply quiet_update; [apply info_safe_refresh|]. intros i. unfold refresh_passthrough.
  rewrite <-(ensure_participants i). by case_match.
Qed.

Lemma rollback_wf {E} P r c :
  (∀ m p, P m → P (delete p m)) → preserves (voice_wf P) (rollback_room (E:=E) (B:=B) r c).
Proof. intros HP. unfold rollback_room. solve_preserves. Qed.

Lemma fail_join_wf {A} P created r c e :
  (∀ m p, P m → P (delete p m)) → preserves (voice_wf P) (fail_join (B:=B) (A:=A) created r c e).
Proof. intros HP. pose proof (rollback_wf (E:=VoiceJoinError) P r c HP). unfold fail_join. solve_preserves. Qed.

Lemma eject_banned_user_wf P r p c rd :
  (∀ m p, P m → P (delete p m)) → preserves (voice_wf P) (eject_banned_user (B:=B) r p c rd).
Proof.
  intros HP. pose proof (handle_kick_sess P r "__server__" Host p rd HP).
  unfold eject_banned_user. solve_preserves.
Qed.

Lemma voice_wf_weaken P (v : VW) : voice_wf P v → voice_wf (λ _, True) v.
Proof. intros [[W1 W2 W3] Hm]. by split; [split|]. Qed.

(** Adding a participant whose user has no entry in the room yet. *)
Lemma one_session_push r me u f s :
  user_id me = Some u → (∀ ps, plist r s = Some ps → sessions u ps = []) →
  (∀ i, participants (f i) = participants i ++ [me]) →
  one_session s → one_session (update_room_info r f s).
Proof.
  intros Hme Hnone Hf Hs r' ps' u' Hp. destruct (decide (r' = r)) as [->|Hr].
  - rewrite (plist_update _ _ (λ ps, ps ++ [me])) in Hp by done.
    destruct (plist r s) as [ps|] eqn:E; [|done]. simplify_eq/=.
    rewrite sessions_app, length_app. specialize (Hs r ps u' E).
    assert (sessions u' [me] = if is_user u' me then [me] else []) as -> by done.
    unfold is_user. case_bool_decide as Hu'; simpl; [|lia].
    assert (u' = u) as -> by congruence. rewrite (Hnone ps eq_refl). simpl. lia.
  - apply (Hs r' ps' u'). rewrite <-Hp. unfold plist, get_room_info, update_room_info, update_room_info_capture.
    destruct (rooms s !! r); [|done]. simpl. by rewrite lookup_insert_ne.
Qed.

Lemma sync_quiet r p b clks : quiet (λ s, (sync_sub_room_state_on_voice_join r p b clks s).2).
Proof.
  set (f := λ i, on_sub_rooms (Some None) (sync_locked p b) (ensure_room_sub_rooms i)).
  assert (quiet (λ s, (update_room_info_capture r (Some None) f s).2)) as [Q1 Q2 Q3].
  { apply quiet_update_capture.
    - apply info_safe_sub; intros i.
      + unfold f, on_sub_rooms, ensure_room_sub_rooms.
        destruct (sub_room_state i) as [x|] eqn:E; simpl; rewrite ?E; by destruct (sync_locked p b _).
      + intros Hi. apply on_sub_rooms_one; [apply sync_locked_one|by apply ensure_one].
    - intros i. unfold f. by rewrite on_sub_rooms_participants, ensure_participants. }
  assert (∀ s, (sync_sub_room_state_on_voice_join r p b clks s).2 = (update_room_info_capture r (Some None) f s).2) as Heq.
  { intros s. unfold sync_sub_room_state_on_voice_join, f. by destruct (update_room_info_capture _ _ _ _). }
  split; intros s; rewrite Heq; auto.
Qed.

(** Adding the joiner: the capacity check, then its participant entry. *)
Lemma joined_sess r me u (w : World B) n s1 inv1 f :
  user_id me = Some u → sess_wf (λ m, m !! participant_id me = None) w →
  (∀ ps, plist r (w_rooms w) = Some ps → sessions u ps = []) →
  try_add_peer_with (participant_id me) r (λ inv, (Ok tt, inv)) (w_rooms w) (w_invites w) = (Ok n, s1, inv1) →
  info_safe f → (∀ i, participants (f i) = participants i ++ [me]) →
  sess_wf (λ _, True) (mkWorld (update_room_info r f s1) inv1 (w_bridge w)).
Proof.
  intros Hme [[W1 W2] W3 W4] Hnone Et Hf Hp.
  pose proof (rooms_ok_try_add (participant_id me) r (λ inv, (Ok tt, inv)) (w_rooms w) (w_invites w)) as Hok.
  rewrite Et in Hok. cbn [fst snd] in Hok.
  assert (inv1 = w_invites w) as ->.
  { apply try_add_closure in Et. destruct (contains _ _); congruence. }
  assert (∀ r', plist r' s1 = plist r' (w_rooms w)) as Hpl.
  { intros r'. destruct (decide (r' = r)) as [->|Hr]; [by eapply plist_try_add|].
    revert Et. unfold try_add_peer_with. destruct (rooms (w_rooms w) !! r) as [m|]; [|done].
    destruct (contains _ _); [by intros [= <- <-]|]. case_bool_decide; [done|]. intros [= <- <-].
    unfold plist, get_room_info. simpl. by rewrite lookup_insert_ne. }
  split; [split; [|done]|..]; simpl.
  - apply rooms_ok_update; [done|]. apply Hok; [|done]. intros r0. by rewrite W4.
  - eapply one_session_push; [done|intros ps; rewrite Hpl; apply Hnone|done|].
    intros r' ps' u'. rewrite Hpl. apply W3.
  - done.
Qed.

Lemma enter_voice_wf r created c me u mode url sub vr (v : VW) :
  user_id me = Some u → voice_wf (λ m, m !! participant_id me = None) v →
  (∀ ps, plist r (table v) = Some ps → sessions u ps = []) →
  voice_wf (λ _, True) (enter_voice r created c me u mode url sub vr v).2.
Proof.
  intros Hme Hv Hnone. unfold enter_voice. rewrite bind_on_world. cbn [read_rooms gets].
  destruct (get_room_info r (table v) ≫= sfu_handle) as [h|]; [|destruct v; exact (voice_wf_weaken _ _ Hv)].
  unfold mbind_ at 1, attempt, on_world at 1, call_bridge. cbn [v_world v_map].
  destruct (sfu_add_participant _ _ _) as [res b].
  assert (voice_wf (λ m, m !! participant_id me = None)
    (mkVoiceWorld (mkWorld (table v) (w_invites (v_world v)) b) (v_map v))) as Hv1.
  { destruct Hv as [[[W1 W2] W3 W4] Hm]. by split; [split; [split|..]|]. }
  destruct res as [[]|e].
  2: { apply fail_join_wf; [done|]. by eapply voice_wf_weaken. }
  rewrite bind_on_world. cbn [read_rooms gets v_world v_map w_rooms].
  rewrite bind_on_world. unfold try_add_peer, attempt, join_rooms. cbn [v_world v_map w_rooms w_invites w_bridge].
  destruct (try_add_peer_with (participant_id me) r _ (table v) (w_invites (v_world v)))
    as [[[n|e] s1] inv1] eqn:Et.
  2: { apply fail_join_wf; [done|]. pose proof (try_add_closure _ _ _ _ _ _ _ _ Et) as Hcl.
       apply try_add_Err in Et as ->. eapply voice_wf_weaken.
       assert (inv1 = w_invites (v_world v)) as -> by (destruct Hcl as [[_ ?]|?]; congruence). exact Hv1. }
  rewrite bind_on_world. cbn [do_rooms modify v_world v_map w_rooms w_invites w_bridge].
  set (f := λ i, record_token_issued (participant_id me) (rd_token_now (vr_reads vr))
    (set_participants (λ ps, ps ++ [me]) i)).
  assert (voice_wf (λ _, True) (mkVoiceWorld (mkWorld (update_room_info r f s1) inv1 b) (v_map v))) as Hv2.
  { split; [|apply Hv]. apply (joined_sess r me u (mkWorld (table v) (w_invites (v_world v)) b) n s1 inv1 f);
      [done|apply Hv1|done|done| |done]. unfold f. eauto with wavis. }
  match goal with |- voice_wf _ (?m ?v0).2 =>
    cut (preserves (voice_wf (λ _, True)) m); [intros Hpres; apply (Hpres v0), Hv2|] end.
  clear. pose proof (sync_quiet r (participant_id me) sub (vr_clks vr)). solve_preserves.
Qed.

(** *** The [expect] of a join *)

Lemma try_add_one {X} p r (f : X → _) s x :
  ones_ok s → ones_ok (try_add_peer_with p r f s x).1.2.
Proof.
  intros Hs. unfold try_add_peer_with. destruct (rooms s !! r) as [m|] eqn:Em; [|done].
  destruct (contains p (peers m)); [done|]. case_bool_decide; [done|]. destruct (f x) as [[]?]; [|done].
  intros r' m'. simpl. rewrite lookup_insert. case_decide; [intros [= <-]; exact (Hs _ _ Em)|apply Hs].
Qed.

Lemma enter_voice_never_panics r created c me u mode url sub vr (v : VW) :
  ones_ok (table v) → (enter_voice r created c me u mode url sub vr v).1 ≠ Err VoicePanicked.
Proof.
  intros Hv. unfold enter_voice. rewrite bind_on_world. cbn [read_rooms gets].
  destruct (get_room_info r (table v) ≫= sfu_handle) as [h|]; [|done].
  unfold mbind_ at 1, attempt, on_world at 1, call_bridge. cbn [v_world v_map].
  destruct (sfu_add_participant _ _ _) as [[[]|e] b]; [|by apply fail_join_reason].
  rewrite bind_on_world. cbn [read_rooms gets v_world v_map w_rooms].
  rewrite bind_on_world. unfold try_add_peer, attempt, join_rooms. cbn [v_world v_map w_rooms w_invites w_bridge].
  pose proof (try_add_one (participant_id me) r (λ inv, (Ok tt, inv)) (table v) (w_invites (v_world v)) Hv) as Hone.
  destruct (try_add_peer_with (participant_id me) r _ (table v) (w_invites (v_world v)))
    as [[[n|e] s1] inv1]; [|by apply fail_join_reason].
  rewrite bind_on_world. cbn [do_rooms modify v_world v_map w_rooms w_invites w_bridge].
  rewrite bind_on_world. unfold call_rooms, state. cbn [v_world v_map w_rooms w_invites w_bridge].
  cbn [fst snd] in Hone. set (s2 := update_room_info r _ s1).
  destruct (sync_finds_one r (participant_id me) sub (vr_clks vr) s2) as [sync Hsync].
  { intros m. apply update_one; [|done]. intros i. by apply one_ok_ext. }
  destruct (sync_sub_room_state_on_voice_join _ _ _ _ s2) as [x s3]. cbn [fst] in Hsync. rewrite Hsync.
  unfold mbind_ at 1, lift_result at 1. cbn [ok_or]. unfold mbind_ at 1, lift_result.
  destruct (mint_voice_token _ _ _ _ _ _); [|done]. cbn [map_err]. by rewrite !bind_on_world.
Qed.

(** After the eviction the user has no entry in the room. *)
Lemma evicted_none r u vr (w w' : World B) out :
  (∀ ps, plist r (w_rooms w) = Some ps → (length (sessions u ps) ≤ 1)%nat) →
  evict_stale_session r u vr w = (Ok out, w') →
  ∀ ps, plist r (w_rooms w') = Some ps → sessions u ps = [].
Proof.
  intros H1' He ps. destruct (evict_stale_session_spec r u vr w) as (out' & s' & b & He' & Hs).
  rewrite He in He'. simplify_eq. cbn [w_rooms]. unfold user_participant in Hs.
  destruct (get_room_info r (w_rooms w)) as [i|] eqn:Ei.
  - assert (plist r (w_rooms w) = Some (participants i)) as Hi by (unfold plist; by rewrite Ei).
    simpl in Hs. destruct (List.find (is_user u) (participants i)) as [q|] eqn:Ef; simpl in Hs.
    + destruct Hs as [_ ->]. rewrite Hi. simpl. intros [= <-].
      apply sessions_dropped; [done|]. by eapply H1'.
    + destruct Hs as [_ ->]. rewrite Hi. intros [= <-]. by apply sessions_none.
  - simpl in Hs. destruct Hs as [_ ->]. unfold plist. by rewrite Ei.
Qed.

Lemma join_voice_wf db mode url cs uid p name color sub max vr (v : VW) :
  voice_wf (λ m, m !! p = None) v →
  voice_wf (λ _, True) (join_voice db mode url cs uid p name color sub max vr v).2.
Proof.
  intros Hv. assert (∀ (m : gmap PeerId RoomId) q, m !! p = None → delete q m !! p = None) as HP.
  { intros m q Hm. rewrite lookup_delete. by case_decide. }
  unfold join_voice, mbind_ at 1, lift_result at 1.
  destruct (uuid_parse_str cs) as [c|]; [|by eapply voice_wf_weaken]. cbn [ok_or].
  unfold mbind_ at 1, lift_result at 1. destruct (db c uid) as [[row|]|]; try by eapply voice_wf_weaken.
  cbn [map_err]. case_bool_decide; [by eapply voice_wf_weaken|].
  pose proof (ensure_active_room_wf (λ m, m !! p = None) c (row_passthrough_enabled row) max vr HP v Hv) as Hv1.
  unfold mbind_ at 1. destruct (ensure_active_room _ _ _ _ v) as [[[r created]|e] v1]; [|by eapply voice_wf_weaken].
  cbn [snd] in Hv1. unfold mbind_ at 1, map_err_m, on_world at 1.
  pose proof (evict_stale_session_sess _ r (uuid_to_string uid) vr HP _ (voice_sess _ _ Hv1)) as Hs2.
  pose proof (evicted_none r (uuid_to_string uid) vr (v_world v1)) as Hnone.
  destruct (evict_stale_session_spec r (uuid_to_string uid) vr (v_world v1)) as (out & s' & b & He & _).
  rewrite He in Hs2, Hnone |- *. cbn [map_err snd] in *.
  specialize (Hnone _ _ (λ ps, sess_one _ _ (voice_sess _ _ Hv1) r ps _) eq_refl).
  set (v2 := mkVoiceWorld _ _).
  pose proof (enter_voice_wf r created c (new_participant p name (Some (uuid_to_string uid)) color)
    (uuid_to_string uid) mode url sub vr v2 eq_refl (mk_voice_wf _ v2 Hs2 (voice_map _ _ Hv1)) Hnone) as Hv3.
  unfold mbind_ at 1. destruct (enter_voice _ _ _ _ _ _ _ _ _ v2) as [[sigs|e] v3]; done.
Qed.

Lemma handle_sfu_leave_sess P r p rd :
  (∀ m p, P m → P (delete p m)) → preserves (sess_wf P) (handle_sfu_leave (B:=B) r p rd).
Proof.
  intros HP. unfold handle_sfu_leave, remove_peer, add_revoked_participant. solve_preserves.
Qed.

(** The voice requests. *)
Inductive VoiceReq : Type :=
| VoiceJoin (db : Uuid → Uuid → Result (option MembershipRow) string) (mode : TokenMode) (url cs : string)
    (uid : Uuid) (p name : string) (color : option string) (sub : bool) (max : Z) (vr : VoiceReads)
| VoiceEject (r : RoomId) (p : PeerId) (c : Uuid) (rd : Reads)
| VoiceLeave (r : RoomId) (p : PeerId) (rd : Reads).

Definition run_voice_req (q : VoiceReq) (v : VW) : VW :=
  match q with
  | VoiceJoin db mode url cs uid p name color sub max vr =>
      (join_voice db mode url cs uid p name color sub max vr v).2
  | VoiceEject r p c rd => (eject_banned_user r p c rd v).2
  | VoiceLeave r p rd => (on_world (handle_sfu_leave r p rd) v).2
  end.

(** A join is by a peer that is in no room. *)
Definition voice_req_ok (q : VoiceReq) (v : VW) : Prop :=
  match q with
  | VoiceJoin _ _ _ _ _ p _ _ _ _ _ => peer_to_room (table v) !! p = None
  | _ => True
  end.

Inductive voice_step : VW → VW → Prop :=
| voice_step_intro q v : voice_req_ok q v → voice_step v (run_voice_req q v).

Lemma run_voice_req_wf q (v : VW) :
  voice_req_ok q v → voice_wf (λ _, True) v → voice_wf (λ _, True) (run_voice_req q v).
Proof.
  destruct q; simpl; intros Hok Hv.
  - apply join_voice_wf. by destruct Hv as [[W1 W2 _] Hm]; split; [split|].
  - by apply eject_banned_user_wf.
  - by apply voice_wf_on_world; [apply handle_sfu_leave_sess|].
Qed.

Section distinct_rooms.
(** A UUID is written in 36 characters. *)
Hypothesis uuid_length : ∀ u : Uuid, String.length (uuid_to_string u) = 36%nat.
Context `{!UuidTextLaws Uuid}.

Lemma string_app_inj (a a' b b' : string) :
  String.length a = String.length a' → a +:+ b = a' +:+ b' → a = a'.
Proof.
  revert a'. induction a as [|x a IH]; intros [|x' a']; try done.
  intros Hl Heq. cbn in Hl, Heq. injection Hl as Hl. injection Heq as -> Heq. f_equal. by apply IH.
Qed.

Lemma channel_room_id_inj c c' s s' : channel_room_id c s = channel_room_id c' s' → c = c'.
Proof.
  unfold channel_room_id. intros Heq. apply (inj (String.app "channel-")) in Heq.
  apply string_app_inj in Heq; [|by rewrite !uuid_length].
  apply (f_equal uuid_parse_str) in Heq. rewrite !uuid_parse_to_string in Heq. congruence.
Qed.

(** C7: Through any sequence of voice joins, leaves and ejections, whatever the
    database and the media server answer, no two channels share a room, a user
    has at most one entry in the participant list of a room, every room stays
    within its capacity, and peer lists, index, share slots and invite store
    stay consistent, provided that a voice join is made only by a peer that is in no
    room at that moment.  The dispatcher lets only a connection without a session join,
    which is such a peer unless an earlier request of the same connection failed on its
    media token after entering a room; a join that follows such a failure is not
    covered. *)
Theorem voice_rooms_invariant (v v' : VW) :
  voice_wf (λ _, True) v → rtc voice_step v v' →
  (∀ c c' r, v_map v' !! c = Some r → v_map v' !! c' = Some r → c = c') ∧
  (∀ r i u, get_room_info r (table v') = Some i → (length (sessions u (participants i)) ≤ 1)%nat) ∧
  (∀ r m, rooms (table v') !! r = Some m → len (peers m) ≤ max_participants (info m)) ∧
  world_wf (v_world v').
Proof.
  intros Hv Hrun.
  assert (voice_wf (λ _, True) v') as [[[W1 W2] W3 _] Hmap].
  { apply (rtc_invariant voice_step (voice_wf (λ _, True)) v); [|done..].
    intros a b []. by apply run_voice_req_wf. }
  split_and!; [| |apply W1|by split].
  - intros c c' r Hc Hc'. destruct (Hmap _ _ Hc) as [s ->], (Hmap _ _ Hc') as [s' Heq].
    by eapply channel_room_id_inj.
  - intros r i u Hi. apply (W3 r). unfold plist. by rewrite Hi.
Qed.
End distinct_rooms.

(** ** What a join does *)

(** The user is a member of the channel and is not banned. *)
Definition authorised (db : Uuid → Uuid → Result (option MembershipRow) string) (cs : string)
    (uid c : Uuid) (row : MembershipRow) : Prop :=
  uuid_parse_str cs = Some c ∧ db c uid = Ok (Some row) ∧ row_banned_at row = None.

Lemma join_voice_refused db mode url cs uid p name color sub max vr (v : VW) :
  (∀ c row, ~ authorised db cs uid c row) →
  ∃ e, join_voice db mode url cs uid p name color sub max vr v = (Err e, v).
Proof.
  intros Hno. unfold join_voice, authorised in *.
  destruct (uuid_parse_str cs) as [c|] eqn:Ec; [|by eexists]. cbn [ok_or].
  unfold mbind_, lift_result. destruct (db c uid) as [[row|]|e] eqn:Er; [|by eexists..]. cbn [map_err].
  destruct (row_banned_at row) as [b|] eqn:Eb; [by eexists|]. by destruct (Hno c row).
Qed.

(** The run of an authorised join, up to the entry into the room. *)
Lemma join_voice_run db mode url cs uid p name color sub max vr (v : VW) c row :
  authorised db cs uid c row →
  join_voice db mode url cs uid p name color sub max vr v =
    match ensure_active_room c (row_passthrough_enabled row) max vr v with
    | (Err e, v1) => (Err e, v1)
    | (Ok (r, created), v1) =>
        let ev := evict_stale_session r (uuid_to_string uid) vr (v_world v1) in
        let evicted := match ev.1 with Ok x => x | Err _ => None end in
        let me := new_participant p name (Some (uuid_to_string uid)) color in
        match enter_voice r created c me (uuid_to_string uid) mode url sub vr (mkVoiceWorld ev.2 (v_map v1)) with
        | (Err e, v2) => (Err e, v2)
        | (Ok sigs, v2) =>
            (Ok (mkVoiceJoinResult r (map_channel_role (row_role row))
               (match evicted with Some (_, sigs, _) => sigs | None => [] end ++ sigs) (uuid_to_string c)
               (match evicted with Some (q, _, _) => Some q | None => None end)
               (match evicted with Some (_, _, e) => e | None => None end)), v2)
        end
    end.
Proof.
  intros (Hc & Hrow & Hban). unfold join_voice. rewrite Hc. cbn [ok_or].
  unfold mbind_ at 1 2, lift_result. rewrite Hrow. cbn [map_err]. rewrite Hban.
  rewrite bool_decide_false by (by intros []). unfold mbind_ at 1.
  destruct (ensure_active_room _ _ _ _ v) as [[[r created]|e] v1]; [|done].
  unfold mbind_ at 1, map_err_m, on_world at 1.
  destruct (evict_stale_session_spec r (uuid_to_string uid) vr (v_world v1)) as (out & s' & b & -> & _).
  cbn [map_err fst snd]. unfold mbind_.
  destruct (enter_voice _ _ _ _ _ _ _ _ _ _) as [[sigs|e] v2]; done.
Qed.

Lemma ensure_active_room_reason c b max vr (v : VW) :
  (ensure_active_room c b max vr v).1 ≠ Err VoicePanicked.
Proof.
  assert (∀ v0 : VW, (create_active_room c b max vr v0).1 ≠ Err VoicePanicked) as Hc.
  { intros v0. unfold create_active_room, mbind_ at 1, map_err_m, on_world at 1, call_bridge.
    destruct (sfu_create_room _ _) as [[h|e] w]; [|done]. cbn [map_err]. rewrite bind_on_world.
    unfold call_rooms, state. destruct (create_room _ _ _) as [[] s]; done. }
  unfold ensure_active_room, mbind_ at 1, gets. destruct (v_map v !! c) as [r|]; [|apply Hc].
  rewrite bind_on_world. cbn [read_rooms gets]. case_bool_decide; [|apply Hc]. by rewrite bind_on_world.
Qed.

(** No [expect] of a voice join fails when the rooms are as they should be. *)
Lemma join_voice_never_panics P db mode url cs uid p name color sub max vr (v : VW) :
  (∀ m q, P m → P (delete q m)) → voice_wf P v →
  (join_voice db mode url cs uid p name color sub max vr v).1 ≠ Err VoicePanicked.
Proof.
  intros HP Hv. destruct (uuid_parse_str cs) as [c|] eqn:Ec.
  2: { unfold join_voice. by rewrite Ec. }
  destruct (db c uid) as [[row|]|] eqn:Er; [|by unfold join_voice, mbind_, lift_result; rewrite Ec; cbn; rewrite Er..].
  destruct (row_banned_at row) eqn:Eb; [by unfold join_voice, mbind_, lift_result; rewrite Ec; cbn; rewrite Er; cbn; rewrite Eb|].
  assert (authorised db cs uid c row) as Hauth by done.
  rewrite (join_voice_run _ _ _ _ _ _ _ _ _ _ _ _ _ _ Hauth).
  pose proof (ensure_active_room_reason c (row_passthrough_enabled row) max vr v) as Hne.
  pose proof (ensure_active_room_wf P c (row_passthrough_enabled row) max vr HP v Hv) as Hv1.
  destruct (ensure_active_room _ _ _ _ v) as [[[r created]|e] v1]; [|simpl in *; congruence]. cbn [snd] in Hv1. cbv zeta.
  pose proof (evict_stale_session_sess P r (uuid_to_string uid) vr HP _ (voice_sess _ _ Hv1)) as [[Hok _] _ _].
  match goal with |- context [enter_voice ?a ?b ?d ?m ?u ?x ?y ?z ?w ?v0] =>
    pose proof (enter_voice_never_panics a b d m u x y z w v0 (rooms_ok_one _ Hok)) as He end.
  destruct (enter_voice _ _ _ _ _ _ _ _ _ _) as [[sigs|e] v2]; simpl in *; congruence.
Qed.

Lemma join_voice_Ok_authorised db mode url cs uid p name color sub max vr (v : VW) res v' :
  join_voice db mode url cs uid p name color sub max vr v = (Ok res, v') →
  ∃ c row, authorised db cs uid c row.
Proof.
  intros Hrun. unfold join_voice, authorised in *.
  destruct (uuid_parse_str cs) as [c|] eqn:Ec; [|done]. cbn [ok_or] in Hrun.
  unfold mbind_ at 1 2, lift_result in Hrun. destruct (db c uid) as [[row|]|e] eqn:Er; [|done..].
  cbn [map_err] in Hrun. destruct (row_banned_at row) as [b|] eqn:Eb; [done|]. eauto.
Qed.

Lemma ensured_user u r created s s1 :
  ensured r created s s1 → user_participant r u s1 = user_participant r u s.
Proof.
  assert (∀ t, user_participant r u t = (ps ← plist r t; participant_id <$> List.find (is_user u) ps)) as Hup.
  { intros t. unfold user_participant, plist. by destruct (get_room_info r t). }
  intros [[_ Hp]|(_ & Hr & Hp)]; rewrite !Hup, Hp; [done|].
  unfold plist, get_room_info. by rewrite Hr.
Qed.

Lemma ensured_one u r created s s1 ps :
  one_session s → ensured r created s s1 → plist r s1 = Some ps → (length (sessions u ps) ≤ 1)%nat.
Proof.
  intros H1' [[_ Hp]|(_ & Hr & Hp)]; rewrite Hp; [apply H1'|]. intros [= <-]. simpl. lia.
Qed.

(** Only a member of the channel that is not banned gets into voice: any other
    request fails and changes nothing.  After a successful join the channel maps
    to the room, the peer is in it and indexed there, the role is host exactly
    for the channel's owner and admins, and the joiner's entry is the only one of
    its user in the room: a session the user still had there was evicted, and its
    peer is reported. *)
Theorem join_voice_spec db mode url cs uid p name color sub max vr (v : VW) :
  one_session (table v) →
  ((∀ c row, ~ authorised db cs uid c row) →
     ∃ e, join_voice db mode url cs uid p name color sub max vr v = (Err e, v)) ∧
  ∀ res v', join_voice db mode url cs uid p name color sub max vr v = (Ok res, v') →
    ∃ c row m', authorised db cs uid c row ∧ v_map v' !! c = Some (vj_room_id res) ∧
      rooms (table v') !! vj_room_id res = Some m' ∧ p ∈ peers m' ∧
      peer_to_room (table v') !! p = Some (vj_room_id res) ∧
      (vj_participant_role res = Host ↔ row_role row ≠ Member) ∧
      sessions (uuid_to_string uid) (participants (info m')) =
        [new_participant p name (Some (uuid_to_string uid)) color] ∧
      vj_evicted_peer_id res = user_participant (vj_room_id res) (uuid_to_string uid) (table v).
Proof.
  intros Hone. split; [apply join_voice_refused|]. intros res v' Hrun.
  destruct (join_voice_Ok_authorised _ _ _ _ _ _ _ _ _ _ _ _ _ _ Hrun) as (c & row & Hauth).
  rewrite (join_voice_run _ _ _ _ _ _ _ _ _ _ _ _ _ _ Hauth) in Hrun.
  destruct (ensure_active_room _ _ _ _ v) as [[[r created]|e] v1] eqn:Een; [|done].
  apply ensure_active_room_Ok in Een as [Hmap Hens].
  set (u := uuid_to_string uid) in *.
  pose proof (evict_stale_session_spec r u vr (v_world v1)) as (out & s' & b & Hev & Hspec).
  assert (∀ ps, plist r s' = Some ps → sessions u ps = []) as Hnone.
  { exact (evicted_none r u vr (v_world v1) _ _ (λ ps, ensured_one u _ _ _ _ ps Hone Hens) Hev). }
  rewrite Hev in Hrun. cbn [fst snd] in Hrun.
  destruct (enter_voice _ _ _ _ _ _ _ _ _ _) as [[sigs|e] v2] eqn:Ent; [|done]. simplify_eq.
  apply enter_voice_Ok in Ent as (Hmap2 & ps & m' & token & Hps & Hm' & Hin & Hidx & Hpart & _).
  exists c, row, m'. cbn [vj_room_id vj_participant_role vj_evicted_peer_id v_map v_world w_rooms] in *.
  split_and!; [done|by rewrite Hmap2|done..| | |].
  - by destruct (row_role row).
  - rewrite Hpart, sessions_app, (Hnone ps Hps). unfold sessions. simpl. unfold is_user.
    by rewrite bool_decide_true.
  - rewrite <-(ensured_user u _ _ _ _ Hens).
    destruct (user_participant r u (w_rooms (v_world v1))) as [q|].
    + by destruct Hspec as [(sg & ex & ->) _].
    + by destruct Hspec as [-> _].
Qed.
(** ** Ejection *)

Lemma kicked_rooms_peers r t now s :
  peers_at (kicked_rooms r t now s) r =
    if decide (peer_to_room s !! t = Some r)
    then retain (λ q, bool_decide (q ≠ t)) (peers_at s r) else peers_at s r.
Proof.
  unfold kicked_rooms, remove_peer.
  by rewrite peers_at_update, peers_at_remove_peer_internal, peer_to_room_update_capture, peers_at_update_capture.
Qed.

(** Kicking the last peer drops the room. *)
Lemma kicked_rooms_last r t now s m :
  rooms s !! r = Some m → peer_to_room s !! t = Some r → peers m = [t] →
  rooms (kicked_rooms r t now s) !! r = None.
Proof.
  intros Hm Ht Hp. unfold kicked_rooms. set (s1 := (update_room_info_capture _ _ _ s).2).
  assert (rooms (remove_peer t s1) !! r = None) as Hnone.
  { unfold remove_peer, remove_peer_internal, s1. rewrite peer_to_room_update_capture, Ht.
    cbn [rooms set_peer_to_room]. rewrite (update_capture_lookup _ _ _ _ m Hm). simpl.
    rewrite Hp. simpl. rewrite bool_decide_false by naive_solver. simpl. apply lookup_delete_eq. }
  unfold update_room_info, update_room_info_capture. by rewrite Hnone.
Qed.

(** Ejecting a banned user that is in the room succeeds.  The peer is off the
    index; if it was alone, the room is gone and the channel no longer maps to
    it, otherwise the others stay where they were and the active-room map is
    unchanged.  In both cases the media server is told exactly what the kick
    tells it: the room is never destroyed there. *)
Theorem eject_banned_user_spec r p c rd (v : VW) m :
  room_wf (table v) → rooms (table v) !! r = Some m → has_participant p (info m) = true → p ∈ peers m →
  ∃ sigs v', eject_banned_user r p c rd v = (Ok sigs, v') ∧
    peer_to_room (table v') = delete p (peer_to_room (table v)) ∧
    (peers m = [p] → rooms (table v') !! r = None ∧ v_map v' = unmap_room c r (v_map v)) ∧
    (peers m ≠ [p] → (∀ q, q ∈ peers_at (table v') r ↔ q ≠ p ∧ q ∈ peers m) ∧ v_map v' = v_map v) ∧
    w_bridge (v_world v') = w_bridge (handle_kick r "__server__" Host p rd (v_world v)).2.
Proof.
  intros Hwf Hm Hpart Hin.
  destruct (handle_kick_eq r "__server__" p rd (v_world v)) as (sigs & b & Hk).
  { unfold target_in_room, get_room_info. by rewrite Hm. }
  assert (peer_to_room (table v) !! p = Some r) as Hidx.
  { destruct Hwf as [H1' _]. apply H1'. by rewrite (peers_at_lookup _ _ _ Hm). }
  pose proof (kicked_rooms_peers r p (rd_now rd) (table v)) as Hpeers.
  rewrite decide_True, (peers_at_lookup _ _ _ Hm) in Hpeers by done.
  pose proof (kicked_rooms_last r p (rd_now rd) _ m Hm Hidx) as Hlast.
  pose proof (kicked_rooms_index r p (rd_now rd) (table v)) as Hindex.
  assert (NoDup (peers m)) as Hnd.
  { destruct Hwf as [_ H2']. specialize (H2' r). by rewrite (peers_at_lookup _ _ _ Hm) in H2'. }
  pose proof (retain_others_nil p (peers m) Hnd Hin) as Hnil.
  unfold eject_banned_user. unfold mbind_ at 1, map_err_m, on_world at 1. rewrite Hk. cbn [map_err].
  rewrite bind_on_world. cbn [read_rooms gets v_world v_map w_rooms snd w_bridge].
  set (s1 := kicked_rooms r p (rd_now rd) (table v)) in *.
  assert (peer_count r s1 = len (retain (λ q, bool_decide (q ≠ p)) (peers m))) as Hcount.
  { rewrite <-Hpeers. unfold peer_count. simpl. by destruct (rooms s1 !! r). }
  rewrite Hcount. destruct (decide (peers m = [p])) as [Hone|Hmany].
  - rewrite (proj2 Hnil Hone). specialize (Hlast Hone). unfold mbind_ at 1. rewrite bool_decide_true by done.
    unfold when. rewrite bind_on_world. cbn [read_rooms gets v_world v_map w_rooms].
    unfold get_room_info. rewrite Hlast. simpl. unfold mbind_ at 1, mret at 1. rewrite bind_on_world.
    unfold call_rooms, state, remove_empty_room. cbn [v_world v_map w_rooms]. rewrite Hlast.
    eexists _, _. split_and!; [reflexivity|done|done|done|done].
  - unfold mbind_ at 1. rewrite bool_decide_false.
    + eexists _, _. split_and!; [reflexivity|done|done| |done]. intros _. split; [|done].
      intros q. cbn [v_world w_rooms]. rewrite Hpeers, elem_of_retain, bool_decide_eq_true. done.
    + intros Hl. apply Hmany, Hnil. by destruct (retain _ _).
Qed.

(** ** Rollback *)

(** A join that created the channel's room and then fails because the media
    server refuses the participant leaves the room table, the invite store and
    the active-room map exactly as they were. *)
Theorem failed_join_rolls_back db mode url cs uid p name color sub max vr (v : VW) c row h b1 e b2 :
  authorised db cs uid c row → v_map v !! c = None →
  rooms (table v) !! channel_room_id c (vr_suffix vr) = None →
  sfu_create_room (channel_room_id c (vr_suffix vr)) (w_bridge (v_world v)) = (Ok h, b1) →
  sfu_add_participant h (uuid_to_string uid) b1 = (Err e, b2) →
  join_voice db mode url cs uid p name color sub max vr v =
    (Err (OfSfuError (SfuError_to_string e)),
     mkVoiceWorld (mkWorld (table v) (w_invites (v_world v)) b2) (v_map v)).
Proof.
  intros Hauth Hmap Hroom Hcreate Hadd.
  rewrite (join_voice_run _ _ _ _ _ _ _ _ _ _ _ _ _ _ Hauth).
  unfold ensure_active_room. unfold mbind_ at 1, gets. rewrite Hmap.
  unfold create_active_room. unfold mbind_ at 1, map_err_m, on_world at 1, call_bridge. rewrite Hcreate.
  cbn [map_err]. rewrite bind_on_world. unfold call_rooms, state, create_room. cbn [v_world v_map w_rooms].
  rewrite Hroom. cbn [negb]. unfold mbind_ at 1, update_map, modify, mret. cbn [v_world v_map w_rooms w_invites w_bridge].
  set (r := channel_room_id c (vr_suffix vr)) in *.
  unfold evict_stale_session, user_participant. rewrite bind_read. cbn [w_rooms].
  unfold get_room_info at 1 2. cbn [rooms set_rooms]. rewrite lookup_insert_eq. simpl. unfold mret.
  unfold enter_voice. rewrite bind_on_world. cbn [read_rooms gets v_world v_map w_rooms].
  unfold get_room_info. cbn [rooms set_rooms]. rewrite lookup_insert_eq. simpl.
  unfold mbind_ at 1, attempt, on_world at 1, call_bridge. cbn [v_world v_map w_bridge].
  unfold livekit_identity. simpl default. rewrite Hadd.
  unfold fail_join, when. unfold mbind_ at 1, rollback_room. rewrite bind_on_world.
  unfold call_rooms, state, remove_empty_room. cbn [v_world v_map w_rooms w_invites w_bridge rooms set_rooms].
  rewrite lookup_insert_eq. cbn [peers]. unfold update_map, modify, throw, unmap_room. cbn [v_world v_map].
  rewrite bool_decide_true by apply (lookup_insert_eq (M:=gmap Uuid)).
  assert (delete c (<[c := r]> (v_map v)) = v_map v) as -> by (by apply (delete_insert_id (M:=gmap Uuid))).
  unfold set_rooms. cbn [rooms peer_to_room]. rewrite delete_insert_id by done. by destruct (table v).
Qed.
End voice_join.

(** ** A demonstration: the owner of a channel joins, and joins again elsewhere *)
Module VoiceDemo.
Import Mock PlainJwt SfuDemo.

#[export] Instance two_uuids : UuidText bool := {
  uuid_to_string b := if b then "00000000-0000-0000-0000-000000000001"
                      else "00000000-0000-0000-0000-000000000000";
  uuid_parse_str s := if bool_decide (s = "00000000-0000-0000-0000-000000000001") then Some true
                      else if bool_decide (s = "00000000-0000-0000-0000-000000000000") then Some false
                      else None;
  uuid_nil := false
}.
#[export] Instance two_uuids_laws : UuidTextLaws bool.
Proof. split; by intros []. Qed.
Lemma two_uuids_length (u : bool) : String.length (uuid_to_string u) = 36%nat.
Proof. by destruct u. Qed.

Definition channel : string := "00000000-0000-0000-0000-000000000001".
Definition db (c _uid : bool) : Result (option MembershipRow) string :=
  if c then Ok (Some (mkMembershipRow Owner None true)) else Ok None.
Definition reads (n : Z) : VoiceReads := mkVoiceReads "abc123" (demo_reads n) (λ _, (n, n)).
Definition v0 : VoiceWorld MockSfuBridge bool := mkVoiceWorld world0 ∅.
Definition join1 : VoiceReq (Uuid:=bool) := VoiceJoin db demo_mode "url" channel false "p1" "Ann" None true 4 (reads 0).
Definition join2 : VoiceReq (Uuid:=bool) := VoiceJoin db demo_mode "url" channel false "p2" "Ann" None true 4 (reads 1).
Definition v1 : VoiceWorld MockSfuBridge bool := run_voice_req join1 v0.
Definition v2 : VoiceWorld MockSfuBridge bool := run_voice_req join2 v1.
Definition room : RoomId := channel_room_id true "abc123".
Definition members2 : RoomMembers := default (mkRoomMembers [] (new_p2p 0)) (rooms (w_rooms (v_world v2)) !! room).

Lemma v0_wf : voice_wf (λ _, True) v0.
Proof. split; [split; [apply world0_wf|by intros r ps u Hp|done]|]. intros c r Hr. discriminate Hr. Qed.
Lemma join1_ok : voice_req_ok join1 v0.
Proof. vm_compute. reflexivity. Qed.
Lemma join2_ok : voice_req_ok join2 v1.
Proof. vm_compute. reflexivity. Qed.
Lemma v1_wf : voice_wf (λ _, True) v1.
Proof. exact (run_voice_req_wf join1 v0 join1_ok v0_wf). Qed.
Lemma v2_wf : voice_wf (λ _, True) v2.
Proof. exact (run_voice_req_wf join2 v1 join2_ok v1_wf). Qed.
Lemma members2_at : rooms (w_rooms (v_world v2)) !! room = Some members2.
Proof. vm_compute. reflexivity. Qed.
(** A media server that refuses participants. *)
Definition refusing : MockSfuBridge := mkMockSfuBridge []
  (mkMockSfuConfig (Ok Available) (Ok tt) (Err "no") (Ok tt) (Ok tt) "sdp" []).
Definition vr : VoiceWorld MockSfuBridge bool :=
  mkVoiceWorld (mkWorld InMemoryRoomState_new (w_invites world0) refusing) ∅.
End VoiceDemo.

Section voice_witnesses.
Import Mock PlainJwt SfuDemo VoiceDemo.

Lemma voice_rooms_invariant_witness :
  peers_at (w_rooms (v_world v2)) room = ["p2"] ∧
  ∀ r m, rooms (w_rooms (v_world v2)) !! r = Some m → len (peers m) ≤ max_participants (info m).
Proof.
  split; [vm_compute; reflexivity|].
  refine (proj1 (proj2 (proj2 (voice_rooms_invariant two_uuids_length v0 v2 v0_wf _)))).
  eapply rtc_l; [exact (voice_step_intro join1 v0 join1_ok)|].
  eapply rtc_l; [exact (voice_step_intro join2 v1 join2_ok)|]. constructor.
Defined.

Lemma join_voice_spec_witness :
  ∃ res v', join_voice db demo_mode "url" channel false "p2" "Ann" None true 4 (reads 1) v1 = (Ok res, v') ∧
    vj_evicted_peer_id res = user_participant (vj_room_id res) (uuid_to_string false) (w_rooms (v_world v1)) ∧
    user_participant room (uuid_to_string false) (w_rooms (v_world v1)) = Some "p1".
Proof.
  pose (out := join_voice db demo_mode "url" channel false "p2" "Ann" None true 4 (reads 1) v1).
  assert (is_Ok out.1 = true) as Hok by (vm_compute; reflexivity).
  assert (join_voice db demo_mode "url" channel false "p2" "Ann" None true 4 (reads 1) v1 = out) as E
    by reflexivity.
  clearbody out. destruct out as [[res|e] v']; [|discriminate Hok].
  destruct (join_voice_spec db demo_mode "url" channel false "p2" "Ann" None true 4 (reads 1) v1
    (sess_one _ _ (voice_sess _ _ v1_wf))) as [_ Hspec].
  destruct (Hspec res v' E) as (c & row & m' & _ & _ & _ & _ & _ & _ & _ & Hev).
  exists res, v'. split_and!; [exact E|exact Hev|vm_compute; reflexivity].
Defined.

Lemma eject_banned_user_spec_witness :
  ∃ sigs v', eject_banned_user room "p2" true (demo_reads 9) v2 = (Ok sigs, v') ∧
    rooms (w_rooms (v_world v')) !! room = None ∧ v_map v' = unmap_room true room (v_map v2).
Proof.
  destruct (eject_banned_user_spec room "p2" true (demo_reads 9) v2 members2)
    as (sigs & v' & He & _ & Hlast & _).
  - apply v2_wf.
  - apply members2_at.
  - vm_compute. reflexivity.
  - apply (bool_decide_eq_true_1 _). vm_compute. reflexivity.
  - exists sigs, v'. split; [exact He|]. apply Hlast. vm_compute. reflexivity.
Defined.

Lemma failed_join_rolls_back_witness :
  ∃ e b, join_voice db demo_mode "url" channel false "p1" "Ann" None true 4 (reads 0) VoiceDemo.vr =
    (Err (OfSfuError e), mkVoiceWorld (mkWorld InMemoryRoomState_new (w_invites world0) b) ∅).
Proof.
  eexists _, _.
  apply (failed_join_rolls_back db demo_mode "url" channel false "p1" "Ann" None true 4 (reads 0) VoiceDemo.vr
    true (mkMembershipRow Owner None true) (mkSfuRoomHandle room)
    (record_call (CreateRoom room) refusing) (SfuErr.ParticipantError "no")
    (record_call (AddParticipant room (uuid_to_string false)) (record_call (CreateRoom room) refusing)));
    [split_and!; reflexivity|reflexivity..].
Defined.
End voice_witnesses.
