(* ===== verification/RoomInvariant.v ===== *)
(** * One invariant for every call on the rooms

    [sess_wf] of Voice.v, the consistency of the room table with one session per
    user and a condition on the peer index, is kept by the calls of the message
    handlers that do not let anyone in ([calm]); the three ways in, the join by
    invite, the creation of a room and the P2P join, keep it as well, and say
    where the peer index may have grown.  A failed entry leaves the joiner out. *)

From S2P Require Import Prelude Signaling Invite RoomState ScreenShare Relay SfuBridge Tokens SfuRelay SubRooms Voice.
Local Open Scope Z_scope.
Local Open Scope prog_scope.

(** ** Calls that let nobody in *)

Record calm (f : InMemoryRoomState → InMemoryRoomState) : Prop := mk_calm {
  calm_ok s : rooms_ok s → rooms_ok (f s);
  calm_one s : one_session s → one_session (f s);
  calm_index s : peer_to_room (f s) = peer_to_room s ∨ ∃ p, peer_to_room (f s) = delete p (peer_to_room s)
}.

Lemma quiet_calm f : quiet f → calm f.
Proof. intros [Q1 Q2 Q3]. split; [done| |done]. intros s. by apply one_session_shrinks. Qed.

(** A change of the participants that keeps their users. *)
Definition keeps_users (f : list ParticipantInfo → list ParticipantInfo) : Prop :=
  ∀ ps, map user_id (f ps) = map user_id ps.

Lemma sessions_users u ps ps' :
  map user_id ps' = map user_id ps → length (sessions u ps') = length (sessions u ps).
Proof.
  revert ps'. induction ps as [|p ps IH]; intros [|p' ps'] Hm; try done. injection Hm as Hp Hm.
  specialize (IH ps' Hm). unfold sessions, is_user in *. simpl. rewrite Hp. case_bool_decide; simpl; lia.
Qed.

Lemma keeps_users_first p f : (∀ x, user_id (f x) = user_id x) → keeps_users (update_first p f).
Proof. intros Hf ps. by apply update_first_map. Qed.

Lemma one_session_update r f s :
  (∀ i u, (length (sessions u (participants (f i))) ≤ length (sessions u (participants i)))%nat) →
  one_session s → one_session (update_room_info r f s).
Proof.
  intros Hf Hs r' ps u. destruct (decide (r' = r)) as [->|Hr].
  - unfold plist, get_room_info, update_room_info, update_room_info_capture.
    destruct (rooms s !! r) as [m|] eqn:E; simpl; [|by rewrite E].
    rewrite lookup_insert_eq. simpl. intros [= <-]. etransitivity; [apply Hf|].
    apply (Hs r). unfold plist, get_room_info. by rewrite E.
  - intros Hp. apply (Hs r' ps u). rewrite <-Hp.
    unfold plist, get_room_info, update_room_info, update_room_info_capture.
    destruct (rooms s !! r); [|done]. simpl. by rewrite lookup_insert_ne.
Qed.

Lemma calm_participants r f : keeps_users f → calm (update_room_info r (set_participants f)).
Proof.
  intros Hf. split; intros s.
  - apply rooms_ok_update. by apply info_safe_ext.
  - apply one_session_update. intros i u. simpl. rewrite (sessions_users u (participants i)); [done|]. apply Hf.
  - left. apply peer_to_room_update.
Qed.

(** A locked closure that keeps peers, participants, capacity, share slots and ROOM 1. *)
Definition frames {R} (f : RoomMembers → R * RoomMembers) : Prop :=
  ∀ m, peers (f m).2 = peers m ∧ participants (info (f m).2) = participants (info m) ∧
       max_participants (info (f m).2) = max_participants (info m) ∧
       (share_wf (info m) → share_wf (info (f m).2)) ∧ (one_ok (info m) → one_ok (info (f m).2)).

Lemma quiet_with_room_write {R} r (f : RoomMembers → R * RoomMembers) :
  frames f → quiet (λ s, (with_room_write r f s).2).
Proof.
  intros Hf. split; intros s.
  - apply rooms_ok_with_room_write. intros m. destruct (Hf m) as (?&?&?&?&?). done.
  - apply shrinks_with_room_write. intros m. destruct (Hf m) as (_ & -> & _). done.
  - left. apply peer_to_room_with_room_write.
Qed.

Lemma quiet_ext f g : (∀ s, f s = g s) → quiet f → quiet g.
Proof. intros Hfg [Q1 Q2 Q3]. split; intros s; rewrite <-Hfg; auto. Qed.
Lemma quiet_id : quiet (λ s, s).
Proof. split; intros s; [done|apply shrinks_refl|by left]. Qed.

(** ** Sub-room calls *)

Lemma frames_sub {R} (no_state : R) (f : SubRoomState → R * SubRoomState) :
  keeps_one f →
  frames (λ m, let '(r, i) := on_sub_rooms no_state f (info m) in (r, mkRoomMembers (peers m) i)).
Proof.
  intros Hf m. pose proof (on_sub_rooms_one no_state f (info m) Hf) as Ho. revert Ho.
  unfold on_sub_rooms. destruct (sub_room_state (info m)) as [sub|]; [|done].
  destruct (f sub) as [x sub']. simpl. intros Ho.
  split_and!; try done; intros Hs; by eapply share_wf_ext; [..|exact Hs].
Qed.

Lemma quiet_report_change nf ns r f clks : keeps_one f → quiet (λ s, (report_change nf ns r f clks s).2).
Proof.
  intros Hf. eapply quiet_ext; [|apply (quiet_with_room_write r _ (frames_sub ns f Hf))].
  intros s. unfold report_change. by destruct (with_room_write _ _ _) as [[[[]|]|] s'].
Qed.

Lemma quiet_set_passthrough r p t clks : quiet (λ s, (set_passthrough r p t clks s).2).
Proof. apply quiet_report_change, set_passthrough_locked_one. Qed.
Lemma quiet_clear_passthrough r p clks : quiet (λ s, (clear_passthrough r p clks s).2).
Proof. apply quiet_report_change, clear_passthrough_locked_one. Qed.
Lemma quiet_set_filter r b n clks : quiet (λ s, (set_passthrough_filter r b n clks s).2).
Proof. apply quiet_report_change. intros sub Hsub. by case_bool_decide. Qed.
Lemma quiet_set_volume r v clks : quiet (λ s, (set_passthrough_volume r v clks s).2).
Proof.
  set (g := λ sub, if bool_decide (passthrough_volume_percent sub = v `min` 100) then (Ok (E:=string) false, sub)
                   else (Ok true, set_volume (v `min` 100) sub)).
  apply (quiet_ext (λ s, (report_change EmptyString (Ok false) r g clks s).2));
    [|apply quiet_report_change; intros sub Hsub; subst g; cbv beta; by case_bool_decide].
  intros s. unfold set_passthrough_volume. fold g. by destruct (report_change _ _ _ g _ _) as [[]].
Qed.
Lemma quiet_set_enabled db r b clks : quiet (λ s, (set_passthrough_enabled db r b clks s).2).
Proof.
  unfold set_passthrough_enabled. destruct db as [rows|]; [|apply quiet_id].
  case_bool_decide; [apply quiet_id|apply quiet_report_change]. intros sub Hsub. by case_bool_decide.
Qed.

Lemma ensure_info_safe : info_safe ensure_room_sub_rooms.
Proof. apply info_safe_sub; [|apply ensure_one]. intros i. unfold ensure_room_sub_rooms. by destruct (sub_room_state i). Qed.

(** Closures that first make sure of the sub-room state. *)
Lemma frames_ensure_sub {R} (no_state : R) (f : SubRoomState → R * SubRoomState) :
  keeps_one f →
  frames (λ m, let '(r, i) := on_sub_rooms no_state f (ensure_room_sub_rooms (info m)) in (r, mkRoomMembers (peers m) i)).
Proof.
  intros Hf m.
  destruct (frames_sub no_state f Hf (mkRoomMembers (peers m) (ensure_room_sub_rooms (info m)))) as (F1 & F2 & F3 & F4 & F5).
  destruct (ensure_info_safe (info m)) as (E1 & E2 & E3). cbn [info peers] in *.
  destruct (on_sub_rooms _ _ _) as [x i]. cbn [snd info peers] in *. split_and!; [done| | |auto..].
  - by rewrite F2, ensure_participants.
  - by rewrite F3.
Qed.

Lemma quiet_capture_sub {R} r (no_state : R) (f : SubRoomState → R * SubRoomState) :
  keeps_one f →
  quiet (λ s, (update_room_info_capture r no_state (λ i, on_sub_rooms no_state f (ensure_room_sub_rooms i)) s).2).
Proof.
  intros Hf. apply quiet_update_capture; [|intros i; by rewrite on_sub_rooms_participants, ensure_participants].
  intros i. destruct (frames_ensure_sub no_state f Hf (mkRoomMembers [] i)) as (_ & _ & F3 & F4 & F5). cbn [info] in *.
  by destruct (on_sub_rooms _ _ _).
Qed.

Lemma quiet_create_sub r now clks clks' : quiet (λ s, (create_sub_room r now clks clks' s).2).
Proof.
  eapply quiet_ext; [|apply (quiet_capture_sub r None (create_locked now) (create_locked_one now))].
  intros s. unfold create_sub_room. by destruct (update_room_info_capture _ _ _ _) as [[]].
Qed.
Lemma quiet_join_sub r id p now clks : quiet (λ s, (join_sub_room r id p now clks s).2).
Proof.
  eapply quiet_ext; [|apply (quiet_with_room_write r _ (frames_ensure_sub (Err "room state unavailable") (join_locked id p now)
    (join_locked_one id p now)))].
  intros s. unfold join_sub_room. by destruct (with_room_write _ _ _) as [[[[]|]|] s'].
Qed.
Lemma quiet_leave_sub_room r p now clks : quiet (λ s, (leave_sub_room r p now clks s).2).
Proof.
  eapply quiet_ext; [|apply (quiet_leave_sub r p now clks)].
  intros s. unfold remove_participant_from_sub_room. by destruct (leave_sub_room _ _ _ _ _) as [[]].
Qed.
Lemma quiet_expire_sub r id d clks : quiet (λ s, (expire_sub_room r id d clks s).2).
Proof.
  eapply quiet_ext; [|apply (quiet_with_room_write r _ (frames_sub false (expire_locked id d) (expire_locked_one id d)))].
  intros s. unfold expire_sub_room. by destruct (with_room_write _ _ _) as [[[]|] s'].
Qed.

(** ** Share calls *)

(** The closures of screen sharing change the share slots and the permission only. *)
Lemma start_share_frame p role t m :
  peers (start_share_locked p role t m).2 = peers m ∧
  participants (info (start_share_locked p role t m).2) = participants (info m) ∧
  max_participants (info (start_share_locked p role t m).2) = max_participants (info m) ∧
  sub_room_state (info (start_share_locked p role t m).2) = sub_room_state (info m).
Proof. unfold start_share_locked, restart_share. repeat case_match; done. Qed.
Lemma stop_share_frame p t m :
  peers (stop_share_locked p t m).2 = peers m ∧
  participants (info (stop_share_locked p t m).2) = participants (info m) ∧
  max_participants (info (stop_share_locked p t m).2) = max_participants (info m) ∧
  sub_room_state (info (stop_share_locked p t m).2) = sub_room_state (info m).
Proof. unfold stop_share_locked. repeat case_match; done. Qed.
Lemma stop_all_frame m :
  peers (stop_all_locked m).2 = peers m ∧
  participants (info (stop_all_locked m).2) = participants (info m) ∧
  max_participants (info (stop_all_locked m).2) = max_participants (info m) ∧
  sub_room_state (info (stop_all_locked m).2) = sub_room_state (info m).
Proof. unfold stop_all_locked. repeat case_match; done. Qed.
Lemma set_permission_frame p w m :
  peers (set_permission_locked p w m).2 = peers m ∧
  participants (info (set_permission_locked p w m).2) = participants (info m) ∧
  max_participants (info (set_permission_locked p w m).2) = max_participants (info m) ∧
  sub_room_state (info (set_permission_locked p w m).2) = sub_room_state (info m).
Proof. unfold set_permission_locked. repeat case_match; done. Qed.

Lemma quiet_start_share r p role t : quiet (λ s, (handle_start_share_with_type r p role t s).2).
Proof.
  eapply quiet_ext; [|apply (quiet_with_room_write r (start_share_locked p role t))].
  - intros s. unfold handle_start_share_with_type. by destruct (with_room_write _ _ _) as [[]].
  - intros m. destruct (start_share_frame p role t m) as (?&?&?&?). split_and!; eauto using start_share_locked_wf, one_ok_ext.
Qed.
Lemma quiet_stop_share r p t role ty : quiet (λ s, (handle_stop_share r p t role ty s).2).
Proof.
  unfold handle_stop_share. case_bool_decide; [apply quiet_id|].
  eapply quiet_ext; [|apply (quiet_with_room_write r (stop_share_locked (default p t) ty))].
  - intros s. cbv beta. by destruct (with_room_write _ _ _) as [[]].
  - intros m. destruct (stop_share_frame (default p t) ty m) as (?&?&?&?). split_and!; eauto using stop_share_locked_wf, one_ok_ext.
Qed.
Lemma quiet_stop_all r p role : quiet (λ s, (handle_stop_all_shares r p role s).2).
Proof.
  unfold handle_stop_all_shares. case_bool_decide; [apply quiet_id|].
  eapply quiet_ext; [|apply (quiet_with_room_write r stop_all_locked)].
  - intros s. cbv beta. by destruct (with_room_write _ _ _) as [[]].
  - intros m. destruct (stop_all_frame m) as (?&?&?&?). split_and!; eauto using stop_all_locked_wf, one_ok_ext.
Qed.
Lemma quiet_set_permission r p role w : quiet (λ s, (handle_set_share_permission r p role w s).2).
Proof.
  unfold handle_set_share_permission. case_bool_decide; [apply quiet_id|].
  eapply quiet_ext; [|apply (quiet_with_room_write r (set_permission_locked p w))].
  - intros s. cbv beta. by destruct (with_room_write _ _ _) as [[]].
  - intros m. destruct (set_permission_frame p w m) as (?&?&?&?). split_and!; eauto using set_permission_locked_wf, one_ok_ext.
Qed.

#[export] Hint Resolve quiet_calm calm_participants keeps_users_first quiet_set_passthrough quiet_clear_passthrough
  quiet_set_filter quiet_set_volume quiet_set_enabled quiet_create_sub quiet_join_sub quiet_leave_sub_room
  quiet_expire_sub quiet_start_share quiet_stop_share quiet_stop_all quiet_set_permission : wavis.

(** ** Calm calls keep the invariant *)

Section calm_world.
Context {B : Type} (P : gmap PeerId RoomId → Prop) (HP : ∀ m p, P m → P (delete p m)).

Lemma sess_wf_calm f (w : World B) :
  calm f → sess_wf P w → sess_wf P (mkWorld (f (w_rooms w)) (w_invites w) (w_bridge w)).
Proof.
  intros [F1 F2 F3] [[W1 W2] W3 W4]. split; [split; [by apply F1|done]|by apply F2|].
  simpl. destruct (F3 (w_rooms w)) as [->|[p ->]]; auto.
Qed.

Lemma sess_wf_do_calm {E} f : calm f → preserves (E:=E) (sess_wf P) (do_rooms (B:=B) f).
Proof. intros Hf. apply preserves_modify. intros w. by apply sess_wf_calm. Qed.

Lemma handle_mute_sess r k role t : preserves (sess_wf P) (handle_mute (B:=B) r k role t).
Proof. unfold handle_mute. solve_preserves. by apply sess_wf_do_calm; auto with wavis. Qed.
Lemma handle_unmute_sess r k role t : preserves (sess_wf P) (handle_unmute (B:=B) r k role t).
Proof. unfold handle_unmute. solve_preserves. by apply sess_wf_do_calm; auto with wavis. Qed.

Lemma quiet_is_revoked r p d now : quiet (λ s, (is_participant_revoked r p d now s).2).
Proof.
  split; intros s; [apply rooms_ok_is_revoked| |left; apply peer_to_room_is_revoked].
  unfold is_participant_revoked.
  match goal with |- context [with_room_write r ?g s] =>
    pose proof (shrinks_with_room_write r g s) as Hs; destruct (with_room_write r g s) as [[]] end;
    by apply Hs.
Qed.

Lemma handle_viewer_sess `{LiveKitTokens} r p u win mode url rd :
  preserves (sess_wf P) (handle_viewer_token_request (B:=B) r p u win mode url rd).
Proof.
  pose proof quiet_is_revoked. unfold handle_viewer_token_request. solve_preserves.
  apply sess_wf_call_rooms; [done|]. apply quiet_update_capture; [apply info_safe_viewer|].
  intros i. unfold record_viewer_identity. repeat case_match; done.
Qed.
End calm_world.

(** ** Failing cleanly *)

(** Whenever [m] fails, it leaves [I]; [m] never fails. *)
Definition fails_clean {S E A} (I : S → Prop) (m : M S E A) : Prop :=
  ∀ s e s', I s → m s = (Err e, s') → I s'.
Definition never_fails {S E A} (m : M S E A) : Prop := ∀ s e s', m s ≠ (Err e, s').

Section clean.
Context {S E : Type} (I : S → Prop).

Lemma clean_preserves {A} (m : M S E A) : preserves I m → fails_clean I m.
Proof. intros Hm s e s' Hs Heq. specialize (Hm s Hs). by rewrite Heq in Hm. Qed.
Lemma clean_before {A C} (m : M S E A) (k : A → M S E C) :
  preserves I m → (∀ a, fails_clean I (k a)) → fails_clean I (mbind_ m k).
Proof.
  intros Hm Hk s e s'' Hs. unfold mbind_. specialize (Hm s Hs). destruct (m s) as [[a|e'] s']; simpl in Hm.
  - by apply Hk.
  - intros [= <- <-]. done.
Qed.
Lemma clean_after {A C} (m : M S E A) (k : A → M S E C) :
  fails_clean I m → (∀ a, never_fails (k a)) → fails_clean I (mbind_ m k).
Proof.
  intros Hm Hk s e s'' Hs. unfold mbind_. destruct (m s) as [[a|e'] s'] eqn:Em.
  - intros Heq. by apply Hk in Heq.
  - intros [= <- <-]. by eapply Hm.
Qed.
Lemma clean_map_err {A F} (f : E → F) (m : M S E A) : fails_clean I m → fails_clean I (map_err_m f m).
Proof.
  intros Hm s e s' Hs. unfold map_err_m. destruct (m s) as [[a|e'] s0] eqn:Em; [done|].
  intros [= <- <-]. by eapply Hm.
Qed.
Lemma never_mret {A} (a : A) : never_fails (S:=S) (E:=E) (mret a).
Proof. done. Qed.
Lemma never_gets {A} (f : S → A) : never_fails (E:=E) (gets f).
Proof. done. Qed.
Lemma never_modify (f : S → S) : never_fails (E:=E) (modify f).
Proof. done. Qed.
Lemma never_state {A} (f : S → A * S) : never_fails (E:=E) (state f).
Proof. intros s e s'. unfold state. by destruct (f s). Qed.
Lemma never_bind {A C} (m : M S E A) (k : A → M S E C) :
  never_fails m → (∀ a, never_fails (k a)) → never_fails (mbind_ m k).
Proof.
  intros Hm Hk s e s''. unfold mbind_. destruct (m s) as [[a|e'] s'] eqn:Em; [apply Hk|]. by apply Hm in Em.
Qed.
Lemma never_lift {A} (r : Result A E) : is_Ok r = true → never_fails (S:=S) (lift_result r).
Proof. by destruct r. Qed.
End clean.

#[export] Hint Resolve never_mret never_gets never_modify never_state never_lift : clean.
Ltac solve_never := repeat first [ progress intros | apply never_bind | solve [auto with clean] | case_match ].

(** ** Letting someone in *)

Section entering.
Context {B : Type} `{SfuRoomManager B, JwtCodec MediaTokenClaims, LiveKitTokens}.
(** Whom the index may name: [who] before, and the joiner [p] in [r]. *)
Context (who : PeerId → RoomId → Prop) (p : PeerId) (r : RoomId) (Hout : ∀ r', ¬ who p r').

Definition within (m : gmap PeerId RoomId) : Prop := ∀ q r', m !! q = Some r' → who q r'.
Definition lands (m : gmap PeerId RoomId) : Prop := ∀ q r', m !! q = Some r' → who q r' ∨ q = p ∧ r' = r.

Lemma within_delete m q : within m → within (delete q m).
Proof. intros Hm q' r'. rewrite lookup_delete_Some. intros [_ ?]. by apply Hm. Qed.
Lemma lands_delete m q : lands m → lands (delete q m).
Proof. intros Hm q' r'. rewrite lookup_delete_Some. intros [_ ?]. by apply Hm. Qed.
Lemma lands_insert m : lands m → lands (<[p := r]> m).
Proof. intros Hm q' r'. rewrite lookup_insert_Some. intros [[<- <-]|[_ ?]]; [by right|by apply Hm]. Qed.
Lemma within_lands m : within m → lands m.
Proof. intros Hm q r' Hq. left. by apply Hm. Qed.
Lemma lands_delete_within m : lands m → within (delete p m).
Proof. intros Hm q r'. rewrite lookup_delete_Some. intros [Hne Hq]. by destruct (Hm _ _ Hq) as [?|[-> _]]. Qed.

Lemma sess_wf_mono (P Q : gmap PeerId RoomId → Prop) (w : World B) :
  (∀ m, P m → Q m) → sess_wf P w → sess_wf Q w.
Proof. intros HPQ [W1 W2 W3]. split; auto. Qed.

(** Participant lists do not see the peer lists. *)
Lemma one_session_ext s s' : (∀ r0, plist r0 s' = plist r0 s) → one_session s → one_session s'.
Proof. intros Heq Hs r0 ps u. rewrite Heq. apply Hs. Qed.

Lemma plist_try_add_all {X} p0 r0 (f : X → Result unit JoinRejectionReason * X) s x r' :
  plist r' (try_add_peer_with p0 r0 f s x).1.2 = plist r' s.
Proof.
  destruct (try_add_peer_with p0 r0 f s x) as [[[n|e] s'] x'] eqn:E; simpl.
  - destruct (decide (r' = r0)) as [->|Hr]; [by eapply plist_try_add|].
    revert E. unfold try_add_peer_with. destruct (rooms s !! r0) as [m|]; [|done].
    destruct (contains _ _); [by intros [= _ <- _]|]. case_bool_decide; [done|].
    destruct (f x) as [[]]; [|done]. intros [= _ <- _].
    unfold plist, get_room_info. simpl. by rewrite lookup_insert_ne.
  - by apply try_add_Err in E as ->.
Qed.

Lemma join_rooms_sess code now :
  preserves (sess_wf lands) (join_rooms (B:=B) p r (consume_invite r code now)).
Proof.
  intros w [[W1 W2] W3 W4]. unfold join_rooms.
  assert (peer_free p r (w_rooms w)) as Hfree.
  { intros r0 Hr. destruct (W4 _ _ Hr) as [Hw|[_ ?]]; [by apply Hout in Hw|done]. }
  pose proof (rooms_ok_try_add p r (consume_invite r code now) _ (w_invites w) Hfree W1) as Hok.
  pose proof (try_add_store p r code now (w_rooms w) _ W2) as Hst.
  pose proof (λ r', plist_try_add_all p r (consume_invite r code now) (w_rooms w) (w_invites w) r') as Hpl.
  destruct (try_add_peer_with _ _ _ _ _) as [[[n|e] s'] inv'] eqn:E; simpl in *;
    (split; [by split|by eapply one_session_ext|]); simpl.
  - apply peers_at_try_add in E as (_ & -> & _). by apply lands_insert.
  - by apply try_add_Err in E as ->.
Qed.

Lemma join_rooms_clean code now :
  fails_clean (sess_wf within) (join_rooms (B:=B) p r (consume_invite r code now)).
Proof.
  intros w e w' Hw Heq. pose proof (join_rooms_sess code now w (sess_wf_mono _ _ _ within_lands Hw)) as [H1' H2' _].
  rewrite Heq in *. split; [done|done|]. revert Heq. unfold join_rooms.
  destruct (try_add_peer_with _ _ _ _ _) as [[[n|e'] s'] inv'] eqn:E; [done|]. intros [= _ <-]. simpl.
  apply try_add_Err in E as ->. apply Hw.
Qed.

(** A participant without a user changes no session. *)
Lemma sessions_push_anonymous u ps q : user_id q = None → sessions u (ps ++ [q]) = sessions u ps.
Proof. intros Hq. rewrite sessions_app. unfold sessions, is_user. simpl. by rewrite Hq, app_nil_r. Qed.

Lemma calm_push q f :
  user_id q = None → info_safe f → (∀ i, participants (f i) = participants i ++ [q]) → calm (update_room_info r f).
Proof.
  intros Hq Hs Hf. split; intros s; [by apply rooms_ok_update| |left; apply peer_to_room_update].
  apply one_session_update. intros i u. by rewrite Hf, sessions_push_anonymous.
Qed.

Lemma sfu_handle_for_sess P max now :
  (∀ m q, P m → P (delete q m)) → preserves (sess_wf P) (sfu_handle_for (B:=B) r max now).
Proof.
  intros HP. unfold sfu_handle_for. solve_preserves.
  apply sess_wf_create_room; [|apply share_wf_new_sfu|apply one_ok_new_sfu|done]. pose proof (max_new_sfu max a0 now). lia.
Qed.

Lemma info_safe_push name color now : info_safe (λ i,
  record_token_issued p now (set_participants (λ ps, ps ++ [new_participant p name None color]) i)).
Proof. eauto 6 with wavis. Qed.

Lemma handle_sfu_join_sess name color mode url max code rd :
  preserves (sess_wf lands) (handle_sfu_join (B:=B) r p name color mode url max code rd).
Proof.
  pose proof quiet_is_revoked. pose proof lands_delete as HP. unfold handle_sfu_join.
  apply preserves_bind; [by apply sfu_handle_for_sess|intros h].
  pose proof (join_rooms_sess code (rd_invite_now rd)) as Hj. solve_preserves.
  apply sess_wf_do_calm; [done|]. eapply calm_push; [|apply info_safe_push|done]. done.
Qed.

Lemma handle_sfu_join_clean name color mode url max code rd :
  fails_clean (sess_wf within) (handle_sfu_join (B:=B) r p name color mode url max code rd).
Proof.
  pose proof quiet_is_revoked. pose proof within_delete as HP. unfold handle_sfu_join.
  apply clean_before; [by apply sfu_handle_for_sess|intros h].
  apply clean_before; [by apply sess_wf_call_bridge|intros _].
  apply clean_before; [by apply sess_wf_call_rooms|intros revoked].
  case_match; [by apply clean_preserves, preserves_throw|].
  apply clean_before; [apply preserves_lift_result|intros token].
  apply clean_before; [apply preserves_read_rooms|intros existing].
  apply clean_after; [apply clean_map_err, join_rooms_clean|intros n].
  unfold do_rooms, read_rooms. solve_never.
Qed.

(** ** Entering by invite *)

(** From [I], a success ends in [J] and a failure in [K]. *)
Definition triple {S E A} (I : S → Prop) (m : M S E A) (J K : S → Prop) : Prop :=
  ∀ s, I s → match m s with (Ok _, s') => J s' | (Err _, s') => K s' end.

(** An entry that succeeds lets [p] into [r]; one that fails lets nobody in. *)
Definition enters {E A} (m : M (World B) E A) : Prop :=
  triple (sess_wf within) m (sess_wf lands) (sess_wf within).

Lemma handle_sfu_join_enters name color mode url max code rd :
  enters (handle_sfu_join (B:=B) r p name color mode url max code rd).
Proof.
  intros w Hw. pose proof (handle_sfu_join_sess name color mode url max code rd w (sess_wf_mono _ _ _ within_lands Hw)) as Hl.
  pose proof (handle_sfu_join_clean name color mode url max code rd w) as Hc.
  destruct (handle_sfu_join _ _ _ _ _ _ _ _ _ w) as [[a|e] w']; [done|]. by eapply Hc.
Qed.

(** [handle_p2p_join] as a call on the world. *)
Definition p2p_join (code : option string) (created_at now : Instant) : M (World B) P2PJoinResult P2PJoinResult := λ w,
  let '(res, s, inv) := handle_p2p_join r p code created_at now (w_rooms w) (w_invites w) in
  (match res with P2PJoined _ => Ok res | _ => Err res end, mkWorld s inv (w_bridge w)).

Lemma p2p_join_enters code created_at now : enters (p2p_join code created_at now).
Proof.
  intros w Hw. unfold p2p_join, handle_p2p_join.
  pose proof (sess_wf_create_room (E:=Empty_set) within r (new_p2p created_at) ltac:(done) (share_wf_new_p2p created_at)
    (one_ok_new_p2p created_at) eq_refl w Hw) as Hw0.
  unfold call_rooms, state in Hw0. destruct (create_room r (new_p2p created_at) (w_rooms w)) as [b s0]. cbn [snd] in *.
  set (w0 := mkWorld s0 (w_invites w) (w_bridge w)) in *.
  pose proof (join_rooms_sess code now w0 (sess_wf_mono _ _ _ within_lands Hw0)) as Hl.
  pose proof (join_rooms_clean code now w0) as Hc. unfold join_rooms in Hl, Hc. cbn [w_rooms w_invites w_bridge w0] in Hl, Hc.
  destruct (try_add_peer_with p r (consume_invite r code now) s0 (w_invites w)) as [[[n|e] s'] inv']; [done|].
  specialize (Hc _ _ Hw0 eq_refl). by destruct e.
Qed.

(** ** Entering a room created for it *)

Lemma plist_add_peer now s r' ps :
  plist r' (add_peer p r now s) = Some ps → ps = [] ∨ plist r' s = Some ps.
Proof.
  unfold add_peer. set (s0 := match rooms s !! r with Some _ => s | None => _ end).
  assert (∀ ps, plist r' s0 = Some ps → ps = [] ∨ plist r' s = Some ps) as H0'.
  { intros ps0. subst s0. destruct (rooms s !! r) eqn:E; [by right|].
    unfold plist, get_room_info. simpl. rewrite lookup_insert. case_decide; [|by right].
    simpl. intros [= <-]. by left. }
  set (s1 := match peer_to_room s0 !! p with Some _ => _ | None => s0 end).
  assert (∀ ps, plist r' s1 = Some ps → plist r' s0 = Some ps) as H1'.
  { intros ps0. subst s1. destruct (peer_to_room s0 !! p) as [r0|]; [|done]. case_bool_decide; [|done].
    unfold remove_peer_from_room_only. destruct (rooms s0 !! r0) as [m0|] eqn:E0; [|done].
    unfold plist, get_room_info. cbn zeta. case_match; simpl.
    - rewrite lookup_delete. by case_decide.
    - rewrite lookup_insert. case_decide; [subst; by rewrite E0|done]. }
  intros Hp. apply H0', H1'. rewrite <-Hp. unfold plist, get_room_info. simpl.
  rewrite lookup_alter. case_decide; [subst|done]. destruct (rooms s1 !! r') as [m|]; [|done].
  simpl. unfold push_if_absent. by case_match.
Qed.

Lemma one_session_add_peer now s : one_session s → one_session (add_peer p r now s).
Proof. intros Hs r' ps u Hp. destruct (plist_add_peer now s r' ps Hp) as [->|Hp']; [simpl; lia|by eapply Hs]. Qed.

(** One session per user, and where the index points. *)
Definition seats (P : gmap PeerId RoomId → Prop) (w : World B) : Prop :=
  one_session (w_rooms w) ∧ P (peer_to_room (w_rooms w)).

Lemma seats_rooms P f (w : World B) :
  calm f → (∀ m q, P m → P (delete q m)) → seats P w → seats P (mkWorld (f (w_rooms w)) (w_invites w) (w_bridge w)).
Proof.
  intros [_ F2 F3] HP [W3 W4]. split; [by apply F2|]. simpl. destruct (F3 (w_rooms w)) as [->|[q ->]]; auto.
Qed.

Lemma seats_create P i (w : World B) :
  participants i = [] → seats P w → seats P (mkWorld (create_room r i (w_rooms w)).2 (w_invites w) (w_bridge w)).
Proof.
  intros Hi [W3 W4]. split; simpl; [|by rewrite peer_to_room_create_room].
  intros r' ps u. unfold create_room. destruct (rooms (w_rooms w) !! r) eqn:E; [apply W3|].
  unfold plist, get_room_info. simpl. rewrite lookup_insert. case_decide; [|apply W3].
  simpl. intros [= <-]. rewrite Hi. simpl. lia.
Qed.

Lemma seats_enter now (w : World B) :
  seats within w → seats lands (mkWorld (add_peer p r now (w_rooms w)) (w_invites w) (w_bridge w)).
Proof.
  intros [W3 W4]. split; cbn [w_rooms]; [by apply one_session_add_peer|].
  rewrite peer_to_room_add_peer. by apply lands_insert, within_lands.
Qed.

Lemma seats_remove (w : World B) :
  seats lands w → seats within (mkWorld (remove_peer p (w_rooms w)) (w_invites w) (w_bridge w)).
Proof.
  intros [W3 W4]. split; cbn [w_rooms].
  - apply (calm_one _ (quiet_calm _ (quiet_remove_peer_internal p true))), W3.
  - unfold remove_peer. rewrite peer_to_room_remove_peer_internal. by apply lands_delete_within.
Qed.

Lemma create_and_enter_seats ty max avail rd :
  triple (seats within) (create_and_enter (B:=B) ty r p max avail rd) (seats lands) (seats within).
Proof.
  intros w Hw. unfold create_and_enter. destruct ty.
  - unfold mbind_, call_rooms, state, do_rooms, modify.
    pose proof (seats_create within (new_p2p (rd_created_at rd)) w eq_refl Hw) as Hc.
    destruct (create_room _ _ _) as [b s]. exact (seats_enter _ _ Hc).
  - destruct avail; [|exact Hw]. unfold mbind_, map_err_m, call_bridge, call_rooms, state, do_rooms, modify, attempt. simpl.
    destruct (sfu_create_room r (w_bridge w)) as [[h|e] b]; simpl; [|exact Hw].
    pose proof (seats_create within (new_sfu max h (rd_created_at rd)) w eq_refl Hw) as Hc.
    destruct (create_room _ _ _) as [x s]. simpl in *.
    pose proof (seats_enter (rd_created_at rd) _ Hc) as He.
    destruct (sfu_add_participant h p b) as [[[]|e] b']; simpl; [exact He|]. exact (seats_remove _ He).
Qed.

Lemma handle_create_room_seats (room_id : string) name color hint max issuer mode url avail rd w :
  trim room_id = r →
  (∀ rid pid nm, rid ≠ EmptyString → pid ≠ EmptyString → is_Ok (mint_token mode rid pid nm rd) = true) →
  p ≠ EmptyString → seats within w →
  match handle_create_room (B:=B) room_id p name color hint max issuer mode url avail rd w with
  | (Ok _, w') => seats lands w'
  | (Err _, w') => seats within w'
  end.
Proof.
  intros Hr Hmint Hp Hw. unfold handle_create_room. rewrite Hr. unfold str_is_empty. case_bool_decide as Hne; [done|].
  unfold mbind_ at 1, read_rooms, gets. case_bool_decide; [done|].
  pose proof (create_and_enter_seats (determine_room_type hint max) max avail rd w Hw) as Hce.
  unfold mbind_ at 1. destruct (create_and_enter _ _ _ _ _ _ w) as [[[]|e] w1]; [|done].
  unfold mbind_ at 1, attempt, call_invites.
  destruct (generate _ _ _ _ _ (w_invites w1)) as [[record|e] inv'].
  2: { unfold mbind_, do_rooms, modify, throw. exact (seats_remove _ Hce). }
  unfold mbind_ at 1, do_rooms at 1, modify at 1.
  set (w2 := mkWorld _ _ _).
  assert (seats lands w2) as Hw2.
  { refine (seats_rooms lands _ (mkWorld (w_rooms w1) inv' (w_bridge w1)) _ lands_delete Hce).
    eapply calm_push; [|apply info_safe_participants|done]. done. }
  unfold mbind_ at 1, gets. cbn zeta. case_bool_decide; [|done].
  unfold mbind_ at 1, lift_result. specialize (Hmint r p name Hne Hp).
  destruct (mint_token mode r p name rd); [|done]. cbn [map_err].
  unfold mbind_, do_rooms, modify, mret. refine (seats_rooms lands _ w2 _ lands_delete Hw2).
  apply quiet_calm, quiet_update; [apply info_safe_token|done].
Qed.
End entering.

(** ** The channel's room *)

Section voice_entering.
Context {B : Type} `{SfuRoomManager B, JwtCodec MediaTokenClaims, LiveKitTokens}.
Context {Uuid : Type} `{EqDecision Uuid} `{!Countable Uuid} `{UuidText Uuid}.
Context (P : gmap PeerId RoomId → Prop) (HP : ∀ m q, P m → P (delete q m)).
Abbreviation VW := (VoiceWorld B Uuid) (only parsing).

Definition points (v : VW) : Prop := P (peer_to_room (w_rooms (v_world v))).

Lemma points_on_world {E A} (m : M (World B) E A) :
  preserves (λ w, P (peer_to_room (w_rooms w))) m → preserves points (on_world (Uuid:=Uuid) m).
Proof. intros Hm v Hv. unfold on_world. specialize (Hm _ Hv). by destruct (m (v_world v)). Qed.
Lemma points_map {E} f : preserves (E:=E) points (update_map f).
Proof. by apply preserves_modify. Qed.
Lemma points_do {E} f :
  calm f → preserves (E:=E) (λ w : World B, P (peer_to_room (w_rooms w))) (do_rooms f).
Proof. intros [_ _ F]. apply preserves_modify. intros w Hw. simpl. destruct (F (w_rooms w)) as [->|[q ->]]; auto. Qed.
Lemma points_call {E A} (f : InMemoryRoomState → A * InMemoryRoomState) :
  calm (λ s, (f s).2) → preserves (E:=E) (λ w : World B, P (peer_to_room (w_rooms w))) (call_rooms f).
Proof.
  intros [_ _ F]. apply preserves_state. intros w Hw. specialize (F (w_rooms w)).
  destruct (f (w_rooms w)) as [a s]. simpl in *. destruct F as [->|[q ->]]; auto.
Qed.
Lemma points_create {E} r i :
  preserves (E:=E) (λ w : World B, P (peer_to_room (w_rooms w))) (call_rooms (create_room r i)).
Proof.
  apply preserves_state. intros w Hw. pose proof (peer_to_room_create_room r i (w_rooms w)) as Hi.
  destruct (create_room r i (w_rooms w)). simpl in *. by rewrite Hi.
Qed.
Lemma points_bridge {X A} (f : B → Result A X * B) :
  preserves (λ w : World B, P (peer_to_room (w_rooms w))) (call_bridge f).
Proof. intros w Hw. unfold call_bridge. by destruct (f (w_bridge w)). Qed.

#[local] Hint Resolve points_on_world points_map points_do points_call points_create points_bridge : wavis.

Lemma evict_points h id : preserves (λ w : World B, P (peer_to_room (w_rooms w))) (evict h id).
Proof. unfold evict. solve_preserves. Qed.
#[local] Hint Resolve evict_points : wavis.
Lemma evict_stale_points r u vr : preserves (λ w : World B, P (peer_to_room (w_rooms w))) (evict_stale_session r u vr).
Proof. unfold evict_stale_session, remove_peer_preserve_room. solve_preserves; eauto 8 with wavis. Qed.

Lemma ensure_active_room_points c b max vr : preserves points (ensure_active_room (B:=B) c b max vr).
Proof.
  assert (preserves points (create_active_room (B:=B) c b max vr)) as Hc.
  { unfold create_active_room. solve_preserves; eauto 8 with wavis. }
  unfold ensure_active_room. revert Hc. generalize (create_active_room (B:=B) c b max vr). intros create Hc.
  solve_preserves. apply points_on_world, points_do, quiet_calm, quiet_update; [apply info_safe_refresh|].
  intros i. unfold refresh_passthrough. rewrite <-(ensure_participants i). by case_match.
Qed.

Lemma fail_join_points {A} created r c e v :
  points v → ∃ e' v', fail_join (B:=B) (A:=A) created r c e v = (Err e', v') ∧ points v'.
Proof.
  intros Hv. assert (preserves points (fail_join (B:=B) (A:=A) created r c e)) as Hf.
  { unfold fail_join, rollback_room. solve_preserves; eauto 8 with wavis. }
  specialize (Hf v Hv). unfold fail_join, mbind_ in *. by destruct (when _ _ v) as [[[]|] v']; eexists _, _.
Qed.

Lemma ensure_active_room_map c b max vr :
  preserves (λ v, map_ok (v_map v)) (ensure_active_room (B:=B) (Uuid:=Uuid) c b max vr).
Proof.
  assert (∀ E A (m : M (World B) E A), preserves (λ v, map_ok (v_map v)) (on_world (Uuid:=Uuid) m)) as Hw.
  { intros E A m v Hv. unfold on_world. by destruct (m (v_world v)). }
  assert (∀ E f, (∀ m, map_ok m → map_ok (f m)) → preserves (E:=E) (λ v, map_ok (v_map v)) (update_map (B:=B) (Uuid:=Uuid) f)) as Hm.
  { intros E f Hf. apply preserves_modify. intros v. apply Hf. }
  pose proof (λ c suffix m, map_ok_insert (Uuid:=Uuid) c suffix m) as Hins.
  pose proof (λ c m, map_ok_delete (Uuid:=Uuid) c m) as Hdel.
  unfold ensure_active_room, create_active_room. solve_preserves.
Qed.
End voice_entering.

Section voice_enters.
Context {B : Type} `{SfuRoomManager B, JwtCodec MediaTokenClaims, LiveKitTokens}.
Context {Uuid : Type} `{EqDecision Uuid} `{!Countable Uuid} `{UuidText Uuid}.
Context (who : PeerId → RoomId → Prop) (p : PeerId) (Hout : ∀ r', ¬ who p r').
Abbreviation VW := (VoiceWorld B Uuid) (only parsing).

(** The voice token of a join can be made. *)
Definition mints_voice (mode : TokenMode) (rd : Reads) : Prop :=
  ∀ rid pid u nm, rid ≠ EmptyString → pid ≠ EmptyString → u ≠ EmptyString →
    is_Ok (mint_voice_token mode rid pid u nm rd) = true.

Lemma enter_voice_points r created c me u mode url sub vr (v : VW) :
  participant_id me = p → r ≠ EmptyString → p ≠ EmptyString → u ≠ EmptyString → mints_voice mode (vr_reads vr) →
  points (within who) v →
  match enter_voice r created c me u mode url sub vr v with
  | (Ok _, v') => points (lands who p r) v'
  | (Err e, v') => e ≠ VoicePanicked → points (within who) v'
  end.
Proof.
  intros <- Hr Hp Hu Hmint Hv. unfold enter_voice. rewrite bind_on_world. cbn [read_rooms gets].
  destruct (get_room_info r (w_rooms (v_world v)) ≫= sfu_handle) as [h|]; [|intros _; by destruct v].
  unfold mbind_ at 1, attempt, on_world at 1, call_bridge. cbn [v_world v_map].
  destruct (sfu_add_participant _ _ _) as [[[]|e] b].
  2: { match goal with |- context [fail_join created r c ?x ?v0] =>
         destruct (fail_join_points (within who) (within_delete who) (A:=list OutboundSignal) created r c x v0 Hv)
           as (e' & v' & -> & Hf) end. intros _. exact Hf. }
  rewrite bind_on_world. cbn [read_rooms gets v_world v_map w_rooms].
  rewrite bind_on_world. unfold try_add_peer, attempt, join_rooms. cbn [v_world v_map w_rooms w_invites w_bridge].
  destruct (try_add_peer_with (participant_id me) r _ (w_rooms (v_world v)) (w_invites (v_world v)))
    as [[[n|e] s1] inv1] eqn:Et.
  2: { apply try_add_Err in Et as ->.
       match goal with |- context [fail_join created r c ?x ?v0] =>
         destruct (fail_join_points (within who) (within_delete who) (A:=list OutboundSignal) created r c x v0 Hv)
           as (e' & v' & -> & Hf) end. intros _. exact Hf. }
  apply peers_at_try_add in Et as (_ & Hidx & _).
  rewrite bind_on_world. cbn [do_rooms modify v_world v_map w_rooms w_invites w_bridge].
  set (v2 := mkVoiceWorld _ _).
  assert (points (lands who (participant_id me) r) v2) as Hv2.
  { unfold points, v2. cbn [v_world w_rooms]. rewrite peer_to_room_update, Hidx. apply lands_insert, within_lands, Hv. }
  rewrite bind_on_world. unfold call_rooms, state.
  pose proof (calm_index _ (quiet_calm _ (sync_quiet r (participant_id me) sub (vr_clks vr))) (w_rooms (v_world v2))) as Hsync.
  cbv beta in Hsync.
  destruct (sync_sub_room_state_on_voice_join _ _ _ _ _) as [[sync|] s3]; [|intros []; done]. cbn [snd] in Hsync.
  unfold mbind_ at 1, lift_result at 1. cbn [ok_or]. unfold mbind_ at 1, lift_result. specialize (Hmint r (participant_id me) u (display_name me) Hr Hp Hu).
  destruct (mint_voice_token _ _ _ _ _ _) as [token|]; [|done]. cbn [map_err].
  unfold mbind_, on_world, read_rooms, gets, mret, points. cbn [v_world w_rooms v_map].
  destruct Hsync as [->|[q ->]]; [exact Hv2|apply lands_delete, Hv2].
Qed.

Lemma join_voice_points db mode url cs uid name color sub max vr (v : VW) :
  (∀ u : Uuid, uuid_to_string u ≠ EmptyString) → p ≠ EmptyString → mints_voice mode (vr_reads vr) → map_ok (v_map v) →
  points (within who) v →
  match join_voice db mode url cs uid p name color sub max vr v with
  | (Ok res, v') => points (lands who p (vj_room_id res)) v'
  | (Err e, v') => e ≠ VoicePanicked → points (within who) v'
  end.
Proof.
  intros Hne Hp Hmint Hmap Hv.
  destruct (uuid_parse_str cs) as [c|] eqn:Ec.
  2: { unfold join_voice. rewrite Ec. by intros _. }
  destruct (db c uid) as [[row|]|] eqn:Er; [|unfold join_voice, mbind_, lift_result; rewrite Ec; cbn; rewrite Er; by intros _..].
  destruct (row_banned_at row) eqn:Eb; [unfold join_voice, mbind_, lift_result; rewrite Ec; cbn; rewrite Er; cbn; rewrite Eb; by intros _|].
  assert (authorised db cs uid c row) as Hauth by done.
  rewrite (join_voice_run _ _ _ _ _ _ _ _ _ _ _ _ _ _ Hauth).
  pose proof (ensure_active_room_points (within who) (within_delete who) c (row_passthrough_enabled row) max vr v Hv) as Hv1.
  destruct (ensure_active_room _ _ _ _ v) as [[[r created]|e] v1] eqn:Een; [|intros _; exact Hv1]. cbn [snd] in Hv1.
  assert (r ≠ EmptyString) as Hr.
  { pose proof (ensure_active_room_map c (row_passthrough_enabled row) max vr v Hmap) as Hmap1.
    rewrite Een in Hmap1. apply ensure_active_room_Ok in Een as [Hm _].
    by destruct (Hmap1 _ _ Hm) as [suffix ->]. }
  cbn zeta.
  pose proof (evict_stale_points (within who) (within_delete who) r (uuid_to_string uid) vr (v_world v1) Hv1) as Hv2.
  destruct (evict_stale_session _ _ _ _) as [ev w2]. cbn [fst snd] in *.
  pose proof (enter_voice_points r created c (new_participant p name (Some (uuid_to_string uid)) color)
    (uuid_to_string uid) mode url sub vr (mkVoiceWorld w2 (v_map v1)) eq_refl Hr Hp (Hne uid) Hmint Hv2) as He.
  destruct (enter_voice _ _ _ _ _ _ _ _ _ _) as [[sigs|e] v3]; exact He.
Qed.
End voice_enters.
