(* ===== verification/WsSession.v ===== *)
(** * Signaling sessions (wavis-backend/src/ws/validation.rs, ws_session.rs,
    ws_dispatch.rs (delivery), connections.rs)

    The gate that decides which messages a connection may send, the delivery of
    outbound signals, and the teardown of a session: leaving the room, dropping
    the connection and removing what an empty room leaves behind.  The queue of a
    peer's channel is the list of the messages handed to it. *)

From S2P Require Import Prelude Signaling Invite RoomState ScreenShare Relay SfuBridge Tokens SfuRelay SubRooms Voice.
Local Open Scope Z_scope.

(** ** The message gate *)

(** [validate_state_transition]. *)
Definition validate_state_transition (m : SignalingMessage) (session : bool) (authenticated : bool)
    : Result unit string :=
  match m with
  | Msg.Ping => Ok tt
  | Msg.Auth _ =>
      if session then Err "auth not permitted after join"
      else if authenticated then Err "already authenticated" else Ok tt
  | Msg.Join _ | Msg.CreateRoom _ => if session then Err "already joined" else Ok tt
  | Msg.JoinVoice _ =>
      if session then Err "already joined"
      else if authenticated then Ok tt else Err "not authenticated"
  | Msg.ChatHistoryRequest _ | Msg.SelfDeafen | Msg.SelfUndeafen =>
      if session then Ok tt else Err "not in a room"
  | _ => if session then Ok tt else Err "not authenticated"
  end.

(** ** Delivery *)

(** [LiveConnections]: the queue of every registered peer. *)
Abbreviation LiveConnections := (gmap PeerId (list SignalingMessage)) (only parsing).

(** [LiveConnections::register], [unregister], [send_to]. *)
Definition register (peer_id : PeerId) (c : LiveConnections) : LiveConnections := <[peer_id := []]> c.
Definition unregister (peer_id : PeerId) (c : LiveConnections) : LiveConnections := delete peer_id c.
Definition send_to (peer_id : PeerId) (m : SignalingMessage) (c : LiveConnections) : LiveConnections :=
  alter (λ q, q ++ [m]) peer_id c.

(** The peers a signal goes to. *)
Definition recipients (t : SignalTarget) (room_peers : list PeerId) : list PeerId :=
  match t with
  | Peer p => [p]
  | Broadcast exclude => retain (λ p, bool_decide (p ≠ exclude)) room_peers
  | BroadcastAll => room_peers
  end.

(** [dispatch_signals]. *)
Definition dispatch_signals (signals : list OutboundSignal) (room_id : RoomId) (s : InMemoryRoomState)
    (c : LiveConnections) : LiveConnections :=
  foldl (λ c sig, foldl (λ c p, send_to p (msg sig) c) c (recipients (target sig) (peers_at s room_id)))
    c signals.

(** ** Sessions *)

(** [SignalingSession]. *)
Record SignalingSession : Type := mkSignalingSession {
  ss_participant_id : string;
  ss_room_id : RoomId;
  ss_role : ParticipantRole;
  ss_user_id : option string;
  ss_channel_id : option string;
  leave_handled : bool;
  cleanup_complete : bool
}.

(** [SignalingSession::new]. *)
Definition SignalingSession_new (pid : string) (room_id : RoomId) (role : ParticipantRole)
    (uid cid : option string) : SignalingSession :=
  mkSignalingSession pid room_id role uid cid false false.

Definition set_leave_handled (s : SignalingSession) : SignalingSession :=
  mkSignalingSession (ss_participant_id s) (ss_room_id s) (ss_role s) (ss_user_id s) (ss_channel_id s)
    true (cleanup_complete s).
Definition set_cleanup_complete (s : SignalingSession) : SignalingSession :=
  mkSignalingSession (ss_participant_id s) (ss_room_id s) (ss_role s) (ss_user_id s) (ss_channel_id s)
    (leave_handled s) true.

(** The clock reads of a teardown. *)
Record LeaveReads : Type := mkLeaveReads {
  lr_revoked_at : Instant;
  lr_leave : Reads;
  lr_sub_now : Instant;
  lr_clks : string → Instant * Z
}.

Section session.
Context {B : Type} `{SfuRoomManager B}.
Context {Uuid : Type} `{EqDecision Uuid} `{!Countable Uuid} `{UuidText Uuid}.

(** The parts of [AppState] a teardown touches; [expiry_timers] are the sub-room
    timers it starts and [ec2_stops] the stop requests it triggers. *)
Record App : Type := mkApp {
  app_voice : VoiceWorld B Uuid;
  app_connections : LiveConnections;
  expiry_timers : list (RoomId * PendingSubRoomExpiry);
  pending_shutdown : bool;
  ec2_stops : nat
}.
Abbreviation app_rooms a := (w_rooms (v_world (app_voice a))) (only parsing).

Definition set_world (w : World B) (a : App) : App :=
  mkApp (mkVoiceWorld w (v_map (app_voice a))) (app_connections a) (expiry_timers a) (pending_shutdown a)
    (ec2_stops a).
Definition set_app_rooms (s : InMemoryRoomState) (a : App) : App :=
  set_world (mkWorld s (w_invites (v_world (app_voice a))) (w_bridge (v_world (app_voice a)))) a.
Definition deliver (signals : list OutboundSignal) (room_id : RoomId) (a : App) : App :=
  mkApp (app_voice a) (dispatch_signals signals room_id (app_rooms a) (app_connections a))
    (expiry_timers a) (pending_shutdown a) (ec2_stops a).
Definition send (p : PeerId) (m : SignalingMessage) (a : App) : App :=
  mkApp (app_voice a) (send_to p m (app_connections a)) (expiry_timers a) (pending_shutdown a) (ec2_stops a).
Definition start_timer (room_id : RoomId) (e : option PendingSubRoomExpiry) (a : App) : App :=
  mkApp (app_voice a) (app_connections a)
    (match e with Some e => expiry_timers a ++ [(room_id, e)] | None => expiry_timers a end)
    (pending_shutdown a) (ec2_stops a).

(** The extra steps of an ungraceful disconnect from an SFU room. *)
Definition disconnect_sfu (room_id : RoomId) (pid : string) (lr : LeaveReads) (a : App) : App :=
  let a := set_app_rooms (add_revoked_participant room_id pid (lr_revoked_at lr) (app_rooms a)) a in
  let '(shares, s) := cleanup_share_on_disconnect room_id pid (app_rooms a) in
  let a := set_app_rooms s a in
  match shares with Some sigs => deliver sigs room_id a | None => a end.

(** The SFU branch of [leave_room]. *)
Definition leave_sfu (room_id : RoomId) (pid : string) (lr : LeaveReads) (a : App) : App :=
  match handle_sfu_leave room_id pid (lr_leave lr) (v_world (app_voice a)) with
  | (Ok signals, w) =>
      let a := set_world w a in
      let '(sub, s) := remove_participant_from_sub_room room_id pid (lr_sub_now lr) (lr_clks lr) (app_rooms a) in
      let a := set_app_rooms s a in
      start_timer room_id (sar_expiry sub) (deliver (signals ++ sar_signals sub) room_id a)
  | (Err _, w) => set_world w a
  end.

(** [SignalingSession::leave_room]. *)
Definition leave_room (is_disconnect : bool) (lr : LeaveReads) (ses : SignalingSession) (a : App)
    : SignalingSession * App :=
  let room_id := ss_room_id ses in
  let pid := ss_participant_id ses in
  let a' :=
    match room_type <$> get_room_info room_id (app_rooms a) with
    | Some Sfu => leave_sfu room_id pid lr (if is_disconnect then disconnect_sfu room_id pid lr a else a)
    | _ =>
        let a := match handle_disconnect (app_rooms a) pid with
                 | Some (target, m) => send target m a
                 | None => a
                 end in
        if is_disconnect then a else set_app_rooms (remove_peer pid (app_rooms a)) a
    end in
  (set_leave_handled ses, a').

(** [SignalingSession::handle_leave]. *)
Definition handle_leave (lr : LeaveReads) (ses : SignalingSession) (a : App) : SignalingSession * App :=
  if leave_handled ses then (ses, a) else leave_room false lr ses a.

(** [SignalingSession::cleanup_room_artifacts]. *)
Definition cleanup_room_artifacts (ses : SignalingSession) (a : App) : App :=
  match get_room_info (ss_room_id ses) (app_rooms a) with
  | Some _ => a
  | None =>
      let w := v_world (app_voice a) in
      let w' := mkWorld (w_rooms w) (remove_room_invites (ss_room_id ses) (w_invites w)) (w_bridge w) in
      let map := match ss_channel_id ses ≫= uuid_parse_str with
                 | Some c => unmap_room c (ss_room_id ses) (v_map (app_voice a))
                 | None => v_map (app_voice a)
                 end in
      let stop := pending_shutdown a && bool_decide (active_room_count (w_rooms w) = 0) in
      mkApp (mkVoiceWorld w' map) (app_connections a) (expiry_timers a)
        (if stop then false else pending_shutdown a) (if stop then S (ec2_stops a) else ec2_stops a)
  end.

(** [SignalingSession::cleanup_connection]. *)
Definition cleanup_connection (peer_id : PeerId) (lr : LeaveReads) (ses : SignalingSession) (a : App)
    : SignalingSession * App :=
  if cleanup_complete ses then (ses, a)
  else
    let ses := set_cleanup_complete ses in
    let '(ses, a) := if leave_handled ses then (ses, a) else leave_room true lr ses a in
    let a := mkApp (app_voice a) (unregister peer_id (app_connections a)) (expiry_timers a)
               (pending_shutdown a) (ec2_stops a) in
    let a := set_app_rooms (remove_peer peer_id (app_rooms a)) a in
    (ses, cleanup_room_artifacts ses a).

(** [cleanup_unjoined_connection]. *)
Definition cleanup_unjoined_connection (peer_id : PeerId) (a : App) : App :=
  let a := mkApp (app_voice a) (unregister peer_id (app_connections a)) (expiry_timers a)
             (pending_shutdown a) (ec2_stops a) in
  set_app_rooms (remove_peer peer_id (app_rooms a)) a.
End session.
Arguments App B Uuid {_ _} : assert.

(** ** The gate *)

(** Before a connection has joined, only keepalives, authentication, joins and
    room creation pass, and a voice join only after authentication; once it has
    joined, it can neither authenticate nor join again, and everything else
    passes. *)
Theorem gate_exact m session authenticated :
  validate_state_transition m session authenticated = Ok tt ↔
  match m with
  | Msg.Ping => True
  | Msg.Auth _ => session = false ∧ authenticated = false
  | Msg.Join _ | Msg.CreateRoom _ => session = false
  | Msg.JoinVoice _ => session = false ∧ authenticated = true
  | _ => session = true
  end.
Proof. destruct m, session, authenticated; simpl; naive_solver. Qed.

(** ** Delivery *)

Lemma send_to_lookup p m c q :
  send_to p m c !! q = if decide (p = q) then (λ l, l ++ [m]) <$> c !! q else c !! q.
Proof.
  unfold send_to. case_decide; [subst; by rewrite lookup_alter_eq|by rewrite lookup_alter_ne].
Qed.

(** Only registered peers have a queue, before and after. *)
Lemma dispatch_registered sigs r s c q : is_Some (dispatch_signals sigs r s c !! q) ↔ is_Some (c !! q).
Proof.
  unfold dispatch_signals. revert c. induction sigs as [|sig sigs IH]; intros c; cbn [foldl]; [done|].
  rewrite IH. generalize (recipients (target sig) (peers_at s r)). intros l. revert c.
  induction l as [|p l IHl]; intros c; simpl; [done|]. rewrite IHl, send_to_lookup.
  case_decide; [|done]. by rewrite fmap_is_Some.
Qed.

(** ** Teardown *)

Section teardown.
Context {B : Type} `{SfuRoomManager B}.
Context {Uuid : Type} `{EqDecision Uuid} `{!Countable Uuid} `{UuidText Uuid}.
Abbreviation A := (App B Uuid) (only parsing).
Abbreviation world a := (v_world (app_voice a)) (only parsing).
Abbreviation table a := (w_rooms (v_world (app_voice a))) (only parsing).

(** A leave, seen from the room table. *)
Lemma handle_sfu_leave_rooms r p rd (w : World B) :
  ∃ sigs w', handle_sfu_leave r p rd w = (Ok sigs, w') ∧
    w_rooms w' = left_rooms r p (rd_now rd) (w_rooms w) ∧ w_invites w' = w_invites w.
Proof.
  unfold handle_sfu_leave. rewrite bind_read, bind_call_rooms, bind_evict, bind_evict_all, bind_call_rooms,
    !bind_do_rooms, bind_read. cbn [w_rooms w_invites w_bridge].
  fold (left_rooms r p (rd_now rd) (w_rooms w)).
  destruct (get_room_info r (w_rooms w) ≫= sfu_handle) as [h|]; [|by eexists _, _].
  unfold when. case_bool_decide; [|by eexists _, _].
  unfold mbind_ at 1 2, attempt, call_bridge. destruct (sfu_destroy_room _ _). by eexists _, _.
Qed.

(** What a step of the teardown of [p] may do. *)
Record releases (p : PeerId) (gone : bool) (a a' : A) : Prop := mk_releases {
  rel_world : world_wf (world a) → world_wf (world a');
  rel_index : peer_to_room (table a') =
    (if gone then delete p (peer_to_room (table a)) else peer_to_room (table a));
  rel_invites : w_invites (world a') = w_invites (world a);
  rel_map : v_map (app_voice a') = v_map (app_voice a)
}.

Lemma releases_refl p (a : A) : releases p false a a.
Proof. by split. Qed.

Lemma releases_trans p g1 g2 (a b c : A) :
  releases p g1 a b → releases p g2 b c → releases p (g1 || g2) a c.
Proof.
  intros [R1 R2 R3 R4] [S1 S2 S3 S4]. split; [by auto| |congruence|congruence].
  rewrite S2, R2. destruct g1, g2; simpl; try done. by rewrite delete_delete_eq.
Qed.

Lemma releases_rooms p (g : bool) (f : InMemoryRoomState → InMemoryRoomState) (a : A) :
  (∀ s, rooms_ok s → rooms_ok (f s)) →
  peer_to_room (f (table a)) = (if g then delete p (peer_to_room (table a)) else peer_to_room (table a)) →
  releases p g a (set_app_rooms (f (table a)) a).
Proof. intros Hok Hidx. split; [|done..]. intros [W1 W2]. split; [by apply Hok|done]. Qed.

Lemma releases_deliver p sigs r (a : A) : releases p false a (deliver sigs r a).
Proof. by split. Qed.
Lemma releases_send p q m (a : A) : releases p false a (send q m a).
Proof. by split. Qed.

Lemma disconnect_sfu_releases r p lr (a : A) : releases p false a (disconnect_sfu r p lr a).
Proof.
  unfold disconnect_sfu. set (a1 := set_app_rooms _ a).
  assert (releases p false a a1) as R1.
  { apply (releases_rooms p false (add_revoked_participant r p (lr_revoked_at lr))).
    - intros s. apply rooms_ok_update, info_safe_revoke.
    - apply peer_to_room_update. }
  pose proof (releases_rooms p false (λ s, (cleanup_share_on_disconnect r p s).2) a1
    (λ s, rooms_ok_cleanup r p s) (proj1 (cleanup_share_membership r p (table a1)))) as R2.
  cbv beta in R2. destruct (cleanup_share_on_disconnect r p (table a1)) as [[sigs|] s]; cbn [snd] in R2.
  - apply (releases_trans p false false _ (set_app_rooms s a1)); [by apply (releases_trans p false false _ a1)|].
    apply releases_deliver.
  - by apply (releases_trans p false false _ a1).
Qed.

Lemma leave_sfu_releases r p lr (a : A) : releases p true a (leave_sfu r p lr a).
Proof.
  unfold leave_sfu. destruct (handle_sfu_leave_rooms r p (lr_leave lr) (world a)) as (sigs & w & Hl & Hr & Hi).
  pose proof (handle_sfu_leave_wf r p (lr_leave lr) (world a)) as Hwf. rewrite Hl in Hwf |- *.
  assert (releases p true a (set_world w a)) as R1.
  { split; [exact Hwf| |done|done]. simpl. rewrite Hr. apply left_rooms_index. }
  pose proof (quiet_leave_sub r p (lr_sub_now lr) (lr_clks lr)) as [Q1 _ _].
  assert (releases p true (set_world w a)
    (set_app_rooms (remove_participant_from_sub_room r p (lr_sub_now lr) (lr_clks lr)
       (table (set_world w a))).2 (set_world w a))) as R2.
  { apply (releases_rooms p true (λ s, (remove_participant_from_sub_room r p (lr_sub_now lr) (lr_clks lr) s).2));
      [exact Q1|]. simpl. rewrite leave_sub_index, Hr, left_rooms_index. by rewrite delete_delete_eq. }
  destruct (remove_participant_from_sub_room _ _ _ _ _) as [sub s]. cbn [snd] in R2.
  apply (releases_trans p true true _ (set_world w a)); [done|]. by destruct R2.
Qed.

Lemma leave_room_releases disc lr ses (a : A) :
  ∃ g, releases (ss_participant_id ses) g a (leave_room disc lr ses a).2.
Proof.
  unfold leave_room. cbn [snd].
  assert (∃ g, releases (ss_participant_id ses) g a
    (let a := match handle_disconnect (table a) (ss_participant_id ses) with
              | Some (target, m) => send target m a
              | None => a
              end in
     if disc then a else set_app_rooms (remove_peer (ss_participant_id ses) (table a)) a)) as Hp2p.
  { set (a1 := match handle_disconnect _ _ with Some _ => _ | None => _ end).
    assert (releases (ss_participant_id ses) false a a1) as R1
      by (subst a1; destruct (handle_disconnect _ _) as [[]|]; [apply releases_send|apply releases_refl]).
    cbv zeta. destruct disc; [by eexists|]. eexists. eapply releases_trans; [exact R1|].
    apply (releases_rooms _ true (remove_peer (ss_participant_id ses))).
    - intros s. apply rooms_ok_remove_peer.
    - apply peer_to_room_remove_peer_internal. }
  destruct (room_type <$> get_room_info (ss_room_id ses) (table a)) as [[]|]; [exact Hp2p| |exact Hp2p].
  exists true. destruct disc; [|apply leave_sfu_releases].
  eapply (releases_trans _ false true); [apply disconnect_sfu_releases|apply leave_sfu_releases].
Qed.

(** Invites and mapping of a room that no longer exists. *)
Definition no_artifacts (ses : SignalingSession) (a : A) : Prop :=
  (∀ c rec, invites (w_invites (world a)) !! c = Some rec → ir_room_id rec ≠ ss_room_id ses) ∧
  ∀ c, ss_channel_id ses ≫= uuid_parse_str = Some c → v_map (app_voice a) !! c ≠ Some (ss_room_id ses).

Lemma cleanup_artifacts_spec ses (a : A) :
  let a' := cleanup_room_artifacts ses a in
  table a' = table a ∧ app_connections a' = app_connections a ∧ (world_wf (world a) → world_wf (world a')) ∧
  (get_room_info (ss_room_id ses) (table a') = None → no_artifacts ses a').
Proof.
  intros a'. subst a'. unfold cleanup_room_artifacts.
  destruct (get_room_info (ss_room_id ses) (table a)) as [i|] eqn:Ei.
  { split_and!; [done..|]. rewrite Ei. done. }
  split_and!; [done|done| |].
  - intros [W1 W2]. split; [exact W1|]. by apply remove_room_wf.
  - intros _. split; simpl.
    + intros c rec [_ Hr]%map_lookup_filter_Some. exact Hr.
    + intros c Hc. rewrite Hc. unfold unmap_room. case_bool_decide as Hm; [|exact Hm].
      intros [Hne _]%(lookup_delete_Some (M:=gmap Uuid)). by apply Hne.
Qed.

(** Cleaning up a connection releases everything it held, whether or not the
    client left first.  The peer has no queue, no index entry and is listed in no
    room, everybody else is where they were, and a room that is gone has no
    invites and no channel that maps to it.  A second cleanup of the session
    changes nothing. *)
Theorem cleanup_connection_releases lr ses (a : A) :
  world_wf (world a) → cleanup_complete ses = false →
  let p := ss_participant_id ses in
  let '(ses', a') := cleanup_connection p lr ses a in
  app_connections a' !! p = None ∧
  (∀ q r, q ∈ peers_at (table a') r ↔ q ≠ p ∧ q ∈ peers_at (table a) r) ∧
  peer_to_room (table a') = delete p (peer_to_room (table a)) ∧
  (get_room_info (ss_room_id ses) (table a') = None → no_artifacts ses a') ∧
  world_wf (world a') ∧
  ∀ lr' a'', cleanup_connection p lr' ses' a'' = (ses', a'').
Proof.
  intros Hwf Hc p. unfold cleanup_connection. rewrite Hc.
  set (ses1 := set_cleanup_complete ses).
  assert (∃ g ses2 a1, (if leave_handled ses1 then (ses1, a) else leave_room true lr ses1 a) = (ses2, a1) ∧
    releases p g a a1 ∧ cleanup_complete ses2 = true ∧ ss_room_id ses2 = ss_room_id ses ∧
    ss_channel_id ses2 = ss_channel_id ses) as (g & ses2 & a1 & -> & R1 & Hc2 & Hr2 & Hch2).
  { destruct (leave_handled ses1).
    - exists false, ses1, a. split_and!; try done.
    - destruct (leave_room_releases true lr ses1 a) as [g R]. eexists g, _, _. split_and!; [reflexivity|exact R|done..]. }
  set (a2 := set_app_rooms _ _).
  assert (releases p true a1 a2) as R2.
  { split; [|apply peer_to_room_remove_peer_internal|done|done].
    intros [W1 W2]. split; [by apply rooms_ok_remove_peer|done]. }
  pose proof (releases_trans _ _ _ _ _ _ R1 R2) as [X1 X2 X3 X4]. rewrite orb_true_r in X2.
  destruct (cleanup_artifacts_spec ses2 a2) as (Ht & Hconn & Hw & Hart).
  assert (no_artifacts ses2 = no_artifacts ses) as Hna by (unfold no_artifacts; by rewrite Hr2, Hch2).
  rewrite Hr2, Hna in Hart. pose proof (X1 Hwf) as Hwf2.
  split_and!; [|..|exact Hart|by apply Hw|by intros; rewrite Hc2].
  - rewrite Hconn. apply lookup_delete_eq.
  - intros q r. rewrite Ht. destruct Hwf as [[[H1' _] _ _] _], Hwf2 as [[[H2' _] _ _] _].
    rewrite <-(H2' q r), <-(H1' q r), X2. rewrite lookup_delete_Some. naive_solver.
  - by rewrite Ht.
Qed.
End teardown.

(** ** A session of a voice room *)

Section session_examples.
Import Mock PlainJwt SfuDemo VoiceDemo.

Definition demo_app : App MockSfuBridge bool :=
  mkApp v2 (register "p2" (register "p1" ∅)) [] true 0.
Definition demo_session : SignalingSession := SignalingSession_new "p2" room Guest (Some "u2") (Some channel).
Definition demo_leave : LeaveReads := mkLeaveReads 7 (demo_reads 7) 7 (λ _, (7, 7)).

(** The first of two participants stays when the second is cut off. *)
Lemma cleanup_connection_releases_witness :
  app_connections demo_app !! "p2" = Some [] ∧ "p2" ∈ peers_at (w_rooms (v_world (app_voice demo_app))) room ∧
  let '(ses', a') := cleanup_connection "p2" demo_leave demo_session demo_app in
  app_connections a' !! "p2" = None ∧
  (∀ q r, q ∈ peers_at (w_rooms (v_world (app_voice a'))) r ↔
    q ≠ "p2" ∧ q ∈ peers_at (w_rooms (v_world (app_voice demo_app))) r) ∧
  world_wf (v_world (app_voice a')).
Proof.
  split; [vm_compute; reflexivity|]. split.
  { apply (bool_decide_unpack _). vm_compute. exact I. }
  pose proof (cleanup_connection_releases demo_leave demo_session demo_app) as Hc. cbv zeta in Hc.
  change (ss_participant_id demo_session) with "p2" in Hc.
  destruct (cleanup_connection "p2" demo_leave demo_session demo_app) as [ses' a'].
  destruct Hc as (H1 & H2 & _ & _ & H3 & _); [exact (sess_world _ _ (voice_sess _ _ v2_wf))|reflexivity|].
  split_and!; [exact H1|exact H2|exact H3].
Defined.
End session_examples.
