(* ===== verification/SlidingWindow.v ===== *)
(** * Sliding-window rate limits (wavis-backend/src/abuse/sliding_window.rs,
    channel/channel_rate_limiter.rs, auth/auth_rate_limiter.rs,
    auth/recovery_rate_limiter.rs, diagnostics/bug_report_rate_limiter.rs)

    A window keeps the times of the recent requests; a limiter keeps one window
    per key and creates it on first use.  The four limiters differ in their keys
    and their configuration only: they share [Windows], and are defined from it
    at the end. *)

From S2P Require Import Prelude.
From Stdlib Require Import Sorting.Sorted.
Local Open Scope Z_scope.

(** ** One window *)

(** [SlidingWindow]. *)
Record SlidingWindow : Type := mkSlidingWindow {
  timestamps : list Instant;
  window : Duration
}.

(** [SlidingWindow::new]. *)
Definition SlidingWindow_new (w : Duration) : SlidingWindow := mkSlidingWindow [] w.

(** [SlidingWindow::add]. *)
Definition add (now : Instant) (s : SlidingWindow) : SlidingWindow :=
  mkSlidingWindow (timestamps s ++ [now]) (window s).

(** [SlidingWindow::prune]: pop expired entries off the front. *)
Fixpoint pop_expired (w : Duration) (now : Instant) (l : list Instant) : list Instant :=
  match l with
  | [] => []
  | t :: l' => if bool_decide (w < duration_since now t) then pop_expired w now l' else l
  end.
Definition prune (now : Instant) (s : SlidingWindow) : SlidingWindow :=
  mkSlidingWindow (pop_expired (window s) now (timestamps s)) (window s).

(** [SlidingWindow::count]. *)
Definition count (now : Instant) (s : SlidingWindow) : Z * SlidingWindow :=
  let s' := prune now s in (len (timestamps s'), s').

(** [SlidingWindow::seconds_until_retry]. *)
Definition scan_step (w : Duration) (now : Instant) (acc : Z * option Instant) (t : Instant)
    : Z * option Instant :=
  if bool_decide (duration_since now t ≤ w)
  then (acc.1 + 1, match acc.2 with None => Some t | Some o => Some o end) else acc.
Definition seconds_until_retry (max : Z) (now : Instant) (s : SlidingWindow) : option Z :=
  let '(c, oldest) := foldl (scan_step (window s) now) (0, None) (timestamps s) in
  if bool_decide (c < max) then None
  else (λ o, as_secs (saturating_sub (window s) (duration_since now o)) `max` 1) <$> oldest.

(** ** Windows per key *)

(** [HashMap<K, SlidingWindow>]. *)
Abbreviation Windows K := (gmap K SlidingWindow) (only parsing).

Section windows.
Context {K : Type} `{Countable K}.

(** [map.entry(k).or_insert_with(|| SlidingWindow::new(dur))]. *)
Definition entry (dur : Duration) (k : K) (m : Windows K) : SlidingWindow :=
  default (SlidingWindow_new dur) (m !! k).

(** A call of the entry's method. *)
Definition check_key (dur : Duration) (max : Z) (k : K) (now : Instant) (m : Windows K) : bool * Windows K :=
  let '(c, w) := count now (entry dur k m) in (bool_decide (c < max), <[k := w]> m).
Definition retry_key (dur : Duration) (max : Z) (k : K) (now : Instant) (m : Windows K)
    : option Z * Windows K :=
  let w := entry dur k m in (seconds_until_retry max now w, <[k := w]> m).
Definition record_key (dur : Duration) (k : K) (now : Instant) (m : Windows K) : Windows K :=
  <[k := add now (entry dur k m)]> m.

(** [map.retain(|_, w| w.count(now) > 0)]: the windows are pruned in place. *)
Definition prune_windows (now : Instant) (m : Windows K) : Z * Windows K :=
  let m' := filter (λ p, timestamps p.2 ≠ []) (prune now <$> m) in
  (map_len m - map_len m', m').

(** [map.iter_mut().map(|(k, w)| (k, w.count(now))).filter(|(_, c)| c > 0)]. *)
Definition snapshot_counts (now : Instant) (m : Windows K) : list (K * Z) * Windows K :=
  let m' := prune now <$> m in
  (filter (λ p, 0 < p.2) (map (λ p, (p.1, len (timestamps p.2))) (map_to_list m')), m').
End windows.

(** ** The limiters *)

Module ChannelLimiter.
(** [ChannelRateLimiterConfig]. *)
Record ChannelRateLimiterConfig : Type := mkChannelRateLimiterConfig {
  max_per_user : Z;
  window_secs : Z
}.
(** [ChannelRateLimiterConfig::default]. *)
Definition default_config : ChannelRateLimiterConfig := mkChannelRateLimiterConfig 30 60.

Section limiter.
Context {Uuid : Type} `{Countable Uuid}.
(** [ChannelRateLimiter]. *)
Record ChannelRateLimiter : Type := mkChannelRateLimiter {
  config : ChannelRateLimiterConfig;
  windows : Windows Uuid
}.
Definition on_windows {A} (f : Windows Uuid → A * Windows Uuid) (l : ChannelRateLimiter)
    : A * ChannelRateLimiter :=
  let '(a, w) := f (windows l) in (a, mkChannelRateLimiter (config l) w).

(** [ChannelRateLimiter::new], [check], [seconds_until_retry], [record], [clear], [prune_stale]. *)
Definition new (c : ChannelRateLimiterConfig) : ChannelRateLimiter := mkChannelRateLimiter c ∅.
Definition check (u : Uuid) (now : Instant) (l : ChannelRateLimiter) : bool * ChannelRateLimiter :=
  on_windows (check_key (from_secs (window_secs (config l))) (max_per_user (config l)) u now) l.
Definition retry (u : Uuid) (now : Instant) (l : ChannelRateLimiter) : option Z * ChannelRateLimiter :=
  on_windows (retry_key (from_secs (window_secs (config l))) (max_per_user (config l)) u now) l.
Definition record (u : Uuid) (now : Instant) (l : ChannelRateLimiter) : ChannelRateLimiter :=
  mkChannelRateLimiter (config l) (record_key (from_secs (window_secs (config l))) u now (windows l)).
Definition clear (l : ChannelRateLimiter) : ChannelRateLimiter := mkChannelRateLimiter (config l) ∅.
Definition prune_stale (now : Instant) (l : ChannelRateLimiter) : Z * ChannelRateLimiter :=
  on_windows (prune_windows now) l.
End limiter.
End ChannelLimiter.

Module AuthLimiter.
(** [AuthRateLimiterConfig]. *)
Record AuthRateLimiterConfig : Type := mkAuthRateLimiterConfig {
  register_max_per_ip : Z;
  register_window_secs : Z;
  refresh_max_per_ip : Z;
  refresh_window_secs : Z
}.
(** [AuthRateLimiterConfig::default]. *)
Definition default_config : AuthRateLimiterConfig := mkAuthRateLimiterConfig 5 3600 30 60.

Section limiter.
Context {IpAddr : Type} `{Countable IpAddr}.
(** [AuthRateLimiter]. *)
Record AuthRateLimiter : Type := mkAuthRateLimiter {
  config : AuthRateLimiterConfig;
  register_windows : Windows IpAddr;
  refresh_windows : Windows IpAddr
}.
Definition on_register_windows {A} (f : Windows IpAddr → A * Windows IpAddr) (l : AuthRateLimiter) : A * AuthRateLimiter :=
  let '(a, w) := f (register_windows l) in (a, mkAuthRateLimiter (config l) w (refresh_windows l)).
Definition on_refresh_windows {A} (f : Windows IpAddr → A * Windows IpAddr) (l : AuthRateLimiter) : A * AuthRateLimiter :=
  let '(a, w) := f (refresh_windows l) in (a, mkAuthRateLimiter (config l) (register_windows l) w).

(** [AuthRateLimiter::new]. *)
Definition new (c : AuthRateLimiterConfig) : AuthRateLimiter := mkAuthRateLimiter c ∅ ∅.
(** [check_register] and [check_refresh]. *)
Definition check_register (k : IpAddr) (now : Instant) (l : AuthRateLimiter) : bool * AuthRateLimiter :=
  on_register_windows (check_key (from_secs (register_window_secs (config l))) (register_max_per_ip (config l)) k now) l.
Definition check_refresh (k : IpAddr) (now : Instant) (l : AuthRateLimiter) : bool * AuthRateLimiter :=
  on_refresh_windows (check_key (from_secs (refresh_window_secs (config l))) (refresh_max_per_ip (config l)) k now) l.
(** [seconds_until_register] and [seconds_until_refresh]. *)
Definition seconds_until_register (k : IpAddr) (now : Instant) (l : AuthRateLimiter) : option Z * AuthRateLimiter :=
  on_register_windows (retry_key (from_secs (register_window_secs (config l))) (register_max_per_ip (config l)) k now) l.
Definition seconds_until_refresh (k : IpAddr) (now : Instant) (l : AuthRateLimiter) : option Z * AuthRateLimiter :=
  on_refresh_windows (retry_key (from_secs (refresh_window_secs (config l))) (refresh_max_per_ip (config l)) k now) l.
(** [record_register] and [record_refresh]. *)
Definition record_register (k : IpAddr) (now : Instant) (l : AuthRateLimiter) : AuthRateLimiter :=
  mkAuthRateLimiter (config l) (record_key (from_secs (register_window_secs (config l))) k now (register_windows l)) (refresh_windows l).
Definition record_refresh (k : IpAddr) (now : Instant) (l : AuthRateLimiter) : AuthRateLimiter :=
  mkAuthRateLimiter (config l) (register_windows l) (record_key (from_secs (refresh_window_secs (config l))) k now (refresh_windows l)).
(** [AuthRateLimiter::clear]. *)
Definition clear (l : AuthRateLimiter) : AuthRateLimiter := mkAuthRateLimiter (config l) ∅ ∅.
(** [AuthRateLimiter::prune_stale]. *)
Definition prune_stale (now : Instant) (l : AuthRateLimiter) : Z * AuthRateLimiter :=
  let '(n1, w1) := prune_windows now (register_windows l) in
  let '(n2, w2) := prune_windows now (refresh_windows l) in
  (n1 + n2, mkAuthRateLimiter (config l) w1 w2).
End limiter.
End AuthLimiter.

Module RecoveryLimiter.
(** [RecoveryRateLimiterConfig]. *)
Record RecoveryRateLimiterConfig : Type := mkRecoveryRateLimiterConfig {
  per_ip_max : Z;
  per_ip_window_secs : Z;
  per_rid_max : Z;
  per_rid_window_secs : Z
}.
(** [RecoveryRateLimiterConfig::default]. *)
Definition default_config : RecoveryRateLimiterConfig := mkRecoveryRateLimiterConfig 30 3600 3 3600.

Section limiter.
Context {IpAddr : Type} `{Countable IpAddr}.
(** [RecoveryRateLimiter]. *)
Record RecoveryRateLimiter : Type := mkRecoveryRateLimiter {
  config : RecoveryRateLimiterConfig;
  ip_windows : Windows IpAddr;
  rid_windows : Windows string
}.
Definition on_ip_windows {A} (f : Windows IpAddr → A * Windows IpAddr) (l : RecoveryRateLimiter) : A * RecoveryRateLimiter :=
  let '(a, w) := f (ip_windows l) in (a, mkRecoveryRateLimiter (config l) w (rid_windows l)).
Definition on_rid_windows {A} (f : Windows string → A * Windows string) (l : RecoveryRateLimiter) : A * RecoveryRateLimiter :=
  let '(a, w) := f (rid_windows l) in (a, mkRecoveryRateLimiter (config l) (ip_windows l) w).

(** [RecoveryRateLimiter::new]. *)
Definition new (c : RecoveryRateLimiterConfig) : RecoveryRateLimiter := mkRecoveryRateLimiter c ∅ ∅.
(** [check_ip] and [check_recovery_id]. *)
Definition check_ip (k : IpAddr) (now : Instant) (l : RecoveryRateLimiter) : bool * RecoveryRateLimiter :=
  on_ip_windows (check_key (from_secs (per_ip_window_secs (config l))) (per_ip_max (config l)) k now) l.
Definition check_recovery_id (k : string) (now : Instant) (l : RecoveryRateLimiter) : bool * RecoveryRateLimiter :=
  on_rid_windows (check_key (from_secs (per_rid_window_secs (config l))) (per_rid_max (config l)) k now) l.
(** [seconds_until_ip] and [seconds_until_recovery_id]. *)
Definition seconds_until_ip (k : IpAddr) (now : Instant) (l : RecoveryRateLimiter) : option Z * RecoveryRateLimiter :=
  on_ip_windows (retry_key (from_secs (per_ip_window_secs (config l))) (per_ip_max (config l)) k now) l.
Definition seconds_until_recovery_id (k : string) (now : Instant) (l : RecoveryRateLimiter) : option Z * RecoveryRateLimiter :=
  on_rid_windows (retry_key (from_secs (per_rid_window_secs (config l))) (per_rid_max (config l)) k now) l.
(** [record_ip] and [record_recovery_id]. *)
Definition record_ip (k : IpAddr) (now : Instant) (l : RecoveryRateLimiter) : RecoveryRateLimiter :=
  mkRecoveryRateLimiter (config l) (record_key (from_secs (per_ip_window_secs (config l))) k now (ip_windows l)) (rid_windows l).
Definition record_recovery_id (k : string) (now : Instant) (l : RecoveryRateLimiter) : RecoveryRateLimiter :=
  mkRecoveryRateLimiter (config l) (ip_windows l) (record_key (from_secs (per_rid_window_secs (config l))) k now (rid_windows l)).
(** [RecoveryRateLimiter::clear]. *)
Definition clear (l : RecoveryRateLimiter) : RecoveryRateLimiter := mkRecoveryRateLimiter (config l) ∅ ∅.
(** [RecoveryRateLimiter::prune_stale]. *)
Definition prune_stale (now : Instant) (l : RecoveryRateLimiter) : Z * RecoveryRateLimiter :=
  let '(n1, w1) := prune_windows now (ip_windows l) in
  let '(n2, w2) := prune_windows now (rid_windows l) in
  (n1 + n2, mkRecoveryRateLimiter (config l) w1 w2).
End limiter.
End RecoveryLimiter.

Module BugReportLimiter.
(** [BugReportRateLimiterConfig]. *)
Record BugReportRateLimiterConfig : Type := mkBugReportRateLimiterConfig {
  max_requests : Z;
  report_window : Duration
}.
(** [BugReportRateLimiterConfig::default]. *)
Definition default_config : BugReportRateLimiterConfig := mkBugReportRateLimiterConfig 5 (from_secs 3600).

Section limiter.
Context {IpAddr Uuid : Type} `{Countable IpAddr} `{Countable Uuid}.
(** [BugReportRateLimiter]. *)
Record BugReportRateLimiter : Type := mkBugReportRateLimiter {
  config : BugReportRateLimiterConfig;
  ip_windows : Windows IpAddr;
  user_windows : Windows Uuid
}.
Definition on_ip_windows {A} (f : Windows IpAddr → A * Windows IpAddr) (l : BugReportRateLimiter) : A * BugReportRateLimiter :=
  let '(a, w) := f (ip_windows l) in (a, mkBugReportRateLimiter (config l) w (user_windows l)).
Definition on_user_windows {A} (f : Windows Uuid → A * Windows Uuid) (l : BugReportRateLimiter) : A * BugReportRateLimiter :=
  let '(a, w) := f (user_windows l) in (a, mkBugReportRateLimiter (config l) (ip_windows l) w).

(** [BugReportRateLimiter::new]. *)
Definition new (c : BugReportRateLimiterConfig) : BugReportRateLimiter := mkBugReportRateLimiter c ∅ ∅.
(** [check_ip] and [check_user]. *)
Definition check_ip (k : IpAddr) (now : Instant) (l : BugReportRateLimiter) : bool * BugReportRateLimiter :=
  on_ip_windows (check_key (report_window (config l)) (max_requests (config l)) k now) l.
Definition check_user (k : Uuid) (now : Instant) (l : BugReportRateLimiter) : bool * BugReportRateLimiter :=
  on_user_windows (check_key (report_window (config l)) (max_requests (config l)) k now) l.
(** [seconds_until_retry_ip] and [seconds_until_retry_user]. *)
Definition seconds_until_retry_ip (k : IpAddr) (now : Instant) (l : BugReportRateLimiter) : option Z * BugReportRateLimiter :=
  on_ip_windows (retry_key (report_window (config l)) (max_requests (config l)) k now) l.
Definition seconds_until_retry_user (k : Uuid) (now : Instant) (l : BugReportRateLimiter) : option Z * BugReportRateLimiter :=
  on_user_windows (retry_key (report_window (config l)) (max_requests (config l)) k now) l.
(** [record_ip] and [record_user]. *)
Definition record_ip (k : IpAddr) (now : Instant) (l : BugReportRateLimiter) : BugReportRateLimiter :=
  mkBugReportRateLimiter (config l) (record_key (report_window (config l)) k now (ip_windows l)) (user_windows l).
Definition record_user (k : Uuid) (now : Instant) (l : BugReportRateLimiter) : BugReportRateLimiter :=
  mkBugReportRateLimiter (config l) (ip_windows l) (record_key (report_window (config l)) k now (user_windows l)).
(** [BugReportRateLimiter::snapshot_ip_counts] and [snapshot_user_counts]. *)
Definition snapshot_ip_counts (now : Instant) (l : BugReportRateLimiter)
    : list (IpAddr * Z) * BugReportRateLimiter := on_ip_windows (snapshot_counts now) l.
Definition snapshot_user_counts (now : Instant) (l : BugReportRateLimiter)
    : list (Uuid * Z) * BugReportRateLimiter := on_user_windows (snapshot_counts now) l.
(** [BugReportRateLimiter::prune_stale]. *)
Definition prune_stale (now : Instant) (l : BugReportRateLimiter) : Z * BugReportRateLimiter :=
  let '(n1, w1) := prune_windows now (ip_windows l) in
  let '(n2, w2) := prune_windows now (user_windows l) in
  (n1 + n2, mkBugReportRateLimiter (config l) w1 w2).
End limiter.
End BugReportLimiter.

(** ** The window against the log of all requests *)

(** A time is expired once it is more than the window away. *)
Abbreviation expired w now := (λ t, w < duration_since now t) (only parsing).
Abbreviation live w now := (λ t, duration_since now t ≤ w) (only parsing).

Lemma duration_since_mono now now' t : now ≤ now' → duration_since now t ≤ duration_since now' t.
Proof. unfold duration_since, saturating_sub. lia. Qed.

Lemma duration_since_anti now t t' : t ≤ t' → duration_since now t' ≤ duration_since now t.
Proof. unfold duration_since, saturating_sub. lia. Qed.

Lemma pop_expired_app w now l :
  ∃ old, l = old ++ pop_expired w now l ∧ Forall (expired w now) old.
Proof.
  induction l as [|t l (old & Heq & Hold)]; simpl; [by exists []|].
  case_bool_decide; [|by exists []]. exists (t :: old). simpl. rewrite <-Heq. auto.
Qed.

Lemma filter_live_expired w now l : Forall (expired w now) l → filter (live w now) l = [].
Proof.
  induction 1 as [|t l Ht _ IH]; [done|]. rewrite filter_cons, decide_False by lia. done.
Qed.

(** On a sorted list popping the front is filtering. *)
Lemma pop_expired_filter w now l :
  StronglySorted Z.le l → pop_expired w now l = filter (live w now) l.
Proof.
  induction 1 as [|t l Hs IH Hle]; simpl; [done|]. case_bool_decide as Ht.
  - by rewrite IH, filter_cons, decide_False by lia.
  - rewrite filter_cons, decide_True by lia. f_equal. symmetry.
    rewrite Forall_forall in Hle. clear IH Hs. induction l as [|x l IH]; [done|].
    pose proof (duration_since_anti now t x (Hle x ltac:(left))).
    rewrite filter_cons, decide_True by lia. f_equal. apply IH. intros y Hy. apply Hle. by right.
Qed.

(** The scan of [seconds_until_retry]: the number of live times and the first of them. *)
Lemma scan_filter w now l acc :
  foldl (scan_step w now) acc l =
    (acc.1 + len (filter (live w now) l),
     match acc.2 with Some o => Some o | None => head (filter (live w now) l) end).
Proof.
  revert acc. induction l as [|t l IH]; intros [c o]; simpl; [f_equal; [lia|by destruct o]|].
  rewrite IH. unfold scan_step. simpl. rewrite filter_cons. case_bool_decide as Ht.
  - rewrite decide_True by done. simpl. f_equal; [lia|by destruct o].
  - rewrite decide_False by lia. done.
Qed.

Lemma seconds_until_retry_eq max now s :
  seconds_until_retry max now s =
    let l := filter (live (window s) now) (timestamps s) in
    if bool_decide (len l < max) then None
    else (λ o, as_secs (saturating_sub (window s) (duration_since now o)) `max` 1) <$> head l.
Proof. unfold seconds_until_retry. rewrite scan_filter. simpl. done. Qed.

Section log.
Context {K : Type} `{Countable K}.

(** The requests of a limiter, as the callers make them. *)
Inductive WinOp : Type :=
| WCheck (k : K)
| WRetry (k : K)
| WRecord (k : K)
| WPrune
| WSnapshot
| WClear.

Definition run_win (dur : Duration) (max : Z) (now : Instant) (op : WinOp) (m : Windows K) : Windows K :=
  match op with
  | WCheck k => (check_key dur max k now m).2
  | WRetry k => (retry_key dur max k now m).2
  | WRecord k => record_key dur k now m
  | WPrune => (prune_windows now m).2
  | WSnapshot => (snapshot_counts now m).2
  | WClear => ∅
  end.

(** The abstract limiter: the log of all recorded requests. *)
Definition run_log (now : Instant) (op : WinOp) (log : list (K * Instant)) : list (K * Instant) :=
  match op with
  | WRecord k => log ++ [(k, now)]
  | WClear => []
  | _ => log
  end.

(** The times of a key in the log, and those still in the window. *)
Definition times (k : K) (log : list (K * Instant)) : list Instant :=
  map snd (filter (λ e, e.1 = k) log).
Definition recent (dur : Duration) (now : Instant) (k : K) (log : list (K * Instant)) : list Instant :=
  filter (live dur now) (times k log).

Record win_inv (dur : Duration) (now : Instant) (m : Windows K) (log : list (K * Instant)) : Prop := mk_win_inv {
  wi_sorted : StronglySorted Z.le (map snd log);
  wi_past t : t ∈ map snd log → t ≤ now;
  wi_window k : window (entry dur k m) = dur;
  wi_times k : ∃ old, times k log = old ++ timestamps (entry dur k m) ∧ Forall (expired dur now) old
}.

Lemma times_sublist k log : times k log `sublist_of` map snd log.
Proof.
  unfold times. induction log as [|[k' t] log IH]; [done|]. rewrite filter_cons. simpl.
  case_decide; simpl; by constructor.
Qed.

Lemma StronglySorted_sublist (l l' : list Z) : l' `sublist_of` l → StronglySorted Z.le l → StronglySorted Z.le l'.
Proof.
  induction 1 as [|x l1 l2 Hs IH|x l1 l2 Hs IH]; intros Hl; [done|..];
    apply StronglySorted_inv in Hl as [Hl Hle]; [|auto].
  constructor; [auto|]. rewrite Forall_forall in *. intros y Hy. apply Hle. by eapply elem_of_sublist.
Qed.

Lemma win_inv_later dur now now' m log :
  now ≤ now' → win_inv dur now m log → win_inv dur now' m log.
Proof.
  intros Hle [W1 W2 W3 W4]. split; [done| |done|].
  - intros t Ht. specialize (W2 t Ht). lia.
  - intros k. destruct (W4 k) as (old & Heq & Hold). exists old. split; [done|].
    eapply Forall_impl; [exact Hold|]. intros t Ht. simpl in *.
    pose proof (duration_since_mono now now' t Hle). lia.
Qed.

(** The live times of a window are the recent ones of the log. *)
Lemma win_inv_live dur now m log k :
  win_inv dur now m log → filter (live dur now) (timestamps (entry dur k m)) = recent dur now k log.
Proof.
  intros Hw. destruct (wi_times _ _ _ _ Hw k) as (old & Heq & Hold).
  unfold recent. rewrite Heq, filter_app, (filter_live_expired _ _ old) by done. done.
Qed.

Lemma win_inv_entry_sorted dur now m log k :
  win_inv dur now m log → StronglySorted Z.le (timestamps (entry dur k m)).
Proof.
  intros Hw. destruct (wi_times _ _ _ _ Hw k) as (old & Heq & Hold).
  eapply StronglySorted_sublist; [|apply (StronglySorted_sublist _ _ (times_sublist k log)), Hw].
  rewrite Heq. apply sublist_inserts_l. done.
Qed.

(** Pruning a window leaves exactly the recent times. *)
Lemma pruned_entry dur now m log k :
  win_inv dur now m log → prune now (entry dur k m) = mkSlidingWindow (recent dur now k log) dur.
Proof.
  intros Hw. unfold prune. rewrite (wi_window _ _ _ _ Hw k). f_equal.
  rewrite pop_expired_filter by (by eapply win_inv_entry_sorted). by apply win_inv_live.
Qed.

Lemma recent_suffix dur now m log k :
  win_inv dur now m log → ∃ old, times k log = old ++ recent dur now k log ∧ Forall (expired dur now) old.
Proof.
  intros Hw. destruct (wi_times _ _ _ _ Hw k) as (old & Heq & Hold).
  destruct (pop_expired_app dur now (timestamps (entry dur k m))) as (old' & Heq' & Hold').
  rewrite pop_expired_filter in Heq' by (by eapply win_inv_entry_sorted).
  rewrite (win_inv_live _ _ _ _ _ Hw) in Heq'. exists (old ++ old'). split; [|by apply Forall_app].
  rewrite Heq, Heq' at 1. by rewrite app_assoc.
Qed.
(** A change that prunes some windows. *)
Lemma win_inv_pruned dur now m m' log :
  win_inv dur now m log →
  (∀ k, entry dur k m' = prune now (entry dur k m) ∨ entry dur k m' = entry dur k m) →
  win_inv dur now m' log.
Proof.
  intros Hw Hm'. pose proof Hw as [W1 W2 W3 W4]. split; [done..| |].
  - intros k. destruct (Hm' k) as [->| ->]; [by rewrite (pruned_entry _ _ _ log k)|done].
  - intros k. destruct (Hm' k) as [->| ->]; [|done].
    rewrite (pruned_entry _ _ _ log k) by done. by eapply recent_suffix.
Qed.

Lemma entry_insert dur k k' w (m : Windows K) :
  entry dur k (<[k' := w]> m) = if decide (k' = k) then w else entry dur k m.
Proof. unfold entry. rewrite lookup_insert. by case_decide. Qed.

Lemma entry_prune_windows dur now k (m : Windows K) :
  (∀ k, window (entry dur k m) = dur) →
  entry dur k (prune_windows now m).2 = prune now (entry dur k m).
Proof.
  intros Hw. specialize (Hw k). unfold entry, prune_windows in *. simpl.
  rewrite map_lookup_filter, lookup_fmap.
  destruct (m !! k) as [w|]; [|done]. simpl in *.
  destruct (decide (timestamps (prune now w) ≠ [])) as [He|He]; simpl.
  - by rewrite option_guard_True.
  - rewrite option_guard_False by done. simpl. unfold SlidingWindow_new, prune in *. simpl in *.
    apply dec_stable in He. by rewrite He, Hw.
Qed.

Lemma times_app k log log' : times k (log ++ log') = times k log ++ times k log'.
Proof. unfold times. by rewrite filter_app, map_app. Qed.

Lemma run_win_inv dur max now op m log :
  win_inv dur now m log → win_inv dur now (run_win dur max now op m) (run_log now op log).
Proof.
  intros Hw. destruct op as [k|k|k| | |]; simpl.
  - eapply win_inv_pruned; [done|]. intros k'. rewrite entry_insert. case_decide; subst; auto.
  - eapply win_inv_pruned; [done|]. intros k'. rewrite entry_insert. case_decide; subst; auto.
  - destruct Hw as [W1 W2 W3 W4]. unfold record_key. split.
    + rewrite map_app. simpl. clear W3 W4. induction W1 as [|t l Hs IH Hle]; simpl.
      * by repeat constructor.
      * constructor; [apply IH; intros x Hx; apply W2; by right|]. apply Forall_app. split; [done|].
        constructor; [|constructor]. apply W2. by left.
    + intros t. rewrite map_app, elem_of_app. simpl. rewrite list_elem_of_singleton.
      intros [Ht| ->]; [by apply W2|lia].
    + intros k'. rewrite entry_insert. case_decide; subst; [apply W3|apply W3].
    + intros k'. destruct (W4 k') as (old & Heq & Hold). exists old. split; [|done].
      rewrite times_app, Heq, entry_insert. unfold times. rewrite filter_cons, filter_nil. simpl.
      case_decide; subst; simpl; rewrite <-?app_assoc; [done|by rewrite app_nil_r].
  - eapply win_inv_pruned; [done|]. intros k. left. apply entry_prune_windows, Hw.
  - eapply win_inv_pruned; [done|]. intros k. left. unfold entry.
    rewrite lookup_fmap. by destruct (m !! k).
  - split; [constructor|intros t Ht; by apply not_elem_of_nil in Ht|done|]. intros k. by exists [].
Qed.

(** A history of requests, each with the time it is made. *)
Definition run_wins (dur : Duration) (max : Z) (ops : list (Instant * WinOp)) : Windows K :=
  foldl (λ m op, run_win dur max op.1 op.2 m) ∅ ops.
Definition run_logs (ops : list (Instant * WinOp)) : list (K * Instant) :=
  foldl (λ log op, run_log op.1 op.2 log) [] ops.

Lemma run_wins_inv dur max ops now :
  StronglySorted Z.le (map fst ops ++ [now]) → win_inv dur now (run_wins dur max ops) (run_logs ops).
Proof.
  revert now. unfold run_wins, run_logs.
  induction ops as [|[t op] ops IH] using rev_ind; intros now Hs.
  - split; [constructor|intros t Ht; by apply not_elem_of_nil in Ht|done|]. intros k. by exists [].
  - rewrite !foldl_app. simpl. rewrite map_app in Hs. simpl in Hs.
    assert (t ≤ now ∧ StronglySorted Z.le (map fst ops ++ [t])) as [Hle Hs'].
    { clear IH. rewrite <-app_assoc in Hs. induction (map fst ops) as [|x l IHl]; simpl in *.
      - apply StronglySorted_inv in Hs as [_ Hf]. inversion Hf; subst. split; [done|by repeat constructor].
      - apply StronglySorted_inv in Hs as [Hs Hf]. destruct (IHl Hs) as [H1 H2]. split; [done|].
        constructor; [done|]. rewrite !Forall_app, !Forall_cons in *. tauto. }
    apply (win_inv_later _ t); [done|]. by apply run_win_inv, IH.
Qed.

Lemma window_answers dur max ops k now :
  win_inv dur now (run_wins dur max ops) (run_logs ops) →
  let hits := recent dur now k (run_logs ops) in
  (check_key dur max k now (run_wins dur max ops)).1 = bool_decide (len hits < max) ∧
  (retry_key dur max k now (run_wins dur max ops)).1 =
    (if bool_decide (len hits < max) then None
     else (λ o, as_secs (saturating_sub dur (duration_since now o)) `max` 1) <$> head hits).
Proof.
  intros Hw hits. subst hits. split.
  - unfold check_key, count. rewrite (pruned_entry _ _ _ _ k Hw). done.
  - unfold retry_key. cbn [fst]. rewrite seconds_until_retry_eq, (wi_window _ _ _ _ Hw k).
    by rewrite (win_inv_live _ _ _ _ k Hw).
Qed.

(** C37: A sliding-window limiter implements counting over the complete history.
    After any sequence of checks, retry queries, records, prunes, snapshots and
    clears made at non-decreasing times, a check admits a key exactly if fewer
    than [max] of its recorded requests lie in the window that ends now.  The retry
    query answers nothing to an admitted key; to a refused one it answers the whole
    seconds (at least one) until the oldest of those requests leaves the window, if
    there is one.  There is one unless [max] is zero: a limiter configured with zero
    refuses a key with no request in the window and still answers no time to
    retry. *)
Theorem windows_refine_log dur max ops k now :
  StronglySorted Z.le (map fst ops ++ [now]) →
  let m := run_wins dur max ops in
  let hits := recent dur now k (run_logs ops) in
  (check_key dur max k now m).1 = bool_decide (len hits < max) ∧
  (retry_key dur max k now m).1 =
    (if bool_decide (len hits < max) then None
     else (λ o, as_secs (saturating_sub dur (duration_since now o)) `max` 1) <$> head hits) ∧
  (1 ≤ max → is_Some (retry_key dur max k now m).1 ↔ (check_key dur max k now m).1 = false) ∧
  (max = 0 → hits = [] → (check_key dur max k now m).1 = false ∧ (retry_key dur max k now m).1 = None).
Proof.
  intros Hs m hits. subst m hits. pose proof (run_wins_inv dur max ops now Hs) as Hw.
  destruct (window_answers dur max ops k now Hw) as [-> ->]. set (hits := recent dur now k (run_logs ops)).
  split_and!; [done|done| |].
  - intros Hmax. rewrite bool_decide_eq_false. case_bool_decide as Hl.
    + split; [by intros []|done].
    + destruct hits; [simpl in Hl; lia|]. split; [done|]. by eexists.
  - intros -> ->. done.
Qed.
End log.

Lemma windows_refine_log_witness :
  (check_key 10 2 "a" 15 (run_wins 10 2 [(0, WRecord "a"); (6, WRecord "a"); (6, WRecord "b"); (12, WPrune); (13, WRecord "a")])).1 = false.
Proof.
  pose proof (windows_refine_log 10 2
    [(0, WRecord "a"); (6, WRecord "a"); (6, WRecord "b"); (12, WPrune); (13, WRecord "a")] "a" 15) as Hw.
  destruct Hw as [Hc _]; [simpl; repeat first [lia | constructor]|]. rewrite Hc. vm_compute. reflexivity.
Defined.

(** A limiter that admits nothing does not say when to come back. *)
Example zero_limit_names_no_time :
  (check_key 10 0 "a" 5 ∅).1 = false ∧ (retry_key 10 0 "a" 5 ∅).1 = None.
Proof. vm_compute. done. Qed.

(** ** The rate a limiter admits *)

Section rate.
Context {Uuid : Type} `{Countable Uuid}.
Import ChannelLimiter.

(** One request of a handler: check, and record it if it is admitted. *)
Definition serve (st : ChannelRateLimiter (Uuid:=Uuid) * list (Uuid * Instant)) (req : Instant * Uuid)
    : ChannelRateLimiter (Uuid:=Uuid) * list (Uuid * Instant) :=
  let '(l, admitted) := st in
  let '(ok, l1) := check req.2 req.1 l in
  if ok then (record req.2 req.1 l1, admitted ++ [(req.2, req.1)]) else (l1, admitted).

(** The admitted requests of a user in the window that ends at [T]. *)
Definition in_window (dur : Duration) (T : Instant) (u : Uuid) (log : list (Uuid * Instant)) : list Instant :=
  filter (λ t, T - dur ≤ t ≤ T) (times u log).

Lemma in_window_recent dur now T u log :
  now ≤ T → (∀ t, t ∈ map snd log → t ≤ now) → 0 ≤ dur →
  len (in_window dur T u log) ≤ len (recent dur now u log).
Proof.
  intros HT Hpast Hdur. unfold in_window, recent.
  assert (∀ t, t ∈ times u log → t ≤ now) as Ht.
  { intros t Hin. apply Hpast. eapply elem_of_sublist; [done|apply times_sublist]. }
  induction (times u log) as [|t l IH]; [done|]. rewrite !filter_cons.
  assert (t ≤ now) by (apply Ht; by left).
  assert (len (filter (λ t, T - dur ≤ t ≤ T) l) ≤ len (filter (live dur now) l))
    by (apply IH; intros x Hx; apply Ht; by right).
  destruct (decide (T - dur ≤ t ≤ T)) as [Hi|Hi]; destruct (decide (duration_since now t ≤ dur)) as [Hl|Hl];
    simpl; try lia.
  unfold duration_since, saturating_sub in Hl. lia.
Qed.

(** Recording an admitted request keeps every window within the limit. *)
Lemma in_window_record dur max t k log :
  0 ≤ dur → (∀ x, x ∈ map snd log → x ≤ t) → len (recent dur t k log) < max →
  (∀ T u, len (in_window dur T u log) ≤ max) → ∀ T u, len (in_window dur T u (log ++ [(k, t)])) ≤ max.
Proof.
  intros Hdur Hpast Hok Hb T u. destruct (decide (t ≤ T ∧ u = k)) as [[HT ->]|Hno].
  - pose proof (in_window_recent dur t T k log HT Hpast Hdur) as Hrec.
    unfold in_window in *. rewrite times_app, filter_app, length_app. unfold times at 2.
    rewrite filter_cons, decide_True, filter_nil by done. simpl. rewrite filter_cons, filter_nil.
    case_decide; simpl; lia.
  - specialize (Hb T u). unfold in_window in *. rewrite times_app, filter_app, length_app.
    unfold times at 2. rewrite filter_cons, filter_nil. simpl. case_decide; simpl; [|lia].
    rewrite filter_cons, decide_False by (intros [? ?]; apply Hno; split; [lia|done]). simpl. lia.
Qed.

Record serve_inv (c : ChannelRateLimiterConfig) (now : Instant)
    (st : ChannelRateLimiter (Uuid:=Uuid) * list (Uuid * Instant)) : Prop := mk_serve_inv {
  sv_config : config st.1 = c;
  sv_win : win_inv (from_secs (window_secs c)) now (windows st.1) st.2;
  sv_bound T u : len (in_window (from_secs (window_secs c)) T u st.2) ≤ max_per_user c
}.

Lemma serve_inv_step c now st t u :
  0 ≤ window_secs c → now ≤ t → serve_inv c now st → serve_inv c t (serve st (t, u)).
Proof.
  intros Hsecs Hle [S1 S2 S3]. destruct st as [l log]. simpl in *.
  assert (0 ≤ from_secs (window_secs c)) as Hdur by (unfold from_secs, nanos_per_sec; lia).
  apply (win_inv_later _ _ t) in S2; [|done]. set (dur := from_secs (window_secs c)) in *.
  unfold check, on_windows, check_key, count. rewrite S1. fold dur.
  rewrite (pruned_entry _ _ _ _ u S2). cbn [timestamps].
  pose proof (run_win_inv dur (max_per_user c) t (WCheck u) _ _ S2) as Hc.
  simpl in Hc. rewrite (pruned_entry _ _ _ _ u S2) in Hc.
  case_bool_decide as Hok; [|by split].
  pose proof (f_equal timestamps (pruned_entry _ _ _ _ u S2)) as Hpe. simpl in Hpe. rewrite Hpe in Hok.
  pose proof (run_win_inv dur (max_per_user c) t (WRecord u) _ _ Hc) as Hr. simpl in Hr.
  split; simpl; [done|done|]. apply in_window_record; [done|apply S2|done|done].
Qed.

(** A handler that checks before it records admits at most [max_per_user]
    requests of a user in any window of the configured length, whatever the
    other users send and however the requests interleave. *)
Theorem channel_limiter_bounds_rate c reqs T u :
  0 ≤ max_per_user c → 0 ≤ window_secs c → StronglySorted Z.le (map fst reqs) →
  len (in_window (from_secs (window_secs c)) T u (foldl serve (new c, []) reqs).2) ≤ max_per_user c.
Proof.
  intros Hmax Hsecs Hs.
  assert (∃ now, serve_inv c now (foldl serve (new c, []) reqs) ∧
    ∀ t, (∀ x, x ∈ map fst reqs → x ≤ t) → serve_inv c t (foldl serve (new c, []) reqs)) as (now & Hi & _);
    [|apply Hi].
  induction reqs as [|[t u'] reqs IH] using rev_ind.
  - assert (∀ t, serve_inv c t (new c, [])) as H0.
    { intros t. split; [done| |done].
      split; [constructor|intros x Hx; by apply not_elem_of_nil in Hx|done|]. intros k. by exists []. }
    exists 0. auto.
  - rewrite foldl_app. simpl. rewrite map_app in Hs. simpl in Hs.
    assert (StronglySorted Z.le (map fst reqs) ∧ ∀ x, x ∈ map fst reqs → x ≤ t) as [Hs' Hle].
    { clear IH. induction (map fst reqs) as [|x l IHl]; simpl in *.
      - split; [constructor|intros x Hx; by apply not_elem_of_nil in Hx].
      - apply StronglySorted_inv in Hs as [Hs Hf]. destruct (IHl Hs) as [H1 H2].
        rewrite Forall_app, Forall_cons in Hf. destruct Hf as (Hf & Hx & _). split; [by constructor|].
        intros y [->|Hy]%elem_of_cons; auto. }
    destruct (IH Hs') as (now & _ & Hall). specialize (Hall t Hle).
    assert (serve_inv c t (serve (foldl serve (new c, []) reqs) (t, u'))) as Hstep
      by (eapply serve_inv_step; [done| |done]; lia).
    exists t. split; [done|]. intros t' Ht'. destruct Hstep as [S1 S2 S3]. split; [done| |done].
    eapply win_inv_later; [|done]. apply Ht'. rewrite map_app. set_solver.
Qed.
End rate.

Lemma channel_limiter_bounds_rate_witness :
  let c := ChannelLimiter.mkChannelRateLimiterConfig 2 60 in
  let reqs := [(0, "a"); (1, "b"); (2, "a"); (3, "a"); (4, "a")] in
  (foldl serve (ChannelLimiter.new c, []) reqs).2 = [("a", 0); ("b", 1); ("a", 2)] ∧
  len (in_window (from_secs 60) 4 "a" (foldl serve (ChannelLimiter.new c, []) reqs).2) ≤ 2.
Proof.
  intros c reqs. split; [vm_compute; reflexivity|].
  apply (channel_limiter_bounds_rate c reqs 4 "a"); [simpl; lia|simpl; lia|].
  simpl. repeat first [lia | constructor].
Defined.
