(* ===== verification/JoinLimiter.v ===== *)
(** * The join rate limiter (wavis-backend/src/abuse/join_rate_limiter.rs)

    Join attempts are counted along five dimensions: all and failed attempts per
    IP, attempts per invite code, per room and per connection.  Going over a
    threshold starts a cooldown for that key. *)

From S2P Require Import Prelude Signaling SlidingWindow.
From Stdlib Require Import Sorting.Sorted.
Local Open Scope Z_scope.
Local Open Scope prog_scope.

(** [JoinWindow]. *)
Record JoinWindow : Type := mkJoinWindow {
  attempts : SlidingWindow;
  cooldown_until : option Instant
}.

(** [JoinWindow::new]. *)
Definition JoinWindow_new (w : Duration) : JoinWindow := mkJoinWindow (SlidingWindow_new w) None.

(** [JoinWindow::in_cooldown]. *)
Definition in_cooldown (now : Instant) (w : JoinWindow) : bool :=
  match cooldown_until w with Some t => bool_decide (now < t) | None => false end.

(** [JoinWindow::check]. *)
Definition jw_check (threshold : Z) (now : Instant) (w : JoinWindow) : bool * JoinWindow :=
  if in_cooldown now w then (false, w)
  else let '(c, a) := count now (attempts w) in
       (bool_decide (c < threshold), mkJoinWindow a (cooldown_until w)).

(** [JoinWindow::record]. *)
Definition jw_record (threshold : Z) (cooldown : Duration) (now : Instant) (w : JoinWindow) : JoinWindow :=
  let '(c, a) := count now (add now (attempts w)) in
  mkJoinWindow a (if bool_decide (threshold < c) then Some (now + cooldown) else cooldown_until w).

(** [JoinWindow::is_stale]. *)
Definition is_stale (now : Instant) (w : JoinWindow) : bool * JoinWindow :=
  let '(c, a) := count now (attempts w) in
  let w' := mkJoinWindow a (cooldown_until w) in
  (bool_decide (c = 0) && negb (in_cooldown now w'), w').

(** [JoinRateLimiterConfig]. *)
Record JoinRateLimiterConfig : Type := mkJoinRateLimiterConfig {
  ip_total_threshold : Z;
  ip_total_window : Duration;
  ip_failed_threshold : Z;
  ip_failed_window : Duration;
  code_threshold : Z;
  code_window : Duration;
  room_threshold : Z;
  room_window : Duration;
  connection_threshold : Z;
  connection_window : Duration;
  cooldown : Duration
}.

(** [JoinRateLimiterConfig::default]. *)
Definition JoinRateLimiterConfig_default : JoinRateLimiterConfig :=
  mkJoinRateLimiterConfig 30 (from_secs 60) 10 (from_secs 60) 10 (from_secs 60) 12 (from_secs 60)
    5 (from_secs 60) (from_secs 60).

(** ** One map of windows *)

Section maps.
Context {K : Type} `{Countable K}.

(** [map.entry(k).or_insert_with(|| JoinWindow::new(dur))]. *)
Definition jentry (dur : Duration) (k : K) (m : gmap K JoinWindow) : JoinWindow :=
  default (JoinWindow_new dur) (m !! k).
Definition check_in (dur : Duration) (threshold : Z) (k : K) (now : Instant) (m : gmap K JoinWindow)
    : bool * gmap K JoinWindow :=
  let '(ok, w) := jw_check threshold now (jentry dur k m) in (ok, <[k := w]> m).
Definition record_in (dur : Duration) (threshold : Z) (cd : Duration) (k : K) (now : Instant)
    (m : gmap K JoinWindow) : gmap K JoinWindow :=
  <[k := jw_record threshold cd now (jentry dur k m)]> m.

(** [map.retain(|_, w| !w.is_stale(now))]. *)
Definition prune_in (now : Instant) (m : gmap K JoinWindow) : Z * gmap K JoinWindow :=
  let m' := omap (λ w, let '(stale, w') := is_stale now w in if stale : bool then None else Some w') m in
  (saturating_sub (map_len m) (map_len m'), m').
End maps.

(** ** The limiter *)

Section limiter.
Context {IpAddr : Type} `{Countable IpAddr}.

(** [JoinRateLimiter]. *)
Record JoinRateLimiter : Type := mkJoinRateLimiter {
  ip_total : gmap IpAddr JoinWindow;
  ip_failed : gmap IpAddr JoinWindow;
  code_attempts : gmap string JoinWindow;
  room_attempts : gmap string JoinWindow;
  connection_attempts : gmap string JoinWindow;
  jl_config : JoinRateLimiterConfig
}.

(** [JoinRateLimiter::new]. *)
Definition JoinRateLimiter_new (c : JoinRateLimiterConfig) : JoinRateLimiter :=
  mkJoinRateLimiter ∅ ∅ ∅ ∅ ∅ c.

(** [JoinRateLimiter::reconfigure]. *)
Definition reconfigure (c : JoinRateLimiterConfig) (_l : JoinRateLimiter) : JoinRateLimiter :=
  mkJoinRateLimiter ∅ ∅ ∅ ∅ ∅ c.

(** A map of the limiter, read and written. *)
Definition on_ip_total {A} (f : gmap IpAddr JoinWindow → A * gmap IpAddr JoinWindow)
    (l : JoinRateLimiter) : A * JoinRateLimiter :=
  let '(a, m) := f (ip_total l) in (a, mkJoinRateLimiter m (ip_failed l) (code_attempts l)
    (room_attempts l) (connection_attempts l) (jl_config l)).
Definition on_ip_failed {A} (f : gmap IpAddr JoinWindow → A * gmap IpAddr JoinWindow)
    (l : JoinRateLimiter) : A * JoinRateLimiter :=
  let '(a, m) := f (ip_failed l) in (a, mkJoinRateLimiter (ip_total l) m (code_attempts l)
    (room_attempts l) (connection_attempts l) (jl_config l)).
Definition on_code {A} (f : gmap string JoinWindow → A * gmap string JoinWindow)
    (l : JoinRateLimiter) : A * JoinRateLimiter :=
  let '(a, m) := f (code_attempts l) in (a, mkJoinRateLimiter (ip_total l) (ip_failed l) m
    (room_attempts l) (connection_attempts l) (jl_config l)).
Definition on_room {A} (f : gmap string JoinWindow → A * gmap string JoinWindow)
    (l : JoinRateLimiter) : A * JoinRateLimiter :=
  let '(a, m) := f (room_attempts l) in (a, mkJoinRateLimiter (ip_total l) (ip_failed l)
    (code_attempts l) m (connection_attempts l) (jl_config l)).
Definition on_connection {A} (f : gmap string JoinWindow → A * gmap string JoinWindow)
    (l : JoinRateLimiter) : A * JoinRateLimiter :=
  let '(a, m) := f (connection_attempts l) in (a, mkJoinRateLimiter (ip_total l) (ip_failed l)
    (code_attempts l) (room_attempts l) m (jl_config l)).

(** One dimension of [check_join]. *)
Definition gate (f : JoinRateLimiter → bool * JoinRateLimiter) : M JoinRateLimiter JoinRejectionReason unit :=
  λ l, let '(ok, l') := f l in (if ok : bool then Ok tt else Err RateLimited, l').

(** [JoinRateLimiter::check_join]. *)
Definition check_join (ip : IpAddr) (code : option string) (room_id connection_id : string)
    (now : Instant) : M JoinRateLimiter JoinRejectionReason unit :=
  let! cfg := gets jl_config in
  do! gate (on_ip_total (check_in (ip_total_window cfg) (ip_total_threshold cfg) ip now)) in
  do! gate (on_ip_failed (check_in (ip_failed_window cfg) (ip_failed_threshold cfg) ip now)) in
  do! (match code with
       | Some c => gate (on_code (check_in (code_window cfg) (code_threshold cfg) c now))
       | None => mret tt
       end) in
  do! gate (on_room (check_in (room_window cfg) (room_threshold cfg) room_id now)) in
  gate (on_connection (check_in (connection_window cfg) (connection_threshold cfg) connection_id now)).

(** A record on one map. *)
Definition rec {K} `{Countable K} (dur : Duration) (threshold : Z) (cd : Duration) (k : K) (now : Instant)
    (m : gmap K JoinWindow) : unit * gmap K JoinWindow := (tt, record_in dur threshold cd k now m).

(** [JoinRateLimiter::prune_stale_entries]; [prune_all] is the same sweep. *)
Definition prune_stale_entries (now : Instant) (l : JoinRateLimiter) : Z * JoinRateLimiter :=
  let '(n1, l) := on_ip_total (prune_in now) l in
  let '(n2, l) := on_ip_failed (prune_in now) l in
  let '(n3, l) := on_code (prune_in now) l in
  let '(n4, l) := on_room (prune_in now) l in
  let '(n5, l) := on_connection (prune_in now) l in
  (n1 + n2 + n3 + n4 + n5, l).
Definition prune_all (now : Instant) (l : JoinRateLimiter) : Z * JoinRateLimiter :=
  prune_stale_entries now l.

(** [JoinRateLimiter::record_attempt]. *)
Definition record_attempt (ip : IpAddr) (code : option string) (room_id connection_id : string)
    (failed : bool) (now : Instant) (l : JoinRateLimiter) : JoinRateLimiter :=
  let cfg := jl_config l in
  let cd := cooldown cfg in
  let l := (on_ip_total (rec (ip_total_window cfg) (ip_total_threshold cfg) cd ip now) l).2 in
  let l := if failed then (on_ip_failed (rec (ip_failed_window cfg) (ip_failed_threshold cfg) cd ip now) l).2 else l in
  let l := match code with
           | Some c => (on_code (rec (code_window cfg) (code_threshold cfg) cd c now) l).2
           | None => l
           end in
  let l := (on_room (rec (room_window cfg) (room_threshold cfg) cd room_id now) l).2 in
  let l := (on_connection (rec (connection_window cfg) (connection_threshold cfg) cd connection_id now) l).2 in
  (prune_stale_entries now l).2.
End limiter.
Arguments JoinRateLimiter IpAddr {_ _} : assert.

(** ** Cooldowns of one map *)

Section cooling.
Context {K : Type} `{Countable K}.

(** The key cools down until [until] at least. *)
Definition cooling (k : K) (until : Instant) (m : gmap K JoinWindow) : Prop :=
  ∃ w u, m !! k = Some w ∧ cooldown_until w = Some u ∧ until ≤ u.

Lemma cooling_insert k k' until w m :
  (k' = k → cooling k until m → ∃ u, cooldown_until w = Some u ∧ until ≤ u) →
  cooling k until m → cooling k until (<[k' := w]> m).
Proof.
  intros Hw Hc. destruct (decide (k' = k)) as [->|Hne].
  - destruct (Hw eq_refl Hc) as (u & Hu & Hle). exists w, u. by rewrite lookup_insert_eq.
  - destruct Hc as (w' & u & Hl & ?). exists w', u. by rewrite lookup_insert_ne.
Qed.

Lemma jw_check_cooldown thr now w : cooldown_until (jw_check thr now w).2 = cooldown_until w.
Proof. unfold jw_check. by case_match. Qed.

Lemma cooling_entry dur k until m : cooling k until m → ∃ u, cooldown_until (jentry dur k m) = Some u ∧ until ≤ u.
Proof. intros (w & u & Hl & Hu). exists u. unfold jentry. by rewrite Hl. Qed.

Lemma cooling_check dur thr k k' now until m :
  cooling k until m → cooling k until (check_in dur thr k' now m).2.
Proof.
  intros Hc. unfold check_in. pose proof (jw_check_cooldown thr now (jentry dur k' m)) as Hw.
  destruct (jw_check thr now (jentry dur k' m)) as [ok w]. simpl in *.
  apply cooling_insert; [|done]. intros -> Hk. rewrite Hw. by apply cooling_entry.
Qed.

Lemma cooling_blocks dur thr k now until m :
  now < until → cooling k until m → (check_in dur thr k now m).1 = false.
Proof.
  intros Hlt Hc. destruct (cooling_entry dur k until m Hc) as (u & Hu & Hle).
  unfold check_in, jw_check, in_cooldown. rewrite Hu. by rewrite (bool_decide_true (now < u)) by lia.
Qed.

Lemma cooling_record dur thr cd k k' now until m :
  until ≤ now + cd → cooling k until m → cooling k until (record_in dur thr cd k' now m).
Proof.
  intros Hle Hc. unfold record_in. apply cooling_insert; [|done]. intros -> Hk. unfold jw_record. simpl.
  case_bool_decide; [by eexists|]. by apply cooling_entry.
Qed.

Lemma cooling_prune k now until m :
  now < until → cooling k until m → cooling k until (prune_in now m).2.
Proof.
  intros Hlt (w & u & Hl & Hu & Hle). unfold prune_in. simpl. exists (mkJoinWindow (prune now (attempts w)) (cooldown_until w)), u. split_and!; [|exact Hu|done].
  rewrite lookup_omap, Hl. simpl. unfold in_cooldown. simpl. rewrite Hu, (bool_decide_true (now < u)) by lia.
  by rewrite andb_false_r.
Qed.

(** An attempt beyond the threshold starts the cooldown. *)
Lemma record_starts dur thr cd k now m :
  thr < (count now (add now (attempts (jentry dur k m)))).1 →
  cooling k (now + cd) (record_in dur thr cd k now m).
Proof.
  intros Hc. unfold record_in. eexists _, (now + cd). rewrite lookup_insert_eq. split; [done|].
  unfold jw_record. simpl in *. by rewrite bool_decide_true.
Qed.
End cooling.

(** ** The five dimensions *)

Section dimensions.
Context {IpAddr : Type} `{Countable IpAddr}.
Abbreviation Limiter := (JoinRateLimiter IpAddr) (only parsing).

Inductive Dim : Type :=
| DIpTotal (ip : IpAddr)
| DIpFailed (ip : IpAddr)
| DCode (code : string)
| DRoom (room_id : string)
| DConnection (connection_id : string).

#[local] Instance Dim_eq_dec : EqDecision Dim.
Proof. solve_decision. Defined.

(** A join attempt, as the two calls see it. *)
Record Attempt : Type := mkAttempt {
  a_ip : IpAddr;
  a_code : option string;
  a_room : string;
  a_connection : string
}.

(** The dimensions a check of the attempt consults. *)
Definition checked (d : Dim) (a : Attempt) : Prop :=
  match d with
  | DIpTotal ip | DIpFailed ip => a_ip a = ip
  | DCode c => a_code a = Some c
  | DRoom r => a_room a = r
  | DConnection c => a_connection a = c
  end.
(** Those in which it is recorded. *)
Definition recorded (d : Dim) (a : Attempt) (failed : bool) : Prop :=
  checked d a ∧ match d with DIpFailed _ => failed = true | _ => True end.

(** The window of a dimension, its length and its threshold. *)
Definition dim_window (d : Dim) (l : Limiter) : JoinWindow :=
  let c := jl_config l in
  match d with
  | DIpTotal ip => jentry (ip_total_window c) ip (ip_total l)
  | DIpFailed ip => jentry (ip_failed_window c) ip (ip_failed l)
  | DCode k => jentry (code_window c) k (code_attempts l)
  | DRoom r => jentry (room_window c) r (room_attempts l)
  | DConnection k => jentry (connection_window c) k (connection_attempts l)
  end.
Definition dim_threshold (d : Dim) (c : JoinRateLimiterConfig) : Z :=
  match d with
  | DIpTotal _ => ip_total_threshold c
  | DIpFailed _ => ip_failed_threshold c
  | DCode _ => code_threshold c
  | DRoom _ => room_threshold c
  | DConnection _ => connection_threshold c
  end.
Definition passes (d : Dim) (now : Instant) (l : Limiter) : bool :=
  (jw_check (dim_threshold d (jl_config l)) now (dim_window d l)).1.
Definition cools (d : Dim) (until : Instant) (l : Limiter) : Prop :=
  match d with
  | DIpTotal ip => cooling ip until (ip_total l)
  | DIpFailed ip => cooling ip until (ip_failed l)
  | DCode k => cooling k until (code_attempts l)
  | DRoom r => cooling r until (room_attempts l)
  | DConnection k => cooling k until (connection_attempts l)
  end.

Lemma check_in_passes {K} `{Countable K} dur thr (k : K) now m :
  (check_in dur thr k now m).1 = (jw_check thr now (jentry dur k m)).1.
Proof. unfold check_in. by destruct (jw_check _ _ _). Qed.

(** A check, and a record, of one dimension. *)
Definition dim_check (cfg : JoinRateLimiterConfig) (now : Instant) (d : Dim) : Limiter → bool * Limiter :=
  match d with
  | DIpTotal ip => on_ip_total (check_in (ip_total_window cfg) (ip_total_threshold cfg) ip now)
  | DIpFailed ip => on_ip_failed (check_in (ip_failed_window cfg) (ip_failed_threshold cfg) ip now)
  | DCode c => on_code (check_in (code_window cfg) (code_threshold cfg) c now)
  | DRoom r => on_room (check_in (room_window cfg) (room_threshold cfg) r now)
  | DConnection c => on_connection (check_in (connection_window cfg) (connection_threshold cfg) c now)
  end.
Definition dim_record (cfg : JoinRateLimiterConfig) (now : Instant) (l : Limiter) (d : Dim) : Limiter :=
  match d with
  | DIpTotal ip => (on_ip_total (rec (ip_total_window cfg) (ip_total_threshold cfg) (cooldown cfg) ip now) l).2
  | DIpFailed ip => (on_ip_failed (rec (ip_failed_window cfg) (ip_failed_threshold cfg) (cooldown cfg) ip now) l).2
  | DCode c => (on_code (rec (code_window cfg) (code_threshold cfg) (cooldown cfg) c now) l).2
  | DRoom r => (on_room (rec (room_window cfg) (room_threshold cfg) (cooldown cfg) r now) l).2
  | DConnection c =>
      (on_connection (rec (connection_window cfg) (connection_threshold cfg) (cooldown cfg) c now) l).2
  end.
Definition check_dims (a : Attempt) : list Dim :=
  [DIpTotal (a_ip a); DIpFailed (a_ip a)] ++ option_list (DCode <$> a_code a) ++
  [DRoom (a_room a); DConnection (a_connection a)].
Definition record_dims (a : Attempt) (failed : bool) : list Dim :=
  [DIpTotal (a_ip a)] ++ (if failed then [DIpFailed (a_ip a)] else []) ++
  option_list (DCode <$> a_code a) ++ [DRoom (a_room a); DConnection (a_connection a)].

Lemma elem_of_check_dims d a : d ∈ check_dims a ↔ checked d a.
Proof.
  unfold check_dims, checked. destruct (a_code a); simpl; rewrite !elem_of_cons, elem_of_nil;
    destruct d; naive_solver.
Qed.

Lemma elem_of_record_dims d a failed : d ∈ record_dims a failed ↔ recorded d a failed.
Proof.
  unfold record_dims, recorded, checked. destruct failed, (a_code a); simpl; rewrite !elem_of_cons, elem_of_nil;
    destruct d; naive_solver.
Qed.

Lemma mbind_ext {S E A B} (m : M S E A) (k k' : A → M S E B) s :
  (∀ a s', k a s' = k' a s') → mbind_ m k s = mbind_ m k' s.
Proof. intros Hk. unfold mbind_. destruct (m s) as [[a|e] s']; [apply Hk|done]. Qed.

Lemma check_join_gates a now (l : Limiter) :
  check_join (a_ip a) (a_code a) (a_room a) (a_connection a) now l =
  for_each (λ d, gate (dim_check (jl_config l) now d)) (check_dims a) l.
Proof.
  assert (∀ f (l : Limiter), gate f l = mbind_ (gate f) (λ _, mret tt) l) as Hlast.
  { intros f l'. unfold mbind_, gate. by destruct (f l') as [[] l'']. }
  unfold check_join, check_dims. unfold mbind_ at 1, gets. destruct (a_code a) as [c|]; simpl;
    do 2 (apply mbind_ext; intros _ ?).
  - do 2 (apply mbind_ext; intros _ ?). apply Hlast.
  - unfold mbind_ at 1, mret at 1. apply mbind_ext; intros _ ?. apply Hlast.
Qed.

Lemma record_attempt_dims a failed now (l : Limiter) :
  record_attempt (a_ip a) (a_code a) (a_room a) (a_connection a) failed now l =
  (prune_stale_entries now (foldl (dim_record (jl_config l) now) l (record_dims a failed))).2.
Proof. unfold record_attempt, record_dims. by destruct failed, (a_code a). Qed.

(** *** Checks *)

Lemma pop_expired_idemp w now l : pop_expired w now (pop_expired w now l) = pop_expired w now l.
Proof.
  induction l as [|t l IH]; simpl; [done|]. case_bool_decide; [done|]. simpl.
  by rewrite bool_decide_false.
Qed.

Lemma jw_check_idemp thr now w : (jw_check thr now (jw_check thr now w).2).1 = (jw_check thr now w).1.
Proof.
  unfold jw_check. destruct (in_cooldown now w) eqn:E; simpl; [by rewrite E|].
  assert (in_cooldown now (mkJoinWindow (prune now (attempts w)) (cooldown_until w)) = in_cooldown now w) as ->
    by done.
  rewrite E. simpl. by rewrite pop_expired_idemp.
Qed.

Lemma jentry_insert {K} `{Countable K} dur (k k' : K) w m :
  jentry dur k (<[k' := w]> m) = if decide (k' = k) then w else jentry dur k m.
Proof. unfold jentry. rewrite lookup_insert. by case_decide. Qed.

(** A check changes no verdict. *)
Lemma check_in_verdict {K} `{Countable K} dur thr (k k' : K) now m :
  (jw_check thr now (jentry dur k' (check_in dur thr k now m).2)).1 =
  (jw_check thr now (jentry dur k' m)).1.
Proof.
  unfold check_in. pose proof (jw_check_idemp thr now (jentry dur k m)) as Hi.
  destruct (jw_check thr now (jentry dur k m)) as [ok w] eqn:E. simpl in *. rewrite jentry_insert.
  case_decide as Hk; [|done]. rewrite <-Hk, E. exact Hi.
Qed.

Lemma dim_check_spec now d (l : Limiter) :
  (dim_check (jl_config l) now d l).1 = passes d now l ∧
  jl_config (dim_check (jl_config l) now d l).2 = jl_config l ∧
  ∀ d', passes d' now (dim_check (jl_config l) now d l).2 = passes d' now l.
Proof.
  destruct d as [k|k|k|k|k]; unfold dim_check, on_ip_total, on_ip_failed, on_code, on_room, on_connection;
  match goal with |- context [check_in ?dur ?thr k now ?m] =>
    pose proof (check_in_passes dur thr k now m) as Hp;
    pose proof (λ k', check_in_verdict dur thr k k' now m) as Hv;
    destruct (check_in dur thr k now m) as [ok m'] end; simpl in *;
  (split_and!; [done|done|intros []; unfold passes; simpl; auto]).
Qed.

(** A check passes exactly if every dimension it consults does. *)
Lemma gates_verdict now ds (l : Limiter) :
  let res := (for_each (λ d, gate (dim_check (jl_config l) now d)) ds l).1 in
  (res = Ok tt ∧ ∀ d, d ∈ ds → passes d now l = true) ∨
  (res = Err RateLimited ∧ ∃ d, d ∈ ds ∧ passes d now l = false).
Proof.
  assert (∀ cfg l', jl_config l' = cfg → (∀ d, passes d now l' = passes d now l) →
    let res := (for_each (λ d, gate (dim_check cfg now d)) ds l').1 in
    (res = Ok tt ∧ ∀ d, d ∈ ds → passes d now l = true) ∨
    (res = Err RateLimited ∧ ∃ d, d ∈ ds ∧ passes d now l = false)) as Hgen; [|by apply Hgen].
  intros cfg. induction ds as [|d ds IH]; intros l' Hcfg Hp; simpl.
  - left. split; [done|]. intros d Hd. by apply not_elem_of_nil in Hd.
  - destruct (dim_check_spec now d l') as (H1 & H2 & H3). rewrite Hcfg in H1, H2, H3.
    unfold mbind_, gate. destruct (dim_check cfg now d l') as [[] l'']; simpl in *; rewrite Hp in H1.
    + destruct (IH l'' H2) as [[Hr Hall]|(Hr & d' & Hd' & Hf)]; [intros d'; by rewrite H3| |].
      * left. split; [done|]. intros d' [->|Hd']%elem_of_cons; auto.
      * right. split; [done|]. exists d'. split; [by right|done].
    + right. split; [done|]. exists d. split; [by left|done].
Qed.

Lemma check_join_verdict a now (l : Limiter) :
  let res := (check_join (a_ip a) (a_code a) (a_room a) (a_connection a) now l).1 in
  (res = Ok tt ∧ ∀ d, checked d a → passes d now l = true) ∨
  (res = Err RateLimited ∧ ∃ d, checked d a ∧ passes d now l = false).
Proof.
  rewrite check_join_gates. destruct (gates_verdict now (check_dims a) l) as [[Hr Hall]|(Hr & d & Hd & Hf)].
  - left. split; [exact Hr|]. intros d Hd. by apply Hall, elem_of_check_dims.
  - right. split; [exact Hr|]. exists d. by rewrite <-elem_of_check_dims.
Qed.

(** *** Cooldowns through the operations *)

Lemma cools_blocks d now until (l : Limiter) : now < until → cools d until l → passes d now l = false.
Proof.
  intros Hlt Hc. unfold passes. destruct d; simpl in *;
    rewrite <-check_in_passes; by eapply cooling_blocks.
Qed.

Lemma dim_check_cools cfg now d d' until (l : Limiter) : cools d until l → cools d until (dim_check cfg now d' l).2.
Proof.
  intros Hc. destruct d' as [k|k|k|k|k]; unfold dim_check, on_ip_total, on_ip_failed, on_code, on_room, on_connection;
  match goal with |- context [check_in ?dur ?thr k now ?m] =>
    pose proof (λ k', cooling_check dur thr k' k now until m) as Hv;
    destruct (check_in dur thr k now m) as [ok m'] end; simpl in *;
  destruct d; simpl in *; auto.
Qed.

Lemma dim_record_cools cfg now d d' until (l : Limiter) :
  until ≤ now + cooldown cfg → cools d until l → cools d until (dim_record cfg now l d').
Proof. intros Hle Hc. destruct d', d; simpl in *; auto using cooling_record. Qed.

Lemma dim_record_config cfg now d (l : Limiter) : jl_config (dim_record cfg now l d) = jl_config l.
Proof. by destruct d. Qed.

Lemma prune_cools now d until (l : Limiter) :
  now < until → cools d until l → cools d until (prune_stale_entries now l).2.
Proof. intros Hlt Hc. destruct d; simpl in *; by apply cooling_prune. Qed.

(** The calls on a limiter, each with its time. *)
Inductive JoinOp : Type :=
| JCheck (a : Attempt)
| JRecord (a : Attempt) (failed : bool)
| JPrune.

Definition run_join (now : Instant) (op : JoinOp) (l : Limiter) : Limiter :=
  match op with
  | JCheck a => (check_join (a_ip a) (a_code a) (a_room a) (a_connection a) now l).2
  | JRecord a failed => record_attempt (a_ip a) (a_code a) (a_room a) (a_connection a) failed now l
  | JPrune => (prune_all now l).2
  end.

(** The limiter keeps its configuration and a cooldown of a dimension. *)
Definition locked (d : Dim) (until : Instant) (cfg : JoinRateLimiterConfig) (l : Limiter) : Prop :=
  cools d until l ∧ jl_config l = cfg.

Lemma dim_check_config cfg now d (l : Limiter) : jl_config (dim_check cfg now d l).2 = jl_config l.
Proof.
  destruct d; unfold dim_check, on_ip_total, on_ip_failed, on_code, on_room, on_connection;
    by destruct (check_in _ _ _ _ _).
Qed.

Lemma run_join_locked d until cfg now op (l : Limiter) :
  now < until → until ≤ now + cooldown cfg → locked d until cfg l → locked d until cfg (run_join now op l).
Proof.
  intros Hlt Hle [Hc Hcfg]. destruct op as [a|a failed|]; simpl.
  - rewrite check_join_gates.
    assert (preserves (locked d until cfg) (for_each (λ d, gate (dim_check (jl_config l) now d)) (check_dims a)))
      as Hp; [|by apply Hp].
    apply preserves_for_each. intros d' l' [Hc' Hcfg']. unfold gate.
    pose proof (dim_check_cools (jl_config l) now d d' until l' Hc') as H1.
    pose proof (dim_check_config (jl_config l) now d' l') as H2.
    destruct (dim_check _ now d' l') as [ok l'']. split; [exact H1|]. simpl in *. congruence.
  - rewrite record_attempt_dims, Hcfg.
    assert (∀ ds l', locked d until cfg l' → locked d until cfg (foldl (dim_record cfg now) l' ds)) as Hf.
    { induction ds as [|d' ds IH]; intros l' Hl'; simpl; [done|]. apply IH. destruct Hl' as [Hc' Hcfg'].
      split; [by apply dim_record_cools|]. by rewrite dim_record_config. }
    destruct (Hf (record_dims a failed) l (conj Hc Hcfg)) as [Hc' Hcfg']. split; [by apply prune_cools|done].
  - split; [by apply prune_cools|done].
Qed.

(** Recording an attempt beyond the threshold of a dimension. *)
Definition exceeds (d : Dim) (now : Instant) (l : Limiter) : Prop :=
  dim_threshold d (jl_config l) < (count now (add now (attempts (dim_window d l)))).1.

Lemma dim_record_ne cfg now d d' (l : Limiter) :
  d ≠ d' → jl_config l = cfg → dim_window d (dim_record cfg now l d') = dim_window d l.
Proof.
  intros Hne Hcfg. destruct d, d'; simpl; rewrite ?Hcfg; try done; unfold record_in; rewrite jentry_insert;
    (rewrite decide_False; [done|congruence]).
Qed.

Lemma record_exceeds_cools d a failed now (l : Limiter) :
  recorded d a failed → exceeds d now l → 0 < cooldown (jl_config l) →
  locked d (now + cooldown (jl_config l)) (jl_config l)
    (record_attempt (a_ip a) (a_code a) (a_room a) (a_connection a) failed now l).
Proof.
  intros Hrec Hex Hcd. rewrite record_attempt_dims. apply elem_of_record_dims in Hrec.
  set (cfg := jl_config l) in *. set (until := now + cooldown cfg).
  assert (∀ ds l', d ∈ ds → jl_config l' = cfg → exceeds d now l' →
    locked d until cfg (foldl (dim_record cfg now) l' ds)) as Hgo.
  { assert (∀ ds l', locked d until cfg l' → locked d until cfg (foldl (dim_record cfg now) l' ds)) as Hkeep.
    { induction ds as [|d' ds IH]; intros l' Hl'; simpl; [done|]. apply IH. destruct Hl' as [Hc' Hcfg'].
      split; [apply dim_record_cools; [unfold until; lia|done]|by rewrite dim_record_config]. }
    induction ds as [|d' ds IH]; intros l' Hd Hcfg' Hex'; [by apply not_elem_of_nil in Hd|]. simpl.
    destruct (decide (d = d')) as [->|Hne].
    - apply Hkeep. split; [|by rewrite dim_record_config]. unfold exceeds in Hex'. rewrite Hcfg' in Hex'.
      destruct d'; simpl in *; rewrite Hcfg' in Hex'; by apply record_starts.
    - apply elem_of_cons in Hd as [->|Hd]; [done|]. apply IH; [done|by rewrite dim_record_config|].
      unfold exceeds. rewrite dim_record_config, dim_record_ne by done. exact Hex'. }
  destruct (Hgo _ l Hrec eq_refl Hex) as [Hc Hcfg']. split; [|done].
  apply prune_cools; [unfold until; lia|done].
Qed.

(** An attempt that takes one of its dimensions beyond the threshold locks that
    dimension for the cooldown: whatever is checked, recorded and pruned in the
    meantime, every check that consults the same IP, code, room or connection
    before the cooldown has passed is refused as rate limited.  Otherwise the
    limiter is exact: at any time a check is admitted if and only if no dimension
    it consults cools down and each has fewer attempts in its window than its
    threshold. *)
Theorem join_flood_locks_out a failed d t0 (l : Limiter) ops t a' :
  recorded d a failed → exceeds d t0 l → checked d a' →
  StronglySorted Z.le (t0 :: map fst ops ++ [t]) → t < t0 + cooldown (jl_config l) →
  let l' := foldl (λ l op, run_join op.1 op.2 l)
    (record_attempt (a_ip a) (a_code a) (a_room a) (a_connection a) failed t0 l) ops in
  (check_join (a_ip a') (a_code a') (a_room a') (a_connection a') t l').1 = Err RateLimited ∧
  ∀ a'' now, (check_join (a_ip a'') (a_code a'') (a_room a'') (a_connection a'') now l').1 = Ok tt ↔
    ∀ d'', checked d'' a'' → in_cooldown now (dim_window d'' l') = false ∧
      (count now (attempts (dim_window d'' l'))).1 < dim_threshold d'' (jl_config l').
Proof.
  intros Hrec Hex Hchk Hs Ht l'. split.
  - apply StronglySorted_inv in Hs as [Hs Hle]. rewrite Forall_app, Forall_cons in Hle.
    destruct Hle as (Hops & Ht0 & _).
    pose proof (record_exceeds_cools d a failed t0 l Hrec Hex ltac:(lia)) as Hlock.
    assert (∀ l0, locked d (t0 + cooldown (jl_config l)) (jl_config l) l0 →
      locked d (t0 + cooldown (jl_config l)) (jl_config l) (foldl (λ l op, run_join op.1 op.2 l) l0 ops)) as Hrun.
    { clear l' Hlock Hrec Hex. induction ops as [|[s op] ops IH]; intros l0 Hl0; simpl in *; [done|].
      apply Forall_cons in Hops as [Hs0 Hops]. apply StronglySorted_inv in Hs as [Hs Hfut].
      rewrite Forall_app, Forall_cons in Hfut. destruct Hfut as (_ & Hst & _). apply IH; [done..|]. apply run_join_locked; [lia..|done]. }
    destruct (Hrun _ Hlock) as [Hc _]. fold l' in Hc.
    pose proof (cools_blocks d t _ l' Ht Hc) as Hblock.
    destruct (check_join_verdict a' t l') as [[_ Hall]|[Hr _]]; [|exact Hr].
    by rewrite (Hall d Hchk) in Hblock.
  - intros a'' now. assert (∀ d'', passes d'' now l' = true ↔ in_cooldown now (dim_window d'' l') = false ∧
      (count now (attempts (dim_window d'' l'))).1 < dim_threshold d'' (jl_config l')) as Hp.
    { intros d''. unfold passes, jw_check. destruct (in_cooldown now (dim_window d'' l')); [naive_solver|].
      simpl. rewrite bool_decide_eq_true. naive_solver. }
    destruct (check_join_verdict a'' now l') as [[Hr Hall]|(Hr & d'' & Hd & Hf)]; cbv zeta in Hr; rewrite Hr.
    + split; [|done]. intros _ d'' Hd. by apply Hp, Hall.
    + split; [done|]. intros Hall. specialize (Hall d'' Hd). apply Hp in Hall. congruence.
Qed.
End dimensions.

(** The sixth attempt of a connection within a minute. *)
Module JoinDemo.
Definition att : Attempt (IpAddr:=string) := mkAttempt "10.0.0.1" None "r" "c".
Definition five : JoinRateLimiter string :=
  foldl (λ l op, run_join op.1 op.2 l) (JoinRateLimiter_new JoinRateLimiterConfig_default)
    [(0, JRecord att false); (1, JRecord att false); (2, JRecord att false); (3, JRecord att false);
     (4, JRecord att false)].
End JoinDemo.

Lemma join_flood_locks_out_witness :
  let l' := foldl (λ l op, run_join op.1 op.2 l)
    (record_attempt "10.0.0.1" None "r" "c" false 5 JoinDemo.five) [(6, JPrune)] in
  (check_join "10.0.0.2" None "other" "c" 7 l').1 = Err RateLimited.
Proof.
  destruct (join_flood_locks_out JoinDemo.att false (DConnection "c") 5 JoinDemo.five [(6, JPrune)] 7
    (mkAttempt "10.0.0.2" None "other" "c")) as [H _].
  - split; [reflexivity|exact I].
  - vm_compute. reflexivity.
  - reflexivity.
  - simpl. repeat first [lia | constructor].
  - vm_compute. reflexivity.
  - exact H.
Defined.
