(* ===== verification/AbuseGuards.v ===== *)
(** * Abuse guards (wavis-backend/src/abuse/ip_tracker.rs, temp_ban.rs,
    global_rate_limiter.rs)

    The per-IP connection cap, the temporary bans and the lock-free global
    ceiling.  The last one is a compare-and-swap loop that many threads run at
    once; its steps are modelled one atomic access at a time. *)

From S2P Require Import Prelude.
From Stdlib Require Import Sorting.Sorted.
Local Open Scope Z_scope.

Module IpTracker.
Section tracker.
Context {IpAddr : Type} `{Countable IpAddr}.

(** [IpConnectionTracker]. *)
Record IpConnectionTracker : Type := mkIpConnectionTracker {
  connections : gmap IpAddr Z;
  max_per_ip : Z
}.

(** [IpConnectionTracker::new], [set_max_per_ip]. *)
Definition new (max : Z) : IpConnectionTracker := mkIpConnectionTracker ∅ max.
Definition set_max_per_ip (max : Z) (t : IpConnectionTracker) : IpConnectionTracker :=
  mkIpConnectionTracker (connections t) max.

(** [IpConnectionTracker::count]. *)
Definition count (ip : IpAddr) (t : IpConnectionTracker) : Z := default 0 (connections t !! ip).

(** [IpConnectionTracker::try_add]. *)
Definition try_add (ip : IpAddr) (t : IpConnectionTracker) : bool * IpConnectionTracker :=
  let c := count ip t in
  if bool_decide (c < max_per_ip t)
  then (true, mkIpConnectionTracker (<[ip := c + 1]> (connections t)) (max_per_ip t))
  else (false, mkIpConnectionTracker (<[ip := c]> (connections t)) (max_per_ip t)).

(** [IpConnectionTracker::remove]. *)
Definition remove (ip : IpAddr) (t : IpConnectionTracker) : IpConnectionTracker :=
  match connections t !! ip with
  | None => t
  | Some c =>
      mkIpConnectionTracker
        (if bool_decide (c ≤ 1) then delete ip (connections t) else <[ip := c - 1]> (connections t))
        (max_per_ip t)
  end.
End tracker.
Arguments IpConnectionTracker IpAddr {_ _} : assert.
End IpTracker.

Module TempBan.
(** [TempBanConfig]. *)
Record TempBanConfig : Type := mkTempBanConfig {
  threshold : Z;
  ban_window : Duration;
  ban_duration : Duration;
  max_entries : Z
}.

(** [BanEntry]. *)
Record BanEntry : Type := mkBanEntry {
  banned_at : Instant;
  expires_at : Instant
}.

Section bans.
Context {IpAddr : Type} `{Countable IpAddr}.

(** [TempBanList]; a [ViolationWindow] is its timestamps. *)
Record TempBanList : Type := mkTempBanList {
  bans : gmap IpAddr BanEntry;
  violations : gmap IpAddr (list Instant);
  ban_config : TempBanConfig
}.

(** [TempBanList::with_clock]; the clock is read once per call. *)
Definition TempBanList_new (c : TempBanConfig) : TempBanList := mkTempBanList ∅ ∅ c.

(** [TempBanList::is_banned]. *)
Definition is_banned (ip : IpAddr) (now : Instant) (l : TempBanList) : bool :=
  match bans l !! ip with
  | Some e => bool_decide (now < expires_at e)
  | None => false
  end.

(** The pruning loop of [record_violation]: pop entries at or before the cutoff. *)
Fixpoint pop_until (cutoff : Instant) (l : list Instant) : list Instant :=
  match l with
  | [] => []
  | t :: l' => if bool_decide (t ≤ cutoff) then pop_until cutoff l' else l
  end.

(** [bans.retain(|_, entry| entry.expires_at > now)]. *)
Definition unexpired (now : Instant) (m : gmap IpAddr BanEntry) : gmap IpAddr BanEntry :=
  filter (λ p, now < expires_at p.2) m.

(** Step 2 of [record_violation]. *)
Definition attempt_ban (ip : IpAddr) (now : Instant) (c : TempBanConfig) (m : gmap IpAddr BanEntry)
    : gmap IpAddr BanEntry :=
  if match m !! ip with Some e => bool_decide (now < expires_at e) | None => false end then m
  else
    let m := if bool_decide (max_entries c ≤ map_len m) then unexpired now m else m in
    if bool_decide (max_entries c ≤ map_len m) then m
    else <[ip := mkBanEntry now (now + ban_duration c)]> m.

(** [TempBanList::record_violation]. *)
Definition record_violation (ip : IpAddr) (now : Instant) (l : TempBanList) : TempBanList :=
  let c := ban_config l in
  let window := pop_until (now - ban_window c) (default [] (violations l !! ip) ++ [now]) in
  let violations' := <[ip := window]> (violations l) in
  if bool_decide (threshold c ≤ len window)
  then mkTempBanList (attempt_ban ip now c (bans l)) violations' c
  else mkTempBanList (bans l) violations' c.

(** [TempBanList::prune_expired]. *)
Definition prune_expired (now : Instant) (l : TempBanList) : Z * TempBanList :=
  let m := unexpired now (bans l) in
  (map_len (bans l) - map_len m,
   mkTempBanList m (filter (λ p, p.2 ≠ []) (violations l)) (ban_config l)).

(** ** Bans *)

(** Whether the ip is over the threshold with a violation now. *)
Definition over_threshold (ip : IpAddr) (now : Instant) (l : TempBanList) : bool :=
  bool_decide (threshold (ban_config l) ≤
    len (pop_until (now - ban_window (ban_config l)) (default [] (violations l !! ip) ++ [now]))).

(** Whether the list has an entry left once expired bans are dropped. *)
Definition has_room (now : Instant) (l : TempBanList) : bool :=
  bool_decide (map_len (unexpired now (bans l)) < max_entries (ban_config l)).

(** Whether a ban table says that [ip] is banned at [t]. *)
Definition banned_in (ip : IpAddr) (t : Instant) (m : gmap IpAddr BanEntry) : bool :=
  match m !! ip with Some e => bool_decide (t < expires_at e) | None => false end.

Lemma unexpired_invisible ip now t m : now ≤ t → banned_in ip t (unexpired now m) = banned_in ip t m.
Proof.
  intros Hle. unfold banned_in, unexpired. rewrite map_lookup_filter.
  destruct (m !! ip) as [e|]; simpl; [|done]. case_guard as Hg; simpl; [done|].
  simpl in Hg. rewrite bool_decide_false by lia. done.
Qed.

Lemma unexpired_len now m : map_len (unexpired now m) ≤ map_len m.
Proof. unfold unexpired. pose proof (size_filter_le (λ p : IpAddr * BanEntry, now < expires_at p.2) m). lia. Qed.

Lemma attempt_ban_spec ip now c m :
  let room := bool_decide (map_len (unexpired now m) < max_entries c) in
  let m' := attempt_ban ip now c m in
  (∀ ip' t, ip' ≠ ip → now ≤ t → banned_in ip' t m' = banned_in ip' t m) ∧
  (∀ t, now ≤ t → banned_in ip t m' = banned_in ip t m ||
     (negb (banned_in ip now m) && room && bool_decide (t < now + ban_duration c))) ∧
  (map_len m ≤ max_entries c → map_len m' ≤ max_entries c).
Proof.
  intros room m'. subst m' room. unfold attempt_ban. fold (banned_in ip now m).
  destruct (banned_in ip now m) eqn:Eb.
  { split_and!; [done| |done]. intros t Ht. simpl. by rewrite orb_false_r. }
  assert (∀ t, now ≤ t → banned_in ip t m = false) as Hno.
  { intros t Ht. unfold banned_in in *. destruct (m !! ip); [|done].
    apply bool_decide_eq_false in Eb. apply bool_decide_eq_false. lia. }
  pose proof (unexpired_len now m) as Hlen.
  set (m1 := if bool_decide (max_entries c ≤ map_len m) then unexpired now m else m).
  assert (∀ ip' t, now ≤ t → banned_in ip' t m1 = banned_in ip' t m) as Hm1.
  { intros ip' t Ht. subst m1. case_bool_decide; [by apply unexpired_invisible|done]. }
  assert (bool_decide (max_entries c ≤ map_len m1) =
    negb (bool_decide (map_len (unexpired now m) < max_entries c))) as ->.
  { subst m1. repeat case_bool_decide; simpl; try done; lia. }
  assert (map_len m1 ≤ map_len m) as Hm1len by (subst m1; case_bool_decide; lia).
  case_bool_decide as Hroom; cbn [negb].
  - split_and!.
    + intros ip' t Hne Ht. unfold banned_in at 1. rewrite lookup_insert_ne by done. by apply Hm1.
    + intros t Ht. rewrite (Hno t Ht). unfold banned_in at 1. rewrite lookup_insert_eq. done.
    + intros Hm. assert (map_len m1 < max_entries c) by (subst m1; case_bool_decide; lia).
      rewrite map_size_insert. destruct (m1 !! ip); unfold id; lia.
  - split_and!.
    + intros ip' t _ Ht. by apply Hm1.
    + intros t Ht. rewrite Hm1, (Hno t Ht) by done. done.
    + lia.
Qed.

(** The effect of a violation is exact.  The list never grows beyond its
    capacity and no other address is affected, now or later.  The address itself
    is banned afterwards if it already was, or if this violation is at least the
    threshold's in the window and an entry is free once expired bans are dropped;
    the new ban lasts exactly the configured duration.  With a full list the
    offender goes unbanned. *)
Theorem record_violation_spec ip now (l : TempBanList) :
  map_len (bans l) ≤ max_entries (ban_config l) →
  let l' := record_violation ip now l in
  map_len (bans l') ≤ max_entries (ban_config l') ∧
  (∀ ip' t, ip' ≠ ip → now ≤ t → is_banned ip' t l' = is_banned ip' t l) ∧
  (∀ t, now ≤ t → is_banned ip t l' =
     is_banned ip t l || (negb (is_banned ip now l) && over_threshold ip now l && has_room now l &&
                          bool_decide (t < now + ban_duration (ban_config l)))).
Proof.
  intros Hcap l'. subst l'. unfold record_violation. fold (over_threshold ip now l).
  destruct (attempt_ban_spec ip now (ban_config l) (bans l)) as (H1 & H2 & H3).
  destruct (over_threshold ip now l) eqn:Hover; simpl.
  - split_and!; [by apply H3|done|]. intros t Ht. rewrite andb_true_r. exact (H2 t Ht).
  - split_and!; [done..|]. intros t Ht. by rewrite andb_false_r, orb_false_r.
Qed.
End bans.
Arguments TempBanList IpAddr {_ _} : assert.

Lemma record_violation_spec_witness :
  let c := mkTempBanConfig 2 300 600 10 in
  let l := record_violation "ip" 0 (TempBanList_new c) in
  is_banned "ip" 0 l = false ∧ is_banned "ip" 605 (record_violation "ip" 10 l) = true ∧
  is_banned "ip" 610 (record_violation "ip" 10 l) = false.
Proof.
  intros c l. destruct (record_violation_spec "ip" 10 l) as (_ & _ & H); [vm_compute; discriminate|].
  split_and!; [reflexivity|rewrite (H 605 ltac:(lia)); reflexivity|rewrite (H 610 ltac:(lia)); reflexivity].
Defined.
End TempBan.

(** ** The global ceiling *)
Module GlobalLimiter.
(** [pack] and [unpack]. *)
Definition pack (epoch tokens : Z) : Z := Z.lor (Z.shiftl epoch 32) tokens.
Definition unpack (state : Z) : Z * Z := (wrap_u32 (Z.shiftr state 32), wrap_u32 state).

(** [GlobalRateLimiter::new] and [reconfigure]: the initial state of the cell. *)
Definition fresh (max_per_sec : Z) : Z := pack 0 max_per_sec.

(** What one pass of the loop in [allow] makes of a loaded state: the state to
    store, or a refusal. *)
Definition decide_state (max_per_sec now_epoch current : Z) : option Z :=
  let '(epoch, tokens) := unpack current in
  if bool_decide (epoch ≠ now_epoch) then Some (pack now_epoch (saturating_sub max_per_sec 1))
  else if bool_decide (tokens = 0) then None
  else Some (pack epoch (tokens - 1)).

(** [GlobalRateLimiter::allow] when no other thread interferes. *)
Definition allow (max_per_sec now_unix cell : Z) : bool * Z :=
  match decide_state max_per_sec (wrap_u32 now_unix) cell with
  | Some new_state => (true, new_state)
  | None => (false, cell)
  end.

(** The cell, the calls in flight (each with its second and the state it loaded),
    and the seconds of the admitted calls in the order of their stores. *)
Record Shared : Type := mkShared {
  cell : Z;
  in_flight : gmap nat (Z * Z);
  admitted : list Z
}.

(** The atomic steps of concurrent calls of [allow]. *)
Inductive step (max_per_sec : Z) : Shared → Shared → Prop :=
| step_load tid now_unix s :
    in_flight s !! tid = None →
    step max_per_sec s (mkShared (cell s) (<[tid := (wrap_u32 now_unix, cell s)]> (in_flight s)) (admitted s))
| step_refuse tid e current s :
    in_flight s !! tid = Some (e, current) → decide_state max_per_sec e current = None →
    step max_per_sec s (mkShared (cell s) (delete tid (in_flight s)) (admitted s))
| step_swap tid e current new_state s :
    in_flight s !! tid = Some (e, current) → decide_state max_per_sec e current = Some new_state →
    cell s = current →
    step max_per_sec s (mkShared new_state (delete tid (in_flight s)) (admitted s ++ [e]))
| step_retry tid e current new_state s :
    in_flight s !! tid = Some (e, current) → decide_state max_per_sec e current = Some new_state →
    step max_per_sec s (mkShared (cell s) (<[tid := (e, cell s)]> (in_flight s)) (admitted s)).

Lemma wrap_u32_range x : 0 ≤ wrap_u32 x < u32_modulus.
Proof. unfold wrap_u32, u32_modulus. apply Z.mod_pos_bound. lia. Qed.

Lemma unpack_pack e t : 0 ≤ e < u32_modulus → 0 ≤ t < u32_modulus → unpack (pack e t) = (e, t).
Proof.
  intros He Ht. unfold u32_modulus in *.
  assert (pack e t = e * 2 ^ 32 + t) as Hpack.
  { unfold pack. rewrite Z.shiftl_mul_pow2 by lia.
    rewrite Z.add_nocarry_lxor, <-Z.lxor_lor; [done|..].
    all: apply Z.bits_inj'; intros n Hn; rewrite Z.land_spec, Z.bits_0;
      destruct (Z.lt_ge_cases n 32);
      [rewrite Z.mul_pow2_bits_low by lia; done|];
      rewrite (Z.bits_above_log2 t), andb_false_r; [done|lia|];
      destruct (decide (t = 0)) as [->|]; [simpl; lia|];
      apply Z.log2_lt_pow2; [lia|]; apply Z.lt_le_trans with (2 ^ 32); [lia|];
      apply Z.pow_le_mono_r; lia. }
  unfold unpack, wrap_u32, u32_modulus. rewrite Hpack, Z.shiftr_div_pow2 by lia.
  rewrite Z.div_add_l, (Z.div_small t) by lia. rewrite (Z.add_0_r e), (Z.mod_small e) by lia.
  f_equal. rewrite Z.add_comm. change 4294967296 with (2 ^ 32). rewrite Z_mod_plus_full.
  apply Z.mod_small. lia.
Qed.

(** The number of admissions of a second. *)
Definition admissions (e : Z) (log : list Z) : Z := len (filter (λ x, x = e) log).

Lemma admissions_app e log e' : admissions e (log ++ [e']) = admissions e log + (if decide (e' = e) then 1 else 0).
Proof.
  unfold admissions. rewrite filter_app, length_app, filter_cons, filter_nil. case_decide; simpl; lia.
Qed.

Lemma sorted_snoc l x : StronglySorted Z.le (l ++ [x]) → StronglySorted Z.le l ∧ ∀ y, y ∈ l → y ≤ x.
Proof.
  induction l as [|y l IH]; simpl; intros Hs; [split; [constructor|set_solver]|].
  apply StronglySorted_inv in Hs as [Hs Hle]. rewrite Forall_app, Forall_cons in Hle.
  destruct Hle as (Hl & Hyx & _), (IH Hs) as [Hs' Hx]. split; [by constructor|].
  intros z [->|Hz]%elem_of_cons; auto.
Qed.

Record inv (max_per_sec : Z) (s : Shared) : Prop := mk_inv {
  inv_cell : ∃ e t, cell s = pack e t ∧ 0 ≤ e < u32_modulus ∧ 0 ≤ t < u32_modulus ∧
    (StronglySorted Z.le (admitted s) →
       admissions e (admitted s) + t ≤ 1 `max` max_per_sec ∧
       (∀ x, x ∈ admitted s → x ≤ e) ∧ (admitted s = [] ∨ e ∈ admitted s));
  inv_flight tid e current : in_flight s !! tid = Some (e, current) → 0 ≤ e < u32_modulus;
  inv_bound : StronglySorted Z.le (admitted s) → ∀ e, admissions e (admitted s) ≤ 1 `max` max_per_sec
}.

Lemma inv_swap max tid e new_state s :
  0 ≤ max < u32_modulus → inv max s → 0 ≤ e < u32_modulus →
  decide_state max e (cell s) = Some new_state →
  inv max (mkShared new_state (delete tid (in_flight s)) (admitted s ++ [e])).
Proof.
  intros Hmax [(e0 & t0 & Hcell & He0 & Ht0 & Hlog) Hfl Hb] He Hd.
  assert (∀ tid' e' c', delete tid (in_flight s) !! tid' = Some (e', c') → 0 ≤ e' < u32_modulus) as Hfl'.
  { intros tid' e' c' [_ Hl]%lookup_delete_Some. by eapply Hfl. }
  unfold decide_state in Hd. rewrite Hcell, unpack_pack in Hd by done.
  case_bool_decide as Hne; [injection Hd as <-|case_bool_decide as Hz; [done|injection Hd as <-]].
  - assert (0 ≤ saturating_sub max 1 < u32_modulus) as Hss by (unfold saturating_sub, u32_modulus in *; lia).
    assert (StronglySorted Z.le (admitted s ++ [e]) → admissions e (admitted s) = 0) as H0.
    { intros [Hs Hle]%sorted_snoc. destruct (Hlog Hs) as (_ & Hmaxe & Hin).
      unfold admissions. destruct (filter (λ x, x = e) (admitted s)) as [|x l] eqn:Ef; [done|]. exfalso.
      assert (x ∈ filter (λ x, x = e) (admitted s)) as Hx by (rewrite Ef; set_solver).
      apply list_elem_of_filter in Hx as [-> Hx]. destruct Hin as [Hnil|Hin0]; [rewrite Hnil in Hx; set_solver|].
      specialize (Hmaxe e Hx). specialize (Hle e0 Hin0). lia. }
    split; [|done|].
    + exists e, (saturating_sub max 1). split_and!; [done|lia..|]. intros Hs. cbn [admitted] in *.
      rewrite admissions_app, decide_True, (H0 Hs) by done. apply sorted_snoc in Hs as [_ Hle].
      split_and!; [unfold saturating_sub; lia| |right; set_solver].
      intros x [Hx| ->%list_elem_of_singleton]%elem_of_app; [by apply Hle|lia].
    + intros Hs x. cbn [admitted] in *. rewrite admissions_app. case_decide; [subst; rewrite (H0 Hs); lia|].
      apply sorted_snoc in Hs as [Hs _]. specialize (Hb Hs x). lia.
  - assert (e0 = e) as -> by done. split; [|done|].
    + exists e, (t0 - 1). split_and!; [done|lia..|]. intros Hs. cbn [admitted] in *.
      rewrite admissions_app, decide_True by done. apply sorted_snoc in Hs as [Hs Hle].
      destruct (Hlog Hs) as (Hc & Hmaxe & Hin). split_and!; [lia| |right; set_solver].
      intros x [Hx| ->%list_elem_of_singleton]%elem_of_app; [by apply Hle|lia].
    + intros Hs x. cbn [admitted] in *. rewrite admissions_app.
      apply sorted_snoc in Hs as [Hs _]. destruct (Hlog Hs) as (Hc & _ & _). specialize (Hb Hs x).
      case_decide; [subst; lia|lia].
Qed.

Lemma step_inv max s s' : 0 ≤ max < u32_modulus → step max s s' → inv max s → inv max s'.
Proof.
  intros Hmax Hstep Hi. destruct Hstep as [tid now s Hn|tid e c s Hl Hd|tid e c n s Hl Hd Hc|tid e c n s Hl Hd].
  - destruct Hi as [H1 H2 H3]. split; [done| |done]. intros tid' e c. simpl.
    rewrite lookup_insert_Some. intros [[_ [= <- <-]]|[_ Hl]]; [apply wrap_u32_range|by eapply H2].
  - destruct Hi as [H1 H2 H3]. split; [done| |done]. intros tid' e' c'. simpl.
    rewrite lookup_delete_Some. intros [_ Hl']. by eapply H2.
  - subst c. eapply inv_swap; [done..|by eapply (inv_flight _ _ Hi)|done].
  - pose proof (inv_flight _ _ Hi _ _ _ Hl) as He. destruct Hi as [H1 H2 H3].
    split; [done| |done]. intros tid' e' c'. simpl.
    rewrite lookup_insert_Some. intros [[_ [= <- <-]]|[_ Hl']]; [done|by eapply H2].
Qed.

(** C39: Under any interleaving of concurrent calls, with spurious failures of the
    weak compare-and-swap, at most [max_per_sec] calls (one if it is zero) are
    admitted for a second, as long as calls of an earlier second do not store
    after calls of a later one. *)
Theorem global_ceiling max s :
  0 ≤ max < u32_modulus → rtc (step max) (mkShared (fresh max) ∅ []) s →
  StronglySorted Z.le (admitted s) → ∀ e, admissions e (admitted s) ≤ 1 `max` max.
Proof.
  intros Hmax Hrun. assert (inv max s) as [_ _ Hb]; [|done].
  apply (rtc_invariant (step max) (inv max) (mkShared (fresh max) ∅ [])); [intros a b; by apply step_inv|done|].
  split; [|intros tid e c Hl; discriminate Hl|unfold admissions; simpl; lia].
  exists 0, max. split_and!; [done|unfold u32_modulus in *; lia..|].
  intros _. split_and!; [unfold admissions; simpl; lia|set_solver|by left].
Qed.

(** One call that loads and stores undisturbed. *)
Lemma call_run max now s :
  in_flight s = ∅ →
  ∀ n, decide_state max (wrap_u32 now) (cell s) = Some n →
  rtc (step max) s (mkShared n ∅ (admitted s ++ [wrap_u32 now])).
Proof.
  intros Hf n Hd. eapply rtc_l; [apply (step_load max 0 now); by rewrite Hf|].
  eapply rtc_l; [eapply (step_swap max 0); [apply lookup_insert_eq|exact Hd|done]|].
  simpl. rewrite Hf, delete_insert_id by done. apply rtc_refl.
Qed.

(** A call that read the clock one second earlier resets the bucket for a second
    that is already over, and the next call resets it again: with a ceiling of
    one, three calls are admitted, two of them for the same second. *)
Theorem late_call_refills :
  ∃ s, rtc (step 1) (mkShared (fresh 1) ∅ []) s ∧ admitted s = [11; 10; 11].
Proof.
  eexists. split.
  - etrans; [apply (call_run 1 11); [done|reflexivity]|].
    etrans; [apply (call_run 1 10); [done|reflexivity]|].
    apply (call_run 1 11); [done|reflexivity].
  - reflexivity.
Qed.
End GlobalLimiter.

Lemma global_ceiling_witness :
  ∃ s, rtc (GlobalLimiter.step 2) (GlobalLimiter.mkShared (GlobalLimiter.fresh 2) ∅ []) s ∧
    GlobalLimiter.admitted s = [7; 7] ∧ GlobalLimiter.admissions 7 (GlobalLimiter.admitted s) ≤ 2.
Proof.
  eexists. assert (rtc (GlobalLimiter.step 2) (GlobalLimiter.mkShared (GlobalLimiter.fresh 2) ∅ [])
    (GlobalLimiter.mkShared (GlobalLimiter.pack 7 0) ∅ [7; 7])) as Hrun.
  { etrans; [apply (GlobalLimiter.call_run 2 7); [done|reflexivity]|].
    apply (GlobalLimiter.call_run 2 7); [done|reflexivity]. }
  split_and!; [exact Hrun|reflexivity|].
  apply (GlobalLimiter.global_ceiling 2 _ ltac:(unfold u32_modulus; lia) Hrun).
  simpl. repeat first [lia | constructor].
Defined.
