(* ===== verification/WsTicket.v ===== *)
(** * WebSocket pre-auth tickets (wavis-backend/src/auth/ws_ticket.rs)

    Short-lived, one-use tickets that carry an authenticated identity into the
    WebSocket upgrade.  The keyed hash (HMAC-SHA256 of the hmac and sha2 crates)
    is a parameter; the drawn ticket is an argument of [issue]. *)

From S2P Require Import Prelude.
Local Open Scope Z_scope.

(** [TICKET_TTL_SECS]. *)
Definition TICKET_TTL_SECS : Z := 60.

Module TicketErr.
(** [WsTicketError]. *)
Inductive WsTicketError : Type :=
| NotFound
| Expired
| AlreadyConsumed.
End TicketErr.
Abbreviation WsTicketError := TicketErr.WsTicketError.

Section tickets.
Context {Uuid : Type}.
(** The HMAC of a raw ticket under the pepper. *)
Context (hmac_sha256 : string → string → string).

(** [TicketRecord]. *)
Record TicketRecord : Type := mkTicketRecord {
  tr_user_id : Uuid;
  tr_device_id : Uuid;
  tr_expires_at : Instant;
  tr_consumed : bool
}.

(** [WsTicketStore]. *)
Record WsTicketStore : Type := mkWsTicketStore {
  tickets : gmap string TicketRecord;
  pepper : string;
  ttl : Duration
}.

Definition set_tickets (f : gmap string TicketRecord → gmap string TicketRecord) (s : WsTicketStore)
    : WsTicketStore := mkWsTicketStore (f (tickets s)) (pepper s) (ttl s).

(** [hash_ticket]. *)
Definition hash_ticket (raw_ticket pepper : string) : string := hmac_sha256 pepper raw_ticket.

(** [WsTicketStore::with_clock]. *)
Definition WsTicketStore_new (pepper : string) : WsTicketStore :=
  mkWsTicketStore ∅ pepper (from_secs TICKET_TTL_SECS).

(** [WsTicketStore::issue]; [raw] is the drawn ticket. *)
Definition issue (raw : string) (user_id device_id : Uuid) (now : Instant) (s : WsTicketStore)
    : string * WsTicketStore :=
  (raw, set_tickets
    <[hash_ticket raw (pepper s) := mkTicketRecord user_id device_id (now + ttl s) false]> s).

(** [WsTicketStore::validate_and_consume]. *)
Definition validate_and_consume (raw_ticket : string) (now : Instant) (s : WsTicketStore)
    : Result (Uuid * Uuid) WsTicketError * WsTicketStore :=
  let hash := hash_ticket raw_ticket (pepper s) in
  match tickets s !! hash with
  | None => (Err TicketErr.NotFound, s)
  | Some r =>
      if tr_consumed r then (Err TicketErr.AlreadyConsumed, s)
      else if bool_decide (tr_expires_at r ≤ now) then (Err TicketErr.Expired, s)
      else (Ok (tr_user_id r, tr_device_id r),
            set_tickets <[hash := mkTicketRecord (tr_user_id r) (tr_device_id r) (tr_expires_at r) true]> s)
  end.

(** [WsTicketStore::prune_expired]. *)
Definition prune_expired (now : Instant) (s : WsTicketStore) : Z * WsTicketStore :=
  let m := filter (λ p, tr_consumed p.2 = false ∧ now < tr_expires_at p.2) (tickets s) in
  (map_len (tickets s) - map_len m, set_tickets (λ _, m) s).

(** ** Histories *)

Inductive TicketOp : Type :=
| OpIssue (raw : string) (user_id device_id : Uuid) (now : Instant)
| OpConsume (raw : string) (now : Instant)
| OpPrune (now : Instant).

(** An issued ticket, and a successful use of one. *)
Record Issued : Type := mkIssued { is_raw : string; is_user : Uuid; is_device : Uuid; is_at : Instant }.
Record Used : Type := mkUsed { us_raw : string; us_user : Uuid; us_device : Uuid; us_at : Instant }.

(** The store with what has been issued and used so far. *)
Record History : Type := mkHistory {
  store : WsTicketStore;
  issued : list Issued;
  used : list Used
}.

Definition run_op (h : History) (op : TicketOp) : History :=
  match op with
  | OpIssue raw u d now =>
      mkHistory (issue raw u d now (store h)).2 (issued h ++ [mkIssued raw u d now]) (used h)
  | OpConsume raw now =>
      let '(res, s) := validate_and_consume raw now (store h) in
      mkHistory s (issued h)
        (match res with Ok (u, d) => used h ++ [mkUsed raw u d now] | Err _ => used h end)
  | OpPrune now => mkHistory (prune_expired now (store h)).2 (issued h) (used h)
  end.
Definition run (p : string) (ops : list TicketOp) : History :=
  foldl run_op (mkHistory (WsTicketStore_new p) [] []) ops.

(** The hash under which a ticket is kept. *)
Definition key (p : string) (raw : string) : string := hash_ticket raw p.

(** The use [u] is covered by the issue [i]. *)
Definition covers (p : string) (i : Issued) (u : Used) : Prop :=
  key p (is_raw i) = key p (us_raw u) ∧ is_user i = us_user u ∧ is_device i = us_device u ∧
  us_at u < is_at i + from_secs TICKET_TTL_SECS.

Record hist_inv (p : string) (h : History) : Prop := mk_hist_inv {
  hi_pepper : pepper (store h) = p ∧ ttl (store h) = from_secs TICKET_TTL_SECS;
  hi_records k r : tickets (store h) !! k = Some r → ∃ i, i ∈ issued h ∧ key p (is_raw i) = k ∧
    is_user i = tr_user_id r ∧ is_device i = tr_device_id r ∧
    tr_expires_at r = is_at i + from_secs TICKET_TTL_SECS;
  hi_used_consumed u r : u ∈ used h → tickets (store h) !! key p (us_raw u) = Some r → tr_consumed r = true;
  hi_covered u : u ∈ used h → ∃ i, i ∈ issued h ∧ covers p i u;
  hi_once : NoDup (map (λ u, key p (us_raw u)) (used h))
}.

Lemma key_of_used p h k : k ∈ map (λ u, key p (us_raw u)) (used h) ↔ ∃ u, u ∈ used h ∧ key p (us_raw u) = k.
Proof. rewrite list_elem_of_fmap. naive_solver. Qed.

Lemma run_op_inv p h op :
  (∀ raw u d now, op = OpIssue raw u d now → key p raw ∉ map (λ i, key p (is_raw i)) (issued h)) →
  hist_inv p h → hist_inv p (run_op h op).
Proof.
  intros Hnew [[Hp Ht] H2 H3 H4 H5]. destruct op as [raw u d now|raw now|now]; simpl.
  - specialize (Hnew raw u d now eq_refl).
    assert (∀ u', u' ∈ used h → key p (us_raw u') ≠ key p raw) as Hfresh.
    { intros u' Hu' Heq. apply Hnew. destruct (H4 u' Hu') as (i & Hi & Hk & _).
      apply list_elem_of_fmap. exists i. split; [congruence|done]. }
    split; simpl; [done|..|done].
    + intros k r. rewrite Hp. rewrite lookup_insert_Some.
      intros [[<- <-]|[_ Hr]]; simpl.
      * eexists. split; [apply elem_of_app; right; by apply list_elem_of_singleton|]. simpl. by rewrite Ht.
      * destruct (H2 k r Hr) as (i & Hi & ?). exists i. split; [set_solver|done].
    + intros u' r Hu'. rewrite Hp, lookup_insert_ne; [by apply H3|]. intros Heq. by eapply Hfresh.
    + intros u' Hu'. destruct (H4 u' Hu') as (i & Hi & ?). exists i. split; [set_solver|done].
  - unfold validate_and_consume. rewrite Hp. fold (key p raw).
    destruct (tickets (store h) !! key p raw) as [r|] eqn:Er; [|by split].
    destruct (tr_consumed r) eqn:Ec; [by split|]. case_bool_decide as He; [by split|].
    destruct (H2 _ _ Er) as (i & Hi & Hk & Hu & Hd & Hx).
    assert (∀ u', u' ∈ used h → key p (us_raw u') ≠ key p raw) as Hfresh.
    { intros u' Hu' Heq. specialize (H3 u' r Hu'). rewrite Heq in H3. rewrite (H3 Er) in Ec. done. }
    split; simpl; [done|..].
    + intros k r'. rewrite lookup_insert_Some. intros [[<- <-]|[_ Hr]]; [by exists i|by apply H2].
    + intros u' r' [Hu'| ->%list_elem_of_singleton]%elem_of_app.
      * rewrite lookup_insert_ne by (intros Heq; by eapply Hfresh). by apply H3.
      * simpl. rewrite lookup_insert_eq. by intros [= <-].
    + intros u' [Hu'| ->%list_elem_of_singleton]%elem_of_app; [by apply H4|].
      exists i. split; [done|]. split_and!; simpl; [done..|lia].
    + rewrite map_app. apply NoDup_app. split_and!; [done| |apply NoDup_singleton].
      intros k Hk' ->%list_elem_of_singleton. apply key_of_used in Hk' as (u' & Hu' & Heq). by eapply Hfresh.
  - split; simpl; [done|..|done|done].
    + intros k r [Hr _]%map_lookup_filter_Some. by apply H2.
    + intros u r Hu [Hr _]%map_lookup_filter_Some. by eapply H3.
Qed.

(** No two issued tickets of a history have the same hash. *)
Definition issues_distinct (p : string) (ops : list TicketOp) : Prop :=
  NoDup (omap (λ op, match op with OpIssue raw _ _ _ => Some (key p raw) | _ => None end) ops).

Lemma run_issued p ops :
  map (λ i, key p (is_raw i)) (issued (run p ops)) =
  omap (λ op, match op with OpIssue raw _ _ _ => Some (key p raw) | _ => None end) ops.
Proof.
  unfold run. induction ops as [|op ops IH] using rev_ind; [done|].
  rewrite foldl_app, omap_app, <-IH. simpl. destruct op as [raw u d now|raw now|now]; simpl.
  - by rewrite map_app.
  - destruct (validate_and_consume _ _ _) as [[[]|] s]; simpl; by rewrite app_nil_r.
  - by rewrite app_nil_r.
Qed.

Lemma run_inv p ops : issues_distinct p ops → hist_inv p (run p ops).
Proof.
  induction ops as [|op ops IH] using rev_ind; intros Hd.
  - split; simpl; [done|..|constructor]; try set_solver.
  - unfold run. rewrite foldl_app. simpl. fold (run p ops).
    unfold issues_distinct in Hd. rewrite omap_app in Hd. apply NoDup_app in Hd as (Hd1 & Hd2 & _).
    apply run_op_inv; [|by apply IH]. intros raw u d now ->. rewrite run_issued. intros Hin.
    apply (Hd2 _ Hin). simpl. set_solver.
Qed.

(** C38: A ticket admits one connection.  Through any history of issues, uses and
    prunes in which the drawn tickets have distinct hashes, every successful use
    presents a ticket that was issued, returns exactly the user and device it was
    issued to, happens less than sixty seconds after the issue, and no ticket is
    used twice. *)
Theorem ws_ticket_single_use p ops :
  issues_distinct p ops →
  NoDup (map (λ u, key p (us_raw u)) (used (run p ops))) ∧
  ∀ u, u ∈ used (run p ops) → ∃ i, i ∈ issued (run p ops) ∧ covers p i u.
Proof. intros Hd. pose proof (run_inv p ops Hd) as [_ _ _ H4 H5]. done. Qed.
End tickets.

(** Two tickets, one of them presented twice and one too late. *)
Module TicketDemo.
Definition mac (k m : string) : string := k +:+ ":" +:+ m.
Definition ops : list (TicketOp (Uuid:=Z)) :=
  [OpIssue "t1" 1 10 0; OpIssue "t2" 2 20 0; OpConsume "t1" 5; OpConsume "t1" 6;
   OpPrune 7; OpConsume "t1" 8; OpConsume "t2" (from_secs 60)].
End TicketDemo.

Lemma ws_ticket_single_use_witness :
  used (run TicketDemo.mac "pepper" TicketDemo.ops) = [mkUsed "t1" 1 10 5] ∧
  ∃ i, i ∈ issued (run TicketDemo.mac "pepper" TicketDemo.ops) ∧
    covers TicketDemo.mac "pepper" i (mkUsed "t1" 1 10 5).
Proof.
  destruct (ws_ticket_single_use TicketDemo.mac "pepper" TicketDemo.ops) as [_ H].
  - apply (bool_decide_eq_true_1 _). vm_compute. reflexivity.
  - split; [vm_compute; reflexivity|]. apply H. vm_compute. left.
Defined.
