(* ===== verification/WsLimits.v ===== *)
(** * Per-connection WebSocket limits (wavis-backend/src/ws/ws_rate_limit.rs)

    The fixed-window counters of a connection and the check of the nesting depth
    of an incoming JSON text.  Every counter is a [u32]; [now] is the clock read
    of the call. *)

From S2P Require Import Prelude.
From Stdlib Require Import Ascii.
Local Open Scope Z_scope.

(** [WsRateLimitConfig]. *)
Record WsRateLimitConfig : Type := mkWsRateLimitConfig {
  ws_window : Duration;
  max_messages : Z;
  burst_max : Z;
  burst_window : Duration;
  action_max : Z;
  action_window : Duration;
  deafen_max : Z;
  deafen_window : Duration;
  max_json_depth : Z
}.

(** A start time and a count: one of the limiter's four counters. *)
Record Counter : Type := mkCounter { start : Instant; hits : Z }.

(** [WsRateLimiter]. *)
Record WsRateLimiter : Type := mkWsRateLimiter {
  messages : Counter;
  bursts : Counter;
  actions : Counter;
  deafens : Counter;
  limits : WsRateLimitConfig
}.

(** [WsRateLimiter::new]. *)
Definition WsRateLimiter_new (c : WsRateLimitConfig) (now : Instant) : WsRateLimiter :=
  let z := mkCounter now 0 in mkWsRateLimiter z z z z c.

(** The body the four [allow] methods share: restart an elapsed window, count the
    call, compare. *)
Definition tick (w : Duration) (max : Z) (now : Instant) (c : Counter) : bool * Counter :=
  let c := if bool_decide (w < duration_since now (start c)) then mkCounter now 0 else c in
  let n := wrap_u32 (hits c + 1) in
  (bool_decide (n ≤ max), mkCounter (start c) n).

(** [WsRateLimiter::allow], [burst_allow], [action_allow], [deafen_allow]. *)
Definition allow (now : Instant) (l : WsRateLimiter) : bool * WsRateLimiter :=
  let '(ok, c) := tick (ws_window (limits l)) (max_messages (limits l)) now (messages l) in
  (ok, mkWsRateLimiter c (bursts l) (actions l) (deafens l) (limits l)).
Definition burst_allow (now : Instant) (l : WsRateLimiter) : bool * WsRateLimiter :=
  let '(ok, c) := tick (from_secs 1) (burst_max (limits l)) now (bursts l) in
  (ok, mkWsRateLimiter (messages l) c (actions l) (deafens l) (limits l)).
Definition action_allow (now : Instant) (l : WsRateLimiter) : bool * WsRateLimiter :=
  let '(ok, c) := tick (action_window (limits l)) (action_max (limits l)) now (actions l) in
  (ok, mkWsRateLimiter (messages l) (bursts l) c (deafens l) (limits l)).
Definition deafen_allow (now : Instant) (l : WsRateLimiter) : bool * WsRateLimiter :=
  let '(ok, c) := tick (deafen_window (limits l)) (deafen_max (limits l)) now (deafens l) in
  (ok, mkWsRateLimiter (messages l) (bursts l) (actions l) c (limits l)).

(** [WsRateLimiter::refund]. *)
Definition refund (l : WsRateLimiter) : WsRateLimiter :=
  let back c := mkCounter (start c) (saturating_sub (hits c) 1) in
  mkWsRateLimiter (back (messages l)) (back (bursts l)) (actions l) (deafens l) (limits l).

(** ** [check_json_depth] *)

(** The bytes the scan distinguishes. *)
Definition quote : ascii := "034"%char.
Definition backslash : ascii := "092"%char.
Definition is_open (c : ascii) : bool := Ascii.eqb c "{"%char || Ascii.eqb c "["%char.
Definition is_close (c : ascii) : bool := Ascii.eqb c "}"%char || Ascii.eqb c "]"%char.

(** The loop over the bytes. *)
Fixpoint scan (max_depth depth : Z) (in_string escaped : bool) (text : list ascii) : bool :=
  match text with
  | [] => true
  | byte :: rest =>
      if escaped then scan max_depth depth in_string false rest
      else if in_string then
        if Ascii.eqb byte backslash then scan max_depth depth true true rest
        else if Ascii.eqb byte quote then scan max_depth depth false false rest
        else scan max_depth depth true false rest
      else if Ascii.eqb byte quote then scan max_depth depth true false rest
      else if is_open byte then
        let depth := wrap_u32 (depth + 1) in
        if bool_decide (max_depth < depth) then false else scan max_depth depth false false rest
      else if is_close byte then scan max_depth (saturating_sub depth 1) false false rest
      else scan max_depth depth false false rest
  end.
Definition check_json_depth (text : list ascii) (max_depth : Z) : bool := scan max_depth 0 false false text.

(** ** The depth of a text *)

(** A character of a string literal: a plain byte, or a backslash and the byte it
    escapes. *)
Inductive StrItem : Type :=
| Plain (c : ascii)
| Escape (c : ascii).
Definition item_ok (i : StrItem) : Prop :=
  match i with Plain c => c ≠ quote ∧ c ≠ backslash | Escape _ => True end.
Definition item_text (i : StrItem) : list ascii :=
  match i with Plain c => [c] | Escape c => [backslash; c] end.
Definition literal (items : list StrItem) : list ascii := quote :: (items ≫= item_text) ++ [quote].

Definition neutral (c : ascii) : Prop := c ≠ quote ∧ is_open c = false ∧ is_close c = false.

(** [nested d text]: the brackets outside string literals match up and nest [d] deep. *)
Inductive nested : Z → list ascii → Prop :=
| nested_nil : nested 0 []
| nested_byte c : neutral c → nested 0 [c]
| nested_literal items : Forall item_ok items → nested 0 (literal items)
| nested_app d1 d2 t1 t2 : nested d1 t1 → nested d2 t2 → nested (d1 `max` d2) (t1 ++ t2)
| nested_bracket o c d t : is_open o = true → is_close c = true → nested d t →
    nested (d + 1) (o :: t ++ [c]).

Lemma nested_nonneg d t : nested d t → 0 ≤ d.
Proof. induction 1; lia. Qed.

Lemma scan_literal max depth items rest :
  Forall item_ok items →
  scan max depth true false ((items ≫= item_text) ++ quote :: rest) = scan max depth false false rest.
Proof.
  induction 1 as [|[c|c] items Hi _ IH]; simpl; [done| |exact IH].
  destruct Hi as [Hq Hb]. apply Ascii.eqb_neq in Hq, Hb. by rewrite Hb, Hq.
Qed.

Lemma open_not_quote c : is_open c = true → Ascii.eqb c quote = false.
Proof. unfold is_open. intros [->%Ascii.eqb_eq| ->%Ascii.eqb_eq]%orb_true_iff; done. Qed.
Lemma close_not_quote c : is_close c = true → Ascii.eqb c quote = false ∧ is_open c = false.
Proof. unfold is_close. intros [->%Ascii.eqb_eq| ->%Ascii.eqb_eq]%orb_true_iff; done. Qed.

Lemma scan_nested max d t :
  max + 1 < u32_modulus → nested d t →
  ∀ depth rest, 0 ≤ depth ≤ max →
  scan max depth false false (t ++ rest) =
    if bool_decide (depth + d ≤ max) then scan max depth false false rest else false.
Proof.
  intros Hmax Hn. induction Hn as [|c (Hq & Ho & Hc)|items Hi|d1 d2 t1 t2 H1 IH1 H2 IH2|o c d t Ho Hc Hn IH];
    intros depth rest Hd.
  - by rewrite bool_decide_true by lia.
  - simpl. apply Ascii.eqb_neq in Hq. rewrite Hq, Ho, Hc. by rewrite bool_decide_true by lia.
  - unfold literal. rewrite <-app_comm_cons, <-app_assoc. simpl. rewrite scan_literal by done.
    by rewrite bool_decide_true by lia.
  - rewrite <-app_assoc, IH1, IH2 by done. pose proof (nested_nonneg _ _ H1). pose proof (nested_nonneg _ _ H2).
    repeat case_bool_decide; try done; lia.
  - pose proof (nested_nonneg _ _ Hn). destruct (close_not_quote c Hc) as [Hcq Hco].
    rewrite <-app_comm_cons, <-app_assoc. cbn [scan app]. rewrite (open_not_quote o Ho), Ho.
    assert (wrap_u32 (depth + 1) = depth + 1) as -> by (unfold wrap_u32; apply Z.mod_small; lia).
    cbv zeta. case_bool_decide; [by rewrite bool_decide_false by lia|].
    rewrite IH by lia. replace (depth + 1 + d) with (depth + (d + 1)) by lia.
    case_bool_decide; [|done]. cbn [scan app]. rewrite Hcq, Hco, Hc.
    replace (saturating_sub (depth + 1) 1) with depth by (unfold saturating_sub; lia). done.
Qed.

(** ** JSON values *)

(** A number or a name is a sequence of neutral bytes. *)
Inductive json : Type :=
| JAtom (s : list ascii)
| JString (items : list StrItem)
| JArray (l : list json)
| JObject (l : list (list StrItem * json)).

Lemma json_rect_nested (P : json → Prop) :
  (∀ s, P (JAtom s)) → (∀ items, P (JString items)) →
  (∀ l, Forall P l → P (JArray l)) → (∀ l, Forall (λ kv, P kv.2) l → P (JObject l)) → ∀ v, P v.
Proof.
  intros H1 H2 H3 H4. fix IH 1. intros [s|items|l|l]; [apply H1|apply H2|apply H3|apply H4].
  - induction l; constructor; [apply IH|done].
  - induction l as [|[k v] l IHl]; constructor; [apply IH|done].
Qed.

Fixpoint json_ok (v : json) : Prop :=
  match v with
  | JAtom s => Forall neutral s
  | JString items => Forall item_ok items
  | JArray l => foldr (λ v P, json_ok v ∧ P) True l
  | JObject l => foldr (λ '(k, v) P, (Forall item_ok k ∧ json_ok v) ∧ P) True l
  end.

(** Brackets nest as deep as arrays and objects do. *)
Fixpoint json_depth (v : json) : Z :=
  match v with
  | JAtom _ | JString _ => 0
  | JArray l => foldr Z.max 0 (map json_depth l) + 1
  | JObject l => foldr Z.max 0 (map (λ '(_, v), json_depth v) l) + 1
  end.

(** The texts with commas between them. *)
Fixpoint join (l : list (list ascii)) : list ascii :=
  match l with
  | [] => []
  | [t] => t
  | t :: l' => t ++ [","%char] ++ join l'
  end.

Fixpoint print (v : json) : list ascii :=
  match v with
  | JAtom s => s
  | JString items => literal items
  | JArray l => "["%char :: join (map print l) ++ ["]"%char]
  | JObject l => "{"%char :: join (map (λ '(k, v), literal k ++ [":"%char] ++ print v) l) ++ ["}"%char]
  end.

Lemma nested_atom s : Forall neutral s → nested 0 s.
Proof.
  induction 1 as [|c s Hc _ IH]; [constructor|].
  apply (nested_app 0 0 [c] s); [by constructor|done].
Qed.

Lemma nested_join {A} (f : A → Z) (g : A → list ascii) l :
  (∀ x, x ∈ l → nested (f x) (g x)) → nested (foldr Z.max 0 (map f l)) (join (map g l)).
Proof.
  induction l as [|x l IH]; intros Hl; [constructor|]. cbn [map foldr].
  assert (nested (f x) (g x)) as Hx by (apply Hl; by left).
  assert (nested (foldr Z.max 0 (map f l)) (join (map g l))) as Hrest
    by (apply IH; intros y Hy; apply Hl; by right).
  destruct l as [|y l].
  - pose proof (nested_nonneg _ _ Hx). simpl. by replace (f x `max` 0) with (f x) by lia.
  - change (join (g x :: map g (y :: l))) with (g x ++ [","%char] ++ join (map g (y :: l))).
    apply nested_app; [done|]. pose proof (nested_nonneg _ _ Hrest).
    replace (foldr Z.max 0 (map f (y :: l))) with (0 `max` foldr Z.max 0 (map f (y :: l))) by lia.
    apply (nested_app 0 _ [","%char]); [by constructor|done].
Qed.

Lemma print_nested v : json_ok v → nested (json_depth v) (print v).
Proof.
  induction v as [s|items|l IH|l IH] using json_rect_nested; intros Hok; cbn [print json_depth].
  - by apply nested_atom.
  - by apply nested_literal.
  - apply nested_bracket; [done..|]. apply nested_join. intros v Hv.
    induction l as [|v' l IHl]; [by apply not_elem_of_nil in Hv|].
    apply Forall_cons in IH as [Hv' IH]. destruct Hok as [Hok' Hok].
    apply elem_of_cons in Hv as [->|Hv]; [by apply Hv'|by apply IHl].
  - apply nested_bracket; [done..|]. apply nested_join. intros [k v] Hv.
    assert (Forall item_ok k ∧ nested (json_depth v) (print v)) as [Hk Hn].
    { induction l as [|[k' v'] l IHl]; [by apply not_elem_of_nil in Hv|].
      apply Forall_cons in IH as [Hv' IH]. destruct Hok as [[Hk' Hok'] Hok].
      apply elem_of_cons in Hv as [[= -> ->]|Hv]; [split; [done|by apply Hv']|by apply IHl]. }
    pose proof (nested_nonneg _ _ Hn).
    replace (json_depth v) with (0 `max` (0 `max` json_depth v)) by lia.
    apply nested_app; [by apply nested_literal|]. apply (nested_app 0 _ [":"%char]); [by constructor|done].
Qed.

(** The depth guard is exact.  The text of a JSON value passes if and only if
    its arrays and objects nest at most [max_depth] deep, whatever its strings
    contain: brackets, quotes and backslashes inside string literals, escaped in
    any way, do not count. *)
Theorem check_json_depth_exact v max_depth :
  json_ok v → 0 ≤ max_depth → max_depth + 1 < u32_modulus →
  check_json_depth (print v) max_depth = bool_decide (json_depth v ≤ max_depth).
Proof.
  intros Hok H0 Hmax. unfold check_json_depth. rewrite <-(app_nil_r (print v)).
  rewrite (scan_nested max_depth (json_depth v)); [|done|by apply print_nested|lia].
  simpl. rewrite Z.add_0_l. by case_bool_decide.
Qed.

Lemma check_json_depth_exact_witness :
  let v := JObject [([Plain "a"%char], JArray [JString [Escape quote; Plain "["%char]; JAtom ["1"%char]])] in
  check_json_depth (print v) 2 = true ∧ check_json_depth (print v) 1 = false.
Proof.
  intros v. assert (json_ok v) as Hv.
  { cbn. unfold neutral. repeat split; repeat constructor; discriminate. }
  split; (rewrite (check_json_depth_exact v); [reflexivity|exact Hv|lia|reflexivity]).
Defined.
