(* ===== verification/Database.v ===== *)
(** * Database access (sqlx statements and transactions)

    The database-backed modules issue numbered statements, one after the other,
    on a pool or in a transaction.  A statement is a function of the tables; it
    answers, or reports the constraint it would violate and changes nothing.
    Besides, every statement can fail for a reason of its own (a lost
    connection, a timeout): the oracle [Io] says which ones do, and whether the
    change was nevertheless made, as when the answer to a commit is lost. *)

From S2P Require Import Prelude.

(** A failed call: the text of the error, and whether the change was made. *)
Record Failure : Type := mkFailure {
  f_reason : string;
  f_applied : bool
}.

(** Which statements of an operation fail, by their position in it. *)
Abbreviation Io := (nat → option Failure) (only parsing).

Definition no_failure : Io := λ _, None.

(** No statement fails after its change was made. *)
Definition clean (io : Io) : Prop := ∀ k f, io k = Some f → f_applied f = false.

Section database.
Context {S E : Type} (database_error : string → E).

(** [fetch_optional], [fetch_all] of a [SELECT]. *)
Definition fetch {A} (io : Io) (k : nat) (q : S → A) : M S E A := λ s,
  match io k with
  | None => (Ok (q s), s)
  | Some f => (Err (database_error (f_reason f)), s)
  end.

(** [execute] and [fetch_one] of a statement that writes, outside a transaction. *)
Definition execute {A} (io : Io) (k : nat) (stmt : S → Result A string * S) : M S E A := λ s,
  match io k with
  | None => let '(r, s') := stmt s in (map_err database_error r, s')
  | Some f => (Err (database_error (f_reason f)), if f_applied f then (stmt s).2 else s)
  end.

(** [pool.begin()], the body, [tx.commit()].  An error of the body, or a panic,
    drops the transaction, which rolls it back. *)
Definition in_tx {A} (io : Io) (k_begin k_commit : nat) (body : M S E A) : M S E A := λ s,
  match io k_begin with
  | Some f => (Err (database_error (f_reason f)), s)
  | None =>
      match body s with
      | (Err e, _) => (Err e, s)
      | (Ok a, s') =>
          match io k_commit with
          | None => (Ok a, s')
          | Some f => (Err (database_error (f_reason f)), if f_applied f then s' else s)
          end
      end
  end.

(** ** Rules *)

(** What a run that ends well establishes. *)
Definition establishes {A} (I J : S → Prop) (m : M S E A) : Prop :=
  ∀ s a s', I s → m s = (Ok a, s') → J s'.

(** The program leaves the tables alone. *)
Definition readonly {A} (m : M S E A) : Prop := ∀ s, (m s).2 = s.

(** A program that fails has changed nothing. *)
Definition all_or_nothing {A} (m : M S E A) : Prop := ∀ s e s', m s = (Err e, s') → s' = s.

Lemma readonly_fetch {A} io k (q : S → A) : readonly (fetch io k q).
Proof. intros s. unfold fetch. by destruct (io k). Qed.
Lemma readonly_mret {A} (a : A) : readonly (mret a).
Proof. by intros s. Qed.
Lemma readonly_throw {A} (e : E) : readonly (A:=A) (throw e).
Proof. by intros s. Qed.
Lemma readonly_lift_result {A} (r : Result A E) : readonly (lift_result r).
Proof. by intros s. Qed.
Lemma readonly_bind {A B} (m : M S E A) (k : A → M S E B) :
  readonly m → (∀ a, readonly (k a)) → readonly (mbind_ m k).
Proof.
  intros Hm Hk s. unfold mbind_. specialize (Hm s). destruct (m s) as [[a|e] s']; simpl in *; [|done].
  by rewrite Hk.
Qed.

Lemma readonly_preserves {A} I (m : M S E A) : readonly m → preserves I m.
Proof. intros Hm s Hs. by rewrite Hm. Qed.
Lemma readonly_all_or_nothing {A} (m : M S E A) : readonly m → all_or_nothing m.
Proof. intros Hm s e s' Hrun. specialize (Hm s). by rewrite Hrun in Hm. Qed.

Lemma preserves_execute {A} (I : S → Prop) io k (stmt : S → Result A string * S) :
  (∀ s, I s → I (stmt s).2) → preserves I (execute io k stmt).
Proof.
  intros Hs s Hi. unfold execute. specialize (Hs s Hi).
  destruct (io k) as [[e []]|]; [done..|]. by destruct (stmt s).
Qed.

Lemma preserves_in_tx {A} (I : S → Prop) io k1 k2 (m : M S E A) :
  establishes I I m → preserves I (in_tx io k1 k2 m).
Proof.
  intros Hm s Hi. unfold in_tx. destruct (io k1); [done|].
  destruct (m s) as [[a|e] s'] eqn:Hrun; [|done]. pose proof (Hm _ _ _ Hi Hrun).
  by destruct (io k2) as [[e []]|].
Qed.

Lemma preserves_establishes {A} I (m : M S E A) : preserves I m → establishes I I m.
Proof. intros Hm s a s' Hi Hrun. specialize (Hm s Hi). by rewrite Hrun in Hm. Qed.

Lemma all_or_nothing_bind {A B} (m : M S E A) (k : A → M S E B) :
  readonly m → (∀ a, all_or_nothing (k a)) → all_or_nothing (mbind_ m k).
Proof.
  intros Hm Hk s e s' Hrun. unfold mbind_ in Hrun. specialize (Hm s).
  destruct (m s) as [[a|e'] s1]; simpl in *; subst; [by eapply Hk|by simplify_eq].
Qed.

Lemma all_or_nothing_in_tx {A} io k1 k2 (m : M S E A) : clean io → all_or_nothing (in_tx io k1 k2 m).
Proof.
  intros Hc s e s'. unfold in_tx. destruct (io k1); [naive_solver|].
  destruct (m s) as [[a|e'] s1]; [|naive_solver].
  destruct (io k2) as [f|] eqn:Hf; [|done]. rewrite (Hc _ _ Hf). naive_solver.
Qed.

Lemma all_or_nothing_execute {A} io k (stmt : S → Result A string * S) :
  clean io → (∀ s e s', stmt s = (Err e, s') → s' = s) → all_or_nothing (execute io k stmt).
Proof.
  intros Hc Hs s e s'. unfold execute. destruct (io k) as [f|] eqn:Hf.
  - rewrite (Hc _ _ Hf). naive_solver.
  - destruct (stmt s) as [[a|e'] s1] eqn:Hstmt; simpl; [done|]. intros [= <- <-]. by eapply Hs.
Qed.
End database.

#[export] Hint Resolve readonly_fetch readonly_mret readonly_throw readonly_lift_result
  readonly_bind : wavis.
