(* ===== verification/Channels.v ===== *)
(** * Channels (wavis-backend/src/channel/channel.rs, channel_models.rs)

    The persistent channels: creation, deletion, membership, roles, bans and
    invites.  The four tables of migrations 001 and 004 to 017 are finite maps
    from their primary keys; a statement that breaks a foreign key, a check or a
    unique index answers with the constraint and changes nothing.  [now()],
    generated ids and drawn codes are arguments. *)

From Stdlib Require Import Sorting.Sorted.
From stdpp Require Import sorting.
From S2P Require Import Prelude SfuBridge Tokens Voice Database.
Local Open Scope Z_scope.
Local Open Scope prog_scope.

(** ** Errors *)

Module ChErr.
(** [ChannelError]. *)
Inductive ChannelError : Type :=
| InvalidName
| ChannelNotFound
| NotMember
| Banned
| Forbidden
| AlreadyMember
| InvalidInvite
| AlreadyBanned
| CannotBanOwner
| InsufficientPrivileges
| SelfBan
| OwnerCannotLeave
| TargetNotMember
| TargetNotBanned
| InvalidRole
| CannotChangeOwnerRole
| CannotChangeBannedRole
| InviteNotFound
| OwnerConsistencyViolation
| DatabaseError (reason : string).
End ChErr.
Abbreviation ChannelError := ChErr.ChannelError.

(** How a call ends when it does not return a value: with an error, or with a
    panic of the request's task. *)
Inductive Stopped : Type :=
| Failed (e : ChannelError)
| Panicked.
Definition db_error (reason : string) : Stopped := Failed (ChErr.DatabaseError reason).

#[global] Instance ChannelRole_eq_dec : EqDecision ChannelRole.
Proof. solve_decision. Defined.
#[global] Instance ChannelError_eq_dec : EqDecision ChannelError.
Proof. solve_decision. Defined.
#[global] Instance Stopped_eq_dec : EqDecision Stopped.
Proof. solve_decision. Defined.

(** ** Names and roles *)

(** [validate_channel_name]. *)
Definition validate_channel_name (name : string) : Result unit Stopped :=
  if bool_decide (name = EmptyString) || bool_decide (100 < chars_count name)
  then Err (Failed ChErr.InvalidName) else Ok tt.

(** [parse_role]. *)
Definition parse_role (role : string) : ChannelRole :=
  if bool_decide (role = "owner"%string) then Owner
  else if bool_decide (role = "admin"%string) then Admin
  else Member.

(** [parse_assignable_role]. *)
Definition parse_assignable_role (role : string) : Result ChannelRole Stopped :=
  if bool_decide (role = "admin"%string) then Ok Admin
  else if bool_decide (role = "member"%string) then Ok Member
  else Err (Failed ChErr.InvalidRole).

Section channels.
Context {Uuid : Type} `{Countable Uuid}.
(** [t + chrono::Duration::seconds(n)]; [None] where chrono panics. *)
Context (plus_seconds : Z → Z → option Z).

(** ** Results *)

(** [Channel]. *)
Record Channel : Type := mkChannel {
  ch_channel_id : Uuid;
  ch_name : string;
  ch_owner_user_id : Uuid;
  ch_created_at : Z
}.

(** [ChannelInvite]. *)
Record ChannelInvite : Type := mkChannelInvite {
  ci_code : string;
  ci_channel_id : Uuid;
  ci_expires_at : option Z;
  ci_max_uses : option Z;
  ci_uses : Z;
  ci_created_at : Z
}.

(** [ChannelListItem]. *)
Record ChannelListItem : Type := mkChannelListItem {
  li_channel_id : Uuid;
  li_name : string;
  li_owner_user_id : Uuid;
  li_created_at : Z;
  li_role : ChannelRole
}.

(** [ChannelMemberInfo]. *)
Record ChannelMemberInfo : Type := mkChannelMemberInfo {
  mi_user_id : Uuid;
  mi_role : ChannelRole;
  mi_joined_at : Z;
  mi_display_name : string
}.

(** [ChannelDetail]. *)
Record ChannelDetail : Type := mkChannelDetail {
  cd_channel_id : Uuid;
  cd_name : string;
  cd_owner_user_id : Uuid;
  cd_created_at : Z;
  cd_role : ChannelRole;
  cd_members : list ChannelMemberInfo
}.

(** [JoinResult]. *)
Record JoinResult : Type := mkJoinResult {
  jr_channel_id : Uuid;
  jr_name : string;
  jr_role : ChannelRole
}.

(** [BanResult]. *)
Record BanResult : Type := mkBanResult {
  br_channel_id : Uuid;
  br_user_id : Uuid;
  br_banned_at : Z
}.

(** [RoleChangeResult]. *)
Record RoleChangeResult : Type := mkRoleChangeResult {
  rc_channel_id : Uuid;
  rc_user_id : Uuid;
  rc_role : ChannelRole
}.

(** [BannedMemberInfo]. *)
Record BannedMemberInfo : Type := mkBannedMemberInfo {
  bm_user_id : Uuid;
  bm_banned_at : Z;
  bm_display_name : string
}.

(** ** Tables *)

(** A row of [channels] beside its key. *)
Record ChannelRow : Type := mkChannelRow {
  t_name : string;
  t_owner : Uuid;
  t_created_at : Z;
  t_passthrough : bool
}.

(** A row of [channel_memberships] beside its key, the channel and the user. *)
Record MemberRow : Type := mkMemberRow {
  m_role : string;
  m_banned_at : option Z;
  m_joined_at : Z
}.

(** A row of [channel_invites] beside its key, the code. *)
Record InviteRow : Type := mkInviteRow {
  i_channel : Uuid;
  i_expires_at : option Z;
  i_max_uses : option Z;
  i_uses : Z;
  i_created_at : Z
}.

(** The database: the username of each user, and the three channel tables. *)
Record ChannelDb : Type := mkChannelDb {
  users : gmap Uuid string;
  channels : gmap Uuid ChannelRow;
  memberships : gmap (Uuid * Uuid) MemberRow;
  invites : gmap string InviteRow
}.
Definition set_channels (x : gmap Uuid ChannelRow) (d : ChannelDb) : ChannelDb :=
  mkChannelDb (users d) x (memberships d) (invites d).
Definition set_memberships (x : gmap (Uuid * Uuid) MemberRow) (d : ChannelDb) : ChannelDb :=
  mkChannelDb (users d) (channels d) x (invites d).
Definition set_invites (x : gmap string InviteRow) (d : ChannelDb) : ChannelDb :=
  mkChannelDb (users d) (channels d) (memberships d) x.

(** [execute(..).rows_affected()] and [fetch_one(..)] of the writing statements. *)
Definition Statement (A : Type) : Type := ChannelDb → Result A string * ChannelDb.

(** [INSERT INTO channels (name, owner_user_id) .. RETURNING ..]. *)
Definition insert_channel (channel_id : Uuid) (name : string) (owner : Uuid) (now : Z)
    : Statement Channel := λ d,
  if bool_decide (is_Some (channels d !! channel_id)) then (Err "channels_pkey"%string, d)
  else if bool_decide (users d !! owner = None) then (Err "channels_owner_user_id_fkey"%string, d)
  else (Ok (mkChannel channel_id name owner now),
        set_channels (<[channel_id := mkChannelRow name owner now false]> (channels d)) d).

(** The row with role ['owner'] of a channel. *)
Definition owner_rows (channel_id : Uuid) (d : ChannelDb) : list (Uuid * Uuid * MemberRow) :=
  List.filter (λ x, bool_decide (x.1.1 = channel_id) && bool_decide (m_role x.2 = "owner"%string))
    (map_to_list (memberships d)).

(** [INSERT INTO channel_memberships (channel_id, user_id, role)]. *)
Definition insert_membership (channel_id user_id : Uuid) (role : string) (now : Z)
    : Statement unit := λ d,
  if negb (contains role ["owner"; "admin"; "member"]%string) then (Err "channel_memberships_role_check"%string, d)
  else if bool_decide (is_Some (memberships d !! (channel_id, user_id)))
  then (Err "channel_memberships_pkey"%string, d)
  else if bool_decide (channels d !! channel_id = None) then (Err "channel_memberships_channel_id_fkey"%string, d)
  else if bool_decide (users d !! user_id = None) then (Err "channel_memberships_user_id_fkey"%string, d)
  else if bool_decide (role = "owner"%string) && negb (bool_decide (owner_rows channel_id d = []))
  then (Err "idx_channel_memberships_one_owner"%string, d)
  else (Ok tt, set_memberships (<[(channel_id, user_id) := mkMemberRow role None now]> (memberships d)) d).

(** The same with [ON CONFLICT DO NOTHING], for a member; the rows affected. *)
Definition insert_member_or_nothing (channel_id user_id : Uuid) (now : Z) : Statement Z := λ d,
  if bool_decide (is_Some (memberships d !! (channel_id, user_id))) then (Ok 0, d)
  else match insert_membership channel_id user_id "member" now d with
       | (Ok _, d') => (Ok 1, d')
       | (Err e, d') => (Err e, d')
       end.

(** [UPDATE channel_memberships SET .. WHERE channel_id = .. AND user_id = ..]. *)
Definition update_member (f : MemberRow → MemberRow) (channel_id user_id : Uuid) : Statement Z := λ d,
  match memberships d !! (channel_id, user_id) with
  | None => (Ok 0, d)
  | Some m => (Ok 1, set_memberships (<[(channel_id, user_id) := f m]> (memberships d)) d)
  end.
Definition set_banned_at (b : option Z) (m : MemberRow) : MemberRow :=
  mkMemberRow (m_role m) b (m_joined_at m).
Definition set_role (role : string) (m : MemberRow) : MemberRow :=
  mkMemberRow role (m_banned_at m) (m_joined_at m).

(** [UPDATE .. SET banned_at = now() .. RETURNING banned_at] with [fetch_one]. *)
Definition ban_row (channel_id user_id : Uuid) (now : Z) : Statement Z := λ d,
  match update_member (set_banned_at (Some now)) channel_id user_id d with
  | (Ok 1, d') => (Ok now, d')
  | _ => (Err "no rows returned"%string, d)
  end.

(** [DELETE FROM channel_memberships WHERE ..]. *)
Definition delete_membership (channel_id user_id : Uuid) : Statement unit := λ d,
  (Ok tt, set_memberships (delete (channel_id, user_id) (memberships d)) d).

(** [DELETE FROM channels], with the cascades to memberships and invites. *)
Definition delete_channel_row (channel_id : Uuid) : Statement unit := λ d,
  (Ok tt, mkChannelDb (users d) (delete channel_id (channels d))
            (filter (λ x, x.1.1 ≠ channel_id) (memberships d))
            (filter (λ x, i_channel x.2 ≠ channel_id) (invites d))).

(** [INSERT INTO channel_invites .. RETURNING ..]. *)
Definition insert_invite (code : string) (channel_id : Uuid) (expires_at max_uses : option Z) (now : Z)
    : Statement ChannelInvite := λ d,
  if bool_decide (is_Some (invites d !! code)) then (Err "channel_invites_pkey"%string, d)
  else if bool_decide (channels d !! channel_id = None) then (Err "channel_invites_channel_id_fkey"%string, d)
  else if match max_uses with Some n => bool_decide (n ≤ 0) | None => false end
  then (Err "channel_invites_max_uses_check"%string, d)
  else (Ok (mkChannelInvite code channel_id expires_at max_uses 0 now),
        set_invites (<[code := mkInviteRow channel_id expires_at max_uses 0 now]> (invites d)) d).

(** [expires_at IS NULL OR expires_at > now()] and [max_uses IS NULL OR uses < max_uses]. *)
Definition invite_live (now : Z) (i : InviteRow) : bool :=
  match i_expires_at i with None => true | Some t => bool_decide (now < t) end &&
  match i_max_uses i with None => true | Some n => bool_decide (i_uses i < n) end.

(** [UPDATE channel_invites SET uses = uses + 1 WHERE .. RETURNING channel_id]. *)
Definition consume_invite (code : string) (now : Z) : Statement (option Uuid) := λ d,
  match invites d !! code with
  | None => (Ok None, d)
  | Some i =>
      if negb (invite_live now i) then (Ok None, d)
      else if bool_decide (2147483647 < i_uses i + 1) then (Err "integer out of range"%string, d)
      else (Ok (Some (i_channel i)),
            set_invites (<[code := mkInviteRow (i_channel i) (i_expires_at i) (i_max_uses i)
                                     (i_uses i + 1) (i_created_at i)]> (invites d)) d)
  end.

(** [DELETE FROM channel_invites WHERE code = .. AND channel_id = ..]. *)
Definition delete_invite (code : string) (channel_id : Uuid) : Statement Z := λ d,
  match invites d !! code with
  | Some i => if bool_decide (i_channel i = channel_id) then (Ok 1, set_invites (delete code (invites d)) d)
              else (Ok 0, d)
  | None => (Ok 0, d)
  end.

(** [DELETE FROM channel_invites WHERE expires_at IS NOT NULL AND expires_at < now()]. *)
Definition sweepable (now : Z) (i : InviteRow) : bool :=
  match i_expires_at i with Some t => bool_decide (t < now) | None => false end.
Definition delete_expired_invites (now : Z) : Statement Z := λ d,
  let kept := filter (λ x, sweepable now x.2 = false) (invites d) in
  (Ok (map_len (invites d) - map_len kept), set_invites kept d).

(** ** Operations *)

Definition Op (A : Type) : Type := M ChannelDb Stopped A.
Abbreviation sql := (execute db_error) (only parsing).
Abbreviation select := (fetch db_error) (only parsing).
Abbreviation tx := (in_tx db_error) (only parsing).
Definition fails {A} (e : ChannelError) : Op A := throw (Failed e).

(** [create_channel]. *)
Definition create_channel (io : Io) (user_id : Uuid) (name : string) (fresh_id : Uuid) (now : Z)
    : Op Channel :=
  do! lift_result (validate_channel_name name) in
  tx io 0%nat 3%nat (
    let! row := sql io 1%nat (insert_channel fresh_id name user_id now) in
    do! sql io 2%nat (insert_membership (ch_channel_id row) user_id "owner" now) in
    mret row).

(** [ORDER BY cm.joined_at DESC] and its like. *)
Definition descending {A} (key : A → Z) (a b : A) : Prop := key b ≤ key a.
#[local] Instance descending_dec {A} (key : A → Z) : RelDecision (descending key).
Proof. intros a b. unfold descending. apply _. Defined.
Definition order_desc {A} (key : A → Z) (l : list A) : list A := merge_sort (descending key) l.

(** [list_channels]. *)
Definition channel_of_member (user_id : Uuid) (d : ChannelDb) (x : Uuid * Uuid * MemberRow)
    : option (Z * ChannelListItem) :=
  let '((c, u), m) := x in
  if bool_decide (u = user_id) && bool_decide (m_banned_at m = None) then
    ch ← channels d !! c;
    Some (m_joined_at m, mkChannelListItem c (t_name ch) (t_owner ch) (t_created_at ch) (parse_role (m_role m)))
  else None.
Definition list_channels (io : Io) (user_id : Uuid) : Op (list ChannelListItem) :=
  select io 0%nat (λ d,
    map snd (order_desc fst (omap (channel_of_member user_id d) (map_to_list (memberships d))))).

(** The row of a member of a channel. *)
Definition membership_of (channel_id user_id : Uuid) (d : ChannelDb) : option MemberRow :=
  memberships d !! (channel_id, user_id).

(** The members of a channel, not banned, with their usernames. *)
Definition member_info (channel_id : Uuid) (d : ChannelDb) (x : Uuid * Uuid * MemberRow)
    : option ChannelMemberInfo :=
  let '((c, u), m) := x in
  if bool_decide (c = channel_id) && bool_decide (m_banned_at m = None) then
    Some (mkChannelMemberInfo u (parse_role (m_role m)) (m_joined_at m) (default EmptyString (users d !! u)))
  else None.

(** [get_channel_detail]. *)
Definition get_channel_detail (io : Io) (channel_id user_id : Uuid) : Op ChannelDetail :=
  let! membership_row := select io 0%nat (membership_of channel_id user_id) in
  match membership_row with
  | None => fails ChErr.NotMember
  | Some membership_row =>
      if bool_decide (is_Some (m_banned_at membership_row)) then fails ChErr.Banned
      else
        let requester_role := parse_role (m_role membership_row) in
        let! channel_row := select io 1%nat (λ d, channels d !! channel_id) in
        match channel_row with
        | None => fails ChErr.ChannelNotFound
        | Some ch =>
            let! owner_membership_row := select io 2%nat (λ d, head (owner_rows channel_id d)) in
            match owner_membership_row with
            | None => fails ChErr.OwnerConsistencyViolation
            | Some ((_, membership_owner_id), _) =>
                if negb (bool_decide (membership_owner_id = t_owner ch))
                then fails ChErr.OwnerConsistencyViolation
                else
                  let! members := select io 3%nat (λ d,
                    omap (member_info channel_id d) (map_to_list (memberships d))) in
                  mret (mkChannelDetail channel_id (t_name ch) (t_owner ch) (t_created_at ch)
                          requester_role members)
            end
        end
  end.

(** [delete_channel]. *)
Definition delete_channel (io : Io) (channel_id user_id : Uuid) : Op unit :=
  let! channel_row := select io 0%nat (λ d, channels d !! channel_id) in
  match channel_row with
  | None => fails ChErr.ChannelNotFound
  | Some ch =>
      if negb (bool_decide (t_owner ch = user_id)) then fails ChErr.Forbidden
      else tx io 1%nat 3%nat (sql io 2%nat (delete_channel_row channel_id))
  end.

(** The check of the requester that [create_invite], [revoke_invite],
    [ban_member], [unban_member], [list_bans] and [list_invites] share: a member
    that is not banned and is an owner or an admin.  The role is returned. *)
Definition require_moderator (io : Io) (k : nat) (channel_id user_id : Uuid) : Op ChannelRole :=
  let! membership := select io k (membership_of channel_id user_id) in
  match membership with
  | None => fails ChErr.Forbidden
  | Some m =>
      if bool_decide (is_Some (m_banned_at m)) then fails ChErr.Forbidden
      else
        let role := parse_role (m_role m) in
        if bool_decide (role = Member) then fails ChErr.Forbidden else mret role
  end.

(** [create_invite]; [code] is drawn by [generate_invite_code], [utc_now] is the
    clock of the server and [now] the one of the database. *)
Definition create_invite (io : Io) (channel_id user_id : Uuid) (expires_in_secs max_uses : option Z)
    (code : string) (utc_now now : Z) : Op ChannelInvite :=
  do! require_moderator io 0%nat channel_id user_id in
  let! expires_at := match expires_in_secs with
    | None => mret None
    | Some secs => match plus_seconds utc_now secs with
                   | Some t => mret (Some t)
                   | None => throw Panicked
                   end
    end in
  sql io 1%nat (insert_invite code channel_id expires_at max_uses now).

(** [join_channel_by_invite]. *)
Definition join_channel_by_invite (io : Io) (user_id : Uuid) (code : string) (now : Z) : Op JoinResult :=
  tx io 0%nat 5%nat (
    let! invite_row := sql io 1%nat (consume_invite code now) in
    match invite_row with
    | None => fails ChErr.InvalidInvite
    | Some channel_id =>
        let! existing := select io 2%nat (membership_of channel_id user_id) in
        match existing with
        | Some row =>
            if bool_decide (is_Some (m_banned_at row)) then fails ChErr.Banned
            else fails ChErr.AlreadyMember
        | None =>
            let! rows_affected := sql io 3%nat (insert_member_or_nothing channel_id user_id now) in
            if bool_decide (rows_affected = 0) then fails ChErr.AlreadyMember
            else
              let! channel_row := select io 4%nat (λ d, channels d !! channel_id) in
              match channel_row with
              | None => fails (ChErr.DatabaseError "no rows returned")
              | Some ch => mret (mkJoinResult channel_id (t_name ch) Member)
              end
        end
    end).

(** [leave_channel]: the check, then the deletion, each on its own. *)
Definition leave_check (io : Io) (channel_id user_id : Uuid) : Op unit :=
  let! membership := select io 0%nat (membership_of channel_id user_id) in
  match membership with
  | None => fails ChErr.NotMember
  | Some m =>
      if bool_decide (is_Some (m_banned_at m)) then fails ChErr.Banned
      else if bool_decide (parse_role (m_role m) = Owner) then fails ChErr.OwnerCannotLeave
      else mret tt
  end.
Definition leave_channel (io : Io) (channel_id user_id : Uuid) : Op unit :=
  do! leave_check io channel_id user_id in
  sql io 1%nat (delete_membership channel_id user_id).

(** [revoke_invite]. *)
Definition revoke_invite (io : Io) (channel_id user_id : Uuid) (code : string) : Op unit :=
  do! require_moderator io 0%nat channel_id user_id in
  let! rows_affected := sql io 1%nat (delete_invite code channel_id) in
  if bool_decide (rows_affected = 0) then fails ChErr.InviteNotFound else mret tt.

(** [ban_member]. *)
Definition ban_member (io : Io) (channel_id requester_user_id target_user_id : Uuid) (now : Z)
    : Op BanResult :=
  if bool_decide (requester_user_id = target_user_id) then fails ChErr.SelfBan
  else tx io 0%nat 4%nat (
    let! req_role := require_moderator io 1%nat channel_id requester_user_id in
    let! target := select io 2%nat (membership_of channel_id target_user_id) in
    match target with
    | None => fails ChErr.TargetNotMember
    | Some target =>
        let target_role := parse_role (m_role target) in
        if bool_decide (target_role = Owner) then fails ChErr.CannotBanOwner
        else if bool_decide (req_role = Admin) && bool_decide (target_role = Admin)
        then fails ChErr.InsufficientPrivileges
        else if bool_decide (is_Some (m_banned_at target)) then fails ChErr.AlreadyBanned
        else
          let! banned_at := sql io 3%nat (ban_row channel_id target_user_id now) in
          mret (mkBanResult channel_id target_user_id banned_at)
    end).

(** [unban_member]. *)
Definition unban_member (io : Io) (channel_id requester_user_id target_user_id : Uuid) : Op unit :=
  tx io 0%nat 4%nat (
    do! require_moderator io 1%nat channel_id requester_user_id in
    let! target := select io 2%nat (membership_of channel_id target_user_id) in
    match target with
    | None => fails ChErr.TargetNotMember
    | Some target =>
        if bool_decide (m_banned_at target = None) then fails ChErr.TargetNotBanned
        else
          let! _n := sql io 3%nat (update_member (set_banned_at None) channel_id target_user_id) in
          mret tt
    end).

(** [list_bans]. *)
Definition banned_info (channel_id : Uuid) (d : ChannelDb) (x : Uuid * Uuid * MemberRow)
    : option BannedMemberInfo :=
  let '((c, u), m) := x in
  if bool_decide (c = channel_id) then
    b ← m_banned_at m; Some (mkBannedMemberInfo u b (default EmptyString (users d !! u)))
  else None.
Definition list_bans (io : Io) (channel_id user_id : Uuid) : Op (list BannedMemberInfo) :=
  do! require_moderator io 0%nat channel_id user_id in
  select io 1%nat (λ d, order_desc bm_banned_at (omap (banned_info channel_id d) (map_to_list (memberships d)))).

(** [list_invites]. *)
Definition invite_info (channel_id : Uuid) (now : Z) (x : string * InviteRow) : option ChannelInvite :=
  let '(code, i) := x in
  if bool_decide (i_channel i = channel_id) && invite_live now i then
    Some (mkChannelInvite code (i_channel i) (i_expires_at i) (i_max_uses i) (i_uses i) (i_created_at i))
  else None.
Definition list_invites (io : Io) (channel_id user_id : Uuid) (now : Z) : Op (list ChannelInvite) :=
  do! require_moderator io 0%nat channel_id user_id in
  select io 1%nat (λ d, order_desc ci_created_at (omap (invite_info channel_id now) (map_to_list (invites d)))).

(** [change_role]. *)
Definition change_role (io : Io) (channel_id requester_user_id target_user_id : Uuid) (new_role_str : string)
    : Op RoleChangeResult :=
  let! new_role := lift_result (parse_assignable_role new_role_str) in
  tx io 0%nat 4%nat (
    let! requester := select io 1%nat (membership_of channel_id requester_user_id) in
    match requester with
    | None => fails ChErr.Forbidden
    | Some requester =>
        if bool_decide (is_Some (m_banned_at requester)) then fails ChErr.Forbidden
        else if negb (bool_decide (parse_role (m_role requester) = Owner)) then fails ChErr.Forbidden
        else if bool_decide (requester_user_id = target_user_id) then fails ChErr.CannotChangeOwnerRole
        else
          let! target := select io 2%nat (membership_of channel_id target_user_id) in
          match target with
          | None => fails ChErr.TargetNotMember
          | Some target =>
              if bool_decide (parse_role (m_role target) = Owner) then fails ChErr.CannotChangeOwnerRole
              else if bool_decide (is_Some (m_banned_at target)) then fails ChErr.CannotChangeBannedRole
              else
                let! role_str := match new_role with
                  | Admin => mret "admin"%string
                  | Member => mret "member"%string
                  | Owner => throw Panicked
                  end in
                let! _n := sql io 3%nat (update_member (set_role role_str) channel_id target_user_id) in
                mret (mkRoleChangeResult channel_id target_user_id new_role)
          end
    end).

(** [sweep_expired_invites]. *)
Definition sweep_expired_invites (io : Io) (now : Z) : Op Z := sql io 0%nat (delete_expired_invites now).

(** ** The queries and the update of the voice module *)

(** The membership query of [join_voice]. *)
Definition voice_membership (d : ChannelDb) (channel_id user_id : Uuid) : option MembershipRow :=
  m ← memberships d !! (channel_id, user_id);
  ch ← channels d !! channel_id;
  Some (mkMembershipRow (parse_role (m_role m)) (m_banned_at m) (t_passthrough ch)).

(** The query of [get_current_channel_role]. *)
Definition voice_role (d : ChannelDb) (channel_id user_id : Uuid) : option ChannelRole :=
  m ← memberships d !! (channel_id, user_id);
  if bool_decide (m_banned_at m = None) then Some (parse_role (m_role m)) else None.

(** The update of [set_passthrough_enabled]; the rows affected. *)
Definition update_passthrough (channel_id : Uuid) (enabled : bool) : Statement Z := λ d,
  match channels d !! channel_id with
  | None => (Ok 0, d)
  | Some ch => (Ok 1, set_channels (<[channel_id := mkChannelRow (t_name ch) (t_owner ch) (t_created_at ch)
                                                     enabled]> (channels d)) d)
  end.
End channels.
