(* ===== verification/ChannelRules.v ===== *)
(** * What channel requests may do (wavis-backend/src/channel/channel.rs)

    The changes the channel rules allow, as an abstract transition relation on
    the tables; every operation, whatever statement fails, makes one allowed
    change or none.  Integrity of the tables, the lasting effect of a ban and
    the authority needed to touch another user's row follow by induction on the
    relation. *)

From Stdlib Require Import Sorting.Sorted.
From stdpp Require Import sorting.
From S2P Require Import Prelude SfuBridge Tokens Voice Database Channels.
Local Open Scope Z_scope.
Local Open Scope prog_scope.

Section rules.
Context {Uuid : Type} `{Countable Uuid}.
Context (plus_seconds : Z → Z → option Z).
Abbreviation Db := (ChannelDb (Uuid:=Uuid)).
Implicit Types (d : Db) (c u r t : Uuid).

(** ** Requests *)

(** The calls of the channel module, the registration of a user (the only write
    to [users] the tables depend on) and the update of the voice module. *)
Inductive Request : Type :=
| RqRegister (u : Uuid) (username : string)
| RqCreate (u : Uuid) (name : string) (fresh : Uuid) (now : Z)
| RqList (u : Uuid)
| RqDetail (c u : Uuid)
| RqDelete (c u : Uuid)
| RqInvite (c u : Uuid) (secs max_uses : option Z) (code : string) (utc_now now : Z)
| RqJoin (u : Uuid) (code : string) (now : Z)
| RqLeave (c u : Uuid)
| RqRevoke (c u : Uuid) (code : string)
| RqBan (c requester target : Uuid) (now : Z)
| RqUnban (c requester target : Uuid)
| RqBans (c u : Uuid)
| RqInvites (c u : Uuid) (now : Z)
| RqRole (c requester target : Uuid) (role : string)
| RqSweep (now : Z)
| RqPassthrough (c : Uuid) (enabled : bool).

Abbreviation Prog A := (M Db Stopped A) (only parsing).
Definition void {A} (m : Prog A) : Prog unit := do! m in mret tt.

(** A user's first row; a user that has one keeps it. *)
Definition register (u : Uuid) (username : string) : Prog unit :=
  modify (λ d, match users d !! u with
               | Some _ => d
               | None => mkChannelDb (<[u := username]> (users d)) (channels d) (memberships d) (invites d)
               end).

Definition perform (io : Io) (rq : Request) : Prog unit :=
  match rq with
  | RqRegister u n => register u n
  | RqCreate u n i t => void (create_channel io u n i t)
  | RqList u => void (list_channels io u)
  | RqDetail c u => void (get_channel_detail io c u)
  | RqDelete c u => delete_channel io c u
  | RqInvite c u s n k t1 t2 => void (create_invite plus_seconds io c u s n k t1 t2)
  | RqJoin u k t => void (join_channel_by_invite io u k t)
  | RqLeave c u => leave_channel io c u
  | RqRevoke c u k => revoke_invite io c u k
  | RqBan c r t now => void (ban_member io c r t now)
  | RqUnban c r t => unban_member io c r t
  | RqBans c u => void (list_bans io c u)
  | RqInvites c u now => void (list_invites io c u now)
  | RqRole c r t s => void (change_role io c r t s)
  | RqSweep now => void (sweep_expired_invites io now)
  | RqPassthrough c b => void (execute db_error io 0 (update_passthrough c b))
  end.

(** ** The changes that are allowed *)

(** [u] is an owner or an admin of [c], not banned. *)
Definition moderates d (c u : Uuid) (role : ChannelRole) : Prop :=
  ∃ m, memberships d !! (c, u) = Some m ∧ m_banned_at m = None ∧ parse_role (m_role m) = role ∧ role ≠ Member.

Definition put_member (c u : Uuid) (m : MemberRow) d : Db :=
  set_memberships (<[(c, u) := m]> (memberships d)) d.

Inductive change : Request → Db → Db → Prop :=
| ch_register u n d :
    users d !! u = None →
    change (RqRegister u n) d
      (mkChannelDb (<[u := n]> (users d)) (channels d) (memberships d) (invites d))
| ch_create u name c now d :
    validate_channel_name name = Ok tt → channels d !! c = None → is_Some (users d !! u) →
    change (RqCreate u name c now) d
      (put_member c u (mkMemberRow "owner" None now)
         (set_channels (<[c := mkChannelRow name u now false]> (channels d)) d))
| ch_delete c u ch d :
    channels d !! c = Some ch → t_owner ch = u →
    change (RqDelete c u) d (delete_channel_row c d).2
| ch_invite c u secs max_uses code utc_now now role expires d :
    moderates d c u role → invites d !! code = None → is_Some (channels d !! c) →
    (∀ n, max_uses = Some n → 0 < n) →
    match secs with Some s => ∃ at_, plus_seconds utc_now s = Some at_ ∧ expires = Some at_ | None => expires = None end →
    change (RqInvite c u secs max_uses code utc_now now) d
      (set_invites (<[code := mkInviteRow c expires max_uses 0 now]> (invites d)) d)
| ch_join u code now i d :
    invites d !! code = Some i → invite_live now i = true → i_uses i < 2147483647 →
    memberships d !! (i_channel i, u) = None → is_Some (channels d !! i_channel i) → is_Some (users d !! u) →
    change (RqJoin u code now) d
      (put_member (i_channel i) u (mkMemberRow "member" None now)
         (set_invites (<[code := mkInviteRow (i_channel i) (i_expires_at i) (i_max_uses i)
                                   (i_uses i + 1) (i_created_at i)]> (invites d)) d))
| ch_leave c u m d :
    memberships d !! (c, u) = Some m → m_banned_at m = None → parse_role (m_role m) ≠ Owner →
    change (RqLeave c u) d (set_memberships (delete (c, u) (memberships d)) d)
| ch_revoke c u code role i d :
    moderates d c u role → invites d !! code = Some i → i_channel i = c →
    change (RqRevoke c u code) d (set_invites (delete code (invites d)) d)
| ch_ban c r t now role m d :
    r ≠ t → moderates d c r role → memberships d !! (c, t) = Some m → m_banned_at m = None →
    parse_role (m_role m) ≠ Owner → (role = Owner ∨ parse_role (m_role m) = Member) →
    change (RqBan c r t now) d (put_member c t (set_banned_at (Some now) m) d)
| ch_unban c r t role m d :
    moderates d c r role → memberships d !! (c, t) = Some m → is_Some (m_banned_at m) →
    change (RqUnban c r t) d (put_member c t (set_banned_at None m) d)
| ch_role c r t new m d :
    r ≠ t → moderates d c r Owner → memberships d !! (c, t) = Some m → m_banned_at m = None →
    parse_role (m_role m) ≠ Owner → (new = "admin" ∨ new = "member")%string →
    change (RqRole c r t new) d (put_member c t (set_role new m) d)
| ch_sweep now d :
    change (RqSweep now) d (delete_expired_invites now d).2
| ch_passthrough c b ch d :
    channels d !! c = Some ch →
    change (RqPassthrough c b) d
      (set_channels (<[c := mkChannelRow (t_name ch) (t_owner ch) (t_created_at ch) b]> (channels d)) d).

(** ** Every request refines the relation *)

(** From [d], [m] makes a change [R] allows, or fails without one. *)
Definition makes {A} (R : Db → Db → Prop) (m : Prog A) (d : Db) : Prop :=
  R d (m d).2 ∨ ((m d).2 = d ∧ is_Ok (m d).1 = false).

(** Run the statements of a body down to its branches. *)
Ltac run_body H :=
  unfold require_moderator, void, mbind_, fetch, execute, lift_result, fails, throw, mret in H;
  repeat (case_match; simplify_eq/=); simplify_eq/=; decided; try done.

Lemma makes_fails {A} R e d : makes (A:=A) R (fails e) d.
Proof. by right. Qed.

Lemma makes_bind {A B} R (m : Prog A) (k : A → Prog B) d :
  readonly m → (∀ a, m d = (Ok a, d) → makes R (k a) d) → makes R (mbind_ m k) d.
Proof.
  unfold makes, mbind_. intros Hm Hk. specialize (Hm d).
  destruct (m d) as [[a|e] d']; simpl in *; subst; auto.
Qed.

Lemma makes_tx {A} R io k1 k2 (m : Prog A) d :
  (∀ a d', m d = (Ok a, d') → R d d') → makes R (in_tx db_error io k1 k2 m) d.
Proof.
  unfold makes, in_tx. intros Hm. destruct (io k1); [by right|].
  destruct (m d) as [[a|e] d'] eqn:Hrun; [|by right]. specialize (Hm a d' eq_refl).
  destruct (io k2) as [[e []]|]; simpl; auto.
Qed.

Lemma makes_execute {A} (R : Db → Db → Prop) io k (stmt : Statement A) d :
  (∀ (res : Result A string) d', stmt d = (res, d') → R d d' ∨ (d' = d ∧ is_Ok res = false)) → makes R (execute db_error io k stmt) d.
Proof.
  unfold makes, execute. intros Hm. destruct (stmt d) as [res d'] eqn:Hs. specialize (Hm res d' eq_refl).
  destruct (io k) as [[e []]|]; simpl; [by destruct Hm as [|[-> _]]; auto|auto|by destruct res].
Qed.

Lemma makes_void {A} R (m : Prog A) d : makes R m d → makes R (void m) d.
Proof. unfold makes, void, mbind_, mret. by destruct (m d) as [[a|e] d']. Qed.

Lemma require_moderator_Ok io k c u d role d' :
  require_moderator io k c u d = (Ok role, d') → d' = d ∧ moderates d c u role.
Proof.
  unfold moderates, membership_of. intros Hrun. run_body Hrun. naive_solver.
Qed.

Lemma readonly_require_moderator io k c u : readonly (require_moderator io k c u).
Proof. intros d. unfold require_moderator, mbind_, fetch, fails, throw, mret. by repeat case_match; simplify_eq/=. Qed.

Lemma fetch_Ok {A} io k (q : Db → A) d a d' :
  fetch db_error io k q d = (Ok a, d') → a = q d ∧ d' = d.
Proof. unfold fetch. case_match; naive_solver. Qed.

Lemma makes_create io u n c now d : makes (change (RqCreate u n c now)) (create_channel io u n c now) d.
Proof.
  unfold create_channel. apply makes_bind; [apply readonly_lift_result|]. intros [] [= Hv].
  apply makes_tx. intros a d' Hrun.
  unfold insert_channel, insert_membership in Hrun. run_body Hrun. by constructor.
Qed.

Lemma makes_delete io c u d : makes (change (RqDelete c u)) (delete_channel io c u) d.
Proof.
  unfold delete_channel. apply makes_bind; [apply readonly_fetch|]. intros [ch|] [Hch _]%fetch_Ok; [|by right].
  case_bool_decide; simpl; [|by right]. apply makes_tx. intros [] d' Hrun. unfold delete_channel_row in Hrun.
  run_body Hrun. by econstructor.
Qed.

Lemma makes_invite io c u secs n k now1 now2 d :
  makes (change (RqInvite c u secs n k now1 now2)) (create_invite plus_seconds io c u secs n k now1 now2) d.
Proof.
  unfold create_invite. apply makes_bind; [apply readonly_require_moderator|].
  intros role [_ Hmod]%require_moderator_Ok.
  apply makes_bind; [by destruct secs as [s|]; [destruct (plus_seconds now1 s)|]|].
  intros expires Hexp. apply makes_execute. intros r d' Hrun. unfold insert_invite in Hrun.
  run_body Hrun; try (by right); left; (eapply ch_invite; [done..|intros ? [=]; lia|]);
    run_body Hexp; eauto.
Qed.

Lemma makes_join io u k now d : makes (change (RqJoin u k now)) (join_channel_by_invite io u k now) d.
Proof.
  unfold join_channel_by_invite. apply makes_tx. intros a d' Hrun.
  unfold consume_invite, insert_member_or_nothing, insert_membership, membership_of in Hrun. run_body Hrun.
  constructor; simpl in *; try done. lia.
Qed.

Lemma readonly_leave_check io c u : readonly (leave_check io c u).
Proof.
  intros d. unfold leave_check, mbind_, fetch, fails, throw, mret. by repeat case_match; simplify_eq/=.
Qed.

Lemma makes_leave io c u d : makes (change (RqLeave c u)) (leave_channel io c u) d.
Proof.
  unfold leave_channel. apply makes_bind; [apply readonly_leave_check|].
  intros [] Hrun. unfold leave_check, membership_of in Hrun. run_body Hrun.
  apply makes_execute. intros r d' [= <- <-]. left. by econstructor.
Qed.

Lemma makes_revoke io c u k d : makes (change (RqRevoke c u k)) (revoke_invite io c u k) d.
Proof.
  unfold revoke_invite. apply makes_bind; [apply readonly_require_moderator|].
  intros role [_ Hmod]%require_moderator_Ok.
  unfold makes, mbind_, execute, delete_invite. destruct (invites d !! k) as [i|] eqn:Hi.
  - case_bool_decide; destruct (io 1%nat) as [[e []]|]; simpl; auto; left; by econstructor.
  - destruct (io 1%nat) as [[e []]|]; simpl; auto.
Qed.

Lemma makes_ban io c r t now d : makes (change (RqBan c r t now)) (ban_member io c r t now) d.
Proof.
  unfold ban_member. case_bool_decide; [apply makes_fails|]. apply makes_tx.
  intros a d' Hrun. unfold mbind_ at 1 in Hrun.
  destruct (require_moderator _ _ _ _ d) as [[role|e] d1] eqn:Hreq; [|done].
  apply require_moderator_Ok in Hreq as [-> Hmod]. unfold ban_row, update_member, membership_of in Hrun.
  run_body Hrun.
  pose proof Hmod as (_ & _ & _ & _ & Hne). eapply ch_ban; try done.
  destruct role, (parse_role (m_role m)); simpl in *; auto; done.
Qed.

Lemma makes_unban io c r t d : makes (change (RqUnban c r t)) (unban_member io c r t) d.
Proof.
  unfold unban_member. apply makes_tx. intros a d' Hrun. unfold mbind_ at 1 in Hrun.
  destruct (require_moderator _ _ _ _ d) as [[role|e] d1] eqn:Hreq; [|done].
  apply require_moderator_Ok in Hreq as [-> Hmod]. unfold update_member, membership_of in Hrun.
  run_body Hrun. by econstructor.
Qed.

Lemma makes_role io c r t new d : makes (change (RqRole c r t new)) (change_role io c r t new) d.
Proof.
  unfold change_role. apply makes_bind; [apply readonly_lift_result|]. intros role [= Hrole].
  apply makes_tx. intros a d' Hrun. unfold update_member, membership_of in Hrun.
  unfold parse_assignable_role in Hrole. run_body Hrun;
    (subst; eapply ch_role; try done; [|auto]; unfold moderates; naive_solver).
Qed.

Lemma makes_sweep io now d : makes (change (RqSweep now)) (sweep_expired_invites io now) d.
Proof. apply makes_execute. intros res d' [= <- <-]. left. constructor. Qed.

Lemma makes_passthrough io c b d ch :
  channels d !! c = Some ch →
  makes (change (RqPassthrough c b)) (execute db_error io 0 (update_passthrough c b)) d.
Proof.
  intros Hch. apply makes_execute. intros res d'. unfold update_passthrough. rewrite Hch.
  intros [= <- <-]. left. by constructor.
Qed.

Lemma readonly_get_channel_detail io c u : readonly (get_channel_detail io c u).
Proof.
  intros d. unfold get_channel_detail, mbind_, fetch, fails, throw, mret. by repeat case_match; simplify_eq/=.
Qed.

Lemma readonly_void {A} (m : Prog A) : readonly m → readonly (void m).
Proof. intros Hm. apply readonly_bind; [done|]. intros _. apply readonly_mret. Qed.

(** The requests that have nothing to change: queries, a user that is already
    registered, the setting of a channel that does not exist. *)
Definition idle (rq : Request) d : Prop :=
  match rq with
  | RqList _ | RqDetail _ _ | RqBans _ _ | RqInvites _ _ _ => True
  | RqRegister u _ => is_Some (users d !! u)
  | RqPassthrough c _ => channels d !! c = None
  | _ => False
  end.

#[local] Hint Resolve makes_create makes_delete makes_invite makes_join makes_leave makes_revoke makes_ban
  makes_unban makes_role makes_sweep makes_void readonly_require_moderator readonly_leave_check
  readonly_get_channel_detail : wavis.

Lemma perform_makes io rq d :
  makes (change rq) (perform io rq) d ∨ (idle rq d ∧ (perform io rq d).2 = d).
Proof.
  destruct rq; simpl; try (by left; eauto with wavis); try (right; split; [done|]; apply readonly_void;
    unfold list_bans, list_invites, list_channels; eauto with wavis).
  - unfold makes, register, modify. simpl. destruct (users d !! u) eqn:Hu; [right; eauto|left; left; by constructor].
  - destruct (channels d !! c) as [ch|] eqn:Hch; [left; eauto using makes_passthrough with wavis|].
    right. split; [done|]. unfold void, mbind_, execute, update_passthrough, mret. rewrite Hch.
    by destruct (io 0%nat) as [[e []]|].
Qed.

(** ** Failures *)

#[local] Hint Resolve all_or_nothing_in_tx all_or_nothing_bind readonly_all_or_nothing : wavis.

Lemma all_or_nothing_void {A} (m : Prog A) : all_or_nothing m → all_or_nothing (void m).
Proof.
  intros Hm d e d' Hrun. unfold void, mbind_, mret in Hrun.
  destruct (m d) as [[a|e'] d1] eqn:E; simplify_eq/=. by eapply Hm.
Qed.

(** Statement by statement: transactions roll back, single statements are
    atomic, the rest only reads. *)
Ltac solve_atomic :=
  repeat first
    [ progress intros
    | solve [apply all_or_nothing_in_tx; done]
    | solve [apply readonly_all_or_nothing; eauto 4 with wavis]
    | apply all_or_nothing_bind; [solve [eauto 4 with wavis]|]
    | apply all_or_nothing_execute; [done|]
    | case_match ].

Lemma all_or_nothing_revoke io c u k : clean io → all_or_nothing (revoke_invite io c u k).
Proof.
  intros Hc. unfold revoke_invite. apply all_or_nothing_bind; [apply readonly_require_moderator|].
  intros _ d e d'. unfold mbind_, execute, delete_invite. destruct (io 1%nat) as [f|] eqn:Hf.
  - rewrite (Hc _ _ Hf). by intros [= <- <-].
  - intros Hrun. run_body Hrun.
Qed.

Lemma perform_all_or_nothing io rq : clean io → all_or_nothing (perform io rq).
Proof.
  intros Hc. destruct rq; simpl; try apply all_or_nothing_void; try by apply all_or_nothing_revoke.
  all: unfold create_channel, list_channels, delete_channel, create_invite, join_channel_by_invite,
    leave_channel, ban_member, unban_member, list_bans, list_invites, change_role, sweep_expired_invites, fails.
  all: solve_atomic; unfold insert_invite, delete_membership, delete_expired_invites, update_passthrough in *;
    by split_match.
Qed.

(** ** Integrity of the tables *)

(** Foreign keys and checks hold; the owner named in a channel's row is a member
    with the owner's role, not banned, and no one else has that role. *)
Record db_wf d : Prop := {
  wf_member c u m : memberships d !! (c, u) = Some m →
    is_Some (channels d !! c) ∧ is_Some (users d !! u) ∧ m_role m ∈ ["owner"; "admin"; "member"]%string;
  wf_owner c ch : channels d !! c = Some ch →
    ∃ m, memberships d !! (c, t_owner ch) = Some m ∧ m_role m = "owner"%string ∧ m_banned_at m = None;
  wf_one_owner c ch u m : channels d !! c = Some ch → memberships d !! (c, u) = Some m →
    m_role m = "owner"%string → u = t_owner ch;
  wf_invite k i : invites d !! k = Some i →
    is_Some (channels d !! i_channel i) ∧ 0 ≤ i_uses i ∧
    (∀ n, i_max_uses i = Some n → 0 < n ∧ i_uses i ≤ n)
}.

Lemma parse_role_owner s : parse_role s = Owner ↔ s = "owner"%string.
Proof. unfold parse_role. repeat case_bool_decide; naive_solver. Qed.

(** Rewriting one member's row: its owner status must not change, and an owner
    must not be banned. *)
Lemma wf_put_member d c u m m' :
  db_wf d → memberships d !! (c, u) = Some m → m_role m' ∈ ["owner"; "admin"; "member"]%string →
  m_role m ≠ "owner"%string ∨ m_banned_at m' = None →
  (m_role m = "owner" ↔ m_role m' = "owner")%string →
  db_wf (put_member c u m' d).
Proof.
  intros Hwf Hm Hin Hban Hown. constructor; simpl.
  - intros c1 u1 m1. rewrite lookup_insert_Some. intros [[[= <- <-] <-]|[_ Hm1]]; [|by eapply wf_member].
    split_and!; [..|done]; by eapply wf_member.
  - intros c1 ch Hch. destruct (wf_owner _ Hwf _ _ Hch) as (m1 & Hm1 & Hr & Hb).
    destruct (decide ((c, u) = (c1, t_owner ch))) as [[= -> ->]|Hne].
    + rewrite lookup_insert_eq. exists m'. simplify_eq. naive_solver.
    + rewrite lookup_insert_ne by done. eauto.
  - intros c1 ch u1 m1 Hch. rewrite lookup_insert_Some. intros [[[= <- <-] <-]|[_ Hm1]] Hr.
    + eapply wf_one_owner; [done..|]. naive_solver.
    + by eapply wf_one_owner.
  - apply (wf_invite _ Hwf).
Qed.

Definition invite_ok d (i : InviteRow) : Prop :=
  is_Some (channels d !! i_channel i) ∧ 0 ≤ i_uses i ∧ (∀ n, i_max_uses i = Some n → 0 < n ∧ i_uses i ≤ n).

Lemma wf_set_invites d x :
  db_wf d → (∀ k i, x !! k = Some i → invite_ok d i) → db_wf (set_invites x d).
Proof. intros [] Hx. by constructor. Qed.

(** A new row, of a user that had none. *)
Lemma wf_new_member d c u m :
  db_wf d → memberships d !! (c, u) = None → is_Some (channels d !! c) → is_Some (users d !! u) →
  m_role m = "member"%string → db_wf (put_member c u m d).
Proof.
  intros Hwf Hm Hc Hu Hr. constructor; simpl.
  - intros c1 u1 m1. rewrite lookup_insert_Some. intros [[[= <- <-] <-]|[_ Hm1]]; [|by eapply wf_member].
    rewrite Hr. split_and!; [done..|set_solver].
  - intros c1 ch Hch. destruct (wf_owner _ Hwf _ _ Hch) as (m1 & Hm1 & ?).
    exists m1. by rewrite lookup_insert_ne by congruence.
  - intros c1 ch u1 m1 Hch. rewrite lookup_insert_Some. intros [[[= <- <-] <-]|[_ Hm1]]; [congruence|].
    by eapply wf_one_owner.
  - apply (wf_invite _ Hwf).
Qed.

Lemma wf_create d c u name now :
  db_wf d → channels d !! c = None → is_Some (users d !! u) →
  db_wf (put_member c u (mkMemberRow "owner" None now)
           (set_channels (<[c := mkChannelRow name u now false]> (channels d)) d)).
Proof.
  intros Hwf Hc Hu.
  assert (∀ u1 m, memberships d !! (c, u1) = Some m → False) as Hnone.
  { intros u1 m Hm. destruct (wf_member _ Hwf _ _ _ Hm) as [[ch Hch] _]. naive_solver. }
  constructor; simpl.
  - intros c1 u1 m. rewrite lookup_insert_Some. intros [[[= <- <-] <-]|[_ Hm]].
    + rewrite lookup_insert_eq. split_and!; [done..|set_solver].
    + rewrite lookup_insert_ne by (intros ->; eauto). by eapply wf_member.
  - intros c1 ch. rewrite lookup_insert_Some. intros [[<- <-]|[Hne Hch]].
    + simpl. rewrite lookup_insert_eq. eauto.
    + destruct (wf_owner _ Hwf _ _ Hch) as (m & ?). exists m. by rewrite lookup_insert_ne by congruence.
  - intros c1 ch u1 m. rewrite !lookup_insert_Some. intros [[<- <-]|[Hne Hch]] [[Heq <-]|[? Hm]] Hr;
      simplify_eq/=; [done|by destruct (Hnone u1 m)|]. by eapply wf_one_owner.
  - intros k i Hi. destruct (wf_invite _ Hwf _ _ Hi) as ([ch Hch] & ?). split; [|done].
    rewrite lookup_insert_ne by congruence. eauto.
Qed.

Lemma wf_delete d c : db_wf d → db_wf (delete_channel_row c d).2.
Proof.
  intros Hwf. constructor; simpl.
  - intros c1 u m. rewrite map_lookup_filter_Some. simpl. intros [Hm Hne].
    rewrite lookup_delete_ne by done. by eapply wf_member.
  - intros c1 ch. rewrite lookup_delete_Some. intros [Hne Hch].
    destruct (wf_owner _ Hwf _ _ Hch) as (m & Hm & ?). exists m. by rewrite map_lookup_filter_Some.
  - intros c1 ch u m. rewrite lookup_delete_Some, map_lookup_filter_Some. intros [? Hch] [Hm _].
    by eapply wf_one_owner.
  - intros k i. rewrite map_lookup_filter_Some. simpl. intros [Hi Hne].
    rewrite lookup_delete_ne by done. by eapply wf_invite.
Qed.

Lemma wf_leave d c u m :
  db_wf d → memberships d !! (c, u) = Some m → m_role m ≠ "owner"%string →
  db_wf (set_memberships (delete (c, u) (memberships d)) d).
Proof.
  intros Hwf Hm Hr. constructor; simpl.
  - intros c1 u1 m1. rewrite lookup_delete_Some. intros [_ ?]. by eapply wf_member.
  - intros c1 ch Hch. destruct (wf_owner _ Hwf _ _ Hch) as (m1 & Hm1 & ?). exists m1.
    rewrite lookup_delete_ne by (intros [= -> ->]; naive_solver). done.
  - intros c1 ch u1 m1 Hch. rewrite lookup_delete_Some. intros [_ ?]. by eapply wf_one_owner.
  - apply (wf_invite _ Hwf).
Qed.

Lemma change_wf rq d d' : change rq d d' → db_wf d → db_wf d'.
Proof.
  intros Hch Hwf. destruct Hch as [u n d Hu|u name c now d Hv Hc Hu|c u ch d Hc Ho
    |c u secs mx code n1 n2 role ex d Hmod Hi Hc Hmx Hex|u code now i d Hi Hl Hmax Hm Hc Hu
    |c u m d Hm Hb Hr|c u code role i d Hmod Hi Hc|c r t now role m d Hrt Hmod Hm Hb Hr Hp
    |c r t role m d Hmod Hm Hb|c r t new m d Hrt Hmod Hm Hb Hr Hn|now d|c b ch d Hc].
  - destruct Hwf as [W1 W2 W3 W4]. constructor; simpl; [|done..]. intros c1 u1 m Hm.
    destruct (W1 _ _ _ Hm) as (? & ? & ?). split_and!; [done| |done]. rewrite lookup_insert_is_Some'. tauto.
  - by apply wf_create.
  - by apply wf_delete.
  - apply wf_set_invites; [done|]. intros k i. rewrite lookup_insert_Some.
    intros [[_ <-]|[_ ?]]; [|by eapply wf_invite]. split_and!; simpl; [done..|]. intros n ->. specialize (Hmx n eq_refl). lia.
  - apply wf_new_member; [|done..]. apply wf_set_invites; [done|]. intros k j. rewrite lookup_insert_Some.
    intros [[_ <-]|[_ ?]]; [|by eapply wf_invite]. destruct (wf_invite _ Hwf _ _ Hi) as (? & ? & Hn).
    split_and!; simpl; [done|lia|]. intros n En. specialize (Hn n En).
    unfold invite_live in Hl. rewrite En in Hl. apply andb_true_iff in Hl as [_ Hl%bool_decide_eq_true]. lia.
  - eapply wf_leave; [done..|]. by rewrite <-parse_role_owner.
  - apply wf_set_invites; [done|]. intros k j. rewrite lookup_delete_Some. intros [_ ?]. by eapply wf_invite.
  - eapply wf_put_member; [done..| | |done]; [exact (proj2 (proj2 (wf_member _ Hwf _ _ _ Hm)))|]. left. by rewrite <-parse_role_owner.
  - eapply wf_put_member; [done..| | |done]; [exact (proj2 (proj2 (wf_member _ Hwf _ _ _ Hm)))|by right].
  - eapply wf_put_member; [done..| | |]; simpl; [set_solver|right; done|].
    rewrite parse_role_owner in Hr. naive_solver.
  - apply wf_set_invites; [done|]. intros k j. rewrite map_lookup_filter_Some. intros [? _]. by eapply wf_invite.
  - destruct Hwf as [W1 W2 W3 W4]. constructor; simpl.
    + intros c1 u m Hm. destruct (W1 _ _ _ Hm) as (? & ? & ?). rewrite lookup_insert_is_Some'. tauto.
    + intros c1 ch1. rewrite lookup_insert_Some. intros [[<- <-]|[_ ?]]; [exact (W2 _ _ Hc)|by apply W2].
    + intros c1 ch1 u m. rewrite lookup_insert_Some. intros [[<- <-]|[_ ?]]; [exact (W3 _ _ _ _ Hc)|by eapply W3].
    + intros k i Hi. destruct (W4 _ _ Hi) as (? & ?). rewrite lookup_insert_is_Some'. tauto.
Qed.

(** ** A request that may make its change makes it *)

(** Follow a request whose guards are known: only the successful branch is left
    open. *)
Ltac follow :=
  unfold void, mbind_, execute, fetch, in_tx, lift_result, no_failure, membership_of, fails, throw, mret;
  repeat (case_match; simplify_eq/=); decided;
  repeat match goal with Hs : is_Some _ |- _ => destruct Hs as [? Hs] end;
  try rewrite lookup_insert_eq in *; try done; try congruence.

Lemma require_moderator_run k c u role d :
  moderates d c u role → require_moderator no_failure k c u d = (Ok role, d).
Proof.
  intros (m & Hm & Hb & <- & Hr). unfold require_moderator. unfold mbind_, fetch, no_failure, membership_of, mret.
  rewrite Hm. rewrite bool_decide_false by (rewrite Hb; by intros []). by rewrite bool_decide_false.
Qed.

Lemma elem_of_owner_rows d c c1 u m :
  (c1, u, m) ∈ owner_rows c d ↔
    c1 = c ∧ m_role m = "owner"%string ∧ memberships d !! (c1, u) = Some m.
Proof.
  change (owner_rows c d) with (retain (λ x, bool_decide (x.1.1 = c) && bool_decide (m_role x.2 = "owner"%string))
    (map_to_list (memberships d))).
  rewrite elem_of_retain, elem_of_map_to_list, andb_true_iff, !bool_decide_eq_true. simpl. tauto.
Qed.

Lemma owner_rows_fresh d c : db_wf d → channels d !! c = None → owner_rows c d = [].
Proof.
  intros Hwf Hc. apply elem_of_nil_inv. intros [[c1 u] m] (-> & _ & Hm)%elem_of_owner_rows.
  destruct (wf_member _ Hwf _ _ _ Hm) as [[ch Hch] _]. by rewrite Hc in Hch.
Qed.

Lemma change_runs rq d d' : db_wf d → change rq d d' → perform no_failure rq d = (Ok tt, d').
Proof.
  intros Hwf Hch. destruct Hch as [u n d Hu|u name c now d Hv Hc Hu|c u ch d Hc Ho
    |c u secs mx code n1 n2 role ex d Hmod Hi Hc Hmx Hex|u code now i d Hi Hl Hmax Hm Hc Hu
    |c u m d Hm Hb Hr|c u code role i d Hmod Hi Hc|c r t now role m d Hrt Hmod Hm Hb Hr Hp
    |c r t role m d Hmod Hm Hb|c r t new m d Hrt Hmod Hm Hb Hr Hn|now d|c b ch d Hc]; simpl.
  - unfold register, modify. by rewrite Hu.
  - assert (memberships d !! (c, u) = None) as Hnone.
    { apply eq_None_not_Some. intros [m Hm]. destruct (wf_member _ Hwf _ _ _ Hm) as [[]]. congruence. }
    pose proof (owner_rows_fresh d c Hwf Hc) as Hown.
    unfold create_channel. rewrite Hv. unfold insert_channel, insert_membership. follow.
  - unfold delete_channel. follow.
  - unfold create_invite. unfold void, mbind_ at 1 2. rewrite (require_moderator_run _ _ _ _ _ Hmod).
    unfold insert_invite. destruct secs as [s|]; [destruct Hex as (t & Hs & ->); rewrite Hs|subst ex]; follow.
    all: specialize (Hmx z eq_refl); lia.
  - unfold join_channel_by_invite, consume_invite, insert_member_or_nothing, insert_membership. follow. lia.
  - unfold leave_channel, leave_check. follow.
  - unfold revoke_invite. unfold mbind_ at 1. rewrite (require_moderator_run _ _ _ _ _ Hmod).
    unfold delete_invite. follow.
  - unfold ban_member. rewrite bool_decide_false by done. unfold void, in_tx, mbind_ at 1 2.
    rewrite (require_moderator_run _ _ _ _ _ Hmod). unfold ban_row, update_member. follow.
    destruct Hp; congruence.
  - unfold unban_member, in_tx, mbind_ at 1. rewrite (require_moderator_run _ _ _ _ _ Hmod).
    unfold update_member. follow.
  - destruct Hmod as (mr & Hmr & Hbr & Hown & _). unfold change_role, parse_assignable_role, update_member.
    destruct Hn as [-> | ->]; follow.
  - done.
  - unfold update_passthrough. follow.
Qed.

(** ** Panics *)

Definition never_panics {A} (m : Prog A) : Prop := ∀ d, (m d).1 ≠ Err Panicked.

Lemma never_panics_bind {A B} (m : Prog A) (k : A → Prog B) :
  never_panics m → (∀ a, never_panics (k a)) → never_panics (mbind_ m k).
Proof.
  intros Hm Hk d. unfold mbind_. specialize (Hm d). destruct (m d) as [[a|e] d']; [by apply Hk|].
  simpl in *. congruence.
Qed.
Lemma never_panics_fetch {A} io k (q : Db → A) : never_panics (fetch db_error io k q).
Proof. intros d. unfold fetch. by destruct (io k). Qed.
Lemma never_panics_execute {A} io k (stmt : Statement A) : never_panics (execute db_error io k stmt).
Proof. intros d. unfold execute. destruct (io k); [done|]. by destruct (stmt d) as [[] ?]. Qed.
Lemma never_panics_in_tx {A} io k1 k2 (m : Prog A) : never_panics m → never_panics (in_tx db_error io k1 k2 m).
Proof.
  intros Hm d. unfold in_tx. specialize (Hm d). destruct (io k1); [done|].
  destruct (m d) as [[a|e] d']; [by destruct (io k2)|]. simpl in *. congruence.
Qed.
Lemma never_panics_fails {A} e : never_panics (A:=A) (fails e).
Proof. done. Qed.
Lemma never_panics_mret {A} (a : A) : never_panics (mret a).
Proof. done. Qed.
Lemma never_panics_name n : never_panics (lift_result (validate_channel_name n)).
Proof. intros d. unfold lift_result, validate_channel_name. by case_match. Qed.

Ltac solve_calm :=
  repeat first
    [ progress intros
    | apply never_panics_bind | apply never_panics_in_tx | apply never_panics_fetch | apply never_panics_execute
    | apply never_panics_fails | apply never_panics_mret | apply never_panics_name | case_match ].

Lemma never_panics_require io k c u : never_panics (require_moderator io k c u).
Proof. unfold require_moderator. solve_calm. Qed.

Lemma never_panics_lift {A B} (x : Result A Stopped) (k : A → Prog B) :
  match x with Ok a => never_panics (k a) | Err e => e ≠ Panicked end →
  never_panics (mbind_ (lift_result x) k).
Proof. destruct x; intros Hx d; [apply Hx|]. unfold mbind_, lift_result. simpl. congruence. Qed.

Lemma never_panics_role io c r t new : never_panics (change_role io c r t new).
Proof.
  apply never_panics_lift. unfold parse_assignable_role. repeat case_bool_decide; [solve_calm..|done].
Qed.

Lemma never_panics_void {A} (m : Prog A) : never_panics m → never_panics (void m).
Proof. intros Hm. unfold void. by apply never_panics_bind. Qed.

(** Only an expiry chrono cannot represent makes a request panic. *)
Lemma perform_panics io rq d :
  (perform io rq d).1 = Err Panicked →
  ∃ c u secs n k now1 now2, rq = RqInvite c u (Some secs) n k now1 now2 ∧ plus_seconds now1 secs = None.
Proof.
  assert (never_panics (perform io rq) → (perform io rq d).1 = Err Panicked → False) as Hcalm.
  { intros Hc. apply Hc. }
  destruct rq as [| | | | |c u [secs|] n k now1 now2| | | | | | | | | |]; try (intros Hp; destruct Hcalm; [|done]; simpl;
    try apply never_panics_void; try apply never_panics_role;
    unfold create_channel, list_channels, get_channel_detail, delete_channel, create_invite, join_channel_by_invite,
      leave_channel, leave_check, revoke_invite, ban_member, unban_member, list_bans, list_invites,
      sweep_expired_invites, require_moderator; solve_calm; done).
  destruct (plus_seconds now1 secs) as [ex|] eqn:Hs; [|naive_solver].
  intros Hp. destruct Hcalm; [|done]. simpl. apply never_panics_void. unfold create_invite, require_moderator.
  rewrite Hs. solve_calm.
Qed.

(** ** Reading a channel *)

Lemma head_owner_rows d c ch :
  db_wf d → channels d !! c = Some ch → ∃ m, head (owner_rows c d) = Some (c, t_owner ch, m).
Proof.
  intros Hwf Hc. destruct (wf_owner _ Hwf _ _ Hc) as (m & Hm & Hr & _).
  assert ((c, t_owner ch, m) ∈ owner_rows c d) as Hin by (by apply elem_of_owner_rows).
  destruct (owner_rows c d) as [|[[c1 u] m1] l] eqn:E; [by apply not_elem_of_nil in Hin|].
  assert ((c1, u, m1) ∈ owner_rows c d) as (-> & Hr1 & Hm1)%elem_of_owner_rows by (rewrite E; set_solver).
  rewrite (wf_one_owner _ Hwf _ _ _ _ Hc Hm1 Hr1). eauto.
Qed.

Lemma elem_of_members d c x :
  x ∈ omap (member_info c d) (map_to_list (memberships d)) ↔
    ∃ m, memberships d !! (c, mi_user_id x) = Some m ∧ m_banned_at m = None ∧
      mi_role x = parse_role (m_role m) ∧ mi_joined_at x = m_joined_at m ∧
      mi_display_name x = default EmptyString (users d !! mi_user_id x).
Proof.
  rewrite list_elem_of_omap. split.
  - intros ([[c1 u] m] & Hin%elem_of_map_to_list & Hi). unfold member_info in Hi.
    repeat case_bool_decide; simplify_eq/=. eauto 6.
  - intros (m & Hm & Hb & Hr & Hj & Hn). exists (c, mi_user_id x, m). rewrite elem_of_map_to_list.
    split; [done|]. simpl. rewrite !bool_decide_true by done. simpl. destruct x. naive_solver.
Qed.

(** The answer to a request for a channel's details. *)
Lemma get_channel_detail_run d c u :
  db_wf d →
  get_channel_detail no_failure c u d =
    (match memberships d !! (c, u) with
     | None => Err (Failed ChErr.NotMember)
     | Some m =>
         match m_banned_at m, channels d !! c with
         | Some _, _ => Err (Failed ChErr.Banned)
         | None, None => Err (Failed ChErr.ChannelNotFound)
         | None, Some ch => Ok (mkChannelDetail c (t_name ch) (t_owner ch) (t_created_at ch) (parse_role (m_role m))
                                  (omap (member_info c d) (map_to_list (memberships d))))
         end
     end, d).
Proof.
  intros Hwf. unfold get_channel_detail, mbind_, fetch, no_failure, membership_of, fails, throw, mret.
  destruct (memberships d !! (c, u)) as [m|] eqn:Hm; [|done].
  destruct (m_banned_at m) as [b|] eqn:Hb.
  { rewrite bool_decide_true by eauto. done. }
  rewrite bool_decide_false by (by intros []). destruct (channels d !! c) as [ch|] eqn:Hc; [|done].
  destruct (head_owner_rows _ _ _ Hwf Hc) as [m1 ->]. by rewrite bool_decide_true.
Qed.

(** ** Bans *)

Definition banned d c u : Prop := ∃ m, memberships d !! (c, u) = Some m ∧ is_Some (m_banned_at m).

(** The requests that end a ban: one to unban the user, one to delete the channel. *)
Definition lifts_ban (rq : Request) c u : Prop :=
  match rq with
  | RqUnban c1 _ t => c1 = c ∧ t = u
  | RqDelete c1 _ => c1 = c
  | _ => False
  end.

(** The channel and the user a request acts in and for. *)
Definition acts_as (rq : Request) d : option (Uuid * Uuid) :=
  match rq with
  | RqDetail c u | RqDelete c u | RqInvite c u _ _ _ _ _ | RqLeave c u | RqRevoke c u _
  | RqBan c u _ _ | RqUnban c u _ | RqBans c u | RqInvites c u _ | RqRole c u _ _ => Some (c, u)
  | RqJoin u code _ => i ← invites d !! code; Some (i_channel i, u)
  | RqRegister _ _ | RqCreate _ _ _ _ | RqList _ | RqSweep _ | RqPassthrough _ _ => None
  end.

Lemma banned_not_moderates d c u role : banned d c u → moderates d c u role → False.
Proof. intros (m & Hm & Hb) (m' & Hm' & Hb' & _). simplify_eq. rewrite Hb' in Hb. by destruct Hb. Qed.

Lemma change_keeps_ban rq d d' c u :
  db_wf d → change rq d d' → ¬ lifts_ban rq c u → banned d c u →
  memberships d' !! (c, u) = memberships d !! (c, u).
Proof.
  intros Hwf Hch Hl (m & Hm & b & Hb). destruct (wf_member _ Hwf _ _ _ Hm) as ([ch0 Hc0] & _).
  destruct Hch; simpl in *; try done.
  all: try (apply lookup_insert_ne; intros Heq; simplify_eq; naive_solver).
  - rewrite Hm. by apply map_lookup_filter_Some.
  - apply lookup_delete_ne. intros Heq. congruence.
Qed.

Lemma keeps_ban io rq d c u :
  db_wf d → ¬ lifts_ban rq c u → banned d c u →
  memberships (perform io rq d).2 !! (c, u) = memberships d !! (c, u).
Proof.
  intros Hwf Hl Hb. destruct (perform_makes io rq d) as [[Hc|[-> _]]|[_ ->]]; [|done..].
  by eapply change_keeps_ban.
Qed.

Lemma perform_wf io rq d : db_wf d → db_wf (perform io rq d).2.
Proof.
  intros Hwf. destruct (perform_makes io rq d) as [[Hc|[-> _]]|[_ ->]]; [|done..]. by eapply change_wf.
Qed.

(** A banned user's request in the channel makes no change. *)
Lemma banned_makes_no_change rq d d' c u :
  db_wf d → banned d c u → acts_as rq d = Some (c, u) → change rq d d' → False.
Proof.
  intros Hwf Hb Ha Hch. pose proof (banned_not_moderates d c u) as Hmod. destruct Hb as (m & Hm & b & Hb).
  assert (banned d c u) as Hban by (exists m; eauto).
  destruct Hch; simplify_eq/=; try congruence; try (by eapply Hmod).
  - destruct (wf_owner _ Hwf _ _ H0) as (m1 & Hm1 & _ & Hb1). congruence.
  - rewrite H0 in Ha. naive_solver.
Qed.

Lemma banned_moderator io k c u d :
  banned d c u → ∃ e, require_moderator io k c u d = (Err e, d).
Proof.
  intros (m & Hm & Hb). unfold require_moderator, mbind_, fetch, membership_of. destruct (io k); [eauto|].
  rewrite Hm, bool_decide_true by done. unfold fails, throw. eauto.
Qed.

Lemma banned_refused io rq d c u :
  db_wf d → banned d c u → acts_as rq d = Some (c, u) → ∃ e, perform io rq d = (Err e, d).
Proof.
  intros Hwf Hb Ha. destruct (perform_makes io rq d) as [[Hc|[Heq He]]|[Hi _]].
  - by destruct (banned_makes_no_change _ _ _ _ _ Hwf Hb Ha Hc).
  - destruct (perform io rq d) as [[] ?]; simplify_eq/=. eauto.
  - destruct rq; simplify_eq/=; try done; unfold void; unfold mbind_ at 1.
    + destruct Hb as (m & Hm & Hb). unfold get_channel_detail, mbind_, fetch, membership_of.
      destruct (io 0%nat); [eauto|]. rewrite Hm, bool_decide_true by done. unfold fails, throw. eauto.
    + unfold list_bans, mbind_. destruct (banned_moderator io 0 _ _ _ Hb) as [e ->]. eauto.
    + unfold list_invites, mbind_. destruct (banned_moderator io 0 _ _ _ Hb) as [e ->]. eauto.
Qed.

(** ** Authority *)

(** The requests a user makes about its own row. *)
Definition own_row (rq : Request) d c u : Prop :=
  match rq with
  | RqCreate u1 _ c1 _ => c1 = c ∧ u1 = u
  | RqJoin u1 code _ => u1 = u ∧ i_channel <$> invites d !! code = Some c
  | RqLeave c1 u1 => c1 = c ∧ u1 = u
  | _ => False
  end.

(** A moderator with [role] rewrites the row [m] of another user to [m']: the
    ban or the role only, never the owner's, and an admin acts on members only,
    unless it lifts a ban. *)
Definition moderated (role : ChannelRole) (m m' : MemberRow) : Prop :=
  parse_role (m_role m) ≠ Owner ∧ m_joined_at m' = m_joined_at m ∧
  ((m_role m' = m_role m ∧ m_banned_at m = None ∧ is_Some (m_banned_at m') ∧
      (role = Owner ∨ parse_role (m_role m) = Member)) ∨
   (m_role m' = m_role m ∧ is_Some (m_banned_at m) ∧ m_banned_at m' = None) ∨
   (role = Owner ∧ m_banned_at m = None ∧ m_banned_at m' = None ∧ parse_role (m_role m') ≠ Owner)).

Lemma change_authority rq d d' c t :
  db_wf d → change rq d d' → memberships d' !! (c, t) ≠ memberships d !! (c, t) →
  own_row rq d c t ∨
  (∃ r ch, rq = RqDelete c r ∧ channels d !! c = Some ch ∧ t_owner ch = r) ∨
  (∃ r role m m', acts_as rq d = Some (c, r) ∧ r ≠ t ∧ moderates d c r role ∧
     memberships d !! (c, t) = Some m ∧ memberships d' !! (c, t) = Some m' ∧ moderated role m m').
Proof.
  intros Hwf Hch Hne.
  assert (∀ c1 t1 m' (x : gmap (Uuid * Uuid) MemberRow), <[(c1, t1) := m']> x !! (c, t) ≠ x !! (c, t) → c1 = c ∧ t1 = t) as Hins.
  { intros c1 t1 m' x Hx. destruct (decide ((c1, t1) = (c, t))) as [[= -> ->]|]; [done|].
    by rewrite lookup_insert_ne in Hx. }
  destruct Hch as [|u name c1 now d Hv Hc Hu|c1 u ch d Hc Ho|
    |u code now i d Hi Hl Hmax Hm Hc Hu|c1 u m d Hm Hb Hr| |c1 r t1 now role m d Hrt Hmod Hm Hb Hr Hp
    |c1 r t1 role m d Hmod Hm Hb|c1 r t1 new m d Hrt Hmod Hm Hb Hr Hn| |]; simpl in *; try done.
  - left. by apply Hins in Hne.
  - right; left. exists u, ch. destruct (decide (c1 = c)) as [->|Hc1]; [done|]. destruct Hne.
    rewrite map_lookup_filter. by destruct (memberships d !! (c, t)); simpl; [rewrite option_guard_True|].
  - left. apply Hins in Hne as [Hic ->]. rewrite Hi. simpl. by rewrite Hic.
  - left. destruct (decide ((c1, u) = (c, t))) as [[= -> ->]|]; [done|]. by rewrite lookup_delete_ne in Hne.
  - right; right. pose proof (Hins _ _ _ _ Hne) as [-> ->]. rewrite lookup_insert_eq. unfold moderated.
    eexists r, role, m, _. split_and!; try done. left. eauto.
  - right; right. pose proof (Hins _ _ _ _ Hne) as [-> ->]. rewrite lookup_insert_eq. unfold moderated.
    assert (banned d c t) as Hban by (by exists m). eexists r, role, m, _. split_and!; try done.
    + intros ->. by eapply banned_not_moderates.
    + rewrite parse_role_owner. intros Hr. destruct (wf_member _ Hwf _ _ _ Hm) as ([ch Hc] & _).
      destruct (wf_owner _ Hwf _ _ Hc) as (m1 & Hm1 & _ & Hb1).
      rewrite <-(wf_one_owner _ Hwf _ _ _ _ Hc Hm Hr) in Hm1. simplify_eq. rewrite Hb1 in Hb. by destruct Hb.
    + right; left. done.
  - right; right. pose proof (Hins _ _ _ _ Hne) as [-> ->]. rewrite lookup_insert_eq. unfold moderated.
    eexists r, Owner, m, _. split_and!; try done. right; right. split_and!; [done..|]. simpl.
    by destruct Hn as [-> | ->].
Qed.

(** ** Sequences of requests *)

(** The tables after a sequence of requests, each with the failures it meets. *)
Definition serve (l : list (Io * Request)) d : Db := foldl (λ d x, (perform x.1 x.2 d).2) d l.

Definition empty_db : Db := mkChannelDb ∅ ∅ ∅ ∅.

Lemma empty_db_wf : db_wf empty_db.
Proof. constructor; simpl; intros *; by rewrite lookup_empty. Qed.

Lemma serve_wf l d : db_wf d → db_wf (serve l d).
Proof. revert d. induction l as [|[io rq] l IH]; intros d Hwf; [done|]. apply IH. by apply perform_wf. Qed.

Lemma serve_keeps_ban l d c u :
  db_wf d → banned d c u → (∀ x, x ∈ l → ¬ lifts_ban x.2 c u) →
  memberships (serve l d) !! (c, u) = memberships d !! (c, u).
Proof.
  revert d. induction l as [|[io rq] l IH]; intros d Hwf Hb Hl; [done|]. simpl.
  pose proof (keeps_ban io rq d c u Hwf (Hl (io, rq) (list_elem_of_here _ _)) Hb) as Hk.
  change (memberships (serve l (perform io rq d).2) !! (c, u) = memberships d !! (c, u)).
  rewrite IH; [done|by apply perform_wf| |set_solver]. unfold banned. by rewrite Hk.
Qed.

Lemma detail_owner_consistent io c u d :
  db_wf d → (get_channel_detail io c u d).1 ≠ Err (Failed ChErr.OwnerConsistencyViolation).
Proof.
  intros Hwf. unfold get_channel_detail, mbind_, fetch, membership_of, fails, throw, mret, db_error.
  destruct (io 0%nat); [done|]. destruct (memberships d !! (c, u)) as [m|]; [|done].
  case_bool_decide; [done|]. destruct (io 1%nat); [done|].
  destruct (channels d !! c) as [ch|] eqn:Hc; [|done]. destruct (io 2%nat); [done|].
  destruct (head_owner_rows _ _ _ Hwf Hc) as [m1 ->]. rewrite bool_decide_true by done. simpl.
  by destruct (io 3%nat).
Qed.

(** C9: Whatever statement fails, a request makes the one change the channel
    rules allow it or none at all; when it succeeds, it has made that change
    (or had nothing to change); when it fails and the database did not lose the
    answer to a write, it has made none; and without failures of the database
    it succeeds whenever its change is allowed. *)
Theorem requests_follow_rules io rq d res d' :
  db_wf d → perform io rq d = (res, d') →
  (change rq d d' ∨ d' = d) ∧
  (res = Ok tt → change rq d d' ∨ (idle rq d ∧ d' = d)) ∧
  (clean io → is_Ok res = false → d' = d) ∧
  (∀ d2, change rq d d2 → perform no_failure rq d = (Ok tt, d2)).
Proof.
  intros Hwf Hrun. pose proof (perform_makes io rq d) as Hm. unfold makes in Hm. rewrite Hrun in Hm. simpl in Hm.
  split_and!; [naive_solver| | |].
  - intros ->. naive_solver.
  - intros Hc Herr. destruct res as [a|e]; [done|]. by eapply perform_all_or_nothing.
  - intros d2. by apply change_runs.
Qed.

(** C10: After any sequence of requests, with any failures of the database, the
    tables are sound: foreign keys and checks hold and every channel has exactly
    one owner, who is a member and not banned.  So the details of a channel are
    never refused for an inconsistent owner, and no request panics except an
    invite whose expiry is out of range. *)
Theorem channel_tables_sound l :
  let d := serve l empty_db in
  db_wf d ∧
  (∀ io c u, (get_channel_detail io c u d).1 ≠ Err (Failed ChErr.OwnerConsistencyViolation)) ∧
  (∀ io rq, (perform io rq d).1 = Err Panicked →
     ∃ c u secs n k now1 now2, rq = RqInvite c u (Some secs) n k now1 now2 ∧ plus_seconds now1 secs = None).
Proof.
  pose proof (serve_wf l empty_db empty_db_wf) as Hwf. split_and!; [done| |].
  - intros io c u. by apply detail_owner_consistent.
  - intros io rq. apply perform_panics.
Qed.

(** C11: A ban lasts.  Whatever requests follow, as long as none unbans the user or
    deletes the channel, the user's row stays as the ban left it, every request
    of the user in that channel is refused without a change, by whatever invite,
    and the voice module sees no member. *)
Theorem ban_lasts l d c u :
  db_wf d → banned d c u → (∀ x, x ∈ l → ¬ lifts_ban x.2 c u) →
  let d' := serve l d in
  memberships d' !! (c, u) = memberships d !! (c, u) ∧
  (∀ io rq, acts_as rq d' = Some (c, u) → ∃ e, perform io rq d' = (Err e, d')) ∧
  voice_role d' c u = None ∧ (∀ row, voice_membership d' c u = Some row → is_Some (row_banned_at row)).
Proof.
  intros Hwf Hb Hl d'. pose proof (serve_keeps_ban l d c u Hwf Hb Hl) as Hk. fold d' in Hk.
  assert (banned d' c u) as Hb' by (unfold banned; by rewrite Hk).
  split_and!; [done| | |].
  - intros io rq. apply banned_refused; [by apply serve_wf|done].
  - destruct Hb' as (m & Hm & Hs). unfold voice_role. rewrite Hm. simpl. rewrite bool_decide_false; [done|].
    intros Hn. rewrite Hn in Hs. by destruct Hs.
  - destruct Hb' as (m & Hm & Hs). intros row. unfold voice_membership. rewrite Hm. simpl.
    destruct (channels d' !! c); [|done]. by intros [= <-].
Qed.

(** C12: A user's row in a channel changes only by the user's own request to
    create, join or leave, by the owner deleting the channel, or by an owner or
    admin of that channel, not banned, other than the user.  Such a moderator
    changes the ban or the role only and never touches the owner's row; an admin
    bans members only, and roles are the owner's to give, never the owner's
    own. *)
Theorem rows_need_authority io rq d c t :
  db_wf d → let d' := (perform io rq d).2 in
  memberships d' !! (c, t) ≠ memberships d !! (c, t) →
  own_row rq d c t ∨
  (∃ r ch, rq = RqDelete c r ∧ channels d !! c = Some ch ∧ t_owner ch = r) ∨
  (∃ r role m m', acts_as rq d = Some (c, r) ∧ r ≠ t ∧ moderates d c r role ∧
     memberships d !! (c, t) = Some m ∧ memberships d' !! (c, t) = Some m' ∧ moderated role m m').
Proof.
  intros Hwf d' Hne. destruct (perform_makes io rq d) as [[Hc|[Heq _]]|[_ Heq]].
  - by apply change_authority.
  - unfold d' in Hne. by rewrite Heq in Hne.
  - unfold d' in Hne. by rewrite Heq in Hne.
Qed.

(** An expiry out of chrono's range makes the request panic: the value is not
    validated. *)
Theorem invite_expiry_panics c u role secs n k now1 now2 d :
  moderates d c u role → plus_seconds now1 secs = None →
  create_invite plus_seconds no_failure c u (Some secs) n k now1 now2 d = (Err Panicked, d).
Proof.
  intros Hmod Hs. unfold create_invite. unfold mbind_ at 1. rewrite (require_moderator_run _ _ _ _ _ Hmod), Hs. done.
Qed.
End rules.
Arguments Request Uuid : assert, clear implicits.
Arguments change {Uuid _ _} plus_seconds _ _ _ : assert.

(** ** An example *)

Module ChannelDemo.
(** Users are numbers; a time out of 64 bits is out of chrono's range. *)
Definition plus (t secs : Z) : option Z :=
  let x := t + secs * 1000000 in if bool_decide (Z.abs x < 9223372036854775808) then Some x else None.

Definition script : list (Io * Request nat) :=
  map (pair no_failure)
    [RqRegister 1%nat "ann"; RqRegister 2%nat "bob"; RqRegister 3%nat "cy";
     RqCreate 1%nat "den" 7%nat 10; RqInvite 7%nat 1%nat None (Some 5) "code" 11 11;
     RqJoin 2%nat "code" 12; RqJoin 3%nat "code" 13; RqRole 7%nat 1%nat 2%nat "admin"].
Definition den : ChannelDb (Uuid:=nat) := serve plus script empty_db.
Definition after_ban : ChannelDb (Uuid:=nat) := (perform plus no_failure (RqBan 7%nat 2%nat 3%nat 20) den).2.

Lemma den_wf : db_wf den.
Proof. apply serve_wf, empty_db_wf. Qed.

Lemma after_ban_wf : db_wf after_ban.
Proof. apply perform_wf, den_wf. Qed.

Lemma after_ban_banned : banned after_ban 7%nat 3%nat.
Proof. exists (mkMemberRow "member" (Some 20) 13). split; [reflexivity|eauto]. Qed.

(** The check and the deletion of [leave_channel] are separate statements: a ban
    that commits between them is deleted with the row, and the user joins again
    with the same invite. *)
Theorem leave_erases_ban :
  leave_check no_failure 7%nat 3%nat den = (Ok tt, den) ∧
  banned after_ban 7%nat 3%nat ∧
  let d := (delete_membership 7%nat 3%nat after_ban).2 in
  memberships d !! (7, 3)%nat = None ∧
  (join_channel_by_invite no_failure 3%nat "code" 21 d).1 = Ok (mkJoinResult 7%nat "den" Member).
Proof. cbv zeta. split_and!; [reflexivity|apply after_ban_banned|reflexivity|reflexivity]. Qed.

Lemma requests_follow_rules_witness :
  change plus (RqBan 7%nat 2%nat 3%nat 20) den after_ban ∧
  perform plus no_failure (RqBan 7%nat 2%nat 3%nat 20) den = (Ok tt, after_ban).
Proof.
  assert (perform plus no_failure (RqBan 7%nat 2%nat 3%nat 20) den = (Ok tt, after_ban)) as Hrun by reflexivity.
  destruct (requests_follow_rules plus _ _ _ _ _ den_wf Hrun) as (_ & Hok & _ & _). split; [|exact Hrun].
  destruct (Hok eq_refl) as [Hc|[Hi _]]; [exact Hc|destruct Hi].
Defined.

Lemma ban_lasts_witness :
  let later := [(no_failure, RqJoin 3%nat "code" 30); (no_failure, RqLeave 7%nat 3%nat);
                (no_failure, RqRole 7%nat 1%nat 3%nat "admin")] in
  ∃ e, perform plus no_failure (RqJoin 3%nat "code" 31) (serve plus later after_ban) =
    (Err e, serve plus later after_ban).
Proof.
  intros later.
  destruct (ban_lasts plus later after_ban 7%nat 3%nat after_ban_wf after_ban_banned) as (_ & Hr & _).
  - intros x Hx. unfold later in Hx. repeat (apply elem_of_cons in Hx as [-> | Hx]; [simpl; tauto|]).
    by apply not_elem_of_nil in Hx.
  - apply Hr. reflexivity.
Defined.

Lemma rows_need_authority_witness :
  memberships after_ban !! (7, 3)%nat ≠ memberships den !! (7, 3)%nat ∧
  ∃ r role m m', Some (7, 2)%nat = Some (7%nat, r) ∧ r ≠ 3%nat ∧ moderates den 7%nat r role ∧
    memberships den !! (7, 3)%nat = Some m ∧ memberships after_ban !! (7, 3)%nat = Some m' ∧ moderated role m m'.
Proof.
  assert (memberships after_ban !! (7, 3)%nat ≠ memberships den !! (7, 3)%nat) as Hne.
  { vm_compute. discriminate. }
  split; [exact Hne|].
  destruct (rows_need_authority plus no_failure (RqBan 7%nat 2%nat 3%nat 20) den 7%nat 3%nat den_wf Hne)
    as [[]|[(r & ch & Hd & _)|Hm]]; [discriminate Hd|exact Hm].
Defined.
End ChannelDemo.
