(* ===== verification/Chat.v ===== *)
(** * Chat (wavis-backend/src/chat/chat.rs, chat_rate_limiter.rs,
    chat_persistence.rs, and the purge loop of main.rs)

    Relaying a chat message, the per-connection token bucket, the table of
    persisted messages with its history queries, and the background loop that
    drains expired rows in batches.  The bucket computes in the [f64]
    of [Floats].  The table is the list of its
    rows in physical order; what Postgres does with the four statements of
    chat_persistence.rs is written out.  The uuid crate is the class [UuidText]
    and the text form of a [DateTime] is a parameter. *)

From Stdlib Require Import Floats.SpecFloat Sorting.Sorted.
From stdpp Require Import sorting.
From S2P Require Import Prelude Floats Signaling RoomState SfuBridge Tokens Database.
Local Open Scope Z_scope.

(** ** The token bucket *)

(** [ChatRateLimiter]. *)
Record ChatRateLimiter : Type := mkChatRateLimiter {
  chat_tokens : spec_float;
  chat_max_tokens : spec_float;
  chat_refill_rate : spec_float;
  chat_last_check : Instant
}.

(** [ChatRateLimiter::new]. *)
Definition ChatRateLimiter_new (max_per_sec : spec_float) (now : Instant) : ChatRateLimiter :=
  mkChatRateLimiter max_per_sec max_per_sec max_per_sec now.

(** [ChatRateLimiter::allow]. *)
Definition chat_allow (now : Instant) (l : ChatRateLimiter) : bool * ChatRateLimiter :=
  let elapsed := as_secs_f64 (duration_since now (chat_last_check l)) in
  let tokens := fmin (F64.add (chat_tokens l) (F64.mul elapsed (chat_refill_rate l)))
                  (chat_max_tokens l) in
  let bucket t := mkChatRateLimiter t (chat_max_tokens l) (chat_refill_rate l) now in
  if fge tokens (F64.of_Z 1) then (true, bucket (F64.sub tokens (F64.of_Z 1)))
  else (false, bucket tokens).

(** ** Relaying *)

(** [handle_chat_send]. *)
Definition handle_chat_send (text participant_id : string) (user_id : option string)
    (display_name timestamp message_id : string) : list OutboundSignal :=
  [broadcast_all (Msg.ChatMessage
    (mkChatMessagePayload participant_id user_id display_name text timestamp (Some message_id)))].

(** ** Persistence *)

Section chat.
Context {Uuid : Type} `{EqDecision Uuid} `{UuidText Uuid}.
(** [DateTime::to_rfc3339]; a [DateTime<Utc>] is a number of microseconds. *)
Context (to_rfc3339 : Z → string).

(** [ChatMessageRow]. *)
Record ChatMessageRow : Type := mkChatMessageRow {
  row_message_id : Uuid;
  row_participant_id : string;
  row_user_id : option string;
  row_display_name : string;
  row_text : string;
  row_created_at : Z
}.

(** [InsertChatMessageParams]. *)
Record InsertChatMessageParams : Type := mkInsertChatMessageParams {
  icm_message_id : Uuid;
  icm_channel_id : option Uuid;
  icm_room_id : RoomId;
  icm_participant_id : string;
  icm_user_id : option string;
  icm_display_name : string;
  icm_text : string
}.

(** A row of [chat_messages]: the scope columns and the selected ones. *)
Record StoredMessage : Type := mkStoredMessage {
  st_channel_id : option Uuid;
  st_room_id : RoomId;
  st_row : ChatMessageRow
}.
Abbreviation ChatTable := (list StoredMessage) (only parsing).
Abbreviation created m := (row_created_at (st_row m)) (only parsing).

(** [insert_chat_message]; [now] is the default of the [created_at] column. *)
Definition insert_chat_message (p : InsertChatMessageParams) (now : Z) (t : ChatTable) : ChatTable :=
  t ++ [mkStoredMessage (icm_channel_id p) (icm_room_id p)
    (mkChatMessageRow (icm_message_id p) (icm_participant_id p) (icm_user_id p) (icm_display_name p)
       (icm_text p) now)].

Definition older (a b : StoredMessage) : Prop := created a ≤ created b.
#[global] Instance older_dec : RelDecision older.
Proof. intros a b. unfold older. apply _. Defined.

(** [$2::timestamptz IS NULL OR created_at > $2]. *)
Definition after (since : option Z) (m : StoredMessage) : bool :=
  match since with None => true | Some s => bool_decide (s < created m) end.

(** The body the two history queries share: filter, order, limit. *)
Definition fetch_history (scope : StoredMessage → bool) (since : option Z) (limit : Z) (t : ChatTable)
    : list ChatMessageRow :=
  map st_row (take (Z.to_nat limit) (merge_sort older (retain (λ m, scope m && after since m) t))).

(** [fetch_history_by_channel], [fetch_history_by_room]. *)
Definition fetch_history_by_channel (channel_id : Uuid) : option Z → Z → ChatTable → list ChatMessageRow :=
  fetch_history (λ m, bool_decide (st_channel_id m = Some channel_id)).
Definition fetch_history_by_room (room_id : RoomId) : option Z → Z → ChatTable → list ChatMessageRow :=
  fetch_history (λ m, bool_decide (st_room_id m = room_id)).

(** [build_history_response]. *)
Definition history_payload (r : ChatMessageRow) : ChatHistoryMessagePayload :=
  mkChatHistoryMessagePayload (uuid_to_string (row_message_id r)) (row_participant_id r) (row_user_id r)
    (row_display_name r) (row_text r) (to_rfc3339 (row_created_at r)).
Definition build_history_response (rows : list ChatMessageRow) : SignalingMessage :=
  Msg.ChatHistoryResponse (mkChatHistoryResponsePayload (map history_payload rows)).

(** ** Purging *)

Definition micros_per_hour : Z := 3600000000.
Definition expired (retention_hours now : Z) (m : StoredMessage) : bool :=
  bool_decide (created m < now - retention_hours * micros_per_hour).

(** Delete the first [n] rows that satisfy [p]. *)
Fixpoint delete_first (p : StoredMessage → bool) (n : nat) (t : ChatTable) : ChatTable :=
  match t, n with
  | [], _ => []
  | _, O => t
  | m :: t', S n' => if p m then delete_first p n' t' else m :: delete_first p n t'
  end.

(** The [DELETE] of [purge_expired_messages]: the rows deleted; a negative [LIMIT] is
    an error. *)
Definition purge_statement (retention_hours batch_size now : Z) (t : ChatTable) : Result Z string * ChatTable :=
  if bool_decide (batch_size < 0) then (Err "LIMIT must not be negative", t)
  else
    let t' := delete_first (expired retention_hours now) (Z.to_nat batch_size) t in
    (Ok (len t - len t'), t').

(** [purge_expired_messages]; [fate] is how the statement fails, if it does: a failure
    may be reported for a change that was made. *)
Definition purge_expired_messages (retention_hours batch_size now : Z) (fate : option Failure) (t : ChatTable)
    : Result Z string * ChatTable :=
  execute (λ e, e) (λ _, fate) O (purge_statement retention_hours batch_size now) t.

(** One turn of the inner loop of [spawn_chat_purge_sweep]: the total, the table
    and whether the loop goes on. *)
Definition drain_step (retention_hours batch_size now : Z) (fate : option Failure) (total : Z) (t : ChatTable)
    : Z * ChatTable * bool :=
  match purge_expired_messages retention_hours batch_size now fate t with
  | (Ok count, t') => (total + count, t', bool_decide (batch_size ≤ count))
  | (Err _, t') => (total, t', false)
  end.

(** The loop, for at most [fuel] iterations: the total and whether it broke out;
    [now] is the database clock of the iteration and [io] the fate of its statement. *)
Fixpoint drain (fuel : nat) (retention_hours batch_size : Z) (now : nat → Z) (io : Io) (total : Z) (t : ChatTable)
    : option (Z * ChatTable) :=
  match fuel with
  | O => None
  | S n =>
      let '(total, t, again) := drain_step retention_hours batch_size (now O) (io O) total t in
      if again then drain n retention_hours batch_size (λ i, now (S i)) (λ i, io (S i)) total t else Some (total, t)
  end.
End chat.
Arguments ChatMessageRow Uuid : assert, clear implicits.
Arguments StoredMessage Uuid : assert, clear implicits.
Arguments InsertChatMessageParams Uuid : assert, clear implicits.

(** ** The purge loop terminates and drains *)

Section purge.
Context {Uuid : Type} `{EqDecision Uuid} `{UuidText Uuid}.
Abbreviation Table := (list (StoredMessage Uuid)) (only parsing).

Lemma delete_first_retain (p q : StoredMessage Uuid → bool) n (t : Table) :
  (∀ m, p m = true → q m = true) →
  retain (λ m, negb (q m)) (delete_first p n t) = retain (λ m, negb (q m)) t.
Proof.
  intros Hpq. revert n. induction t as [|m t IH]; intros [|n]; [done..|]. simpl.
  destruct (p m) eqn:Ep; simpl; [by rewrite (Hpq m Ep), IH|]. destruct (q m); simpl; by rewrite IH.
Qed.

(** A batch that is not filled leaves no row to delete. *)
Lemma delete_first_len (p : StoredMessage Uuid → bool) n (t : Table) :
  (length (delete_first p n t) ≤ length t ∧ length t - length (delete_first p n t) ≤ n ∧
   (length t - length (delete_first p n t) < n → delete_first p n t = retain (λ m, negb (p m)) t))%nat.
Proof.
  revert n. induction t as [|m t IH]; intros [|n]; simpl; [lia| |lia|]; [split_and!; by try lia|].
  destruct (p m); simpl.
  - destruct (IH n) as (? & ? & Hr). split_and!; [lia..|]. intros ?. apply Hr. lia.
  - destruct (IH (S n)) as (? & ? & Hr). split_and!; [lia..|]. intros ?. f_equal. apply Hr. lia.
Qed.

(** One iteration with a positive batch size: only expired rows go.  It goes on after
    a full batch; a batch that is not full leaves no expired row. *)
Lemma drain_step_spec ret b now fate total (t : Table) :
  0 < b →
  let '(total', t', again) := drain_step ret b now fate total t in
  total' - total ≤ len t - len t' ∧
  (∀ q, (∀ m, expired ret now m = true → q m = true) →
     retain (λ m, negb (q m)) t' = retain (λ m, negb (q m)) t) ∧
  match fate with
  | None => total' = total + (len t - len t') ∧
      (if again then len t' + b ≤ len t else t' = retain (λ m, negb (expired ret now m)) t)
  | Some f => again = false ∧ total' = total ∧ (f_applied f = false → t' = t)
  end.
Proof.
  intros Hb. unfold drain_step, purge_expired_messages, execute, purge_statement.
  rewrite bool_decide_eq_false_2 by lia.
  destruct (delete_first_len (expired ret now) (Z.to_nat b) t) as (? & ? & Hr). destruct fate as [f|].
  - destruct (f_applied f); split_and!; try done; [cbn; lia|by intros q Hq; apply delete_first_retain|lia].
  - cbn [map_err]. split_and!; [lia|by intros q Hq; apply delete_first_retain|done|].
    case_bool_decide; [lia|]. apply Hr. lia.
Qed.

Lemma expired_later ret now now' (m : StoredMessage Uuid) :
  now ≤ now' → expired ret now m = true → expired ret now' m = true.
Proof. unfold expired. rewrite !bool_decide_eq_true. lia. Qed.

(** How the loop ends: the [n]th iteration is its last, the statements before it
    succeeded, and it deleted [total] rows that it knows of. *)
Record drained (ret : Z) (now : nat → Z) (io : Io) (n : nat) (total : Z) (t t' : Table) : Prop := mk_drained {
  dr_before i : (i < n)%nat → io i = None;
  dr_kept : retain (λ m, negb (expired ret (now n) m)) t' = retain (λ m, negb (expired ret (now n) m)) t;
  dr_total : total ≤ len t - len t';
  dr_done : io n = None → t' = retain (λ m, negb (expired ret (now n) m)) t ∧ total = len t - len t';
  dr_failed f : io n = Some f → f_applied f = false → total = len t - len t'
}.

(** The loop from an arbitrary iteration on. *)
Lemma drain_spec ret b fuel : ∀ (now : nat → Z) io total (t : Table),
  0 < b → (∀ i j, (i ≤ j)%nat → now i ≤ now j) → len t < b * Z.of_nat fuel →
  ∃ n t' k, b * Z.of_nat n ≤ len t ∧ drain fuel ret b now io total t = Some (total + k, t') ∧
    drained ret now io n k t t'.
Proof.
  induction fuel as [|fuel IH]; intros now io total t Hb Hmono Hf; [lia|]. cbn [drain].
  pose proof (drain_step_spec ret b (now O) (io O) total t Hb) as Hs.
  destruct (drain_step ret b (now O) (io O) total t) as [[total1 t1] again].
  destruct Hs as (Hle & Hq & Ha). destruct (io O) as [f|] eqn:Hio.
  - destruct Ha as (-> & -> & Hf0). exists O, t1, 0. split_and!; [lia|by rewrite Z.add_0_r|].
    split; [lia|by apply Hq|lia|by rewrite Hio|]. rewrite Hio. intros ? [= <-] ?. rewrite Hf0 by done. lia.
  - destruct Ha as [-> Ha]. destruct again.
    + destruct (IH (λ i, now (S i)) (λ i, io (S i)) (total + (len t - len t1)) t1 Hb) as (n & t' & k & Hn & -> & [D1 D2 D3 D4 D5]).
      { intros i j ?. apply Hmono. lia. }
      { lia. }
      assert (retain (λ m, negb (expired ret (now (S n)) m)) t1 = retain (λ m, negb (expired ret (now (S n)) m)) t) as Hq1
        by (apply Hq; intros m; apply expired_later, Hmono; lia).
      exists (S n), t', ((len t - len t1) + k). rewrite Nat2Z.inj_succ, Z.mul_succ_r.
      split_and!; [lia|do 2 f_equal; lia|]. split.
      * intros [|i] Hi; [done|]. apply (D1 i). lia.
      * by rewrite D2.
      * lia.
      * intros Hlast. destruct (D4 Hlast) as [-> ->]. rewrite Hq1. split; [done|lia].
      * intros f Hlast Happ. rewrite (D5 f Hlast Happ). lia.
    + exists O, t1, (len t - len t1). split_and!; [lia|done|]. subst t1. split; [lia|by apply Hq|lia|done|by rewrite Hio].
Qed.
End purge.

(** C27: With a positive batch size and a database clock that does not go back, the
    purge loop ends, after at most one iteration more than the table holds full
    batches, whatever statements fail.  Only rows that had expired by its last
    iteration are deleted, and its total never exceeds the rows deleted.  It ends at
    the first statement that fails or does not fill its batch: in the second case it
    has drained the table, the rows left being exactly those not expired, in their
    order, and the total is the number of rows deleted; in the first case it keeps
    what the earlier batches did, and the total is exact unless the failing statement
    deleted rows all the same. *)
Theorem purge_loop_drains {Uuid : Type} `{EqDecision Uuid} `{UuidText Uuid} ret b (now : nat → Z) io
    (t : list (StoredMessage Uuid)) fuel :
  0 < b → (∀ i j, (i ≤ j)%nat → now i ≤ now j) → len t / b < Z.of_nat fuel →
  ∃ n t' total, b * Z.of_nat n ≤ len t ∧ drain fuel ret b now io 0 t = Some (total, t') ∧
    drained ret now io n total t t'.
Proof.
  intros Hb Hmono Hf.
  assert (len t < b * Z.of_nat fuel) as Hf' by (pose proof (Z.mul_succ_div_gt (len t) b Hb); nia).
  destruct (drain_spec ret b fuel now io 0 t Hb Hmono Hf') as (n & t' & k & ? & Hd & Hdr).
  by exists n, t', k.
Qed.

(** A batch size of zero, which the configuration accepts, never ends the loop while no
    statement fails. *)
Theorem zero_batch_spins {Uuid : Type} `{EqDecision Uuid} `{UuidText Uuid} ret (now : nat → Z) total
    (t : list (StoredMessage Uuid)) fuel :
  drain fuel ret 0 now no_failure total t = None.
Proof.
  revert now total t. induction fuel as [|fuel IH]; intros now total t; [done|].
  cbn [drain]. unfold drain_step, purge_expired_messages, execute, purge_statement, no_failure.
  rewrite (bool_decide_eq_false_2 (0 < 0)) by lia. change (Z.to_nat 0) with O.
  assert (delete_first (expired ret (now O)) O t = t) as -> by by destruct t.
  cbn [map_err]. rewrite bool_decide_eq_true_2 by lia. apply IH.
Qed.

(** ** History *)

Section history.
Context {Uuid : Type} `{EqDecision Uuid} `{UuidText Uuid} (to_rfc3339 : Z → string).
Abbreviation Table := (list (StoredMessage Uuid)) (only parsing).

#[local] Instance older_total : Total (older (Uuid:=Uuid)).
Proof. intros a b. unfold older. lia. Qed.
#[local] Instance older_trans : Transitive (older (Uuid:=Uuid)).
Proof. intros a b c. unfold older. lia. Qed.

Abbreviation matching scope since t := (retain (λ m, scope m && after since m) t) (only parsing).

(** A history query answers with the oldest matching rows, in order, as many as
    the limit allows. *)
Lemma fetch_history_spec scope since limit (t : Table) :
  ∃ kept rest, fetch_history scope since limit t = map st_row kept ∧
    kept ++ rest ≡ₚ matching scope since t ∧ StronglySorted older (kept ++ rest) ∧
    len kept = Z.of_nat (Z.to_nat limit) `min` len (matching scope since t).
Proof.
  unfold fetch_history. set (l := matching scope since t).
  exists (take (Z.to_nat limit) (merge_sort older l)), (drop (Z.to_nat limit) (merge_sort older l)).
  rewrite take_drop. split_and!; [done|apply merge_sort_Permutation|apply StronglySorted_merge_sort; apply _|].
  rewrite length_take, (Permutation_length (merge_sort_Permutation older l)). lia.
Qed.

Lemma fetch_history_elem scope since limit (t : Table) m :
  m ∈ t → scope m = true → after since m = true → len (matching scope since t) ≤ limit →
  st_row m ∈ fetch_history scope since limit t.
Proof.
  intros Hm Hs Ha Hl. destruct (fetch_history_spec scope since limit t) as (kept & rest & -> & Hp & _ & Hk).
  apply list_elem_of_fmap. exists m. split; [done|].
  assert (rest = []) as -> by (apply nil_length_inv; apply Permutation_length in Hp; rewrite length_app in Hp; lia).
  rewrite app_nil_r in Hp. rewrite Hp, elem_of_retain. by rewrite Hs, Ha.
Qed.

(** What a chat message carries, live and in the history. *)
Definition live_content (m : SignalingMessage) : option (string * option string * string * string * option string) :=
  match m with
  | Msg.ChatMessage p => Some (ChatMessage_participant_id p, ChatMessage_user_id p, ChatMessage_display_name p,
                               ChatMessage_text p, ChatMessage_message_id p)
  | _ => None
  end.
Definition stored_content (p : ChatHistoryMessagePayload) : string * option string * string * string * option string :=
  (ChatHistoryMessage_participant_id p, ChatHistoryMessage_user_id p, ChatHistoryMessage_display_name p,
   ChatHistoryMessage_text p, Some (ChatHistoryMessage_message_id p)).

(** A chat message that is relayed and persisted can be read back: for every
    scope it was stored under and every cursor before it, a history request whose
    limit covers the matching rows answers with an entry that has the sender, the
    name, the text and the id of the live broadcast. *)
Theorem chat_history_roundtrip text pid user name stamp (id c : Uuid) room limit now since (t : Table) :
  (∀ s, since = Some s → s < now) → len t < limit →
  let p := mkInsertChatMessageParams id (Some c) room pid user name text in
  let t' := insert_chat_message p now t in
  ∀ rows, rows = fetch_history_by_channel c since limit t' ∨ rows = fetch_history_by_room room since limit t' →
  ∃ msgs e, build_history_response to_rfc3339 rows = Msg.ChatHistoryResponse (mkChatHistoryResponsePayload msgs) ∧
    e ∈ msgs ∧
    map (live_content ∘ msg) (handle_chat_send text pid user name stamp (uuid_to_string id)) =
      [Some (stored_content e)].
Proof.
  intros Hsince Hl p t' rows Hrows. eexists _, _. split_and!; [done| |].
  - apply list_elem_of_fmap_2 with (x := mkChatMessageRow id pid user name text now).
    set (m := mkStoredMessage (Some c) room (mkChatMessageRow id pid user name text now)).
    assert (m ∈ t') as Hm by (unfold t', insert_chat_message; set_solver).
    assert (after since m = true) as Ha
      by (destruct since; simpl; [apply bool_decide_eq_true_2; by apply Hsince|done]).
    assert (∀ q, len (retain q t') ≤ limit) as Hlen.
    { intros q. pose proof (length_retain_le q t'). unfold t', insert_chat_message in *.
      rewrite length_app in *. simpl in *. lia. }
    destruct Hrows as [-> | ->]; change (mkChatMessageRow id pid user name text now) with (st_row m);
      apply fetch_history_elem; try done; by apply bool_decide_eq_true_2.
  - done.
Qed.
End history.

(** ** Examples *)

Module ChatDemo.
#[export] Instance nat_uuid : UuidText nat := {
  uuid_to_string n := if n is O then "0" else "1";
  uuid_parse_str s := if bool_decide (s = "0") then Some O else Some 1%nat;
  uuid_nil := O
}.
Definition row (id : nat) (at_ : Z) : StoredMessage nat :=
  mkStoredMessage (Some 1%nat) "r" (mkChatMessageRow id "p" None "Ann" "hi" at_).
Definition table : list (StoredMessage nat) := [row 0 5; row 1 (3 * micros_per_hour); row 2 6].
Definition clock (i : nat) : Z := 2 * micros_per_hour + Z.of_nat i.

Lemma clock_mono i j : (i ≤ j)%nat → clock i ≤ clock j.
Proof. unfold clock. lia. Qed.

(** Five messages pass at once, the sixth does not; a second later five pass again. *)
Example burst_of_five :
  let step '(acc, l) now := let '(ok, l) := chat_allow now l in (acc ++ [ok], l) in
  (foldl step ([], ChatRateLimiter_new (F64.of_Z 5) 7) [7; 7; 7; 7; 7; 7; from_secs 2; from_secs 2]).1 =
  [true; true; true; true; true; false; true; true].
Proof. vm_compute. reflexivity. Qed.
End ChatDemo.

Section chat_examples.
Import ChatDemo.

Lemma purge_loop_drains_witness :
  ∃ n t' total, 1 * Z.of_nat n ≤ len table ∧ drain 4 1 1 clock no_failure 0 table = Some (total, t') ∧
    drained 1 clock no_failure n total table t'.
Proof. apply (purge_loop_drains 1 1 clock no_failure table 4); [lia|exact clock_mono|vm_compute; reflexivity]. Defined.

Lemma chat_history_roundtrip_witness :
  let t' := insert_chat_message (mkInsertChatMessageParams 0%nat (Some 1%nat) "r" "p" None "Ann" "hi") 9 table in
  ∃ msgs e, build_history_response (λ _, "now") (fetch_history_by_channel 1%nat (Some 5) 200 t') =
      Msg.ChatHistoryResponse (mkChatHistoryResponsePayload msgs) ∧ e ∈ msgs ∧
    map (live_content ∘ msg) (handle_chat_send "hi" "p" None "Ann" "now" (uuid_to_string 0%nat)) =
      [Some (stored_content e)].
Proof.
  apply (chat_history_roundtrip (λ _, "now") "hi" "p" None "Ann" "now" 0%nat 1%nat "r" 200 9 (Some 5) table).
  - intros s [= <-]. lia.
  - vm_compute. reflexivity.
  - by left.
Defined.
End chat_examples.
