(* ===== verification/Config.v ===== *)
(** * Configuration (the [from_env] constructors, wavis-backend/src/app_state.rs,
    config_validation.rs, voice/turn_cred.rs, ip.rs and the start of main.rs)

    What the server reads from its environment: integers with a default for a
    missing or unparseable value, comma-separated lists, secrets with a minimal
    length, and the check that refuses to start with a zero limit.  An
    environment is a function from names to values ([env::var(..).ok()]); the
    CIDR type of the ipnet crate and the HMAC and base64 crates behind a TURN
    credential are parameters. *)

From S2P Require Import Prelude Signaling FieldValidation SfuBridge Tokens SfuRelay SlidingWindow AbuseGuards WsLimits.
From Stdlib Require Import Ascii.
Local Open Scope Z_scope.

(** ** Reading values *)

Abbreviation Env := (string → option string) (only parsing).

Definition u8_max : Z := 255.
Definition u32_max : Z := u32_modulus - 1.
Definition u64_max : Z := u64_modulus - 1.

(** [char::to_digit(10)] of a byte. *)
Definition digit (c : ascii) : option Z :=
  let n := Z.of_nat (nat_of_ascii c) in
  if (48 <=? n) && (n <=? 57) then Some (n - 48) else None.

(** The digit loop of [from_str_radix]: an overflow is an error. *)
Fixpoint parse_digits (max : Z) (acc : Z) (s : string) : option Z :=
  match s with
  | EmptyString => Some acc
  | String c s' =>
      d ← digit c;
      let acc' := acc * 10 + d in
      if acc' <=? max then parse_digits max acc' s' else None
  end.

(** [str::parse] at an unsigned type: an optional [+], then at least one digit. *)
Definition parse_unsigned (max : Z) (s : string) : option Z :=
  match s with
  | EmptyString => None
  | String "+" EmptyString => None
  | String "+" s' => parse_digits max 0 s'
  | _ => parse_digits max 0 s
  end.

(** [env::var(name).ok().and_then(|v| v.parse().ok()).unwrap_or(d)]. *)
Definition env_num (env : Env) (max : Z) (name : string) (d : Z) : Z :=
  default d (env name ≫= parse_unsigned max).

(** [eq_ignore_ascii_case]. *)
Definition lower_ascii (c : ascii) : ascii :=
  let n := nat_of_ascii c in
  if (Nat.leb 65 n && Nat.leb n 90)%bool then ascii_of_nat (n + 32) else c.
Fixpoint to_lower (s : string) : string :=
  match s with EmptyString => EmptyString | String c s' => String (lower_ascii c) (to_lower s') end.
Definition eq_ignore_ascii_case (a b : string) : bool := bool_decide (to_lower a = to_lower b).

(** [str::split(',')]. *)
Fixpoint split_on (sep : ascii) (s : string) : list string :=
  match s with
  | EmptyString => [EmptyString]
  | String c s' =>
      if Ascii.eqb c sep then EmptyString :: split_on sep s'
      else match split_on sep s' with
           | w :: ws => String c w :: ws
           | [] => [String c EmptyString]
           end
  end.

(** [v.split(',').map(trim).filter(!is_empty)]. *)
Definition comma_list (v : string) : list string :=
  retain (λ s, negb (str_is_empty s)) (map trim (split_on "," v)).

(** ** The limits *)

(** [WsRateLimitConfig::from_env]. *)
Definition WsRateLimitConfig_from_env (env : Env) : WsRateLimitConfig :=
  mkWsRateLimitConfig (from_secs (env_num env u64_max "WS_RATE_LIMIT_WINDOW_SECS" 10))
    (env_num env u32_max "WS_RATE_LIMIT_MAX_MESSAGES" 60)
    (env_num env u32_max "WS_RATE_LIMIT_BURST" 15)
    (from_secs 1)
    (env_num env u32_max "ACTION_RATE_LIMIT_MAX" 15)
    (from_secs (env_num env u64_max "ACTION_RATE_LIMIT_WINDOW_SECS" 60))
    (env_num env u32_max "DEAFEN_RATE_LIMIT_MAX" 20)
    (from_secs (env_num env u64_max "DEAFEN_RATE_LIMIT_WINDOW_SECS" 60))
    32.

(** [TempBanConfig::from_env]. *)
Definition TempBanConfig_from_env (env : Env) : TempBan.TempBanConfig :=
  TempBan.mkTempBanConfig (env_num env u32_max "TEMP_BAN_THRESHOLD" 5)
    (from_secs (env_num env u64_max "TEMP_BAN_WINDOW_SECS" 300))
    (from_secs (env_num env u64_max "TEMP_BAN_DURATION_SECS" 600))
    (env_num env u64_max "TEMP_BAN_MAX_ENTRIES" 1000).

(** The [MAX_CONNECTIONS_PER_IP] of [IpConnectionTracker::from_env] and [AppState::new]. *)
Definition max_connections_per_ip (env : Env) : Z := env_num env u32_max "MAX_CONNECTIONS_PER_IP" 10.

(** [BugReportRateLimiterConfig::from_env]. *)
Definition BugReportRateLimiterConfig_from_env (env : Env) : BugReportLimiter.BugReportRateLimiterConfig :=
  BugReportLimiter.mkBugReportRateLimiterConfig (env_num env u32_max "BUG_REPORT_RATE_LIMIT_MAX" 5)
    (from_secs (env_num env u64_max "BUG_REPORT_RATE_LIMIT_WINDOW_SECS" 3600)).

(** The ceilings of [AppState::new]. *)
Definition global_ws_per_sec (env : Env) : Z := env_num env u32_max "GLOBAL_WS_UPGRADES_PER_SEC" 100.
Definition global_join_per_sec (env : Env) : Z := env_num env u32_max "GLOBAL_JOINS_PER_SEC" 50.

(** [require_invite_code] and [require_tls] of [AppState::new]; [debug] is
    [cfg!(debug_assertions)]. *)
Definition require_invite_code_from_env (env : Env) : bool :=
  match env "REQUIRE_INVITE_CODE" with
  | Some v => negb (eq_ignore_ascii_case v "false") && negb (bool_decide (v = "0"))
  | None => true
  end.
Definition require_tls_from_env (debug : bool) (env : Env) : bool :=
  match env "REQUIRE_TLS" with
  | Some v => eq_ignore_ascii_case v "true" || bool_decide (v = "1")
  | None => negb debug
  end.

(** ** The SFU *)

(** [SfuConfig]. *)
Record SfuConfig : Type := mkSfuConfig {
  sc_jwt_secret : string;
  sc_jwt_issuer : string;
  sc_token_ttl_secs : Z;
  sc_max_participants : Z;
  sc_livekit_api_key : option string;
  sc_livekit_api_secret : option string
}.

(** [SfuConfig::from_app_state]. *)
Definition SfuConfig_from_app_state (env : Env) (jwt_secret jwt_issuer : string) : SfuConfig :=
  mkSfuConfig jwt_secret jwt_issuer (env_num env u64_max "SFU_TOKEN_TTL_SECS" DEFAULT_TOKEN_TTL_SECS)
    (clamp 3 6 (env_num env u8_max "MAX_ROOM_PARTICIPANTS" 6))
    (env "LIVEKIT_API_KEY") (env "LIVEKIT_API_SECRET").

(** ** Client addresses *)

Section ip.
Context {IpNet : Type} (parse_net : string → option IpNet).

(** [IpConfig]. *)
Record IpConfig : Type := mkIpConfig {
  trust_proxy_headers : bool;
  trusted_proxy_cidrs : list IpNet
}.

(** [IpConfig::from_env]. *)
Definition IpConfig_from_env (env : Env) : IpConfig :=
  mkIpConfig
    (match env "TRUST_PROXY_HEADERS" with
     | Some v => eq_ignore_ascii_case v "true" || bool_decide (v = "1")
     | None => false
     end)
    (match env "TRUSTED_PROXY_CIDRS" with
     | Some v => omap parse_net (comma_list v)
     | None => []
     end).
End ip.
Arguments IpConfig IpNet : assert, clear implicits.

(** ** TURN credentials *)

(** [TurnConfigError]. *)
Inductive TurnConfigError : Type :=
| TurnSecretTooShort
| TurnPreviousSecretTooShort
| TurnUrlsEmpty
| TtlIsZero.

(** [TurnConfig]. *)
Record TurnConfig : Type := mkTurnConfig {
  current_secret : string;
  previous_secret : option string;
  credential_ttl_secs : Z;
  stun_urls : list string;
  turn_urls : list string
}.

(** [TurnConfig::try_from_env]. *)
Definition TurnConfig_try_from_env (env : Env) : Result (option TurnConfig) TurnConfigError :=
  match env "TURN_SHARED_SECRET" with
  | None => Ok None
  | Some secret =>
      if bool_decide (str_len secret < 32) then Err TurnSecretTooShort
      else
        let urls name := match env name with Some v => comma_list v | None => [] end in
        let finish previous :=
          let ttl := env_num env u64_max "TURN_CREDENTIAL_TTL_SECS" 3600 in
          if bool_decide (ttl = 0) then Err TtlIsZero
          else if bool_decide (urls "WAVIS_TURN_URLS" = []) then Err TurnUrlsEmpty
          else Ok (Some (mkTurnConfig secret previous ttl (urls "WAVIS_STUN_URLS") (urls "WAVIS_TURN_URLS"))) in
        match env "TURN_SHARED_SECRET_PREVIOUS" with
        | Some prev => if bool_decide (str_len prev < 32) then Err TurnPreviousSecretTooShort
                       else finish (Some prev)
        | None => finish None
        end
  end.

(** [TurnCredentials]. *)
Record TurnCredentials : Type := mkTurnCredentials {
  tc_username : string;
  tc_credential : string;
  tc_ttl_secs : Z
}.

Section turn.
(** [BASE64.encode(HMAC-SHA1(key, message))]. *)
Context (hmac_sha1_base64 : string → string → string).

(** [generate_turn_credentials]. *)
Definition generate_turn_credentials (participant_id : string) (c : TurnConfig) (now_unix : Z)
    : TurnCredentials :=
  let expiry := wrap_u64 (now_unix + credential_ttl_secs c) in
  let username := pretty expiry +:+ ":" +:+ participant_id in
  mkTurnCredentials username (hmac_sha1_base64 (current_secret c) username) (credential_ttl_secs c).

(** [build_ice_config_payload]. *)
Definition build_ice_config_payload (c : TurnConfig) (creds : TurnCredentials) : IceConfigPayload :=
  mkIceConfigPayload (stun_urls c) (turn_urls c) (tc_username creds) (tc_credential creds).
End turn.

(** ** The start-up check *)

(** [SecurityConfig]. *)
Record SecurityConfig : Type := mkSecurityConfig {
  sec_global_ws_per_sec : Z;
  sec_global_joins_per_sec : Z;
  sec_invite_ttl_secs : Z;
  sec_token_ttl_secs : Z;
  sec_ban_duration_secs : Z;
  sec_rate_limit_window_secs : Z;
  sec_bug_report_max : Z;
  sec_bug_report_window_secs : Z;
  sec_llm_max : Z;
  sec_llm_window_secs : Z;
  sec_github_token_set : bool;
  sec_github_repo_set : bool
}.

(** [validate_security_config]. *)
Definition validate_security_config (c : SecurityConfig) : Result unit string :=
  if bool_decide (sec_global_ws_per_sec c = 0) then Err "GLOBAL_WS_UPGRADES_PER_SEC must be > 0"
  else if bool_decide (sec_global_joins_per_sec c = 0) then Err "GLOBAL_JOINS_PER_SEC must be > 0"
  else if bool_decide (sec_invite_ttl_secs c = 0) then Err "invite TTL must be > 0"
  else if bool_decide (sec_token_ttl_secs c = 0) then Err "token TTL must be > 0"
  else if bool_decide (sec_ban_duration_secs c = 0) then Err "ban duration must be > 0"
  else if bool_decide (sec_rate_limit_window_secs c = 0) then Err "rate limit window must be > 0"
  else if bool_decide (sec_bug_report_max c = 0) then Err "BUG_REPORT_RATE_LIMIT_MAX must be > 0"
  else if bool_decide (sec_bug_report_window_secs c = 0) then Err "BUG_REPORT_RATE_LIMIT_WINDOW_SECS must be > 0"
  else if bool_decide (sec_llm_max c = 0) then Err "LLM_RATE_LIMIT_MAX must be > 0"
  else if bool_decide (sec_llm_window_secs c = 0) then Err "LLM_RATE_LIMIT_WINDOW_SECS must be > 0"
  else if negb (sec_github_token_set c) then Err "GITHUB_BUG_REPORT_TOKEN must be set and non-empty"
  else if negb (sec_github_repo_set c) then Err "GITHUB_BUG_REPORT_REPO must be set and non-empty"
  else Ok tt.

(** The value [main] validates. *)
Definition security_config (env : Env) : SecurityConfig :=
  let set name := negb (str_is_empty (default EmptyString (env name))) in
  mkSecurityConfig (env_num env u32_max "GLOBAL_WS_UPGRADES_PER_SEC" 100)
    (env_num env u32_max "GLOBAL_JOINS_PER_SEC" 50)
    (env_num env u64_max "INVITE_TTL_SECS" 86400)
    (env_num env u64_max "SFU_TOKEN_TTL_SECS" DEFAULT_TOKEN_TTL_SECS)
    (env_num env u64_max "TEMP_BAN_DURATION_SECS" 600)
    (env_num env u64_max "WS_RATE_LIMIT_WINDOW_SECS" 10)
    (env_num env u32_max "BUG_REPORT_RATE_LIMIT_MAX" 5)
    (env_num env u64_max "BUG_REPORT_RATE_LIMIT_WINDOW_SECS" 3600)
    (env_num env u32_max "LLM_RATE_LIMIT_MAX" 5)
    (env_num env u64_max "LLM_RATE_LIMIT_WINDOW_SECS" 86400)
    (set "GITHUB_BUG_REPORT_TOKEN") (set "GITHUB_BUG_REPORT_REPO").

(** ** Parsing *)

Lemma parse_digits_bounds max acc s n :
  0 ≤ acc ≤ max → parse_digits max acc s = Some n → 0 ≤ n ≤ max.
Proof.
  revert acc. induction s as [|c s IH]; simpl; intros acc Hacc Hp; [by simplify_eq|].
  unfold digit in Hp. case_match eqn:Hd; [|done]. simpl in Hp.
  apply andb_true_iff in Hd as [?%Z.leb_le ?%Z.leb_le]. case_match eqn:Hle; [|done].
  apply Z.leb_le in Hle. apply (IH _) in Hp; [done|lia].
Qed.

Lemma parse_digits_mono max max' acc s n :
  max ≤ max' → parse_digits max acc s = Some n → parse_digits max' acc s = Some n.
Proof.
  intros Hm. revert acc. induction s as [|c s IH]; simpl; intros acc Hp; [done|].
  destruct (digit c) as [d|]; simpl in *; [|done]. case_match eqn:Hle; [|done]. apply Z.leb_le in Hle.
  rewrite (proj2 (Z.leb_le _ _)) by lia. by apply IH.
Qed.

Lemma parse_unsigned_mono max max' s n :
  max ≤ max' → parse_unsigned max s = Some n → parse_unsigned max' s = Some n.
Proof.
  intros Hm Hp. unfold parse_unsigned in *. repeat case_match; simplify_eq; by eapply parse_digits_mono.
Qed.

Lemma parse_unsigned_bounds max s n : 0 ≤ max → parse_unsigned max s = Some n → 0 ≤ n ≤ max.
Proof.
  intros Hm Hp. unfold parse_unsigned in Hp.
  repeat case_match; simplify_eq; eapply parse_digits_bounds; try exact Hp; lia.
Qed.

Lemma env_num_bounds env max name d : 0 ≤ d ≤ max → 0 ≤ env_num env max name d ≤ max.
Proof.
  intros Hd. unfold env_num. destruct (env name) as [s|]; [|done]. simpl.
  destruct (parse_unsigned max s) as [n|] eqn:Hp; [|done]. simpl. by eapply parse_unsigned_bounds; [lia|].
Qed.

Lemma digit_pretty (d : N) : (d < 10)%N → digit (pretty_N_char d) = Some (Z.of_N d).
Proof.
  intros Hd.
  assert (d = 0 ∨ d = 1 ∨ d = 2 ∨ d = 3 ∨ d = 4 ∨ d = 5 ∨ d = 6 ∨ d = 7 ∨ d = 8 ∨ d = 9)%N by lia.
  by destruct_or!; subst.
Qed.

Lemma parse_pretty_go max (x : N) s :
  Z.of_N x ≤ max → parse_digits max 0 (pretty_N_go x s) = parse_digits max (Z.of_N x) s.
Proof.
  revert s. induction (N.lt_wf_0 x) as [x _ IH]. intros s Hx.
  destruct (decide (0 < x)%N) as [Hpos|Hz].
  - rewrite pretty_N_go_step by done.
    pose proof (N.div_mod x 10 ltac:(lia)) as Hdm. pose proof (N.mod_lt x 10 ltac:(lia)) as Hm.
    rewrite IH; [|apply N.div_lt; lia|]. 2: { pose proof (N.Div0.div_le_upper_bound x 10 x). lia. }
    cbn [parse_digits].
    rewrite digit_pretty by done. cbn [mbind option_bind].
    assert (Z.of_N (x `div` 10) * 10 + Z.of_N (x `mod` 10) = Z.of_N x) as -> by lia.
    by rewrite (proj2 (Z.leb_le _ _) Hx).
  - assert (x = 0%N) as -> by lia. by rewrite pretty_N_go_0.
Qed.

(** The decimal digits of a number start with no sign. *)
Lemma pretty_N_first (x : N) : ∃ c s, pretty x = String c s ∧ is_Some (digit c).
Proof.
  assert (∀ y t, (0 < y)%N → ∃ c s, pretty_N_go y t = String c s ∧ is_Some (digit c)) as Hgo.
  { intros y. induction (N.lt_wf_0 y) as [y _ IH]. intros t Hy. rewrite pretty_N_go_step by done.
    destruct (decide (0 < y `div` 10)%N).
    - apply IH; [apply N.div_lt; lia|done].
    - assert (y `div` 10 = 0)%N as -> by (apply N.le_0_r, N.nlt_ge; assumption). rewrite pretty_N_go_0. eexists _, _. split; [done|].
      rewrite digit_pretty; [done|]. apply N.mod_lt. lia. }
  unfold pretty, pretty_N. case_decide as Hx; [by eexists _, _|]. apply Hgo. lia.
Qed.

Lemma parse_pretty max (x : N) : Z.of_N x ≤ max → parse_unsigned max (pretty x) = Some (Z.of_N x).
Proof.
  intros Hx. assert (parse_digits max 0 (pretty x) = Some (Z.of_N x)) as Hp.
  { unfold pretty, pretty_N. case_decide as Hz; [subst|by rewrite parse_pretty_go].
    cbn in Hx |- *. destruct max; [done|done|lia]. }
  destruct (pretty_N_first x) as (c & s & Hc & Hd). unfold parse_unsigned. rewrite Hc in Hp |- *.
  destruct c as [[] [] [] [] [] [] [] []]; try exact Hp; by destruct Hd.
Qed.

(** A limit set in the environment to a number that fits its type is the one
    in force; a missing, malformed, negative or too large setting is replaced by
    the default; and a limit is always within its type. *)
Theorem env_number_read env max name d :
  0 ≤ d ≤ max →
  0 ≤ env_num env max name d ≤ max ∧
  (∀ x, 0 ≤ x ≤ max → env name = Some (pretty (Z.to_N x)) → env_num env max name d = x) ∧
  (∀ x, max < x → env name = Some (pretty (Z.to_N x)) → env_num env max name d = d) ∧
  (∀ s, env name = Some (String "-" s) → env_num env max name d = d) ∧
  (env name = None → env_num env max name d = d).
Proof.
  intros Hd. split; [by apply env_num_bounds|]. split_and!.
  - intros x Hx He. unfold env_num. rewrite He. cbn [mbind option_bind].
    rewrite parse_pretty by lia. cbn. lia.
  - intros x Hx He. unfold env_num. rewrite He. cbn [mbind option_bind].
    destruct (parse_unsigned max _) as [n|] eqn:Hp; [|done]. exfalso.
    pose proof (parse_pretty x (Z.to_N x) ltac:(lia)) as Hp'. rewrite Z2N.id in Hp' by lia.
    pose proof (parse_unsigned_mono max x _ n ltac:(lia) Hp). apply parse_unsigned_bounds in Hp; [|lia].
    simplify_eq. lia.
  - intros s He. unfold env_num. rewrite He. done.
  - intros He. unfold env_num. by rewrite He.
Qed.

(** C40: A server that starts is protected.  When the start-up check accepts the
    environment, the two global ceilings, the message window, the ban duration
    and the bug-report limit that are built from it are positive, a media token
    lives for a positive time, and an SFU room holds between three and six
    participants whatever the configuration says. *)
Theorem startup_fails_closed env secret issuer :
  validate_security_config (security_config env) = Ok tt →
  (0 < global_ws_per_sec env < u32_modulus) ∧ (0 < global_join_per_sec env < u32_modulus) ∧
  0 < ws_window (WsRateLimitConfig_from_env env) ∧
  0 < TempBan.ban_duration (TempBanConfig_from_env env) ∧
  0 < BugReportLimiter.max_requests (BugReportRateLimiterConfig_from_env env) ∧
  0 < BugReportLimiter.report_window (BugReportRateLimiterConfig_from_env env) ∧
  let c := SfuConfig_from_app_state env secret issuer in
  0 < sc_token_ttl_secs c ∧ 3 ≤ sc_max_participants c ≤ 6.
Proof.
  unfold validate_security_config, security_config. cbn.
  intros Hv. repeat (case_bool_decide; [discriminate Hv|]).
  unfold global_ws_per_sec, global_join_per_sec, from_secs, nanos_per_sec.
  pose proof (λ m n d, env_num_bounds env m n d) as Hb.
  repeat match goal with
  | Hne : env_num env ?m ?n ?d ≠ 0 |- _ =>
      let H := fresh in assert (0 ≤ env_num env m n d ≤ m) as H by (apply Hb; by vm_compute);
      revert Hne H
  end. intros.
  split_and!; try (unfold u32_max in *; lia).
  all: unfold clamp; repeat case_match; lia.
Qed.

Module ConfigDemo.
Definition env (name : string) : option string :=
  if bool_decide (name = "MAX_ROOM_PARTICIPANTS") then Some "200"
  else if bool_decide (name = "GLOBAL_JOINS_PER_SEC") then Some "7"
  else if bool_decide (name = "GITHUB_BUG_REPORT_TOKEN") then Some "t"
  else if bool_decide (name = "GITHUB_BUG_REPORT_REPO") then Some "o/r" else None.
End ConfigDemo.

Lemma env_number_read_witness : env_num ConfigDemo.env u32_max "GLOBAL_JOINS_PER_SEC" 50 = 7.
Proof.
  apply (env_number_read ConfigDemo.env u32_max "GLOBAL_JOINS_PER_SEC" 50); [by vm_compute|by vm_compute|].
  vm_compute. reflexivity.
Defined.

Lemma startup_fails_closed_witness :
  0 < global_join_per_sec ConfigDemo.env < u32_modulus ∧
  3 ≤ sc_max_participants (SfuConfig_from_app_state ConfigDemo.env "secret" "issuer") ≤ 6.
Proof.
  destruct (startup_fails_closed ConfigDemo.env "secret" "issuer") as (_ & H1 & _ & _ & _ & _ & _ & H2);
    [vm_compute; reflexivity|]. exact (conj H1 H2).
Defined.
