(* ===== verification/ClientIp.v ===== *)
(** * Client addresses (wavis-backend/src/ip.rs, [check_tls_proto] of ws/ws.rs)

    Whose address a connection counts against: the peer's own, or the leftmost
    entry of [X-Forwarded-For] when the peer is a trusted proxy; and whether the
    request came over TLS.  The parser of [IpAddr] is that of the standard
    library, for both families.  The header map of the http crate is a function
    from lower-case names to the textual value, and [IpNet::contains] of the
    ipnet crate is a parameter. *)

From S2P Require Import Prelude SfuBridge SfuRelay Config.
From Stdlib Require Import Ascii.
Local Open Scope Z_scope.

(** ** [IpAddr] *)

Inductive IpAddr : Type :=
| V4 (a b c d : Z)
| V6 (groups : list Z).
#[export] Instance IpAddr_eq_dec : EqDecision IpAddr.
Proof. solve_decision. Defined.
#[export] Program Instance IpAddr_countable : Countable IpAddr :=
  inj_countable'
    (λ ip, match ip with V4 a b c d => inl (a, b, c, d) | V6 g => inr g end)
    (λ x, match x with inl (a, b, c, d) => V4 a b c d | inr g => V6 g end) _.
Next Obligation. by intros []. Qed.

(** A reader consumes a prefix of the text, or fails and consumes nothing. *)
Abbreviation Reader A := (string → option (A * string)) (only parsing).

Definition read_given_char (c : ascii) : Reader unit := λ s,
  match s with
  | String c' s' => if Ascii.eqb c c' then Some (tt, s') else None
  | EmptyString => None
  end.

(** [char::to_digit] for the radices 10 and 16. *)
Definition to_digit (radix : Z) (c : ascii) : option Z :=
  let n := Z.of_nat (nat_of_ascii c) in
  let d := if (48 <=? n) && (n <=? 57) then n - 48
           else if (97 <=? n) && (n <=? 102) then n - 87
           else if (65 <=? n) && (n <=? 70) then n - 55 else radix in
  if d <? radix then Some d else None.

(** The digits of [read_number]: an overflow or a digit too many fails. *)
Fixpoint read_digits (radix max_digits max : Z) (count acc : Z) (s : string) : option (Z * Z * string) :=
  match s with
  | EmptyString => Some (count, acc, s)
  | String c s' =>
      match to_digit radix c with
      | None => Some (count, acc, s)
      | Some d =>
          let acc' := acc * radix + d in
          if (max <? acc') || (max_digits <? count + 1) then None
          else read_digits radix max_digits max (count + 1) acc' s'
      end
  end.

(** [read_number]. *)
Definition read_number (radix max_digits max : Z) (allow_zero_prefix : bool) : Reader Z := λ s,
  let has_leading_zero := match s with String "0" _ => true | _ => false end in
  '(count, n, rest) ← read_digits radix max_digits max 0 0 s;
  if count =? 0 then None
  else if negb allow_zero_prefix && has_leading_zero && (1 <? count) then None
  else Some (n, rest).

(** [read_separator]. *)
Definition read_separator {A} (sep : ascii) (index : nat) (inner : Reader A) : Reader A := λ s,
  match index with
  | O => inner s
  | S _ => '(_, s) ← read_given_char sep s; inner s
  end.

(** [read_ipv4_addr]. *)
Definition read_octet (i : nat) : Reader Z := read_separator "." i (read_number 10 3 255 false).
Definition read_ipv4_addr : Reader (Z * Z * Z * Z) := λ s,
  '(a, s) ← read_octet 0 s; '(b, s) ← read_octet 1 s; '(c, s) ← read_octet 2 s; '(d, s) ← read_octet 3 s;
  Some ((a, b, c, d), s).

(** [read_groups]: the groups read, whether the last two are an IPv4 address, and
    the rest of the text. *)
Fixpoint read_groups (limit i : nat) (s : string) : list Z * bool * string :=
  match limit with
  | O => ([], false, s)
  | S limit' =>
      let v4 := match limit' with O => None | S _ => read_separator ":" i read_ipv4_addr s end in
      match v4 with
      | Some ((a, b, c, d), rest) => ([a * 256 + b; c * 256 + d], true, rest)
      | None =>
          match read_separator ":" i (read_number 16 4 65535 true) s with
          | None => ([], false, s)
          | Some (g, rest) =>
              let '(gs, v4, rest) := read_groups limit' (S i) rest in (g :: gs, v4, rest)
          end
      end
  end.

(** [read_ipv6_addr]. *)
Definition read_ipv6_addr : Reader (list Z) := λ s,
  let '(head, head_ipv4, s1) := read_groups 8 0 s in
  if Nat.eqb (length head) 8 then Some (head, s1)
  else if head_ipv4 then None
  else
    '(_, s2) ← read_given_char ":" s1; '(_, s3) ← read_given_char ":" s2;
    let '(tail, _, s4) := read_groups (8 - (length head + 1)) 0 s3 in
    Some (head ++ repeat 0 (8 - length head - length tail) ++ tail, s4).

(** [IpAddr::from_str]. *)
Definition parse_ip (s : string) : option IpAddr :=
  let whole {A} (f : A → IpAddr) (r : option (A * string)) : option IpAddr :=
    match r with Some (a, EmptyString) => Some (f a) | _ => None end in
  match read_ipv4_addr s with
  | Some r => whole (λ '(a, b, c, d), V4 a b c d) (Some r)
  | None => whole V6 (read_ipv6_addr s)
  end.

(** [Display] of an IPv4 address. *)
Definition show_v4 (a b c d : N) : string :=
  pretty a +:+ "." +:+ pretty b +:+ "." +:+ pretty c +:+ "." +:+ pretty d.

(** ** The request *)

Abbreviation Headers := (string → option string) (only parsing).

Section extraction.
Context {IpNet : Type} (contains_ip : IpNet → IpAddr → bool).

(** [is_trusted_proxy]. *)
Definition is_trusted_proxy (remote_ip : IpAddr) (config : IpConfig IpNet) : bool :=
  match trusted_proxy_cidrs config with
  | [] => true
  | cidrs => existsb (λ cidr, contains_ip cidr remote_ip) cidrs
  end.

(** [extract_client_ip]. *)
Definition extract_client_ip (remote_ip : IpAddr) (headers : Headers) (config : IpConfig IpNet) : IpAddr :=
  if trust_proxy_headers config && is_trusted_proxy remote_ip config then
    match headers "x-forwarded-for" with
    | Some value =>
        match split_on "," value with
        | leftmost :: _ => default remote_ip (parse_ip (trim leftmost))
        | [] => remote_ip
        end
    | None => remote_ip
    end
  else remote_ip.
End extraction.

(** [check_tls_proto]. *)
Definition contains_str (needle s : string) : bool :=
  existsb (λ i, String.prefix needle (String.substring i (String.length s) s)) (seq 0 (S (String.length s))).
Definition check_tls_proto (headers : Headers) : bool :=
  let https name := match headers name with Some v => eq_ignore_ascii_case v "https" | None => false end in
  https "x-wavis-forwarded-proto" || https "x-forwarded-proto" ||
  match headers "forwarded" with Some v => contains_str "proto=https" (to_lower v) | None => false end.

Example v6_mapped : parse_ip "::ffff:10.0.0.1" = Some (V6 [0; 0; 0; 0; 0; 65535; 2560; 1]).
Proof. vm_compute. reflexivity. Qed.
Example v6_loopback : parse_ip "::1" = Some (V6 [0; 0; 0; 0; 0; 0; 0; 1]).
Proof. vm_compute. reflexivity. Qed.
Example v4_leading_zero : parse_ip "10.0.0.01" = None.
Proof. vm_compute. reflexivity. Qed.

(** ** Reading back a printed address *)

Definition octets : list N := map N.of_nat (seq 0 256).

Lemma elem_of_octets (n : N) : (n < 256)%N → n ∈ octets.
Proof.
  intros Hn. unfold octets. apply list_elem_of_fmap. exists (N.to_nat n).
  rewrite elem_of_seq. split; lia.
Qed.

Lemma read_octet_text (n : N) s : (n < 256)%N →
  read_number 10 3 255 false (pretty n +:+ String "." s) = Some (Z.of_N n, String "." s) ∧
  read_number 10 3 255 false (pretty n) = Some (Z.of_N n, EmptyString).
Proof.
  intros Hn. apply elem_of_octets in Hn. revert n Hn. apply Forall_forall.
  unfold octets. cbn [seq map N.of_nat Pos.of_succ_nat Pos.succ].
  repeat (apply Forall_cons_2; [vm_compute; split; reflexivity|]). apply Forall_nil_2.
Qed.

Lemma dot_app s : "." +:+ s = String "." s.
Proof. done. Qed.

Lemma parse_show_v4 a b c d :
  (a < 256 → b < 256 → c < 256 → d < 256 →
   parse_ip (show_v4 a b c d) = Some (V4 (Z.of_N a) (Z.of_N b) (Z.of_N c) (Z.of_N d)))%N.
Proof.
  intros Ha Hb Hc Hd. unfold parse_ip, show_v4, read_ipv4_addr, read_octet, read_separator.
  rewrite !dot_app, (proj1 (read_octet_text a _ Ha)). cbn [mbind option_bind read_given_char Ascii.eqb Bool.eqb].
  rewrite (proj1 (read_octet_text b _ Hb)). cbn [mbind option_bind read_given_char Ascii.eqb Bool.eqb].
  rewrite (proj1 (read_octet_text c _ Hc)). cbn [mbind option_bind read_given_char Ascii.eqb Bool.eqb].
  by rewrite (proj2 (read_octet_text d EmptyString Hd)).
Qed.

(** ** Text an address is printed with *)

Definition graphic (c : ascii) : bool :=
  (32 <? nat_of_ascii c)%nat && (nat_of_ascii c <? 127)%nat && negb (Ascii.eqb c ",").
Fixpoint all_graphic (s : string) : bool :=
  match s with EmptyString => true | String c s' => graphic c && all_graphic s' end.

Lemma all_graphic_app s t : all_graphic (s +:+ t) = all_graphic s && all_graphic t.
Proof. induction s as [|c s IH]; simpl; [done|]. by rewrite IH, andb_assoc. Qed.

Lemma all_graphic_rev s : all_graphic s = true → all_graphic (string_rev s) = true.
Proof.
  assert (∀ l, all_graphic (String.string_of_list_ascii l) = forallb graphic l) as Hl.
  { induction l as [|c l IH]; simpl; [done|by rewrite IH]. }
  intros Hs. unfold string_rev. rewrite Hl. apply forallb_forall. intros c Hc.
  rewrite <-in_rev in Hc. revert c Hc. apply forallb_forall.
  rewrite <-Hl. by rewrite String.string_of_list_ascii_of_string.
Qed.

Lemma no_strip s :
  all_graphic s = true →
  strip_one (map utf8 whitespace) s = None ∧ strip_one (map (λ w, utf8 (rev w)) whitespace) s = None.
Proof.
  destruct s as [|c s]; [by vm_compute|]. cbn [all_graphic]. rewrite andb_true_iff. intros [Hc _].
  destruct c as [b0 b1 b2 b3 b4 b5 b6 b7].
  destruct b0, b1, b2, b3, b4, b5, b6, b7; vm_compute in Hc; try discriminate Hc; by vm_compute.
Qed.

Lemma string_rev_involutive s : string_rev (string_rev s) = s.
Proof.
  unfold string_rev. rewrite String.list_ascii_of_string_of_list_ascii, rev_involutive.
  apply String.string_of_list_ascii_of_string.
Qed.

Lemma trim_graphic s : all_graphic s = true → trim s = s.
Proof.
  intros Hs. unfold trim.
  assert (∀ n t, all_graphic t = true → strip_all n (map utf8 whitespace) t = t) as Hfront.
  { intros [|n] t Ht; cbn [strip_all]; [done|]. by rewrite (proj1 (no_strip t Ht)). }
  assert (∀ n t, all_graphic t = true → strip_all n (map (λ w, utf8 (rev w)) whitespace) t = t) as Hback.
  { intros [|n] t Ht; cbn [strip_all]; [done|]. by rewrite (proj2 (no_strip t Ht)). }
  cbn zeta. rewrite (Hfront _ s Hs), (Hback _ (string_rev s)) by by apply all_graphic_rev.
  apply string_rev_involutive.
Qed.

Lemma split_graphic s rest :
  all_graphic s = true → rest = EmptyString ∨ (∃ r, rest = String "," r) →
  ∃ ws, split_on "," (s +:+ rest) = s :: ws.
Proof.
  intros Hs Hrest. induction s as [|c s IH]; cbn [String.app split_on].
  - destruct Hrest as [->|[r ->]]; simpl; eauto.
  - cbn [all_graphic] in Hs. apply andb_true_iff in Hs as [Hc Hs]. destruct (IH Hs) as [ws Hws].
    change (String c s +:+ rest) with (String c (s +:+ rest)). cbn [split_on]. rewrite Hws.
    unfold graphic in Hc. destruct (Ascii.eqb c ","); [|eauto].
    rewrite andb_false_r in Hc. done.
Qed.

Lemma show_v4_graphic a b c d :
  (a < 256 → b < 256 → c < 256 → d < 256 → all_graphic (show_v4 a b c d) = true)%N.
Proof.
  assert (∀ n : N, (n < 256)%N → all_graphic (pretty n) = true) as Hn.
  { intros n Hn. apply elem_of_octets in Hn. revert n Hn. apply Forall_forall.
    unfold octets. cbn [seq map N.of_nat Pos.of_succ_nat Pos.succ].
    repeat (apply Forall_cons_2; [vm_compute; reflexivity|]). apply Forall_nil_2. }
  intros. unfold show_v4. rewrite !all_graphic_app, !Hn by done. done.
Qed.

(** A client cannot choose the address it is limited under: whatever the
    headers say, the peer's own address is used unless proxy headers are trusted
    and the peer is in one of the trusted networks (or no networks are listed);
    and behind a trusted proxy an IPv4 address the proxy wrote first in
    [X-Forwarded-For] is the address used, byte for byte. *)
Theorem client_ip_exact {IpNet} (contains_ip : IpNet → IpAddr → bool) remote headers config :
  (trust_proxy_headers config && is_trusted_proxy contains_ip remote config = false →
   extract_client_ip contains_ip remote headers config = remote) ∧
  (∀ a b c d rest,
     trust_proxy_headers config && is_trusted_proxy contains_ip remote config = true →
     (a < 256 ∧ b < 256 ∧ c < 256 ∧ d < 256)%N →
     rest = EmptyString ∨ (∃ r, rest = String "," r) →
     headers "x-forwarded-for" = Some (show_v4 a b c d +:+ rest) →
     extract_client_ip contains_ip remote headers config =
       V4 (Z.of_N a) (Z.of_N b) (Z.of_N c) (Z.of_N d)).
Proof.
  split; unfold extract_client_ip.
  - by intros ->.
  - intros a b c d rest -> (Ha & Hb & Hc & Hd) Hrest ->.
    destruct (split_graphic (show_v4 a b c d) rest) as [ws ->]; [by apply show_v4_graphic|done|].
    by rewrite trim_graphic, parse_show_v4 by by apply show_v4_graphic || done.
Qed.

Definition one_proxy (cidr ip : IpAddr) : bool := bool_decide (cidr = ip).
Definition proxied : IpConfig IpAddr := mkIpConfig true [V4 10 0 0 1].
Definition forwarded_for (v : string) (name : string) : option string :=
  if String.eqb name "x-forwarded-for" then Some v else None.

Lemma client_ip_exact_witness :
  extract_client_ip one_proxy (V4 10 0 0 1) (forwarded_for (show_v4 203 0 113 9 +:+ ", 10.0.0.7")) proxied = V4 203 0 113 9
  ∧ extract_client_ip one_proxy (V4 10 0 0 2) (forwarded_for "203.0.113.9") proxied = V4 10 0 0 2.
Proof.
  split.
  - apply (proj2 (client_ip_exact one_proxy (V4 10 0 0 1) _ proxied) 203 0 113 9 ", 10.0.0.7")%N;
      [reflexivity|lia|right; eexists; reflexivity|reflexivity].
  - apply (proj1 (client_ip_exact one_proxy (V4 10 0 0 2) _ proxied)). reflexivity.
Defined.
