(* ===== verification/AbuseMetrics.v ===== *)
(** * Abuse metrics (wavis-backend/src/abuse/abuse_metrics.rs)

    The counters the server keeps of what it refuses, and the tracker of failed
    joins per address that decides when a warning is raised.  A counter is an
    [AtomicU64] updated with relaxed [fetch_add], so it is a cell of its own that
    wraps around. *)

From S2P Require Import Prelude SlidingWindow.
From Stdlib Require Import Sorted.
Local Open Scope Z_scope.

(** The fields of [AbuseMetrics]. *)
Inductive AbuseCounter : Type :=
| ws_rate_limit_rejections
| ws_burst_rejections
| action_rate_limit_rejections
| join_rate_limit_rejections
| join_invite_rejections
| connections_closed_rate_limit
| payload_size_violations
| connections_rejected_ip_cap
| connections_rejected_temp_ban
| global_ws_ceiling_rejections
| global_join_ceiling_rejections
| schema_validation_rejections
| state_machine_rejections
| screen_share_rejections
| revoke_authorization_rejections
| tls_proto_rejections
| invite_usage_anomalies
| ws_ticket_rejections.
#[export] Instance AbuseCounter_eq_dec : EqDecision AbuseCounter.
Proof. solve_decision. Defined.

(** [AbuseMetrics]: the value of every counter. *)
Definition AbuseMetrics : Type := AbuseCounter → Z.

(** [AbuseMetrics::new]. *)
Definition AbuseMetrics_new : AbuseMetrics := λ _, 0.

(** [AbuseMetrics::increment]. *)
Definition increment (c : AbuseCounter) (m : AbuseMetrics) : AbuseMetrics :=
  λ c', if decide (c = c') then (m c + 1) `mod` u64_modulus else m c'.

(** [AbuseMetrics::snapshot], in the order of the fields. *)
Definition snapshot (m : AbuseMetrics) : list (AbuseCounter * Z) :=
  map (λ c, (c, m c))
    [ws_rate_limit_rejections; ws_burst_rejections; action_rate_limit_rejections; join_rate_limit_rejections;
     join_invite_rejections; connections_closed_rate_limit; payload_size_violations; connections_rejected_ip_cap;
     connections_rejected_temp_ban; global_ws_ceiling_rejections; global_join_ceiling_rejections;
     schema_validation_rejections; state_machine_rejections; screen_share_rejections;
     revoke_authorization_rejections; tls_proto_rejections; invite_usage_anomalies; ws_ticket_rejections].

(** [Instant::checked_sub]: a point of time keeps its seconds in an [i64]. *)
Definition instant_min : Instant := from_secs (- 9223372036854775808).
Definition checked_sub (t : Instant) (d : Duration) : option Instant :=
  if t - d <? instant_min then None else Some (t - d).

Section tracker.
Context {IpAddr : Type} `{EqDecision IpAddr} `{!Countable IpAddr}.

(** [IpFailedJoinTracker]. *)
Record IpFailedJoinTracker : Type := mkIpFailedJoinTracker {
  ft_entries : gmap IpAddr (list Instant);
  ft_threshold : Z;
  ft_window : Duration
}.

(** [IpFailedJoinTracker::new] and [default]. *)
Definition IpFailedJoinTracker_new (threshold : Z) (window : Duration) : IpFailedJoinTracker :=
  mkIpFailedJoinTracker ∅ threshold window.
Definition IpFailedJoinTracker_default : IpFailedJoinTracker := IpFailedJoinTracker_new 10 (from_secs 60).

(** The loop of [record_failure]: pop the front while it is before the cutoff. *)
Fixpoint pop_before (cutoff : Instant) (deque : list Instant) : list Instant :=
  match deque with
  | front :: rest => if front <? cutoff then pop_before cutoff rest else deque
  | [] => []
  end.

(** [IpFailedJoinTracker::record_failure]. *)
Definition record_failure (ip : IpAddr) (now : Instant) (t : IpFailedJoinTracker) : option Z * IpFailedJoinTracker :=
  let deque := default [] (ft_entries t !! ip) in
  let cutoff := default now (checked_sub now (ft_window t)) in
  let deque := pop_before cutoff deque ++ [now] in
  let count := wrap_u32 (len deque) in
  (if ft_threshold t <? count then Some count else None,
   mkIpFailedJoinTracker (<[ip := deque]> (ft_entries t)) (ft_threshold t) (ft_window t)).

(** [IpFailedJoinTracker::window_secs]. *)
Definition window_secs (t : IpFailedJoinTracker) : Z := as_secs (ft_window t).

(** ** What the tracker counts *)

(** The failures of [ip] among [fs], and those not before [cutoff]. *)
Definition failures (ip : IpAddr) (fs : list (IpAddr * Instant)) : list Instant :=
  map snd (retain (λ f, bool_decide (f.1 = ip)) fs).
Definition since (cutoff : Instant) (l : list Instant) : list Instant := retain (λ t, cutoff <=? t) l.

(** The tracker after the failures [fs]. *)
Definition after_failures (threshold : Z) (window : Duration) (fs : list (IpAddr * Instant)) : IpFailedJoinTracker :=
  foldl (λ t f, (record_failure f.1 f.2 t).2) (IpFailedJoinTracker_new threshold window) fs.

Lemma since_app c l l' : since c (l ++ l') = since c l ++ since c l'.
Proof. apply List.filter_app. Qed.

Lemma since_since c c' l : c ≤ c' → since c' (since c l) = since c' l.
Proof.
  intros Hc. unfold since, retain. induction l as [|t l IH]; simpl; [done|].
  destruct (Z.leb_spec c t); simpl; rewrite IH; [done|].
  by rewrite (proj2 (Z.leb_gt c' t)) by lia.
Qed.

Lemma pop_before_since c l : StronglySorted Z.le l → pop_before c l = since c l.
Proof.
  induction 1 as [|t l _ IH Hall]; simpl; [done|].
  destruct (Z.ltb_spec t c) as [Hlt|Hge].
  - rewrite (proj2 (Z.leb_gt c t)) by lia. exact IH.
  - rewrite (proj2 (Z.leb_le c t)) by lia. f_equal. symmetry. apply retain_all.
    intros x Hx. apply Z.leb_le. rewrite Forall_forall in Hall. specialize (Hall x Hx). lia.
Qed.

Lemma failures_app ip fs fs' : failures ip (fs ++ fs') = failures ip fs ++ failures ip fs'.
Proof. unfold failures, retain. by rewrite List.filter_app, map_app. Qed.

Lemma instants_snoc (l : list Instant) t :
  StronglySorted Z.le l → Forall (λ x, x ≤ t) l → StronglySorted Z.le (l ++ [t]).
Proof.
  intros Hs Ht. induction Hs as [|x l _ IH Hall]; simpl; [by repeat constructor|].
  inv Ht. constructor; [by apply IH|]. apply Forall_app. split; [done|]. by repeat constructor.
Qed.

(** Times the clock can subtract the window from, in the order they were read. *)
Definition clock_ok (window : Duration) (ts : list Instant) : Prop :=
  StronglySorted Z.le ts ∧ Forall (λ t, instant_min ≤ t - window) ts.

Lemma since_below c l x : Forall (λ t, t ≤ x) l → Forall (λ t, t ≤ x) (since c l).
Proof. rewrite !Forall_forall. intros Hl t Ht. apply elem_of_retain in Ht as [_ Ht]. eauto. Qed.

Lemma failures_below ip fs x : Forall (λ t, t ≤ x) (map snd fs) → Forall (λ t, t ≤ x) (failures ip fs).
Proof.
  rewrite !Forall_forall. intros Hl t Ht. apply Hl.
  unfold failures in Ht. apply list_elem_of_fmap in Ht as (f & -> & Hf).
  apply elem_of_retain in Hf as [_ Hf]. by apply list_elem_of_fmap_2.
Qed.

(** What the deque of an address holds: a sorted list that agrees with all the
    failures of the address from the last cutoff on. *)
Definition holds (window : Duration) (ip : IpAddr) (fs : list (IpAddr * Instant)) (now : Instant)
    (deque : list Instant) : Prop :=
  StronglySorted Z.le deque ∧ Forall (λ t, t ≤ now) deque ∧
  (∀ c, now - window ≤ c → since c deque = since c (failures ip fs)).

Lemma record_failure_holds ip ip' now fs (t : IpFailedJoinTracker) :
  instant_min ≤ now - ft_window t →
  holds (ft_window t) ip fs now (default [] (ft_entries t !! ip)) →
  holds (ft_window t) ip (fs ++ [(ip', now)]) now
    (default [] (ft_entries (record_failure ip' now t).2 !! ip)).
Proof.
  intros Hmin (Hs & Hle & Hc). unfold holds, record_failure. cbn [ft_entries snd].
  setoid_rewrite failures_app. unfold failures at 2, retain. cbn [List.filter fst].
  destruct (decide (ip' = ip)) as [->|Hne].
  - rewrite lookup_insert_eq, bool_decide_true by done. cbn [default from_option id map snd].
    unfold checked_sub. rewrite (proj2 (Z.ltb_ge _ _)) by done. cbn [default from_option id].
    rewrite pop_before_since by done.
    assert (Forall (λ x, x ≤ now) (since (now - ft_window t) (default [] (ft_entries t !! ip)))) as Hb
      by by apply since_below.
    split_and!.
    + apply instants_snoc; [|done]. clear Hc Hle Hb. unfold since, retain.
      induction Hs as [|x l _ IH Hall]; simpl; [constructor|]. case_match; [|done].
      constructor; [done|]. rewrite Forall_forall in Hall |- *. intros y Hy.
      apply (elem_of_retain (λ t0, now - ft_window t <=? t0)) in Hy as [_ Hy]. auto.
    + apply Forall_app. split; [done|]. by repeat constructor.
    + intros c Hcw. rewrite !since_app, since_since by done. by rewrite Hc.
  - rewrite lookup_insert_ne, bool_decide_false by done. cbn [map]. by setoid_rewrite app_nil_r.
Qed.

Lemma holds_later window ip fs now now' deque :
  now ≤ now' → holds window ip fs now deque → holds window ip fs now' deque.
Proof.
  intros Hn (Hs & Hle & Hc). split_and!; [done| |].
  - eapply Forall_impl; [exact Hle|]. simpl; lia.
  - intros c Hcw. apply Hc. lia.
Qed.

Lemma after_failures_const thr w fs :
  ft_threshold (after_failures thr w fs) = thr ∧ ft_window (after_failures thr w fs) = w.
Proof.
  unfold after_failures. induction fs as [|f fs IH] using rev_ind; [done|].
  by rewrite foldl_app.
Qed.

Lemma sorted_app_inv (l : list Instant) x :
  StronglySorted Z.le (l ++ [x]) → StronglySorted Z.le l ∧ Forall (λ t, t ≤ x) l.
Proof.
  induction l as [|y l IH]; simpl; intros Hs; [split; constructor|].
  apply StronglySorted_inv in Hs as [Hs Hall]. destruct (IH Hs). apply Forall_app in Hall as [? Hx].
  inv Hx. by split; constructor.
Qed.

Lemma after_failures_holds thr w fs ip now :
  clock_ok w (map snd fs) → Forall (λ t, t ≤ now) (map snd fs) →
  holds w ip fs now (default [] (ft_entries (after_failures thr w fs) !! ip)).
Proof.
  intros Hclk. revert now. induction fs as [|[ip' t] fs IH] using rev_ind; intros now Hnow.
  - unfold holds, after_failures. simpl. split_and!; [constructor|constructor|done].
  - unfold clock_ok in Hclk. rewrite map_app in *. simpl in *. destruct Hclk as [Hs Hmin].
    apply sorted_app_inv in Hs as [Hs Hle]. apply Forall_app in Hmin as [Hmin Hmin'].
    apply Forall_app in Hnow as [_ Hn]. inv Hn. inv Hmin'.
    apply (holds_later _ _ _ t); [done|]. unfold after_failures. rewrite foldl_app. cbn [foldl fst snd].
    fold (after_failures thr w fs). destruct (after_failures_const thr w fs) as [_ Hw].
    rewrite <-Hw at 1. apply record_failure_holds; rewrite Hw; [done|]. by apply IH.
Qed.

(** The warning for an address is raised by a failed join exactly when the
    failures recorded for it in the last window, this one included, exceed the
    threshold; it reports their number; and failures of other addresses, and those
    before the window, count for nothing. *)
Theorem failed_joins_counted thr w fs ip now :
  clock_ok w (map snd fs ++ [now]) → (len fs < u32_modulus - 1)%Z → 0 ≤ w →
  (record_failure ip now (after_failures thr w fs)).1 =
    let n := len (since (now - w) (failures ip fs)) + 1 in
    if thr <? n then Some n else None.
Proof.
  intros [Hs Hmin] Hlen Hw0. apply sorted_app_inv in Hs as [Hs Hle].
  apply Forall_app in Hmin as [Hmin Hn]. inv Hn.
  destruct (after_failures_holds thr w fs ip now (conj Hs Hmin) Hle) as (Hsd & _ & Hc).
  unfold record_failure. destruct (after_failures_const thr w fs) as [-> ->]. cbn [fst].
  unfold checked_sub. rewrite (proj2 (Z.ltb_ge (now - w) instant_min)) by done. cbn [default from_option id].
  rewrite pop_before_since by done. rewrite Hc by lia. rewrite length_app. cbn [length].
  assert (length (since (now - w) (failures ip fs)) ≤ length fs)%nat as Hl.
  { unfold since. etransitivity; [apply length_retain_le|]. unfold failures. rewrite length_map. apply length_retain_le. }
  unfold wrap_u32, u32_modulus in *. rewrite Nat2Z.inj_add, Z.mod_small by lia. reflexivity.
Qed.
End tracker.
Arguments IpFailedJoinTracker IpAddr {_ _} : assert.

(** Every counter is reported, once. *)
Lemma snapshot_complete m c : (c, m c) ∈ snapshot m.
Proof. unfold snapshot. apply list_elem_of_fmap. exists c. split; [done|]. destruct c; set_solver. Qed.
