(* ===== verification/AppState.v ===== *)
(** * The state a message is handled in (wavis-backend/src/ws/ws_dispatch.rs,
    app_state.rs, auth/auth.rs)

    [AppState] is the server's shared state as the message handlers see it, and
    [Conn] what a connection keeps for itself.  A handler runs in a monad whose
    state is both and whose error is an early [return] or a panic, the failure of
    an [unwrap] or [expect].  The guards of ws_dispatch.rs, the authentication of
    an access token and the delivery of TURN credentials are here; the arms of
    [dispatch_message] are in Dispatch.v. *)

From S2P Require Import Prelude Signaling Invite RoomState ScreenShare Relay SfuBridge Tokens SfuRelay SubRooms Voice WsSession SlidingWindow JoinLimiter AbuseGuards WsLimits Chat Config ClientIp AbuseMetrics.
Local Open Scope Z_scope.
Local Open Scope prog_scope.

(** ** Constants *)

Definition MAX_SDP_BYTES : Z := 64 * 1024.
Definition MAX_ICE_CANDIDATE_BYTES : Z := 2 * 1024.
Definition MSG_ACTION_RATE_LIMIT_EXCEEDED : string := "action rate limit exceeded".
Definition COLD_START_ESTIMATED_WAIT_SECS : Z := 120.

(** ** Code outside the repository

    The parser of signaling messages (serde_json with the derived instances), the
    MAC of TURN credentials and the dates of the chrono crate. *)
Class Externals : Type := {
  parse_message : string → option SignalingMessage;
  hmac_sha1_base64 : string → string → string;
  parse_rfc3339 : string → option Z;
  to_rfc3339 : Z → string
}.

(** [Ec2InstanceState]. *)
Inductive Ec2InstanceState : Type :=
| Ec2Running
| Ec2Stopped
| Ec2Starting
| Ec2Stopping
| Ec2Other (s : string).

(** ** The configuration read at start-up *)

Record ServerConfig : Type := mkServerConfig {
  require_invite_code : bool;
  turn_config : option TurnConfig;
  sfu_url : string;
  has_signaling_proxy : bool;
  has_ec2_controller : bool;
  auth_jwt_secret : string;
  auth_jwt_secret_previous : option string;
  global_join_max_per_sec : Z;
  sfu_config : SfuConfig
}.

(** The token mode of the join paths, written out at each of them in the source. *)
Definition token_mode (cfg : ServerConfig) : TokenMode :=
  let sc := sfu_config cfg in
  let custom := Custom (sc_jwt_secret sc) (sc_jwt_issuer sc) (sc_token_ttl_secs sc) in
  if has_signaling_proxy cfg then custom
  else match sc_livekit_api_key sc, sc_livekit_api_secret sc with
       | Some key, Some secret => LiveKit key secret LIVEKIT_TOKEN_TTL_SECS
       | _, _ => custom
       end.

(** The status of the media server as the joins see it. *)
Definition is_join_allowed (h : SfuHealth) : bool := match h with Available => true | _ => false end.

Section app_state.
Context {B : Type} {Uuid : Type} `{EqDecision Uuid} `{!Countable Uuid}.

(** ** Shared state *)

(** The tasks a handler spawns. *)
Inductive Task : Type :=
| PollIce (handle : SfuRoomHandle) (peer_id : PeerId)
| ColdStart
| PersistChat (params : InsertChatMessageParams Uuid)
| LoadHistory (channel_id : option Uuid) (room_id : RoomId) (since : option Z) (peer_id : PeerId).

(** The fields of [AppState] that change, with the tasks in flight. *)
Record AppState : Type := mkAppState {
  as_app : App B Uuid;
  sfu_health_status : SfuHealth;
  join_rate_limiter : JoinRateLimiter IpAddr;
  ip_failed_join_tracker : IpFailedJoinTracker IpAddr;
  abuse_metrics : AbuseMetrics;
  global_join_limiter : Z;
  tasks : list Task
}.

(** What a connection keeps: the fields of [DispatchContext] a handler changes. *)
Record Conn : Type := mkConn {
  session : option SignalingSession;
  authenticated_user_id : option string;
  authenticated_device_id : option Uuid;
  rate_limiter : WsRateLimiter;
  chat_rate_limiter : ChatRateLimiter
}.

(** Its fixed fields, and the frame being handled. *)
Record ConnInfo : Type := mkConnInfo {
  peer_id : PeerId;
  issuer_id : string;
  client_ip : IpAddr;
  raw_text : string
}.

Record Ctx : Type := mkCtx { cx_state : AppState; cx_conn : Conn }.

(** What a handler reads besides: clocks, random draws and the answers of the
    database.  A handler reads each clock at most once. *)
Record DispatchReads : Type := mkDispatchReads {
  dr_now : Instant;
  dr_unix : Z;
  dr_turn_unix : Z;
  dr_limiter_now : Instant;
  dr_sub_now : Instant;
  dr_clks : string → Instant * Z;
  dr_clks' : string → Instant * Z;
  dr_reads : Reads;
  dr_voice : VoiceReads;
  dr_leave : LeaveReads;
  dr_invite_code : string;
  dr_jwt_now : Z;
  dr_jwt_now2 : Z;
  dr_message_id : Uuid;
  dr_timestamp : string;
  db_membership : Uuid → Uuid → Result (option MembershipRow) string;
  db_role : Uuid → Uuid → Result (option ChannelRole) string;
  db_set_enabled : Result Z string;
  db_revoked_at : Uuid → Result (option (option Z)) string;
  db_session_epoch : Uuid → Result (option Z) string
}.

(** [DispatchOutcome]; how a handler is left before its end. *)
Inductive DispatchOutcome : Type := Continue | Break.
Inductive Exit : Type := Return (o : DispatchOutcome) | Panic.

Abbreviation Act A := (M Ctx Exit A) (only parsing).

(** ** Updates *)

Definition on_state (f : AppState → AppState) (c : Ctx) : Ctx := mkCtx (f (cx_state c)) (cx_conn c).
Definition set_app (a : App B Uuid) (s : AppState) : AppState :=
  mkAppState a (sfu_health_status s) (join_rate_limiter s) (ip_failed_join_tracker s) (abuse_metrics s)
    (global_join_limiter s) (tasks s).
Definition set_health (h : SfuHealth) (s : AppState) : AppState :=
  mkAppState (as_app s) h (join_rate_limiter s) (ip_failed_join_tracker s) (abuse_metrics s)
    (global_join_limiter s) (tasks s).
Definition set_join_limiter (l : JoinRateLimiter IpAddr) (s : AppState) : AppState :=
  mkAppState (as_app s) (sfu_health_status s) l (ip_failed_join_tracker s) (abuse_metrics s)
    (global_join_limiter s) (tasks s).
Definition set_failed_joins (t : IpFailedJoinTracker IpAddr) (s : AppState) : AppState :=
  mkAppState (as_app s) (sfu_health_status s) (join_rate_limiter s) t (abuse_metrics s)
    (global_join_limiter s) (tasks s).
Definition set_metrics (m : AbuseMetrics) (s : AppState) : AppState :=
  mkAppState (as_app s) (sfu_health_status s) (join_rate_limiter s) (ip_failed_join_tracker s) m
    (global_join_limiter s) (tasks s).
Definition set_global_join (cell : Z) (s : AppState) : AppState :=
  mkAppState (as_app s) (sfu_health_status s) (join_rate_limiter s) (ip_failed_join_tracker s)
    (abuse_metrics s) cell (tasks s).
Definition add_task (t : Task) (s : AppState) : AppState :=
  mkAppState (as_app s) (sfu_health_status s) (join_rate_limiter s) (ip_failed_join_tracker s)
    (abuse_metrics s) (global_join_limiter s) (tasks s ++ [t]).

Definition on_conn (f : Conn → Conn) (c : Ctx) : Ctx := mkCtx (cx_state c) (f (cx_conn c)).
Definition set_session (ses : option SignalingSession) (c : Conn) : Conn :=
  mkConn ses (authenticated_user_id c) (authenticated_device_id c) (rate_limiter c) (chat_rate_limiter c).
Definition set_limiter (l : WsRateLimiter) (c : Conn) : Conn :=
  mkConn (session c) (authenticated_user_id c) (authenticated_device_id c) l (chat_rate_limiter c).
Definition set_chat_limiter (l : ChatRateLimiter) (c : Conn) : Conn :=
  mkConn (session c) (authenticated_user_id c) (authenticated_device_id c) (rate_limiter c) l.

(** ** The monad *)

(** The room table, the app and the session of the context. *)
Abbreviation app_of c := (as_app (cx_state c)) (only parsing).
Abbreviation table_of c := (w_rooms (v_world (app_voice (as_app (cx_state c))))) (only parsing).

Definition update_app (f : App B Uuid → App B Uuid) : Act unit :=
  modify (on_state (λ s, set_app (f (as_app s)) s)).
Definition rooms_now : Act InMemoryRoomState := gets (λ c, table_of c).
(** A call on the room table. *)
Definition on_rooms {A} (f : InMemoryRoomState → A * InMemoryRoomState) : Act A :=
  state (λ c, let '(a, s) := f (table_of c) in (a, on_state (λ st, set_app (set_app_rooms s (as_app st)) st) c)).
(** A call on the rooms, the invites and the bridge. *)
Definition on_world_ {E A} (m : M (World B) E A) : Act (Result A E) :=
  state (λ c, let '(r, w) := m (v_world (app_voice (app_of c))) in
              (r, on_state (λ st, set_app (set_world w (as_app st)) st) c)).
(** The same with the map of active channel rooms. *)
Definition on_voice {E A} (m : M (VoiceWorld B Uuid) E A) : Act (Result A E) :=
  state (λ c, let '(r, v) := m (app_voice (app_of c)) in
              (r, on_state (λ st, set_app (mkApp v (app_connections (as_app st)) (expiry_timers (as_app st))
                                            (pending_shutdown (as_app st)) (ec2_stops (as_app st))) st) c)).

Definition send_msg (p : PeerId) (m : SignalingMessage) : Act unit := update_app (send p m).
Definition send_error (p : PeerId) (text : string) : Act unit := send_msg p (error_message text).
Definition dispatch (signals : list OutboundSignal) (room_id : RoomId) : Act unit :=
  update_app (deliver signals room_id).
Definition bump (counter : AbuseCounter) : Act unit :=
  modify (on_state (λ s, set_metrics (increment counter (abuse_metrics s)) s)).
Definition spawn (t : Task) : Act unit := modify (on_state (add_task t)).

(** [schedule_sub_room_expiry], under its [if let Some(expiry)]. *)
Definition schedule_sub_room_expiry (room_id : RoomId) (e : option PendingSubRoomExpiry) : Act unit :=
  update_app (start_timer room_id e).

(** [return DispatchOutcome::Continue]; [unwrap] and [expect]. *)
Definition stop {A} : Act A := throw (Return Continue).
Definition unwrap {A} (o : option A) : Act A :=
  match o with Some a => mret a | None => throw Panic end.
Definition get_session : Act (option SignalingSession) := gets (λ c, session (cx_conn c)).

(** ** Guards *)

Definition action_allow_now (now : Instant) : Act bool :=
  state (λ c, let '(ok, l) := action_allow now (rate_limiter (cx_conn c)) in (ok, on_conn (set_limiter l) c)).
Definition deafen_allow_now (now : Instant) : Act bool :=
  state (λ c, let '(ok, l) := deafen_allow now (rate_limiter (cx_conn c)) in (ok, on_conn (set_limiter l) c)).

(** [check_action_rate_limit]. *)
Definition check_action_rate_limit (now : Instant) (caller_id : PeerId) : Act unit :=
  let! allowed := action_allow_now now in
  if allowed then mret tt
  else
    do! bump action_rate_limit_rejections in
    do! send_error caller_id MSG_ACTION_RATE_LIMIT_EXCEEDED in stop.

(** [require_room]. *)
Definition require_room (caller_id : PeerId) : Act RoomId :=
  let! s := rooms_now in
  match get_room_for_peer s caller_id with
  | Some room_id => mret room_id
  | None => do! send_error caller_id "not in a room" in stop
  end.

(** [require_sfu_room]. *)
Definition require_sfu_room (caller_id : PeerId) : Act (RoomId * RoomInfo) :=
  let! room_id := require_room caller_id in
  let! s := rooms_now in
  match get_room_info room_id s with
  | Some i =>
      if bool_decide (room_type i = Sfu) then mret (room_id, i)
      else do! send_error caller_id "action not supported in P2P mode" in stop
  | None => do! send_error caller_id "action not supported in P2P mode" in stop
  end.

(** [require_host]. *)
Definition require_host (caller_id : PeerId) (role : ParticipantRole) : Act unit :=
  if bool_decide (role = Host) then mret tt else do! send_error caller_id "unauthorized" in stop.

(** [require_target_in_room]. *)
Definition require_target_in_room (caller_id : PeerId) (room_info : RoomInfo) (target_id : string) : Act unit :=
  if has_participant target_id room_info then mret tt
  else do! send_error caller_id "target not in room" in stop.

Context `{UuidText Uuid}.

(** The channel role of a user, asked of the database at every use. *)
Definition current_role (rd : DispatchReads) (caller_id : PeerId) (channel_id : string) (user : Uuid)
    : Act ParticipantRole :=
  match get_current_channel_role (db_role rd) channel_id user with
  | Ok (Some r) => mret (map_channel_role r)
  | Ok None => do! send_error caller_id "not authorized" in stop
  | Err _ => do! send_error caller_id "internal error" in stop
  end.

(** [require_host_role]. *)
Definition require_host_role (rd : DispatchReads) (caller_id : PeerId) (channel_id : string) (user : Uuid) : Act unit :=
  let! role := current_role rd caller_id channel_id user in require_host caller_id role.

(** [resolve_effective_role]. *)
Definition resolve_effective_role (rd : DispatchReads) (caller_id : PeerId) (channel_id user_id : option string)
    (cached_role : ParticipantRole) : Act ParticipantRole :=
  match channel_id with
  | None => mret cached_role
  | Some channel_id =>
      let! user_id_str := unwrap user_id in
      let! user := unwrap (uuid_parse_str user_id_str) in
      current_role rd caller_id channel_id user
  end.

(** [handle_self_flag]. *)
Definition handle_self_flag (rd : DispatchReads) (mutate : ParticipantInfo → ParticipantInfo)
    (message : string → SignalingMessage) : Act DispatchOutcome :=
  let! ses := get_session in
  let! ses := unwrap ses in
  let sender_id := ss_participant_id ses in
  let! allowed := deafen_allow_now (dr_limiter_now rd) in
  if negb allowed then
    do! bump action_rate_limit_rejections in
    do! send_error sender_id MSG_ACTION_RATE_LIMIT_EXCEEDED in mret Continue
  else
    let! room_id := require_room sender_id in
    do! on_rooms (λ s, (tt, update_room_info room_id
          (set_participants (update_first (λ p, bool_decide (participant_id p = sender_id)) mutate)) s)) in
    do! dispatch [broadcast_all (message sender_id)] room_id in mret Continue.

(** ** TURN credentials *)

Context `{Externals}.

Definition ice_config_for (c : TurnConfig) (pid : PeerId) (now_unix : Z) : IceConfigPayload :=
  build_ice_config_payload c (generate_turn_credentials hmac_sha1_base64 pid c now_unix).

Definition set_joined_ice (ice : IceConfigPayload) (p : JoinedPayload) : JoinedPayload :=
  mkJoinedPayload (Joined_room_id p) (Joined_peer_id p) (Joined_peer_count p) (Joined_participants p) (Some ice)
    (Joined_share_permission p).
Definition set_created_ice (ice : IceConfigPayload) (p : RoomCreatedPayload) : RoomCreatedPayload :=
  mkRoomCreatedPayload (RoomCreated_room_id p) (RoomCreated_peer_id p) (RoomCreated_invite_code p)
    (RoomCreated_expires_in_secs p) (RoomCreated_max_uses p) (Some ice).

(** [inject_turn_credentials]. *)
Definition inject_turn_credentials (signals : list OutboundSignal) (pid : PeerId) (turn : option TurnConfig)
    (now_unix : Z) : list OutboundSignal :=
  match turn with
  | None => signals
  | Some config =>
      let ice := ice_config_for config pid now_unix in
      map (λ sig, match msg sig with
                  | Msg.Joined joined =>
                      match target sig with
                      | Peer p => if bool_decide (p = pid)
                                  then mkOutboundSignal (Peer p) (Msg.Joined (set_joined_ice ice joined)) else sig
                      | _ => sig
                      end
                  | _ => sig
                  end) signals
  end.

(** ** Authentication of an access token (auth/auth.rs, auth/device.rs) *)

(** [is_device_active]; [answer] is the row of the query. *)
Definition is_device_active (answer : Result (option (option Z)) string) : Result bool string :=
  match answer with
  | Ok (Some None) => Ok true
  | Ok _ => Ok false
  | Err e => Err e
  end.

(** [check_session_epoch]. *)
Definition check_session_epoch (answer : Result (option Z) string) (token_epoch : Z) : Result unit AuthError :=
  match answer with
  | Err e => Err (Tokens.DatabaseError e)
  | Ok (Some db_epoch) => if db_epoch =? token_epoch then Ok tt else Err EpochMismatch
  | Ok None => Err InvalidToken
  end.

(** [authenticate_access_token]. *)
Definition authenticate_access_token `{JwtCodec AuthTokenClaims} (rd : DispatchReads) (secret : string)
    (previous_secret : option string) (token : string) : Result (Uuid * Uuid) AuthError :=
  match validate_access_token_with_rotation token secret previous_secret (dr_jwt_now rd) (dr_jwt_now2 rd) with
  | Err e => Err e
  | Ok (user_id, device_id, token_epoch) =>
      match is_device_active (db_revoked_at rd device_id) with
      | Err e => Err (Tokens.DatabaseError e)
      | Ok false => Err DeviceRevoked
      | Ok true =>
          match check_session_epoch (db_session_epoch rd user_id) token_epoch with
          | Err e => Err e
          | Ok _ => Ok (user_id, device_id)
          end
      end
  end.
End app_state.
Arguments AppState B Uuid {_ _} : assert.
Arguments Task : clear implicits.
Arguments Conn : clear implicits.
Arguments Ctx B Uuid {_ _} : assert.
Arguments DispatchReads : clear implicits.
