(* ===== verification/Dispatch.v ===== *)
(** * Handling a message (wavis-backend/src/ws/ws_dispatch.rs)

    [dispatch_message] with every arm of its match: one definition per arm, in the
    order of the guards, the calls of the domain functions and the deliveries of
    the source.  A handler runs to its end without interleaving; what other
    connections do happens between two handlers. *)

From S2P Require Import Prelude Signaling Invite RoomState ScreenShare Relay SfuBridge Tokens SfuRelay SubRooms Voice WsSession SlidingWindow JoinLimiter AbuseGuards WsLimits Chat Config ClientIp AbuseMetrics AppState.
Local Open Scope Z_scope.
Local Open Scope prog_scope.

(** [Display] of [CreateRoomError]. *)
Definition CreateRoomError_to_string (e : CreateRoomError) : string :=
  match e with
  | CreateErr.RoomAlreadyExists => "room already exists"
  | CreateErr.InvalidRoomId => "invalid room ID"
  | CreateErr.SfuUnavailable => "SFU unavailable"
  | CreateErr.OfSfu e => "SFU error: " +:+ SfuError_to_string e
  | CreateErr.InviteGeneration s => "invite generation failed: " +:+ s
  end.

(** [name.filter(|s| !s.is_empty()).unwrap_or(peer_id)]. *)
Definition name_or (fallback : string) (name : option string) : string :=
  match name with
  | Some n => if str_is_empty n then fallback else n
  | None => fallback
  end.

(** First joiner is Host, subsequent joiners are Guest. *)
Definition first_joiner_role (i : option RoomInfo) : ParticipantRole :=
  match i with
  | Some i => if Nat.eqb (length (participants i)) 1 then Host else Guest
  | None => Guest
  end.

(** The flags the self-service messages set. *)
Definition self_mute (p : ParticipantInfo) : ParticipantInfo :=
  mkParticipantInfo (participant_id p) (display_name p) (user_id p) (profile_color p) true (is_host_muted p)
    (is_deafened p).
Definition self_unmute (p : ParticipantInfo) : ParticipantInfo :=
  mkParticipantInfo (participant_id p) (display_name p) (user_id p) (profile_color p) (is_host_muted p)
    (is_host_muted p) (is_deafened p).
Definition self_deafen (deafened : bool) (p : ParticipantInfo) : ParticipantInfo :=
  mkParticipantInfo (participant_id p) (display_name p) (user_id p) (profile_color p) (is_muted p)
    (is_host_muted p) deafened.
Definition set_display_name (name : string) (p : ParticipantInfo) : ParticipantInfo :=
  mkParticipantInfo (participant_id p) name (user_id p) (profile_color p) (is_muted p) (is_host_muted p)
    (is_deafened p).

Section dispatch.
Context {B : Type} `{SfuRoomManager B, SfuSignalingProxy B}.
Context `{JwtCodec MediaTokenClaims, JwtCodec AuthTokenClaims, LiveKitTokens, Externals}.
Context {Uuid : Type} `{EqDecision Uuid} `{!Countable Uuid} `{UuidText Uuid}.

(** The server's configuration, the connection and what the handler reads. *)
Context (cfg : ServerConfig) (me : ConnInfo) (rd : DispatchReads Uuid).

Abbreviation Act A := (M (Ctx B Uuid) Exit A) (only parsing).

(** The participant a message is from: the session's, or the connection's. *)
Definition sender (ses : option SignalingSession) : PeerId :=
  match ses with Some s => ss_participant_id s | None => peer_id me end.

(** A call on the invite store, and one on the signaling proxy. *)
Definition on_invites {A} (f : InviteStore → A * InviteStore) : Act A :=
  state (λ c, let w := v_world (app_voice (as_app (cx_state c))) in
              let '(a, inv) := f (w_invites w) in
              (a, on_state (λ st, set_app (set_world (mkWorld (w_rooms w) inv (w_bridge w)) (as_app st)) st) c)).
Definition on_proxy {A} (f : B → A * B) : Act A :=
  state (λ c, let w := v_world (app_voice (as_app (cx_state c))) in
              let '(a, b) := f (w_bridge w) in
              (a, on_state (λ st, set_app (set_world (mkWorld (w_rooms w) (w_invites w) b) (as_app st)) st) c)).
Definition set_session_now (ses : SignalingSession) : Act unit := modify (on_conn (set_session (Some ses))).

(** ** Relay of a peer's own message *)

(** [handle_signaling_event]. *)
Definition handle_signaling_event (sender_peer_id : PeerId) (message : SignalingMessage) : Act unit :=
  let! s := rooms_now in
  match message with
  | Msg.Offer _ | Msg.Answer _ | Msg.IceCandidate _ =>
      match relay_signaling s sender_peer_id message with
      | Relayed target_peer_id m => send_msg target_peer_id m
      | NoPeer error => send_msg sender_peer_id error
      end
  | Msg.Leave =>
      match handle_disconnect s sender_peer_id with
      | Some (target_peer_id, m) => send_msg target_peer_id m
      | None => mret tt
      end
  | _ => send_error sender_peer_id "invalid message type from client"
  end.

(** [handle_signaling_message]: the frame's text is parsed again. *)
Definition handle_signaling_message (sender_peer_id : PeerId) : Act unit :=
  match parse_message (raw_text me) with
  | Some message => handle_signaling_event sender_peer_id message
  | None => send_error sender_peer_id "invalid JSON"
  end.

(** ** Authentication *)

(** The [Auth] arm. *)
Definition dispatch_auth (p : AuthPayload) : Act DispatchOutcome :=
  match authenticate_access_token rd (auth_jwt_secret cfg) (auth_jwt_secret_previous cfg) (Auth_access_token p) with
  | Ok (user, device) =>
      do! modify (on_conn (λ c, mkConn (session c) (Some (uuid_to_string user)) (Some device) (rate_limiter c)
                                  (chat_rate_limiter c))) in
      do! send_msg (peer_id me) (Msg.AuthSuccess (mkAuthSuccessPayload (uuid_to_string user))) in mret Continue
  | Err _ =>
      do! send_msg (peer_id me) (Msg.AuthFailed (mkAuthFailedPayload "authentication failed")) in mret Continue
  end.

(** ** Joining by invite *)

(** [join_rate_limiter.record_attempt]. *)
Definition record_join (code : option string) (room_id : RoomId) (failed : bool) : Act unit :=
  modify (on_state (λ s, set_join_limiter
    (record_attempt (client_ip me) code room_id (peer_id me) failed (dr_now rd) (join_rate_limiter s)) s)).

(** [ip_failed_join_tracker.record_failure]. *)
Definition record_failed_join : Act (option Z) :=
  state (λ c, let '(n, t) := record_failure (client_ip me) (dr_now rd) (ip_failed_join_tracker (cx_state c)) in
              (n, on_state (set_failed_joins t) c)).

(** A failure that raises the warning past the threshold. *)
Definition track_failed_join : Act unit :=
  let! count := record_failed_join in
  match count with Some _ => bump invite_usage_anomalies | None => mret tt end.

Definition send_rejection (reason : JoinRejectionReason) : Act unit :=
  send_msg (peer_id me) (Msg.JoinRejected (mkJoinRejectedPayload reason)).

(** Step 1: the invite code. *)
Definition join_invite_code (p : JoinPayload) (room_id : RoomId) : Act string :=
  let missing :=
    do! record_join None room_id true in
    do! track_failed_join in
    do! send_rejection InviteRequired in stop in
  if require_invite_code cfg then
    match Join_invite_code p with
    | Some code => if str_is_empty code then missing else mret code
    | None => missing
    end
  else mret (default EmptyString (Join_invite_code p)).

(** Step 1.5: the global join ceiling. *)
Definition global_join_ceiling : Act unit :=
  let! allowed := state (λ c,
    let '(ok, cell) := GlobalLimiter.allow (global_join_max_per_sec cfg) (dr_unix rd) (global_join_limiter (cx_state c)) in
    (ok, on_state (set_global_join cell) c)) in
  if allowed : bool then mret tt
  else
    do! bump global_join_ceiling_rejections in
    do! send_error (peer_id me) "server busy, try again later" in stop.

(** Step 2: the rate limits. *)
Definition check_join_limits (code : option string) (room_id : RoomId) : Act unit :=
  let! verdict := state (λ c,
    let '(r, l) := check_join (client_ip me) code room_id (peer_id me) (dr_now rd) (join_rate_limiter (cx_state c)) in
    (r, on_state (set_join_limiter l) c)) in
  match verdict with
  | Ok _ => mret tt
  | Err reason =>
      do! record_join code room_id true in
      do! bump join_rate_limit_rejections in
      do! track_failed_join in
      do! send_rejection reason in stop
  end.

(** Step 3: the invite. *)
Definition check_invite (code : string) (room_id : RoomId) : Act unit :=
  let! verdict := gets (λ c, validate code room_id (dr_now rd) (w_invites (v_world (app_voice (as_app (cx_state c)))))) in
  match verdict with
  | Ok _ => mret tt
  | Err reason =>
      do! record_join (Some code) room_id true in
      do! bump join_invite_rejections in
      do! track_failed_join in
      do! send_rejection reason in stop
  end.

(** The session of a join by invite. *)
Definition enter_session (room_id : RoomId) : Act unit :=
  let! s := rooms_now in
  let! user := gets (λ c, authenticated_user_id (cx_conn c)) in
  set_session_now (SignalingSession_new (peer_id me) room_id (first_joiner_role (get_room_info room_id s)) user None).

(** Step 4, P2P. *)
Definition join_p2p (room_id : RoomId) (code : option string) : Act (Result unit JoinRejectionReason) :=
  let! r := on_world_ (E:=Empty_set) (λ w,
    let '(r, s, inv) := handle_p2p_join room_id (peer_id me) code (rd_created_at (dr_reads rd)) (rd_now (dr_reads rd))
                          (w_rooms w) (w_invites w) in (Ok r, mkWorld s inv (w_bridge w))) in
  match r with
  | Ok (P2PJoined signals) =>
      do! dispatch (inject_turn_credentials signals (peer_id me) (turn_config cfg) (dr_turn_unix rd)) room_id in
      do! enter_session room_id in
      mret (Ok tt)
  | Ok P2PRoomFull => mret (Err RoomFull)
  | Ok (P2PInviteRejected reason) => mret (Err reason)
  | Err e => match e with end
  end.

(** The polling of the media server's candidates. *)
Definition spawn_ice_poll (room_id : RoomId) : Act unit :=
  let! s := rooms_now in
  match get_room_info room_id s ≫= sfu_handle with
  | Some handle => when (has_signaling_proxy cfg) (spawn (PollIce handle (peer_id me)))
  | None => mret tt
  end.

(** Step 4, SFU. *)
Definition join_sfu (p : JoinPayload) (room_id : RoomId) (invite_code : string) (code : option string)
    : Act (Result unit JoinRejectionReason) :=
  let! available := gets (λ c, is_join_allowed (sfu_health_status (cx_state c))) in
  if negb available then
    do! send_error (peer_id me) "SFU unavailable" in
    do! record_join (Some invite_code) room_id true in stop
  else
    let! r := on_world_ (handle_sfu_join room_id (peer_id me) (name_or (peer_id me) (Join_display_name p))
                (Join_profile_color p) (token_mode cfg) (sfu_url cfg) (sc_max_participants (sfu_config cfg)) code
                (dr_reads rd)) in
    match r with
    | Ok signals =>
        do! dispatch (inject_turn_credentials signals (peer_id me) (turn_config cfg) (dr_turn_unix rd)) room_id in
        do! spawn_ice_poll room_id in
        do! enter_session room_id in
        mret (Ok tt)
    | Err SfuErr.RoomFull => mret (Err RoomFull)
    | Err SfuErr.InviteExhausted => mret (Err InviteExhausted)
    | Err e =>
        do! send_error (peer_id me) ("join failed: " +:+ SfuError_to_string e) in
        do! record_join (Some invite_code) room_id true in stop
    end.

(** The [Join] arm. *)
Definition dispatch_join (p : JoinPayload) : Act DispatchOutcome :=
  let! ses := get_session in
  if bool_decide (is_Some ses) then do! send_error (peer_id me) "already joined" in mret Continue
  else
  let room_id := trim (Join_room_id p) in
  if str_is_empty room_id then do! send_error (peer_id me) "invalid room ID" in mret Continue
  else
  let! invite_code := join_invite_code p room_id in
  do! when (require_invite_code cfg)
        (do! global_join_ceiling in
         do! check_join_limits (Some invite_code) room_id in
         check_invite invite_code room_id) in
  let code := if require_invite_code cfg then Some invite_code else None in
  let! result := match determine_room_type (Join_room_type p) (sc_max_participants (sfu_config cfg)) with
                 | P2P => join_p2p room_id code
                 | Sfu => join_sfu p room_id invite_code code
                 end in
  do! record_join (Some invite_code) room_id (negb (is_Ok result)) in
  do! match result with
      | Ok _ => mret tt
      | Err reason => do! track_failed_join in send_rejection reason
      end in
  mret Continue.

(** ** Creating and leaving *)

Definition inject_created (signals : list OutboundSignal) : list OutboundSignal :=
  match turn_config cfg with
  | None => signals
  | Some tc =>
      map (λ sig, match msg sig with
                  | Msg.RoomCreated p =>
                      mkOutboundSignal (target sig)
                        (Msg.RoomCreated (set_created_ice (ice_config_for tc (peer_id me) (dr_turn_unix rd)) p))
                  | _ => sig
                  end) signals
  end.

(** The [CreateRoom] arm. *)
Definition dispatch_create_room (p : CreateRoomPayload) : Act DispatchOutcome :=
  let! ses := get_session in
  if bool_decide (is_Some ses) then do! send_error (peer_id me) "already joined" in mret Continue
  else
  let! available := gets (λ c, is_join_allowed (sfu_health_status (cx_state c))) in
  let! r := on_world_ (handle_create_room (CreateRoom_room_id p) (peer_id me)
              (name_or (peer_id me) (CreateRoom_display_name p)) (CreateRoom_profile_color p)
              (CreateRoom_room_type p) (sc_max_participants (sfu_config cfg)) (issuer_id me) (token_mode cfg)
              (sfu_url cfg) available (dr_reads rd)) in
  match r with
  | Ok signals =>
      let room_id := trim (CreateRoom_room_id p) in
      let! user := gets (λ c, authenticated_user_id (cx_conn c)) in
      do! set_session_now (SignalingSession_new (peer_id me) room_id Host user None) in
      do! dispatch (inject_created signals) room_id in mret Continue
  | Err e => do! send_error (peer_id me) (CreateRoomError_to_string e) in mret Continue
  end.

(** The [Leave] arm; the connection is closed. *)
Definition dispatch_leave : Act DispatchOutcome :=
  let! ses := get_session in
  do! match ses with
      | None => mret tt
      | Some ses =>
          modify (λ c, let '(ses', a) := handle_leave (dr_leave rd) ses (as_app (cx_state c)) in
                       mkCtx (set_app a (cx_state c)) (set_session (Some ses') (cx_conn c)))
      end in
  mret Break.

(** ** WebRTC negotiation *)

(** The handle of the sender's SFU room. *)
Definition sfu_handle_for (pid : PeerId) (s : InMemoryRoomState) : option SfuRoomHandle :=
  room_id ← get_room_for_peer s pid;
  i ← get_room_info room_id s;
  if bool_decide (room_type i = Sfu) then sfu_handle i else None.

(** The refusal of an oversized payload. *)
Definition too_large (text : string) : Act DispatchOutcome :=
  do! bump payload_size_violations in
  do! send_error (peer_id me) text in mret Continue.

(** The [Offer] arm. *)
Definition dispatch_offer (p : OfferPayload) : Act DispatchOutcome :=
  let! ses := get_session in
  let sender_id := sender ses in
  let sdp := SessionDescription_sdp (Offer_session_description p) in
  if MAX_SDP_BYTES <? str_len sdp then too_large "sdp too large"
  else
  let! s := rooms_now in
  match sfu_handle_for sender_id s with
  | Some handle =>
      do! when (has_signaling_proxy cfg)
            (let! r := on_proxy (handle_sfu_offer handle sender_id sdp) in
             match r with
             | SdpAnswer pid answer_sdp =>
                 send_msg pid (Msg.Answer (mkAnswerPayload (mkSessionDescription answer_sdp "answer")))
             | SfuRelayError pid error => send_msg pid error
             | IceForwarded => mret tt
             end) in
      mret Continue
  | None => do! handle_signaling_message sender_id in mret Continue
  end.

(** The [IceCandidate] arm. *)
Definition dispatch_ice (p : IceCandidatePayload) : Act DispatchOutcome :=
  let! ses := get_session in
  let sender_id := sender ses in
  if MAX_ICE_CANDIDATE_BYTES <? str_len (Ice_candidate (IceCandidate_candidate p)) then
    too_large "ice candidate too large"
  else
  let! s := rooms_now in
  match sfu_handle_for sender_id s with
  | Some handle =>
      do! when (has_signaling_proxy cfg)
            (let! _r := on_proxy (handle_sfu_ice handle sender_id (IceCandidate_candidate p)) in mret tt) in
      mret Continue
  | None => do! handle_signaling_message sender_id in mret Continue
  end.

(** The [Answer] arm. *)
Definition dispatch_answer (p : AnswerPayload) : Act DispatchOutcome :=
  let! ses := get_session in
  let sender_id := sender ses in
  if MAX_SDP_BYTES <? str_len (SessionDescription_sdp (Answer_session_description p)) then too_large "sdp too large"
  else
  let! s := rooms_now in
  let is_sfu := match get_room_for_peer s sender_id ≫= λ r, get_room_info r s with
                | Some i => bool_decide (room_type i = Sfu)
                | None => false
                end in
  do! when (negb is_sfu) (handle_signaling_message sender_id) in mret Continue.

(** ** Invites *)

(** The [InviteCreate] arm. *)
Definition dispatch_invite_create (p : InviteCreatePayload) : Act DispatchOutcome :=
  let! ses := get_session in
  let sender_id := sender ses in
  let! room_id := require_room sender_id in
  let! r := on_invites (generate (dr_invite_code rd) room_id (issuer_id me) (InviteCreate_max_uses p) (dr_now rd)) in
  match r with
  | Ok record =>
      let! ttl := gets (λ c, default_ttl_secs (w_invites (v_world (app_voice (as_app (cx_state c)))))) in
      do! send_msg sender_id (Msg.InviteCreated (mkInviteCreatedPayload (ir_code record) ttl (ir_remaining_uses record))) in
      mret Continue
  | Err (RoomLimitReached _ _) => do! send_error sender_id "invite limit reached for room" in mret Continue
  | Err (GlobalLimitReached _) => do! send_error sender_id "global invite limit reached" in mret Continue
  | Err InviteNotFound => do! send_error sender_id "invite code not found" in mret Continue
  end.

(** The [InviteRevoke] arm. *)
Definition dispatch_invite_revoke (p : InviteRevokePayload) : Act DispatchOutcome :=
  let! ses := get_session in
  let! ses := unwrap ses in
  let sender_id := ss_participant_id ses in
  let! r := on_invites (revoke_authorized (InviteRevoke_invite_code p) (ss_room_id ses) sender_id (ss_role ses)) in
  match r with
  | Ok _ =>
      do! send_msg sender_id (Msg.InviteRevoked (mkInviteRevokedPayload (InviteRevoke_invite_code p))) in mret Continue
  | Err RevokeUnauthorized =>
      do! bump revoke_authorization_rejections in
      do! send_error sender_id "unauthorized" in mret Continue
  | Err RevokeNotFound => do! send_error sender_id "invite code not found" in mret Continue
  end.

(** ** Host actions *)

(** Deliver the signals of a domain function, or report its error. *)
Definition report {E} (show : E → string) (p : PeerId) (room_id : RoomId) (r : Result (list OutboundSignal) E) : Act unit :=
  match r with
  | Ok signals => dispatch signals room_id
  | Err e => send_error p (show e)
  end.

(** The [RequestViewerToken] arm. *)
Definition dispatch_viewer_token (p : RequestViewerTokenPayload) : Act DispatchOutcome :=
  let! ses := get_session in
  let! ses := unwrap ses in
  let requester_id := ss_participant_id ses in
  do! check_action_rate_limit (dr_limiter_now rd) requester_id in
  let! room_id := require_room requester_id in
  let! r := on_world_ (handle_viewer_token_request room_id requester_id (ss_user_id ses)
              (RequestViewerToken_window_id p) (token_mode cfg) (sfu_url cfg) (dr_reads rd)) in
  do! report (λ e, "viewer token request failed: " +:+ SfuError_to_string e) requester_id room_id r in
  mret Continue.

(** The guards the three host actions share: the rate limit, an SFU room, the
    caller's role of the moment and a target in the room. *)
Definition host_action (ses : SignalingSession) (target_id : string) : Act (RoomId * ParticipantRole) :=
  let caller := ss_participant_id ses in
  do! check_action_rate_limit (dr_limiter_now rd) caller in
  let! room := require_sfu_room caller in
  let! role := resolve_effective_role rd caller (ss_channel_id ses) (ss_user_id ses) (ss_role ses) in
  do! require_host caller role in
  do! require_target_in_room caller room.2 target_id in
  mret (room.1, role).

(** The [KickParticipant] arm. *)
Definition dispatch_kick (p : KickParticipantPayload) : Act DispatchOutcome :=
  let! ses := get_session in
  let! ses := unwrap ses in
  let kicker_id := ss_participant_id ses in
  let target_id := KickParticipant_target_participant_id p in
  let! action := host_action ses target_id in
  let! r := on_world_ (handle_kick action.1 kicker_id action.2 target_id (dr_reads rd)) in
  match r with
  | Ok signals =>
      let! sub := on_rooms (remove_participant_from_sub_room action.1 target_id (dr_sub_now rd) (dr_clks rd)) in
      do! dispatch (signals ++ sar_signals sub) action.1 in
      do! schedule_sub_room_expiry action.1 (sar_expiry sub) in mret Continue
  | Err e => do! send_error kicker_id ("kick failed: " +:+ SfuError_to_string e) in mret Continue
  end.

(** The [MuteParticipant] arm. *)
Definition dispatch_mute (p : MuteParticipantPayload) : Act DispatchOutcome :=
  let! ses := get_session in
  let! ses := unwrap ses in
  let target_id := MuteParticipant_target_participant_id p in
  let! action := host_action ses target_id in
  let! r := on_world_ (handle_mute action.1 (ss_participant_id ses) action.2 target_id) in
  do! report (λ e, "mute failed: " +:+ SfuError_to_string e) (ss_participant_id ses) action.1 r in mret Continue.

(** The [UnmuteParticipant] arm. *)
Definition dispatch_unmute (p : UnmuteParticipantPayload) : Act DispatchOutcome :=
  let! ses := get_session in
  let! ses := unwrap ses in
  let target_id := UnmuteParticipant_target_participant_id p in
  let! action := host_action ses target_id in
  let! r := on_world_ (handle_unmute action.1 (ss_participant_id ses) action.2 target_id) in
  do! report (λ e, "unmute failed: " +:+ SfuError_to_string e) (ss_participant_id ses) action.1 r in mret Continue.

(** ** Profile *)

(** The [UpdateProfileColor] arm. *)
Definition dispatch_color (p : UpdateProfileColorPayload) : Act DispatchOutcome :=
  let! ses := get_session in
  let! ses := unwrap ses in
  let sender_id := ss_participant_id ses in
  do! check_action_rate_limit (dr_limiter_now rd) sender_id in
  let! room_id := require_room sender_id in
  do! dispatch [broadcast_all (Msg.ParticipantColorUpdated
        (mkParticipantColorUpdatedPayload sender_id (UpdateProfileColor_profile_color p)))] room_id in
  mret Continue.

(** The [UpdateUsername] arm. *)
Definition dispatch_username (p : UpdateUsernamePayload) : Act DispatchOutcome :=
  let! ses := get_session in
  let! ses := unwrap ses in
  let sender_id := ss_participant_id ses in
  do! check_action_rate_limit (dr_limiter_now rd) sender_id in
  let! room_id := require_room sender_id in
  do! on_rooms (λ s, (tt, update_room_info room_id (set_participants
        (update_first (λ q, bool_decide (participant_id q = sender_id))
           (set_display_name (UpdateUsername_username p)))) s)) in
  do! dispatch [broadcast_all (Msg.ParticipantUsernameUpdated
        (mkParticipantUsernameUpdatedPayload sender_id (UpdateUsername_username p)))] room_id in
  mret Continue.

(** ** Screen sharing *)

(** The [StartShare] arm. *)
Definition dispatch_start_share (p : StartSharePayload) : Act DispatchOutcome :=
  let! ses := get_session in
  let! ses := unwrap ses in
  let sender_id := ss_participant_id ses in
  let! allowed := action_allow_now (dr_limiter_now rd) in
  if negb allowed then
    do! bump action_rate_limit_rejections in
    do! bump screen_share_rejections in
    do! send_error sender_id MSG_ACTION_RATE_LIMIT_EXCEEDED in mret Continue
  else
    let! room_id := require_room sender_id in
    let! r := on_rooms (handle_start_share_with_type room_id sender_id (ss_role ses) (StartShare_share_type p)) in
    match r with
    | ShareOk signals => do! dispatch signals room_id in mret Continue
    | Noop => mret Continue
    | ShareError err => do! bump screen_share_rejections in do! send_msg sender_id err in mret Continue
    end.

(** The [StopShare] arm. *)
Definition dispatch_stop_share (p : StopSharePayload) : Act DispatchOutcome :=
  let! ses := get_session in
  let! ses := unwrap ses in
  let sender_id := ss_participant_id ses in
  let! allowed := action_allow_now (dr_limiter_now rd) in
  if negb allowed then do! bump action_rate_limit_rejections in mret Continue
  else
    let! room_id := require_room sender_id in
    let! r := on_rooms (handle_stop_share room_id sender_id (StopShare_target_participant_id p) (ss_role ses)
                (StopShare_share_type p)) in
    match r with
    | ShareOk signals => do! dispatch signals room_id in mret Continue
    | Noop =>
        let! s := rooms_now in
        let has_share := match get_room_info room_id s with
                         | Some i => negb (bool_decide (active_shares i = ∅))
                         | None => false
                         end in
        do! when has_share (bump screen_share_rejections) in mret Continue
    | ShareError err => do! bump screen_share_rejections in do! send_msg sender_id err in mret Continue
    end.

(** The [StopAllShares] arm. *)
Definition dispatch_stop_all_shares : Act DispatchOutcome :=
  let! ses := get_session in
  let! ses := unwrap ses in
  let sender_id := ss_participant_id ses in
  let! allowed := action_allow_now (dr_limiter_now rd) in
  if negb allowed then do! bump action_rate_limit_rejections in mret Continue
  else
    let! room_id := require_room sender_id in
    let! r := on_rooms (handle_stop_all_shares room_id sender_id (ss_role ses)) in
    match r with
    | ShareOk signals => do! dispatch signals room_id in mret Continue
    | Noop => mret Continue
    | ShareError err => do! bump screen_share_rejections in do! send_msg sender_id err in mret Continue
    end.

(** The [SetSharePermission] arm. *)
Definition dispatch_share_permission (p : SetSharePermissionPayload) : Act DispatchOutcome :=
  let! ses := get_session in
  let! ses := unwrap ses in
  let sender_id := ss_participant_id ses in
  do! check_action_rate_limit (dr_limiter_now rd) sender_id in
  let! room_id := require_room sender_id in
  let! role := resolve_effective_role rd sender_id (ss_channel_id ses) (ss_user_id ses) (ss_role ses) in
  let! r := on_rooms (handle_set_share_permission room_id sender_id role (SetSharePermission_permission p)) in
  match r with
  | ShareOk signals => do! dispatch signals room_id in mret Continue
  | Noop => mret Continue
  | ShareError err => do! send_msg sender_id err in mret Continue
  end.

(** ** Joining a channel's voice room *)

(** The wait a client is told while the media server starts, if it is not up. *)
Definition cold_start_response : Act (option Z) :=
  let! health := gets (λ c, sfu_health_status (cx_state c)) in
  match health with
  | Available => mret None
  | Starting since =>
      let elapsed := wrap_u32 (as_secs (duration_since (dr_now rd) since)) in
      mret (Some (saturating_sub COLD_START_ESTIMATED_WAIT_SECS elapsed `max` 15))
  | Unavailable _ =>
      if has_ec2_controller cfg then
        do! modify (on_state (set_health (Starting (dr_now rd)))) in
        do! spawn ColdStart in
        mret (Some COLD_START_ESTIMATED_WAIT_SECS)
      else
        do! send_error (peer_id me) "SFU unavailable" in stop
  end.

(** The reason a client is told for a refused voice join; a join that panicked tells
    nobody. *)
Definition voice_rejection (e : VoiceJoinError) : JoinRejectionReason :=
  match e with
  | VoiceRoomFull => RoomFull
  | NotChannelMember | ChannelBanned | InvalidChannelId | Voice.DatabaseError _ | OfSfuError _ | InternalError _
  | VoicePanicked => NotAuthorized
  end.

(** [n.trim().is_empty()]. *)
Definition voice_name (name : option string) : string :=
  match name with
  | Some n => if str_is_empty (trim n) then peer_id me else n
  | None => peer_id me
  end.

(** The connection of a session the join displaced is told and unregistered. *)
Definition displace (evicted : option string) : Act unit :=
  match evicted with
  | None => mret tt
  | Some evicted_id =>
      do! send_msg evicted_id (Msg.SessionDisplaced (mkSessionDisplacedPayload "another session connected")) in
      update_app (λ a, mkApp (app_voice a) (unregister evicted_id (app_connections a)) (expiry_timers a)
                         (pending_shutdown a) (ec2_stops a))
  end.

(** The [JoinVoice] arm. *)
Definition dispatch_join_voice (p : JoinVoicePayload) : Act DispatchOutcome :=
  let channel_id := JoinVoice_channel_id p in
  let! user := gets (λ c, authenticated_user_id (cx_conn c)) in
  let! user_id_str := unwrap user in
  let! user_uuid := unwrap (uuid_parse_str user_id_str) in
  let! wait := cold_start_response in
  match wait with
  | Some wait_secs =>
      do! send_msg (peer_id me) (Msg.SfuColdStarting (mkSfuColdStartingPayload wait_secs)) in mret Continue
  | None =>
      do! global_join_ceiling in
      do! check_join_limits None channel_id in
      let! r := on_voice (join_voice (db_membership rd) (token_mode cfg) (sfu_url cfg) channel_id user_uuid (peer_id me)
                  (voice_name (JoinVoice_display_name p)) (JoinVoice_profile_color p)
                  (bool_decide (JoinVoice_supports_sub_rooms p = Some true)) (sc_max_participants (sfu_config cfg))
                  (dr_voice rd)) in
      match r with
      | Ok j =>
          do! set_session_now (SignalingSession_new (peer_id me) (vj_room_id j) (vj_participant_role j)
                                 (Some user_id_str) (Some (vj_channel_id j))) in
          do! record_join None channel_id false in
          do! dispatch (inject_turn_credentials (vj_signals j) (peer_id me) (turn_config cfg) (dr_turn_unix rd))
                (vj_room_id j) in
          do! schedule_sub_room_expiry (vj_room_id j) (vj_sub_room_expiry j) in
          do! displace (vj_evicted_peer_id j) in mret Continue
      | Err VoicePanicked => throw Panic
      | Err e =>
          do! record_join None channel_id true in
          let! _count := record_failed_join in
          do! send_rejection (voice_rejection e) in mret Continue
      end
  end.

(** ** Sub-rooms and passthrough *)

(** The guards of the sub-room arms: a session, of a channel, within the limit. *)
Definition channel_session (refusal : string) : Act (SignalingSession * string) :=
  let! ses := get_session in
  match ses with
  | None => stop
  | Some ses =>
      match ss_channel_id ses with
      | None => do! send_error (peer_id me) refusal in stop
      | Some channel_id =>
          let! allowed := action_allow_now (dr_limiter_now rd) in
          if allowed then mret (ses, channel_id) else stop
      end
  end.

(** Deliver what a sub-room operation returns and start its timer. *)
Definition report_sub (ses : SignalingSession) (r : Result SubRoomActionResult string) : Act DispatchOutcome :=
  match r with
  | Ok result =>
      do! dispatch (sar_signals result) (ss_room_id ses) in
      do! schedule_sub_room_expiry (ss_room_id ses) (sar_expiry result) in mret Continue
  | Err message => do! send_error (peer_id me) message in mret Continue
  end.
(** The same where no timer can result. *)
Definition report_pass (ses : SignalingSession) (r : Result SubRoomActionResult string) : Act DispatchOutcome :=
  match r with
  | Ok result => do! dispatch (sar_signals result) (ss_room_id ses) in mret Continue
  | Err message => do! send_error (peer_id me) message in mret Continue
  end.

(** The [CreateSubRoom] arm. *)
Definition dispatch_create_sub_room : Act DispatchOutcome :=
  let! s := channel_session "rooms require a channel voice session" in
  let! r := on_rooms (create_sub_room (ss_room_id s.1) (dr_sub_now rd) (dr_clks rd) (dr_clks' rd)) in
  report_sub s.1 r.

(** The [JoinSubRoom] arm. *)
Definition dispatch_join_sub_room (p : JoinSubRoomPayload) : Act DispatchOutcome :=
  let! s := channel_session "rooms require a channel voice session" in
  let! r := on_rooms (join_sub_room (ss_room_id s.1) (JoinSubRoom_sub_room_id p) (ss_participant_id s.1)
              (dr_sub_now rd) (dr_clks rd)) in
  report_sub s.1 r.

(** The [LeaveSubRoom] arm. *)
Definition dispatch_leave_sub_room : Act DispatchOutcome :=
  let! s := channel_session "rooms require a channel voice session" in
  let! r := on_rooms (leave_sub_room (ss_room_id s.1) (ss_participant_id s.1) (dr_sub_now rd) (dr_clks rd)) in
  report_sub s.1 r.

(** The [SetPassthrough] arm. *)
Definition dispatch_set_passthrough (p : SetPassthroughPayload) : Act DispatchOutcome :=
  let! s := channel_session "passthrough requires a channel voice session" in
  let! r := on_rooms (set_passthrough (ss_room_id s.1) (ss_participant_id s.1) (SetPassthrough_target_sub_room_id p)
              (dr_clks rd)) in
  report_pass s.1 r.

(** The [ClearPassthrough] arm. *)
Definition dispatch_clear_passthrough : Act DispatchOutcome :=
  let! s := channel_session "passthrough requires a channel voice session" in
  let! r := on_rooms (clear_passthrough (ss_room_id s.1) (ss_participant_id s.1) (dr_clks rd)) in
  report_pass s.1 r.

(** The user of a channel session, and the check that it is a host of the channel. *)
Definition require_channel_host (ses : SignalingSession) (channel_id : string) : Act unit :=
  let! user_id := unwrap (ss_user_id ses) in
  let! user := unwrap (uuid_parse_str user_id) in
  require_host_role rd (peer_id me) channel_id user.

(** The [SetPassthroughEnabled] arm. *)
Definition dispatch_passthrough_enabled (p : SetPassthroughEnabledPayload) : Act DispatchOutcome :=
  let! s := channel_session "set_passthrough_enabled requires a channel voice session" in
  do! require_channel_host s.1 s.2 in
  let! r := on_rooms (set_passthrough_enabled (db_set_enabled rd) (ss_room_id s.1) (SetPassthroughEnabled_enabled p)
              (dr_clks rd)) in
  report_pass s.1 r.

(** The [SetPassthroughVolume] arm. *)
Definition dispatch_passthrough_volume (p : SetPassthroughVolumePayload) : Act DispatchOutcome :=
  let! s := channel_session "set_passthrough_volume requires a channel voice session" in
  do! require_channel_host s.1 s.2 in
  let! r := on_rooms (set_passthrough_volume (ss_room_id s.1) (SetPassthroughVolume_volume p) (dr_clks rd)) in
  do! dispatch (sar_signals r) (ss_room_id s.1) in mret Continue.

(** The [SetPassthroughFilter] arm. *)
Definition dispatch_passthrough_filter (p : SetPassthroughFilterPayload) : Act DispatchOutcome :=
  let! s := channel_session "set_passthrough_filter requires a channel voice session" in
  match ss_user_id s.1 with
  | None => stop
  | Some user_id =>
      let! user := unwrap (uuid_parse_str user_id) in
      do! require_host_role rd (peer_id me) s.2 user in
      let! r := on_rooms (set_passthrough_filter (ss_room_id s.1) (SetPassthroughFilter_enabled p)
                  (SetPassthroughFilter_strength p) (dr_clks rd)) in
      match r with
      | Ok result => do! dispatch (sar_signals result) (ss_room_id s.1) in mret Continue
      | Err _ => stop
      end
  end.

(** ** Chat *)

(** The display name of a participant, or its id. *)
Definition resolve_display_name (room_id : RoomId) (pid : string) (s : InMemoryRoomState) : string :=
  name_or pid
    (i ← get_room_info room_id s;
     display_name <$> List.find (λ p, bool_decide (participant_id p = pid)) (participants i)).

(** The [ChatSend] arm. *)
Definition dispatch_chat_send (p : ChatSendPayload) : Act DispatchOutcome :=
  let! allowed := state (λ c, let '(ok, l) := chat_allow (dr_limiter_now rd) (chat_rate_limiter (cx_conn c)) in
                              (ok, on_conn (set_chat_limiter l) c)) in
  if negb allowed then
    do! modify (on_conn (λ c, set_limiter (refund (rate_limiter c)) c)) in
    do! send_error (peer_id me) "chat rate limit exceeded" in mret Continue
  else
    let! ses := get_session in
    let! ses := unwrap ses in
    let! s := rooms_now in
    let name := resolve_display_name (ss_room_id ses) (ss_participant_id ses) s in
    do! dispatch (handle_chat_send (ChatSend_text p) (ss_participant_id ses) (ss_user_id ses) name (dr_timestamp rd)
                    (uuid_to_string (dr_message_id rd))) (ss_room_id ses) in
    do! spawn (PersistChat (mkInsertChatMessageParams (dr_message_id rd) (ss_channel_id ses ≫= uuid_parse_str)
                 (ss_room_id ses) (ss_participant_id ses) (ss_user_id ses) name (ChatSend_text p))) in
    mret Continue.

(** The [ChatHistoryRequest] arm. *)
Definition dispatch_chat_history (p : ChatHistoryRequestPayload) : Act DispatchOutcome :=
  let! ses := get_session in
  let! ses := unwrap ses in
  do! spawn (LoadHistory (ss_channel_id ses ≫= uuid_parse_str) (ss_room_id ses)
               (ChatHistoryRequest_since p ≫= parse_rfc3339) (peer_id me)) in
  mret Continue.

(** The [ViewerSubscribed] arm. *)
Definition dispatch_viewer_subscribed (p : ViewerSubscribedPayload) : Act DispatchOutcome :=
  let! ses := get_session in
  let! ses := unwrap ses in
  let sender_id := ss_participant_id ses in
  let! allowed := action_allow_now (dr_limiter_now rd) in
  if negb allowed then mret Continue
  else
    let! s := rooms_now in
    if negb (contains (ViewerSubscribed_target_id p) (get_peers_in_room s (ss_room_id ses))) then mret Continue
    else
      do! send_msg (ViewerSubscribed_target_id p)
            (Msg.ViewerJoined (mkViewerJoinedPayload sender_id (resolve_display_name (ss_room_id ses) sender_id s))) in
      mret Continue.

(** ** The match *)

(** [dispatch_message]. *)
Definition dispatch_message (message : SignalingMessage) : Act DispatchOutcome :=
  match message with
  | Msg.Auth p => dispatch_auth p
  | Msg.Join p => dispatch_join p
  | Msg.CreateRoom p => dispatch_create_room p
  | Msg.Leave => dispatch_leave
  | Msg.Offer p => dispatch_offer p
  | Msg.IceCandidate p => dispatch_ice p
  | Msg.Answer p => dispatch_answer p
  | Msg.InviteCreate p => dispatch_invite_create p
  | Msg.InviteRevoke p => dispatch_invite_revoke p
  | Msg.RequestViewerToken p => dispatch_viewer_token p
  | Msg.KickParticipant p => dispatch_kick p
  | Msg.MuteParticipant p => dispatch_mute p
  | Msg.UnmuteParticipant p => dispatch_unmute p
  | Msg.SelfMute => handle_self_flag rd self_mute (λ id, Msg.ParticipantSelfMuted (mkParticipantSelfMutedPayload id))
  | Msg.SelfUnmute =>
      handle_self_flag rd self_unmute (λ id, Msg.ParticipantSelfUnmuted (mkParticipantSelfUnmutedPayload id))
  | Msg.SelfDeafen =>
      handle_self_flag rd (self_deafen true) (λ id, Msg.ParticipantDeafened (mkParticipantDeafenedPayload id))
  | Msg.SelfUndeafen =>
      handle_self_flag rd (self_deafen false) (λ id, Msg.ParticipantUndeafened (mkParticipantUndeafenedPayload id))
  | Msg.UpdateProfileColor p => dispatch_color p
  | Msg.UpdateUsername p => dispatch_username p
  | Msg.StartShare p => dispatch_start_share p
  | Msg.StopShare p => dispatch_stop_share p
  | Msg.StopAllShares => dispatch_stop_all_shares
  | Msg.SetSharePermission p => dispatch_share_permission p
  | Msg.JoinVoice p => dispatch_join_voice p
  | Msg.CreateSubRoom _ => dispatch_create_sub_room
  | Msg.JoinSubRoom p => dispatch_join_sub_room p
  | Msg.LeaveSubRoom _ => dispatch_leave_sub_room
  | Msg.SetPassthrough p => dispatch_set_passthrough p
  | Msg.ClearPassthrough _ => dispatch_clear_passthrough
  | Msg.SetPassthroughEnabled p => dispatch_passthrough_enabled p
  | Msg.SetPassthroughVolume p => dispatch_passthrough_volume p
  | Msg.SetPassthroughFilter p => dispatch_passthrough_filter p
  | Msg.SubRoomState _ | Msg.SubRoomCreated _ | Msg.SubRoomJoined _ | Msg.SubRoomLeft _ | Msg.SubRoomDeleted _ =>
      do! send_error (peer_id me) "unexpected server-generated room message" in mret Continue
  | Msg.ChatSend p => dispatch_chat_send p
  | Msg.ChatHistoryRequest p => dispatch_chat_history p
  | Msg.ViewerSubscribed p => dispatch_viewer_subscribed p
  | Msg.Ping => mret Continue
  | _ =>
      let! ses := get_session in
      do! handle_signaling_message (sender ses) in mret Continue
  end.

(** What the receive loop sees of a handler: its outcome, or a panic. *)
Definition run_dispatch (message : SignalingMessage) (c : Ctx B Uuid) : option DispatchOutcome * Ctx B Uuid :=
  match dispatch_message message c with
  | (Ok o, c') | (Err (Return o), c') => (Some o, c')
  | (Err Panic, c') => (None, c')
  end.
End dispatch.
