(* ===== verification/DispatchSafety.v ===== *)
(** * No message panics its handler

    [dispatch_message] unwraps the session, the user of a channel session and the
    authenticated user, and parses user ids with [expect].  [conn_wf] is what the
    connection maintains for these to succeed; together with the gate in front of
    the dispatch it rules out every panic. *)

From S2P Require Import Prelude Signaling Invite RoomState ScreenShare Relay SfuBridge Tokens SfuRelay SubRooms Voice WsSession SlidingWindow JoinLimiter AbuseGuards WsLimits Chat Config ClientIp AbuseMetrics AppState Dispatch.
Local Open Scope Z_scope.
Local Open Scope prog_scope.

Section safety.
Context {B : Type} `{SfuRoomManager B, SfuSignalingProxy B}.
Context `{JwtCodec MediaTokenClaims, JwtCodec AuthTokenClaims, LiveKitTokens, Externals}.
Context {Uuid : Type} `{EqDecision Uuid} `{!Countable Uuid} `{UuidText Uuid} `{!UuidTextLaws Uuid}.
Context (cfg : ServerConfig) (me : ConnInfo) (rd : DispatchReads Uuid).

Abbreviation Act A := (M (Ctx B Uuid) Exit A) (only parsing).

(** The text of a user id. *)
Definition uuid_text (u : string) : Prop := is_Some (uuid_parse_str (Uuid:=Uuid) u).

(** A channel session has a user, whose id is a UUID. *)
Definition session_wf (ses : SignalingSession) : Prop :=
  is_Some (ss_channel_id ses) → ∃ u, ss_user_id ses = Some u ∧ uuid_text u.

(** What a connection maintains. *)
Record conn_wf (c : Conn Uuid) : Prop := mk_conn_wf {
  conn_user u : authenticated_user_id c = Some u → uuid_text u;
  conn_session ses : session c = Some ses → session_wf ses
}.

(** [conn_wf], and that the connection has joined when [joined]. *)
Definition conn_ok (joined : bool) (c : Ctx B Uuid) : Prop :=
  conn_wf (cx_conn c) ∧ (joined = true → is_Some (session (cx_conn c))).

Section triples.
Context (joined : bool).

(** [m] does not panic and maintains [conn_ok]. *)
Definition safe {A} (m : Act A) : Prop :=
  ∀ c, conn_ok joined c → (m c).1 ≠ Err Panic ∧ conn_ok joined (m c).2.

Lemma safe_mret {A} (a : A) : safe (mret a).
Proof. by intros c Hc. Qed.
Lemma safe_stop {A} : safe (stop (A:=A)).
Proof. by intros c Hc. Qed.
Lemma safe_gets {A} (f : Ctx B Uuid → A) : safe (gets f).
Proof. by intros c Hc. Qed.
Lemma safe_bind {A C} (m : Act A) (k : A → Act C) : safe m → (∀ a, safe (k a)) → safe (mbind_ m k).
Proof.
  intros Hm Hk c Hc. unfold mbind_. specialize (Hm c Hc). destruct (m c) as [[a|e] c']; simpl in *.
  - apply Hk, Hm.
  - destruct Hm as [He Hc']. split; [|done]. congruence.
Qed.
Lemma safe_when b (m : Act unit) : safe m → safe (when b m).
Proof. destruct b; [done|intros _; apply safe_mret]. Qed.
Lemma safe_unwrap {A C} (o : option A) (k : A → Act C) :
  is_Some o → (∀ a, o = Some a → safe (k a)) → safe (mbind_ (unwrap o) k).
Proof. intros [a ->] Hk. exact (Hk a eq_refl). Qed.
(** The two unwrappings of the arms. *)
Lemma safe_session {A} (k : SignalingSession → Act A) :
  joined = true → (∀ ses, session_wf ses → safe (k ses)) →
  safe (mbind_ get_session (λ ses, mbind_ (unwrap ses) k)).
Proof.
  intros Hj Hk c [[Hu Hs] Hjoin]. destruct (Hjoin Hj) as [ses Hses].
  assert (mbind_ get_session (λ ses, mbind_ (unwrap ses) k) c = k ses c) as ->.
  { unfold mbind_, get_session, gets. by rewrite Hses. }
  apply Hk; [by apply Hs|by split; [split|]].
Qed.

(** Updates that leave the session and the user alone. *)
Lemma safe_state {A} (f : Ctx B Uuid → A * Ctx B Uuid) :
  (∀ c, session (cx_conn (f c).2) = session (cx_conn c) ∧
        authenticated_user_id (cx_conn (f c).2) = authenticated_user_id (cx_conn c)) →
  safe (state f).
Proof.
  intros Hf c [[H1' H2'] H3']. destruct (Hf c) as [Hs Hu]. unfold state.
  destruct (f c) as [a c']. simpl in *. split; [done|]. split; [split|]; rewrite ?Hs, ?Hu; done.
Qed.
Lemma safe_modify (f : Ctx B Uuid → Ctx B Uuid) :
  (∀ c, session (cx_conn (f c)) = session (cx_conn c) ∧
        authenticated_user_id (cx_conn (f c)) = authenticated_user_id (cx_conn c)) →
  safe (modify f).
Proof. intros Hf. exact (safe_state (λ c, (tt, f c)) Hf). Qed.

Lemma safe_set_session ses : session_wf ses → safe (set_session_now ses).
Proof. intros Hs c [[H1' H2'] H3']. split; [done|]. split; [split; [done|]|by eauto]. by intros ? [= <-]. Qed.

Lemma safe_on_rooms {A} (f : InMemoryRoomState → A * InMemoryRoomState) : safe (on_rooms f).
Proof. apply safe_state. intros c. cbv beta zeta. by repeat case_match. Qed.
Lemma safe_on_world {E A} (m : M (World B) E A) : safe (on_world_ m).
Proof. apply safe_state. intros c. cbv beta zeta. by repeat case_match. Qed.
Lemma safe_on_voice {E A} (m : M (VoiceWorld B Uuid) E A) : safe (on_voice m).
Proof. apply safe_state. intros c. cbv beta zeta. by repeat case_match. Qed.
Lemma safe_on_invites {A} (f : InviteStore → A * InviteStore) : safe (on_invites f).
Proof. apply safe_state. intros c. cbv beta zeta. by repeat case_match. Qed.
Lemma safe_on_proxy {A} (f : B → A * B) : safe (on_proxy f).
Proof. apply safe_state. intros c. cbv beta zeta. by repeat case_match. Qed.
Lemma safe_action_allow now : safe (action_allow_now now).
Proof. apply safe_state. intros c. by destruct (action_allow _ _). Qed.
Lemma safe_deafen_allow now : safe (deafen_allow_now now).
Proof. apply safe_state. intros c. by destruct (deafen_allow _ _). Qed.
Lemma safe_update_app f : safe (update_app f).
Proof. by apply safe_modify. Qed.
Lemma safe_bump k : safe (bump k).
Proof. by apply safe_modify. Qed.
Lemma safe_spawn t : safe (spawn t).
Proof. by apply safe_modify. Qed.
Lemma safe_record_join code r failed : safe (record_join me rd code r failed).
Proof. by apply safe_modify. Qed.
Lemma safe_record_failed : safe (record_failed_join me rd).
Proof. apply safe_state. intros c. by destruct (record_failure _ _ _). Qed.
End triples.

#[local] Hint Resolve safe_mret safe_stop safe_gets safe_on_rooms safe_on_world safe_on_voice safe_on_invites
  safe_on_proxy safe_action_allow safe_deafen_allow safe_update_app safe_bump safe_spawn safe_record_join
  safe_record_failed : safety.

(** Decompose a handler into its steps. *)
Ltac solve_safe :=
  repeat first
    [ progress intros
    | solve [auto with safety]
    | solve [by apply safe_modify]
    | apply safe_bind
    | apply safe_when
    | case_match
    | progress unfold rooms_now, get_session, send_msg, send_error, dispatch, schedule_sub_room_expiry,
        send_rejection, track_failed_join, check_action_rate_limit, require_room, require_sfu_room, require_host,
        require_target_in_room, current_role, require_host_role, too_large, report, report_sub, report_pass,
        global_join_ceiling, check_join_limits, check_invite, handle_signaling_message, handle_signaling_event,
        join_invite_code, spawn_ice_poll, cold_start_response, displace ].

Lemma safe_limits j : safe j (global_join_ceiling cfg me rd).
Proof.
  unfold global_join_ceiling. apply safe_bind; [|solve_safe]. apply safe_state. intros c.
  by destruct (GlobalLimiter.allow _ _ _).
Qed.
Lemma safe_check_limits j code r : safe j (check_join_limits me rd code r).
Proof.
  unfold check_join_limits. apply safe_bind; [|solve_safe]. apply safe_state. intros c.
  by destruct (check_join _ _ _ _ _ _).
Qed.
Lemma safe_resolve j caller ses :
  session_wf ses →
  safe j (resolve_effective_role rd caller (ss_channel_id ses) (ss_user_id ses) (ss_role ses)).
Proof.
  unfold session_wf, resolve_effective_role. intros Hs. destruct (ss_channel_id ses) as [ch|]; [|solve_safe].
  destruct Hs as (u & -> & Hu); [by eauto|].
  apply safe_unwrap; [by eauto|]. intros ? [= <-]. apply safe_unwrap; [done|]. solve_safe.
Qed.
Lemma safe_channel_host j ses ch :
  session_wf ses → ss_channel_id ses = Some ch → safe j (require_channel_host me rd ses ch).
Proof.
  intros Hs Hch. destruct Hs as (u & Hu & Hp); [by rewrite Hch|]. unfold require_channel_host. rewrite Hu.
  apply safe_unwrap; [by eauto|]. intros ? [= <-]. apply safe_unwrap; [done|]. solve_safe.
Qed.

(** The session of a sub-room arm, with its channel. *)
Lemma safe_channel_session {A} j refusal (k : SignalingSession * string → Act A) :
  (∀ ses ch, session_wf ses → ss_channel_id ses = Some ch → safe j (k (ses, ch))) →
  safe j (mbind_ (channel_session me rd refusal) k).
Proof.
  intros Hk c Hc. destruct (session (cx_conn c)) as [ses|] eqn:Es.
  2: { unfold channel_session, mbind_, get_session, gets. by rewrite Es. }
  assert (session_wf ses) as Hs by by eapply conn_session; [apply Hc|].
  assert (channel_session me rd refusal c =
    match ss_channel_id ses with
    | None => mbind_ (send_error (peer_id me) refusal) (λ _, stop) c
    | Some ch => mbind_ (action_allow_now (dr_limiter_now rd))
        (λ ok : bool, if ok then mret (ses, ch) else stop) c
    end) as Heq.
  { unfold channel_session, mbind_, get_session, gets. rewrite Es. by destruct (ss_channel_id ses). }
  unfold mbind_ at 1 2. rewrite Heq. destruct (ss_channel_id ses) as [ch|] eqn:Ech; [|done].
  pose proof (safe_action_allow j (dr_limiter_now rd) c Hc) as [Hp Hc'].
  unfold mbind_. destruct (action_allow_now (dr_limiter_now rd) c) as [[[]|e] c']; simpl in *; [|done|].
  - by apply Hk.
  - split; [congruence|done].
Qed.

Lemma safe_enter_session j r : safe j (enter_session me r).
Proof.
  unfold enter_session. solve_safe. apply safe_set_session. by intros [].
Qed.

#[local] Hint Resolve safe_limits safe_check_limits safe_resolve safe_channel_host safe_enter_session : safety.

Lemma safe_host_action j ses t : session_wf ses → safe j (host_action rd ses t).
Proof. intros Hs. unfold host_action. solve_safe. Qed.
#[local] Hint Resolve safe_host_action : safety.

Lemma safe_self_flag mutate message : safe true (handle_self_flag rd mutate message).
Proof. apply safe_session; [done|]. solve_safe. Qed.

Lemma safe_auth j p : safe j (dispatch_auth cfg me rd p).
Proof.
  unfold dispatch_auth. case_match; [|solve_safe]. destruct a as [user device]. apply safe_bind; [|solve_safe].
  intros c [[Hu Hs] Hj]. split; [done|]. split; [split|]; [|done|done].
  cbn. intros u [= <-]. unfold uuid_text. by rewrite uuid_parse_to_string.
Qed.

Lemma safe_join j p : safe j (dispatch_join cfg me rd p).
Proof. unfold dispatch_join, join_p2p, join_sfu. solve_safe. Qed.

Lemma safe_create j p : safe j (dispatch_create_room cfg me rd p).
Proof. unfold dispatch_create_room. solve_safe. apply safe_set_session. by intros []. Qed.

Lemma handle_leave_identity lr ses (a : App B Uuid) :
  ss_channel_id (handle_leave lr ses a).1 = ss_channel_id ses ∧
  ss_user_id (handle_leave lr ses a).1 = ss_user_id ses ∧
  ss_participant_id (handle_leave lr ses a).1 = ss_participant_id ses ∧
  ss_room_id (handle_leave lr ses a).1 = ss_room_id ses.
Proof. unfold handle_leave. by destruct (leave_handled ses). Qed.

Lemma safe_leave j : safe j (dispatch_leave rd).
Proof.
  intros c Hc. unfold dispatch_leave, mbind_, get_session, gets. destruct (session (cx_conn c)) as [ses|] eqn:Es; [|done].
  unfold modify. pose proof (handle_leave_identity (dr_leave rd) ses (as_app (cx_state c))) as (Hch & Hu & _).
  destruct (handle_leave _ _ _) as [ses' a]. simpl in *. split; [done|]. destruct Hc as [[Huser Hses] _].
  split; [split; [done|]|by eauto]. cbn. intros ? [= <-]. specialize (Hses ses Es). unfold session_wf in *.
  by rewrite Hch, Hu.
Qed.

(** The limits before a voice join do not touch the rooms. *)
Definition keeps_voice {A} (m : Act A) : Prop :=
  ∀ c, app_voice (as_app (cx_state (m c).2)) = app_voice (as_app (cx_state c)).

(** How a handler ends: not in a panic, and with its connection well-formed. *)
Definition ends_well {A} (j : bool) (r : Result A Exit * Ctx B Uuid) : Prop := r.1 ≠ Err Panic ∧ conn_ok j r.2.

Lemma voice_kept_bind {A C} j (m : Act A) (k : A → Act C) c :
  safe j m → keeps_voice m → conn_ok j c →
  (∀ a c', conn_ok j c' → app_voice (as_app (cx_state c')) = app_voice (as_app (cx_state c)) →
    ends_well j (k a c')) →
  ends_well j (mbind_ m k c).
Proof.
  unfold ends_well. intros Hm Hs Hc Hk. specialize (Hm c Hc). specialize (Hs c). unfold mbind_.
  destruct (m c) as [[a|e] c']; simpl in *; [apply Hk; [apply Hm|done]|].
  destruct Hm as [He Hc']. split; [congruence|done].
Qed.

Lemma keeps_voice_cold_start : keeps_voice (cold_start_response cfg me rd).
Proof.
  intros c. unfold cold_start_response, mbind_ at 1, gets. destruct (sfu_health_status (cx_state c)); [done| |done].
  by destruct (has_ec2_controller cfg).
Qed.
Lemma keeps_voice_ceiling : keeps_voice (global_join_ceiling cfg me rd).
Proof.
  intros c. unfold global_join_ceiling, mbind_, state. by destruct (GlobalLimiter.allow _ _ _) as [[] cell].
Qed.
Lemma keeps_voice_seq {A C} (m : Act A) (k : A → Act C) :
  keeps_voice m → (∀ a, keeps_voice (k a)) → keeps_voice (mbind_ m k).
Proof.
  intros Hm Hk c. specialize (Hm c). unfold mbind_. destruct (m c) as [[a|e] c']; [|done]. by rewrite Hk.
Qed.
Lemma keeps_voice_limits code r : keeps_voice (check_join_limits me rd code r).
Proof.
  apply keeps_voice_seq; [intros c; unfold state; by destruct (check_join _ _ _ _ _ _)|].
  intros [[]|e]; [done|]. unfold track_failed_join.
  repeat first [done|by intros c|case_match
               |intros c; unfold record_failed_join, state; by destruct (record_failure _ _ _)
               |apply keeps_voice_seq; [|intros ?]].
Qed.

Lemma safe_join_voice j p P c :
  (∀ m q, P m → P (delete q m)) → voice_wf P (app_voice (as_app (cx_state c))) →
  conn_ok j c → is_Some (authenticated_user_id (cx_conn c)) →
  ends_well j (dispatch_join_voice cfg me rd p c).
Proof.
  intros HP Hv Hc Hu. pose proof (conn_user _ (proj1 Hc)) as Hut. destruct Hu as [u Hu]. specialize (Hut u Hu).
  unfold dispatch_join_voice, mbind_ at 1, gets. rewrite Hu. unfold mbind_ at 1, unwrap at 1, mret at 1.
  destruct Hut as [uid Huid]. rewrite Huid. unfold mbind_ at 1, unwrap at 1, mret at 1.
  apply voice_kept_bind; [solve_safe|apply keeps_voice_cold_start|done|]. intros wait c1 Hc1 E1.
  destruct wait as [w|].
  { match goal with |- ends_well j (?m c1) => cut (safe j m); [intros Hsafe; exact (Hsafe c1 Hc1)|solve_safe] end. }
  apply voice_kept_bind; [solve_safe|apply keeps_voice_ceiling|done|]. intros [] c2 Hc2 E2.
  apply voice_kept_bind; [solve_safe|apply keeps_voice_limits|done|]. intros [] c3 Hc3 E3.
  unfold mbind_ at 1, on_voice, state.
  rewrite <-E1, <-E2, <-E3 in Hv.
  match goal with |- context [join_voice ?d ?a ?b ?e ?f ?g ?h ?i ?jj ?k ?l (app_voice ?v)] =>
    pose proof (join_voice_never_panics P d a b e f g h i jj k l (app_voice v) HP Hv) as Hnp;
    destruct (join_voice d a b e f g h i jj k l (app_voice v)) as [[res|err] v'] end;
    match goal with |- ends_well j (?m ?c4) => assert (conn_ok j c4) as Hc4 by exact Hc3;
    cut (safe j m); [intros Hsafe; exact (Hsafe c4 Hc4)|] end.
  - solve_safe. apply safe_set_session. intros _. exists u. split; [done|by exists uid].
  - assert (err ≠ VoicePanicked) as Hne by (intros ->; by apply Hnp). destruct err; try done; solve_safe.
Qed.

Lemma safe_joined_arms m :
  match m with
  | Msg.Auth _ | Msg.Join _ | Msg.CreateRoom _ | Msg.JoinVoice _ | Msg.Ping => False
  | _ => True
  end → safe true (dispatch_message cfg me rd m).
Proof.
  destruct m; try done; intros _; cbn [dispatch_message];
    try (apply safe_self_flag); try (apply safe_leave);
    try (apply safe_session; [done|]); try (apply safe_channel_session; intros ???? ; cbn [fst snd]);
    try solve [unfold dispatch_offer, dispatch_ice, dispatch_answer, dispatch_invite_create; solve_safe].
  - rename H6 into Hs, H7 into Hch. destruct Hs as (u & -> & Hu); [by rewrite Hch|].
    apply safe_unwrap; [done|]. solve_safe.
  - unfold dispatch_chat_send. apply safe_bind; [apply safe_state; intros c; by destruct (chat_allow _ _)|].
    intros allowed. destruct allowed; cbn [negb]; [|solve_safe]. apply safe_session; [done|]. solve_safe.
Qed.

Lemma gate_passes m c :
  validate_state_transition m (bool_decide (is_Some (session (cx_conn c))))
    (bool_decide (is_Some (authenticated_user_id (cx_conn c)))) = Ok tt →
  match m with
  | Msg.Auth _ | Msg.Join _ | Msg.CreateRoom _ | Msg.Ping => True
  | Msg.JoinVoice _ => is_Some (authenticated_user_id (cx_conn c))
  | _ => is_Some (session (cx_conn (c : Ctx B Uuid)))
  end.
Proof.
  intros Hg. apply gate_exact in Hg. destruct m; try done;
    repeat match goal with
           | H : _ ∧ _ |- _ => destruct H as [? ?]
           | H : bool_decide _ = true |- _ => apply bool_decide_eq_true in H
           end; done.
Qed.

Lemma dispatch_safe m P c :
  (∀ i q, P i → P (delete q i)) → voice_wf P (app_voice (as_app (cx_state c))) →
  conn_wf (cx_conn c) →
  validate_state_transition m (bool_decide (is_Some (session (cx_conn c))))
    (bool_decide (is_Some (authenticated_user_id (cx_conn c)))) = Ok tt →
  (dispatch_message cfg me rd m c).1 ≠ Err Panic ∧ conn_wf (cx_conn (dispatch_message cfg me rd m c).2).
Proof.
  intros HP Hv Hc Hg. apply gate_passes in Hg.
  assert (conn_ok false c) as Hf by done.
  assert (∀ r : Result DispatchOutcome Exit * Ctx B Uuid, r.1 ≠ Err Panic ∧ conn_ok false r.2 →
    r.1 ≠ Err Panic ∧ conn_wf (cx_conn r.2)) as Hlift by (intros r [? [? _]]; done).
  destruct m eqn:Hm;
    try (apply Hlift; first [by apply safe_auth|by apply safe_join|by apply safe_create|by apply (safe_join_voice _ _ P)|by apply safe_mret]).
  all: rewrite <-Hm in *; destruct (safe_joined_arms m) with (c := c) as [? [? _]]; subst; done.
Qed.

(** A frame that passes the gate never panics its handler, whatever the
    clocks, the media server and the database answer: every [unwrap] and [expect]
    of [dispatch_message] finds a value.  What makes it so is that the
    connection's user and the user of a channel session are UUIDs, and that the
    sub-rooms of every room contain ROOM 1. *)
Theorem no_message_panics m P c :
  (∀ i q, P i → P (delete q i)) → voice_wf P (app_voice (as_app (cx_state c))) →
  conn_wf (cx_conn c) →
  validate_state_transition m (bool_decide (is_Some (session (cx_conn c))))
    (bool_decide (is_Some (authenticated_user_id (cx_conn c)))) = Ok tt →
  is_Some (run_dispatch cfg me rd m c).1 ∧ conn_wf (cx_conn (run_dispatch cfg me rd m c).2).
Proof.
  intros HP Hv Hc Hg. destruct (dispatch_safe m P c HP Hv Hc Hg) as [Hp Hw]. unfold run_dispatch.
  destruct (dispatch_message cfg me rd m c) as [[o|[o|]] c']; naive_solver.
Qed.
End safety.
