(* ===== verification/DispatchInvariant.v ===== *)
(** * What every message keeps

    The rooms, the invites and the map of active channels stay consistent, and
    the peer index names the connection handling the message only in the room of
    its session, whatever the message and wherever the handler stops. *)

From S2P Require Import Prelude Signaling Invite RoomState ScreenShare Relay SfuBridge Tokens SfuRelay SubRooms Voice RoomInvariant WsSession SlidingWindow JoinLimiter AbuseGuards WsLimits Chat Config ClientIp AbuseMetrics AppState Dispatch.
Local Open Scope Z_scope.
Local Open Scope prog_scope.

Section invariant.
Context {B : Type} `{SfuRoomManager B, SfuSignalingProxy B}.
Context `{JwtCodec MediaTokenClaims, JwtCodec AuthTokenClaims, LiveKitTokens, Externals}.
Context {Uuid : Type} `{EqDecision Uuid} `{!Countable Uuid} `{UuidText Uuid} `{!UuidTextLaws Uuid}.
Context (cfg : ServerConfig) (me : ConnInfo) (rd : DispatchReads Uuid).
(** Where the other connections are. *)
Context (who : PeerId → RoomId → Prop) (Hwho : ∀ r, ¬ who (peer_id me) r).

Abbreviation Act A := (M (Ctx B Uuid) Exit A) (only parsing).
Abbreviation voice_of c := (app_voice (as_app (cx_state c))) (only parsing).

(** The places of the index: the others', and this connection's in its session's room. *)
Definition seat (ses : option SignalingSession) (q : PeerId) (r : RoomId) : Prop :=
  who q r ∨ ∃ s, ses = Some s ∧ q = peer_id me ∧ r = ss_room_id s.

Record ctx_wf (c : Ctx B Uuid) : Prop := mk_ctx_wf {
  ctx_voice : voice_wf (within (seat (session (cx_conn c)))) (voice_of c);
  ctx_sender ses : session (cx_conn c) = Some ses → ss_participant_id ses = peer_id me ∧ cleanup_complete ses = false
}.

Definition still {A} (f : Ctx B Uuid → A * Ctx B Uuid) : Prop :=
  ∀ c, voice_of (f c).2 = voice_of c ∧ session (cx_conn (f c).2) = session (cx_conn c).

Lemma ctx_wf_still {A} (f : Ctx B Uuid → A * Ctx B Uuid) : still f → preserves ctx_wf (state f : Act A).
Proof.
  intros Hf. apply preserves_state. intros c [H1' H2']. destruct (Hf c) as [Hv Hs]. split; rewrite ?Hv, Hs; done.
Qed.
Lemma ctx_wf_still_modify f : still (λ c, (tt, f c)) → preserves ctx_wf (modify f : Act unit).
Proof. intros Hf. apply preserves_modify. intros c Hc. exact (ctx_wf_still _ Hf c Hc). Qed.
Lemma ctx_wf_unwrap {A} (o : option A) : preserves ctx_wf (unwrap o : Act A).
Proof. destruct o; [apply preserves_mret|apply preserves_throw]. Qed.
Lemma ctx_wf_stop {A} : preserves ctx_wf (stop : Act A).
Proof. apply preserves_throw. Qed.

Lemma ctx_wf_on_world {E A} (m : M (World B) E A) :
  (∀ P, (∀ i q, P i → P (delete q i)) → preserves (sess_wf P) m) → preserves ctx_wf (on_world_ m : Act _).
Proof.
  intros Hm. apply preserves_state. intros c [[H1' Hmap] H2'].
  specialize (Hm _ (within_delete _) _ H1'). destruct (m (v_world (voice_of c))) as [r w]. by split; [split|].
Qed.
Lemma ctx_wf_on_rooms {A} (f : InMemoryRoomState → A * InMemoryRoomState) :
  calm (λ s, (f s).2) → preserves ctx_wf (on_rooms f : Act A).
Proof.
  intros Hf. apply preserves_state. intros c [[H1' Hmap] H2'].
  pose proof (sess_wf_calm _ (within_delete _) _ _ Hf H1') as Hw. cbn beta in Hw.
  destruct (f (w_rooms (v_world (voice_of c)))) as [r s]. split; [split; [exact Hw|done]|done].
Qed.
Lemma ctx_wf_on_invites {A} (f : InviteStore → A * InviteStore) c :
  (store_wf (w_invites (v_world (voice_of c))) → store_wf (f (w_invites (v_world (voice_of c)))).2) →
  ctx_wf c → ctx_wf (on_invites f c : Result A Exit * _).2.
Proof.
  intros Hf [[[[W1 W2] W3 W4] Hmap] H2']. specialize (Hf W2). unfold on_invites, state.
  destruct (f (w_invites _)) as [r inv]. by split; [split; [split; [split|..]|]|].
Qed.
Lemma ctx_wf_on_proxy {A} (f : B → A * B) : preserves ctx_wf (on_proxy f : Act A).
Proof.
  apply preserves_state. intros c [[[[W1 W2] W3 W4] Hmap] H2']. cbv zeta. destruct (f (w_bridge _)) as [r b].
  by split; [split; [split; [split|..]|]|].
Qed.

Lemma ctx_wf_action now : preserves ctx_wf (action_allow_now now : Act _).
Proof. apply ctx_wf_still. intros c. by destruct (action_allow _ _). Qed.
Lemma ctx_wf_deafen now : preserves ctx_wf (deafen_allow_now now : Act _).
Proof. apply ctx_wf_still. intros c. by destruct (deafen_allow _ _). Qed.
Lemma ctx_wf_send p m : preserves ctx_wf (send_msg p m : Act _).
Proof. by apply ctx_wf_still_modify. Qed.
Lemma ctx_wf_dispatch s r : preserves ctx_wf (dispatch s r : Act _).
Proof. by apply ctx_wf_still_modify. Qed.
Lemma ctx_wf_schedule r e : preserves ctx_wf (schedule_sub_room_expiry r e : Act _).
Proof. by apply ctx_wf_still_modify. Qed.
Lemma ctx_wf_bump k : preserves ctx_wf (bump k : Act _).
Proof. by apply ctx_wf_still_modify. Qed.
Lemma ctx_wf_spawn t : preserves ctx_wf (spawn t : Act _).
Proof. by apply ctx_wf_still_modify. Qed.
Lemma ctx_wf_record_join code r failed : preserves ctx_wf (record_join me rd code r failed).
Proof. by apply ctx_wf_still_modify. Qed.
Lemma ctx_wf_record_failed : preserves ctx_wf (record_failed_join me rd).
Proof. apply ctx_wf_still. intros c. by destruct (record_failure _ _ _). Qed.
Lemma ctx_wf_set_auth u d :
  preserves ctx_wf (modify (on_conn (λ c, mkConn (session c) u d (rate_limiter c) (chat_rate_limiter c))) : Act _).
Proof. by apply ctx_wf_still_modify. Qed.

#[local] Hint Resolve ctx_wf_unwrap ctx_wf_stop ctx_wf_on_world ctx_wf_on_rooms ctx_wf_on_proxy ctx_wf_action
  ctx_wf_deafen ctx_wf_send ctx_wf_dispatch ctx_wf_schedule ctx_wf_bump ctx_wf_spawn ctx_wf_record_join
  ctx_wf_record_failed ctx_wf_set_auth handle_kick_sess handle_mute_sess handle_unmute_sess handle_viewer_sess : wavis.

(** The steps of a handler, unfolding the ones no lemma covers. *)
Ltac solve_ctx :=
  repeat lazymatch goal with
    | |- preserves _ (mbind_ _ _) => apply preserves_bind
    | |- preserves _ (when _ _) => apply preserves_when
    | |- preserves _ (mret _) => apply preserves_mret
    | |- preserves _ (gets _) => apply preserves_gets
    | |- preserves _ (if _ then _ else _) => case_match
    | |- preserves _ (match _ with _ => _ end) => case_match
    | |- preserves _ (on_rooms _) => apply ctx_wf_on_rooms
    | |- calm _ => solve [auto 6 with wavis | by apply calm_participants, keeps_users_first]
    | |- preserves _ ?m => first [ solve [auto 4 with wavis] | unfold_head m ]
    | |- ∀ _, _ => intro
    end.

Lemma auth_arm p : preserves ctx_wf (dispatch_auth cfg me rd p).
Proof. unfold dispatch_auth. solve_ctx. Qed.
Lemma chat_arm p : preserves ctx_wf (dispatch_chat_send me rd p).
Proof.
  unfold dispatch_chat_send. apply preserves_bind.
  - apply ctx_wf_still. intros c. by destruct (chat_allow _ _).
  - intros allowed. case_match; [|solve_ctx]. apply preserves_bind; [by apply ctx_wf_still_modify|solve_ctx].
Qed.
#[local] Hint Resolve auth_arm chat_arm : wavis.

Lemma inner_arms m :
  match m with
  | Msg.Join _ | Msg.CreateRoom _ | Msg.JoinVoice _ | Msg.Leave | Msg.InviteCreate _ | Msg.InviteRevoke _ => False
  | _ => True
  end → preserves ctx_wf (dispatch_message cfg me rd m).
Proof. destruct m; try done; intros _; cbn [dispatch_message]; solve_ctx. Qed.

(** ** Leaving *)

Lemma voice_wf_set_world P (w : World B) (a : App B Uuid) :
  voice_wf P (app_voice a) → sess_wf P w → voice_wf P (app_voice (set_world w a)).
Proof. intros [_ Hm] Hw. by split. Qed.
Lemma voice_wf_rooms P f (a : App B Uuid) :
  (∀ i q, P i → P (delete q i)) → calm f → voice_wf P (app_voice a) →
  voice_wf P (app_voice (set_app_rooms (f (w_rooms (v_world (app_voice a)))) a)).
Proof. intros HP Hf [Hs Hm]. by split; [apply (sess_wf_calm P HP f)|]. Qed.

Lemma leave_sfu_wf P r p lr (a : App B Uuid) :
  (∀ i q, P i → P (delete q i)) → voice_wf P (app_voice a) → voice_wf P (app_voice (leave_sfu r p lr a)).
Proof.
  intros HP [Hs Hm]. unfold leave_sfu. pose proof (handle_sfu_leave_sess P r p (lr_leave lr) HP _ Hs) as Hl.
  destruct (handle_sfu_leave _ _ _ _) as [[signals|e] w]; cbn [snd] in Hl; [|by split].
  assert (voice_wf P (app_voice (set_world w a))) as Hw by by split.
  pose proof (voice_wf_rooms P _ (set_world w a) HP
    (quiet_calm _ (quiet_leave_sub r p (lr_sub_now lr) (lr_clks lr))) Hw) as Hsub.
  cbn [app_voice set_world v_world] in Hsub |- *.
  destruct (remove_participant_from_sub_room _ _ _ _ _) as [sub s]. exact Hsub.
Qed.

Lemma disconnect_sfu_wf P r p lr (a : App B Uuid) :
  (∀ i q, P i → P (delete q i)) → voice_wf P (app_voice a) → voice_wf P (app_voice (disconnect_sfu r p lr a)).
Proof.
  intros HP Ha. unfold disconnect_sfu. set (a1 := set_app_rooms _ a).
  assert (voice_wf P (app_voice a1)) as Ha1.
  { refine (voice_wf_rooms P (add_revoked_participant r p (lr_revoked_at lr)) a HP _ Ha).
    apply quiet_calm, quiet_update; [apply info_safe_revoke|done]. }
  pose proof (voice_wf_rooms P _ a1 HP (quiet_calm _ (quiet_cleanup r p)) Ha1) as H2'. cbv beta in H2'.
  destruct (cleanup_share_on_disconnect r p (w_rooms (v_world (app_voice a1)))) as [[sigs|] s]; exact H2'.
Qed.

Lemma leave_room_wf P disc lr ses (a : App B Uuid) :
  (∀ i q, P i → P (delete q i)) → voice_wf P (app_voice a) → voice_wf P (app_voice (leave_room disc lr ses a).2).
Proof.
  intros HP Ha. unfold leave_room. cbn [snd]. destruct (room_type <$> get_room_info (ss_room_id ses) _) as [[]|].
  2: { apply leave_sfu_wf; [done|]. destruct disc; [by apply disconnect_sfu_wf|done]. }
  all: assert (∀ o : option (PeerId * SignalingMessage),
         app_voice (match o with Some (t, m) => send t m a | None => a end) = app_voice a) as Ho
         by (intros [[]|]; done);
       match goal with |- context [set_app_rooms _ ?x] => set (a1 := x) end;
       assert (app_voice a1 = app_voice a) as Ha1 by apply Ho;
       destruct disc; [by rewrite Ha1|];
       refine (voice_wf_rooms P (remove_peer (ss_participant_id ses)) a1 HP _ _);
         [apply quiet_calm, quiet_remove_peer_internal|by rewrite Ha1].
Qed.

Lemma handle_leave_wf P lr ses (a : App B Uuid) :
  (∀ i q, P i → P (delete q i)) → voice_wf P (app_voice a) → voice_wf P (app_voice (handle_leave lr ses a).2).
Proof. intros HP Ha. unfold handle_leave. destruct (leave_handled ses); [done|]. by apply leave_room_wf. Qed.

Lemma voice_wf_mono (P Q : gmap PeerId RoomId → Prop) (v : VoiceWorld B Uuid) :
  (∀ i, P i → Q i) → voice_wf P v → voice_wf Q v.
Proof. intros HPQ [Hs Hm]. split; [|done]. by eapply sess_wf_mono. Qed.
Lemma within_seat_room s s' i : ss_room_id s' = ss_room_id s → within (seat (Some s)) i → within (seat (Some s')) i.
Proof.
  intros Hr Hi q r Hq. destruct (Hi q r Hq) as [?|(s0 & [= <-] & -> & ->)]; [by left|].
  right. exists s'. by rewrite Hr.
Qed.

Lemma handle_leave_session lr ses (a : App B Uuid) :
  ss_participant_id (handle_leave lr ses a).1 = ss_participant_id ses ∧
  ss_room_id (handle_leave lr ses a).1 = ss_room_id ses ∧
  cleanup_complete (handle_leave lr ses a).1 = cleanup_complete ses.
Proof. unfold handle_leave. by destruct (leave_handled ses). Qed.

Lemma leave_arm : preserves ctx_wf (dispatch_leave rd).
Proof.
  intros c [Hv Hs]. unfold dispatch_leave, mbind_, get_session, gets, modify, mret.
  destruct (session (cx_conn c)) as [ses|] eqn:Es; [|change (ctx_wf c); split; [by rewrite Es|intros ses; by rewrite Es]].
  pose proof (handle_leave_wf _ (dr_leave rd) ses _ (within_delete _) Hv) as Hl.
  pose proof (handle_leave_session (dr_leave rd) ses (as_app (cx_state c))) as (Hp & Hr & Hcl).
  destruct (handle_leave _ _ _) as [ses' a]. cbn [fst snd] in *. split; cbn [cx_conn cx_state session set_session].
  - eapply voice_wf_mono; [|exact Hl]. intros i. apply within_seat_room. done.
  - intros ? [= <-]. rewrite Hp, Hcl. by apply Hs.
Qed.

(** ** Invites *)

(** The invite code drawn is new, and the budget of uses is an unsigned number. *)
Definition draws_new (m : SignalingMessage) (c : Ctx B Uuid) : Prop :=
  match m with
  | Msg.InviteCreate p =>
      let s := w_invites (v_world (voice_of c)) in
      invites s !! dr_invite_code rd = None ∧
      0 ≤ default (default_max_uses (invite_config s)) (InviteCreate_max_uses p)
  | Msg.CreateRoom _ => draw_ok (dr_reads rd) (v_world (voice_of c))
  | _ => True
  end.

(** One step of a handler from a known state. *)
Lemma step_bind {A C} (I : Ctx B Uuid → Prop) (m : Act A) (k : A → Act C) c :
  I (m c).2 → (∀ a c', m c = (Ok a, c') → I c' → I (k a c').2) → I (mbind_ m k c).2.
Proof. intros Hm Hk. unfold mbind_. destruct (m c) as [[a|e] c'] eqn:Em; [by apply Hk|done]. Qed.

Lemma require_room_Ok p c r c' : require_room p c = (Ok r, c') → c' = (c : Ctx B Uuid).
Proof.
  unfold require_room, mbind_, rooms_now, gets. intros Hr.
  unfold mret in Hr.
  destruct (get_room_for_peer _ p); [by simplify_eq|done].
Qed.
Lemma ctx_wf_require_room p : preserves ctx_wf (require_room p : Act _).
Proof. solve_ctx. Qed.

Lemma invite_create_arm p c :
  draws_new (Msg.InviteCreate p) c → ctx_wf c → ctx_wf (dispatch_invite_create me rd p c).2.
Proof.
  intros Hd Hc. unfold dispatch_invite_create. apply step_bind; [done|]. intros ses ? [= <- <-] _.
  apply step_bind; [by apply ctx_wf_require_room|]. intros room_id ? ->%require_room_Ok _.
  apply step_bind; [apply ctx_wf_on_invites; [|done]; intros Hs; by apply generate_wf|].
  intros r c' _. revert c'.
  match goal with |- ∀ c', _ → ctx_wf (?m c').2 => change (preserves ctx_wf m) end. solve_ctx.
Qed.

Lemma invite_revoke_arm p : preserves ctx_wf (dispatch_invite_revoke p).
Proof.
  unfold dispatch_invite_revoke. apply preserves_bind; [apply preserves_gets|intros ses].
  apply preserves_bind; [apply ctx_wf_unwrap|intros s]. apply preserves_bind; [|solve_ctx].
  intros c Hc. apply ctx_wf_on_invites; [|done]. intros Hs.
  exact (run_op_wf (OpRevokeAuthorized _ _ _ _) _ Hs I).
Qed.

(** ** Letting the connection in *)

(** What the invariant looks at, and the steps that leave it alone. *)
Definition view (c : Ctx B Uuid) : VoiceWorld B Uuid * option SignalingSession := (voice_of c, session (cx_conn c)).
Definition leaves {A} (m : Act A) : Prop := ∀ c, view (m c).2 = view c.

Lemma leaves_state {A} (f : Ctx B Uuid → A * Ctx B Uuid) : (∀ c, view (f c).2 = view c) → leaves (state f).
Proof. intros Hf c. unfold state. specialize (Hf c). by destruct (f c). Qed.
Lemma leaves_modify f : (∀ c, view (f c) = view c) → leaves (modify f).
Proof. intros Hf. exact Hf. Qed.
Lemma leaves_mret {A} (a : A) : leaves (mret a).
Proof. done. Qed.
Lemma leaves_gets {A} (f : Ctx B Uuid → A) : leaves (gets f).
Proof. done. Qed.
Lemma leaves_stop {A} : leaves (stop (A:=A)).
Proof. done. Qed.
Lemma leaves_bind {A C} (m : Act A) (k : A → Act C) : leaves m → (∀ a, leaves (k a)) → leaves (mbind_ m k).
Proof.
  intros Hm Hk c. unfold mbind_. specialize (Hm c). destruct (m c) as [[a|e] c']; simpl in *; [|done].
  by rewrite Hk.
Qed.
Lemma leaves_when b (m : Act unit) : leaves m → leaves (when b m).
Proof. by destruct b. Qed.
Lemma leaves_send p m : leaves (send_msg p m).
Proof. done. Qed.
Lemma leaves_dispatch s r : leaves (dispatch s r).
Proof. done. Qed.
Lemma leaves_schedule r e : leaves (schedule_sub_room_expiry r e).
Proof. done. Qed.
Lemma leaves_bump k : leaves (bump k).
Proof. done. Qed.
Lemma leaves_spawn t : leaves (spawn t).
Proof. done. Qed.
Lemma leaves_record code r failed : leaves (record_join me rd code r failed).
Proof. done. Qed.
Lemma leaves_failed : leaves (record_failed_join me rd).
Proof. apply leaves_state. intros c. by destruct (record_failure _ _ _). Qed.
Lemma leaves_ceiling : leaves (global_join_ceiling cfg me rd).
Proof.
  apply leaves_bind; [apply leaves_state; intros c; by destruct (GlobalLimiter.allow _ _ _)|]. by intros [].
Qed.
Lemma leaves_health h : leaves (modify (on_state (set_health h))).
Proof. done. Qed.
#[local] Hint Resolve leaves_mret leaves_gets leaves_stop leaves_send leaves_dispatch leaves_schedule leaves_bump
  leaves_spawn leaves_record leaves_failed leaves_ceiling leaves_health : leaves.

Ltac solve_leaves :=
  repeat lazymatch goal with
    | |- leaves (mbind_ _ _) => apply leaves_bind
    | |- leaves (when _ _) => apply leaves_when
    | |- leaves (if _ then _ else _) => case_match
    | |- leaves (match _ with _ => _ end) => case_match
    | |- leaves ?m => first [ solve [auto 2 with leaves] | unfold_head m ]
    | |- ∀ _, _ => intro
    end.

Lemma leaves_limits code r : leaves (check_join_limits me rd code r).
Proof.
  apply leaves_bind; [apply leaves_state; intros c; by destruct (check_join _ _ _ _ _ _)|]. solve_leaves.
Qed.
#[local] Hint Resolve leaves_limits : leaves.
Lemma leaves_displace e : leaves (displace e).
Proof. unfold displace. case_match; [|done]. by apply leaves_bind. Qed.

(** Before the session: the connection is nowhere, or in [r]. *)
Definition idle (c : Ctx B Uuid) : Prop := voice_wf (within who) (voice_of c) ∧ session (cx_conn c) = None.
Definition awaits (r : RoomId) (c : Ctx B Uuid) : Prop :=
  voice_wf (lands who (peer_id me) r) (voice_of c) ∧ session (cx_conn c) = None.

Lemma view_wf c c' : view c' = view c → ctx_wf c → ctx_wf c'.
Proof. unfold view. intros [= Hv Hs] [H1' H2']. split; rewrite ?Hv, Hs; done. Qed.
Lemma view_idle c c' : view c' = view c → idle c → idle c'.
Proof. unfold view, idle. by intros [= -> ->]. Qed.
Lemma view_awaits r c c' : view c' = view c → awaits r c → awaits r c'.
Proof. unfold view, awaits. by intros [= -> ->]. Qed.

Lemma idle_wf c : idle c → ctx_wf c.
Proof.
  intros [Hv Hs]. split; [|by rewrite Hs]. eapply voice_wf_mono; [|exact Hv]. intros i Hi q r Hq. left. by apply Hi.
Qed.
Lemma wf_idle c : ctx_wf c → session (cx_conn c) = None → idle c.
Proof.
  intros [Hv _] Hs. split; [|done]. rewrite Hs in Hv. eapply voice_wf_mono; [|exact Hv].
  intros i Hi q r Hq. by destruct (Hi q r Hq) as [?|(s & ? & _)].
Qed.

(** A session in the room the index has the connection in. *)
Lemma set_session_wf r ses c :
  awaits r c → ss_participant_id ses = peer_id me → cleanup_complete ses = false → ss_room_id ses = r →
  ctx_wf (on_conn (set_session (Some ses)) c).
Proof.
  intros [Hv Hs] Hp Hcl Hr. split; cbn [cx_conn cx_state session set_session on_conn]; [|by intros ? [= <-]].
  eapply voice_wf_mono; [|exact Hv]. intros i Hi q r' Hq. destruct (Hi q r' Hq) as [?|[-> ->]]; [by left|].
  right. by exists ses.
Qed.

Lemma leaves_then {A C} (I J : Ctx B Uuid → Prop) (m : Act A) (k : A → Act C) c :
  leaves m → I (m c).2 → (∀ a c', view c' = view c → J (k a c').2) → (∀ c', I c' → J c') → J (mbind_ m k c).2.
Proof.
  intros Hm HI Hk HIJ. specialize (Hm c). unfold mbind_. destruct (m c) as [[a|e] c']; simpl in *; [by apply Hk|auto].
Qed.
Lemma never_then {A C} (J : Ctx B Uuid → Prop) (m : Act A) (k : A → Act C) c :
  leaves m → never_fails m → (∀ a c', view c' = view c → J (k a c').2) → J (mbind_ m k c).2.
Proof.
  intros Hm Hn Hk. specialize (Hm c). unfold mbind_. destruct (m c) as [[a|e] c'] eqn:Em; simpl in *; [by apply Hk|].
  by apply Hn in Em.
Qed.

Lemma never_dispatch s r : never_fails (dispatch s r : Act _).
Proof. done. Qed.
Lemma never_poll r : never_fails (spawn_ice_poll cfg me r : Act _).
Proof.
  unfold spawn_ice_poll. apply never_bind; [done|]. intros s. case_match; [|done]. by destruct (has_signaling_proxy cfg).
Qed.

(** A call that enters, followed by what its result calls for. *)
Lemma on_world_enters {E A C} r (m : M (World B) E A) (k : Result A E → Act C) c :
  idle c → enters who (peer_id me) r m →
  (∀ a c', awaits r c' → ctx_wf (k (Ok a) c').2) → (∀ e c', idle c' → ctx_wf (k (Err e) c').2) →
  ctx_wf (mbind_ (on_world_ m) k c).2.
Proof.
  intros [[Hv Hm] Hs] Hent Hok Herr. unfold mbind_, on_world_, state. specialize (Hent _ Hv).
  destruct (m (v_world (voice_of c))) as [[a|e] w]; [apply Hok|apply Herr]; by split; [split|].
Qed.

Lemma enter_session_wf r c : awaits r c → ctx_wf (enter_session me r c).2.
Proof. intros Hc. unfold enter_session, mbind_, rooms_now, gets, set_session_now, modify. by apply (set_session_wf r). Qed.

Lemma join_p2p_wf r code c : idle c → ctx_wf (join_p2p cfg me rd r code c).2.
Proof.
  intros Hc. unfold join_p2p, mbind_ at 1, on_world_, state. destruct Hc as [[Hv Hm] Hs].
  pose proof (p2p_join_enters who (peer_id me) r Hwho code (rd_created_at (dr_reads rd)) (rd_now (dr_reads rd)) _ Hv) as He.
  unfold p2p_join in He. destruct (handle_p2p_join _ _ _ _ _ _ _) as [[res s] inv].
  destruct res as [signals| |reason]; [|by apply idle_wf; split; [split|]..].
  apply never_then; [apply leaves_dispatch|apply never_dispatch|]. intros [] c1 Hview.
  apply step_bind; [|intros [] c2 _ Hc2; exact Hc2]. apply enter_session_wf.
  eapply view_awaits; [exact Hview|]. by split; [split|].
Qed.

Lemma join_sfu_wf p r ic code c : idle c → ctx_wf (join_sfu cfg me rd p r ic code c).2.
Proof.
  intros Hc. unfold join_sfu. apply step_bind; [by apply idle_wf|]. intros available ? [= <- <-] _.
  case_match.
  { eapply (view_wf c); [|by apply idle_wf]. match goal with |- view (?m c).2 = _ => assert (leaves m) as Hl end; [solve_leaves|apply Hl]. }
  apply (on_world_enters r); [done|by apply handle_sfu_join_enters| |].
  - intros signals c' Hw. apply never_then; [apply leaves_dispatch|apply never_dispatch|]. intros [] c1 H1'.
    apply never_then; [solve_leaves|apply never_poll|]. intros [] c2 H2'.
    apply step_bind; [|intros [] c3 _ Hc3; exact Hc3]. apply enter_session_wf.
    do 2 (eapply view_awaits; [eassumption|]). done.
  - intros e c' Hi. eapply view_wf; [|by apply idle_wf].
    match goal with |- view (?m c').2 = _ => assert (leaves m) as Hl end; [solve_leaves|apply Hl].
Qed.

Lemma leaves_wf {A} (m : Act A) : leaves m → preserves ctx_wf m.
Proof. intros Hm c. by apply view_wf. Qed.

Lemma join_arm p : preserves ctx_wf (dispatch_join cfg me rd p).
Proof.
  intros c Hc. unfold dispatch_join. apply step_bind; [done|]. intros ses ? [= <- <-] _.
  case_bool_decide as Hses; [by apply leaves_wf; [solve_leaves|]|].
  assert (session (cx_conn c) = None) as Hn by (destruct (session (cx_conn c)); [by destruct Hses|done]).
  pose proof (wf_idle c Hc Hn) as Hi. clear Hc Hses.
  case_match; [by apply leaves_wf; [solve_leaves|apply idle_wf]|].
  apply (leaves_then idle ctx_wf); [solve_leaves| | |apply idle_wf].
  { eapply view_idle; [|exact Hi]. match goal with |- view (?m c).2 = _ => assert (leaves m) as Hl end; [solve_leaves|apply Hl]. }
  intros ic c1 H1'. pose proof (view_idle _ _ H1' Hi) as Hi1.
  apply (leaves_then idle ctx_wf); [solve_leaves| | |apply idle_wf].
  { eapply view_idle; [|exact Hi1]. match goal with |- view (?m c1).2 = _ => assert (leaves m) as Hl end; [solve_leaves|apply Hl]. }
  intros [] c2 H2'. pose proof (view_idle _ _ H2' Hi1) as Hi2.
  apply step_bind; [case_match; [by apply join_p2p_wf|by apply join_sfu_wf]|].
  intros res c3 _. revert c3. match goal with |- ∀ c', _ → ctx_wf (?m c').2 => change (preserves ctx_wf m) end.
  apply leaves_wf. solve_leaves.
Qed.

(** ** Creating a room, and joining a channel *)

(** The media tokens of the connection can be made, and its id is not empty. *)
Record mints : Prop := mk_mints {
  mints_media rid pid nm : rid ≠ EmptyString → pid ≠ EmptyString →
    is_Ok (mint_token (token_mode cfg) rid pid nm (dr_reads rd)) = true;
  mints_channel : mints_voice (token_mode cfg) (vr_reads (dr_voice rd));
  mints_peer : peer_id me ≠ EmptyString
}.

Lemma create_arm p c :
  mints → draws_new (Msg.CreateRoom p) c → ctx_wf c → ctx_wf (dispatch_create_room cfg me rd p c).2.
Proof.
  intros Hmint Hdraw Hc. unfold dispatch_create_room. apply step_bind; [done|]. intros ses ? [= <- <-] _.
  case_bool_decide as Hses; [by apply leaves_wf; [solve_leaves|]|].
  assert (session (cx_conn c) = None) as Hn by (destruct (session (cx_conn c)); [by destruct Hses|done]).
  pose proof (wf_idle c Hc Hn) as [[[W1 W2 W3] Hm] Hs].
  apply step_bind; [done|]. intros available ? [= <- <-] _.
  unfold mbind_ at 1, on_world_, state.
  pose proof (handle_create_room_wf (CreateRoom_room_id p) (peer_id me)
    (name_or (peer_id me) (CreateRoom_display_name p)) (CreateRoom_profile_color p) (CreateRoom_room_type p)
    (sc_max_participants (sfu_config cfg)) (issuer_id me) (token_mode cfg) (sfu_url cfg)
    (is_join_allowed (sfu_health_status (cx_state c))) (dr_reads rd) _ Hdraw W1) as Hw.
  pose proof (handle_create_room_seats who (peer_id me) (trim (CreateRoom_room_id p)) (CreateRoom_room_id p)
    (name_or (peer_id me) (CreateRoom_display_name p)) (CreateRoom_profile_color p) (CreateRoom_room_type p)
    (sc_max_participants (sfu_config cfg)) (issuer_id me) (token_mode cfg) (sfu_url cfg)
    (is_join_allowed (sfu_health_status (cx_state c))) (dr_reads rd) (v_world (voice_of c)) eq_refl
    (mints_media Hmint) (mints_peer Hmint) (conj W2 W3)) as Hseat.
  destruct (handle_create_room _ _ _ _ _ _ _ _ _ _ _ _) as [[signals|e] w]; destruct Hseat as [S1 S2].
  - unfold mbind_ at 1, gets. unfold mbind_ at 1, set_session_now, modify. apply leaves_wf; [solve_leaves|].
    by apply (set_session_wf (trim (CreateRoom_room_id p))); [split; [split; [split|]|]|..].
  - apply leaves_wf; [solve_leaves|]. apply idle_wf. by split; [split; [split|]|].
Qed.

Lemma unwrap_Ok {A} (o : option A) (a : A) (c c' : Ctx B Uuid) : unwrap o c = (Ok a, c') → o = Some a ∧ c' = c.
Proof. destruct o; [by intros [= -> ->]|done]. Qed.

Lemma join_voice_arm p c :
  mints → session (cx_conn c) = None → ctx_wf c → ctx_wf (dispatch_join_voice cfg me rd p c).2.
Proof.
  intros Hmint Hn Hc. unfold dispatch_join_voice. apply step_bind; [done|]. intros user ? [= <- <-] _.
  apply step_bind; [by apply ctx_wf_unwrap|]. intros u ? [Hu ->]%unwrap_Ok _.
  apply step_bind; [by apply ctx_wf_unwrap|]. intros uid ? [Hu2 ->]%unwrap_Ok _.
  pose proof (wf_idle c Hc Hn) as Hi. clear Hc Hn Hu Hu2.
  apply (leaves_then idle ctx_wf); [solve_leaves| | |apply idle_wf].
  { eapply view_idle; [|exact Hi]. match goal with |- view (?m c).2 = _ => assert (leaves m) as Hl end; [solve_leaves|apply Hl]. }
  intros wait c1 H1'. pose proof (view_idle _ _ H1' Hi) as Hi1.
  destruct wait; [by apply leaves_wf; [solve_leaves|apply idle_wf]|].
  apply (leaves_then idle ctx_wf); [solve_leaves| | |apply idle_wf]; [by eapply view_idle; [apply leaves_ceiling|]|].
  intros [] c2 H2'. pose proof (view_idle _ _ H2' Hi1) as Hi2.
  apply (leaves_then idle ctx_wf); [solve_leaves| | |apply idle_wf]; [by eapply view_idle; [apply leaves_limits|]|].
  intros [] c3 H3'. pose proof (view_idle _ _ H3' Hi2) as [[[W1 W2 W3] Hm] Hs].
  unfold mbind_ at 1, on_voice, state.
  assert (voice_wf (λ i, i !! peer_id me = None) (voice_of c3)) as Hfree.
  { split; [|done]. split; [done|done|]. destruct (_ !! _) as [r|] eqn:Er; [|done]. by destruct (Hwho r (W3 _ _ Er)). }
  match goal with |- context [join_voice ?d ?a ?b ?e ?f ?g ?h ?i ?j ?k ?l (voice_of c3)] =>
    pose proof (join_voice_wf d a b e f g h i j k l (voice_of c3) Hfree) as Hw;
    pose proof (join_voice_never_panics (within who) d a b e f g h i j k l (voice_of c3) (within_delete who)
      (mk_voice_wf _ _ (mk_sess_wf _ _ W1 W2 W3) Hm)) as Hnp;
    pose proof (join_voice_points who (peer_id me) Hwho d a b e f h i j k l (voice_of c3) uuid_to_string_nonempty
      (mints_peer Hmint) (mints_channel Hmint) Hm W3) as Hp;
    destruct (join_voice d a b e f g h i j k l (voice_of c3)) as [[res|err] v] end;
    destruct Hw as [[V1 V2 _] Hm'].
  - unfold mbind_ at 1, set_session_now, modify. apply leaves_wf; [solve_leaves; apply leaves_displace|].
    by apply (set_session_wf (vj_room_id res)); [split; [split; [split|]|]|..].
  - assert (err ≠ VoicePanicked) as Hne by (intros ->; by apply Hnp). specialize (Hp Hne).
    match goal with |- ctx_wf (?k ?c4).2 => assert (idle c4) as Hidle by (by split; [split; [split|]|]) end.
    destruct err; try done; (apply leaves_wf; [solve_leaves|by apply idle_wf]).
Qed.

(** Every message keeps the invariant: the conditions are that a connection with a
    session does not join a channel, that fresh invite codes are fresh, and that
    the media tokens can be made. *)
Theorem dispatch_keeps m c :
  mints → draws_new m c → (∀ p, m = Msg.JoinVoice p → session (cx_conn c) = None) → ctx_wf c →
  ctx_wf (dispatch_message cfg me rd m c).2.
Proof.
  intros Hmint Hdraw Hv Hc. destruct m eqn:Em; try (by apply inner_arms).
  - by apply join_arm.
  - by apply leave_arm.
  - by apply invite_create_arm.
  - by apply invite_revoke_arm.
  - by apply create_arm.
  - apply join_voice_arm; [done|by eapply Hv|done].
Qed.
End invariant.
