(* ===== verification/DispatchRules.v ===== *)
(** * What the handlers enforce

    A host action of a channel session asks the database for the caller's role
    when it is performed; a join by invite goes through the rate limits and a valid
    invite; a participant cannot lift a mute of the host; and a cold start of the
    media server ends. *)

From S2P Require Import Prelude Signaling Invite RoomState ScreenShare Relay SfuBridge Tokens SfuRelay SubRooms Voice RoomInvariant WsSession SlidingWindow JoinLimiter AbuseGuards WsLimits Chat Config ClientIp AbuseMetrics AppState Dispatch DispatchInvariant.
Local Open Scope Z_scope.
Local Open Scope prog_scope.

Section rules.
Context {B : Type} `{SfuRoomManager B, SfuSignalingProxy B}.
Context `{JwtCodec MediaTokenClaims, JwtCodec AuthTokenClaims, LiveKitTokens, Externals}.
Context {Uuid : Type} `{EqDecision Uuid} `{!Countable Uuid} `{UuidText Uuid}.
Context (cfg : ServerConfig) (me : ConnInfo) (rd : DispatchReads Uuid).

Abbreviation Act A := (M (Ctx B Uuid) Exit A) (only parsing).
Abbreviation voice_of c := (app_voice (as_app (cx_state c))) (only parsing).

(** ** Roles *)

(** The messages reserved to the host of a room. *)
Definition host_only (m : SignalingMessage) : bool :=
  match m with
  | Msg.KickParticipant _ | Msg.MuteParticipant _ | Msg.UnmuteParticipant _ | Msg.SetSharePermission _
  | Msg.SetPassthroughEnabled _ | Msg.SetPassthroughVolume _ | Msg.SetPassthroughFilter _ => true
  | _ => false
  end.

(** [m] leaves the rooms alone; it also stops. *)
Definition inert {A} (m : Act A) : Prop := ∀ c, voice_of (m c).2 = voice_of c.
Definition blocked {A} (m : Act A) : Prop := ∀ c, is_Ok (m c).1 = false ∧ voice_of (m c).2 = voice_of c.

Lemma leaves_inert {A} (m : Act A) : leaves m → inert m.
Proof. intros Hm c. specialize (Hm c). unfold view in Hm. congruence. Qed.
Lemma inert_bind {A C} (m : Act A) (k : A → Act C) : inert m → (∀ a, inert (k a)) → inert (mbind_ m k).
Proof.
  intros Hm Hk c. unfold mbind_. specialize (Hm c). destruct (m c) as [[a|e] c']; simpl in *; [|done]. by rewrite Hk.
Qed.
Lemma blocked_bind {A C} (m : Act A) (k : A → Act C) : blocked m → blocked (mbind_ m k).
Proof. intros Hm c. unfold mbind_. specialize (Hm c). by destruct (m c) as [[a|e] c']; destruct Hm. Qed.
Lemma inert_then_blocked {A C} (m : Act A) (k : A → Act C) : inert m → (∀ a, blocked (k a)) → blocked (mbind_ m k).
Proof.
  intros Hm Hk c. unfold mbind_. specialize (Hm c). destruct (m c) as [[a|e] c']; simpl in *; [|done].
  destruct (Hk a c') as [? ->]. by rewrite Hm.
Qed.
Lemma blocked_inert {A} (m : Act A) : blocked m → inert m.
Proof. intros Hm c. apply Hm. Qed.

Lemma inert_send_stop {A} p t : blocked (do! send_error p t in stop : Act A).
Proof. done. Qed.
Lemma inert_check_action now p : inert (check_action_rate_limit now p : Act _).
Proof.
  apply inert_bind; [|intros []; done]. apply leaves_inert, leaves_state. intros c. by destruct (action_allow _ _).
Qed.
Lemma inert_require_room p : inert (require_room p : Act _).
Proof. apply inert_bind; [done|]. intros s. by destruct (get_room_for_peer s p). Qed.
Lemma inert_require_sfu p : inert (require_sfu_room p : Act _).
Proof.
  apply inert_bind; [apply inert_require_room|]. intros r. apply inert_bind; [done|]. intros s.
  destruct (get_room_info r s) as [i|]; [|done]. by case_bool_decide.
Qed.
Lemma blocked_require_guest p : blocked (require_host p Guest : Act _).
Proof. done. Qed.

(** The caller is not a host of the channel now, whatever the session remembers. *)
Section not_host.
Context (ses : SignalingSession) (channel_id u : string) (uid : Uuid).
Context (Hch : ss_channel_id ses = Some channel_id) (Hu : ss_user_id ses = Some u) (Huid : uuid_parse_str u = Some uid).
Context (Hrole : ∀ r, get_current_channel_role (db_role rd) channel_id uid = Ok (Some r) → map_channel_role r = Guest).

Lemma current_role_guest {A} p (k : ParticipantRole → Act A) :
  inert (k Guest) → inert (mbind_ (current_role rd p channel_id uid) k).
Proof.
  intros Hk. unfold current_role. destruct (get_current_channel_role _ _ _) as [[r|]|e] eqn:E; [|done|done].
  intros c. unfold mbind_, mret. rewrite (Hrole r) by done. apply Hk.
Qed.
Lemma current_role_blocks {A} p (k : ParticipantRole → Act A) :
  blocked (k Guest) → blocked (mbind_ (current_role rd p channel_id uid) k).
Proof.
  intros Hk. unfold current_role. destruct (get_current_channel_role _ _ _) as [[r|]|e] eqn:E; [|done|done].
  intros c. unfold mbind_, mret. rewrite (Hrole r) by done. apply Hk.
Qed.

Lemma effective_role p c :
  resolve_effective_role rd p (ss_channel_id ses) (ss_user_id ses) (ss_role ses) (c : Ctx B Uuid) =
  current_role rd p channel_id uid c.
Proof. unfold resolve_effective_role. rewrite Hch, Hu. unfold mbind_ at 1, unwrap, mret. by rewrite Huid. Qed.

Lemma effective_role_blocks {A} p (k : ParticipantRole → Act A) :
  blocked (k Guest) →
  blocked (mbind_ (resolve_effective_role rd p (ss_channel_id ses) (ss_user_id ses) (ss_role ses)) k).
Proof. intros Hk c. unfold mbind_ at 1 2. rewrite effective_role. by apply (current_role_blocks p k). Qed.
Lemma effective_role_guest {A} p (k : ParticipantRole → Act A) :
  inert (k Guest) →
  inert (mbind_ (resolve_effective_role rd p (ss_channel_id ses) (ss_user_id ses) (ss_role ses)) k).
Proof. intros Hk c. unfold mbind_ at 1. rewrite effective_role. by apply (current_role_guest p k). Qed.

Lemma host_action_blocked t : blocked (host_action rd ses t : Act _).
Proof.
  unfold host_action. apply inert_then_blocked; [apply inert_check_action|intros _].
  apply inert_then_blocked; [apply inert_require_sfu|intros room].
  apply effective_role_blocks, blocked_bind, blocked_require_guest.
Qed.

Lemma host_role_blocked : blocked (require_host_role rd (peer_id me) channel_id uid : Act _).
Proof. apply current_role_blocks, blocked_require_guest. Qed.
Lemma channel_host_blocked : blocked (require_channel_host me rd ses channel_id : Act _).
Proof.
  intros c. assert (require_channel_host me rd ses channel_id c = require_host_role rd (peer_id me) channel_id uid c) as ->.
  { unfold require_channel_host. rewrite Hu. unfold mbind_, unwrap, mret. by rewrite Huid. }
  apply host_role_blocked.
Qed.

(** A step from a connection with this session. *)
Lemma session_step {A} (k : SignalingSession → Act A) c :
  session (cx_conn c) = Some ses → inert (k ses) →
  voice_of (mbind_ get_session (λ s, mbind_ (unwrap s) k) c).2 = voice_of c.
Proof. intros Hs Hk. unfold mbind_, get_session, gets. rewrite Hs. apply Hk. Qed.
Lemma channel_step {A} refusal (k : SignalingSession * string → Act A) c :
  session (cx_conn c) = Some ses → inert (k (ses, channel_id)) →
  voice_of (mbind_ (channel_session me rd refusal) k c).2 = voice_of c.
Proof.
  intros Hs Hk.
  assert (channel_session me rd refusal c =
    mbind_ (action_allow_now (dr_limiter_now rd)) (λ ok : bool, if ok then mret (ses, channel_id) else stop) c) as Heq.
  { unfold channel_session, mbind_, get_session, gets. by rewrite Hs, Hch. }
  unfold mbind_ at 1. rewrite Heq. unfold mbind_, action_allow_now, state.
  destruct (action_allow _ _) as [[] l]; [|done]. cbv [mret]. by rewrite Hk.
Qed.

Lemma set_permission_guest r p w s : (handle_set_share_permission r p Guest w s).2 = s.
Proof. done. Qed.
Lemma inert_on_rooms {A} (f : InMemoryRoomState → A * InMemoryRoomState) :
  (∀ s, (f s).2 = s) → inert (on_rooms f : Act A).
Proof.
  intros Hf c. unfold on_rooms, state. specialize (Hf (w_rooms (v_world (voice_of c)))). destruct (f _) as [a s].
  cbn in *. rewrite Hf. by destruct c as [[[[[] ]]]].
Qed.

(** C3: A participant in a channel's voice room who, by the role query made at that
    moment, is not the channel's owner or an administrator (the query names a member,
    nobody, or fails) cannot kick, mute or unmute anybody, change who may share, turn
    the passthrough on or off, or change its volume or filter, whatever role the
    session started with: the message leaves the rooms, the invites and the media
    server exactly as they were.  Choosing the pair of sub-rooms the passthrough joins,
    and clearing it, is not among these: every participant assigned to a sub-room may
    do that. *)
Theorem host_actions_need_current_role m c :
  session (cx_conn c) = Some ses → host_only m = true →
  voice_of (dispatch_message cfg me rd m c).2 = voice_of c.
Proof.
  intros Hs Hm. destruct m; try done; clear Hm; cbn [dispatch_message].
  1,2,3: apply session_step; [done|]; apply blocked_inert, blocked_bind, host_action_blocked.
  - apply session_step; [done|]. apply inert_bind; [apply inert_check_action|intros _].
    apply inert_bind; [apply inert_require_room|intros r]. apply effective_role_guest.
    apply inert_bind; [by apply inert_on_rooms|]. intros []; done.
  - apply channel_step; [done|]. apply blocked_inert, blocked_bind, channel_host_blocked.
  - apply channel_step; [done|]. apply blocked_inert, blocked_bind, channel_host_blocked.
  - apply channel_step; [done|]. cbn [fst snd]. rewrite Hu. intros c'.
    unfold mbind_ at 1, unwrap, mret. rewrite Huid. apply (blocked_inert _ (blocked_bind _ _ host_role_blocked)).
Qed.
End not_host.

(** ** Joining by invite *)

Lemma leaves_bind_session {A C} (m : Act A) (k : A → Act C) c :
  leaves m → session (cx_conn c) = None → is_Some (session (cx_conn (mbind_ m k c).2)) →
  ∃ a c', m c = (Ok a, c') ∧ view c' = view c ∧ is_Some (session (cx_conn (k a c').2)).
Proof.
  intros Hm Hs. specialize (Hm c). unfold mbind_. destruct (m c) as [[a|e] c'] eqn:Em; cbn [snd] in *.
  - intros Hk. by exists a, c'.
  - unfold view in Hm. injection Hm as _ Hses. rewrite Hses, Hs. by intros [].
Qed.

Lemma leaves_track : leaves (track_failed_join me rd : Act _).
Proof. apply leaves_bind; [apply leaves_failed|]. by intros [n|]. Qed.
Lemma leaves_invite_code p r : leaves (join_invite_code cfg me rd p r : Act _).
Proof.
  unfold join_invite_code. case_match; [|done].
  assert (leaves (do! record_join me rd None r true in do! track_failed_join me rd in
                  do! send_rejection me InviteRequired in (stop : Act string))) as Hl
    by (apply leaves_bind; [done|intros _]; apply leaves_bind; [apply leaves_track|done]).
  destruct (Join_invite_code p) as [code|]; [|exact Hl]. by destruct (str_is_empty code).
Qed.
Lemma leaves_check_invite code r : leaves (check_invite me rd code r : Act _).
Proof.
  apply leaves_bind; [done|]. intros [|reason]; [done|]. apply leaves_bind; [done|intros _].
  apply leaves_bind; [done|intros _]. apply leaves_bind; [apply leaves_track|done].
Qed.

Lemma invite_code_Ok p r c ic c' :
  require_invite_code cfg = true → join_invite_code cfg me rd p r (c : Ctx B Uuid) = (Ok ic, c') →
  Join_invite_code p = Some ic ∧ ic ≠ EmptyString ∧ c' = c.
Proof.
  intros Hreq. unfold join_invite_code. rewrite Hreq.
  assert (∀ x, (do! record_join me rd None r true in do! track_failed_join me rd in
                do! send_rejection me InviteRequired in (stop : Act string)) c = (Ok ic, x) → False) as Hno.
  { intros x. unfold mbind_, record_join, modify, track_failed_join, mbind_, record_failed_join, state.
    destruct (record_failure _ _ _) as [[n|] t]; done. }
  destruct (Join_invite_code p) as [code|]; [|by intros ?%Hno].
  destruct (str_is_empty code) eqn:Ee; [by intros ?%Hno|]. intros [= <- <-]. split_and!; [done| |done]. by intros ->.
Qed.

Lemma ceiling_Ok (c : Ctx B Uuid) x c' :
  global_join_ceiling cfg me rd c = (Ok x, c') → join_rate_limiter (cx_state c') = join_rate_limiter (cx_state c).
Proof.
  unfold global_join_ceiling, mbind_, state. destruct (GlobalLimiter.allow _ _ _) as [[] cell]; [|done].
  by intros [= <- <-].
Qed.

Lemma limits_Ok code r (c : Ctx B Uuid) x c' :
  check_join_limits me rd code r c = (Ok x, c') →
  (check_join (client_ip me) code r (peer_id me) (dr_now rd) (join_rate_limiter (cx_state c))).1 = Ok tt.
Proof.
  unfold check_join_limits, mbind_ at 1, state. destruct (check_join _ _ _ _ _ _) as [[[]|reason] l]; [done|].
  unfold mbind_, record_join, bump, modify, track_failed_join, mbind_, record_failed_join, state.
  destruct (record_failure _ _ _) as [[n|] t]; done.
Qed.

Lemma check_invite_Ok code r (c : Ctx B Uuid) x c' :
  check_invite me rd code r c = (Ok x, c') →
  is_Ok (validate code r (dr_now rd) (w_invites (v_world (voice_of c)))) = true.
Proof.
  unfold check_invite, mbind_ at 1, gets. destruct (validate _ _ _ _) as [rec|reason]; [done|].
  unfold mbind_, record_join, bump, modify, track_failed_join, mbind_, record_failed_join, state.
  destruct (record_failure _ _ _) as [[n|] t]; done.
Qed.

(** C4: Where invites are required, the only way into a room by [Join] is a code
    that the invite store accepts for that room at that moment, from a client the
    join limiter lets through: a connection that had no session and has one
    afterwards presented such a code. *)
Theorem join_needs_valid_invite p c :
  require_invite_code cfg = true → session (cx_conn c) = None →
  is_Some (session (cx_conn (dispatch_message cfg me rd (Msg.Join p) c).2)) →
  ∃ code, Join_invite_code p = Some code ∧ code ≠ EmptyString ∧
    is_Ok (validate code (trim (Join_room_id p)) (dr_now rd) (w_invites (v_world (voice_of c)))) = true ∧
    (check_join (client_ip me) (Some code) (trim (Join_room_id p)) (peer_id me) (dr_now rd)
       (join_rate_limiter (cx_state c))).1 = Ok tt.
Proof.
  intros Hreq Hs. cbn [dispatch_message]. unfold dispatch_join. intros Hsome.
  unfold mbind_ at 1, get_session, gets in Hsome. rewrite Hs in Hsome. rewrite bool_decide_false in Hsome by by intros [].
  destruct (str_is_empty (trim (Join_room_id p))); [by cbn in Hsome; rewrite Hs in Hsome; destruct Hsome|].
  apply leaves_bind_session in Hsome as (ic & c1 & H1' & Hv1 & Hsome); [|apply leaves_invite_code|done].
  apply invite_code_Ok in H1' as (Hcode & Hne & ->); [|done].
  rewrite Hreq in Hsome. unfold when in Hsome.
  apply leaves_bind_session in Hsome as ([] & c4 & H4' & _ & _); [| |done].
  2: { apply leaves_bind; [apply leaves_ceiling|intros _]. apply leaves_bind; [apply leaves_limits|intros _].
       apply leaves_check_invite. }
  unfold mbind_ at 1 in H4'. destruct (global_join_ceiling cfg me rd c) as [[[]|e] c2] eqn:E2; [|done].
  pose proof (leaves_ceiling cfg me rd c) as Hv2. rewrite E2 in Hv2. cbn [snd] in Hv2.
  unfold mbind_ at 1 in H4'. destruct (check_join_limits me rd _ _ c2) as [[[]|e] c3] eqn:E3; [|done].
  pose proof (leaves_limits me rd (Some ic) (trim (Join_room_id p)) c2) as Hv3. rewrite E3 in Hv3. cbn [snd] in Hv3.
  apply ceiling_Ok in E2. apply limits_Ok in E3. apply check_invite_Ok in H4'.
  exists ic. split_and!; [done|done| |by rewrite <-E2].
  unfold view in Hv2, Hv3. injection Hv2 as Hw2 _. injection Hv3 as Hw3 _. by rewrite <-Hw2, <-Hw3.
Qed.
End rules.
