(* ===== verification/Server.v ===== *)
(** * The server (wavis-backend/src/ws/ws.rs, main.rs, channel/routes.rs,
    ec2_control.rs, app_state.rs)

    The upgrade of a request to a WebSocket, the receive loop and the end of a
    connection, the ejection of a banned member, and the tasks that run beside the
    connections: sub-room timers, chat persistence, the start and stop of the media
    server, its health monitor, the renewal of media tokens and the sweeps.  Each is
    one transition of the server; [run_event] dispatches on them, and the order of
    the events is the interleaving of the tasks. *)

From S2P Require Import Prelude Floats Signaling FieldValidation Invite RoomState ScreenShare Relay SfuBridge Tokens SfuRelay SubRooms Voice WsSession SlidingWindow JoinLimiter AbuseGuards WsTicket WsLimits Chat Config ClientIp AbuseMetrics AppState Dispatch.
Local Open Scope Z_scope.

Definition MAX_TEXT_MESSAGE_BYTES : Z := 64 * 1024.
Definition TOKEN_TTL_SECS : Z := DEFAULT_TOKEN_TTL_SECS.

(** 75% of a lifetime; the lifetimes are multiples of four, so that the product in
    [f64] is exact. *)
Definition refresh_threshold_secs (ttl : Z) : Z := ttl * 3 / 4.

(** The answers to an upgrade request. *)
Inductive UpgradeResponse : Type :=
| Forbidden
| TooManyRequests
| Unauthorized
| SwitchingProtocols.

(** An upgrade request, with the clocks its checks read. *)
Record UpgradeRequest : Type := mkUpgradeRequest {
  rq_remote : IpAddr;
  rq_headers : string → option string;
  rq_ticket : option string;
  rq_unix : Z;
  rq_ban_now : Instant;
  rq_ticket_now : Instant
}.

(** The clocks the receive loop reads for a text frame. *)
Record FrameReads : Type := mkFrameReads {
  fr_message_now : Instant;
  fr_burst_now : Instant;
  fr_ban_now : Instant
}.

(** What the renewal of a media token reads. *)
Record RefreshReads : Type := mkRefreshReads {
  rf_now : Instant;
  rf_clock : RoomId → PeerId → Result Z string;
  rf_jti : RoomId → PeerId → string;
  rf_issued : RoomId → PeerId → Instant
}.

(** [next_peer_id]. *)
Definition peer_name (id : Z) : PeerId := "peer-" +:+ pretty id.

Section server.
Context {B : Type} `{SfuRoomManager B, SfuSignalingProxy B}.
Context `{JwtCodec MediaTokenClaims, JwtCodec AuthTokenClaims, LiveKitTokens, Externals}.
Context {Uuid : Type} `{EqDecision Uuid} `{!Countable Uuid} `{UuidText Uuid}.
(** The address ranges of the ipnet crate, the MAC of tickets and the text of a debugged string. *)
Context {IpNet : Type} (contains_ip : IpNet → IpAddr → bool) (hmac_sha256 : string → string → string)
  (str_debug : string → string).

(** The part of the configuration the upgrade reads. *)
Record EdgeConfig : Type := mkEdgeConfig {
  require_tls : bool;
  ip_config : IpConfig IpNet;
  global_ws_max_per_sec : Z;
  ws_rate_limit_config : WsRateLimitConfig
}.

Context (cfg : ServerConfig) (edge : EdgeConfig).

(** A connection in its receive loop: what it keeps, its issuer id and its address. *)
Record LiveConn : Type := mkLiveConn {
  lc_conn : Conn Uuid;
  lc_issuer : string;
  lc_ip : IpAddr
}.

(** The server: the shared state of the handlers, the connections, the upgrades
    under way, and the parts of [AppState] only the edge uses. *)
Record Server : Type := mkServer {
  srv_app : AppState B Uuid;
  srv_conns : gmap PeerId LiveConn;
  srv_pending : list (IpAddr * (Uuid * Uuid));
  srv_next_peer : Z;
  srv_ws_limiter : Z;
  srv_bans : TempBan.TempBanList IpAddr;
  srv_ips : IpTracker.IpConnectionTracker IpAddr;
  srv_tickets : WsTicketStore (Uuid:=Uuid);
  srv_chat : list (StoredMessage Uuid)
}.

Definition with_app (f : AppState B Uuid → AppState B Uuid) (s : Server) : Server :=
  mkServer (f (srv_app s)) (srv_conns s) (srv_pending s) (srv_next_peer s) (srv_ws_limiter s) (srv_bans s)
    (srv_ips s) (srv_tickets s) (srv_chat s).
Definition with_conns (f : gmap PeerId LiveConn → gmap PeerId LiveConn) (s : Server) : Server :=
  mkServer (srv_app s) (f (srv_conns s)) (srv_pending s) (srv_next_peer s) (srv_ws_limiter s) (srv_bans s)
    (srv_ips s) (srv_tickets s) (srv_chat s).
Definition with_pending (f : list (IpAddr * (Uuid * Uuid)) → list (IpAddr * (Uuid * Uuid))) (s : Server) : Server :=
  mkServer (srv_app s) (srv_conns s) (f (srv_pending s)) (srv_next_peer s) (srv_ws_limiter s) (srv_bans s)
    (srv_ips s) (srv_tickets s) (srv_chat s).
Definition with_ips (f : IpTracker.IpConnectionTracker IpAddr → IpTracker.IpConnectionTracker IpAddr) (s : Server)
    : Server :=
  mkServer (srv_app s) (srv_conns s) (srv_pending s) (srv_next_peer s) (srv_ws_limiter s) (srv_bans s)
    (f (srv_ips s)) (srv_tickets s) (srv_chat s).
Definition with_bans (f : TempBan.TempBanList IpAddr → TempBan.TempBanList IpAddr) (s : Server) : Server :=
  mkServer (srv_app s) (srv_conns s) (srv_pending s) (srv_next_peer s) (srv_ws_limiter s) (f (srv_bans s))
    (srv_ips s) (srv_tickets s) (srv_chat s).
Definition with_tickets (f : WsTicketStore → WsTicketStore (Uuid:=Uuid)) (s : Server) : Server :=
  mkServer (srv_app s) (srv_conns s) (srv_pending s) (srv_next_peer s) (srv_ws_limiter s) (srv_bans s)
    (srv_ips s) (f (srv_tickets s)) (srv_chat s).
Definition with_chat (f : list (StoredMessage Uuid) → list (StoredMessage Uuid)) (s : Server) : Server :=
  mkServer (srv_app s) (srv_conns s) (srv_pending s) (srv_next_peer s) (srv_ws_limiter s) (srv_bans s)
    (srv_ips s) (srv_tickets s) (f (srv_chat s)).

Definition count_metric (k : AbuseCounter) (st : AppState B Uuid) : AppState B Uuid :=
  set_metrics (increment k (abuse_metrics st)) st.
Definition app_do (f : App B Uuid → App B Uuid) (st : AppState B Uuid) : AppState B Uuid := set_app (f (as_app st)) st.

(** ** The upgrade *)

(** The per-IP cap, and the wait for the handshake. *)
Definition take_slot (client_ip : IpAddr) (user : Uuid * Uuid) (s : Server) : UpgradeResponse * Server :=
  let '(ok, ips) := IpTracker.try_add client_ip (srv_ips s) in
  let s := with_ips (λ _, ips) s in
  if negb ok then (TooManyRequests, with_app (count_metric connections_rejected_ip_cap) s)
  else (SwitchingProtocols, with_pending (λ l, l ++ [(client_ip, user)]) s).

(** [ws_handler]. *)
Definition ws_handler (rq : UpgradeRequest) (s : Server) : UpgradeResponse * Server :=
  let client_ip := extract_client_ip contains_ip (rq_remote rq) (rq_headers rq) (ip_config edge) in
  if require_tls edge && negb (check_tls_proto (rq_headers rq)) then
    (Forbidden, with_app (count_metric tls_proto_rejections) s)
  else
  let '(ok, cell) := GlobalLimiter.allow (global_ws_max_per_sec edge) (rq_unix rq) (srv_ws_limiter s) in
  let s := mkServer (srv_app s) (srv_conns s) (srv_pending s) (srv_next_peer s) cell (srv_bans s) (srv_ips s)
             (srv_tickets s) (srv_chat s) in
  if negb ok then (TooManyRequests, with_app (count_metric global_ws_ceiling_rejections) s)
  else if TempBan.is_banned client_ip (rq_ban_now rq) (srv_bans s) then
    (TooManyRequests, with_app (count_metric connections_rejected_temp_ban) s)
  else
  let refused s := (Unauthorized, with_app (count_metric ws_ticket_rejections) s) in
  match rq_ticket rq with
  | Some ticket =>
      if str_is_empty ticket then refused s
      else
        let '(r, store) := WsTicket.validate_and_consume hmac_sha256 ticket (rq_ticket_now rq) (srv_tickets s) in
        let s := with_tickets (λ _, store) s in
        match r with
        | Ok user => take_slot client_ip user s
        | Err _ => refused s
        end
  | None => refused s
  end.

(** The start of [handle_socket], for the upgrade at position [i]. *)
Definition connect (i : nat) (issuer : string) (now chat_now : Instant) (s : Server) : Server :=
  match srv_pending s !! i with
  | None => s
  | Some (ip, (user, device)) =>
      let p := peer_name (srv_next_peer s) in
      let c := mkConn None (Some (uuid_to_string user)) (Some device)
                 (WsRateLimiter_new (ws_rate_limit_config edge) now) (ChatRateLimiter_new (F64.of_Z 5) chat_now) in
      mkServer (app_do (λ a, mkApp (app_voice a) (register p (app_connections a)) (expiry_timers a)
                                (pending_shutdown a) (ec2_stops a)) (srv_app s))
        (<[p := mkLiveConn c issuer ip]> (srv_conns s)) (delete i (srv_pending s)) (wrap_u64 (srv_next_peer s + 1))
        (srv_ws_limiter s) (srv_bans s) (srv_ips s) (srv_tickets s) (srv_chat s)
  end.

(** A handshake that is not completed: the callback of [on_upgrade] does not run. *)
Definition upgrade_fails (i : nat) (s : Server) : Server := with_pending (delete i) s.

(** ** A text frame *)

(** The message for a field that is too long. *)
Definition too_long (e : ValidationError) : string :=
  "field '" +:+ field e +:+ "' too long (" +:+ pretty (actual_len e) +:+ " > " +:+ pretty (max_len e) +:+ ")".

(** The [Message::Text] arm of the receive loop: [None] is a panic of the handler. *)
Definition receive_text (me : ConnInfo) (fr : FrameReads) (rd : DispatchReads Uuid)
    (bans : TempBan.TempBanList IpAddr) (c : Ctx B Uuid) : option DispatchOutcome * TempBan.TempBanList IpAddr * Ctx B Uuid :=
  let text := raw_text me in
  let metric k c := on_state (count_metric k) c in
  let reply m c := on_state (app_do (send (peer_id me) (error_message m))) c in
  if MAX_TEXT_MESSAGE_BYTES <? str_len text then (Some Break, bans, metric payload_size_violations c)
  else
  let '(ok, l) := allow (fr_message_now fr) (rate_limiter (cx_conn c)) in
  let c := on_conn (set_limiter l) c in
  if negb ok then
    (Some Break, TempBan.record_violation (client_ip me) (fr_ban_now fr) bans,
     metric connections_closed_rate_limit (metric ws_rate_limit_rejections c))
  else
  let '(ok, l) := burst_allow (fr_burst_now fr) (rate_limiter (cx_conn c)) in
  let c := on_conn (set_limiter l) c in
  if negb ok then
    (Some Break, TempBan.record_violation (client_ip me) (fr_ban_now fr) bans,
     metric connections_closed_rate_limit (metric ws_burst_rejections c))
  else if negb (check_json_depth (String.list_ascii_of_string text) (max_json_depth (ws_rate_limit_config edge))) then
    (Some Break, bans, c)
  else
  match parse_message text with
  | None => (Some Continue, bans, reply "invalid JSON" c)
  | Some message =>
      match validate_field_lengths message with
      | Err e => (Some Continue, bans, reply (too_long e) (metric schema_validation_rejections c))
      | Ok _ =>
          match validate_state_transition message (bool_decide (is_Some (session (cx_conn c))))
                  (bool_decide (is_Some (authenticated_user_id (cx_conn c)))) with
          | Err reason => (Some Continue, bans, reply reason (metric state_machine_rejections c))
          | Ok _ =>
              let '(o, c) := run_dispatch cfg me rd message c in (o, bans, c)
          end
      end
  end.

(** ** The end of a connection *)

(** After the loop: the session is cleaned up, and dropping the guard releases the address. *)
Definition end_connection (p : PeerId) (lr : LeaveReads) (s : Server) : Server :=
  match srv_conns s !! p with
  | None => s
  | Some lc =>
      with_ips (IpTracker.remove (lc_ip lc)) (with_conns (delete p) (with_app (app_do (λ a,
        match session (lc_conn lc) with
        | Some ses => (cleanup_connection p lr ses a).2
        | None => cleanup_unjoined_connection p a
        end)) s))
  end.

(** A panic unwinds the task: only the guard is dropped. *)
Definition unwind_connection (p : PeerId) (s : Server) : Server :=
  match srv_conns s !! p with
  | None => s
  | Some lc => with_ips (IpTracker.remove (lc_ip lc)) (with_conns (delete p) s)
  end.

(** One turn of the receive loop of [p] on a text frame. *)
Definition receive (p : PeerId) (text : string) (fr : FrameReads) (rd : DispatchReads Uuid) (lr : LeaveReads)
    (s : Server) : Server :=
  match srv_conns s !! p with
  | None => s
  | Some lc =>
      let '(o, bans, c) := receive_text (mkConnInfo p (lc_issuer lc) (lc_ip lc) text) fr rd (srv_bans s)
                             (mkCtx (srv_app s) (lc_conn lc)) in
      let s := with_conns <[p := mkLiveConn (cx_conn c) (lc_issuer lc) (lc_ip lc)]>
                 (with_app (λ _, cx_state c) (with_bans (λ _, bans) s)) in
      match o with
      | Some Continue => s
      | Some Break => end_connection p lr s
      | None => unwind_connection p s
      end
  end.

(** ** Beside the connections *)

(** [issue_ws_ticket], for an authenticated user; [raw] is the drawn ticket. *)
Definition issue_ws_ticket (raw : string) (user device : Uuid) (now : Instant) (s : Server) : string * Server :=
  let '(ticket, store) := issue hmac_sha256 raw user device now (srv_tickets s) in
  (ticket, with_tickets (λ _, store) s).

(** The sub-room timer at position [i] fires. *)
Definition fire_timer (i : nat) (clks : string → Instant * Z) (a : App B Uuid) : App B Uuid :=
  match expiry_timers a !! i with
  | None => a
  | Some (room_id, e) =>
      let a := mkApp (app_voice a) (app_connections a) (delete i (expiry_timers a)) (pending_shutdown a)
                 (ec2_stops a) in
      let '(res, s) := expire_sub_room room_id (pe_sub_room_id e) (pe_delete_at e) clks
                         (w_rooms (v_world (app_voice a))) in
      let a := set_app_rooms s a in
      match sar_signals res with [] => a | signals => deliver signals room_id a end
  end.

(** The ejection of a banned member from the channel's voice room ([ban_member]). *)
Definition eject_member (channel_id target_user_id : Uuid) (rd : Reads) (now : Instant)
    (clks : string → Instant * Z) (a : App B Uuid) : App B Uuid :=
  match find_user_in_voice channel_id target_user_id (app_voice a) with
  | None => a
  | Some (room_id, pid) =>
      let '(r, v) := eject_banned_user room_id pid channel_id rd (app_voice a) in
      let a := mkApp v (app_connections a) (expiry_timers a) (pending_shutdown a) (ec2_stops a) in
      match r with
      | Err _ => a
      | Ok signals =>
          let '(sub, s) := remove_participant_from_sub_room room_id pid now clks (w_rooms (v_world (app_voice a))) in
          let a := set_app_rooms s a in
          start_timer room_id (sar_expiry sub) (deliver (signals ++ sar_signals sub) room_id a)
      end
  end.

(** [trigger_ec2_stop]; [stopped] is the answer of the instance controller. *)
Definition trigger_ec2_stop (stopped : Result unit string) (st : AppState B Uuid) : AppState B Uuid :=
  if has_ec2_controller cfg then
    match stopped with
    | Err _ => st
    | Ok _ => set_health (Unavailable "EC2 stopped by idle scheduler") st
    end
  else st.

(** The stop request of an emptied server. *)
Definition run_stop (stopped : Result unit string) (st : AppState B Uuid) : AppState B Uuid :=
  match ec2_stops (as_app st) with
  | O => st
  | S n =>
      trigger_ec2_stop stopped (app_do (λ a, mkApp (app_voice a) (app_connections a) (expiry_timers a)
                                               (pending_shutdown a) n) st)
  end.

(** One round of [spawn_shutdown_scheduler]. *)
Definition shutdown_round (stopped : Result unit string) (st : AppState B Uuid) : AppState B Uuid :=
  if negb (has_ec2_controller cfg) then st
  else match sfu_health_status st with
       | Starting _ => st
       | _ =>
           if bool_decide (active_room_count (w_rooms (v_world (app_voice (as_app st)))) = 0)
           then trigger_ec2_stop stopped st
           else app_do (λ a, mkApp (app_voice a) (app_connections a) (expiry_timers a) true (ec2_stops a)) st
       end.

(** [Debug] of [Ec2InstanceState]. *)
Definition Ec2InstanceState_debug (e : Ec2InstanceState) : string :=
  match e with
  | Ec2Running => "Running"
  | Ec2Stopped => "Stopped"
  | Ec2Starting => "Starting"
  | Ec2Stopping => "Stopping"
  | Ec2Other o => "Other(" +:+ str_debug o +:+ ")"
  end.

(** The task of a cold start; [described] and [started] are the controller's answers. *)
Definition cold_start (described : Result Ec2InstanceState string) (started : Result unit string)
    (st : AppState B Uuid) : AppState B Uuid :=
  match described with
  | Ok Ec2Stopped =>
      match started with
      | Err error => set_health (Unavailable ("StartInstances failed: " +:+ error)) st
      | Ok _ => st
      end
  | Ok Ec2Running => st
  | Ok other => set_health (Unavailable ("EC2 in unexpected state: " +:+ Ec2InstanceState_debug other)) st
  | Err error => set_health (Unavailable error) st
  end.

(** One round of [spawn_health_monitor]. *)
Definition health_round (now : Instant) (st : AppState B Uuid) : AppState B Uuid :=
  let w := v_world (app_voice (as_app st)) in
  let '(checked, b) := sfu_health_check (w_bridge w) in
  let st := app_do (set_world (mkWorld (w_rooms w) (w_invites w) b)) st in
  let new_health := match checked with Ok h => h | Err e => Unavailable (SfuError_to_string e) end in
  match sfu_health_status st with
  | Starting since =>
      match new_health with
      | Available => set_health Available st
      | _ => if from_secs 300 <? duration_since now since
             then set_health (Unavailable "EC2 start timed out") st else st
      end
  | _ => set_health new_health st
  end.

(** The renewal of one participant's token. *)
Definition refresh_peer (rf : RefreshReads) (room_id : RoomId) (people : list ParticipantInfo) (p : PeerId)
    (a : App B Uuid) : App B Uuid :=
  let sc := sfu_config cfg in
  let token :=
    if has_signaling_proxy cfg then
      sign_media_token room_id p (sc_jwt_secret sc) (sc_jwt_issuer sc) TOKEN_TTL_SECS (rf_clock rf room_id p)
        (rf_jti rf room_id p)
    else
      let participant := List.find (λ q, bool_decide (participant_id q = p)) people in
      sign_livekit_token room_id (livekit_identity p (participant ≫= user_id)) (default p (display_name <$> participant))
        (default EmptyString (sc_livekit_api_key sc)) (default EmptyString (sc_livekit_api_secret sc))
        LIVEKIT_TOKEN_TTL_SECS in
  match token with
  | Err _ => a
  | Ok token =>
      let a := send p (Msg.MediaToken (mkMediaTokenPayload token (sfu_url cfg))) a in
      set_app_rooms (update_room_info room_id (record_token_issued p (rf_issued rf room_id p))
                       (w_rooms (v_world (app_voice a)))) a
  end.

(** One round of [spawn_token_refresh_monitor]. *)
Definition refresh_round (rf : RefreshReads) (a : App B Uuid) : App B Uuid :=
  let ttl := if has_signaling_proxy cfg then TOKEN_TTL_SECS else LIVEKIT_TOKEN_TTL_SECS in
  foldl (λ a '(room_id, _, peers),
    let people := if has_signaling_proxy cfg then []
                  else match get_room_info room_id (w_rooms (v_world (app_voice a))) with
                       | Some i => participants i
                       | None => []
                       end in
    foldl (λ a p, refresh_peer rf room_id people p a) a peers)
    a (rooms_needing_token_refresh (refresh_threshold_secs ttl) (rf_now rf) (w_rooms (v_world (app_voice a)))).

(** One round of [spawn_invite_sweep]. *)
Definition invite_sweep (now ban_now : Instant) (s : Server) : Server :=
  let s := with_app (λ st,
    let w := v_world (app_voice (as_app st)) in
    let '(_, inv) := sweep_expired now (w_invites w) in
    let st := app_do (set_world (mkWorld (w_rooms w) inv (w_bridge w))) st in
    let '(_, l) := prune_all now (join_rate_limiter st) in set_join_limiter l st) s in
  with_bans (λ l, (TempBan.prune_expired ban_now l).2) s.

(** The tasks the handlers spawned: the one at position [i] runs, with the
    database's answer. *)
Record TaskReads : Type := mkTaskReads {
  tk_described : Result Ec2InstanceState string;
  tk_started : Result unit string;
  tk_stored_at : Result Z string;
  tk_loaded : Result unit string
}.

Definition drop_task (i : nat) (st : AppState B Uuid) : AppState B Uuid :=
  mkAppState (as_app st) (sfu_health_status st) (join_rate_limiter st) (ip_failed_join_tracker st) (abuse_metrics st)
    (global_join_limiter st) (delete i (tasks st)).

(** A turn of the candidate polling: the task ends on an error. *)
Definition poll_ice (i : nat) (handle : SfuRoomHandle) (p : PeerId) (st : AppState B Uuid) : AppState B Uuid :=
  let w := v_world (app_voice (as_app st)) in
  let '(r, b) := poll_sfu_ice_candidates handle p (w_bridge w) in
  let st := app_do (set_world (mkWorld (w_rooms w) (w_invites w) b)) st in
  match r with
  | Ok candidates =>
      foldl (λ st c, app_do (send p (Msg.IceCandidate (mkIceCandidatePayload c))) st) st candidates
  | Err _ => drop_task i st
  end.

Definition history_response (channel_id : option Uuid) (room_id : RoomId) (since : option Z)
    (loaded : Result unit string) (chat : list (StoredMessage Uuid)) : SignalingMessage :=
  match loaded with
  | Ok _ =>
      build_history_response to_rfc3339 (match channel_id with
                                | Some c => fetch_history_by_channel c since 200 chat
                                | None => fetch_history_by_room room_id since 200 chat
                                end)
  | Err _ => error_message "failed to load chat history"
  end.

Definition run_task (i : nat) (tr : TaskReads) (s : Server) : Server :=
  match tasks (srv_app s) !! i with
  | None => s
  | Some (PollIce handle p) => with_app (poll_ice i handle p) s
  | Some ColdStart => with_app (λ st, cold_start (tk_described tr) (tk_started tr) (drop_task i st)) s
  | Some (PersistChat params) =>
      let s := with_app (drop_task i) s in
      match tk_stored_at tr with
      | Ok at_ => with_chat (insert_chat_message params at_) s
      | Err _ => s
      end
  | Some (LoadHistory channel_id room_id since p) =>
      with_app (λ st, app_do (send p (history_response channel_id room_id since (tk_loaded tr) (srv_chat s)))
                        (drop_task i st)) s
  end.

(** ** Events *)

Inductive Event : Type :=
| EvIssueTicket (raw : string) (user device : Uuid) (now : Instant)
| EvUpgrade (rq : UpgradeRequest)
| EvUpgradeFails (i : nat)
| EvConnect (i : nat) (issuer : string) (now chat_now : Instant)
| EvText (p : PeerId) (text : string) (fr : FrameReads) (rd : DispatchReads Uuid) (lr : LeaveReads)
| EvClose (p : PeerId) (lr : LeaveReads)
| EvTimer (i : nat) (clks : string → Instant * Z)
| EvTask (i : nat) (tr : TaskReads)
| EvBan (channel_id user : Uuid) (rd : Reads) (now : Instant) (clks : string → Instant * Z)
| EvHealth (now : Instant)
| EvShutdown (stopped : Result unit string)
| EvStop (stopped : Result unit string)
| EvRefresh (rf : RefreshReads)
| EvInviteSweep (now ban_now : Instant)
| EvTicketSweep (now : Instant).

Definition run_event (e : Event) (s : Server) : Server :=
  match e with
  | EvIssueTicket raw user device now => (issue_ws_ticket raw user device now s).2
  | EvUpgrade rq => (ws_handler rq s).2
  | EvUpgradeFails i => upgrade_fails i s
  | EvConnect i issuer now chat_now => connect i issuer now chat_now s
  | EvText p text fr rd lr => receive p text fr rd lr s
  | EvClose p lr => end_connection p lr s
  | EvTimer i clks => with_app (app_do (fire_timer i clks)) s
  | EvTask i tr => run_task i tr s
  | EvBan c u rd now clks => with_app (app_do (eject_member c u rd now clks)) s
  | EvHealth now => with_app (health_round now) s
  | EvShutdown stopped => with_app (shutdown_round stopped) s
  | EvStop stopped => with_app (run_stop stopped) s
  | EvRefresh rf => with_app (app_do (refresh_round rf)) s
  | EvInviteSweep now ban_now => invite_sweep now ban_now s
  | EvTicketSweep now => with_tickets (λ t, (WsTicket.prune_expired now t).2) s
  end.

(** The server after start-up. *)
Definition server_start (invite_config : InviteStoreConfig) (bridge : B) (health : SfuHealth)
    (joins : JoinRateLimiterConfig) (bans : TempBan.TempBanConfig) (max_per_ip : Z) (pepper : string) : Server :=
  mkServer
    (mkAppState (mkApp (mkVoiceWorld (mkWorld InMemoryRoomState_new (InviteStore_new invite_config) bridge) ∅) ∅ [] false 0)
       health (JoinRateLimiter_new joins) IpFailedJoinTracker_default AbuseMetrics_new
       (GlobalLimiter.fresh (global_join_max_per_sec cfg)) [])
    ∅ [] 1 (GlobalLimiter.fresh (global_ws_max_per_sec edge)) (TempBan.TempBanList_new bans)
    (IpTracker.new max_per_ip) (WsTicketStore_new pepper) [].
End server.
