(* ===== verification/ServerInvariant.v ===== *)
(** * What the server keeps

    The invariant of the whole server over every interleaving of connections,
    messages, timers and background tasks: a peer listed in a room has a live
    connection whose session is in that room, and no frame panics its handler.
    Beside it, the accounting of connections by address, which needs no condition
    on the events. *)

From S2P Require Import Prelude Signaling FieldValidation Invite RoomState ScreenShare Relay SfuBridge Tokens SfuRelay SubRooms Voice RoomInvariant WsSession SlidingWindow JoinLimiter AbuseGuards WsTicket WsLimits Chat Config ClientIp AbuseMetrics AppState Dispatch DispatchSafety DispatchInvariant Server.
Local Open Scope Z_scope.

Section server_invariant.
Context {B : Type} `{SfuRoomManager B, SfuSignalingProxy B}.
Context `{JwtCodec MediaTokenClaims, JwtCodec AuthTokenClaims, LiveKitTokens, Externals}.
Context {Uuid : Type} `{EqDecision Uuid} `{!Countable Uuid} `{UuidText Uuid} `{!UuidTextLaws Uuid}.
Context {IpNet : Type} (contains_ip : IpNet → IpAddr → bool) (hmac_sha256 : string → string → string)
  (str_debug : string → string).
Context (cfg : ServerConfig) (edge : EdgeConfig (IpNet:=IpNet)).

Abbreviation Srv := (Server (B:=B) (Uuid:=Uuid)) (only parsing).
Abbreviation voice_of_app a := (app_voice a) (only parsing).
Abbreviation srv_voice_of s := (app_voice (as_app (srv_app s))) (only parsing).

(** ** The rooms and the connections *)

(** [q] is connected, with a session in [r]. *)
Definition placed (conns : gmap PeerId (LiveConn (Uuid:=Uuid))) (q : PeerId) (r : RoomId) : Prop :=
  ∃ lc ses, conns !! q = Some lc ∧ session (lc_conn lc) = Some ses ∧ ss_room_id ses = r.

(** A connection under the name [p]. *)
Record live_wf (next : Z) (p : PeerId) (lc : LiveConn (Uuid:=Uuid)) : Prop := mk_live_wf {
  live_conn : conn_wf (lc_conn lc);
  live_session ses : session (lc_conn lc) = Some ses → ss_participant_id ses = p ∧ cleanup_complete ses = false;
  live_name : ∃ n, 1 ≤ n < next ∧ p = peer_name n
}.

Record server_wf (s : Srv) : Prop := mk_server_wf {
  server_voice : voice_wf (within (placed (srv_conns s))) (srv_voice_of s);
  server_conns p lc : srv_conns s !! p = Some lc → live_wf (srv_next_peer s) p lc;
  server_next : 1 ≤ srv_next_peer s
}.

(** What an event may count on: peer numbers do not run out, and for a frame that
    parses, the invite code drawn is new and the media tokens can be made. *)
Definition event_ok (s : Srv) (e : Event (Uuid:=Uuid)) : Prop :=
  match e with
  | EvConnect _ _ _ _ => srv_next_peer s + 1 < u64_modulus
  | EvText p text _ rd _ =>
      ∀ lc m, srv_conns s !! p = Some lc → parse_message text = Some m →
        mints cfg (mkConnInfo p (lc_issuer lc) (lc_ip lc) text) rd ∧
        draws_new rd m (mkCtx (srv_app s) (lc_conn lc))
  | _ => True
  end.

Inductive reachable (s0 : Srv) : Srv → Prop :=
| reachable_start : reachable s0 s0
| reachable_step e s : reachable s0 s → event_ok s e →
    reachable s0 (run_event contains_ip hmac_sha256 str_debug cfg edge e s).

(** *** Changes of the shared state alone *)

Lemma server_wf_app (s s' : Srv) :
  srv_conns s' = srv_conns s → srv_next_peer s' = srv_next_peer s →
  (∀ P, (∀ i q, P i → P (delete q i)) → voice_wf P (srv_voice_of s) → voice_wf P (srv_voice_of s')) →
  server_wf s → server_wf s'.
Proof.
  intros Hc Hn Hv [S1 S2 S3]. split; rewrite ?Hc, ?Hn; [|done|done]. apply Hv; [apply within_delete|done].
Qed.

Lemma fire_timer_wf P i clks (a : App B Uuid) :
  (∀ m q, P m → P (delete q m)) → voice_wf P (app_voice a) → voice_wf P (app_voice (fire_timer i clks a)).
Proof.
  intros HP Ha. unfold fire_timer. destruct (expiry_timers a !! i) as [[r e]|]; [|done]. cbv zeta.
  match goal with |- context [expire_sub_room _ _ _ _ (w_rooms (v_world (app_voice ?x)))] => set (a1 := x) end.
  pose proof (voice_wf_rooms P _ a1 HP (quiet_calm _ (quiet_expire_sub r (pe_sub_room_id e) (pe_delete_at e) clks)) Ha) as Hs.
  cbv beta in Hs. destruct (expire_sub_room _ _ _ _ _) as [res s]. by destruct (sar_signals res).
Qed.

Lemma eject_member_wf P c u rd now clks (a : App B Uuid) :
  (∀ m q, P m → P (delete q m)) → voice_wf P (app_voice a) → voice_wf P (app_voice (eject_member c u rd now clks a)).
Proof.
  intros HP Ha. unfold eject_member. destruct (find_user_in_voice _ _ _) as [[r p]|]; [|done].
  pose proof (eject_banned_user_wf P r p c rd HP _ Ha) as He.
  destruct (eject_banned_user _ _ _ _ _) as [[signals|e] v]; [|exact He]. cbn [snd] in He. cbv zeta.
  match goal with |- context [remove_participant_from_sub_room _ _ _ _ (w_rooms (v_world (app_voice ?x)))] => set (a1 := x) end.
  pose proof (voice_wf_rooms P _ a1 HP (quiet_calm _ (quiet_leave_sub r p now clks)) He) as Hs.
  cbv beta in Hs. by destruct (remove_participant_from_sub_room _ _ _ _ _) as [sub s].
Qed.

Lemma refresh_peer_wf P rf r people p (a : App B Uuid) :
  (∀ m q, P m → P (delete q m)) → voice_wf P (app_voice a) →
  voice_wf P (app_voice (refresh_peer cfg rf r people p a)).
Proof.
  intros HP Ha. unfold refresh_peer. cbv zeta. case_match; [|done].
  match goal with |- voice_wf P (app_voice (set_app_rooms _ ?x)) =>
    refine (voice_wf_rooms P (update_room_info r (record_token_issued p (rf_issued rf r p))) x HP _ Ha) end.
  apply quiet_calm, quiet_update; [apply info_safe_token|done].
Qed.

Lemma foldl_keeps {X Y} (I : X → Prop) (f : X → Y → X) l x : (∀ x y, I x → I (f x y)) → I x → I (foldl f x l).
Proof. intros Hf. revert x. induction l as [|y l IH]; intros x Hx; simpl; [done|]. by apply IH, Hf. Qed.

Lemma refresh_round_wf P rf (a : App B Uuid) :
  (∀ m q, P m → P (delete q m)) → voice_wf P (app_voice a) → voice_wf P (app_voice (refresh_round cfg rf a)).
Proof.
  intros HP. unfold refresh_round. apply (foldl_keeps (λ a, voice_wf P (app_voice a))).
  intros a' [[r h] ps]. apply (foldl_keeps (λ a, voice_wf P (app_voice a))). intros a'' p. by apply refresh_peer_wf.
Qed.

Lemma voice_wf_bridge P (b : B) (a : App B Uuid) :
  let w := v_world (app_voice a) in
  voice_wf P (app_voice a) → voice_wf P (app_voice (set_world (mkWorld (w_rooms w) (w_invites w) b) a)).
Proof. intros w [[[W1 W2] W3 W4] Hm]. by split; [split; [split|..]|]. Qed.

Lemma health_round_wf P now (st : AppState B Uuid) :
  voice_wf P (app_voice (as_app st)) → voice_wf P (app_voice (as_app (health_round now st))).
Proof.
  intros Ha. unfold health_round. cbv zeta. destruct (sfu_health_check _) as [checked b].
  pose proof (voice_wf_bridge P b _ Ha) as Hb. by repeat case_match.
Qed.

Lemma poll_ice_wf P i h p (st : AppState B Uuid) :
  voice_wf P (app_voice (as_app st)) → voice_wf P (app_voice (as_app (poll_ice i h p st))).
Proof.
  intros Ha. unfold poll_ice. cbv zeta. destruct (poll_sfu_ice_candidates _ _ _) as [r b].
  pose proof (voice_wf_bridge P b _ Ha) as Hb. destruct r as [cands|]; [|exact Hb].
  by apply (foldl_keeps (λ st, voice_wf P (app_voice (as_app st)))).
Qed.

Lemma cold_start_voice d x (st : AppState B Uuid) : as_app (cold_start str_debug d x st) = as_app st.
Proof. unfold cold_start. by repeat case_match. Qed.

Lemma run_task_wf i tr (s : Srv) : server_wf s → server_wf (run_task str_debug i tr s).
Proof.
  unfold run_task. destruct (tasks (srv_app s) !! i) as [[h p| |params|c r since p]|]; [..|done].
  - apply server_wf_app; [done|done|]. intros P _. apply poll_ice_wf.
  - apply server_wf_app; [done|done|]. intros P _ Ha. cbn. by rewrite cold_start_voice.
  - destruct (tk_stored_at tr); by apply server_wf_app.
  - by apply server_wf_app.
Qed.

Lemma trigger_stop_voice x (st : AppState B Uuid) : as_app (trigger_ec2_stop cfg x st) = as_app st.
Proof. unfold trigger_ec2_stop. by repeat case_match. Qed.
Lemma run_stop_voice x (st : AppState B Uuid) : app_voice (as_app (run_stop cfg x st)) = app_voice (as_app st).
Proof. unfold run_stop. case_match; [done|]. by rewrite trigger_stop_voice. Qed.
Lemma shutdown_voice x (st : AppState B Uuid) : app_voice (as_app (shutdown_round cfg x st)) = app_voice (as_app st).
Proof. unfold shutdown_round. repeat case_match; rewrite ?trigger_stop_voice; done. Qed.

Lemma invite_sweep_wf now ban_now (s : Srv) : server_wf s → server_wf (invite_sweep now ban_now s).
Proof.
  unfold invite_sweep. cbv zeta. apply server_wf_app; [done|done|].
  intros P _ [[[W1 W2] W3 W4] Hm]. pose proof (Invite.run_op_wf (OpSweepExpired now) _ W2 I) as Hsw.
  cbn [Invite.run_op] in Hsw. cbn [srv_app with_bans with_app].
  destruct (sweep_expired now (w_invites (v_world (srv_voice_of s)))) as [n inv]. cbn [snd] in Hsw.
  match goal with |- context [prune_all now ?l] => destruct (prune_all now l) as [k lim] end.
  by split; [split; [split|..]|].
Qed.

(** *** The edge *)

Lemma take_slot_frame ip u (s : Srv) :
  let s' := (take_slot ip u s).2 in
  srv_conns s' = srv_conns s ∧ srv_next_peer s' = srv_next_peer s ∧ srv_voice_of s' = srv_voice_of s.
Proof. unfold take_slot. destruct (IpTracker.try_add ip (srv_ips s)) as [[] ips]; done. Qed.

Lemma ws_handler_frame rq (s : Srv) :
  let s' := (ws_handler contains_ip hmac_sha256 edge rq s).2 in
  srv_conns s' = srv_conns s ∧ srv_next_peer s' = srv_next_peer s ∧ srv_voice_of s' = srv_voice_of s.
Proof.
  unfold ws_handler. cbv zeta. case_match; [done|].
  destruct (GlobalLimiter.allow _ _ _) as [[] cell]; cbn [negb]; [|done].
  case_match; [done|]. case_match; [|done]. case_match; [done|].
  destruct (WsTicket.validate_and_consume _ _ _ _) as [[user|] store]; [|done].
  match goal with |- context [take_slot ?ip ?u ?x] => exact (take_slot_frame ip u x) end.
Qed.

Lemma peer_name_inj n m : peer_name n = peer_name m → n = m.
Proof. unfold peer_name. intros He. by apply (inj (String.append "peer-")), (inj pretty) in He. Qed.

Lemma live_wf_next n n' p lc : n ≤ n' → live_wf n p lc → live_wf n' p lc.
Proof. intros Hn [L1 L2 (k & Hk & ->)]. split; [done|done|]. exists k. split; [lia|done]. Qed.

Lemma connect_wf i issuer now chat_now (s : Srv) :
  srv_next_peer s + 1 < u64_modulus → server_wf s → server_wf (connect edge i issuer now chat_now s).
Proof.
  intros Hn [S1 S2 S3]. unfold connect. destruct (srv_pending s !! i) as [[ip [user device]]|]; [|by split].
  cbv zeta. assert (wrap_u64 (srv_next_peer s + 1) = srv_next_peer s + 1) as Hw.
  { unfold wrap_u64. apply Z.mod_small. lia. }
  split; cbn [srv_app srv_conns srv_next_peer]; rewrite ?Hw; [| |lia].
  - cbn. eapply voice_wf_mono; [|exact S1]. intros idx Hi q r Hq. destruct (Hi q r Hq) as (lc & ses & Hc & Hs).
    exists lc, ses. split; [|done]. rewrite lookup_insert_ne; [done|]. intros <-.
    destruct (S2 _ _ Hc) as [_ _ (n & Hn' & He)]. apply peer_name_inj in He. lia.
  - intros p lc [[<- <-]|[_ Hc]]%lookup_insert_Some.
    + split; [|done|exists (srv_next_peer s); split; [lia|done]]. split; [|done].
      cbn. intros u [= <-]. unfold uuid_text. by rewrite uuid_parse_to_string.
    + eapply live_wf_next; [|by apply S2]. lia.
Qed.

(** *** The end of a connection *)

Lemma remove_peer_index_none p s : peer_to_room (remove_peer p s) !! p = None.
Proof. unfold remove_peer. rewrite peer_to_room_remove_peer_internal. apply lookup_delete_eq. Qed.

Lemma cleanup_artifacts_wf P ses (a : App B Uuid) :
  voice_wf P (app_voice a) → voice_wf P (app_voice (cleanup_room_artifacts ses a)).
Proof.
  intros [[[W1 W2] W3 W4] Hm]. unfold cleanup_room_artifacts. case_match; [done|].
  split; [split; [split; [done|by apply remove_room_wf]|done|done]|]. cbn. case_match; [by apply map_ok_unmap|done].
Qed.

Lemma cleanup_artifacts_rooms ses (a : App B Uuid) :
  w_rooms (v_world (app_voice (cleanup_room_artifacts ses a))) = w_rooms (v_world (app_voice a)).
Proof. unfold cleanup_room_artifacts. by case_match. Qed.

Lemma unjoined_wf P p (a : App B Uuid) :
  (∀ i q, P i → P (delete q i)) → voice_wf P (app_voice a) → voice_wf P (app_voice (cleanup_unjoined_connection p a)).
Proof.
  intros HP Ha. unfold cleanup_unjoined_connection. cbv zeta.
  match goal with |- voice_wf P (app_voice (set_app_rooms _ ?x)) =>
    refine (voice_wf_rooms P (remove_peer p) x HP _ Ha) end.
  apply quiet_calm, quiet_remove_peer_internal.
Qed.

Lemma cleanup_connection_eq p lr ses (a : App B Uuid) :
  cleanup_complete ses = false →
  ∃ ses' a', (a' = a ∨ a' = (leave_room true lr (set_cleanup_complete ses) a).2) ∧
    (cleanup_connection p lr ses a).2 = cleanup_room_artifacts ses' (cleanup_unjoined_connection p a').
Proof.
  intros Hc. unfold cleanup_connection. rewrite Hc. destruct (leave_handled (set_cleanup_complete ses)).
  - eexists _, a. by split; [left|].
  - destruct (leave_room true lr (set_cleanup_complete ses) a) as [ses' a'] eqn:El.
    exists ses', a'. split; [by right|done].
Qed.

Lemma cleanup_connection_wf P p lr ses (a : App B Uuid) :
  (∀ i q, P i → P (delete q i)) → cleanup_complete ses = false → voice_wf P (app_voice a) →
  let a' := (cleanup_connection p lr ses a).2 in
  voice_wf P (app_voice a') ∧ peer_to_room (w_rooms (v_world (app_voice a'))) !! p = None.
Proof.
  intros HP Hc Ha. cbv zeta. destruct (cleanup_connection_eq p lr ses a Hc) as (ses' & a' & Ha' & ->).
  rewrite cleanup_artifacts_rooms. split; [|apply remove_peer_index_none].
  apply cleanup_artifacts_wf, unjoined_wf; [done|]. destruct Ha' as [->| ->]; [done|by apply leave_room_wf].
Qed.

(** A peer that left the index has left the rooms. *)
Lemma within_absent p (conns : gmap PeerId (LiveConn (Uuid:=Uuid))) idx :
  idx !! p = None → within (placed conns) idx → within (placed (delete p conns)) idx.
Proof.
  intros Hp Hi q r Hq. destruct (Hi q r Hq) as (lc & ses & Hc & Hs). exists lc, ses. split; [|done].
  rewrite lookup_delete_ne; [done|]. intros ->. congruence.
Qed.

Lemma voice_wf_index (P Q : gmap PeerId RoomId → Prop) (v : VoiceWorld B Uuid) :
  voice_wf P v → (P (peer_to_room (w_rooms (v_world v))) → Q (peer_to_room (w_rooms (v_world v)))) → voice_wf Q v.
Proof. intros [[W1 W2 W3] Hm] HQ. split; [split; [done|done|by apply HQ]|done]. Qed.

Lemma end_connection_wf p lr (s : Srv) : server_wf s → server_wf (end_connection p lr s).
Proof.
  intros [S1 S2 S3]. unfold end_connection. destruct (srv_conns s !! p) as [lc|] eqn:Ec; [|by split].
  split; cbn [srv_app srv_conns srv_next_peer with_ips with_conns with_app]; [| |done].
  2: { intros q lc' [_ Hq]%lookup_delete_Some. by apply S2. }
  cbn. destruct (session (lc_conn lc)) as [ses|] eqn:Es.
  - destruct (live_session _ _ _ (S2 p lc Ec) ses Es) as [_ Hcl].
    destruct (cleanup_connection_wf _ p lr ses _ (within_delete _) Hcl S1) as [Hv Hnone].
    eapply voice_wf_index; [exact Hv|]. by apply within_absent.
  - eapply voice_wf_index; [apply unjoined_wf; [apply within_delete|exact S1]|].
    apply within_absent, remove_peer_index_none.
Qed.
(** *** A text frame *)

(** What the two invariants of a connection look at. *)
Definition same_conn (c c' : Ctx B Uuid) : Prop :=
  view c' = view c ∧ authenticated_user_id (cx_conn c') = authenticated_user_id (cx_conn c).

Lemma same_conn_wf c c' : same_conn c c' → conn_wf (cx_conn c) → conn_wf (cx_conn c').
Proof. intros [[= _ Hs] Ha] [C1 C2]. split; rewrite ?Ha, ?Hs; done. Qed.

Definition frame_ok (me : ConnInfo) (who : PeerId → RoomId → Prop) (c : Ctx B Uuid) : Prop :=
  conn_wf (cx_conn c) ∧ ctx_wf me who c.
Lemma frame_ok_same me who c c' : same_conn c c' → frame_ok me who c → frame_ok me who c'.
Proof. intros Hs [F1 F2]. split; [by eapply same_conn_wf|]. by eapply view_wf; [apply Hs|]. Qed.

Lemma run_dispatch_ok me who rd m c :
  (∀ r, ¬ who (peer_id me) r) → mints cfg me rd → draws_new rd m c →
  validate_state_transition m (bool_decide (is_Some (session (cx_conn c))))
    (bool_decide (is_Some (authenticated_user_id (cx_conn c)))) = Ok tt →
  frame_ok me who c → is_Some (run_dispatch cfg me rd m c).1 ∧ frame_ok me who (run_dispatch cfg me rd m c).2.
Proof.
  intros Hwho Hmint Hdraw Hg [F1 F2]. destruct (dispatch_safe cfg me rd m _ c (within_delete _) (ctx_voice _ _ _ F2) F1 Hg) as [Hp Hc].
  assert (ctx_wf me who (dispatch_message cfg me rd m c).2) as Hk.
  { apply dispatch_keeps; [done|done|done| |done]. intros p ->. apply gate_exact in Hg as [Hs _].
    apply bool_decide_eq_false in Hs. destruct (session (cx_conn c)); [by destruct Hs|done]. }
  unfold run_dispatch, frame_ok. destruct (dispatch_message cfg me rd m c) as [[o|[o|]] c']; naive_solver.
Qed.

Lemma receive_text_ok me who fr rd bans c :
  (∀ r, ¬ who (peer_id me) r) →
  (∀ m, parse_message (raw_text me) = Some m → mints cfg me rd ∧ draws_new rd m c) →
  frame_ok me who c →
  let r := receive_text cfg edge me fr rd bans c in is_Some r.1.1 ∧ frame_ok me who r.2.
Proof.
  intros Hwho Hm Hc. unfold receive_text. cbv zeta. case_match; [split; [done|by eapply frame_ok_same; [|exact Hc]]|].
  destruct (allow _ _) as [[] l]; cbn [negb]; [|split; [done|by eapply frame_ok_same; [|exact Hc]]].
  destruct (burst_allow _ _) as [[] l']; cbn [negb]; [|split; [done|by eapply frame_ok_same; [|exact Hc]]].
  match goal with |- context [run_dispatch cfg me rd _ ?x] => set (c1 := x) end.
  assert (same_conn c c1) as H1c by done. pose proof (frame_ok_same _ _ _ _ H1c Hc) as Hc1.
  assert (∀ m, parse_message (raw_text me) = Some m → mints cfg me rd ∧ draws_new rd m c1) as Hm1.
  { intros m Hp. destruct (Hm m Hp) as [Hmint Hd]. split; [done|]. exact Hd. }
  clearbody c1. clear Hm Hc H1c l l' c.
  case_match; [by split|]. destruct (parse_message (raw_text me)) as [m|]; [|by split; [|eapply frame_ok_same; [|exact Hc1]]].
  destruct (validate_field_lengths m); [|by split; [|eapply frame_ok_same; [|exact Hc1]]].
  destruct (validate_state_transition m _ _) as [[]|] eqn:Eg; [|by split; [|eapply frame_ok_same; [|exact Hc1]]].
  destruct (Hm1 m eq_refl) as [Hmint Hd].
  pose proof (run_dispatch_ok me who rd m c1 Hwho Hmint Hd Eg Hc1) as Hr.
  by destruct (run_dispatch cfg me rd m c1) as [o c2].
Qed.

(** That a frame does not panic needs neither tokens nor fresh codes. *)
Lemma receive_text_some me who fr rd bans c :
  frame_ok me who c → is_Some (receive_text cfg edge me fr rd bans c).1.1.
Proof.
  intros Hc. unfold receive_text. cbv zeta. case_match; [done|].
  destruct (allow _ _) as [[] l]; cbn [negb]; [|done]. destruct (burst_allow _ _) as [[] l']; cbn [negb]; [|done].
  match goal with |- context [run_dispatch cfg me rd _ ?x] => set (c1 := x) end.
  assert (frame_ok me who c1) as [F1 F2] by (by eapply frame_ok_same; [|exact Hc]). clearbody c1. clear Hc l l' c.
  case_match; [done|]. destruct (parse_message (raw_text me)) as [m|]; [|done].
  destruct (validate_field_lengths m); [|done]. destruct (validate_state_transition m _ _) as [[]|] eqn:Eg; [|done].
  destruct (dispatch_safe cfg me rd m _ c1 (within_delete _) (ctx_voice _ _ _ F2) F1 Eg) as [Hp _].
  unfold run_dispatch. destruct (dispatch_message cfg me rd m c1) as [[o|[o|]] c']; simpl in *; by eauto.
Qed.

(** The other connections' places. *)
Definition elsewhere (p : PeerId) (conns : gmap PeerId (LiveConn (Uuid:=Uuid))) (q : PeerId) (r : RoomId) : Prop :=
  q ≠ p ∧ placed conns q r.

Lemma frame_start p text lc (s : Srv) :
  server_wf s → srv_conns s !! p = Some lc →
  frame_ok (mkConnInfo p (lc_issuer lc) (lc_ip lc) text) (elsewhere p (srv_conns s)) (mkCtx (srv_app s) (lc_conn lc)).
Proof.
  intros [S1 S2 S3] Hc. destruct (S2 p lc Hc) as [L1 L2 _]. split; [done|]. split; [|exact L2].
  eapply voice_wf_mono; [|exact S1]. intros i Hi q r Hq. destruct (Hi q r Hq) as (lc' & ses & Hc' & Hs & Hr).
  destruct (decide (q = p)) as [->|Hne].
  - right. exists ses. rewrite Hc in Hc'. by simplify_eq.
  - left. split; [done|]. by exists lc', ses.
Qed.

Lemma receive_text_never_panics p text fr rd lr lc (s : Srv) :
  server_wf s → event_ok s (EvText p text fr rd lr) → srv_conns s !! p = Some lc →
  let me := mkConnInfo p (lc_issuer lc) (lc_ip lc) text in
  let r := receive_text cfg edge me fr rd (srv_bans s) (mkCtx (srv_app s) (lc_conn lc)) in
  is_Some r.1.1 ∧ frame_ok me (elsewhere p (srv_conns s)) r.2.
Proof.
  intros Hs He Hc. apply receive_text_ok.
  - intros r [Hne _]. by apply Hne.
  - intros m Hp. by apply He.
  - by apply frame_start.
Qed.

Lemma receive_wf p text fr rd lr (s : Srv) :
  server_wf s → event_ok s (EvText p text fr rd lr) → server_wf (receive cfg edge p text fr rd lr s).
Proof.
  intros Hs He. unfold receive. destruct (srv_conns s !! p) as [lc|] eqn:Hc; [|done].
  destruct (receive_text_never_panics p text fr rd lr lc s Hs He Hc) as [Ho [F1 [F2 F3]]].
  destruct (receive_text _ _ _ _ _ _ _) as [[o bans] c]. cbn [fst snd] in *. cbv zeta.
  match goal with |- server_wf (match o with _ => _ end) => idtac end.
  assert (∀ bans', server_wf (with_conns <[p:=mkLiveConn (cx_conn c) (lc_issuer lc) (lc_ip lc)]>
            (with_app (λ _, cx_state c) (with_bans (λ _, bans') s)))) as Hw.
  { intros bans'. destruct Hs as [S1 S2 S3]. split; cbn [srv_app srv_conns srv_next_peer with_conns with_app with_bans]; [| |done].
    - eapply voice_wf_mono; [|exact F2]. intros i Hi q r Hq. destruct (Hi q r Hq) as [[Hne (lc' & ses & Hx)]|(ses & Hx & -> & ->)].
      + exists lc', ses. by rewrite lookup_insert_ne.
      + eexists _, ses. by rewrite lookup_insert_eq.
    - intros q lc' [[<- <-]|[_ Hq]]%lookup_insert_Some; [|by apply S2]. split; [done|exact F3|by eapply live_name, S2]. }
  destruct Ho as [[] ->]; [apply Hw|apply end_connection_wf, Hw].
Qed.

Lemma run_event_wf e (s : Srv) :
  server_wf s → event_ok s e → server_wf (run_event contains_ip hmac_sha256 str_debug cfg edge e s).
Proof.
  intros Hs He. destruct e; cbn [run_event].
  - by apply (server_wf_app s).
  - destruct (ws_handler_frame rq s) as (F1 & F2 & F3). apply (server_wf_app s); [done|done| |done]. intros P _. by rewrite F3.
  - by apply (server_wf_app s).
  - by apply connect_wf.
  - by apply receive_wf.
  - by apply end_connection_wf.
  - apply (server_wf_app s); [done|done| |done]. intros P HP. by apply fire_timer_wf.
  - by apply run_task_wf.
  - apply (server_wf_app s); [done|done| |done]. intros P HP. by apply eject_member_wf.
  - apply (server_wf_app s); [done|done| |done]. intros P HP. by apply health_round_wf.
  - apply (server_wf_app s); [done|done| |done]. intros P HP. cbn. by rewrite shutdown_voice.
  - apply (server_wf_app s); [done|done| |done]. intros P HP. cbn. by rewrite run_stop_voice.
  - apply (server_wf_app s); [done|done| |done]. intros P HP. by apply refresh_round_wf.
  - by apply invite_sweep_wf.
  - by apply (server_wf_app s).
Qed.

Lemma reachable_wf (s0 s : Srv) : server_wf s0 → reachable s0 s → server_wf s.
Proof. intros H0' Hr. induction Hr; [done|by apply run_event_wf]. Qed.

(** *** From the start *)

Context (invite_cfg : InviteStoreConfig) (bridge : B) (health : SfuHealth) (joins : JoinRateLimiterConfig)
  (ban_cfg : TempBan.TempBanConfig) (max_per_ip : Z) (pepper : string).
Definition start : Srv := server_start cfg edge invite_cfg bridge health joins ban_cfg max_per_ip pepper.

Lemma lookup_empty_rooms r ps : plist r InMemoryRoomState_new = Some ps → False.
Proof. unfold plist, get_room_info. cbn [rooms InMemoryRoomState_new]. by rewrite lookup_empty. Qed.

Lemma start_wf :
  0 ≤ max_invites_global invite_cfg → 0 ≤ max_invites_per_room invite_cfg → server_wf start.
Proof.
  intros Hg Hr. split; [|done|done]. split; [split; [split|..]|].
  - apply rooms_ok_new.
  - by apply InviteStore_new_wf.
  - by intros r ps u ?%lookup_empty_rooms.
  - intros q r Hq. by destruct (lookup_empty_Some (M:=gmap PeerId) q r).
  - intros c r Hc. by destruct (lookup_empty_Some (M:=gmap Uuid) c r).
Qed.


(** C2: No frame a client can send panics its handler, which runs in one piece, in
    any state the server can reach: every [unwrap] and [expect] on a value behind the receive loop finds one,
    whatever the text, the clocks, the random draws, the media server and the
    database answer, and whether or not the tokens the frame asks for can be
    signed.  The [expect]s are those on the connection's user and session, on the
    user's UUID and on ROOM 1 of the sub-rooms a voice join enters; the [unwrap]s of
    [add_peer] are accounted for apart, by a lemma of the room table; those that
    only fail on a lock poisoned by an earlier panic are not modelled.  The states
    are those of the previous property: reached while the tokens of earlier frames
    could be signed, the codes they drew were new and peer numbers stayed below
    2^64. *)
Theorem no_frame_panics s p text fr rd lc :
  0 ≤ max_invites_global invite_cfg → 0 ≤ max_invites_per_room invite_cfg → reachable start s →
  srv_conns s !! p = Some lc →
  is_Some (receive_text cfg edge (mkConnInfo p (lc_issuer lc) (lc_ip lc) text) fr rd (srv_bans s)
             (mkCtx (srv_app s) (lc_conn lc))).1.1.
Proof.
  intros Hg Hr Hs Hc. pose proof (reachable_wf _ _ (start_wf Hg Hr) Hs) as Hwf.
  by eapply receive_text_some, frame_start.
Qed.

(** ** Connections by address *)

Definition live_at (ip : IpAddr) (conns : gmap PeerId (LiveConn (Uuid:=Uuid))) : Z :=
  map_len (filter (λ kv, lc_ip kv.2 = ip) conns).
Definition pending_at (ip : IpAddr) (l : list (IpAddr * (Uuid * Uuid))) : Z := len (filter (λ x, x.1 = ip) l).

(** Every connection and every upgrade under way is counted, within the cap. *)
Definition counted (s : Srv) : Prop :=
  IpTracker.max_per_ip (srv_ips s) = max_per_ip ∧
  ∀ ip, live_at ip (srv_conns s) + pending_at ip (srv_pending s) ≤ IpTracker.count ip (srv_ips s) ≤ max_per_ip.

Lemma count_try_add ip ip' (t : IpTracker.IpConnectionTracker IpAddr) :
  let '(ok, t') := IpTracker.try_add ip t in
  IpTracker.count ip' t' = IpTracker.count ip' t + (if decide (ok = true ∧ ip' = ip) then 1 else 0) ∧
  IpTracker.max_per_ip t' = IpTracker.max_per_ip t ∧ (ok = true → IpTracker.count ip t < IpTracker.max_per_ip t).
Proof.
  unfold IpTracker.try_add, IpTracker.count. case_bool_decide; cbn [IpTracker.connections IpTracker.max_per_ip];
    (split_and!; [|done|done]); rewrite lookup_insert; case_decide; case_decide; naive_solver lia.
Qed.

Lemma count_remove ip ip' (t : IpTracker.IpConnectionTracker IpAddr) :
  1 ≤ IpTracker.count ip t →
  IpTracker.count ip' (IpTracker.remove ip t) = IpTracker.count ip' t - (if decide (ip' = ip) then 1 else 0) ∧
  IpTracker.max_per_ip (IpTracker.remove ip t) = IpTracker.max_per_ip t.
Proof.
  unfold IpTracker.remove, IpTracker.count. destruct (IpTracker.connections t !! ip) as [c|] eqn:Ec; cbn; [|lia].
  intros Hc. split; [|done]. case_bool_decide.
  - rewrite lookup_delete. case_decide; case_decide; subst; rewrite ?Ec; cbn; try done; lia.
  - rewrite lookup_insert. case_decide; case_decide; subst; rewrite ?Ec; cbn; try done; lia.
Qed.

Lemma live_at_insert_new ip p lc conns :
  live_at ip (<[p := lc]> conns) ≤ live_at ip conns + (if decide (ip = lc_ip lc) then 1 else 0).
Proof.
  unfold live_at. case_decide as Hd.
  - rewrite map_filter_insert_True by done. rewrite map_size_insert. destruct (filter _ conns !! p); unfold id; lia.
  - rewrite map_filter_insert_False by (cbn; congruence). rewrite map_filter_delete, map_size_delete. destruct (filter _ conns !! p); unfold id; lia.
Qed.
Lemma live_at_insert_same ip p lc lc' conns :
  conns !! p = Some lc → lc_ip lc' = lc_ip lc → live_at ip (<[p := lc']> conns) = live_at ip conns.
Proof.
  intros Hp Hip. unfold live_at. destruct (decide (lc_ip lc = ip)) as [Hd|Hd].
  - rewrite map_filter_insert_True by (cbn; congruence). rewrite map_size_insert_Some; [done|].
    exists lc. by apply map_lookup_filter_Some.
  - rewrite map_filter_insert_False by (cbn; congruence). rewrite map_filter_delete, map_size_delete_None; [done|].
    apply map_lookup_filter_None. right. intros x Hx. rewrite Hp in Hx. by simplify_eq.
Qed.
Lemma live_at_delete ip p lc conns :
  conns !! p = Some lc →
  live_at ip (delete p conns) = live_at ip conns - (if decide (ip = lc_ip lc) then 1 else 0).
Proof.
  intros Hp. unfold live_at. rewrite map_filter_delete. case_decide as Hd.
  - rewrite map_size_delete_Some by (exists lc; by apply map_lookup_filter_Some).
    assert (size (filter (λ kv, lc_ip kv.2 = ip) conns) ≠ 0%nat); [|lia].
    apply map_size_ne_0_lookup. exists p, lc. by apply map_lookup_filter_Some.
  - rewrite map_size_delete_None; [lia|]. apply map_lookup_filter_None. right. intros x Hx.
    rewrite Hp in Hx. simplify_eq. cbn. congruence.
Qed.
Lemma live_at_pos ip p lc conns : conns !! p = Some lc → lc_ip lc = ip → 1 ≤ live_at ip conns.
Proof.
  intros Hp Hi. unfold live_at. assert (size (filter (λ kv, lc_ip kv.2 = ip) conns) ≠ 0%nat); [|lia].
  apply map_size_ne_0_lookup. exists p, lc. by apply map_lookup_filter_Some.
Qed.

Lemma pending_at_app ip x l :
  pending_at ip (l ++ [x]) = pending_at ip l + (if decide (ip = x.1) then 1 else 0).
Proof.
  unfold pending_at. rewrite filter_app, length_app, Nat2Z.inj_add. f_equal.
  rewrite filter_cons, filter_nil. case_decide; case_decide; try done; congruence.
Qed.
Lemma pending_at_delete ip i x l :
  l !! i = Some x → pending_at ip (delete i l) = pending_at ip l - (if decide (ip = x.1) then 1 else 0).
Proof.
  intros Hx. unfold pending_at. rewrite (delete_Permutation l i x Hx) at 2. rewrite filter_cons.
  case_decide; case_decide; try congruence; simpl; lia.
Qed.
Lemma pending_at_nonneg ip l : 0 ≤ pending_at ip l.
Proof. unfold pending_at. lia. Qed.
Lemma live_at_nonneg ip conns : 0 ≤ live_at ip conns.
Proof. unfold live_at. lia. Qed.

Lemma counted_same (s s' : Srv) :
  srv_conns s' = srv_conns s → srv_pending s' = srv_pending s → srv_ips s' = srv_ips s → counted s → counted s'.
Proof. unfold counted. by intros -> -> ->. Qed.

Lemma take_slot_counted ip u (s : Srv) : counted s → counted (take_slot ip u s).2.
Proof.
  intros [C1 C2]. unfold take_slot. pose proof (λ ip', count_try_add ip ip' (srv_ips s)) as Ht.
  destruct (IpTracker.try_add ip (srv_ips s)) as [ok t]. destruct (Ht ip) as (_ & Hmax & Hok).
  destruct ok; cbn [negb]; split; cbn; try congruence; intros ip'; destruct (Ht ip') as [-> _]; specialize (C2 ip').
  - rewrite pending_at_app. cbn [fst]. specialize (Hok eq_refl). rewrite C1 in Hok.
    destruct (decide (ip' = ip)) as [->|Hne]; [rewrite decide_True by done|rewrite decide_False by tauto]; lia.
  - rewrite decide_False by naive_solver. lia.
Qed.

Lemma ws_handler_counted rq (s : Srv) : counted s → counted (ws_handler contains_ip hmac_sha256 edge rq s).2.
Proof.
  intros Hs. unfold ws_handler. cbv zeta. case_match; [done|].
  destruct (GlobalLimiter.allow _ _ _) as [[] cell]; cbn [negb]; [|done].
  case_match; [done|]. case_match; [|done]. case_match; [done|].
  destruct (WsTicket.validate_and_consume _ _ _ _) as [[user|] store]; [|done]. by apply take_slot_counted.
Qed.

Lemma upgrade_fails_counted i (s : Srv) : counted s → counted (upgrade_fails i s).
Proof.
  intros [C1 C2]. split; [done|]. intros ip. specialize (C2 ip). cbn.
  destruct (srv_pending s !! i) as [x|] eqn:Ei.
  - rewrite (pending_at_delete ip i x) by done. case_decide; lia.
  - apply lookup_ge_None in Ei. by rewrite delete_take_drop, take_ge, drop_ge, app_nil_r by lia.
Qed.

Lemma connect_counted i issuer now chat_now (s : Srv) : counted s → counted (connect edge i issuer now chat_now s).
Proof.
  intros [C1 C2]. unfold connect. destruct (srv_pending s !! i) as [[ip [user device]]|] eqn:Ei; [|by split].
  split; [done|]. intros ip'. specialize (C2 ip'). cbn.
  rewrite (pending_at_delete ip' i (ip, (user, device))) by done. cbn [fst].
  match goal with |- context [live_at ip' (<[?p := ?lc]> ?c)] => pose proof (live_at_insert_new ip' p lc c) as Hi end.
  cbn [lc_ip] in Hi. lia.
Qed.

(** Closing a connection releases its slot. *)
Lemma release_counted p lc (s s' : Srv) :
  srv_conns s !! p = Some lc → srv_conns s' = delete p (srv_conns s) → srv_pending s' = srv_pending s →
  srv_ips s' = IpTracker.remove (lc_ip lc) (srv_ips s) → counted s → counted s'.
Proof.
  intros Hp Hc Hpend Hips [C1 C2]. unfold counted. rewrite Hc, Hpend, Hips.
  assert (1 ≤ IpTracker.count (lc_ip lc) (srv_ips s)) as Hpos.
  { pose proof (live_at_pos (lc_ip lc) p lc _ Hp eq_refl). pose proof (pending_at_nonneg (lc_ip lc) (srv_pending s)).
    specialize (C2 (lc_ip lc)). lia. }
  split; [by rewrite (proj2 (count_remove (lc_ip lc) (lc_ip lc) _ Hpos))|]. intros ip.
  rewrite (proj1 (count_remove (lc_ip lc) ip _ Hpos)), (live_at_delete ip p lc) by done.
  pose proof (live_at_nonneg ip (delete p (srv_conns s))). specialize (C2 ip). case_decide; lia.
Qed.

Lemma end_connection_counted p lr (s : Srv) : counted s → counted (end_connection p lr s).
Proof.
  unfold end_connection. destruct (srv_conns s !! p) as [lc|] eqn:Hc; [|done]. by apply (release_counted p lc).
Qed.
Lemma unwind_counted p (s : Srv) : counted s → counted (unwind_connection p s).
Proof.
  unfold unwind_connection. destruct (srv_conns s !! p) as [lc|] eqn:Hc; [|done]. by apply (release_counted p lc).
Qed.

Lemma receive_counted p text fr rd lr (s : Srv) : counted s → counted (receive cfg edge p text fr rd lr s).
Proof.
  intros Hs. unfold receive. destruct (srv_conns s !! p) as [lc|] eqn:Hc; [|done].
  destruct (receive_text _ _ _ _ _ _ _) as [[o bans] c]. cbv zeta.
  match goal with |- context [end_connection p lr ?x] => assert (counted x) as Hx end.
  { destruct Hs as [C1 C2]. split; [done|]. intros ip. cbn. by rewrite (live_at_insert_same ip p lc). }
  destruct o as [[]|]; [done|by apply end_connection_counted|by apply unwind_counted].
Qed.

Lemma run_task_frame i tr (s : Srv) :
  srv_conns (run_task str_debug i tr s) = srv_conns s ∧ srv_pending (run_task str_debug i tr s) = srv_pending s ∧
  srv_ips (run_task str_debug i tr s) = srv_ips s.
Proof. unfold run_task. by repeat case_match. Qed.

Lemma run_event_counted e (s : Srv) : counted s → counted (run_event contains_ip hmac_sha256 str_debug cfg edge e s).
Proof.
  intros Hs. destruct e; cbn [run_event]; try (by apply (counted_same s)).
  - by apply ws_handler_counted.
  - by apply upgrade_fails_counted.
  - by apply connect_counted.
  - by apply receive_counted.
  - by apply end_connection_counted.
  - destruct (run_task_frame i tr s) as (? & ? & ?). by apply (counted_same s).
Qed.

(** C25: Over any sequence of events, the connections from one address, with the
    upgrades under way, never exceed the cap. *)
Theorem connections_capped_per_ip events ip :
  0 ≤ max_per_ip →
  let s := foldl (λ s e, run_event contains_ip hmac_sha256 str_debug cfg edge e s) start events in
  live_at ip (srv_conns s) + pending_at ip (srv_pending s) ≤ max_per_ip.
Proof.
  intros Hm s. assert (counted s) as [_ Hc].
  { apply foldl_keeps; [intros x e; apply run_event_counted|]. split; [done|]. intros ip'.
    unfold live_at, pending_at, IpTracker.count. cbn [start server_start srv_conns srv_pending srv_ips IpTracker.new IpTracker.connections].
    rewrite lookup_empty, map_filter_empty, map_size_empty, filter_nil. cbn. lia. }
  specialize (Hc ip). lia.
Qed.
End server_invariant.
