(* ===== verification/ServerRules.v ===== *)
(** * Progress of the server, and an example run

    A cold start of the media server is bounded in time; an upgrade that the client
    abandons is never uncounted.  The example server runs with the mock media
    server; the theorems of ServerInvariant.v and DispatchRules.v are applied to it. *)

From S2P Require Import Prelude Floats Signaling FieldValidation Invite RoomState ScreenShare Relay SfuBridge Tokens SfuRelay SubRooms Voice RoomInvariant WsSession SlidingWindow JoinLimiter AbuseGuards WsTicket WsLimits Chat Config ClientIp AbuseMetrics AppState Dispatch DispatchSafety DispatchInvariant DispatchRules Server ServerInvariant.
Local Open Scope Z_scope.
Local Open Scope prog_scope.

Section progress.
Context {B : Type} `{SfuRoomManager B, SfuSignalingProxy B}.
Context `{JwtCodec MediaTokenClaims, JwtCodec AuthTokenClaims, LiveKitTokens, Externals}.
Context {Uuid : Type} `{EqDecision Uuid} `{!Countable Uuid} `{UuidText Uuid}.
Context {IpNet : Type} (contains_ip : IpNet → IpAddr → bool) (hmac_sha256 : string → string → string)
  (str_debug : string → string).
Context (cfg : ServerConfig) (edge : EdgeConfig (IpNet:=IpNet)).

Abbreviation Srv := (Server (B:=B) (Uuid:=Uuid)) (only parsing).
Abbreviation Act A := (M (Ctx B Uuid) Exit A) (only parsing).
Abbreviation health_of s := (sfu_health_status (srv_app s)) (only parsing).

(** ** Cold starts *)

Section starting.
Context (since : Instant).
Definition is_starting (c : Ctx B Uuid) : Prop := sfu_health_status (cx_state c) = Starting since.

Lemma starting_state {A} (f : Ctx B Uuid → A * Ctx B Uuid) :
  (∀ c, sfu_health_status (cx_state (f c).2) = sfu_health_status (cx_state c)) → preserves is_starting (state f : Act A).
Proof. intros Hf. apply preserves_state. intros c. unfold is_starting. by rewrite Hf. Qed.
Lemma starting_on_rooms {A} (f : InMemoryRoomState → A * InMemoryRoomState) : preserves is_starting (on_rooms f : Act A).
Proof. apply starting_state. intros c. by destruct (f _). Qed.
Lemma starting_on_world {E A} (m : M (World B) E A) : preserves is_starting (on_world_ m : Act _).
Proof. apply starting_state. intros c. by destruct (m _). Qed.
Lemma starting_on_voice {E A} (m : M (VoiceWorld B Uuid) E A) : preserves is_starting (on_voice m : Act _).
Proof. apply starting_state. intros c. by destruct (m _). Qed.
Lemma starting_on_invites {A} (f : InviteStore → A * InviteStore) : preserves is_starting (on_invites f : Act A).
Proof. apply starting_state. intros c. cbv zeta. by destruct (f _). Qed.
Lemma starting_on_proxy {A} (f : B → A * B) : preserves is_starting (on_proxy f : Act A).
Proof. apply starting_state. intros c. cbv zeta. by destruct (f _). Qed.
Lemma starting_unwrap {A} (o : option A) : preserves is_starting (unwrap o : Act A).
Proof. destruct o; [apply preserves_mret|apply preserves_throw]. Qed.
Lemma starting_stop {A} : preserves is_starting (stop : Act A).
Proof. apply preserves_throw. Qed.

(** Steps that read or write something else. *)
Ltac solve_starting :=
  repeat lazymatch goal with
    | |- preserves _ (mbind_ _ _) => apply preserves_bind
    | |- preserves _ (when _ _) => apply preserves_when
    | |- preserves _ (mret _) => apply preserves_mret
    | |- preserves _ (gets _) => apply preserves_gets
    | |- preserves _ (unwrap _) => apply starting_unwrap
    | |- preserves _ stop => apply starting_stop
    | |- preserves _ (throw _) => apply preserves_throw
    | |- preserves _ (on_rooms _) => apply starting_on_rooms
    | |- preserves _ (on_world_ _) => apply starting_on_world
    | |- preserves _ (on_voice _) => apply starting_on_voice
    | |- preserves _ (on_invites _) => apply starting_on_invites
    | |- preserves _ (on_proxy _) => apply starting_on_proxy
    | |- preserves _ (modify _) => apply preserves_modify; intros ?; unfold is_starting; cbv beta; by repeat case_match
    | |- preserves _ (state (λ c, let '(_, _) := ?f in _)) => apply starting_state; intros ?; by case_match
    | |- preserves _ (state _) => apply starting_state; intros ?; cbv beta zeta; by repeat case_match
    | |- preserves _ (if _ then _ else _) => case_match
    | |- preserves _ (match _ with _ => _ end) => case_match
    | |- preserves _ ?m => unfold_head m
    | |- ∀ _, _ => intro
    end.

Lemma starting_cold cfg' me rd : preserves is_starting (cold_start_response cfg' me rd : Act _).
Proof.
  intros c Hc. unfold cold_start_response, mbind_ at 1, gets. rewrite Hc. exact Hc.
Qed.

Lemma starting_dispatch me rd m : preserves is_starting (dispatch_message cfg me rd m : Act _).
Proof.
  destruct m; cbn [dispatch_message]; try solve [solve_starting].
  unfold dispatch_join_voice. apply preserves_bind; [apply preserves_gets|intros user].
  apply preserves_bind; [apply starting_unwrap|intros u]. apply preserves_bind; [apply starting_unwrap|intros uid].
  apply preserves_bind; [apply starting_cold|]. solve_starting.
Qed.

Lemma starting_receive me fr rd bans c :
  is_starting c → is_starting (receive_text cfg edge me fr rd bans c).2.
Proof.
  intros Hc. unfold receive_text. cbv zeta. case_match; [done|].
  destruct (allow _ _) as [[] l]; cbn [negb]; [|done]. destruct (burst_allow _ _) as [[] l']; cbn [negb]; [|done].
  case_match; [done|]. destruct (parse_message (raw_text me)) as [m|]; [|done].
  destruct (validate_field_lengths m); [|done]. destruct (validate_state_transition m _ _); [|done].
  match goal with |- context [run_dispatch cfg me rd m ?x] => pose proof (starting_dispatch me rd m x Hc) as Hd;
    unfold run_dispatch; destruct (dispatch_message cfg me rd m x) as [[o|[o|]] c'] end; exact Hd.
Qed.

Lemma starting_end p lr (s : Srv) : health_of (end_connection p lr s) = health_of s.
Proof. unfold end_connection. by case_match. Qed.

Lemma receive_starting p text fr rd lr (s : Srv) :
  health_of s = Starting since → health_of (receive cfg edge p text fr rd lr s) = Starting since.
Proof.
  intros Hs. unfold receive. destruct (srv_conns s !! p) as [lc|]; [|done].
  match goal with |- context [receive_text cfg edge ?me ?f ?r ?b ?x] =>
    pose proof (starting_receive me f r b x Hs) as Hr; destruct (receive_text cfg edge me f r b x) as [[o bans] c] end.
  destruct o as [[]|]; [exact Hr|by rewrite starting_end|]. unfold unwind_connection. by case_match.
Qed.

Lemma ws_handler_health rq (s : Srv) : health_of (ws_handler contains_ip hmac_sha256 edge rq s).2 = health_of s.
Proof.
  unfold ws_handler. cbv zeta. case_match; [done|]. destruct (GlobalLimiter.allow _ _ _) as [[] cell]; cbn [negb]; [|done].
  case_match; [done|]. case_match; [|done]. case_match; [done|].
  destruct (WsTicket.validate_and_consume _ _ _ _) as [[user|] store]; [|done]. unfold take_slot.
  destruct (IpTracker.try_add _ _) as [[] ips]; done.
Qed.

Lemma poll_ice_health i h p (st : AppState B Uuid) : sfu_health_status (poll_ice i h p st) = sfu_health_status st.
Proof.
  unfold poll_ice. cbv zeta. destruct (poll_sfu_ice_candidates _ _ _) as [[cands|] b]; [|done].
  by apply (foldl_keeps (λ x, sfu_health_status x = sfu_health_status st)).
Qed.

Lemma invite_sweep_health now ban_now (s : Srv) : health_of (invite_sweep now ban_now s) = health_of s.
Proof.
  unfold invite_sweep, with_app, with_bans. cbn [srv_app]. destruct (sweep_expired _ _) as [n inv].
  match goal with |- context [prune_all now ?l] => by destruct (prune_all now l) end.
Qed.

(** The status after an event: still the same start, or another status. *)
Lemma starting_event e (s : Srv) t :
  health_of s = Starting since →
  health_of (run_event contains_ip hmac_sha256 str_debug cfg edge e s) = Starting t → t = since.
Proof.
  intros Hs. destruct e; cbn [run_event];
    try (rewrite ?ws_handler_health, ?receive_starting by done; rewrite ?starting_end, ?invite_sweep_health; cbn; congruence).
  - unfold connect. repeat case_match; cbn; congruence.
  - unfold run_task. repeat case_match; cbn; rewrite ?poll_ice_health; try congruence.
    unfold cold_start. repeat case_match; cbn; congruence.
  - cbn. unfold health_round. cbv zeta. destruct (sfu_health_check _) as [checked b]. cbn [sfu_health_status app_do set_app].
    rewrite Hs. repeat case_match; cbn; congruence.
  - cbn. unfold shutdown_round, trigger_ec2_stop. rewrite Hs. repeat case_match; cbn; congruence.
  - cbn. unfold run_stop, trigger_ec2_stop. repeat case_match; cbn; congruence.
Qed.
End starting.

(** The server answers a join with a start of the media server. *)
Definition begin_start (h : SfuHealth) (me : ConnInfo) (c : Ctx B Uuid) : Ctx B Uuid :=
  on_state (app_do (send (peer_id me) (Msg.SfuColdStarting (mkSfuColdStartingPayload COLD_START_ESTIMATED_WAIT_SECS))))
    (on_state (add_task ColdStart) (on_state (set_health h) c)).

(** What a voice join of an authenticated user does while the media server is down. *)
Lemma join_while_down me rd p (c : Ctx B Uuid) reason u uid :
  sfu_health_status (cx_state c) = Unavailable reason →
  authenticated_user_id (cx_conn c) = Some u → uuid_parse_str u = Some uid →
  let c' := (dispatch_join_voice cfg me rd p c).2 in
  if has_ec2_controller cfg
  then sfu_health_status (cx_state c') = Starting (dr_now rd) ∧ tasks (cx_state c') = tasks (cx_state c) ++ [ColdStart]
  else sfu_health_status (cx_state c') = Unavailable reason ∧ tasks (cx_state c') = tasks (cx_state c).
Proof.
  intros Hh Hu Huid.
  assert ((dispatch_join_voice cfg me rd p c).2 =
    if has_ec2_controller cfg
    then begin_start (Starting (dr_now rd)) me c
    else on_state (app_do (send (peer_id me) (error_message "SFU unavailable"))) c) as Hrun.
  { unfold dispatch_join_voice, mbind_ at 1, gets. rewrite Hu.
    unfold mbind_ at 1, unwrap at 1, mret at 1. rewrite Huid. unfold mbind_ at 1, unwrap at 1, mret at 1.
    unfold mbind_ at 1, cold_start_response, mbind_ at 1, gets. rewrite Hh. by destruct (has_ec2_controller cfg). }
  cbv zeta. rewrite Hrun. by destruct (has_ec2_controller cfg).
Qed.

(** C26: A cold start of the media server ends.  While it lasts, no event, requests
    to join included, moves the time it began.  A round of the health monitor
    makes the server available when the media server's check answers that it is;
    when the check answers anything else, the start goes on for the first five
    minutes and has failed in the first round after that.  After a failure the next
    voice join of an authenticated user begins another start, recorded at the time
    of that join and with its task, exactly when an EC2 controller is configured;
    without one it changes neither the status nor the tasks. *)
Theorem cold_start_ends (s : Srv) since :
  health_of s = Starting since →
  (∀ e t, health_of (run_event contains_ip hmac_sha256 str_debug cfg edge e s) = Starting t → t = since) ∧
  (∀ now, health_of (run_event contains_ip hmac_sha256 str_debug cfg edge (EvHealth now) s) =
     match (sfu_health_check (w_bridge (v_world (app_voice (as_app (srv_app s)))))).1 with
     | Ok Available => Available
     | _ => if from_secs 300 <? duration_since now since then Unavailable "EC2 start timed out" else Starting since
     end) ∧
  (∀ me rd p (c : Ctx B Uuid) reason u uid,
     sfu_health_status (cx_state c) = Unavailable reason →
     authenticated_user_id (cx_conn c) = Some u → uuid_parse_str u = Some uid →
     let c' := (dispatch_join_voice cfg me rd p c).2 in
     if has_ec2_controller cfg
     then sfu_health_status (cx_state c') = Starting (dr_now rd) ∧ tasks (cx_state c') = tasks (cx_state c) ++ [ColdStart]
     else sfu_health_status (cx_state c') = Unavailable reason ∧ tasks (cx_state c') = tasks (cx_state c)).
Proof.
  intros Hs. split_and!; [intros e t; by apply starting_event| |apply join_while_down]. intros now.
  cbn [run_event with_app srv_app]. unfold health_round. cbv zeta.
  destruct (sfu_health_check _) as [checked b]. cbn [sfu_health_status app_do set_app fst]. rewrite Hs.
  destruct checked as [[]|]; try done; by case_match.
Qed.
End progress.

(** ** A server with the mock media server *)

Module ServerDemo.
Import Mock PlainJwt SfuDemo VoiceDemo.

(** The frames of the example. *)
#[export] Instance demo_externals : Externals := {
  parse_message t :=
    if bool_decide (t = "join") then Some (Msg.JoinVoice (mkJoinVoicePayload channel (Some "Ann") None None))
    else if bool_decide (t = "enter") then Some (Msg.Join (mkJoinPayload "r" None (Some "code") None None))
    else if bool_decide (t = "kick") then Some (Msg.KickParticipant (mkKickParticipantPayload "peer-1"))
    else if bool_decide (t = "leave") then Some Msg.Leave
    else None;
  hmac_sha1_base64 k m := k +:+ m;
  parse_rfc3339 _ := None;
  to_rfc3339 n := pretty n
}.

Definition cfg : ServerConfig :=
  mkServerConfig true None "url" true false demo_secret None 50
    (mkSfuConfig demo_secret "wavis-backend" 3600 6 None None).
Definition limits : WsRateLimitConfig :=
  mkWsRateLimitConfig (from_secs 10) 100 20 (from_secs 1) 10 (from_secs 1) 5 (from_secs 1) 32.
Definition edge : EdgeConfig (IpNet:=IpAddr) := mkEdgeConfig false (mkIpConfig false []) 100 limits.
Definition contains (net ip : IpAddr) : bool := bool_decide (net = ip).
Definition mac (k m : string) : string := k +:+ ":" +:+ m.
Definition home : IpAddr := V4 10 0 0 9.

Abbreviation demo_start := (start (Uuid:=bool) cfg edge InviteStoreConfig_default MockSfuBridge_new Available
  JoinRateLimiterConfig_default (TempBan.mkTempBanConfig 3 (from_secs 60) (from_secs 600) 1000) 1 "pepper") (only parsing).
Abbreviation step := (run_event contains mac (λ s, s) cfg edge) (only parsing).

Definition request (ticket : string) : UpgradeRequest := mkUpgradeRequest home (λ _, None) (Some ticket) 1 1 1.
Definition leave_reads (n : Z) : LeaveReads := mkLeaveReads n (demo_reads n) n (λ _, (n, n)).
Definition reads (n : Z) : DispatchReads bool :=
  mkDispatchReads n n n n n (λ _, (n, n)) (λ _, (n, n)) (demo_reads n) (VoiceDemo.reads n) (leave_reads n) "fresh" n n true
    "now" db (λ _ _, Ok (Some Member)) (Ok 1) (λ _, Ok (Some None)) (λ _, Ok (Some 0)).
Definition frame (n : Z) : FrameReads := mkFrameReads n n n.
Definition join : Event (Uuid:=bool) := EvText "peer-1" "join" (frame 2) (reads 2) (leave_reads 2).

(** A ticket, an upgrade, and a voice join. *)
Definition s1 : Server (B:=MockSfuBridge) (Uuid:=bool) := step (EvIssueTicket "ticket" true false 0) demo_start.
Definition s2 : Server (B:=MockSfuBridge) (Uuid:=bool) := step (EvUpgrade (request "ticket")) s1.
Definition s3 : Server (B:=MockSfuBridge) (Uuid:=bool) := step (EvConnect 0 "issuer" 1 1) s2.
Definition s4 : Server (B:=MockSfuBridge) (Uuid:=bool) := step join s3.

Lemma demo_mints me rd n : dr_reads rd = demo_reads n → vr_reads (dr_voice rd) = demo_reads n → peer_id me ≠ EmptyString →
  mints (Uuid:=bool) cfg me rd.
Proof. intros Hr Hv Hp. split; [|by rewrite Hv|done]. by rewrite Hr. Qed.

Lemma s3_reached : reachable contains mac (λ s, s) cfg edge demo_start s3.
Proof. unfold s3, s2, s1. repeat (apply reachable_step; [|done]). apply reachable_start. Qed.
Lemma join_ok : event_ok cfg s3 join.
Proof.
  intros lc m _ [= <-]. split; [|done]. by apply (demo_mints _ _ 2).
Qed.
Lemma s4_reached : reachable contains mac (λ s, s) cfg edge demo_start s4.
Proof. apply reachable_step; [apply s3_reached|apply join_ok]. Qed.
End ServerDemo.

Section server_examples.
Import Mock PlainJwt SfuDemo VoiceDemo ServerDemo.

Abbreviation voice_rooms s := (w_rooms (v_world (app_voice (as_app (srv_app s))))) (only parsing).


(** Leaving the room from there. *)
Lemma no_frame_panics_witness :
  ∃ lc, srv_conns s4 !! "peer-1" = Some lc ∧
    is_Some (receive_text cfg edge (mkConnInfo "peer-1" (lc_issuer lc) (lc_ip lc) "leave") (frame 3) (reads 3) (srv_bans s4)
               (mkCtx (srv_app s4) (lc_conn lc))).1.1.
Proof.
  destruct (srv_conns s4 !! "peer-1") as [lc|] eqn:Hlc; [|vm_compute in Hlc; discriminate]. exists lc. split; [done|].
  apply (no_frame_panics contains mac (λ s, s) cfg edge InviteStoreConfig_default MockSfuBridge_new Available
    JoinRateLimiterConfig_default (TempBan.mkTempBanConfig 3 (from_secs 60) (from_secs 600) 1000) 1 "pepper"
    s4 "peer-1" "leave" (frame 3) (reads 3) lc); [done|done|exact s4_reached|done].
Defined.

(** The one connection the cap allows. *)
Lemma connections_capped_per_ip_witness :
  let events := [EvIssueTicket "ticket" true false 0; EvUpgrade (request "ticket"); EvConnect 0 "issuer" 1 1;
                 EvIssueTicket "again" true false 2; EvUpgrade (request "again")] in
  let s := foldl (λ s e, run_event contains mac (λ s, s) cfg edge e s) demo_start events in
  live_at home (srv_conns s) = 1 ∧ live_at home (srv_conns s) + pending_at home (srv_pending s) ≤ 1.
Proof.
  split; [vm_compute; reflexivity|]. exact (connections_capped_per_ip contains mac (λ s, s) cfg edge _ _ _ _ _ 1 _ _ home ltac:(lia)).
Defined.

(** An upgrade the client abandons keeps its slot: the next request from the
    address is refused although nothing is connected. *)
Theorem abandoned_upgrade_keeps_slot :
  let s := step (EvIssueTicket "again" true false 2) (step (EvUpgradeFails 0) s2) in
  srv_conns s = ∅ ∧ srv_pending s = [] ∧
  (ws_handler contains mac edge (request "again") s).1 = TooManyRequests.
Proof. vm_compute. done. Qed.

(** The owner who joined is a plain member when she kicks. *)
Definition ann : LiveConn (Uuid:=bool) :=
  default (mkLiveConn (mkConn None None None (WsRateLimiter_new limits 0) (ChatRateLimiter_new (F64.of_Z 5) 0)) EmptyString home)
    (srv_conns s4 !! "peer-1").
Definition ann_session : SignalingSession :=
  SignalingSession_new "peer-1" room Host (Some "00000000-0000-0000-0000-000000000001") (Some channel).
Lemma ann_parses : uuid_parse_str (Uuid:=bool) "00000000-0000-0000-0000-000000000001" = Some true.
Proof. vm_compute. reflexivity. Qed.
Lemma host_actions_need_current_role_witness :
  session (lc_conn ann) = Some ann_session ∧ ss_role ann_session = Host ∧
  let m := Msg.KickParticipant (mkKickParticipantPayload "peer-1") in
  let c := mkCtx (srv_app s4) (lc_conn ann) in
  app_voice (as_app (cx_state (dispatch_message cfg (mkConnInfo "peer-1" "issuer" home "kick") (reads 3) m c).2)) =
  app_voice (as_app (cx_state c)).
Proof.
  split; [vm_compute; reflexivity|]. split; [done|]. cbv zeta.
  apply (host_actions_need_current_role cfg (mkConnInfo "peer-1" "issuer" home "kick") (reads 3) ann_session channel
    "00000000-0000-0000-0000-000000000001" true eq_refl eq_refl ann_parses); [|vm_compute; reflexivity|done].
  intros r Hr. vm_compute in Hr. injection Hr as <-. done.
Defined.

(** A join with the code of a room. *)
Definition invited : Ctx MockSfuBridge bool :=
  let w := v_world (app_voice (as_app (srv_app s3))) in
  mkCtx (app_do (set_world (mkWorld (w_rooms w) (generate "code" "r" "issuer" None 0 (w_invites w)).2 (w_bridge w)))
           (srv_app s3))
    (mkConn None (Some "00000000-0000-0000-0000-000000000001") None (WsRateLimiter_new limits 0)
       (ChatRateLimiter_new (F64.of_Z 5) 0)).
Lemma join_needs_valid_invite_witness :
  let p := mkJoinPayload "r" None (Some "code") None None in
  is_Some (session (cx_conn (dispatch_message cfg (mkConnInfo "peer-1" "issuer" home "enter") (reads 2) (Msg.Join p) invited).2)) ∧
  ∃ code, Join_invite_code p = Some code ∧ code ≠ EmptyString ∧
    is_Ok (validate code "r" 2 (w_invites (v_world (app_voice (as_app (cx_state invited)))))) = true.
Proof.
  intros p.
  assert (is_Some (session (cx_conn (dispatch_message cfg (mkConnInfo "peer-1" "issuer" home "enter") (reads 2)
    (Msg.Join p) invited).2))) as Hs by (vm_compute; eexists; reflexivity).
  split; [exact Hs|].
  destruct (join_needs_valid_invite cfg (mkConnInfo "peer-1" "issuer" home "enter") (reads 2) p invited eq_refl eq_refl Hs)
    as (code & H1 & H2 & H3 & _). by exists code.
Defined.

(** A start that has not come up after six minutes, with the media server still
    down, and the join that tries again. *)
Definition down : MockSfuBridge :=
  mkMockSfuBridge [] (mkMockSfuConfig (Err "down") (Ok tt) (Ok tt) (Ok tt) (Ok tt) "mock-answer-sdp" []).
Definition still_down : Server (B:=MockSfuBridge) (Uuid:=bool) :=
  with_app (λ st, set_health (Starting 0) (app_do (λ a,
    let w := v_world (app_voice a) in set_world (mkWorld (w_rooms w) (w_invites w) down) a) st)) s3.
Lemma cold_start_ends_witness :
  (∀ e t, sfu_health_status (srv_app (step e still_down)) = Starting t → t = 0) ∧
  sfu_health_status (srv_app (step (EvHealth (from_secs 360)) still_down)) = Unavailable "EC2 start timed out" ∧
  sfu_health_status (srv_app (step (EvHealth (from_secs 300)) still_down)) = Starting 0.
Proof.
  destruct (cold_start_ends contains mac (λ s, s) cfg edge still_down 0 eq_refl) as (H1 & H2 & _).
  split_and!; [exact H1|rewrite H2; vm_compute; reflexivity|rewrite H2; vm_compute; reflexivity].
Defined.
End server_examples.
