(* ===== verification/ChannelRoutes.v ===== *)
(** * The HTTP side of channels (wavis-backend/src/channel/routes.rs)

    Every endpoint as a program over the channel tables, the limiter of the
    endpoints and the shared voice state: the rate limit, the call of the channel
    module, the mapping of its errors to statuses, the ejection that follows a
    ban, and the two voice-status queries.  Authentication has produced the user
    id; the text form of a time is a parameter, as is the uuid crate. *)

From Stdlib Require Import Sorting.Sorted.
From stdpp Require Import sorting.
From S2P Require Import Prelude Signaling Invite RoomState ScreenShare SfuBridge Tokens SfuRelay SubRooms Voice WsSession SlidingWindow Config AppState Server Database Channels ChannelRules.
Local Open Scope Z_scope.
Local Open Scope prog_scope.

(** ** Responses *)

(** [ChannelErrorResponse]: the status, the [Retry-After] header, the message. *)
Record ChannelErrorResponse : Type := mkChannelErrorResponse {
  er_status : Z;
  er_retry_after : option string;
  er_error : string
}.

(** How a request ends without its response: an error response, or a panic. *)
Inductive Refusal : Type :=
| Refused (r : ChannelErrorResponse)
| Crashed.

(** [CreateChannelResponse]. *)
Record CreateChannelResponse : Type := mkCreateChannelResponse {
  ccr_channel_id : string;
  ccr_name : string;
  ccr_owner_user_id : string;
  ccr_created_at : string
}.

(** [ChannelListItemResponse]. *)
Record ChannelListItemResponse : Type := mkChannelListItemResponse {
  clr_channel_id : string;
  clr_name : string;
  clr_owner_user_id : string;
  clr_created_at : string;
  clr_role : string
}.

(** [MemberResponse]. *)
Record MemberResponse : Type := mkMemberResponse {
  mr_user_id : string;
  mr_role : string;
  mr_joined_at : string;
  mr_display_name : string
}.

(** [ChannelDetailResponse]. *)
Record ChannelDetailResponse : Type := mkChannelDetailResponse {
  cdr_channel_id : string;
  cdr_name : string;
  cdr_owner_user_id : string;
  cdr_created_at : string;
  cdr_role : string;
  cdr_members : list MemberResponse
}.

(** [InviteResponse]. *)
Record InviteResponse : Type := mkInviteResponse {
  ivr_code : string;
  ivr_channel_id : string;
  ivr_expires_at : option string;
  ivr_max_uses : option Z;
  ivr_uses : Z
}.

(** [JoinChannelResponse]. *)
Record JoinChannelResponse : Type := mkJoinChannelResponse {
  jcr_channel_id : string;
  jcr_name : string;
  jcr_role : string
}.

(** [BanResponse]. *)
Record BanResponse : Type := mkBanResponse {
  bnr_channel_id : string;
  bnr_user_id : string;
  bnr_banned_at : string
}.

(** [ChangeRoleResponse]. *)
Record ChangeRoleResponse : Type := mkChangeRoleResponse {
  crr_channel_id : string;
  crr_user_id : string;
  crr_role : string
}.

(** [VoiceStatusResponse]; a [VoiceParticipantInfo] is its display name. *)
Record VoiceStatusResponse : Type := mkVoiceStatusResponse {
  vs_active : bool;
  vs_participant_count : option Z;
  vs_participants : option (list string)
}.

(** [BatchVoiceStatusItem]. *)
Record BatchVoiceStatusItem : Type := mkBatchVoiceStatusItem {
  bv_active : bool;
  bv_participant_count : Z
}.

(** [BanListItem]. *)
Record BanListItem : Type := mkBanListItem {
  bl_user_id : string;
  bl_banned_at : string;
  bl_display_name : string
}.

(** [role_to_string]. *)
Definition role_to_string (role : ChannelRole) : string :=
  match role with Owner => "owner" | Admin => "admin" | Member => "member" end.

(** [map_channel_error]: the status and the message. *)
Definition map_channel_error (err : ChannelError) : ChannelErrorResponse :=
  let '(status, message) := match err with
    | ChErr.ChannelNotFound => (404, "not found"%string)
    | ChErr.NotMember => (403, "forbidden"%string)
    | ChErr.Banned => (403, "forbidden"%string)
    | ChErr.Forbidden => (403, "forbidden"%string)
    | ChErr.TargetNotMember => (404, "not found"%string)
    | ChErr.TargetNotBanned => (404, "not found"%string)
    | ChErr.InviteNotFound => (404, "not found"%string)
    | ChErr.InvalidInvite => (400, "invalid invite"%string)
    | ChErr.InvalidName => (400, "invalid channel name: must be 1-100 characters"%string)
    | ChErr.AlreadyMember => (409, "already a member"%string)
    | ChErr.AlreadyBanned => (409, "user is already banned"%string)
    | ChErr.CannotBanOwner => (403, "cannot ban the channel owner"%string)
    | ChErr.InsufficientPrivileges => (403, "insufficient privileges"%string)
    | ChErr.SelfBan => (400, "cannot ban yourself"%string)
    | ChErr.OwnerCannotLeave => (400, "owner cannot leave; delete the channel instead"%string)
    | ChErr.InvalidRole => (400, "invalid role: must be 'admin' or 'member'"%string)
    | ChErr.CannotChangeOwnerRole => (400, "cannot change the owner's role"%string)
    | ChErr.CannotChangeBannedRole => (400, "cannot change a banned member's role"%string)
    | ChErr.OwnerConsistencyViolation => (500, "internal error"%string)
    | ChErr.DatabaseError _ => (500, "internal error"%string)
    end in
  mkChannelErrorResponse status None message.

(** [rate_limited_response]. *)
Definition rate_limited_response (retry_after_secs : option Z) : ChannelErrorResponse :=
  mkChannelErrorResponse 429 (pretty <$> retry_after_secs) "too many requests".

Section routes.
Context {B : Type} `{SfuRoomManager B}.
Context {Uuid : Type} `{EqDecision Uuid} `{!Countable Uuid} `{UuidText Uuid}.
Context (plus_seconds : Z → Z → option Z) (to_rfc3339 : Z → string).

(** The fields of [AppState] the endpoints use. *)
Record Backend : Type := mkBackend {
  be_db : ChannelDb (Uuid:=Uuid);
  be_limiter : ChannelLimiter.ChannelRateLimiter (Uuid:=Uuid);
  be_app : App B Uuid
}.
Abbreviation Route A := (M Backend Refusal A) (only parsing).

(** The clock of the limiter, the clocks of the ejection. *)
Record RouteReads : Type := mkRouteReads {
  rr_now : Instant;
  rr_eject : Reads;
  rr_sub_now : Instant;
  rr_clks : string → Instant * Z
}.

(** [check_rate_limit]. *)
Definition check_rate_limit (user_id : Uuid) (now : Instant) : Route unit := λ st,
  match ChannelLimiter.retry user_id now (be_limiter st) with
  | (Some secs, l) => (Err (Refused (rate_limited_response (Some secs))), mkBackend (be_db st) l (be_app st))
  | (None, l) => (Ok tt, mkBackend (be_db st) (ChannelLimiter.record user_id now l) (be_app st))
  end.

(** A call of the channel module with [.map_err(map_channel_error)]. *)
Definition call {A} (op : M (ChannelDb (Uuid:=Uuid)) Stopped A) : Route A := λ st,
  let '(r, d) := op (be_db st) in
  (map_err (λ e, match e with Failed e => Refused (map_channel_error e) | Panicked => Crashed end) r,
   mkBackend d (be_limiter st) (be_app st)).

(** [create_channel]. *)
Definition post_channel (io : Io) (user_id : Uuid) (name : string) (fresh_id : Uuid) (now : Z) (rr : RouteReads)
    : Route (Z * CreateChannelResponse) :=
  do! check_rate_limit user_id (rr_now rr) in
  let! ch := call (create_channel io user_id name fresh_id now) in
  mret (201, mkCreateChannelResponse (uuid_to_string (ch_channel_id ch)) (ch_name ch)
               (uuid_to_string (ch_owner_user_id ch)) (to_rfc3339 (ch_created_at ch))).

(** [list_channels]. *)
Definition get_channels (io : Io) (user_id : Uuid) : Route (list ChannelListItemResponse) :=
  let! items := call (list_channels io user_id) in
  mret (map (λ i, mkChannelListItemResponse (uuid_to_string (li_channel_id i)) (li_name i)
                    (uuid_to_string (li_owner_user_id i)) (to_rfc3339 (li_created_at i))
                    (role_to_string (li_role i))) items).

(** [get_channel]. *)
Definition get_channel (io : Io) (user_id channel_id : Uuid) : Route ChannelDetailResponse :=
  let! detail := call (get_channel_detail io channel_id user_id) in
  let members := map (λ m, mkMemberResponse (uuid_to_string (mi_user_id m)) (role_to_string (mi_role m))
                             (to_rfc3339 (mi_joined_at m)) (mi_display_name m)) (cd_members detail) in
  mret (mkChannelDetailResponse (uuid_to_string (cd_channel_id detail)) (cd_name detail)
          (uuid_to_string (cd_owner_user_id detail)) (to_rfc3339 (cd_created_at detail))
          (role_to_string (cd_role detail)) members).

(** [delete_channel]. *)
Definition delete_channel_route (io : Io) (user_id channel_id : Uuid) (rr : RouteReads) : Route Z :=
  do! check_rate_limit user_id (rr_now rr) in
  do! call (delete_channel io channel_id user_id) in
  mret 204.

Definition invite_response (i : ChannelInvite (Uuid:=Uuid)) : InviteResponse :=
  mkInviteResponse (ci_code i) (uuid_to_string (ci_channel_id i)) (to_rfc3339 <$> ci_expires_at i)
    (ci_max_uses i) (ci_uses i).

(** [create_invite]. *)
Definition post_invite (io : Io) (user_id channel_id : Uuid) (expires_in_secs max_uses : option Z)
    (code : string) (utc_now now : Z) (rr : RouteReads) : Route (Z * InviteResponse) :=
  do! check_rate_limit user_id (rr_now rr) in
  let! invite := call (create_invite plus_seconds io channel_id user_id expires_in_secs max_uses code utc_now now) in
  mret (201, invite_response invite).

(** [join_channel]. *)
Definition join_channel (io : Io) (user_id : Uuid) (code : string) (now : Z) (rr : RouteReads)
    : Route JoinChannelResponse :=
  do! check_rate_limit user_id (rr_now rr) in
  let! result := call (join_channel_by_invite io user_id code now) in
  mret (mkJoinChannelResponse (uuid_to_string (jr_channel_id result)) (jr_name result)
          (role_to_string (jr_role result))).

(** [leave_channel]. *)
Definition leave_channel_route (io : Io) (user_id channel_id : Uuid) (rr : RouteReads) : Route Z :=
  do! check_rate_limit user_id (rr_now rr) in
  do! call (leave_channel io channel_id user_id) in
  mret 204.

(** [revoke_invite]. *)
Definition revoke_invite_route (io : Io) (user_id channel_id : Uuid) (code : string) (rr : RouteReads) : Route Z :=
  do! check_rate_limit user_id (rr_now rr) in
  do! call (revoke_invite io channel_id user_id code) in
  mret 204.

(** [ban_member]: the ban, then the ejection, whose failure is only logged. *)
Definition ban_member_route (io : Io) (user_id channel_id target_user_id : Uuid) (now : Z) (rr : RouteReads)
    : Route BanResponse :=
  do! check_rate_limit user_id (rr_now rr) in
  let! result := call (ban_member io channel_id user_id target_user_id now) in
  do! modify (λ st, mkBackend (be_db st) (be_limiter st)
    (eject_member channel_id target_user_id (rr_eject rr) (rr_sub_now rr) (rr_clks rr) (be_app st))) in
  mret (mkBanResponse (uuid_to_string (br_channel_id result)) (uuid_to_string (br_user_id result))
          (to_rfc3339 (br_banned_at result))).

(** [unban_member]. *)
Definition unban_member_route (io : Io) (user_id channel_id target_user_id : Uuid) (rr : RouteReads) : Route Z :=
  do! check_rate_limit user_id (rr_now rr) in
  do! call (unban_member io channel_id user_id target_user_id) in
  mret 204.

(** [change_role]. *)
Definition change_role_route (io : Io) (user_id channel_id target_user_id : Uuid) (role : string) (rr : RouteReads)
    : Route ChangeRoleResponse :=
  do! check_rate_limit user_id (rr_now rr) in
  let! result := call (change_role io channel_id user_id target_user_id role) in
  mret (mkChangeRoleResponse (uuid_to_string (rc_channel_id result)) (uuid_to_string (rc_user_id result))
          (role_to_string (rc_role result))).

(** [list_bans]. *)
Definition get_bans (io : Io) (user_id channel_id : Uuid) : Route (list BanListItem) :=
  let! bans := call (list_bans io channel_id user_id) in
  mret (map (λ b, mkBanListItem (uuid_to_string (bm_user_id b)) (to_rfc3339 (bm_banned_at b)) (bm_display_name b))
          bans).

(** [list_invites]. *)
Definition get_invites (io : Io) (user_id channel_id : Uuid) (now : Z) : Route (list InviteResponse) :=
  let! invites := call (list_invites io channel_id user_id now) in
  mret (map invite_response invites).

(** ** Voice status *)

Definition internal_error : Refusal := Refused (mkChannelErrorResponse 500 None "internal error").
Definition forbidden : Refusal := Refused (mkChannelErrorResponse 403 None "forbidden").

(** The participants that count: those in a sub-room, where the room has them. *)
Definition voice_participants (i : RoomInfo) : list ParticipantInfo :=
  match sub_room_state i with
  | Some sub => List.filter (λ p, bool_decide (is_Some (participant_assignments sub !! participant_id p)))
                  (participants i)
  | None => participants i
  end.

(** [get_voice_status]. *)
Definition get_voice_status (io : Io) (user_id channel_id : Uuid) : Route VoiceStatusResponse := λ st,
  match io 0%nat with
  | Some _ => (Err internal_error, st)
  | None =>
      match membership_of channel_id user_id (be_db st) with
      | None => (Err forbidden, st)
      | Some m =>
          match m_banned_at m with
          | Some _ => (Err forbidden, st)
          | None =>
              let v := app_voice (be_app st) in
              let inactive := mkVoiceStatusResponse false None None in
              (Ok match v_map v !! channel_id with
                  | None => inactive
                  | Some room_id =>
                      match get_room_info room_id (w_rooms (v_world v)) with
                      | None => inactive
                      | Some room_info =>
                          let ps := map display_name (voice_participants room_info) in
                          let active := negb (bool_decide (ps = [])) in
                          mkVoiceStatusResponse active (if active then Some (wrap_u32 (len ps)) else None)
                            (if active then Some ps else None)
                      end
                  end, st)
          end
      end
  end.

(** The ids of [get_batch_voice_status]: [None] at the first that does not parse. *)
Fixpoint parse_ids (ids : list string) : option (list Uuid) :=
  match ids with
  | [] => Some []
  | raw :: ids' => id ← uuid_parse_str raw; rest ← parse_ids ids'; Some (id :: rest)
  end.

(** One entry of the batch: the voice room as it is seen through a membership
    that is not banned. *)
Definition batch_item (v : VoiceWorld B Uuid) (visible : Uuid → bool) (channel_id : Uuid) : BatchVoiceStatusItem :=
  let participant_count :=
    if visible channel_id then
      match v_map v !! channel_id with
      | None => 0
      | Some room_id =>
          match get_room_info room_id (w_rooms (v_world v)) with
          | None => 0
          | Some room_info => wrap_u32 (len (voice_participants room_info))
          end
      end
    else 0 in
  mkBatchVoiceStatusItem (bool_decide (0 < participant_count)) participant_count.

(** [get_batch_voice_status]; the entries are inserted in the order of the ids. *)
Definition get_batch_voice_status (io : Io) (user_id : Uuid) (ids : string)
    : Route (gmap string BatchVoiceStatusItem) := λ st,
  match parse_ids (comma_list ids) with
  | None => (Err (Refused (mkChannelErrorResponse 400 None "invalid channel id")), st)
  | Some [] => (Ok ∅, st)
  | Some channel_ids =>
      match io 0%nat with
      | Some _ => (Err internal_error, st)
      | None =>
          let visible c := match membership_of c user_id (be_db st) with
                           | Some m => bool_decide (m_banned_at m = None)
                           | None => false
                           end in
          (Ok (foldl (λ response c, <[uuid_to_string c := batch_item (app_voice (be_app st)) visible c]> response)
                 ∅ channel_ids), st)
      end
  end.

(** ** A ban takes effect at once *)

Lemma plist_remove_peer q r s ps : plist r (remove_peer q s) = Some ps → plist r s = Some ps.
Proof.
  unfold plist, get_room_info, remove_peer, remove_peer_internal.
  destruct (peer_to_room s !! q) as [r0|]; [|done]. cbn [rooms set_peer_to_room].
  destruct (rooms s !! r0) as [m|] eqn:E; [|done].
  destruct (peers (set_peers _ m)); simpl; [rewrite lookup_delete|rewrite lookup_insert];
    case_decide; simplify_eq/=; try done; by rewrite E.
Qed.

Lemma plist_kicked r q now s ps :
  plist r (kicked_rooms r q now s) = Some ps →
  ∃ ps0, plist r s = Some ps0 ∧ ps = retain (λ x, bool_decide (participant_id x ≠ q)) ps0.
Proof.
  unfold kicked_rooms. rewrite (plist_update _ _ (retain (λ x, bool_decide (participant_id x ≠ q)))) by done.
  intros (ps0 & Hp & ->)%fmap_Some. apply plist_remove_peer in Hp.
  rewrite plist_update_same in Hp by done. eauto.
Qed.

(** The user's only entry is the one the kick removes. *)
Lemma kicked_user_gone r u now s q ps :
  one_session s → user_participant r u s = Some q → plist r (kicked_rooms r q now s) = Some ps →
  List.find (is_user u) ps = None.
Proof.
  intros H1 Hq (ps0 & Hp & ->)%plist_kicked. specialize (H1 r ps0 u Hp).
  destruct (List.find (is_user u) (retain _ ps0)) as [y|] eqn:E; [|done].
  apply find_some_elem_of in E as [[Hne%bool_decide_eq_true Hy]%elem_of_retain Hu]. 
  unfold user_participant in Hq. unfold plist in Hp. destruct (get_room_info r s) as [i|]; simplify_eq/=.
  apply fmap_Some in Hq as (x & Hx%find_some_elem_of & ->). destruct Hx as [Hx Hux].
  assert (x ∈ sessions u (participants i) ∧ y ∈ sessions u (participants i)) as [Hsx Hsy].
  { unfold sessions. rewrite !list_elem_of_In, !filter_In, <-!list_elem_of_In. done. }
  destruct (sessions u (participants i)) as [|z [|? ?]]; simpl in H1; [set_solver| |lia].
  apply list_elem_of_singleton in Hsx as ->. apply list_elem_of_singleton in Hsy as ->. done.
Qed.

Lemma plist_remove_empty r s ps : plist r (remove_empty_room r s).2 = Some ps → plist r s = Some ps.
Proof.
  unfold remove_empty_room. destruct (rooms s !! r) as [m|] eqn:E; [|done].
  destruct (peers m); [|done]. unfold plist, get_room_info. simpl. by rewrite lookup_delete_eq.
Qed.

Lemma eject_gone c u r q rd (v : VoiceWorld B Uuid) :
  one_session (w_rooms (v_world v)) → find_user_in_voice c u v = Some (r, q) →
  ∃ sigs v', eject_banned_user r q c rd v = (Ok sigs, v') ∧
    (v_map v' = v_map v ∨ v_map v' = unmap_room c r (v_map v)) ∧
    (∀ ps, plist r (w_rooms (v_world v')) = Some ps → List.find (is_user (uuid_to_string u)) ps = None).
Proof.
  intros H1 Hf. unfold find_user_in_voice in Hf.
  destruct (v_map v !! c) as [r0|] eqn:Hc; [|done]. simpl in Hf.
  destruct (user_participant r0 _ _) as [q0|] eqn:Hq; simplify_eq/=.
  destruct (handle_kick_eq r "__server__" q rd (v_world v)) as (sigs & b & Hk).
  { unfold target_in_room, user_participant in *. destruct (get_room_info r _) as [i|]; [|done].
    simpl in Hq. apply fmap_Some in Hq as (x & Hx%find_some_elem_of & ->).
    apply existsb_exists. exists x. rewrite <-list_elem_of_In, bool_decide_eq_true. naive_solver. }
  pose proof (λ ps, kicked_user_gone r (uuid_to_string u) (rd_now rd) (w_rooms (v_world v)) q ps H1 Hq) as Hgone.
  set (s1 := kicked_rooms r q (rd_now rd) (w_rooms (v_world v))) in *.
  unfold eject_banned_user. unfold mbind_ at 1, map_err_m, on_world at 1. rewrite Hk. cbn [map_err].
  rewrite bind_on_world. cbn [read_rooms gets v_world v_map w_rooms snd w_bridge].
  unfold mbind_ at 1. case_bool_decide; [|by eexists _, _; split_and!; [reflexivity|left|intros ps; by apply Hgone]].
  unfold when. rewrite bind_on_world. cbn [read_rooms gets v_world v_map w_rooms].
  set (destroy := match get_room_info r s1 ≫= sfu_handle with Some h => _ | None => _ end).
  assert (∃ b', destroy (mkVoiceWorld (mkWorld s1 (w_invites (v_world v)) b) (v_map v)) =
    (Ok tt, mkVoiceWorld (mkWorld s1 (w_invites (v_world v)) b') (v_map v))) as [b' Hd].
  { unfold destroy. destruct (get_room_info r s1 ≫= sfu_handle) as [h|]; [|by eexists].
    unfold mbind_, attempt, on_world, call_bridge. simpl. destruct (sfu_destroy_room h b) as [[] ?]; by eexists. }
  unfold mbind_ at 1. rewrite Hd, bind_on_world. unfold call_rooms, state, update_map, modify. simpl.
  pose proof (λ ps, plist_remove_empty r s1 ps) as Hrm. destruct (remove_empty_room r s1) as [x s2].
  eexists _, _. split_and!; [reflexivity|by right|]. intros ps Hps. by apply Hgone, Hrm.
Qed.

Lemma user_participant_plist r u s :
  (∀ ps, plist r s = Some ps → List.find (is_user u) ps = None) → user_participant r u s = None.
Proof.
  unfold plist, user_participant. destruct (get_room_info r s) as [i|]; [|done]. simpl.
  intros Hf. by rewrite (Hf _ eq_refl).
Qed.

Lemma unmapped_user_gone c u r (v v' : VoiceWorld B Uuid) :
  v_map v !! c = Some r → (v_map v' = v_map v ∨ v_map v' = unmap_room c r (v_map v)) →
  user_participant r (uuid_to_string u) (w_rooms (v_world v')) = None → find_user_in_voice c u v' = None.
Proof.
  intros Hc Hm Hu. unfold find_user_in_voice. destruct Hm as [-> | ->].
  - rewrite Hc. simpl. by rewrite Hu.
  - unfold unmap_room. rewrite Hc, bool_decide_true by done.
    replace (delete c (v_map v) !! c) with (@None RoomId) by (symmetry; apply (lookup_delete_eq (M:=gmap Uuid))). done.
Qed.

Lemma eject_member_gone c u rd now clks (a : App B Uuid) :
  one_session (w_rooms (v_world (app_voice a))) →
  find_user_in_voice c u (app_voice (eject_member c u rd now clks a)) = None.
Proof.
  intros H1. unfold eject_member.
  destruct (find_user_in_voice c u (app_voice a)) as [[r q]|] eqn:Hf; [|done].
  destruct (eject_gone c u r q rd _ H1 Hf) as (sigs & v' & -> & Hm & Hgone). cbv zeta. cbn [app_voice].
  pose proof (plist_leave_sub_room r q now clks (w_rooms (v_world v'))) as Hl.
  destruct (remove_participant_from_sub_room r q now clks _) as [sub s2]. simpl in Hl.
  eapply (unmapped_user_gone c u r (app_voice a)).
  - unfold find_user_in_voice in Hf. destruct (v_map (app_voice a) !! c); [|done]. simpl in Hf.
    destruct (user_participant _ _ _); naive_solver.
  - exact Hm.
  - apply user_participant_plist. simpl. rewrite Hl. exact Hgone.
Qed.

Lemma call_Ok {A} (op : M (ChannelDb (Uuid:=Uuid)) Stopped A) st a st' :
  call op st = (Ok a, st') →
  op (be_db st) = (Ok a, be_db st') ∧ be_app st' = be_app st ∧ be_limiter st' = be_limiter st.
Proof. unfold call. destruct (op (be_db st)) as [[x|e] d]; simpl; [|done]. by intros [= -> <-]. Qed.

Lemma check_rate_limit_state u now st res st' :
  check_rate_limit u now st = (res, st') → be_db st' = be_db st ∧ be_app st' = be_app st.
Proof. unfold check_rate_limit. destruct (ChannelLimiter.retry _ _ _) as [[secs|] l]; by intros [= <- <-]. Qed.

(** The two halves of a ban request that succeeds. *)
Lemma ban_route_run io u c t now rr st resp st' :
  ban_member_route io u c t now rr st = (Ok resp, st') →
  ∃ res, ban_member io c u t now (be_db st) = (Ok res, be_db st') ∧
    be_app st' = eject_member c t (rr_eject rr) (rr_sub_now rr) (rr_clks rr) (be_app st).
Proof.
  unfold ban_member_route. unfold mbind_ at 1.
  destruct (check_rate_limit u (rr_now rr) st) as [[[]|e] st1] eqn:Hl; [|done].
  apply check_rate_limit_state in Hl as [Hd Ha]. unfold mbind_ at 1.
  destruct (call (ban_member io c u t now) st1) as [[res|e] st2] eqn:Hc; [|done].
  apply call_Ok in Hc as (Hrun & Happ & _). unfold mbind_, modify, mret. intros [= <- <-]. simpl.
  rewrite <-Hd, <-Ha, <-Happ. eauto.
Qed.

Lemma ban_member_bans io (c u t : Uuid) now d res d' :
  ban_member io c u t now d = (Ok res, d') → banned d' c t.
Proof.
  intros Hrun. pose proof (makes_ban plus_seconds io c u t now d) as Hm. unfold makes in Hm. rewrite Hrun in Hm.
  destruct Hm as [Hc|[_ [=]]]. simpl in Hc. inversion Hc; subst. eexists. simpl.
  rewrite lookup_insert_eq. split; [done|]. simpl. eauto.
Qed.

Context `{JwtCodec MediaTokenClaims, LiveKitTokens}.


(** ** Voice status *)

Lemma parse_ids_batch (f : Uuid → BatchVoiceStatusItem) `{!UuidTextLaws Uuid} cs :
  ∀ (m : gmap string BatchVoiceStatusItem) c,
  (c ∈ cs ∨ m !! uuid_to_string c = Some (f c)) →
  foldl (λ response c, <[uuid_to_string c := f c]> response) m cs !! uuid_to_string c = Some (f c).
Proof.
  induction cs as [|c0 cs IH]; intros m c Hc; simpl; [by destruct Hc as [?%not_elem_of_nil|]|].
  apply IH. destruct (decide (c0 = c)) as [->|Hne]; [right; apply lookup_insert_eq|].
  destruct Hc as [Hc|Hc]; [left; set_solver|right]. rewrite lookup_insert_ne; [done|].
  intros Heq. apply (f_equal uuid_parse_str) in Heq. rewrite !uuid_parse_to_string in Heq. naive_solver.
Qed.

(** The batch query and the single query agree: for every channel asked for, the
    batch reports the activity and the count the single query does, and an
    inactive channel where that is refused. *)
Theorem batch_status_agrees `{!UuidTextLaws Uuid} u ids st resp st' cs c :
  (∀ r i, get_room_info r (w_rooms (v_world (app_voice (be_app st)))) = Some i →
     len (participants i) < u32_modulus) →
  get_batch_voice_status no_failure u ids st = (Ok resp, st') →
  parse_ids (comma_list ids) = Some cs → c ∈ cs →
  ∃ item, resp !! uuid_to_string c = Some item ∧
    match (get_voice_status no_failure u c st).1 with
    | Ok s => bv_active item = vs_active s ∧ bv_participant_count item = default 0 (vs_participant_count s)
    | Err _ => item = mkBatchVoiceStatusItem false 0
    end.
Proof.
  intros Hlen Hrun Hids Hc. unfold get_batch_voice_status in Hrun. rewrite Hids in Hrun.
  destruct cs as [|c1 cs]; [by apply not_elem_of_nil in Hc|]. unfold no_failure at 1 in Hrun.
  injection Hrun as <- <-. set (f := batch_item _ _).
  exists (f c). split; [exact (parse_ids_batch f (c1 :: cs) ∅ c (or_introl Hc))|].
  unfold get_voice_status, f, batch_item, no_failure.
  destruct (membership_of c u (be_db st)) as [m|]; [|done].
  destruct (m_banned_at m) as [b|]; [by rewrite bool_decide_false|]. rewrite (bool_decide_true (None = None)) by done. simpl.
  destruct (v_map _ !! c) as [r|]; [|done].
  destruct (get_room_info r _) as [i|] eqn:Hi; [|done]. cbn [vs_active vs_participant_count].
  assert (0 ≤ len (voice_participants i) < u32_modulus) as Hb.
  { specialize (Hlen _ _ Hi). unfold voice_participants. destruct (sub_room_state i); [|lia].
    pose proof (List.filter_length_le (λ q, bool_decide (is_Some (participant_assignments s !! participant_id q)))
      (participants i)). lia. }
  rewrite length_map. unfold wrap_u32. rewrite Z.mod_small by done.
  destruct (voice_participants i); simpl; [done|]. done.
Qed.

(** A banned user and a stranger get the same answer, whatever the channel. *)
Theorem banned_looks_like_stranger io u1 u2 c st :
  memberships (be_db st) !! (c, u1) = None → banned (be_db st) c u2 →
  get_voice_status io u1 c st = get_voice_status io u2 c st ∧
  get_channel io u1 c st = get_channel io u2 c st.
Proof.
  intros Hnone (m & Hm & b & Hb). unfold get_voice_status, get_channel, get_channel_detail, call, mbind_, fetch, membership_of.
  rewrite Hnone, Hm, Hb. destruct (io 0%nat); [done|]. rewrite bool_decide_true by eauto. done.
Qed.
End routes.

(** ** An example: the owner bans a user who is in voice *)
Module RouteDemo.
Import Mock PlainJwt SfuDemo VoiceDemo.

(** User [true] owns channel [true]; user [false] is a member. *)
Definition tables : ChannelDb (Uuid:=bool) :=
  serve ChannelDemo.plus (map (pair no_failure)
    [RqRegister true "ann"; RqRegister false "bob"; RqCreate true "den" true 1;
     RqInvite true true None None "code" 2 2; RqJoin false "code" 3]) empty_db.
Definition backend : Backend (B:=MockSfuBridge) (Uuid:=bool) :=
  mkBackend tables (ChannelLimiter.new ChannelLimiter.default_config) (mkApp v2 ∅ [] false 0).
Definition route_reads : RouteReads := mkRouteReads 5 (demo_reads 9) 5 (λ _, (5, 5)).

End RouteDemo.
