(* ===== verification/Phrase.v ===== *)
(** * Secret phrases (wavis-backend/src/auth/phrase.rs)

    Hashing and verifying a phrase with a salt bound to the user, and sealing the
    salt and the verifier for storage.  Argon2id and AES-256-GCM are a class of
    operations with the laws the crates document; byte strings are [string]s,
    drawn salts and nonces are arguments. *)

From S2P Require Import Prelude SfuBridge Tokens.
From Stdlib Require Import NArith.
Local Open Scope Z_scope.

(** [PhraseConfig] and its default. *)
Record PhraseConfig : Type := mkPhraseConfig {
  memory_cost_kib : Z;
  iterations : Z;
  parallelism : Z
}.
Definition PhraseConfig_default : PhraseConfig := mkPhraseConfig 65536 3 1.

(** [PhraseHash]. *)
Record PhraseHash : Type := mkPhraseHash {
  ph_salt : string;
  ph_verifier : string
}.

(** [DummyVerifier]. *)
Record DummyVerifier : Type := mkDummyVerifier {
  dv_salt : string;
  dv_verifier : string
}.

Module PhErr.
(** [PhraseError]. *)
Inductive PhraseError : Type :=
| HashingFailed (e : string)
| VerificationFailed
| InvalidConfig (e : string)
| EncryptionFailed (e : string)
| DecryptionFailed (e : string).
End PhErr.
Abbreviation PhraseError := PhErr.PhraseError.

(** The text of a [PhraseError]. *)
Definition PhraseError_to_string (e : PhraseError) : string :=
  match e with
  | PhErr.HashingFailed e => "phrase hashing failed: " +:+ e
  | PhErr.VerificationFailed => "phrase verification failed"
  | PhErr.InvalidConfig e => "invalid phrase config: " +:+ e
  | PhErr.EncryptionFailed e => "encryption failed: " +:+ e
  | PhErr.DecryptionFailed e => "decryption failed: " +:+ e
  end.

(** The argon2 and aes-gcm crates, and the bytes of a [Uuid]: the check of the
    parameters, the hash of a password under a salt, and sealing under a key and
    a nonce. *)
Class PhraseCrypto (Uuid : Type) : Type := {
  argon2_params : Z → Z → Z → Result unit string;
  argon2_hash : PhraseConfig → string → string → Result string string;
  aes_encrypt : string → string → string → Result string string;
  aes_decrypt : string → string → string → Result string string;
  uuid_as_bytes : Uuid → string
}.

(** A hash has the 32 bytes asked for; opening what was sealed under the same key
    and nonce gives it back, and sealing adds the tag of 16 bytes. *)
Class PhraseCryptoLaws (Uuid : Type) `{PhraseCrypto Uuid} : Prop := {
  argon2_hash_length cfg p s v : argon2_hash cfg p s = Ok v → str_len v = 32;
  aes_decrypt_encrypt key nonce p c : aes_encrypt key nonce p = Ok c → aes_decrypt key nonce c = Ok p;
  aes_encrypt_length key nonce p c : aes_encrypt key nonce p = Ok c → str_len c = str_len p + 16
}.

(** ** Comparison *)

(** [diff |= x ^ y] over two slices. *)
Fixpoint byte_diff (diff : N) (a b : string) : N :=
  match a, b with
  | String x a', String y b' => byte_diff (N.lor diff (N.lxor (Ascii.N_of_ascii x) (Ascii.N_of_ascii y))) a' b'
  | _, _ => diff
  end.

(** [constant_time_eq]. *)
Definition constant_time_eq (a b : string) : bool :=
  if negb (bool_decide (str_len a = str_len b)) then false
  else bool_decide (byte_diff 0 a b = 0%N).

Section phrase.
Context {Uuid : Type} `{PhraseCrypto Uuid} `{UuidText Uuid}.

(** ** Hashing *)

(** [build_argon2]: whether the parameters are accepted. *)
Definition build_argon2 (config : PhraseConfig) : Result unit PhraseError :=
  map_err PhErr.InvalidConfig (argon2_params (memory_cost_kib config) (iterations config) (parallelism config)).

(** [build_bound_salt]. *)
Definition build_bound_salt (random_salt : string) (user_id : Uuid) : string :=
  random_salt +:+ uuid_as_bytes user_id.

(** [hash_phrase]; [random_salt] is the drawn salt. *)
Definition hash_phrase (phrase : string) (user_id : Uuid) (config : PhraseConfig) (random_salt : string)
    : Result PhraseHash PhraseError :=
  match build_argon2 config with
  | Err e => Err e
  | Ok _ =>
      match argon2_hash config phrase (build_bound_salt random_salt user_id) with
      | Err e => Err (PhErr.HashingFailed e)
      | Ok verifier => Ok (mkPhraseHash random_salt verifier)
      end
  end.

(** [verify_phrase]. *)
Definition verify_phrase (phrase : string) (user_id : Uuid) (salt verifier : string) (config : PhraseConfig)
    : Result bool PhraseError :=
  match build_argon2 config with
  | Err e => Err e
  | Ok _ =>
      match argon2_hash config phrase (build_bound_salt salt user_id) with
      | Err e => Err (PhErr.HashingFailed e)
      | Ok candidate_verifier => Ok (constant_time_eq candidate_verifier verifier)
      end
  end.

(** [generate_dummy_verifier]; [None] is the panic of its [expect], the drawn
    phrase is already in hexadecimal. *)
Definition generate_dummy_verifier (config : PhraseConfig) (random_phrase random_salt : string)
    : option DummyVerifier :=
  match hash_phrase random_phrase uuid_nil config random_salt with
  | Ok hash => Some (mkDummyVerifier (ph_salt hash) (ph_verifier hash))
  | Err _ => None
  end.

(** [verify_dummy]. *)
Definition verify_dummy (phrase : string) (dummy : DummyVerifier) (config : PhraseConfig)
    : Result bool PhraseError :=
  verify_phrase phrase uuid_nil (dv_salt dummy) (dv_verifier dummy) config.

(** ** Sealing *)

Definition AES_GCM_NONCE_LEN : Z := 12.
Definition AES_256_KEY_LEN : Z := 32.

Definition key_length_text (encryption_key : string) : string :=
  "key must be exactly 32 bytes, got " +:+ pretty (str_len encryption_key).

(** [encrypt_blob]; [nonce] is the drawn nonce. *)
Definition encrypt_blob (plaintext encryption_key nonce : string) : Result string PhraseError :=
  if negb (bool_decide (str_len encryption_key = AES_256_KEY_LEN))
  then Err (PhErr.EncryptionFailed (key_length_text encryption_key))
  else match aes_encrypt encryption_key nonce plaintext with
       | Err e => Err (PhErr.EncryptionFailed e)
       | Ok ciphertext => Ok (nonce +:+ ciphertext)
       end.

(** [decrypt_blob]. *)
Definition decrypt_blob (encrypted encryption_key : string) : Result string PhraseError :=
  if negb (bool_decide (str_len encryption_key = AES_256_KEY_LEN))
  then Err (PhErr.DecryptionFailed (key_length_text encryption_key))
  else if bool_decide (str_len encrypted < AES_GCM_NONCE_LEN + 16)
  then Err (PhErr.DecryptionFailed "ciphertext too short")
  else
    let nonce := String.substring 0 12 encrypted in
    let ciphertext := String.substring 12 (String.length encrypted - 12) encrypted in
    map_err PhErr.DecryptionFailed (aes_decrypt encryption_key nonce ciphertext).

(** [encrypt_phrase_data]; a nonce per blob. *)
Definition encrypt_phrase_data (salt verifier encryption_key nonce1 nonce2 : string)
    : Result (string * string) PhraseError :=
  match encrypt_blob salt encryption_key nonce1 with
  | Err e => Err e
  | Ok encrypted_salt =>
      match encrypt_blob verifier encryption_key nonce2 with
      | Err e => Err e
      | Ok encrypted_verifier => Ok (encrypted_salt, encrypted_verifier)
      end
  end.

(** [decrypt_phrase_data]. *)
Definition decrypt_phrase_data (encrypted_salt encrypted_verifier encryption_key : string)
    : Result (string * string) PhraseError :=
  match decrypt_blob encrypted_salt encryption_key with
  | Err e => Err e
  | Ok salt =>
      match decrypt_blob encrypted_verifier encryption_key with
      | Err e => Err e
      | Ok verifier => Ok (salt, verifier)
      end
  end.
End phrase.

(** ** The comparison is equality *)

Lemma byte_diff_zero a : ∀ b diff,
  String.length a = String.length b → byte_diff diff a b = 0%N ↔ diff = 0%N ∧ a = b.
Proof.
  induction a as [|x a IH]; intros [|y b] diff Hlen; simplify_eq/=; [naive_solver|].
  rewrite IH, N.lor_eq_0_iff, N.lxor_eq_0_iff by done. split.
  - intros [[Hd Hx] ->]. split; [done|]. f_equal.
    by rewrite <-(Ascii.ascii_N_embedding x), Hx, Ascii.ascii_N_embedding.
  - intros [-> [= -> ->]]. done.
Qed.

(** The comparison without early exit decides equality. *)
Lemma constant_time_eq_spec a b : constant_time_eq a b = bool_decide (a = b).
Proof.
  unfold constant_time_eq, str_len. case_bool_decide as Hlen; simpl.
  - apply bool_decide_ext. rewrite byte_diff_zero by lia. naive_solver.
  - symmetry. apply bool_decide_eq_false. by intros ->.
Qed.

(** ** Round trips *)

Lemma length_append s1 s2 : String.length (s1 +:+ s2) = (String.length s1 + String.length s2)%nat.
Proof. induction s1 as [|c s1 IH]; simpl; [done|by rewrite IH]. Qed.

Lemma substring_append_left n s : String.substring 0 (String.length n) (n +:+ s) = n.
Proof. induction n as [|c n IH]; simpl; [by destruct s|by f_equal]. Qed.

Lemma substring_all s : String.substring 0 (String.length s) s = s.
Proof. induction s as [|c s IH]; simpl; [done|by f_equal]. Qed.

Lemma substring_append_right n s :
  String.substring (String.length n) (String.length s) (n +:+ s) = s.
Proof. induction n as [|c n IH]; simpl; [apply substring_all|exact IH]. Qed.

Section phrase_laws.
Context {Uuid : Type} `{PhraseCrypto Uuid, !PhraseCryptoLaws Uuid} `{UuidText Uuid}.

Lemma blob_roundtrip p key nonce c :
  str_len nonce = AES_GCM_NONCE_LEN → encrypt_blob p key nonce = Ok c → decrypt_blob c key = Ok p.
Proof.
  unfold encrypt_blob, decrypt_blob, AES_GCM_NONCE_LEN. intros Hn.
  case_bool_decide as Hk; [|done]. simpl.
  destruct (aes_encrypt key nonce p) as [ct|] eqn:He; [|done]. intros [= <-].
  apply aes_encrypt_length in He as Hl. unfold str_len in *.
  rewrite length_append, bool_decide_false by lia.
  assert (String.length nonce = 12%nat) as Hn' by lia.
  replace (String.length nonce + String.length ct - 12)%nat with (String.length ct) by lia.
  rewrite <-Hn', substring_append_left, substring_append_right.
  by rewrite (aes_decrypt_encrypt _ _ _ _ He).
Qed.

(** Sealed phrase data opens to what was sealed. *)
Lemma phrase_data_roundtrip salt verifier key n1 n2 es ev :
  str_len n1 = AES_GCM_NONCE_LEN → str_len n2 = AES_GCM_NONCE_LEN →
  encrypt_phrase_data salt verifier key n1 n2 = Ok (es, ev) →
  decrypt_phrase_data es ev key = Ok (salt, verifier).
Proof.
  unfold encrypt_phrase_data, decrypt_phrase_data. intros H1 H2.
  destruct (encrypt_blob salt key n1) as [c1|] eqn:E1; [|done].
  destruct (encrypt_blob verifier key n2) as [c2|] eqn:E2; [|done]. intros [= <- <-].
  by rewrite (blob_roundtrip _ _ _ _ H1 E1), (blob_roundtrip _ _ _ _ H2 E2).
Qed.

(** A phrase verifies against the hash of another exactly when Argon2id gives
    both the same output under the user's salt. *)
Lemma verify_hashed p q u cfg salt h :
  hash_phrase p u cfg salt = Ok h →
  verify_phrase q u (ph_salt h) (ph_verifier h) cfg =
    match argon2_hash cfg q (build_bound_salt salt u) with
    | Err e => Err (PhErr.HashingFailed e)
    | Ok v => Ok (bool_decide (v = ph_verifier h))
    end.
Proof.
  unfold hash_phrase, verify_phrase. destruct (build_argon2 cfg) as [[]|]; [|done].
  destruct (argon2_hash cfg p _) as [v|]; [|done]. intros [= <-]. simpl.
  destruct (argon2_hash cfg q _); [|done]. by rewrite constant_time_eq_spec.
Qed.

Lemma verify_own p u cfg salt h :
  hash_phrase p u cfg salt = Ok h → verify_phrase p u (ph_salt h) (ph_verifier h) cfg = Ok true.
Proof.
  intros Hh. rewrite (verify_hashed p) with (salt := salt) (h := h) by done. unfold hash_phrase in Hh.
  destruct (build_argon2 cfg) as [[]|]; [|done]. destruct (argon2_hash cfg p _) as [v|]; [|done].
  injection Hh as <-. by rewrite bool_decide_true.
Qed.
End phrase_laws.
