(* ===== verification/Accounts.v ===== *)
(** * Accounts (wavis-backend/src/auth/auth.rs, device.rs, pairing.rs,
    alpha_invite.rs)

    Registration by a closed-alpha invite, recovery by phrase, rotation of
    refresh tokens with reuse detection, devices, pairing of a new device, and
    the authentication of access tokens, over the tables of migrations 001 to 020.
    [now] is the database's clock and [utc] the server's, in microseconds;
    generated ids, drawn tokens and codes are arguments.  The keyed hash is a
    parameter.  Tokens have no unique key that is ever read, so their table is
    the list of its rows. *)

From Stdlib Require Import Sorting.Sorted.
From stdpp Require Import sorting.
From S2P Require Import Prelude SfuBridge Tokens SfuRelay Database Phrase.
Local Open Scope Z_scope.
Local Open Scope prog_scope.

(** ** Errors *)

Module DevErr.
(** [DeviceError]. *)
Inductive DeviceError : Type :=
| NotFound
| NotOwned
| DatabaseError (e : string).
End DevErr.
Abbreviation DeviceError := DevErr.DeviceError.

(** The text of a [DeviceError]. *)
Definition DeviceError_to_string (e : DeviceError) : string :=
  match e with
  | DevErr.NotFound => "device not found"
  | DevErr.NotOwned => "device does not belong to authenticated user"
  | DevErr.DatabaseError e => "database error: " +:+ e
  end.

Module PairErr.
(** [PairingError]. *)
Inductive PairingError : Type :=
| NotFound
| Expired
| AlreadyUsed
| AlreadyApproved
| NotApproved
| CodeMismatch
| LockedOut
| DatabaseError (e : string).
End PairErr.
Abbreviation PairingError := PairErr.PairingError.

Module AlphaErr.
(** [AlphaInviteError]. *)
Inductive AlphaInviteError : Type :=
| Invalid
| DatabaseError (e : string).

(** [AlphaInviteAdminError]. *)
Inductive AlphaInviteAdminError : Type :=
| InvalidLabel
| InvalidExpiry
| InvalidMaxRedemptions
| PepperTooShort
| CodeGenerationFailed
| NotFound
| AdminDatabaseError (e : string).
End AlphaErr.
Abbreviation AlphaInviteError := AlphaErr.AlphaInviteError.
Abbreviation AlphaInviteAdminError := AlphaErr.AlphaInviteAdminError.

(** The text of an [AuthError], for the modules that pass it on. *)
Definition AuthError_to_string (e : AuthError) : string :=
  match e with
  | SecretTooShort => "secret must be at least 32 bytes"
  | SigningFailed e => "token signing failed: " +:+ e
  | ValidationFailed => "token validation failed"
  | TokenExpired => "token expired"
  | InvalidToken => "invalid token"
  | RefreshTokenInvalid => "refresh token invalid or expired"
  | TokenReuseDetected => "token reuse detected — all tokens revoked for user"
  | EpochMismatch => "session epoch mismatch — token invalidated by security event"
  | DatabaseError e => "database error: " +:+ e
  | PhraseVerificationFailed => "phrase verification failed"
  | RecoveryIdNotFound => "recovery ID not found"
  | DeviceRevoked => "device revoked"
  | AuthInviteInvalid => "invite code invalid"
  end.

(** [str::contains]. *)
Fixpoint str_contains (needle s : string) : bool :=
  String.prefix needle s ||
  match s with String _ s' => str_contains needle s' | EmptyString => false end.

Definition micros_per_day : Z := 86400000000.
Definition i32_max : Z := 2147483647.

Section accounts.
Context {Uuid : Type} `{Countable Uuid} `{UuidText Uuid} `{PhraseCrypto Uuid} `{JwtCodec AuthTokenClaims}.
(** HMAC-SHA256 of a message under a key. *)
Context (hmac_sha256 : string → string → string).

(** ** Tables *)

(** A row of [users]. *)
Record UserRow : Type := mkUserRow {
  u_username : string;
  u_session_epoch : Z;
  u_phrase_salt : option string;
  u_phrase_verifier : option string;
  u_phrase_version : Z;
  u_recovery_id : option string
}.

(** A row of [devices]. *)
Record DeviceRow : Type := mkDeviceRow {
  d_user : Uuid;
  d_name : string;
  d_created_at : Z;
  d_revoked_at : option Z
}.

(** A row of [refresh_tokens]. *)
Record TokenRow : Type := mkTokenRow {
  r_device : Uuid;
  r_hash : string;
  r_family : Uuid;
  r_expires_at : Z;
  r_consumed_at : option Z;
  r_revoked_at : option Z
}.

(** A row of [pairings]. *)
Record PairingSession : Type := mkPairingSession {
  p_code_hash : string;
  p_request_device_name : string;
  p_approved_user_id : option Uuid;
  p_approved_by_device_id : option Uuid;
  p_approved_at : option Z;
  p_expires_at : Z;
  p_used_at : option Z;
  p_attempt_count : Z
}.

(** A row of [alpha_invites]: the hash of the code beside the
    [AlphaInviteAdminRecord]. *)
Record AlphaInviteAdminRecord : Type := mkAlphaInviteAdminRecord {
  a_code_hash : string;
  a_label : option string;
  a_created_at : Z;
  a_expires_at : option Z;
  a_disabled_at : option Z;
  a_max_redemptions : Z;
  a_redemption_count : Z
}.

(** The tables. *)
Record AuthDb : Type := mkAuthDb {
  users : gmap Uuid UserRow;
  devices : gmap Uuid DeviceRow;
  refresh_tokens : list TokenRow;
  pairings : gmap Uuid PairingSession;
  alpha_invites : gmap Uuid AlphaInviteAdminRecord;
  redemptions : list (Uuid * Uuid * Uuid)
}.
Definition set_users (x : gmap Uuid UserRow) (d : AuthDb) : AuthDb :=
  mkAuthDb x (devices d) (refresh_tokens d) (pairings d) (alpha_invites d) (redemptions d).
Definition set_devices (x : gmap Uuid DeviceRow) (d : AuthDb) : AuthDb :=
  mkAuthDb (users d) x (refresh_tokens d) (pairings d) (alpha_invites d) (redemptions d).
Definition set_tokens (x : list TokenRow) (d : AuthDb) : AuthDb :=
  mkAuthDb (users d) (devices d) x (pairings d) (alpha_invites d) (redemptions d).
Definition set_pairings (x : gmap Uuid PairingSession) (d : AuthDb) : AuthDb :=
  mkAuthDb (users d) (devices d) (refresh_tokens d) x (alpha_invites d) (redemptions d).
Definition set_alpha_invites (x : gmap Uuid AlphaInviteAdminRecord) (d : AuthDb) : AuthDb :=
  mkAuthDb (users d) (devices d) (refresh_tokens d) (pairings d) x (redemptions d).
Definition set_redemptions (x : list (Uuid * Uuid * Uuid)) (d : AuthDb) : AuthDb :=
  mkAuthDb (users d) (devices d) (refresh_tokens d) (pairings d) (alpha_invites d) x.

Definition Stmt (A : Type) : Type := AuthDb → Result A string * AuthDb.

(** [UPDATE users SET .. WHERE user_id = ..]. *)
Definition update_user (f : UserRow → UserRow) (user_id : Uuid) (d : AuthDb) : AuthDb :=
  match users d !! user_id with
  | None => d
  | Some u => set_users (<[user_id := f u]> (users d)) d
  end.

(** [INSERT INTO users DEFAULT VALUES]. *)
Definition insert_user (user_id : Uuid) : Stmt Uuid := λ d,
  if bool_decide (is_Some (users d !! user_id)) then (Err "users_pkey"%string, d)
  else (Ok user_id, set_users (<[user_id := mkUserRow EmptyString 0 None None 1 None]> (users d)) d).

(** Whether another user has the recovery id. *)
Definition recovery_id_taken (recovery_id : string) (d : AuthDb) : bool :=
  existsb (λ x, bool_decide (u_recovery_id x.2 = Some recovery_id)) (map_to_list (users d)).

(** [UPDATE users SET phrase_salt, phrase_verifier, recovery_id, username]. *)
Definition set_phrase (salt verifier : string) (u : UserRow) : UserRow :=
  mkUserRow (u_username u) (u_session_epoch u) (Some salt) (Some verifier) (u_phrase_version u) (u_recovery_id u).
Definition set_recovery_id (recovery_id : string) (u : UserRow) : UserRow :=
  mkUserRow (u_username u) (u_session_epoch u) (u_phrase_salt u) (u_phrase_verifier u) (u_phrase_version u)
    (Some recovery_id).
Definition set_username (username : string) (u : UserRow) : UserRow :=
  mkUserRow username (u_session_epoch u) (u_phrase_salt u) (u_phrase_verifier u) (u_phrase_version u)
    (u_recovery_id u).
Definition fill_user (user_id : Uuid) (salt verifier recovery_id username : string) : Stmt unit := λ d,
  if recovery_id_taken recovery_id d then (Err "idx_users_recovery_id"%string, d)
  else (Ok tt, update_user (λ u, set_username username (set_recovery_id recovery_id (set_phrase salt verifier u)))
                 user_id d).

(** [INSERT INTO devices .. RETURNING device_id]. *)
Definition insert_device (device_id user_id : Uuid) (name : string) (now : Z) : Stmt Uuid := λ d,
  if bool_decide (is_Some (devices d !! device_id)) then (Err "devices_pkey"%string, d)
  else if bool_decide (users d !! user_id = None) then (Err "devices_user_id_fkey"%string, d)
  else (Ok device_id, set_devices (<[device_id := mkDeviceRow user_id name now None]> (devices d)) d).

(** [INSERT INTO refresh_tokens]. *)
Definition insert_token (device_id : Uuid) (token_hash : string) (family_id : Uuid) (expires_at : Z)
    : Stmt unit := λ d,
  if bool_decide (devices d !! device_id = None) then (Err "fk_refresh_tokens_device"%string, d)
  else (Ok tt, set_tokens (refresh_tokens d ++ [mkTokenRow device_id token_hash family_id expires_at None None]) d).

(** [SELECT session_epoch FROM users] with [fetch_one]. *)
Definition epoch_of (user_id : Uuid) (d : AuthDb) : option Z := u_session_epoch <$> users d !! user_id.

(** [UPDATE users SET session_epoch = session_epoch + 1 .. RETURNING session_epoch]:
    the new epoch, if the user exists. *)
Definition set_epoch (e : Z) (u : UserRow) : UserRow :=
  mkUserRow (u_username u) e (u_phrase_salt u) (u_phrase_verifier u) (u_phrase_version u) (u_recovery_id u).
Definition bump_epoch (user_id : Uuid) : Stmt (option Z) := λ d,
  match users d !! user_id with
  | None => (Ok None, d)
  | Some u =>
      if bool_decide (i32_max < u_session_epoch u + 1) then (Err "integer out of range"%string, d)
      else (Ok (Some (u_session_epoch u + 1)),
            set_users (<[user_id := set_epoch (u_session_epoch u + 1) u]> (users d)) d)
  end.

(** Rows of tokens. *)
Definition set_consumed (now : Z) (r : TokenRow) : TokenRow :=
  mkTokenRow (r_device r) (r_hash r) (r_family r) (r_expires_at r) (Some now) (r_revoked_at r).
Definition set_revoked (now : Z) (r : TokenRow) : TokenRow :=
  mkTokenRow (r_device r) (r_hash r) (r_family r) (r_expires_at r) (r_consumed_at r) (Some now).
Definition update_tokens (p : TokenRow → bool) (f : TokenRow → TokenRow) (d : AuthDb) : AuthDb :=
  set_tokens (map (λ r, if p r then f r else r) (refresh_tokens d)) d.

(** The condition of the consuming update. *)
Definition consumable (token_hash : string) (now : Z) (r : TokenRow) : bool :=
  bool_decide (r_hash r = token_hash) && bool_decide (now < r_expires_at r) &&
  bool_decide (r_consumed_at r = None) && bool_decide (r_revoked_at r = None).

(** [UPDATE refresh_tokens SET consumed_at = now() .. RETURNING device_id, family_id]. *)
Definition consume_token (token_hash : string) (now : Z) : Stmt (option (Uuid * Uuid)) := λ d,
  (Ok ((λ r, (r_device r, r_family r)) <$> List.find (consumable token_hash now) (refresh_tokens d)),
   update_tokens (consumable token_hash now) (set_consumed now) d).

(** The reuse query. *)
Definition consumed_device (token_hash : string) (d : AuthDb) : option Uuid :=
  r_device <$> List.find (λ r, bool_decide (r_hash r = token_hash) && bool_decide (is_Some (r_consumed_at r)))
    (refresh_tokens d).

(** The tokens of a user's devices that are not yet revoked. *)
Definition of_user (user_id : Uuid) (d : AuthDb) (r : TokenRow) : bool :=
  match devices d !! r_device r with
  | Some dev => bool_decide (d_user dev = user_id) && bool_decide (r_revoked_at r = None)
  | None => false
  end.
Definition revoke_user_tokens (user_id : Uuid) (now : Z) : Stmt unit := λ d,
  (Ok tt, update_tokens (of_user user_id d) (set_revoked now) d).

(** ** Results *)

(** [DeviceRegistration]. *)
Record DeviceRegistration : Type := mkDeviceRegistration {
  reg_user_id : Uuid;
  reg_device_id : Uuid;
  reg_recovery_id : string;
  reg_access_token : string;
  reg_refresh_token : string
}.

(** [TokenPair]. *)
Record TokenPair : Type := mkTokenPair {
  tp_access_token : string;
  tp_refresh_token : string;
  tp_user_id : Uuid;
  tp_device_id : Uuid
}.

(** [PairingResult]. *)
Record PairingResult : Type := mkPairingResult {
  pr_user_id : Uuid;
  pr_device_id : Uuid;
  pr_access_token : string;
  pr_refresh_token : string
}.

(** [DeviceInfo]. *)
Record DeviceInfo : Type := mkDeviceInfo {
  di_device_id : Uuid;
  di_device_name : string;
  di_created_at : Z;
  di_revoked_at : option Z
}.

(** [hash_refresh_token] and [hmac_code]. *)
Definition hash_refresh_token (raw_token pepper : string) : string := hmac_sha256 pepper raw_token.
Definition hmac_code (code pepper : string) : string := hmac_sha256 pepper code.

Abbreviation Prog E A := (M AuthDb E A) (only parsing).
Abbreviation asql := (execute DatabaseError) (only parsing).
Abbreviation aselect := (fetch DatabaseError) (only parsing).

(** [sqlx::Error::RowNotFound]. *)
Definition no_rows : string := "no rows returned by a query that expected to return at least one row".
Definition fetch_one {A} (o : option A) : Prog AuthError A :=
  match o with Some a => mret a | None => throw (DatabaseError no_rows) end.

(** What an operation draws, and the clocks it reads. *)
Record Draws : Type := mkDraws {
  dw_now : Z;
  dw_utc : Z;
  dw_unix : Z;
  dw_device_id : Uuid;
  dw_family_id : Uuid;
  dw_raw_refresh : string
}.

(** The settings of the account operations. *)
Record AuthConfig : Type := mkAuthConfig {
  auth_secret : string;
  access_ttl_secs : Z;
  refresh_ttl_days : Z;
  refresh_pepper : string;
  phrase_config : PhraseConfig;
  encryption_key : string
}.
Definition refresh_expiry (cfg : AuthConfig) (utc : Z) : Z := utc + refresh_ttl_days cfg * micros_per_day.

(** [generate_recovery_id] and [generate_pairing_code] on the drawn indices. *)
Definition RECOVERY_ID_CHARSET : string := "ABCDEFGHIJKLMNOPQRSTUVWXYZ0123456789".
Definition CODE_CHARSET : string := "ABCDEFGHIJKLMNOPQRSTUVWXYZ234567".
Definition pick (charset : string) (idxs : list nat) : string :=
  foldr (λ i acc, match String.get i charset with Some c => String c acc | None => acc end) EmptyString idxs.
Definition generate_recovery_id (idxs : list nat) : string :=
  let chars := pick RECOVERY_ID_CHARSET idxs in
  "wvs-" +:+ String.substring 0 4 chars +:+ "-" +:+ String.substring 4 4 chars.
Definition generate_pairing_code (idxs : list nat) : string := pick CODE_CHARSET idxs.

(** ** Alpha invites *)

(** [char::is_ascii_whitespace] and ['-']. *)
Definition skipped (c : Ascii.ascii) : bool :=
  let n := Ascii.nat_of_ascii c in
  bool_decide (n ∈ [32; 9; 10; 12; 13; 45]%nat).
Definition to_ascii_uppercase (c : Ascii.ascii) : Ascii.ascii :=
  let n := Ascii.nat_of_ascii c in
  if bool_decide (97 ≤ n ≤ 122)%nat then Ascii.ascii_of_nat (n - 32) else c.
Fixpoint normalize_chars (s : string) : string :=
  match s with
  | EmptyString => EmptyString
  | String c s' => if skipped c then normalize_chars s' else String (to_ascii_uppercase c) (normalize_chars s')
  end.

(** [normalize_invite_code]. *)
Definition normalize_invite_code (code : string) : Result string AlphaInviteError :=
  let normalized := normalize_chars (trim code) in
  if bool_decide (normalized = EmptyString) then Err AlphaErr.Invalid else Ok normalized.

(** [hash_invite_code]. *)
Definition HASH_DOMAIN : string := "alpha-invite:v1:".
Definition hash_invite_code (code pepper : string) : Result string AlphaInviteError :=
  match normalize_invite_code code with
  | Err e => Err e
  | Ok normalized => Ok (hmac_sha256 pepper (HASH_DOMAIN +:+ normalized))
  end.

(** [generate_raw_alpha_invite_code] on the drawn bytes: the upper-case
    hexadecimal digits, with a dash before every fourth but the first. *)
Definition hex_digit (n : N) : Ascii.ascii := Ascii.ascii_of_N (if bool_decide (n < 10)%N then 48 + n else 55 + n)%N.
Fixpoint hex_upper (bytes : list N) : string :=
  match bytes with
  | [] => EmptyString
  | b :: bytes' => String (hex_digit (b / 16)) (String (hex_digit (b mod 16)) (hex_upper bytes'))
  end.
Fixpoint grouped (index : nat) (s : string) : string :=
  match s with
  | EmptyString => EmptyString
  | String c s' =>
      if bool_decide (0 < index)%nat && bool_decide (index mod 4 = 0)%nat
      then String (Ascii.ascii_of_N 45) (String c (grouped (S index) s')) else String c (grouped (S index) s')
  end.
Definition generate_raw_alpha_invite_code (bytes : list N) : string := grouped 0 (hex_upper bytes).

(** [SELECT .. FROM alpha_invites WHERE code_hash = .. FOR UPDATE]. *)
Definition invite_by_hash (code_hash : string) (d : AuthDb) : option (Uuid * AlphaInviteAdminRecord) :=
  List.find (λ x, bool_decide (a_code_hash x.2 = code_hash)) (map_to_list (alpha_invites d)).

(** [UPDATE alpha_invites SET redemption_count = redemption_count + 1], with the
    check on the count. *)
Definition set_redemption_count (n : Z) (a : AlphaInviteAdminRecord) : AlphaInviteAdminRecord :=
  mkAlphaInviteAdminRecord (a_code_hash a) (a_label a) (a_created_at a) (a_expires_at a) (a_disabled_at a)
    (a_max_redemptions a) n.
Definition count_redemption (invite_id : Uuid) : Stmt unit := λ d,
  match alpha_invites d !! invite_id with
  | None => (Ok tt, d)
  | Some a =>
      if bool_decide (a_max_redemptions a < a_redemption_count a + 1)
      then (Err "alpha_invites_redemption_count_check"%string, d)
      else (Ok tt, set_alpha_invites (<[invite_id := set_redemption_count (a_redemption_count a + 1) a]>
                     (alpha_invites d)) d)
  end.

(** [redeem_alpha_invite]; its statements are those from [k] on. *)
Definition redeem_alpha_invite (io : Io) (k : nat) (code pepper : string) (utc : Z)
    : Prog AlphaInviteError Uuid :=
  let! code_hash := lift_result (hash_invite_code code pepper) in
  let! row := fetch AlphaErr.DatabaseError io k (invite_by_hash code_hash) in
  match row with
  | None => throw AlphaErr.Invalid
  | Some (invite_id, a) =>
      if bool_decide (is_Some (a_disabled_at a)) ||
         match a_expires_at a with Some t => bool_decide (t ≤ utc) | None => false end ||
         bool_decide (a_max_redemptions a ≤ a_redemption_count a)
      then throw AlphaErr.Invalid
      else
        do! execute AlphaErr.DatabaseError io (S k) (count_redemption invite_id) in
        mret invite_id
  end.

(** [record_redemption]. *)
Definition record_redemption (io : Io) (k : nat) (invite_id user_id device_id : Uuid) : Prog AlphaInviteError unit :=
  execute AlphaErr.DatabaseError io k (λ d,
    if bool_decide (alpha_invites d !! invite_id = None) || bool_decide (users d !! user_id = None)
       || bool_decide (devices d !! device_id = None)
    then (Err "alpha_invite_redemptions_fkey"%string, d)
    else (Ok tt, set_redemptions (redemptions d ++ [(invite_id, user_id, device_id)]) d)).

Definition of_alpha_error (e : AlphaInviteError) : AuthError :=
  match e with AlphaErr.Invalid => AuthInviteInvalid | AlphaErr.DatabaseError e => DatabaseError e end.

(** [char::is_control] of some character: C0, DEL, and C1, which UTF-8 writes as
    0xC2 followed by 0x80 to 0x9F. *)
Fixpoint has_control (s : string) : bool :=
  match s with
  | EmptyString => false
  | String c s' =>
      let n := Ascii.nat_of_ascii c in
      bool_decide (n < 32)%nat || bool_decide (n = 127)%nat ||
      match s' with
      | String c' _ => bool_decide (n = 194)%nat && bool_decide (128 ≤ Ascii.nat_of_ascii c' < 160)%nat
      | EmptyString => false
      end || has_control s'
  end.

Definition MAX_LABEL_CHARS : Z := 100.

(** [validate_alpha_invite_label]. *)
Definition validate_alpha_invite_label (label : string) : Result string AlphaInviteAdminError :=
  let label := trim label in
  let length := chars_count label in
  if bool_decide (length = 0) || bool_decide (MAX_LABEL_CHARS < length) || has_control label
  then Err AlphaErr.InvalidLabel else Ok label.

(** [validate_create_options]. *)
Definition validate_create_options (label : string) (expires_at : option Z) (max_redemptions pepper_length utc : Z)
    : Result string AlphaInviteAdminError :=
  match validate_alpha_invite_label label with
  | Err e => Err e
  | Ok label =>
      if bool_decide (max_redemptions ≤ 0) then Err AlphaErr.InvalidMaxRedemptions
      else if match expires_at with Some t => bool_decide (t ≤ utc) | None => false end
      then Err AlphaErr.InvalidExpiry
      else if bool_decide (pepper_length < 32) then Err AlphaErr.PepperTooShort
      else Ok label
  end.

(** [INSERT INTO alpha_invites .. RETURNING ..]. *)
Definition insert_alpha_invite (invite_id : Uuid) (code_hash label : string) (expires_at : option Z)
    (max_redemptions now : Z) : Stmt AlphaInviteAdminRecord := λ d,
  let a := mkAlphaInviteAdminRecord code_hash (Some label) now expires_at None max_redemptions 0 in
  if bool_decide (is_Some (alpha_invites d !! invite_id)) then (Err "alpha_invites_pkey"%string, d)
  else if bool_decide (is_Some (invite_by_hash code_hash d)) then (Err "alpha_invites_code_hash_key"%string, d)
  else if bool_decide (max_redemptions ≤ 0) then (Err "alpha_invites_max_redemptions_check"%string, d)
  else (Ok a, set_alpha_invites (<[invite_id := a]> (alpha_invites d)) d).

(** [create_alpha_invite]: the record and the raw code, which is drawn. *)
Definition create_alpha_invite (io : Io) (label : string) (expires_at : option Z) (max_redemptions : Z)
    (pepper raw_code : string) (invite_id : Uuid) (utc now : Z)
    : Prog AlphaInviteAdminError (AlphaInviteAdminRecord * string) :=
  let! label := lift_result (validate_create_options label expires_at max_redemptions (str_len pepper) utc) in
  let! code_hash := lift_result (map_err (λ _, AlphaErr.CodeGenerationFailed) (hash_invite_code raw_code pepper)) in
  let! row := execute AlphaErr.AdminDatabaseError io 0%nat
                (insert_alpha_invite invite_id code_hash label expires_at max_redemptions now) in
  mret (row, raw_code).

(** [disable_alpha_invite]. *)
Definition disable_alpha_invite (io : Io) (invite_id : Uuid) (now : Z)
    : Prog AlphaInviteAdminError AlphaInviteAdminRecord :=
  let! row := execute AlphaErr.AdminDatabaseError io 0%nat (λ d,
    match alpha_invites d !! invite_id with
    | None => (Ok None, d)
    | Some a =>
        let a := mkAlphaInviteAdminRecord (a_code_hash a) (a_label a) (a_created_at a) (a_expires_at a)
                   (Some (default now (a_disabled_at a))) (a_max_redemptions a) (a_redemption_count a) in
        (Ok (Some a), set_alpha_invites (<[invite_id := a]> (alpha_invites d)) d)
    end) in
  match row with Some a => mret a | None => throw AlphaErr.NotFound end.

(** [AlphaInviteStatus] and [AlphaInviteAdminRecord::status_at]. *)
Inductive AlphaInviteStatus : Type := Active | Disabled | Expired | Exhausted.
Definition status_at (now : Z) (a : AlphaInviteAdminRecord) : AlphaInviteStatus :=
  if bool_decide (is_Some (a_disabled_at a)) then Disabled
  else if match a_expires_at a with Some t => bool_decide (t ≤ now) | None => false end then Expired
  else if bool_decide (a_max_redemptions a ≤ a_redemption_count a) then Exhausted
  else Active.
Definition AlphaInviteStatus_as_str (s : AlphaInviteStatus) : string :=
  match s with Active => "active" | Disabled => "disabled" | Expired => "expired" | Exhausted => "exhausted" end.

(** [remaining_redemptions]: [i32] saturating subtraction of counts that are not
    negative. *)
Definition remaining_redemptions (a : AlphaInviteAdminRecord) : Z := a_max_redemptions a - a_redemption_count a.

(** [list_alpha_invites], ordered by creation and then by id, both descending;
    [id_le] is the order of ids. *)
Definition newest_first (id_le : Uuid → Uuid → Prop) (x y : Uuid * AlphaInviteAdminRecord) : Prop :=
  a_created_at y.2 < a_created_at x.2 ∨ (a_created_at y.2 = a_created_at x.2 ∧ id_le y.1 x.1).
Definition list_alpha_invites (id_le : Uuid → Uuid → Prop) `{!RelDecision (newest_first id_le)} (io : Io)
    (label : option string) : Prog AlphaInviteAdminError (list (Uuid * AlphaInviteAdminRecord)) :=
  let! wanted := match label with
    | None => mret None
    | Some l => let! l := lift_result (validate_alpha_invite_label l) in mret (Some l)
    end in
  fetch AlphaErr.AdminDatabaseError io 0%nat (λ d,
    merge_sort (newest_first id_le)
      (List.filter (λ x, match wanted with Some l => bool_decide (a_label x.2 = Some l) | None => true end)
         (map_to_list (alpha_invites d)))).

(** ** Devices *)

(** [create_device]. *)
Definition create_device (io : Io) (k : nat) (device_id user_id : Uuid) (name : string) (now : Z)
    : Prog DeviceError Uuid :=
  execute DevErr.DatabaseError io k (insert_device device_id user_id name now).

(** [list_devices]. *)
Definition device_info (user_id : Uuid) (x : Uuid * DeviceRow) : option DeviceInfo :=
  if bool_decide (d_user x.2 = user_id)
  then Some (mkDeviceInfo x.1 (d_name x.2) (d_created_at x.2) (d_revoked_at x.2)) else None.
Definition older_device (a b : DeviceInfo) : Prop := di_created_at a ≤ di_created_at b.
#[local] Instance older_device_dec : RelDecision older_device.
Proof. intros a b. unfold older_device. apply _. Defined.
Definition list_devices (io : Io) (user_id : Uuid) : Prog DeviceError (list DeviceInfo) :=
  fetch DevErr.DatabaseError io 0%nat (λ d,
    merge_sort older_device (omap (device_info user_id) (map_to_list (devices d)))).

(** [is_device_active]. *)
Definition is_device_active (io : Io) (k : nat) (device_id : Uuid) : Prog DeviceError bool :=
  fetch DevErr.DatabaseError io k (λ d,
    match devices d !! device_id with Some dev => bool_decide (d_revoked_at dev = None) | None => false end).

(** [revoke_device]: three statements, each on its own. *)
Definition mark_device_revoked (device_id : Uuid) (now : Z) : Stmt unit := λ d,
  (Ok tt, match devices d !! device_id with
          | Some dev =>
              if bool_decide (d_revoked_at dev = None)
              then set_devices (<[device_id := mkDeviceRow (d_user dev) (d_name dev) (d_created_at dev) (Some now)]>
                     (devices d)) d
              else d
          | None => d
          end).
Definition revoke_device_tokens (device_id : Uuid) (now : Z) : Stmt unit := λ d,
  (Ok tt, update_tokens (λ r, bool_decide (r_device r = device_id) && bool_decide (r_revoked_at r = None))
            (set_revoked now) d).
Definition revoke_device (io : Io) (user_id target_device_id : Uuid) (now now2 : Z) : Prog DeviceError unit :=
  let! owner := fetch DevErr.DatabaseError io 0%nat (λ d, d_user <$> devices d !! target_device_id) in
  match owner with
  | None => throw DevErr.NotFound
  | Some owner_id =>
      if negb (bool_decide (owner_id = user_id)) then throw DevErr.NotOwned
      else
        do! execute DevErr.DatabaseError io 1%nat (mark_device_revoked target_device_id now) in
        execute DevErr.DatabaseError io 2%nat (revoke_device_tokens target_device_id now2)
  end.

(** [logout_all]. *)
Definition logout_all (io : Io) (user_id : Uuid) (now : Z) : Prog DeviceError Z :=
  in_tx DevErr.DatabaseError io 0%nat 3%nat (
    let! new_epoch := execute DevErr.DatabaseError io 1%nat (bump_epoch user_id) in
    match new_epoch with
    | None => throw (DevErr.DatabaseError no_rows)
    | Some new_epoch =>
        do! execute DevErr.DatabaseError io 2%nat (revoke_user_tokens user_id now) in
        mret new_epoch
    end).

Definition of_device_error (e : DeviceError) : AuthError := DatabaseError (DeviceError_to_string e).
Definition of_phrase_error (e : PhraseError) : AuthError := DatabaseError (PhraseError_to_string e).

(** ** Registration *)

(** The phrase of a new user, hashed and sealed. *)
Record PhraseDraws : Type := mkPhraseDraws {
  pd_salt : string;
  pd_nonce1 : string;
  pd_nonce2 : string
}.
Definition seal_phrase (cfg : AuthConfig) (phrase : string) (user_id : Uuid) (pd : PhraseDraws)
    : Result (string * string) AuthError :=
  match hash_phrase phrase user_id (phrase_config cfg) (pd_salt pd) with
  | Err e => Err (of_phrase_error e)
  | Ok hash => map_err of_phrase_error
      (encrypt_phrase_data (ph_salt hash) (ph_verifier hash) (encryption_key cfg) (pd_nonce1 pd) (pd_nonce2 pd))
  end.

(** A new refresh token of a device, by the statement [k]. *)
Definition store_refresh (cfg : AuthConfig) (io : Io) (k : nat) (device_id family_id : Uuid) (dw : Draws)
    : Prog AuthError unit :=
  asql io k (insert_token device_id (hash_refresh_token (dw_raw_refresh dw) (refresh_pepper cfg)) family_id
               (refresh_expiry cfg (dw_utc dw))).

(** [generate_unique_recovery_id_in_tx]: the first of the six drawn ids that is
    free; one statement each, from [k] on. *)
Fixpoint unique_recovery_id (io : Io) (k : nat) (ids : list string) : Prog AuthError string :=
  match ids with
  | [] => throw (DatabaseError "failed to generate unique recovery_id")
  | recovery_id :: ids' =>
      let! exists_ := aselect io k (recovery_id_taken recovery_id) in
      if negb exists_ then mret recovery_id else unique_recovery_id io (S k) ids'
  end.

(** [register_user_with_invite]. *)
Definition register_user_with_invite (cfg : AuthConfig) (io : Io) (phrase username invite_code alpha_pepper : string)
    (user_id : Uuid) (pd : PhraseDraws) (recovery_ids : list string) (dw : Draws) : Prog AuthError DeviceRegistration :=
  in_tx DatabaseError io 0%nat 20%nat (
    let! invite_id := map_err_m of_alpha_error (redeem_alpha_invite io 1%nat invite_code alpha_pepper (dw_utc dw)) in
    let! user_id := asql io 3%nat (insert_user user_id) in
    let! sealed := lift_result (seal_phrase cfg phrase user_id pd) in
    let '(enc_salt, enc_verifier) := sealed in
    let! recovery_id := unique_recovery_id io 4%nat recovery_ids in
    do! asql io 10%nat (fill_user user_id enc_salt enc_verifier recovery_id username) in
    let! device_id := asql io 11%nat (insert_device (dw_device_id dw) user_id "primary" (dw_now dw)) in
    do! store_refresh cfg io 12%nat device_id (dw_family_id dw) dw in
    do! map_err_m of_alpha_error (record_redemption io 13%nat invite_id user_id device_id) in
    let! access_token := lift_result (sign_access_token user_id device_id (auth_secret cfg) (access_ttl_secs cfg) 0
                                        (dw_unix dw)) in
    mret (mkDeviceRegistration user_id device_id recovery_id access_token (dw_raw_refresh dw))).

(** [register_device], whose endpoint is gone. *)
Definition register_device (cfg : AuthConfig) (io : Io) (user_id : Uuid) (dw : Draws)
    : Prog AuthError DeviceRegistration :=
  let! user_id := asql io 0%nat (insert_user user_id) in
  let! device_id := map_err_m of_device_error (create_device io 1%nat (dw_device_id dw) user_id EmptyString (dw_now dw)) in
  do! store_refresh cfg io 2%nat device_id (dw_family_id dw) dw in
  let! access_token := lift_result (sign_access_token user_id device_id (auth_secret cfg) (access_ttl_secs cfg) 0
                                      (dw_unix dw)) in
  mret (mkDeviceRegistration user_id device_id EmptyString access_token (dw_raw_refresh dw)).

(** The retries of [register_user]: another id is drawn when the one tried is
    taken, five times at most. *)
Definition claim_id (user_id : Uuid) (salt verifier recovery_id : string) : Stmt unit := λ d,
  if recovery_id_taken recovery_id d then (Err "idx_users_recovery_id"%string, d)
  else (Ok tt, update_user (λ u, set_recovery_id recovery_id (set_phrase salt verifier u)) user_id d).
Fixpoint claim_recovery_id (io : Io) (k : nat) (user_id : Uuid) (salt verifier recovery_id : string)
    (more : list string) : Prog AuthError string :=
  let! r := attempt (asql io k (claim_id user_id salt verifier recovery_id)) in
  match r, more with
  | Ok _, _ => mret recovery_id
  | Err (DatabaseError e), next :: more' =>
      if str_contains "idx_users_recovery_id" e || str_contains "23505" e
      then claim_recovery_id io (S k) user_id salt verifier next more'
      else throw (DatabaseError e)
  | Err e, _ => throw e
  end.

(** [register_user], without a transaction. *)
Definition register_user (cfg : AuthConfig) (io : Io) (phrase username : string) (user_id : Uuid) (pd : PhraseDraws)
    (recovery_id : string) (more : list string) (dw : Draws) : Prog AuthError DeviceRegistration :=
  let! user_id := asql io 0%nat (insert_user user_id) in
  let! sealed := lift_result (seal_phrase cfg phrase user_id pd) in
  let '(enc_salt, enc_verifier) := sealed in
  let! recovery_id := claim_recovery_id io 1%nat user_id enc_salt enc_verifier recovery_id more in
  do! asql io 7%nat (λ d, (Ok tt, update_user (set_username username) user_id d)) in
  let! device_id := map_err_m of_device_error (create_device io 8%nat (dw_device_id dw) user_id "primary" (dw_now dw)) in
  do! store_refresh cfg io 9%nat device_id (dw_family_id dw) dw in
  let! access_token := lift_result (sign_access_token user_id device_id (auth_secret cfg) (access_ttl_secs cfg) 0
                                      (dw_unix dw)) in
  mret (mkDeviceRegistration user_id device_id recovery_id access_token (dw_raw_refresh dw)).

(** ** Recovery and phrases *)

(** [SELECT user_id, phrase_salt, phrase_verifier FROM users WHERE recovery_id = ..]. *)
Definition user_by_recovery_id (recovery_id : string) (d : AuthDb) : option (Uuid * UserRow) :=
  List.find (λ x, bool_decide (u_recovery_id x.2 = Some recovery_id)) (map_to_list (users d)).

(** [recover_account]. *)
Definition recover_account (cfg : AuthConfig) (io : Io) (recovery_id phrase : string) (dw : Draws)
    : Prog AuthError DeviceRegistration :=
  let! row := aselect io 0%nat (user_by_recovery_id recovery_id) in
  match row with
  | Some (user_id, mkUserRow _ _ (Some enc_salt) (Some enc_verifier) _ _) =>
      let! sv := lift_result (map_err of_phrase_error
                   (decrypt_phrase_data enc_salt enc_verifier (encryption_key cfg))) in
      let '(salt, verifier) := sv in
      let! valid := lift_result (map_err of_phrase_error
                      (verify_phrase phrase user_id salt verifier (phrase_config cfg))) in
      if negb valid then throw PhraseVerificationFailed
      else
        let! device_id := map_err_m of_device_error
                            (create_device io 1%nat (dw_device_id dw) user_id "primary" (dw_now dw)) in
        do! store_refresh cfg io 2%nat device_id (dw_family_id dw) dw in
        let! epoch := aselect io 3%nat (epoch_of user_id) in
        let! epoch := fetch_one epoch in
        let! access_token := lift_result (sign_access_token user_id device_id (auth_secret cfg)
                                            (access_ttl_secs cfg) epoch (dw_unix dw)) in
        mret (mkDeviceRegistration user_id device_id recovery_id access_token (dw_raw_refresh dw))
  | _ => throw RecoveryIdNotFound
  end.

(** [rotate_phrase]; [phrase_version + 1] can leave the range of the column. *)
Definition replace_phrase (user_id : Uuid) (salt verifier : string) : Stmt unit := λ d,
  match users d !! user_id with
  | None => (Ok tt, d)
  | Some u =>
      if bool_decide (i32_max < u_phrase_version u + 1) then (Err "integer out of range"%string, d)
      else (Ok tt, set_users (<[user_id := mkUserRow (u_username u) (u_session_epoch u) (Some salt) (Some verifier)
                                             (u_phrase_version u + 1) (u_recovery_id u)]> (users d)) d)
  end.
Definition rotate_phrase (cfg : AuthConfig) (io : Io) (user_id : Uuid) (current_phrase new_phrase : string)
    (pd : PhraseDraws) : Prog AuthError unit :=
  let! row := aselect io 0%nat (λ d, users d !! user_id) in
  match row with
  | Some (mkUserRow _ _ (Some enc_salt) (Some enc_verifier) _ _) =>
      let! sv := lift_result (map_err of_phrase_error
                   (decrypt_phrase_data enc_salt enc_verifier (encryption_key cfg))) in
      let '(salt, verifier) := sv in
      let! valid := lift_result (map_err of_phrase_error
                      (verify_phrase current_phrase user_id salt verifier (phrase_config cfg))) in
      if negb valid then throw PhraseVerificationFailed
      else
        let! sealed := lift_result (seal_phrase cfg new_phrase user_id pd) in
        let '(new_enc_salt, new_enc_verifier) := sealed in
        asql io 1%nat (replace_phrase user_id new_enc_salt new_enc_verifier)
  | _ => throw PhraseVerificationFailed
  end.

(** [update_username], [get_username]. *)
Definition update_username (io : Io) (user_id : Uuid) (username : string) : Prog AuthError unit :=
  asql io 0%nat (λ d, (Ok tt, update_user (set_username username) user_id d)).
Definition get_username (io : Io) (user_id : Uuid) : Prog AuthError string :=
  aselect io 0%nat (λ d, default EmptyString (u_username <$> users d !! user_id)).

(** ** Rotation *)

(** What the transaction of [try_rotate] commits to. *)
Inductive Rotation : Type :=
| Rotated (user_id device_id : Uuid) (epoch : Z)
| Reused
| Unknown.

(** The user and the epoch of a device. *)
Definition user_of_device (device_id : Uuid) (d : AuthDb) : option (Uuid * Z) :=
  dev ← devices d !! device_id; u ← users d !! d_user dev; Some (d_user dev, u_session_epoch u).

(** The body of [try_rotate] up to its commits. *)
Definition rotate_body (cfg : AuthConfig) (io : Io) (token_hash : string) (dw : Draws) : Prog AuthError Rotation :=
  let! consumed := asql io 1%nat (consume_token token_hash (dw_now dw)) in
  match consumed with
  | Some (device_id, family_id) =>
      let! row := aselect io 2%nat (user_of_device device_id) in
      match row with
      | None => throw InvalidToken
      | Some (user_id, epoch) =>
          do! store_refresh cfg io 3%nat device_id family_id dw in
          mret (Rotated user_id device_id epoch)
      end
  | None =>
      let! reuse_row := aselect io 2%nat (consumed_device token_hash) in
      match reuse_row with
      | None => mret Unknown
      | Some reuse_device_id =>
          let! reuse_user := aselect io 3%nat (λ d, d_user <$> devices d !! reuse_device_id) in
          do! match reuse_user with
              | None => mret tt
              | Some user_id =>
                  do! asql io 4%nat (revoke_user_tokens user_id (dw_now dw)) in
                  let! _e := asql io 5%nat (bump_epoch user_id) in
                  mret tt
              end in
          mret Reused
      end
  end.

(** [try_rotate]. *)
Definition try_rotate (cfg : AuthConfig) (io : Io) (token_hash : string) (dw : Draws) : Prog AuthError TokenPair :=
  let! outcome := in_tx DatabaseError io 0%nat 6%nat (rotate_body cfg io token_hash dw) in
  match outcome with
  | Rotated user_id device_id epoch =>
      let! access_token := lift_result (sign_access_token user_id device_id (auth_secret cfg) (access_ttl_secs cfg)
                                          epoch (dw_unix dw)) in
      mret (mkTokenPair access_token (dw_raw_refresh dw) user_id device_id)
  | Reused => throw TokenReuseDetected
  | Unknown => throw RefreshTokenInvalid
  end.

(** [rotate_refresh_token]: the attempts, each with its own draws and failures;
    a failure whose text contains the code of a serialization failure is tried
    again, except the last. *)
Fixpoint rotate_attempts (cfg : AuthConfig) (token_hash : string) (tries : list (Io * Draws)) : Prog AuthError TokenPair :=
  match tries with
  | [] => throw (DatabaseError "serialization retry exhausted")
  | (io, dw) :: tries' =>
      let! r := attempt (try_rotate cfg io token_hash dw) in
      match r with
      | Ok p => mret p
      | Err (DatabaseError msg) =>
          if str_contains "40001" msg && negb (bool_decide (tries' = []))
          then rotate_attempts cfg token_hash tries' else throw (DatabaseError msg)
      | Err e => throw e
      end
  end.
Definition rotate_refresh_token (cfg : AuthConfig) (raw_refresh_token : string) (try1 try2 try3 : Io * Draws)
    : Prog AuthError TokenPair :=
  rotate_attempts cfg (hash_refresh_token raw_refresh_token (refresh_pepper cfg)) [try1; try2; try3].

(** [sweep_expired_tokens], [sweep_consumed_tokens]: the rows deleted. *)
Definition delete_tokens (p : TokenRow → bool) : Stmt Z := λ d,
  let kept := retain (λ r, negb (p r)) (refresh_tokens d) in
  (Ok (len (refresh_tokens d) - len kept), set_tokens kept d).
Definition sweep_expired_tokens (io : Io) (now : Z) : Prog AuthError Z :=
  asql io 0%nat (delete_tokens (λ r, bool_decide (r_expires_at r < now))).
Definition micros_per_hour : Z := 3600000000.
Definition sweep_consumed_tokens (io : Io) (retention_hours now : Z) : Prog AuthError Z :=
  let old t := match t with Some t => bool_decide (t < now - retention_hours * micros_per_hour) | None => false end in
  asql io 0%nat (delete_tokens (λ r, old (r_consumed_at r) || old (r_revoked_at r))).

(** [validate_refresh_ttl]. *)
Definition validate_refresh_ttl (days : Z) : Result unit string :=
  if bool_decide (days = 0) then Err "REFRESH_TOKEN_TTL_DAYS must be at least 1"%string
  else if bool_decide (365 < days) then Err "REFRESH_TOKEN_TTL_DAYS must not exceed 365"%string
  else Ok tt.

(** ** Access tokens *)

(** [check_session_epoch]. *)
Definition check_session_epoch (io : Io) (k : nat) (user_id : Uuid) (token_epoch : Z) : Prog AuthError unit :=
  let! current_epoch := aselect io k (epoch_of user_id) in
  match current_epoch with
  | Some db_epoch => if bool_decide (db_epoch = token_epoch) then mret tt else throw EpochMismatch
  | None => throw InvalidToken
  end.

(** [authenticate_access_token]; [unix] and [unix2] are the clocks of the two
    validations. *)
Definition authenticate_access_token (io : Io) (secret : string) (previous_secret : option string) (token : string)
    (unix unix2 : Z) : Prog AuthError (Uuid * Uuid) :=
  let! claims := lift_result (validate_access_token_with_rotation token secret previous_secret unix unix2) in
  let '(user_id, device_id, token_epoch) := claims in
  let! device_active := map_err_m of_device_error (is_device_active io 0%nat device_id) in
  if negb device_active then throw DeviceRevoked
  else
    do! check_session_epoch io 1%nat user_id token_epoch in
    mret (user_id, device_id).

(** [AuthenticatedUser::from_request_parts]: the user and device behind an
    [Authorization] header; every rejection looks the same. *)
Definition strip_prefix (pre s : string) : option string :=
  if String.prefix pre s then Some (String.substring (String.length pre) (String.length s - String.length pre) s)
  else None.
Definition from_request_parts (io : Io) (header : option string) (secret : string) (previous_secret : option string)
    (unix unix2 : Z) : Prog unit (Uuid * Uuid) :=
  match header ≫= strip_prefix "Bearer " with
  | None => throw tt
  | Some token => map_err_m (λ _, tt) (authenticate_access_token io secret previous_secret token unix unix2)
  end.

(** ** Pairing *)

Abbreviation psql := (execute PairErr.DatabaseError) (only parsing).
Abbreviation pselect := (fetch PairErr.DatabaseError) (only parsing).

Definition five_minutes : Z := 300000000.

(** [start_pairing]; [code] is the drawn code. *)
Definition start_pairing (io : Io) (device_name pepper code : string) (pairing_id : Uuid) (now : Z)
    : Prog PairingError (Uuid * string) :=
  let! row := psql io 0%nat (λ d,
    if bool_decide (is_Some (pairings d !! pairing_id)) then (Err "pairings_pkey"%string, d)
    else (Ok pairing_id, set_pairings (<[pairing_id := mkPairingSession (hmac_code code pepper) device_name None None
                                                         None (now + five_minutes) None 0]> (pairings d)) d)) in
  mret (row, code).

(** The guards [approve_pairing] and [finish_pairing] share, before the one on
    the approval. *)
Definition pairing_open (row : PairingSession) (utc : Z) : option PairingError :=
  if bool_decide (is_Some (p_used_at row)) then Some PairErr.AlreadyUsed
  else if bool_decide (p_expires_at row < utc) then Some PairErr.Expired
  else if bool_decide (5 ≤ p_attempt_count row) then Some PairErr.LockedOut
  else None.

(** The count of a wrong code: [UPDATE .. SET attempt_count = attempt_count + 1 ..]. *)
Definition live_pairing (now : Z) (row : PairingSession) : bool :=
  bool_decide (p_used_at row = None) && bool_decide (now < p_expires_at row).
Definition count_attempt (pairing_id : Uuid) (now : Z) : Stmt (option Z) := λ d,
  match pairings d !! pairing_id with
  | Some row =>
      if live_pairing now row then
        let n := p_attempt_count row + 1 in
        (Ok (Some n), set_pairings (<[pairing_id := mkPairingSession (p_code_hash row) (p_request_device_name row)
           (p_approved_user_id row) (p_approved_by_device_id row) (p_approved_at row) (p_expires_at row)
           (p_used_at row) n]> (pairings d)) d)
      else (Ok None, d)
  | None => (Ok None, d)
  end.
Definition wrong_code {A} (io : Io) (k : nat) (pairing_id : Uuid) (now : Z) : Prog PairingError A :=
  let! updated := psql io k (count_attempt pairing_id now) in
  match updated with
  | Some count => if bool_decide (5 ≤ count) then throw PairErr.LockedOut else throw PairErr.CodeMismatch
  | None => throw PairErr.CodeMismatch
  end.

(** The conditional updates of the two steps. *)
Definition mark_approved (pairing_id user_id device_id : Uuid) (now : Z) : Stmt bool := λ d,
  match pairings d !! pairing_id with
  | Some row =>
      if bool_decide (p_approved_at row = None) && live_pairing now row && bool_decide (p_attempt_count row < 5) then
        (Ok true, set_pairings (<[pairing_id := mkPairingSession (p_code_hash row) (p_request_device_name row)
           (Some user_id) (Some device_id) (Some now) (p_expires_at row) (p_used_at row) (p_attempt_count row)]>
           (pairings d)) d)
      else (Ok false, d)
  | None => (Ok false, d)
  end.
Definition mark_used (pairing_id : Uuid) (now : Z) : Stmt (option (option Uuid * string)) := λ d,
  match pairings d !! pairing_id with
  | Some row =>
      if bool_decide (is_Some (p_approved_at row)) && live_pairing now row && bool_decide (p_attempt_count row < 5) then
        (Ok (Some (p_approved_user_id row, p_request_device_name row)),
         set_pairings (<[pairing_id := mkPairingSession (p_code_hash row) (p_request_device_name row)
           (p_approved_user_id row) (p_approved_by_device_id row) (p_approved_at row) (p_expires_at row)
           (Some now) (p_attempt_count row)]> (pairings d)) d)
      else (Ok None, d)
  | None => (Ok None, d)
  end.

(** The second look at a pairing whose update changed nothing. *)
Definition explain_refusal {A} (io : Io) (k : nat) (pairing_id : Uuid) (utc : Z)
    (approval : PairingSession → option PairingError) : Prog PairingError A :=
  let! current := pselect io k (λ d, pairings d !! pairing_id) in
  match current with
  | None => throw PairErr.NotFound
  | Some row =>
      match pairing_open row utc with
      | Some e => throw e
      | None =>
          match approval row with
          | Some e => throw e
          | None => throw (PairErr.DatabaseError "conditional update failed for unknown reason")
          end
      end
  end.

(** [approve_pairing]. *)
Definition already_approved (row : PairingSession) : option PairingError :=
  if bool_decide (is_Some (p_approved_at row)) then Some PairErr.AlreadyApproved else None.
Definition approve_pairing (io : Io) (pairing_id : Uuid) (code : string) (user_id device_id : Uuid) (pepper : string)
    (utc now utc2 : Z) : Prog PairingError unit :=
  let! row := pselect io 0%nat (λ d, pairings d !! pairing_id) in
  match row with
  | None => throw PairErr.NotFound
  | Some row =>
      match pairing_open row utc with
      | Some e => throw e
      | None =>
          match already_approved row with
          | Some e => throw e
          | None =>
              if negb (bool_decide (hmac_code code pepper = p_code_hash row))
              then wrong_code io 1%nat pairing_id now
              else
                let! approved := psql io 1%nat (mark_approved pairing_id user_id device_id now) in
                if (approved : bool) then mret tt
                else explain_refusal io 2%nat pairing_id utc2 already_approved
          end
      end
  end.

(** [finish_pairing]. *)
Definition not_approved (row : PairingSession) : option PairingError :=
  if bool_decide (p_approved_at row = None) then Some PairErr.NotApproved else None.
Definition finish_pairing (cfg : AuthConfig) (io : Io) (pairing_id : Uuid) (code pepper : string) (utc utc2 : Z)
    (dw : Draws) : Prog PairingError PairingResult :=
  let! row := pselect io 0%nat (λ d, pairings d !! pairing_id) in
  match row with
  | None => throw PairErr.NotFound
  | Some row =>
      match pairing_open row utc with
      | Some e => throw e
      | None =>
          match not_approved row with
          | Some e => throw e
          | None =>
              if negb (bool_decide (hmac_code code pepper = p_code_hash row))
              then wrong_code io 1%nat pairing_id (dw_now dw)
              else in_tx PairErr.DatabaseError io 1%nat 7%nat (
                let! finish_row := psql io 2%nat (mark_used pairing_id (dw_now dw)) in
                match finish_row with
                | None => explain_refusal io 3%nat pairing_id utc2 not_approved
                | Some (None, _) => throw (PairErr.DatabaseError "unexpected null")
                | Some (Some user_id, request_device_name) =>
                    let! device_id := psql io 3%nat (insert_device (dw_device_id dw) user_id request_device_name
                                                       (dw_now dw)) in
                    do! psql io 4%nat (insert_token device_id
                          (hash_refresh_token (dw_raw_refresh dw) (refresh_pepper cfg)) (dw_family_id dw)
                          (refresh_expiry cfg (dw_utc dw))) in
                    let! epoch := pselect io 5%nat (epoch_of user_id) in
                    match epoch with
                    | None => throw (PairErr.DatabaseError no_rows)
                    | Some epoch =>
                        let! access_token := lift_result (map_err (λ e, PairErr.DatabaseError (AuthError_to_string e))
                          (sign_access_token user_id device_id (auth_secret cfg) (access_ttl_secs cfg) epoch
                             (dw_unix dw))) in
                        mret (mkPairingResult user_id device_id access_token (dw_raw_refresh dw))
                    end
                end)
          end
      end
  end.

(** [sweep_expired_pairings]: the rows deleted. *)
Definition sweep_expired_pairings (io : Io) (retention_hours utc : Z) : Prog PairingError Z :=
  psql io 0%nat (λ d,
    let kept := filter (λ x, ¬ p_expires_at x.2 < utc - retention_hours * micros_per_hour) (pairings d) in
    (Ok (map_len (pairings d) - map_len kept), set_pairings kept d)).
End accounts.
