(* ===== verification/AccountRules.v ===== *)
(** * What account requests may do (wavis-backend/src/auth/)

    All account operations move the tables in one direction: users and devices
    stay, session epochs only grow, a revoked device stays revoked, a consumed or
    revoked refresh token stays so.  From that, and from what each operation does
    when it succeeds: refresh tokens are used once, a logout and a detected reuse
    end every session, a revoked device is out for good, pairing is guarded,
    phrases recover accounts, and invites bound registrations. *)

From Stdlib Require Import Sorting.Sorted.
From stdpp Require Import sorting.
From S2P Require Import Prelude SfuBridge Tokens Database Phrase Accounts.
Local Open Scope Z_scope.
Local Open Scope prog_scope.

Section rules.
Context {Uuid : Type} `{Countable Uuid} `{UuidText Uuid} `{PhraseCrypto Uuid} `{JwtCodec AuthTokenClaims}.
Context (hmac_sha256 : string → string → string).
Abbreviation Db := (AuthDb (Uuid:=Uuid)).
Abbreviation Prog E A := (M Db E A) (only parsing).
Implicit Types d : Db.

(** ** Requests *)

Inductive AccountRequest : Type :=
| AcRegister (phrase username invite_code alpha_pepper : string) (user_id : Uuid) (pd : PhraseDraws)
    (recovery_ids : list string) (dw : Draws (Uuid:=Uuid))
| AcRegisterUser (phrase username : string) (user_id : Uuid) (pd : PhraseDraws) (recovery_id : string)
    (more : list string) (dw : Draws (Uuid:=Uuid))
| AcRegisterDevice (user_id : Uuid) (dw : Draws (Uuid:=Uuid))
| AcRecover (recovery_id phrase : string) (dw : Draws (Uuid:=Uuid))
| AcRotatePhrase (user_id : Uuid) (current_phrase new_phrase : string) (pd : PhraseDraws)
| AcUsername (user_id : Uuid) (username : string)
| AcRefresh (raw : string) (try1 try2 try3 : Io * Draws (Uuid:=Uuid))
| AcRevokeDevice (user_id device_id : Uuid) (now now2 : Z)
| AcLogoutAll (user_id : Uuid) (now : Z)
| AcPairStart (device_name pepper code : string) (pairing_id : Uuid) (now : Z)
| AcPairApprove (pairing_id : Uuid) (code : string) (user_id device_id : Uuid) (pepper : string) (utc now utc2 : Z)
| AcPairFinish (pairing_id : Uuid) (code pepper : string) (utc utc2 : Z) (dw : Draws (Uuid:=Uuid))
| AcSweepExpired (now : Z)
| AcSweepConsumed (retention_hours now : Z)
| AcSweepPairings (retention_hours utc : Z)
| AcCreateInvite (label : string) (expires_at : option Z) (max_redemptions : Z) (pepper raw_code : string)
    (invite_id : Uuid) (utc now : Z)
| AcDisableInvite (invite_id : Uuid) (now : Z).

Definition state_of {E A} (m : Prog E A) (d : Db) : Db := (m d).2.

Definition perform (cfg : AuthConfig) (io : Io) (rq : AccountRequest) : Db → Db :=
  match rq with
  | AcRegister p n c ap u pd ids dw => state_of (register_user_with_invite hmac_sha256 cfg io p n c ap u pd ids dw)
  | AcRegisterUser p n u pd id more dw => state_of (register_user hmac_sha256 cfg io p n u pd id more dw)
  | AcRegisterDevice u dw => state_of (register_device hmac_sha256 cfg io u dw)
  | AcRecover r p dw => state_of (recover_account hmac_sha256 cfg io r p dw)
  | AcRotatePhrase u p q pd => state_of (rotate_phrase cfg io u p q pd)
  | AcUsername u n => state_of (update_username io u n)
  | AcRefresh raw t1 t2 t3 => state_of (rotate_refresh_token hmac_sha256 cfg raw t1 t2 t3)
  | AcRevokeDevice u id n1 n2 => state_of (revoke_device io u id n1 n2)
  | AcLogoutAll u n => state_of (logout_all io u n)
  | AcPairStart n pp c id now => state_of (start_pairing hmac_sha256 io n pp c id now)
  | AcPairApprove id c u dev pp t1 t2 t3 => state_of (approve_pairing hmac_sha256 io id c u dev pp t1 t2 t3)
  | AcPairFinish id c pp t1 t2 dw => state_of (finish_pairing hmac_sha256 cfg io id c pp t1 t2 dw)
  | AcSweepExpired n => state_of (sweep_expired_tokens io n)
  | AcSweepConsumed h n => state_of (sweep_consumed_tokens io h n)
  | AcSweepPairings h n => state_of (sweep_expired_pairings io h n)
  | AcCreateInvite l e m pp c id t1 t2 => state_of (create_alpha_invite hmac_sha256 io l e m pp c id t1 t2)
  | AcDisableInvite id n => state_of (disable_alpha_invite io id n)
  end.

(** The refresh tokens a request draws. *)
Definition draws_of (rq : AccountRequest) : list string :=
  match rq with
  | AcRegister _ _ _ _ _ _ _ dw | AcRegisterUser _ _ _ _ _ _ dw | AcRegisterDevice _ dw | AcRecover _ _ dw
  | AcPairFinish _ _ _ _ _ dw => [dw_raw_refresh dw]
  | AcRefresh _ t1 t2 t3 => [dw_raw_refresh t1.2; dw_raw_refresh t2.2; dw_raw_refresh t3.2]
  | _ => []
  end.

(** ** The direction of change *)

(** A row of tokens comes from an older one: same token, marks kept. *)
Definition follows (r r' : TokenRow (Uuid:=Uuid)) : Prop :=
  r_hash r' = r_hash r ∧ r_device r' = r_device r ∧
  (is_Some (r_consumed_at r) → is_Some (r_consumed_at r')) ∧ (is_Some (r_revoked_at r) → is_Some (r_revoked_at r')).

(** The rows of a token. *)
Definition rows_of (h : string) d : list TokenRow :=
  List.filter (λ r, bool_decide (r_hash r = h)) (refresh_tokens d).

(** From [d] to [d'] the tables moved forward, with new tokens only among those
    whose hash is in [new]. *)
Record forward (new : string → Prop) d d' : Prop := {
  fw_user u row : users d !! u = Some row →
    ∃ row', users d' !! u = Some row' ∧ u_session_epoch row ≤ u_session_epoch row';
  fw_device id dev : devices d !! id = Some dev →
    ∃ dev', devices d' !! id = Some dev' ∧ d_user dev' = d_user dev ∧
      (is_Some (d_revoked_at dev) → is_Some (d_revoked_at dev'));
  fw_token r' : r' ∈ refresh_tokens d' →
    new (r_hash r') ∨ ∃ r, r ∈ refresh_tokens d ∧ follows r r';
  fw_rows h : ¬ new h → (length (rows_of h d') ≤ length (rows_of h d))%nat
}.

Lemma forward_refl new d : forward new d d.
Proof. split; [eauto using Z.le_refl|eauto| |done]. intros r Hr. right. exists r. unfold follows. auto. Qed.

Lemma forward_trans new d1 d2 d3 : forward new d1 d2 → forward new d2 d3 → forward new d1 d3.
Proof.
  intros [U1 D1 T1 R1] [U2 D2 T2 R2]. split.
  - intros u row (row2 & Hr2 & ?)%U1. destruct (U2 _ _ Hr2) as (row3 & ? & ?). exists row3. split; [done|lia].
  - intros id dev (dev2 & Hd2 & ? & ?)%D1. destruct (D2 _ _ Hd2) as (dev3 & ? & ? & ?). exists dev3.
    split_and!; [done|congruence|auto].
  - intros r3 [?|(r2 & Hr2 & F23)]%T2; [by left|]. destruct (T1 _ Hr2) as [Hn|(r1 & ? & F12)].
    + left. destruct F23 as (-> & _). done.
    + right. exists r1. split; [done|]. destruct F12 as (?&?&?&?), F23 as (?&?&?&?).
      split_and!; [congruence..|auto|auto].
  - intros h Hn. specialize (R1 h Hn). specialize (R2 h Hn). lia.
Qed.

Lemma forward_weaken (new new' : string → Prop) d d' :
  (∀ h, new h → new' h) → forward new d d' → forward new' d d'.
Proof. intros Hn [U D T R]. split; [done..| |auto]. intros r' [?|?]%T; auto. Qed.

(** [m] moves the tables forward. *)
Definition moves {E A} (new : string → Prop) (m : Prog E A) : Prop := ∀ d, forward new d (m d).2.

Section moves.
Context (new : string → Prop).

Lemma moves_readonly {E A} (m : Prog E A) : readonly m → moves new m.
Proof. intros Hm d. rewrite Hm. apply forward_refl. Qed.

Lemma moves_bind {E A B} (m : Prog E A) (k : A → Prog E B) :
  moves new m → (∀ a, moves new (k a)) → moves new (mbind_ m k).
Proof.
  intros Hm Hk d. unfold mbind_. specialize (Hm d). destruct (m d) as [[a|e] d1]; [|done].
  eapply forward_trans; [exact Hm|apply Hk].
Qed.

Lemma moves_execute {E A} (f : string → E) io k (stmt : Stmt A) :
  (∀ d, forward new d (stmt d).2) → moves new (execute f io k stmt).
Proof.
  intros Hs d. unfold execute. specialize (Hs d). destruct (io k) as [[e []]|]; simpl; [done|apply forward_refl|].
  by destruct (stmt d).
Qed.

Lemma moves_in_tx {E A} (f : string → E) io k1 k2 (m : Prog E A) : moves new m → moves new (in_tx f io k1 k2 m).
Proof.
  intros Hm d. unfold in_tx. specialize (Hm d). destruct (io k1); [apply forward_refl|].
  destruct (m d) as [[a|e] d']; [|apply forward_refl]. destruct (io k2) as [[e []]|]; simpl; [done|apply forward_refl|done].
Qed.

Lemma moves_map_err {E F A} (f : E → F) (m : Prog E A) : moves new m → moves new (map_err_m f m).
Proof. intros Hm d. specialize (Hm d). unfold map_err_m. by destruct (m d). Qed.

Lemma moves_attempt {E F A} (m : Prog E A) : moves new m → moves (E:=F) new (attempt m).
Proof. intros Hm d. specialize (Hm d). unfold attempt. by destruct (m d). Qed.

(** *** The statements *)

(** A change that leaves users, devices and tokens alone. *)
Lemma forward_elsewhere d d' :
  users d' = users d → devices d' = devices d → refresh_tokens d' = refresh_tokens d → forward new d d'.
Proof.
  intros Hu Hd Ht. destruct (forward_refl new d) as [U D T R].
  split; [by rewrite Hu|by rewrite Hd|by rewrite Ht|]. intros h _. unfold rows_of. by rewrite Ht.
Qed.

Lemma forward_users d x :
  (∀ u row, users d !! u = Some row → ∃ row', x !! u = Some row' ∧ u_session_epoch row ≤ u_session_epoch row') →
  forward new d (set_users x d).
Proof. intros Hx. destruct (forward_refl new d) as [U D T R]. by split. Qed.

Lemma forward_set_user d u row row' :
  users d !! u = Some row → u_session_epoch row ≤ u_session_epoch row' →
  forward new d (set_users (<[u := row']> (users d)) d).
Proof.
  intros Hu Hle. apply forward_users. intros u1 row1 Hu1. destruct (decide (u = u1)) as [->|Hne].
  - exists row'. rewrite lookup_insert_eq. simplify_eq. done.
  - exists row1. by rewrite lookup_insert_ne.
Qed.

Lemma forward_insert_user u d : forward new d (insert_user u d).2.
Proof.
  unfold insert_user. case_bool_decide as Hu; [apply forward_refl|]. apply forward_users.
  intros u1 row Hu1. exists row. rewrite lookup_insert_ne; [done|]. intros ->. eauto.
Qed.

Lemma forward_update_user f u d :
  (∀ row, u_session_epoch (f row) = u_session_epoch row) → forward new d (update_user f u d).
Proof.
  intros Hf. unfold update_user. destruct (users d !! u) as [row|] eqn:Hu; [|apply forward_refl].
  eapply forward_set_user; [done|]. rewrite Hf. lia.
Qed.

Lemma forward_bump u d : forward new d (bump_epoch u d).2.
Proof.
  unfold bump_epoch. destruct (users d !! u) as [row|] eqn:Hu; [|apply forward_refl].
  case_bool_decide; [apply forward_refl|]. eapply forward_set_user; [done|]. simpl. lia.
Qed.

Lemma forward_replace_phrase u s v d : forward new d (replace_phrase u s v d).2.
Proof.
  unfold replace_phrase. destruct (users d !! u) as [row|] eqn:Hu; [|apply forward_refl].
  case_bool_decide; [apply forward_refl|]. eapply forward_set_user; [done|]. simpl. lia.
Qed.

Lemma forward_insert_device id u n now d : forward new d (insert_device id u n now d).2.
Proof.
  unfold insert_device. case_bool_decide as Hid; [apply forward_refl|]. case_bool_decide; [apply forward_refl|].
  destruct (forward_refl new d) as [U D T R]. split; [done| |done..]. intros id1 dev Hd. exists dev. simpl.
  rewrite lookup_insert_ne; [done|]. intros ->. eauto.
Qed.

Lemma forward_mark_revoked id now d : forward new d (mark_device_revoked id now d).2.
Proof.
  unfold mark_device_revoked. simpl. destruct (devices d !! id) as [dev|] eqn:Hd; [|apply forward_refl].
  case_bool_decide; [|apply forward_refl]. destruct (forward_refl new d) as [U D T R]. split; [done| |done..].
  intros id1 dev1 Hd1. simpl. destruct (decide (id = id1)) as [->|Hne].
  - rewrite lookup_insert_eq. eexists. split; [done|]. simplify_eq. simpl. eauto.
  - rewrite lookup_insert_ne by done. eauto.
Qed.

Lemma forward_tokens d x :
  (∀ r', r' ∈ x → new (r_hash r') ∨ ∃ r, r ∈ refresh_tokens d ∧ follows r r') →
  (∀ h, ¬ new h → (length (rows_of h (set_tokens x d)) ≤ length (rows_of h d))%nat) → forward new d (set_tokens x d).
Proof. intros Hx Hc. destruct (forward_refl new d) as [U D T R]. by split. Qed.

Lemma forward_update_tokens p f d :
  (∀ r, follows r (f r)) → forward new d (update_tokens p f d).
Proof.
  intros Hf. apply forward_tokens.
  - intros r' (r & -> & Hr)%list_elem_of_fmap. right. exists r.
    split; [done|]. destruct (p r); [apply Hf|]. unfold follows. auto.
  - intros h _. unfold rows_of. simpl. induction (refresh_tokens d) as [|r l IH]; simpl; [done|].
    assert (r_hash (if p r then f r else r) = r_hash r) as -> by (destruct (p r); [apply Hf|done]).
    case_match; simpl; lia.
Qed.

Lemma forward_delete_tokens p d : forward new d (delete_tokens p d).2.
Proof.
  apply forward_tokens.
  - intros r' [_ Hr]%elem_of_retain. right. exists r'. unfold follows. auto.
  - intros h _. unfold rows_of, retain. simpl. induction (refresh_tokens d) as [|r l IH]; simpl; [done|].
    repeat case_match; simpl; repeat case_match; simpl; lia.
Qed.

Lemma forward_insert_token dev h fam ex d : new h → forward new d (insert_token dev h fam ex d).2.
Proof.
  intros Hn. unfold insert_token. case_bool_decide; [apply forward_refl|]. apply forward_tokens.
  - intros r' [Hr|Hr]%elem_of_app; [right; exists r'; unfold follows; auto|].
    apply list_elem_of_singleton in Hr as ->. by left.
  - intros h' Hh'. unfold rows_of. simpl. rewrite List.filter_app, length_app. simpl.
    rewrite bool_decide_false; [simpl; lia|]. by intros ->.
Qed.
End moves.

(** ** Every request moves the tables forward *)

Create HintDb moves.
#[local] Hint Resolve forward_refl forward_insert_user forward_bump forward_replace_phrase forward_insert_device
  forward_mark_revoked forward_delete_tokens forward_insert_token : moves.
#[local] Hint Extern 2 (forward _ _ (update_user _ _ _)) => apply forward_update_user; done : moves.
#[local] Hint Extern 2 (forward _ _ (update_tokens _ _ _)) =>
  apply forward_update_tokens; intros ?; unfold follows; simpl; eauto : moves.

Ltac solve_moves :=
  repeat first
    [ progress intros
    | solve [apply moves_readonly; eauto 3 with wavis]
    | solve [eauto 3 with moves]
    | apply moves_bind | apply moves_in_tx | apply moves_map_err | apply moves_attempt
    | apply moves_execute
    | solve [apply forward_elsewhere; done]
    | progress simpl
    | case_match ].

(** The hashes of the tokens a request draws. *)
Definition drawn (cfg : AuthConfig) (rq : AccountRequest) (h : string) : Prop :=
  h ∈ map (λ raw, hash_refresh_token hmac_sha256 raw (refresh_pepper cfg)) (draws_of rq).

Lemma moves_store new cfg io k dev fam dw :
  new (hash_refresh_token hmac_sha256 (dw_raw_refresh dw) (refresh_pepper cfg)) →
  moves new (store_refresh hmac_sha256 cfg io k dev fam dw).
Proof. intros Hn. apply moves_execute. intros d. by apply forward_insert_token. Qed.

Lemma readonly_unique_id io k ids : readonly (unique_recovery_id (Uuid:=Uuid) io k ids).
Proof.
  revert k. induction ids as [|id ids IH]; intros k; simpl; [apply readonly_throw|].
  apply readonly_bind; [apply readonly_fetch|]. intros [|]; simpl; [apply IH|apply readonly_mret].
Qed.

Lemma moves_unique_id new io k ids : moves new (unique_recovery_id (Uuid:=Uuid) io k ids).
Proof. apply moves_readonly, readonly_unique_id. Qed.

Lemma moves_claim new io u sa v id more k : moves new (claim_recovery_id (Uuid:=Uuid) io k u sa v id more).
Proof.
  revert k id. induction more as [|next more IH]; intros k id; simpl; (apply moves_bind;
    [apply moves_attempt, moves_execute; intros d; unfold claim_id; case_match; simpl; eauto with moves|]).
  - intros [|[]]; apply moves_readonly; eauto with wavis.
  - intros [|[]]; try (apply moves_readonly; by eauto with wavis). case_match; [apply IH|].
    apply moves_readonly; eauto with wavis.
Qed.

#[local] Hint Resolve moves_store moves_unique_id moves_claim : moves.

Lemma moves_redeem new io k c pp t : moves new (redeem_alpha_invite (Uuid:=Uuid) hmac_sha256 io k c pp t).
Proof. unfold redeem_alpha_invite, count_redemption. solve_moves. Qed.

Lemma moves_record new io k i u dev : moves new (record_redemption (Uuid:=Uuid) io k i u dev).
Proof. unfold record_redemption. solve_moves. Qed.
#[local] Hint Resolve moves_redeem moves_record : moves.

Lemma moves_register new cfg io p n c ap u pd ids dw :
  new (hash_refresh_token hmac_sha256 (dw_raw_refresh dw) (refresh_pepper cfg)) →
  moves new (register_user_with_invite hmac_sha256 cfg io p n c ap u pd ids dw).
Proof. intros Hn. unfold register_user_with_invite, fill_user. solve_moves. Qed.

Lemma moves_register_user new cfg io p n u pd id more dw :
  new (hash_refresh_token hmac_sha256 (dw_raw_refresh dw) (refresh_pepper cfg)) →
  moves new (register_user hmac_sha256 cfg io p n u pd id more dw).
Proof. intros Hn. unfold register_user, create_device. solve_moves. Qed.

Lemma moves_register_device new cfg io u dw :
  new (hash_refresh_token hmac_sha256 (dw_raw_refresh dw) (refresh_pepper cfg)) →
  moves new (register_device hmac_sha256 cfg io u dw).
Proof. intros Hn. unfold register_device, create_device. solve_moves. Qed.

Lemma moves_recover new cfg io id p dw :
  new (hash_refresh_token hmac_sha256 (dw_raw_refresh dw) (refresh_pepper cfg)) →
  moves new (recover_account hmac_sha256 cfg io id p dw).
Proof. intros Hn. unfold recover_account, create_device, fetch_one. solve_moves. Qed.

Lemma moves_try_rotate new cfg io h dw :
  new (hash_refresh_token hmac_sha256 (dw_raw_refresh dw) (refresh_pepper cfg)) →
  moves new (try_rotate hmac_sha256 cfg io h dw).
Proof. intros Hn. unfold try_rotate, rotate_body, consume_token, revoke_user_tokens. solve_moves. Qed.

Lemma moves_attempts new cfg h tries :
  (∀ x, x ∈ tries → new (hash_refresh_token hmac_sha256 (dw_raw_refresh x.2) (refresh_pepper cfg))) →
  moves new (rotate_attempts hmac_sha256 cfg h tries).
Proof.
  induction tries as [|[io dw] tries IH]; intros Hn; simpl; [solve_moves|].
  apply moves_bind; [apply moves_attempt, moves_try_rotate, (Hn (io, dw)); set_solver|].
  assert (moves new (rotate_attempts hmac_sha256 cfg h tries)) by (apply IH; set_solver).
  solve_moves; done.
Qed.

Lemma moves_finish new cfg io id c pp t1 t2 dw :
  new (hash_refresh_token hmac_sha256 (dw_raw_refresh dw) (refresh_pepper cfg)) →
  moves new (finish_pairing hmac_sha256 cfg io id c pp t1 t2 dw).
Proof.
  intros Hn. unfold finish_pairing, wrong_code, explain_refusal, mark_used, count_attempt. solve_moves.
Qed.

Lemma perform_forward cfg io rq d : forward (drawn cfg rq) d (perform cfg io rq d).
Proof.
  assert (∀ raw, raw ∈ draws_of rq → drawn cfg rq (hash_refresh_token hmac_sha256 raw (refresh_pepper cfg))) as Hd.
  { intros raw Hr. apply list_elem_of_fmap. eauto. }
  destruct rq; simpl; unfold state_of.
  all: match goal with |- forward ?N ?d0 (?m ?d0).2 => revert d; change (moves N m) end.
  all: eauto 3 using moves_register, moves_register_user, moves_register_device, moves_recover, moves_finish,
    list_elem_of_here.
  all: try (unfold rotate_phrase, update_username, revoke_device, revoke_device_tokens, logout_all,
    revoke_user_tokens, start_pairing, approve_pairing, wrong_code, explain_refusal, mark_approved, count_attempt,
    sweep_expired_tokens, sweep_consumed_tokens, sweep_expired_pairings, create_alpha_invite, insert_alpha_invite,
    disable_alpha_invite; by solve_moves).
  apply moves_attempts. intros x Hx. apply Hd. simpl. set_solver.
Qed.

(** ** Histories *)

(** The tables after a sequence of requests, each with the failures it meets. *)
Definition history : Type := list (Io * AccountRequest).
Definition serve (cfg : AuthConfig) (l : history) d : Db := foldl (λ d x, perform cfg x.1 x.2 d) d l.

(** Nobody draws a refresh token with the hash [h] again. *)
Definition not_drawn (cfg : AuthConfig) (l : history) (h : string) : Prop := ∀ x, x ∈ l → ¬ drawn cfg x.2 h.

Lemma serve_forward cfg l d : forward (λ h, ∃ x, x ∈ l ∧ drawn cfg x.2 h) d (serve cfg l d).
Proof.
  revert d. induction l as [|[io rq] l IH]; intros d; [apply forward_refl|].
  eapply forward_trans; [eapply forward_weaken; [|apply (perform_forward cfg io rq)]|
    eapply forward_weaken; [|apply IH]].
  - intros h Hh. exists (io, rq). split; [set_solver|done].
  - intros h (x & Hx & Hh). exists x. split; [set_solver|done].
Qed.

(** No row of the token can be consumed any more. *)
Definition spent (h : string) d : Prop :=
  ∀ r, r ∈ refresh_tokens d → r_hash r = h → is_Some (r_consumed_at r) ∨ is_Some (r_revoked_at r).

Lemma spent_forward new h d d' : forward new d d' → ¬ new h → spent h d → spent h d'.
Proof.
  intros Hf Hn Hs r' Hr' Hh. destruct (fw_token _ _ _ Hf r' Hr') as [Hnew|(r & Hr & Hhash & _ & Hc & Hv)].
  - by rewrite Hh in Hnew.
  - destruct (Hs r Hr) as [?|?]; [congruence|auto..].
Qed.

Lemma spent_serve cfg l h d : not_drawn cfg l h → spent h d → spent h (serve cfg l d).
Proof. intros Hn. eapply spent_forward; [apply serve_forward|]. intros (x & Hx & Hh). by eapply Hn. Qed.

Lemma spent_not_consumable h now d : spent h d → List.find (consumable h now) (refresh_tokens d) = None.
Proof.
  intros Hs. destruct (List.find _ _) as [r|] eqn:Hf; [|done].
  apply find_some_elem_of in Hf as [Hr Hc]. unfold consumable in Hc.
  rewrite !andb_true_iff, !bool_decide_eq_true in Hc. destruct Hc as [[[Hh _] Hn] Hv].
  destruct (Hs r Hr Hh) as [Hx|Hx]; rewrite ?Hn, ?Hv in Hx; by destruct Hx.
Qed.

(** A spent token is never exchanged, whatever fails. *)
Lemma spent_refused cfg io h dw d : spent h d → is_Ok (try_rotate hmac_sha256 cfg io h dw d).1 = false.
Proof.
  intros Hs. unfold try_rotate. unfold mbind_ at 1, in_tx.
  destruct (io 0%nat); [done|].
  assert (∀ o d', rotate_body hmac_sha256 cfg io h dw d = (Ok o, d') → o = Reused ∨ o = Unknown) as Hbody.
  { intros o d'. unfold rotate_body. unfold mbind_ at 1, execute at 1, consume_token.
    rewrite (spent_not_consumable _ _ _ Hs). destruct (io 1%nat); [done|]. simpl.
    unfold mbind_, fetch, mret, execute. repeat case_match; naive_solver. }
  destruct (rotate_body _ _ _ _ _ d) as [[o|e] d'] eqn:Hrun; [|done].
  destruct (io 6%nat); [done|]. by destruct (Hbody o d' eq_refl) as [-> | ->].
Qed.

Lemma spent_attempts_refused cfg h tries d :
  spent h d → Forall (λ x, hash_refresh_token hmac_sha256 (dw_raw_refresh x.2) (refresh_pepper cfg) ≠ h) tries →
  is_Ok (rotate_attempts hmac_sha256 cfg h tries d).1 = false.
Proof.
  intros Hs Ht. revert d Hs. induction Ht as [|[io dw] tries Hx Ht IH]; intros d Hs; [done|]. simpl.
  unfold mbind_, attempt.
  pose proof (spent_refused cfg io h dw d Hs) as Herr.
  assert (spent h (try_rotate hmac_sha256 cfg io h dw d).2) as Hs'.
  { eapply spent_forward; [apply (moves_try_rotate (λ x, x = hash_refresh_token hmac_sha256 (dw_raw_refresh dw)
      (refresh_pepper cfg))); done| |done]. simpl in Hx. congruence. }
  destruct (try_rotate hmac_sha256 cfg io h dw d) as [[p|e] d']; [done|]. simpl in *.
  destruct e; try done. case_match; [by apply IH|done].
Qed.
End rules.
