(* ===== verification/AccountInvariant.v ===== *)
(** * The account tables stay consistent (wavis-backend/src/auth/)

    No operation, whichever of its statements fail, leaves a token without a
    device, a device without a user, two users with one recovery id, a phrase
    half stored, a pairing with more than five wrong codes or finished without an
    approval, or an invite with more registrations than it allows; and the count
    of an invite is the number of registrations recorded for it. *)

From stdpp Require Import sorting.
From S2P Require Import Prelude SfuBridge Tokens Database Phrase Accounts AccountRules.
Local Open Scope Z_scope.
Local Open Scope prog_scope.

Section invariant.
Context {Uuid : Type} `{Countable Uuid} `{UuidText Uuid} `{PhraseCrypto Uuid} `{JwtCodec AuthTokenClaims}.
Context (hmac_sha256 : string → string → string).
Abbreviation Db := (AuthDb (Uuid:=Uuid)).
Abbreviation Prog E A := (M Db E A) (only parsing).
Implicit Types d : Db.

(** ** The invariant *)

(** The integer columns are in range, and a phrase is stored whole. *)
Definition user_ok (row : UserRow) : Prop :=
  0 ≤ u_session_epoch row ≤ i32_max ∧ 1 ≤ u_phrase_version row ≤ i32_max ∧
  (is_Some (u_phrase_salt row) ↔ is_Some (u_phrase_verifier row)) ∧
  (is_Some (u_recovery_id row) → is_Some (u_phrase_salt row)).

Record users_ok (us : gmap Uuid UserRow) : Prop := {
  us_row u row : us !! u = Some row → user_ok row;
  us_recovery u1 u2 row1 row2 id : us !! u1 = Some row1 → us !! u2 = Some row2 →
    u_recovery_id row1 = Some id → u_recovery_id row2 = Some id → u1 = u2
}.

Record links_ok d : Prop := {
  lk_token r : r ∈ refresh_tokens d → is_Some (devices d !! r_device r);
  lk_device id dev : devices d !! id = Some dev → is_Some (users d !! d_user dev);
  lk_redemption i u dev : (i, u, dev) ∈ redemptions d →
    is_Some (alpha_invites d !! i) ∧ is_Some (users d !! u) ∧ is_Some (devices d !! dev)
}.

Definition pairing_ok (row : PairingSession (Uuid:=Uuid)) : Prop :=
  0 ≤ p_attempt_count row ≤ 5 ∧
  (is_Some (p_approved_user_id row) ↔ is_Some (p_approved_at row)) ∧
  (is_Some (p_approved_by_device_id row) ↔ is_Some (p_approved_at row)) ∧
  (is_Some (p_used_at row) → is_Some (p_approved_at row)).

(** The registrations recorded for an invite. *)
Definition registrations (i : Uuid) (l : list (Uuid * Uuid * Uuid)) : Z :=
  len (List.filter (λ x, bool_decide (x.1.1 = i)) l).

(** [pending] is an invite whose registration is counted and not yet recorded. *)
Definition invite_ok (pending : option Uuid) d (i : Uuid) (a : AlphaInviteAdminRecord) : Prop :=
  0 ≤ a_redemption_count a ≤ a_max_redemptions a ∧ 0 < a_max_redemptions a ∧
  a_redemption_count a = registrations i (redemptions d) + (if bool_decide (pending = Some i) then 1 else 0).

Record accounts_ok_but (pending : option Uuid) d : Prop := {
  ok_users : users_ok (users d);
  ok_links : links_ok d;
  ok_pairing id row : pairings d !! id = Some row → pairing_ok row;
  ok_invite i a : alpha_invites d !! i = Some a → invite_ok pending d i a
}.
Abbreviation accounts_ok := (accounts_ok_but None).

(** ** The statements *)

Section statements.
Context (pending : option Uuid).
Abbreviation ok := (accounts_ok_but pending).

Lemma insert_dom {V} (m : gmap Uuid V) k x id : is_Some (m !! id) → is_Some (<[k := x]> m !! id).
Proof. intros Hs. destruct (decide (k = id)) as [->|]; [rewrite lookup_insert_eq; eauto|by rewrite lookup_insert_ne]. Qed.

Lemma users_ok_insert us u row :
  users_ok us → user_ok row →
  (∀ id u' row', u_recovery_id row = Some id → us !! u' = Some row' → u' ≠ u → u_recovery_id row' ≠ Some id) →
  users_ok (<[u := row]> us).
Proof.
  intros [Hrow Hrec] Hok Hnew. split.
  - intros u' row' [[<- <-]|[_ Hu]]%lookup_insert_Some; eauto.
  - intros u1 u2 row1 row2 id [[<- <-]|[Hne1 H1']]%lookup_insert_Some [[<- <-]|[Hne2 H2']]%lookup_insert_Some E1 E2;
      [done|by edestruct Hnew; eauto|by edestruct Hnew; eauto|eauto].
Qed.

(** A change of one user keeps the rest. *)
Lemma ok_set_user u row d :
  ok d → user_ok row →
  (∀ id u' row', u_recovery_id row = Some id → users d !! u' = Some row' → u' ≠ u → u_recovery_id row' ≠ Some id) →
  ok (set_users (<[u := row]> (users d)) d).
Proof.
  intros [Hu [Lt Ld Lr] Hp Hi] Hrow Hnew. split; simpl; [by apply users_ok_insert| |done..].
  split; simpl; [done|eauto using insert_dom|]. intros i x dev (?&?&?)%Lr. eauto using insert_dom.
Qed.

(** The recovery id of a user is kept: nobody else has it. *)
Lemma ok_update_row u row row' d :
  ok d → users d !! u = Some row → u_recovery_id row' = u_recovery_id row → user_ok row' →
  ok (set_users (<[u := row']> (users d)) d).
Proof.
  intros Hok Hu Hid Hrow. apply ok_set_user; [done..|]. intros id u2 row2 Hr Hu2 Hne Heq. apply Hne.
  eapply (us_recovery _ (ok_users _ _ Hok)); [exact Hu2|exact Hu|done|congruence].
Qed.

Lemma ok_insert_user u d : ok d → ok (insert_user u d).2.
Proof.
  intros Hok. unfold insert_user. case_bool_decide; [done|]. apply ok_set_user; [done| |done].
  unfold user_ok, i32_max. simpl. split_and!; [lia..|done|by intros []].
Qed.

Lemma ok_update_user f u d :
  (∀ row, u_recovery_id (f row) = u_recovery_id row ∧ (user_ok row → user_ok (f row))) → ok d → ok (update_user f u d).
Proof.
  intros Hf Hok. unfold update_user. destruct (users d !! u) as [row|] eqn:Hu; [|done].
  destruct (Hf row) as [Hid Hrow]. eapply ok_update_row; [done..|].
  eapply Hrow, (us_row _ (ok_users _ _ Hok)). done.
Qed.

Lemma recovery_id_free id d : recovery_id_taken id d = false →
  ∀ u row, users d !! u = Some row → u_recovery_id row ≠ Some id.
Proof.
  intros Hf u row Hu Heq. apply not_true_iff_false in Hf. apply Hf. unfold recovery_id_taken. apply existsb_exists.
  exists (u, row). split; [by apply list_elem_of_In, elem_of_map_to_list|]. by apply bool_decide_eq_true.
Qed.

Lemma ok_new_recovery_id f id u d :
  (∀ row, u_recovery_id (f row) = Some id ∧ (user_ok row → user_ok (f row))) → recovery_id_taken id d = false →
  ok d → ok (update_user f u d).
Proof.
  intros Hf Hfree Hok. unfold update_user. destruct (users d !! u) as [row|] eqn:Hu; [|done].
  destruct (Hf row) as [Hid Hrow]. apply ok_set_user; [done| |].
  - eapply Hrow, (us_row _ (ok_users _ _ Hok)). done.
  - intros id' u' row' Heq Hu' _. rewrite Hid in Heq. simplify_eq. by eapply recovery_id_free.
Qed.

Lemma user_ok_phrase s v row : user_ok row → user_ok (set_phrase s v row).
Proof. intros (?&?&?&?). unfold user_ok. simpl. naive_solver. Qed.
Lemma user_ok_recovery id s v row : user_ok row → user_ok (set_recovery_id id (set_phrase s v row)).
Proof. intros Hr%(user_ok_phrase s v). destruct Hr as (?&?&?&?). unfold user_ok. simpl. naive_solver. Qed.
Lemma user_ok_name n row : user_ok row → user_ok (set_username n row).
Proof. intros (?&?&?&?). done. Qed.

Lemma ok_fill_user u s v id n d : ok d → ok (fill_user u s v id n d).2.
Proof.
  intros Hok. unfold fill_user. destruct (recovery_id_taken id d) eqn:Hf; [done|].
  apply (ok_new_recovery_id _ id); [|done..]. intros row. split; [done|]. intros. by apply user_ok_name, user_ok_recovery.
Qed.

Lemma ok_claim_id u s v id d : ok d → ok (claim_id u s v id d).2.
Proof.
  intros Hok. unfold claim_id. destruct (recovery_id_taken id d) eqn:Hf; [done|].
  apply (ok_new_recovery_id _ id); [|done..]. intros row. split; [done|]. apply user_ok_recovery.
Qed.

Lemma ok_bump u d : ok d → ok (bump_epoch u d).2.
Proof.
  intros Hok. unfold bump_epoch. destruct (users d !! u) as [row|] eqn:Hu; [|done].
  case_bool_decide as Hmax; [done|]. eapply ok_update_row; [done..|].
  destruct (us_row _ (ok_users _ _ Hok) _ _ Hu) as (?&?&?&?). unfold user_ok. simpl. split_and!; [lia..|done|done].
Qed.

Lemma ok_replace_phrase u s v d : ok d → ok (replace_phrase u s v d).2.
Proof.
  intros Hok. unfold replace_phrase. destruct (users d !! u) as [row|] eqn:Hu; [|done].
  case_bool_decide as Hmax; [done|]. eapply ok_update_row; [done..|].
  destruct (us_row _ (ok_users _ _ Hok) _ _ Hu) as (?&?&?&?). unfold user_ok. simpl.
  split_and!; [lia..|naive_solver|naive_solver].
Qed.

(** *** Devices and tokens *)

Lemma ok_set_devices d x :
  (∀ id, is_Some (devices d !! id) → is_Some (x !! id)) →
  (∀ id dev, x !! id = Some dev → is_Some (users d !! d_user dev)) → ok d → ok (set_devices x d).
Proof.
  intros Hdom Huser [Hu [Lt Ld Lr] Hp Hi]. split; [done| |done..].
  split; simpl; [eauto|done|]. intros i u dev (?&?&?)%Lr. eauto.
Qed.

Lemma ok_insert_device id u n now d : ok d → ok (insert_device id u n now d).2.
Proof.
  intros Hok. unfold insert_device. case_bool_decide; [done|]. case_bool_decide as Hu; [done|].
  apply ok_set_devices; [intros; by apply insert_dom| |done].
  intros id' dev [[<- <-]|[_ Hd]]%lookup_insert_Some; simpl; [by apply not_eq_None_Some|].
  eapply lk_device; [apply Hok|done].
Qed.

Lemma ok_mark_revoked id now d : ok d → ok (mark_device_revoked id now d).2.
Proof.
  intros Hok. unfold mark_device_revoked. simpl. destruct (devices d !! id) as [dev|] eqn:Hd; [|done].
  case_bool_decide; [|done]. apply ok_set_devices; [intros; by apply insert_dom| |done].
  intros id' dev' [[<- <-]|[_ Hd']]%lookup_insert_Some; simpl; eapply lk_device; try apply Hok; done.
Qed.

Lemma ok_set_tokens d x :
  (∀ r, r ∈ x → is_Some (devices d !! r_device r)) → ok d → ok (set_tokens x d).
Proof. intros Hx [Hu [Lt Ld Lr] Hp Hi]. split; [done|by split|done..]. Qed.

Lemma ok_insert_token dev h fam ex d : ok d → ok (insert_token dev h fam ex d).2.
Proof.
  intros Hok. unfold insert_token. case_bool_decide as Hd; [done|]. apply ok_set_tokens; [|done].
  intros r [Hr|Hr%list_elem_of_singleton]%elem_of_app; [by apply (lk_token _ (ok_links _ _ Hok))|subst r].
  by apply not_eq_None_Some.
Qed.

Lemma ok_update_tokens p f d : (∀ r, r_device (f r) = r_device r) → ok d → ok (update_tokens p f d).
Proof.
  intros Hf Hok. apply ok_set_tokens; [|done]. intros r (r0 & -> & Hr)%list_elem_of_fmap.
  apply (lk_token _ (ok_links _ _ Hok)) in Hr. destruct (p r0); [by rewrite Hf|done].
Qed.

Lemma ok_delete_tokens p d : ok d → ok (delete_tokens p d).2.
Proof.
  intros Hok. apply ok_set_tokens; [|done]. intros r [_ Hr]%elem_of_retain. by apply (lk_token _ (ok_links _ _ Hok)).
Qed.

(** *** Pairings and invites *)

Lemma ok_set_pairings d x : (∀ id row, x !! id = Some row → pairing_ok row) → ok d → ok (set_pairings x d).
Proof. intros Hx [Hu [Lt Ld Lr] Hp Hi]. split; [done|by split|done..]. Qed.

Lemma ok_set_pairing id row d : pairing_ok row → ok d → ok (set_pairings (<[id := row]> (pairings d)) d).
Proof.
  intros Hrow Hok. apply ok_set_pairings; [|done]. intros id' row' [[<- <-]|[_ Hp]]%lookup_insert_Some; [done|].
  by eapply ok_pairing.
Qed.

Lemma ok_count_attempt id now row d :
  pairings d !! id = Some row → p_attempt_count row < 5 → ok d → ok (count_attempt id now d).2.
Proof.
  intros Hp Hlt Hok. unfold count_attempt. rewrite Hp. case_match; [|done]. apply ok_set_pairing; [|done].
  destruct (ok_pairing _ _ Hok _ _ Hp) as (?&?&?&?). unfold pairing_ok. simpl. split_and!; [lia..|done|done|done].
Qed.

Lemma ok_mark_approved id u dev now d : ok d → ok (mark_approved id u dev now d).2.
Proof.
  intros Hok. unfold mark_approved. destruct (pairings d !! id) as [row|] eqn:Hp; [|done]. case_match; [|done].
  apply ok_set_pairing; [|done]. destruct (ok_pairing _ _ Hok _ _ Hp) as (?&?&?&?). unfold pairing_ok. simpl. naive_solver.
Qed.

Lemma ok_mark_used id now d : ok d → ok (mark_used id now d).2.
Proof.
  intros Hok. unfold mark_used. destruct (pairings d !! id) as [row|] eqn:Hp; [|done]. case_match; [|done].
  decided. apply ok_set_pairing; [|done]. destruct (ok_pairing _ _ Hok _ _ Hp) as (?&?&?&?). unfold pairing_ok. simpl.
  naive_solver.
Qed.

Lemma ok_set_invite i a d :
  (∀ a0, alpha_invites d !! i = Some a0 → a_redemption_count a0 = a_redemption_count a) →
  (alpha_invites d !! i = None → a_redemption_count a = registrations i (redemptions d) + if bool_decide (pending = Some i) then 1 else 0) →
  0 ≤ a_redemption_count a ≤ a_max_redemptions a → 0 < a_max_redemptions a →
  ok d → ok (set_alpha_invites (<[i := a]> (alpha_invites d)) d).
Proof.
  intros Hold Hnew Hc Hm [Hu [Lt Ld Lr] Hp Hi]. split; [done| |done|].
  - split; simpl; [done..|]. intros i' u dev (Hi'&?&?)%Lr. split; [|done]. by apply insert_dom.
  - simpl. intros i' a' [[<- <-]|[_ Ha]]%lookup_insert_Some; [|by apply Hi]. split_and!; [lia..|done|]. simpl.
    destruct (alpha_invites d !! i) as [a0|] eqn:Ha; [|by apply Hnew]. destruct (Hi _ _ Ha) as (_ & _ & <-).
    symmetry. by apply Hold.
Qed.

End statements.

(** *** The programs *)

Lemma ok_execute {E A} p (f : string → E) io k (stmt : Stmt A) :
  (∀ d, accounts_ok_but p d → accounts_ok_but p (stmt d).2) → preserves (accounts_ok_but p) (execute f io k stmt).
Proof. apply preserves_execute. Qed.

Lemma ok_in_tx {E A} p (f : string → E) io k1 k2 (m : Prog E A) :
  preserves (accounts_ok_but p) m → preserves (accounts_ok_but p) (in_tx f io k1 k2 m).
Proof. intros Hm. by apply preserves_in_tx, preserves_establishes. Qed.

#[local] Hint Resolve ok_insert_user ok_fill_user ok_claim_id ok_bump ok_replace_phrase ok_insert_device
  ok_mark_revoked ok_insert_token ok_delete_tokens ok_mark_approved ok_mark_used : wavis.
#[local] Hint Extern 2 (accounts_ok_but _ (update_tokens _ _ _)) => apply ok_update_tokens; done : wavis.
#[local] Hint Extern 2 (accounts_ok_but _ (update_user (set_username _) _ _)) =>
  apply ok_update_user; [intros ?; split; [done|by apply user_ok_name]|done] : wavis.
#[local] Hint Extern 2 (preserves _ (fetch _ _ _ _)) => apply readonly_preserves, readonly_fetch : wavis.
#[local] Hint Extern 2 (preserves _ (explain_refusal _ _ _ _ _)) =>
  apply readonly_preserves; unfold explain_refusal; eauto : wavis.

Ltac keeps :=
  repeat first
    [ progress intros
    | apply preserves_bind | apply preserves_map_err | apply preserves_attempt
    | apply ok_in_tx | apply ok_execute
    | solve [eauto 3 with wavis]
    | progress simpl
    | case_match ].

Lemma keeps_store p cfg io k dev fam dw : preserves (accounts_ok_but p) (store_refresh hmac_sha256 cfg io k dev fam dw).
Proof. unfold store_refresh. keeps. Qed.
Lemma keeps_unique_id p io k ids : preserves (accounts_ok_but p) (unique_recovery_id io k ids).
Proof. revert k. induction ids as [|id ids IH]; intros k; simpl; keeps. Qed.
Lemma keeps_claim p io u s v id more k : preserves (accounts_ok_but p) (claim_recovery_id io k u s v id more).
Proof. revert k id. induction more as [|next more IH]; intros k id; simpl; keeps. Qed.
#[local] Hint Resolve keeps_store keeps_unique_id keeps_claim : wavis.

Lemma keeps_try_rotate cfg io h dw : preserves accounts_ok (try_rotate hmac_sha256 cfg io h dw).
Proof. unfold try_rotate, rotate_body, consume_token, revoke_user_tokens. keeps. Qed.

Lemma keeps_attempts cfg h tries : preserves accounts_ok (rotate_attempts hmac_sha256 cfg h tries).
Proof. induction tries as [|[io dw] tries IH]; simpl; [|pose proof keeps_try_rotate]; keeps. Qed.

(** A wrong code is only counted for a pairing that is open. *)
Lemma open_attempts row utc : pairing_open (Uuid:=Uuid) row utc = None → p_attempt_count row < 5.
Proof. unfold pairing_open. intros Ho. repeat case_bool_decide; try done. lia. Qed.

Lemma ok_wrong_code {A} io k id now utc row d :
  pairings d !! id = Some row → pairing_open row utc = None → accounts_ok d →
  accounts_ok (wrong_code (A:=A) io k id now d).2.
Proof.
  intros Hp Ho%open_attempts Hok. pose proof (ok_count_attempt None id now row d Hp Ho Hok) as Hc.
  unfold wrong_code, mbind_, execute, throw. destruct (io k) as [[e []]|]; simpl; [done..|].
  destruct (count_attempt id now d) as [[[n|]|e] d']; simpl in *; [by case_bool_decide|done..].
Qed.

(** Both steps of a pairing: guards, then the code, then the update. *)
Lemma keeps_guarded {A} io k id now utc (approval : PairingSession → option PairingError) (good : PairingSession → bool)
    (m : Prog PairingError A) :
  preserves accounts_ok m →
  preserves accounts_ok (mbind_ (fetch PairErr.DatabaseError io 0%nat (λ d, pairings d !! id)) (λ row,
    match row with
    | None => throw PairErr.NotFound
    | Some row =>
        match pairing_open row utc with
        | Some e => throw e
        | None => match approval row with
                  | Some e => throw e
                  | None => if negb (good row) then wrong_code io k id now else m
                  end
        end
    end)).
Proof.
  intros Hm d Hok. unfold mbind_, fetch, throw. destruct (io 0%nat); [done|].
  destruct (pairings d !! id) as [row|] eqn:Hp; [|done]. destruct (pairing_open row utc) eqn:Ho; [done|].
  destruct (approval row); [done|]. case_match; [by eapply ok_wrong_code|by apply Hm].
Qed.

Lemma keeps_approve io id c u dev pp t1 t2 t3 :
  preserves accounts_ok (approve_pairing hmac_sha256 io id c u dev pp t1 t2 t3).
Proof. unfold approve_pairing. apply keeps_guarded. keeps. Qed.

Lemma keeps_finish cfg io id c pp t1 t2 dw :
  preserves accounts_ok (finish_pairing hmac_sha256 cfg io id c pp t1 t2 dw).
Proof. unfold finish_pairing. apply keeps_guarded. keeps. Qed.

(** Registration by invite: the count of the invite is ahead of the records
    until the registration is recorded, in the same transaction. *)
Lemma redeem_counts io k c pp utc d i d' :
  accounts_ok d → redeem_alpha_invite hmac_sha256 io k c pp utc d = (Ok i, d') →
  accounts_ok_but (Some i) d' ∧ is_Some (alpha_invites d' !! i).
Proof.
  intros Hok. unfold redeem_alpha_invite, mbind_, lift_result, fetch, execute, count_redemption, throw, mret.
  destruct (hash_invite_code _ c pp) as [h|]; [|done]. destruct (io k); [done|].
  destruct (invite_by_hash h d) as [[i' a]|] eqn:Hi; [|done].
  apply find_some_elem_of in Hi as [Hi%elem_of_map_to_list _]. destruct (_ || _); [done|].
  destruct (io (S k)); [done|]. simpl. rewrite Hi.
  destruct (bool_decide _) eqn:Hmax; [done|]. decided. simpl. intros Heq. simplify_eq.
  destruct Hok as [Hu [Lt Ld Lr] Hp Hinv]. split; [|simpl; rewrite lookup_insert_eq; eauto].
  destruct (Hinv _ _ Hi) as (Hc & Hm & Hn). split; [done| |done|].
  - split; simpl; [done..|]. intros i0 u dev (?&?&?)%Lr. eauto using insert_dom.
  - simpl. intros i0 a0 [[<- <-]|[Hne Ha]]%lookup_insert_Some; unfold invite_ok; simpl.
    + rewrite bool_decide_true by done. rewrite bool_decide_false in Hn by done. lia.
    + destruct (Hinv _ _ Ha) as (?&?&Heq). rewrite bool_decide_false in Heq by done.
      rewrite bool_decide_false by congruence. lia.
Qed.

Lemma record_catches_up io k i u dev d d' :
  accounts_ok_but (Some i) d → record_redemption io k i u dev d = (Ok tt, d') → accounts_ok d'.
Proof.
  intros [Hu [Lt Ld Lr] Hp Hinv]. unfold record_redemption, execute. destruct (io k); [done|].
  destruct (_ || _) eqn:Hg; [done|]. decided. simpl. intros [= <-]. split; [done| |done|].
  - split; simpl; [done..|]. intros i0 u0 dev0 [?|Hin%list_elem_of_singleton]%elem_of_app; [by apply Lr|].
    simplify_eq. eauto.
  - simpl. intros i0 a0 Ha. destruct (Hinv _ _ Ha) as (?&?&Heq). split_and!; [lia..|]. simpl. rewrite Heq.
    unfold registrations. rewrite List.filter_app, length_app. simpl.
    destruct (decide (i = i0)) as [->|Hne]; [rewrite !bool_decide_true by done|rewrite !bool_decide_false by congruence]; simpl; lia.
Qed.

Lemma bind_Ok {E A B} (m : Prog E A) (k : A → Prog E B) d b d2 :
  mbind_ m k d = (Ok b, d2) → ∃ a d1, m d = (Ok a, d1) ∧ k a d1 = (Ok b, d2).
Proof. unfold mbind_. destruct (m d) as [[a|e] d1]; [eauto|done]. Qed.

Lemma preserves_run {E A} (I : Db → Prop) (m : Prog E A) d r d' : preserves I m → m d = (r, d') → I d → I d'.
Proof. intros Hm Hrun Hi. specialize (Hm d Hi). by rewrite Hrun in Hm. Qed.

Lemma readonly_run {E A} (m : Prog E A) d r d' : readonly m → m d = (r, d') → d' = d.
Proof. intros Hm Hrun. specialize (Hm d). by rewrite Hrun in Hm. Qed.

Lemma map_err_Ok {E F A} (f : E → F) (m : Prog E A) d a d' : map_err_m f m d = (Ok a, d') → m d = (Ok a, d').
Proof. unfold map_err_m. destruct (m d) as [[|] ?]; simpl; congruence. Qed.

(** Carry the invariant in [Hok] over a step that ran. *)
Ltac advance_to Hok Hrun :=
  match type of Hok with
  | accounts_ok_but ?p ?d =>
      match type of Hrun with
      | ?m d = (_, ?d') =>
          let Hok' := fresh in
          assert (accounts_ok_but p d') as Hok'
            by (eapply (preserves_run (accounts_ok_but p) m); [keeps|exact Hrun|exact Hok]);
          clear Hok; rename Hok' into Hok
      end
  end.

Lemma keeps_register cfg io p n c ap u pd ids dw :
  preserves accounts_ok (register_user_with_invite hmac_sha256 cfg io p n c ap u pd ids dw).
Proof.
  apply preserves_in_tx. intros d reg d' Hok (i & d1 & Hredeem%map_err_Ok & Hrun)%bind_Ok.
  destruct (redeem_counts _ _ _ _ _ _ _ _ Hok Hredeem) as [Hok1 _].
  apply bind_Ok in Hrun as (u1 & d2 & E2 & Hrun). advance_to Hok1 E2.
  apply bind_Ok in Hrun as ([es ev] & d3 & E3 & Hrun). advance_to Hok1 E3.
  apply bind_Ok in Hrun as (rid & d4 & E4 & Hrun). advance_to Hok1 E4.
  apply bind_Ok in Hrun as (? & d5 & E5 & Hrun). advance_to Hok1 E5.
  apply bind_Ok in Hrun as (dev & d6 & E6 & Hrun). advance_to Hok1 E6.
  apply bind_Ok in Hrun as (? & d7 & E7 & Hrun). advance_to Hok1 E7.
  apply bind_Ok in Hrun as ([] & d8 & E8%map_err_Ok & Hrun). apply record_catches_up in E8; [|done].
  apply bind_Ok in Hrun as (tok & d9 & E9 & Hrun). unfold lift_result, mret in *. by simplify_eq.
Qed.

Lemma no_registrations p i d :
  accounts_ok_but p d → alpha_invites d !! i = None → registrations i (redemptions d) = 0.
Proof.
  intros Hok Hnone. unfold registrations. destruct (List.filter _ _) as [|[[i0 u0] dev0] rest] eqn:Hf; [done|]. exfalso.
  assert ((i0, u0, dev0) ∈ List.filter (λ x, bool_decide (x.1.1 = i)) (redemptions d)) as Hin by (rewrite Hf; set_solver).
  apply list_elem_of_In, filter_In in Hin as [Hin Hid]. decided. simpl in Hid. subst i0.
  apply list_elem_of_In in Hin. destruct (lk_redemption _ (ok_links _ _ Hok) _ _ _ Hin) as [[??] _]. congruence.
Qed.

Lemma keeps_create io l e m pp c id t1 t2 :
  preserves accounts_ok (create_alpha_invite hmac_sha256 io l e m pp c id t1 t2).
Proof.
  unfold create_alpha_invite, insert_alpha_invite. keeps.
  apply ok_set_invite; decided; simpl; try lia; [naive_solver| |done].
  intros Hnone. by erewrite no_registrations.
Qed.

Lemma keeps_disable io id now : preserves accounts_ok (disable_alpha_invite io id now).
Proof.
  unfold disable_alpha_invite. keeps.
  match goal with Hok : accounts_ok ?d, Ha : _ = Some _ |- _ => destruct (ok_invite _ _ Hok _ _ Ha) as (?&?&?) end.
  apply ok_set_invite; simpl; [naive_solver..|done].
Qed.

Lemma perform_keeps cfg io rq d : accounts_ok d → accounts_ok (perform hmac_sha256 cfg io rq d).
Proof.
  intros Hok.
  pose proof keeps_register. pose proof keeps_attempts. pose proof keeps_approve. pose proof keeps_finish.
  pose proof keeps_create. pose proof keeps_disable.
  unfold perform, state_of. destruct rq; revert d Hok;
    match goal with |- ∀ d, _ → accounts_ok (?m d).2 => change (preserves accounts_ok m) end.
  all: try solve [unfold rotate_refresh_token; auto].
  all: unfold register_user, create_device, register_device, recover_account, create_device, fetch_one, rotate_phrase,
    update_username, revoke_device, revoke_device_tokens, logout_all, revoke_user_tokens, start_pairing,
    sweep_expired_tokens, sweep_consumed_tokens, sweep_expired_pairings.
  all: keeps.
  - apply ok_set_pairing; [|done]. unfold pairing_ok. simpl. split_and!; [lia..|done|done|by intros []].
  - match goal with Hok : accounts_ok ?d |- _ =>
      apply ok_set_pairings; [|done]; intros id row [Hp _]%map_lookup_filter_Some; by apply (ok_pairing _ _ Hok id) end.
Qed.
Lemma serve_keeps cfg l d : accounts_ok d → accounts_ok (serve hmac_sha256 cfg l d).
Proof. unfold serve. revert d. induction l as [|[io rq] l IH]; intros d Hok; [done|]. by apply IH, perform_keeps. Qed.

(** The tables of a new installation. *)
Definition no_accounts : Db := mkAuthDb ∅ ∅ [] ∅ ∅ [].

Lemma no_accounts_ok : accounts_ok no_accounts.
Proof.
  split; [split; simpl; intros *; by rewrite lookup_empty| |simpl; intros *; by rewrite lookup_empty..].
  split; simpl; intros *; rewrite ?lookup_empty; set_solver.
Qed.

(** C14: Whatever account requests are served from an empty database, and
    whichever of their statements fail, the tables stay consistent; in particular
    no invite registers more accounts than it allows. *)
Theorem account_tables_sound cfg l : accounts_ok (serve hmac_sha256 cfg l no_accounts).
Proof. apply serve_keeps, no_accounts_ok. Qed.
End invariant.
