(* ===== verification/Sessions.v ===== *)
(** * Sessions (wavis-backend/src/auth/auth.rs, device.rs)

    What the direction of change means for the holder of a token: a refresh token
    is exchanged once, and a logout everywhere, a detected reuse and the
    revocation of a device end sessions for good, whatever requests follow and
    whichever statements fail. *)

From stdpp Require Import sorting.
From S2P Require Import Prelude SfuBridge Tokens Database Phrase Accounts AccountRules AccountInvariant.
Local Open Scope Z_scope.
Local Open Scope prog_scope.

Section sessions.
Context {Uuid : Type} `{Countable Uuid} `{UuidText Uuid, !UuidTextLaws Uuid} `{PhraseCrypto Uuid}.
Context `{JwtCodec AuthTokenClaims, !JwtCodecLaws AuthTokenClaims}.
Context (hmac_sha256 : string → string → string) (cfg : AuthConfig).
Abbreviation Db := (AuthDb (Uuid:=Uuid)).
Abbreviation hash raw := (hash_refresh_token hmac_sha256 raw (refresh_pepper cfg)) (only parsing).
Abbreviation rotate := (rotate_refresh_token hmac_sha256 cfg) (only parsing).
Implicit Types d : Db.

(** ** Refresh tokens *)

(** What a rotation that succeeds has done. *)
Lemma try_rotate_Ok io h dw d p d' :
  try_rotate hmac_sha256 cfg io h dw d = (Ok p, d') →
  ∃ r, r ∈ refresh_tokens d ∧ consumable h (dw_now dw) r = true ∧
    is_Some (devices d !! r_device r) ∧ tp_device_id p = r_device r ∧ tp_refresh_token p = dw_raw_refresh dw ∧
    refresh_tokens d' =
      map (λ r, if consumable h (dw_now dw) r then set_consumed (dw_now dw) r else r) (refresh_tokens d) ++
      [mkTokenRow (r_device r) (hash (dw_raw_refresh dw)) (r_family r) (refresh_expiry cfg (dw_utc dw)) None None].
Proof.
  unfold try_rotate, rotate_body, mbind_, in_tx, execute, fetch, store_refresh, consume_token, insert_token, mret,
    throw, lift_result, execute. intros Hrun.
  destruct (List.find _ _) as [r|] eqn:Hf; simpl in Hrun.
  - apply find_some_elem_of in Hf as [Hr Hc]. exists r.
    repeat (case_match; simplify_eq/=). decided. split_and!; try done.
  - repeat (case_match; simplify_eq/=).
Qed.

Definition unique_token (h : string) d : Prop := (length (rows_of h d) ≤ 1)%nat.

Lemma rows_of_elem h d r : r ∈ rows_of h d ↔ r_hash r = h ∧ r ∈ refresh_tokens d.
Proof. unfold rows_of. rewrite list_elem_of_In, filter_In, bool_decide_eq_true, list_elem_of_In. tauto. Qed.

Lemma unique_token_eq h d r1 r2 :
  unique_token h d → r1 ∈ refresh_tokens d → r2 ∈ refresh_tokens d → r_hash r1 = h → r_hash r2 = h → r1 = r2.
Proof.
  unfold unique_token. intros Hu Hr1 Hr2 E1 E2.
  assert (r1 ∈ rows_of h d) as G1 by (by apply rows_of_elem).
  assert (r2 ∈ rows_of h d) as G2 by (by apply rows_of_elem).
  destruct (rows_of h d) as [|x [|]]; simpl in Hu; [set_solver|set_solver|lia].
Qed.

(** A token that was exchanged is spent. *)
Lemma rotated_spent io h dw d p d' :
  unique_token h d → hash (dw_raw_refresh dw) ≠ h → try_rotate hmac_sha256 cfg io h dw d = (Ok p, d') → spent h d'.
Proof.
  intros Hu Hne (r & Hr & Hc & _ & _ & _ & Ht)%try_rotate_Ok r' Hr' Hh. rewrite Ht in Hr'.
  apply elem_of_app in Hr' as [Hr'|Hr'%list_elem_of_singleton]; [|by subst r'].
  apply list_elem_of_fmap in Hr' as (r0 & -> & Hr0).
  assert (r0 = r) as ->; [|rewrite Hc; simpl; eauto].
  unfold consumable in Hc. decided. eapply unique_token_eq; eauto. by destruct (consumable _ _ r0).
Qed.

Lemma attempts_spent h tries d p d' :
  unique_token h d → (∀ x, x ∈ tries → hash (dw_raw_refresh x.2) ≠ h) →
  rotate_attempts hmac_sha256 cfg h tries d = (Ok p, d') → spent h d'.
Proof.
  revert d. induction tries as [|[io dw] tries IH]; intros d Hu Hne Hrun; [done|]. simpl in Hrun.
  unfold mbind_, attempt in Hrun. assert (hash (dw_raw_refresh dw) ≠ h) as Hdw by (apply (Hne (io, dw)); set_solver).
  pose proof (moves_try_rotate hmac_sha256 (λ x, x = hash (dw_raw_refresh dw)) cfg io h dw eq_refl d) as Hm.
  destruct (try_rotate _ _ _ _ _ d) as [[p1|e] d1] eqn:Ht; simpl in *.
  - unfold mret in Hrun. simplify_eq. by eapply rotated_spent.
  - destruct e; try done. case_match; [|done]. eapply (IH d1); [|set_solver|done].
    pose proof (fw_rows _ _ _ Hm h (λ Heq, Hdw (eq_sym Heq))) as Hrows.
    unfold unique_token in *. lia.
Qed.

Lemma refresh_draws raw t1 t2 t3 h x :
  ¬ drawn hmac_sha256 cfg (AcRefresh (Uuid:=Uuid) raw t1 t2 t3) h → x ∈ [t1; t2; t3] → hash (dw_raw_refresh x.2) ≠ h.
Proof. intros Hn Hx Heq. apply Hn. unfold drawn. simpl. rewrite <-Heq. set_solver. Qed.

Lemma spent_rotate_refused raw t1 t2 t3 d :
  spent (hash raw) d → ¬ drawn hmac_sha256 cfg (AcRefresh (Uuid:=Uuid) raw t1 t2 t3) (hash raw) →
  is_Ok (rotate raw t1 t2 t3 d).1 = false.
Proof.
  intros Hs Hn. apply spent_attempts_refused; [done|]. apply Forall_forall. intros x Hx.
  by eapply refresh_draws.
Qed.

(** A spent token stays spent, and is never exchanged. *)
Lemma spent_for_good l raw t1 t2 t3 d :
  spent (hash raw) d → not_drawn hmac_sha256 cfg (l ++ [(no_failure, AcRefresh (Uuid:=Uuid) raw t1 t2 t3)]) (hash raw) →
  is_Ok (rotate raw t1 t2 t3 (serve hmac_sha256 cfg l d)).1 = false.
Proof.
  intros Hs Hn. apply spent_rotate_refused; [|apply (Hn (no_failure, _)); set_solver].
  apply spent_serve; [|done]. intros x Hx. apply Hn. set_solver.
Qed.

(** C15: A refresh token is exchanged at most once: after an exchange that
    succeeded, whatever requests follow and whichever statements fail, the same
    token is refused, as long as the generator does not draw it again. *)
Theorem refresh_single_use raw t1 t2 t3 d p d' l u1 u2 u3 :
  unique_token (hash raw) d →
  not_drawn hmac_sha256 cfg
    ((no_failure, AcRefresh raw t1 t2 t3) :: l ++ [(no_failure, AcRefresh raw u1 u2 u3)]) (hash raw) →
  rotate raw t1 t2 t3 d = (Ok p, d') →
  is_Ok (rotate raw u1 u2 u3 (serve hmac_sha256 cfg l d')).1 = false.
Proof.
  intros Hu Hn Hrun. apply spent_for_good.
  - eapply attempts_spent; [done| |done]. intros x Hx. apply (refresh_draws raw t1 t2 t3); [|done].
    apply (Hn (no_failure, _)). set_solver.
  - intros x Hx. apply Hn. set_solver.
Qed.

(** ** Access tokens *)

(** Whatever secrets verify it, a signed token yields what was signed. *)
Lemma validated_signed (u dev : Uuid) secret ttl ep t0 tok s prev n1 n2 x :
  sign_access_token u dev secret ttl ep t0 = Ok tok →
  validate_access_token_with_rotation tok s prev n1 n2 = Ok x → x = (u, dev, ep).
Proof.
  intros Hs%sign_access_token_Ok. unfold validate_access_token_with_rotation.
  pose proof (λ key n, validate_access_token_signed u dev secret key ttl ep t0 tok n Hs) as Hv.
  pose proof (Hv s n1) as Hv1. destruct (validate_access_token tok s n1); [naive_solver|].
  destruct prev as [s'|]; [|done]. pose proof (Hv s' n2) as Hv2.
  destruct (validate_access_token tok s' n2); naive_solver.
Qed.

(** A token that authenticates carries the current epoch of its user, and its
    device is not revoked. *)
Lemma authenticate_signed (u dev : Uuid) secret ttl ep t0 tok io s prev n1 n2 d :
  sign_access_token u dev secret ttl ep t0 = Ok tok →
  is_Ok (authenticate_access_token io s prev tok n1 n2 d).1 = true →
  epoch_of u d = Some ep ∧ ∃ row, devices d !! dev = Some row ∧ d_revoked_at row = None.
Proof.
  intros Hs Hok. unfold authenticate_access_token, mbind_ at 1, lift_result in Hok.
  destruct (validate_access_token_with_rotation tok s prev n1 n2) as [x|] eqn:Hv; [|done].
  rewrite (validated_signed _ _ _ _ _ _ _ _ _ _ _ _ Hs Hv) in Hok.
  unfold mbind_, map_err_m, is_device_active, check_session_epoch, mbind_, fetch, throw, mret in Hok.
  destruct (io 0%nat); simpl in Hok; [done|]. destruct (devices d !! dev) as [row|]; simpl in Hok; [|done].
  case_bool_decide; simpl in Hok; [|done]. destruct (io 1%nat); simpl in Hok; [done|].
  destruct (epoch_of u d); simpl in Hok; [|done]. case_bool_decide; [subst; eauto|done].
Qed.

(** ** The end of every session *)

(** The user a token belongs to. *)
Definition owner d (r : TokenRow) : option Uuid := d_user <$> devices d !! r_device r.

(** From [d] to [d'] every session of [u] came to an end: whatever happens next,
    an access token signed for [u] under an epoch that was reached at [d] does not
    authenticate, and a refresh token that is of a device of [u] at [d'] is not
    exchanged. *)
Definition logged_out (u : Uuid) d d' : Prop := ∀ l,
  (∀ dev secret ttl ep t0 tok io s prev n1 n2, sign_access_token u dev secret ttl ep t0 = Ok tok →
     (∃ e, epoch_of u d = Some e ∧ ep ≤ e) →
     is_Ok (authenticate_access_token (Uuid:=Uuid) io s prev tok n1 n2 (serve hmac_sha256 cfg l d')).1 = false) ∧
  (∀ raw t1 t2 t3, (∀ r, r ∈ rows_of (hash raw) d' → owner d' r = Some u) →
     not_drawn hmac_sha256 cfg (l ++ [(no_failure, AcRefresh (Uuid:=Uuid) raw t1 t2 t3)]) (hash raw) →
     is_Ok (rotate raw t1 t2 t3 (serve hmac_sha256 cfg l d')).1 = false).

(** An access token of an epoch that has passed does not authenticate. *)
Lemma old_epoch_refused l (u dev : Uuid) secret ttl ep t0 tok io s prev n1 n2 d row :
  sign_access_token u dev secret ttl ep t0 = Ok tok → users d !! u = Some row → ep < u_session_epoch row →
  is_Ok (authenticate_access_token (Uuid:=Uuid) io s prev tok n1 n2 (serve hmac_sha256 cfg l d)).1 = false.
Proof.
  intros Hs Hu Hep. apply not_true_is_false. intros Hok.
  destruct (authenticate_signed _ _ _ _ _ _ _ _ _ _ _ _ _ Hs Hok) as [Hepoch _].
  destruct (fw_user _ _ _ (serve_forward hmac_sha256 cfg l d) _ _ Hu) as (row' & Hu' & Hle).
  unfold epoch_of in Hepoch. rewrite Hu' in Hepoch. simplify_eq/=. lia.
Qed.

(** What ends the sessions: the epoch of the user grows, and the tokens of its
    devices are revoked. *)
Lemma sessions_end u d d' row row' :
  users d !! u = Some row → users d' !! u = Some row' → u_session_epoch row < u_session_epoch row' →
  (∀ r, r ∈ refresh_tokens d' → owner d' r = Some u → is_Some (r_revoked_at r)) → logged_out u d d'.
Proof.
  intros Hu Hu' Hep Htok l. split.
  - intros dev secret ttl ep t0 tok io s prev n1 n2 Hs (e & He & Hle). eapply old_epoch_refused; [done..|].
    unfold epoch_of in He. rewrite Hu in He. simplify_eq/=. lia.
  - intros raw t1 t2 t3 Hown Hn. apply spent_for_good; [|done]. intros r Hr Hh. right.
    apply Htok; [done|]. apply Hown. by apply rows_of_elem.
Qed.

Lemma revoke_user_tokens_done u now d r :
  r ∈ refresh_tokens (revoke_user_tokens u now d).2 → owner d r = Some u → is_Some (r_revoked_at r).
Proof.
  intros (r0 & -> & Hr0)%list_elem_of_fmap. unfold owner, of_user.
  destruct (devices d !! r_device r0) as [dv|] eqn:Hd; simpl.
  - case_bool_decide as Hu; simpl; [case_bool_decide as Hn; simpl; [eauto|]|].
    + intros _. by apply not_eq_None_Some.
    + rewrite Hd. naive_solver.
  - by rewrite Hd.
Qed.

(** A logout everywhere that succeeds ends every session of the user for
    good. *)
Theorem logout_ends_sessions io u now d e d' : logout_all io u now d = (Ok e, d') → logged_out u d d'.
Proof.
  intros Hrun. unfold logout_all, in_tx, mbind_, execute, bump_epoch, mret in Hrun.
  destruct (io 0%nat), (io 1%nat), (io 2%nat); try done.
  all: destruct (users d !! u) as [row|] eqn:Hu; simpl in Hrun; try done.
  all: repeat (case_match; simplify_eq/=).
  eapply sessions_end; [done|simpl; apply lookup_insert_eq|simpl; lia|].
  intros r Hr Ho. by apply (revoke_user_tokens_done u now d).
Qed.

(** ** Reuse *)

Lemma set_tokens_same d : set_tokens (refresh_tokens d) d = d.
Proof. by destruct d. Qed.

Lemma consume_none h now d :
  List.find (consumable h now) (refresh_tokens d) = None → consume_token h now d = (Ok None, d).
Proof.
  intros Hf. unfold consume_token, update_tokens. rewrite Hf. simpl. f_equal.
  rewrite <-(set_tokens_same d) at 3. f_equal. rewrite <-(map_id (refresh_tokens d)) at 2. apply map_ext_in.
  intros r Hr. by rewrite (find_none _ _ Hf r Hr).
Qed.

(** What a detected reuse has done. *)
Lemma try_rotate_reused io h dw d d' :
  accounts_ok_but None d → try_rotate hmac_sha256 cfg io h dw d = (Err TokenReuseDetected, d') →
  ∃ r u row, r ∈ refresh_tokens d ∧ r_hash r = h ∧ owner d r = Some u ∧ users d !! u = Some row ∧
    d' = set_users (<[u := set_epoch (u_session_epoch row + 1) row]> (users d)) (revoke_user_tokens u (dw_now dw) d).2.
Proof.
  intros Hok Hrun. unfold try_rotate, rotate_body, mbind_, in_tx, execute at 1 in Hrun.
  destruct (io 0%nat), (io 1%nat); try done.
  destruct (List.find (consumable h (dw_now dw)) (refresh_tokens d)) as [r|] eqn:Hf.
  { unfold consume_token, fetch, store_refresh, insert_token, execute, lift_result, sign_access_token, mret, throw in Hrun.
    rewrite Hf in Hrun. repeat (case_match; simplify_eq/=).
    match goal with Hs : map_err _ ?r = Err _ |- _ => by destruct r end. }
  rewrite (consume_none _ _ _ Hf) in Hrun. simpl in Hrun. unfold fetch at 1, consumed_device in Hrun.
  destruct (io 2%nat); [done|].
  destruct (List.find _ (refresh_tokens d)) as [r|] eqn:Hr; simpl in Hrun; [|repeat (case_match; simplify_eq/=)].
  apply find_some_elem_of in Hr as [Hr Hc]. decided. destruct (lk_token _ (ok_links _ _ Hok) r Hr) as [dv Hdv].
  destruct (lk_device _ (ok_links _ _ Hok) _ _ Hdv) as [row Hrow]. exists r, (d_user dv), row. unfold owner. rewrite Hdv.
  unfold fetch, mbind_, execute, bump_epoch, mret, throw in Hrun. rewrite Hdv in Hrun.
  destruct (io 3%nat), (io 4%nat), (io 5%nat); simpl in Hrun; try done.
  rewrite Hrow in Hrun. repeat (case_match; simplify_eq/=). done.
Qed.

(** The same over the attempts, the last of which reports the reuse. *)
Lemma attempts_reused h tries d d' :
  accounts_ok_but None d → (∀ x, x ∈ tries → hash (dw_raw_refresh x.2) ≠ h) →
  rotate_attempts hmac_sha256 cfg h tries d = (Err TokenReuseDetected, d') →
  ∃ r u, r ∈ rows_of h d ∧ owner d r = Some u ∧ logged_out u d d'.
Proof.
  revert d. induction tries as [|[io dw] tries IH]; intros d Hok Hne Hrun; [done|]. simpl in Hrun.
  unfold mbind_, attempt in Hrun. assert (hash (dw_raw_refresh dw) ≠ h) as Hdw by (apply (Hne (io, dw)); set_solver).
  pose proof (moves_try_rotate hmac_sha256 (λ x, x = hash (dw_raw_refresh dw)) cfg io h dw eq_refl d) as Hm.
  pose proof (keeps_try_rotate hmac_sha256 cfg io h dw d Hok) as Hok1.
  destruct (try_rotate _ _ _ _ _ d) as [[p1|e] d1] eqn:Ht; simpl in *; [done|].
  destruct e; try done.
  - unfold throw in Hrun. simplify_eq. destruct (try_rotate_reused _ _ _ _ _ Hok Ht) as (r & u & row & Hr & Hh & Ho & Hu & ->).
    exists r, u. rewrite rows_of_elem. split_and!; [done..|].
    eapply sessions_end; [done|simpl; apply lookup_insert_eq|simpl; lia|].
    intros r' Hr' Ho'. by apply (revoke_user_tokens_done u (dw_now dw) d).
  - case_match; [|done]. destruct (IH d1 Hok1) as (r1 & u & Hr1 & Ho1 & Hout); [set_solver|done|].
    apply rows_of_elem in Hr1 as [Hh1 Hr1].
    destruct (fw_token _ _ _ Hm r1 Hr1) as [?|(r & Hr & Hhash & Hdev & _)]; [congruence|].
    destruct (lk_token _ (ok_links _ _ Hok) r Hr) as [dv Hdv].
    destruct (fw_device _ _ _ Hm _ _ Hdv) as (dv1 & Hdv1 & Hsame & _).
    exists r, u. rewrite rows_of_elem. split_and!; [congruence|done| |].
    + unfold owner in *. rewrite Hdev, Hdv1 in Ho1. rewrite Hdv. simpl in *. congruence.
    + intros l. destruct (Hout l) as [Ha Hr']. split; [|exact Hr'].
      intros dev secret ttl ep t0 tok io0 s prev n1 n2 Hs (e0 & He & Hle). eapply Ha; [done|].
      unfold epoch_of in *. destruct (users d !! u) as [row|] eqn:Hu; simplify_eq/=.
      destruct (fw_user _ _ _ Hm _ _ Hu) as (row1 & -> & ?). simpl. eexists. split; [done|lia].
Qed.

(** C16: When a consumed refresh token is presented again and the reuse is reported,
    then, whatever requests follow, no access token issued to its owner under an epoch
    reached before the report authenticates again, and no refresh token of a device of
    the owner is exchanged again, a later draw of the same token apart.  The presented
    token is one the request itself does not draw.  WebSocket tickets that were issued
    before are not covered: they stay usable until they expire. *)
Theorem reuse_ends_sessions raw t1 t2 t3 d d' :
  accounts_ok_but None d → ¬ drawn hmac_sha256 cfg (AcRefresh (Uuid:=Uuid) raw t1 t2 t3) (hash raw) →
  rotate raw t1 t2 t3 d = (Err TokenReuseDetected, d') →
  ∃ r u, r ∈ rows_of (hash raw) d ∧ owner d r = Some u ∧ logged_out u d d'.
Proof.
  intros Hok Hn. apply attempts_reused; [done|]. intros x Hx. by apply (refresh_draws raw t1 t2 t3).
Qed.

(** ** Revoked devices *)

(** What a revocation that succeeds has done. *)
Lemma revoke_device_Ok io u dev now now2 d d' :
  revoke_device io u dev now now2 d = (Ok tt, d') →
  (∃ row, devices d' !! dev = Some row ∧ is_Some (d_revoked_at row)) ∧
  (∀ r', r' ∈ refresh_tokens d' → ∃ r, r ∈ refresh_tokens d ∧ r_hash r' = r_hash r ∧ r_device r' = r_device r ∧
     (r_device r = dev → is_Some (r_revoked_at r'))).
Proof.
  intros Hrun. unfold revoke_device, mbind_, fetch, execute, throw in Hrun.
  destruct (io 0%nat), (io 1%nat), (io 2%nat); try done; simpl in Hrun.
  all: destruct (devices d !! dev) as [row|] eqn:Hd; simpl in Hrun; try done.
  all: destruct (bool_decide _); simpl in Hrun; try done. rewrite Hd in Hrun. injection Hrun as <-. split.
  - simpl. case_bool_decide; simpl; [rewrite lookup_insert_eq; eauto|]. exists row. split; [done|by apply not_eq_None_Some].
  - assert (∀ r', r' ∈ map (λ r, if bool_decide (r_device r = dev) && bool_decide (r_revoked_at r = None)
        then set_revoked now2 r else r) (refresh_tokens d) → ∃ r, r ∈ refresh_tokens d ∧ r_hash r' = r_hash r ∧
        r_device r' = r_device r ∧ (r_device r = dev → is_Some (r_revoked_at r'))) as Hmap.
    { intros r' (r & -> & Hr)%list_elem_of_fmap. exists r. split; [done|].
      case_bool_decide; simpl; [|done]. case_bool_decide; simpl; [eauto|].
      split_and!; [done..|]. intros _. by apply not_eq_None_Some. }
    by case_bool_decide.
Qed.

(** C17: Once the revocation of a device has succeeded, no access token signed for
    it authenticates and no refresh token of it is exchanged, ever again. *)
Theorem device_revocation_final io u dev now now2 d d' l :
  revoke_device io u dev now now2 d = (Ok tt, d') →
  (∀ v secret ttl ep t0 tok io' s prev n1 n2, sign_access_token v dev secret ttl ep t0 = Ok tok →
     is_Ok (authenticate_access_token (Uuid:=Uuid) io' s prev tok n1 n2 (serve hmac_sha256 cfg l d')).1 = false) ∧
  (∀ raw t1 t2 t3, (∀ r, r ∈ rows_of (hash raw) d → r_device r = dev) →
     not_drawn hmac_sha256 cfg (l ++ [(no_failure, AcRefresh (Uuid:=Uuid) raw t1 t2 t3)]) (hash raw) →
     is_Ok (rotate raw t1 t2 t3 (serve hmac_sha256 cfg l d')).1 = false).
Proof.
  intros ((row & Hd & Hrev) & Htok)%revoke_device_Ok. split.
  - intros v secret ttl ep t0 tok io' s prev n1 n2 Hs. apply not_true_is_false. intros Hok.
    destruct (authenticate_signed _ _ _ _ _ _ _ _ _ _ _ _ _ Hs Hok) as (_ & row' & Hd' & Hnone).
    destruct (fw_device _ _ _ (serve_forward hmac_sha256 cfg l d') _ _ Hd) as (row2 & Hd2 & _ & Hkeep).
    simplify_eq. destruct (Hkeep Hrev). congruence.
  - intros raw t1 t2 t3 Hdev Hn. apply spent_for_good; [|done]. intros r' Hr' Hh. right.
    destruct (Htok r' Hr') as (r & Hr & Hhash & _ & Hrevoked). apply Hrevoked, Hdev, rows_of_elem. split; congruence.
Qed.
End sessions.
