(* ===== verification/Pairing.v ===== *)
(** * Pairing a device (wavis-backend/src/auth/pairing.rs)

    A pairing hands a new device to an account: it takes the code, an approval by
    a signed-in user, and at most five wrong codes; it works once.  The theorems
    hold over every history of account requests that does not draw the id of the
    pairing again. *)

From stdpp Require Import sorting.
From S2P Require Import Prelude SfuBridge Tokens Database Phrase Accounts AccountRules AccountInvariant.
Local Open Scope Z_scope.
Local Open Scope prog_scope.

Section pairing.
Context {Uuid : Type} `{Countable Uuid} `{UuidText Uuid} `{PhraseCrypto Uuid} `{JwtCodec AuthTokenClaims}.
Context (hmac_sha256 : string → string → string) (cfg : AuthConfig).
Abbreviation Db := (AuthDb (Uuid:=Uuid)).
Abbreviation Prog E A := (M Db E A) (only parsing).
Abbreviation approve := (approve_pairing hmac_sha256) (only parsing).
Abbreviation finish := (finish_pairing hmac_sha256 cfg) (only parsing).
Implicit Types d : Db.

(** ** Wrong codes add up *)

(** The pairing, if it is there, is used up or has seen [n] wrong codes. *)
Definition struck (n : Z) (id : Uuid) d : Prop :=
  ∀ row, pairings d !! id = Some row → is_Some (p_used_at row) ∨ n ≤ p_attempt_count row.

(** Closed for good: used up, or five wrong codes. *)
Definition closed : Uuid → Db → Prop := struck 5.

(** The same, of a pairing whose expiry is [due]. *)
Definition kept (due : Z → Prop) (n : Z) (id : Uuid) d : Prop :=
  ∀ row, pairings d !! id = Some row →
    due (p_expires_at row) ∧ (is_Some (p_used_at row) ∨ n ≤ p_attempt_count row).

Lemma kept_same due n id d d' : pairings d' = pairings d → kept due n id d → kept due n id d'.
Proof. unfold kept. by intros ->. Qed.

(** A row of the pairing that is no better than the one before. *)
Lemma kept_insert due n id id' row row' d :
  pairings d !! id' = Some row → (is_Some (p_used_at row) → is_Some (p_used_at row')) →
  p_attempt_count row ≤ p_attempt_count row' ∨ is_Some (p_used_at row') → p_expires_at row' = p_expires_at row →
  kept due n id d → kept due n id (set_pairings (<[id' := row']> (pairings d)) d).
Proof.
  intros Hrow Hused Hcount Hexp Hs row1. simpl. intros [[<- <-]|[_ Hp]]%lookup_insert_Some; [|by apply Hs].
  destruct (Hs _ Hrow) as [Hdue Hrow']. split; [by rewrite Hexp|]. destruct Hrow', Hcount; auto. right. lia.
Qed.

Lemma kept_count due n id id' now d : kept due n id d → kept due n id (count_attempt id' now d).2.
Proof.
  intros Hs. unfold count_attempt. destruct (pairings d !! id') as [row|] eqn:Hp; [|done]. case_match; [|done].
  eapply kept_insert; simpl; [done..|left; lia|done|done].
Qed.

Lemma kept_approved due n id id' u dev now d : kept due n id d → kept due n id (mark_approved id' u dev now d).2.
Proof.
  intros Hs. unfold mark_approved. destruct (pairings d !! id') as [row|] eqn:Hp; [|done]. case_match; [|done].
  eapply kept_insert; simpl; [done..|left; lia|done|done].
Qed.

Lemma kept_used due n id id' now d : kept due n id d → kept due n id (mark_used id' now d).2.
Proof.
  intros Hs. unfold mark_used. destruct (pairings d !! id') as [row|] eqn:Hp; [|done]. case_match; [|done].
  eapply kept_insert; simpl; [done|eauto..].
Qed.

Lemma kept_execute {E A} due n id (f : string → E) io k (stmt : Stmt A) :
  (∀ d, kept due n id d → kept due n id (stmt d).2) → preserves (kept due n id) (execute f io k stmt).
Proof. apply preserves_execute. Qed.

Lemma kept_in_tx {E A} due n id (f : string → E) io k1 k2 (m : Prog E A) :
  preserves (kept due n id) m → preserves (kept due n id) (in_tx f io k1 k2 m).
Proof. intros Hm. by apply preserves_in_tx, preserves_establishes. Qed.

#[local] Hint Resolve kept_count kept_approved kept_used : wavis.
#[local] Hint Extern 2 (preserves _ (fetch _ _ _ _)) => apply readonly_preserves, readonly_fetch : wavis.

Ltac strikes :=
  repeat first
    [ progress intros
    | apply preserves_bind | apply preserves_map_err | apply preserves_attempt
    | apply kept_in_tx | apply kept_execute
    | solve [eauto 3 with wavis]
    | solve [eapply kept_same; [|eassumption]; done]
    | progress simpl
    | case_match ].

Lemma strikes_unique_id due n id io k ids : preserves (kept due n id) (unique_recovery_id io k ids).
Proof. revert k. induction ids as [|x ids IH]; intros k; simpl; strikes. Qed.

Lemma strikes_claim due n id io u s v rid more k : preserves (kept due n id) (claim_recovery_id io k u s v rid more).
Proof. revert k rid. induction more as [|next more IH]; intros k rid; simpl; unfold claim_id, update_user; strikes. Qed.

Lemma strikes_attempts due n id h tries : preserves (kept due n id) (rotate_attempts hmac_sha256 cfg h tries).
Proof.
  induction tries as [|[io dw] tries IH]; simpl; [strikes|].
  unfold try_rotate, rotate_body, consume_token, revoke_user_tokens, update_tokens, store_refresh, insert_token, bump_epoch.
  strikes.
Qed.
#[local] Hint Resolve strikes_unique_id strikes_claim strikes_attempts : wavis.

(** The request does not start a pairing with this id. *)
Definition not_started (id : Uuid) (rq : AccountRequest (Uuid:=Uuid)) : Prop :=
  match rq with AcPairStart _ _ _ id' _ => id' ≠ id | _ => True end.

Lemma perform_kept due n id io rq d :
  not_started id rq → kept due n id d → kept due n id (perform hmac_sha256 cfg io rq d).
Proof.
  intros Hns. revert d. unfold perform, state_of. destruct rq; simpl in Hns.
  all: match goal with |- ∀ d, _ → kept ?w ?x ?y (?m d).2 => change (preserves (kept w x y) m) end.
  all: unfold register_user_with_invite, redeem_alpha_invite, record_redemption, count_redemption, register_user,
    create_device, register_device, recover_account, create_device, fetch_one, rotate_phrase, rotate_refresh_token,
    update_username, revoke_device, revoke_device_tokens, logout_all, revoke_user_tokens, start_pairing,
    approve_pairing, finish_pairing, wrong_code, explain_refusal, store_refresh, insert_user, insert_device,
    insert_token, fill_user, update_user, bump_epoch, replace_phrase, mark_device_revoked,
    sweep_expired_tokens, sweep_consumed_tokens, sweep_expired_pairings, delete_tokens,
    create_alpha_invite, insert_alpha_invite, disable_alpha_invite, update_tokens.
  all: strikes.
  - intros row. simpl. intros [[? _]|[_ Hp]]%lookup_insert_Some; [done|]. eauto.
  - intros row. simpl. intros [Hp _]%map_lookup_filter_Some. eauto.
Qed.

Lemma serve_kept due n id l d :
  Forall (λ x, not_started id x.2) l → kept due n id d → kept due n id (serve hmac_sha256 cfg l d).
Proof.
  unfold serve. intros Hl. revert d. induction Hl as [|x l Hx Hl IH]; intros d Hs; [done|].
  simpl. by apply IH, perform_kept.
Qed.

(** With any expiry. *)
Lemma kept_struck n id d : kept (λ _, True) n id d ↔ struck n id d.
Proof. unfold kept, struck. naive_solver. Qed.

Lemma perform_struck n id io rq d :
  not_started id rq → struck n id d → struck n id (perform hmac_sha256 cfg io rq d).
Proof. rewrite <-!kept_struck. apply perform_kept. Qed.

Lemma serve_struck n id l d :
  Forall (λ x, not_started id x.2) l → struck n id d → struck n id (serve hmac_sha256 cfg l d).
Proof. rewrite <-!kept_struck. apply serve_kept. Qed.

(** ** Closed pairings *)

(** A closed pairing grants nothing: both steps are refused, whatever the code,
    and change nothing. *)
Lemma closed_guard {A} id utc io d (m : PairingSession → Prog PairingError A) :
  closed id d →
  let run := mbind_ (fetch PairErr.DatabaseError io 0%nat (λ d, pairings d !! id)) (λ row,
    match row with
    | None => throw PairErr.NotFound
    | Some row => match pairing_open row utc with Some e => throw e | None => m row end
    end) in
  is_Ok (run d).1 = false ∧ (run d).2 = d.
Proof.
  intros Hc. unfold mbind_, fetch, throw, pairing_open. destruct (io 0%nat); [done|].
  destruct (pairings d !! id) as [row|] eqn:Hp; simpl; [|done].
  destruct (Hc row Hp) as [Hused|Hcount].
  - by rewrite bool_decide_true.
  - case_bool_decide; [done|]. case_bool_decide; [done|]. by rewrite bool_decide_true.
Qed.

(** What finishing a pairing takes and what it does. *)
Lemma finish_Ok io id code pepper utc utc2 dw d res d' :
  finish io id code pepper utc utc2 dw d = (Ok res, d') →
  ∃ row, pairings d !! id = Some row ∧ p_used_at row = None ∧ utc ≤ p_expires_at row ∧
    dw_now dw < p_expires_at row ∧ p_attempt_count row < 5 ∧ is_Some (p_approved_at row) ∧
    p_approved_user_id row = Some (pr_user_id res) ∧ hmac_code hmac_sha256 code pepper = p_code_hash row ∧
    pr_device_id res = dw_device_id dw ∧ devices d !! dw_device_id dw = None ∧
    devices d' = <[dw_device_id dw := mkDeviceRow (pr_user_id res) (p_request_device_name row) (dw_now dw) None]> (devices d) ∧
    closed id d'.
Proof.
  unfold finish_pairing, mbind_ at 1, fetch at 1, pairing_open, not_approved. destruct (io 0%nat); [done|].
  destruct (pairings d !! id) as [row|] eqn:Hp; [|done]. intros Hrun. exists row. split; [done|].
  repeat (case_bool_decide; [done|]; simpl in Hrun).
  destruct (negb (bool_decide (hmac_code _ code pepper = _))) eqn:Hcode.
  { unfold wrong_code, mbind_, execute, throw in Hrun. repeat (case_match; simplify_eq/=). }
  unfold in_tx in Hrun. destruct (io 1%nat); [done|].
  unfold mbind_ at 1, execute at 1, mark_used in Hrun. destruct (io 2%nat); [done|]. rewrite Hp in Hrun.
  unfold live_pairing, explain_refusal, mbind_, fetch, execute, insert_device, insert_token, lift_result, throw, mret in Hrun.
  repeat (case_match; simplify_eq/=). decided. simpl.
  split_and!; try done; try lia.
  intros row1. simpl. rewrite lookup_insert_eq. intros [= <-]. left. simpl. eauto.
Qed.

(** A pairing is finished only with its code, on behalf of the user who
    approved it, before it expires and before five wrong codes; the device it adds
    belongs to that user; and from then on, whatever requests follow, approving or
    finishing it again is refused and changes nothing. *)
Theorem pairing_works_once io id code pepper utc utc2 dw d res d' l :
  finish io id code pepper utc utc2 dw d = (Ok res, d') → Forall (λ x, not_started id x.2) l →
  (∃ row, pairings d !! id = Some row ∧ p_used_at row = None ∧ dw_now dw < p_expires_at row ∧ p_attempt_count row < 5 ∧
     p_approved_user_id row = Some (pr_user_id res) ∧ hmac_code hmac_sha256 code pepper = p_code_hash row ∧
     devices d' !! pr_device_id res = Some (mkDeviceRow (pr_user_id res) (p_request_device_name row) (dw_now dw) None)) ∧
  let d2 := serve hmac_sha256 cfg l d' in
  (∀ io c u dev pp t1 t2 t3, is_Ok (approve io id c u dev pp t1 t2 t3 d2).1 = false ∧ (approve io id c u dev pp t1 t2 t3 d2).2 = d2) ∧
  (∀ io c pp t1 t2 dw, is_Ok (finish io id c pp t1 t2 dw d2).1 = false ∧ (finish io id c pp t1 t2 dw d2).2 = d2).
Proof.
  intros (row & Hp & Hu & _ & He & Hc & _ & Ha & Hh & Hdev & _ & Hins & Hclosed)%finish_Ok Hl.
  split. { exists row. split_and!; try done. by rewrite Hdev, Hins, lookup_insert_eq. }
  apply (serve_struck 5 id l) in Hclosed; [|done]. split; intros; by apply closed_guard.
Qed.

(** ** Guessing *)

(** The request is a try on the pairing that was answered with a wrong code. *)
Definition is_mismatch {A} (r : Result A PairingError) : bool :=
  match r with Err PairErr.CodeMismatch => true | _ => false end.
Definition wrong_answer (id : Uuid) (io : Io) (rq : AccountRequest) d : bool :=
  match rq with
  | AcPairApprove id' c u dev pp t1 t2 t3 => bool_decide (id' = id) && is_mismatch (approve io id' c u dev pp t1 t2 t3 d).1
  | AcPairFinish id' c pp t1 t2 dw => bool_decide (id' = id) && is_mismatch (finish io id' c pp t1 t2 dw d).1
  | _ => false
  end.

(** The time of a try by the database's clock, which decides whether it is counted,
    and whether the pairing had not expired by it.  The expiry check that comes first
    reads the clock of the server. *)
Definition db_time (id : Uuid) (rq : AccountRequest (Uuid:=Uuid)) : option Z :=
  match rq with
  | AcPairApprove id' _ _ _ _ _ t2 _ => if bool_decide (id' = id) then Some t2 else None
  | AcPairFinish id' _ _ _ _ dw => if bool_decide (id' = id) then Some (dw_now dw) else None
  | _ => None
  end.
Definition unexpired (id : Uuid) (now : Z) d : bool :=
  match pairings d !! id with Some row => bool_decide (now < p_expires_at row) | None => false end.
Definition in_time (id : Uuid) (rq : AccountRequest) d : bool :=
  match db_time id rq with Some now => unexpired id now d | None => false end.

(** The tries of a history answered with a wrong code: all of them, and those the
    pairing had not expired for. *)
Definition mismatch (id : Uuid) (io : Io) (rq : AccountRequest) d : bool := wrong_answer id io rq d && in_time id rq d.
Fixpoint tally (count : Io → AccountRequest → Db → bool) (l : history (Uuid:=Uuid)) d : Z :=
  match l with
  | [] => 0
  | (io, rq) :: l' => (if count io rq d then 1 else 0) + tally count l' (perform hmac_sha256 cfg io rq d)
  end.
Definition wrong_answers (id : Uuid) : history (Uuid:=Uuid) → Db → Z := tally (wrong_answer id).
Definition mismatches (id : Uuid) : history (Uuid:=Uuid) → Db → Z := tally (mismatch id).

(** The request is a try on the pairing that succeeded. *)
Definition accepted (id : Uuid) (io : Io) (rq : AccountRequest) d : bool :=
  match rq with
  | AcPairApprove id' c u dev pp t1 t2 t3 => bool_decide (id' = id) && is_Ok (approve io id' c u dev pp t1 t2 t3 d).1
  | AcPairFinish id' c pp t1 t2 dw => bool_decide (id' = id) && is_Ok (finish io id' c pp t1 t2 dw d).1
  | _ => false
  end.

(** A wrong code on an open pairing is counted, and only the first four are
    answered as a mismatch. *)
Lemma wrong_code_counts {A} n io k id now d row :
  pairings d !! id = Some row → p_used_at row = None → now < p_expires_at row → struck n id d →
  is_mismatch (wrong_code (A:=A) io k id now d).1 = true →
  n + 1 < 5 ∧ struck (n + 1) id (wrong_code (A:=A) io k id now d).2.
Proof.
  intros Hp Hused Hexp Hs. unfold wrong_code, mbind_, execute, throw, count_attempt. destruct (io k); [done|].
  rewrite Hp. unfold live_pairing. rewrite !bool_decide_true by done. simpl. case_bool_decide; [done|]. intros _.
  destruct (Hs _ Hp) as [Hx|Hn]; [rewrite Hused in Hx; by destruct Hx|]. split; [lia|].
  intros row'. simpl. rewrite lookup_insert_eq. intros [= <-]. right. simpl. lia.
Qed.

(** Nothing but a wrong code is answered as a mismatch. *)
Definition other_answers {A} (m : Prog PairingError A) : Prop := ∀ d, is_mismatch (m d).1 = false.

Lemma other_bind {A B} (m : Prog PairingError A) (k : A → Prog PairingError B) :
  other_answers m → (∀ a, other_answers (k a)) → other_answers (mbind_ m k).
Proof. intros Hm Hk d. unfold mbind_. specialize (Hm d). destruct (m d) as [[a|e] d']; [apply Hk|done]. Qed.
Lemma other_fetch {A} io k (q : Db → A) : other_answers (fetch PairErr.DatabaseError io k q).
Proof. intros d. unfold fetch. by destruct (io k). Qed.
Lemma other_execute {A} io k (stmt : Stmt A) : other_answers (execute PairErr.DatabaseError io k stmt).
Proof. intros d. unfold execute. destruct (io k); [done|]. by destruct (stmt d) as [[]]. Qed.
Lemma other_in_tx {A} io k1 k2 (m : Prog PairingError A) :
  other_answers m → other_answers (in_tx PairErr.DatabaseError io k1 k2 m).
Proof. intros Hm d. unfold in_tx. specialize (Hm d). destruct (io k1); [done|]. destruct (m d) as [[]], (io k2); done. Qed.
Lemma other_sign (r : Result string AuthError) :
  other_answers (lift_result (map_err (λ e, PairErr.DatabaseError (AuthError_to_string e)) r)).
Proof. intros d. by destruct r. Qed.
Lemma other_explain {A} io k id utc approval :
  (∀ row, approval row ≠ Some PairErr.CodeMismatch) → other_answers (explain_refusal (A:=A) io k id utc approval).
Proof.
  intros Ha. apply other_bind; [apply other_fetch|]. intros [row|]; [|done]. unfold pairing_open.
  repeat (case_bool_decide; [done|]). intros d. specialize (Ha row). by destruct (approval row) as [[]|].
Qed.

Lemma guarded_counts {A} n io id now utc (approval : PairingSession → option PairingError) (good : PairingSession → bool)
    (m : Prog PairingError A) d :
  (∀ row, approval row ≠ Some PairErr.CodeMismatch) → other_answers m → unexpired id now d = true → struck n id d →
  let run := mbind_ (fetch PairErr.DatabaseError io 0%nat (λ d, pairings d !! id)) (λ row,
    match row with
    | None => throw PairErr.NotFound
    | Some row =>
        match pairing_open row utc with
        | Some e => throw e
        | None => match approval row with
                  | Some e => throw e
                  | None => if negb (good row) then wrong_code io 1%nat id now else m
                  end
        end
    end) in
  is_mismatch (run d).1 = true → n + 1 < 5 ∧ struck (n + 1) id (run d).2.
Proof.
  intros Ha Hm Hexp Hs. unfold mbind_, fetch, throw, unexpired in *. destruct (io 0%nat); [done|].
  destruct (pairings d !! id) as [row|] eqn:Hp; [|done]. decided. unfold pairing_open. specialize (Ha row).
  case_bool_decide as Hused; [done|]. apply eq_None_not_Some in Hused. repeat (case_bool_decide; [done|]).
  destruct (approval row) as [e|]; [by destruct e|]. case_match; [by eapply wrong_code_counts|by rewrite Hm].
Qed.

Lemma mismatch_counts n id io rq d :
  struck n id d → mismatch id io rq d = true → n + 1 < 5 ∧ struck (n + 1) id (perform hmac_sha256 cfg io rq d).
Proof.
  intros Hs Hm. unfold mismatch, wrong_answer, in_time, db_time in Hm.
  destruct rq; try done; simpl in *; unfold state_of; decided; subst; rewrite bool_decide_true in * by done.
  - eapply guarded_counts; try done.
    + intros row. unfold already_approved. by case_bool_decide.
    + apply other_bind; [apply other_execute|]. intros []; [done|]. apply other_explain.
      intros row. unfold already_approved. by case_bool_decide.
  - assert (∀ row : PairingSession (Uuid:=Uuid), not_approved row ≠ Some PairErr.CodeMismatch).
    { intros row. unfold not_approved. by case_bool_decide. }
    eapply guarded_counts; try done.
    apply other_in_tx, other_bind; [apply other_execute|]. intros [[[u|] nm]|]; [|done|by apply other_explain].
    apply other_bind; [apply other_execute|]. intros dev. apply other_bind; [apply other_execute|]. intros _.
    apply other_bind; [apply other_fetch|]. intros [e|]; [|done]. apply other_bind; [apply other_sign|done].
Qed.

Lemma mismatches_le id l d : Forall (λ x, not_started id x.2) l → struck 0 id d → mismatches id l d ≤ 4.
Proof.
  cut (∀ n, n ≤ 5 → Forall (λ x, not_started id x.2) l → struck n id d → mismatches id l d ≤ Z.max 0 (4 - n)).
  { intros Hn Hl Hs. by apply (Hn 0) in Hs; [|lia|]. }
  revert d. induction l as [|[io rq] l IH]; intros d n Hle Hl Hs; unfold mismatches; simpl; [lia|].
  apply Forall_cons in Hl as [Hns Hl]. destruct (mismatch id io rq d) eqn:Hm.
  - destruct (mismatch_counts _ _ _ _ _ Hs Hm) as [Hlt Hs']. specialize (IH _ (n + 1) ltac:(lia) Hl Hs').
    unfold mismatches in IH. lia.
  - apply (IH _ n); [done..|]. by apply perform_struck.
Qed.

(** A try is accepted only before the pairing expires by the database's clock. *)
Lemma accepted_in_time id io rq d : accepted id io rq d = true → in_time id rq d = true.
Proof.
  unfold accepted, in_time, db_time. destruct rq; try done; intros Ha; decided; subst; rewrite bool_decide_true by done.
  - match goal with H : is_Ok (?m d).1 = true |- _ => destruct (m d) as [[]] eqn:Hrun; [|done] end.
    unfold unexpired. unfold approve_pairing, mbind_ at 1, fetch at 1, pairing_open, already_approved in Hrun.
    destruct (io 0%nat); [done|]. destruct (pairings d !! id) as [row|] eqn:Hp; [|done].
    repeat (case_bool_decide; [done|]; simpl in Hrun).
    destruct (negb _); [unfold wrong_code, mbind_, execute, throw in Hrun; repeat (case_match; simplify_eq/=)|].
    unfold mbind_ at 1, execute at 1, mark_approved in Hrun. destruct (io 1%nat); [done|]. rewrite Hp in Hrun.
    unfold live_pairing, explain_refusal, mbind_, fetch, throw in Hrun. repeat (case_match; simplify_eq/=).
    decided. by apply bool_decide_eq_true.
  - match goal with H : is_Ok (?m d).1 = true |- _ => destruct (m d) as [[]] eqn:Hrun; [|done] end.
    apply finish_Ok in Hrun as (row & Hp & _ & _ & He & _). unfold unexpired. rewrite Hp. by apply bool_decide_eq_true.
Qed.

(** A wrong answer names a pairing that exists, and is a try. *)
Lemma wrong_answer_row id io rq d :
  wrong_answer id io rq d = true → is_Some (pairings d !! id) ∧ is_Some (db_time id rq).
Proof.
  unfold wrong_answer, db_time. destruct rq; try done; intros Ha; decided; subst; rewrite bool_decide_true by done.
  all: split; [|done]; destruct (pairings d !! id) as [row|] eqn:Hp; [by eauto|].
  all: unfold approve_pairing, finish_pairing, mbind_, fetch in *; destruct (io 0%nat); try done; by rewrite Hp in *.
Qed.

(** Tries made before a time the pairing has not expired at are all counted. *)
Lemma tries_counted id e T l d :
  T < e → Forall (λ x, not_started id x.2) l → Forall (λ x, ∀ t, db_time id x.2 = Some t → t ≤ T) l →
  kept (eq e) 0 id d → wrong_answers id l d = mismatches id l d.
Proof.
  intros HT Hl. revert d. induction Hl as [|[io rq] l Hns Hl IH]; intros d Ht Hk; [done|].
  apply Forall_cons in Ht as [Ht0 Ht]. unfold wrong_answers, mismatches in *. simpl in *.
  rewrite (IH _ Ht) by (by apply perform_kept). f_equal. unfold mismatch.
  destruct (wrong_answer id io rq d) eqn:Hw; [|done].
  apply wrong_answer_row in Hw as [[row Hp] [t Hdb]]. unfold in_time. rewrite Hdb. unfold unexpired. rewrite Hp.
  destruct (Hk row Hp) as [<- _]. specialize (Ht0 t Hdb). by rewrite bool_decide_true by lia.
Qed.

(** C18: A pairing code cannot be guessed by trying.  Whatever requests are made on a
    pairing, in whatever order, other than starting it again: a try is accepted only
    before the pairing expires by the database's clock, and when one is accepted that
    is not earlier by that clock than the tries before it, at most four of those were
    answered with a wrong code.  Of the tries made before the expiry by that clock, at
    most four are answered with a wrong code in any case: the fifth locks the pairing.
    A try made after it is not counted, and is still answered with a wrong code when
    the server's own clock, which the first check reads, lags behind; it cannot
    succeed. *)
Theorem pairing_guesses_bounded id l d :
  Forall (λ x, not_started id x.2) l → struck 0 id d →
  mismatches id l d ≤ 4 ∧
  ∀ io rq, accepted id io rq (serve hmac_sha256 cfg l d) = true →
    in_time id rq (serve hmac_sha256 cfg l d) = true ∧
    ((∀ T, db_time id rq = Some T → Forall (λ x, ∀ t, db_time id x.2 = Some t → t ≤ T) l) → wrong_answers id l d ≤ 4).
Proof.
  intros Hl Hs. split; [by apply mismatches_le|]. intros io rq Ha%accepted_in_time. split; [done|]. intros Hbefore.
  unfold in_time in Ha. destruct (db_time id rq) as [T|]; [|done]. specialize (Hbefore T eq_refl). unfold unexpired in Ha.
  destruct (pairings _ !! id) as [row|] eqn:Hrow; [|done]. apply bool_decide_eq_true in Ha.
  assert (kept (eq (p_expires_at row)) 0 id d) as Hk.
  { intros r0 Hr0. split; [|by apply Hs].
    assert (kept (eq (p_expires_at r0)) 0 id d) as Hk0.
    { intros r1 Hr1. rewrite Hr0 in Hr1. injection Hr1 as <-. split; [done|by apply Hs]. }
    apply (serve_kept _ _ _ l) in Hk0; [|done]. by destruct (Hk0 row Hrow). }
  rewrite (tries_counted id _ T l d Ha Hl Hbefore Hk). by apply mismatches_le.
Qed.
End pairing.
