(* ===== verification/Enrolment.v ===== *)
(** * Registration and recovery (wavis-backend/src/auth/auth.rs, alpha_invite.rs,
    phrase.rs)

    Registration takes a valid invite, and happens wholly or not at all; the
    phrase chosen at registration recovers the account from then on, until it is
    replaced, and no other phrase does unless Argon2id hashes it to the same. *)

From stdpp Require Import sorting.
From S2P Require Import Prelude SfuBridge Tokens SfuRelay ClientIp Database Phrase Accounts AccountRules AccountInvariant.
Local Open Scope Z_scope.
Local Open Scope prog_scope.

(** ** Codes *)

(** A digit of a code: visible, kept by normalization. *)
Lemma hex_digit_kept n : (n < 16)%N →
  graphic (hex_digit n) = true ∧ skipped (hex_digit n) = false ∧ to_ascii_uppercase (hex_digit n) = hex_digit n.
Proof.
  intros Hn. assert (In n (map N.of_nat (seq 0 16))) as Hin.
  { apply in_map_iff. exists (N.to_nat n). split; [lia|]. apply in_seq. lia. }
  simpl in Hin. repeat (destruct Hin as [<-|Hin]; [by vm_compute|]). done.
Qed.

(** The digits of a code. *)
Inductive hex_string : string → Prop :=
| hex_nil : hex_string EmptyString
| hex_cons n s : (n < 16)%N → hex_string s → hex_string (String (hex_digit n) s).

Lemma hex_upper_hex bytes : Forall (λ b, b < 256)%N bytes → hex_string (hex_upper bytes).
Proof.
  induction 1; simpl; repeat constructor; try done; [|by apply N.mod_lt]. by apply N.Div0.div_lt_upper_bound.
Qed.

(** Normalization undoes the grouping. *)
Lemma normalize_grouped s i : hex_string s → normalize_chars (grouped i s) = s ∧ all_graphic (grouped i s) = true.
Proof.
  intros Hs. revert i. induction Hs as [|n s Hn Hs IH]; intros i; [done|]. simpl.
  destruct (hex_digit_kept n Hn) as (Hg & Hk & Hup), (IH (S i)) as [IH1 IH2].
  case_match; simpl; rewrite Hk, Hup, IH1, Hg, IH2; done.
Qed.

(** A generated invite code carries all its bytes through normalization: codes of
    different bytes are different codes. *)
Theorem generated_code_normalizes bytes :
  bytes ≠ [] → Forall (λ b, b < 256)%N bytes →
  normalize_invite_code (generate_raw_alpha_invite_code bytes) = Ok (hex_upper bytes).
Proof.
  intros Hne Hb. unfold normalize_invite_code, generate_raw_alpha_invite_code.
  destruct (normalize_grouped _ 0 (hex_upper_hex _ Hb)) as [Hn Hg]. rewrite trim_graphic, Hn by done.
  by destruct bytes.
Qed.

Section enrolment.
Context {Uuid : Type} `{Countable Uuid} `{UuidText Uuid} `{PhraseCrypto Uuid, !PhraseCryptoLaws Uuid}.
Context `{JwtCodec AuthTokenClaims}.
Context (hmac_sha256 : string → string → string) (cfg : AuthConfig).
Abbreviation Db := (AuthDb (Uuid:=Uuid)).
Abbreviation Prog E A := (M Db E A) (only parsing).
Abbreviation register := (register_user_with_invite hmac_sha256 cfg) (only parsing).
Abbreviation recover := (recover_account hmac_sha256 cfg) (only parsing).
Implicit Types d : Db.

(** ** Invites *)

(** What a redemption has done. *)
Lemma redeem_Ok io k c pp utc d i d' :
  redeem_alpha_invite hmac_sha256 io k c pp utc d = (Ok i, d') →
  ∃ a, alpha_invites d !! i = Some a ∧ hash_invite_code hmac_sha256 c pp = Ok (a_code_hash a) ∧
    status_at utc a = Active ∧
    d' = set_alpha_invites (<[i := set_redemption_count (a_redemption_count a + 1) a]> (alpha_invites d)) d.
Proof.
  unfold redeem_alpha_invite, mbind_, lift_result, fetch, execute, count_redemption, throw, mret.
  destruct (hash_invite_code _ c pp) as [h|]; [|done]. destruct (io k); [done|].
  destruct (invite_by_hash h d) as [[i' a]|] eqn:Hi; [|done].
  apply find_some_elem_of in Hi as [Hi%elem_of_map_to_list Hh]. simpl in Hh.
  destruct (_ || _) eqn:Hg; [done|]. apply orb_false_iff in Hg as [[Hdis Hexp]%orb_false_iff Hmax]. decided.
  destruct (io (S k)); [done|]. simpl. rewrite Hi. destruct (bool_decide _); [done|].
  simpl. intros Heq. simplify_eq. exists a. split_and!; [done..| |done].
  unfold status_at. rewrite (bool_decide_false (is_Some _)), Hexp by (by rewrite Hdis; intros []).
  by rewrite bool_decide_false by lia.
Qed.

(** The steps of [register_user_with_invite], on a run that succeeds. *)
Lemma register_steps io p n c ap u pd ids dw d reg d' :
  register io p n c ap u pd ids dw d = (Ok reg, d') →
  ∃ i a es ev rid,
    alpha_invites d !! i = Some a ∧ hash_invite_code hmac_sha256 c ap = Ok (a_code_hash a) ∧
    status_at (dw_utc dw) a = Active ∧ users d !! u = None ∧ seal_phrase cfg p u pd = Ok (es, ev) ∧
    reg_user_id reg = u ∧ reg_device_id reg = dw_device_id dw ∧ reg_recovery_id reg = rid ∧
    users d' = <[u := mkUserRow n 0 (Some es) (Some ev) 1 (Some rid)]> (users d) ∧
    alpha_invites d' = <[i := set_redemption_count (a_redemption_count a + 1) a]> (alpha_invites d) ∧
    redemptions d' = redemptions d ++ [(i, u, dw_device_id dw)].
Proof.
  intros Hrun. unfold register_user_with_invite, in_tx in Hrun. destruct (io 0%nat); [done|].
  match type of Hrun with context [mbind_ ?m ?k d] => destruct (mbind_ m k d) as [[reg'|] d9] eqn:Hbody end; [|done].
  assert (reg' = reg ∧ d9 = d') as [-> ->] by (by destruct (io 20%nat); simplify_eq). clear Hrun.
  apply bind_Ok in Hbody as (i & d1 & (a & Ha & Hh & Hst & ->)%map_err_Ok%redeem_Ok & Hrun).
  apply bind_Ok in Hrun as (u1 & d2 & E2 & Hrun). unfold execute, insert_user in E2.
  destruct (io 3%nat); [done|]. case_bool_decide as Hu; [done|]. apply eq_None_not_Some in Hu. simplify_eq/=.
  apply bind_Ok in Hrun as ([es ev] & d3 & E3 & Hrun). unfold lift_result in E3. simplify_eq/=.
  apply bind_Ok in Hrun as (rid & d4 & E4 & Hrun).
  apply readonly_run in E4; [|apply readonly_unique_id]. subst d4. exists i, a, es, ev, rid.
  unfold mbind_, execute, fill_user, insert_device, store_refresh, execute, insert_token, map_err_m, record_redemption, execute,
    lift_result, mret, update_user in Hrun. simpl in Hrun. rewrite lookup_insert_eq in Hrun.
  repeat (case_match; simplify_eq/=).
  split_and!; try done. by rewrite insert_insert_eq.
Qed.

(** A registration takes a code whose invite is active, counts it on the
    invite and records it, for a user that did not exist; and a registration that
    is refused or fails leaves the tables as they were. *)
Theorem registration_needs_invite io p n c ap u pd ids dw d :
  clean io →
  match register io p n c ap u pd ids dw d with
  | (Ok reg, d') => ∃ i a, alpha_invites d !! i = Some a ∧ hash_invite_code hmac_sha256 c ap = Ok (a_code_hash a) ∧
      status_at (dw_utc dw) a = Active ∧ users d !! reg_user_id reg = None ∧
      alpha_invites d' = <[i := set_redemption_count (a_redemption_count a + 1) a]> (alpha_invites d) ∧
      redemptions d' = redemptions d ++ [(i, reg_user_id reg, reg_device_id reg)]
  | (Err _, d') => d' = d
  end.
Proof.
  intros Hc. destruct (register io p n c ap u pd ids dw d) as [[reg|e] d'] eqn:Hrun.
  - apply register_steps in Hrun as (i & a & es & ev & rid & Ha & Hh & Hst & Hu & _ & <- & <- & _ & _ & Hi & Hr).
    exists i, a. auto 8.
  - eapply all_or_nothing_in_tx; [exact Hc|exact Hrun].
Qed.

(** ** Phrases *)

(** The user has this recovery id and this sealed phrase. *)
Definition has_phrase (u : Uuid) (rid es ev : string) d : Prop :=
  ∃ row, users d !! u = Some row ∧ u_recovery_id row = Some rid ∧
    u_phrase_salt row = Some es ∧ u_phrase_verifier row = Some ev.

(** The request does not replace the phrase of the user. *)
Definition keeps_phrase (u : Uuid) (rq : AccountRequest (Uuid:=Uuid)) : Prop :=
  match rq with AcRotatePhrase u' _ _ _ => u' ≠ u | _ => True end.

Section keeps.
Context (u : Uuid) (rid es ev : string).
Abbreviation has := (has_phrase u rid es ev).

Lemma has_same d d' : users d' = users d → has d → has d'.
Proof. unfold has_phrase. by intros ->. Qed.

Lemma has_set_other u' row d : u' ≠ u → has d → has (set_users (<[u' := row]> (users d)) d).
Proof. intros Hne (row0 & Hu & Hrow). exists row0. simpl. by rewrite lookup_insert_ne. Qed.

Lemma has_update f u' d :
  (∀ row, u_recovery_id (f row) = u_recovery_id row ∧ u_phrase_salt (f row) = u_phrase_salt row ∧
     u_phrase_verifier (f row) = u_phrase_verifier row) ∨ u' ≠ u →
  has d → has (update_user f u' d).
Proof.
  intros Hf Hh. unfold update_user. destruct (users d !! u') as [row|] eqn:Hu'; [|done].
  destruct (decide (u' = u)) as [->|Hne]; [|by apply has_set_other]. destruct Hf as [Hf|]; [|done].
  destruct Hh as (row0 & Hu & ?&?&?). simplify_eq. destruct (Hf row0) as (?&?&?). exists (f row0). simpl.
  rewrite lookup_insert_eq. split_and!; congruence.
Qed.

Lemma has_bump u' d : has d → has (bump_epoch u' d).2.
Proof.
  intros Hh. unfold bump_epoch. destruct (users d !! u') as [row|] eqn:Hu'; [|done]. case_match; [done|].
  pose proof (has_update (set_epoch (u_session_epoch row + 1)) u' d ltac:(by left) Hh) as Hup.
  unfold update_user in Hup. by rewrite Hu' in Hup.
Qed.

Lemma has_new_user {E A} (f : string → E) io k u' (cont : Uuid → Prog E A) :
  (u' ≠ u → preserves has (cont u')) → preserves has (mbind_ (execute f io k (insert_user u')) cont).
Proof.
  intros Hcont d Hh. assert (has (insert_user u' d).2) as Hins.
  { unfold insert_user. case_bool_decide as Hu; [done|]. apply has_set_other; [|done]. intros ->.
    destruct Hh as (row & Hrow & _). eauto. }
  unfold mbind_, execute. destruct (io k) as [[e []]|]; simpl; [done..|].
  unfold insert_user in *. case_bool_decide as Hu; [done|]. simpl in *. apply Hcont; [|done]. intros ->.
  destruct Hh as (row & Hrow & _). eauto.
Qed.

Lemma has_replace u' s v d : u' ≠ u → has d → has (replace_phrase u' s v d).2.
Proof. intros Hne Hh. unfold replace_phrase. case_match; [|done]. case_match; [done|]. by apply has_set_other. Qed.

Lemma has_execute {E A} (f : string → E) io k (stmt : Stmt A) :
  (∀ d, has d → has (stmt d).2) → preserves has (execute f io k stmt).
Proof. apply preserves_execute. Qed.

Lemma has_in_tx {E A} (f : string → E) io k1 k2 (m : Prog E A) :
  preserves has m → preserves has (in_tx f io k1 k2 m).
Proof. intros Hm. by apply preserves_in_tx, preserves_establishes. Qed.
End keeps.

#[local] Hint Resolve has_bump has_replace : wavis.
#[local] Hint Extern 2 (preserves _ (fetch _ _ _ _)) => apply readonly_preserves, readonly_fetch : wavis.
#[local] Hint Extern 2 (preserves _ (unique_recovery_id _ _ _)) =>
  apply readonly_preserves, readonly_unique_id : wavis.

Ltac holds_on :=
  repeat first
    [ progress intros
    | apply has_new_user
    | apply preserves_bind | apply preserves_map_err | apply preserves_attempt
    | apply has_in_tx | apply has_execute
    | solve [eauto 3 with wavis]
    | solve [apply has_update; [by (left + right)|done]]
    | solve [eapply has_same; [|eassumption]; done]
    | progress simpl
    | case_match ].

Lemma has_claim u rid es ev io u' s v id more k :
  u' ≠ u → preserves (has_phrase u rid es ev) (claim_recovery_id io k u' s v id more).
Proof.
  intros Hne. revert k id. induction more as [|next more IH]; intros k id; simpl; unfold claim_id; holds_on.
Qed.

Lemma has_attempts u rid es ev h tries : preserves (has_phrase u rid es ev) (rotate_attempts hmac_sha256 cfg h tries).
Proof.
  induction tries as [|[io dw] tries IH]; simpl; [holds_on|].
  unfold try_rotate, rotate_body, consume_token, revoke_user_tokens, update_tokens, store_refresh, insert_token. holds_on.
Qed.
#[local] Hint Resolve has_claim has_attempts : wavis.

Lemma perform_has u rid es ev io rq d :
  keeps_phrase u rq → has_phrase u rid es ev d → has_phrase u rid es ev (perform hmac_sha256 cfg io rq d).
Proof.
  intros Hk. revert d. unfold perform, state_of. destruct rq; simpl in Hk.
  all: match goal with |- ∀ d, _ → has_phrase ?a ?b ?c ?e (?m d).2 => change (preserves (has_phrase a b c e) m) end.
  all: unfold register_user_with_invite, redeem_alpha_invite, record_redemption, count_redemption, register_user,
    create_device, register_device, recover_account, create_device, fetch_one, rotate_phrase, rotate_refresh_token,
    update_username, revoke_device, revoke_device_tokens, logout_all, revoke_user_tokens, start_pairing,
    approve_pairing, finish_pairing, wrong_code, explain_refusal, mark_approved, mark_used, count_attempt,
    store_refresh, insert_device, insert_token, fill_user, mark_device_revoked,
    sweep_expired_tokens, sweep_consumed_tokens, sweep_expired_pairings, delete_tokens,
    create_alpha_invite, insert_alpha_invite, disable_alpha_invite, update_tokens.
  all: holds_on.
Qed.

Lemma serve_has u rid es ev l d :
  Forall (λ x, keeps_phrase u x.2) l → has_phrase u rid es ev d → has_phrase u rid es ev (serve hmac_sha256 cfg l d).
Proof.
  unfold serve. intros Hl. revert d. induction Hl as [|x l Hx Hl IH]; intros d Hh; [done|]. simpl. by apply IH, perform_has.
Qed.

(** Recovery ids are unique: the id finds its user. *)
Lemma find_recovery p u rid row d :
  accounts_ok_but p d → users d !! u = Some row → u_recovery_id row = Some rid → user_by_recovery_id rid d = Some (u, row).
Proof.
  intros Hok Hu Hid. unfold user_by_recovery_id. destruct (List.find _ _) as [[u' row']|] eqn:Hf.
  - apply find_some_elem_of in Hf as [Hin%elem_of_map_to_list Hid']. decided. simpl in Hid'.
    assert (u' = u) as -> by (by apply (us_recovery _ (ok_users _ _ Hok) u' u row' row rid)). by simplify_eq.
  - eapply (find_none _ _) with (x := (u, row)) in Hf; [|by apply list_elem_of_In, elem_of_map_to_list].
    simpl in Hf. by rewrite bool_decide_true in Hf.
Qed.

(** A sealed phrase opens to the hash of the phrase. *)
Lemma seal_opens p u pd es ev :
  str_len (pd_nonce1 pd) = AES_GCM_NONCE_LEN → str_len (pd_nonce2 pd) = AES_GCM_NONCE_LEN →
  seal_phrase cfg p u pd = Ok (es, ev) →
  ∃ h, hash_phrase p u (phrase_config cfg) (pd_salt pd) = Ok h ∧
    decrypt_phrase_data es ev (encryption_key cfg) = Ok (ph_salt h, ph_verifier h).
Proof.
  intros Hn1 Hn2. unfold seal_phrase. destruct (hash_phrase p u _ _) as [h|]; [|done].
  destruct (encrypt_phrase_data _ _ _ _ _) as [[es' ev']|] eqn:He; [|done]. simpl. intros [= <- <-].
  exists h. split; [done|]. eapply (phrase_data_roundtrip (Uuid:=Uuid)); [exact Hn1|exact Hn2|exact He].
Qed.

(** Recovery on a database where the user has the sealed phrase [p]. *)
Lemma recover_sealed p u pd rid es ev d :
  accounts_ok_but None d → str_len (pd_nonce1 pd) = AES_GCM_NONCE_LEN → str_len (pd_nonce2 pd) = AES_GCM_NONCE_LEN →
  seal_phrase cfg p u pd = Ok (es, ev) → has_phrase u rid es ev d →
  (∀ dw ep tok, epoch_of u d = Some ep → devices d !! dw_device_id dw = None →
     sign_access_token u (dw_device_id dw) (auth_secret cfg) (access_ttl_secs cfg) ep (dw_unix dw) = Ok tok →
     (recover no_failure rid p dw d).1 = Ok (mkDeviceRegistration u (dw_device_id dw) rid tok (dw_raw_refresh dw))) ∧
  (∀ io q dw, is_Ok (recover io rid q dw d).1 = true →
     argon2_hash (phrase_config cfg) q (build_bound_salt (pd_salt pd) u) =
     argon2_hash (phrase_config cfg) p (build_bound_salt (pd_salt pd) u)).
Proof.
  intros Hok Hn1 Hn2 Hseal (row & Hu & Hid & Hs & Hv).
  destruct (seal_opens _ _ _ _ _ Hn1 Hn2 Hseal) as (h & Hh & Hopen).
  pose proof (find_recovery _ _ _ _ _ Hok Hu Hid) as Hfind.
  destruct row as [nm e s v ver rid']. simpl in *. subst. split.
  - intros dw ep tok Hep Hdev Hsign. unfold epoch_of in Hep. rewrite Hu in Hep. simplify_eq/=.
    unfold recover_account, mbind_, fetch, no_failure. rewrite Hfind, Hopen. simpl.
    rewrite (verify_own _ _ _ _ _ Hh). simpl. unfold map_err_m, create_device, execute, insert_device.
    rewrite bool_decide_false by (rewrite Hdev; by intros []). rewrite bool_decide_false by (by rewrite Hu). simpl.
    unfold store_refresh, execute, insert_token, epoch_of. simpl. rewrite lookup_insert_eq, bool_decide_false by done.
    simpl. rewrite Hu. simpl. unfold fetch_one, mret, lift_result. simpl. by rewrite Hsign.
  - intros io q dw. unfold recover_account, mbind_ at 1, fetch at 1. destruct (io 0%nat); [done|]. rewrite Hfind.
    unfold mbind_, lift_result. rewrite Hopen. simpl. rewrite (verify_hashed p q) with (salt := pd_salt pd) (h := h) by done.
    destruct (argon2_hash _ q _) as [vq|] eqn:Hq; simpl; [|done]. case_bool_decide as Heq; simpl; [|done]. intros _.
    unfold hash_phrase in Hh. destruct (build_argon2 _); [|done]. destruct (argon2_hash _ p _); simplify_eq/=. done.
Qed.

(** C19: The phrase chosen at registration recovers the account: as long as it is
    not replaced, whatever requests follow, presenting it with the recovery id
    gives tokens of the same user on a new device; and a phrase that recovers the
    account is one that Argon2id hashes to the same under the user's salt. *)
Theorem phrase_recovers io p n c ap u pd ids dw d reg d' l :
  accounts_ok_but None d → str_len (pd_nonce1 pd) = AES_GCM_NONCE_LEN → str_len (pd_nonce2 pd) = AES_GCM_NONCE_LEN →
  register io p n c ap u pd ids dw d = (Ok reg, d') → Forall (λ x, keeps_phrase u x.2) l →
  let d2 := serve hmac_sha256 cfg l d' in
  (∀ dw ep tok, epoch_of u d2 = Some ep → devices d2 !! dw_device_id dw = None →
     sign_access_token u (dw_device_id dw) (auth_secret cfg) (access_ttl_secs cfg) ep (dw_unix dw) = Ok tok →
     (recover no_failure (reg_recovery_id reg) p dw d2).1 =
       Ok (mkDeviceRegistration u (dw_device_id dw) (reg_recovery_id reg) tok (dw_raw_refresh dw))) ∧
  (∀ io q dw, is_Ok (recover io (reg_recovery_id reg) q dw d2).1 = true →
     argon2_hash (phrase_config cfg) q (build_bound_salt (pd_salt pd) u) =
     argon2_hash (phrase_config cfg) p (build_bound_salt (pd_salt pd) u)).
Proof.
  intros Hok Hn1 Hn2 Hrun Hl. assert (accounts_ok_but None (serve hmac_sha256 cfg l d')) as Hok2.
  { apply serve_keeps. pose proof (keeps_register hmac_sha256 cfg io p n c ap u pd ids dw d Hok) as Hk.
    by rewrite Hrun in Hk. }
  apply register_steps in Hrun as (i & a & es & ev & rid & _ & _ & _ & _ & Hseal & _ & _ & -> & Hu & _).
  eapply recover_sealed; [done..|]. apply serve_has; [done|]. unfold has_phrase. rewrite Hu, lookup_insert_eq. eauto.
Qed.
End enrolment.
