(* ===== verification/AccountDemo.v ===== *)
(** * An account at work

    A small installation with concrete stand-ins for the cryptography: an invite,
    a registration, a rotation and a second presentation of the same token, a
    logout, a pairing.  The theorems about accounts are applied to it. *)

From stdpp Require Import sorting.
From S2P Require Import Prelude SfuBridge Tokens Database Phrase Accounts AccountRules AccountInvariant Sessions Pairing Enrolment.
Local Open Scope Z_scope.
Local Open Scope prog_scope.

Module AccountDemo.
Import PlainJwt.

(** ** Stand-ins *)

Definition padding : string := "................................".
Definition tag : string := "-sealed-by-demo-".

Definition plain_hash (p s : string) : string := String.substring 0 32 ((p +:+ s) +:+ padding).

#[export] Instance plain_crypto : PhraseCrypto N := {
  argon2_params _ _ _ := Ok tt;
  argon2_hash _ p s := Ok (plain_hash p s);
  aes_encrypt _ _ p := Ok (p +:+ tag);
  aes_decrypt _ _ c := Ok (String.substring 0 (String.length c - 16) c);
  uuid_as_bytes n := pos_to_string (N.succ_pos n)
}.

Lemma substring_length n s : (n ≤ String.length s)%nat → String.length (String.substring 0 n s) = n.
Proof.
  revert s. induction n as [|n IH]; intros [|c s] Hle; simpl in *; try lia; try done. f_equal. apply IH. lia.
Qed.

#[export] Instance plain_crypto_laws : PhraseCryptoLaws N.
Proof.
  split; simpl.
  - intros cfg p s v [= <-]. unfold str_len, plain_hash. rewrite substring_length; [done|].
    rewrite length_append. unfold padding. simpl. lia.
  - intros key nonce p c [= <-]. rewrite length_append. simpl.
    replace (String.length p + 16 - 16)%nat with (String.length p) by lia. by rewrite substring_append_left.
  - intros key nonce p c [= <-]. unfold str_len. rewrite length_append. simpl. lia.
Qed.

Definition hmac (k m : string) : string := k +:+ ":" +:+ m.
Definition pepper : string := "0123456789abcdef0123456789abcdef".
Definition cfg : AuthConfig := mkAuthConfig demo_secret 900 30 "pep" PhraseConfig_default demo_secret.
Definition draws (device_id : N) (raw : string) : Draws (Uuid:=N) := mkDraws 1000 1000 10 device_id 70%N raw.
Definition nonces : PhraseDraws := mkPhraseDraws "salt" "nonce-number" "other-number".

(** ** An installation *)

(** One invite for two accounts. *)
Definition invited : AuthDb (Uuid:=N) :=
  serve hmac cfg [(no_failure, AcCreateInvite "lab" None 2 pepper "CODE" 1%N 0 0)] no_accounts.
Definition register_ann : AuthDb (Uuid:=N) → Result (DeviceRegistration (Uuid:=N)) AuthError * AuthDb (Uuid:=N) :=
  register_user_with_invite hmac cfg no_failure "correct horse" "ann" "co-de" pepper 5%N nonces ["R1"] (draws 9%N "first").
Definition ann : AuthDb (Uuid:=N) := (register_ann invited).2.

Lemma invited_ok : accounts_ok_but None invited.
Proof. apply serve_keeps, no_accounts_ok. Qed.
Lemma ann_ok : accounts_ok_but None ann.
Proof. apply keeps_register, invited_ok. Qed.

Definition tries (raw : string) : Io * Draws (Uuid:=N) := (no_failure, draws 0%N raw).

(** After the first token was exchanged for the second. *)
Definition rotated : AuthDb (Uuid:=N) :=
  (rotate_refresh_token hmac cfg "first" (tries "second") (tries "x") (tries "y") ann).2.

(** The token of the first exchange, presented again, ends the sessions. *)
Example reuse_detected :
  (rotate_refresh_token hmac cfg "first" (tries "third") (tries "x") (tries "y") rotated).1 = Err TokenReuseDetected.
Proof. vm_compute. reflexivity. Qed.

(** ** The theorems, applied *)

Ltac undrawn :=
  unfold not_drawn, drawn, hash_refresh_token; intros x Hx; repeat (apply elem_of_cons in Hx as [->|Hx]; [vm_compute; set_solver|]);
  by apply elem_of_nil in Hx.

Lemma refresh_single_use_witness :
  is_Ok (rotate_refresh_token hmac cfg "first" (tries "third") (tries "x") (tries "y")
           (serve hmac cfg [(no_failure, AcLogoutAll 5%N 2000)] rotated)).1 = false.
Proof.
  eapply (refresh_single_use hmac cfg "first" (tries "second") (tries "x") (tries "y") ann _ rotated).
  - vm_compute. lia.
  - undrawn.
  - vm_compute. reflexivity.
Defined.

Lemma logout_ends_sessions_witness :
  logged_out hmac cfg 5%N ann (logout_all no_failure 5%N 2000 ann).2.
Proof. apply (logout_ends_sessions hmac cfg no_failure 5%N 2000 ann 1). vm_compute. reflexivity. Defined.

Lemma reuse_ends_sessions_witness :
  ∃ r u, r ∈ rows_of (hash_refresh_token hmac "first" "pep") rotated ∧ owner rotated r = Some u ∧
    logged_out hmac cfg u rotated
      (rotate_refresh_token hmac cfg "first" (tries "third") (tries "x") (tries "y") rotated).2.
Proof.
  apply (reuse_ends_sessions hmac cfg "first" (tries "third") (tries "x") (tries "y") rotated).
  - apply keeps_attempts, ann_ok.
  - vm_compute. set_solver.
  - vm_compute. reflexivity.
Defined.

Lemma device_revocation_final_witness :
  is_Ok (rotate_refresh_token hmac cfg "first" (tries "third") (tries "x") (tries "y")
           (serve hmac cfg [(no_failure, AcLogoutAll 5%N 2000)] (revoke_device no_failure 5%N 9%N 2000 2000 ann).2)).1 = false.
Proof.
  apply (device_revocation_final hmac cfg no_failure 5%N 9%N 2000 2000 ann).
  - vm_compute. reflexivity.
  - intros r [_ Hr]%(rows_of_elem hmac). vm_compute in Hr. apply list_elem_of_singleton in Hr as ->. reflexivity.
  - undrawn.
Defined.

(** A pairing started, approved by Ann's device, and finished. *)
Definition paired : AuthDb (Uuid:=N) :=
  serve hmac cfg [(no_failure, AcPairStart "phone" pepper "123456" 3%N 1000);
                  (no_failure, AcPairApprove 3%N "123456" 5%N 9%N pepper 1000 1000 1000)] ann.

Lemma pairing_works_once_witness :
  is_Ok (finish_pairing hmac cfg no_failure 3%N "123456" pepper 1000 1000 (draws 12%N "another")
    (serve hmac cfg [(no_failure, AcLogoutAll 5%N 2000)]
      (finish_pairing hmac cfg no_failure 3%N "123456" pepper 1000 1000 (draws 11%N "phone") paired).2)).1 = false.
Proof.
  eapply (pairing_works_once hmac cfg no_failure 3%N "123456" pepper 1000 1000 (draws 11%N "phone") paired).
  - vm_compute. reflexivity.
  - repeat constructor.
Defined.

(** Six wrong codes in a row. *)
Definition guesses : history (Uuid:=N) :=
  repeat (no_failure, AcPairFinish 3%N "000000" pepper 1000 1000 (draws 11%N "phone")) 6.

Example four_mismatches : mismatches hmac cfg 3%N guesses paired = 4.
Proof. vm_compute. reflexivity. Qed.

(** Four wrong codes, and then the right one. *)
Definition four_guesses : history (Uuid:=N) :=
  repeat (no_failure, AcPairFinish 3%N "000000" pepper 1000 1000 (draws 11%N "phone")) 4.

Lemma pairing_guesses_bounded_witness :
  mismatches hmac cfg 3%N guesses paired ≤ 4 ∧
  accepted hmac cfg 3%N no_failure (AcPairFinish 3%N "123456" pepper 1000 1000 (draws 11%N "phone"))
    (serve hmac cfg four_guesses paired) = true ∧
  wrong_answers hmac cfg 3%N four_guesses paired ≤ 4.
Proof.
  assert (struck 0 3%N paired) as Hs.
  { intros row Hrow. right. vm_compute in Hrow. injection Hrow as <-. simpl. lia. }
  split_and!.
  - apply (pairing_guesses_bounded hmac cfg 3%N guesses paired); [repeat constructor|done].
  - vm_compute. reflexivity.
  - destruct (pairing_guesses_bounded hmac cfg 3%N four_guesses paired) as [_ Ha]; [repeat constructor|done|].
    refine (proj2 (Ha no_failure (AcPairFinish 3%N "123456" pepper 1000 1000 (draws 11%N "phone")) _) _).
    + vm_compute. reflexivity.
    + intros T HT. injection HT as <-. repeat constructor; intros t Ht; injection Ht as <-; vm_compute; discriminate.
Defined.

(** A try after the expiry, on a server whose clock lags, is answered with a wrong
    code and not counted. *)
Definition late_guesses : history (Uuid:=N) :=
  repeat (no_failure, AcPairApprove 3%N "000000" 5%N 9%N pepper 1000 10000000000000000 1000) 6.
Example late_guesses_uncounted :
  let d := serve hmac cfg [(no_failure, AcPairStart "phone" pepper "123456" 3%N 1000)] ann in
  wrong_answers hmac cfg 3%N late_guesses d = 6 ∧ mismatches hmac cfg 3%N late_guesses d = 0.
Proof. vm_compute. split; reflexivity. Qed.

Lemma registration_needs_invite_witness :
  match register_ann invited with
  | (Ok reg, d') => ∃ i a, alpha_invites invited !! i = Some a ∧
      hash_invite_code hmac "co-de" pepper = Ok (a_code_hash a) ∧ status_at 1000 a = Active ∧
      users invited !! reg_user_id reg = None ∧
      alpha_invites d' = <[i := set_redemption_count (a_redemption_count a + 1) a]> (alpha_invites invited) ∧
      redemptions d' = redemptions invited ++ [(i, reg_user_id reg, reg_device_id reg)]
  | (Err _, d') => d' = invited
  end.
Proof.
  apply (registration_needs_invite hmac cfg no_failure "correct horse" "ann" "co-de" pepper 5%N nonces ["R1"]
    (draws 9%N "first") invited). by intros k f.
Defined.

Example ann_registered : is_Ok (register_ann invited).1 = true.
Proof. vm_compute. reflexivity. Qed.

(** Ann logs out everywhere and recovers her account on another device. *)
Lemma phrase_recovers_witness :
  ∃ tok, (recover_account hmac cfg no_failure "R1" "correct horse" (draws 21%N "again")
     (serve hmac cfg [(no_failure, AcLogoutAll 5%N 2000)] ann)).1 =
    Ok (mkDeviceRegistration 5%N 21%N "R1" tok "again").
Proof.
  eexists.
  eapply (phrase_recovers hmac cfg no_failure "correct horse" "ann" "co-de" pepper 5%N nonces ["R1"]
    (draws 9%N "first") invited (mkDeviceRegistration 5%N 9%N "R1" _ "first") ann
    [(no_failure, AcLogoutAll 5%N 2000)] invited_ok eq_refl eq_refl).
  - vm_compute. reflexivity.
  - repeat constructor.
  - vm_compute. reflexivity.
  - vm_compute. reflexivity.
  - vm_compute. reflexivity.
Defined.
End AccountDemo.
