(* ===== verification/AccountRoutes.v ===== *)
(** * The HTTP side of accounts (wavis-backend/src/auth/routes.rs)

    Every endpoint under /auth as a program over the account tables, the two
    limiters and the store of WebSocket tickets: the rate limit, the check of the
    name, the call of the account module, and the mapping of its errors to
    statuses.  The address of the client has been extracted; the endpoints of a
    signed-in user start with [authenticated], the extractor. *)

From stdpp Require Import sorting.
From S2P Require Import Prelude FieldValidation SfuBridge Tokens SfuRelay SlidingWindow WsTicket Database Phrase Accounts AccountRules AccountInvariant AccountDemo.
Local Open Scope Z_scope.
Local Open Scope prog_scope.

(** ** Responses *)

(** [AuthErrorResponse]: the status, the [Retry-After] header, the message. *)
Record AuthErrorResponse : Type := mkAuthErrorResponse {
  ae_status : Z;
  ae_retry_after : option string;
  ae_error : string
}.

(** [RegisterResponse]. *)
Record RegisterResponse : Type := mkRegisterResponse {
  rgr_user_id : string;
  rgr_device_id : string;
  rgr_recovery_id : string;
  rgr_access_token : string;
  rgr_refresh_token : string
}.

(** [RecoverResponse], [RefreshResponse] and [PairFinishResponse] have the same
    fields. *)
Record TokensResponse : Type := mkTokensResponse {
  tkr_user_id : string;
  tkr_device_id : string;
  tkr_access_token : string;
  tkr_refresh_token : string
}.

(** [PairStartResponse]. *)
Record PairStartResponse : Type := mkPairStartResponse {
  psr_pairing_id : string;
  psr_code : string
}.

(** [WsTicketResponse]. *)
Record WsTicketResponse : Type := mkWsTicketResponse {
  wtr_ticket : string;
  wtr_expires_in : Z
}.

(** [DeviceInfoResponse]. *)
Record DeviceInfoResponse : Type := mkDeviceInfoResponse {
  dir_device_id : string;
  dir_device_name : string;
  dir_created_at : string;
  dir_revoked_at : option string
}.

(** [ListDevicesResponse]. *)
Record ListDevicesResponse : Type := mkListDevicesResponse {
  ldr_devices : list DeviceInfoResponse;
  ldr_current_device_id : string
}.

(** ** Errors *)

(** [error_response], [rate_limited_response]. *)
Definition error_response (status : Z) (error : string) : AuthErrorResponse := mkAuthErrorResponse status None error.
Definition auth_rate_limited_response (retry_after_secs : option Z) : AuthErrorResponse :=
  mkAuthErrorResponse 429 (pretty <$> retry_after_secs) "too many requests".
Definition authentication_failed : AuthErrorResponse := error_response 401 "authentication failed".
Definition internal_error : AuthErrorResponse := error_response 500 "internal error".

(** [validate_username]; the limit is the one of display names. *)
Definition MAX_USERNAME_LEN : Z := MAX_DISPLAY_NAME_LEN.
Definition validate_username (username : string) : Result string AuthErrorResponse :=
  let username := trim username in
  if str_is_empty username || bool_decide (MAX_USERNAME_LEN < chars_count username)
  then Err (error_response 400 "invalid username") else Ok username.

Definition map_register_error (err : AuthError) : AuthErrorResponse :=
  match err with AuthInviteInvalid => authentication_failed | _ => internal_error end.

Definition map_recover_error (err : AuthError) : AuthErrorResponse :=
  match err with
  | PhraseVerificationFailed | RecoveryIdNotFound | DeviceRevoked => authentication_failed
  | _ => internal_error
  end.

Definition map_refresh_error (err : AuthError) : AuthErrorResponse :=
  match err with
  | RefreshTokenInvalid | TokenReuseDetected | ValidationFailed | TokenExpired | InvalidToken | EpochMismatch =>
      authentication_failed
  | _ => internal_error
  end.

Definition map_pairing_error (err : PairingError) : AuthErrorResponse :=
  match err with
  | PairErr.NotFound => error_response 404 "not found"
  | PairErr.Expired | PairErr.CodeMismatch => authentication_failed
  | PairErr.AlreadyUsed | PairErr.AlreadyApproved => error_response 409 "conflict"
  | PairErr.NotApproved => error_response 403 "forbidden"
  | PairErr.LockedOut => error_response 429 "too many requests"
  | PairErr.DatabaseError _ => internal_error
  end.

Definition map_device_error (err : DeviceError) : AuthErrorResponse :=
  match err with
  | DevErr.NotFound => error_response 404 "not found"
  | DevErr.NotOwned => error_response 403 "forbidden"
  | DevErr.DatabaseError _ => internal_error
  end.

Definition map_rotate_phrase_error (err : AuthError) : AuthErrorResponse :=
  match err with PhraseVerificationFailed => authentication_failed | _ => internal_error end.

Section routes.
Context {Uuid : Type} `{Countable Uuid} `{UuidText Uuid} `{PhraseCrypto Uuid} `{JwtCodec AuthTokenClaims}.
Context {IpAddr : Type} `{Countable IpAddr}.
Context (hmac_sha256 : string → string → string) (to_rfc3339 : Z → string).

(** The fields of [AppState] the endpoints use. *)
Record AuthBackend : Type := mkAuthBackend {
  ab_db : AuthDb (Uuid:=Uuid);
  ab_limiter : AuthLimiter.AuthRateLimiter (IpAddr:=IpAddr);
  ab_recovery : RecoveryLimiter.RecoveryRateLimiter (IpAddr:=IpAddr);
  ab_tickets : WsTicketStore (Uuid:=Uuid)
}.

(** The settings: those of the account module, the secret before the last
    rotation, and the peppers. *)
Record RouteConfig : Type := mkRouteConfig {
  rc_auth : AuthConfig;
  rc_previous_secret : option string;
  rc_pairing_pepper : string;
  rc_alpha_pepper : string
}.

Abbreviation Route A := (M AuthBackend AuthErrorResponse A) (only parsing).

(** ** Limits *)

Definition limit_register (client_ip : IpAddr) (now : Instant) : Route unit := λ st,
  match AuthLimiter.seconds_until_register client_ip now (ab_limiter st) with
  | (Some secs, l) =>
      (Err (auth_rate_limited_response (Some secs)), mkAuthBackend (ab_db st) l (ab_recovery st) (ab_tickets st))
  | (None, l) =>
      (Ok tt, mkAuthBackend (ab_db st) (AuthLimiter.record_register client_ip now l) (ab_recovery st) (ab_tickets st))
  end.

Definition limit_refresh (client_ip : IpAddr) (now : Instant) : Route unit := λ st,
  match AuthLimiter.seconds_until_refresh client_ip now (ab_limiter st) with
  | (Some secs, l) =>
      (Err (auth_rate_limited_response (Some secs)), mkAuthBackend (ab_db st) l (ab_recovery st) (ab_tickets st))
  | (None, l) =>
      (Ok tt, mkAuthBackend (ab_db st) (AuthLimiter.record_refresh client_ip now l) (ab_recovery st) (ab_tickets st))
  end.

Definition set_recovery (l : RecoveryLimiter.RecoveryRateLimiter) (st : AuthBackend) : AuthBackend :=
  mkAuthBackend (ab_db st) (ab_limiter st) l (ab_tickets st).

Definition limit_recovery_ip (client_ip : IpAddr) (now : Instant) : Route unit := λ st,
  match RecoveryLimiter.seconds_until_ip client_ip now (ab_recovery st) with
  | (Some secs, l) => (Err (auth_rate_limited_response (Some secs)), set_recovery l st)
  | (None, l) => (Ok tt, set_recovery (RecoveryLimiter.record_ip client_ip now l) st)
  end.

(** Only looked at before the call. *)
Definition limit_recovery_id (recovery_id : string) (now : Instant) : Route unit := λ st,
  match RecoveryLimiter.seconds_until_recovery_id recovery_id now (ab_recovery st) with
  | (Some secs, l) => (Err (auth_rate_limited_response (Some secs)), set_recovery l st)
  | (None, l) => (Ok tt, set_recovery l st)
  end.
Definition note_recovery_id (recovery_id : string) (now : Instant) (st : AuthBackend) : AuthBackend :=
  set_recovery (RecoveryLimiter.record_recovery_id recovery_id now (ab_recovery st)) st.

(** A call of the account modules, its errors mapped. *)
Definition db_call {E A} (f : E → AuthErrorResponse) (op : M (AuthDb (Uuid:=Uuid)) E A) : Route A := λ st,
  let '(r, d) := op (ab_db st) in
  (map_err f r, mkAuthBackend d (ab_limiter st) (ab_recovery st) (ab_tickets st)).

(** The [AuthenticatedUser] extractor. *)
Definition authenticated (rc : RouteConfig) (io : Io) (header : option string) (unix unix2 : Z) : Route (Uuid * Uuid) :=
  db_call (λ _, authentication_failed)
    (from_request_parts io header (auth_secret (rc_auth rc)) (rc_previous_secret rc) unix unix2).

(** ** Endpoints *)

(** [register_device]: gone. *)
Definition register_device_route : Route (Z * string) := mret (410, "gone"%string).

(** [register]. *)
Definition register (rc : RouteConfig) (io : Io) (client_ip : IpAddr) (now : Instant)
    (phrase username : string) (invite_code : option string) (user_id : Uuid) (pd : PhraseDraws) (ids : list string)
    (dw : Draws) : Route (Z * RegisterResponse) :=
  do! limit_register client_ip now in
  let! username := lift_result (validate_username username) in
  match invite_code with
  | None => throw authentication_failed
  | Some invite_code =>
      let! reg := db_call map_register_error
        (register_user_with_invite hmac_sha256 (rc_auth rc) io phrase username invite_code (rc_alpha_pepper rc)
           user_id pd ids dw) in
      mret (201, mkRegisterResponse (uuid_to_string (reg_user_id reg)) (uuid_to_string (reg_device_id reg))
                   (reg_recovery_id reg) (reg_access_token reg) (reg_refresh_token reg))
  end.

(** [recover]: an attempt on an id counts when the id was found. *)
Definition recover_result (recovery_id : string) (now : Instant) (r : Result (DeviceRegistration (Uuid:=Uuid)) AuthError)
    (st : AuthBackend) : Result TokensResponse AuthErrorResponse * AuthBackend :=
  match r with
  | Ok reg =>
      (Ok (mkTokensResponse (uuid_to_string (reg_user_id reg)) (uuid_to_string (reg_device_id reg))
             (reg_access_token reg) (reg_refresh_token reg)), note_recovery_id recovery_id now st)
  | Err PhraseVerificationFailed =>
      (Err (map_recover_error PhraseVerificationFailed), note_recovery_id recovery_id now st)
  | Err e => (Err (map_recover_error e), st)
  end.
Definition recover (rc : RouteConfig) (io : Io) (client_ip : IpAddr) (now : Instant) (recovery_id phrase : string)
    (dw : Draws) : Route TokensResponse :=
  do! limit_recovery_ip client_ip now in
  do! limit_recovery_id recovery_id now in
  λ st,
    let '(r, d) := recover_account hmac_sha256 (rc_auth rc) io recovery_id phrase dw (ab_db st) in
    recover_result recovery_id now r (mkAuthBackend d (ab_limiter st) (ab_recovery st) (ab_tickets st)).

(** [pair_start]. *)
Definition pair_start (rc : RouteConfig) (io : Io) (client_ip : IpAddr) (now : Instant) (device_name code : string)
    (pairing_id : Uuid) (db_now : Z) : Route (Z * PairStartResponse) :=
  do! limit_register client_ip now in
  let! row := db_call map_pairing_error
    (start_pairing hmac_sha256 io device_name (rc_pairing_pepper rc) code pairing_id db_now) in
  mret (201, mkPairStartResponse (uuid_to_string row.1) row.2).

(** [pair_approve]. *)
Definition pair_approve (rc : RouteConfig) (io : Io) (user : Uuid * Uuid) (pairing_id : Uuid) (code : string)
    (utc db_now utc2 : Z) : Route Z :=
  do! db_call map_pairing_error
    (approve_pairing hmac_sha256 io pairing_id code user.1 user.2 (rc_pairing_pepper rc) utc db_now utc2) in
  mret 200.

(** [pair_finish]. *)
Definition pair_finish (rc : RouteConfig) (io : Io) (client_ip : IpAddr) (now : Instant) (pairing_id : Uuid)
    (code : string) (utc utc2 : Z) (dw : Draws) : Route TokensResponse :=
  do! limit_register client_ip now in
  let! pr := db_call map_pairing_error
    (finish_pairing hmac_sha256 (rc_auth rc) io pairing_id code (rc_pairing_pepper rc) utc utc2 dw) in
  mret (mkTokensResponse (uuid_to_string (pr_user_id pr)) (uuid_to_string (pr_device_id pr))
          (pr_access_token pr) (pr_refresh_token pr)).

(** [logout_all]. *)
Definition logout_all_route (io : Io) (user : Uuid * Uuid) (db_now : Z) : Route Z :=
  let! _e := db_call map_device_error (logout_all io user.1 db_now) in
  mret 200.

(** [list_devices]. *)
Definition list_devices_route (io : Io) (user : Uuid * Uuid) : Route ListDevicesResponse :=
  let! ds := db_call map_device_error (list_devices io user.1) in
  mret (mkListDevicesResponse
    (map (λ d, mkDeviceInfoResponse (uuid_to_string (di_device_id d)) (di_device_name d)
                 (to_rfc3339 (di_created_at d)) (to_rfc3339 <$> di_revoked_at d)) ds)
    (uuid_to_string user.2)).

(** [revoke_device]. *)
Definition revoke_device_route (io : Io) (user : Uuid * Uuid) (target_device_id : Uuid) (db_now db_now2 : Z) : Route Z :=
  do! db_call map_device_error (revoke_device io user.1 target_device_id db_now db_now2) in
  mret 200.

(** [rotate_phrase]. *)
Definition rotate_phrase_route (rc : RouteConfig) (io : Io) (user : Uuid * Uuid) (current_phrase new_phrase : string)
    (pd : PhraseDraws) : Route Z :=
  do! db_call map_rotate_phrase_error (rotate_phrase (rc_auth rc) io user.1 current_phrase new_phrase pd) in
  mret 200.

(** [issue_ws_ticket]; [raw] is the drawn ticket. *)
Definition issue_ws_ticket (user : Uuid * Uuid) (raw : string) (now : Instant) : Route WsTicketResponse := λ st,
  let '(ticket, s) := WsTicket.issue hmac_sha256 raw user.1 user.2 now (ab_tickets st) in
  (Ok (mkWsTicketResponse ticket TICKET_TTL_SECS), mkAuthBackend (ab_db st) (ab_limiter st) (ab_recovery st) s).

(** [get_me]. *)
Definition get_me (io : Io) (user : Uuid * Uuid) : Route string :=
  db_call (λ _, internal_error) (get_username io user.1).

(** [update_username]. *)
Definition update_username_route (io : Io) (user : Uuid * Uuid) (username : string) : Route Z :=
  let! username := lift_result (validate_username username) in
  do! db_call (λ _, internal_error) (update_username io user.1 username) in
  mret 200.

(** [refresh_token]. *)
Definition refresh_token (rc : RouteConfig) (client_ip : IpAddr) (now : Instant) (raw : string)
    (try1 try2 try3 : Io * Draws) : Route TokensResponse :=
  do! limit_refresh client_ip now in
  let! pair := db_call map_refresh_error (rotate_refresh_token hmac_sha256 (rc_auth rc) raw try1 try2 try3) in
  mret (mkTokensResponse (uuid_to_string (tp_user_id pair)) (uuid_to_string (tp_device_id pair))
          (tp_access_token pair) (tp_refresh_token pair)).

(** ** What a refusal tells *)

(** Requests that pass the limits: a recovery id nobody has, and a wrong phrase
    for one that somebody has, get the same answer. *)
Theorem recovery_answers_alike rc io client_ip now rid phrase dw st :
  is_Ok (limit_recovery_ip client_ip now st).1 = true →
  is_Ok (limit_recovery_id rid now (limit_recovery_ip client_ip now st).2).1 = true →
  (recover_account hmac_sha256 (rc_auth rc) io rid phrase dw (ab_db st)).1 = Err RecoveryIdNotFound ∨
  (recover_account hmac_sha256 (rc_auth rc) io rid phrase dw (ab_db st)).1 = Err PhraseVerificationFailed →
  (recover rc io client_ip now rid phrase dw st).1 = Err authentication_failed.
Proof.
  intros Hip Hid Hres. unfold recover, mbind_.
  assert (ab_db (limit_recovery_id rid now (limit_recovery_ip client_ip now st).2).2 = ab_db st) as Hdb.
  { unfold limit_recovery_ip, limit_recovery_id. repeat case_match; done. }
  destruct (limit_recovery_ip client_ip now st) as [[[]|] st1]; simpl in *; [|done].
  destruct (limit_recovery_id rid now st1) as [[[]|] st2]; simpl in *; [|done]. rewrite Hdb.
  destruct (recover_account _ _ _ _ _ _ _) as [r d]. simpl in Hres. by destruct Hres as [-> | ->].
Qed.
End routes.

(** ** Examples *)

Module AccountRouteDemo.
Import PlainJwt AccountDemo.

Definition routes : RouteConfig := mkRouteConfig cfg None pepper pepper.
Definition backend : AuthBackend (Uuid:=N) (IpAddr:=N) :=
  mkAuthBackend ann (AuthLimiter.new AuthLimiter.default_config) (RecoveryLimiter.new RecoveryLimiter.default_config)
    (WsTicketStore_new pepper).

(** The statuses of four attempts to recover an account from one address. *)
Fixpoint statuses (n : nat) (rid : string) (st : AuthBackend (Uuid:=N) (IpAddr:=N)) : list Z :=
  match n with
  | O => []
  | S n' =>
      let '(r, st') := recover hmac routes no_failure 1%N 0 rid "wrong" (draws 30%N "x") st in
      match r with Ok _ => 200 | Err e => ae_status e end :: statuses n' rid st'
  end.

(** The fourth attempt tells an id that exists from one that does not: only the
    attempts on existing ids are counted. *)
Example recovery_limit_reveals_ids :
  statuses 4 "R1" backend = [401; 401; 401; 429] ∧ statuses 4 "R2" backend = [401; 401; 401; 401].
Proof. split; vm_compute; reflexivity. Qed.

(** A ticket for the WebSocket that was issued before a logout everywhere is
    still accepted after it. *)
Example ticket_survives_logout :
  let '(_, st) := issue_ws_ticket hmac (5%N, 9%N) "ticket" 0 backend in
  let '(status, st) := logout_all_route no_failure (5%N, 9%N) 2000 st in
  status = Ok 200 ∧ (WsTicket.validate_and_consume hmac "ticket" 1 (ab_tickets st)).1 = Ok (5%N, 9%N).
Proof. vm_compute. done. Qed.

Lemma recovery_answers_alike_witness :
  (recover hmac routes no_failure 1%N 0 "R2" "wrong" (draws 30%N "x") backend).1 = Err authentication_failed.
Proof. apply recovery_answers_alike; [vm_compute; reflexivity..|left; vm_compute; reflexivity]. Defined.
End AccountRouteDemo.
