(* ===== verification/BugReports.v ===== *)
(** * Bug reports (wavis-backend/src/diagnostics/bug_report.rs, routes.rs,
    admin_routes.rs, llm_client.rs and redaction.rs)

    The endpoints under /bug-report and /admin: optional authentication, limits,
    bans, validation, the upload of a screenshot and the creation of the issue,
    and what is read from the answers of the language model.  GitHub and the
    model are classes of operations on a world [W]; base64, the hash and the HTTP
    and JSON layers are parameters.  A screenshot is the string of its bytes.  The
    source awaits between checking a limit and recording the report, so the
    endpoint is split there: [prepare], the calls, [conclude]. *)

From Stdlib Require Import Sorting.Sorted.
From stdpp Require Import sorting.
From S2P Require Import Prelude SfuBridge Tokens SfuRelay SlidingWindow Database Phrase Accounts AccountDemo.
Local Open Scope Z_scope.
Local Open Scope prog_scope.

(** ** Redaction *)

(** The byte offset at which the character of index [n] starts: [char_indices().nth(n)]. *)
Fixpoint char_start (n i : nat) (s : string) : option nat :=
  match s with
  | EmptyString => None
  | String c s' =>
      if continuation c then char_start n (S i) s'
      else match n with O => Some i | S n' => char_start n' (S i) s' end
  end.

(** [redact_token], [redact_sdp_summary]; [hash8] is the hex text of the first four
    bytes of the SHA-256 hash. *)
Definition redact_token (hash8 : string → string) (token : string) : string :=
  let prefix := match char_start 4 0 token with Some i => String.substring 0 i token | None => token end in
  prefix +:+ "..." +:+ hash8 token.
Definition redact_sdp_summary (hash8 : string → string) (sdp : string) : string :=
  "sdp(" +:+ pretty (Z.of_nat (String.length sdp)) +:+ " bytes, hash=" +:+ hash8 sdp +:+ ")".

(** [str::find] of a pattern: what follows its first occurrence. *)
Fixpoint after_first (pat s : string) : option string :=
  match strip_prefix pat s with
  | Some rest => Some rest
  | None => match s with String _ s' => after_first pat s' | EmptyString => None end
  end.

(** [redact_ice_summary]. *)
Definition redact_ice_summary (candidate : string) : string :=
  match after_first "typ " candidate with
  | Some rest =>
      let typ := default "unknown"%string (head (split_whitespace rest)) in
      if contains typ ["host"; "srflx"; "relay"; "prflx"]%string
      then "ice(type=" +:+ typ +:+ ")" else "ice(type=unknown)"
  | None => "ice(type=unknown)"
  end.

(** ** Data *)

(** [BugReportError]. *)
Inductive BugReportError : Type :=
| InvalidScreenshot
| ScreenshotUploadFailed
| IssueCreationFailed
| PayloadTooLarge.

(** [LlmError]. *)
Inductive LlmError : Type :=
| ApiError (msg : string)
| LlmParseError
| NetworkError
| NotConfigured.

(** [AppStateSnapshot], [BugReportContext], [QaPair], [LlmQuestion], [LlmAnalysis],
    [GeneratedIssueBody]. *)
Record AppStateSnapshot : Type := mkAppStateSnapshot {
  sn_route : string;
  sn_ws_status : string;
  sn_voice_room_state : option string;
  sn_platform : string
}.
Record BugReportContext : Type := mkBugReportContext {
  cx_js_console_logs : list string;
  cx_rust_logs : list string;
  cx_ws_messages : list string;
  cx_app_state : AppStateSnapshot
}.
Record QaPair : Type := mkQaPair { qa_question : string; qa_answer : string }.
Record LlmQuestion : Type := mkLlmQuestion { q_text : string; q_options : option (list string) }.
Record LlmAnalysis : Type := mkLlmAnalysis {
  an_category : string;
  an_questions : list LlmQuestion;
  an_needs_follow_up : bool
}.
Record GeneratedIssueBody : Type := mkGeneratedIssueBody { gi_title : string; gi_body : string }.

(** [BugReportRequest], [ValidatedBugReport]. *)
Record BugReportRequest : Type := mkBugReportRequest {
  br_title : string;
  br_body : string;
  br_category : string;
  br_screenshot : option string
}.
Record ValidatedBugReport : Type := mkValidatedBugReport {
  vr_title : string;
  vr_body : string;
  vr_category : string;
  vr_screenshot : option string
}.

(** [AnalyzeRequest], [GenerateBodyRequest]. *)
Record AnalyzeRequest : Type := mkAnalyzeRequest {
  ar_description : string;
  ar_context : BugReportContext;
  ar_previous_answers : option (list QaPair)
}.
Record GenerateBodyRequest : Type := mkGenerateBodyRequest {
  gr_description : string;
  gr_context : BugReportContext;
  gr_qa_rounds : list (list QaPair);
  gr_category : string
}.

(** [DiagnosticsErrorResponse]: status, [Retry-After], message. *)
Record DiagnosticsErrorResponse : Type := mkDiagnosticsError {
  de_status : Z;
  de_retry_after : option string;
  de_error : string
}.

(** ** The outside world ([GitHubClient], [LlmClient]) *)

Class GitHubClient (W : Type) : Type := {
  upload_contents : string → string → string → string → M W BugReportError string;
  create_issue : string → string → string → list string → M W BugReportError string
}.
Class LlmClient (W : Type) : Type := {
  analyze : string → BugReportContext → option (list QaPair) → M W LlmError LlmAnalysis;
  generate_issue_body : string → BugReportContext → list (list QaPair) → string → M W LlmError GeneratedIssueBody
}.

(** ** Answers of the model *)

(** [strip_markdown_fences]. *)
Definition newline : string := utf8 [10]%nat.
Definition strip_suffix (suf s : string) : option string :=
  string_rev <$> strip_prefix (string_rev suf) (string_rev s).
Definition strip_markdown_fences (text : string) : string :=
  let trimmed := trim text in
  match strip_prefix "```" trimmed with
  | Some rest =>
      let after_tag := default rest (after_first newline rest) in
      trim (default after_tag (strip_suffix "```" after_tag))
  | None => trimmed
  end.

(** [serde_json::Value], with indexing, [as_str], [as_array] and [as_bool]: numbers
    are kept as their text. *)
Inductive Json : Type :=
| JNull
| JBool (b : bool)
| JNumber (n : string)
| JString (s : string)
| JArray (l : list Json)
| JObject (l : list (string * Json)).
Definition json_get (key : string) (v : Json) : Json :=
  match v with
  | JObject l => default JNull (snd <$> List.find (λ p, bool_decide (p.1 = key)) l)
  | _ => JNull
  end.
Definition as_str (v : Json) : option string := match v with JString s => Some s | _ => None end.
Definition as_array (v : Json) : option (list Json) := match v with JArray l => Some l | _ => None end.
Definition as_bool (v : Json) : option bool := match v with JBool b => Some b | _ => None end.

(** What [RealLlmClient::analyze_bug_report] reads from the answer. *)
Definition read_question (v : Json) : option LlmQuestion :=
  text ← as_str (json_get "text" v);
  Some (mkLlmQuestion text ((λ l : list Json, omap as_str l) <$> as_array (json_get "options" v))).
Definition read_analysis (parsed : Json) : LlmAnalysis :=
  mkLlmAnalysis (default "other"%string (as_str (json_get "category" parsed)))
    (default [] ((λ l : list Json, take 5 (omap read_question l)) <$> as_array (json_get "questions" parsed)))
    (default false (as_bool (json_get "needsFollowUp" parsed))).

(** What [RealLlmClient::generate_issue_body] reads: a missing title is cut from the
    description, which panics inside a character. *)
Definition nonempty_str (v : Json) : option string :=
  s ← as_str v; if str_is_empty s then None else Some s.
Definition read_issue_body (description : string) (parsed : Json) : option GeneratedIssueBody :=
  title ← match nonempty_str (json_get "title" parsed) with
          | Some s => Some s
          | None => (λ t, "Bug Report: " +:+ t) <$> slice_to description (Nat.min (String.length description) 80)
          end;
  let body := default ("## Bug Report" +:+ newline +:+ newline +:+ "### Description" +:+ newline +:+ description)
                (nonempty_str (json_get "body" parsed)) in
  Some (mkGeneratedIssueBody title body).

(** The error of a refused call of the API: its text is cut at 200 bytes. *)
Definition api_error_text (status : Z) (body_text : string) : option LlmError :=
  (λ t, ApiError (pretty status +:+ ": " +:+ t)) <$>
    slice_to body_text (Nat.min (String.length body_text) 200).

(** ** Submission (bug_report.rs) *)

(** [PNG_MAGIC]. *)
Definition PNG_MAGIC : string := utf8 [137; 80; 78; 71; 13; 10; 26; 10]%nat.
Definition is_png (bytes : string) : bool :=
  negb ((String.length bytes <? 8)%nat || negb (bool_decide (String.substring 0 8 bytes = PNG_MAGIC))).

(** Constants of routes.rs. *)
Definition MAX_TITLE_LEN : Z := 256.
Definition MAX_CATEGORY_LEN : Z := 64.
Definition MAX_BODY_LEN : Z := 1000000.
Definition MAX_DECODED_PAYLOAD_SIZE : Z := 5 * 1024 * 1024.

(** [error_response], [rate_limited_response], [auth_reject]. *)
Definition diag_error (status : Z) (error : string) : DiagnosticsErrorResponse := mkDiagnosticsError status None error.
Definition diag_rate_limited (retry_after_secs : Z) : DiagnosticsErrorResponse :=
  mkDiagnosticsError 429 (Some (pretty retry_after_secs))
    ("rate limit exceeded, retry after " +:+ pretty retry_after_secs +:+ "s").
Definition auth_reject : DiagnosticsErrorResponse := diag_error 401 "authentication failed".

(** [map_bug_report_error], [map_llm_error]. *)
Definition map_bug_report_error (err : BugReportError) : DiagnosticsErrorResponse :=
  match err with
  | InvalidScreenshot => diag_error 400 "invalid screenshot"
  | ScreenshotUploadFailed => diag_error 502 "screenshot upload failed"
  | IssueCreationFailed => diag_error 502 "issue creation failed"
  | PayloadTooLarge => diag_error 413 "payload too large"
  end.
Definition map_llm_error (err : LlmError) : DiagnosticsErrorResponse :=
  match err with
  | NotConfigured => diag_error 503 "LLM not configured"
  | ApiError _ => diag_error 502 "LLM analysis failed"
  | LlmParseError => diag_error 502 "LLM response invalid"
  | NetworkError => diag_error 502 "LLM service unreachable"
  end.

(** [validate_bug_report_fields]. *)
Definition validate_bug_report_fields (req : BugReportRequest) : option string :=
  if MAX_TITLE_LEN <? str_len (br_title req) then Some "title too long"%string
  else if MAX_CATEGORY_LEN <? str_len (br_category req) then Some "category too long"%string
  else if MAX_BODY_LEN <? str_len (br_body req) then Some "body too long"%string
  else None.

(** The estimate of the decoded size. *)
Definition decoded_size (req : BugReportRequest) : Z :=
  str_len (br_title req) + str_len (br_body req) + str_len (br_category req) +
  match br_screenshot req with Some b64 => (str_len b64 * 3) `div` 4 | None => 0 end.

(** A row of [bug_report_bans], whose key is the user. *)
Record BanRow : Type := mkBanRow { bn_banned_at : Z; bn_reason : string }.

(** [HeaderValue::to_str] of the http crate: the text of a header value, unless it
    has bytes that are not visible ASCII. *)
Class HeaderText : Type := { to_str : string → option string }.

Section reports.
Context {Uuid : Type} `{Countable Uuid} `{UuidText Uuid} `{PhraseCrypto Uuid} `{JwtCodec AuthTokenClaims}.
Context {IpAddr : Type} `{Countable IpAddr} {W : Type} `{GitHubClient W} `{LlmClient W} `{HeaderText}.
Context (base64_encode : string → string) (base64_decode : string → option string).

(** [submit_bug_report] of bug_report.rs: [file_id] is the drawn name, the identity
    the user and device of the token. *)
Definition file_report (repo : string) (request : ValidatedBugReport) (identity : option (Uuid * Uuid)) (file_id : Uuid)
    : M W BugReportError string :=
  let! body :=
    match vr_screenshot request with
    | Some png_bytes =>
        if is_png png_bytes then
          let! image_url := upload_contents repo ("bug-reports/" +:+ uuid_to_string file_id +:+ ".png")
                              (base64_encode png_bytes) "upload bug report screenshot" in
          mret (vr_body request +:+ newline +:+ newline +:+ "![Screenshot](" +:+ image_url +:+ ")" +:+ newline)
        else throw InvalidScreenshot
    | None => mret (vr_body request)
    end in
  let body := match identity with
              | Some id => body +:+ newline +:+ newline +:+ "---" +:+ newline +:+ "_Device ID: " +:+ uuid_to_string id.2 +:+ "_"
              | None => body
              end in
  let labels := match identity with Some _ => ["bug-report"] | None => ["bug-report"; "anonymous"] end%string in
  create_issue repo (vr_title request) body labels.

(** The fields of [AppState] the endpoints use, and the world behind the clients. *)
Record ReportState : Type := mkReportState {
  rp_db : AuthDb (Uuid:=Uuid);
  rp_bans : gmap Uuid BanRow;
  rp_limiter : BugReportLimiter.BugReportRateLimiter (IpAddr:=IpAddr) (Uuid:=Uuid);
  rp_llm_limiter : BugReportLimiter.BugReportRateLimiter (IpAddr:=IpAddr) (Uuid:=Uuid);
  rp_world : W
}.

(** The settings: secrets, the repository and the administrator's token. *)
Record ReportConfig : Type := mkReportConfig {
  rq_auth_secret : string;
  rq_previous_secret : option string;
  rq_repo : string;
  rq_admin_token : option string
}.

Abbreviation Report A := (M ReportState DiagnosticsErrorResponse A) (only parsing).

Definition set_limiter (l : BugReportLimiter.BugReportRateLimiter) (s : ReportState) : ReportState :=
  mkReportState (rp_db s) (rp_bans s) l (rp_llm_limiter s) (rp_world s).
Definition set_llm_limiter (l : BugReportLimiter.BugReportRateLimiter) (s : ReportState) : ReportState :=
  mkReportState (rp_db s) (rp_bans s) (rp_limiter s) l (rp_world s).
Definition set_bans (b : gmap Uuid BanRow) (s : ReportState) : ReportState :=
  mkReportState (rp_db s) b (rp_limiter s) (rp_llm_limiter s) (rp_world s).
Definition on_world {E A} (f : E → DiagnosticsErrorResponse) (p : M W E A) : Report A := λ s,
  let '(r, w) := p (rp_world s) in
  (map_err f r, mkReportState (rp_db s) (rp_bans s) (rp_limiter s) (rp_llm_limiter s) w).
Definition on_db {E A} (f : E → DiagnosticsErrorResponse) (p : M (AuthDb (Uuid:=Uuid)) E A) : Report A := λ s,
  let '(r, d) := p (rp_db s) in
  (map_err f r, mkReportState d (rp_bans s) (rp_limiter s) (rp_llm_limiter s) (rp_world s)).

(** [try_extract_auth]: without a header, or with one that is not text, the report is
    anonymous; a header that does not authenticate is refused. *)
Definition try_extract_auth (rc : ReportConfig) (io : Io) (header : option string) (unix unix2 : Z)
    : Report (option (Uuid * Uuid)) :=
  match header ≫= to_str with
  | None => mret None
  | Some header_value =>
      match strip_prefix "Bearer " header_value with
      | None => throw auth_reject
      | Some token =>
          match validate_access_token_with_rotation token (rq_auth_secret rc) (rq_previous_secret rc) unix unix2 with
          | Err _ => throw auth_reject
          | Ok (user_id, device_id, token_epoch) =>
              let! revoked_at := on_db (λ _, auth_reject)
                (fetch DatabaseError io 0%nat (λ d, d_revoked_at <$> devices d !! device_id)) in
              match revoked_at with
              | Some None =>
                  do! on_db (λ _, auth_reject) (check_session_epoch io 1%nat user_id token_epoch) in
                  mret (Some (user_id, device_id))
              | _ => throw auth_reject
              end
          end
      end
  end.

(** The limits of a submission. *)
Definition limit_ip (client_ip : IpAddr) (now : Instant) : Report unit := λ s,
  match BugReportLimiter.seconds_until_retry_ip client_ip now (rp_limiter s) with
  | (Some secs, l) => (Err (diag_rate_limited secs), set_limiter l s)
  | (None, l) => (Ok tt, set_limiter l s)
  end.
Definition limit_user (user_id : Uuid) (now : Instant) : Report unit := λ s,
  match BugReportLimiter.seconds_until_retry_user user_id now (rp_limiter s) with
  | (Some secs, l) => (Err (diag_rate_limited secs), set_limiter l s)
  | (None, l) => (Ok tt, set_limiter l s)
  end.

(** The ban check: a query that fails counts as no ban. *)
Definition ban_check (io : Io) (user_id : Uuid) : Report unit := λ s,
  let is_banned := match io 2%nat with
                   | None => bool_decide (is_Some (rp_bans s !! user_id))
                   | Some _ => false
                   end in
  if is_banned then (Err (diag_error 403 "bug report submission blocked"), s) else (Ok tt, s).

(** [submit_bug_report] of routes.rs: the checks of the payload, .. *)
Definition check_payload (payload : BugReportRequest) (user : option (Uuid * Uuid))
    : Report (ValidatedBugReport * option (Uuid * Uuid)) :=
  if MAX_DECODED_PAYLOAD_SIZE <? decoded_size payload then throw (diag_error 413 "payload too large")
  else match validate_bug_report_fields payload with
       | Some err_msg => throw (diag_error 400 err_msg)
       | None =>
           let! screenshot :=
             match br_screenshot payload with
             | Some b64 => match base64_decode b64 with
                           | Some bytes => mret (Some bytes)
                           | None => throw (diag_error 400 "invalid screenshot encoding")
                           end
             | None => mret None
             end in
           mret (mkValidatedBugReport (br_title payload) (br_body payload) (br_category payload) screenshot, user)
       end.

(** .. all that comes before the call of the domain, .. *)
Definition prepare (rc : ReportConfig) (io : Io) (client_ip : IpAddr) (header : option string) (now : Instant)
    (unix unix2 : Z) (payload : BugReportRequest) : Report (ValidatedBugReport * option (Uuid * Uuid)) :=
  let! user := try_extract_auth rc io header unix unix2 in
  do! limit_ip client_ip now in
  do! (match user with Some u => limit_user u.1 now | None => mret tt end) in
  do! (match user with Some u => ban_check io u.1 | None => mret tt end) in
  check_payload payload user.

(** .. what follows a success, .. *)
Definition conclude (client_ip : IpAddr) (user : option (Uuid * Uuid)) (now : Instant) (s : ReportState) : ReportState :=
  let l := BugReportLimiter.record_ip client_ip now (rp_limiter s) in
  set_limiter (match user with Some u => BugReportLimiter.record_user u.1 now l | None => l end) s.

(** .. the part after the checks, and the endpoint. *)
Definition deliver (rc : ReportConfig) (client_ip : IpAddr) (now : Instant) (file_id : Uuid)
    (prepared : ValidatedBugReport * option (Uuid * Uuid)) : Report (Z * string) :=
  let! issue_url := on_world map_bug_report_error (file_report (rq_repo rc) prepared.1 prepared.2 file_id) in
  do! modify (conclude client_ip prepared.2 now) in
  mret (201, issue_url).
Definition submit_bug_report (rc : ReportConfig) (io : Io) (client_ip : IpAddr) (header : option string)
    (now : Instant) (unix unix2 : Z) (payload : BugReportRequest) (file_id : Uuid) : Report (Z * string) :=
  let! prepared := prepare rc io client_ip header now unix unix2 payload in
  deliver rc client_ip now file_id prepared.

(** ** Analysis *)

Definition limit_llm (client_ip : IpAddr) (now : Instant) : Report unit := λ s,
  match BugReportLimiter.seconds_until_retry_ip client_ip now (rp_llm_limiter s) with
  | (Some secs, l) => (Err (diag_rate_limited secs), set_llm_limiter l s)
  | (None, l) => (Ok tt, set_llm_limiter l s)
  end.
Definition note_llm (client_ip : IpAddr) (now : Instant) (s : ReportState) : ReportState :=
  set_llm_limiter (BugReportLimiter.record_ip client_ip now (rp_llm_limiter s)) s.

(** [analyze_bug_report]. *)
Definition analyze_bug_report (client_ip : IpAddr) (now : Instant) (payload : AnalyzeRequest) : Report LlmAnalysis :=
  do! limit_llm client_ip now in
  if str_len (ar_description payload) <? 10 then throw (diag_error 400 "description too short")
  else if MAX_BODY_LEN <? str_len (ar_description payload) then throw (diag_error 400 "description too long")
  else
    let! analysis := on_world map_llm_error
      (analyze (ar_description payload) (ar_context payload) (ar_previous_answers payload)) in
    do! modify (note_llm client_ip now) in
    mret analysis.

(** [generate_bug_report_body]. *)
Definition generate_bug_report_body (client_ip : IpAddr) (now : Instant) (payload : GenerateBodyRequest)
    : Report GeneratedIssueBody :=
  do! limit_llm client_ip now in
  if (str_len (gr_description payload) <? 10) || (MAX_BODY_LEN <? str_len (gr_description payload))
  then throw (diag_error 400 "invalid description length")
  else
    let! result := on_world map_llm_error
      (generate_issue_body (gr_description payload) (gr_context payload) (gr_qa_rounds payload) (gr_category payload)) in
    do! modify (note_llm client_ip now) in
    mret result.

(** ** Administration (admin_routes.rs) *)

(** [require_admin]. *)
Definition require_admin (rc : ReportConfig) (header : option string) : Report unit :=
  match rq_admin_token rc with
  | None => throw (diag_error 503 "admin endpoints not configured")
  | Some expected =>
      match (header ≫= to_str) ≫= strip_prefix "Bearer " with
      | Some token => if bool_decide (token = expected) then mret tt else throw (diag_error 401 "unauthorized")
      | None => throw (diag_error 401 "unauthorized")
      end
  end.
Definition database_failed : DiagnosticsErrorResponse := diag_error 500 "database error".

(** A statement on the table of bans. *)
Definition bans_stmt (io : Io) (f : gmap Uuid BanRow → gmap Uuid BanRow) : Report unit := λ s,
  match io 0%nat with
  | None => (Ok tt, set_bans (f (rp_bans s)) s)
  | Some e => (Err database_failed, if f_applied e then set_bans (f (rp_bans s)) s else s)
  end.

(** [ban_user], [unban_user]; [utc] is the database's clock. *)
Definition ban_user (rc : ReportConfig) (io : Io) (header : option string) (utc : Z) (user_id : Uuid)
    (reason : option string) : Report (Uuid * bool) :=
  do! require_admin rc header in
  do! bans_stmt io (<[user_id := mkBanRow utc (default EmptyString reason)]>) in
  mret (user_id, true).
Definition unban_user (rc : ReportConfig) (io : Io) (header : option string) (user_id : Uuid) : Report (Uuid * bool) :=
  do! require_admin rc header in
  do! bans_stmt io (delete user_id) in
  mret (user_id, false).

(** [get_bug_report_stats]: counts in falling order, bans with the newest first. *)
Definition more_requests {K} (a b : K * Z * bool) : Prop := b.1.2 ≤ a.1.2.
#[local] Instance more_requests_dec {K} : RelDecision (more_requests (K:=K)).
Proof. intros a b. unfold more_requests. apply _. Defined.
Definition newer_ban (a b : Uuid * BanRow) : Prop := bn_banned_at b.2 ≤ bn_banned_at a.2.
#[local] Instance newer_ban_dec : RelDecision newer_ban.
Proof. intros a b. unfold newer_ban. apply _. Defined.
Definition mark_at_limit {K} (limit : Z) (l : list (K * Z)) : list (K * Z * bool) :=
  merge_sort more_requests (map (λ p, (p, limit <=? p.2)) l).
Record BugReportStats : Type := mkBugReportStats {
  bs_banned_users : list (Uuid * BanRow);
  bs_active_ip_counts : list (IpAddr * Z * bool);
  bs_active_user_counts : list (Uuid * Z * bool)
}.
Definition get_bug_report_stats (rc : ReportConfig) (io : Io) (header : option string) (now : Instant)
    : Report BugReportStats :=
  do! require_admin rc header in
  let! bug_limit := gets (λ s, BugReportLimiter.max_requests (BugReportLimiter.config (rp_limiter s))) in
  let! ips := state (λ s, let '(c, l) := BugReportLimiter.snapshot_ip_counts now (rp_limiter s) in (c, set_limiter l s)) in
  let! us := state (λ s, let '(c, l) := BugReportLimiter.snapshot_user_counts now (rp_limiter s) in (c, set_limiter l s)) in
  match io 0%nat with
  | Some _ => throw database_failed
  | None =>
      let! bans := gets (λ s, merge_sort newer_ban (map_to_list (rp_bans s))) in
      mret (mkBugReportStats bans (mark_at_limit bug_limit ips) (mark_at_limit bug_limit us))
  end.
End reports.

(** ** What is known of a report once it is let through *)

Section rules.
Context {Uuid : Type} `{Countable Uuid} `{UuidText Uuid} `{PhraseCrypto Uuid} `{JwtCodec AuthTokenClaims}.
Context {IpAddr : Type} `{Countable IpAddr} {W : Type} `{GitHubClient W} `{LlmClient W} `{HeaderText}.
Context (base64_encode : string → string) (base64_decode : string → option string).
Abbreviation St := (ReportState (Uuid:=Uuid) (IpAddr:=IpAddr) (W:=W)) (only parsing).
Abbreviation Prepare := (prepare base64_decode) (only parsing).
Abbreviation Submit := (submit_bug_report base64_encode base64_decode) (only parsing).

(** The retry queries of the two windows. *)
Definition ip_retry (ip : IpAddr) (now : Instant) (s : St) : option Z :=
  (BugReportLimiter.seconds_until_retry_ip ip now (rp_limiter s)).1.
Definition user_retry (u : Uuid) (now : Instant) (s : St) : option Z :=
  (BugReportLimiter.seconds_until_retry_user u now (rp_limiter s)).1.
(** The state after both were asked. *)
Definition asked_ip (ip : IpAddr) (now : Instant) (s : St) : St :=
  set_limiter (BugReportLimiter.seconds_until_retry_ip ip now (rp_limiter s)).2 s.
Definition asked_user (u : Uuid) (now : Instant) (s : St) : St :=
  set_limiter (BugReportLimiter.seconds_until_retry_user u now (rp_limiter s)).2 s.

Lemma on_db_readonly {E A} (f : E → DiagnosticsErrorResponse) (p : M (AuthDb (Uuid:=Uuid)) E A) (s : St) :
  readonly p → on_db f p s = (map_err f (p (rp_db s)).1, s).
Proof. intros Hp. unfold on_db. specialize (Hp (rp_db s)). destruct (p (rp_db s)) as [r d]. simpl in *. subst. by destruct s. Qed.

(** The account behind a header. *)
Record signed_in (rc : ReportConfig) (db : AuthDb (Uuid:=Uuid)) (header : string) (unix unix2 : Z) (u d : Uuid) : Prop := {
  si_token : ∃ token epoch row, strip_prefix "Bearer " header = Some token ∧
    validate_access_token_with_rotation token (rq_auth_secret rc) (rq_previous_secret rc) unix unix2 = Ok (u, d, epoch) ∧
    devices db !! d = Some row ∧ d_revoked_at row = None ∧ epoch_of u db = Some epoch
}.

Lemma check_session_epoch_readonly io k (u : Uuid) epoch : readonly (check_session_epoch io k u epoch).
Proof.
  unfold check_session_epoch. apply readonly_bind; [apply readonly_fetch|]. intros [e|]; [case_bool_decide|];
    auto with wavis.
Qed.

Lemma try_extract_auth_spec rc io header unix unix2 (s : St) r s' :
  try_extract_auth rc io header unix unix2 s = (r, s') →
  s' = s ∧ ∀ user, r = Ok user →
    match header ≫= to_str with
    | None => user = None
    | Some h => ∃ u d, user = Some (u, d) ∧ signed_in rc (rp_db s) h unix unix2 u d
    end.
Proof.
  unfold try_extract_auth. destruct (header ≫= to_str) as [h|]; [|by intros [= <- <-]; split; [done|intros user [= <-]]].
  destruct (strip_prefix "Bearer " h) as [token|] eqn:Hpre; [|by intros [= <- <-]].
  destruct (validate_access_token_with_rotation _ _ _ _ _) as [[[u d] epoch]|] eqn:Hval; [|by intros [= <- <-]].
  unfold mbind_. rewrite on_db_readonly by auto with wavis. unfold fetch. destruct (io 0%nat); [by intros [= <- <-]|].
  cbn [fst map_err]. destruct (devices (rp_db s) !! d) as [row|] eqn:Hrow; [|by intros [= <- <-]].
  cbn. destruct (d_revoked_at row) eqn:Hrev; [by intros [= <- <-]|].
  rewrite on_db_readonly by apply check_session_epoch_readonly. unfold check_session_epoch, mbind_, fetch.
  destruct (io 1%nat); [by intros [= <- <-]|]. cbn.
  destruct (epoch_of u (rp_db s)) as [e|] eqn:He; [|by intros [= <- <-]].
  case_bool_decide; [|by intros [= <- <-]]. subst. intros [= <- <-]. split; [done|]. intros user [= <-].
  exists u, d. split; [done|]. split. by exists token, epoch, row.
Qed.

Lemma limit_ip_eq ip now (s : St) :
  limit_ip ip now s = (match ip_retry ip now s with Some secs => Err (diag_rate_limited secs) | None => Ok tt end, asked_ip ip now s).
Proof.
  unfold limit_ip, ip_retry, asked_ip. by destruct (BugReportLimiter.seconds_until_retry_ip _ _ _) as [[]].
Qed.
Lemma limit_user_eq u now (s : St) :
  limit_user u now s = (match user_retry u now s with Some secs => Err (diag_rate_limited secs) | None => Ok tt end, asked_user u now s).
Proof.
  unfold limit_user, user_retry, asked_user. by destruct (BugReportLimiter.seconds_until_retry_user _ _ _) as [[]].
Qed.

Lemma user_retry_asked_ip ip u now now' (s : St) : user_retry u now (asked_ip ip now' s) = user_retry u now s.
Proof. done. Qed.
Lemma rp_bans_asked ip u now (s : St) : rp_bans (asked_user u now (asked_ip ip now s)) = rp_bans s.
Proof. done. Qed.

(** What the checks establish. *)
Record admitted (rc : ReportConfig) (io : Io) (ip : IpAddr) (header : option string) (now : Instant) (unix unix2 : Z)
    (payload : BugReportRequest) (s : St) (v : ValidatedBugReport) (user : option (Uuid * Uuid)) : Prop := {
  ad_title : str_len (br_title payload) ≤ MAX_TITLE_LEN;
  ad_category : str_len (br_category payload) ≤ MAX_CATEGORY_LEN;
  ad_body : str_len (br_body payload) ≤ MAX_BODY_LEN;
  ad_size : decoded_size payload ≤ MAX_DECODED_PAYLOAD_SIZE;
  ad_shot : match br_screenshot payload with
            | Some b64 => ∃ bytes, base64_decode b64 = Some bytes ∧ vr_screenshot v = Some bytes
            | None => vr_screenshot v = None
            end;
  ad_fields : vr_title v = br_title payload ∧ vr_body v = br_body payload;
  ad_ip : ip_retry ip now s = None;
  ad_user : match header ≫= to_str with
            | None => user = None
            | Some h => ∃ u d, user = Some (u, d) ∧ signed_in rc (rp_db s) h unix unix2 u d ∧
                user_retry u now s = None ∧ (io 2%nat = None → rp_bans s !! u = None)
            end
}.

(** The state after the checks: at most the windows have been asked. *)
Definition asked (ip : IpAddr) (now : Instant) (s s' : St) : Prop :=
  s' = s ∨ s' = asked_ip ip now s ∨ ∃ u, s' = asked_user u now (asked_ip ip now s).

(** The checks on the payload alone. *)
Lemma payload_checks rc io ip header now unix unix2 payload (s s1 : St) user r s' :
  check_payload base64_decode payload user s1 = (r, s') →
  ip_retry ip now s = None →
  match header ≫= to_str with
  | None => user = None
  | Some h => ∃ u d, user = Some (u, d) ∧ signed_in rc (rp_db s) h unix unix2 u d ∧
      user_retry u now s = None ∧ (io 2%nat = None → rp_bans s !! u = None)
  end →
  s' = s1 ∧ ∀ v user', r = Ok (v, user') → user' = user ∧ admitted rc io ip header now unix unix2 payload s v user'.
Proof.
  unfold check_payload. intros Hrun Hip Huser. destruct (Z.ltb_spec MAX_DECODED_PAYLOAD_SIZE (decoded_size payload)); [by injection Hrun as <- <-|].
  unfold validate_bug_report_fields in Hrun.
  destruct (Z.ltb_spec MAX_TITLE_LEN (str_len (br_title payload))); [by injection Hrun as <- <-|].
  destruct (Z.ltb_spec MAX_CATEGORY_LEN (str_len (br_category payload))); [by injection Hrun as <- <-|].
  destruct (Z.ltb_spec MAX_BODY_LEN (str_len (br_body payload))); [by injection Hrun as <- <-|].
  unfold mbind_ in Hrun. destruct (br_screenshot payload) as [b64|] eqn:Hb; [destruct (base64_decode b64) eqn:Hd|];
    injection Hrun as <- <-; split; try done; intros v user' [= <- <-]; split; try done; split; cbn; rewrite ?Hb; eauto.
Qed.

Lemma check_payload_readonly payload user : readonly (S:=St) (check_payload base64_decode payload user).
Proof.
  unfold check_payload. destruct (_ <? _); [auto with wavis|]. destruct (validate_bug_report_fields _); [auto with wavis|].
  apply readonly_bind; [|auto with wavis]. repeat case_match; auto with wavis.
Qed.

Lemma prepare_spec rc io ip header now unix unix2 payload (s : St) r s' :
  Prepare rc io ip header now unix unix2 payload s = (r, s') →
  asked ip now s s' ∧
  ∀ v user, r = Ok (v, user) → admitted rc io ip header now unix unix2 payload s v user.
Proof.
  unfold prepare, mbind_ at 1. destruct (try_extract_auth rc io header unix unix2 s) as [ra s0] eqn:Ha.
  apply try_extract_auth_spec in Ha as [-> Ha]. destruct ra as [user|e]; [|intros [= <- <-]; split; [by left|done]].
  specialize (Ha user eq_refl). unfold mbind_ at 1. rewrite limit_ip_eq.
  destruct (ip_retry ip now s) eqn:Hip; [intros [= <- <-]; split; [by right; left|done]|].
  destruct (header ≫= to_str) as [h|] eqn:Hh.
  - destruct Ha as (u & d & -> & Hs). unfold mbind_ at 1. cbn [fst]. rewrite limit_user_eq, user_retry_asked_ip.
    destruct (user_retry u now s) eqn:Hu; [intros [= <- <-]; split; [by right; right; exists u|done]|].
    unfold mbind_ at 1, ban_check. rewrite rp_bans_asked.
    assert (Hask : asked ip now s (asked_user u now (asked_ip ip now s))) by (right; right; by exists u).
    destruct (match io 2%nat with None => _ | Some _ => false end) eqn:Hban; [by intros [= <- <-]|].
    intros Hrun. destruct (payload_checks rc io ip header now unix unix2 payload s _ _ _ _ Hrun Hip) as [-> Hok].
    { rewrite Hh. exists u, d. split_and!; try done. intros Hio. rewrite Hio in Hban.
      apply bool_decide_eq_false in Hban. by apply eq_None_not_Some. }
    split; [done|]. intros v user Hr. by apply Hok.
  - subst user. unfold mbind_ at 1, mret at 1. unfold mbind_ at 1, mret at 1. intros Hrun.
    destruct (payload_checks rc io ip header now unix unix2 payload s _ _ _ _ Hrun Hip) as [-> Hok]; [by rewrite Hh|].
    split; [by right; left|]. intros v user Hr. by apply Hok.
Qed.

(** Filing a report whose screenshot is no image touches nothing. *)
Lemma file_report_png repo v user file_id (w : W) :
  (file_report base64_encode repo v user file_id w).2 ≠ w → ∀ b, vr_screenshot v = Some b → is_png b = true.
Proof.
  unfold file_report, mbind_. intros Hw b Hb. rewrite Hb in Hw. by destruct (is_png b).
Qed.

Lemma deliver_world rc ip now file_id v user (s : St) :
  rp_world (deliver base64_encode rc ip now file_id (v, user) s).2 = (file_report base64_encode (rq_repo rc) v user file_id (rp_world s)).2.
Proof.
  unfold deliver, mbind_, on_world, modify. cbn [fst snd].
  destruct (file_report _ _ _ _ _ _) as [[url|e] w]; cbn; [|done]. by destruct user.
Qed.

Lemma asked_world ip now (s s' : St) : asked ip now s s' → rp_world s' = rp_world s.
Proof. by intros [->|[->|[u ->]]]. Qed.

(** C30: Nothing of a report reaches GitHub before it has passed every check.  If a
    submission calls GitHub at all, then its title, category and body are within
    their limits and the whole within five megabytes, its screenshot decodes to a
    PNG image, the address is below its limit, and when it carries an Authorization
    header whose value is text (visible ASCII), that text is a valid token of the
    current epoch for a device that is not revoked, of a user below its limit and,
    unless the query of the bans fails, not banned.  A report without the header, or
    with one whose value is not text, is anonymous: for it the limit of the address is
    the only one. *)
Theorem github_sees_checked_reports rc io ip header now unix unix2 payload file_id (s : St) :
  rp_world (Submit rc io ip header now unix unix2 payload file_id s).2 ≠ rp_world s →
  str_len (br_title payload) ≤ 256 ∧ str_len (br_category payload) ≤ 64 ∧ str_len (br_body payload) ≤ 1000000 ∧
  decoded_size payload ≤ 5242880 ∧
  (∀ b64, br_screenshot payload = Some b64 → ∃ bytes, base64_decode b64 = Some bytes ∧ is_png bytes = true) ∧
  (BugReportLimiter.seconds_until_retry_ip ip now (rp_limiter s)).1 = None ∧
  (∀ raw h, header = Some raw → to_str raw = Some h → ∃ u d, signed_in rc (rp_db s) h unix unix2 u d ∧
     (BugReportLimiter.seconds_until_retry_user u now (rp_limiter s)).1 = None ∧
     (io 2%nat = None → rp_bans s !! u = None)).
Proof.
  unfold submit_bug_report, mbind_ at 1.
  destruct (Prepare rc io ip header now unix unix2 payload s) as [[[v user]|e] s1] eqn:Hp;
    apply prepare_spec in Hp as [Hask Hok]; [|by cbn; rewrite (asked_world _ _ _ _ Hask)].
  destruct (Hok v user eq_refl) as [Ht Hc Hb Hs Hshot _ Hip Hu]. rewrite deliver_world, (asked_world _ _ _ _ Hask).
  intros Hw. split_and!; try done.
  - intros b64 Hb64. rewrite Hb64 in Hshot. destruct Hshot as (bytes & Hd & Hv). exists bytes. split; [done|].
    by eapply file_report_png.
  - intros raw h -> Hh. cbn in Hu. rewrite Hh in Hu. destruct Hu as (u & d & _ & ? & ? & ?). by exists u, d.
Qed.

(** ** The limit under concurrency *)

Lemma asked_ip_idem ip now (s : St) : asked_ip ip now (asked_ip ip now s) = asked_ip ip now s.
Proof.
  unfold asked_ip, set_limiter, BugReportLimiter.seconds_until_retry_ip, BugReportLimiter.on_ip_windows. cbn.
  by rewrite insert_insert_eq, entry_insert, decide_True.
Qed.
Lemma ip_retry_asked ip now (s : St) : ip_retry ip now (asked_ip ip now s) = ip_retry ip now s.
Proof.
  unfold ip_retry, asked_ip, set_limiter, BugReportLimiter.seconds_until_retry_ip, BugReportLimiter.on_ip_windows. cbn.
  by rewrite entry_insert, decide_True.
Qed.
Lemma user_retry_asked u now (s : St) : user_retry u now (asked_user u now s) = user_retry u now s.
Proof.
  unfold user_retry, asked_user, set_limiter, BugReportLimiter.seconds_until_retry_user, BugReportLimiter.on_user_windows. cbn.
  by rewrite entry_insert, decide_True.
Qed.
Lemma asked_both_idem ip u now (s : St) :
  asked_user u now (asked_ip ip now (asked_user u now (asked_ip ip now s))) = asked_user u now (asked_ip ip now s).
Proof.
  unfold asked_ip, asked_user, set_limiter, BugReportLimiter.seconds_until_retry_ip, BugReportLimiter.on_ip_windows,
    BugReportLimiter.seconds_until_retry_user, BugReportLimiter.on_user_windows. cbn.
  by rewrite !insert_insert_eq, !entry_insert, !decide_True.
Qed.

Lemma try_extract_auth_db rc io header unix unix2 (s s2 : St) r s' :
  rp_db s2 = rp_db s → try_extract_auth rc io header unix unix2 s = (r, s') →
  try_extract_auth rc io header unix unix2 s2 = (r, s2).
Proof.
  intros Hdb. unfold try_extract_auth. destruct (header ≫= to_str) as [h|]; [|by intros [= <- <-]].
  destruct (strip_prefix "Bearer " h) as [token|]; [|by intros [= <- <-]].
  destruct (validate_access_token_with_rotation _ _ _ _ _) as [[[u d] epoch]|]; [|by intros [= <- <-]].
  unfold mbind_. rewrite !on_db_readonly by auto with wavis. rewrite Hdb.
  destruct (map_err _ _) as [[[]|]|]; try by intros [= <- <-].
  rewrite !on_db_readonly by apply check_session_epoch_readonly. rewrite Hdb.
  by destruct (map_err _ _); intros [= <- <-].
Qed.

(** Passing the checks leaves no trace that would fail the next: as nothing is
    recorded before the calls have been made, any number of reports that arrive in
    the meantime pass as well, whatever the limit. *)
Theorem checks_count_nothing rc io ip header now unix unix2 payload (s : St) v s' :
  Prepare rc io ip header now unix unix2 payload s = (Ok v, s') →
  Prepare rc io ip header now unix unix2 payload s' = (Ok v, s').
Proof.
  unfold prepare, mbind_ at 1. destruct (try_extract_auth rc io header unix unix2 s) as [ra s0] eqn:Ha.
  pose proof (λ s2 Hdb, try_extract_auth_db rc io header unix unix2 s s2 ra s0 Hdb Ha) as Ha2.
  apply try_extract_auth_spec in Ha as [-> _]. destruct ra as [user|e]; [|done].
  unfold mbind_ at 1. rewrite limit_ip_eq. destruct (ip_retry ip now s) eqn:Hip; [done|].
  destruct user as [[u d]|].
  - unfold mbind_ at 1. cbn [fst]. rewrite limit_user_eq, user_retry_asked_ip.
    destruct (user_retry u now s) eqn:Hu; [done|]. unfold mbind_ at 1, ban_check. rewrite rp_bans_asked.
    destruct (match io 2%nat with None => _ | Some _ => false end) eqn:Hban; [done|]. intros Hrun.
    set (s2 := asked_user u now (asked_ip ip now s)) in *.
    assert (s' = s2) as -> by (pose proof (check_payload_readonly payload (Some (u, d)) s2) as Hr; by rewrite Hrun in Hr).
    unfold mbind_ at 1. rewrite (Ha2 s2) by done. unfold mbind_ at 1. rewrite limit_ip_eq.
    assert (ip_retry ip now s2 = None) as -> by (rewrite <-Hip; exact (ip_retry_asked ip now s)).
    unfold mbind_ at 1. cbn [fst]. rewrite limit_user_eq, user_retry_asked_ip.
    assert (user_retry u now s2 = None) as -> by (rewrite <-Hu; exact (user_retry_asked u now (asked_ip ip now s))).
    assert (asked_user u now (asked_ip ip now s2) = s2) as -> by apply asked_both_idem.
    unfold mbind_ at 1, ban_check. change (rp_bans s2) with (rp_bans s). by rewrite Hban.
  - unfold mbind_ at 1, mret at 1. unfold mbind_ at 1, mret at 1. intros Hrun.
    assert (s' = asked_ip ip now s) as ->
      by (pose proof (check_payload_readonly payload None (asked_ip ip now s)) as Hr; by rewrite Hrun in Hr).
    unfold mbind_ at 1. rewrite Ha2 by done. unfold mbind_ at 1. rewrite limit_ip_eq, ip_retry_asked, Hip, asked_ip_idem.
    unfold mbind_ at 1, mret at 1. unfold mbind_ at 1, mret at 1. done.
Qed.

(** ** One report at a time *)

(** A submission with what it draws. *)
Record Submission : Type := mkSubmission {
  sb_io : Io;
  sb_ip : IpAddr;
  sb_header : option string;
  sb_now : Instant;
  sb_unix : Z;
  sb_unix2 : Z;
  sb_payload : BugReportRequest;
  sb_file_id : Uuid
}.

(** Submissions in turn, with the log of those that were accepted. *)
Definition serve_report (rc : ReportConfig) (st : St * list (IpAddr * Instant)) (q : Submission)
    : St * list (IpAddr * Instant) :=
  match Submit rc (sb_io q) (sb_ip q) (sb_header q) (sb_now q) (sb_unix q) (sb_unix2 q) (sb_payload q) (sb_file_id q) st.1 with
  | (Ok _, s) => (s, st.2 ++ [(sb_ip q, sb_now q)])
  | (Err _, s) => (s, st.2)
  end.

Record report_inv (c : BugReportLimiter.BugReportRateLimiterConfig) (now : Instant)
    (st : St * list (IpAddr * Instant)) : Prop := {
  ri_config : BugReportLimiter.config (rp_limiter st.1) = c;
  ri_win : win_inv (BugReportLimiter.report_window c) now (BugReportLimiter.ip_windows (rp_limiter st.1)) st.2;
  ri_bound T ip : len (in_window (BugReportLimiter.report_window c) T ip st.2) ≤ BugReportLimiter.max_requests c
}.

Lemma asked_inv c ip now (s s' : St) log :
  asked ip now s s' → report_inv c now (s, log) → report_inv c now (s', log).
Proof.
  intros Hask [Hc Hw Hb]. cbn in *.
  pose proof (run_win_inv (BugReportLimiter.report_window c) (BugReportLimiter.max_requests c) now (WRetry ip) _ _ Hw) as Hr.
  destruct Hask as [->|[->|[u ->]]]; split; cbn; try done; by rewrite Hc.
Qed.

(** An address that need not wait has fewer recent reports than the limit. *)
Lemma retry_none c ip now (s : St) log :
  0 < BugReportLimiter.max_requests c → report_inv c now (s, log) → ip_retry ip now s = None →
  len (recent (BugReportLimiter.report_window c) now ip log) < BugReportLimiter.max_requests c.
Proof.
  intros Hmax [Hc Hw _]. cbn in *.
  unfold ip_retry, BugReportLimiter.seconds_until_retry_ip, BugReportLimiter.on_ip_windows, retry_key. cbn.
  rewrite Hc, seconds_until_retry_eq, (wi_window _ _ _ _ Hw ip), (win_inv_live _ _ _ _ ip Hw).
  cbv zeta. case_bool_decide; [done|]. destruct (recent _ _ _ _) as [|t l]; [cbn in *; lia|done].
Qed.

Lemma deliver_inv c rc ip now file_id v user (s : St) log r s' :
  0 ≤ BugReportLimiter.report_window c → len (recent (BugReportLimiter.report_window c) now ip log) < BugReportLimiter.max_requests c →
  report_inv c now (s, log) → deliver base64_encode rc ip now file_id (v, user) s = (r, s') →
  report_inv c now (s', match r with Ok _ => log ++ [(ip, now)] | Err _ => log end).
Proof.
  intros Hdur Hroom [Hc Hw Hb] Hrun. cbn in *. unfold deliver, mbind_, on_world, modify in Hrun. cbn [fst snd] in Hrun.
  destruct (file_report _ _ _ _ _ _) as [[url|e] w]; cbn in Hrun; injection Hrun as <- <-; [|by split].
  pose proof (run_win_inv (BugReportLimiter.report_window c) (BugReportLimiter.max_requests c) now (WRecord ip) _ _ Hw) as Hr.
  assert (Hb' := in_window_record _ _ now ip log Hdur (wi_past _ _ _ _ Hw) Hroom Hb).
  destruct user; split; cbn; try done; by rewrite Hc.
Qed.

Lemma report_inv_later c now now' (st : St * list (IpAddr * Instant)) :
  now ≤ now' → report_inv c now st → report_inv c now' st.
Proof. intros Hle [Hc Hw Hb]. split; [done| |done]. by eapply win_inv_later. Qed.

Lemma serve_report_inv c rc st q now :
  0 < BugReportLimiter.max_requests c → 0 ≤ BugReportLimiter.report_window c → now ≤ sb_now q →
  report_inv c now st → report_inv c (sb_now q) (serve_report rc st q).
Proof.
  intros Hmax Hdur Hle Hst. apply (report_inv_later _ _ (sb_now q)) in Hst; [|done].
  destruct st as [s log], q as [io ip header t unix unix2 payload file_id]. cbn in *.
  unfold serve_report, submit_bug_report, mbind_ at 1. cbn.
  destruct (Prepare rc io ip header t unix unix2 payload s) as [[[v user]|e] s1] eqn:Hp;
    apply prepare_spec in Hp as [Hask Hok]; pose proof (asked_inv c ip t s s1 log Hask Hst) as Hs1; [|done].
  destruct (Hok v user eq_refl) as [_ _ _ _ _ _ Hip _].
  destruct (deliver base64_encode rc ip t file_id (v, user) s1) as [r s2] eqn:Hd.
  eapply deliver_inv in Hd; [|done|by apply (retry_none c ip t s)|done]. by destruct r.
Qed.

Lemma later_times (q : Submission) qs :
  StronglySorted Z.le (sb_now <$> q :: qs) →
  StronglySorted Z.le (sb_now <$> qs) ∧ Forall (λ x, sb_now q ≤ sb_now x) qs.
Proof. rewrite fmap_cons. intros [? Hq]%StronglySorted_inv. split; [done|]. rewrite Forall_fmap in Hq. done. Qed.

(** Submissions that do not overlap respect the limit: of those from one address no
    more than the configured number are accepted in any window of the configured
    length, whatever the others send. *)
Theorem reports_limited rc c (qs : list Submission) (s : St) T ip :
  0 < BugReportLimiter.max_requests c → 0 ≤ BugReportLimiter.report_window c →
  rp_limiter s = BugReportLimiter.new c → Sorted Z.le (sb_now <$> qs) →
  len (in_window (BugReportLimiter.report_window c) T ip (foldl (serve_report rc) (s, []) qs).2) ≤ BugReportLimiter.max_requests c.
Proof.
  intros Hmax Hdur Hs Hsorted.
  assert (Hfresh : ∀ t, report_inv c t (s, [])).
  { intros t. split; cbn; rewrite ?Hs; [done| |intros; cbn; lia].
    split; [constructor|intros x Hx; by apply not_elem_of_nil in Hx|done|]. intros k. by exists []. }
  assert (Hrun : ∀ st t, Forall (λ q, t ≤ sb_now q) qs → report_inv c t st →
    ∃ t', report_inv c t' (foldl (serve_report rc) st qs)).
  { apply Sorted_StronglySorted in Hsorted; [|intros x y z; lia].
    clear Hfresh Hs. induction qs as [|q qs IH]; intros st t Hle Hst; [by exists t|]. cbn.
    apply later_times in Hsorted as [Hsorted Hq]. apply Forall_cons in Hle as [Hle _].
    apply (IH Hsorted _ (sb_now q)); [done|]. by eapply serve_report_inv. }
  destruct qs as [|q qs]; [cbn; lia|]. destruct (Hrun (s, []) (sb_now q)) as (t' & Ht'); [|done|apply Ht'].
  apply Sorted_StronglySorted in Hsorted; [|intros x y z; lia]. apply later_times in Hsorted as [_ Hq].
  by constructor.
Qed.

(** ** Analysis *)

(** A call of the model that fails is not counted: the address may try again at
    once, and for ever, although every attempt reached the model. *)
Theorem failed_analysis_not_counted ip now payload (s : St) e w :
  (BugReportLimiter.seconds_until_retry_ip ip now (rp_llm_limiter s)).1 = None →
  10 ≤ str_len (ar_description payload) ≤ MAX_BODY_LEN →
  analyze (ar_description payload) (ar_context payload) (ar_previous_answers payload) (rp_world s) = (Err e, w) →
  let '(r, s') := analyze_bug_report ip now payload s in
  r = Err (map_llm_error e) ∧ rp_world s' = w ∧
  (BugReportLimiter.seconds_until_retry_ip ip now (rp_llm_limiter s')).1 = None.
Proof.
  intros Hretry Hlen Ha. unfold analyze_bug_report, mbind_ at 1, limit_llm.
  destruct (BugReportLimiter.seconds_until_retry_ip _ _ _) as [o l] eqn:Hl. cbn in Hretry. subst o.
  rewrite (proj2 (Z.ltb_ge _ _)), (proj2 (Z.ltb_ge _ _)) by lia. unfold mbind_, on_world. cbn. rewrite Ha. cbn.
  split_and!; [done..|].
  unfold BugReportLimiter.seconds_until_retry_ip, BugReportLimiter.on_ip_windows, retry_key in *. cbn in *.
  injection Hl as Hn <-. cbn. by rewrite entry_insert, decide_True.
Qed.
End rules.

(** The generated title: cutting the description panics exactly when the model gave
    no title and the 80th byte falls inside a character. *)
Theorem issue_title_panics description parsed :
  read_issue_body description parsed = None ↔
  nonempty_str (json_get "title" parsed) = None ∧
  is_char_boundary description (Nat.min (String.length description) 80) = false.
Proof.
  unfold read_issue_body, slice_to. destruct (nonempty_str (json_get "title" parsed)); cbn; [naive_solver|].
  destruct (is_char_boundary _ _); cbn; naive_solver.
Qed.

Lemma get_length_None (s : string) : String.get (String.length s) s = None.
Proof. induction s as [|c s IH]; [done|exact IH]. Qed.

(** Short descriptions are safe. *)
Lemma short_title_safe description parsed :
  (String.length description ≤ 80)%nat → is_Some (read_issue_body description parsed).
Proof.
  intros Hlen. apply not_eq_None_Some. rewrite issue_title_panics. intros [_ Hb].
  rewrite Nat.min_l in Hb by done. unfold is_char_boundary in Hb. by rewrite get_length_None, Nat.eqb_refl in Hb.
Qed.

(** The summary of a candidate names its type and nothing else. *)
Theorem ice_summary_reveals_type candidate :
  redact_ice_summary candidate ∈
    ["ice(type=host)"; "ice(type=srflx)"; "ice(type=relay)"; "ice(type=prflx)"; "ice(type=unknown)"]%string.
Proof.
  unfold redact_ice_summary, contains. destruct (after_first _ _) as [rest|]; [|set_solver].
  case_bool_decide as Hin; [|set_solver].
  rewrite !elem_of_cons, elem_of_nil in Hin. destruct Hin as [->|[->|[->|[->|[]]]]]; cbn; set_solver.
Qed.

(** ** The mock of GitHub (bug_report.rs) *)

(** [MockGitHubCall]. *)
Inductive MockGitHubCall : Type :=
| UploadContents (repo path content_base64 message : string)
| CreateIssue (repo title body : string) (labels : list string).

(** [MockGitHubClient] with its [MockGitHubConfig], and a model that answers what it
    is told to. *)
Record MockGitHub : Type := mkMockGitHub {
  mg_calls : list MockGitHubCall;
  mg_upload_result : Result string BugReportError;
  mg_issue_result : Result string BugReportError;
  mg_analysis : Result LlmAnalysis LlmError
}.
Definition mock_github : MockGitHub :=
  mkMockGitHub [] (Ok "https://github.com/test/repo/blob/main/bug-reports/test.png?raw=1")
    (Ok "https://github.com/test/repo/issues/1") (Err LlmParseError).
Definition record_call (c : MockGitHubCall) (w : MockGitHub) : MockGitHub :=
  mkMockGitHub (mg_calls w ++ [c]) (mg_upload_result w) (mg_issue_result w) (mg_analysis w).

#[export] Instance MockGitHubClient : GitHubClient MockGitHub := {
  upload_contents repo path content message := λ w,
    (match mg_upload_result w with Ok url => Ok url | Err _ => Err ScreenshotUploadFailed end,
     record_call (UploadContents repo path content message) w);
  create_issue repo title body labels := λ w,
    (match mg_issue_result w with Ok url => Ok url | Err _ => Err IssueCreationFailed end,
     record_call (CreateIssue repo title body labels) w)
}.
#[export] Instance ScriptedLlm : LlmClient MockGitHub := {
  analyze _ _ _ := λ w, (mg_analysis w, w);
  generate_issue_body _ _ _ _ := λ w, (Err NotConfigured, w)
}.

Module ReportDemo.
(** A value is text when its bytes are visible. *)
Definition visible (c : Ascii.ascii) : bool := let n := Ascii.nat_of_ascii c in (32 <=? n)%nat && (n <? 127)%nat.
#[local] Instance visible_text : HeaderText := { to_str s := if forallb visible (String.list_ascii_of_string s) then Some s else None }.
Import PlainJwt AccountDemo.

(** Stand-ins: base64 is the identity, and the accounts are those of [AccountDemo]. *)
Definition reports : ReportConfig := mkReportConfig demo_secret None "org/repo" (Some "admin"%string).
Definition one_an_hour : BugReportLimiter.BugReportRateLimiterConfig :=
  BugReportLimiter.mkBugReportRateLimiterConfig 1 (from_secs 3600).
Definition start : ReportState (Uuid:=N) (IpAddr:=N) (W:=MockGitHub) :=
  mkReportState ann ∅ (BugReportLimiter.new one_an_hour) (BugReportLimiter.new one_an_hour) mock_github.
Definition ann_header : string :=
  match (register_ann invited).1 with Ok r => "Bearer " +:+ reg_access_token r | Err _ => EmptyString end.
Definition screenshot : string := PNG_MAGIC +:+ "...".
Definition payload : BugReportRequest := mkBugReportRequest "no sound" "nobody hears me" "audio" (Some screenshot).

Definition ask (header : option string) (io : Io) (now : Instant) :=
  prepare (W:=MockGitHub) Some reports io 7%N header now 10 10 payload.
Definition hand_over (now : Instant) := deliver (W:=MockGitHub) (IpAddr:=N) id reports 7%N now 40%N.
Definition submit (header : option string) (io : Io) (now : Instant) :=
  submit_bug_report (W:=MockGitHub) id Some reports io 7%N header now 10 10 payload 40%N.

Definition status {A} (r : Result (Z * A) DiagnosticsErrorResponse) : Z :=
  match r with Ok a => a.1 | Err e => de_status e end.
Definition issues (s : ReportState (Uuid:=N) (IpAddr:=N) (W:=MockGitHub)) : nat :=
  length (List.filter (λ c, match c with CreateIssue _ _ _ _ => true | _ => false end) (mg_calls (rp_world s))).

(** The second of two reports is refused, the third after an hour is not. *)
Example one_report_an_hour :
  let '(r1, s1) := submit (Some ann_header) no_failure 0 start in
  let '(r2, s2) := submit None no_failure 1 s1 in
  let '(r3, s3) := submit None no_failure (from_secs 3601) s2 in
  (status r1, status r2, status r3, issues s3) = (201, 429, 201, 2%nat).
Proof. vm_compute. done. Qed.

(** Two reports that overlap both pass a limit of one. *)
Example overlapping_reports_pass :
  let '(p1, s1) := ask None no_failure 0 start in
  let '(p2, s2) := ask None no_failure 0 s1 in
  match p1, p2 with
  | Ok p1, Ok p2 => let '(r1, s3) := hand_over 0 p1 s2 in
                    let '(r2, s4) := hand_over 0 p2 s3 in
                    (status r1, status r2, issues s4) = (201, 201, 2%nat)
  | _, _ => False
  end.
Proof. vm_compute. done. Qed.

(** A banned user is refused, unless the query of the bans fails, or the user sends
    no token. *)
Definition ban_ann := ban_user (W:=MockGitHub) (IpAddr:=N) reports no_failure (Some "Bearer admin") 0 5%N None.
Definition bans_unreadable : Io := λ k, if (k =? 2)%nat then Some (mkFailure "timeout" false) else None.
Example ban_fails_open :
  let s := (ban_ann start).2 in
  status (submit (Some ann_header) no_failure 0 s).1 = 403 ∧
  status (submit (Some ann_header) bans_unreadable 0 s).1 = 201 ∧
  status (submit None no_failure 0 s).1 = 201.
Proof. vm_compute. done. Qed.

(** A banned user whose header is not text files the report anonymously. *)
Example unreadable_header_is_anonymous :
  let s := (ban_ann start).2 in
  status (submit (Some (ann_header +:+ utf8 [195; 169]%nat)) no_failure 0 s).1 = 201.
Proof. vm_compute. done. Qed.

(** When the issue cannot be created the screenshot has been uploaded, and nothing is
    counted. *)
Example failed_issue_leaves_screenshot :
  let s := mkReportState ann ∅ (BugReportLimiter.new one_an_hour) (BugReportLimiter.new one_an_hour)
             (mkMockGitHub [] (Ok "url"%string) (Err IssueCreationFailed) (Err LlmParseError)) in
  let '(r1, s1) := submit None no_failure 0 s in
  let '(r2, s2) := submit None no_failure 0 s1 in
  (status r1, status r2, length (mg_calls (rp_world s2))) = (502, 502, 4%nat).
Proof. vm_compute. done. Qed.

(** 79 letters and one of two bytes. *)
Example long_description_panics :
  read_issue_body (String.concat EmptyString (replicate 79 "a"%string) +:+ utf8 [195; 169]%nat) (JObject []) = None.
Proof. vm_compute. done. Qed.

Example fences :
  strip_markdown_fences ("```json" +:+ newline +:+ "{}" +:+ newline +:+ "```" +:+ newline) = "{}"%string ∧
  strip_markdown_fences " {} " = "{}"%string ∧ strip_markdown_fences "```{}```" = "{}"%string.
Proof. vm_compute. done. Qed.

Lemma github_sees_checked_reports_witness :
  rp_world (submit (Some ann_header) no_failure 0 start).2 ≠ rp_world start ∧
  (∃ bytes, Some screenshot = Some bytes ∧ is_png bytes = true) ∧
  ∃ u d, signed_in reports ann ann_header 10 10 u d ∧ (rp_bans start : gmap N BanRow) !! u = None.
Proof.
  assert (Hw : rp_world (submit (Some ann_header) no_failure 0 start).2 ≠ rp_world start)
    by (intros Heq; apply (f_equal mg_calls) in Heq; vm_compute in Heq; discriminate).
  split; [exact Hw|].
  destruct (github_sees_checked_reports id Some reports no_failure 7%N (Some ann_header) 0 10 10 payload 40%N start Hw)
    as (_ & _ & _ & _ & Hshot & _ & Huser).
  split; [exact (Hshot screenshot eq_refl)|].
  destruct (Huser ann_header ann_header eq_refl eq_refl) as (u & d & Hs & _ & Hb). exists u, d. split; [exact Hs|exact (Hb eq_refl)].
Defined.
End ReportDemo.
