(* ===== verification/JitterBuffer.v ===== *)
(** * The jitter buffer (clients/shared/src/audio_pipeline/jitter_buffer.rs,
    audio_pipeline_config.rs) and the bitrate controller (bitrate_controller.rs)

    [push], [pop] and [update_stats] of the adaptive jitter buffer over a map from
    sequence numbers to packets, with [u16] wrap-around, the deadlines in
    nanoseconds and the target delay in [f64].  An operation returns [None] where
    the source panics.  The controller turns network statistics into a bitrate.
    Clock reads are arguments. *)

From Stdlib Require Import Floats.SpecFloat.
From S2P Require Import Prelude Floats.
Local Open Scope Z_scope.

(** ** Configuration *)

Definition MIN_JITTER_DELAY_MS : spec_float := F64.of_Z 20.
Definition MAX_JITTER_DELAY_MS : spec_float := F64.of_Z 200.
Definition MAX_DELAY_SHRINK_PER_SEC_MS : spec_float := F64.of_Z 5.
Definition MIN_PREFETCH_MS : Z := 60.
Definition FRAME_DURATION : Duration := 20000000.
Definition MAX_PACKET_SIZE : Z := 1500.
Definition MAX_BUFFERED_PACKETS : Z := 500.

(** [u16] and [u64] arithmetic. *)
Definition wrapping_sub_u16 (x y : Z) : Z := (x - y) `mod` 65536.
Definition wrapping_add_u16 (x y : Z) : Z := (x + y) `mod` 65536.
Definition incr_u64 (x : Z) : Z := (x + 1) `mod` u64_modulus.

(** ** The buffer *)

(** [AdaptiveJitterBuffer]; [BTreeMap<u16, Vec<u8>>] is a finite map. *)
Record AdaptiveJitterBuffer : Type := mkJitter {
  jb_buffer : gmap Z string;
  jb_next_seq : option Z;
  jb_current_target_delay_ms : spec_float;
  jb_raw_target_delay_ms : spec_float;
  jb_last_delay_update : Instant;
  jb_initialized : bool;
  jb_playout_origin : option Instant;
  jb_first_seq : option Z;
  jb_in_prefetch : bool;
  jb_late_packets : Z;
  jb_plc_frames : Z;
  jb_not_ready_count : Z;
  jb_dropped_oversize : Z;
  jb_dropped_overcap : Z
}.

(** [JitterResult]. *)
Inductive JitterResult : Type :=
| Packet (data : string)
| Missing
| NotReady.

(** [JitterBufferStats]. *)
Record JitterBufferStats : Type := mkJitterStats {
  js_target_delay_ms : spec_float;
  js_current_buffered_ms : spec_float;
  js_late_packets : Z;
  js_plc_frames : Z;
  js_not_ready_count : Z
}.

(** Writes to one field. *)
Definition set_buffer (x : gmap Z string) (b : AdaptiveJitterBuffer) : AdaptiveJitterBuffer :=
  mkJitter x (jb_next_seq b) (jb_current_target_delay_ms b) (jb_raw_target_delay_ms b)
    (jb_last_delay_update b) (jb_initialized b) (jb_playout_origin b) (jb_first_seq b)
    (jb_in_prefetch b) (jb_late_packets b) (jb_plc_frames b) (jb_not_ready_count b)
    (jb_dropped_oversize b) (jb_dropped_overcap b).
Definition set_next_seq (x : option Z) (b : AdaptiveJitterBuffer) : AdaptiveJitterBuffer :=
  mkJitter (jb_buffer b) x (jb_current_target_delay_ms b) (jb_raw_target_delay_ms b)
    (jb_last_delay_update b) (jb_initialized b) (jb_playout_origin b) (jb_first_seq b)
    (jb_in_prefetch b) (jb_late_packets b) (jb_plc_frames b) (jb_not_ready_count b)
    (jb_dropped_oversize b) (jb_dropped_overcap b).
Definition set_in_prefetch (x : bool) (b : AdaptiveJitterBuffer) : AdaptiveJitterBuffer :=
  mkJitter (jb_buffer b) (jb_next_seq b) (jb_current_target_delay_ms b)
    (jb_raw_target_delay_ms b) (jb_last_delay_update b) (jb_initialized b)
    (jb_playout_origin b) (jb_first_seq b) x (jb_late_packets b) (jb_plc_frames b)
    (jb_not_ready_count b) (jb_dropped_oversize b) (jb_dropped_overcap b).
Definition set_late_packets (x : Z) (b : AdaptiveJitterBuffer) : AdaptiveJitterBuffer :=
  mkJitter (jb_buffer b) (jb_next_seq b) (jb_current_target_delay_ms b)
    (jb_raw_target_delay_ms b) (jb_last_delay_update b) (jb_initialized b)
    (jb_playout_origin b) (jb_first_seq b) (jb_in_prefetch b) x (jb_plc_frames b)
    (jb_not_ready_count b) (jb_dropped_oversize b) (jb_dropped_overcap b).
Definition set_plc_frames (x : Z) (b : AdaptiveJitterBuffer) : AdaptiveJitterBuffer :=
  mkJitter (jb_buffer b) (jb_next_seq b) (jb_current_target_delay_ms b)
    (jb_raw_target_delay_ms b) (jb_last_delay_update b) (jb_initialized b)
    (jb_playout_origin b) (jb_first_seq b) (jb_in_prefetch b) (jb_late_packets b) x
    (jb_not_ready_count b) (jb_dropped_oversize b) (jb_dropped_overcap b).
Definition set_not_ready_count (x : Z) (b : AdaptiveJitterBuffer) : AdaptiveJitterBuffer :=
  mkJitter (jb_buffer b) (jb_next_seq b) (jb_current_target_delay_ms b)
    (jb_raw_target_delay_ms b) (jb_last_delay_update b) (jb_initialized b)
    (jb_playout_origin b) (jb_first_seq b) (jb_in_prefetch b) (jb_late_packets b)
    (jb_plc_frames b) x (jb_dropped_oversize b) (jb_dropped_overcap b).
Definition set_dropped_oversize (x : Z) (b : AdaptiveJitterBuffer) : AdaptiveJitterBuffer :=
  mkJitter (jb_buffer b) (jb_next_seq b) (jb_current_target_delay_ms b)
    (jb_raw_target_delay_ms b) (jb_last_delay_update b) (jb_initialized b)
    (jb_playout_origin b) (jb_first_seq b) (jb_in_prefetch b) (jb_late_packets b)
    (jb_plc_frames b) (jb_not_ready_count b) x (jb_dropped_overcap b).
Definition set_dropped_overcap (x : Z) (b : AdaptiveJitterBuffer) : AdaptiveJitterBuffer :=
  mkJitter (jb_buffer b) (jb_next_seq b) (jb_current_target_delay_ms b)
    (jb_raw_target_delay_ms b) (jb_last_delay_update b) (jb_initialized b)
    (jb_playout_origin b) (jb_first_seq b) (jb_in_prefetch b) (jb_late_packets b)
    (jb_plc_frames b) (jb_not_ready_count b) (jb_dropped_oversize b) x.

(** [AdaptiveJitterBuffer::new]. *)
Definition jitter_new (now : Instant) : AdaptiveJitterBuffer :=
  mkJitter ∅ None MIN_JITTER_DELAY_MS MIN_JITTER_DELAY_MS now false None None false 0 0 0 0 0.

(** [compute_raw_target]. *)
Definition compute_raw_target (avg_jitter_ms jitter_stddev_ms : spec_float) : spec_float :=
  fclamp MIN_JITTER_DELAY_MS MAX_JITTER_DELAY_MS
    (F64.add avg_jitter_ms (F64.mul (F64.of_Z 2) jitter_stddev_ms)).

(** [apply_shrink_limit]. *)
Definition apply_shrink_limit (new_raw : spec_float) (now : Instant) (b : AdaptiveJitterBuffer) : spec_float :=
  if fge new_raw (jb_current_target_delay_ms b) then new_raw
  else
    let elapsed_secs := as_secs_f64 (duration_since now (jb_last_delay_update b)) in
    let max_shrink := F64.mul MAX_DELAY_SHRINK_PER_SEC_MS elapsed_secs in
    let floor := F64.sub (jb_current_target_delay_ms b) max_shrink in
    fmax new_raw floor.

(** [len], [is_empty], and the two drop counters' accessors. *)
Definition jitter_len (b : AdaptiveJitterBuffer) : Z := map_len (jb_buffer b).
Definition jitter_is_empty (b : AdaptiveJitterBuffer) : bool := bool_decide (jb_buffer b = ∅).

(** [Duration::from_secs_f64(ms / 1000.0)]. *)
Definition from_millis_f64 (ms : spec_float) : option Duration :=
  from_secs_f64 (F64.div ms (F64.of_Z 1000)).

(** The playout deadline of the frame at distance [dist] from the first. *)
Definition playout_deadline (origin : Instant) (dist : Z) (b : AdaptiveJitterBuffer) : option Instant :=
  d ← from_millis_f64 (jb_current_target_delay_ms b);
  Some (origin + FRAME_DURATION * dist + d).

(** [push]: what the first packet initialises, .. *)
Definition initialize (seq : Z) (now : Instant) (b : AdaptiveJitterBuffer) : AdaptiveJitterBuffer :=
  if jb_initialized b then b
  else mkJitter (jb_buffer b) (Some seq) (jb_current_target_delay_ms b) (jb_raw_target_delay_ms b)
         (jb_last_delay_update b) true (Some now) (Some seq) true (jb_late_packets b) (jb_plc_frames b)
         (jb_not_ready_count b) (jb_dropped_oversize b) (jb_dropped_overcap b).

(** .. a sequence number behind a reference point, .. *)
Definition is_behind (seq : Z) (reference : option Z) : bool :=
  match reference with
  | Some r => 0x7FFF <? wrapping_sub_u16 seq r
  | None => false
  end.

(** .. the count of late arrivals, .. *)
Definition count_late (seq : Z) (now : Instant) (b : AdaptiveJitterBuffer) : option AdaptiveJitterBuffer :=
  if jb_in_prefetch b then Some b
  else match jb_playout_origin b, jb_first_seq b with
       | Some origin, Some first =>
           deadline ← playout_deadline origin (wrapping_sub_u16 seq first) b;
           Some (if deadline <? now then set_late_packets (incr_u64 (jb_late_packets b)) b else b)
       | _, _ => Some b
       end.

(** .. and the method.  The source reads the clock once for the first packet and
    once for the late check. *)
Definition push (now1 now2 : Instant) (seq : Z) (data : string) (b : AdaptiveJitterBuffer)
    : option AdaptiveJitterBuffer :=
  if MAX_PACKET_SIZE <? Z.of_nat (String.length data) then
    Some (set_dropped_oversize (incr_u64 (jb_dropped_oversize b)) b)
  else
    let b := initialize seq now1 b in
    if is_behind seq (jb_first_seq b) then Some b
    else if is_behind seq (jb_next_seq b) then Some b
    else
      b ← count_late seq now2 b;
      if MAX_BUFFERED_PACKETS <=? map_len (jb_buffer b) then
        Some (set_dropped_overcap (incr_u64 (jb_dropped_overcap b)) b)
      else Some (set_buffer (<[seq := data]> (jb_buffer b)) b).

(** [keys().next()] and [keys().next_back()] of the ordered map. *)
Definition first_key (m : gmap Z string) : option Z :=
  foldr (λ k o, Some (match o with Some k' => Z.min k k' | None => k end)) None (map_to_list m).*1.
Definition last_key (m : gmap Z string) : option Z :=
  foldr (λ k o, Some (match o with Some k' => Z.max k k' | None => k end)) None (map_to_list m).*1.

(** [pop]: nothing to play yet, .. *)
Definition not_ready (b : AdaptiveJitterBuffer) : JitterResult * AdaptiveJitterBuffer :=
  (NotReady, set_not_ready_count (incr_u64 (jb_not_ready_count b)) b).

(** .. the frame at the playback position once its deadline has passed, .. *)
Definition play_next (next : Z) (b : AdaptiveJitterBuffer) : JitterResult * AdaptiveJitterBuffer :=
  match jb_buffer b !! next with
  | Some data =>
      (Packet data, set_next_seq (Some (wrapping_add_u16 next 1)) (set_buffer (delete next (jb_buffer b)) b))
  | None =>
      let gap := match first_key (jb_buffer b) with
                 | Some k => let diff := wrapping_sub_u16 k next in (0 <? diff) && (diff <=? 0x7FFF)
                 | None => false
                 end in
      if gap then
        (Missing, set_plc_frames (incr_u64 (jb_plc_frames b)) (set_next_seq (Some (wrapping_add_u16 next 1)) b))
      else not_ready b
  end.

(** .. the end of the prefetch phase: [None] while it lasts, .. *)
Definition leave_prefetch (now origin : Instant) (b : AdaptiveJitterBuffer)
    : option (option AdaptiveJitterBuffer) :=
  if jb_in_prefetch b then
    hold ← from_millis_f64 (fmax (jb_current_target_delay_ms b) (F64.of_Z MIN_PREFETCH_MS));
    Some (if now <? origin + hold then None else Some (set_in_prefetch false b))
  else Some (Some b).

(** .. and the method. *)
Definition pop (now : Instant) (b : AdaptiveJitterBuffer) : option (JitterResult * AdaptiveJitterBuffer) :=
  match jb_playout_origin b with
  | None => Some (not_ready b)
  | Some origin =>
      first ← jb_first_seq b;
      phase ← leave_prefetch now origin b;
      match phase with
      | None => Some (not_ready b)
      | Some b =>
          match jb_next_seq b with
          | None => Some (not_ready b)
          | Some next =>
              let seq_dist := wrapping_sub_u16 next first in
              if 0x7FFF <? seq_dist then Some (not_ready b)
              else
                deadline ← playout_deadline origin seq_dist b;
                Some (if now <? deadline then not_ready b else play_next next b)
          end
      end
  end.

(** [update_stats]. *)
Definition update_stats (now : Instant) (avg_jitter_ms jitter_stddev_ms : spec_float)
    (b : AdaptiveJitterBuffer) : AdaptiveJitterBuffer :=
  let raw := compute_raw_target avg_jitter_ms jitter_stddev_ms in
  mkJitter (jb_buffer b) (jb_next_seq b) (apply_shrink_limit raw now b) raw now (jb_initialized b)
    (jb_playout_origin b) (jb_first_seq b) (jb_in_prefetch b) (jb_late_packets b) (jb_plc_frames b)
    (jb_not_ready_count b) (jb_dropped_oversize b) (jb_dropped_overcap b).

(** [stats]. *)
Definition jitter_stats (b : AdaptiveJitterBuffer) : JitterBufferStats :=
  let buffered_ms :=
    match jb_next_seq b, last_key (jb_buffer b) with
    | Some next, Some highest =>
        let dist := wrapping_sub_u16 highest next in
        if dist <=? 0x7FFF then F64.mul (F64.of_Z dist) (F64.of_Z (FRAME_DURATION `div` 1000000))
        else F64.of_Z 0
    | _, _ => F64.of_Z 0
    end in
  mkJitterStats (jb_current_target_delay_ms b) buffered_ms (jb_late_packets b) (jb_plc_frames b)
    (jb_not_ready_count b).

(** ** Runs *)

(** What the receive loop, the playout loop and the network monitor do to the
    buffer, with the times they do it at. *)
Inductive JitterEvent : Type :=
| Push (now1 now2 : Instant) (seq : Z) (data : string)
| Pop (now : Instant)
| UpdateStats (now : Instant) (avg_jitter_ms jitter_stddev_ms : spec_float).

(** A frame handed to the decoder: a packet, or a gap to conceal. *)
Definition frame_of (r : JitterResult) : list (option string) :=
  match r with Packet d => [Some d] | Missing => [None] | NotReady => [] end.

Definition jitter_step (ev : JitterEvent) (b : AdaptiveJitterBuffer)
    : option (list (option string) * AdaptiveJitterBuffer) :=
  match ev with
  | Push now1 now2 seq data => b' ← push now1 now2 seq data b; Some ([], b')
  | Pop now => '(r, b') ← pop now b; Some (frame_of r, b')
  | UpdateStats now avg stddev => Some ([], update_stats now avg stddev b)
  end.

Fixpoint jitter_run (evs : list JitterEvent) (b : AdaptiveJitterBuffer)
    : option (list (option string) * AdaptiveJitterBuffer) :=
  match evs with
  | [] => Some ([], b)
  | ev :: evs =>
      '(out, b) ← jitter_step ev b;
      '(outs, b) ← jitter_run evs b;
      Some (out ++ outs, b)
  end.

(** ** The target delay *)

Definition delay_ok (x : spec_float) : Prop :=
  fin_range MIN_JITTER_DELAY_MS MAX_JITTER_DELAY_MS x ∧ valid_binary F64.prec F64.emax x = true.

Lemma nearest_bounds (n d a b : Z) :
  0 < d → (2 * a - 1) * d < 2 * n → 2 * n < (2 * b + 1) * d → a ≤ nearest n d ≤ b.
Proof.
  intros Hd Ha Hb. unfold nearest. pose proof (Z.div_mod n d ltac:(lia)). pose proof (Z.mod_pos_bound n d Hd).
  set (q := n / d) in *. set (r := n mod d) in *. clearbody q r.
  destruct (Z.compare_spec (2 * r) d); [destruct (Z.even q)|..]; nia.
Qed.

(** Evaluates the closed powers of two and products of literals. *)
Ltac literals :=
  repeat match goal with
  | |- context [2 ^ ?k] => is_ground k; let v := eval vm_compute in (2 ^ k) in change (2 ^ k) with v
  | |- context [Z.pos (?a * ?b)] => is_ground a; is_ground b;
      let v := eval vm_compute in (Z.pos (a * b)) in change (Z.pos (a * b)) with v
  | H : context [2 ^ ?k] |- _ => is_ground k; let v := eval vm_compute in (2 ^ k) in change (2 ^ k) with v in H
  end.

(** A delay in range, as a mantissa and an exponent. *)
Lemma delay_ok_parts (x : spec_float) :
  delay_ok x → ∃ m e, x = S754_finite false m e ∧ -48 ≤ e ≤ -45 ∧
    20 * 2 ^ 48 ≤ Z.pos m * 2 ^ (e + 48) ∧ Z.pos m * 2 ^ (e + 48) ≤ 200 * 2 ^ 48.
Proof.
  intros [[Hl Hh] Hv]. rewrite fle_key in Hl, Hh.
  change (float_key MIN_JITTER_DELAY_MS) with (1, -48, 5629499534213120) in Hl.
  change (float_key MAX_JITTER_DELAY_MS) with (1, -45, 7036874417766400) in Hh.
  destruct Hl as (_ & Hx & Hl), Hh as (_ & _ & Hh).
  destruct x as [[]|[]| |[] m e]; cbn in Hl, Hh, Hx; try lia.
  exists m, e. split; [done|]. assert (He : -48 ≤ e ≤ -45) by lia. split; [done|].
  cbn in Hv. apply andb_true_iff in Hv as [Hv%Z.eqb_eq _]. unfold fexp, emin, F64.prec, F64.emax in Hv.
  rewrite digits2_log2 in Hv. assert (Hlog : Z.log2 (Z.pos m) = 52) by lia.
  pose proof (Z.log2_spec (Z.pos m) ltac:(lia)) as Hm. rewrite Hlog in Hm.
  assert (e = -48 ∨ e = -47 ∨ e = -46 ∨ e = -45) as [->|[->|[->| ->]]] by lia; cbn in Hm |- *; lia.
Qed.

Lemma delay_duration (x : spec_float) :
  delay_ok x → ∃ d, from_millis_f64 x = Some d ∧ 20000000 ≤ d ≤ 200000000.
Proof.
  intros (m & e & -> & He & Hlo & Hhi)%delay_ok_parts. unfold from_millis_f64.
  change (F64.of_Z 1000) with (S754_finite false 8796093022208000 (-43)).
  assert (Hscale : ∀ k, 0 ≤ k → Z.pos m * 2 ^ (e - (-48 - k)) = Z.pos m * 2 ^ (e + 48) * 2 ^ k).
  { intros k Hk. replace (e - (-48 - k)) with (e + 48 + k) by lia. rewrite Z.pow_add_r by lia. lia. }
  set (v := Z.pos m * 2 ^ (e + 48)) in *.
  destruct (div_lower F64.prec F64.emax ltac:(done) m e 8796093022208000 (-43) 5764607523034234 (-58) (-101))
    as [Hinf|(m1 & e1 & Hr1 & He1 & Hm1)]; [done|lia|done|pose proof (Hscale 53 ltac:(done)) as Hs; change (-48 - 53) with (-101) in Hs; rewrite Hs; literals; lia| |].
  all: destruct (div_upper F64.prec F64.emax m e 8796093022208000 (-43) 7205759403792794 (-55) (-98))
    as [Hzero|(m2 & e2 & Hr2 & He2 & Hm2)]; [done|lia|done|pose proof (Hscale 50 ltac:(done)) as Hs; change (-48 - 50) with (-98) in Hs; rewrite Hs; literals; lia|congruence|].
  { congruence. }
  rewrite Hr1 in Hr2. injection Hr2 as <- <-. unfold F64.div. rewrite Hr1. cbn [from_secs_f64].
  rewrite (proj2 (Z.leb_gt _ _)) by lia.
  assert (e1 = -58 ∨ e1 = -57 ∨ e1 = -56 ∨ e1 = -55) as [->|[->|[->| ->]]] by lia.
  all: rewrite (proj2 (Z.ltb_lt _ _)) by (apply Z.div_lt_upper_bound; unfold u64_modulus; literals; lia).
  all: eexists; split; [done|]; apply nearest_bounds; unfold nanos_per_sec; literals; lia.
Qed.

Lemma raw_target_ok (avg stddev : spec_float) :
  valid_binary F64.prec F64.emax avg = true → valid_binary F64.prec F64.emax stddev = true →
  is_nan (F64.add avg (F64.mul (F64.of_Z 2) stddev)) = false →
  delay_ok (compute_raw_target avg stddev).
Proof.
  intros Ha Hs Hn. split; [by apply fclamp_range|]. unfold compute_raw_target, fclamp.
  destruct (fgt _ _); [done|]. destruct (flt _ _); [done|].
  apply add_valid; [done..|]. by apply mul_valid.
Qed.

Lemma as_secs_f64_nonneg (d : Duration) : 0 ≤ d → fnonneg (as_secs_f64 d) = true.
Proof.
  intros Hd. unfold as_secs_f64, F64.add, F64.div, as_secs, nanos_per_sec.
  change (F64.of_Z 1000000000) with (S754_finite false 8388608000000000 (-23)).
  apply add_nonneg; [|apply div_nonneg]; apply normalize_nonneg.
  - by apply Z.div_pos.
  - by apply Z.mod_pos_bound.
Qed.

Lemma shrink_limit_ok (raw : spec_float) (now : Instant) (b : AdaptiveJitterBuffer) :
  delay_ok raw → delay_ok (jb_current_target_delay_ms b) → delay_ok (apply_shrink_limit raw now b).
Proof.
  intros Hraw Hcur. unfold apply_shrink_limit. destruct (fge _ _); [done|].
  set (shrink := F64.mul _ _).
  assert (Hs : fnonneg shrink = true).
  { unfold shrink, F64.mul. change MAX_DELAY_SHRINK_PER_SEC_MS with (S754_finite false 5629499534213120 (-50)).
    apply mul_nonneg, as_secs_f64_nonneg. unfold duration_since, saturating_sub. lia. }
  destruct (delay_ok_parts _ Hcur) as (m & e & Hm & _). destruct Hcur as [[_ Hhi] Hv]. rewrite Hm in *.
  assert (Hle : fle (F64.sub (S754_finite false m e) shrink) (S754_finite false m e) = true)
    by (by apply sub_le).
  destruct (fle_not_nan _ _ Hle) as [Hnn _]. destruct Hraw as [Hr Hrv]. split.
  - apply fmax_range; [done..|]. by eapply fle_trans.
  - assert (valid_binary F64.prec F64.emax (F64.sub (S754_finite false m e) shrink) = true)
      by (by apply sub_valid).
    unfold fmax. by repeat case_match.
Qed.

(** ** The invariant *)

(** The distance of a sequence number from the first of the stream. *)
Definition position (first seq : Z) : Z := wrapping_sub_u16 seq first.

(** First, next and origin are set together; the playback position is at most half
    the sequence space from the first packet, and every buffered packet lies
    between the position and that half. *)
Definition window_ok (b : AdaptiveJitterBuffer) : Prop :=
  match jb_first_seq b, jb_next_seq b, jb_playout_origin b with
  | Some first, Some next, Some _ =>
      jb_initialized b = true ∧ 0 ≤ first < 65536 ∧ 0 ≤ next < 65536 ∧ position first next ≤ 32768 ∧
      ∀ k d, jb_buffer b !! k = Some d →
        0 ≤ k < 65536 ∧ position first next ≤ position first k ≤ 32767
  | None, None, None => jb_initialized b = false ∧ jb_buffer b = ∅
  | _, _, _ => False
  end.

Record jitter_ok (b : AdaptiveJitterBuffer) : Prop := {
  jo_size : map_len (jb_buffer b) ≤ MAX_BUFFERED_PACKETS;
  jo_data : ∀ k d, jb_buffer b !! k = Some d → Z.of_nat (String.length d) ≤ MAX_PACKET_SIZE;
  jo_delay : delay_ok (jb_current_target_delay_ms b);
  jo_window : window_ok b
}.

(** The numbers an event carries: [u16] sequence numbers, and statistics that are
    numbers. *)
Definition event_ok (ev : JitterEvent) : Prop :=
  match ev with
  | Push _ _ seq _ => 0 ≤ seq < 65536
  | Pop _ => True
  | UpdateStats _ avg stddev =>
      valid_binary F64.prec F64.emax avg = true ∧ valid_binary F64.prec F64.emax stddev = true ∧
      is_nan (F64.add avg (F64.mul (F64.of_Z 2) stddev)) = false
  end.

Lemma jitter_new_ok (now : Instant) : jitter_ok (jitter_new now).
Proof. split; [done|done| |done]. split; [split; vm_compute; done|done]. Qed.

Lemma deadline_exists (origin : Instant) (dist : Z) (b : AdaptiveJitterBuffer) :
  delay_ok (jb_current_target_delay_ms b) →
  ∃ t, playout_deadline origin dist b = Some t ∧
       origin + FRAME_DURATION * dist + 20000000 ≤ t ≤ origin + FRAME_DURATION * dist + 200000000.
Proof.
  intros (d & Hd & Hr)%delay_duration. unfold playout_deadline. rewrite Hd. eexists; split; [done|lia].
Qed.

Lemma first_key_elem (m : gmap Z string) (k : Z) : first_key m = Some k → ∃ d, m !! k = Some d.
Proof.
  unfold first_key. intros Hk. assert (Hin : k ∈ (map_to_list m).*1).
  { revert k Hk. induction (map_to_list m).*1 as [|x l IH]; intros k; cbn; [done|].
    destruct (foldr _ None l) as [k'|]; intros [= <-]; [|set_solver].
    destruct (Z.min_spec x k') as [[_ ->]|[_ ->]]; [set_solver|]. apply list_elem_of_further, IH. done. }
  apply list_elem_of_fmap in Hin as ([k' d] & -> & Hin%elem_of_map_to_list). by exists d.
Qed.

Lemma first_key_none (m : gmap Z string) : first_key m = None → m = ∅.
Proof. unfold first_key. intros Hk. destruct (map_to_list m) eqn:Hm; [by apply map_to_list_empty_iff|done]. Qed.

(** ** What each operation does to the stream *)

(** The first sequence number after a push: set by the first packet of legal size. *)
Definition start_after (seq : Z) (data : string) (first : option Z) : option Z :=
  match first with
  | Some f => Some f
  | None => if MAX_PACKET_SIZE <? Z.of_nat (String.length data) then None else Some seq
  end.

Definition pushed (seq : Z) (data : string) (b b' : AdaptiveJitterBuffer) : Prop :=
  jb_first_seq b' = start_after seq data (jb_first_seq b) ∧
  jb_next_seq b' = match jb_next_seq b with Some n => Some n | None => jb_first_seq b' end ∧
  (jb_buffer b' = jb_buffer b ∨ jb_buffer b' = <[seq := data]> (jb_buffer b)).

Definition popped (r : JitterResult) (b b' : AdaptiveJitterBuffer) : Prop :=
  jb_first_seq b' = jb_first_seq b ∧
  match r with
  | Packet d => ∃ n, jb_next_seq b = Some n ∧ jb_next_seq b' = Some (wrapping_add_u16 n 1) ∧
                     jb_buffer b !! n = Some d ∧ jb_buffer b' = delete n (jb_buffer b)
  | Missing => ∃ n, jb_next_seq b = Some n ∧ jb_next_seq b' = Some (wrapping_add_u16 n 1) ∧
                    jb_buffer b !! n = None ∧ jb_buffer b ≠ ∅ ∧ jb_buffer b' = jb_buffer b
  | NotReady => jb_next_seq b' = jb_next_seq b ∧ jb_buffer b' = jb_buffer b
  end.

(** Arithmetic of wrapped positions. *)
Ltac wrap := unfold position, wrapping_sub_u16, wrapping_add_u16 in *; Z.to_euclidean_division_equations; lia.

Lemma count_late_spec (seq : Z) (now : Instant) (b : AdaptiveJitterBuffer) :
  delay_ok (jb_current_target_delay_ms b) → ∃ l, count_late seq now b = Some (set_late_packets l b).
Proof.
  intros Hd. unfold count_late.
  assert (Hsame : Some b = Some (set_late_packets (jb_late_packets b) b)) by (by destruct b).
  destruct (jb_in_prefetch b); [by eexists|]. destruct (jb_playout_origin b) as [o|]; [|by eexists].
  destruct (jb_first_seq b) as [f|]; [|by eexists].
  destruct (deadline_exists o (wrapping_sub_u16 seq f) b Hd) as (t & Ht & _). rewrite Ht. cbn.
  destruct (t <? now); by eexists.
Qed.

Lemma initialize_ok (seq : Z) (now : Instant) (b : AdaptiveJitterBuffer) :
  0 ≤ seq < 65536 → jitter_ok b → jitter_ok (initialize seq now b).
Proof.
  intros Hseq [Hs Hd Ht Hw]. unfold initialize. destruct (jb_initialized b) eqn:Hi; [by split|].
  split; [done..|]. unfold window_ok in *. cbn. destruct (jb_first_seq b), (jb_next_seq b), (jb_playout_origin b);
    try done; [by destruct Hw; congruence|]. destruct Hw as [_ He].
  split_and!; [done|lia..|wrap|]. intros k d. by rewrite He, lookup_empty.
Qed.

Lemma initialize_start (seq : Z) (now : Instant) (b : AdaptiveJitterBuffer) :
  window_ok b →
  ∃ f n, jb_first_seq (initialize seq now b) = Some f ∧ jb_next_seq (initialize seq now b) = Some n ∧
    Some f = (match jb_first_seq b with Some f => Some f | None => Some seq end) ∧
    Some n = (match jb_next_seq b with Some n => Some n | None => Some f end) ∧
    jb_buffer (initialize seq now b) = jb_buffer b.
Proof.
  unfold window_ok, initialize. intros Hw. destruct (jb_first_seq b) as [f|] eqn:Hf, (jb_next_seq b) as [n|] eqn:Hn,
    (jb_playout_origin b); try done; destruct Hw as [-> _].
  - by exists f, n.
  - by exists seq, seq.
Qed.

Lemma window_insert (seq first next : Z) :
  0 ≤ seq < 65536 → 0 ≤ first < 65536 → 0 ≤ next < 65536 → position first next ≤ 32768 →
  is_behind seq (Some first) = false → is_behind seq (Some next) = false →
  position first next ≤ position first seq ≤ 32767.
Proof.
  unfold is_behind. intros ? ? ? ? Hf%Z.ltb_ge Hn%Z.ltb_ge. wrap.
Qed.

Lemma push_ok (now1 now2 : Instant) (seq : Z) (data : string) (b : AdaptiveJitterBuffer) :
  0 ≤ seq < 65536 → jitter_ok b →
  ∃ b', push now1 now2 seq data b = Some b' ∧ jitter_ok b' ∧ pushed seq data b b'.
Proof.
  intros Hseq Hb. unfold push, pushed, start_after.
  destruct (MAX_PACKET_SIZE <? Z.of_nat (String.length data)) eqn:Hbig.
  { eexists; split; [done|]. split; [by destruct Hb; split|]. pose proof (jo_window b Hb) as Hw. unfold window_ok in Hw.
    cbn. split_and!; [by destruct (jb_first_seq b)| |by left].
    by destruct (jb_first_seq b), (jb_next_seq b), (jb_playout_origin b). }
  apply Z.ltb_ge in Hbig. pose proof (initialize_ok seq now1 b Hseq Hb) as Hb1.
  destruct (initialize_start seq now1 b (jo_window b Hb)) as (f & n & Hf & Hn & Hfb & Hnb & Hbuf).
  set (b1 := initialize seq now1 b) in *. rewrite Hf, Hn, <-Hfb.
  assert (Hrest : ∀ b', jb_first_seq b' = Some f → jb_next_seq b' = Some n →
    jb_first_seq b' = Some f ∧ jb_next_seq b' = match jb_next_seq b with Some n => Some n | None => jb_first_seq b' end)
    by (intros b' -> ->; auto).
  destruct (is_behind seq (Some f)) eqn:Hbf; [|destruct (is_behind seq (Some n)) eqn:Hbn].
  1,2: by exists b1; destruct (Hrest b1 Hf Hn); auto 6.
  destruct (count_late_spec seq now2 b1 (jo_delay _ Hb1)) as (l & Hl). rewrite Hl. cbn.
  assert (Hlate : jitter_ok (set_late_packets l b1)) by (by destruct Hb1; split).
  destruct (MAX_BUFFERED_PACKETS <=? map_len (jb_buffer b1)) eqn:Hcap.
  { eexists; split; [done|]. split; [by destruct Hlate; split|].
    destruct (Hrest (set_dropped_overcap (incr_u64 (jb_dropped_overcap b1)) (set_late_packets l b1)) Hf Hn). auto. }
  apply Z.leb_gt in Hcap. eexists; split; [done|]. split.
  - destruct Hlate as [Hs Hd Ht Hw]. cbn in *. split; [..|done|].
    + cbn. unfold MAX_BUFFERED_PACKETS in *. rewrite map_size_insert. destruct (jb_buffer b1 !! seq); cbn; lia.
    + cbn. intros k d. rewrite lookup_insert_Some. intros [[<- <-]|[_ ?]]; [done|by eapply Hd].
    + unfold window_ok in *. cbn in *. rewrite Hf, Hn in *. destruct (jb_playout_origin b1); [|done].
      destruct Hw as (Hi & Hf' & Hn' & Hp & Hk). refine (conj Hi (conj Hf' (conj Hn' (conj Hp _)))).
      intros k d. rewrite lookup_insert_Some. intros [[<- <-]|[_ Hkd]]; [|by eapply Hk].
      split; [done|]. by apply window_insert.
  - destruct (Hrest (set_buffer (<[seq:=data]> (jb_buffer b1)) (set_late_packets l b1)) Hf Hn).
    cbn. rewrite <-Hbuf. auto.
Qed.

Lemma not_ready_ok (b : AdaptiveJitterBuffer) :
  jitter_ok b → jitter_ok (not_ready b).2 ∧ popped (not_ready b).1 b (not_ready b).2.
Proof. intros []. split; [by split|by repeat split]. Qed.

Lemma play_next_ok (first next : Z) (o : Instant) (b : AdaptiveJitterBuffer) :
  jb_first_seq b = Some first → jb_next_seq b = Some next → jb_playout_origin b = Some o →
  position first next ≤ 32767 → jitter_ok b →
  let '(r, b') := play_next next b in jitter_ok b' ∧ popped r b b'.
Proof.
  intros Hf Hn Ho Hp Hb. pose proof (jo_window b Hb) as Hw. unfold window_ok in Hw. rewrite Hf, Hn, Ho in Hw.
  destruct Hw as (Hi & Hf' & Hn' & _ & Hk).
  assert (Hstep : ∀ b', jb_first_seq b' = Some first → jb_next_seq b' = Some (wrapping_add_u16 next 1) →
    jb_playout_origin b' = Some o → jb_initialized b' = true → jb_buffer b' = delete next (jb_buffer b) → window_ok b').
  { intros b' Hf1 Hn1 Ho1 Hi1 Hb1. unfold window_ok. rewrite Hf1, Hn1, Ho1, Hi1, Hb1.
    split_and!; [done|lia..|wrap|wrap|wrap|]. intros k d [Hne Hkd]%lookup_delete_Some.
    destruct (Hk k d Hkd) as [? ?]. split; [done|]. wrap. }
  destruct Hb as [Hs Hd Ht _]. unfold play_next. destruct (jb_buffer b !! next) as [d|] eqn:Hnext.
  - split; [|split; [done|by exists next]]. split; cbn; [| |done|by apply Hstep].
    + rewrite map_size_delete, Hnext. cbn. lia.
    + intros k d' [_ ?]%lookup_delete_Some. by eapply Hd.
  - destruct (match first_key _ with Some _ => _ | None => _ end) eqn:Hgap.
    + split; [split; [done..|]; apply Hstep; cbn; [done..|by rewrite delete_id]|]. split; [done|]. exists next.
      split_and!; try done. intros He. rewrite He in Hgap. done.
    + apply not_ready_ok. split; [done..|]. unfold window_ok. rewrite Hf, Hn, Ho. split_and!; [done|lia..|done].
Qed.

(** Half the sequence space has been played: nothing can follow. *)
Definition exhausted (b : AdaptiveJitterBuffer) : Prop :=
  ∃ first next, jb_first_seq b = Some first ∧ jb_next_seq b = Some next ∧ position first next = 32768.

Lemma prefetch_delay (b : AdaptiveJitterBuffer) :
  jitter_ok b → ∃ d, from_millis_f64 (fmax (jb_current_target_delay_ms b) (F64.of_Z MIN_PREFETCH_MS)) = Some d ∧
    20000000 ≤ d ≤ 200000000.
Proof.
  intros Hb. apply delay_duration. destruct (jo_delay b Hb) as [Hr Hv]. split; [by apply fmax_range|].
  destruct (delay_ok_parts _ (jo_delay b Hb)) as (m & e & -> & _) in Hv |- *.
  change (F64.of_Z MIN_PREFETCH_MS) with (S754_finite false 8444249301319680 (-47)).
  unfold fmax. by destruct (SFltb _ _).
Qed.

Lemma leave_prefetch_ok (now origin : Instant) (b : AdaptiveJitterBuffer) :
  jitter_ok b → ∃ phase, leave_prefetch now origin b = Some phase ∧
    ∀ b', phase = Some b' → jitter_ok b' ∧ jb_first_seq b' = jb_first_seq b ∧ jb_next_seq b' = jb_next_seq b ∧
      jb_buffer b' = jb_buffer b ∧ jb_playout_origin b' = jb_playout_origin b.
Proof.
  intros Hb. unfold leave_prefetch. destruct (jb_in_prefetch b); [|by eexists; split; [done|]; intros b' [= <-]].
  destruct (prefetch_delay b Hb) as (d & -> & _). cbn. eexists; split; [done|].
  intros b'. destruct (now <? origin + d); [done|]. intros [= <-]. split_and!; try done. by destruct Hb; split.
Qed.

Lemma pop_ok (now : Instant) (b : AdaptiveJitterBuffer) :
  jitter_ok b → ∃ r b', pop now b = Some (r, b') ∧ jitter_ok b' ∧ popped r b b' ∧
    (exhausted b → r = NotReady).
Proof.
  intros Hb. unfold pop. pose proof (jo_window b Hb) as Hw. unfold window_ok in Hw.
  assert (Hnr : ∃ r b', Some (not_ready b) = Some (r, b') ∧ jitter_ok b' ∧ popped r b b' ∧ (exhausted b → r = NotReady)).
  { destruct (not_ready_ok b Hb). eexists _, _. by split_and!. }
  destruct (jb_first_seq b) as [f|] eqn:Hf, (jb_next_seq b) as [n|] eqn:Hn, (jb_playout_origin b) as [o|] eqn:Ho; try done.
  destruct Hw as (_ & _ & _ & Hp & _). cbn [mbind option_bind].
  destruct (leave_prefetch_ok now o b Hb) as (phase & -> & Hphase). cbn.
  destruct phase as [b1|]; [|done]. destruct (Hphase b1 eq_refl) as (Hb1 & Hf1 & Hn1 & Hbuf & Ho1).
  rewrite Hf in Hf1. rewrite Hn in Hn1. rewrite Ho in Ho1. rewrite Hn1.
  assert (Hpop : ∀ r b', popped r b1 b' → popped r b b')
    by (unfold popped; intros r b' Hr; rewrite Hf, Hn, <-Hbuf, <-Hf1, <-Hn1; exact Hr).
  assert (Hnr1 : jitter_ok (not_ready b1).2 ∧ popped (not_ready b1).1 b (not_ready b1).2)
    by (destruct (not_ready_ok b1 Hb1); auto).
  destruct (0x7FFF <? wrapping_sub_u16 n f) eqn:Hdist.
  { eexists _, _. split; [done|]. destruct Hnr1. by split_and!. }
  destruct (deadline_exists o (wrapping_sub_u16 n f) b1 (jo_delay _ Hb1)) as (t & -> & _). cbn.
  apply Z.ltb_ge in Hdist.
  destruct (now <? t); [eexists _, _; split; [done|]; destruct Hnr1; by split_and!|].
  pose proof (play_next_ok f n o b1 Hf1 Hn1 Ho1 Hdist Hb1) as Hplay.
  destruct (play_next n b1) as [r b']. destruct Hplay as [? ?]. exists r, b'. split_and!; auto.
  intros (f' & n' & Hf' & Hn' & Hx). unfold position in *. congruence || (simplify_eq; lia).
Qed.

Lemma update_stats_ok (now : Instant) (avg stddev : spec_float) (b : AdaptiveJitterBuffer) :
  event_ok (UpdateStats now avg stddev) → jitter_ok b → jitter_ok (update_stats now avg stddev b).
Proof.
  intros (Ha & Hs & Hn) Hb. pose proof (raw_target_ok avg stddev Ha Hs Hn) as Hr.
  pose proof (shrink_limit_ok _ now b Hr (jo_delay b Hb)). by destruct Hb; split.
Qed.

(** ** Runs keep the invariant *)

Definition stepped (ev : JitterEvent) (out : list (option string)) (b b' : AdaptiveJitterBuffer) : Prop :=
  match ev with
  | Push _ _ seq data => out = [] ∧ pushed seq data b b'
  | Pop _ => ∃ r, out = frame_of r ∧ popped r b b' ∧ (exhausted b → r = NotReady)
  | UpdateStats _ _ _ =>
      out = [] ∧ jb_first_seq b' = jb_first_seq b ∧ jb_next_seq b' = jb_next_seq b ∧ jb_buffer b' = jb_buffer b
  end.

Lemma step_ok (ev : JitterEvent) (b : AdaptiveJitterBuffer) :
  event_ok ev → jitter_ok b →
  ∃ out b', jitter_step ev b = Some (out, b') ∧ jitter_ok b' ∧ stepped ev out b b'.
Proof.
  destruct ev as [t1 t2 seq data|now|now avg stddev]; intros Hev Hb; cbn [jitter_step].
  - destruct (push_ok t1 t2 seq data b Hev Hb) as (b' & -> & Hb' & Hp). by exists [], b'.
  - destruct (pop_ok now b Hb) as (r & b' & -> & Hb' & Hp & Hx). exists (frame_of r), b'.
    split_and!; [done..|]. by exists r.
  - exists [], (update_stats now avg stddev b). split_and!; [done|by apply update_stats_ok|done].
Qed.

Lemma run_ok (evs : list JitterEvent) (b : AdaptiveJitterBuffer) :
  Forall event_ok evs → jitter_ok b → ∃ outs b', jitter_run evs b = Some (outs, b') ∧ jitter_ok b'.
Proof.
  intros Hevs. revert b. induction Hevs as [|ev evs Hev _ IH]; intros b Hb; cbn [jitter_run]; [by exists [], b|].
  destruct (step_ok ev b Hev Hb) as (out & b1 & -> & Hb1 & _). cbn.
  destruct (IH b1 Hb1) as (outs & b2 & -> & Hb2). by exists (out ++ outs), b2.
Qed.

(** C21: Whatever packets arrive, in whatever order and at whatever times, and
    however often the buffer is asked for the next frame, no operation panics, at
    most 500 packets of at most 1500 bytes are held, and the playout delay stays
    between 20 and 200 milliseconds, as long as the jitter statistics are numbers. *)
Theorem jitter_buffer_sound (now : Instant) (evs : list JitterEvent) :
  Forall event_ok evs →
  ∃ outs b, jitter_run evs (jitter_new now) = Some (outs, b) ∧
    map_len (jb_buffer b) ≤ MAX_BUFFERED_PACKETS ∧
    (∀ k d, jb_buffer b !! k = Some d → Z.of_nat (String.length d) ≤ MAX_PACKET_SIZE) ∧
    ∃ delay, from_millis_f64 (jb_current_target_delay_ms b) = Some delay ∧ 20000000 ≤ delay ≤ 200000000.
Proof.
  intros Hevs. destruct (run_ok evs (jitter_new now) Hevs (jitter_new_ok now)) as (outs & b & Hrun & [Hs Hd Ht _]).
  exists outs, b. auto using delay_duration.
Qed.

(** ** Order *)

(** The first sequence number of the stream an event list carries. *)
Definition stream_start (evs : list JitterEvent) : option Z :=
  foldl (λ o ev, match ev with Push _ _ seq data => start_after seq data o | _ => o end) None evs.

(** What has been played is, position by position, data that was pushed for it. *)
Record history (evs : list JitterEvent) (outs : list (option string)) (b : AdaptiveJitterBuffer) : Prop := {
  hi_ok : jitter_ok b;
  hi_first : jb_first_seq b = stream_start evs;
  hi_length : match jb_first_seq b, jb_next_seq b with
              | Some f, Some n => position f n = len outs
              | _, _ => outs = []
              end;
  hi_buffer : ∀ k d, jb_buffer b !! k = Some d → ∃ t1 t2, Push t1 t2 k d ∈ evs;
  hi_outs : ∀ f i d, jb_first_seq b = Some f → outs !! i = Some (Some d) →
              ∃ t1 t2, Push t1 t2 (wrapping_add_u16 f (Z.of_nat i)) d ∈ evs
}.

Lemma history_push (t1 t2 seq : Z) (data : string) evs outs b b' :
  history evs outs b → jitter_ok b' → pushed seq data b b' → history (evs ++ [Push t1 t2 seq data]) outs b'.
Proof.
  intros [Hok Hf Hl Hbuf Ho] Hb' (Hf' & Hn' & Hbuf'). pose proof (jo_window b Hok) as Hw. unfold window_ok in Hw.
  split; [done| | | |].
  - unfold stream_start. rewrite foldl_app. cbn. fold (stream_start evs). by rewrite <-Hf.
  - rewrite Hn'. destruct (jb_first_seq b) as [f|], (jb_next_seq b) as [n|], (jb_playout_origin b); try done.
    + cbn in Hf'. by rewrite Hf'.
    + destruct (jb_first_seq b'); [|done]. rewrite Hl. cbn. wrap.
  - intros k d Hk. assert (Hin : (k = seq ∧ d = data) ∨ jb_buffer b !! k = Some d).
    { destruct Hbuf' as [Heq|Heq]; rewrite Heq in Hk; [by right|]. apply lookup_insert_Some in Hk. naive_solver. }
    destruct Hin as [[-> ->]|Hin]; [exists t1, t2; set_solver|].
    destruct (Hbuf k d Hin) as (u1 & u2 & Hu). exists u1, u2. set_solver.
  - intros f i d Hff Hi. destruct (jb_first_seq b) as [f0|] eqn:Hf0.
    + cbn in Hf'. assert (f0 = f) as -> by congruence. destruct (Ho f i d eq_refl Hi) as (u1 & u2 & Hu).
      exists u1, u2. set_solver.
    + rewrite Hl in Hi. done.
Qed.

Lemma history_more (ev : JitterEvent) evs outs b b' :
  (match ev with Push _ _ _ _ => False | _ => True end) →
  history evs outs b → jitter_ok b' → jb_first_seq b' = jb_first_seq b → jb_next_seq b' = jb_next_seq b →
  jb_buffer b' = jb_buffer b → history (evs ++ [ev]) outs b'.
Proof.
  intros Hev [Hok Hf Hl Hbuf Ho] Hb' Hf' Hn' Hbuf'. split; rewrite ?Hf', ?Hn', ?Hbuf'; [done| |done|..].
  - unfold stream_start. rewrite foldl_app. cbn. fold (stream_start evs). by destruct ev.
  - intros k d Hk. destruct (Hbuf k d Hk) as (u1 & u2 & Hu). exists u1, u2. set_solver.
  - intros f i d Hff Hi. destruct (Ho f i d Hff Hi) as (u1 & u2 & Hu). exists u1, u2. set_solver.
Qed.

Lemma history_frame (t : Instant) evs outs b b' (o : option string) (n : Z) :
  history evs outs b → jitter_ok b' → jb_first_seq b' = jb_first_seq b → ¬ exhausted b →
  jb_next_seq b = Some n → jb_next_seq b' = Some (wrapping_add_u16 n 1) →
  jb_buffer b' ⊆ jb_buffer b → (∀ d, o = Some d → jb_buffer b !! n = Some d) →
  history (evs ++ [Pop t]) (outs ++ [o]) b'.
Proof.
  intros [Hok Hf Hl Hbuf Ho] Hb' Hf' Hx Hn Hn' Hsub Hd. pose proof (jo_window b Hok) as Hw. unfold window_ok in Hw.
  rewrite Hn in Hl, Hw. destruct (jb_first_seq b) as [f|] eqn:Hfb; [|done]. destruct (jb_playout_origin b); [|done].
  destruct Hw as (_ & ? & ? & ? & _).
  assert (Hlt : position f n < 32768) by (destruct (decide (position f n = 32768)); [by exfalso; apply Hx; exists f, n|lia]).
  assert (Hmore : ∀ k d, jb_buffer b !! k = Some d → ∃ t1 t2, Push t1 t2 k d ∈ evs ++ [Pop t]).
  { intros k d Hk. destruct (Hbuf k d Hk) as (u1 & u2 & Hu). exists u1, u2. set_solver. }
  split; rewrite ?Hf', ?Hn'; [done| | |..].
  - unfold stream_start. rewrite foldl_app. cbn. by fold (stream_start evs).
  - rewrite length_app. cbn. wrap.
  - intros k d Hk. apply Hmore. by eapply lookup_weaken.
  - intros f' i d [= <-] [Hi|[Hi Hlast]]%lookup_app_Some.
    + destruct (Ho f i d eq_refl Hi) as (u1 & u2 & Hu). exists u1, u2. set_solver.
    + apply list_lookup_singleton_Some in Hlast as [Hi0 Heq].
      replace (wrapping_add_u16 f (Z.of_nat i)) with n by wrap. apply Hmore, Hd. congruence.
Qed.

Lemma history_step (ev : JitterEvent) evs outs b out b' :
  history evs outs b → event_ok ev → jitter_step ev b = Some (out, b') →
  history (evs ++ [ev]) (outs ++ out) b'.
Proof.
  intros Hh Hev Hstep. destruct (step_ok ev b Hev (hi_ok _ _ _ Hh)) as (out1 & b1 & Hstep1 & Hb' & Hs).
  rewrite Hstep in Hstep1. injection Hstep1 as <- <-.
  destruct ev as [t1 t2 seq data|now|now avg stddev]; cbn in Hs.
  - destruct Hs as [-> Hs]. rewrite app_nil_r. by eapply history_push.
  - destruct Hs as (r & -> & [Hf Hr] & Hx).
    destruct r as [d| |]; cbn [frame_of].
    + destruct Hr as (n & Hn & Hn' & Hnd & Hbuf). eapply history_frame; try done.
      * intros Hex. by specialize (Hx Hex).
      * rewrite Hbuf. apply delete_subseteq.
      * naive_solver.
    + destruct Hr as (n & Hn & Hn' & _ & _ & Hbuf). eapply history_frame; try done.
      * intros Hex. by specialize (Hx Hex).
      * by rewrite Hbuf.
    + rewrite app_nil_r. destruct Hr. by eapply history_more.
  - destruct Hs as (-> & ? & ? & ?). rewrite app_nil_r. by eapply history_more.
Qed.

Lemma history_run (evs' : list JitterEvent) evs outs b outs' b' :
  Forall event_ok evs' → history evs outs b → jitter_run evs' b = Some (outs', b') →
  history (evs ++ evs') (outs ++ outs') b'.
Proof.
  intros Hevs. revert evs outs b outs'. induction Hevs as [|ev evs' Hev _ IH]; intros evs outs b outs' Hh; cbn [jitter_run].
  { intros [= <- <-]. by rewrite !app_nil_r. }
  destruct (jitter_step ev b) as [[out b1]|] eqn:Hstep; [|done]. cbn.
  destruct (jitter_run evs' b1) as [[outs1 b2]|] eqn:Hrun; [|done]. cbn. intros [= <- <-].
  rewrite (app_assoc outs), cons_middle, app_assoc. eapply IH; [|exact Hrun]. by eapply history_step.
Qed.

(** ** What is buffered is played *)

Lemma position_inj (f x y : Z) : 0 ≤ x < 65536 → 0 ≤ y < 65536 → position f x = position f y → x = y.
Proof. intros. wrap. Qed.

Lemma buffered_run (evs : list JitterEvent) (b b' : AdaptiveJitterBuffer) (outs : list (option string))
    (f n k : Z) (d : string) :
  Forall event_ok evs → jitter_ok b → jb_first_seq b = Some f → jb_next_seq b = Some n →
  jb_buffer b !! k = Some d → (∀ t1 t2 d', Push t1 t2 k d' ∉ evs) → jitter_run evs b = Some (outs, b') →
  match outs !! Z.to_nat (position f k - position f n) with
  | Some o => o = Some d
  | None => jb_buffer b' !! k = Some d
  end.
Proof.
  intros Hevs. revert b outs n. induction Hevs as [|ev evs Hev _ IH]; intros b outs n Hb Hf Hn Hk Hno; cbn [jitter_run].
  { by intros [= <- <-]. }
  destruct (step_ok ev b Hev Hb) as (out & b1 & -> & Hb1 & Hs). cbn.
  destruct (jitter_run evs b1) as [[outs1 b2]|] eqn:Hrun; [|done]. cbn. intros [= <- <-].
  pose proof (jo_window b Hb) as Hw. unfold window_ok in Hw. rewrite Hf, Hn in Hw.
  destruct (jb_playout_origin b); [|done]. destruct Hw as (_ & ? & Hn0 & ? & Hwin).
  destruct (Hwin k d Hk) as [Hk0 Hkp].
  assert (Hno' : ∀ t1 t2 d', Push t1 t2 k d' ∉ evs) by (intros t1 t2 d' ?; apply (Hno t1 t2 d'); set_solver).
  assert (Hskip : ∀ o, n ≠ k → jb_first_seq b1 = Some f → jb_next_seq b1 = Some (wrapping_add_u16 n 1) →
    jb_buffer b1 !! k = Some d →
    match ([o] ++ outs1) !! Z.to_nat (position f k - position f n) with
    | Some o => o = Some d | None => jb_buffer b2 !! k = Some d end).
  { intros o Hne Hf1 Hn1 Hk1. assert (position f n ≠ position f k) by (intros ?%position_inj; auto).
    replace (Z.to_nat (position f k - position f n))
      with (S (Z.to_nat (position f k - position f (wrapping_add_u16 n 1)))) by wrap.
    cbn. by apply (IH b1 outs1 (wrapping_add_u16 n 1)). }
  destruct ev as [t1 t2 seq data|now|now avg stddev]; cbn in Hs.
  - destruct Hs as [-> (Hf1 & Hn1 & Hbuf)]. rewrite Hf in Hf1. rewrite Hn in Hn1. apply (IH b1 outs1 n); [done..| |done|done].
    destruct Hbuf as [->| ->]; [done|]. rewrite lookup_insert_ne; [done|]. intros ->.
    apply (Hno t1 t2 data). set_solver.
  - destruct Hs as (r & -> & [Hf1 Hr] & _). rewrite Hf in Hf1. destruct r as [d'| |]; cbn [frame_of].
    + destruct Hr as (n' & Hn' & Hn1 & Hnd & Hbuf). assert (n' = n) as -> by congruence.
      destruct (decide (n = k)) as [->|Hne]; [rewrite Z.sub_diag; cbn; congruence|].
      apply Hskip; [done..|]. by rewrite Hbuf, lookup_delete_ne.
    + destruct Hr as (n' & Hn' & Hn1 & Hnone & _ & Hbuf). assert (n' = n) as -> by congruence.
      apply Hskip; [congruence|done..|congruence].
    + destruct Hr as [Hn1 Hbuf]. apply (IH b1 outs1 n); [done..|congruence|congruence|done|done].
  - destruct Hs as (-> & ? & ? & ?). apply (IH b1 outs1 n); [done|congruence..|done|done].
Qed.

(** C20: Frames come out in order, and none that is buffered is passed over.  The
    [i]-th frame handed to the decoder is either a gap or the data of a packet that
    was pushed with the [i]-th sequence number after the first, across the
    wrap-around of the 16-bit numbers, however the packets were reordered, repeated
    or delayed.  And a packet the buffer holds at any time is the frame played at
    its place, or is still held, however the buffer is used afterwards, unless the
    same sequence number arrives again. *)
Theorem frames_in_order (now : Instant) (evs evs' : list JitterEvent) outs outs' b b' :
  Forall event_ok (evs ++ evs') → jitter_run evs (jitter_new now) = Some (outs, b) →
  jitter_run evs' b = Some (outs', b') →
  (∀ i d, outs !! i = Some (Some d) →
     ∃ first t1 t2, stream_start evs = Some first ∧ Push t1 t2 (wrapping_add_u16 first (Z.of_nat i)) d ∈ evs) ∧
  (∀ k d, jb_buffer b !! k = Some d → (∀ t1 t2 d', Push t1 t2 k d' ∉ evs') →
     ∃ first, stream_start evs = Some first ∧
       match (outs ++ outs') !! Z.to_nat (position first k) with
       | Some o => o = Some d
       | None => jb_buffer b' !! k = Some d
       end).
Proof.
  intros [Hevs Hevs']%Forall_app Hrun Hrun'.
  assert (Hh : history [] [] (jitter_new now)) by (by split; [apply jitter_new_ok|..]).
  pose proof (history_run evs [] [] _ outs b Hevs Hh Hrun) as [Hb Hf Hl _ Ho]. cbn in *. split.
  - intros i d Hi. destruct (jb_first_seq b) as [f|]; [|by rewrite Hl in Hi].
    destruct (Ho f i d eq_refl Hi) as (t1 & t2 & Hin). by exists f, t1, t2.
  - intros k d Hk Hnew. pose proof (jo_window b Hb) as Hw. unfold window_ok in Hw.
    destruct (jb_first_seq b) as [f|] eqn:Hfb, (jb_next_seq b) as [n|] eqn:Hnb, (jb_playout_origin b); try done.
    2:{ destruct Hw as [_ Hw]. rewrite Hw in Hk. by rewrite lookup_empty in Hk. }
    cbn in Hl. exists f. split; [done|]. destruct Hw as (_ & _ & _ & _ & Hbuf). destruct (Hbuf k d Hk) as [_ Hpos].
    rewrite lookup_app_r by lia.
    replace (Z.to_nat (position f k) - length outs)%nat with (Z.to_nat (position f k - position f n))
      by lia.
    by eapply buffered_run.
Qed.

(** ** The end of the stream *)

Lemma exhausted_run (evs : list JitterEvent) (b : AdaptiveJitterBuffer) :
  Forall event_ok evs → jitter_ok b → exhausted b →
  ∃ b', jitter_run evs b = Some ([], b') ∧ exhausted b' ∧ jb_buffer b' = ∅.
Proof.
  intros Hevs. revert b. induction Hevs as [|ev evs Hev _ IH]; intros b Hb Hx; cbn [jitter_run].
  { exists b. split_and!; [done..|]. destruct Hx as (f & n & Hf & Hn & Hp).
    pose proof (jo_window b Hb) as Hw. unfold window_ok in Hw. rewrite Hf, Hn in Hw.
    destruct (jb_playout_origin b); [|done]. destruct Hw as (_ & _ & _ & _ & Hw).
    apply map_empty. intros k. apply eq_None_not_Some. intros [d Hk]. destruct (Hw k d Hk). lia. }
  destruct (step_ok ev b Hev Hb) as (out & b1 & -> & Hb1 & Hs). cbn.
  assert (Hx1 : out = [] ∧ exhausted b1); [|destruct Hx1 as [-> Hx1]; destruct (IH b1 Hb1 Hx1) as (b' & -> & Hr); by exists b'].
  destruct Hx as (f & n & Hf & Hn & Hp). unfold exhausted.
  destruct ev as [t1 t2 seq data|now|now avg stddev]; cbn in Hs.
  - destruct Hs as [-> (Hf1 & Hn1 & _)]. rewrite Hf in Hf1. rewrite Hn in Hn1. split; [done|]. by exists f, n.
  - destruct Hs as (r & -> & [Hf1 Hr] & Hx). rewrite Hx in * by (by exists f, n). destruct Hr as [Hn1 _].
    split; [done|]. exists f, n. by rewrite Hf1, Hn1.
  - destruct Hs as (-> & Hf1 & Hn1 & _). split; [done|]. exists f, n. by rewrite Hf1, Hn1.
Qed.

(** An undisturbed call: packet [i] arrives [i] frames after the first, and the
    playout loop asks for it once its deadline has passed. *)
Fixpoint in_order_stream (first : Z) (origin : Instant) (i : Z) (ds : list string) : list JitterEvent :=
  match ds with
  | [] => []
  | d :: ds =>
      let arrival := origin + FRAME_DURATION * i in
      Push arrival arrival (wrapping_add_u16 first i) d :: Pop (arrival + 200000000)
      :: in_order_stream first origin (i + 1) ds
  end.

(** Ready to play position [i]: nothing is buffered. *)
Definition at_position (first : Z) (origin : Instant) (i : Z) (b : AdaptiveJitterBuffer) : Prop :=
  jitter_ok b ∧ jb_buffer b = ∅ ∧
  (i = 0 ∧ jb_first_seq b = None ∧ jb_next_seq b = None ∧ jb_playout_origin b = None ∨
   jb_first_seq b = Some first ∧ jb_next_seq b = Some (wrapping_add_u16 first i) ∧ jb_playout_origin b = Some origin).

Lemma push_next (first : Z) (origin : Instant) (i : Z) (t2 : Instant) (d : string) (b : AdaptiveJitterBuffer) :
  0 ≤ first < 65536 → 0 ≤ i ≤ 32767 → at_position first origin i b →
  Z.of_nat (String.length d) ≤ MAX_PACKET_SIZE →
  ∃ b', push (origin + FRAME_DURATION * i) t2 (wrapping_add_u16 first i) d b = Some b' ∧
    jb_first_seq b' = Some first ∧ jb_next_seq b' = Some (wrapping_add_u16 first i) ∧
    jb_playout_origin b' = Some origin ∧ jb_buffer b' = {[wrapping_add_u16 first i := d]}.
Proof.
  intros Hfirst Hi (Hb & He & Hst) Hd. unfold push. rewrite (proj2 (Z.ltb_ge _ _)) by done.
  set (seq := wrapping_add_u16 first i). set (b1 := initialize seq _ b).
  assert (Hok : jitter_ok b1) by (apply initialize_ok; [unfold seq; wrap|done]).
  assert (Hb1 : jb_first_seq b1 = Some first ∧ jb_next_seq b1 = Some seq ∧ jb_playout_origin b1 = Some origin ∧
    jb_buffer b1 = ∅).
  { pose proof (jo_window b Hb) as Hw. unfold window_ok in Hw. unfold b1, initialize.
    destruct Hst as [(-> & Hf & Hn & Ho)|(Hf & Hn & Ho)]; rewrite Hf, Hn, Ho in Hw; destruct Hw as [-> _]; [|by split_and!].
    cbn. unfold seq. replace (wrapping_add_u16 first 0) with first by wrap. rewrite Z.mul_0_r, Z.add_0_r. by split_and!. }
  destruct Hb1 as (Hf & Hn & Ho & Hbuf). rewrite Hf, Hn. unfold is_behind.
  rewrite !(proj2 (Z.ltb_ge _ _)) by (unfold seq; wrap).
  destruct (count_late_spec seq t2 b1 (jo_delay _ Hok)) as (l & Hl). rewrite Hl. cbn.
  rewrite Hbuf. cbn. eexists; split; [done|]. by split_and!.
Qed.

Lemma pop_due (now : Instant) (f n : Z) (o : Instant) (d : string) (b : AdaptiveJitterBuffer) :
  jitter_ok b → jb_first_seq b = Some f → jb_next_seq b = Some n → jb_playout_origin b = Some o →
  jb_buffer b !! n = Some d → o + FRAME_DURATION * position f n + 200000000 ≤ now →
  ∃ b', pop now b = Some (Packet d, b') ∧ jb_playout_origin b' = Some o.
Proof.
  intros Hb Hf Hn Ho Hnd Hnow. pose proof (jo_window b Hb) as Hw. unfold window_ok in Hw. rewrite Hf, Hn, Ho in Hw.
  destruct Hw as (_ & _ & _ & _ & Hw). destruct (Hw n d Hnd) as [_ Hp].
  unfold pop. rewrite Ho, Hf. cbn [mbind option_bind].
  destruct (leave_prefetch_ok now o b Hb) as (phase & Hph & Hphase). rewrite Hph. cbn.
  assert (Hsome : ∃ b1, phase = Some b1).
  { revert Hph. unfold leave_prefetch. destruct (jb_in_prefetch b); [|by intros [= <-]; eexists].
    destruct (prefetch_delay b Hb) as (h & -> & Hh). cbn. intros [= <-].
    assert (0 ≤ position f n) by wrap. unfold FRAME_DURATION in Hnow.
    rewrite (proj2 (Z.ltb_ge _ _)) by lia. by eexists. }
  destruct Hsome as [b1 ->]. destruct (Hphase b1 eq_refl) as (Hb1 & Hf1 & Hn1 & Hbuf & Ho1).
  rewrite Hn1, Hn. rewrite (proj2 (Z.ltb_ge _ _)) by (unfold position in Hp; lia).
  destruct (deadline_exists o (wrapping_sub_u16 n f) b1 (jo_delay _ Hb1)) as (t & -> & Ht). cbn.
  unfold position in *. rewrite (proj2 (Z.ltb_ge _ _)) by lia. unfold play_next. rewrite Hbuf, Hnd.
  eexists; split; [done|]. cbn. congruence.
Qed.

Lemma stream_round (first : Z) (origin : Instant) (i : Z) (d : string) (b : AdaptiveJitterBuffer) :
  0 ≤ first < 65536 → 0 ≤ i ≤ 32767 → at_position first origin i b →
  Z.of_nat (String.length d) ≤ MAX_PACKET_SIZE →
  let arrival := origin + FRAME_DURATION * i in
  ∃ b1 b2, push arrival arrival (wrapping_add_u16 first i) d b = Some b1 ∧
    pop (arrival + 200000000) b1 = Some (Packet d, b2) ∧ at_position first origin (i + 1) b2.
Proof.
  intros Hfirst Hi Hat Hd arrival. set (seq := wrapping_add_u16 first i).
  assert (Hseq : 0 ≤ seq < 65536) by (unfold seq; wrap).
  assert (Hpos : position first seq = i) by (unfold seq; wrap).
  destruct (push_next first origin i arrival d b) as (b1 & Hpush & Hf & Hn & Ho & Hbuf); [done..|].
  destruct (push_ok arrival arrival seq d b Hseq (proj1 Hat)) as (b1' & Hpush' & Hb1 & _).
  fold arrival seq in Hpush. fold seq in Hn, Hbuf. assert (b1' = b1) as -> by congruence.
  destruct (pop_due (arrival + 200000000) first seq origin d b1) as (b2 & Hpop & Ho2); try done.
  { by rewrite Hbuf, lookup_singleton_eq. }
  { rewrite Hpos. unfold arrival. lia. }
  exists b1, b2. split_and!; [done..|].
  destruct (pop_ok (arrival + 200000000) b1 Hb1) as (r & b2' & Hpop' & Hb2 & [Hf2 Hr] & _).
  rewrite Hpop in Hpop'. injection Hpop' as <- <-. destruct Hr as (n & Hn1 & Hn2 & _ & Hbuf2).
  split; [done|]. assert (n = seq) as -> by congruence. split; [by rewrite Hbuf2, Hbuf, delete_singleton_eq|].
  right. rewrite Hf2, Hn2. split_and!; [done| |done]. f_equal. unfold seq. wrap.
Qed.

Lemma in_order_ok (first : Z) (origin : Instant) (ds : list string) (i : Z) :
  0 ≤ i → Forall event_ok (in_order_stream first origin i ds).
Proof.
  revert i. induction ds as [|d ds IH]; intros i Hi; cbn; [done|].
  constructor; [cbn; wrap|]. constructor; [done|]. apply IH. lia.
Qed.

Lemma stream_runs (first : Z) (origin : Instant) (ds : list string) (i : Z) (b : AdaptiveJitterBuffer) :
  0 ≤ first < 65536 → 0 ≤ i ≤ 32768 → at_position first origin i b →
  Forall (λ d, Z.of_nat (String.length d) ≤ MAX_PACKET_SIZE) ds →
  ∃ b', jitter_run (in_order_stream first origin i ds) b = Some (Some <$> take (Z.to_nat (32768 - i)) ds, b').
Proof.
  intros Hfirst Hi Hat Hds. revert i b Hi Hat. induction Hds as [|d ds Hd Hds IH]; intros i b Hi Hat.
  { exists b. cbn. by rewrite take_nil. }
  destruct (decide (i = 32768)) as [->|Hne].
  - destruct (exhausted_run (in_order_stream first origin 32768 (d :: ds)) b) as (b' & Hrun & _);
      [by apply in_order_ok|apply Hat| |by exists b'].
    destruct Hat as (_ & _ & [(? & _)|(Hf & Hn & _)]); [done|]. exists first, (wrapping_add_u16 first 32768).
    split_and!; [done..|]. wrap.
  - destruct (stream_round first origin i d b) as (b1 & b2 & Hpush & Hpop & Hat2); [done|lia|done..|].
    destruct (IH (i + 1) b2 ltac:(lia) Hat2) as (b' & Hrun). exists b'.
    cbn [in_order_stream jitter_run jitter_step]. rewrite Hpush. cbn. rewrite Hpop. cbn. rewrite Hrun. cbn.
    replace (Z.to_nat (32768 - i)) with (S (Z.to_nat (32768 - (i + 1)))) by lia. done.
Qed.

(** An undisturbed call plays the first 32768 frames, about eleven minutes, and
    nothing after: the first sequence number never moves, so every later packet is
    taken for an old one and the playout loop waits for ever. *)
Theorem playback_stops_after_half_window (now origin : Instant) (first : Z) (ds : list string) :
  0 ≤ first < 65536 → Forall (λ d, Z.of_nat (String.length d) ≤ MAX_PACKET_SIZE) ds →
  ∃ b, jitter_run (in_order_stream first origin 0 ds) (jitter_new now) = Some (Some <$> take (Z.to_nat 32768) ds, b).
Proof.
  intros Hfirst Hds. destruct (stream_runs first origin ds 0 (jitter_new now)) as (b & Hrun); try done.
  - split; [apply jitter_new_ok|]. split; [done|by left].
  - exists b. rewrite Hrun. do 3 f_equal.
Qed.

(** ** Examples *)

(** Three packets across the wrap-around, the second late by one place, with a
    statistics update in between. *)
Definition sample_events : list JitterEvent :=
  [Push 0 0 65535 "a"; Push 1 1 1 "c"; Push 2 2 0 "b"; UpdateStats 3 (F64.of_Z 30) (F64.of_Z 5);
   Pop 300000000; Pop 300000000; Pop 300000000]%string.

Lemma sample_ok : Forall event_ok sample_events.
Proof. unfold sample_events. repeat (constructor; [vm_compute; intuition congruence|]). constructor. Qed.

Lemma jitter_buffer_sound_witness :
  Forall event_ok sample_events ∧
  ∃ outs b, jitter_run sample_events (jitter_new 0) = Some (outs, b) ∧
    map_len (jb_buffer b) ≤ MAX_BUFFERED_PACKETS ∧
    (∀ k d, jb_buffer b !! k = Some d → Z.of_nat (String.length d) ≤ MAX_PACKET_SIZE) ∧
    ∃ delay, from_millis_f64 (jb_current_target_delay_ms b) = Some delay ∧ 20000000 ≤ delay ≤ 200000000.
Proof. split; [exact sample_ok|exact (jitter_buffer_sound 0 sample_events sample_ok)]. Defined.

(** The first frame has been played, the other two wait and then come in order. *)
Lemma frames_in_order_witness :
  (fst <$> jitter_run sample_events (jitter_new 0)) = Some [Some "a"%string; Some "b"%string; Some "c"%string] ∧
  ∃ outs b outs' b', jitter_run (take 5 sample_events) (jitter_new 0) = Some (outs, b) ∧
    jitter_run (drop 5 sample_events) b = Some (outs', b') ∧
    (∃ first t1 t2, stream_start (take 5 sample_events) = Some first ∧
       Push t1 t2 (wrapping_add_u16 first 0) "a"%string ∈ take 5 sample_events) ∧
    ∃ first, stream_start (take 5 sample_events) = Some first ∧
      match (outs ++ outs') !! Z.to_nat (position first 1) with
      | Some o => o = Some "c"%string
      | None => jb_buffer b' !! 1 = Some "c"%string
      end.
Proof.
  split; [vm_compute; done|].
  destruct (jitter_run (take 5 sample_events) (jitter_new 0)) as [[outs b]|] eqn:Hrun; [|vm_compute in Hrun; discriminate].
  destruct (jitter_run (drop 5 sample_events) b) as [[outs' b']|] eqn:Hrun'.
  2:{ vm_compute in Hrun. injection Hrun as <- <-. vm_compute in Hrun'. discriminate. }
  exists outs, b, outs', b'. split; [done|]. split; [done|].
  destruct (frames_in_order 0 (take 5 sample_events) (drop 5 sample_events) outs outs' b b') as [Hout Hheld];
    [rewrite take_drop; exact sample_ok|done|done|].
  vm_compute in Hrun. injection Hrun as <- <-.
  split; [by apply (Hout 0%nat)|apply Hheld; [done|]].
  intros t1 t2 d' Hin. cbn in Hin. set_solver.
Defined.

Lemma playback_stops_after_half_window_witness :
  ∃ b, jitter_run (in_order_stream 65535 7 0 ["a"; "b"; "c"]%string) (jitter_new 0) =
    Some (Some <$> take (Z.to_nat 32768) ["a"; "b"; "c"]%string, b).
Proof.
  apply (playback_stops_after_half_window 0 7 65535 ["a"; "b"; "c"]%string); [lia|].
  repeat constructor; vm_compute; discriminate.
Defined.
