(* ===== verification/NetworkControl.v ===== *)
(** * Network statistics and the bitrate they choose
    (clients/shared/src/audio_network_monitor.rs,
    audio_pipeline/bitrate_controller.rs, audio_pipeline_config.rs)

    The monitor turns packet arrivals and round-trip measurements into loss and
    jitter; the controller turns those into a bitrate and a redundancy setting.
    Both compute in [f64].  The input the receive path shares with the monitor is
    part of the monitor's state, and clock reads are arguments. *)

From Stdlib Require Import Floats.SpecFloat.
From S2P Require Import Prelude Floats JitterBuffer.
Local Open Scope Z_scope.

(** ** Data *)

(** [RttSource], [NetworkStats], [BitrateConfig], [BitrateDecision]. *)
Inductive RttSource : Type := RttNone | RttRtcp | RttLiveKit.
Record NetworkStats : Type := mkNetworkStats {
  ns_packet_loss : spec_float;
  ns_rtt_ms : spec_float;
  ns_jitter_ms : spec_float;
  ns_jitter_stddev_ms : spec_float;
  ns_rtt_source : RttSource
}.
Definition NetworkStats_default : NetworkStats :=
  mkNetworkStats (F64.of_Z 0) (F64.of_Z 0) (F64.of_Z 0) (F64.of_Z 0) RttNone.
Record BitrateConfig : Type := mkBitrateConfig {
  bc_min_bitrate : Z;
  bc_max_bitrate : Z;
  bc_initial_bitrate : Z;
  bc_ramp_up_delay_secs : spec_float
}.
Definition BitrateConfig_default : BitrateConfig := mkBitrateConfig 16000 64000 32000 (F64.of_Z 5).
Record BitrateDecision : Type := mkBitrateDecision {
  bd_bitrate_bps : Z;
  bd_fec_enabled : bool;
  bd_fec_depth : Z
}.

(** ** The monitor *)

(** [NetworkMonitorInput]: [last_rtt_update] has a slot per source. *)
Record NetworkMonitorInput : Type := mkInput {
  in_pending : list (Z * Instant);
  in_rtt_ms : option spec_float;
  in_rtt_source : RttSource;
  in_last_rtcp : option Instant;
  in_last_livekit : option Instant
}.
Definition input_new : NetworkMonitorInput := mkInput [] None RttNone None None.

(** [record_packet]. *)
Definition record_packet (now : Instant) (seq : Z) (i : NetworkMonitorInput) : NetworkMonitorInput :=
  mkInput (in_pending i ++ [(seq, now)]) (in_rtt_ms i) (in_rtt_source i) (in_last_rtcp i) (in_last_livekit i).

(** The one-second limit of [set_rtt]. *)
Definition rtt_too_soon (now : Instant) (last : option Instant) : bool :=
  match last with Some t => duration_since now t <? from_secs 1 | None => false end.

(** [set_rtt]. *)
Definition set_rtt (now : Instant) (rtt_ms : spec_float) (source : RttSource) (i : NetworkMonitorInput)
    : NetworkMonitorInput :=
  match source with
  | RttNone => i
  | RttRtcp =>
      if rtt_too_soon now (in_last_rtcp i) then i
      else mkInput (in_pending i) (Some rtt_ms) source (Some now) (in_last_livekit i)
  | RttLiveKit =>
      if rtt_too_soon now (in_last_livekit i) then i
      else mkInput (in_pending i) (Some rtt_ms) source (in_last_rtcp i) (Some now)
  end.

Definition JITTER_WINDOW_SIZE : nat := 100.
Definition JITTER_EMA_ALPHA : spec_float := F64.lit 1 16.

(** [RealNetworkMonitor]. *)
Record RealNetworkMonitor : Type := mkMonitor {
  rm_input : NetworkMonitorInput;
  rm_jitter_window : list spec_float;
  rm_ema_jitter_ms : spec_float;
  rm_max_seq : option Z;
  rm_total_expected : Z;
  rm_total_received : Z;
  rm_prev_arrival : option Instant;
  rm_prev_seq : option Z;
  rm_initialized : bool
}.
Definition monitor_new (i : NetworkMonitorInput) : RealNetworkMonitor :=
  mkMonitor i [] (F64.of_Z 0) None 0 0 None None false.

(** [sort_by_key], which is stable. *)
Fixpoint insert_by_seq (x : Z * Instant) (l : list (Z * Instant)) : list (Z * Instant) :=
  match l with
  | [] => [x]
  | y :: l' => if x.1 <? y.1 then x :: l else y :: insert_by_seq x l'
  end.
Definition sort_by_seq (l : list (Z * Instant)) : list (Z * Instant) :=
  foldl (λ acc x, insert_by_seq x acc) [] l.

(** [ingest]: the sequence counters after one packet, .. *)
Definition ingest_seq (seq : Z) (m : RealNetworkMonitor) : option Z * Z * bool :=
  match rm_max_seq m with
  | Some prev_max =>
      let diff := wrapping_sub_u16 seq prev_max in
      if (0 <? diff) && (diff <=? 0x7FFF) then
        (Some seq, (rm_total_expected m + diff) `mod` u64_modulus, rm_initialized m)
      else (rm_max_seq m, rm_total_expected m, rm_initialized m)
  | None => (Some seq, 1, true)
  end.

(** .. the jitter estimate and window after it, .. *)
Definition ingest_jitter (arrived_at : Instant) (m : RealNetworkMonitor) : spec_float * list spec_float :=
  match rm_prev_arrival m, rm_prev_seq m with
  | Some prev_at, Some _ =>
      let transit_diff_ms := F64.mul (as_secs_f64 (duration_since arrived_at prev_at)) (F64.of_Z 1000) in
      let jitter_sample := SFabs (F64.sub transit_diff_ms (F64.of_Z 20)) in
      let ema := F64.add (rm_ema_jitter_ms m)
                   (F64.mul JITTER_EMA_ALPHA (F64.sub jitter_sample (rm_ema_jitter_ms m))) in
      let window := if (JITTER_WINDOW_SIZE <=? length (rm_jitter_window m))%nat
                    then tail (rm_jitter_window m) else rm_jitter_window m in
      (ema, window ++ [jitter_sample])
  | _, _ => (rm_ema_jitter_ms m, rm_jitter_window m)
  end.

(** .. one packet, and the batch. *)
Definition ingest_one (arrival : Z * Instant) (m : RealNetworkMonitor) : RealNetworkMonitor :=
  let '(seq, arrived_at) := arrival in
  let '(max_seq, expected, initialized) := ingest_seq seq m in
  let '(ema, window) := ingest_jitter arrived_at m in
  mkMonitor (rm_input m) window ema max_seq expected ((rm_total_received m + 1) `mod` u64_modulus)
    (Some arrived_at) (Some seq) initialized.
Definition ingest (arrivals : list (Z * Instant)) (m : RealNetworkMonitor) : RealNetworkMonitor :=
  foldl (λ m a, ingest_one a m) m (sort_by_seq arrivals).

(** [jitter_stddev]; a sum of floats starts at [-0.0]. *)
Definition f64_sum (l : list spec_float) : spec_float := foldl F64.add (S754_zero true) l.
Definition jitter_stddev (m : RealNetworkMonitor) : spec_float :=
  if (length (rm_jitter_window m) <? 2)%nat then F64.of_Z 0
  else
    let n := F64.of_Z (len (rm_jitter_window m)) in
    let mean := F64.div (f64_sum (rm_jitter_window m)) n in
    let squares := (λ j, let d := F64.sub j mean in F64.mul d d) <$> rm_jitter_window m in
    F64.sqrt (F64.div (f64_sum squares) n).

(** [packet_loss_ratio]. *)
Definition packet_loss_ratio (m : RealNetworkMonitor) : spec_float :=
  if rm_total_expected m =? 0 then F64.of_Z 0
  else F64.div (F64.of_Z (saturating_sub (rm_total_expected m) (rm_total_received m)))
         (F64.of_Z (rm_total_expected m)).

(** [poll_stats]. *)
Definition poll_stats (m : RealNetworkMonitor) : NetworkStats * RealNetworkMonitor :=
  let i := rm_input m in
  let arrivals := in_pending i in
  let m := mkMonitor (mkInput [] (in_rtt_ms i) (in_rtt_source i) (in_last_rtcp i) (in_last_livekit i))
             (rm_jitter_window m) (rm_ema_jitter_ms m) (rm_max_seq m) (rm_total_expected m)
             (rm_total_received m) (rm_prev_arrival m) (rm_prev_seq m) (rm_initialized m) in
  if bool_decide (arrivals = []) && negb (rm_initialized m) then (NetworkStats_default, m)
  else
    let m := ingest arrivals m in
    (mkNetworkStats (packet_loss_ratio m) (default (F64.of_Z 0) (in_rtt_ms i)) (rm_ema_jitter_ms m)
       (jitter_stddev m) (in_rtt_source i), m).

(** ** The controller *)

(** [AdaptiveBitrateController]. *)
Record AdaptiveBitrateController : Type := mkController {
  ac_config : BitrateConfig;
  ac_current_bitrate : Z;
  ac_low_loss_duration_secs : spec_float;
  ac_stats_interval_secs : spec_float
}.

(** [Ord::clamp]: [None] is the panic on an empty range. *)
Definition checked_clamp (lo hi x : Z) : option Z := if lo <=? hi then Some (clamp lo hi x) else None.

(** [AdaptiveBitrateController::new]. *)
Definition controller_new (config : BitrateConfig) : option AdaptiveBitrateController :=
  initial ← checked_clamp (bc_min_bitrate config) (bc_max_bitrate config) (bc_initial_bitrate config);
  Some (mkController config initial (F64.of_Z 0) (F64.of_Z 1)).

(** [set_stats_interval]. *)
Definition set_stats_interval (secs : spec_float) (c : AdaptiveBitrateController) : AdaptiveBitrateController :=
  mkController (ac_config c) (ac_current_bitrate c) (ac_low_loss_duration_secs c) secs.

(** [compute_fec]. *)
Definition compute_fec (packet_loss : spec_float) (c : AdaptiveBitrateController) : bool * Z :=
  if fgt packet_loss (F64.lit 10 100) then (true, 2)
  else if fgt packet_loss (F64.lit 2 100) then (true, 1)
  else if fge (ac_low_loss_duration_secs c) (bc_ramp_up_delay_secs (ac_config c)) then (false, 0)
  else (false, 0).

(** [u32::saturating_add]. *)
Definition saturating_add_u32 (x y : Z) : Z := Z.min (u32_modulus - 1) (x + y).

(** The bitrate before it is clamped, .. *)
Definition next_bitrate (stats : NetworkStats) (c : AdaptiveBitrateController) : Z :=
  if fgt (ns_rtt_ms stats) (F64.of_Z 300) then bc_min_bitrate (ac_config c)
  else if fgt (ns_packet_loss stats) (F64.lit 5 100) then
    as_u32 (F64.mul (F64.of_Z (ac_current_bitrate c)) (F64.lit 75 100))
  else if fge (ac_low_loss_duration_secs c) (bc_ramp_up_delay_secs (ac_config c)) then
    saturating_add_u32 (ac_current_bitrate c)
      (as_u32 (F64.mul (F64.of_Z (ac_current_bitrate c)) (F64.lit 10 100)))
  else ac_current_bitrate c.

(** .. and [on_stats]. *)
Definition on_stats (stats : NetworkStats) (c : AdaptiveBitrateController)
    : option (BitrateDecision * AdaptiveBitrateController) :=
  let low := if flt (ns_packet_loss stats) (F64.lit 1 100)
             then F64.add (ac_low_loss_duration_secs c) (ac_stats_interval_secs c) else F64.of_Z 0 in
  let c := mkController (ac_config c) (ac_current_bitrate c) low (ac_stats_interval_secs c) in
  new_bitrate ← checked_clamp (bc_min_bitrate (ac_config c)) (bc_max_bitrate (ac_config c)) (next_bitrate stats c);
  let c := mkController (ac_config c) new_bitrate low (ac_stats_interval_secs c) in
  let '(fec_enabled, fec_depth) := compute_fec (ns_packet_loss stats) c in
  Some (mkBitrateDecision new_bitrate fec_enabled fec_depth, c).

Fixpoint run_controller (l : list NetworkStats) (c : AdaptiveBitrateController)
    : option (list BitrateDecision * AdaptiveBitrateController) :=
  match l with
  | [] => Some ([], c)
  | stats :: l =>
      '(d, c) ← on_stats stats c;
      '(ds, c) ← run_controller l c;
      Some (d :: ds, c)
  end.

(** The limits the controller must keep, and a current bitrate within them. *)
Definition controller_ok (c : AdaptiveBitrateController) : Prop :=
  bc_min_bitrate (ac_config c) ≤ ac_current_bitrate c ≤ bc_max_bitrate (ac_config c) ∧
  0 < bc_min_bitrate (ac_config c) ∧ bc_max_bitrate (ac_config c) < u32_modulus.

Lemma clamp_range (lo hi x : Z) : lo ≤ hi → lo ≤ clamp lo hi x ≤ hi.
Proof. unfold clamp. destruct (Z.ltb_spec x lo); [lia|]. destruct (Z.ltb_spec hi x); lia. Qed.

Lemma on_stats_ok (stats : NetworkStats) (c : AdaptiveBitrateController) :
  controller_ok c →
  ∃ d c', on_stats stats c = Some (d, c') ∧ controller_ok c' ∧ ac_config c' = ac_config c ∧
    ac_current_bitrate c' = bd_bitrate_bps d.
Proof.
  intros (Hc & Hmin & Hmax). unfold on_stats, checked_clamp. cbn [ac_config].
  rewrite (proj2 (Z.leb_le _ _)) by lia. cbn.
  destruct (compute_fec _ _) as [fec depth]. eexists _, _. split; [done|]. split_and!; try done.
  split_and!; cbn; try done; apply clamp_range; lia.
Qed.

(** Three quarters of a bitrate, rounded and truncated, are no more than it. *)
Lemma three_quarters_le (n : Z) : 0 < n < u32_modulus → as_u32 (F64.mul (F64.of_Z n) (F64.lit 75 100)) ≤ n.
Proof.
  intros Hn. unfold u32_modulus in Hn.
  destruct (normalize_exact F64.prec F64.emax ltac:(done) n) as (m & e & Hof & He & Hm & Hb);
    [done..|unfold F64.prec; lia|].
  unfold F64.of_Z at 1. rewrite Hof. change (F64.lit 75 100) with (S754_finite false 6755399441055744 (-53)).
  unfold F64.mul, SFmul. cbn [xorb].
  destruct (round_aux_upper F64.prec F64.emax false (Z.pos (m * 6755399441055744)) (e + -53) loc_Exact m e)
    as [->|(m' & e' & -> & He' & Hm')]; [done|lia|done| |cbn; lia|].
  { unfold shr_ceil. cbn [shr_m shr_record_of_loc shr_r shr_s orb]. rewrite Pos2Z.inj_mul, Z.add_0_r.
    replace (e - (e + -53)) with 53 by lia. literals. lia. }
  unfold as_u32, trunc_to. etransitivity; [apply Z.le_min_r|].
  rewrite Hm, <-Z.mul_assoc, <-Z.pow_add_r in Hm' by lia. replace (- e + (e - e')) with (- e') in Hm' by lia.
  destruct (Z.leb_spec 0 e') as [|Hneg].
  - assert (e' = 0) as -> by lia. lia.
  - apply Z.div_le_upper_bound; [apply Z.pow_pos_nonneg|]; lia.
Qed.

(** Heavy loss never raises the bitrate, and a long round trip drops it to the
    minimum. *)
Theorem loss_lowers_bitrate (stats : NetworkStats) (c : AdaptiveBitrateController) :
  controller_ok c →
  ∃ d c', on_stats stats c = Some (d, c') ∧
    (fgt (ns_rtt_ms stats) (F64.of_Z 300) = true → bd_bitrate_bps d = bc_min_bitrate (ac_config c)) ∧
    (fgt (ns_packet_loss stats) (F64.lit 5 100) = true → bd_bitrate_bps d ≤ ac_current_bitrate c).
Proof.
  intros (Hc & Hmin & Hmax). unfold on_stats, checked_clamp. cbn [ac_config].
  rewrite (proj2 (Z.leb_le _ _)) by lia. cbn [mbind option_bind].
  destruct (compute_fec _ _) as [fec depth]. eexists _, _. split; [done|]. cbn [bd_bitrate_bps].
  unfold next_bitrate. cbn [ac_config ac_current_bitrate]. split.
  - intros ->. unfold clamp. rewrite Z.ltb_irrefl, (proj2 (Z.ltb_ge _ _)) by lia. done.
  - intros ->. pose proof (three_quarters_le (ac_current_bitrate c) ltac:(lia)) as Hq.
    unfold clamp. destruct (fgt _ _); repeat case_match; lia.
Qed.

Lemma run_controller_ok (l : list NetworkStats) (c : AdaptiveBitrateController) :
  controller_ok c →
  ∃ ds c', run_controller l c = Some (ds, c') ∧ length ds = length l ∧ controller_ok c' ∧ ac_config c' = ac_config c ∧
    Forall (λ d, bc_min_bitrate (ac_config c) ≤ bd_bitrate_bps d ≤ bc_max_bitrate (ac_config c)) ds.
Proof.
  revert c. induction l as [|stats l IH]; intros c Hc; [by exists [], c|]. cbn.
  destruct (on_stats_ok stats c Hc) as (d & c1 & -> & Hc1 & Hcfg1 & Hd). cbn.
  destruct (IH c1 Hc1) as (ds & c2 & -> & Hlen & Hc2 & Hcfg2 & Hds). cbn. exists (d :: ds), c2.
  rewrite Hcfg1 in *. split_and!; [done|cbn; lia|done|done|]. constructor; [|done]. rewrite <-Hd, <-Hcfg1. apply Hc1.
Qed.

(** Whatever the network does, the controller never panics and every bitrate it
    chooses is within the configured limits; at every point a report of more than 5%
    loss does not raise it, with the rounding of the multiplication by 0.75, and a
    round trip of more than 300 ms drops it to the minimum. *)
Theorem bitrate_within_limits (config : BitrateConfig) (l : list NetworkStats) :
  bc_min_bitrate config ≤ bc_max_bitrate config → 0 < bc_min_bitrate config →
  bc_max_bitrate config < u32_modulus →
  ∃ c ds c', controller_new config = Some c ∧ run_controller l c = Some (ds, c') ∧ length ds = length l ∧
    Forall (λ d, bc_min_bitrate config ≤ bd_bitrate_bps d ≤ bc_max_bitrate config) ds ∧
    ∀ stats, ∃ d c'', on_stats stats c' = Some (d, c'') ∧
      (fgt (ns_rtt_ms stats) (F64.of_Z 300) = true → bd_bitrate_bps d = bc_min_bitrate config) ∧
      (fgt (ns_packet_loss stats) (F64.lit 5 100) = true → bd_bitrate_bps d ≤ ac_current_bitrate c').
Proof.
  intros Hle Hmin Hmax. unfold controller_new, checked_clamp. rewrite (proj2 (Z.leb_le _ _)) by done. cbn.
  set (c := mkController _ _ _ _). assert (Hc : controller_ok c) by (split; [by apply clamp_range|done]).
  destruct (run_controller_ok l c Hc) as (ds & c' & Hrun & Hlen & Hc' & Hcfg & Hds).
  exists c, ds, c'. split_and!; try done. intros stats.
  destruct (loss_lowers_bitrate stats c' Hc') as (d & c'' & ? & Hrtt & ?). rewrite Hcfg in Hrtt. by exists d, c''.
Qed.

(** Redundancy depends on the last loss alone: it ends as soon as loss is at most
    2%, without the delay the comment on [AdaptiveBitrateController] promises. *)
Theorem fec_off_at_once (packet_loss : spec_float) (c : AdaptiveBitrateController) :
  fgt packet_loss (F64.lit 2 100) = false → fgt packet_loss (F64.lit 10 100) = false →
  compute_fec packet_loss c = (false, 0).
Proof. unfold compute_fec. intros -> ->. by destruct (fge _ _). Qed.

(** ** The statistics *)

Lemma ratio_range (a b : Z) :
  0 ≤ a ≤ b → 0 < b < 2 ^ 53 →
  fin_range (F64.of_Z 0) (F64.of_Z 1) (F64.div (F64.of_Z a) (F64.of_Z b)).
Proof.
  intros Ha Hb. destruct (normalize_exact F64.prec F64.emax ltac:(done) b) as (mb & eb & Hob & Heb & Hmb & Hbb);
    [done..|]. unfold fin_range, F64.div. change (F64.of_Z b) with (binary_normalize F64.prec F64.emax b 0 false).
  rewrite Hob. destruct (decide (a = 0)) as [->|Hne]; [done|].
  split; [apply div_nonneg, normalize_nonneg; lia|].
  destruct (normalize_exact F64.prec F64.emax ltac:(done) a) as (ma & ea & Hoa & Hea & Hma & Hba);
    [done..|unfold F64.prec; lia|].
  change (F64.of_Z a) with (binary_normalize F64.prec F64.emax a 0 false). rewrite Hoa.
  set (z := Z.min ea (eb - 52)).
  destruct (div_upper F64.prec F64.emax ma ea mb eb 4503599627370496 (-52) z)
    as [->|(m & e & -> & He & Hm)]; [done|lia|lia| |done|].
  { rewrite Pos2Z.inj_mul, Hma, Hmb.
    replace (a * 2 ^ (- ea) * 2 ^ (ea - z)) with (a * 2 ^ (- z))
      by (rewrite <-Z.mul_assoc, <-Z.pow_add_r by lia; do 2 f_equal; lia).
    change 4503599627370496 with (2 ^ 52).
    replace (2 ^ 52 * (b * 2 ^ (- eb)) * 2 ^ (-52 + eb - z)) with (b * 2 ^ (- z)).
    - apply Z.mul_le_mono_nonneg_r; [apply Z.pow_nonneg|]; lia.
    - replace (- z) with (52 + (- eb + (-52 + eb - z))) by lia. rewrite !Z.pow_add_r by lia. lia. }
  change (F64.of_Z 1) with (S754_finite false 4503599627370496 (-52)). apply fle_key. split_and!; [done..|].
  cbn. destruct (decide (e = -52)) as [->|]; [|lia]. rewrite Z.sub_diag, Z.mul_1_r in Hm. lia.
Qed.

(** The counters of the monitor: at most one expected packet per sequence number
    of half the space for each received, and a window of the last hundred jitters. *)
Record monitor_ok (m : RealNetworkMonitor) : Prop := {
  mo_expected : 0 ≤ rm_total_expected m ≤ 32767 * rm_total_received m + 1;
  mo_window : (length (rm_jitter_window m) ≤ JITTER_WINDOW_SIZE)%nat
}.

(** 2^38 packets, far more than a call ever carries. *)
Definition max_packets : Z := 274877906944.

Lemma sort_length (l : list (Z * Instant)) : length (sort_by_seq l) = length l.
Proof.
  assert (Hi : ∀ x l, length (insert_by_seq x l) = S (length l)).
  { intros x l'. induction l' as [|y l' IH]; cbn; [done|]. destruct (_ <? _); cbn; lia. }
  unfold sort_by_seq. change (length l) with (length (@nil (Z * Instant)) + length l)%nat.
  generalize (@nil (Z * Instant)) as acc. induction l as [|x l IH]; intros acc; cbn; [lia|]. rewrite IH, Hi. lia.
Qed.

Lemma ingest_one_ok (a : Z * Instant) (m : RealNetworkMonitor) :
  monitor_ok m → 0 ≤ rm_total_received m < max_packets →
  monitor_ok (ingest_one a m) ∧ rm_total_received (ingest_one a m) = rm_total_received m + 1.
Proof.
  unfold max_packets. intros [He Hw] Hr. unfold ingest_one. destruct a as [seq t].
  destruct (ingest_seq seq m) as [[mx ex] ini] eqn:Hseq. destruct (ingest_jitter t m) as [ema win] eqn:Hj.
  assert (Hmod : (rm_total_received m + 1) `mod` u64_modulus = rm_total_received m + 1)
    by (apply Z.mod_small; unfold u64_modulus; lia).
  cbn [rm_total_received]. rewrite Hmod. split; [|done]. split; cbn [rm_total_expected rm_total_received rm_jitter_window].
  - revert Hseq. unfold ingest_seq. destruct (rm_max_seq m); [|intros [= <- <- <-]; lia].
    destruct (_ && _) eqn:Hd; intros [= <- <- <-]; [|lia].
    apply andb_true_iff in Hd as [?%Z.ltb_lt ?%Z.leb_le]. unfold u64_modulus. rewrite Z.mod_small by lia. lia.
  - revert Hj. unfold ingest_jitter. destruct (rm_prev_arrival m); [|by intros [= <- <-]].
    destruct (rm_prev_seq m); [|by intros [= <- <-]].
    assert (0 < JITTER_WINDOW_SIZE)%nat by (unfold JITTER_WINDOW_SIZE; lia). generalize dependent JITTER_WINDOW_SIZE.
    intros size Hw Hpos [= <- <-]. rewrite length_app. cbn [length].
    destruct (Nat.leb_spec size (length (rm_jitter_window m))); [|lia].
    destruct (rm_jitter_window m); cbn [tail length] in *; lia.
Qed.

Lemma ingest_all_ok (l : list (Z * Instant)) (m : RealNetworkMonitor) :
  monitor_ok m → 0 ≤ rm_total_received m → rm_total_received m + len l < max_packets →
  let m' := foldl (λ m a, ingest_one a m) m l in
  monitor_ok m' ∧ rm_total_received m' = rm_total_received m + len l.
Proof.
  revert m. induction l as [|a l IH]; intros m Hm Hr Hl; cbn -[Z.of_nat] in *; [split; [done|lia]|].
  destruct (ingest_one_ok a m) as [Hm' Hr']; [done|lia|]. destruct (IH (ingest_one a m)) as [? Heq]; [done|lia|lia|].
  split; [done|]. rewrite Heq, Hr'. lia.
Qed.

(** What a poll reports: a loss ratio between 0 and 1 and a jitter window of at most
    a hundred samples, however packets are lost, repeated or reordered. *)
Theorem poll_stats_sound (m : RealNetworkMonitor) :
  monitor_ok m → 0 ≤ rm_total_received m → rm_total_received m + len (in_pending (rm_input m)) < max_packets →
  let '(stats, m') := poll_stats m in
  fin_range (F64.of_Z 0) (F64.of_Z 1) (ns_packet_loss stats) ∧ monitor_ok m' ∧
  in_pending (rm_input m') = [] ∧
  rm_total_received m' = rm_total_received m + len (in_pending (rm_input m)).
Proof.
  intros Hm Hr Hl. unfold poll_stats. set (m0 := mkMonitor _ _ _ _ _ _ _ _ _).
  assert (Hm0 : monitor_ok m0) by (by destruct Hm; split).
  destruct (bool_decide (in_pending (rm_input m) = []) && _) eqn:Hg.
  { apply andb_true_iff in Hg as [Hnil%bool_decide_eq_true _]. rewrite Hnil. cbn. split_and!; [vm_compute; done|done..|lia]. }
  destruct (ingest_all_ok (sort_by_seq (in_pending (rm_input m))) m0) as [Hm' Hr']; [done..|by rewrite sort_length|].
  rewrite sort_length in Hr'. cbv zeta in Hm', Hr'. fold (ingest (in_pending (rm_input m)) m0) in Hm', Hr'.
  assert (Hpend : ∀ l m, in_pending (rm_input (foldl (λ m a, ingest_one a m) m l)) = in_pending (rm_input m)).
  { intros l. induction l as [|a l IH]; intros m1; cbn; [done|]. rewrite IH. unfold ingest_one. destruct a.
    by destruct (ingest_seq _ _) as [[??]?], (ingest_jitter _ _). }
  split_and!; [|done|by unfold ingest; rewrite Hpend|done]. cbn [ns_packet_loss]. unfold packet_loss_ratio.
  destruct (Z.eqb_spec (rm_total_expected (ingest (in_pending (rm_input m)) m0)) 0); [vm_compute; done|].
  destruct Hm' as [He _]. apply ratio_range; unfold saturating_sub, max_packets in *; cbn in Hr'; [lia|].
  change (2 ^ 53) with 9007199254740992. lia.
Qed.

(** A source's round-trip measurement is taken at most once a second. *)
Theorem rtt_at_most_once_a_second (now t : Instant) (rtt : spec_float) (i : NetworkMonitorInput) :
  in_last_rtcp i = Some t → duration_since now t < from_secs 1 → set_rtt now rtt RttRtcp i = i.
Proof. intros Hl Hd. unfold set_rtt, rtt_too_soon. by rewrite Hl, (proj2 (Z.ltb_lt _ _)). Qed.

(** A new monitor satisfies the invariant, and polling a lost packet reports it. *)
Example loss_seen :
  let i := record_packet 60 3 (record_packet 40 1 (record_packet 20 0 input_new)) in
  let '(stats, m) := poll_stats (monitor_new i) in
  ns_packet_loss stats = F64.lit 1 4 ∧ rm_total_expected m = 4 ∧ rm_total_received m = 3.
Proof. vm_compute. done. Qed.

Lemma bitrate_within_limits_witness :
  bc_min_bitrate BitrateConfig_default ≤ bc_max_bitrate BitrateConfig_default ∧
  ∃ c ds c', controller_new BitrateConfig_default = Some c ∧
    run_controller [NetworkStats_default; NetworkStats_default] c = Some (ds, c') ∧ length ds = 2%nat ∧
    Forall (λ d, 16000 ≤ bd_bitrate_bps d ≤ 64000) ds ∧
    ∀ stats, ∃ d c'', on_stats stats c' = Some (d, c'') ∧
      (fgt (ns_rtt_ms stats) (F64.of_Z 300) = true → bd_bitrate_bps d = 16000) ∧
      (fgt (ns_packet_loss stats) (F64.lit 5 100) = true → bd_bitrate_bps d ≤ ac_current_bitrate c').
Proof.
  split; [vm_compute; done|].
  exact (bitrate_within_limits BitrateConfig_default [NetworkStats_default; NetworkStats_default]
           ltac:(vm_compute; done) ltac:(vm_compute; done) ltac:(vm_compute; done)).
Defined.
