(* ===== verification/AudioBuffer.v ===== *)
(** * Audio between the device and the network
    (clients/shared/src/audio_buffer.rs, peer_volumes.rs, audio_mixer.rs,
    audio_meter.rs)

    The volume of each peer and its gain curve, the ring buffer that carries mono
    samples with its two ways of shedding a backlog, the mixer and the meter.  Samples are
    [f32]s.  A [usize] is a [nat]: positions only grow, by one per sample, and
    would need millions of years to leave 64 bits.  [write] and [write_mono] return
    [None] where the source panics. *)

From Stdlib Require Import Floats.SpecFloat.
From S2P Require Import Prelude Floats JitterBuffer.
Local Open Scope Z_scope.

(** ** Volumes (peer_volumes.rs) *)

Definition DEFAULT_VOLUME : Z := 70.
Definition MAX_GAIN : spec_float := F32.of_Z 3.
Definition MAX_PEER_VOLUMES : Z := 6.

(** [perceptual_gain]. *)
Definition perceptual_gain (vol : Z) : spec_float :=
  let normalized := F32.div (F32.of_Z (Z.min vol 100)) (F32.of_Z 100) in
  let curved := F32.mul (F32.mul normalized normalized) normalized in
  F32.mul curved MAX_GAIN.

(** [PeerVolumes]: the map behind the lock. *)
Abbreviation PeerVolumes := (gmap string Z) (only parsing).

(** [PeerVolumes::set], [get], [gain], [remove], [clear]. *)
Definition volumes_set (peer_id : string) (vol : Z) (m : PeerVolumes) : PeerVolumes :=
  if bool_decide (is_Some (m !! peer_id)) || (map_len m <? MAX_PEER_VOLUMES)
  then <[peer_id := Z.min vol 100]> m else m.
Definition volumes_get (peer_id : string) (m : PeerVolumes) : Z := default DEFAULT_VOLUME (m !! peer_id).
Definition volumes_gain (peer_id : string) (m : PeerVolumes) : spec_float :=
  perceptual_gain (volumes_get peer_id m).
Definition volumes_remove (peer_id : string) (m : PeerVolumes) : PeerVolumes := delete peer_id m.
Definition volumes_clear (m : PeerVolumes) : PeerVolumes := ∅.

(** ** The ring buffer (audio_buffer.rs) *)

Definition DEFAULT_TARGET_OCCUPANCY_MS : nat := 80.
Definition DEFAULT_MAX_MARGIN_MS : nat := 40.
Definition DEFAULT_PLAYBACK_BUFFER_DURATION_MS : nat := 600.
Definition DEFAULT_PLAYBACK_TARGET_OCCUPANCY_MS : nat := 300.
Definition DEFAULT_PLAYBACK_MAX_MARGIN_MS : nat := 150.

(** [AudioBuffer]: what is behind the lock, and the volume. *)
Record AudioBuffer : Type := mkAudioBuffer {
  ab_buf : list spec_float;
  ab_write_pos : nat;
  ab_read_pos : nat;
  ab_capacity : nat;
  ab_write_channels : nat;
  ab_underruns : Z;
  ab_overruns : Z;
  ab_target_occupancy_samples : nat;
  ab_max_margin_samples : nat;
  ab_backlog_drops : Z;
  ab_backlog_dropped_samples : Z;
  ab_volume : Z
}.

(** Writes to some fields. *)
Definition ab_set (buf : list spec_float) (wp rp : nat) (over : Z) (b : AudioBuffer) : AudioBuffer :=
  mkAudioBuffer buf wp rp (ab_capacity b) (ab_write_channels b) (ab_underruns b) over
    (ab_target_occupancy_samples b) (ab_max_margin_samples b) (ab_backlog_drops b)
    (ab_backlog_dropped_samples b) (ab_volume b).
Definition ab_read (rp : nat) (under : Z) (b : AudioBuffer) : AudioBuffer :=
  mkAudioBuffer (ab_buf b) (ab_write_pos b) rp (ab_capacity b) (ab_write_channels b) under (ab_overruns b)
    (ab_target_occupancy_samples b) (ab_max_margin_samples b) (ab_backlog_drops b)
    (ab_backlog_dropped_samples b) (ab_volume b).
Definition ab_drop (n : nat) (b : AudioBuffer) : AudioBuffer :=
  mkAudioBuffer (ab_buf b) (ab_write_pos b) (ab_read_pos b + n) (ab_capacity b) (ab_write_channels b)
    (ab_underruns b) (ab_overruns b) (ab_target_occupancy_samples b) (ab_max_margin_samples b)
    (incr_u64 (ab_backlog_drops b)) ((ab_backlog_dropped_samples b + Z.of_nat n) `mod` u64_modulus) (ab_volume b).

(** The fill, [write_pos.saturating_sub(read_pos)], and the level above which
    samples are shed. *)
Definition fill (b : AudioBuffer) : nat := ab_write_pos b - ab_read_pos b.
Definition threshold (b : AudioBuffer) : nat := ab_target_occupancy_samples b + ab_max_margin_samples b.

(** [preempt_for_incoming]. *)
Definition preempt_for_incoming (incoming_samples : nat) (b : AudioBuffer) : AudioBuffer :=
  let projected := (fill b + incoming_samples)%nat in
  if (threshold b <? projected)%nat then
    let over := (projected - threshold b)%nat in
    let drop := Nat.min over (fill b) in
    if (0 <? drop)%nat then ab_drop drop b else b
  else b.

(** [enforce_backlog_drop]. *)
Definition enforce_backlog_drop (b : AudioBuffer) : AudioBuffer :=
  if (threshold b <? fill b)%nat then
    let excess := (fill b - ab_target_occupancy_samples b)%nat in
    let max_drop := (fill b - 960)%nat in
    let drop := Nat.min excess max_drop in
    if (0 <? drop)%nat then ab_drop drop b else b
  else b.

(** [AudioBuffer::with_target] and [new]. *)
Definition with_target (duration_ms target_occupancy_ms max_margin_ms : nat) : AudioBuffer :=
  let capacity := (48 * duration_ms)%nat in
  mkAudioBuffer (replicate capacity (F32.of_Z 0)) 0 0 capacity 1 0 0
    (target_occupancy_ms * 48) (max_margin_ms * 48) 0 0 DEFAULT_VOLUME.
Definition audio_buffer_new (duration_ms : nat) : AudioBuffer :=
  with_target duration_ms DEFAULT_TARGET_OCCUPANCY_MS DEFAULT_MAX_MARGIN_MS.

(** [set_write_channels]. *)
Definition set_write_channels (channels : nat) (b : AudioBuffer) : AudioBuffer :=
  mkAudioBuffer (ab_buf b) (ab_write_pos b) (ab_read_pos b) (ab_capacity b) (Nat.max channels 1)
    (ab_underruns b) (ab_overruns b) (ab_target_occupancy_samples b) (ab_max_margin_samples b)
    (ab_backlog_drops b) (ab_backlog_dropped_samples b) (ab_volume b).

(** [set_volume] and [volume]. *)
Definition set_volume (vol : Z) (b : AudioBuffer) : AudioBuffer :=
  mkAudioBuffer (ab_buf b) (ab_write_pos b) (ab_read_pos b) (ab_capacity b) (ab_write_channels b)
    (ab_underruns b) (ab_overruns b) (ab_target_occupancy_samples b) (ab_max_margin_samples b)
    (ab_backlog_drops b) (ab_backlog_dropped_samples b) (Z.min vol 100).

(** One mono sample into the ring: the remainder by a zero capacity panics. *)
Definition write_sample (s : spec_float) (b : AudioBuffer) : option AudioBuffer :=
  if (ab_capacity b =? 0)%nat then None
  else
    let idx := (ab_write_pos b `mod` ab_capacity b)%nat in
    let buf := <[idx := s]> (ab_buf b) in
    let write_pos := (ab_write_pos b + 1)%nat in
    let available := (write_pos - ab_read_pos b)%nat in
    Some (if (ab_capacity b <? available)%nat
          then ab_set buf write_pos (write_pos - ab_capacity b) (incr_u64 (ab_overruns b)) b
          else ab_set buf write_pos (ab_read_pos b) (ab_overruns b) b).

Fixpoint write_samples (l : list spec_float) (b : AudioBuffer) : option AudioBuffer :=
  match l with
  | [] => Some b
  | s :: l => b ← write_sample s b; write_samples l b
  end.

(** [write_mono]. *)
Definition write_mono (samples : list spec_float) (b : AudioBuffer) : option AudioBuffer :=
  b ← write_samples samples (preempt_for_incoming (length samples) b);
  Some (enforce_backlog_drop b).

(** The average of one interleaved frame, and the mono signal: a trailing partial
    frame is ignored. *)
Definition downmix_frame (frame : list spec_float) : spec_float :=
  match frame with
  | [s] => s
  | _ => F32.div (foldl F32.add (S754_zero true) frame) (F32.of_Z (len frame))
  end.
Definition downmix (ch : nat) (samples : list spec_float) : list spec_float :=
  (λ i, downmix_frame (take ch (drop (i * ch) samples))) <$> seq 0 (length samples / ch).

(** [write].  The channel count is never 0; [checked_div] would then skip the
    preemptive drop. *)
Definition write (samples : list spec_float) (b : AudioBuffer) : option AudioBuffer :=
  let ch := ab_write_channels b in
  let b := if (ch =? 0)%nat then b else preempt_for_incoming (length samples / ch) b in
  b ← write_samples (downmix ch samples) b;
  Some (enforce_backlog_drop b).

(** A slot of the ring. *)
Definition slot (b : AudioBuffer) (pos : nat) : spec_float :=
  default (F32.of_Z 0) (ab_buf b !! (pos `mod` ab_capacity b)%nat).

(** [read]: the samples read, and how many: the rest of [out] is left as it was. *)
Definition read (out_len : nat) (b : AudioBuffer) : list spec_float * AudioBuffer :=
  let gain := perceptual_gain (ab_volume b) in
  let to_read := Nat.min out_len (fill b) in
  let underruns := if (to_read <? out_len)%nat then incr_u64 (ab_underruns b) else ab_underruns b in
  ((λ i, F32.mul (slot b (ab_read_pos b + i)) gain) <$> seq 0 to_read,
   ab_read (ab_read_pos b + to_read) underruns b).

(** [available], [fill_ms], [backlog_dropped_ms]. *)
Definition fill_ms (b : AudioBuffer) : nat := fill b / 48.
Definition backlog_dropped_ms (b : AudioBuffer) : Z := ab_backlog_dropped_samples b `div` 48.

(** [skip_frames]; the product of two counts is taken to fit a [usize]. *)
Definition skip_frames (n frame_samples : nat) (b : AudioBuffer) : AudioBuffer :=
  let actual_skip := Nat.min (n * frame_samples) (fill b) in
  ab_read (ab_read_pos b + actual_skip) (ab_underruns b) b.

(** [peek_recent]: the whole of [out], and the number of real samples. *)
Definition peek_recent (out_len : nat) (b : AudioBuffer) : list spec_float * nat :=
  let to_peek := Nat.min out_len (fill b) in
  let start := (ab_write_pos b - to_peek)%nat in
  (((λ i, slot b (start + i)) <$> seq 0 to_peek) ++ replicate (out_len - to_peek) (F32.of_Z 0), to_peek).

(** ** The mixer (audio_mixer.rs) *)

(** One track added into the output, as far as both go. *)
Fixpoint add_track (track output : list spec_float) : list spec_float :=
  match track, output with
  | t :: track, o :: output => F32.add o t :: add_track track output
  | _, _ => output
  end.

(** [mix_audio_tracks]: only the length of the old output matters. *)
Definition mix_audio_tracks (tracks : list (list spec_float)) (output : list spec_float) : list spec_float :=
  fclamp (F32.of_Z (-1)) (F32.of_Z 1) <$>
    foldl (λ out t, add_track t out) ((λ _, F32.of_Z 0) <$> output) tracks.

(** ** The meter (audio_meter.rs)

    The counters are relaxed atomics that one audio thread updates. *)
Record AudioMeter : Type := mkMeter {
  am_sum_sq : spec_float;
  am_sample_count : Z;
  am_peak : spec_float;
  am_clipped : Z;
  am_frame_count : Z
}.
Definition meter_new : AudioMeter := mkMeter (F64.of_Z 0) 0 (F32.of_Z 0) 0 0.

(** [analyze]. *)
Definition analyze_sample (acc : spec_float * spec_float * Z) (s : spec_float) : spec_float * spec_float * Z :=
  let '(sum_sq, peak, clipped) := acc in
  let a := SFabs s in
  (F64.add sum_sq (F64.mul (F64.of_f32 a) (F64.of_f32 a)),
   if fgt a peak then a else peak,
   if fge a (F32.of_Z 1) then clipped + 1 else clipped).
Definition analyze (samples : list spec_float) (m : AudioMeter) : AudioMeter :=
  let '(sum_sq, peak, clipped) := foldl analyze_sample (F64.of_Z 0, F32.of_Z 0, 0) samples in
  mkMeter (F64.add (am_sum_sq m) sum_sq) ((am_sample_count m + len samples) `mod` u64_modulus)
    (if fgt peak (am_peak m) then peak else am_peak m)
    ((am_clipped m + clipped) `mod` u64_modulus) (incr_u64 (am_frame_count m)).

(** [snapshot] and [reset]. *)
Record MeterSnapshot : Type := mkMeterSnapshot {
  snap_rms : spec_float;
  snap_peak : spec_float;
  snap_clipped_samples : Z;
  snap_frames : Z
}.
Definition meter_snapshot (m : AudioMeter) : MeterSnapshot :=
  mkMeterSnapshot
    (if 0 <? am_sample_count m
     then F32.of_f64 (F64.sqrt (F64.div (am_sum_sq m) (F64.of_Z (am_sample_count m))))
     else F32.of_Z 0)
    (am_peak m) (am_clipped m) (am_frame_count m).
Definition meter_reset (m : AudioMeter) : AudioMeter := meter_new.

(** ** The ring buffer is a bounded queue *)

Definition queue (b : AudioBuffer) : list spec_float := (λ i, slot b (ab_read_pos b + i)) <$> seq 0 (fill b).

(** The queue each operation must implement: the newest [n] of a list, .. *)
Definition keep_last {A} (n : nat) (l : list A) : list A := drop (length l - n) l.

(** .. what a write sheds before it, .. *)
Definition queue_preempt {A} (limit incoming : nat) (q : list A) : list A := drop (length q + incoming - limit) q.

(** .. and after it. *)
Definition queue_trim {A} (target limit : nat) (q : list A) : list A :=
  if (limit <? length q)%nat then drop (Nat.min (length q - target) (length q - 960)) q else q.

Definition queue_write (target limit capacity : nat) (xs q : list spec_float) : list spec_float :=
  queue_trim target limit (keep_last capacity (queue_preempt limit (length xs) q ++ xs)).

Record ring_ok (b : AudioBuffer) : Prop := {
  ro_capacity : (0 < ab_capacity b)%nat;
  ro_length : length (ab_buf b) = ab_capacity b;
  ro_order : (ab_read_pos b ≤ ab_write_pos b)%nat;
  ro_fill : (fill b ≤ ab_capacity b)%nat
}.

(** The configuration of a buffer: no sample operation changes it. *)
Definition same_config (b b' : AudioBuffer) : Prop :=
  ab_capacity b' = ab_capacity b ∧ ab_write_channels b' = ab_write_channels b ∧
  ab_target_occupancy_samples b' = ab_target_occupancy_samples b ∧
  ab_max_margin_samples b' = ab_max_margin_samples b ∧ ab_volume b' = ab_volume b.

Lemma same_config_trans (b1 b2 b3 : AudioBuffer) : same_config b1 b2 → same_config b2 b3 → same_config b1 b3.
Proof. unfold same_config. intros. intuition congruence. Qed.

Lemma queue_length (b : AudioBuffer) : length (queue b) = fill b.
Proof. unfold queue. by rewrite length_fmap, length_seq. Qed.

Lemma mod_distinct (a b c : nat) : (a < b)%nat → (b - a < c)%nat → (a `mod` c)%nat ≠ (b `mod` c)%nat.
Proof.
  intros Hab Hc Heq. pose proof (Nat.div_mod a c ltac:(lia)). pose proof (Nat.div_mod b c ltac:(lia)).
  assert ((b - a) = c * (b / c - a / c))%nat by (rewrite Nat.mul_sub_distr_l; lia).
  destruct (b / c - a / c)%nat eqn:?; nia.
Qed.

(** Dropping from the front. *)
Lemma queue_advance (n : nat) (b b' : AudioBuffer) :
  (n ≤ fill b)%nat → ab_buf b' = ab_buf b → ab_write_pos b' = ab_write_pos b →
  ab_read_pos b' = (ab_read_pos b + n)%nat → ab_capacity b' = ab_capacity b →
  queue b' = drop n (queue b).
Proof.
  unfold queue, fill, slot. intros Hn Hbuf Hw Hr Hc. rewrite Hbuf, Hw, Hr, Hc. rewrite <-fmap_drop, drop_seq.
  replace (ab_write_pos b - (ab_read_pos b + n))%nat with (ab_write_pos b - ab_read_pos b - n)%nat by lia.
  replace (seq (0 + n) _) with (Nat.add n <$> seq 0 (ab_write_pos b - ab_read_pos b - n))
    by (rewrite fmap_add_seq; f_equal; lia).
  rewrite <-list_fmap_compose. apply list_fmap_ext. intros i x _. cbn. by rewrite Nat.add_assoc.
Qed.

Lemma ab_drop_ok (n : nat) (b : AudioBuffer) :
  ring_ok b → (n ≤ fill b)%nat →
  ring_ok (ab_drop n b) ∧ same_config b (ab_drop n b) ∧ queue (ab_drop n b) = drop n (queue b).
Proof.
  intros [Hc Hl Ho Hf] Hn. split_and!; [|by repeat split|by apply queue_advance].
  unfold fill in *. split; cbn; [done..|lia|]. unfold fill in *. cbn. lia.
Qed.

Lemma preempt_ok (n : nat) (b : AudioBuffer) :
  ring_ok b → let b' := preempt_for_incoming n b in
  ring_ok b' ∧ same_config b b' ∧ queue b' = queue_preempt (threshold b) n (queue b).
Proof.
  intros Hb. cbv zeta. unfold preempt_for_incoming, queue_preempt. rewrite queue_length.
  assert (Hsame : ring_ok b ∧ same_config b b ∧ queue b = drop 0 (queue b)) by (by repeat split; try apply Hb).
  destruct (Nat.ltb_spec (threshold b) (fill b + n)) as [Hlt|Hge];
    [|replace (fill b + n - threshold b)%nat with 0%nat by lia; done].
  destruct (Nat.ltb_spec 0 (Nat.min (fill b + n - threshold b) (fill b))) as [Hpos|Hz].
  - destruct (ab_drop_ok (Nat.min (fill b + n - threshold b) (fill b)) b) as (? & ? & Hq); [done|lia|].
    split_and!; [done..|]. rewrite Hq. destruct (Nat.min_spec (fill b + n - threshold b) (fill b)) as [[_ ->]|[Hle ->]]; [done|].
    rewrite !drop_ge; rewrite ?queue_length; [done|lia..].
  - destruct Hsame as (? & ? & _). split_and!; [done..|]. assert (Hf : fill b = 0%nat) by lia.
    pose proof (queue_length b) as Hq. rewrite Hf in Hq. apply nil_length_inv in Hq. rewrite Hq. by rewrite drop_nil.
Qed.

Lemma enforce_ok (b : AudioBuffer) :
  ring_ok b → let b' := enforce_backlog_drop b in
  ring_ok b' ∧ same_config b b' ∧ queue b' = queue_trim (ab_target_occupancy_samples b) (threshold b) (queue b).
Proof.
  intros Hb. cbv zeta. unfold enforce_backlog_drop, queue_trim. rewrite queue_length.
  destruct (threshold b <? fill b)%nat; [|by repeat split; try apply Hb].
  destruct (Nat.ltb_spec 0 (Nat.min (fill b - ab_target_occupancy_samples b) (fill b - 960))) as [Hpos|Hz].
  - apply ab_drop_ok; [done|lia].
  - rewrite (proj1 (Nat.le_0_r _) Hz). by repeat split; try apply Hb.
Qed.

Lemma keep_last_app {A} (n : nat) (l r : list A) : keep_last n (keep_last n l ++ r) = keep_last n (l ++ r).
Proof.
  unfold keep_last. replace (drop (length l - n) l ++ r) with (drop (length l - n) (l ++ r))
    by (by rewrite drop_app_le by lia).
  rewrite drop_drop, length_drop, !length_app. f_equal. lia.
Qed.

Lemma keep_last_all {A} (n : nat) (l : list A) : (length l ≤ n)%nat → keep_last n l = l.
Proof. intros Hl. unfold keep_last. by replace (length l - n)%nat with 0%nat by lia. Qed.

(** The slots that the sample just written does not overwrite. *)
Lemma slot_write (s : spec_float) (b b' : AudioBuffer) (pos : nat) :
  ring_ok b → ab_buf b' = <[(ab_write_pos b `mod` ab_capacity b)%nat := s]> (ab_buf b) →
  ab_capacity b' = ab_capacity b →
  (pos < ab_write_pos b)%nat → (ab_write_pos b - pos < ab_capacity b)%nat → slot b' pos = slot b pos.
Proof.
  intros [Hc Hl _ _] Hbuf Hcap Hlt Hgt. unfold slot. rewrite Hbuf, Hcap.
  rewrite list_lookup_insert_ne; [done|]. apply not_eq_sym. by apply mod_distinct.
Qed.

Lemma slot_written (s : spec_float) (b b' : AudioBuffer) :
  ring_ok b → ab_buf b' = <[(ab_write_pos b `mod` ab_capacity b)%nat := s]> (ab_buf b) →
  ab_capacity b' = ab_capacity b → slot b' (ab_write_pos b) = s.
Proof.
  intros [Hc Hl _ _] Hbuf Hcap. unfold slot. rewrite Hbuf, Hcap, list_lookup_insert_eq; [done|].
  rewrite Hl. apply Nat.mod_upper_bound. lia.
Qed.

(** After a sample is written and the read position moved by [n]. *)
Lemma queue_snoc (n : nat) (s : spec_float) (b b' : AudioBuffer) :
  ring_ok b → ab_buf b' = <[(ab_write_pos b `mod` ab_capacity b)%nat := s]> (ab_buf b) →
  ab_capacity b' = ab_capacity b → ab_write_pos b' = (ab_write_pos b + 1)%nat →
  ab_read_pos b' = (ab_read_pos b + n)%nat → (n ≤ fill b)%nat → (fill b - n < ab_capacity b)%nat →
  queue b' = drop n (queue b) ++ [s].
Proof.
  intros Hb Hbuf Hc Hw Hr Hn Hfit. pose proof (ro_order b Hb). set (b1 := ab_read (ab_read_pos b + n) 0 b).
  rewrite <-(queue_advance n b b1) by done. unfold queue at 1.
  replace (fill b') with (S (fill b1)) by (unfold fill in *; cbn; lia).
  rewrite seq_S, fmap_app. cbn [fmap list_fmap]. rewrite Hr. f_equal.
  - apply list_fmap_ext. intros i x [-> Hi]%lookup_seq. unfold fill in *. cbn in Hi.
    rewrite (slot_write s b b'); [done..|lia|lia].
  - f_equal. replace (ab_read_pos b + n + _)%nat with (ab_write_pos b) by (unfold fill in *; cbn; lia).
    by apply slot_written.
Qed.

Lemma write_sample_ok (s : spec_float) (b : AudioBuffer) :
  ring_ok b → ∃ b', write_sample s b = Some b' ∧ ring_ok b' ∧ same_config b b' ∧
    queue b' = keep_last (ab_capacity b) (queue b ++ [s]).
Proof.
  intros Hb. pose proof Hb as [Hc Hl Ho Hf]. unfold write_sample.
  rewrite (proj2 (Nat.eqb_neq _ _)) by lia.
  unfold keep_last. rewrite length_app, queue_length. cbn [length]. unfold fill in *.
  destruct (Nat.ltb_spec (ab_capacity b) (ab_write_pos b + 1 - ab_read_pos b)) as [Hover|Hfit];
    (eexists; split; [done|]; split_and!; [|by repeat split|]).
  1,3: split; unfold fill; cbn; rewrite ?length_insert; (done || lia).
  - rewrite (queue_snoc 1 s b) by (unfold fill; cbn; (done || lia)).
    rewrite drop_app_le by (rewrite queue_length; unfold fill; lia). do 2 f_equal. lia.
  - rewrite (queue_snoc 0 s b) by (unfold fill; cbn; (done || lia)).
    replace (_ + 1 - _)%nat with 0%nat by lia. by rewrite !drop_0.
Qed.

Lemma write_samples_ok (xs : list spec_float) (b : AudioBuffer) :
  ring_ok b → ∃ b', write_samples xs b = Some b' ∧ ring_ok b' ∧ same_config b b' ∧
    queue b' = keep_last (ab_capacity b) (queue b ++ xs).
Proof.
  revert b. induction xs as [|x xs IH]; intros b Hb; cbn [write_samples].
  { exists b. split_and!; [done..|by repeat split|]. rewrite app_nil_r, keep_last_all; [done|].
    rewrite queue_length. apply Hb. }
  destruct (write_sample_ok x b Hb) as (b1 & -> & Hb1 & Hs1 & Hq1). cbn.
  destruct (IH b1 Hb1) as (b2 & -> & Hb2 & Hs2 & Hq2). exists b2. split_and!; [done..|by eapply same_config_trans|].
  rewrite Hq2, Hq1. destruct Hs1 as [-> _]. by rewrite keep_last_app, <-app_assoc.
Qed.

(** What the threads on both sides do to a buffer. *)
Inductive AudioOp : Type :=
| OpWrite (samples : list spec_float)
| OpWriteMono (samples : list spec_float)
| OpRead (out_len : nat)
| OpSkip (n frame_samples : nat)
| OpPeek (out_len : nat)
| OpSetChannels (channels : nat)
| OpSetVolume (vol : Z).

Definition audio_step (op : AudioOp) (b : AudioBuffer) : option (list spec_float * AudioBuffer) :=
  match op with
  | OpWrite xs => b' ← write xs b; Some ([], b')
  | OpWriteMono xs => b' ← write_mono xs b; Some ([], b')
  | OpRead n => Some (read n b)
  | OpSkip n f => Some ([], skip_frames n f b)
  | OpPeek n => Some ((peek_recent n b).1, b)
  | OpSetChannels c => Some ([], set_write_channels c b)
  | OpSetVolume v => Some ([], set_volume v b)
  end.

(** The queue the buffer stands for, with what the writer and the listener set. *)
Record SampleQueue : Type := mkSampleQueue {
  sq_samples : list spec_float;
  sq_channels : nat;
  sq_volume : Z
}.

Definition queue_step (target limit capacity : nat) (op : AudioOp) (q : SampleQueue)
    : list spec_float * SampleQueue :=
  let '(mkSampleQueue s ch vol) := q in
  match op with
  | OpWrite xs => ([], mkSampleQueue (queue_write target limit capacity (downmix ch xs) s) ch vol)
  | OpWriteMono xs => ([], mkSampleQueue (queue_write target limit capacity xs s) ch vol)
  | OpRead n => ((λ x, F32.mul x (perceptual_gain vol)) <$> take n s, mkSampleQueue (drop n s) ch vol)
  | OpSkip n f => ([], mkSampleQueue (drop (n * f) s) ch vol)
  | OpPeek n => (keep_last n s ++ replicate (n - length s) (F32.of_Z 0), q)
  | OpSetChannels c => ([], mkSampleQueue s (Nat.max c 1) vol)
  | OpSetVolume v => ([], mkSampleQueue s ch (Z.min v 100))
  end.

Fixpoint audio_run (ops : list AudioOp) (b : AudioBuffer) : option (list (list spec_float) * AudioBuffer) :=
  match ops with
  | [] => Some ([], b)
  | op :: ops => '(out, b) ← audio_step op b; '(outs, b) ← audio_run ops b; Some (out :: outs, b)
  end.
Fixpoint queue_run (target limit capacity : nat) (ops : list AudioOp) (q : SampleQueue)
    : list (list spec_float) * SampleQueue :=
  match ops with
  | [] => ([], q)
  | op :: ops =>
      let '(out, q) := queue_step target limit capacity op q in
      let '(outs, q) := queue_run target limit capacity ops q in (out :: outs, q)
  end.

Definition abstract (b : AudioBuffer) : SampleQueue := mkSampleQueue (queue b) (ab_write_channels b) (ab_volume b).

Lemma downmix_length (ch : nat) (xs : list spec_float) : length (downmix ch xs) = (length xs / ch)%nat.
Proof. unfold downmix. by rewrite length_fmap, length_seq. Qed.

Lemma write_all_ok (xs : list spec_float) (b : AudioBuffer) :
  ring_ok b →
  ∃ b', (b1 ← write_samples xs (preempt_for_incoming (length xs) b); Some (enforce_backlog_drop b1)) = Some b' ∧
    ring_ok b' ∧ same_config b b' ∧
    queue b' = queue_write (ab_target_occupancy_samples b) (threshold b) (ab_capacity b) xs (queue b).
Proof.
  intros Hb. destruct (preempt_ok (length xs) b Hb) as (Hb1 & Hs1 & Hq1).
  destruct (write_samples_ok xs _ Hb1) as (b2 & -> & Hb2 & Hs2 & Hq2). cbn.
  destruct (enforce_ok b2 Hb2) as (Hb3 & Hs3 & Hq3). eexists; split; [done|].
  pose proof (same_config_trans _ _ _ Hs1 Hs2) as Hs12. split_and!; [done|by eapply same_config_trans|].
  rewrite Hq3, Hq2, Hq1. unfold queue_write, threshold. destruct Hs12 as (_ & _ & -> & -> & _).
  by destruct Hs1 as (-> & _).
Qed.

(** Reading [k] samples forward from [pos]. *)
Lemma slots_take (n : nat) (b : AudioBuffer) :
  (λ i, slot b (ab_read_pos b + i)) <$> seq 0 (Nat.min n (fill b)) = take n (queue b).
Proof. unfold queue. rewrite <-fmap_take, take_seq. by rewrite Nat.min_comm. Qed.

Lemma read_ok (n : nat) (b : AudioBuffer) :
  ring_ok b → let '(out, b') := read n b in
  ring_ok b' ∧ same_config b b' ∧ queue b' = drop n (queue b) ∧
  out = (λ x, F32.mul x (perceptual_gain (ab_volume b))) <$> take n (queue b).
Proof.
  intros [Hc Hl Ho Hf]. unfold read. split_and!.
  - unfold fill in *. split; unfold fill; cbn; [done..|lia|lia].
  - by repeat split.
  - rewrite (queue_advance (Nat.min n (fill b)) b) by (done || lia).
    destruct (Nat.min_spec n (fill b)) as [[_ ->]|[Hle ->]]; [done|].
    rewrite !drop_ge; rewrite ?queue_length; [done|lia..].
  - rewrite <-slots_take, <-list_fmap_compose. done.
Qed.

Lemma skip_ok (n f : nat) (b : AudioBuffer) :
  ring_ok b → let b' := skip_frames n f b in
  ring_ok b' ∧ same_config b b' ∧ queue b' = drop (n * f) (queue b).
Proof.
  intros Hb. pose proof (read_ok (n * f) b Hb) as Hr. unfold read in Hr. unfold skip_frames. cbv zeta in *.
  destruct Hr as ([Hc Hl Ho Hf] & _ & Hq & _). split_and!; [by split|by repeat split|].
  rewrite <-Hq. reflexivity.
Qed.

Lemma peek_ok (n : nat) (b : AudioBuffer) :
  ring_ok b → (peek_recent n b).1 = keep_last n (queue b) ++ replicate (n - length (queue b)) (F32.of_Z 0).
Proof.
  intros [_ _ Ho _]. unfold peek_recent, keep_last. cbn [fst]. rewrite queue_length. f_equal; [|f_equal; lia].
  rewrite <-(queue_advance (fill b - n) b (ab_read (ab_read_pos b + (fill b - n)) 0 b)) by (done || lia).
  unfold queue. replace (fill (ab_read _ _ _)) with (Nat.min n (fill b)) by (unfold fill; cbn; lia).
  apply list_fmap_ext. intros i x _. cbn. unfold slot. cbn. do 3 f_equal. unfold fill. lia.
Qed.

(** One operation implements one step of the queue. *)
Definition refines_step (op : AudioOp) (b : AudioBuffer) : Prop :=
  ∃ out b', audio_step op b = Some (out, b') ∧ ring_ok b' ∧ (0 < ab_write_channels b')%nat ∧
    ab_capacity b' = ab_capacity b ∧ threshold b' = threshold b ∧
    ab_target_occupancy_samples b' = ab_target_occupancy_samples b ∧
    queue_step (ab_target_occupancy_samples b) (threshold b) (ab_capacity b) op (abstract b) = (out, abstract b').

Lemma refines_same_config (op : AudioOp) (b b' : AudioBuffer) (out s : list spec_float) :
  (0 < ab_write_channels b)%nat → same_config b b' → ring_ok b' → queue b' = s →
  queue_step (ab_target_occupancy_samples b) (threshold b) (ab_capacity b) op (abstract b) =
    (out, mkSampleQueue s (ab_write_channels b) (ab_volume b)) →
  audio_step op b = Some (out, b') → refines_step op b.
Proof.
  intros Hch (Hc & Hw & Ht & Hm & Hv) Hb' <- Hq Hs. exists out, b'. rewrite Hq. unfold abstract, threshold.
  rewrite Hc, Hw, Ht, Hm, Hv. by split_and!.
Qed.

Lemma step_refines (op : AudioOp) (b : AudioBuffer) :
  ring_ok b → (0 < ab_write_channels b)%nat → refines_step op b.
Proof.
  intros Hb Hch. destruct op as [xs|xs|n|n f|n|c|v].
  - assert (Hw : ∃ b', write xs b = Some b' ∧ ring_ok b' ∧ same_config b b' ∧
      queue b' = queue_write (ab_target_occupancy_samples b) (threshold b) (ab_capacity b) (downmix (ab_write_channels b) xs) (queue b)).
    { unfold write. rewrite (proj2 (Nat.eqb_neq _ _)) by lia. rewrite <-downmix_length. by apply write_all_ok. }
    destruct Hw as (b' & Hw & ? & ? & ?). eapply refines_same_config; [done..|]. cbn. by rewrite Hw.
  - destruct (write_all_ok xs b Hb) as (b' & Hw & ? & ? & ?). eapply refines_same_config; [done..|]. cbn.
    unfold write_mono. by rewrite Hw.
  - pose proof (read_ok n b Hb) as Hr. destruct (read n b) as [out b'] eqn:He. destruct Hr as (? & ? & ? & ->).
    eapply refines_same_config; [done..|]. cbn. by rewrite He.
  - destruct (skip_ok n f b Hb) as (? & ? & ?). by eapply refines_same_config.
  - eapply (refines_same_config _ b b); [done|by repeat split|done|done| |done]. by rewrite peek_ok.
  - eexists _, _. split; [done|]. split_and!; try done; [by destruct Hb; split|cbn; lia].
  - eexists _, _. split; [done|]. split_and!; try done. by destruct Hb; split.
Qed.

(** C22: The ring buffer is a bounded queue.  Over any interleaving of writes (mono
    or multi-channel), reads, skips, peeks and settings, from any configuration with
    room for a sample, nothing panics, the samples handed out are exactly those of
    the queue that sheds its oldest samples above the configured level, and never
    more than the capacity are held. *)
Theorem ring_refines_queue (duration_ms target_ms margin_ms : nat) (ops : list AudioOp) :
  (0 < duration_ms)%nat →
  let b0 := with_target duration_ms target_ms margin_ms in
  ∃ outs b, audio_run ops b0 = Some (outs, b) ∧
    queue_run (target_ms * 48) (target_ms * 48 + margin_ms * 48) (48 * duration_ms) ops
      (mkSampleQueue [] 1 DEFAULT_VOLUME) = (outs, abstract b) ∧
    (fill b ≤ 48 * duration_ms)%nat.
Proof.
  intros Hd b0. change (mkSampleQueue [] 1 DEFAULT_VOLUME) with (abstract b0).
  change (target_ms * 48)%nat with (ab_target_occupancy_samples b0) at 1.
  change (target_ms * 48 + margin_ms * 48)%nat with (threshold b0).
  change (48 * duration_ms)%nat with (ab_capacity b0).
  assert (Hb : ring_ok b0) by (split; cbn -[Nat.mul]; rewrite ?length_replicate; lia).
  assert (Hch : (0 < ab_write_channels b0)%nat) by (cbn; lia). clearbody b0.
  revert b0 Hb Hch. induction ops as [|op ops IH]; intros b Hb Hch; cbn [audio_run queue_run].
  { exists [], b. split_and!; [done..|]. apply Hb. }
  destruct (step_refines op b Hb Hch) as (out & b1 & -> & Hb1 & Hch1 & Hc & Ht & Ho & ->). cbn [mbind option_bind].
  destruct (IH b1 Hb1 Hch1) as (outs & b2 & Hrun & Hq & Hf). rewrite Hrun, <-Hc, <-Ht, <-Ho, Hq. cbn.
  by exists (out :: outs), b2.
Qed.

(** A write leaves at most the configured level of samples, or one frame. *)
Theorem write_bounds_latency (xs : list spec_float) (b b' : AudioBuffer) :
  ring_ok b → write_mono xs b = Some b' → (fill b' ≤ Nat.max (threshold b) 960)%nat.
Proof.
  intros Hb Hw. destruct (write_all_ok xs b Hb) as (b1 & Hw1 & _ & _ & Hq). unfold write_mono in Hw.
  rewrite Hw1 in Hw. injection Hw as ->. rewrite <-queue_length, Hq. unfold queue_write, queue_trim.
  set (q := keep_last _ _). destruct (Nat.ltb_spec (threshold b) (length q)); [|lia].
  rewrite length_drop. unfold threshold. lia.
Qed.

(** ** Mixing *)

Lemma add_track_length (t out : list spec_float) : length (add_track t out) = length out.
Proof. revert out. induction t as [|x t IH]; intros [|o out]; cbn; [done..|]. by rewrite IH. Qed.

Lemma add_track_lookup (t out : list spec_float) (i : nat) (o : spec_float) :
  out !! i = Some o →
  add_track t out !! i = Some (match t !! i with Some x => F32.add o x | None => o end).
Proof.
  revert out i. induction t as [|x t IH]; intros [|o' out] [|i]; cbn; try done; [by intros [= ->]..|].
  apply IH.
Qed.

Lemma mix_lookup (tracks : list (list spec_float)) (out : list spec_float) (i : nat) (o : spec_float) :
  out !! i = Some o →
  foldl (λ out t, add_track t out) out tracks !! i = Some (foldl F32.add o (omap (.!! i) tracks)).
Proof.
  revert out o. induction tracks as [|t tracks IH]; intros out o Ho; cbn; [done|].
  rewrite (IH _ _ (add_track_lookup t out i o Ho)). by destruct (t !! i).
Qed.

(** Each output sample is the clamped sum of the samples the tracks have there, and
    within -1 and 1 unless it is not a number. *)
Theorem mix_spec (tracks : list (list spec_float)) (output : list spec_float) :
  length (mix_audio_tracks tracks output) = length output ∧
  ∀ i x, mix_audio_tracks tracks output !! i = Some x →
    x = fclamp (F32.of_Z (-1)) (F32.of_Z 1) (foldl F32.add (F32.of_Z 0) (omap (.!! i) tracks)) ∧
    (is_nan (foldl F32.add (F32.of_Z 0) (omap (.!! i) tracks)) = false →
     fin_range (F32.of_Z (-1)) (F32.of_Z 1) x).
Proof.
  unfold mix_audio_tracks. split.
  - rewrite length_fmap. transitivity (length ((λ _ : spec_float, F32.of_Z 0) <$> output)); [|apply length_fmap].
    generalize ((λ _ : spec_float, F32.of_Z 0) <$> output). induction tracks as [|t tracks IH]; intros out; cbn; [done|].
    by rewrite IH, add_track_length.
  - intros i x. rewrite list_lookup_fmap. destruct (((λ _ : spec_float, F32.of_Z 0) <$> output) !! i) as [o|] eqn:Ho.
    + rewrite (mix_lookup tracks _ i o Ho). rewrite list_lookup_fmap in Ho. destruct (output !! i); [|done].
      injection Ho as <-. cbn. intros [= <-]. split; [done|]. by apply fclamp_range.
    + intros Hx. apply fmap_Some in Hx as (y & Hy & _). apply lookup_lt_Some in Hy. apply lookup_ge_None in Ho.
      exfalso. assert (Hl : ∀ ts out, length (foldl (λ out t, add_track t out) out ts) = length out).
      { intros ts. induction ts as [|t ts IH]; intros out; cbn; [done|]. by rewrite IH, add_track_length. }
      rewrite Hl in Hy. lia.
Qed.

(** ** Volumes *)

Definition volumes_ok (m : PeerVolumes) : Prop :=
  map_len m ≤ MAX_PEER_VOLUMES ∧ ∀ p v, m !! p = Some v → 0 ≤ v ≤ 100.

Theorem volumes_bounded (peer_id : string) (vol : Z) (m : PeerVolumes) :
  0 ≤ vol → volumes_ok m →
  volumes_ok (volumes_set peer_id vol m) ∧ volumes_ok (volumes_remove peer_id m) ∧
  0 ≤ volumes_get peer_id m ≤ 100.
Proof.
  intros Hv [Hs Hm]. split_and!.
  - unfold volumes_set. destruct (_ || _) eqn:Hg; [|by split]. split.
    + rewrite map_size_insert. unfold MAX_PEER_VOLUMES in *.
      apply orb_true_iff in Hg as [[x Hx]%bool_decide_eq_true|Hlt%Z.ltb_lt]; [by rewrite Hx|].
      destruct (m !! peer_id); cbn; lia.
    + intros p v [[<- <-]|[_ Hp]]%lookup_insert_Some; [lia|by eapply Hm].
  - unfold volumes_remove. split; [unfold MAX_PEER_VOLUMES in *; rewrite map_size_delete; destruct (m !! peer_id); cbn; lia|].
    intros p v [_ Hp]%lookup_delete_Some. by eapply Hm.
  - unfold volumes_get. destruct (m !! peer_id) eqn:Hp; cbn; [by eapply Hm|done].
  - unfold volumes_get. destruct (m !! peer_id) eqn:Hp; cbn; [by eapply Hm|done].
Qed.

(** The gain grows with the volume, from silence to three times, above the bound of
    2.0 stated on [PeerVolumes::gain]. *)
Theorem gain_monotone :
  (∀ v, 0 ≤ v < 100 → flt (perceptual_gain v) (perceptual_gain (v + 1)) = true) ∧
  perceptual_gain 0 = F32.of_Z 0 ∧ perceptual_gain 100 = F32.of_Z 3.
Proof.
  split; [|vm_compute; done]. intros v Hv.
  assert (Hall : forallb (λ n, flt (perceptual_gain (Z.of_nat n)) (perceptual_gain (Z.of_nat n + 1))) (seq 0 100) = true)
    by (vm_compute; done).
  rewrite forallb_forall in Hall. specialize (Hall (Z.to_nat v)). rewrite Z2Nat.id in Hall by lia.
  apply Hall, in_seq. lia.
Qed.

(** ** Examples *)

Lemma ring_refines_queue_witness :
  let ops := [OpWriteMono [F32.of_Z 1; F32.of_Z 2]; OpRead 1; OpSetChannels 2; OpSetVolume 100;
              OpWrite [F32.of_Z 2; F32.of_Z 4; F32.of_Z 9]; OpRead 5] in
  ∃ outs b, audio_run ops (with_target 1 80 40) = Some (outs, b) ∧
    queue_run (80 * 48) (80 * 48 + 40 * 48) (48 * 1) ops (mkSampleQueue [] 1 DEFAULT_VOLUME) = (outs, abstract b) ∧
    (fill b ≤ 48 * 1)%nat.
Proof. apply (ring_refines_queue 1 80 40). lia. Defined.

(** Stereo is averaged and a trailing half frame ignored. *)
Example ring_values :
  (fst <$> audio_run [OpWriteMono [F32.of_Z 1; F32.of_Z 2]; OpSetVolume 100; OpRead 1; OpSetChannels 2;
              OpWrite [F32.of_Z 2; F32.of_Z 4; F32.of_Z 9]; OpRead 5] (with_target 1 80 40)) =
  Some [[]; []; [F32.of_Z 3]; []; []; [F32.of_Z 6; F32.of_Z 9]].
Proof. vm_compute. done. Qed.

Example meter_counts :
  let m := analyze [F32.of_Z 1; F32.lit (-1) 2; F32.of_Z (-2)] meter_new in
  meter_snapshot m = mkMeterSnapshot (snap_rms (meter_snapshot m)) (F32.of_Z 2) 2 1.
Proof. vm_compute. done. Qed.
