(* ===== verification/CallSession.v ===== *)
(** * Calls between two clients (clients/shared/src/webrtc.rs, call_session.rs,
    signaling.rs, sdp_ice_guards.rs, audio.rs, ice_config.rs)

    [CallManager] takes a call from an offer to its end over two interfaces, the
    peer connection and the audio device; [CallSession] joins it to the signaling
    socket.  The traits are the class [ClientBackend] over a state of the outside
    world, with the mocks of the source as an instance; serde is two functions of
    the class.  Callbacks the backend makes are events of the session. *)

From S2P Require Import Prelude Signaling WsLimits.
Local Open Scope prog_scope.

(** ** Data *)

(** [AudioTrack], [AudioError], [CallError]. *)
Record AudioTrack : Type := mkAudioTrack { track_id : string }.
Inductive AudioError : Type :=
| MicrophoneDenied
| OutputUnavailable
| AudioOther (m : string).
Inductive CallError : Type :=
| CallMicrophoneDenied
| NegotiationFailed (m : string)
| IceFailed
| SignalingFailed (m : string)
| AlreadyInCall
| NoActiveCall
| CallAudio (e : AudioError).

(** [From<AudioError> for CallError]; the text of the other errors is [e] itself. *)
Definition CallError_from (e : AudioError) : CallError :=
  match e with MicrophoneDenied => CallMicrophoneDenied | _ => CallAudio e end.

(** [CallState] and [ConnectionState]. *)
Inductive CallState : Type := Idle | Negotiating | Connecting | Connected | Failed | Closed.
Inductive ConnectionState : Type :=
| ConnNew | ConnChecking | ConnConnected | ConnCompleted | ConnFailed | ConnDisconnected | ConnClosed.
#[global] Instance CallState_eq_dec : EqDecision CallState.
Proof. solve_decision. Defined.
#[global] Instance ConnectionState_eq_dec : EqDecision ConnectionState.
Proof. solve_decision. Defined.

(** [IceConfig], and [from_server]. *)
Record IceConfig : Type := mkIceConfig {
  stun_urls : list string;
  turn_urls : list string;
  turn_username : string;
  turn_credential : string
}.
Definition IceConfig_from_server (p : IceConfigPayload) : IceConfig :=
  mkIceConfig (IceConfig_stun_urls p) (IceConfig_turn_urls p) (IceConfig_turn_username p)
    (IceConfig_turn_credential p).
Definition clear_turn (c : IceConfig) : IceConfig :=
  mkIceConfig (stun_urls c) (turn_urls c) EmptyString EmptyString.

(** ** Guards *)

Definition MAX_SDP_SIZE : Z := 65536.
Definition MAX_ICE_CANDIDATE_SIZE : Z := 2048.
Definition check_sdp_size (sdp : string) : bool := negb (MAX_SDP_SIZE <? Z.of_nat (String.length sdp))%Z.
Definition check_ice_candidate_size (c : IceCandidate) : bool :=
  negb (MAX_ICE_CANDIDATE_SIZE <? Z.of_nat (String.length (Ice_candidate c)))%Z.

(** [check_json_depth] of the client, over the bytes of the text: the characters it
    looks for are ASCII. *)
Definition MAX_JSON_DEPTH : Z := 32.
Fixpoint client_scan (max_depth depth : Z) (in_string escape_next : bool) (text : list Ascii.ascii) : bool :=
  match text with
  | [] => true
  | ch :: rest =>
      if escape_next then client_scan max_depth depth in_string false rest
      else if Ascii.eqb ch backslash && in_string then client_scan max_depth depth in_string true rest
      else if Ascii.eqb ch quote then client_scan max_depth depth (negb in_string) false rest
      else if in_string then client_scan max_depth depth in_string false rest
      else if is_open ch then
        if bool_decide (max_depth < depth + 1)%Z then false
        else client_scan max_depth (depth + 1)%Z in_string false rest
      else if is_close ch then client_scan max_depth (saturating_sub depth 1) in_string false rest
      else client_scan max_depth depth in_string false rest
  end.
Definition client_check_json_depth (text : string) (max_depth : Z) : bool :=
  client_scan max_depth 0 false false (String.list_ascii_of_string text).

(** ** The outside world

    [PeerConnectionBackend], [AudioBackend] and [WebSocketConnection], with the
    serialization of messages. *)
Class ClientBackend (W : Type) : Type := {
  create_peer_connection : IceConfig → M W CallError unit;
  add_audio_track : AudioTrack → M W CallError unit;
  create_offer : M W CallError string;
  create_answer : string → M W CallError string;
  set_remote_answer : string → M W CallError unit;
  pc_add_ice_candidate : IceCandidate → M W CallError unit;
  pc_close : M W CallError unit;
  is_active : W → bool;
  capture_mic : M W AudioError AudioTrack;
  play_remote : AudioTrack → M W AudioError unit;
  audio_stop : M W AudioError unit;
  send_text : string → M W string unit;
  message_to_json : SignalingMessage → Result string string;
  message_parse : string → Result SignalingMessage string
}.

(** What the traits document of a peer connection: creating one activates it,
    closing it does the opposite, and nothing else does either. *)
Class ClientLaws (W : Type) `{ClientBackend W} : Prop := {
  create_activates ice w w' : create_peer_connection ice w = (Ok tt, w') → is_active w' = true;
  close_deactivates w : is_active (pc_close w).2 = false;
  add_track_active t w : is_active (add_audio_track t w).2 = is_active w;
  offer_active w : is_active (create_offer w).2 = is_active w;
  answer_active s w : is_active (create_answer s w).2 = is_active w;
  remote_answer_active s w : is_active (set_remote_answer s w).2 = is_active w;
  candidate_active c w : is_active (pc_add_ice_candidate c w).2 = is_active w;
  capture_active w : is_active (capture_mic w).2 = is_active w;
  play_active t w : is_active (play_remote t w).2 = is_active w;
  stop_active w : is_active (audio_stop w).2 = is_active w;
  send_active s w : is_active (send_text s w).2 = is_active w
}.

(** ** [CallManager] *)

Section manager.
Context {W : Type} `{ClientBackend W}.

(** The state behind the manager's locks: the world its backends act on, the ICE
    configuration, the call state, and whether the backend has been given the
    manager's callbacks. *)
Record CallManager : Type := mkCallManager {
  cm_world : W;
  cm_ice_config : IceConfig;
  cm_state : CallState;
  cm_handlers : bool
}.

Definition CallManager_new (w : W) (ice : IceConfig) : CallManager := mkCallManager w ice Idle false.

Definition set_cm_world (w : W) (m : CallManager) : CallManager :=
  mkCallManager w (cm_ice_config m) (cm_state m) (cm_handlers m).
Definition set_cm_state (st : CallState) (m : CallManager) : CallManager :=
  mkCallManager (cm_world m) (cm_ice_config m) st (cm_handlers m).
(** [install_ice_candidate_handler] and [install_connection_state_handler]. *)
Definition install_handlers (m : CallManager) : CallManager :=
  mkCallManager (cm_world m) (cm_ice_config m) (cm_state m) true.

(** A call of the backend, and one whose result is dropped. *)
Definition world {E A} (p : M W E A) : M CallManager E A :=
  λ m, let '(r, w) := p (cm_world m) in (r, set_cm_world w m).
Definition ignore {E F A} (p : M W E A) : M CallManager F unit :=
  λ m, let '(_, w) := p (cm_world m) in (Ok tt, set_cm_world w m).

(** The state a call may start from. *)
Definition may_start (st : CallState) : bool := bool_decide (st = Idle) || bool_decide (st = Closed).

(** What [start_call] and [accept_call] share. *)
Definition open_connection : M CallManager CallError unit :=
  let! ice := gets cm_ice_config in
  do! world (create_peer_connection ice) in
  do! modify install_handlers in
  let! track := world (map_err_m CallError_from capture_mic) in
  world (add_audio_track track).

(** [start_call]. *)
Definition start_call : M CallManager CallError string :=
  let! st := gets cm_state in
  if may_start st then
    do! open_connection in
    let! offer_sdp := world create_offer in
    do! modify (set_cm_state Negotiating) in
    mret offer_sdp
  else throw AlreadyInCall.

(** [accept_call]. *)
Definition accept_call (offer_sdp : string) : M CallManager CallError string :=
  let! st := gets cm_state in
  if may_start st then
    do! open_connection in
    let! answer_sdp := world (create_answer offer_sdp) in
    do! modify (set_cm_state Negotiating) in
    mret answer_sdp
  else throw AlreadyInCall.

(** [set_answer]. *)
Definition set_answer (answer_sdp : string) : M CallManager CallError unit :=
  let! st := gets cm_state in
  if bool_decide (st = Negotiating) || bool_decide (st = Connecting) then
    do! world (set_remote_answer answer_sdp) in
    modify (set_cm_state Connecting)
  else throw NoActiveCall.

(** [add_ice_candidate]. *)
Definition add_ice_candidate (c : IceCandidate) : M CallManager CallError unit :=
  let! st := gets cm_state in
  match st with
  | Negotiating | Connecting | Connected => world (pc_add_ice_candidate c)
  | _ => throw NoActiveCall
  end.

(** [clear_credentials]. *)
Definition clear_credentials (m : CallManager) : CallManager :=
  mkCallManager (cm_world m) (clear_turn (cm_ice_config m)) (cm_state m) (cm_handlers m).

(** [hangup]. *)
Definition hangup : M CallManager CallError unit :=
  let! st := gets cm_state in
  if may_start st then mret tt
  else
    do! ignore pc_close in
    do! ignore audio_stop in
    modify (set_cm_state Closed).

(** The callback of [install_connection_state_handler], before it calls the user's. *)
Definition on_connection_state_change (conn_state : ConnectionState) : M CallManager CallError unit :=
  match conn_state with
  | ConnConnected | ConnCompleted =>
      do! modify (set_cm_state Connected) in
      ignore (play_remote (mkAudioTrack "remote-track"))
  | ConnFailed =>
      do! modify (set_cm_state Failed) in
      do! ignore pc_close in
      ignore audio_stop
  | ConnChecking => modify (set_cm_state Connecting)
  | ConnClosed => modify (λ m, if bool_decide (cm_state m = Closed) then m else set_cm_state Closed m)
  | ConnNew | ConnDisconnected => mret tt
  end.

(** ** [CallSession] *)

(** [SignalingError]. *)
Inductive SignalingError : Type :=
| SerializeFailed (e : string)
| ParseFailed (e : string)
| SendFailed (e : string)
| JsonTooDeep.

(** The session: its manager, whether the UI registered a callback, and the states
    it has been told, oldest first. *)
Record CallSession : Type := mkCallSession {
  cs_manager : CallManager;
  cs_callback : bool;
  cs_notified : list CallState
}.

Definition CallSession_new (w : W) (ice : IceConfig) : CallSession :=
  mkCallSession (CallManager_new w ice) false [].

(** [on_call_state_changed], and a call of that callback. *)
Definition on_call_state_changed (s : CallSession) : CallSession :=
  mkCallSession (cs_manager s) true (cs_notified s).
Definition notify_state (st : CallState) (s : CallSession) : CallSession :=
  if cs_callback s then mkCallSession (cs_manager s) true (cs_notified s ++ [st]) else s.

(** The manager's methods on the session's state. *)
Definition manager {E A} (p : M CallManager E A) : M CallSession E A :=
  λ s, let '(r, m) := p (cs_manager s) in (r, mkCallSession m (cs_callback s) (cs_notified s)).

(** [SignalingClient::send]. *)
Definition signaling_send (msg : SignalingMessage) : M W SignalingError unit :=
  match message_to_json msg with
  | Ok json => map_err_m SendFailed (send_text json)
  | Err e => throw (SerializeFailed e)
  end.
Definition session_send (msg : SignalingMessage) : M CallSession SignalingError unit :=
  manager (world (signaling_send msg)).

Definition SignalingError_text (e : SignalingError) : string :=
  match e with
  | SerializeFailed m => "failed to serialize message: " ++ m
  | ParseFailed m => "failed to parse message: " ++ m
  | SendFailed m => "WebSocket send failed: " ++ m
  | JsonTooDeep => "JSON nesting depth exceeds limit"
  end.

(** [initiate_call]. *)
Definition initiate_call : M CallSession CallError unit :=
  let! offer_sdp := manager start_call in
  map_err_m (λ e, SignalingFailed (SignalingError_text e))
    (session_send (Msg.Offer (mkOfferPayload (mkSessionDescription offer_sdp "offer")))).

(** [end_call]. *)
Definition end_call : M CallSession CallError unit :=
  do! manager hangup in
  do! manager (modify clear_credentials) in
  let! _ := attempt (session_send Msg.Leave) in
  modify (notify_state Closed).

(** A locally gathered candidate: forwarded once the handlers are installed. *)
Definition local_candidate (c : IceCandidate) : M CallSession CallError unit :=
  let! installed := gets (λ s, cm_handlers (cs_manager s)) in
  if installed then
    let! _ := attempt (session_send (Msg.IceCandidate (mkIceCandidatePayload c))) in mret tt
  else mret tt.

(** A change of the connection's state: the manager's callback, then the session's,
    which tells a failure twice. *)
Definition connection_changed (conn_state : ConnectionState) : M CallSession CallError unit :=
  let! installed := gets (λ s, cm_handlers (cs_manager s)) in
  if installed then
    do! manager (on_connection_state_change conn_state) in
    let! st := gets (λ s, cm_state (cs_manager s)) in
    do! modify (notify_state st) in
    when (bool_decide (conn_state = ConnFailed)) (modify (notify_state Failed))
  else mret tt.

(** The router of [wire_incoming_signaling]: every other message is ignored. *)
Definition route_message (msg : SignalingMessage) : M CallSession CallError unit :=
  match msg with
  | Msg.Offer p =>
      let sdp := SessionDescription_sdp (Offer_session_description p) in
      if check_sdp_size sdp then
        let! r := attempt (manager (accept_call sdp)) in
        match r with
        | Ok answer_sdp =>
            let! _ := attempt (session_send (Msg.Answer (mkAnswerPayload (mkSessionDescription answer_sdp "answer")))) in
            mret tt
        | Err _ => modify (notify_state Failed)
        end
      else mret tt
  | Msg.Answer p =>
      let sdp := SessionDescription_sdp (Answer_session_description p) in
      if check_sdp_size sdp then
        let! _ := attempt (manager (set_answer sdp)) in mret tt
      else mret tt
  | Msg.IceCandidate p =>
      if check_ice_candidate_size (IceCandidate_candidate p) then
        let! _ := attempt (manager (add_ice_candidate (IceCandidate_candidate p))) in mret tt
      else mret tt
  | Msg.PeerLeft =>
      let! _ := attempt (manager hangup) in
      modify (notify_state Closed)
  | _ => mret tt
  end.

(** [handle_incoming]. *)
Definition handle_incoming (text : string) : M CallSession CallError unit :=
  if client_check_json_depth text MAX_JSON_DEPTH then
    match message_parse text with
    | Ok msg => route_message msg
    | Err e => throw (SignalingFailed (SignalingError_text (ParseFailed e)))
    end
  else throw (SignalingFailed (SignalingError_text JsonTooDeep)).

(** ** Events *)

Inductive CallEvent : Type :=
| UiInitiate
| UiEnd
| UiListen
| Incoming (text : string)
| LocalCandidate (c : IceCandidate)
| ConnectionChanged (st : ConnectionState).

Definition call_step (ev : CallEvent) (s : CallSession) : Result unit CallError * CallSession :=
  match ev with
  | UiInitiate => initiate_call s
  | UiEnd => end_call s
  | UiListen => (Ok tt, on_call_state_changed s)
  | Incoming text => handle_incoming text s
  | LocalCandidate c => local_candidate c s
  | ConnectionChanged st => connection_changed st s
  end.
Fixpoint call_run (evs : list CallEvent) (s : CallSession) : CallSession :=
  match evs with
  | [] => s
  | ev :: evs => call_run evs (call_step ev s).2
  end.
End manager.
Arguments CallManager : clear implicits.
Arguments CallSession : clear implicits.

(** ** The mocks (MockPeerConnectionBackend, MockAudioBackend) *)

(** [MockPcCall] and [MockCall] in one log, as the order between them matters. *)
Inductive MockCall : Type :=
| McCreatePeerConnection
| McAddAudioTrack (t : AudioTrack)
| McCreateOffer
| McCreateAnswer (sdp : string)
| McSetRemoteAnswer (sdp : string)
| McAddIceCandidate (c : IceCandidate)
| McClose
| McCaptureMic
| McPlayRemote (t : AudioTrack)
| McStop.

(** The mocks and the recording socket: [send_ok] is false when it refuses. *)
Record MockWorld : Type := mkMockWorld {
  mw_calls : list MockCall;
  mw_active : bool;
  mw_capture_result : option (Result AudioTrack string);
  mw_play_result : option (Result unit string);
  mw_stop_result : option (Result unit string);
  mw_send_ok : bool;
  mw_sent : list string
}.
Definition mock_new : MockWorld := mkMockWorld [] false None None None true [].
Definition set_capture_result (r : Result AudioTrack string) (w : MockWorld) : MockWorld :=
  mkMockWorld (mw_calls w) (mw_active w) (Some r) (mw_play_result w) (mw_stop_result w) (mw_send_ok w) (mw_sent w).

Definition mock_log (c : MockCall) (active : MockWorld → bool) (w : MockWorld) : MockWorld :=
  mkMockWorld (mw_calls w ++ [c]) (active w) (mw_capture_result w) (mw_play_result w) (mw_stop_result w)
    (mw_send_ok w) (mw_sent w).
Definition mock_call {E A} (c : MockCall) (r : Result A E) : M MockWorld E A :=
  λ w, (r, mock_log c mw_active w).

Definition mock_capture : M MockWorld AudioError AudioTrack :=
  λ w, (match mw_capture_result w with
        | Some (Ok t) => Ok t
        | Some (Err _) => Err MicrophoneDenied
        | None => Ok (mkAudioTrack "mock-mic-track")
        end, mock_log McCaptureMic mw_active w).
Definition mock_play (t : AudioTrack) : M MockWorld AudioError unit :=
  λ w, (match mw_play_result w with Some (Err _) => Err OutputUnavailable | _ => Ok tt end,
        mock_log (McPlayRemote t) mw_active w).
Definition mock_stop : M MockWorld AudioError unit :=
  λ w, (match mw_stop_result w with Some (Err e) => Err (AudioOther e) | _ => Ok tt end,
        mock_log McStop mw_active w).
Definition mock_send (text : string) : M MockWorld string unit :=
  λ w, if mw_send_ok w
       then (Ok tt, mkMockWorld (mw_calls w) (mw_active w) (mw_capture_result w) (mw_play_result w)
                      (mw_stop_result w) true (mw_sent w ++ [text]))
       else (Err "closed", w).

Section mock.
Context (to_json : SignalingMessage → Result string string) (parse : string → Result SignalingMessage string).

Definition MockBackend : ClientBackend MockWorld := {|
  create_peer_connection _ := λ w, (Ok tt, mock_log McCreatePeerConnection (λ _, true) w);
  add_audio_track t := mock_call (McAddAudioTrack t) (Ok tt);
  create_offer := mock_call McCreateOffer (Ok "mock-offer-sdp");
  create_answer sdp := mock_call (McCreateAnswer sdp) (Ok "mock-answer-sdp");
  set_remote_answer sdp := mock_call (McSetRemoteAnswer sdp) (Ok tt);
  pc_add_ice_candidate c := mock_call (McAddIceCandidate c) (Ok tt);
  pc_close := λ w, (Ok tt, mock_log McClose (λ _, false) w);
  is_active := mw_active;
  capture_mic := mock_capture;
  play_remote := mock_play;
  audio_stop := mock_stop;
  send_text := mock_send;
  message_to_json := to_json;
  message_parse := parse
|}.

#[local] Existing Instance MockBackend.
Lemma MockLaws : ClientLaws MockWorld.
Proof.
  split; try done. - intros ice w w' [= <-]. done. - intros s w. cbn. unfold mock_send. by destruct (mw_send_ok w).
Qed.
End mock.

(** ** A connection for every live call *)

Definition live (st : CallState) : bool :=
  match st with Negotiating | Connecting | Connected => true | Idle | Failed | Closed => false end.

Section rules.
Context {W : Type} `{ClientLaws W}.
Implicit Types (m : CallManager W) (s : CallSession W).

(** The connection is active exactly while the call is. *)
Definition manager_ok m : Prop := is_active (cm_world m) = live (cm_state m).
Definition session_ok s : Prop := manager_ok (cs_manager s).

Lemma may_start_not_live (st : CallState) : may_start st = true → live st = false.
Proof. by destruct st. Qed.

(** A backend call that leaves the connection as it is. *)
Lemma world_ok {E A} (p : M W E A) m :
  (∀ w, is_active (p w).2 = is_active w) → manager_ok m → manager_ok (world p m).2 ∧ cm_state (world p m).2 = cm_state m.
Proof.
  unfold manager_ok, world. intros Hp Hm. specialize (Hp (cm_world m)). destruct (p (cm_world m)) as [r w]. cbn in *.
  by rewrite Hp.
Qed.

Lemma ignore_world {E F A} (p : M W E A) m : (ignore (F:=F) p m) = (Ok tt, (world p m).2).
Proof. unfold ignore, world. by destruct (p (cm_world m)). Qed.

Lemma open_connection_active m m' :
  open_connection m = (Ok tt, m') → is_active (cm_world m') = true.
Proof.
  unfold open_connection, mbind_, gets, modify, world, map_err_m. cbn.
  destruct (create_peer_connection (cm_ice_config m) (cm_world m)) as [[[]|e] w1] eqn:Hc; [|done]. cbn.
  pose proof (capture_active w1) as Hcap. destruct (capture_mic w1) as [[t|e] w2]; cbn in *; [|done].
  pose proof (add_track_active t w2) as Hadd. destruct (add_audio_track t w2) as [r w3]; cbn in *.
  intros [= -> <-]. cbn. rewrite Hadd, Hcap. by eapply create_activates.
Qed.

(** Starting or accepting a call ends in an active connection, or changes nothing
    when a call is under way. *)
Lemma negotiate_ok (p : M W CallError string) m :
  (∀ w, is_active (p w).2 = is_active w) → manager_ok m →
  let r := (let! st := gets cm_state in
            if may_start st then
              do! open_connection in let! sdp := world p in do! modify (set_cm_state Negotiating) in mret sdp
            else throw AlreadyInCall) m in
  (may_start (cm_state m) = true → is_Ok r.1 = true) → manager_ok r.2.
Proof.
  intros Hp Hm. cbv zeta. unfold mbind_, gets, modify, mret, throw. destruct (may_start (cm_state m)); [|done].
  destruct (open_connection m) as [[[]|e] m1] eqn:Ho; [|cbn; intros Hr; by specialize (Hr eq_refl)].
  apply open_connection_active in Ho. unfold world. specialize (Hp (cm_world m1)).
  destruct (p (cm_world m1)) as [[sdp|e] w]; cbn in *; [|intros Hr; by specialize (Hr eq_refl)].
  intros _. unfold manager_ok. cbn. by rewrite Hp.
Qed.

Lemma hangup_ok m : manager_ok m →
  hangup m = (Ok tt, (hangup m).2) ∧ manager_ok (hangup m).2 ∧ live (cm_state (hangup m).2) = false.
Proof.
  intros Hm. unfold hangup, mbind_, gets. destruct (may_start (cm_state m)) eqn:Hs; [split_and!; [done..|by apply may_start_not_live]|].
  rewrite !ignore_world. unfold modify, mret. cbn. split_and!; try done.
  unfold manager_ok, world. cbn. pose proof (close_deactivates (cm_world m)) as Hc.
  destruct (pc_close (cm_world m)) as [r w]. cbn in *. pose proof (stop_active w) as Hs'.
  destruct (audio_stop w) as [r' w']. cbn in *. congruence.
Qed.

Lemma set_answer_ok sdp m : manager_ok m → manager_ok (set_answer sdp m).2.
Proof.
  intros Hm. unfold set_answer, mbind_, gets. destruct (_ || _) eqn:Hst; [|done].
  pose proof (world_ok (set_remote_answer sdp) m (remote_answer_active sdp) Hm) as [Hw Hstate].
  destruct (world (set_remote_answer sdp) m) as [[[]|e] m1]; cbn in *; [|done]. unfold manager_ok in *. cbn.
  rewrite Hw, Hstate. apply orb_true_iff in Hst as [Hst|Hst]; apply bool_decide_eq_true in Hst; by rewrite Hst.
Qed.

Lemma add_ice_candidate_ok c m : manager_ok m → manager_ok (add_ice_candidate c m).2.
Proof.
  intros Hm. unfold add_ice_candidate, mbind_, gets. destruct (cm_state m); try done;
    by apply world_ok; [apply candidate_active|].
Qed.

(** The backend reports a closed connection only once it is closed, and progress only
    on one that is open. *)
Definition timely (conn_state : ConnectionState) m : Prop :=
  match conn_state with
  | ConnClosed => is_active (cm_world m) = false
  | ConnNew | ConnDisconnected => True
  | _ => is_active (cm_world m) = true
  end.

Lemma connection_change_ok st m :
  manager_ok m → timely st m → manager_ok (on_connection_state_change st m).2.
Proof.
  intros Hm Ht. unfold manager_ok in *.
  destruct st; cbn in Ht |- *; unfold mbind_, modify; rewrite ?ignore_world; cbn; try done.
  - unfold world. cbn. pose proof (play_active (mkAudioTrack "remote-track") (cm_world m)) as Hp.
    destruct (play_remote _ _). cbn in *. congruence.
  - unfold world. cbn. pose proof (play_active (mkAudioTrack "remote-track") (cm_world m)) as Hp.
    destruct (play_remote _ _). cbn in *. congruence.
  - rewrite ?ignore_world. unfold world. cbn. pose proof (close_deactivates (cm_world m)) as Hc.
    destruct (pc_close (cm_world m)) as [r w]. cbn in *. pose proof (stop_active w) as Hs.
    destruct (audio_stop w). cbn in *. congruence.
  - case_bool_decide; [done|]. by cbn.
Qed.

(** ** Sessions *)

Lemma preserves_manager {E A} (p : M (CallManager W) E A) :
  preserves manager_ok p → preserves session_ok (manager p).
Proof.
  intros Hp s Hs. unfold session_ok, manager. specialize (Hp (cs_manager s) Hs).
  by destruct (p (cs_manager s)) as [r m].
Qed.

Lemma signaling_send_active msg (w : W) : is_active (signaling_send msg w).2 = is_active w.
Proof.
  unfold signaling_send. destruct (message_to_json msg) as [json|e]; [|done]. unfold map_err_m.
  pose proof (send_active json w). by destruct (send_text json w).
Qed.

Lemma preserves_send msg : preserves session_ok (session_send msg).
Proof.
  apply preserves_manager. intros m Hm. apply world_ok; [|done]. apply signaling_send_active.
Qed.

Lemma preserves_notify {E} st : preserves (E:=E) session_ok (modify (notify_state st)).
Proof. intros s Hs. unfold modify, notify_state. cbn. by destruct (cs_callback s). Qed.

Lemma preserves_hangup : preserves manager_ok hangup.
Proof. intros m Hm. by apply hangup_ok. Qed.
Lemma preserves_set_answer sdp : preserves manager_ok (set_answer sdp).
Proof. intros m. apply set_answer_ok. Qed.
Lemma preserves_add_candidate c : preserves manager_ok (add_ice_candidate c).
Proof. intros m. apply add_ice_candidate_ok. Qed.

Hint Resolve preserves_send preserves_notify preserves_hangup preserves_set_answer preserves_add_candidate
  preserves_manager : wavis.

(** Setting up a call succeeds when it is attempted, and the backend is timely. *)
Definition orderly (ev : CallEvent) s : Prop :=
  let m := cs_manager s in
  match ev with
  | UiInitiate => may_start (cm_state m) = true → is_Ok (start_call m).1 = true
  | Incoming text =>
      ∀ p, message_parse text = Ok (Msg.Offer p) → may_start (cm_state m) = true →
      is_Ok (accept_call (SessionDescription_sdp (Offer_session_description p)) m).1 = true
  | ConnectionChanged st => timely st m
  | UiEnd | UiListen | LocalCandidate _ => True
  end.

Lemma initiate_ok s : session_ok s → orderly UiInitiate s → session_ok (call_step UiInitiate s).2.
Proof.
  intros Hs Ho. cbn [call_step]. unfold initiate_call, mbind_.
  pose proof (negotiate_ok create_offer (cs_manager s) offer_active Hs Ho) as Hm.
  unfold manager. change (mbind_ (gets cm_state) _) with (start_call (W:=W)) in Hm.
  destruct (start_call (cs_manager s)) as [[sdp|e] m]; [|done].
  pose proof (preserves_send (Msg.Offer (mkOfferPayload (mkSessionDescription sdp "offer")))
    (mkCallSession m (cs_callback s) (cs_notified s)) Hm) as Hsend.
  unfold map_err_m. by destruct (session_send _ _).
Qed.

Lemma offer_ok p s :
  session_ok s →
  (may_start (cm_state (cs_manager s)) = true →
   is_Ok (accept_call (SessionDescription_sdp (Offer_session_description p)) (cs_manager s)).1 = true) →
  session_ok (route_message (Msg.Offer p) s).2.
Proof.
  intros Hs Ho. cbn [route_message]. set (sdp := SessionDescription_sdp _) in *. destruct (check_sdp_size sdp); [|done].
  pose proof (negotiate_ok (create_answer sdp) (cs_manager s) (answer_active sdp) Hs Ho) as Hm.
  change (mbind_ (gets cm_state) _) with (accept_call (W:=W) sdp) in Hm.
  unfold mbind_ at 1, attempt, manager. destruct (accept_call sdp (cs_manager s)) as [[ans|e] m].
  - assert (Hp : preserves session_ok (let! _ := attempt (F:=CallError) (session_send (Msg.Answer (mkAnswerPayload
      (mkSessionDescription ans "answer")))) in mret tt)) by solve_preserves.
    exact (Hp (mkCallSession m (cs_callback s) (cs_notified s)) Hm).
  - exact (preserves_notify (E:=CallError) Failed (mkCallSession m (cs_callback s) (cs_notified s)) Hm).
Qed.

Lemma route_ok msg s :
  session_ok s → (∀ p, msg ≠ Msg.Offer p) → session_ok (route_message msg s).2.
Proof.
  intros Hs Hno. assert (Hp : preserves session_ok (route_message msg)); [|by apply Hp].
  destruct msg; try (by apply preserves_mret); try solve [cbn [route_message]; solve_preserves].
  by destruct (Hno p).
Qed.

Lemma call_step_ok ev s : session_ok s → orderly ev s → session_ok (call_step ev s).2.
Proof.
  intros Hs Ho. destruct ev as [| | |text|c|st]; cbn [call_step].
  - by apply initiate_ok.
  - assert (Hp : preserves session_ok end_call); [|by apply Hp]. unfold end_call. solve_preserves.
  - done.
  - cbn in Ho. unfold handle_incoming. destruct (client_check_json_depth _ _); [|done].
    destruct (message_parse text) as [msg|e] eqn:Hp; [|done]. destruct msg; try (apply route_ok; [done|discriminate]).
    apply offer_ok; [done|]. by apply Ho.
  - assert (Hp : preserves session_ok (local_candidate c)); [|by apply Hp]. unfold local_candidate. solve_preserves.
  - cbn in Ho. unfold connection_changed, mbind_ at 1, gets. destruct (cm_handlers _); [|done].
    pose proof (connection_change_ok st (cs_manager s) Hs Ho) as Hm. unfold mbind_ at 1, manager.
    assert (Hok : is_Ok (on_connection_state_change st (cs_manager s)).1 = true)
      by (destruct st; cbn; unfold mbind_, modify; rewrite ?ignore_world; done).
    destruct (on_connection_state_change st (cs_manager s)) as [[[]|e] m]; [|done].
    match goal with |- session_ok (?q ?x).2 => assert (Hp : preserves session_ok q) by solve_preserves; exact (Hp x Hm) end.
Qed.

(** [end_call] releases the connection and forgets the TURN credentials, whatever
    the backend or the socket answer. *)
Lemma end_call_releases s :
  session_ok s → let s' := (end_call s).2 in
  live (cm_state (cs_manager s')) = false ∧ turn_credential (cm_ice_config (cs_manager s')) = EmptyString ∧
  (end_call s).1 = Ok tt.
Proof.
  intros Hs. cbv zeta. destruct (hangup_ok (cs_manager s) Hs) as (Hr & _ & Hlive).
  unfold end_call, mbind_, attempt, session_send, manager, modify.
  destruct (hangup (cs_manager s)) as [r m]. cbn in Hr, Hlive. injection Hr as ->. cbn.
  unfold world. cbn. destruct (signaling_send _ _) as [r w]. cbn.
  unfold notify_state. cbn. destruct (cs_callback s); cbn; auto.
Qed.

(** Every event of a run is orderly. *)
Fixpoint orderly_run (evs : list CallEvent) s : Prop :=
  match evs with
  | [] => True
  | ev :: evs => orderly ev s ∧ orderly_run evs (call_step ev s).2
  end.

Lemma call_run_ok evs s : session_ok s → orderly_run evs s → session_ok (call_run evs s).
Proof.
  revert s. induction evs as [|ev evs IH]; intros s Hs; cbn; [done|]. intros [Ho Hr]. apply IH; [|done].
  by apply call_step_ok.
Qed.

(** The peer's departure releases the connection as well. *)
Lemma peer_left_releases text s :
  session_ok s → client_check_json_depth text MAX_JSON_DEPTH = true → message_parse text = Ok Msg.PeerLeft →
  live (cm_state (cs_manager (call_step (Incoming text) s).2)) = false.
Proof.
  intros Hs Hd Hp. cbn [call_step]. unfold handle_incoming. rewrite Hd, Hp. cbn [route_message].
  destruct (hangup_ok (cs_manager s) Hs) as (Hr & _ & Hlive).
  unfold mbind_, attempt, manager, modify. destruct (hangup (cs_manager s)) as [r m]. cbn in Hr, Hlive. injection Hr as ->.
  cbn. unfold notify_state. cbn. by destruct (cs_callback s).
Qed.

Lemma call_run_last evs last s :
  session_ok s → orderly_run (evs ++ [last]) s →
  session_ok (call_run evs s) ∧ call_run (evs ++ [last]) s = (call_step last (call_run evs s)).2.
Proof.
  revert s. induction evs as [|ev l IH]; intros s Hs; cbn; [done|]. intros [Hev Hl]. apply IH; [|done]. by apply call_step_ok.
Qed.

(** C23: Calls hold a peer connection exactly while they live.  Over any sequence of
    user actions, signaling frames and backend callbacks in which setting up a call
    does not fail, and in which the backend reports checking, connected, completed and
    failed only while the connection is open and closed only once it is not, the
    connection is active if and only if the call is negotiating, connecting or
    connected.  So it is released when the user ends the call, which forgets the TURN
    credentials too, and when a frame within the nesting limit says that the peer has
    left. *)
Theorem connection_follows_call (w : W) (ice : IceConfig) (evs : list CallEvent) (last : CallEvent) :
  is_active w = false → orderly_run (evs ++ [last]) (CallSession_new w ice) →
  let s := call_run (evs ++ [last]) (CallSession_new w ice) in
  is_active (cm_world (cs_manager s)) = live (cm_state (cs_manager s)) ∧
  (last = UiEnd → is_active (cm_world (cs_manager s)) = false ∧
     turn_credential (cm_ice_config (cs_manager s)) = EmptyString) ∧
  (∀ text, last = Incoming text → client_check_json_depth text MAX_JSON_DEPTH = true →
     message_parse text = Ok Msg.PeerLeft → is_active (cm_world (cs_manager s)) = false).
Proof.
  intros Hw Ho. cbv zeta.
  assert (Hok : session_ok (call_run (evs ++ [last]) (CallSession_new w ice))) by (by apply call_run_ok).
  destruct (call_run_last evs last (CallSession_new w ice) Hw Ho) as [Hs1 Heq]. rewrite Heq in *.
  split_and!; [exact Hok| |]; unfold session_ok, manager_ok in Hok; rewrite Hok.
  - intros ->. by destruct (end_call_releases _ Hs1) as (Hlive & Hcred & _).
  - intros text -> Hd Hp. by apply peer_left_releases.
Qed.
End rules.

(** ** The depth guard

    The client and the server judge a frame alike. *)

Lemma client_scan_agrees (text : list Ascii.ascii) (max depth : Z) (in_string escaped : bool) :
  (0 ≤ depth ≤ max → max + 1 < u32_modulus → (escaped = true → in_string = true) →
  client_scan max depth in_string escaped text = scan max depth in_string escaped text)%Z.
Proof.
  revert depth in_string escaped. induction text as [|ch text IH]; intros depth ins esc Hd Hmax He; [done|].
  cbn [client_scan scan]. destruct esc; [by apply IH|].
  destruct ins; rewrite ?andb_true_r, ?andb_false_r; cbn [negb].
  - destruct (Ascii.eqb ch backslash); [by apply IH|]. destruct (Ascii.eqb ch quote); by apply IH.
  - destruct (Ascii.eqb ch quote); [by apply IH|]. destruct (is_open ch).
    + assert (wrap_u32 (depth + 1) = depth + 1)%Z as Hw by (unfold wrap_u32; apply Z.mod_small; lia).
      rewrite Hw. case_bool_decide; [done|]. apply IH; [lia|done|done].
    + destruct (is_close ch); apply IH; unfold saturating_sub; (done || lia).
Qed.

(** The two implementations of the nesting guard agree on every text: what a
    client would refuse, the server refuses too. *)
Theorem depth_guards_agree (text : string) (max_depth : Z) :
  (0 ≤ max_depth)%Z → (max_depth + 1 < u32_modulus)%Z →
  client_check_json_depth text max_depth = check_json_depth (String.list_ascii_of_string text) max_depth.
Proof. intros Hm Hmax. by apply client_scan_agrees. Qed.

Lemma depth_guards_agree_witness :
  client_check_json_depth "[[{}]]" 2 = check_json_depth (String.list_ascii_of_string "[[{}]]") 2 ∧
  client_check_json_depth "[[{}]]" 2 = false.
Proof. split; [apply (depth_guards_agree "[[{}]]" 2); [lia|reflexivity]|reflexivity]. Defined.

(** ** Runs on the mocks *)

Module CallDemo.

(** Stand-ins for serde: a word per message. *)
Definition to_json (msg : SignalingMessage) : Result string string :=
  Ok (match msg with
      | Msg.Offer _ => "offer" | Msg.Answer _ => "answer" | Msg.IceCandidate _ => "ice" | Msg.Leave => "leave"
      | _ => "other"
      end)%string.
Definition parse (text : string) : Result SignalingMessage string :=
  if String.eqb text "offer" then Ok (Msg.Offer (mkOfferPayload (mkSessionDescription "their-offer" "offer")))
  else if String.eqb text "answer" then Ok (Msg.Answer (mkAnswerPayload (mkSessionDescription "their-answer" "answer")))
  else if String.eqb text "peer_left" then Ok Msg.PeerLeft
  else Err "unknown"%string.
#[local] Existing Instance MockBackend.
#[local] Instance demo_backend : ClientBackend MockWorld := MockBackend to_json parse.
#[local] Instance demo_laws : ClientLaws MockWorld := MockLaws to_json parse.

Definition ice : IceConfig := mkIceConfig ["stun:a"] ["turn:b"] "user" "pass".

(** A call that connects and is ended by its user. *)
Definition whole_call : list CallEvent :=
  [UiListen; UiInitiate; Incoming "answer"; ConnectionChanged ConnChecking; ConnectionChanged ConnConnected].

Lemma connection_follows_call_witness :
  let s := call_run (whole_call ++ [Incoming "peer_left"]) (CallSession_new mock_new ice) in
  is_active (cm_world (cs_manager (call_run whole_call (CallSession_new mock_new ice)))) = true ∧
  is_active (cm_world (cs_manager s)) = live (cm_state (cs_manager s)) ∧
  is_active (cm_world (cs_manager s)) = false.
Proof.
  intros s. split; [reflexivity|].
  destruct (connection_follows_call mock_new ice whole_call (Incoming "peer_left")) as (H1 & _ & H3); [reflexivity| |].
  - cbn. split_and!; done.
  - split; [exact H1|]. exact (H3 "peer_left"%string eq_refl eq_refl eq_refl).
Defined.

Example whole_call_states :
  cs_notified (call_run (whole_call ++ [UiEnd]) (CallSession_new mock_new ice)) = [Connecting; Connected; Closed] ∧
  mw_sent (cm_world (cs_manager (call_run (whole_call ++ [UiEnd]) (CallSession_new mock_new ice)))) =
    ["offer"; "leave"]%string.
Proof. done. Qed.

(** A call that cannot take the microphone leaves its connection open: the state is
    still idle, so ending the call closes nothing. *)
Theorem failed_start_leaks_connection :
  let s := call_run [UiInitiate; UiEnd]
             (CallSession_new (set_capture_result (Err "denied"%string) mock_new) ice) in
  is_active (cm_world (cs_manager s)) = true ∧ cm_state (cs_manager s) = Idle ∧
  mw_calls (cm_world (cs_manager s)) = [McCreatePeerConnection; McCaptureMic].
Proof. done. Qed.

(** A callback that arrives after the call was ended reopens its state, and the next
    call is refused although nothing is connected. *)
Theorem late_callback_reopens_call :
  let s := call_run (whole_call ++ [UiEnd; ConnectionChanged ConnChecking]) (CallSession_new mock_new ice) in
  cm_state (cs_manager s) = Connecting ∧ is_active (cm_world (cs_manager s)) = false ∧
  (initiate_call s).1 = Err AlreadyInCall.
Proof. done. Qed.

(** When the peer leaves, the TURN credentials stay in memory. *)
Theorem peer_left_keeps_credentials :
  let s := call_run (whole_call ++ [Incoming "peer_left"]) (CallSession_new mock_new ice) in
  cm_state (cs_manager s) = Closed ∧ turn_credential (cm_ice_config (cs_manager s)) = "pass"%string.
Proof. done. Qed.

(** An offer during a call is refused, but the UI is told that its call failed. *)
Theorem second_offer_reports_failure :
  let s := call_run (whole_call ++ [Incoming "offer"]) (CallSession_new mock_new ice) in
  cm_state (cs_manager s) = Connected ∧ is_active (cm_world (cs_manager s)) = true ∧
  last (cs_notified s) = Some Failed.
Proof. done. Qed.

(** The same session can call again, but without TURN credentials. *)
Theorem second_call_without_credentials :
  let s := call_run (whole_call ++ [UiEnd; UiInitiate]) (CallSession_new mock_new ice) in
  cm_state (cs_manager s) = Negotiating ∧ turn_credential (cm_ice_config (cs_manager s)) = EmptyString.
Proof. done. Qed.
End CallDemo.
