(* ===== verification/RoomSession.v ===== *)
(** * Rooms from the client's side (clients/shared/src/room_session/mod.rs,
    participants.rs, screen_share.rs)

    [RoomSession] joins a room, sets up media over the peer connection or over the
    LiveKit SDK, follows who is in the room and who shares, and leaves.  The SDK is
    the class [LiveKitConnection], with the source's [NoLiveKit] and mock as
    instances.  Callbacks to the UI are recorded in the order they are made. *)

From S2P Require Import Prelude Floats Signaling WsLimits JitterBuffer NetworkControl CallSession.
Local Open Scope prog_scope.

(** ** Data *)

(** [RoomError]. *)
Inductive RoomError : Type :=
| NotInRoom
| AlreadyInRoom
| SfuConnectionFailed (m : string)
| PublishFailed (m : string)
| RoomAudio (m : string)
| RoomSignaling (m : string).

(** The texts of the errors below. *)
Definition AudioError_text (e : AudioError) : string :=
  match e with
  | MicrophoneDenied => "microphone access denied"
  | OutputUnavailable => "no audio output available"
  | AudioOther m => "audio backend error: " ++ m
  end.
Definition CallError_text (e : CallError) : string :=
  match e with
  | CallMicrophoneDenied => "microphone access denied"
  | NegotiationFailed m => "negotiation failed: " ++ m
  | IceFailed => "ICE connection failed"
  | SignalingFailed m => "signaling error: " ++ m
  | AlreadyInCall => "already in a call"
  | NoActiveCall => "no active call"
  | CallAudio e => "audio error: " ++ AudioError_text e
  end.

(** [SfuConnectionMode]. *)
Inductive SfuConnectionMode : Type :=
| Proxy
| LiveKit (livekit_url token : string).

(** [LiveKitConnection]: the methods a session calls. *)
Class LiveKitConnection (W : Type) : Type := {
  lk_connect : string → string → M W RoomError unit;
  lk_disconnect : M W RoomError unit;
  lk_publish_audio : AudioTrack → M W RoomError unit;
  lk_is_available : W → bool
}.

(** [NoLiveKit]. *)
Definition NoLiveKit {W} : LiveKitConnection W := {|
  lk_connect _ _ := throw (SfuConnectionFailed "LiveKit not configured");
  lk_disconnect := mret tt;
  lk_publish_audio _ := throw (PublishFailed "LiveKit not configured");
  lk_is_available _ := false
|}.

(** [SubscribeTrackState]: a jitter buffer and a bitrate controller per remote
    participant. *)
Record SubscribeTrackState : Type := mkSubscribeTrack {
  st_participant_id : string;
  st_jitter_buffer : AdaptiveJitterBuffer;
  st_bitrate_controller : AdaptiveBitrateController
}.
Definition default_controller : AdaptiveBitrateController :=
  mkController BitrateConfig_default 32000 (F64.of_Z 0) (F64.of_Z 1).
Definition SubscribeTrackState_new (now : Instant) (participant_id : string) : SubscribeTrackState :=
  mkSubscribeTrack participant_id (jitter_new now) default_controller.

Lemma default_controller_new : controller_new BitrateConfig_default = Some default_controller.
Proof. done. Qed.

(** What the UI is told. *)
Inductive RoomNotice : Type :=
| NoticeRoomState (participants : list ParticipantInfo)
| NoticeJoined (p : ParticipantInfo)
| NoticeLeft (participant_id : string)
| NoticeShareState (sharers : gset string)
| NoticeShareStarted (participant_id : string)
| NoticeShareStopped (participant_id : string).

(** ** The session *)

Section session.
Context {W : Type} `{ClientBackend W} `{LiveKitConnection W}.

(** [RoomSession]. *)
Record RoomSession : Type := mkRoomSession {
  rs_world : W;
  rs_ice_config : IceConfig;
  rs_sfu_mode : SfuConnectionMode;
  rs_subscribe_tracks : gmap string SubscribeTrackState;
  rs_active_shares : gset string;
  rs_in_room : bool;
  rs_stored_track : option AudioTrack;
  rs_notices : list RoomNotice
}.

(** [with_livekit]. *)
Definition RoomSession_new (w : W) (ice : IceConfig) : RoomSession :=
  mkRoomSession w ice Proxy ∅ ∅ false None [].

Definition set_rs_world (w : W) (s : RoomSession) : RoomSession :=
  mkRoomSession w (rs_ice_config s) (rs_sfu_mode s) (rs_subscribe_tracks s) (rs_active_shares s)
    (rs_in_room s) (rs_stored_track s) (rs_notices s).
Definition set_rs_mode (mode : SfuConnectionMode) (s : RoomSession) : RoomSession :=
  mkRoomSession (rs_world s) (rs_ice_config s) mode (rs_subscribe_tracks s) (rs_active_shares s)
    (rs_in_room s) (rs_stored_track s) (rs_notices s).
Definition set_rs_tracks (t : gmap string SubscribeTrackState) (s : RoomSession) : RoomSession :=
  mkRoomSession (rs_world s) (rs_ice_config s) (rs_sfu_mode s) t (rs_active_shares s)
    (rs_in_room s) (rs_stored_track s) (rs_notices s).
Definition set_rs_shares (x : gset string) (s : RoomSession) : RoomSession :=
  mkRoomSession (rs_world s) (rs_ice_config s) (rs_sfu_mode s) (rs_subscribe_tracks s) x
    (rs_in_room s) (rs_stored_track s) (rs_notices s).
Definition set_rs_in_room (b : bool) (s : RoomSession) : RoomSession :=
  mkRoomSession (rs_world s) (rs_ice_config s) (rs_sfu_mode s) (rs_subscribe_tracks s) (rs_active_shares s)
    b (rs_stored_track s) (rs_notices s).
Definition set_rs_stored (t : option AudioTrack) (s : RoomSession) : RoomSession :=
  mkRoomSession (rs_world s) (rs_ice_config s) (rs_sfu_mode s) (rs_subscribe_tracks s) (rs_active_shares s)
    (rs_in_room s) t (rs_notices s).
Definition notice (n : RoomNotice) (s : RoomSession) : RoomSession :=
  mkRoomSession (rs_world s) (rs_ice_config s) (rs_sfu_mode s) (rs_subscribe_tracks s) (rs_active_shares s)
    (rs_in_room s) (rs_stored_track s) (rs_notices s ++ [n]).
Definition clear_room_credentials (s : RoomSession) : RoomSession :=
  mkRoomSession (rs_world s) (clear_turn (rs_ice_config s)) (rs_sfu_mode s) (rs_subscribe_tracks s)
    (rs_active_shares s) (rs_in_room s) (rs_stored_track s) (rs_notices s).

(** A call of a backend, with its error mapped, and one whose result is dropped. *)
Definition outside {E A} (f : E → RoomError) (p : M W E A) : M RoomSession RoomError A :=
  λ s, let '(r, w) := p (rs_world s) in (map_err f r, set_rs_world w s).
Definition outside_ignored {E A} (p : M W E A) : M RoomSession RoomError unit :=
  λ s, let '(_, w) := p (rs_world s) in (Ok tt, set_rs_world w s).

Definition room_send (msg : SignalingMessage) : M RoomSession RoomError unit :=
  outside (λ e, RoomSignaling (SignalingError_text e)) (signaling_send msg).

(** [start_media]. *)
Definition start_media : M RoomSession RoomError unit :=
  let! in_room := gets rs_in_room in
  if in_room then throw AlreadyInRoom
  else
    let! track := outside (λ e, RoomAudio (AudioError_text e)) capture_mic in
    do! modify (set_rs_stored (Some track)) in
    let! livekit := gets (λ s, lk_is_available (rs_world s)) in
    do! (if livekit then mret tt
         else
           let! ice_cfg := gets rs_ice_config in
           do! outside (λ e, PublishFailed (CallError_text e)) (create_peer_connection ice_cfg) in
           outside (λ e, PublishFailed (CallError_text e)) (add_audio_track track)) in
    modify (set_rs_in_room true).

(** [join_room_with_name]; [join_room] passes no name. *)
Definition join_room_with_name (room_id : string) (invite_code display_name : option string)
    : M RoomSession RoomError unit :=
  let! in_room := gets rs_in_room in
  if in_room then throw AlreadyInRoom
  else
    do! room_send (Msg.Join (mkJoinPayload room_id (Some "sfu"%string) invite_code display_name None)) in
    start_media.
Definition join_room (room_id : string) (invite_code : option string) : M RoomSession RoomError unit :=
  join_room_with_name room_id invite_code None.

(** [leave_room]. *)
Definition leave_room : M RoomSession RoomError unit :=
  let! in_room := gets rs_in_room in
  if in_room then
    let! mode := gets rs_sfu_mode in
    do! (match mode with LiveKit _ _ => outside_ignored lk_disconnect | Proxy => mret tt end) in
    do! outside_ignored pc_close in
    do! outside_ignored audio_stop in
    do! modify (set_rs_tracks ∅) in
    do! modify (set_rs_shares ∅) in
    do! modify (set_rs_stored None) in
    do! modify clear_room_credentials in
    do! room_send Msg.Leave in
    modify (set_rs_in_room false)
  else throw NotInRoom.

(** [start_share], [stop_share], [stop_all_shares]. *)
Definition in_room_send (msg : SignalingMessage) : M RoomSession RoomError unit :=
  let! in_room := gets rs_in_room in
  if in_room then room_send msg else throw NotInRoom.
Definition start_share : M RoomSession RoomError unit :=
  in_room_send (Msg.StartShare (mkStartSharePayload None)).
Definition stop_share (target : option string) : M RoomSession RoomError unit :=
  in_room_send (Msg.StopShare (mkStopSharePayload target None)).
Definition stop_all_shares : M RoomSession RoomError unit := in_room_send Msg.StopAllShares.

(** ** Incoming messages *)

(** [handle_participant_joined_message], [handle_participant_left_message]. *)
Definition handle_participant_joined (now : Instant) (p : ParticipantJoinedPayload) (s : RoomSession) : RoomSession :=
  let id := ParticipantJoined_participant_id p in
  notice (NoticeJoined (mkParticipantInfo id (ParticipantJoined_display_name p) None
                          (ParticipantJoined_profile_color p) false false false))
    (set_rs_tracks (<[id := SubscribeTrackState_new now id]> (rs_subscribe_tracks s)) s).
Definition handle_participant_left (p : ParticipantLeftPayload) (s : RoomSession) : RoomSession :=
  let id := ParticipantLeft_participant_id p in
  notice (NoticeLeft id)
    (set_rs_shares (rs_active_shares s ∖ {[id]}) (set_rs_tracks (delete id (rs_subscribe_tracks s)) s)).

(** [handle_share_state_message], [.._started_..], [.._stopped_..]. *)
Definition handle_share_state (p : ShareStatePayload) (s : RoomSession) : RoomSession :=
  let shares := list_to_set (ShareState_participant_ids p) in
  notice (NoticeShareState shares) (set_rs_shares shares s).
Definition handle_share_started (p : ShareStartedPayload) (s : RoomSession) : RoomSession :=
  let id := ShareStarted_participant_id p in
  notice (NoticeShareStarted id) (set_rs_shares ({[id]} ∪ rs_active_shares s) s).
Definition handle_share_stopped (p : ShareStoppedPayload) (s : RoomSession) : RoomSession :=
  let id := ShareStopped_participant_id p in
  notice (NoticeShareStopped id) (set_rs_shares (rs_active_shares s ∖ {[id]}) s).

(** [MediaToken]: LiveKit when it connects, otherwise the mode stays. *)
Definition handle_media_token (p : MediaTokenPayload) : M RoomSession RoomError unit :=
  let! r := attempt (outside id (lk_connect (MediaToken_sfu_url p) (MediaToken_token p))) in
  match r with
  | Ok _ =>
      do! modify (set_rs_mode (LiveKit (MediaToken_sfu_url p) (MediaToken_token p))) in
      let! track := gets rs_stored_track in
      match track with Some t => outside_ignored (lk_publish_audio t) | None => mret tt end
  | Err _ => mret tt
  end.

(** The dispatcher of [wire_signaling]. *)
Definition dispatch (now : Instant) (msg : SignalingMessage) : M RoomSession RoomError unit :=
  match msg with
  | Msg.MediaToken p => handle_media_token p
  | Msg.RoomState p => modify (notice (NoticeRoomState (RoomState_participants p)))
  | Msg.ParticipantJoined p => modify (handle_participant_joined now p)
  | Msg.ParticipantLeft p => modify (handle_participant_left p)
  | Msg.ShareState p => modify (handle_share_state p)
  | Msg.ShareStarted p => modify (handle_share_started p)
  | Msg.ShareStopped p => modify (handle_share_stopped p)
  | Msg.Answer p =>
      let! mode := gets rs_sfu_mode in
      match mode with
      | Proxy =>
          let sdp := SessionDescription_sdp (Answer_session_description p) in
          if check_sdp_size sdp then outside_ignored (set_remote_answer sdp) else mret tt
      | LiveKit _ _ => mret tt
      end
  | Msg.IceCandidate p =>
      let! mode := gets rs_sfu_mode in
      match mode with
      | Proxy =>
          if check_ice_candidate_size (IceCandidate_candidate p)
          then outside_ignored (pc_add_ice_candidate (IceCandidate_candidate p)) else mret tt
      | LiveKit _ _ => mret tt
      end
  | _ => mret tt
  end.

(** [handle_incoming]. *)
Definition room_handle_incoming (now : Instant) (text : string) : M RoomSession RoomError unit :=
  if client_check_json_depth text MAX_JSON_DEPTH then
    match message_parse text with
    | Ok msg => dispatch now msg
    | Err e => throw (RoomSignaling (SignalingError_text (ParseFailed e)))
    end
  else throw (RoomSignaling (SignalingError_text JsonTooDeep)).

(** A sequence of messages, with their arrival times. *)
Definition dispatch_all (l : list (Instant * SignalingMessage)) (s : RoomSession) : RoomSession :=
  foldl (λ s m, (dispatch m.1 m.2 s).2) s l.
End session.
Arguments RoomSession : clear implicits.

(** ** What the client believes *)

(** What the client takes a message to say of a participant's presence, and of its
    sharing: [RoomState] and [ParticipantKicked] are not among those it heeds. *)
Definition presence (x : string) (msg : SignalingMessage) : option bool :=
  match msg with
  | Msg.ParticipantJoined p => if bool_decide (ParticipantJoined_participant_id p = x) then Some true else None
  | Msg.ParticipantLeft p => if bool_decide (ParticipantLeft_participant_id p = x) then Some false else None
  | _ => None
  end.
Definition sharing (x : string) (msg : SignalingMessage) : option bool :=
  match msg with
  | Msg.ShareState p => Some (bool_decide (x ∈ ShareState_participant_ids p))
  | Msg.ShareStarted p => if bool_decide (ShareStarted_participant_id p = x) then Some true else None
  | Msg.ShareStopped p => if bool_decide (ShareStopped_participant_id p = x) then Some false else None
  | Msg.ParticipantLeft p => if bool_decide (ParticipantLeft_participant_id p = x) then Some false else None
  | _ => None
  end.

(** The last message that says anything decides. *)
Definition last_word (f : SignalingMessage → option bool) (b : bool) (l : list (Instant * SignalingMessage)) : bool :=
  foldl (λ b m, default b (f m.2)) b l.

Section rules.
Context {W : Type} `{ClientBackend W} `{LiveKitConnection W}.
Implicit Types (s : RoomSession W).

Lemma outside_frame {E A} (f : E → RoomError) (p : M W E A) s :
  ∃ r w, outside f p s = (r, set_rs_world w s).
Proof. unfold outside. destruct (p (rs_world s)) as [r w]. by eexists _, _. Qed.

Lemma outside_ignored_frame {E A} (p : M W E A) s :
  outside_ignored p s = (Ok tt, set_rs_world (p (rs_world s)).2 s).
Proof. unfold outside_ignored. by destruct (p (rs_world s)). Qed.

Lemma media_token_frame p s :
  ∃ w mode, (handle_media_token p s).2 = set_rs_mode mode (set_rs_world w s).
Proof.
  unfold handle_media_token, mbind_, attempt.
  destruct (outside_frame (A:=unit) id (lk_connect (MediaToken_sfu_url p) (MediaToken_token p)) s) as (r & w & ->).
  destruct r as [a|e]; [|by exists w, (rs_sfu_mode s)]. cbn.
  destruct (rs_stored_track s) as [t|]; [|by eexists _, _]. rewrite outside_ignored_frame. by eexists _, _.
Qed.

(** What one message changes in the two views. *)
Lemma dispatch_views now msg s (x : string) :
  bool_decide (x ∈ dom (rs_subscribe_tracks (dispatch now msg s).2)) =
    default (bool_decide (x ∈ dom (rs_subscribe_tracks s))) (presence x msg) ∧
  bool_decide (x ∈ rs_active_shares (dispatch now msg s).2) =
    default (bool_decide (x ∈ rs_active_shares s)) (sharing x msg).
Proof.
  destruct msg; cbn [dispatch presence sharing default]; try done.
  all: unfold modify, mbind_, gets; cbn.
  all: try (destruct (rs_sfu_mode s); [|done]; destruct (check_sdp_size _) || destruct (check_ice_candidate_size _);
            rewrite ?outside_ignored_frame; done).
  all: try (destruct (media_token_frame p s) as (w & mode & ->); done).
  all: repeat case_bool_decide; cbn; split; try apply bool_decide_ext; set_solver.
Qed.

(** After any sequence of messages a participant has an audio track if and only if
    the last [ParticipantJoined] or [ParticipantLeft] that names it was the first of
    the two, and counts as sharing if and only if the last [ShareState],
    [ShareStarted], [ShareStopped] or [ParticipantLeft] that speaks of it says so.  The
    snapshot of [RoomState] and [ParticipantKicked] change neither. *)
Theorem room_view_is_last_word (l : list (Instant * SignalingMessage)) s (x : string) :
  bool_decide (x ∈ dom (rs_subscribe_tracks (dispatch_all l s))) =
    last_word (presence x) (bool_decide (x ∈ dom (rs_subscribe_tracks s))) l ∧
  bool_decide (x ∈ rs_active_shares (dispatch_all l s)) =
    last_word (sharing x) (bool_decide (x ∈ rs_active_shares s)) l.
Proof.
  unfold dispatch_all, last_word. revert s. induction l as [|[now msg] l IH]; intros s; cbn; [done|].
  destruct (dispatch_views now msg s x) as [Ht Hs]. destruct (IH (dispatch now msg s).2) as [-> ->]. by rewrite Ht, Hs.
Qed.

(** In LiveKit mode the peer connection is left alone. *)
Theorem livekit_suppresses_negotiation now url token s p q :
  rs_sfu_mode s = LiveKit url token →
  dispatch now (Msg.Answer p) s = (Ok tt, s) ∧ dispatch now (Msg.IceCandidate q) s = (Ok tt, s).
Proof. intros Hm. cbn. unfold mbind_, gets. by rewrite Hm. Qed.

(** ** Leaving *)

Context `{!ClientLaws W}.

(** Leaving releases the connection and forgets tracks, shares, the microphone track
    and the TURN credentials, whatever the backends answer; the session counts as
    left only once the server could be told. *)
Theorem leaving_room_releases s :
  rs_in_room s = true →
  let '(r, s') := leave_room s in
  is_active (rs_world s') = false ∧ rs_subscribe_tracks s' = ∅ ∧ rs_active_shares s' = ∅ ∧
  rs_stored_track s' = None ∧ turn_username (rs_ice_config s') = EmptyString ∧
  turn_credential (rs_ice_config s') = EmptyString ∧ rs_in_room s' = negb (is_Ok r).
Proof.
  intros Hin. unfold leave_room, mbind_, gets, modify, mret. rewrite Hin.
  destruct (rs_sfu_mode s); rewrite ?outside_ignored_frame; cbn;
    [set (w := rs_world s)|set (w := (lk_disconnect (rs_world s)).2)];
    clearbody w; repeat (rewrite outside_ignored_frame; cbn); unfold room_send, outside; cbn;
    set (w2 := (audio_stop (pc_close w).2).2);
    assert (Hw2 : is_active w2 = false) by (unfold w2; by rewrite stop_active, close_deactivates); clearbody w2;
    pose proof (signaling_send_active Msg.Leave w2) as Hsend;
    destruct (signaling_send Msg.Leave w2) as [[] w3]; cbn in *; split_and!; (done || congruence).
Qed.
End rules.

(** ** Runs on the mocks *)

Module RoomDemo.

#[local] Instance demo_backend : ClientBackend MockWorld := MockBackend CallDemo.to_json CallDemo.parse.
#[local] Instance demo_laws : ClientLaws MockWorld := MockLaws CallDemo.to_json CallDemo.parse.

(** [MockLiveKitConnection] with the results it is set to return; its log is not
    kept. *)
Definition MockLiveKit (available connects : bool) : LiveKitConnection MockWorld := {|
  lk_connect _ _ := if connects then mret tt else throw (SfuConnectionFailed "unreachable");
  lk_disconnect := mret tt;
  lk_publish_audio _ := mret tt;
  lk_is_available _ := available
|}.

Definition joined (id : string) : SignalingMessage :=
  Msg.ParticipantJoined (mkParticipantJoinedPayload id "name" None None).
Definition token : SignalingMessage := Msg.MediaToken (mkMediaTokenPayload "jwt" "wss://sfu").
Definition answer : SignalingMessage := Msg.Answer (mkAnswerPayload (mkSessionDescription "sdp" "answer")).
Definition share (id : string) (t : WireShareType) : SignalingMessage :=
  Msg.ShareStarted (mkShareStartedPayload id "name" (Some t)).
Definition unshare (id : string) (t : WireShareType) : SignalingMessage :=
  Msg.ShareStopped (mkShareStoppedPayload id "name" (Some t)).

(** A join whose microphone is refused has already told the server, and cannot be
    taken back: the session is not in a room, so leaving is an error. *)
Theorem failed_join_stays_on_server :
  let w := set_capture_result (Err "denied"%string) mock_new in
  let '(r, s) := @join_room _ _ NoLiveKit "room" None (RoomSession_new w CallDemo.ice) in
  r = Err (RoomAudio "microphone access denied") ∧ mw_sent (rs_world s) = ["other"%string] ∧
  @leave_room _ _ NoLiveKit s = (Err NotInRoom, s).
Proof. done. Qed.

(** A peer connection that a failed join opened stays open. *)
Definition refusing_track : ClientBackend MockWorld := {|
  create_peer_connection := @create_peer_connection _ demo_backend;
  add_audio_track _ := throw (NegotiationFailed "codec");
  create_offer := @create_offer _ demo_backend;
  create_answer := @create_answer _ demo_backend;
  set_remote_answer := @set_remote_answer _ demo_backend;
  pc_add_ice_candidate := @pc_add_ice_candidate _ demo_backend;
  pc_close := @pc_close _ demo_backend;
  is_active := mw_active;
  capture_mic := mock_capture;
  play_remote := mock_play;
  audio_stop := mock_stop;
  send_text := mock_send;
  message_to_json := CallDemo.to_json;
  message_parse := CallDemo.parse
|}.
Theorem failed_join_leaks_connection :
  let '(r, s) := @join_room _ refusing_track NoLiveKit "room" None (RoomSession_new mock_new CallDemo.ice) in
  r = Err (PublishFailed "negotiation failed: codec") ∧ is_active (rs_world s) = true ∧ rs_in_room s = false ∧
  rs_stored_track s = Some (mkAudioTrack "mock-mic-track").
Proof. done. Qed.

(** The mode of the last room survives leaving it: in the next room, without LiveKit,
    the answer to the client's offer is dropped. *)
Theorem stale_mode_drops_answers :
  let s1 := (@join_room _ _ (MockLiveKit true true) "room" None (RoomSession_new mock_new CallDemo.ice)).2 in
  let s2 := (@dispatch _ _ (MockLiveKit true true) 0 token s1).2 in
  let s3 := (@leave_room _ _ (MockLiveKit true true) s2).2 in
  let s4 := (@join_room _ _ (MockLiveKit false false) "other" None s3).2 in
  let s5 := (@dispatch _ _ (MockLiveKit false false) 1 token s4).2 in
  rs_in_room s5 = true ∧ is_active (rs_world s5) = true ∧ rs_sfu_mode s5 = LiveKit "wss://sfu" "jwt" ∧
  @dispatch _ _ (MockLiveKit false false) 2 answer s5 = (Ok tt, s5).
Proof. done. Qed.

(** Joining again after leaving sets up media without TURN credentials. *)
Theorem rejoin_without_credentials :
  let s1 := (@join_room _ _ NoLiveKit "room" None (RoomSession_new mock_new CallDemo.ice)).2 in
  let s2 := (@leave_room _ _ NoLiveKit s1).2 in
  let s3 := (@join_room _ _ NoLiveKit "room" None s2).2 in
  rs_in_room s3 = true ∧ turn_urls (rs_ice_config s3) = ["turn:b"%string] ∧
  turn_credential (rs_ice_config s3) = EmptyString.
Proof. done. Qed.

(** A leave that cannot be sent tears everything down but keeps the session in its
    room, so a new join is refused. *)
Theorem unsent_leave_stays_in_room :
  let s1 := (@join_room _ _ NoLiveKit "room" None (RoomSession_new mock_new CallDemo.ice)).2 in
  let w := rs_world s1 in
  let offline := mkMockWorld (mw_calls w) (mw_active w) (mw_capture_result w) (mw_play_result w)
                   (mw_stop_result w) false (mw_sent w) in
  let '(r, s2) := @leave_room _ _ NoLiveKit (set_rs_world offline s1) in
  r = Err (RoomSignaling "WebSocket send failed: closed") ∧ is_active (rs_world s2) = false ∧
  rs_in_room s2 = true ∧ (@join_room _ _ NoLiveKit "room" None s2).1 = Err AlreadyInRoom.
Proof. vm_compute. split_and!; reflexivity. Qed.

(** The snapshot a late joiner receives creates no audio tracks for those already in
    the room. *)
Theorem room_state_creates_no_tracks (ps : list ParticipantInfo) (s : RoomSession MockWorld) :
  rs_subscribe_tracks (@dispatch _ _ NoLiveKit 0 (Msg.RoomState (mkRoomStatePayload ps)) s).2 = rs_subscribe_tracks s.
Proof. done. Qed.

(** A participant with two shares of different kinds stops counting as sharing when
    one of them ends. *)
Theorem one_stop_hides_both_shares :
  let s := @dispatch_all _ _ NoLiveKit [(0, share "p" ScreenAudio); (1, share "p" AudioOnly); (2, unshare "p" AudioOnly)]%Z
             (RoomSession_new mock_new CallDemo.ice) in
  bool_decide ("p"%string ∈ rs_active_shares s) = false.
Proof. vm_compute. reflexivity. Qed.

Lemma leaving_room_releases_witness :
  let s := (@join_room _ _ NoLiveKit "room" None (RoomSession_new mock_new CallDemo.ice)).2 in
  rs_in_room s = true ∧
  let '(r, s') := @leave_room _ _ NoLiveKit s in
  is_active (rs_world s') = false ∧ rs_subscribe_tracks s' = ∅ ∧ rs_active_shares s' = ∅ ∧
  rs_stored_track s' = None ∧ turn_username (rs_ice_config s') = EmptyString ∧
  turn_credential (rs_ice_config s') = EmptyString ∧ rs_in_room s' = negb (is_Ok r).
Proof.
  cbv zeta. split; [reflexivity|].
  exact (@leaving_room_releases _ _ NoLiveKit _
    (@join_room _ _ NoLiveKit "room" None (RoomSession_new mock_new CallDemo.ice)).2 eq_refl).
Defined.
End RoomDemo.
