(* ===== verification/Commands.v ===== *)
(** * Commands of the terminal client (clients/wavis-client/src/commands.rs)

    The line a user types, split at white space, as a command.  Accepted commands are
    exactly those with well-formed arguments, and each of them can be typed.  *)

From Stdlib Require Import Ascii.
From stdpp Require Import pretty.
From S2P Require Import Prelude Signaling FieldValidation SfuBridge Tokens SfuRelay Config.
Local Open Scope Z_scope.

(** ** Data *)

(** [Command]. *)
Inductive Command : Type :=
| Create (room_id : string)
| Join (room_id invite_code : string)
| Invite (max_uses : option Z)
| Revoke (invite_code : string)
| Leave
| Status
| Name (new_name : string)
| Volume (level : Z)
| PeerVolume (peer : string) (level : Z)
| Help
| Quit.

(** [ParseResult]. *)
Inductive ParseResult : Type :=
| ParseOk (c : Command)
| UnknownCommand (token : string)
| WrongArgCount (command usage : string)
| EmptyInput.

(** ** The parser *)

(** [str::to_lowercase], as far as a comparison with ASCII text can tell: of the other
    characters only the Kelvin sign has an ASCII lower case. *)
Definition kelvin : string := utf8 [226; 132; 170]%nat.
Fixpoint to_lowercase (s : string) : string :=
  match s with
  | EmptyString => EmptyString
  | String "226" (String "132" (String "170" s')) => String "k" (to_lowercase s')
  | String c s' => String (lower_ascii c) (to_lowercase s')
  end.

(** [strip_prefix('/').unwrap_or(..)]. *)
Definition strip_slash (s : string) : string :=
  match s with String "/" s' => s' | _ => s end.

Definition usage_volume : string := "volume <0-100> OR volume <peer> <0-100>".

(** The arms of the match on the command word. *)
Definition parse_no_args (c : Command) (word : string) (args : list string) : ParseResult :=
  match args with [] => ParseOk c | _ => WrongArgCount word word end.
Definition parse_invite (args : list string) : ParseResult :=
  match args with
  | [] => ParseOk (Invite None)
  | [n] =>
      match parse_unsigned u32_max n with
      | Some v => ParseOk (Invite (Some v))
      | None => WrongArgCount "invite" "invite [max-uses]  (max-uses must be a positive integer)"
      end
  | _ => WrongArgCount "invite" "invite [max-uses]"
  end.
Definition parse_level (s : string) : option Z :=
  match parse_unsigned u8_max s with
  | Some n => if n <=? 100 then Some n else None
  | None => None
  end.
Definition parse_volume (args : list string) : ParseResult :=
  match args with
  | [l] =>
      match parse_level l with
      | Some n => ParseOk (Volume n)
      | None => WrongArgCount "volume" "volume <0-100>  (must be an integer 0–100)"
      end
  | [peer; l] =>
      match parse_level l with
      | Some n => ParseOk (PeerVolume peer n)
      | None => WrongArgCount "volume" "volume <peer> <0-100>  (level must be an integer 0–100)"
      end
  | _ => WrongArgCount "volume" usage_volume
  end.

(** [parse_command]. *)
Definition parse_command (input : string) : ParseResult :=
  match split_whitespace input with
  | [] => EmptyInput
  | token :: args =>
      let cmd := to_lowercase (strip_slash token) in
      if String.eqb cmd "create" then
        match args with [r] => ParseOk (Create r) | _ => WrongArgCount "create" "create <room-id>" end
      else if String.eqb cmd "join" then
        match args with
        | [r; i] => ParseOk (Join r i)
        | _ => WrongArgCount "join" "join <room-id> <invite-code>"
        end
      else if String.eqb cmd "invite" then parse_invite args
      else if String.eqb cmd "revoke" then
        match args with [i] => ParseOk (Revoke i) | _ => WrongArgCount "revoke" "revoke <invite-code>" end
      else if String.eqb cmd "leave" then parse_no_args Leave "leave" args
      else if String.eqb cmd "status" then parse_no_args Status "status" args
      else if String.eqb cmd "name" then
        match args with [n] => ParseOk (Name n) | _ => WrongArgCount "name" "name <display-name>" end
      else if String.eqb cmd "volume" then parse_volume args
      else if String.eqb cmd "help" then parse_no_args Help "help" args
      else if String.eqb cmd "quit" then parse_no_args Quit "quit" args
      else UnknownCommand token
  end.

(** [build_invite_create]. *)
Definition build_invite_create (max_uses : option Z) : SignalingMessage :=
  Msg.InviteCreate (mkInviteCreatePayload max_uses).

Example kelvin_revokes : parse_command ("/REVO" +:+ kelvin +:+ "e  ABC ") = ParseOk (Revoke "ABC").
Proof. vm_compute. reflexivity. Qed.
Example not_a_level : parse_command "volume bob 101" = 
  WrongArgCount "volume" "volume <peer> <0-100>  (level must be an integer 0–100)".
Proof. vm_compute. reflexivity. Qed.

(** The hint asks for a positive number of uses, and none at all is accepted. *)
Example zero_uses_accepted : parse_command "invite 0" = ParseOk (Invite (Some 0)).
Proof. vm_compute. reflexivity. Qed.

(** ** Words *)

Abbreviation spaces := (map utf8 whitespace) (only parsing).

(** No white space starts anywhere in a word. *)
Fixpoint no_space (s : string) : bool :=
  match s with
  | EmptyString => true
  | String _ s' => bool_decide (strip_one spaces s = None) && no_space s'
  end.
Definition is_word (s : string) : Prop := s ≠ EmptyString ∧ no_space s = true.

Lemma append_cons c s t : String c s +:+ t = String c (s +:+ t).
Proof. done. Qed.
Lemma append_nil t : EmptyString +:+ t = t.
Proof. done. Qed.
Lemma append_empty_r s : s +:+ EmptyString = s.
Proof. induction s as [|c s IH]; [done|]. by rewrite append_cons, IH. Qed.
Lemma str_length_append s t : String.length (s +:+ t) = (String.length s + String.length t)%nat.
Proof. induction s as [|c s IH]; [done|]. rewrite append_cons. cbn. by rewrite IH. Qed.

Lemma prefix_app p s t : String.prefix p s = true → String.prefix p (s +:+ t) = true.
Proof.
  revert s. induction p as [|a p IH]; intros [|b s]; rewrite ?append_cons, ?append_nil; cbn [String.prefix]; try done.
  - by destruct t.
  - destruct (Ascii.ascii_dec a b); [apply IH|done].
Qed.

(** A pattern without the byte [c] that is found before it does not reach it. *)
Fixpoint lacks (c : Ascii.ascii) (s : string) : bool :=
  match s with EmptyString => true | String a s' => negb (Ascii.eqb a c) && lacks c s' end.
Lemma prefix_before p s c t :
  lacks c p = true → String.prefix p (s +:+ String c t) = true → String.prefix p s = true.
Proof.
  revert s. induction p as [|a p IH]; intros [|b s]; rewrite ?append_cons, ?append_nil; cbn [String.prefix lacks]; try done; intros [Ha Hp]%andb_true_iff.
  - destruct (Ascii.ascii_dec a c) as [->|]; [|done]. by rewrite Ascii.eqb_refl in Ha.
  - destruct (Ascii.ascii_dec a b); [by apply IH|done].
Qed.

Lemma strip_one_prefix ws s : is_Some (strip_one ws s) ↔ ∃ p, p ∈ ws ∧ String.prefix p s = true.
Proof.
  induction ws as [|p ws IH]; cbn.
  - split; [by intros []|]. by intros (p & ?%elem_of_nil & _).
  - destruct (String.prefix p s) eqn:Hp; [split; [|done]; intros _; exists p; split; [by left|done]|].
    rewrite IH. split; intros (q & Hq & Hqs); exists q.
    { split; [by right|done]. }
    split; [|done]. apply elem_of_cons in Hq as [->|]; [congruence|done].
Qed.

Lemma strip_one_app ws s t : strip_one ws (s +:+ t) = None → strip_one ws s = None.
Proof.
  rewrite !eq_None_not_Some, !strip_one_prefix. intros Hn (p & Hp & Hps). apply Hn. exists p.
  split; [done|]. by apply prefix_app.
Qed.

(** No white space other than the blank itself contains a blank. *)
Lemma strip_one_before c s t :
  strip_one spaces (String c s) = None → strip_one spaces (String c s +:+ String " " t) = None.
Proof.
  rewrite !eq_None_not_Some, !strip_one_prefix. intros Hn (p & Hp & Hps). apply Hn. exists p. split; [done|].
  assert (Forall (λ p, match p with EmptyString => false | String _ p' => lacks " " p' end = true) spaces) as Hall
    by (repeat constructor).
  rewrite Forall_forall in Hall. specialize (Hall _ Hp). destruct p as [|a p]; [done|]. rewrite append_cons in Hps.
  cbn [String.prefix] in *. destruct (Ascii.ascii_dec a c); [|done]. by eapply prefix_before.
Qed.

Lemma str_substring_all s : String.substring 0 (String.length s) s = s.
Proof. induction s; cbn; [done|]. by f_equal. Qed.
Lemma strip_blank t : strip_one spaces (String " " t) = Some t.
Proof.
  transitivity (Some (String.substring 1 (String.length t - 0) (String " " t))); [by destruct t|].
  cbn. by rewrite Nat.sub_0_r, str_substring_all.
Qed.

Lemma until_space_app s t : no_space s = true → until_space (s +:+ String " " t) = s.
Proof.
  induction s as [|c s IH]; intros Hs; [rewrite append_nil; cbn [until_space]; by rewrite strip_blank|].
  cbn [no_space] in Hs. apply andb_true_iff in Hs as [Hc%bool_decide_eq_true Hs]. pose proof (strip_one_before _ _ t Hc) as Hn.
  rewrite append_cons in *. cbn [until_space]. rewrite Hn. by rewrite IH.
Qed.
Lemma until_space_word s : no_space s = true → until_space s = s.
Proof.
  induction s as [|c s IH]; intros Hs; [done|]. cbn [no_space] in Hs.
  apply andb_true_iff in Hs as [Hc%bool_decide_eq_true Hs]. cbn [until_space]. by rewrite Hc, IH.
Qed.
Lemma until_space_split s : ∃ t, s = until_space s +:+ t.
Proof.
  induction s as [|c s [t Ht]]; [by exists EmptyString|]. cbn [until_space].
  destruct (strip_one spaces (String c s)); [by exists (String c s)|]. exists t. rewrite append_cons. by f_equal.
Qed.
Lemma until_space_no_space s : no_space (until_space s) = true.
Proof.
  induction s as [|c s IH]; [done|]. cbn [until_space]. destruct (strip_one spaces (String c s)) eqn:Hc; [done|].
  cbn [no_space]. rewrite IH, andb_true_r. apply bool_decide_eq_true.
  destruct (until_space_split s) as [t Ht]. apply (strip_one_app _ _ t). rewrite append_cons. by rewrite <- Ht.
Qed.

Lemma skip_bytes_app s t : skip_bytes (String.length s) (s +:+ t) = t.
Proof. induction s; [by destruct t|done]. Qed.
Lemma strip_all_word n w t :
  is_word w → strip_all n spaces (w +:+ String " " t) = w +:+ String " " t ∧ strip_all n spaces w = w.
Proof.
  intros [Hne Hw]. destruct w as [|c w]; [done|]. cbn [no_space] in Hw.
  apply andb_true_iff in Hw as [Hc%bool_decide_eq_true _].
  destruct n as [|n]; [done|]. cbn [strip_all]. by rewrite (strip_one_before _ _ t Hc), Hc.
Qed.

(** [split_whitespace] of words with a blank between each two. *)
Definition join_words (l : list string) : string := String.concat " " l.

Lemma split_words_blank n t : split_words n (String " " t) = split_words n t.
Proof. destruct n as [|n]; [done|]. cbn [split_words String.length strip_all]. by rewrite strip_blank. Qed.
Lemma split_words_cons n w t : is_word w → split_words (S n) (w +:+ String " " t) = w :: split_words n t.
Proof.
  intros Hw. cbn [split_words]. rewrite (proj1 (strip_all_word _ w t Hw)). destruct Hw as [Hne Hw].
  rewrite (until_space_app w t Hw), skip_bytes_app, split_words_blank. by destruct w.
Qed.
Lemma split_words_last n w : is_word w → split_words (S n) w = [w].
Proof.
  intros Hw. cbn [split_words]. rewrite (proj2 (strip_all_word _ w EmptyString Hw)). destruct Hw as [Hne Hw].
  rewrite (until_space_word w Hw). pose proof (skip_bytes_app w EmptyString) as Hs.
  rewrite append_empty_r in Hs. rewrite Hs. destruct w; [done|]. by destruct n.
Qed.
Lemma split_join n l : Forall is_word l → (length l ≤ n)%nat → split_words n (join_words l) = l.
Proof.
  revert n. induction l as [|w [|v l] IH]; intros n Hl Hn.
  - by destruct n.
  - inversion Hl; subst. destruct n as [|n]; [cbn in Hn; lia|]. by apply split_words_last.
  - inversion Hl as [|? ? Hw Hr]; subst. destruct n as [|n]; [cbn in Hn; lia|].
    change (join_words (w :: v :: l)) with (w +:+ String " " (join_words (v :: l))).
    rewrite split_words_cons by done. f_equal. apply IH; [done|]. cbn in *; lia.
Qed.

Lemma join_words_length l : Forall is_word l → (length l ≤ String.length (join_words l))%nat.
Proof.
  induction l as [|w [|v l] IH]; intros Hl; inversion Hl as [|? ? Hw Hr]; subst; cbn [length]; [lia| |].
  - destruct Hw as [Hne _]. destruct w; [done|]. cbn. lia.
  - change (join_words (w :: v :: l)) with (w +:+ String " " (join_words (v :: l))).
    rewrite str_length_append. specialize (IH Hr). cbn [String.length length] in *. lia.
Qed.
Lemma split_whitespace_join l : Forall is_word l → split_whitespace (join_words l) = l.
Proof. intros Hl. apply split_join; [done|by apply join_words_length]. Qed.

Lemma split_words_are_words n s : Forall is_word (split_words n s).
Proof.
  revert s. induction n as [|n IH]; intros s; [constructor|]. cbn [split_words].
  set (w := until_space _). assert (no_space w = true) by apply until_space_no_space.
  destruct w as [|c w']; cbn [str_is_empty]; [constructor|]. constructor; [done|apply IH].
Qed.

(** The rounds of [split_whitespace] are enough: more of them give the same words. *)
Lemma str_substring_length a b s : (String.length (String.substring a b s) ≤ String.length s)%nat.
Proof.
  revert a b. induction s as [|c s IH]; intros [|a] [|b]; cbn; try lia; [specialize (IH 0%nat b)|specialize (IH a 0%nat)|specialize (IH a (S b))]; lia.
Qed.
Lemma strip_one_shorter ws s t : strip_one ws s = Some t → (String.length t ≤ String.length s)%nat.
Proof.
  induction ws as [|p ws IH]; cbn; [done|]. case_match; [|apply IH]. intros [= <-].
  apply str_substring_length.
Qed.
Lemma strip_all_shorter n ws s : (String.length (strip_all n ws s) ≤ String.length s)%nat.
Proof.
  revert s. induction n as [|n IH]; intros s; cbn; [done|]. destruct (strip_one ws s) as [t|] eqn:Hs; [|done].
  apply strip_one_shorter in Hs. specialize (IH t). lia.
Qed.
Lemma split_words_fuel n s : (String.length s ≤ n)%nat → split_words n s = split_whitespace s.
Proof.
  unfold split_whitespace. remember (String.length s) as m eqn:Hm. intros Hn.
  assert (String.length s ≤ m)%nat as Hms by lia. clear Hm. revert m s Hn Hms.
  induction n as [|n IH]; intros m s Hn Hms; [by destruct m; [|lia]|].
  destruct m as [|m]; [destruct s; [done|cbn in Hms; lia]|]. cbn [split_words].
  pose proof (strip_all_shorter (String.length s) spaces s) as Hsh.
  set (rest := strip_all _ _ _) in *. destruct (until_space_split rest) as [t Ht].
  assert (skip_bytes (String.length (until_space rest)) rest = t) as Hskip.
  { rewrite Ht at 2. apply skip_bytes_app. }
  rewrite Hskip. destruct (until_space rest) as [|c w] eqn:Hw; [done|]. cbn [str_is_empty]. f_equal.
  assert (String.length t < String.length rest)%nat by (rewrite Ht, str_length_append; cbn; lia).
  rewrite <- (IH m t) by lia. done.
Qed.

(** ** What is accepted *)

(** Arguments are words and numbers are in range. *)
Definition command_ok (c : Command) : Prop :=
  match c with
  | Create r => is_word r
  | Join r i => is_word r ∧ is_word i
  | Invite (Some n) => 0 ≤ n ≤ u32_max
  | Revoke i => is_word i
  | Name n => is_word n
  | Volume l => 0 ≤ l ≤ 100
  | PeerVolume p l => is_word p ∧ 0 ≤ l ≤ 100
  | Invite None | Leave | Status | Help | Quit => True
  end.

(** A command the way the help text writes it. *)
Definition show_num (n : Z) : string := pretty (Z.to_N n).
Definition command_words (c : Command) : list string :=
  match c with
  | Create r => ["create"; r]
  | Join r i => ["join"; r; i]
  | Invite None => ["invite"]
  | Invite (Some n) => ["invite"; show_num n]
  | Revoke i => ["revoke"; i]
  | Leave => ["leave"]
  | Status => ["status"]
  | Name n => ["name"; n]
  | Volume l => ["volume"; show_num l]
  | PeerVolume p l => ["volume"; p; show_num l]
  | Help => ["help"]
  | Quit => ["quit"]
  end%string.
Definition print_command (c : Command) : string := join_words (command_words c).

(** Digits are no white space, so a printed number is a word. *)
Lemma digit_no_space c s : is_Some (digit c) → strip_one spaces (String c s) = None.
Proof.
  intros Hd. rewrite eq_None_not_Some, strip_one_prefix. intros (p & Hp & Hps).
  assert (Forall (λ p, match p with EmptyString => False | String a _ => digit a = None end) spaces) as Hall
    by (repeat constructor).
  rewrite Forall_forall in Hall. specialize (Hall _ Hp). destruct p as [|a p]; [done|]. cbn in Hps.
  destruct (Ascii.ascii_dec a c) as [->|]; [|done]. rewrite Hall in Hd. by destruct Hd.
Qed.
Lemma digits_no_space max acc s n : parse_digits max acc s = Some n → no_space s = true.
Proof.
  revert acc. induction s as [|c s IH]; intros acc; [done|]. cbn [parse_digits].
  destruct (digit c) as [d|] eqn:Hd; cbn [mbind option_bind]; [|done]. case_match; [|done]. intros Hp.
  cbn [no_space]. rewrite bool_decide_true by (apply digit_no_space; eauto). by eapply IH.
Qed.
Lemma show_num_word n : 0 ≤ n → is_word (show_num n) ∧ ∀ max, n ≤ max → parse_unsigned max (show_num n) = Some n.
Proof.
  intros Hn. unfold show_num. assert (Z.of_N (Z.to_N n) = n) as HN by lia. split.
  - pose proof (parse_pretty n (Z.to_N n) ltac:(lia)) as Hp.
    destruct (pretty_N_first (Z.to_N n)) as (c & s & Hc & Hd). rewrite Hc in Hp |- *. split; [done|].
    assert (parse_digits n 0 (String c s) = Some (Z.of_N (Z.to_N n))) as Hpd.
    { unfold parse_unsigned in Hp. destruct c as [[] [] [] [] [] [] [] []]; try exact Hp; by destruct Hd. }
    by eapply digits_no_space.
  - intros max Hm. rewrite parse_pretty by lia. by rewrite HN.
Qed.
Lemma parse_level_bounds s n : parse_level s = Some n → 0 ≤ n ≤ 100.
Proof.
  unfold parse_level. destruct (parse_unsigned u8_max s) as [m|] eqn:Hm; [|done].
  destruct (m <=? 100) eqn:Hle; [|done]. intros [= <-]. apply parse_unsigned_bounds in Hm; [lia|done].
Qed.
Lemma parse_level_show n : 0 ≤ n ≤ 100 → parse_level (show_num n) = Some n.
Proof.
  intros Hn. unfold parse_level. rewrite (proj2 (show_num_word n ltac:(lia))) by (unfold u8_max; lia).
  by rewrite (proj2 (Z.leb_le _ _)) by lia.
Qed.

Lemma command_words_ok c : command_ok c → Forall is_word (command_words c).
Proof.
  intros Hc. destruct c as [r|r i|[n|]|i| | |n|l|p l| |]; cbn in Hc |- *; destruct_and?;
    repeat (constructor; [try done; try (apply show_num_word; lia)|]); try constructor.
Qed.

(** Only a command with well-formed arguments is accepted. *)
Lemma accepted_ok s c : parse_command s = ParseOk c → command_ok c.
Proof.
  unfold parse_command. pose proof (split_words_are_words (String.length s) s) as Hw.
  fold (split_whitespace s) in Hw. destruct (split_whitespace s) as [|token args]; [done|].
  apply Forall_cons_1 in Hw as [_ Hargs].
  repeat case_match; unfold parse_no_args, parse_invite, parse_volume; repeat case_match; intros [= <-]; cbn;
    rewrite ?Forall_cons in Hargs; destruct_and?; try done.
  - by eapply parse_unsigned_bounds; [|eassumption].
  - by eapply parse_level_bounds.
  - split; [done|]. by eapply parse_level_bounds.
Qed.

(** C24: The commands that some line a user can type is read as are exactly those whose
    arguments are words without white space and whose numbers are in range (a number of
    uses of 32 bits, a volume up to 100), and each of them is read back from the line
    the help text prescribes for it: printing and parsing commands is a round trip. *)
Theorem commands_roundtrip (c : Command) :
  (command_ok c ↔ ∃ s, parse_command s = ParseOk c) ∧
  (command_ok c ↔ parse_command (print_command c) = ParseOk c).
Proof.
  assert (command_ok c → parse_command (print_command c) = ParseOk c) as Hrt.
  { intros Hc. unfold parse_command, print_command. rewrite split_whitespace_join by by apply command_words_ok.
    destruct c as [r|r i|[n|]|i| | |n|l|p l| |]; try done; cbn in Hc |- *.
    - by rewrite (proj2 (show_num_word n ltac:(lia))) by lia.
    - by rewrite parse_level_show.
    - destruct Hc. by rewrite parse_level_show. }
  split; split; [eauto|intros (s & Hs); by eapply accepted_ok|done|apply accepted_ok].
Qed.
