(* ===== verification/Repl.v ===== *)
(** * The terminal client (clients/wavis-client/src/repl.rs, output.rs,
    clients/shared/src/ice_config.rs)

    What the client keeps between a line typed by its user and a message of the
    server: its phase, the room, the participants, the requests it waits on and the
    room session.  The backends of the session and the socket are one world [W], as in
    [RoomSession]; what the client prints is kept in order.  [None] is a panic. *)

From Stdlib Require Import Ascii.
From S2P Require Import Prelude Floats Signaling FieldValidation SfuBridge Tokens SfuRelay Config WsLimits JitterBuffer NetworkControl AudioBuffer CallSession RoomSession Commands.
Local Open Scope prog_scope.
Local Open Scope Z_scope.

(** ** ICE settings (ice_config.rs) *)

(** [ConfigError]; the texts of the errors of the file system and of serde are the
    argument. *)
Inductive IceConfigError : Type :=
| MissingEnvVar (name : string)
| InvalidConfig (m : string)
| IceFileError (m : string).

(** [validate], [try_from_env], [load].  [file] is what reading and decoding
    [config.json] gives. *)
Definition ice_validate (c : IceConfig) : Result unit IceConfigError :=
  if bool_decide (stun_urls c = []) then Err (InvalidConfig "At least one STUN URL is required")
  else if bool_decide (turn_urls c = []) then Err (InvalidConfig "At least one TURN URL is required")
  else Ok tt.
Definition required_var (env : string → option string) (name : string) : Result string IceConfigError :=
  match env name with Some v => Ok v | None => Err (MissingEnvVar name) end.
Definition ice_try_from_env (env : string → option string) : Result (option IceConfig) IceConfigError :=
  match env "WAVIS_STUN_URLS"%string with
  | None => Ok None
  | Some stun =>
      match required_var env "WAVIS_TURN_URLS", required_var env "WAVIS_TURN_USERNAME",
            required_var env "WAVIS_TURN_CREDENTIAL" with
      | Err e, _, _ | Ok _, Err e, _ | Ok _, Ok _, Err e => Err e
      | Ok turn, Ok user, Ok credential =>
          let config := mkIceConfig (comma_list stun) (comma_list turn) user credential in
          match ice_validate config with Ok _ => Ok (Some config) | Err e => Err e end
      end
  end.
Definition ice_load (env : string → option string) (file : Result IceConfig string) : Result IceConfig IceConfigError :=
  match ice_try_from_env env with
  | Err e => Err e
  | Ok (Some config) => Ok config
  | Ok None =>
      match file with
      | Err e => Err (IceFileError e)
      | Ok config => match ice_validate config with Ok _ => Ok config | Err e => Err e end
      end
  end.

(** [default_ice_config] of the client. *)
Definition stun_only : IceConfig := mkIceConfig ["stun:stun.l.google.com:19302"%string] [] EmptyString EmptyString.
Definition default_ice_config (env : string → option string) (file : Result IceConfig string) : IceConfig :=
  match ice_load env file with Ok config => config | Err _ => stun_only end.

(** ** What is printed (output.rs) *)

(** [output::ok], [err], [event] and [print_help]. *)
Inductive Line : Type :=
| OutOk (message : string)
| OutErr (message : string)
| OutEvent (message : string)
| OutHelp.

(** [redact_code], [display_code]; [show] is [SHOW_SECRETS]. *)
Definition redact_code (code : string) : option string :=
  if (String.length code <=? 8)%nat then Some "****"%string
  else
    a ← slice_to code 4;
    b ← slice_from code (String.length code - 4);
    Some (a +:+ "…" +:+ b).
Definition display_code (show : bool) (code : string) : option string :=
  if show then Some code else redact_code code.

(** [init_show_secrets] and the flag of the command line. *)
Definition init_show_secrets (flag : bool) (env : string → option string) : bool :=
  flag || bool_decide (env "WAVIS_SHOW_SECRETS"%string = Some "1"%string).

Definition JoinRejectionReason_debug (r : JoinRejectionReason) : string :=
  match r with
  | InviteExpired => "InviteExpired" | InviteRevoked => "InviteRevoked" | InviteInvalid => "InviteInvalid"
  | InviteRequired => "InviteRequired" | InviteExhausted => "InviteExhausted" | RoomFull => "RoomFull"
  | RateLimited => "RateLimited" | NotAuthorized => "NotAuthorized"
  end.

Definition format_participant (p : ParticipantInfo) : string :=
  if bool_decide (display_name p = participant_id p) || str_is_empty (display_name p) then participant_id p
  else display_name p +:+ " (" +:+ participant_id p +:+ ")".
Definition format_participant_list (ps : list ParticipantInfo) : string :=
  match ps with [] => "none" | _ => String.concat ", " (map format_participant ps) end.
Definition format_joined (p : JoinedPayload) : string :=
  "Joined room " +:+ Joined_room_id p +:+ " as peer " +:+ Joined_peer_id p +:+ " (" +:+
  show_num (Joined_peer_count p) +:+ " peer(s)) [participants: " +:+
  format_participant_list (Joined_participants p) +:+ "]".
Definition format_join_rejected (p : JoinRejectedPayload) : string :=
  "Join rejected: " +:+ JoinRejectionReason_debug (JoinRejected_reason p).
Definition format_invite_created (show : bool) (p : InviteCreatedPayload) : option string :=
  code ← display_code show (InviteCreated_invite_code p);
  Some ("Invite created: code=" +:+ code +:+ " expires_in_secs=" +:+ show_num (InviteCreated_expires_in_secs p) +:+
        " max_uses=" +:+ show_num (InviteCreated_max_uses p)).
Definition format_invite_revoked (p : InviteRevokedPayload) : string :=
  "Invite revoked: code=" +:+ InviteRevoked_invite_code p.
Definition format_room_created (show : bool) (p : RoomCreatedPayload) : option string :=
  code ← display_code show (RoomCreated_invite_code p);
  Some ("Room '" +:+ RoomCreated_room_id p +:+ "' created as peer " +:+ RoomCreated_peer_id p +:+
        " — invite code: " +:+ code +:+ " (expires_in_secs=" +:+ show_num (RoomCreated_expires_in_secs p) +:+
        " max_uses=" +:+ show_num (RoomCreated_max_uses p) +:+ ")").
Definition format_participant_joined (p : ParticipantJoinedPayload) : string :=
  "Participant joined: " +:+ ParticipantJoined_participant_id p +:+ " (" +:+
  ParticipantJoined_display_name p +:+ ")".
Definition format_participant_left (p : ParticipantLeftPayload) : string :=
  "Participant left: " +:+ ParticipantLeft_participant_id p.
Definition format_status (room_id peer_id : string) (ps : list ParticipantInfo) (mode : SfuConnectionMode) : string :=
  "Room: " +:+ room_id +:+ " | Peer: " +:+ peer_id +:+ " | Participants: " +:+ show_num (len ps) +:+
  " | Mode: " +:+ (match mode with Proxy => "Proxy" | LiveKit _ _ => "LiveKit" end) +:+ " | [" +:+
  format_participant_list ps +:+ "]".

(** ** The state *)

(** [Phase]. *)
Inductive Phase : Type := Lobby | Joining | InRoom.
#[global] Instance Phase_eq_dec : EqDecision Phase.
Proof. solve_decision. Defined.

Section client.
Context {W : Type} `{ClientBackend W} `{LiveKitConnection W}.

(** [ClientState], with the world and the lines printed so far. *)
Record ClientState : Type := mkClientState {
  cl_phase : Phase;
  cl_room_id : option string;
  cl_peer_id : option string;
  cl_participants : list ParticipantInfo;
  cl_sfu_mode : option SfuConnectionMode;
  cl_pending_invite : bool;
  cl_pending_revoke : option string;
  cl_pending_create : bool;
  cl_session : option (RoomSession W);
  cl_display_name : string;
  cl_playback_buffer : option AudioBuffer;
  cl_peer_volumes : gmap string Z;
  cl_world : W;
  cl_output : list Line
}.

(** [ClientState::new], [reset_to_lobby]. *)
Definition client_new (w : W) : ClientState :=
  mkClientState Lobby None None [] None false None false None EmptyString None ∅ w [].
Definition reset_to_lobby (st : ClientState) : ClientState :=
  mkClientState Lobby None None [] None false None false None (cl_display_name st) None
    (volumes_clear (cl_peer_volumes st)) (cl_world st) (cl_output st).

(** Writes to some fields. *)
Definition say (l : Line) (st : ClientState) : ClientState :=
  mkClientState (cl_phase st) (cl_room_id st) (cl_peer_id st) (cl_participants st) (cl_sfu_mode st)
    (cl_pending_invite st) (cl_pending_revoke st) (cl_pending_create st) (cl_session st) (cl_display_name st)
    (cl_playback_buffer st) (cl_peer_volumes st) (cl_world st) (cl_output st ++ [l]).
Definition set_cl_world (w : W) (st : ClientState) : ClientState :=
  mkClientState (cl_phase st) (cl_room_id st) (cl_peer_id st) (cl_participants st) (cl_sfu_mode st)
    (cl_pending_invite st) (cl_pending_revoke st) (cl_pending_create st) (cl_session st) (cl_display_name st)
    (cl_playback_buffer st) (cl_peer_volumes st) w (cl_output st).
Definition set_cl_pending (invite : bool) (revoke : option string) (create : bool) (st : ClientState) : ClientState :=
  mkClientState (cl_phase st) (cl_room_id st) (cl_peer_id st) (cl_participants st) (cl_sfu_mode st)
    invite revoke create (cl_session st) (cl_display_name st)
    (cl_playback_buffer st) (cl_peer_volumes st) (cl_world st) (cl_output st).
Definition set_cl_participants (ps : list ParticipantInfo) (st : ClientState) : ClientState :=
  mkClientState (cl_phase st) (cl_room_id st) (cl_peer_id st) ps (cl_sfu_mode st)
    (cl_pending_invite st) (cl_pending_revoke st) (cl_pending_create st) (cl_session st) (cl_display_name st)
    (cl_playback_buffer st) (cl_peer_volumes st) (cl_world st) (cl_output st).
Definition set_cl_mode (mode : option SfuConnectionMode) (st : ClientState) : ClientState :=
  mkClientState (cl_phase st) (cl_room_id st) (cl_peer_id st) (cl_participants st) mode
    (cl_pending_invite st) (cl_pending_revoke st) (cl_pending_create st) (cl_session st) (cl_display_name st)
    (cl_playback_buffer st) (cl_peer_volumes st) (cl_world st) (cl_output st).
Definition set_cl_name (name : string) (st : ClientState) : ClientState :=
  mkClientState (cl_phase st) (cl_room_id st) (cl_peer_id st) (cl_participants st) (cl_sfu_mode st)
    (cl_pending_invite st) (cl_pending_revoke st) (cl_pending_create st) (cl_session st) name
    (cl_playback_buffer st) (cl_peer_volumes st) (cl_world st) (cl_output st).
Definition set_cl_playback (b : option AudioBuffer) (st : ClientState) : ClientState :=
  mkClientState (cl_phase st) (cl_room_id st) (cl_peer_id st) (cl_participants st) (cl_sfu_mode st)
    (cl_pending_invite st) (cl_pending_revoke st) (cl_pending_create st) (cl_session st) (cl_display_name st)
    b (cl_peer_volumes st) (cl_world st) (cl_output st).
Definition set_cl_volumes (v : gmap string Z) (st : ClientState) : ClientState :=
  mkClientState (cl_phase st) (cl_room_id st) (cl_peer_id st) (cl_participants st) (cl_sfu_mode st)
    (cl_pending_invite st) (cl_pending_revoke st) (cl_pending_create st) (cl_session st) (cl_display_name st)
    (cl_playback_buffer st) v (cl_world st) (cl_output st).

(** The session and the world after one of its methods. *)
Definition set_cl_session (s : RoomSession W) (st : ClientState) : ClientState :=
  mkClientState (cl_phase st) (cl_room_id st) (cl_peer_id st) (cl_participants st) (cl_sfu_mode st)
    (cl_pending_invite st) (cl_pending_revoke st) (cl_pending_create st) (Some s) (cl_display_name st)
    (cl_playback_buffer st) (cl_peer_volumes st) (rs_world s) (cl_output st).

(** ** Commands *)

(** New backends for a session, in a world with the same socket; the environment and
    the file of ICE settings; whether codes are shown. *)
Context (new_backends : W → W) (env : string → option string) (file : Result IceConfig string) (show : bool).

(** [create_room_session]. *)
Definition playback_new : AudioBuffer :=
  with_target DEFAULT_PLAYBACK_BUFFER_DURATION_MS DEFAULT_PLAYBACK_TARGET_OCCUPANCY_MS DEFAULT_PLAYBACK_MAX_MARGIN_MS.
Definition create_room_session (w : W) : Result (RoomSession W * AudioBuffer) string * W :=
  let buf := set_volume DEFAULT_VOLUME playback_new in
  match play_remote (mkAudioTrack "livekit-remote") (new_backends w) with
  | (Err e, w2) => (Err ("Failed to open speaker: " +:+ AudioError_text e), w2)
  | (Ok _, w2) => (Ok (RoomSession_new w2 (default_ice_config env file), buf), w2)
  end.

Definition nonempty (s : string) : option string := if str_is_empty s then None else Some s.

(** The fields both [handle_create] and [handle_join] write. *)
Definition enter_joining (room_id : string) (create : bool) (s : RoomSession W) (buf : AudioBuffer)
    (st : ClientState) : ClientState :=
  mkClientState Joining (Some room_id) (cl_peer_id st) (cl_participants st) (cl_sfu_mode st)
    (cl_pending_invite st) (cl_pending_revoke st) (create || cl_pending_create st) (Some s) (cl_display_name st)
    (Some buf) (cl_peer_volumes st) (rs_world s) (cl_output st).

(** [to_json] and [send_text], with what each of them failing prints. *)
Definition send_or_say (msg : SignalingMessage) (what : string) (w : W) : Result unit Line * W :=
  match message_to_json msg with
  | Err e => (Err (OutErr ("Failed to serialize " +:+ what +:+ " request: " +:+ e)), w)
  | Ok json =>
      match send_text json w with
      | (Err e, w') => (Err (OutErr ("Failed to send " +:+ what +:+ " request: " +:+ e)), w')
      | (Ok _, w') => (Ok tt, w')
      end
  end.

(** [handle_create]. *)
Definition handle_create (room_id : string) (st : ClientState) : ClientState :=
  if bool_decide (cl_phase st = Lobby) then
    match create_room_session (cl_world st) with
    | (Err e, w) => say (OutErr ("Audio init failed: " +:+ e)) (set_cl_world w st)
    | (Ok (s, buf), w) =>
        let msg := Msg.CreateRoom (mkCreateRoomPayload room_id (Some "sfu"%string) (nonempty (cl_display_name st)) None) in
        match send_or_say msg "create room" w with
        | (Err l, w') => say l (set_cl_world w' st)
        | (Ok _, w') => enter_joining room_id true (set_rs_world w' s) buf st
        end
    end
  else say (OutErr "Already in a room. Use 'leave' first.") st.

(** The text of a [RoomError]. *)
Definition RoomError_text (e : RoomError) : string :=
  match e with
  | NotInRoom => "not in a room"
  | AlreadyInRoom => "already in a room"
  | SfuConnectionFailed m => "SFU connection failed: " +:+ m
  | PublishFailed m => "publish failed: " +:+ m
  | RoomAudio m => "audio error: " +:+ m
  | RoomSignaling m => "signaling error: " +:+ m
  end.

(** [handle_join]. *)
Definition handle_join (room_id invite_code : string) (st : ClientState) : ClientState :=
  if bool_decide (cl_phase st = Lobby) then
    match create_room_session (cl_world st) with
    | (Err e, w) => say (OutErr ("Audio init failed: " +:+ e)) (set_cl_world w st)
    | (Ok (s, buf), w) =>
        match join_room_with_name room_id (Some invite_code) (nonempty (cl_display_name st)) s with
        | (Err e, s') => say (OutErr ("Failed to join room: " +:+ RoomError_text e)) (set_cl_world (rs_world s') st)
        | (Ok _, s') => enter_joining room_id false s' buf st
        end
    end
  else say (OutErr "Already in a room. Use 'leave' first.") st.

(** [handle_invite], [handle_revoke]. *)
Definition handle_invite (max_uses : option Z) (st : ClientState) : ClientState :=
  if bool_decide (cl_phase st = InRoom) then
    match send_or_say (build_invite_create max_uses) "invite" (cl_world st) with
    | (Err l, w) => say l (set_cl_world w st)
    | (Ok _, w) => set_cl_pending true (cl_pending_revoke st) (cl_pending_create st) (set_cl_world w st)
    end
  else say (OutErr "Not in a room. Join or create a room first.") st.
Definition handle_revoke (invite_code : string) (st : ClientState) : ClientState :=
  if bool_decide (cl_phase st = InRoom) then
    match send_or_say (Msg.InviteRevoke (mkInviteRevokePayload invite_code)) "revoke" (cl_world st) with
    | (Err l, w) => say l (set_cl_world w st)
    | (Ok _, w) => set_cl_pending (cl_pending_invite st) (Some invite_code) (cl_pending_create st) (set_cl_world w st)
    end
  else say (OutErr "Not in a room. Join or create a room first.") st.

(** [handle_leave]. *)
Definition handle_leave (st : ClientState) : ClientState :=
  match cl_phase st with
  | Lobby => say (OutErr "Not in a room.") st
  | Joining | InRoom =>
      let st1 :=
        match cl_session st with
        | Some s =>
            match leave_room (set_rs_world (cl_world st) s) with
            | (Ok _, s') => set_cl_session s' st
            | (Err e, s') => say (OutErr ("leave_room failed: " +:+ RoomError_text e)) (set_cl_session s' st)
            end
        | None => st
        end in
      say (OutOk "Left room.") (reset_to_lobby st1)
  end.

(** [handle_name], [handle_volume], [handle_peer_volume]. *)
Definition handle_name (new_name : string) (st : ClientState) : ClientState :=
  say (OutOk (if bool_decide (cl_phase st = InRoom)
              then "Display name set to '" +:+ new_name +:+ "' (takes effect next join)"
              else "Display name set to '" +:+ new_name +:+ "'"))
    (set_cl_name new_name st).
Definition handle_volume (level : Z) (st : ClientState) : ClientState :=
  match cl_playback_buffer st with
  | Some buf => say (OutOk ("Master volume set to " +:+ show_num level)) (set_cl_playback (Some (set_volume level buf)) st)
  | None => say (OutErr "Not in a room. Volume will apply when you join.") st
  end.
Definition names_peer (peer : string) (p : ParticipantInfo) : bool :=
  eq_ignore_ascii_case (participant_id p) peer || eq_ignore_ascii_case (display_name p) peer.
Definition handle_peer_volume (peer : string) (level : Z) (st : ClientState) : ClientState :=
  if bool_decide (cl_phase st = InRoom) then
    match head (retain (names_peer peer) (cl_participants st)) with
    | Some p =>
        say (OutOk ("Volume for '" +:+ display_name p +:+ "' (" +:+ participant_id p +:+ ") set to " +:+ show_num level))
          (set_cl_volumes (volumes_set (participant_id p) level (cl_peer_volumes st)) st)
    | None => say (OutErr ("No participant matching '" +:+ peer +:+ "'. Use 'status' to see participants.")) st
    end
  else say (OutErr "Not in a room.") st.

(** [handle_status]. *)
Definition name_info (st : ClientState) : string :=
  if str_is_empty (cl_display_name st) then EmptyString else " | Name: " +:+ cl_display_name st.
Definition status_line (st : ClientState) : Line :=
  match cl_phase st with
  | Lobby => OutOk ("Not in a room." +:+ name_info st)
  | Joining => OutOk ("Joining room: " +:+ default "unknown" (cl_room_id st) +:+ " (waiting for server response)")
  | InRoom =>
      match cl_room_id st, cl_peer_id st, cl_sfu_mode st with
      | Some r, Some p, Some mode =>
          OutOk (format_status r p (cl_participants st) mode +:+ " | Volume: " +:+
                 show_num (default DEFAULT_VOLUME (ab_volume <$> cl_playback_buffer st)) +:+ name_info st)
      | _, _, _ => OutOk "In room (state incomplete)."
      end
  end.

(** [handle_command], [handle_stdin_line]: whether the client should exit. *)
Definition handle_command (cmd : Command) (st : ClientState) : bool * ClientState :=
  match cmd with
  | Create room_id => (false, handle_create room_id st)
  | Join room_id invite_code => (false, handle_join room_id invite_code st)
  | Invite max_uses => (false, handle_invite max_uses st)
  | Revoke invite_code => (false, handle_revoke invite_code st)
  | Leave => (false, handle_leave st)
  | Status => (false, say (status_line st) st)
  | Name new_name => (false, handle_name new_name st)
  | Volume level => (false, handle_volume level st)
  | PeerVolume peer level => (false, handle_peer_volume peer level st)
  | Help => (false, say OutHelp st)
  | Quit => (true, if bool_decide (cl_phase st = Lobby) then st else handle_leave st)
  end.
Definition handle_stdin_line (line : string) (st : ClientState) : bool * ClientState :=
  match parse_command line with
  | ParseOk cmd => handle_command cmd st
  | UnknownCommand token =>
      (false, say (OutErr ("Unknown command: '" +:+ token +:+ "'. Type 'help' for available commands.")) st)
  | WrongArgCount command usage =>
      (false, say (OutErr ("Wrong arguments for '" +:+ command +:+ "'. Usage: " +:+ usage)) st)
  | EmptyInput => (false, st)
  end.

(** ** Messages of the server *)

(** [session.handle_incoming(text)], whose error is only logged. *)
Definition route (now : Instant) (text : string) (st : ClientState) : ClientState :=
  match cl_session st with
  | Some s => set_cl_session (room_handle_incoming now text (set_rs_world (cl_world st) s)).2 st
  | None => st
  end.

(** The fields [Joined] and [RoomCreated] write. *)
Definition enter_room (peer_id : string) (ps : list ParticipantInfo) (create : bool) (st : ClientState) : ClientState :=
  mkClientState InRoom (cl_room_id st) (Some peer_id) ps (Some Proxy)
    (cl_pending_invite st) (cl_pending_revoke st) create (cl_session st) (cl_display_name st)
    (cl_playback_buffer st) (cl_peer_volumes st) (cl_world st) (cl_output st).

Definition on_joined (p : JoinedPayload) (st : ClientState) : ClientState :=
  if bool_decide (cl_phase st = Joining)
  then say (OutOk (format_joined p)) (enter_room (Joined_peer_id p) (Joined_participants p) (cl_pending_create st) st)
  else st.
Definition on_join_rejected (p : JoinRejectedPayload) (st : ClientState) : ClientState :=
  if bool_decide (cl_phase st = Joining)
  then reset_to_lobby (say (OutErr (format_join_rejected p)) st)
  else st.

(** [RoomCreated]: the media of the creator start now. *)
Definition on_room_created (p : RoomCreatedPayload) (st : ClientState) : option ClientState :=
  if bool_decide (cl_phase st = Joining) && cl_pending_create st then
    let st1 := set_cl_pending (cl_pending_invite st) (cl_pending_revoke st) false st in
    let '(r, st2) :=
      match cl_session st1 with
      | Some s => let '(r, s') := start_media (set_rs_world (cl_world st1) s) in (r, set_cl_session s' st1)
      | None => (Ok tt, st1)
      end in
    match r with
    | Err e => Some (reset_to_lobby (say (OutErr ("Audio start failed: " +:+ RoomError_text e)) st2))
    | Ok _ =>
        text ← format_room_created show p;
        Some (say (OutOk text) (enter_room (RoomCreated_peer_id p) [] false st2))
    end
  else Some st.

(** [MediaToken]. *)
Definition is_livekit (mode : SfuConnectionMode) : bool := match mode with LiveKit _ _ => true | Proxy => false end.
Definition on_media_token (now : Instant) (text : string) (st : ClientState) : ClientState :=
  match cl_session (route now text st) with
  | Some s =>
      let new_mode := rs_sfu_mode s in
      let was_livekit := match cl_sfu_mode st with Some mode => is_livekit mode | None => false end in
      let st1 := set_cl_mode (Some new_mode) (route now text st) in
      if is_livekit new_mode && negb was_livekit then say (OutEvent "LiveKit connected") st1 else st1
  | None => st
  end.

Definition on_invite_created (p : InviteCreatedPayload) (st : ClientState) : option ClientState :=
  if cl_pending_invite st then
    text ← format_invite_created show p;
    Some (say (OutOk text) (set_cl_pending false (cl_pending_revoke st) (cl_pending_create st) st))
  else Some st.
Definition on_invite_revoked (p : InviteRevokedPayload) (st : ClientState) : ClientState :=
  if bool_decide (cl_pending_revoke st = Some (InviteRevoked_invite_code p))
  then say (OutOk (format_invite_revoked p)) (set_cl_pending (cl_pending_invite st) None (cl_pending_create st) st)
  else st.

Definition participant_of (p : ParticipantJoinedPayload) : ParticipantInfo :=
  mkParticipantInfo (ParticipantJoined_participant_id p) (ParticipantJoined_display_name p) None
    (ParticipantJoined_profile_color p) false false false.
Definition on_participant_joined (now : Instant) (text : string) (p : ParticipantJoinedPayload)
    (st : ClientState) : ClientState :=
  route now text (say (OutEvent (format_participant_joined p))
    (set_cl_participants (cl_participants st ++ [participant_of p]) st)).
Definition on_participant_left (now : Instant) (text : string) (p : ParticipantLeftPayload)
    (st : ClientState) : ClientState :=
  route now text (say (OutEvent (format_participant_left p))
    (set_cl_participants
       (retain (λ q, negb (bool_decide (participant_id q = ParticipantLeft_participant_id p))) (cl_participants st)) st)).

(** [Error]: the answer to the oldest kind of request that waits. *)
Definition on_error (p : ErrorPayload) (st : ClientState) : ClientState :=
  if cl_pending_create st then
    reset_to_lobby (say (OutErr ("Create room failed: " +:+ Error_message p))
                      (set_cl_pending (cl_pending_invite st) (cl_pending_revoke st) false st))
  else if cl_pending_invite st then
    say (OutErr ("Invite failed: " +:+ Error_message p))
      (set_cl_pending false (cl_pending_revoke st) (cl_pending_create st) st)
  else match cl_pending_revoke st with
  | Some code =>
      say (OutErr ("Revoke '" +:+ code +:+ "' failed: " +:+ Error_message p))
        (set_cl_pending (cl_pending_invite st) None (cl_pending_create st) st)
  | None => say (OutErr ("Server error: " +:+ Error_message p)) st
  end.

(** [handle_incoming_message]. *)
Definition handle_incoming_message (now : Instant) (text : string) (st : ClientState) : option ClientState :=
  match message_parse text with
  | Err _ => Some st
  | Ok msg =>
      match msg with
      | Msg.Joined p => Some (on_joined p st)
      | Msg.JoinRejected p => Some (on_join_rejected p st)
      | Msg.RoomCreated p => on_room_created p st
      | Msg.MediaToken _ => Some (on_media_token now text st)
      | Msg.Answer _ | Msg.IceCandidate _ | Msg.RoomState _ => Some (route now text st)
      | Msg.InviteCreated p => on_invite_created p st
      | Msg.InviteRevoked p => Some (on_invite_revoked p st)
      | Msg.ParticipantJoined p => Some (on_participant_joined now text p st)
      | Msg.ParticipantLeft p => Some (on_participant_left now text p st)
      | Msg.Error p => Some (on_error p st)
      | _ => Some st
      end
  end.

(** ** The loop *)

(** What [run_repl] waits for: a line (or the end of the input), a message (or the end
    of the connection), an interrupt. *)
Inductive ReplEvent : Type :=
| StdinLine (line : string)
| StdinEof
| Received (now : Instant) (text : string)
| SocketClosed
| CtrlC.

(** One turn of [run_repl]: the exit code once it ends. *)
Definition repl_step (ev : ReplEvent) (st : ClientState) : option (option Z * ClientState) :=
  match ev with
  | StdinLine line =>
      let '(exit, st') := handle_stdin_line line st in Some (if exit then Some 0 else None, st')
  | StdinEof => Some (Some 0, st)
  | Received now text => st' ← handle_incoming_message now text st; Some (None, st')
  | SocketClosed => Some (Some 2, say (OutEvent "Disconnected from server") st)
  | CtrlC => Some (Some 0, if bool_decide (cl_phase st = Lobby) then st else handle_leave st)
  end.

(** [run_repl] on the events in their order; it stops with the first exit code. *)
Fixpoint run_repl (evs : list ReplEvent) (st : ClientState) : option (option Z * ClientState) :=
  match evs with
  | [] => Some (None, st)
  | ev :: evs' =>
      match repl_step ev st with
      | Some (None, st') => run_repl evs' st'
      | r => r
      end
  end.
End client.
Arguments ClientState : clear implicits.

(** ** The phases *)

Section rules.
Context {W : Type} `{ClientBackend W} `{LiveKitConnection W}.
Context (new_backends : W → W) (env : string → option string) (file : Result IceConfig string) (show : bool).
Implicit Types (st : ClientState W) (s : RoomSession W).

Abbreviation step := (repl_step new_backends env file show).
Abbreviation run := (run_repl new_backends env file show).

(** What each phase says of the other fields.  In the lobby nothing of a room is left;
    while joining the room and its session are known but no identity; in a room
    everything the status line prints is.  The session is in its room exactly when the
    client does not wait for a room to be created. *)
Definition client_inv st : Prop :=
  match cl_phase st with
  | Lobby =>
      cl_room_id st = None ∧ cl_peer_id st = None ∧ cl_sfu_mode st = None ∧ cl_pending_invite st = false ∧
      cl_pending_revoke st = None ∧ cl_pending_create st = false ∧ cl_session st = None ∧
      cl_playback_buffer st = None ∧ cl_peer_volumes st = ∅
  | Joining =>
      is_Some (cl_room_id st) ∧ cl_peer_id st = None ∧ cl_pending_invite st = false ∧ cl_pending_revoke st = None ∧
      is_Some (cl_playback_buffer st) ∧
      ∃ s, cl_session st = Some s ∧ rs_in_room s = negb (cl_pending_create st)
  | InRoom =>
      is_Some (cl_room_id st) ∧ is_Some (cl_peer_id st) ∧ is_Some (cl_sfu_mode st) ∧
      is_Some (cl_playback_buffer st) ∧
      ∃ s, cl_session st = Some s ∧ rs_in_room s = negb (cl_pending_create st)
  end.

Lemma inv_say l st : client_inv st → client_inv (say l st).
Proof. done. Qed.
Lemma inv_world w st : client_inv st → client_inv (set_cl_world w st).
Proof. done. Qed.
Lemma inv_reset st : client_inv (reset_to_lobby st).
Proof. by split_and!. Qed.
Lemma inv_session s' st :
  client_inv st → (∀ s, cl_session st = Some s → rs_in_room s' = rs_in_room s) → cl_session st ≠ None →
  client_inv (set_cl_session s' st).
Proof.
  unfold client_inv. cbn. destruct (cl_phase st).
  - intros (_ & _ & _ & _ & _ & _ & Hs & _) _ Hn. done.
  - intros (? & ? & ? & ? & ? & s & Hs & Hin) Heq _. split_and!; try done. exists s'. by rewrite (Heq s Hs).
  - intros (? & ? & ? & ? & s & Hs & Hin) Heq _. split_and!; try done. exists s'. by rewrite (Heq s Hs).
Qed.
Hint Resolve inv_say inv_world inv_reset : wavis.

(** Messages do not change whether a session is in its room. *)
Lemma dispatch_in_room now msg s : rs_in_room (dispatch now msg s).2 = rs_in_room s.
Proof.
  destruct msg; cbn [dispatch]; unfold modify, mbind_, gets, mret; cbn; try done.
  all: try (destruct (rs_sfu_mode s); [|done]; destruct (check_sdp_size _) || destruct (check_ice_candidate_size _);
            rewrite ?outside_ignored_frame; done).
  destruct (media_token_frame p s) as (w & mode & ->). done.
Qed.
Lemma room_incoming_in_room now text s : rs_in_room (room_handle_incoming now text s).2 = rs_in_room s.
Proof.
  unfold room_handle_incoming. destruct (client_check_json_depth _ _); [|done].
  destruct (message_parse text); [apply dispatch_in_room|done].
Qed.
Lemma inv_route now text st : client_inv st → client_inv (route now text st).
Proof.
  intros Hi. unfold route. destruct (cl_session st) as [s|] eqn:Hs; [|done]. apply inv_session; [done| |by rewrite Hs].
  intros s0 Hs0. rewrite room_incoming_in_room. rewrite Hs in Hs0. by injection Hs0 as <-.
Qed.

(** Starting media succeeds only into a room. *)
Lemma start_media_in_room s s' : start_media s = (Ok tt, s') → rs_in_room s' = true.
Proof.
  unfold start_media, mbind_, gets, modify, mret. destruct (rs_in_room s); [done|].
  destruct (outside_frame (A:=AudioTrack) (λ e, RoomAudio (AudioError_text e)) capture_mic s) as ([t|e] & w & ->); [|done].
  cbn. destruct (lk_is_available w); [by intros [= <-]|].
  match goal with |- context [outside ?f (create_peer_connection ?c) ?s] =>
    destruct (outside_frame (A:=unit) f (create_peer_connection c) s) as ([u|e] & w1 & ->) end; [|done].
  match goal with |- context [outside ?f (add_audio_track ?c) ?s] =>
    destruct (outside_frame (A:=unit) f (add_audio_track c) s) as ([u'|e] & w2 & ->) end; [|done].
  by intros [= <-].
Qed.
Lemma join_in_room r i n s s' : join_room_with_name r i n s = (Ok tt, s') → rs_in_room s' = true.
Proof.
  unfold join_room_with_name, mbind_, gets. destruct (rs_in_room s); [done|].
  destruct (room_send _ s) as [[u|e] s1]; [apply start_media_in_room|done].
Qed.

Lemma create_session_new w s buf w' :
  create_room_session new_backends env file w = (Ok (s, buf), w') → rs_in_room s = false.
Proof. unfold create_room_session. destruct (play_remote _ _) as [[u|e] w2]; [|done]. by intros [= <- _ _]. Qed.

Lemma inv_create r st : client_inv st → client_inv (handle_create new_backends env file r st).
Proof.
  intros Hi. unfold handle_create. case_bool_decide as Hl; [|auto with wavis].
  destruct (create_room_session _ _ _ _) as [[[s buf]|e] w] eqn:Hc; [|auto with wavis].
  apply create_session_new in Hc. destruct (send_or_say _ _ _) as [[u|l] w']; [|auto with wavis].
  unfold client_inv in Hi |- *. rewrite Hl in Hi. cbn in *. destruct Hi as (? & ? & ? & ? & ? & Hp & ?).
  split_and!; try done. by exists (set_rs_world w' s).
Qed.
Lemma inv_join r i st : client_inv st → client_inv (handle_join new_backends env file r i st).
Proof.
  intros Hi. unfold handle_join. case_bool_decide as Hl; [|auto with wavis].
  destruct (create_room_session _ _ _ _) as [[[s buf]|e] w] eqn:Hc; [|auto with wavis].
  destruct (join_room_with_name _ _ _ _) as [[[]|e] s'] eqn:Hj; [|auto with wavis]. apply join_in_room in Hj.
  unfold client_inv in Hi |- *. rewrite Hl in Hi. cbn in *. destruct Hi as (? & ? & ? & ? & ? & Hp & ?).
  split_and!; try done. exists s'. by rewrite Hp.
Qed.

(** The pending requests matter only in a room. *)
Lemma inv_pending i r st :
  client_inv st → cl_phase st = InRoom ∨ i = false ∧ r = None → client_inv (set_cl_pending i r (cl_pending_create st) st).
Proof.
  unfold client_inv. cbn. destruct (cl_phase st); intros Hi [Hx|[-> ->]]; try done; naive_solver.
Qed.
Lemma inv_leave st : client_inv st → client_inv (handle_leave st).
Proof. intros Hi. unfold handle_leave. destruct (cl_phase st); auto with wavis. Qed.

Lemma inv_command c st : client_inv st → client_inv (handle_command new_backends env file c st).2.
Proof.
  intros Hi. destruct c; cbn [handle_command snd]; auto using inv_create, inv_join, inv_leave with wavis.
  - unfold handle_invite. case_bool_decide; [|auto with wavis]. destruct (send_or_say _ _ _) as [[u|l] w]; [|auto with wavis].
    apply (inv_pending _ _ (set_cl_world w st)); [auto with wavis|by left].
  - unfold handle_revoke. case_bool_decide; [|auto with wavis]. destruct (send_or_say _ _ _) as [[u|l] w]; [|auto with wavis].
    apply (inv_pending _ _ (set_cl_world w st)); [auto with wavis|by left].
  - unfold handle_volume. destruct (cl_playback_buffer st) as [buf|] eqn:Hb; [|auto with wavis]. apply inv_say.
    unfold client_inv in *. cbn. destruct (cl_phase st); naive_solver.
  - unfold handle_peer_volume. case_bool_decide as Hr; [|auto with wavis]. case_match; [|auto with wavis]. apply inv_say.
    unfold client_inv in *. cbn. by rewrite Hr in *.
  - case_bool_decide; [done|by apply inv_leave].
Qed.

Lemma inv_enter peer ps st s :
  client_inv st → cl_phase st = Joining → cl_session st = Some s →
  ∀ create, rs_in_room s = negb create → client_inv (enter_room peer ps create st).
Proof.
  intros Hi Hj Hs create Hin. unfold client_inv in Hi. rewrite Hj in Hi. destruct Hi as (? & ? & ? & ? & ? & _).
  unfold client_inv. cbn. split_and!; try done. eauto.
Qed.

Lemma inv_room_created p st st' : client_inv st → on_room_created show p st = Some st' → client_inv st'.
Proof.
  intros Hi. unfold on_room_created. destruct (bool_decide _ && _) eqn:Hg; [|by intros [= <-]].
  apply andb_true_iff in Hg as [Hj%bool_decide_eq_true Hp]. cbn -[start_media].
  pose proof Hi as Hi'. unfold client_inv in Hi. rewrite Hj in Hi. destruct Hi as (Hr & Hpe & Hpi & Hpr & Hb & s & Hs & Hin).
  rewrite Hs. destruct (start_media (set_rs_world (cl_world st) s)) as [[[]|e] s'] eqn:Hm; cbn; [|intros [= <-]; apply inv_reset].
  apply start_media_in_room in Hm. destruct (format_room_created show p); cbn; [|done]. intros [= <-].
  unfold client_inv. cbn. split_and!; try done. by exists s'.
Qed.

Lemma inv_media_token now text st : client_inv st → client_inv (on_media_token now text st).
Proof.
  intros Hi. unfold on_media_token. pose proof (inv_route now text st Hi) as Hr. revert Hr.
  destruct (cl_session (route now text st)) as [s|] eqn:Hs; [|done]. intros Hr.
  assert (client_inv (set_cl_mode (Some (rs_sfu_mode s)) (route now text st))) as Hm.
  { unfold client_inv in *. cbn. destruct (cl_phase (route now text st)); [|done|naive_solver].
    destruct Hr as (_ & _ & _ & _ & _ & _ & Hn & _). congruence. }
  destruct (is_livekit _ && _); auto with wavis.
Qed.

Lemma inv_incoming now text st st' :
  client_inv st → handle_incoming_message show now text st = Some st' → client_inv st'.
Proof.
  intros Hi. unfold handle_incoming_message. destruct (message_parse text) as [msg|]; [|by intros [= <-]].
  destruct msg; try (by intros [= <-]); try (intros [= <-]; by apply inv_route).
  - intros [= <-]. unfold on_joined. case_bool_decide as Hj; [|done]. apply inv_say.
    pose proof Hi as Hi'. unfold client_inv in Hi'. rewrite Hj in Hi'. destruct Hi' as (_ & _ & _ & _ & _ & s & Hs & Hin).
    by eapply inv_enter.
  - intros [= <-]. unfold on_error. destruct (cl_pending_create st) eqn:Hc; [apply inv_reset|].
    destruct (cl_pending_invite st) eqn:Hp; [|destruct (cl_pending_revoke st) eqn:Hr; [|by apply inv_say]];
      rewrite <- Hc; apply inv_say, inv_pending; try done; unfold client_inv in Hi; destruct (cl_phase st); naive_solver.
  - intros [= <-]. unfold on_join_rejected. case_bool_decide; auto with wavis.
  - unfold on_invite_created. destruct (cl_pending_invite st) eqn:Hp; [|by intros [= <-]].
    destruct (format_invite_created _ _); cbn; [|done]. intros [= <-]. apply inv_say, inv_pending; [done|].
    unfold client_inv in Hi. destruct (cl_phase st); naive_solver.
  - intros [= <-]. unfold on_invite_revoked. case_bool_decide as Hp; [|done]. apply inv_say, inv_pending; [done|].
    unfold client_inv in Hi. destruct (cl_phase st); naive_solver.
  - intros [= <-]. by apply inv_media_token.
  - by apply inv_room_created.
Qed.

Lemma inv_step ev st code st' : client_inv st → step ev st = Some (code, st') → client_inv st'.
Proof.
  intros Hi. destruct ev; cbn.
  - pose proof (inv_command) as Hc. unfold handle_stdin_line. destruct (parse_command line) as [c|t|c u|].
    + specialize (Hc c st Hi). destruct (handle_command _ _ _ c st) as [b st1]. intros [= _ <-]. done.
    + intros [= _ <-]. auto with wavis.
    + intros [= _ <-]. auto with wavis.
    + by intros [= _ <-].
  - by intros [= _ <-].
  - destruct (handle_incoming_message show now text st) as [st1|] eqn:Hm; cbn; [|done]. intros [= _ <-].
    by eapply inv_incoming.
  - intros [= _ <-]. auto with wavis.
  - intros [= _ <-]. case_bool_decide; [done|by apply inv_leave].
Qed.

(** C31: Whatever the user types and whatever the server and the devices answer, the
    client's phase agrees with everything else it keeps: in the lobby no room, identity,
    session, pending request or volume is left over; while it joins it has a session
    and no identity; and in a room it has all a status line prints.  The session
    counts as in its room exactly when the client is not waiting for the room to be
    created. *)
Theorem client_phases_consistent (evs : list ReplEvent) (w : W) (code : option Z) st :
  run evs (client_new w) = Some (code, st) → client_inv st.
Proof.
  assert (client_inv (client_new w)) as Hi by by split_and!. revert Hi. generalize (client_new w).
  induction evs as [|ev evs IH]; intros st0 Hi; cbn; [by intros [= _ <-]|].
  destruct (step ev st0) as [[[c|] st1]|] eqn:Hs; [|intros Hr|done].
  - intros [= _ <-]. by eapply inv_step.
  - eapply (IH st1); [by eapply inv_step|done].
Qed.

(** In a consistent state the status line is never the incomplete one. *)
Theorem status_complete st : client_inv st → status_line st ≠ OutOk "In room (state incomplete).".
Proof.
  unfold client_inv, status_line. destruct (cl_phase st); intros Hi; try (intros Heq; discriminate Heq).
  destruct Hi as ((r & ->) & (p & ->) & (m & ->) & _). intros Heq. discriminate Heq.
Qed.

(** ** Leaving *)

Context `{!ClientLaws W}.

(** Leaving a room that was entered closes the connection and returns to the lobby. *)
Theorem leaving_returns_to_lobby st :
  client_inv st → cl_phase st ≠ Lobby → cl_pending_create st = false →
  is_active (cl_world (handle_leave st)) = false ∧ cl_phase (handle_leave st) = Lobby ∧
  cl_session (handle_leave st) = None.
Proof.
  intros Hi Hl Hp. unfold handle_leave.
  assert (∃ s, cl_session st = Some s ∧ rs_in_room s = true) as (s & Hs & Hin).
  { unfold client_inv in Hi. rewrite Hp in Hi. destruct (cl_phase st); naive_solver. }
  pose proof (leaving_room_releases (set_rs_world (cl_world st) s) Hin) as Hrel.
  destruct (cl_phase st); [done| |]; rewrite Hs; destruct (leave_room (set_rs_world (cl_world st) s)) as [[u|e] s']; cbn; naive_solver.
Qed.
End rules.

(** ** Printing *)

(** Codes in ASCII are redacted without a panic. *)
Lemma get_continuation s i c :
  (∀ i c, String.get i s = Some c → (nat_of_ascii c < 128)%nat) → String.get i s = Some c → continuation c = false.
Proof.
  intros Ha Hc. apply Ha in Hc. unfold continuation. apply andb_false_iff. left. apply Nat.leb_gt. lia.
Qed.
Lemma ascii_boundary s i :
  (∀ i c, String.get i s = Some c → (nat_of_ascii c < 128)%nat) → (i ≤ String.length s)%nat → is_char_boundary s i = true.
Proof.
  intros Ha Hi. unfold is_char_boundary. destruct (String.get i s) as [c|] eqn:Hc.
  - by rewrite (get_continuation s i c Ha Hc).
  - apply Nat.eqb_eq. clear Ha. revert i Hi Hc. induction s as [|a s IH]; intros [|i] Hi Hc; cbn in *; try done; try lia.
    f_equal. apply IH; [lia|done].
Qed.
Theorem ascii_codes_redacted code :
  (∀ i c, String.get i code = Some c → (nat_of_ascii c < 128)%nat) → is_Some (redact_code code).
Proof.
  intros Ha. unfold redact_code. destruct (String.length code <=? 8)%nat eqn:Hl; [done|]. apply Nat.leb_gt in Hl.
  unfold slice_to, slice_from. rewrite !(ascii_boundary code) by (done || lia). cbn. by eexists.
Qed.

(** ** Runs *)

Module ReplDemo.

(** Stand-ins for serde: a word per message. *)
Definition parse (text : string) : Result SignalingMessage string :=
  if String.eqb text "created" then Ok (Msg.RoomCreated (mkRoomCreatedPayload "r" "me" "ABCDEFGHIJ" 60 6 None))
  else if String.eqb text "joined" then Ok (Msg.Joined (mkJoinedPayload "r" "me" 1 [] None None))
  else if String.eqb text "revoked" then Ok (Msg.InviteRevoked (mkInviteRevokedPayload "ABCDEFGHIJ"))
  else if String.eqb text "accent" then
    Ok (Msg.InviteCreated (mkInviteCreatedPayload ("abc" +:+ utf8 [195; 169]%nat +:+ "defgh") 60 6))
  else Err "unknown"%string.
#[local] Instance demo_backend : ClientBackend MockWorld := MockBackend CallDemo.to_json parse.
#[local] Instance demo_laws : ClientLaws MockWorld := MockLaws CallDemo.to_json parse.
#[local] Existing Instance NoLiveKit.

Definition no_env : string → option string := λ _, None.
Definition play (evs : list ReplEvent) (w : MockWorld) : option (option Z * ClientState MockWorld) :=
  run_repl id no_env (Err "no file"%string) false evs (client_new w).
Definition seen (r : option (option Z * ClientState MockWorld)) : option (Phase * list string * option Line) :=
  '(_, st) ← r; Some (cl_phase st, mw_sent (cl_world st), last (cl_output st)).

Lemma client_phases_consistent_witness :
  match play [StdinLine "create r"; Received 0 "created"; StdinLine "leave"] mock_new with
  | Some (code, st) => client_inv st
  | None => False
  end.
Proof.
  destruct (play [StdinLine "create r"; Received 0 "created"; StdinLine "leave"] mock_new) as [[code st]|] eqn:Hr.
  - apply (client_phases_consistent id no_env (Err "no file"%string) false
             [StdinLine "create r"; Received 0 "created"; StdinLine "leave"]%string mock_new code st Hr).
  - vm_compute in Hr. discriminate Hr.
Defined.

(** Joining, leaving and quitting tell the server. *)
Example a_visit :
  seen (play [StdinLine "join r CODE"; Received 0 "joined"; StdinLine "quit"] mock_new) =
  Some (Lobby, ["other"; "leave"], Some (OutOk "Left room."))%string.
Proof. vm_compute. reflexivity. Qed.

(** A room that was asked for and left before it is confirmed stays: no [Leave] is
    sent, and the confirmation is ignored. *)
Theorem unconfirmed_room_is_kept :
  seen (play [StdinLine "create r"; StdinLine "leave"; Received 0 "created"] mock_new) =
  Some (Lobby, ["other"], Some (OutOk "Left room."))%string.
Proof. vm_compute. reflexivity. Qed.

(** So does one whose creator has no microphone. *)
Theorem silent_creator_stays_on_server :
  seen (play [StdinLine "create r"; Received 0 "created"] (set_capture_result (Err "denied"%string) mock_new)) =
  Some (Lobby, ["other"], Some (OutErr "Audio start failed: audio error: microphone access denied"))%string.
Proof. vm_compute. reflexivity. Qed.

(** The end of the input ends the client without leaving the room. *)
Theorem eof_is_not_quit :
  seen (play [StdinLine "join r CODE"; Received 0 "joined"; StdinEof] mock_new) =
  Some (InRoom, ["other"], Some (OutOk "Joined room r as peer me (1 peer(s)) [participants: none]"))%string.
Proof. vm_compute. reflexivity. Qed.

(** A volume set in the lobby is said to apply later, and is forgotten. *)
Theorem lobby_volume_is_lost :
  match play [StdinLine "volume 10"; StdinLine "join r CODE"] mock_new with
  | Some (_, st) => cl_output st = [OutErr "Not in a room. Volume will apply when you join."] ∧
                    ab_volume <$> cl_playback_buffer st = Some 70
  | None => False
  end.
Proof. vm_compute. split; reflexivity. Qed.

(** A revoked code is printed in full although codes are to be hidden. *)
Theorem revoked_code_is_shown :
  seen (play [StdinLine "create r"; Received 0 "created"; StdinLine "revoke ABCDEFGHIJ"; Received 1 "revoked"] mock_new) =
  Some (InRoom, ["other"; "other"], Some (OutOk "Invite revoked: code=ABCDEFGHIJ"))%string.
Proof. vm_compute. reflexivity. Qed.

(** Hiding a code with a character of two bytes at the cut ends the client. *)
Theorem accented_code_panics :
  play [StdinLine "create r"; Received 0 "created"; StdinLine "invite"; Received 1 "accent"] mock_new = None.
Proof. vm_compute. reflexivity. Qed.

(** A partial ICE configuration, which loading refuses, is replaced by a public STUN
    server. *)
Theorem partial_ice_falls_open :
  let partial := λ name, if String.eqb name "WAVIS_STUN_URLS" then Some "stun:mine"%string else None in
  ice_load partial (Err "no file"%string) = Err (MissingEnvVar "WAVIS_TURN_URLS") ∧
  default_ice_config partial (Err "no file"%string) = stun_only.
Proof. done. Qed.
End ReplDemo.
