(* ===== verification/FloatBounds.v ===== *)
(** * Bounds on binary64 results

    A quotient or a product of integers, rounded, is at most every fraction [n / 2 ^ k]
    that the exact result is at most, as long as [n] has 53 bits.  Shared by the scaling
    of frames and the resampling of audio. *)

From Stdlib Require Import Floats.SpecFloat.
From S2P Require Import Prelude Floats.
Local Open Scope Z_scope.

(** [x] is not negative and at most [n / 2 ^ k]. *)
Definition at_most (x : spec_float) (n k : Z) : Prop :=
  x = S754_zero false ∨ ∃ m e, x = S754_finite false m e ∧ e ≤ - k ∧ Z.pos m ≤ n * 2 ^ (- k - e).

(** Integers of 53 bits are exact, with a full mantissa, and so are their quotients by
    small powers of two. *)
Lemma of_Z_full n :
  0 < n < 2 ^ 53 →
  ∃ m e, F64.of_Z n = S754_finite false m e ∧ e ≤ 0 ∧ -60 ≤ e ∧ Z.pos m = n * 2 ^ (- e) ∧ 2 ^ 52 ≤ Z.pos m < 2 ^ 53 ∧
    ∀ k, 0 ≤ k ≤ 100 → bounded F64.prec F64.emax m (e - k) = true.
Proof.
  intros Hn. destruct (normalize_exact F64.prec F64.emax ltac:(done) n) as (m & e & Ho & He & Hm & Hb); [done..|].
  exists m, e. pose proof Hb as [Hcan%Z.eqb_eq _]%andb_true_iff. unfold fexp in Hcan.
  pose proof (digits2_log2 m) as Hd. pose proof (Z.log2_nonneg n).
  assert (Z.log2 (Z.pos m) = Z.log2 n - e) as Hl by (rewrite Hm, Z.log2_mul_pow2 by lia; lia).
  assert (Z.pos (digits2_pos m) = 53 ∧ -60 ≤ e) as [Hd53 He60].
  { unfold F64.prec, F64.emax, emin in *. assert (Z.pos (digits2_pos m) ≤ 53) by lia.
    assert (-60 ≤ e) by lia. split; lia. }
  split_and!; try done.
  - apply Z.log2_le_pow2; lia.
  - apply Z.log2_lt_pow2; lia.
  - intros k Hk. unfold bounded, canonical_mantissa. apply andb_true_iff. rewrite Z.eqb_eq, Z.leb_le. unfold fexp, emin.
    unfold F64.prec, F64.emax in *. lia.
Qed.

Lemma below_at_most m e n k (mc : positive) ec :
  ec ≤ - k → Z.pos mc = n * 2 ^ (- k - ec) → below (Z.pos m) e mc ec → e ≤ - k ∧ Z.pos m ≤ n * 2 ^ (- k - e).
Proof.
  intros Hec Hmc [He Hle]. split; [lia|]. rewrite Hmc in Hle. etransitivity; [exact Hle|].
  rewrite <- Z.mul_assoc, <- Z.pow_add_r by lia. replace (- k - ec + (ec - e)) with (- k - e) by lia. lia.
Qed.

Lemma of_Z_at_most a : 0 ≤ a < 2 ^ 53 → at_most (F64.of_Z a) a 0.
Proof.
  intros Ha. destruct (decide (a = 0)) as [->|]; [by left|].
  destruct (of_Z_full a ltac:(lia)) as (m & e & -> & He & _ & Hm & _). right. exists m, e. split_and!; [done|lia|].
  rewrite Hm. do 2 f_equal; lia.
Qed.

(** A number divided by an integer. *)
Lemma quot_at_most x a j b n k :
  at_most x a j → 0 ≤ j → 0 < b < 2 ^ 53 → 0 < n < 2 ^ 53 → 0 ≤ k ≤ 100 → a * 2 ^ k ≤ n * b * 2 ^ j →
  at_most (F64.div x (F64.of_Z b)) n k.
Proof.
  intros Hx Hj Hb Hn Hk Hle.
  destruct (of_Z_full b Hb) as (mb & eb & -> & Heb & _ & Hmb & _ & _).
  destruct Hx as [->|(ma & ea & -> & Hea & Hma)]; [by left|].
  destruct (of_Z_full n Hn) as (mc & ec & _ & Hec & Hec2 & Hmc & _ & Hbnd). specialize (Hbnd k Hk).
  remember (Z.min ea (Z.min (ec - k + eb) (- j - k))) as z eqn:Hz.
  destruct (div_upper F64.prec F64.emax ma ea mb eb mc (ec - k) z Hbnd) as [Hzero|(m & e & Hm & Hbelow)]; [lia|lia| | |].
  - rewrite Pos2Z.inj_mul, Hmb, Hmc.
    transitivity (a * 2 ^ (- j - z)).
    { transitivity (a * 2 ^ (- j - ea) * 2 ^ (ea - z)); [apply Z.mul_le_mono_nonneg_r; [apply Z.pow_nonneg; lia|done]|].
      rewrite <- Z.mul_assoc, <- Z.pow_add_r by lia. replace (- j - ea + (ea - z)) with (- j - z) by lia. lia. }
    replace (n * 2 ^ (- ec) * (b * 2 ^ (- eb)) * 2 ^ (ec - k + eb - z)) with (n * b * 2 ^ (- k - z)).
    + replace (- j - z) with (k + (- j - k - z)) by lia. replace (- k - z) with (j + (- j - k - z)) by lia.
      rewrite !Z.pow_add_r, !Z.mul_assoc by lia. apply Z.mul_le_mono_nonneg_r; [apply Z.pow_nonneg; lia|done].
    + replace (- k - z) with (- ec + (- eb + (ec - k + eb - z))) by lia. rewrite !Z.pow_add_r by lia. ring.
  - left. exact Hzero.
  - right. exists m, e. split; [done|]. eapply below_at_most; [| |exact Hbelow]; [lia|]. rewrite Hmc. do 2 f_equal. lia.
Qed.
Lemma div_at_most a b n k :
  0 < a < 2 ^ 53 → 0 < b < 2 ^ 53 → 0 < n < 2 ^ 53 → 0 ≤ k ≤ 100 → a * 2 ^ k ≤ n * b →
  at_most (F64.div (F64.of_Z a) (F64.of_Z b)) n k.
Proof. intros Ha Hb Hn Hk Hle. apply (quot_at_most _ a 0); [apply of_Z_at_most|..]; lia. Qed.

Lemma mul_at_most a s n k c j :
  0 < a < 2 ^ 53 → at_most s n k → 0 < c < 2 ^ 53 → 0 ≤ j ≤ k → k ≤ 100 → a * n * 2 ^ j ≤ c * 2 ^ k →
  at_most (F64.mul (F64.of_Z a) s) c j.
Proof.
  intros Ha Hs Hc Hj Hk Hle. destruct (of_Z_full a Ha) as (ma & ea & -> & Hea & _ & Hma & Hfull & _).
  destruct Hs as [->|(ms & es & -> & Hes & Hms)]; [by left|].
  destruct (of_Z_full c Hc) as (mc & ec & _ & Hec & _ & Hmc & Hmc53 & Hbnd). specialize (Hbnd j ltac:(lia)).
  remember (ec - j) as ey eqn:Hey. remember (ea + es) as e eqn:Hee.
  (* the product, over a common exponent, is at most [c / 2 ^ j] *)
  assert (Hprod : ∀ z, z ≤ e → z ≤ ey → Z.pos ma * Z.pos ms * 2 ^ (e - z) ≤ Z.pos mc * 2 ^ (ey - z)).
  { intros z Hze Hzy. apply (rescale _ _ _ _ (Z.min e (Z.min ey (- k - j)))); [lia..|]. remember (Z.min e (Z.min ey (- k - j))) as v eqn:Hv.
    rewrite Hma, Hmc. replace (c * 2 ^ (- ec) * 2 ^ (ey - v)) with (c * 2 ^ (- j - v))
      by (rewrite <- Z.mul_assoc, <- Z.pow_add_r by lia; do 2 f_equal; lia).
    assert (Z.pos ms * 2 ^ (es - v) ≤ n * 2 ^ (- k - v)) as Hs'.
    { transitivity (n * 2 ^ (- k - es) * 2 ^ (es - v)).
      - apply Z.mul_le_mono_nonneg_r; [apply Z.pow_nonneg; lia|done].
      - rewrite <- Z.mul_assoc, <- Z.pow_add_r by lia. replace (- k - es + (es - v)) with (- k - v) by lia. lia. }
    replace (a * 2 ^ (- ea) * Z.pos ms * 2 ^ (e - v)) with (a * (Z.pos ms * 2 ^ (es - v))).
    2: { replace (es - v) with (- ea + (e - v)) by lia. rewrite Z.pow_add_r by lia. ring. }
    transitivity (a * (n * 2 ^ (- k - v))); [apply Z.mul_le_mono_nonneg_l; lia|].
    replace (- k - v) with (j + (- k - j - v)) by lia. replace (- j - v) with (k + (- k - j - v)) by lia.
    rewrite !Z.pow_add_r by lia.
    replace (a * (n * (2 ^ j * 2 ^ (- k - j - v)))) with (a * n * 2 ^ j * 2 ^ (- k - j - v)) by ring.
    rewrite Z.mul_assoc. apply Z.mul_le_mono_nonneg_r; [apply Z.pow_nonneg; lia|done]. }
  assert (He : e ≤ ey).
  { apply Z.le_ngt. intros Hgt. specialize (Hprod ey ltac:(lia) ltac:(lia)). rewrite Z.sub_diag, Z.mul_1_r in Hprod.
    assert (2 ≤ 2 ^ (e - ey)) by (change 2 with (2 ^ 1) at 1; apply Z.pow_le_mono_r; lia).
    assert (1 ≤ Z.pos ms) by lia. nia. }
  change (F64.mul _ _) with (binary_round_aux F64.prec F64.emax false (Z.pos (ma * ms)) (ea + es) loc_Exact). rewrite <- Hee.
  destruct (round_aux_upper F64.prec F64.emax false (Z.pos (ma * ms)) e loc_Exact mc ey) as [Hz|(m & e' & Hm & Hbelow)];
    [done|done|done| | |].
  - unfold shr_ceil. cbn [shr_record_of_loc shr_m shr_r shr_s orb]. specialize (Hprod e ltac:(lia) He).
    rewrite Z.sub_diag, Z.mul_1_r in Hprod. rewrite Pos2Z.inj_mul. lia.
  - left. exact Hz.
  - right. exists m, e'. split; [exact Hm|]. eapply below_at_most; [| |exact Hbelow]; [lia|]. rewrite Hmc. do 2 f_equal. lia.
Qed.

(** Quotients are representable, so that [min] picks the smaller value. *)
Lemma div_representable m1 e1 m2 e2 :
  valid_binary F64.prec F64.emax (F64.div (S754_finite false m1 e1) (S754_finite false m2 e2)) = true.
Proof.
  unfold F64.div, SFdiv. pose proof (div_core_spec F64.prec F64.emax m1 e1 m2 e2) as Hd.
  destruct (SFdiv_core_binary _ _ _ _ _ _) as [[q e] l], Hd as (He & Hq & _).
  set (n := Z.pos m1 * 2 ^ (e1 - e2 - e)) in *.
  assert (0 < n) by (unfold n; apply Z.mul_pos_pos; [|apply Z.pow_pos_nonneg]; lia).
  apply round_aux_valid; [done|rewrite Hq; apply Z.div_pos; lia|].
  assert (Z.pos (digits2_pos m1) + e1 - (Z.pos (digits2_pos m2) + e2) ≤ Zdigits2 q + e) as Hdig.
  { rewrite !digits2_log2. assert (Z.log2 n = Z.log2 (Z.pos m1) + (e1 - e2 - e)) as Hln
      by (unfold n; rewrite Z.log2_mul_pow2 by lia; lia).
    destruct (decide (0 < q)) as [Hq0|Hq0].
    - pose proof (quotient_log2 n q (Z.pos m2) ltac:(lia) ltac:(lia) Hq Hq0). destruct q as [|p|p]; [lia| |lia].
      cbn [Zdigits2]. rewrite digits2_log2. lia.
    - assert (q = 0) as -> by (assert (0 ≤ q) by (rewrite Hq; apply Z.div_pos; lia); lia).
      symmetry in Hq. apply Z.div_small_iff in Hq; [|lia]. pose proof (Z.log2_le_mono n (Z.pos m2) ltac:(lia)). cbn [Zdigits2]. lia. }
  apply (fexp_mono F64.prec F64.emax) in Hdig. lia.
Qed.

Definition quotient (x : spec_float) : Prop :=
  x = S754_zero false ∨ ∃ m e, x = S754_finite false m e ∧ bounded F64.prec F64.emax m e = true.
Lemma at_most_lt x y n k :
  quotient x → quotient y → SFltb y x = true → at_most x n k → at_most y n k.
Proof.
  intros Hx Hy Hlt Hm. destruct Hy as [->|(my & ey & -> & Hby)]; [by left|].
  destruct Hm as [->|(mx & ex & -> & Hex & Hmx)]; [done|]. right. exists my, ey. split; [done|].
  destruct Hx as [|(m & e & [= <- <-] & Hbx)]; [done|].
  pose proof Hbx as [Hcx%Z.eqb_eq _]%andb_true_iff. pose proof Hby as [Hcy%Z.eqb_eq _]%andb_true_iff.
  unfold fexp, F64.prec, F64.emax, emin in Hcx, Hcy. rewrite digits2_log2 in Hcx, Hcy.
  unfold SFltb in Hlt. cbn in Hlt. destruct (Z.compare_spec ey ex) as [->|Hlt'|]; [| |done].
  - change (Pos.compare_cont Eq my mx) with (Pos.compare my mx) in Hlt. destruct (Pos.compare_spec my mx); [done| |done]. lia.
  - split; [lia|]. assert (Z.pos my < 2 ^ 53) by (apply Z.log2_lt_pow2; lia).
    assert (2 ^ 52 ≤ Z.pos mx) by (apply Z.log2_le_pow2; lia).
    replace (- k - ey) with ((- k - ex) + (ex - ey)) by lia. rewrite Z.pow_add_r, Z.mul_assoc by lia.
    assert (2 ≤ 2 ^ (ex - ey)) by (change 2 with (2 ^ 1) at 1; apply Z.pow_le_mono_r; lia). nia.
Qed.
Lemma at_most_min x y n k :
  quotient x → quotient y → at_most x n k ∨ at_most y n k → at_most (fmin x y) n k.
Proof.
  intros Hx Hy Hm. assert (fmin x y = if SFltb y x then y else x) as ->.
  { destruct Hx as [->|(? & ? & -> & _)], Hy as [->|(? & ? & -> & _)]; done. }
  destruct (SFltb y x) eqn:Hlt; [destruct Hm as [Hm|Hm]; [by apply (at_most_lt x y)|done]|].
  destruct Hm as [Hm|Hm]; [done|]. destruct (SFltb x y) eqn:Hlt'; [by apply (at_most_lt y x)|].
  destruct Hx as [->|(mx & ex & -> & _)]; [by left|]. destruct Hy as [->|(my & ey & -> & _)]; [done|].
  unfold SFltb in Hlt, Hlt'. cbn in Hlt, Hlt'. rewrite (Z.compare_antisym ex ey) in Hlt.
  change (Pos.compare_cont Eq mx my) with (Pos.compare mx my) in Hlt'. change (Pos.compare_cont Eq my mx) with (Pos.compare my mx) in Hlt.
  destruct (Z.compare_spec ex ey) as [->| |]; [|done|done]. cbn in Hlt. rewrite (Pos.compare_antisym mx my) in Hlt.
  destruct (Pos.compare_spec mx my) as [->| |]; done.
Qed.

Lemma quotient_of a b : 0 < a < 2 ^ 32 → 0 < b < 2 ^ 32 → quotient (F64.div (F64.of_Z a) (F64.of_Z b)).
Proof.
  intros Ha Hb. assert (at_most (F64.div (F64.of_Z a) (F64.of_Z b)) (2 ^ 32) 0) as Hm by (apply div_at_most; lia).
  destruct (of_Z_full a ltac:(lia)) as (ma & ea & Hoa & _). destruct (of_Z_full b ltac:(lia)) as (mb & eb & Hob & _).
  rewrite Hoa, Hob in *. pose proof (div_representable ma ea mb eb) as Hv.
  destruct Hm as [Hz|(m & e & Hf & _)]; [by left|]. right. exists m, e. rewrite Hf in Hv. done.
Qed.
