(* ===== verification/AudioMixing.v ===== *)
(** * Remote audio (clients/shared/src/livekit_audio_mixing.rs, passthrough_filter.rs)

    A decoder per remote track brings its frames to mono at 48 kHz, scales them to the
    volume of the peer and queues them; every 20 ms a mixer takes one frame from each
    queue and writes the mix to the playback buffer.  The filter of whispered audio
    works with trigonometric functions and is a parameter.  [None] is a panic. *)

From Stdlib Require Import Floats.SpecFloat.
From S2P Require Import Prelude Floats FloatBounds JitterBuffer AudioBuffer.
Local Open Scope Z_scope.

(** ** Conversion *)

(** [chunks_exact]. *)
Definition chunks_exact (ch : nat) (samples : list spec_float) : list (list spec_float) :=
  (λ i, take ch (drop (i * ch) samples)) <$> seq 0 (length samples / ch).

Definition sanitize (s : spec_float) : spec_float := if is_finite s then s else F32.of_Z 0.
Definition average (ch : Z) (frame : list spec_float) : spec_float :=
  F32.div (foldl F32.add (S754_zero true) frame) (F32.of_Z ch).

(** One sample at 48 kHz, by linear interpolation. *)
Definition resample_at (mono : list spec_float) (sample_rate : Z) (i : nat) : option spec_float :=
  let t := F64.div (F64.mul (F64.of_Z (Z.of_nat i)) (F64.of_Z sample_rate)) (F64.of_Z 48000) in
  let lo := Z.to_nat (trunc_to (u64_modulus - 1) t) in
  let hi := Nat.min (lo + 1) (length mono - 1) in
  let frac := F32.of_f64 (F64.sub t (F64.of_Z (Z.of_nat lo))) in
  a ← mono !! lo;
  b ← mono !! hi;
  Some (F32.add a (F32.mul frac (F32.sub b a))).

(** [div_ceil]. *)
Definition div_ceil (a b : Z) : Z := (a + b - 1) / b.

(** [convert_audio_frame]. *)
Definition to_mono (samples : list spec_float) (channels : Z) : list spec_float :=
  let samples := sanitize <$> samples in
  if channels <=? 1 then samples else average channels <$> chunks_exact (Z.to_nat channels) samples.
Definition convert_audio_frame (samples : list spec_float) (sample_rate channels : Z) : option (list spec_float) :=
  if sample_rate =? 0 then Some []
  else
    let mono := to_mono samples channels in
    if sample_rate =? 48000 then Some mono
    else if bool_decide (mono = []) then Some []
    else
      let out_len := div_ceil (Z.of_nat (length mono) * 48000) sample_rate in
      mapM (resample_at mono sample_rate) (seq 0 (Z.to_nat out_len)).

Example upsampled :
  convert_audio_frame [F32.of_Z 0; F32.of_Z 1] 24000 1 =
  Some [F32.of_Z 0; F32.lit 1 2; F32.of_Z 1; F32.of_Z 1].
Proof. vm_compute. reflexivity. Qed.

(** The position of a sample lies inside the frame in spite of the rounding of the
    division. *)
Lemma trunc_at_most max x n k : 0 < k → at_most x n k → trunc_to max x ≤ Z.max 0 (n / 2 ^ k).
Proof.
  intros Hk [->|(m & e & -> & He & Hm)]; [cbn; lia|]. cbn [trunc_to]. rewrite (proj2 (Z.leb_gt _ _)) by lia.
  etransitivity; [apply Z.le_min_r|]. etransitivity; [|apply Z.le_max_r].
  pose proof (Z.pow_pos_nonneg 2 (- k - e) ltac:(lia) ltac:(lia)).
  transitivity (n * 2 ^ (- k - e) / 2 ^ (- e)); [apply Z.div_le_mono; [apply Z.pow_pos_nonneg; lia|done]|].
  assert (2 ^ (- e) = 2 ^ k * 2 ^ (- k - e)) as -> by (rewrite <- Z.pow_add_r by lia; f_equal; lia).
  rewrite Z.div_mul_cancel_r by lia. done.
Qed.
Lemma position_in n rate i :
  0 < n < 2 ^ 32 → 0 < rate < 2 ^ 32 → 0 ≤ i → i * rate < n * 48000 →
  trunc_to (u64_modulus - 1) (F64.div (F64.mul (F64.of_Z i) (F64.of_Z rate)) (F64.of_Z 48000)) < n.
Proof.
  intros Hn Hr Hi Hp. assert (i < 2 ^ 53) by nia.
  assert (at_most (F64.mul (F64.of_Z i) (F64.of_Z rate)) (i * rate) 0) as Hm.
  { destruct (decide (i = 0)) as [->|].
    - destruct (of_Z_full rate ltac:(lia)) as (m & e & -> & _). by left.
    - apply (mul_at_most _ _ rate 0); [lia|apply of_Z_at_most; lia|nia|lia|lia|]. lia. }
  apply (quot_at_most _ _ _ 48000 (n * 2 ^ 16 - 1) 16) in Hm; [|lia..].
  apply (trunc_at_most (u64_modulus - 1)) in Hm; [|lia]. eapply Z.le_lt_trans; [exact Hm|]. apply Z.max_lub_lt; [lia|].
  apply Z.div_lt_upper_bound; lia.
Qed.

(** Converting a frame never reads outside it, in spite of the rounding of positions in
    binary64, whatever the rate and the number of channels; and its length is that of
    the frame at 48 kHz, rounded up. *)
Theorem conversion_total (samples : list spec_float) (sample_rate channels : Z) :
  Z.of_nat (length samples) < 2 ^ 32 → 0 ≤ sample_rate < u32_modulus →
  ∃ out, convert_audio_frame samples sample_rate channels = Some out ∧
    Z.of_nat (length out) =
      if sample_rate =? 0 then 0
      else div_ceil (Z.of_nat (length (to_mono samples channels)) * 48000) sample_rate.
Proof.
  intros Hlen Hr. unfold convert_audio_frame. destruct (Z.eqb_spec sample_rate 0) as [|Hnz]; [by exists []|].
  set (mono := to_mono samples channels).
  assert (length mono ≤ length samples)%nat as Hmono.
  { unfold mono, to_mono, chunks_exact. destruct (Z.leb_spec channels 1); rewrite !length_fmap; [done|].
    rewrite length_seq. apply Nat.Div0.div_le_upper_bound. assert (1 ≤ Z.to_nat channels)%nat by lia. nia. }
  destruct (Z.eqb_spec sample_rate 48000) as [->|_].
  { exists mono. split; [done|]. unfold div_ceil. apply (Z.div_unique _ _ _ 47999); lia. }
  case_bool_decide as Hempty.
  { exists []. split; [done|]. rewrite Hempty. unfold div_ceil. cbn. symmetry. apply Z.div_small. lia. }
  set (n := Z.of_nat (length mono)). assert (0 < n) by (unfold n; destruct mono; cbn; [done|lia]).
  assert (∀ i, i ∈ seq 0 (Z.to_nat (div_ceil (n * 48000) sample_rate)) → is_Some (resample_at mono sample_rate i)) as Hall.
  { intros i Hi%elem_of_seq. assert (Z.of_nat i * sample_rate < n * 48000) as Hp.
    { assert (Z.of_nat i < div_ceil (n * 48000) sample_rate) as Hlt by lia. unfold div_ceil in Hlt.
      pose proof (Z.mul_div_le (n * 48000 + sample_rate - 1) sample_rate ltac:(lia)). nia. }
    pose proof (position_in n sample_rate (Z.of_nat i) ltac:(lia) ltac:(change (2 ^ 32) with u32_modulus; lia) ltac:(lia) Hp) as Hlo.
    unfold resample_at. set (lo := Z.to_nat _). assert (lo < length mono)%nat by (unfold lo; lia).
    destruct (lookup_lt_is_Some_2 mono lo) as [a ->]; [done|].
    destruct (lookup_lt_is_Some_2 mono (Nat.min (lo + 1) (length mono - 1))) as [b ->]; [lia|]. done. }
  destruct (mapM (resample_at mono sample_rate) (seq 0 (Z.to_nat (div_ceil (n * 48000) sample_rate)))) as [out|] eqn:Hout.
  - exists out. split; [done|]. apply length_mapM in Hout. rewrite length_seq in Hout. rewrite <- Hout.
    apply Z2Nat.id. unfold div_ceil. apply Z.div_pos; lia.
  - exfalso. apply (is_Some_None (A:=list spec_float)). rewrite <- Hout. apply mapM_is_Some_2, Forall_forall. exact Hall.
Qed.

(** ** Settings of the filter (passthrough_filter.rs) *)

Record PassthroughFilterSettings : Type := mkFilterSettings { fs_enabled : bool; fs_strength : Z }.
Record PassthroughFilters : Type := mkFilters {
  pf_settings : PassthroughFilterSettings;
  pf_participants : gset string
}.
Definition filters_new : PassthroughFilters := mkFilters (mkFilterSettings true 50) ∅.
Definition set_settings (enabled : bool) (strength : Z) (f : PassthroughFilters) : PassthroughFilters :=
  mkFilters (mkFilterSettings enabled (Z.min strength 100)) (pf_participants f).
Definition set_participant_passthrough (id : string) (enabled : bool) (f : PassthroughFilters) : PassthroughFilters :=
  mkFilters (pf_settings f) (if enabled then {[id]} ∪ pf_participants f else pf_participants f ∖ {[id]}).
Definition is_participant_passthrough (id : string) (f : PassthroughFilters) : bool :=
  bool_decide (id ∈ pf_participants f).

(** [passthrough_filter_params]: the cutoff frequency and the gain of the shelf. *)
Definition passthrough_filter_params (strength : Z) : spec_float * spec_float :=
  let s := F32.of_Z (Z.min strength 100) in
  if fle s (F32.of_Z 50) then
    let t := F32.div s (F32.of_Z 50) in
    (F32.add (F32.of_Z 14000) (F32.mul (F32.sub (F32.of_Z 6000) (F32.of_Z 14000)) t), F32.mul (F32.of_Z (-3)) t)
  else
    let t := F32.div (F32.sub s (F32.of_Z 50)) (F32.of_Z 50) in
    (F32.add (F32.of_Z 6000) (F32.mul (F32.sub (F32.of_Z 4000) (F32.of_Z 6000)) t),
     F32.add (F32.of_Z (-3)) (F32.mul (F32.add (F32.of_Z (-6)) (F32.of_Z 3)) t)).

(** Over all strengths: more strength never raises the cutoff or the shelf, and both
    stay in their ranges. *)
Theorem filter_params_monotone :
  forallb (λ s, let '(c, d) := passthrough_filter_params (Z.of_nat s) in
                let '(c', d') := passthrough_filter_params (Z.of_nat (S s)) in
                fle c' c && fle d' d && fle (F32.of_Z 4000) c && fle c (F32.of_Z 14000) &&
                fle (F32.of_Z (-6)) d && fle d (F32.of_Z 0)) (seq 0 255) = true.
Proof. vm_compute. reflexivity. Qed.

(** ** The mixer *)

Definition FRAME_SAMPLES : nat := 960.
Definition MAX_QUEUE_SAMPLES : nat := FRAME_SAMPLES * 10.
Definition TARGET_QUEUE_SAMPLES : nat := FRAME_SAMPLES * 5.

(** The decoded samples of every track that wait. *)
Abbreviation Queues := (gmap string (list spec_float)) (only parsing).

(** What a tick takes from a queue: a frame, its end held when the queue runs out. *)
Definition take_frame (queue : list spec_float) : option (list spec_float) :=
  let got := take FRAME_SAMPLES queue in
  match last got with
  | None => None
  | Some hold => Some (got ++ replicate (FRAME_SAMPLES - length got) hold)
  end.
Definition trim_queue (queue : list spec_float) : list spec_float :=
  if (MAX_QUEUE_SAMPLES <? length queue)%nat then drop (length queue - TARGET_QUEUE_SAMPLES) queue else queue.
Definition tick_queues (queues : Queues) : Queues :=
  trim_queue <$> base.filter (λ kv, kv.2 ≠ []) (drop FRAME_SAMPLES <$> queues).

(** The mix of the frames, attenuated when there are several. *)
Definition mix_frames (tracks : list (list spec_float)) : list spec_float :=
  let mixed := mix_audio_tracks tracks (replicate FRAME_SAMPLES (F32.of_Z 0)) in
  if (1 <? length tracks)%nat then
    let gain := F32.div (F32.of_Z 1) (F32.sqrt (F32.of_Z (Z.of_nat (length tracks)))) in
    (λ s, fclamp (F32.of_Z (-1)) (F32.of_Z 1) (F32.mul s gain)) <$> mixed
  else mixed.

(** One round of [run_mix_task]; the tracks of a hash map come in some order. *)
Definition mix_tick (queues : Queues) (playback : option AudioBuffer) : option (Queues * option AudioBuffer) :=
  let tracks := omap (λ kv, take_frame kv.2) (map_to_list queues) in
  let queues' := tick_queues queues in
  match tracks, playback with
  | _ :: _, Some pb => pb' ← write_mono (mix_frames tracks) pb; Some (queues', Some pb')
  | _, _ => Some (queues', playback)
  end.

(** ** The decoder *)

Inductive TrackSource : Type := SourceMicrophone | SourceScreenshareAudio | SourceOther.
#[global] Instance TrackSource_eq_dec : EqDecision TrackSource.
Proof. solve_decision. Defined.

(** [f32::EPSILON], [x.abs()]. *)
Definition f32_epsilon : spec_float := F32.lit 1 8388608.
Definition fabs (x : spec_float) : spec_float := SFabs x.

Section decoder.
Context {Chain : Type} (process_frame : PassthroughFilterSettings → list spec_float → Chain → list spec_float * Chain).

(** A round of [run_participant_audio_decoder]: the samples the frame adds to the
    queue of its track. *)
Definition decode_frame (participant_id volume_key queue_key : string) (source : TrackSource)
    (data : list Z) (sample_rate num_channels : Z) (volumes : option (gmap string Z))
    (share_audio_enabled : gset string) (filters : option PassthroughFilters)
    (queues : Queues) (chain : Chain) : option (Queues * Chain) :=
  let f32_samples := (λ s, F32.div (F32.of_Z s) (F32.of_Z 32768)) <$> data in
  converted ← convert_audio_frame f32_samples sample_rate num_channels;
  let gain := match volumes with Some v => volumes_gain volume_key v | None => F32.of_Z 1 end in
  if bool_decide (source = SourceScreenshareAudio) && negb (bool_decide (participant_id ∈ share_audio_enabled))
  then Some (queues, chain)
  else
    let processed :=
      if fge (fabs (F32.sub gain (F32.of_Z 1))) f32_epsilon then (λ s, F32.mul s gain) <$> converted else converted in
    let '(processed, chain) :=
      match filters with
      | Some f =>
          if bool_decide (source = SourceMicrophone) && is_participant_passthrough participant_id f
          then process_frame (pf_settings f) processed chain else (processed, chain)
      | None => (processed, chain)
      end in
    Some (<[queue_key := default [] (queues !! queue_key) ++ processed]> queues, chain).
End decoder.

(** The end of a decoder: its queue is removed. *)
Definition decoder_ended (queue_key : string) (queues : Queues) : Queues := delete queue_key queues.

(** ** What a tick does *)

Lemma take_frame_length q f : take_frame q = Some f → length f = FRAME_SAMPLES.
Proof.
  unfold take_frame. destruct (last (take FRAME_SAMPLES q)) as [x|]; [|done]. intros [= <-].
  rewrite length_app, length_replicate, length_take. lia.
Qed.
Lemma take_frame_some q : is_Some (take_frame q) ↔ q ≠ [].
Proof.
  unfold take_frame. split.
  - intros Hs ->. by destruct Hs.
  - intros Hq. destruct (last (take FRAME_SAMPLES q)) eqn:Hl; [done|]. apply last_None in Hl. by destruct q.
Qed.

Lemma tick_queues_lookup queues k q' :
  tick_queues queues !! k = Some q' →
  ∃ q, queues !! k = Some q ∧ q' = trim_queue (drop FRAME_SAMPLES q) ∧ drop FRAME_SAMPLES q ≠ [].
Proof.
  unfold tick_queues. rewrite lookup_fmap_Some. intros (r & <- & Hr). apply map_lookup_filter_Some in Hr as [Hr Hne].
  apply lookup_fmap_Some in Hr as (q & <- & Hq). by exists q.
Qed.
Lemma trim_queue_bound q : (length (trim_queue q) ≤ MAX_QUEUE_SAMPLES)%nat ∧ (q ≠ [] → trim_queue q ≠ []).
Proof.
  unfold trim_queue. destruct (Nat.ltb_spec MAX_QUEUE_SAMPLES (length q)) as [Hlt|]; [|done].
  unfold MAX_QUEUE_SAMPLES, TARGET_QUEUE_SAMPLES, FRAME_SAMPLES in *. split; [rewrite length_drop; lia|].
  intros _ Hd. apply (f_equal length) in Hd. rewrite length_drop in Hd. cbn [length] in Hd. lia.
Qed.

(** A tick of the mixer never panics on a sound playback buffer and keeps it sound; it
    takes the oldest frame of every track that waits, and afterwards no track holds
    more than the bounded latency, none is empty, and what each still holds is the
    newest part of what it held, in order. *)
Theorem mixer_bounds_latency (queues : Queues) (playback : option AudioBuffer) :
  (∀ pb, playback = Some pb → ring_ok pb) →
  ∃ queues' playback', mix_tick queues playback = Some (queues', playback') ∧
    (∀ pb, playback' = Some pb → ring_ok pb) ∧
    (∀ k q', queues' !! k = Some q' →
       q' ≠ [] ∧ (length q' ≤ MAX_QUEUE_SAMPLES)%nat ∧
       ∃ q n, queues !! k = Some q ∧ q' = drop n q ∧ (FRAME_SAMPLES ≤ n)%nat) ∧
    (∀ k q, queues !! k = Some q → (length q ≤ FRAME_SAMPLES)%nat → queues' !! k = None).
Proof.
  intros Hpb. set (queues' := tick_queues queues).
  assert ((∀ k q', queues' !! k = Some q' → q' ≠ [] ∧ (length q' ≤ MAX_QUEUE_SAMPLES)%nat ∧
             ∃ q n, queues !! k = Some q ∧ q' = drop n q ∧ (FRAME_SAMPLES ≤ n)%nat) ∧
          (∀ k q, queues !! k = Some q → (length q ≤ FRAME_SAMPLES)%nat → queues' !! k = None)) as [Hq He].
  { split.
    - intros k q' Hk. apply tick_queues_lookup in Hk as (q & Hq & -> & Hne).
      destruct (trim_queue_bound (drop FRAME_SAMPLES q)) as [Hb Hn]. split_and!; [by apply Hn|done|].
      unfold trim_queue. destruct (_ <? _)%nat; [|by eexists _, _]. rewrite drop_drop. eexists _, _. split_and!; [done|done|lia].
    - intros k q Hk Hlen. destruct (queues' !! k) as [q'|] eqn:Hk'; [|done].
      apply tick_queues_lookup in Hk' as (q0 & Hk0 & _ & Hne). rewrite Hk in Hk0. injection Hk0 as <-.
      by rewrite drop_ge in Hne. }
  unfold mix_tick. fold queues'. destruct (omap _ _) as [|t ts]; [by exists queues', playback|].
  destruct playback as [pb|]; [|by exists queues', None].
  destruct (write_all_ok (mix_frames (t :: ts)) pb (Hpb pb eq_refl)) as (pb' & Hw & Hok & _ & _).
  exists queues', (Some pb'). unfold write_mono. rewrite Hw. cbn [mbind option_bind]. split_and!; try done.
  by intros pb0 [= <-].
Qed.

(** The frame a tick writes has its length, and its samples are in range unless their sum
    is not a number. *)
Theorem mixed_frame_length tracks : length (mix_frames tracks) = FRAME_SAMPLES.
Proof.
  unfold mix_frames. destruct (mix_spec tracks (replicate FRAME_SAMPLES (F32.of_Z 0))) as [Hl _].
  rewrite length_replicate in Hl. destruct (1 <? length tracks)%nat; [by rewrite length_fmap|done].
Qed.

Module MixDemo.

(** Two loud voices and two quieter ones give the same mix: the sum is clipped before it
    is attenuated. *)
Definition tone (n : Z) : list spec_float := replicate FRAME_SAMPLES (F32.lit n 4).
Theorem clipped_before_attenuation :
  mix_frames [tone 3; tone 3] = mix_frames [tone 2; tone 2] ∧
  head (mix_frames [tone 3; tone 3]) = Some (F32.div (F32.of_Z 1) (F32.sqrt (F32.of_Z 2))).
Proof. vm_compute. split; reflexivity. Qed.

Lemma ring : ring_ok (with_target 60 20 20).
Proof. split; cbn; unfold fill; cbn; lia. Qed.
Lemma mixer_bounds_latency_witness :
  ∃ queues' playback', mix_tick {["a" := tone 1]} (Some (with_target 60 20 20)) = Some (queues', playback') ∧
    queues' !! "a" = None.
Proof.
  destruct (mixer_bounds_latency {["a" := tone 1]} (Some (with_target 60 20 20))) as (q & p & Ht & _ & _ & He).
  - intros pb [= <-]. apply ring.
  - exists q, p. split; [exact Ht|]. apply (He "a" (tone 1)); [apply lookup_singleton_eq|]. unfold tone. rewrite length_replicate. lia.
Defined.

Lemma conversion_total_witness :
  ∃ out, convert_audio_frame [F32.of_Z 0; F32.of_Z 1; F32.of_Z 0; F32.of_Z 1] 16000 2 = Some out ∧ length out = 6%nat.
Proof.
  destruct (conversion_total [F32.of_Z 0; F32.of_Z 1; F32.of_Z 0; F32.of_Z 1] 16000 2) as (out & Ho & Hl);
    [done|done|]. exists out. split; [exact Ho|]. change (Z.of_nat (length out) = 6) in Hl. lia.
Defined.
End MixDemo.
