(* ===== verification/Frames.v ===== *)
(** * Captured frames (clients/wavis-gui/src-tauri/src/screen_capture/frame_processor.rs,
    media.rs)

    Before a captured frame is sent it is throttled to a frame rate, scaled down to a
    maximal resolution and, on Windows, converted to the planes of I420.  Pixels are
    lists of bytes, indexed and overwritten where the source does; [None] is a panic on
    an index out of range or an underflow.  A [usize] has 64 bits. *)

From Stdlib Require Import Floats.SpecFloat Sorting.Sorted.
From S2P Require Import Prelude Floats FloatBounds JitterBuffer.
Local Open Scope Z_scope.

(** ** Settings (frame_processor.rs) *)

Definition DEFAULT_MAX_WIDTH : Z := 1920.
Definition DEFAULT_MAX_HEIGHT : Z := 1080.
Definition DEFAULT_MAX_FPS : Z := 60.
Definition DEFAULT_JPEG_QUALITY : Z := 75.

(** [ScreenShareConfig], [new], [apply_preset]. *)
Record ScreenShareConfig : Type := mkScreenShareConfig {
  sc_max_width : Z;
  sc_max_height : Z;
  sc_max_fps : Z;
  sc_jpeg_quality : Z
}.
Definition screen_share_config_new : ScreenShareConfig :=
  mkScreenShareConfig DEFAULT_MAX_WIDTH DEFAULT_MAX_HEIGHT DEFAULT_MAX_FPS DEFAULT_JPEG_QUALITY.
Definition apply_preset (preset : string) (c : ScreenShareConfig) : Result unit string * ScreenShareConfig :=
  if String.eqb preset "low" then (Ok tt, mkScreenShareConfig 1920 1080 60 85)
  else if String.eqb preset "high" then (Ok tt, mkScreenShareConfig 2560 1440 30 92)
  else if String.eqb preset "max" then (Ok tt, mkScreenShareConfig 2560 1440 60 95)
  else (Err ("unknown quality preset: " +:+ preset), c).

(** ** The frame rate *)

(** [FrameThrottler]: the interval in nanoseconds and the last frame. *)
Record FrameThrottler : Type := mkFrameThrottler { ft_min_interval_ns : Z; ft_last_frame : option Instant }.
Definition throttler_new (max_fps : Z) : FrameThrottler :=
  mkFrameThrottler (1000000000 `div` Z.max max_fps 1) None.
Definition set_fps (max_fps : Z) (t : FrameThrottler) : FrameThrottler :=
  mkFrameThrottler (1000000000 `div` Z.max max_fps 1) (ft_last_frame t).

(** [should_emit] at an instant; [duration_since] saturates at zero. *)
Definition should_emit (now : Instant) (t : FrameThrottler) : bool * FrameThrottler :=
  match ft_last_frame t with
  | None => (true, mkFrameThrottler (ft_min_interval_ns t) (Some now))
  | Some last =>
      if ft_min_interval_ns t <=? Z.max 0 (now - last)
      then (true, mkFrameThrottler (ft_min_interval_ns t) (Some now)) else (false, t)
  end.

(** The instants at which a sequence of frames is let through. *)
Fixpoint emitted (times : list Instant) (t : FrameThrottler) : list Instant :=
  match times with
  | [] => []
  | now :: times =>
      let '(b, t') := should_emit now t in
      if b then now :: emitted times t' else emitted times t'
  end.

(** Any two of them are an interval apart. *)
Lemma emitted_after times t last :
  0 < ft_min_interval_ns t → ft_last_frame t = Some last →
  Forall (λ x, last + ft_min_interval_ns t ≤ x) (emitted times t) ∧
  StronglySorted (λ x y, x + ft_min_interval_ns t ≤ y) (emitted times t).
Proof.
  revert t last. induction times as [|now times IH]; intros t last Hpos Hl; cbn; [by repeat constructor|].
  unfold should_emit. rewrite Hl. destruct (Z.leb_spec (ft_min_interval_ns t) (Z.max 0 (now - last))) as [Hle|]; [|by apply IH].
  set (t' := mkFrameThrottler _ _). destruct (IH t' now) as [Hf Hs]; [done..|]. cbn in Hf, Hs.
  split; [constructor; [lia|]|by constructor]. eapply Forall_impl; [exact Hf|]. cbn. intros x ?. lia.
Qed.
Lemma emitted_spaced times t :
  0 < ft_min_interval_ns t → StronglySorted (λ x y, x + ft_min_interval_ns t ≤ y) (emitted times t).
Proof.
  intros Hpos. destruct (ft_last_frame t) as [last|] eqn:Hl; [by eapply emitted_after|].
  destruct times as [|now times]; cbn; [constructor|]. unfold should_emit. rewrite Hl.
  set (t' := mkFrameThrottler _ _). destruct (emitted_after times t' now) as [Hf Hs]; [done..|]. by constructor.
Qed.

(** Points an interval apart: few of them lie in a window. *)
Lemma spaced_count (l : list Z) (d start width : Z) :
  0 < d → 0 ≤ width → StronglySorted (λ x y, x + d ≤ y) l →
  Z.of_nat (length (List.filter (λ x, (start <=? x) && (x <? start + width)) l)) * d < width + d.
Proof.
  intros Hd Hw Hs. revert start width Hw. induction Hs as [|x l Hs IH Hx]; intros start width Hw; cbn [List.filter length]; [lia|].
  destruct ((start <=? x) && (x <? start + width)) eqn:Hin; [|by apply IH].
  apply andb_true_iff in Hin as [Hlo%Z.leb_le Hhi%Z.ltb_lt]. cbn [length].
  set (P := λ y, (start <=? y) && (y <? start + width)).
  destruct (decide (x + d < start + width)) as [Hroom|Hfull].
  - specialize (IH (x + d) (start + width - (x + d)) ltac:(lia)).
    assert (List.filter P l = List.filter (λ y, (x + d <=? y) && (y <? x + d + (start + width - (x + d)))) l) as ->.
    { rewrite Forall_forall in Hx. clear IH Hs. induction l as [|y l IHl]; [done|]. cbn.
      rewrite IHl by (intros z Hz; apply Hx; by right).
      assert (P y = (x + d <=? y) && (y <? x + d + (start + width - (x + d)))) as ->; [|done].
      specialize (Hx y ltac:(by left)). unfold P. apply eq_true_iff_eq. rewrite !andb_true_iff, !Z.leb_le, !Z.ltb_lt. lia. }
    lia.
  - assert (List.filter P l = []) as ->; [|cbn; lia].
    rewrite Forall_forall in Hx. clear IH Hs. induction l as [|y l IHl]; [done|]. cbn.
    rewrite IHl by (intros z Hz; apply Hx; by right).
    specialize (Hx y ltac:(by left)). assert (P y = false) as ->; [|done]. unfold P. apply andb_false_iff. right.
    apply Z.ltb_ge. lia.
Qed.

(** A window of any length lets through at most one frame more than it has intervals,
    whenever the frames arrive; in particular no more than one frame per interval. *)
Theorem frame_rate_bounded (max_fps : Z) (times : list Instant) (start width : Z) :
  max_fps ≤ 1000000000 → 0 ≤ width →
  let interval := 1000000000 `div` Z.max max_fps 1 in
  Z.of_nat (length (List.filter (λ x, (start <=? x) && (x <? start + width)) (emitted times (throttler_new max_fps))))
    ≤ width `div` interval + 1.
Proof.
  intros Hf Hw interval. assert (0 < interval) as Hi by (apply Z.div_str_pos; lia).
  pose proof (spaced_count _ interval start width Hi Hw (emitted_spaced times (throttler_new max_fps) Hi)) as Hc.
  set (n := Z.of_nat _) in *. apply Z.lt_succ_r.
  assert (n - 1 ≤ width `div` interval); [|lia]. apply Z.div_le_lower_bound; [done|]. lia.
Qed.

(** A rate beyond a frame per nanosecond is no rate at all. *)
Example no_throttle : emitted [5; 5; 5] (throttler_new 4294967295) = [5; 5; 5].
Proof. reflexivity. Qed.

(** ** Loops over pixels *)

(** [for i in i..i + n], and [for i in (0..n).step_by(2)]. *)
Fixpoint loop {S} (n i : nat) (f : nat → S → option S) (s : S) : option S :=
  match n with O => Some s | Datatypes.S n => s' ← f i s; loop n (Datatypes.S i) f s' end.
Definition for_range {S} (n : nat) (f : nat → S → option S) (s : S) : option S := loop n 0 f s.
Definition for_step2 {S} (n : nat) (f : nat → S → option S) (s : S) : option S :=
  loop ((n + 1) / 2) 0 (λ i, f (2 * i)%nat) s.

(** [out[i..i + px.len()].copy_from_slice(px)]. *)
Definition splice (i : nat) (px out : list Z) : option (list Z) :=
  if (i + length px <=? length out)%nat
  then Some (take i out ++ px ++ drop (i + length px) out) else None.

Lemma loop_ext {S} n i (f g : nat → S → option S) s :
  (∀ j t, (i ≤ j < i + n)%nat → f j t = g j t) → loop n i f s = loop n i g s.
Proof.
  revert i s. induction n as [|n IH]; intros i s Hfg; cbn; [done|]. rewrite (Hfg i) by lia.
  destruct (g i s); cbn; [|done]. apply IH. intros j t Hj. apply Hfg. lia.
Qed.
Lemma loop_pair {S T} n i (f : nat → S → option S) (g : nat → T → option T) s t :
  loop n i (λ j '(a, b), a' ← f j a; b' ← g j b; Some (a', b')) (s, t) =
  (s' ← loop n i f s; t' ← loop n i g t; Some (s', t')).
Proof.
  revert i s t. induction n as [|n IH]; intros i s t; cbn; [done|].
  destruct (f i s) as [s1|]; cbn; [|done]. destruct (g i t) as [t1|]; cbn; [apply IH|].
  by destruct (loop n (Datatypes.S i) f s1).
Qed.

(** A loop whose rounds each fill the next [k] cells of a list fills it in order. *)
Lemma fill_loop (f : nat → list Z → option (list Z)) (g : nat → list Z) (b k n i : nat) pre rest :
  (∀ j p r, (i ≤ j < i + n)%nat → length p = (b + j * k)%nat → (k ≤ length r)%nat →
     length (g j) = k ∧ f j (p ++ r) = Some (p ++ g j ++ drop k r)) →
  length pre = (b + i * k)%nat → (n * k ≤ length rest)%nat →
  loop n i f (pre ++ rest) = Some (pre ++ concat (map g (seq i n)) ++ drop (n * k) rest).
Proof.
  revert i pre rest. induction n as [|n IH]; intros i pre rest Hf Hp Hr; cbn [loop seq map concat Nat.mul].
  - by rewrite drop_0.
  - cbn in Hr. destruct (Hf i pre rest ltac:(lia) Hp ltac:(lia)) as [Hg Hs]. rewrite Hs. cbn [mbind option_bind].
    rewrite (assoc_L (++) pre), (IH (Datatypes.S i)).
    + rewrite drop_drop. by rewrite <- !(assoc_L (++)).
    + intros j p r Hj. apply Hf. lia.
    + rewrite length_app. lia.
    + rewrite length_drop. lia.
Qed.
Lemma splice_fills i px pre rest :
  length pre = i → (length px ≤ length rest)%nat → splice i px (pre ++ rest) = Some (pre ++ px ++ drop (length px) rest).
Proof.
  intros <- Hl. unfold splice. rewrite (proj2 (Nat.leb_le _ _)) by (rewrite length_app; lia).
  by rewrite take_app_length, drop_app_add.
Qed.

(** The cells of a grid, row by row. *)
Definition grid (w h : nat) (val : nat → nat → list Z) : list Z :=
  concat (map (λ y, concat (map (val y) (seq 0 w))) (seq 0 h)).
Lemma concat_length {A} (g : nat → list A) k i n :
  (∀ j, (i ≤ j < i + n)%nat → length (g j) = k) → length (concat (map g (seq i n))) = (n * k)%nat.
Proof.
  revert i. induction n as [|n IH]; intros i Hg; cbn; [done|]. rewrite length_app, (Hg i), (IH (Datatypes.S i)); [done| |lia].
  intros j Hj. apply Hg. lia.
Qed.

Lemma fill_grid (w h k : nat) (val : nat → nat → list Z) (f : nat → nat → list Z → option (list Z)) out :
  (∀ y x, (y < h)%nat → (x < w)%nat → length (val y x) = k) →
  (∀ y x o, (y < h)%nat → (x < w)%nat → f y x o = splice ((y * w + x) * k) (val y x) o) →
  length out = (h * (w * k))%nat →
  for_range h (λ y, for_range w (f y)) out = Some (grid w h val) ∧ length (grid w h val) = length out.
Proof.
  intros Hk Hf Hlen.
  assert (∀ y, (y < h)%nat → length (concat (map (val y) (seq 0 w))) = (w * k)%nat) as Hrow.
  { intros y Hy. apply concat_length. intros x Hx. apply Hk; lia. }
  split; [|unfold grid; rewrite Hlen; apply concat_length; intros y Hy; apply Hrow; lia].
  unfold for_range. change out with ([] ++ out).
  rewrite (fill_loop _ (λ y, concat (map (val y) (seq 0 w))) 0 (w * k) h 0); [|..|done|lia].
  - rewrite drop_ge by lia. unfold grid. by rewrite app_nil_r.
  - intros y p r Hy Hp Hr. split; [apply Hrow; lia|].
    rewrite (fill_loop _ (val y) (y * w * k) k w 0); [done| |lia|lia].
    intros x p' r' Hx Hp' Hr'. assert (length (val y x) = k) as Hv by (apply Hk; lia). split; [done|].
    rewrite Hf by lia. rewrite splice_fills; [by rewrite Hv| |lia]. lia.
Qed.

(** ** I420 (media.rs) *)

Definition clamp_u8 (value : Z) : Z := Z.max 0 (Z.min value 255).
Definition checked_mul (a b : Z) : option Z := if a * b <? u64_modulus then Some (a * b) else None.

(** The brightness and the two colour differences of a pixel. *)
Abbreviation Rgb := (Z * Z * Z)%type (only parsing).
Definition luma : Rgb → Z := λ '(r, g, b), clamp_u8 (Z.shiftr (66 * r + 129 * g + 25 * b + 128) 8 + 16).
Definition chroma_u : Rgb → Z := λ '(r, g, b), clamp_u8 (Z.shiftr (-38 * r - 74 * g + 112 * b + 128) 8 + 128).
Definition chroma_v : Rgb → Z := λ '(r, g, b), clamp_u8 (Z.shiftr (112 * r - 94 * g - 18 * b + 128) 8 + 128).

(** [data[idx]], [data[idx + 1]], [data[idx + 2]]. *)
Definition pixel (data : list Z) (idx : nat) : option Rgb :=
  r ← data !! idx; g ← data !! (idx + 1)%nat; b ← data !! (idx + 2)%nat; Some (r, g, b).

(** The sums over a block of two by two pixels. *)
Definition block_sums (data : list Z) (src_stride y x : nat) : option Rgb :=
  for_range 2 (λ dy, for_range 2 (λ dx '(r_sum, g_sum, b_sum),
    '(r, g, b) ← pixel data ((y + dy) * src_stride + (x + dx) * 4);
    Some (r_sum + r, g_sum + g, b_sum + b))) (0, 0, 0).

(** [rgba_to_i420]: the inner option is the source's. *)
Definition rgba_to_i420 (data : list Z) (width height : Z) : option (option (list Z * Z * Z)) :=
  let out_width := Z.ldiff width 1 in
  let out_height := Z.ldiff height 1 in
  if (out_width =? 0) || (out_height =? 0) then Some None
  else
    match a ← checked_mul width height; checked_mul a 4, checked_mul out_width out_height with
    | Some required_len, Some y_len =>
        if Z.of_nat (length data) <? required_len then Some None
        else
          let chroma_len := y_len / 4 in
          let src_stride := (Z.to_nat width * 4)%nat in
          let ow := Z.to_nat out_width in
          let oh := Z.to_nat out_height in
          y_plane ← for_range oh (λ y, for_range ow (λ x out,
            p ← pixel data (y * src_stride + x * 4);
            splice (y * ow + x) [luma p] out)) (replicate (Z.to_nat y_len) 0);
          '(u_plane, v_plane) ← for_step2 oh (λ y, for_step2 ow (λ x '(u, v),
            '(r_sum, g_sum, b_sum) ← block_sums data src_stride y x;
            let p := (r_sum / 4, g_sum / 4, b_sum / 4) in
            let chroma_idx := (y / 2 * (ow / 2) + x / 2)%nat in
            u' ← splice chroma_idx [chroma_u p] u;
            v' ← splice chroma_idx [chroma_v p] v;
            Some (u', v'))) (replicate (Z.to_nat chroma_len) 0, replicate (Z.to_nat chroma_len) 0);
          Some (Some (y_plane ++ u_plane ++ v_plane, out_width, out_height))
    | _, _ => Some None
    end.

(** ** The planes *)

(** The pixel at a position, and the mean of the block whose first pixel it is. *)
Definition pixel_at (data : list Z) (w y x : nat) : Rgb :=
  let i := (y * (w * 4) + x * 4)%nat in (data !!! i, data !!! (i + 1)%nat, data !!! (i + 2)%nat).
Definition add_rgb (p q : Rgb) : Rgb :=
  let '(r, g, b) := p in let '(r', g', b') := q in (r + r', g + g', b + b').
Definition block_mean (data : list Z) (w y x : nat) : Rgb :=
  let at_ (dy dx : nat) := pixel_at data w (2 * y + dy) (2 * x + dx) in
  let '(r, g, b) := add_rgb (add_rgb (add_rgb (at_ 0%nat 0%nat) (at_ 0%nat 1%nat)) (at_ 1%nat 0%nat)) (at_ 1%nat 1%nat) in
  (r / 4, g / 4, b / 4).

(** The picture the conversion stands for: every pixel's brightness, then the colour
    of every block of four, of the frame cut to even sides. *)
Definition i420_picture (data : list Z) (w h : nat) : list Z :=
  grid (2 * (w / 2)) (2 * (h / 2)) (λ y x, [luma (pixel_at data w y x)]) ++
  grid (w / 2) (h / 2) (λ y x, [chroma_u (block_mean data w y x)]) ++
  grid (w / 2) (h / 2) (λ y x, [chroma_v (block_mean data w y x)]).

Lemma pixel_in data w h y x :
  (w * h * 4 ≤ length data)%nat → (y < h)%nat → (x < w)%nat →
  pixel data (y * (w * 4) + x * 4) = Some (pixel_at data w y x).
Proof.
  intros Hlen Hy Hx. unfold pixel, pixel_at. cbv zeta. set (i := (y * (w * 4) + x * 4)%nat).
  assert (i + 2 < length data)%nat as Hi by (unfold i; nia).
  rewrite !list_lookup_lookup_total_lt by lia. done.
Qed.
Lemma block_in data w h y x :
  (w * h * 4 ≤ length data)%nat → (2 * y + 1 < h)%nat → (2 * x + 1 < w)%nat →
  ∃ r g b, block_sums data (w * 4) (2 * y) (2 * x) = Some (r, g, b) ∧ block_mean data w y x = (r / 4, g / 4, b / 4).
Proof.
  intros Hlen Hy Hx. unfold block_sums, for_range. cbn [loop].
  rewrite !(pixel_in data w h) by lia. unfold block_mean. cbv zeta.
  destruct (pixel_at data w (2 * y + 0) (2 * x + 0)) as [[r1 g1] b1], (pixel_at data w (2 * y + 0) (2 * x + 1)) as [[r2 g2] b2],
    (pixel_at data w (2 * y + 1) (2 * x + 0)) as [[r3 g3] b3], (pixel_at data w (2 * y + 1) (2 * x + 1)) as [[r4 g4] b4].
  cbn. do 3 eexists. split; [done|]. by rewrite !Z.add_0_l || done.
Qed.

Lemma ldiff_even n : Z.ldiff n 1 = 2 * (n / 2).
Proof.
  change 1 with (Z.ones 1). rewrite Z.ldiff_ones_r, Z.shiftl_mul_pow2, Z.shiftr_div_pow2 by lia.
  change (2 ^ 1) with 2. lia.
Qed.

(** The two loops of the conversion. *)
Lemma luma_loop data w h out :
  (w * h * 4 ≤ length data)%nat → let ow := (2 * (w / 2))%nat in let oh := (2 * (h / 2))%nat in length out = (oh * ow)%nat →
  for_range oh (λ y, for_range ow (λ x out,
    p ← pixel data (y * (w * 4) + x * 4); splice (y * ow + x) [luma p] out)) out =
  Some (grid ow oh (λ y x, [luma (pixel_at data w y x)])).
Proof.
  intros Hlen ow oh Hout. assert (ow ≤ w)%nat by (unfold ow; pose proof (Nat.div_mod_eq w 2); lia).
  assert (oh ≤ h)%nat by (unfold oh; pose proof (Nat.div_mod_eq h 2); lia).
  apply (fill_grid ow oh 1); [done| |by rewrite Nat.mul_1_r].
  intros y x o Hy Hx. rewrite (pixel_in data w h) by lia. cbn [mbind option_bind]. f_equal. lia.
Qed.
Lemma chroma_loop data w h u v :
  (w * h * 4 ≤ length data)%nat → let ow := (2 * (w / 2))%nat in let oh := (2 * (h / 2))%nat in
  length u = (h / 2 * (w / 2))%nat → length v = (h / 2 * (w / 2))%nat →
  for_step2 oh (λ y, for_step2 ow (λ x '(u, v),
    '(r_sum, g_sum, b_sum) ← block_sums data (w * 4) y x;
    let p := (r_sum / 4, g_sum / 4, b_sum / 4) in
    let chroma_idx := (y / 2 * (ow / 2) + x / 2)%nat in
    u' ← splice chroma_idx [chroma_u p] u;
    v' ← splice chroma_idx [chroma_v p] v;
    Some (u', v'))) (u, v) =
  Some (grid (w / 2) (h / 2) (λ y x, [chroma_u (block_mean data w y x)]),
        grid (w / 2) (h / 2) (λ y x, [chroma_v (block_mean data w y x)])).
Proof.
  intros Hlen ow oh Hu Hv. set (cw := (w / 2)%nat) in *. set (ch := (h / 2)%nat) in *.
  assert (2 * cw ≤ w)%nat by (unfold cw; pose proof (Nat.div_mod_eq w 2); lia).
  assert (2 * ch ≤ h)%nat by (unfold ch; pose proof (Nat.div_mod_eq h 2); lia).
  assert (∀ n, (2 * n + 1) / 2 = n)%nat as Hhalf by (intros n; symmetry; apply (Nat.div_unique _ 2 n 1); lia).
  assert (∀ n, (2 * n) / 2 = n)%nat as Hhalf' by (intros n; symmetry; apply (Nat.div_unique _ 2 n 0); lia).
  unfold for_step2, ow, oh. rewrite !Hhalf.
  rewrite (loop_ext _ _ _ (λ y '(u, v),
    u' ← for_range cw (λ x, splice (y * cw + x) [chroma_u (block_mean data w y x)]) u;
    v' ← for_range cw (λ x, splice (y * cw + x) [chroma_v (block_mean data w y x)]) v; Some (u', v'))).
  - rewrite loop_pair.
    assert (∀ (f : nat → nat → Z) out, length out = (ch * cw)%nat →
      loop ch 0 (λ y, for_range cw (λ x, splice (y * cw + x) [f y x])) out = Some (grid cw ch (λ y x, [f y x]))) as Hfill.
    { intros f out Ho. apply (fill_grid cw ch 1 (λ y x, [f y x]) (λ y x, splice (y * cw + x) [f y x]));
        [done|intros; f_equal; lia|lia]. }
    rewrite (Hfill (λ y x, chroma_u (block_mean data w y x))), (Hfill (λ y x, chroma_v (block_mean data w y x))) by done. done.
  - intros y [a b] Hy. unfold for_range. rewrite <- loop_pair. apply loop_ext. intros x [a' b'] Hx.
    destruct (block_in data w h y x) as (r & g & bl & -> & ->); [done|lia|lia|]. cbn [mbind option_bind].
    by rewrite !Hhalf'.
Qed.

(** Brightness and colour stay in the range of studio video, so clamping never changes
    them. *)
Definition byte (b : Z) : Prop := 0 ≤ b ≤ 255.
Definition byte_rgb (p : Rgb) : Prop := let '(r, g, b) := p in byte r ∧ byte g ∧ byte b.
Lemma colours_in_range p : byte_rgb p → 16 ≤ luma p ≤ 235 ∧ 16 ≤ chroma_u p ≤ 240 ∧ 16 ≤ chroma_v p ≤ 240.
Proof.
  destruct p as [[r g] b]. unfold byte_rgb, byte, luma, chroma_u, chroma_v, clamp_u8. intros (Hr & Hg & Hb).
  rewrite !Z.shiftr_div_pow2 by lia. change (2 ^ 8) with 256.
  pose proof (Z.div_mod (66 * r + 129 * g + 25 * b + 128) 256 ltac:(lia)).
  pose proof (Z.div_mod (-38 * r - 74 * g + 112 * b + 128) 256 ltac:(lia)).
  pose proof (Z.div_mod (112 * r - 94 * g - 18 * b + 128) 256 ltac:(lia)).
  pose proof (Z.mod_pos_bound (66 * r + 129 * g + 25 * b + 128) 256 ltac:(lia)).
  pose proof (Z.mod_pos_bound (-38 * r - 74 * g + 112 * b + 128) 256 ltac:(lia)).
  pose proof (Z.mod_pos_bound (112 * r - 94 * g - 18 * b + 128) 256 ltac:(lia)). lia.
Qed.
Lemma pixel_bytes data w y x : Forall byte data → byte_rgb (pixel_at data w y x).
Proof.
  intros Hd. assert (∀ i, byte (data !!! i)) as Hi.
  { intros i. rewrite list_lookup_total_alt. destruct (data !! i) eqn:Hl; [|done]. by eapply Forall_lookup_1. }
  unfold pixel_at, byte_rgb. by split_and!.
Qed.
Lemma block_bytes data w y x : Forall byte data → byte_rgb (block_mean data w y x).
Proof.
  intros Hd. unfold block_mean. cbv zeta.
  pose proof (pixel_bytes data w (2 * y + 0) (2 * x + 0) Hd) as H1. pose proof (pixel_bytes data w (2 * y + 0) (2 * x + 1) Hd) as H2.
  pose proof (pixel_bytes data w (2 * y + 1) (2 * x + 0) Hd) as H3. pose proof (pixel_bytes data w (2 * y + 1) (2 * x + 1) Hd) as H4.
  destruct (pixel_at data w _ _) as [[r1 g1] b1], (pixel_at data w _ _) as [[r2 g2] b2], (pixel_at data w _ _) as [[r3 g3] b3],
    (pixel_at data w _ _) as [[r4 g4] b4]. cbn in *. unfold byte in *.
  split_and!; (apply Z.div_pos; lia) || (apply Z.div_le_upper_bound; lia).
Qed.
Lemma grid_forall (P : Z → Prop) w h val : (∀ y x, Forall P (val y x)) → Forall P (grid w h val).
Proof. intros Hv. unfold grid. apply Forall_concat, Forall_map, Forall_true. intros y. by apply Forall_concat, Forall_map, Forall_true. Qed.

(** C32: The conversion to I420 reads inside the frame and writes inside its planes for every
    size and every buffer, so it never panics; it refuses exactly the frames without
    two by two pixels and the buffers that are too short; and what it returns is, cell
    by cell, the brightness of every pixel and the mean colour of every block of four
    of the frame cut to even sides, all within the range of studio video. *)
Theorem i420_conversion_exact (data : list Z) (width height : Z) :
  Forall byte data → 0 ≤ width < u32_modulus → 0 ≤ height < u32_modulus →
  let fits := (2 <=? width) && (2 <=? height) && (width * height * 4 <? u64_modulus) &&
              (width * height * 4 <=? Z.of_nat (length data)) in
  let picture := i420_picture data (Z.to_nat width) (Z.to_nat height) in
  rgba_to_i420 data width height =
    Some (if fits then Some (picture, 2 * (width / 2), 2 * (height / 2)) else None) ∧
  Forall (λ b, 16 ≤ b ≤ 240) picture.
Proof.
  intros Hd Hw Hh fits picture. split.
  2: { pose proof (λ w y x, colours_in_range _ (pixel_bytes data w y x Hd)) as Hp.
       pose proof (λ w y x, colours_in_range _ (block_bytes data w y x Hd)) as Hb.
       unfold picture, i420_picture. rewrite !Forall_app. split_and!; apply grid_forall; intros y x; apply Forall_singleton;
         [specialize (Hp (Z.to_nat width) y x)|specialize (Hb (Z.to_nat width) y x)..]; lia. }
  unfold rgba_to_i420. rewrite !ldiff_even. cbv zeta.
  destruct (decide (2 ≤ width ∧ 2 ≤ height)) as [[Hw2 Hh2]|Hsmall].
  2: { assert (fits = false) as ->.
       { unfold fits. destruct (Z.leb_spec 2 width), (Z.leb_spec 2 height); try done. lia. }
       assert (width / 2 = 0 ∨ height / 2 = 0) as Hz.
       { destruct (decide (2 ≤ width)); [right|left]; apply Z.div_small; lia. }
       rewrite (proj2 (orb_true_iff _ _)); [done|]. rewrite !Z.eqb_eq. lia. }
  assert (1 ≤ width / 2 ∧ 1 ≤ height / 2) as [Hw1 Hh1] by (split; apply Z.div_le_lower_bound; lia).
  rewrite (proj2 (orb_false_iff _ _)) by (rewrite !Z.eqb_neq; lia). unfold fits. rewrite !(proj2 (Z.leb_le 2 _)) by lia. cbn [andb].
  pose proof (Z.mul_div_le width 2 ltac:(lia)). pose proof (Z.mul_div_le height 2 ltac:(lia)).
  assert (2 * (width / 2) * (2 * (height / 2)) ≤ width * height) by nia.
  unfold checked_mul. destruct (Z.ltb_spec (width * height * 4) u64_modulus) as [Hlt|Hge].
  2: { destruct (Z.ltb_spec (width * height) u64_modulus); cbn [mbind option_bind]; [|done]. by rewrite (proj2 (Z.ltb_ge _ _)). }
  rewrite (proj2 (Z.ltb_lt (width * height) _)) by nia. cbn [mbind option_bind]. rewrite (proj2 (Z.ltb_lt _ _) Hlt).
  rewrite (proj2 (Z.ltb_lt (2 * (width / 2) * (2 * (height / 2))) _)) by nia. cbn [andb].
  destruct (Z.ltb_spec (Z.of_nat (length data)) (width * height * 4)) as [Hs|Hs].
  { by rewrite (proj2 (Z.leb_gt _ _)). }
  rewrite (proj2 (Z.leb_le _ _)) by done.
  set (w := Z.to_nat width). set (h := Z.to_nat height).
  assert (Z.to_nat (2 * (width / 2)) = 2 * (w / 2))%nat as -> by (unfold w; rewrite Z2Nat.inj_mul, Z2Nat.inj_div by lia; done).
  assert (Z.to_nat (2 * (height / 2)) = 2 * (h / 2))%nat as -> by (unfold h; rewrite Z2Nat.inj_mul, Z2Nat.inj_div by lia; done).
  assert (w * h * 4 ≤ length data)%nat by (unfold w, h; nia).
  rewrite luma_loop; [|done|]. 2: { rewrite length_replicate, Z2Nat.inj_mul, !(Z2Nat.inj_mul 2), !Z2Nat.inj_div by lia. change (Z.to_nat 2) with 2%nat. unfold w, h. lia. }
  cbn [mbind option_bind]. rewrite chroma_loop; [done|done|..].
  all: rewrite length_replicate; replace (2 * (width / 2) * (2 * (height / 2)) / 4) with (width / 2 * (height / 2))
         by (apply Z.div_unique_exact; lia); rewrite Z2Nat.inj_mul, !Z2Nat.inj_div by lia; change (Z.to_nat 2) with 2%nat; unfold w, h; lia.
Qed.

(** ** Resolution (frame_processor.rs) *)

(** [CapturedFrame]. *)
Record CapturedFrame : Type := mkCapturedFrame {
  fr_width : Z;
  fr_height : Z;
  fr_data : list Z;
  fr_timestamp_ms : Z
}.

(** [x.round() as u32]: to the nearest integer, halves away from zero. *)
Definition round_as_u32 (x : spec_float) : Z :=
  match x with
  | S754_finite false m e =>
      Z.min 4294967295 (if 0 <=? e then Z.pos m * 2 ^ e else (2 * Z.pos m + 2 ^ (- e)) / (2 * 2 ^ (- e)))
  | S754_infinity false => 4294967295
  | _ => 0
  end.

(** [&data[i..i + n]]. *)
Definition slice (data : list Z) (i n : nat) : option (list Z) :=
  if (i + n <=? length data)%nat then Some (take n (drop i data)) else None.

(** A position of the scaled picture in the source: [(i * ratio) >> 32], cut to the last
    row or column; the subtraction underflows for an empty source. *)
Definition source_pos (i : nat) (ratio : Z) (size : nat) : option nat :=
  p ← checked_mul (Z.of_nat i) ratio;
  if (size =? 0)%nat then None else Some (Nat.min (Z.to_nat (Z.shiftr p 32)) (size - 1)).

(** The sides a frame is scaled to. *)
Definition capped_sides (width height max_width max_height : Z) : Z * Z :=
  let scale_x := F64.div (F64.of_Z max_width) (F64.of_Z width) in
  let scale_y := F64.div (F64.of_Z max_height) (F64.of_Z height) in
  let scale := fmin scale_x scale_y in
  (Z.max (round_as_u32 (F64.mul (F64.of_Z width) scale)) 1,
   Z.max (round_as_u32 (F64.mul (F64.of_Z height) scale)) 1).

(** [cap_resolution]. *)
Definition cap_resolution (frame : CapturedFrame) (max_width max_height : Z) : option CapturedFrame :=
  if (fr_width frame <=? max_width) && (fr_height frame <=? max_height) then Some frame
  else
    let '(new_width, new_height) := capped_sides (fr_width frame) (fr_height frame) max_width max_height in
    let src_w := Z.to_nat (fr_width frame) in
    let src_h := Z.to_nat (fr_height frame) in
    let dst_w := Z.to_nat new_width in
    let dst_h := Z.to_nat new_height in
    let x_ratio := Z.shiftl (fr_width frame) 32 / new_width in
    let y_ratio := Z.shiftl (fr_height frame) 32 / new_height in
    pixels ← checked_mul new_width new_height;
    bytes ← checked_mul pixels 4;
    out ← for_range dst_h (λ dst_y out,
      src_y ← source_pos dst_y y_ratio src_h;
      for_range dst_w (λ dst_x out,
        src_x ← source_pos dst_x x_ratio src_w;
        px ← slice (fr_data frame) (src_y * src_w * 4 + src_x * 4) 4;
        splice (dst_y * dst_w * 4 + dst_x * 4) px out) out) (replicate (Z.to_nat bytes) 0);
    Some (mkCapturedFrame new_width new_height out (fr_timestamp_ms frame)).

(** ** The cap holds *)

Lemma round_at_most x n : 0 ≤ n → at_most x (4 * n + 1) 2 → round_as_u32 x ≤ n.
Proof.
  intros Hn [->|(m & e & -> & He & Hm)]; [done|]. change (- (2)) with (-2) in *. cbn [round_as_u32]. rewrite (proj2 (Z.leb_gt _ _)) by lia.
  etransitivity; [apply Z.le_min_r|]. apply Z.lt_succ_r, Z.div_lt_upper_bound; [pose proof (Z.pow_pos_nonneg 2 (- e)); lia|].
  replace (- e) with (2 + (- 2 - e)) by lia. rewrite Z.pow_add_r by lia. change (2 ^ 2) with 4.
  pose proof (Z.pow_pos_nonneg 2 (- 2 - e) ltac:(lia) ltac:(lia)). nia.
Qed.

(** One side, scaled by no more than its own ratio or by no more than one. *)
Lemma side_fits size cap scale :
  0 < size < 2 ^ 32 → 0 < cap < 2 ^ 32 →
  (if size <=? cap then at_most scale (2 ^ 34) 34 else at_most scale ((cap * 2 ^ 34 + size - 1) / size) 34) →
  1 ≤ Z.max (round_as_u32 (F64.mul (F64.of_Z size) scale)) 1 ≤ cap.
Proof.
  intros Hs Hc Hm. split; [lia|]. apply Z.max_lub; [|lia]. apply round_at_most; [lia|].
  destruct (Z.leb_spec size cap) as [Hle|Hgt].
  - apply (mul_at_most _ _ (2 ^ 34) 34); [lia|done|lia|lia|lia|]. nia.
  - apply (mul_at_most _ _ ((cap * 2 ^ 34 + size - 1) / size) 34); [lia|done|lia|lia|lia|].
    pose proof (Z.mul_div_le (cap * 2 ^ 34 + size - 1) size ltac:(lia)). lia.
Qed.
Lemma ratio_at_most size cap :
  0 < size < 2 ^ 32 → 0 < cap < size →
  at_most (F64.div (F64.of_Z cap) (F64.of_Z size)) ((cap * 2 ^ 34 + size - 1) / size) 34 ∧
  at_most (F64.div (F64.of_Z cap) (F64.of_Z size)) (2 ^ 34) 34.
Proof.
  intros Hs Hc. split; apply div_at_most; try lia.
  - split; [apply Z.div_str_pos; lia|apply Z.div_lt_upper_bound; lia].
  - pose proof (Z.mul_succ_div_gt (cap * 2 ^ 34 + size - 1) size ltac:(lia)).
    pose proof (Z.div_mod (cap * 2 ^ 34 + size - 1) size ltac:(lia)).
    pose proof (Z.mod_pos_bound (cap * 2 ^ 34 + size - 1) size ltac:(lia)). lia.
Qed.

Lemma capped_sides_fit w h mw mh :
  0 < w < 2 ^ 32 → 0 < h < 2 ^ 32 → 0 < mw < 2 ^ 32 → 0 < mh < 2 ^ 32 → (w <=? mw) && (h <=? mh) = false →
  let '(nw, nh) := capped_sides w h mw mh in 1 ≤ nw ≤ mw ∧ 1 ≤ nh ≤ mh.
Proof.
  intros Hw Hh Hmw Hmh Hno. unfold capped_sides. cbv zeta.
  pose proof (quotient_of mw w Hmw Hw) as Hqx. pose proof (quotient_of mh h Hmh Hh) as Hqy.
  assert (∀ n k, at_most (F64.div (F64.of_Z mw) (F64.of_Z w)) n k ∨ at_most (F64.div (F64.of_Z mh) (F64.of_Z h)) n k →
    at_most (fmin (F64.div (F64.of_Z mw) (F64.of_Z w)) (F64.div (F64.of_Z mh) (F64.of_Z h))) n k) as Hmin
    by (intros n k; by apply at_most_min).
  apply andb_false_iff in Hno. rewrite !Z.leb_gt in Hno.
  split; apply side_fits; try done.
  - destruct (Z.leb_spec w mw); apply Hmin; [right; apply ratio_at_most; lia|left; apply ratio_at_most; lia].
  - destruct (Z.leb_spec h mh); apply Hmin; [left; apply ratio_at_most; lia|right; apply ratio_at_most; lia].
Qed.

(** The row or column of the source shown at [i] of a side scaled from [size] to [n]. *)
Definition sample (size n : Z) (i : nat) : nat := Z.to_nat (Z.of_nat i * (size * 2 ^ 32 / n) / 2 ^ 32).
Lemma sample_in size n i :
  0 < size < 2 ^ 32 → 0 < n → Z.of_nat i < n →
  source_pos i (Z.shiftl size 32 / n) (Z.to_nat size) = Some (sample size n i) ∧ (sample size n i < Z.to_nat size)%nat.
Proof.
  intros Hs Hn Hi. unfold source_pos, sample. rewrite Z.shiftl_mul_pow2 by lia. set (ratio := size * 2 ^ 32 / n).
  assert (0 ≤ ratio) by (apply Z.div_pos; lia).
  assert (n * ratio ≤ size * 2 ^ 32) by (apply Z.mul_div_le; lia).
  assert (Z.of_nat i * ratio < size * 2 ^ 32).
  { destruct (decide (ratio = 0)) as [->|]; [lia|]. assert (Z.of_nat i * ratio < n * ratio) by (apply Z.mul_lt_mono_pos_r; lia). lia. }
  assert (0 ≤ Z.of_nat i * ratio) by (apply Z.mul_nonneg_nonneg; lia).
  assert (Z.of_nat i * ratio / 2 ^ 32 < size) by (apply Z.div_lt_upper_bound; lia).
  assert (0 ≤ Z.of_nat i * ratio / 2 ^ 32) by (apply Z.div_pos; lia).
  unfold checked_mul. rewrite (proj2 (Z.ltb_lt _ _)) by (unfold u64_modulus; lia). cbn [mbind option_bind].
  rewrite (proj2 (Nat.eqb_neq _ _)) by lia. rewrite Z.shiftr_div_pow2 by lia. split; [|lia]. f_equal. lia.
Qed.

(** Capping the resolution never panics on a complete frame and never exceeds the cap,
    whatever the rounding of the scale in binary64: a frame within the cap is returned
    as it is, and a larger one becomes a picture within the cap whose every pixel is
    the pixel of the source at the scaled position. *)
Theorem capped_frames_fit (frame : CapturedFrame) (max_width max_height : Z) :
  let w := fr_width frame in let h := fr_height frame in
  0 < w < u32_modulus → 0 < h < u32_modulus → 0 < max_width < u32_modulus → 0 < max_height < u32_modulus →
  w * h * 4 ≤ Z.of_nat (length (fr_data frame)) → max_width * max_height * 4 < u64_modulus →
  ∃ out, cap_resolution frame max_width max_height = Some out ∧
    0 < fr_width out ≤ max_width ∧ 0 < fr_height out ≤ max_height ∧ fr_timestamp_ms out = fr_timestamp_ms frame ∧
    if (w <=? max_width) && (h <=? max_height) then out = frame
    else
      let w' := fr_width out in let h' := fr_height out in
      fr_data out = grid (Z.to_nat w') (Z.to_nat h') (λ y x,
        take 4 (drop ((sample h h' y * Z.to_nat w + sample w w' x) * 4) (fr_data frame))) ∧
      Z.of_nat (length (fr_data out)) = w' * h' * 4.
Proof.
  intros w h Hw Hh Hmw Hmh Hdata Hcap. change u32_modulus with (2 ^ 32) in *. unfold cap_resolution. fold w h.
  destruct ((w <=? max_width) && (h <=? max_height)) eqn:Hfit.
  { exists frame. apply andb_true_iff in Hfit as [?%Z.leb_le ?%Z.leb_le]. by fold w h; split_and!; try lia. }
  pose proof (capped_sides_fit w h max_width max_height Hw Hh Hmw Hmh Hfit) as Hsides.
  destruct (capped_sides w h max_width max_height) as [nw nh]. destruct Hsides as [Hnw Hnh].
  assert (nw * nh * 4 < u64_modulus) by nia.
  unfold checked_mul at 1 2. rewrite (proj2 (Z.ltb_lt (nw * nh) _)) by lia. cbn [mbind option_bind].
  rewrite (proj2 (Z.ltb_lt (nw * nh * 4) _)) by lia. cbn [mbind option_bind].
  replace (Z.to_nat (nw * nh * 4)) with (Z.to_nat nw * Z.to_nat nh * 4)%nat by (rewrite !Z2Nat.inj_mul by lia; lia).
  set (val := λ y x, take 4 (drop ((sample h nh y * Z.to_nat w + sample w nw x) * 4) (fr_data frame))).
  assert (∀ y x, (y < Z.to_nat nh)%nat → (x < Z.to_nat nw)%nat →
    ((sample h nh y * Z.to_nat w + sample w nw x) * 4 + 4 ≤ length (fr_data frame))%nat) as Hin.
  { intros y x Hy Hx. destruct (sample_in h nh y Hh ltac:(lia) ltac:(lia)) as [_ Hsy].
    destruct (sample_in w nw x Hw ltac:(lia) ltac:(lia)) as [_ Hsx].
    assert (Z.to_nat w * Z.to_nat h * 4 ≤ length (fr_data frame))%nat by nia. nia. }
  assert (∀ y x, (y < Z.to_nat nh)%nat → (x < Z.to_nat nw)%nat → length (val y x) = 4%nat) as Hlen.
  { intros y x Hy Hx. specialize (Hin y x Hy Hx). unfold val. rewrite length_take, length_drop. lia. }
  destruct (fill_grid (Z.to_nat nw) (Z.to_nat nh) 4 val
    (λ y x, splice ((y * Z.to_nat nw + x) * 4) (val y x)) (replicate (Z.to_nat nw * Z.to_nat nh * 4) 0)) as [Hfill Hgl];
    [done|done|rewrite length_replicate; lia|]. rewrite length_replicate in Hgl.
  unfold for_range at 1. rewrite (loop_ext _ _ _ (λ y, for_range (Z.to_nat nw) (λ x, splice ((y * Z.to_nat nw + x) * 4) (val y x)))).
  - unfold for_range at 1 in Hfill. rewrite Hfill. cbn [mbind option_bind]. eexists. split; [done|]. cbn. split_and!; try done; lia.
  - intros y out Hy. destruct (sample_in h nh y Hh ltac:(lia) ltac:(lia)) as [-> _]. cbn [mbind option_bind].
    apply loop_ext. intros x o Hx. destruct (sample_in w nw x Hw ltac:(lia) ltac:(lia)) as [-> _]. cbn [mbind option_bind].
    specialize (Hin y x ltac:(lia) ltac:(lia)). unfold slice. rewrite (proj2 (Nat.leb_le _ _)) by lia. cbn [mbind option_bind].
    unfold val. f_equal; [lia|]. do 2 f_equal. lia.
Qed.

Lemma capped_frames_fit_witness :
  let frame := mkCapturedFrame 3 2 (map Z.of_nat (seq 0 24)) 7 in
  match cap_resolution frame 2 2 with
  | Some out => out = mkCapturedFrame 2 1 [0; 1; 2; 3; 4; 5; 6; 7] 7
  | None => False
  end ∧
  ∃ out, cap_resolution frame 2 2 = Some out ∧ 0 < fr_width out ≤ 2 ∧ 0 < fr_height out ≤ 2.
Proof.
  cbv zeta. split; [vm_compute; reflexivity|].
  destruct (capped_frames_fit (mkCapturedFrame 3 2 (map Z.of_nat (seq 0 24)) 7) 2 2) as (out & Hout & Hw & Hh & _);
    cbn; try (unfold u32_modulus, u64_modulus; lia).
  exists out. auto.
Defined.

Lemma i420_conversion_exact_witness :
  rgba_to_i420 [255; 0; 0; 255; 255; 0; 0; 255; 255; 0; 0; 255; 255; 0; 0; 255] 2 2 =
    Some (Some ([82; 82; 82; 82; 90; 240], 2, 2)) ∧
  Forall (λ b, 16 ≤ b ≤ 240)
    (i420_picture [255; 0; 0; 255; 255; 0; 0; 255; 255; 0; 0; 255; 255; 0; 0; 255] (Z.to_nat 2) (Z.to_nat 2)).
Proof.
  split; [vm_compute; reflexivity|].
  apply (i420_conversion_exact [255; 0; 0; 255; 255; 0; 0; 255; 255; 0; 0; 255; 255; 0; 0; 255] 2 2);
    [repeat constructor; discriminate|unfold u32_modulus; lia..].
Defined.

(** A cap below the height of a very wide frame leaves a row. *)
Example thin_frame : capped_sides 65535 10 1920 1080 = (1920, 1).
Proof. vm_compute. reflexivity. Qed.

(** A frame without pixels that is too high is not capped: the subtraction from its
    width underflows. *)
Example empty_frame_panics : cap_resolution (mkCapturedFrame 0 2000 [] 0) 1920 1080 = None.
Proof. vm_compute. reflexivity. Qed.
