(* ===== verification/ShareStream.v ===== *)
(** * Watching a screen share on the desktop
    (clients/wavis-gui/src-tauri/src/media.rs, bug_report.rs)

    On Linux the desktop client keeps the newest frame of every remote share and
    serves it to its web view over a local HTTP server.  Modelled are the URL of a
    stream and the request it leads to, the store of frames with its sequence
    numbers, the streams that read it, the headers of raw frames, and the buffer of
    log lines for bug reports.  Encoding to JPEG is a parameter. *)

From Stdlib Require Import Ascii Sorting.Sorted.
From stdpp Require Import pretty.
From S2P Require Import Prelude Signaling FieldValidation SfuBridge Tokens SfuRelay Config Commands.
Local Open Scope Z_scope.

(** ** UTF-8 ([String::from_utf8], [from_utf8_lossy]) *)

Definition byte_in (lo hi : nat) (c : ascii) : bool :=
  let n := nat_of_ascii c in (lo <=? n)%nat && (n <=? hi)%nat.

(** The sequence at the start of a text: the bytes it takes, and whether it is a
    character. *)
Definition utf8_tail (lo hi more : nat) (s : string) : nat * bool :=
  match s with
  | String a s1 =>
      if byte_in lo hi a then
        match more, s1 with
        | O, _ => (2%nat, true)
        | 1%nat, String b _ => if byte_in 128 191 b then (3%nat, true) else (2%nat, false)
        | _, String b (String c _) =>
            if byte_in 128 191 b then if byte_in 128 191 c then (4%nat, true) else (3%nat, false) else (2%nat, false)
        | _, String b EmptyString => if byte_in 128 191 b then (3%nat, false) else (2%nat, false)
        | _, EmptyString => (2%nat, false)
        end
      else (1%nat, false)
  | EmptyString => (1%nat, false)
  end.
Definition utf8_char (c : ascii) (s : string) : nat * bool :=
  if byte_in 0 127 c then (1%nat, true)
  else if byte_in 194 223 c then utf8_tail 128 191 0 s
  else if byte_in 224 224 c then utf8_tail 160 191 1 s
  else if byte_in 237 237 c then utf8_tail 128 159 1 s
  else if byte_in 225 239 c then utf8_tail 128 191 1 s
  else if byte_in 240 240 c then utf8_tail 144 191 2 s
  else if byte_in 241 243 c then utf8_tail 128 191 2 s
  else if byte_in 244 244 c then utf8_tail 128 143 2 s
  else (1%nat, false).

(** As many rounds as bytes are enough: every round takes a byte. *)
Fixpoint valid_from (fuel : nat) (s : string) : bool :=
  match fuel, s with
  | _, EmptyString => true
  | O, _ => false
  | S n, String c s' => let '(k, ok) := utf8_char c s' in ok && valid_from n (skip_bytes k s)
  end.
Definition valid_utf8 (s : string) : bool := valid_from (String.length s) s.
Definition from_utf8 (s : string) : option string := if valid_utf8 s then Some s else None.

Definition replacement : string := utf8 [239; 191; 189]%nat.
Fixpoint lossy_from (fuel : nat) (s : string) : string :=
  match fuel, s with
  | _, EmptyString => EmptyString
  | O, _ => EmptyString
  | S n, String c s' =>
      let '(k, ok) := utf8_char c s' in
      (if ok then String.substring 0 k s else replacement) +:+ lossy_from n (skip_bytes k s)
  end.
Definition from_utf8_lossy (s : string) : string := lossy_from (String.length s) s.

Example lossy_cuts_maximal :
  from_utf8_lossy (utf8 [97; 226; 130; 98; 192; 195; 169]%nat) = "a" +:+ replacement +:+ "b" +:+ replacement +:+ utf8 [195; 169]%nat.
Proof. vm_compute. reflexivity. Qed.

(** ** Percent encoding *)

(** [is_ascii_alphanumeric] or one of [-_.~]. *)
Definition unreserved (c : ascii) : bool :=
  byte_in 48 57 c || byte_in 65 90 c || byte_in 97 122 c ||
  Ascii.eqb c "-" || Ascii.eqb c "_" || Ascii.eqb c "." || Ascii.eqb c "~".

(** A hex digit, and [to_digit(16)]. *)
Definition hex_digit (n : nat) : ascii := ascii_of_nat (if (n <? 10)%nat then 48 + n else 55 + n).
Definition to_digit16 (c : ascii) : option nat :=
  let n := nat_of_ascii c in
  if byte_in 48 57 c then Some (n - 48)%nat
  else if byte_in 65 70 c then Some (n - 55)%nat
  else if byte_in 97 102 c then Some (n - 87)%nat
  else None.

(** [percent_encode], [percent_decode]. *)
Fixpoint percent_encode (value : string) : string :=
  match value with
  | EmptyString => EmptyString
  | String c s =>
      if unreserved c then String c (percent_encode s)
      else
        let n := nat_of_ascii c in
        String "%" (String (hex_digit (n / 16)) (String (hex_digit (n mod 16)) (percent_encode s)))
  end.
Fixpoint decode_bytes (s : string) : option string :=
  match s with
  | EmptyString => Some EmptyString
  | String "%" (String a (String b rest)) =>
      hi ← to_digit16 a;
      lo ← to_digit16 b;
      String (ascii_of_nat (hi * 16 + lo)) <$> decode_bytes rest
  | String "+" rest => String " " <$> decode_bytes rest
  | String c rest => String c <$> decode_bytes rest
  end.
Definition percent_decode (value : string) : option string := decode_bytes value ≫= from_utf8.

(** ** The request *)

(** [split_once]. *)
Fixpoint split_once (c : ascii) (s : string) : option (string * string) :=
  match s with
  | EmptyString => None
  | String a s' =>
      if Ascii.eqb a c then Some (EmptyString, s')
      else '(x, y) ← split_once c s'; Some (String a x, y)
  end.

(** [query_param]. *)
Definition query_param (query key : string) : option string :=
  head (omap (λ pair, '(k, v) ← split_once "=" pair; if String.eqb k key then Some v else None)
          (split_on "&" query)).

(** [lines().next()]: up to a line feed, without the carriage return before it. *)
Fixpoint strip_cr (s : string) : string :=
  match s with
  | EmptyString => EmptyString
  | String "013" EmptyString => EmptyString
  | String c s' => String c (strip_cr s')
  end.
Definition first_line (s : string) : option string :=
  match s with
  | EmptyString => None
  | _ => match split_once "010" s with Some (line, _) => Some (strip_cr line) | None => Some s end
  end.

(** [handle_remote_screen_share_stream] up to the answer: whose share is asked for, and
    whether as raw frames.  [req] is what was read of the request, which is all of it
    unless it exceeds 16 KiB. *)
Definition request_target (req : string) : string :=
  default "/"%string (first_line (from_utf8_lossy req) ≫= λ line, split_whitespace line !! 1%nat).
Definition stream_request (req : string) : Result (string * bool) string :=
  let target := request_target req in
  match '(_, query) ← split_once "?" target; query_param query "identity" ≫= percent_decode with
  | None => Err "missing identity query"
  | Some identity =>
      let use_raw := match '(_, query) ← split_once "?" target; query_param query "format" with
                     | Some v => String.eqb v "raw" | None => false end in
      Ok (identity, use_raw)
  end%string.

(** [media_get_screen_share_stream_url] and [.._raw_stream_url]: the address of the server,
    and what a request to it asks for. *)
Definition stream_target (identity : string) (raw : bool) : string :=
  if raw then "/screen-share.raw?identity=" +:+ percent_encode identity +:+ "&format=raw"
  else "/screen-share.mjpeg?identity=" +:+ percent_encode identity.
Definition stream_url (port : Z) (identity : string) (raw : bool) : Result string string :=
  if port =? 0 then Err "remote screen share stream server is unavailable"%string
  else Ok ("http://127.0.0.1:" +:+ show_num port +:+ stream_target identity raw).

(** ** The request finds the share *)

Fixpoint all_chars (P : ascii → bool) (s : string) : bool :=
  match s with EmptyString => true | String c s' => P c && all_chars P s' end.
Lemma all_chars_app P s t : all_chars P (s +:+ t) = all_chars P s && all_chars P t.
Proof. induction s as [|c s IH]; [done|]. rewrite append_cons. cbn. by rewrite IH, andb_assoc. Qed.
Lemma all_chars_mono (P Q : ascii → bool) s :
  (∀ c, P c = true → Q c = true) → all_chars P s = true → all_chars Q s = true.
Proof.
  intros HPQ. induction s as [|c s IH]; cbn; [done|]. intros [Hc Hs]%andb_true_iff.
  by rewrite (HPQ c Hc), (IH Hs).
Qed.

(** All the properties of single bytes below are checked on every byte. *)
Lemma ascii_forall (P : ascii → bool) :
  forallb (λ n, P (ascii_of_nat n)) (seq 0 256) = true → ∀ c, P c = true.
Proof.
  intros Hall c. rewrite forallb_forall in Hall. rewrite <- (ascii_nat_embedding c). apply Hall, in_seq.
  pose proof (nat_ascii_bounded c). lia.
Qed.

Definition visible (c : ascii) : bool := byte_in 33 126 c.
Definition is_not (c a : ascii) : bool := negb (Ascii.eqb a c).

(** What an encoded text consists of. *)
Definition encoded_char (c : ascii) : bool := unreserved c || Ascii.eqb c "%".
Lemma percent_encode_chars s : all_chars encoded_char (percent_encode s) = true.
Proof.
  assert (∀ c, encoded_char (hex_digit (nat_of_ascii c / 16)) && encoded_char (hex_digit (nat_of_ascii c mod 16)) = true)
    as Hhex by (apply (ascii_forall (λ c, encoded_char (hex_digit (nat_of_ascii c / 16)) &&
                                           encoded_char (hex_digit (nat_of_ascii c mod 16)))); vm_compute; reflexivity).
  induction s as [|c s IH]; [done|]. cbn [percent_encode]. destruct (unreserved c) eqn:Hc; cbn [all_chars].
  - unfold encoded_char at 1. by rewrite Hc, IH.
  - specialize (Hhex c). apply andb_true_iff in Hhex as [-> ->]. by rewrite IH.
Qed.

Lemma decode_plain c t :
  encoded_char c = true → c ≠ "%"%char → decode_bytes (String c t) = String c <$> decode_bytes t.
Proof. destruct c as [[] [] [] [] [] [] [] []]; cbn; try done. Qed.
Lemma hex_decodes c :
  to_digit16 (hex_digit (nat_of_ascii c / 16)) = Some (nat_of_ascii c / 16)%nat ∧
  to_digit16 (hex_digit (nat_of_ascii c mod 16)) = Some (nat_of_ascii c mod 16)%nat.
Proof.
  set (P c := bool_decide (to_digit16 (hex_digit (nat_of_ascii c / 16)) = Some (nat_of_ascii c / 16)%nat ∧
                to_digit16 (hex_digit (nat_of_ascii c mod 16)) = Some (nat_of_ascii c mod 16)%nat)).
  apply (bool_decide_eq_true_1 _). apply (ascii_forall P). vm_compute. reflexivity.
Qed.

Lemma decode_encode s : decode_bytes (percent_encode s) = Some s.
Proof.
  induction s as [|c s IH]; [done|]. cbn [percent_encode]. destruct (unreserved c) eqn:Hc.
  - rewrite decode_plain; [by rewrite IH|by unfold encoded_char; rewrite Hc|]. by intros ->.
  - cbn [decode_bytes]. destruct (hex_decodes c) as [-> ->]. rewrite IH.
    unfold mbind, option_bind, fmap, option_fmap, option_map.
    assert (nat_of_ascii c / 16 * 16 + nat_of_ascii c mod 16 = nat_of_ascii c)%nat as ->
      by (pose proof (Nat.div_mod_eq (nat_of_ascii c) 16); lia).
    by rewrite ascii_nat_embedding.
Qed.

(** Encoding and decoding a text is a round trip. *)
Lemma percent_roundtrip s : valid_utf8 s = true → percent_decode (percent_encode s) = Some s.
Proof. intros Hs. unfold percent_decode. rewrite decode_encode. cbn. unfold from_utf8. by rewrite Hs. Qed.

Lemma split_once_app c a b : all_chars (is_not c) a = true → split_once c (a +:+ String c b) = Some (a, b).
Proof.
  induction a as [|x a IH]; intros Ha.
  - rewrite append_nil. cbn. by rewrite Ascii.eqb_refl.
  - cbn in Ha. apply andb_true_iff in Ha as [Hx Ha]. rewrite append_cons. cbn.
    unfold is_not in Hx. apply negb_true_iff in Hx. by rewrite Hx, IH.
Qed.
Lemma split_on_one c s : all_chars (is_not c) s = true → split_on c s = [s].
Proof.
  induction s as [|x s IH]; [done|]. cbn. intros [Hx%negb_true_iff Hs]%andb_true_iff. by rewrite Hx, IH.
Qed.
Lemma split_on_app c a b : all_chars (is_not c) a = true → split_on c (a +:+ String c b) = a :: split_on c b.
Proof.
  induction a as [|x a IH]; intros Ha.
  - rewrite append_nil. cbn. by rewrite Ascii.eqb_refl.
  - cbn in Ha. apply andb_true_iff in Ha as [Hx%negb_true_iff Ha]. rewrite append_cons. cbn. by rewrite Hx, IH.
Qed.

(** Visible characters are no white space, and text in ASCII survives the lossy
    conversion. *)
Lemma visible_no_space s : all_chars visible s = true → no_space s = true.
Proof.
  induction s as [|c s IH]; [done|]. cbn [all_chars no_space]. intros [Hc Hs]%andb_true_iff. rewrite (IH Hs), andb_true_r.
  apply bool_decide_eq_true. rewrite eq_None_not_Some, strip_one_prefix. intros (p & Hp & Hps).
  assert (Forall (λ p, match p with EmptyString => False | String a _ => visible a = false end) (map utf8 whitespace)) as Hall
    by (repeat constructor).
  rewrite Forall_forall in Hall. specialize (Hall _ Hp). destruct p as [|a p]; [done|]. cbn in Hps.
  destruct (Ascii.ascii_dec a c) as [->|]; [|done]. congruence.
Qed.
Lemma lossy_ascii a b n :
  all_chars (byte_in 0 127) a = true → (String.length (a +:+ b) ≤ n)%nat →
  lossy_from n (a +:+ b) = a +:+ lossy_from (n - String.length a) b.
Proof.
  revert n. induction a as [|c a IH]; intros n Ha Hn.
  - rewrite !append_nil. by rewrite Nat.sub_0_r.
  - rewrite !append_cons in *. cbn [all_chars String.length] in Ha, Hn. apply andb_true_iff in Ha as [Hc Ha].
    destruct n as [|n]; [lia|]. cbn [lossy_from]. unfold utf8_char. rewrite Hc. cbn [skip_bytes].
    rewrite IH by (done || lia). by destruct (a +:+ b).
Qed.

(** What a client sends first when it opens the URL of a stream. *)
Definition crlf : string := utf8 [13; 10]%nat.
Definition http_get (target rest : string) : string := "GET " +:+ target +:+ " HTTP/1.1" +:+ crlf +:+ rest.

Lemma encoded_visible s (P : ascii → bool) :
  (∀ c, encoded_char c = true → P c = true) → all_chars P (percent_encode s) = true.
Proof. intros HP. eapply all_chars_mono; [exact HP|apply percent_encode_chars]. Qed.
Lemma ascii_implies (P Q : ascii → bool) :
  forallb (λ n, let c := ascii_of_nat n in implb (P c) (Q c)) (seq 0 256) = true → ∀ c, P c = true → Q c = true.
Proof.
  intros Hall c Hc. pose proof (ascii_forall (λ c, implb (P c) (Q c)) Hall c) as Hi. cbv beta in Hi.
  by rewrite Hc in Hi.
Qed.

Lemma append_assoc s t u : (s +:+ t) +:+ u = s +:+ (t +:+ u).
Proof. induction s as [|c s IH]; [done|]. by rewrite !append_cons, IH. Qed.

Lemma target_chars identity raw (P : ascii → bool) :
  forallb (λ n, let c := ascii_of_nat n in implb (encoded_char c) (P c)) (seq 0 256) = true →
  all_chars P "/screen-share.raw?identity=" = true → all_chars P "/screen-share.mjpeg?identity=" = true →
  all_chars P "&format=raw" = true → all_chars P (stream_target identity raw) = true.
Proof.
  intros HP Hr Hm Hf. pose proof (encoded_visible identity P (ascii_implies encoded_char P HP)) as He.
  unfold stream_target. destruct raw; rewrite !all_chars_app, ?Hr, ?Hm, ?He, ?Hf; done.
Qed.

Lemma strip_cr_app s : strip_cr (s +:+ String "013" EmptyString) = s.
Proof.
  induction s as [|c s IH]; [done|]. rewrite append_cons. cbn [strip_cr]. rewrite IH.
  assert (s +:+ String "013" EmptyString ≠ EmptyString) by (destruct s; discriminate).
  destruct c as [[] [] [] [] [] [] [] []]; try done. by destruct (s +:+ String "013" EmptyString).
Qed.
Lemma lossy_ascii_cons n c s : byte_in 0 127 c = true → lossy_from (S n) (String c s) = String c (lossy_from n s).
Proof. intros Hc. cbn [lossy_from]. unfold utf8_char. rewrite Hc. by destruct s. Qed.

Lemma request_target_get target rest :
  target ≠ EmptyString → all_chars visible target = true → request_target (http_get target rest) = target.
Proof.
  intros Hne Hv. unfold request_target, http_get, from_utf8_lossy.
  assert (all_chars (byte_in 0 127) target = true) as Ha.
  { eapply all_chars_mono; [|exact Hv]. by apply ascii_implies. }
  set (line := "GET " +:+ target +:+ " HTTP/1.1").
  assert ("GET " +:+ target +:+ " HTTP/1.1" +:+ crlf +:+ rest = (line +:+ String "013" EmptyString) +:+ String "010" rest) as ->.
  { unfold line, crlf. rewrite !append_assoc. done. }
  rewrite lossy_ascii; [|unfold line; rewrite !all_chars_app, Ha; done|rewrite !str_length_append; lia].
  assert (∃ n, (String.length ((line +:+ String "013" EmptyString) +:+ String "010" rest) -
                String.length (line +:+ String "013" EmptyString) = S n)%nat) as [n ->].
  { exists (String.length rest). rewrite str_length_append. cbn [String.length]. lia. }
  rewrite lossy_ascii_cons by done. unfold first_line. rewrite split_once_app.
  2: { unfold line. rewrite !all_chars_app. rewrite (all_chars_mono visible (is_not "010") target); [done| |done].
       by apply ascii_implies. }
  destruct ((line +:+ _) +:+ _) eqn:Hl; [by destruct line|]. cbn [default mbind option_bind]. rewrite strip_cr_app.
  assert (line = join_words ["GET"; target; "HTTP/1.1"]%string) as -> by done.
  rewrite split_whitespace_join; [done|]. repeat constructor; try done. by apply visible_no_space.
Qed.

(** C33: The URL handed to the web view names its share: whatever characters the identity
    of a participant has, the server that is asked for that URL, with any further
    headers, reads back exactly that identity and the kind of stream asked for. *)
Theorem stream_url_roundtrip (port : Z) (identity rest : string) (raw : bool) :
  valid_utf8 identity = true → port ≠ 0 →
  stream_url port identity raw = Ok ("http://127.0.0.1:" +:+ show_num port +:+ stream_target identity raw) ∧
  stream_request (http_get (stream_target identity raw) rest) = Ok (identity, raw).
Proof.
  intros Hid Hp. split; [unfold stream_url; by rewrite (proj2 (Z.eqb_neq _ _) Hp)|].
  unfold stream_request. rewrite request_target_get; [|by destruct raw|by apply target_chars].
  set (E := percent_encode identity).
  assert (all_chars (is_not "&") ("identity=" +:+ E) = true) as Hamp.
  { rewrite all_chars_app. unfold E. rewrite encoded_visible; [done|]. by apply ascii_implies. }
  assert (percent_decode E = Some identity) as Hd by by apply percent_roundtrip.
  assert (split_once "=" ("identity=" +:+ E) = Some ("identity"%string, E)) as Heq by (by apply (split_once_app "=" "identity")).
  unfold stream_target. fold E. destruct raw.
  - change ("/screen-share.raw?identity=" +:+ E +:+ "&format=raw")
      with ("/screen-share.raw" +:+ String "?" ("identity=" +:+ E +:+ "&format=raw")).
    rewrite (split_once_app "?" "/screen-share.raw" ("identity=" +:+ E +:+ "&format=raw")) by done. cbn [mbind option_bind].
    assert (split_on "&" ("identity=" +:+ E +:+ "&format=raw") = ["identity=" +:+ E; "format=raw"%string]) as Hs.
    { rewrite <- append_assoc. change "&format=raw"%string with (String "&" "format=raw"). rewrite (split_on_app "&" ("identity=" +:+ E) "format=raw") by done. by rewrite split_on_one. }
    unfold query_param. rewrite Hs. cbn [omap list_omap]. rewrite Heq. cbn. by rewrite Hd.
  - change ("/screen-share.mjpeg?identity=" +:+ E)
      with ("/screen-share.mjpeg" +:+ String "?" ("identity=" +:+ E)).
    rewrite (split_once_app "?" "/screen-share.mjpeg" ("identity=" +:+ E)) by done. cbn [mbind option_bind].
    unfold query_param. rewrite (split_on_one "&" ("identity=" +:+ E)) by done. cbn [omap list_omap]. rewrite Heq. cbn.
    by rewrite Hd.
Qed.

Lemma stream_url_roundtrip_witness :
  let identity := "a&b=c%?" +:+ utf8 [195; 169]%nat in
  (stream_url 4000 identity true = Ok ("http://127.0.0.1:" +:+ show_num 4000 +:+ stream_target identity true) ∧
   stream_request (http_get (stream_target identity true) EmptyString) = Ok (identity, true)) ∧
  stream_target identity true = "/screen-share.raw?identity=a%26b%3Dc%25%3F%C3%A9&format=raw".
Proof.
  split; [|vm_compute; reflexivity].
  exact (stream_url_roundtrip 4000 ("a&b=c%?" +:+ utf8 [195; 169]%nat) EmptyString true eq_refl ltac:(discriminate)).
Defined.

(** ** The frames *)

(** [LatestRemoteScreenShareFrame], and the store of [MediaState] with the counter of
    sequence numbers. *)
Record SharedFrame : Type := mkSharedFrame {
  sf_data : list Z;
  sf_width : Z;
  sf_height : Z;
  sf_seq : Z
}.
Record ShareStore : Type := mkShareStore { ss_frames : gmap string SharedFrame; ss_seq : Z }.
Definition share_store_new : ShareStore := mkShareStore ∅ 0.

(** The callback of [on_video_frame]: the frame kept, and whether the share is new. *)
Definition on_video_frame (identity : string) (rgba_data : list Z) (width height : Z) (st : ShareStore)
    : SharedFrame * bool * ShareStore :=
  let seq := (ss_seq st + 1) `mod` u64_modulus in
  let frame := mkSharedFrame rgba_data width height seq in
  (frame, negb (bool_decide (is_Some (ss_frames st !! identity))),
   mkShareStore (<[identity := frame]> (ss_frames st)) seq).

(** The callback of [on_video_track_ended], and what [media_disconnect] clears. *)
Definition on_video_track_ended (identity : string) (st : ShareStore) : ShareStore :=
  mkShareStore (delete identity (ss_frames st)) (ss_seq st).
Definition clear_frames (st : ShareStore) : ShareStore := mkShareStore ∅ (ss_seq st).

(** One round of the loop of a stream: the frame it writes, and the sequence number it
    remembers. *)
Definition stream_round (identity : string) (st : ShareStore) (last_seq : Z) : option SharedFrame * Z :=
  match ss_frames st !! identity with
  | None => (None, last_seq)
  | Some latest => if sf_seq latest =? last_seq then (None, last_seq) else (Some latest, sf_seq latest)
  end.

(** [media_poll_screen_share_frame] up to the encoding. *)
Definition poll_frame (identity : string) (last_seq : option Z) (st : ShareStore) : option SharedFrame :=
  latest ← ss_frames st !! identity;
  if bool_decide (last_seq = Some (sf_seq latest)) then None else Some latest.

(** What happens to the store while one viewer watches [identity]; every frame of
    every share is logged. *)
Inductive ShareEvent : Type :=
| FrameArrived (identity : string) (data : list Z) (width height : Z)
| TrackEnded (identity : string)
| SessionEnded
| Round.
Record Watch : Type := mkWatch {
  wt_store : ShareStore;
  wt_last_seq : Z;
  wt_sent : list SharedFrame;
  wt_received : list (string * SharedFrame)
}.
Definition watch_new (st : ShareStore) : Watch := mkWatch st 0 [] [].
Definition watch_step (viewed : string) (w : Watch) (ev : ShareEvent) : Watch :=
  match ev with
  | FrameArrived id data width height =>
      let '(f, _, st) := on_video_frame id data width height (wt_store w) in
      mkWatch st (wt_last_seq w) (wt_sent w) (wt_received w ++ [(id, f)])
  | TrackEnded id => mkWatch (on_video_track_ended id (wt_store w)) (wt_last_seq w) (wt_sent w) (wt_received w)
  | SessionEnded => mkWatch (clear_frames (wt_store w)) (wt_last_seq w) (wt_sent w) (wt_received w)
  | Round =>
      let '(out, last) := stream_round viewed (wt_store w) (wt_last_seq w) in
      mkWatch (wt_store w) last (wt_sent w ++ option_list out) (wt_received w)
  end.
Definition watch (viewed : string) (evs : list ShareEvent) : Watch :=
  foldl (watch_step viewed) (watch_new share_store_new) evs.

(** Numbers count the frames; the stored frame is the newest of its share, and the
    viewer is not ahead of it. *)
Record watch_inv (viewed : string) (w : Watch) : Prop := {
  wi_count : ss_seq (wt_store w) = Z.of_nat (length (wt_received w));
  wi_last : 0 ≤ wt_last_seq w ≤ ss_seq (wt_store w);
  wi_stored id f : ss_frames (wt_store w) !! id = Some f →
    1 ≤ sf_seq f ≤ ss_seq (wt_store w) ∧ (id, f) ∈ wt_received w ∧ (id = viewed → wt_last_seq w ≤ sf_seq f);
  wi_sent f : f ∈ wt_sent w → sf_seq f ≤ wt_last_seq w ∧ (viewed, f) ∈ wt_received w;
  wi_sorted : StronglySorted (λ f g, sf_seq f < sf_seq g) (wt_sent w)
}.

Lemma watch_inv_new viewed : watch_inv viewed (watch_new share_store_new).
Proof.
  split; cbn; [done|lia| | |constructor].
  - intros id f Hf. by rewrite lookup_empty in Hf.
  - intros f Hf%elem_of_nil. done.
Qed.

Lemma frames_sorted_snoc (l : list SharedFrame) f :
  StronglySorted (λ f g, sf_seq f < sf_seq g) l → (∀ g, g ∈ l → sf_seq g < sf_seq f) →
  StronglySorted (λ f g, sf_seq f < sf_seq g) (l ++ [f]).
Proof.
  induction l as [|g l IH]; intros Hs Hlt; cbn; [repeat constructor|].
  apply StronglySorted_inv in Hs as [Hs Hall]. constructor; [apply IH; [done|set_solver]|].
  apply Forall_app. split; [done|]. repeat constructor. apply Hlt. set_solver.
Qed.

Lemma watch_inv_step viewed w ev :
  Z.of_nat (length (wt_received w)) + 1 < u64_modulus → watch_inv viewed w → watch_inv viewed (watch_step viewed w ev).
Proof.
  intros Hb [Hc Hl Hst Hse Hso]. destruct ev as [id data width height|id| |]; cbn.
  - assert ((ss_seq (wt_store w) + 1) `mod` u64_modulus = ss_seq (wt_store w) + 1) as Hs by (apply Z.mod_small; lia).
    rewrite Hs. split; cbn; [rewrite length_app; cbn; lia|lia| | |done].
    + intros i f. destruct (decide (i = id)) as [->|Hne].
      * rewrite lookup_insert_eq. intros [= <-]. cbn. split_and!; [lia|lia|set_solver|lia].
      * rewrite lookup_insert_ne by done. intros Hf. destruct (Hst i f Hf) as (? & ? & ?). split_and!; [lia|lia|set_solver|done].
    + intros f Hf. destruct (Hse f Hf). split; [done|set_solver].
  - split; cbn; try done. intros i f [Hne Hf]%lookup_delete_Some. by apply Hst.
  - by split.
  - unfold stream_round. destruct (ss_frames (wt_store w) !! viewed) as [f|] eqn:Hf; cbn.
    2: { split; cbn; rewrite ?app_nil_r; try done. }
    destruct (Hst viewed f Hf) as (Hseq & Hin & Hge). specialize (Hge eq_refl).
    destruct (Z.eqb_spec (sf_seq f) (wt_last_seq w)) as [He|Hne]; cbn; [split; cbn; rewrite ?app_nil_r; done|].
    split; cbn; [done|lia| | |].
    + intros i g Hg. destruct (Hst i g Hg) as (? & ? & ?). split_and!; try done; try lia.
      intros ->. rewrite Hf in Hg. injection Hg as <-. lia.
    + intros g [Hg|Hg%list_elem_of_singleton]%elem_of_app; [|subst; done].
      destruct (Hse g Hg). split; [lia|done].
    + apply frames_sorted_snoc; [done|]. intros g Hg. destruct (Hse g Hg). lia.
Qed.

(** A viewer is never shown a frame twice, an older frame after a newer one, or a frame
    of another share: what a stream writes are frames received for the identity it
    was asked for, with growing sequence numbers.  (A run of 2^64 frames is out of
    reach.) *)
Theorem streams_show_their_share (viewed : string) (evs : list ShareEvent) :
  Z.of_nat (length evs) < u64_modulus - 1 →
  StronglySorted (λ f g, sf_seq f < sf_seq g) (wt_sent (watch viewed evs)) ∧
  ∀ f, f ∈ wt_sent (watch viewed evs) → (viewed, f) ∈ wt_received (watch viewed evs).
Proof.
  intros Hb.
  assert (watch_inv viewed (watch viewed evs) ∧ (length (wt_received (watch viewed evs)) ≤ length evs)%nat) as [Hi _].
  { unfold watch. induction evs as [|ev evs IH] using rev_ind; [split; [apply watch_inv_new|done]|].
    rewrite length_app in *. cbn in Hb. rewrite foldl_app. cbn [foldl length].
    destruct IH as [Hi Hlen]; [lia|]. split; [apply watch_inv_step; [lia|done]|].
    destruct ev; cbn; rewrite ?length_app; cbn; try lia. destruct (stream_round _ _ _) as [[f|] z]; cbn; lia. }
  split; [apply Hi|]. intros f Hf. by apply (wi_sent _ _ Hi).
Qed.

(** A frame is shown by the next round, whatever was shown before, as long as no newer
    one replaces it. *)
Theorem new_frame_is_shown viewed data width height (w : Watch) :
  Z.of_nat (length (wt_received w)) + 1 < u64_modulus → watch_inv viewed w →
  ∃ f, wt_sent (watch_step viewed (watch_step viewed w (FrameArrived viewed data width height)) Round) = wt_sent w ++ [f] ∧
       sf_data f = data ∧ sf_width f = width ∧ sf_height f = height.
Proof.
  intros Hb [Hc Hl _ _ _]. cbn. unfold stream_round. cbn. rewrite lookup_insert_eq. cbn.
  rewrite Z.mod_small by lia. rewrite (proj2 (Z.eqb_neq _ _)) by lia. eexists. cbn. by split_and!.
Qed.

(** ** Raw frames *)

(** [to_le_bytes] of an [n]-byte number, and reading it back. *)
Fixpoint to_le_bytes (n : nat) (v : Z) : list Z :=
  match n with O => [] | S n => v `mod` 256 :: to_le_bytes n (v `div` 256) end.
Fixpoint from_le_bytes (l : list Z) : Z :=
  match l with [] => 0 | b :: l => b + 256 * from_le_bytes l end.

(** [handle_remote_screen_share_raw_stream]: what is written for a frame. *)
Definition raw_frame (f : SharedFrame) : Result (list Z) string :=
  let len := Z.of_nat (length (sf_data f)) in
  if len <? u32_modulus
  then Ok (to_le_bytes 4 (sf_width f) ++ to_le_bytes 4 (sf_height f) ++ to_le_bytes 8 (sf_seq f) ++
           to_le_bytes 4 len ++ sf_data f)
  else Err "raw frame too large to stream"%string.

(** [windows_i420_stream_frame_header]. *)
Definition i420_frame_header (width height seq timestamp_us byte_len : Z) : list Z :=
  to_le_bytes 4 width ++ to_le_bytes 4 height ++ to_le_bytes 8 seq ++ to_le_bytes 8 timestamp_us ++ to_le_bytes 4 byte_len.

(** [handle_remote_screen_share_stream]: what is written for an encoded frame. *)
Definition mjpeg_part (jpeg : string) : string :=
  "--wavisframe" +:+ crlf +:+ "Content-Type: image/jpeg" +:+ crlf +:+ "Content-Length: " +:+
  show_num (Z.of_nat (String.length jpeg)) +:+ crlf +:+ crlf +:+ jpeg +:+ crlf.

Lemma le_bytes_length n v : length (to_le_bytes n v) = n.
Proof. revert v. induction n as [|n IH]; intros v; cbn; [done|]. by rewrite IH. Qed.
Lemma le_bytes_roundtrip n v : 0 ≤ v < 256 ^ Z.of_nat n → from_le_bytes (to_le_bytes n v) = v.
Proof.
  revert v. induction n as [|n IH]; intros v Hv; cbn [to_le_bytes from_le_bytes]; [cbn in Hv; lia|].
  rewrite Nat2Z.inj_succ, Z.pow_succ_r in Hv by lia. rewrite IH by (split; [apply Z.div_pos|apply Z.div_lt_upper_bound]; lia).
  pose proof (Z.div_mod v 256 ltac:(lia)). lia.
Qed.

(** A reader of the stream: a header of twenty bytes, then as many bytes as it says. *)
Definition read_raw_frame (l : list Z) : option (SharedFrame * list Z) :=
  if (length l <? 20)%nat then None
  else
    let num i n := from_le_bytes (take n (drop i l)) in
    let len := Z.to_nat (num 16%nat 4%nat) in
    let rest := drop 20 l in
    if (length rest <? len)%nat then None
    else Some (mkSharedFrame (take len rest) (num 0%nat 4%nat) (num 4%nat 4%nat) (num 8%nat 8%nat), drop len rest).

Lemma field_at (a b c : list Z) n m : length a = n → length b = m → take m (drop n (a ++ b ++ c)) = b.
Proof. intros <- <-. rewrite drop_app_length. apply take_app_length. Qed.

(** A frame is read back from what is written for it, whatever follows: the frames of a
    raw stream can be told apart. *)
Theorem raw_frame_roundtrip (f : SharedFrame) (bytes more : list Z) :
  0 ≤ sf_width f < u32_modulus → 0 ≤ sf_height f < u32_modulus → 0 ≤ sf_seq f < u64_modulus →
  raw_frame f = Ok bytes → read_raw_frame (bytes ++ more) = Some (f, more).
Proof.
  intros Hw Hh Hs. unfold raw_frame. destruct (Z.ltb_spec (Z.of_nat (length (sf_data f))) u32_modulus) as [Hlt|]; [|done].
  intros Heq.
  assert (bytes = to_le_bytes 4 (sf_width f) ++ to_le_bytes 4 (sf_height f) ++ to_le_bytes 8 (sf_seq f) ++
            to_le_bytes 4 (Z.of_nat (length (sf_data f))) ++ sf_data f) as -> by congruence.
  rewrite <- !(assoc_L (++)). unfold read_raw_frame.
  set (B := sf_data f ++ more). set (L := to_le_bytes 4 (Z.of_nat (length (sf_data f)))).
  set (S8 := to_le_bytes 8 (sf_seq f)). set (H4 := to_le_bytes 4 (sf_height f)). set (W4 := to_le_bytes 4 (sf_width f)).
  assert (length W4 = 4 ∧ length H4 = 4 ∧ length S8 = 8 ∧ length L = 4)%nat as (HW & HH & HS & HL)
    by (split_and!; apply le_bytes_length).
  rewrite (proj2 (Nat.ltb_ge _ _)) by (rewrite !length_app; lia).
  assert (take 4 (drop 0 (W4 ++ H4 ++ S8 ++ L ++ B)) = W4) as -> by exact (field_at [] W4 _ 0 4 eq_refl HW).
  rewrite (field_at W4 H4 (S8 ++ L ++ B) 4 4 HW HH).
  replace (W4 ++ H4 ++ S8 ++ L ++ B) with ((W4 ++ H4) ++ S8 ++ L ++ B) by by rewrite <- (assoc_L (++)).
  rewrite (field_at (W4 ++ H4) S8 (L ++ B) 8 8) by (rewrite ?length_app; lia).
  replace ((W4 ++ H4) ++ S8 ++ L ++ B) with ((W4 ++ H4 ++ S8) ++ L ++ B) by by rewrite <- !(assoc_L (++)).
  rewrite (field_at (W4 ++ H4 ++ S8) L B 16 4) by (rewrite ?length_app; lia).
  replace ((W4 ++ H4 ++ S8) ++ L ++ B) with ((W4 ++ H4 ++ S8 ++ L) ++ B) by by rewrite <- !(assoc_L (++)).
  rewrite (drop_app_length' (W4 ++ H4 ++ S8 ++ L) B) by (rewrite !length_app; lia).
  unfold W4, H4, S8, L. rewrite !le_bytes_roundtrip by (unfold u32_modulus, u64_modulus in *; lia).
  rewrite Nat2Z.id. unfold B. rewrite (proj2 (Nat.ltb_ge _ _)) by (rewrite length_app; lia).
  rewrite take_app_length, drop_app_length. by destruct f.
Qed.

(** ** The log of a bug report (bug_report.rs) *)

(** [RustLogBuffer]. *)
Record RustLogBuffer : Type := mkRustLogBuffer { lb_lines : list string; lb_capacity : nat }.
Definition log_buffer_new (capacity : nat) : RustLogBuffer := mkRustLogBuffer [] capacity.
Definition log_push (line : string) (b : RustLogBuffer) : RustLogBuffer :=
  let lines := if (lb_capacity b <=? length (lb_lines b))%nat then tail (lb_lines b) else lb_lines b in
  mkRustLogBuffer (lines ++ [line]) (lb_capacity b).
Definition snapshot (b : RustLogBuffer) : list string := lb_lines b.

(** [BugReportLogWriter::write]: the line ends of a record are cut off, and an empty one
    is not kept. *)
Fixpoint drop_leading (c : ascii) (s : string) : string :=
  match s with
  | EmptyString => EmptyString
  | String a s' => if Ascii.eqb a c then drop_leading c s' else s
  end.
Definition trim_end_matches (c : ascii) (s : string) : string := string_rev (drop_leading c (string_rev s)).
Definition log_write (buf : string) (b : RustLogBuffer) : RustLogBuffer :=
  let trimmed := trim_end_matches "013" (trim_end_matches "010" (from_utf8_lossy buf)) in
  if str_is_empty trimmed then b else log_push trimmed b.

Lemma tail_drop_S (l : list string) n : tail (drop n l) = drop (S n) l.
Proof. revert l. induction n as [|n IH]; intros [|x l]; try done. apply IH. Qed.
Lemma log_pushed_app lines capacity all :
  (0 < capacity)%nat → lines = drop (length all - capacity) all →
  ∀ line, lb_lines (log_push line (mkRustLogBuffer lines capacity)) = drop (length (all ++ [line]) - capacity) (all ++ [line]).
Proof.
  intros Hc -> line. unfold log_push. cbn [lb_lines lb_capacity]. rewrite length_drop, length_app. cbn [length].
  destruct (Nat.leb_spec capacity (length all - (length all - capacity))) as [Hle|Hlt].
  - rewrite drop_app_le by lia. f_equal. replace (length all + 1 - capacity)%nat with (S (length all - capacity)) by lia.
    by apply tail_drop_S.
  - replace (length all - capacity)%nat with 0%nat by lia. replace (length all + 1 - capacity)%nat with 0%nat by lia. done.
Qed.

(** The buffer holds the last lines, in their order, up to its capacity. *)
Theorem log_buffer_keeps_last (capacity : nat) (all : list string) :
  (0 < capacity)%nat →
  snapshot (foldl (λ b l, log_push l b) (log_buffer_new capacity) all) = drop (length all - capacity) all.
Proof.
  intros Hc. unfold snapshot.
  assert (∀ all, lb_capacity (foldl (λ b l, log_push l b) (log_buffer_new capacity) all) = capacity) as Hcap.
  { intros l. induction l as [|x l IH] using rev_ind; [done|]. rewrite foldl_app. cbn. exact IH. }
  induction all as [|x all IH] using rev_ind; [done|]. rewrite foldl_app. cbn [foldl].
  specialize (Hcap all). destruct (foldl _ _ all) as [lines c]. cbn in Hcap, IH. subst c.
  by apply log_pushed_app.
Qed.

(** Without capacity a line is kept all the same. *)
Example no_capacity_keeps_one : snapshot (log_push "b" (log_push "a" (log_buffer_new 0))) = ["b"%string].
Proof. reflexivity. Qed.

(** ** Choices on Windows *)

(** [WindowsSourceKind], [WindowsCaptureBackend]. *)
Inductive WindowsSourceKind : Type := SourceScreen | SourceWindow.
Inductive WindowsCaptureBackend : Type := Wgc | GdiPoll.

(** [parse_windows_source_kind], [select_windows_capture_backend]. *)
Definition parse_windows_source_kind (value : option string) : Result WindowsSourceKind string :=
  match value with
  | Some v =>
      if String.eqb v "screen" then Ok SourceScreen
      else if String.eqb v "window" then Ok SourceWindow
      else Err "screen_share_start_source requires sourceKind='screen' or 'window'"%string
  | None => Err "screen_share_start_source requires sourceKind='screen' or 'window'"%string
  end.
Definition select_windows_capture_backend (source_kind : WindowsSourceKind) (compatibility_mode : bool)
    (requested : option string) : Result WindowsCaptureBackend string :=
  match requested with
  | Some r =>
      if String.eqb r "wgc" then Ok Wgc
      else if String.eqb r "gdi_poll" then Ok GdiPoll
      else Err ("unsupported Windows capture backend '" +:+ r +:+ "'")
  | None =>
      match source_kind with
      | SourceWindow => Ok (if compatibility_mode then GdiPoll else Wgc)
      | SourceScreen => Ok Wgc
      end
  end.
