(* ===== verification/LiveKit.v ===== *)
(** * The connection to the media server
    (clients/shared/src/livekit_connection.rs, livekit_video.rs; media_connect and
    media_disconnect of clients/wavis-gui/src-tauri/src/media.rs)

    [RealLiveKitConnection] joins a LiveKit room, publishes up to four tracks and
    runs background loops.  Here are its flags and handles, every method that
    changes them, the listener of room events, and the desktop client that replaces
    one connection by the next.  The SDK is a world of published tracks and running
    tasks; the answers of its calls are arguments.  The four [published_*] fields,
    the three sources and the five [JoinHandle] fields are maps from what they
    hold.  The bodies of the loops are in [MicCapture] and [AudioMixing]. *)

From Stdlib Require Import SpecFloat.
From stdpp Require Import countable.
From S2P Require Import Prelude Signaling FieldValidation Floats SfuBridge Tokens SfuRelay CallSession RoomSession.
Local Open Scope Z_scope.
Local Open Scope prog_scope.

(** ** Tracks and tasks *)

(** [TrackSource] of the tracks a client publishes. *)
Inductive LocalSource : Type := Microphone | Screenshare | Camera | ScreenshareAudio.

(** The loops with a [JoinHandle], and the tasks without one: a decoder per remote
    audio track, a receiver per remote video track. *)
Inductive TaskKind : Type :=
| EventTask | CaptureTask | StatsTask | TelemetryTask | MixTask
| DecoderTask (queue_key volume_key : string)
| ReceiverTask (participant_id : string) (camera : bool).

#[export] Instance LocalSource_eq : EqDecision LocalSource.
Proof. solve_decision. Defined.
#[export] Instance LocalSource_countable : Countable LocalSource.
Proof.
  refine (inj_countable' (λ s, match s with Microphone => 0 | Screenshare => 1 | Camera => 2 | ScreenshareAudio => 3 end)%nat
    (λ n, match n with 0 => Microphone | 1 => Screenshare | 2 => Camera | _ => ScreenshareAudio end)%nat _).
  by intros [].
Defined.
#[export] Instance TaskKind_eq : EqDecision TaskKind.
Proof. solve_decision. Defined.
#[export] Instance TaskKind_countable : Countable TaskKind.
Proof.
  refine (inj_countable' (λ k, match k with
      | EventTask => inl 0%nat | CaptureTask => inl 1%nat | StatsTask => inl 2%nat
      | TelemetryTask => inl 3%nat | MixTask => inl 4%nat
      | DecoderTask q v => inr (inl (q, v)) | ReceiverTask p c => inr (inr (p, c)) end)
    (λ x, match x with
      | inl 0%nat => EventTask | inl 1%nat => CaptureTask | inl 2%nat => StatsTask
      | inl 3%nat => TelemetryTask | inl _ => MixTask
      | inr (inl (q, v)) => DecoderTask q v | inr (inr (p, c)) => ReceiverTask p c end) _).
  by intros [].
Defined.

Definition is_loop (k : TaskKind) : bool :=
  match k with DecoderTask _ _ | ReceiverTask _ _ => false | _ => true end.

(** A published track: its room, what it carries, and whether it is enabled and
    unmuted. *)
Record LocalTrack : Type := mkLocalTrack { lt_room : nat; lt_source : LocalSource; lt_enabled : bool }.

(** What the SDK and the runtime hold: the tracks published in rooms by their sid,
    the running tasks with the connection they belong to, the [closing] flags that
    are set, and the frames given to a video source with their timestamps. *)
Record Sdk : Type := mkSdk {
  sdk_next : nat;
  sdk_tracks : gmap nat LocalTrack;
  sdk_running : gmap nat (TaskKind * nat);
  sdk_closing : gset nat;
  sdk_frames : list (nat * Z * (list Z * Z * Z))
}.
Definition sdk_new : Sdk := mkSdk 0 ∅ ∅ ∅ [].
Definition set_sdk_tracks f (s : Sdk) : Sdk :=
  mkSdk (sdk_next s) (f (sdk_tracks s)) (sdk_running s) (sdk_closing s) (sdk_frames s).
Definition set_sdk_running f (s : Sdk) : Sdk :=
  mkSdk (sdk_next s) (sdk_tracks s) (f (sdk_running s)) (sdk_closing s) (sdk_frames s).
Definition set_sdk_closing f (s : Sdk) : Sdk :=
  mkSdk (sdk_next s) (sdk_tracks s) (sdk_running s) (f (sdk_closing s)) (sdk_frames s).
Definition add_frame x (s : Sdk) : Sdk :=
  mkSdk (sdk_next s) (sdk_tracks s) (sdk_running s) (sdk_closing s) (sdk_frames s ++ [x]).
Definition fresh_id (s : Sdk) : nat * Sdk :=
  (sdk_next s, mkSdk (S (sdk_next s)) (sdk_tracks s) (sdk_running s) (sdk_closing s) (sdk_frames s)).

(** ** [RealLiveKitConnection] *)

Record LkConn : Type := mkLkConn {
  lk_id : nat;
  lk_connected : bool;
  lk_room : option nat;
  lk_mic_enabled : bool;
  lk_tracks : gmap LocalSource nat;
  lk_sources : gmap LocalSource nat;
  lk_handles : gmap TaskKind nat;
  lk_next_timestamp_us : Z;
  lk_next_camera_timestamp_us : Z;
  lk_capture_buffer : bool;
  lk_share_audio_enabled : gset string;
  lk_remote_audio_queues : gmap string (list spec_float)
}.

(** [new]: the identity is the [Arc] the tasks share. *)
Definition lk_new (id : nat) (capture_buffer : bool) : LkConn :=
  mkLkConn id false None false ∅ ∅ ∅ 1 1 capture_buffer ∅ ∅.

Definition set_connected b (c : LkConn) : LkConn :=
  mkLkConn (lk_id c) b (lk_room c) (lk_mic_enabled c) (lk_tracks c) (lk_sources c) (lk_handles c)
    (lk_next_timestamp_us c) (lk_next_camera_timestamp_us c) (lk_capture_buffer c) (lk_share_audio_enabled c) (lk_remote_audio_queues c).
Definition set_lk_room r (c : LkConn) : LkConn :=
  mkLkConn (lk_id c) (lk_connected c) r (lk_mic_enabled c) (lk_tracks c) (lk_sources c) (lk_handles c)
    (lk_next_timestamp_us c) (lk_next_camera_timestamp_us c) (lk_capture_buffer c) (lk_share_audio_enabled c) (lk_remote_audio_queues c).
Definition set_mic b (c : LkConn) : LkConn :=
  mkLkConn (lk_id c) (lk_connected c) (lk_room c) b (lk_tracks c) (lk_sources c) (lk_handles c)
    (lk_next_timestamp_us c) (lk_next_camera_timestamp_us c) (lk_capture_buffer c) (lk_share_audio_enabled c) (lk_remote_audio_queues c).
Definition set_lk_tracks f (c : LkConn) : LkConn :=
  mkLkConn (lk_id c) (lk_connected c) (lk_room c) (lk_mic_enabled c) (f (lk_tracks c)) (lk_sources c) (lk_handles c)
    (lk_next_timestamp_us c) (lk_next_camera_timestamp_us c) (lk_capture_buffer c) (lk_share_audio_enabled c) (lk_remote_audio_queues c).
Definition set_lk_sources f (c : LkConn) : LkConn :=
  mkLkConn (lk_id c) (lk_connected c) (lk_room c) (lk_mic_enabled c) (lk_tracks c) (f (lk_sources c)) (lk_handles c)
    (lk_next_timestamp_us c) (lk_next_camera_timestamp_us c) (lk_capture_buffer c) (lk_share_audio_enabled c) (lk_remote_audio_queues c).
Definition set_lk_handles f (c : LkConn) : LkConn :=
  mkLkConn (lk_id c) (lk_connected c) (lk_room c) (lk_mic_enabled c) (lk_tracks c) (lk_sources c) (f (lk_handles c))
    (lk_next_timestamp_us c) (lk_next_camera_timestamp_us c) (lk_capture_buffer c) (lk_share_audio_enabled c) (lk_remote_audio_queues c).
Definition set_timestamps t u (c : LkConn) : LkConn :=
  mkLkConn (lk_id c) (lk_connected c) (lk_room c) (lk_mic_enabled c) (lk_tracks c) (lk_sources c) (lk_handles c)
    t u (lk_capture_buffer c) (lk_share_audio_enabled c) (lk_remote_audio_queues c).
Definition set_share_audio a q (c : LkConn) : LkConn :=
  mkLkConn (lk_id c) (lk_connected c) (lk_room c) (lk_mic_enabled c) (lk_tracks c) (lk_sources c) (lk_handles c)
    (lk_next_timestamp_us c) (lk_next_camera_timestamp_us c) (lk_capture_buffer c) a q.

(** A connection and the world. *)
Record Lk : Type := mkLk { lk_conn : LkConn; lk_sdk : Sdk }.
Definition on_conn f (s : Lk) : Lk := mkLk (f (lk_conn s)) (lk_sdk s).
Definition on_sdk f (s : Lk) : Lk := mkLk (lk_conn s) (f (lk_sdk s)).

(** [map_sdk_error], [map_publish_error]. *)
Definition map_sdk_error (context e : string) : RoomError := SfuConnectionFailed (context +:+ ": " +:+ e).
Definition map_publish_error (e : string) : RoomError := PublishFailed e.

(** [*self.xxx_task = Some(tokio::spawn(..))]: a handle it replaces is dropped, and
    its task goes on. *)
Definition spawn (k : TaskKind) (s : Lk) : Lk :=
  let '(id, d) := fresh_id (lk_sdk s) in
  mkLk (set_lk_handles <[k := id]> (lk_conn s)) (set_sdk_running <[id := (k, lk_id (lk_conn s))]> d).
(** A task that nobody keeps. *)
Definition spawn_detached (k : TaskKind) (s : Lk) : Lk :=
  let '(id, d) := fresh_id (lk_sdk s) in
  mkLk (lk_conn s) (set_sdk_running <[id := (k, lk_id (lk_conn s))]> d).
(** [handle.abort()] and the wait for the task. *)
Definition abort (k : TaskKind) (s : Lk) : Lk :=
  match lk_handles (lk_conn s) !! k with
  | Some id => mkLk (set_lk_handles (delete k) (lk_conn s)) (set_sdk_running (delete id) (lk_sdk s))
  | None => s
  end.
#[global] Arguments spawn : simpl never.
#[global] Arguments abort : simpl never.

(** [connect]; [answer] is what [LkRoom::connect] returns. *)
Definition connect (answer : Result unit string) : M Lk RoomError unit :=
  let! connected := gets (λ s, lk_connected (lk_conn s)) in
  if connected then throw AlreadyInRoom
  else
    do! lift_result (map_err (map_sdk_error "connect") answer) in
    modify (λ s,
      let '(room, d) := fresh_id (lk_sdk s) in
      let s1 := mkLk (set_connected true (set_lk_room (Some room) (lk_conn s)))
                  (set_sdk_closing (.∖ {[lk_id (lk_conn s)]}) d) in
      spawn TelemetryTask (spawn StatsTask (spawn EventTask (spawn MixTask s1)))).

(** [room.close()]: the tracks of the room end with it. *)
Definition close_room (room : nat) : Sdk → Sdk :=
  set_sdk_tracks (filter (λ '(_, t), lt_room t ≠ room)).

(** [disconnect]: the flag, the loops, the room, the fields. *)
Definition mark_closing (s : Lk) : Lk := on_sdk (set_sdk_closing (.∪ {[lk_id (lk_conn s)]})) s.
Definition stop_loops (s : Lk) : Lk :=
  abort MixTask (abort TelemetryTask (abort StatsTask (abort CaptureTask (abort EventTask s)))).
Definition leave_room (s : Lk) : Lk :=
  match lk_room (lk_conn s) with
  | Some room => mkLk (set_lk_room None (lk_conn s)) (close_room room (lk_sdk s))
  | None => s
  end.
Definition clear_fields (c : LkConn) : LkConn :=
  set_connected false (set_share_audio ∅ ∅ (set_lk_sources (λ _, ∅) (set_lk_tracks (λ _, ∅) c))).
Definition disconnect : M Lk RoomError unit :=
  let! connected := gets (λ s, lk_connected (lk_conn s)) in
  if negb connected then mret tt
  else
    do! modify mark_closing in
    do! modify stop_loops in
    do! modify leave_room in
    modify (on_conn clear_fields).

(** The guards of the publishing methods: connected, and a room. *)
Definition room_handle : M Lk RoomError nat :=
  let! room := gets (λ s, lk_room (lk_conn s)) in
  lift_result (ok_or room NotInRoom).
Definition check_connected : M Lk RoomError unit :=
  let! connected := gets (λ s, lk_connected (lk_conn s)) in
  if connected then mret tt else throw NotInRoom.

(** [publish_track]: a new track is enabled. *)
Definition publish_track (src : LocalSource) (room : nat) (answer : Result unit string) : M Lk RoomError nat :=
  do! lift_result (map_err map_publish_error answer) in
  state (λ s, let '(sid, d) := fresh_id (lk_sdk s) in
              (sid, mkLk (lk_conn s) (set_sdk_tracks <[sid := mkLocalTrack room src true]> d))).

(** [track.enable(); track.unmute()], or both undone; they may panic, which the code
    catches. *)
Definition apply_mic (enabled panics : bool) (message : string) : M Lk RoomError unit :=
  let! handle := gets (λ s, lk_tracks (lk_conn s) !! Microphone) in
  match handle with
  | Some sid =>
      if panics then throw (PublishFailed message)
      else modify (on_sdk (set_sdk_tracks (alter (λ t, mkLocalTrack (lt_room t) (lt_source t) enabled) sid)))
  | None => mret tt
  end.

(** [publish_audio]. *)
Definition publish_audio (answer : Result unit string) (panics : bool) : M Lk RoomError unit :=
  do! check_connected in
  let! room := room_handle in
  let! sid := publish_track Microphone room answer in
  do! modify (on_conn (set_lk_tracks <[Microphone := sid]>)) in
  let! enabled := gets (λ s, lk_mic_enabled (lk_conn s)) in
  do! apply_mic enabled panics "failed to apply initial mic enabled state" in
  let! buffer := gets (λ s, lk_capture_buffer (lk_conn s)) in
  if (buffer : bool) then modify (spawn CaptureTask) else mret tt.

(** [set_mic_enabled]. *)
Definition set_mic_enabled (enabled panics : bool) : M Lk RoomError unit :=
  do! modify (on_conn (set_mic enabled)) in
  apply_mic enabled panics "failed to toggle mic state".

(** [publish_video], [publish_camera_video]: a second call changes nothing; the
    timestamps restart before the track is published. *)
Definition restart_clock (src : LocalSource) (c : LkConn) : LkConn :=
  if bool_decide (src = Screenshare) then set_timestamps 1 (lk_next_camera_timestamp_us c) c
  else set_timestamps (lk_next_timestamp_us c) 1 c.
Definition publish_picture (src : LocalSource) (answer : Result unit string) : M Lk RoomError unit :=
  do! check_connected in
  let! published := gets (λ s, lk_tracks (lk_conn s) !! src) in
  match published with
  | Some _ => mret tt
  | None =>
      let! room := room_handle in
      do! modify (on_conn (restart_clock src)) in
      let! sid := publish_track src room answer in
      modify (on_conn (λ c, set_lk_sources <[src := sid]> (set_lk_tracks <[src := sid]> c)))
  end.
Definition publish_video : Result unit string → M Lk RoomError unit := publish_picture Screenshare.
Definition publish_camera_video : Result unit string → M Lk RoomError unit := publish_picture Camera.

(** [publish_screen_audio]: a second call is an error. *)
Definition publish_screen_audio (answer : Result unit string) : M Lk RoomError unit :=
  do! check_connected in
  let! published := gets (λ s, lk_tracks (lk_conn s) !! ScreenshareAudio) in
  match published with
  | Some _ => throw (PublishFailed "screen share audio track already published")
  | None =>
      let! room := room_handle in
      let! sid := publish_track ScreenshareAudio room answer in
      modify (on_conn (λ c, set_lk_sources <[ScreenshareAudio := sid]> (set_lk_tracks <[ScreenshareAudio := sid]> c)))
  end.

(** [unpublish_video], [unpublish_camera_video], [unpublish_screen_audio]: a track the
    server does not take back is only logged. *)
Definition unpublish (src : LocalSource) (taken : bool) : M Lk RoomError unit :=
  do! modify (on_conn (set_lk_sources (delete src))) in
  let! track := gets (λ s, lk_tracks (lk_conn s) !! src) in
  do! modify (on_conn (set_lk_tracks (delete src))) in
  match track with
  | None => mret tt
  | Some sid =>
      modify (λ s, match lk_connected (lk_conn s), lk_room (lk_conn s) with
                   | true, Some _ => if taken then on_sdk (set_sdk_tracks (delete sid)) s else s
                   | _, _ => s
                   end)
  end.
Definition unpublish_video : bool → M Lk RoomError unit := unpublish Screenshare.
Definition unpublish_camera_video : bool → M Lk RoomError unit := unpublish Camera.
Definition unpublish_screen_audio : bool → M Lk RoomError unit := unpublish ScreenshareAudio.

(** [AtomicI64::fetch_add]. *)
Definition wrap_i64 (x : Z) : Z := (x + 2 ^ 63) `mod` 2 ^ 64 - 2 ^ 63.

(** [feed_video_frame], [feed_camera_frame]: the length is checked, the picture is
    converted by libyuv and captured with the next timestamp. *)
Definition feed_frame (src : LocalSource) (no_source mismatch : string) (data : list Z) (width height : Z) : M Lk RoomError unit :=
  let! source := gets (λ s, lk_sources (lk_conn s) !! src) in
  match source with
  | None => throw (PublishFailed no_source)
  | Some sid =>
      let expected_len := (width * height * 4) `mod` u64_modulus in
      if len data =? expected_len then
        modify (λ s,
          let c := lk_conn s in
          if bool_decide (src = Screenshare) then
            mkLk (set_timestamps (wrap_i64 (lk_next_timestamp_us c + 33333)) (lk_next_camera_timestamp_us c) c)
              (add_frame (sid, lk_next_timestamp_us c, (data, width, height)) (lk_sdk s))
          else
            mkLk (set_timestamps (lk_next_timestamp_us c) (wrap_i64 (lk_next_camera_timestamp_us c + 66666)) c)
              (add_frame (sid, lk_next_camera_timestamp_us c, (data, width, height)) (lk_sdk s)))
      else throw (PublishFailed (mismatch +:+ ": expected " +:+ pretty expected_len +:+ " bytes (" +:+ pretty width
             +:+ "x" +:+ pretty height +:+ "x4), got " +:+ pretty (len data)))
  end.
Definition dash : string := utf8 [226; 128; 148]%nat.
Definition feed_video_frame : list Z → Z → Z → M Lk RoomError unit :=
  feed_frame Screenshare ("no video source " +:+ dash +:+ " call publish_video first") "RGBA data length mismatch".
Definition feed_camera_frame : list Z → Z → Z → M Lk RoomError unit :=
  feed_frame Camera ("no camera source " +:+ dash +:+ " call publish_camera_video first") "camera RGBA data length mismatch".

(** [feed_screen_audio]. *)
Definition feed_screen_audio (answer : Result unit string) : M Lk RoomError unit :=
  let! source := gets (λ s, lk_sources (lk_conn s) !! ScreenshareAudio) in
  match source with
  | None => throw (PublishFailed "screen share audio not published")
  | Some _ => lift_result (map_err (λ e, PublishFailed ("feed_screen_audio: " +:+ e)) answer)
  end.

(** [set_screen_share_audio_enabled]. *)
Definition set_screen_share_audio_enabled (participant_id : string) (enabled : bool) (c : LkConn) : LkConn :=
  if enabled then set_share_audio ({[participant_id]} ∪ lk_share_audio_enabled c) (lk_remote_audio_queues c) c
  else set_share_audio (lk_share_audio_enabled c ∖ {[participant_id]})
         (filter (λ '(key, _), String.prefix (participant_id +:+ "::ScreenshareAudio::") key = false) (lk_remote_audio_queues c)) c.

(** ** Room events *)

(** [TrackSource] of a remote track, with its [Debug] text. *)
Definition source_name (src : LocalSource) : string :=
  match src with
  | Microphone => "Microphone" | Screenshare => "Screenshare"
  | Camera => "Camera" | ScreenshareAudio => "ScreenshareAudio"
  end.

Inductive RoomEvent : Type :=
| AudioSubscribed (participant_id : string) (src : LocalSource) (sid : string)
| VideoSubscribed (participant_id : string) (src : LocalSource)
| VideoUnsubscribed (participant_id : string) (src : LocalSource)
| AudioUnsubscribed (participant_id : string) (src : LocalSource)
| ParticipantDisconnected (participant_id : string)
| Disconnected
| OtherRoomEvent.

(** The callbacks, which the client registers before it connects. *)
Inductive LkNotice : Type :=
| ShareAudioAvailable (participant_id : string)
| ShareAudioEnded (participant_id : string)
| VideoTrackEnded (participant_id : string)
| CameraTrackEnded (participant_id : string).

Definition queue_key (participant_id : string) (src : LocalSource) (sid : string) : string :=
  participant_id +:+ "::" +:+ source_name src +:+ "::" +:+ sid.
Definition volume_key (participant_id : string) (src : LocalSource) : string :=
  if bool_decide (src = ScreenshareAudio) then participant_id +:+ ":screen-share" else participant_id.

(** The server ends the room: its tracks are gone. *)
Definition end_room (s : Lk) : Lk :=
  match lk_room (lk_conn s) with Some room => on_sdk (close_room room) s | None => s end.

(** One event in the listener of task [id], which only the current connection has: a
    listener ends when its room does. *)
Definition on_room_event (id : nat) (ev : RoomEvent) (s : Lk) : list LkNotice * Lk :=
  match sdk_running (lk_sdk s) !! id with
  | Some (EventTask, owner) =>
      if bool_decide (owner ∈ sdk_closing (lk_sdk s)) then ([], on_sdk (set_sdk_running (delete id)) s)
      else
        match ev with
        | AudioSubscribed p src sid =>
            (if bool_decide (src = ScreenshareAudio) then [ShareAudioAvailable p] else [],
             spawn_detached (DecoderTask (queue_key p src sid) (volume_key p src)) s)
        | VideoSubscribed p src => ([], spawn_detached (ReceiverTask p (bool_decide (src = Camera))) s)
        | VideoUnsubscribed p src => ([if bool_decide (src = Camera) then CameraTrackEnded p else VideoTrackEnded p], s)
        | AudioUnsubscribed p src => (if bool_decide (src = ScreenshareAudio) then [ShareAudioEnded p] else [], s)
        | ParticipantDisconnected p => ([VideoTrackEnded p; CameraTrackEnded p], s)
        | Disconnected => ([], on_sdk (set_sdk_running (delete id)) (on_conn (set_connected false) (end_room s)))
        | OtherRoomEvent => ([], s)
        end
  | _ => ([], s)
  end.

(** The next round of any other task: it ends once its connection is closing. *)
Definition task_round (id : nat) (d : Sdk) : Sdk :=
  match sdk_running d !! id with
  | Some (k, owner) =>
      if bool_decide (k ≠ EventTask ∧ owner ∈ sdk_closing d) then set_sdk_running (delete id) d else d
  | None => d
  end.
(** The stream of a detached task ends: the receiver tells the client. *)
Definition stream_ended (id : nat) (d : Sdk) : list LkNotice * Sdk :=
  match sdk_running d !! id with
  | Some (ReceiverTask p camera, _) =>
      ([if camera then CameraTrackEnded p else VideoTrackEnded p], set_sdk_running (delete id) d)
  | Some (DecoderTask _ _, _) => ([], set_sdk_running (delete id) d)
  | _ => ([], d)
  end.

(** ** The desktop client *)

(** [MediaState]: the connection, if there is one. *)
Record Media : Type := mkMedia { md_lk : option LkConn; md_sdk : Sdk }.
Definition media_new : Media := mkMedia None sdk_new.

(** A call on the connection, for the commands that need one. *)
Definition with_lk {A} (m : M Lk RoomError A) (s : Media) : Media :=
  match md_lk s with
  | Some c => let s' := (m (mkLk c (md_sdk s))).2 in mkMedia (Some (lk_conn s')) (lk_sdk s')
  | None => s
  end.
(** [if let Some(old) = lk.take() { old.disconnect() }]. *)
Definition tear_down (s : Media) : Sdk :=
  match md_lk s with
  | Some c => lk_sdk (disconnect (mkLk c (md_sdk s))).2
  | None => md_sdk s
  end.

Record JoinAnswers : Type := mkJoinAnswers {
  ja_connect : Result unit string;
  ja_publish : Result unit string;
  ja_panics : bool
}.

(** [conn.connect(..)], then the muted microphone; a failure leaves the room again. *)
Definition join_room (a : JoinAnswers) : M Lk RoomError unit :=
  do! connect (ja_connect a) in
  let! r := attempt (do! set_mic_enabled false (ja_panics a) in publish_audio (ja_publish a) (ja_panics a)) in
  match r with
  | Ok _ => mret tt
  | Err e => let! _ := attempt (F := RoomError) disconnect in throw e
  end.

(** [media_connect] and [media_disconnect]. *)
Definition media_connect (capture_buffer : bool) (a : JoinAnswers) (s : Media) : Result unit RoomError * Media :=
  let '(id, d) := fresh_id (tear_down s) in
  match join_room a (mkLk (lk_new id capture_buffer) d) with
  | (Ok _, s') => (Ok tt, mkMedia (Some (lk_conn s')) (lk_sdk s'))
  | (Err e, s') => (Err e, mkMedia None (lk_sdk s'))
  end.
Definition media_disconnect (s : Media) : Media := mkMedia None (tear_down s).

(** Everything that happens to the connection. *)
Inductive MediaStep : Type :=
| MConnect (capture_buffer : bool) (a : JoinAnswers)
| MDisconnect
| MSetMic (enabled panics : bool)
| MPublish (src : LocalSource) (answer : Result unit string)
| MUnpublish (src : LocalSource) (taken : bool)
| MFeed (src : LocalSource) (data : list Z) (width height : Z)
| MShareAudio (participant_id : string) (enabled : bool)
| MEvent (id : nat) (ev : RoomEvent)
| MRound (id : nat)
| MStreamEnded (id : nat).

Definition media_step (s : Media) (st : MediaStep) : Media :=
  match st with
  | MConnect b a => (media_connect b a s).2
  | MDisconnect => media_disconnect s
  | MSetMic e p => with_lk (set_mic_enabled e p) s
  | MPublish Microphone _ => s
  | MPublish Screenshare r => with_lk (publish_video r) s
  | MPublish Camera r => with_lk (publish_camera_video r) s
  | MPublish ScreenshareAudio r => with_lk (publish_screen_audio r) s
  | MUnpublish Microphone _ => s
  | MUnpublish src t => with_lk (unpublish src t) s
  | MFeed Screenshare data w h => with_lk (feed_video_frame data w h) s
  | MFeed Camera data w h => with_lk (feed_camera_frame data w h) s
  | MFeed _ _ _ _ => s
  | MShareAudio p e => with_lk (modify (on_conn (set_screen_share_audio_enabled p e))) s
  | MEvent id ev => with_lk (state (on_room_event id ev)) s
  | MRound id => mkMedia (md_lk s) (task_round id (md_sdk s))
  | MStreamEnded id => mkMedia (md_lk s) (stream_ended id (md_sdk s)).2
  end.
Definition media_run (s : Media) (steps : list MediaStep) : Media := fold_left media_step steps s.

(** ** What a connection owns *)

(** Every loop that runs is held by its handle, every track is in its room; enough to
    leave. *)
Record conn_weak (s : Lk) : Prop := {
  cw_connected : lk_connected (lk_conn s) = true;
  cw_id : (lk_id (lk_conn s) < sdk_next (lk_sdk s))%nat;
  cw_running : ∀ id k o, sdk_running (lk_sdk s) !! id = Some (k, o) → is_loop k = true →
    lk_handles (lk_conn s) !! k = Some id;
  cw_tracks : ∀ sid t, sdk_tracks (lk_sdk s) !! sid = Some t → lk_room (lk_conn s) = Some (lt_room t)
}.
(** And in the other direction: the handles are those of running loops of this
    connection, the published tracks those of its fields. *)
Record conn_ok (s : Lk) : Prop := {
  co_weak : conn_weak s;
  co_room : is_Some (lk_room (lk_conn s));
  co_open : lk_id (lk_conn s) ∉ sdk_closing (lk_sdk s);
  co_handles : ∀ k id, lk_handles (lk_conn s) !! k = Some id →
    sdk_running (lk_sdk s) !! id = Some (k, lk_id (lk_conn s)) ∧ is_loop k = true;
  co_tracks : ∀ sid t, sdk_tracks (lk_sdk s) !! sid = Some t →
    lk_tracks (lk_conn s) !! lt_source t = Some sid ∧
    (lt_source t = Microphone → lt_enabled t = lk_mic_enabled (lk_conn s));
  co_published : ∀ src sid, lk_tracks (lk_conn s) !! src = Some sid →
    ∃ t, sdk_tracks (lk_sdk s) !! sid = Some t ∧ lt_source t = src;
  co_sources : ∀ src, src ≠ Microphone → lk_sources (lk_conn s) !! src = lk_tracks (lk_conn s) !! src
}.
Definition loops_on (c : LkConn) : Prop :=
  ∀ k, k ∈ [EventTask; StatsTask; TelemetryTask; MixTask] → is_Some (lk_handles c !! k).

(** Numbers not drawn yet are unused. *)
Definition ids_ok (d : Sdk) : Prop :=
  ∀ id, (sdk_next d ≤ id)%nat →
    sdk_running d !! id = None ∧ sdk_tracks d !! id = None ∧ id ∉ sdk_closing d.
Definition idle (d : Sdk) : Prop :=
  (∀ id k o, sdk_running d !! id = Some (k, o) → is_loop k = false) ∧ sdk_tracks d = ∅.

Definition full (s : Lk) : Prop := conn_ok s ∧ loops_on (lk_conn s) ∧ ids_ok (lk_sdk s).

(** *** Leaving *)

Definition held (s : Lk) : Prop :=
  ∀ id k o, sdk_running (lk_sdk s) !! id = Some (k, o) → is_loop k = true → lk_handles (lk_conn s) !! k = Some id.

Lemma abort_held k s : held s → held (abort k s).
Proof.
  unfold held, abort. intros H id k' o. destruct (lk_handles (lk_conn s) !! k) as [i|] eqn:E; simpl; [|by apply H].
  rewrite lookup_delete_Some. intros [Hi Hr] Hl. specialize (H _ _ _ Hr Hl).
  rewrite lookup_delete_ne; [done|]. intros ->. congruence.
Qed.
Lemma abort_handles k k' s :
  lk_handles (lk_conn (abort k s)) !! k' = if bool_decide (k = k') then None else lk_handles (lk_conn s) !! k'.
Proof.
  unfold abort. destruct (lk_handles (lk_conn s) !! k) as [i|] eqn:E; simpl; case_bool_decide; subst;
    by rewrite ?lookup_delete_eq, ?lookup_delete_ne.
Qed.
Lemma abort_frame k s :
  let s' := abort k s in
  sdk_tracks (lk_sdk s') = sdk_tracks (lk_sdk s) ∧ sdk_closing (lk_sdk s') = sdk_closing (lk_sdk s) ∧
  sdk_next (lk_sdk s') = sdk_next (lk_sdk s) ∧ lk_room (lk_conn s') = lk_room (lk_conn s) ∧
  sdk_running (lk_sdk s') ⊆ sdk_running (lk_sdk s).
Proof.
  unfold abort. destruct (lk_handles (lk_conn s) !! k); simpl; split_and!; try done. apply delete_subseteq.
Qed.

Lemma disconnect_steps s :
  lk_connected (lk_conn s) = true →
  disconnect s = (Ok tt, on_conn clear_fields (leave_room (stop_loops (mark_closing s)))).
Proof. intros Hc. unfold disconnect, mbind_, gets, modify. by rewrite Hc. Qed.

Lemma stop_loops_spec s :
  held s →
  let s' := stop_loops s in
  (∀ id k o, sdk_running (lk_sdk s') !! id = Some (k, o) → is_loop k = false) ∧
  sdk_tracks (lk_sdk s') = sdk_tracks (lk_sdk s) ∧ sdk_closing (lk_sdk s') = sdk_closing (lk_sdk s) ∧
  sdk_next (lk_sdk s') = sdk_next (lk_sdk s) ∧ lk_room (lk_conn s') = lk_room (lk_conn s) ∧
  sdk_running (lk_sdk s') ⊆ sdk_running (lk_sdk s).
Proof.
  intros Hh. unfold stop_loops. cbv zeta. split.
  - intros id k o Hi. apply not_true_iff_false. intros Hl.
    assert (held (stop_loops s)) as Hh' by (unfold stop_loops; do 5 apply abort_held; exact Hh).
    specialize (Hh' _ _ _ Hi Hl). unfold stop_loops in Hh'. rewrite !abort_handles in Hh'. by destruct k.
  - clear Hh.
    destruct (abort_frame EventTask s) as (A1 & A2 & A3 & A4 & A5).
    destruct (abort_frame CaptureTask (abort EventTask s)) as (B1 & B2 & B3 & B4 & B5).
    destruct (abort_frame StatsTask (abort CaptureTask (abort EventTask s))) as (C1 & C2 & C3 & C4 & C5).
    destruct (abort_frame TelemetryTask (abort StatsTask (abort CaptureTask (abort EventTask s)))) as (D1 & D2 & D3 & D4 & D5).
    destruct (abort_frame MixTask (abort TelemetryTask (abort StatsTask (abort CaptureTask (abort EventTask s)))))
      as (E1 & E2 & E3 & E4 & E5).
    split_and!; [congruence..|]. by rewrite E5, D5, C5, B5, A5.
Qed.

(** Leaving stops every loop and takes every track back. *)
Lemma disconnect_idle s :
  conn_weak s → ids_ok (lk_sdk s) → idle (lk_sdk (disconnect s).2) ∧ ids_ok (lk_sdk (disconnect s).2).
Proof.
  intros [Hc Hid Hr Ht] Hf. rewrite (disconnect_steps s Hc). cbn [snd lk_sdk on_conn].
  destruct (stop_loops_spec (mark_closing s) Hr) as (Hnone & E1 & E2 & E3 & E4 & E5).
  remember (stop_loops (mark_closing s)) as s1 eqn:Es1. clear Es1. simpl in E1, E2, E3, E4, E5.
  assert (ids_ok (lk_sdk s1)) as Hf1.
  { intros id. rewrite E1, E2, E3. intros Hle. destruct (Hf id Hle) as (? & ? & ?).
    split_and!; [by eapply lookup_weaken_None|done|]. apply not_elem_of_union. split; [done|].
    apply not_elem_of_singleton. lia. }
  unfold leave_room.
  destruct (lk_room (lk_conn s1)) as [room|] eqn:Er; simpl.
  - split; [split; [exact Hnone|]|].
    + simpl. rewrite E1. apply map_empty. intros sid. apply map_lookup_filter_None. right.
      intros t Hs Hne. apply Hne. specialize (Ht _ _ Hs). congruence.
    + intros id Hle. simpl. destruct (Hf1 id Hle) as (? & Hn & ?). split_and!; [done| |done].
      by rewrite map_lookup_filter, Hn.
  - split; [split; [exact Hnone|]|done].
    rewrite E1. apply map_empty. intros sid. destruct (sdk_tracks (lk_sdk s) !! sid) as [t|] eqn:E; [|done].
    specialize (Ht _ _ E). congruence.
Qed.

(** *** Joining *)

Lemma spawn_ok k s :
  conn_ok s → ids_ok (lk_sdk s) → is_loop k = true → lk_handles (lk_conn s) !! k = None →
  conn_ok (spawn k s) ∧ ids_ok (lk_sdk (spawn k s)).
Proof.
  intros [[Hc Hid Hr Ht] Hroom Ho Hh Htr Hp Hs] Hf Hk Hnone. unfold spawn. simpl.
  destruct (Hf (sdk_next (lk_sdk s)) ltac:(lia)) as (Hn & _ & _).
  split.
  - split; simpl; try done.
    + split; simpl; try done; [lia|]. intros id k' o. rewrite lookup_insert_Some. intros [[<- [= <- <-]]|[Hne Hi]] Hl.
      * by rewrite lookup_insert_eq.
      * specialize (Hr _ _ _ Hi Hl). rewrite lookup_insert_ne; [done|]. intros ->. congruence.
    + intros k' id. rewrite lookup_insert_Some. intros [[<- <-]|[Hne Hi]].
      * by rewrite lookup_insert_eq.
      * destruct (Hh _ _ Hi) as [Hi' ?]. rewrite lookup_insert_ne; [done|]. intros <-. congruence.
  - intros id Hle. simpl in *. destruct (Hf id ltac:(lia)) as (? & ? & ?). split_and!; try done.
    rewrite lookup_insert_ne; [done|lia].
Qed.
Lemma spawn_handles k k' s :
  lk_handles (lk_conn (spawn k s)) !! k' = if bool_decide (k = k') then Some (sdk_next (lk_sdk s)) else lk_handles (lk_conn s) !! k'.
Proof. unfold spawn. simpl. case_bool_decide; subst; by rewrite ?lookup_insert_eq, ?lookup_insert_ne. Qed.
Lemma spawn_frame k s :
  lk_tracks (lk_conn (spawn k s)) = lk_tracks (lk_conn s) ∧ lk_mic_enabled (lk_conn (spawn k s)) = lk_mic_enabled (lk_conn s).
Proof. done. Qed.

Definition entered (s : Lk) : Lk :=
  let '(room, d) := fresh_id (lk_sdk s) in
  mkLk (set_connected true (set_lk_room (Some room) (lk_conn s))) (set_sdk_closing (.∖ {[lk_id (lk_conn s)]}) d).

Lemma connect_steps s :
  lk_connected (lk_conn s) = false →
  connect (Ok tt) s = (Ok tt, spawn TelemetryTask (spawn StatsTask (spawn EventTask (spawn MixTask (entered s))))).
Proof. intros Hc. unfold connect, mbind_, gets, modify, lift_result. by rewrite Hc. Qed.

(** A new connection, in a world where nothing runs. *)
Lemma connect_full id b d :
  ids_ok d → idle d → (id < sdk_next d)%nat →
  let s := (connect (Ok tt) (mkLk (lk_new id b) d)).2 in
  full s ∧ lk_tracks (lk_conn s) = ∅ ∧ lk_handles (lk_conn s) !! CaptureTask = None.
Proof.
  intros Hf [Hi Ht] Hid. rewrite connect_steps by done. cbn [snd].
  assert (conn_ok (entered (mkLk (lk_new id b) d)) ∧ ids_ok (lk_sdk (entered (mkLk (lk_new id b) d)))) as [Hc0 Hf0].
  { split.
    - unfold entered. simpl. split; simpl; [|by eauto|set_solver| | | |done].
      + split; simpl; try done; [lia| |].
        * intros i k o Hrun Hl. specialize (Hi _ _ _ Hrun). congruence.
        * rewrite Ht. intros ??. by rewrite lookup_empty.
      + intros k i. by rewrite lookup_empty.
      + intros sid t. by rewrite Ht, lookup_empty.
      + intros src sid. by rewrite lookup_empty.
    - intros i. simpl. intros Hle. destruct (Hf i ltac:(lia)) as (? & ? & ?). split_and!; try done. set_solver. }
  assert (∀ k, lk_handles (lk_conn (entered (mkLk (lk_new id b) d))) !! k = None) as Hh0 by (intros k; apply lookup_empty).
  assert (lk_tracks (lk_conn (entered (mkLk (lk_new id b) d))) = ∅) as Ht0 by done.
  remember (entered (mkLk (lk_new id b) d)) as s0 eqn:E0. clear E0.
  destruct (spawn_ok MixTask s0) as [Hc1 Hf1]; try done.
  destruct (spawn_ok EventTask (spawn MixTask s0)) as [Hc2 Hf2]; try done.
  { rewrite spawn_handles. by case_bool_decide. }
  destruct (spawn_ok StatsTask (spawn EventTask (spawn MixTask s0))) as [Hc3 Hf3]; try done.
  { rewrite !spawn_handles. by repeat case_bool_decide. }
  destruct (spawn_ok TelemetryTask (spawn StatsTask (spawn EventTask (spawn MixTask s0)))) as [Hc4 Hf4]; try done.
  { rewrite !spawn_handles. by repeat case_bool_decide. }
  split_and!; [split_and!| |]; try done.
  - intros k Hk. rewrite !spawn_handles. repeat case_bool_decide; eauto. set_solver.
  - rewrite !spawn_handles. by repeat case_bool_decide.
Qed.

(** *** Publishing *)

(** A track and its fields; the microphone has no source field. *)
Definition add_track (src : LocalSource) (enabled : bool) (room : nat) (s : Lk) : Lk :=
  let '(sid, d) := fresh_id (lk_sdk s) in
  let c := set_lk_tracks <[src := sid]> (lk_conn s) in
  mkLk (if bool_decide (src = Microphone) then c else set_lk_sources <[src := sid]> c)
    (set_sdk_tracks <[sid := mkLocalTrack room src enabled]> d).

Lemma add_track_ids src e room s : ids_ok (lk_sdk s) → ids_ok (lk_sdk (add_track src e room s)).
Proof.
  intros Hf id Hle. unfold add_track in *. simpl in *. destruct (Hf id ltac:(lia)) as (? & ? & ?).
  split_and!; try done. rewrite lookup_insert_ne; [done|lia].
Qed.
Lemma add_track_weak src e room s :
  conn_weak s → lk_room (lk_conn s) = Some room → conn_weak (add_track src e room s).
Proof.
  intros [Hc Hid Hr Ht] Hroom. unfold add_track. split; simpl; case_bool_decide; simpl; try done; try lia.
  all: intros sid t; rewrite lookup_insert_Some; intros [[<- <-]|[_ Hi]]; [done|by apply (Ht sid)].
Qed.
Lemma add_track_ok src e room s :
  conn_ok s → ids_ok (lk_sdk s) → lk_room (lk_conn s) = Some room → lk_tracks (lk_conn s) !! src = None →
  (src = Microphone → e = lk_mic_enabled (lk_conn s)) → conn_ok (add_track src e room s).
Proof.
  intros Hok Hf Hroom Hnone He. pose proof (add_track_weak src e room s (co_weak _ Hok) Hroom) as Hw.
  destruct Hok as [_ Hrm Ho Hh Htr Hp Hs].
  destruct (Hf (sdk_next (lk_sdk s)) ltac:(lia)) as (_ & Hn & _).
  assert (lk_tracks (lk_conn (add_track src e room s)) = <[src := sdk_next (lk_sdk s)]> (lk_tracks (lk_conn s)) ∧
    lk_mic_enabled (lk_conn (add_track src e room s)) = lk_mic_enabled (lk_conn s) ∧
    lk_room (lk_conn (add_track src e room s)) = lk_room (lk_conn s) ∧
    lk_id (lk_conn (add_track src e room s)) = lk_id (lk_conn s) ∧
    lk_handles (lk_conn (add_track src e room s)) = lk_handles (lk_conn s)) as (T1 & T2 & T3 & T4 & T5)
    by (unfold add_track; simpl; by case_bool_decide).
  split; rewrite ?T1, ?T2, ?T3, ?T4, ?T5; try done.
  - intros sid t. simpl. rewrite lookup_insert_Some. intros [[<- <-]|[Hne Hi]]; simpl.
    + by rewrite lookup_insert_eq.
    + destruct (Htr _ _ Hi) as [? ?]. rewrite lookup_insert_ne; [done|]. intros ->. congruence.
  - intros src' sid. simpl. rewrite lookup_insert_Some. intros [[<- <-]|[Hne Hi]].
    + rewrite lookup_insert_eq. by eexists.
    + destruct (Hp _ _ Hi) as (t & Ht & ?). exists t. split; [|done]. rewrite lookup_insert_ne; [done|].
      intros <-. congruence.
  - intros src' Hne. unfold add_track. simpl. case_bool_decide as Hm; simpl.
    + subst. rewrite Hs by done. by rewrite lookup_insert_ne by done.
    + destruct (decide (src = src')) as [->|]; [by rewrite !lookup_insert_eq|].
      rewrite !lookup_insert_ne by done. by apply Hs.
Qed.

(** The timestamps and the frames are nobody's business. *)
Lemma conn_ok_ext c c' d d' :
  lk_id c' = lk_id c → lk_connected c' = lk_connected c → lk_room c' = lk_room c →
  lk_mic_enabled c' = lk_mic_enabled c → lk_tracks c' = lk_tracks c → lk_sources c' = lk_sources c →
  lk_handles c' = lk_handles c → sdk_next d' = sdk_next d → sdk_tracks d' = sdk_tracks d →
  sdk_running d' = sdk_running d → sdk_closing d' = sdk_closing d →
  full (mkLk c d) → full (mkLk c' d').
Proof.
  intros E1 E2 E3 E4 E5 E6 E7 E8 E9 E10 E11 ([[Hc Hid Hr Ht] Hrm Ho Hh Htr Hp Hs] & Hl & Hf).
  unfold full, loops_on, ids_ok in *. simpl in *. rewrite E7, E8, E9, E10, E11. split_and!; [|done..].
  split; simpl in *; rewrite ?E1, ?E2, ?E3, ?E4, ?E5, ?E6, ?E7, ?E8, ?E9, ?E10, ?E11; try done.
  split; simpl; rewrite ?E1, ?E2, ?E3, ?E4, ?E5, ?E6, ?E7, ?E8, ?E9, ?E10, ?E11; done.
Qed.

Lemma publish_picture_full src answer :
  src ≠ Microphone → preserves full (publish_picture src answer).
Proof.
  intros Hsrc s Hs. unfold publish_picture, check_connected, room_handle, publish_track, mbind_, gets, modify, state, lift_result.
  destruct (lk_connected (lk_conn s)) eqn:Ec; simpl; [|done].
  destruct (lk_tracks (lk_conn s) !! src) eqn:Et; simpl; [done|].
  destruct (lk_room (lk_conn s)) as [room|] eqn:Er; simpl; [|done].
  assert (full (on_conn (restart_clock src) s)) as Hs'.
  { destruct s as [c d]. unfold on_conn, restart_clock. simpl. case_bool_decide; revert Hs; by apply conn_ok_ext. }
  destruct answer as [[]|e]; simpl; [|done].
  destruct Hs' as (Hok & Hl & Hf).
  pose proof (add_track_ok src true room (on_conn (restart_clock src) s) Hok Hf) as Hadd.
  pose proof (add_track_ids src true room _ Hf) as Hadd'.
  unfold add_track in Hadd, Hadd'. simpl in *. rewrite bool_decide_eq_false_2 in Hadd by done.
  assert (lk_tracks (restart_clock src (lk_conn s)) = lk_tracks (lk_conn s) ∧
    lk_room (restart_clock src (lk_conn s)) = lk_room (lk_conn s)) as [R1 R2]
    by (unfold restart_clock; by case_bool_decide).
  rewrite R1, R2 in Hadd. by split_and!; [apply Hadd| |].
Qed.

Lemma publish_screen_audio_full answer : preserves full (publish_screen_audio answer).
Proof.
  intros s (Hok & Hl & Hf).
  unfold publish_screen_audio, check_connected, room_handle, publish_track, mbind_, gets, modify, state, lift_result.
  destruct (lk_connected (lk_conn s)) eqn:Ec; simpl; [|done].
  destruct (lk_tracks (lk_conn s) !! ScreenshareAudio) eqn:Et; simpl; [done|].
  destruct (lk_room (lk_conn s)) as [room|] eqn:Er; simpl; [|done].
  destruct answer as [[]|e]; simpl; [|done].
  pose proof (add_track_ok ScreenshareAudio true room s Hok Hf Er Et ltac:(done)) as Hadd.
  pose proof (add_track_ids ScreenshareAudio true room s Hf) as Hadd'. done.
Qed.

Lemma unpublish_full src : src ≠ Microphone → preserves full (unpublish src true).
Proof.
  intros Hsrc s (Hok & Hl & Hf). unfold unpublish, mbind_, gets, modify. simpl.
  destruct Hok as [[Hc Hid Hr Ht] Hrm Ho Hh Htr Hp Hs].
  destruct (lk_tracks (lk_conn s) !! src) as [sid|] eqn:Et; simpl.
  - rewrite Hc. destruct Hrm as [room Hroom]. rewrite Hroom. simpl. split_and!; [|done|].
    + split; simpl; try done; [|intros|intros|intros].
      * split; simpl; try done. intros ??. rewrite lookup_delete_Some. intros [_ ?]. eauto.
      * revert H. rewrite lookup_delete_Some. intros [Hne Hi]. destruct (Htr _ _ Hi) as [Hi' ?]. split; [|done].
        rewrite lookup_delete_ne; [done|]. intros ->. congruence.
      * revert H. rewrite lookup_delete_Some. intros [Hne Hi]. destruct (Hp _ _ Hi) as (t & Hi' & ?).
        exists t. split; [|done]. rewrite lookup_delete_ne; [done|]. intros ->.
        destruct (Hp _ _ Et) as (t' & ? & ?). congruence.
      * destruct (decide (src = src0)) as [->|]; [by rewrite !lookup_delete_eq|].
        rewrite !lookup_delete_ne by done. by apply Hs.
    + intros id Hle. simpl in *. destruct (Hf id Hle) as (? & Hn & ?). split_and!; try done.
      by rewrite lookup_delete_None, Hn; right.
  - split_and!; [|done|done].
    split; simpl; rewrite ?(delete_id _ _ Et); try done. intros src' Hne. destruct (decide (src = src')) as [->|].
    + by rewrite lookup_delete_eq.
    + rewrite lookup_delete_ne by done. by apply Hs.
Qed.

(** *** The microphone *)

Lemma set_mic_full enabled : preserves full (set_mic_enabled enabled false).
Proof.
  intros s ([[Hc Hid Hr Ht] Hrm Ho Hh Htr Hp Hs] & Hl & Hf).
  unfold set_mic_enabled, apply_mic, mbind_, gets, modify. simpl.
  destruct (lk_tracks (lk_conn s) !! Microphone) as [sid|] eqn:Et; simpl.
  - split_and!; [|done|].
    + assert (∀ i t, alter (λ t, mkLocalTrack (lt_room t) (lt_source t) enabled) sid (sdk_tracks (lk_sdk s)) !! i = Some t →
        ∃ t0, sdk_tracks (lk_sdk s) !! i = Some t0 ∧ lt_room t = lt_room t0 ∧ lt_source t = lt_source t0 ∧
          (i = sid → lt_enabled t = enabled)) as Halter.
      { intros i t. rewrite lookup_alter_Some. intros [(<- & t0 & Hi & ->)|[Hne Hi]]; [by eauto 10|].
        exists t. by split_and!. }
      split; simpl; try done.
      * split; simpl; try done. intros i t Hi. destruct (Halter _ _ Hi) as (t0 & Hi0 & -> & _). by apply (Ht i).
      * intros i t Hi. destruct (Halter _ _ Hi) as (t0 & Hi0 & _ & Hsrc & He). destruct (Htr _ _ Hi0) as [Hi' _].
        rewrite Hsrc. split; [done|]. intros Hm. apply He. congruence.
      * intros src i Hi. destruct (Hp _ _ Hi) as (t & Hi' & Hsrc). destruct (decide (i = sid)) as [->|].
        -- rewrite lookup_alter_eq, Hi'. by eexists.
        -- rewrite lookup_alter_ne by done. by exists t.
    + intros i Hle. simpl in *. destruct (Hf i Hle) as (? & Hn & ?). split_and!; try done.
      by apply lookup_alter_None.
  - split_and!; [|done..]. split; simpl; try done.
    intros i t Hi. destruct (Htr _ _ Hi) as [Hi' _]. split; [done|]. intros Hm. congruence.
Qed.

(** The first publication after joining; when it fails, leaving is still possible. *)
Lemma publish_audio_full answer panics s :
  full s → lk_tracks (lk_conn s) !! Microphone = None → lk_handles (lk_conn s) !! CaptureTask = None →
  match publish_audio answer panics s with
  | (Ok _, s') => full s'
  | (Err _, s') => conn_weak s' ∧ ids_ok (lk_sdk s')
  end.
Proof.
  intros (Hok & Hl & Hf) Ht Hh.
  unfold publish_audio, check_connected, room_handle, publish_track, apply_mic, mbind_, gets, modify, state, lift_result.
  pose proof Hok as [[Hc _ _ _] [room Hroom] _ _ _ _ _]. rewrite Hc. simpl. rewrite Hroom. simpl.
  destruct answer as [[]|e]; simpl; [|split; [apply Hok|done]].
  rewrite lookup_insert_eq.
  destruct panics; simpl.
  { split; [apply (add_track_weak Microphone true room s)|apply (add_track_ids Microphone true room s)]; [apply Hok|done..]. }
  set (s1 := add_track Microphone (lk_mic_enabled (lk_conn s)) room s).
  assert (full s1) as Hs1.
  { split_and!; [by apply add_track_ok|done|by apply add_track_ids]. }
  assert (mkLk (set_lk_tracks <[Microphone := sdk_next (lk_sdk s)]> (lk_conn s))
    (set_sdk_tracks (alter (λ t, mkLocalTrack (lt_room t) (lt_source t) (lk_mic_enabled (lk_conn s))) (sdk_next (lk_sdk s)))
      (set_sdk_tracks <[sdk_next (lk_sdk s) := mkLocalTrack room Microphone true]> (fresh_id (lk_sdk s)).2)) = s1) as E.
  { unfold s1, add_track. simpl. f_equal. unfold set_sdk_tracks. simpl. f_equal. apply map_eq. intros i.
    destruct (decide (i = sdk_next (lk_sdk s))) as [->|].
    - by rewrite lookup_alter_eq, !lookup_insert_eq.
    - by rewrite lookup_alter_ne, !lookup_insert_ne. }
  unfold on_sdk, on_conn in *. simpl in *. rewrite E.
  destruct (lk_capture_buffer (lk_conn s)); simpl; [|done].
  destruct Hs1 as (H1 & H2 & H3). destruct (spawn_ok CaptureTask s1 H1 H3) as [H4 H5]; [done..|].
  split_and!; [done| |done]. intros k Hk. rewrite spawn_handles. case_bool_decide; [by eexists|by apply H2].
Qed.

(** *** Tasks and events *)

Lemma spawn_detached_full k s : is_loop k = false → full s → full (spawn_detached k s).
Proof.
  intros Hk ([[Hc Hid Hr Ht] Hrm Ho Hh Htr Hp Hs] & Hl & Hf). unfold spawn_detached. simpl.
  destruct (Hf (sdk_next (lk_sdk s)) ltac:(lia)) as (Hn & _ & _).
  split_and!; [|done|].
  - split; simpl; try done.
    + split; simpl; try done; [lia|]. intros id k' o. rewrite lookup_insert_Some.
      intros [[<- [= <- <-]]|[Hne Hi]] Hl'; [congruence|by apply (Hr id k' o)].
    + intros k' id Hi. destruct (Hh _ _ Hi) as [Hi' ?]. split; [|done]. rewrite lookup_insert_ne; [done|].
      intros <-. congruence.
  - intros id Hle. simpl in *. destruct (Hf id ltac:(lia)) as (? & ? & ?). split_and!; try done.
    rewrite lookup_insert_ne; [done|lia].
Qed.
Lemma drop_detached id k o c d :
  sdk_running d !! id = Some (k, o) → is_loop k = false → full (mkLk c d) → full (mkLk c (set_sdk_running (delete id) d)).
Proof.
  intros Hid0 Hk ([[Hc Hid Hr Ht] Hrm Ho Hh Htr Hp Hs] & Hl & Hf). split_and!; [|done|].
  - split; simpl in *; try done.
    + split; simpl; try done. intros i k' o'. rewrite lookup_delete_Some. intros [_ ?]. eauto.
    + intros k' i Hi. destruct (Hh _ _ Hi) as [Hi' ?]. split; [|done]. rewrite lookup_delete_ne; [done|].
      intros ->. congruence.
  - intros i Hle. simpl in *. destruct (Hf i Hle) as (Hn & ? & ?). split_and!; try done.
    by rewrite lookup_delete_None, Hn; right.
Qed.

(** A loop of an open connection has the connection's identity. *)
Lemma loop_owner s id k o :
  conn_ok s → sdk_running (lk_sdk s) !! id = Some (k, o) → is_loop k = true → o ∉ sdk_closing (lk_sdk s).
Proof.
  intros [[_ _ Hr _] _ Ho Hh _ _ _] Hi Hk. specialize (Hr _ _ _ Hi Hk). destruct (Hh _ _ Hr) as [Hi' _]. congruence.
Qed.

Lemma room_event_full id ev s : ev ≠ Disconnected → full s → full (on_room_event id ev s).2.
Proof.
  intros Hev Hs. unfold on_room_event. destruct (sdk_running (lk_sdk s) !! id) as [[k o]|] eqn:Ei; [|done].
  destruct k; try done. rewrite bool_decide_eq_false_2 by (by eapply loop_owner; [apply Hs|exact Ei|]).
  destruct ev; try done; by apply spawn_detached_full.
Qed.
Lemma task_round_full id c d : full (mkLk c d) → full (mkLk c (task_round id d)).
Proof.
  intros Hs. unfold task_round. destruct (sdk_running d !! id) as [[k o]|] eqn:Ei; [|done].
  case_bool_decide as Hc; [|done]. destruct (is_loop k) eqn:Ek; [|by eapply drop_detached].
  destruct Hc as [_ Hc]. destruct Hs as [Hok _]. by destruct (loop_owner _ _ _ _ Hok Ei Ek).
Qed.
Lemma stream_ended_full id c d : full (mkLk c d) → full (mkLk c (stream_ended id d).2).
Proof.
  intros Hs. unfold stream_ended. destruct (sdk_running d !! id) as [[k o]|] eqn:Ei; [|done].
  destruct k; try done; by eapply drop_detached.
Qed.

Lemma feed_frame_full src a b data w h : preserves full (feed_frame src a b data w h).
Proof.
  intros s Hs. unfold feed_frame, mbind_, gets. destruct (lk_sources (lk_conn s) !! src); simpl; [|done].
  destruct (len data =? _) eqn:E; simpl; [|done]. destruct s as [c d]. simpl.
  case_bool_decide; revert Hs; by apply conn_ok_ext.
Qed.

(** *** Every run *)

Lemma set_mic_silent panics s :
  lk_tracks (lk_conn s) !! Microphone = None → set_mic_enabled false panics s = (Ok tt, on_conn (set_mic false) s).
Proof. intros Ht. unfold set_mic_enabled, apply_mic, mbind_, gets, modify. simpl. by rewrite Ht. Qed.

Lemma join_room_ok a id b d :
  ids_ok d → idle d → (id < sdk_next d)%nat →
  match join_room a (mkLk (lk_new id b) d) with
  | (Ok _, s) => full s
  | (Err _, s) => idle (lk_sdk s) ∧ ids_ok (lk_sdk s)
  end.
Proof.
  intros Hf Hi Hid. unfold join_room. destruct (ja_connect a) as [[]|e]; [|done].
  destruct (connect_full id b d Hf Hi Hid) as (Hs & Ht & Hh).
  pose proof (connect_steps (mkLk (lk_new id b) d) eq_refl) as Hc. unfold mbind_ at 1. rewrite Hc in *. cbn [snd] in *.
  remember (spawn TelemetryTask _) as s1 eqn:Es1. clear Es1 Hc.
  assert (full (on_conn (set_mic false) s1)) as Hs2.
  { pose proof (set_mic_full false s1 Hs) as H. rewrite set_mic_silent in H by (by rewrite Ht). done. }
  pose proof (publish_audio_full (ja_publish a) (ja_panics a) (on_conn (set_mic false) s1) Hs2) as Hp.
  unfold attempt, mbind_. rewrite set_mic_silent by (by rewrite Ht).
  destruct (publish_audio _ _ _) as [[[]|e] s2]; simpl.
  - apply Hp; [by simpl; rewrite Ht|done].
  - destruct Hp as [Hw Hf2]; [by simpl; rewrite Ht|done|]. pose proof (disconnect_idle s2 Hw Hf2) as H.
    by destruct (disconnect s2).
Qed.

Definition media_inv (s : Media) : Prop :=
  match md_lk s with
  | Some c => full (mkLk c (md_sdk s))
  | None => idle (md_sdk s) ∧ ids_ok (md_sdk s)
  end.

Lemma tear_down_idle s : media_inv s → idle (tear_down s) ∧ ids_ok (tear_down s).
Proof.
  unfold media_inv, tear_down. destruct (md_lk s) as [c|]; [|done]. intros (Hok & _ & Hf).
  apply disconnect_idle; [apply Hok|done].
Qed.
Lemma with_lk_inv {A} (m : M Lk RoomError A) s : preserves full m → media_inv s → media_inv (with_lk m s).
Proof.
  unfold media_inv, with_lk. intros Hm. destruct (md_lk s) as [c|] eqn:E; [|by rewrite E].
  intros Hs. specialize (Hm _ Hs). by destruct (m (mkLk c (md_sdk s))) as [r [c' d']].
Qed.
Lemma shrink_idle (d : Sdk) id : idle d ∧ ids_ok d → idle (set_sdk_running (delete id) d) ∧ ids_ok (set_sdk_running (delete id) d).
Proof.
  intros [[Hi Ht] Hf]. split; [split; [|done]|].
  - intros i k o. simpl. rewrite lookup_delete_Some. intros [_ ?]. eauto.
  - intros i Hle. simpl in *. destruct (Hf i Hle) as (Hn & ? & ?). split_and!; try done.
    by rewrite lookup_delete_None, Hn; right.
Qed.

(** No step in which the server ends the room, keeps a track it was asked to take back,
    or the SDK panics while it mutes the microphone. *)
Definition clean (st : MediaStep) : bool :=
  match st with
  | MEvent _ Disconnected | MUnpublish _ false | MSetMic _ true => false
  | _ => true
  end.

Lemma media_step_inv s st : clean st = true → media_inv s → media_inv (media_step s st).
Proof.
  intros Hc Hs. destruct st as [b a| |e p|src r|src t|src data w h|p e|id ev|id|id]; simpl.
  - unfold media_connect. destruct (tear_down_idle s Hs) as [Hi Hf]. simpl.
    match goal with |- context [join_room a (mkLk (lk_new ?i b) ?d)] =>
      pose proof (join_room_ok a i b d) as Hj; destruct (join_room a (mkLk (lk_new i b) d)) as [[[]|er] [c' d']] end;
      unfold media_inv; simpl in *; apply Hj; try lia; try (intros i Hle; apply Hf; simpl in Hle; lia); done.
  - by apply tear_down_idle.
  - destruct p; [done|]. by apply with_lk_inv; [apply set_mic_full|].
  - destruct src; [done|..]; apply with_lk_inv; auto using publish_picture_full, publish_screen_audio_full.
    all: by apply publish_picture_full.
  - destruct t; [|by destruct src]. destruct src; [done|..]; by apply with_lk_inv; [apply unpublish_full|].
  - destruct src; try done; by apply with_lk_inv; [apply feed_frame_full|].
  - apply with_lk_inv; [|done]. intros [c d] Hs'. unfold modify, on_conn, set_screen_share_audio_enabled. simpl.
    destruct e; revert Hs'; by apply conn_ok_ext.
  - apply with_lk_inv; [|done]. intros s' Hs'. unfold state.
    pose proof (room_event_full id ev s') as H. destruct (on_room_event id ev s'). apply H; [|done]. by intros ->.
  - unfold media_inv in *. simpl. destruct (md_lk s); [by apply task_round_full|]. unfold task_round.
    destruct (sdk_running (md_sdk s) !! id) as [[k o]|]; [|done]. case_bool_decide; [by apply shrink_idle|done].
  - unfold media_inv in *. simpl. destruct (md_lk s); [by apply stream_ended_full|]. unfold stream_ended.
    destruct (sdk_running (md_sdk s) !! id) as [[k o]|]; [|done]. destruct k; try done; by apply shrink_idle.
Qed.

Lemma media_run_inv steps s : Forall (λ st, clean st = true) steps → media_inv s → media_inv (media_run s steps).
Proof.
  intros Hc. revert s. induction Hc as [|st steps Hst _ IH]; simpl; [done|].
  intros s Hs. apply IH. by apply media_step_inv.
Qed.

(** C28: over every sequence of joins, leaves, publications, remote events and task rounds of
    the desktop client (the server not ending the room by itself, no failed unpublish, no
    panic in the SDK): at most one loop of a kind runs and at most one track per source is
    published; without a connection no loop runs and nothing is published; with one, its
    four permanent loops run, every published track is the one the connection holds, every
    source feeds the published track, and the microphone is live exactly when enabled. *)
Theorem media_session_exact (steps : list MediaStep) :
  Forall (λ st, clean st = true) steps →
  let s := media_run media_new steps in
  let running := sdk_running (md_sdk s) in
  let tracks := sdk_tracks (md_sdk s) in
  (∀ k i j o p, is_loop k = true → running !! i = Some (k, o) → running !! j = Some (k, p) → i = j) ∧
  (∀ i j t u, tracks !! i = Some t → tracks !! j = Some u → lt_source t = lt_source u → i = j) ∧
  match md_lk s with
  | None => (∀ i k o, running !! i = Some (k, o) → is_loop k = false) ∧ tracks = ∅
  | Some c =>
      (∀ k, k ∈ [EventTask; StatsTask; TelemetryTask; MixTask] → ∃ i, running !! i = Some (k, lk_id c)) ∧
      (∀ src sid, src ≠ Microphone → lk_sources c !! src = Some sid → ∃ t, tracks !! sid = Some t ∧ lt_source t = src) ∧
      (∀ sid t, tracks !! sid = Some t →
        lk_room c = Some (lt_room t) ∧ lk_tracks c !! lt_source t = Some sid ∧
        (lt_source t = Microphone → lt_enabled t = lk_mic_enabled c))
  end.
Proof.
  intros Hc. cbv zeta. assert (media_inv (media_run media_new steps)) as Hs.
  { apply media_run_inv; [done|]. split; [by split|]. intros id _. by split_and!. }
  unfold media_inv in Hs. destruct (md_lk (media_run media_new steps)) as [c|].
  - destruct Hs as ([[_ _ Hr Ht] Hrm Ho Hh Htr Hp Hso] & Hl & Hf). simpl in *. split_and!.
    + intros k i j o p Hk Hi Hj. pose proof (Hr _ _ _ Hi Hk). pose proof (Hr _ _ _ Hj Hk). congruence.
    + intros i j t u Hi Hj E. destruct (Htr _ _ Hi) as [? _], (Htr _ _ Hj) as [? _]. congruence.
    + intros k Hk. destruct (Hl k Hk) as [i Hi]. exists i. apply Hh, Hi.
    + intros src sid Hne Hi. rewrite (Hso _ Hne) in Hi. by apply Hp.
    + intros sid t Hi. split; [by apply (Ht sid)|by apply Htr].
  - destruct Hs as [[Hi Ht] Hf]. split_and!; [| |done|done].
    + intros k i j o p Hk Hr _. specialize (Hi _ _ _ Hr). congruence.
    + intros i j t u. by rewrite Ht, lookup_empty.
Qed.

(** ** Demonstrations *)

Module LkDemo.
Definition answers : JoinAnswers := mkJoinAnswers (Ok tt) (Ok tt) false.
Definition joined : Media := media_run media_new [MConnect true answers].
(** The listener of the first connection. *)
Definition listener : nat := 3.

Definition loops (k : TaskKind) (s : Media) : nat :=
  length (filter (λ '(_, x), x.1 = k) (map_to_list (sdk_running (md_sdk s)))).
Definition published (src : LocalSource) (s : Media) : nat :=
  length (filter (λ '(_, t), lt_source t = src) (map_to_list (sdk_tracks (md_sdk s)))).

Definition call : list MediaStep :=
  [MConnect true answers; MEvent listener (AudioSubscribed "bob" ScreenshareAudio "TR_1"); MSetMic true false;
   MPublish Screenshare (Ok tt); MFeed Screenshare [1; 2; 3; 255] 1 1; MPublish Screenshare (Ok tt);
   MUnpublish Screenshare true; MDisconnect; MRound 8; MConnect true answers; MPublish Camera (Ok tt)].
Lemma media_session_exact_witness :
  Forall (λ st, clean st = true) call ∧
  ∃ c, md_lk (media_run media_new call) = Some c ∧
    (∀ sid t, sdk_tracks (md_sdk (media_run media_new call)) !! sid = Some t →
      lk_room c = Some (lt_room t) ∧ lk_tracks c !! lt_source t = Some sid ∧
      (lt_source t = Microphone → lt_enabled t = lk_mic_enabled c)).
Proof.
  assert (Forall (λ st, clean st = true) call) as Hc by (repeat constructor).
  split; [exact Hc|]. pose proof (media_session_exact call Hc) as (_ & _ & H).
  destruct (md_lk (media_run media_new call)) as [c|] eqn:E.
  - exists c. split; [reflexivity|]. apply H.
  - vm_compute in E. discriminate E.
Defined.

(** When the server ends the room, leaving does nothing: the loops of the old connection go
    on, and after the next join two capture loops share the microphone buffer. *)
Theorem server_disconnect_leaks :
  let ended := media_run joined [MEvent listener Disconnected] in
  let left := media_run ended [MDisconnect; MRound 2; MRound 4; MRound 5; MRound 7] in
  loops MixTask left = 1%nat ∧ loops CaptureTask left = 1%nat ∧
  loops CaptureTask (media_run ended [MConnect true answers]) = 2%nat.
Proof. vm_compute. auto. Qed.

(** A session that joins with the same connection again: the screen share it had is still
    marked as published, and publishing it in the new room succeeds without effect. *)
Theorem stale_share_not_published :
  let join := (do! connect (Ok tt) in publish_audio (Ok tt) false)%prog in
  let s1 := ((do! join in publish_video (Ok tt))%prog (mkLk (lk_new 0 true) (fresh_id sdk_new).2)).2 in
  let s2 := (on_room_event listener Disconnected s1).2 in
  let s3 := ((do! disconnect in join)%prog s2).2 in
  match publish_video (Ok tt) s3 with
  | (Ok _, s4) => published Screenshare (mkMedia None (lk_sdk s4)) = 0%nat ∧ published Screenshare (mkMedia None (lk_sdk s1)) = 1%nat
  | _ => False
  end.
Proof. vm_compute. auto. Qed.
End LkDemo.
