(* ===== verification/ShareHelper.v ===== *)
(** * The share helper of the desktop client
    (clients/wavis-gui/src-tauri/src/external_share_helper/)

    On Linux a screen can be shared through a page in the system browser, which posts
    frames and events to a local HTTP server.  Every request has a thread of its own;
    the session is behind one lock and the connection behind another.  Here are the
    requests, the two commands, and their threads, a step of which ends where the next
    lock is taken.  What a decoder makes of a body, and what the media server answers,
    are arguments. *)

From Stdlib Require Import Ascii.
From stdpp Require Import countable.
From S2P Require Import Prelude Signaling FieldValidation SfuBridge Tokens SfuRelay Config Commands RoomSession LiveKit Frames ShareStream.
Local Open Scope Z_scope.

(** ** Requests *)

(** [find_header_end]: where the empty line starts. *)
Fixpoint find_header_end (bytes : string) : option nat :=
  match bytes with
  | EmptyString => None
  | String _ rest => if String.prefix (crlf +:+ crlf) bytes then Some 0%nat else S <$> find_header_end rest
  end.

(** [split_target]. *)
Definition split_target (target : string) : string * string :=
  match split_once "?" target with Some pq => pq | None => (target, EmptyString) end.

(** The request line and the body that [handle_connection] routes on. *)
Definition request_line (header : string) : option (string * string) :=
  line ← first_line header;
  let parts := split_whitespace line in
  Some (default EmptyString (parts !! 0%nat), default "/" (parts !! 1%nat)).

(** A request as it was read: nothing, or its method, target and body. *)
Definition read_request (bytes : string) : Result (option (string * string * string)) string :=
  match bytes with
  | EmptyString => Ok None
  | _ =>
      match find_header_end bytes with
      | None => Err "helper request missing header terminator"
      | Some n =>
          match request_line (from_utf8_lossy (String.substring 0 n bytes)) with
          | None => Err "empty helper request"
          | Some (method, target) => Ok (Some (method, target, skip_bytes (n + 4) bytes))
          end
      end
  end.

(** The body as the image decoder sees it. *)
Inductive FrameBody : Type := EmptyBody | BadImage | Image (frame : CapturedFrame).

(** [HelperEvent]. *)
Record HelperEvent : Type := mkHelperEvent { he_session_id : string; he_event : string; he_message : option string }.

(** What a request asks for; the body is an event, a frame or nothing. *)
Inductive HelperBody : Type := EventBody (e : HelperEvent) | FrameData (b : FrameBody) | NoBody.
Inductive HelperRequest : Type :=
| GetPage (session_id : string)
| GetSession (session_id : string)
| GetControl (session_id : string)
| PostEvent (e : HelperEvent)
| InvalidEvent
| PostFrame (session_id : string) (b : FrameBody)
| NotFound.
Definition route (method target : string) (body : HelperBody) : HelperRequest :=
  let '(path, query) := split_target target in
  let session := default EmptyString (query_param query "session") in
  if bool_decide (method = "GET" ∧ path = "/helper") then GetPage session
  else if bool_decide (method = "GET" ∧ path = "/api/session") then GetSession session
  else if bool_decide (method = "GET" ∧ path = "/api/control") then GetControl session
  else if bool_decide (method = "POST" ∧ path = "/api/event") then
    match body with EventBody e => PostEvent e | _ => InvalidEvent end
  else if bool_decide (method = "POST" ∧ path = "/api/frame") then
    PostFrame session (match body with FrameData b => b | EventBody _ => BadImage | NoBody => EmptyBody end)
  else NotFound.

(** ** State *)

(** [HelperSession], [Inner]. *)
Record HelperSession : Type := mkHelperSession {
  hs_id : string;
  hs_stop_requested : bool;
  hs_published : bool;
  hs_publishing_in_progress : bool
}.
Definition session_new (id : string) : HelperSession := mkHelperSession id false false false.

(** What the application is told. *)
Inductive HelperNotice : Type :=
| ShareStarted (session_id : string)
| ShareStopped (session_id : string)
| ShareFailed (session_id message : string).

(** What closes a published track, with the session lock held. *)
Inductive Closing : Type :=
| ByEvent (e : HelperEvent)
| ByStop
| ByStart (new_id : string).

(** A thread, by the lock it takes next; [FUpdate] holds the connection, [CUnpublish]
    the session. *)
Inductive HelperThread : Type :=
| FClaim (session_id : string) (b : FrameBody)
| FPublish (session_id : string) (frame : CapturedFrame) (needs_publish : bool)
| FUpdate (session_id : string) (frame : CapturedFrame) (published : Result unit RoomError)
| SCheck (new_id : string) (port : Result Z string)
| SServer (new_id : string) (port : Result Z string)
| CEnter (c : Closing)
| CUnpublish (c : Closing)
| HDone (r : Result unit string)
| HPanic.

Record Helper : Type := mkHelper {
  hp_port : option Z;
  hp_session : option HelperSession;
  hp_session_lock : option nat;
  hp_lk_lock : option nat;
  hp_media : Media;
  hp_config : ScreenShareConfig;
  hp_threads : gmap nat HelperThread;
  hp_notices : list HelperNotice;
  hp_published_by : list string
}.
Definition set_hp_session x (h : Helper) : Helper :=
  mkHelper (hp_port h) x (hp_session_lock h) (hp_lk_lock h) (hp_media h) (hp_config h) (hp_threads h) (hp_notices h) (hp_published_by h).
Definition set_hp_port x (h : Helper) : Helper :=
  mkHelper x (hp_session h) (hp_session_lock h) (hp_lk_lock h) (hp_media h) (hp_config h) (hp_threads h) (hp_notices h) (hp_published_by h).
Definition set_locks x y (h : Helper) : Helper :=
  mkHelper (hp_port h) (hp_session h) x y (hp_media h) (hp_config h) (hp_threads h) (hp_notices h) (hp_published_by h).
Definition set_hp_media x (h : Helper) : Helper :=
  mkHelper (hp_port h) (hp_session h) (hp_session_lock h) (hp_lk_lock h) x (hp_config h) (hp_threads h) (hp_notices h) (hp_published_by h).
Definition set_thread t x (h : Helper) : Helper :=
  mkHelper (hp_port h) (hp_session h) (hp_session_lock h) (hp_lk_lock h) (hp_media h) (hp_config h) (<[t := x]> (hp_threads h)) (hp_notices h) (hp_published_by h).
Definition notify x (h : Helper) : Helper :=
  mkHelper (hp_port h) (hp_session h) (hp_session_lock h) (hp_lk_lock h) (hp_media h) (hp_config h) (hp_threads h) (hp_notices h ++ [x]) (hp_published_by h).
Definition record_publish x (h : Helper) : Helper :=
  mkHelper (hp_port h) (hp_session h) (hp_session_lock h) (hp_lk_lock h) (hp_media h) (hp_config h) (hp_threads h) (hp_notices h) (hp_published_by h ++ [x]).

(** [ExternalShareHelperState::new]. *)
Definition helper_new (media : Media) (config : ScreenShareConfig) : Helper :=
  mkHelper None None None None media config ∅ [] [].

(** ** The answers that read only the session *)

(** [GET /api/session] and [GET /api/control]. *)
Definition session_exists (session_id : string) (s : option HelperSession) : bool :=
  match s with Some s => String.eqb (hs_id s) session_id | None => false end.
Definition stop_requested (session_id : string) (s : option HelperSession) : bool :=
  match s with
  | Some s => if String.eqb (hs_id s) session_id then hs_stop_requested s else true
  | None => true
  end.

(** The answers of the requests that change nothing, with their status. *)
Inductive HelperReply : Type :=
| ReplyPage (session_id : string)
| ReplySession (session_id : string)
| ReplyNoSession
| ReplyControl (stop : bool)
| ReplyNotFound.
Definition read_reply (r : HelperRequest) (s : option HelperSession) : option HelperReply :=
  match r with
  | GetPage id => Some (ReplyPage id)
  | GetSession id => Some (if session_exists id s then ReplySession id else ReplyNoSession)
  | GetControl id => Some (ReplyControl (stop_requested id s))
  | NotFound => Some ReplyNotFound
  | PostEvent _ | PostFrame _ _ | InvalidEvent => None
  end.
Definition reply_status (r : HelperReply) : Z :=
  match r with ReplyNoSession | ReplyNotFound => 404 | _ => 200 end.
(** The thread a request starts. *)
Definition request_thread (r : HelperRequest) : option HelperThread :=
  match r with
  | PostEvent e => Some (CEnter (ByEvent e))
  | PostFrame id b => Some (FClaim id b)
  | _ => None
  end.

(** ** Frames ([process_helper_frame]) *)

(** What the media server answers in a step. *)
Record HelperAnswers : Type := mkHelperAnswers { ha_publish : Result unit string; ha_unpublish : bool }.

(** The first critical section: is the session this one, is it live, is its track
    published; otherwise this thread publishes it. *)
Definition claim (session_id : string) (s : option HelperSession) :
    Result (option bool) string * option HelperSession :=
  match s with
  | None => (Err "helper session not active", s)
  | Some x =>
      if negb (String.eqb (hs_id x) session_id) then (Err "helper session mismatch", s)
      else if hs_stop_requested x then (Err "helper session stopping", s)
      else if hs_publishing_in_progress x then (Ok None, s)
      else if hs_published x then (Ok (Some false), s)
      else (Ok (Some true), Some (mkHelperSession (hs_id x) (hs_stop_requested x) (hs_published x) true))
  end.

(** Then, without a lock, decoding and scaling. *)
Definition frame_claim (t : nat) (session_id : string) (b : FrameBody) (h : Helper) : Helper :=
  match b with
  | EmptyBody => set_thread t (HDone (Err "empty frame body")) h
  | _ =>
      match claim session_id (hp_session h) with
      | (Err e, s) => set_thread t (HDone (Err e)) (set_hp_session s h)
      | (Ok None, s) => set_thread t (HDone (Ok tt)) (set_hp_session s h)
      | (Ok (Some needs), s) =>
          set_thread t
            (match b with
             | Image frame =>
                 match cap_resolution frame (sc_max_width (hp_config h)) (sc_max_height (hp_config h)) with
                 | Some capped => FPublish session_id capped needs
                 | None => HPanic
                 end
             | _ => HDone (Err "failed to decode helper frame")
             end) (set_hp_session s h)
      end
  end.

(** [conn.feed_video_frame], with the connection held; it is released at the end. *)
Definition feed (t : nat) (frame : CapturedFrame) (h : Helper) : Helper :=
  let finish r m := set_thread t (HDone r) (set_hp_media m (set_locks (hp_session_lock h) None h)) in
  match md_lk (hp_media h) with
  | None => finish (Err "not connected to a room") (hp_media h)
  | Some c =>
      let '(r, s) := feed_video_frame (fr_data frame) (fr_width frame) (fr_height frame) (mkLk c (md_sdk (hp_media h))) in
      finish (match r with Ok _ => Ok tt | Err _ => Err "failed to feed external share frame" end)
        (mkMedia (Some (lk_conn s)) (lk_sdk s))
  end.

(** The connection is taken; the first frame publishes the track. *)
Definition frame_publish (t : nat) (session_id : string) (frame : CapturedFrame) (needs : bool) (a : HelperAnswers)
    (h : Helper) : Helper :=
  match md_lk (hp_media h) with
  | None => set_thread t (HDone (Err "not connected to a room")) h
  | Some c =>
      if needs then
        let '(r, s) := publish_video (ha_publish a) (mkLk c (md_sdk (hp_media h))) in
        let h1 := set_hp_media (mkMedia (Some (lk_conn s)) (lk_sdk s)) (set_locks (hp_session_lock h) (Some t) h) in
        set_thread t (FUpdate session_id frame r) (if is_Ok r then record_publish session_id h1 else h1)
      else feed t frame h
  end.

(** The second critical section, inside the connection lock. *)
Definition mark_published (session_id : string) (ok : bool) (s : option HelperSession) : option HelperSession :=
  match s with
  | Some x =>
      if String.eqb (hs_id x) session_id then
        Some (mkHelperSession (hs_id x) (hs_stop_requested x) (if ok then true else hs_published x) false)
      else s
  | None => None
  end.
Definition frame_update (t : nat) (session_id : string) (frame : CapturedFrame) (r : Result unit RoomError)
    (h : Helper) : Helper :=
  let h1 := set_hp_session (mark_published session_id (is_Ok r) (hp_session h)) h in
  match r with
  | Ok _ => feed t frame h1
  | Err _ => set_thread t (HDone (Err "failed to publish external share video track")) (set_locks (hp_session_lock h) None h1)
  end.

(** ** Closing ([process_helper_event], [external_share_stop], [external_share_start]) *)

Definition mark_stop (s : option HelperSession) : option HelperSession :=
  (λ x, mkHelperSession (hs_id x) true (hs_published x) (hs_publishing_in_progress x)) <$> s.
Definition mark_unpublished (s : option HelperSession) : option HelperSession :=
  (λ x, mkHelperSession (hs_id x) (hs_stop_requested x) false (hs_publishing_in_progress x)) <$> s.

(** What is left to do once the track is gone or was not there. *)
Definition finish_closing (t : nat) (c : Closing) (h : Helper) : Helper :=
  let h1 := set_thread t (HDone (Ok tt)) (set_locks None (hp_lk_lock h) h) in
  match c with
  | ByEvent e =>
      set_hp_session None
        (notify (if String.eqb (he_event e) "stopped" then ShareStopped (he_session_id e)
                 else ShareFailed (he_session_id e) (default "external share failed" (he_message e))) h1)
  | ByStop => h1
  | ByStart new_id => set_hp_session (Some (session_new new_id)) h1
  end.

(** [stop_published_video] needs the connection only for a published track. *)
Definition close_track (t : nat) (c : Closing) (h : Helper) : Helper :=
  match hp_session h with
  | Some x =>
      if hs_published x then set_thread t (CUnpublish c) (set_locks (Some t) (hp_lk_lock h) h)
      else finish_closing t c h
  | None => finish_closing t c h
  end.

(** The session is locked. *)
Definition closing_enter (t : nat) (c : Closing) (h : Helper) : Helper :=
  match c with
  | ByEvent e =>
      match hp_session h with
      | None => set_thread t (HDone (Ok tt)) h
      | Some x =>
          if negb (String.eqb (hs_id x) (he_session_id e)) then set_thread t (HDone (Ok tt)) h
          else if String.eqb (he_event e) "started" then
            set_thread t (HDone (Ok tt)) (notify (ShareStarted (he_session_id e)) h)
          else if String.eqb (he_event e) "stopped" || String.eqb (he_event e) "error" then close_track t c h
          else set_thread t (HDone (Ok tt)) h
      end
  | ByStop => close_track t c (set_hp_session (mark_stop (hp_session h)) h)
  | ByStart _ => close_track t c h
  end.

(** The connection too: [unpublish_video], if there is a connection. *)
Definition closing_unpublish (t : nat) (c : Closing) (a : HelperAnswers) (h : Helper) : Helper :=
  finish_closing t c
    (set_hp_session (mark_unpublished (hp_session h))
       (set_hp_media (with_lk (unpublish_video (ha_unpublish a)) (hp_media h)) h)).

(** [external_share_start] up to the session: a connection, then the server. *)
Definition start_check (t : nat) (new_id : string) (port : Result Z string) (h : Helper) : Helper :=
  match md_lk (hp_media h) with
  | Some _ => set_thread t (SServer new_id port) h
  | None => set_thread t (HDone (Err "not connected to a room")) h
  end.
Definition start_server (t : nat) (new_id : string) (port : Result Z string) (h : Helper) : Helper :=
  match hp_port h, port with
  | Some _, _ => set_thread t (CEnter (ByStart new_id)) h
  | None, Ok p => set_thread t (CEnter (ByStart new_id)) (set_hp_port (Some p) h)
  | None, Err e => set_thread t (HDone (Err ("failed to bind helper server: " +:+ e))) h
  end.

(** ** Interleaving *)

(** One step of thread [t], if the lock it needs is free. *)
Definition helper_step (t : nat) (a : HelperAnswers) (h : Helper) : option Helper :=
  match hp_threads h !! t with
  | Some (FClaim sid b) => if hp_session_lock h then None else Some (frame_claim t sid b h)
  | Some (FPublish sid f needs) => if hp_lk_lock h then None else Some (frame_publish t sid f needs a h)
  | Some (FUpdate sid f r) => if hp_session_lock h then None else Some (frame_update t sid f r h)
  | Some (SCheck id port) => if hp_lk_lock h then None else Some (start_check t id port h)
  | Some (SServer id port) => if hp_session_lock h then None else Some (start_server t id port h)
  | Some (CEnter c) => if hp_session_lock h then None else Some (closing_enter t c h)
  | Some (CUnpublish c) => if hp_lk_lock h then None else Some (closing_unpublish t c a h)
  | Some (HDone _) | Some HPanic | None => None
  end.

(** What happens: a request or a command starts a thread, a thread runs on, or another
    command of the client uses the connection. *)
Inductive HelperAction : Type :=
| AStart (t : nat) (th : HelperThread)
| AStep (t : nat) (a : HelperAnswers)
| AMedia (st : MediaStep).
Definition starts (th : HelperThread) : bool :=
  match th with FClaim _ _ | SCheck _ _ | CEnter (ByEvent _) | CEnter ByStop => true | _ => false end.
Definition helper_act (h : Helper) (x : HelperAction) : option Helper :=
  match x with
  | AStart t th => if starts th && bool_decide (hp_threads h !! t = None) then Some (set_thread t th h) else None
  | AStep t a => helper_step t a h
  | AMedia st => if hp_lk_lock h then None else Some (set_hp_media (media_step (hp_media h) st) h)
  end.
Fixpoint helper_run (h : Helper) (xs : list HelperAction) : option Helper :=
  match xs with
  | [] => Some h
  | x :: xs' => h' ← helper_act h x; helper_run h' xs'
  end.

(** ** Waiting *)

Definition finished (th : HelperThread) : bool :=
  match th with HDone _ | HPanic => true | _ => false end.
(** The lock the thread needs is taken. *)
Definition waits (h : Helper) (th : HelperThread) : bool :=
  match th with
  | FClaim _ _ | FUpdate _ _ _ | SServer _ _ | CEnter _ => bool_decide (is_Some (hp_session_lock h))
  | FPublish _ _ _ | SCheck _ _ | CUnpublish _ => bool_decide (is_Some (hp_lk_lock h))
  | HDone _ | HPanic => false
  end.
Lemma step_or_wait t th x h :
  hp_threads h !! t = Some th → helper_step t x h = None ↔ finished th = true ∨ waits h th = true.
Proof.
  intros Ht. unfold helper_step. rewrite Ht.
  destruct th; simpl; destruct (hp_session_lock h), (hp_lk_lock h); simpl; naive_solver.
Qed.

(** Threads are left, and none of them will ever run. *)
Definition deadlocked (h : Helper) : Prop :=
  (∃ t th, hp_threads h !! t = Some th ∧ finished th = false) ∧ ∀ t x, helper_step t x h = None.
Definition deadlockedb (h : Helper) : bool :=
  let ths := (map_to_list (hp_threads h)).*2 in
  existsb (λ th, negb (finished th)) ths && forallb (λ th, finished th || waits h th) ths.
Lemma deadlockedb_sound h : deadlockedb h = true → deadlocked h.
Proof.
  unfold deadlockedb. intros [He Hf]%andb_true_iff. apply existsb_exists in He as (th & Hth & Hn).
  apply list_elem_of_In, list_elem_of_fmap in Hth as ([t th'] & -> & Ht). apply elem_of_map_to_list in Ht.
  split; [exists t, th'; split; [done|by apply negb_true_iff]|].
  intros t' x. destruct (hp_threads h !! t') as [th2|] eqn:E; [|unfold helper_step; by rewrite E].
  apply (step_or_wait _ _ _ _ E), orb_true_iff. rewrite forallb_forall in Hf. apply Hf, list_elem_of_In, list_elem_of_fmap.
  exists (t', th2). split; [done|]. by apply elem_of_map_to_list.
Qed.

(** ** One session

    While no second session is started. *)

Definition claimable (x : HelperSession) : bool :=
  negb (hs_publishing_in_progress x) && negb (hs_published x) && negb (hs_stop_requested x).

(** The thread that publishes, before and after it does. *)
Definition publisher (th : HelperThread) : option (string * option bool) :=
  match th with
  | FPublish sid _ true => Some (sid, None)
  | FUpdate sid _ r => Some (sid, Some (is_Ok r))
  | _ => None
  end.
Definition holds_session (th : HelperThread) : option Closing :=
  match th with CUnpublish c => Some c | _ => None end.
Definition holds_lk (th : HelperThread) : bool := match th with FUpdate _ _ _ => true | _ => false end.
Definition starting (th : HelperThread) : bool :=
  match th with SCheck _ _ | SServer _ _ | CEnter (ByStart _) | CUnpublish (ByStart _) => true | _ => false end.

(** What a running publisher says of the session and of the log. *)
Definition publishing (session_id : string) (s : option HelperSession) (log : list string)
    (p : string * option bool) : Prop :=
  p.1 = session_id ∧
  (∀ x, s = Some x → hs_publishing_in_progress x = true ∧ hs_published x = false) ∧
  log = (if default false p.2 then [session_id] else []).

Record one_session (id : string) (h : Helper) : Prop := {
  os_id : ∀ x, hp_session h = Some x → hs_id x = id;
  os_lock : ∀ t, hp_session_lock h = Some t → ∃ th, hp_threads h !! t = Some th ∧ is_Some (holds_session th);
  os_held : ∀ t th c, hp_threads h !! t = Some th → holds_session th = Some c →
    hp_session_lock h = Some t ∧
    ∃ x, hp_session h = Some x ∧ hs_published x = true ∧ (c = ByStop → hs_stop_requested x = true);
  os_lk : ∀ t, hp_lk_lock h = Some t → ∃ th, hp_threads h !! t = Some th ∧ holds_lk th = true;
  os_lk_held : ∀ t th, hp_threads h !! t = Some th → holds_lk th = true → hp_lk_lock h = Some t;
  os_start : ∀ t th, hp_threads h !! t = Some th → starting th = false;
  os_publisher : ∀ t th p, hp_threads h !! t = Some th → publisher th = Some p →
    publishing id (hp_session h) (hp_published_by h) p;
  os_unique : ∀ t t' th th', hp_threads h !! t = Some th → hp_threads h !! t' = Some th' →
    is_Some (publisher th) → is_Some (publisher th') → t = t';
  os_claimable : ∀ x, hp_session h = Some x → claimable x = true → hp_published_by h = [];
  os_log : (length (hp_published_by h) ≤ 1)%nat
}.

(** A published or claimed session has no publisher, or one. *)
Lemma no_publisher id h x :
  one_session id h → hp_session h = Some x → hs_publishing_in_progress x && negb (hs_published x) = false →
  ∀ t th, hp_threads h !! t = Some th → publisher th = None.
Proof.
  intros H Hs Hx t th Ht. destruct (publisher th) as [p|] eqn:E; [|done].
  destruct (os_publisher _ _ H _ _ _ Ht E) as (_ & Hp & _). destruct (Hp x Hs) as [E1 E2]. by rewrite E1, E2 in Hx.
Qed.

(** The components a step does not touch. *)
Definition quiet (th : HelperThread) : Prop :=
  holds_session th = None ∧ holds_lk th = false ∧ starting th = false ∧ publisher th = None.

(** A thread without a lock that becomes a thread without one, the session being kept. *)
Lemma one_session_quiet id h t th h' :
  one_session id h →
  (∀ th0, hp_threads h !! t = Some th0 → holds_session th0 = None ∧ holds_lk th0 = false) →
  quiet th → hp_threads h' = <[t := th]> (hp_threads h) → hp_session h' = hp_session h →
  hp_session_lock h' = hp_session_lock h → hp_lk_lock h' = hp_lk_lock h → hp_published_by h' = hp_published_by h →
  one_session id h'.
Proof.
  intros [H1 H2 H3 H4 H5 H6 H7 H8 H9 H10] H0 (Q1 & Q2 & Q3 & Q4) E1 E2 E3 E4 E5.
  split; rewrite ?E1, ?E2, ?E3, ?E4, ?E5; try done.
  - intros t' Ht'. destruct (H2 t' Ht') as (th' & Hth & Hs). exists th'. split; [|done].
    rewrite lookup_insert_ne; [done|]. intros ->. destruct (H0 _ Hth) as [E _]. rewrite E in Hs. by destruct Hs.
  - intros t' th' c. rewrite lookup_insert_Some. intros [[<- <-]|[_ ?]]; [congruence|by apply H3].
  - intros t' Ht'. destruct (H4 t' Ht') as (th' & Hth & Hs). exists th'. split; [|done].
    rewrite lookup_insert_ne; [done|]. intros ->. destruct (H0 _ Hth) as [_ E]. congruence.
  - intros t' th'. rewrite lookup_insert_Some. intros [[<- <-]|[_ ?]]; [congruence|by apply H5].
  - intros t' th'. rewrite lookup_insert_Some. intros [[<- <-]|[_ ?]]; [done|by apply (H6 t')].
  - intros t' th' p. rewrite lookup_insert_Some. intros [[<- <-]|[_ ?]]; [congruence|by apply (H7 t')].
  - intros t1 t2 th1 th2. rewrite !lookup_insert_Some. rewrite <- !not_eq_None_Some.
    intros [[<- <-]|[_ ?]] [[<- <-]|[_ ?]] ??; try congruence. apply (H8 t1 t2 th1 th2); by rewrite <- ?not_eq_None_Some.
Qed.

(** A step of thread [t] that changes the session: nobody else holds it. *)
Lemma session_updated id h h' t th :
  one_session id h → hp_threads h' = <[t := th]> (hp_threads h) →
  (∀ t' th', t' ≠ t → hp_threads h !! t' = Some th' → holds_session th' = None) →
  (∀ t' th', t' ≠ t → hp_threads h !! t' = Some th' → holds_lk th' = true → hp_lk_lock h' = Some t') →
  (∀ t', hp_lk_lock h' = Some t' → t' ≠ t ∧ hp_lk_lock h = Some t') → holds_lk th = false →
  starting th = false →
  hp_session_lock h' = (if holds_session th then Some t else None) →
  (∀ c, holds_session th = Some c →
    ∃ x, hp_session h' = Some x ∧ hs_published x = true ∧ (c = ByStop → hs_stop_requested x = true)) →
  (∀ x, hp_session h' = Some x → hs_id x = id) →
  (∀ t' th' p, t' ≠ t → hp_threads h !! t' = Some th' → publisher th' = Some p →
    publisher th = None ∧ publishing id (hp_session h') (hp_published_by h) p) →
  (∀ p, publisher th = Some p → publishing id (hp_session h') (hp_published_by h) p) →
  (∀ x, hp_session h' = Some x → claimable x = true → hp_published_by h = []) →
  hp_published_by h' = hp_published_by h →
  one_session id h'.
Proof.
  intros [H1 H2 H3 H4 H5 H6 H7 H8 H9 H10] E1 A1 A2 A3 A4 A5 A6 A7 A8 A9 A10 A11 E2.
  split; rewrite ?E1, ?E2; try done.
  - intros t'. rewrite A6. destruct (holds_session th) eqn:E; intros [= <-]. exists th. by rewrite lookup_insert_eq, E.
  - intros t' th' c. rewrite lookup_insert_Some. intros [[<- <-]|[Hne Hi]] Hc.
    + rewrite A6, Hc. eauto.
    + rewrite (A1 _ _ (not_eq_sym Hne) Hi) in Hc. done.
  - intros t' Ht'. destruct (A3 _ Ht') as [Hne Hl]. destruct (H4 _ Hl) as (th' & Hi & ?). exists th'.
    by rewrite lookup_insert_ne.
  - intros t' th'. rewrite lookup_insert_Some. intros [[<- <-]|[Hne Hi]] Hc; [congruence|].
    by apply (A2 t' th').
  - intros t' th'. rewrite lookup_insert_Some. intros [[<- <-]|[_ ?]]; [done|by apply (H6 t')].
  - intros t' th' p. rewrite lookup_insert_Some. intros [[<- <-]|[Hne Hi]] Hp; [by apply A10|].
    by apply (A9 t' th' p).
  - intros t1 t2 th1 th2. rewrite !lookup_insert_Some.
    intros [[<- <-]|[N1 I1]] [[<- <-]|[N2 I2]] [p1 P1] [p2 P2]; [done|..|by eapply (H8 t1 t2)].
    + destruct (A9 _ _ _ (not_eq_sym N2) I2 P2). congruence.
    + destruct (A9 _ _ _ (not_eq_sym N1) I1 P1). congruence.
Qed.

(** With the session lock free, nobody holds the session. *)
Lemma session_free id h : one_session id h → hp_session_lock h = None →
  ∀ t th, hp_threads h !! t = Some th → holds_session th = None.
Proof.
  intros H Hl t th Ht. destruct (holds_session th) as [c|] eqn:E; [|done].
  destruct (os_held _ _ H _ _ _ Ht E). congruence.
Qed.
Lemma lk_kept id h t th0 : one_session id h → hp_threads h !! t = Some th0 → holds_lk th0 = false →
  (∀ t' th', t' ≠ t → hp_threads h !! t' = Some th' → holds_lk th' = true → hp_lk_lock h = Some t') ∧
  (∀ t', hp_lk_lock h = Some t' → t' ≠ t ∧ hp_lk_lock h = Some t').
Proof.
  intros H Ht Hh. split.
  - intros t' th' _ Hi Hl. by eapply (os_lk_held _ _ H).
  - intros t' Hl. split; [|done]. intros ->. destruct (os_lk _ _ H _ Hl) as (th' & ? & ?). congruence.
Qed.

Lemma claimed_ok id h h' t th0 th x :
  one_session id h → hp_session_lock h = None → hp_threads h !! t = Some th0 → holds_lk th0 = false →
  hp_session h = Some x → claimable x = true →
  hp_session h' = Some (mkHelperSession (hs_id x) (hs_stop_requested x) (hs_published x) true) →
  hp_threads h' = <[t := th]> (hp_threads h) → hp_session_lock h' = hp_session_lock h → hp_lk_lock h' = hp_lk_lock h →
  hp_published_by h' = hp_published_by h →
  holds_session th = None → holds_lk th = false → starting th = false →
  (publisher th = None ∨ publisher th = Some (id, None)) → one_session id h'.
Proof.
  intros H Hl Ht Hth0 Es Hc Es' Et El Elk Elog Q1 Q2 Q3 Q4.
  destruct (lk_kept id h t th0 H Ht Hth0) as [K1 K2].
  pose proof (os_claimable _ _ H x Es Hc) as Hlog.
  unfold claimable in Hc. apply andb_true_iff in Hc as [[Hc1 Hc2]%andb_true_iff _]. apply negb_true_iff in Hc1, Hc2.
  assert (∀ t' th', hp_threads h !! t' = Some th' → publisher th' = None) as Hnone.
  { apply (no_publisher id h x H Es). by rewrite Hc1. }
  eapply (session_updated id h h' t th H Et); rewrite ?Elk, ?El, ?Es', ?Hlog; try done.
  - intros t' th' _. by apply (session_free id h H Hl).
  - by rewrite Q1.
  - intros c. by rewrite Q1.
  - intros y [= <-]. by apply (os_id _ _ H x).
  - intros t' th' p _ Hi. by rewrite (Hnone _ _ Hi).
  - intros p Hp. destruct Q4 as [Q4|Q4]; rewrite Q4 in Hp; [done|]. injection Hp as <-.
    split_and!; [done| |done]. by intros y [= <-].
  - by rewrite Elog.
Qed.

Lemma frame_claim_ok id t sid b h :
  one_session id h → hp_threads h !! t = Some (FClaim sid b) → hp_session_lock h = None →
  one_session id (frame_claim t sid b h).
Proof.
  intros H Ht Hl.
  assert (∀ th h', hp_threads h' = <[t := th]> (hp_threads h) → quiet th → hp_session h = hp_session h' →
    hp_session_lock h' = hp_session_lock h → hp_lk_lock h' = hp_lk_lock h → hp_published_by h' = hp_published_by h →
    one_session id h') as Hquiet.
  { intros th h' ? Hq ? ? ? ?. apply (one_session_quiet id h t th h' H); try done. intros th0 E. simplify_eq. done. }
  unfold frame_claim. destruct b as [|  |frame]; [by eapply Hquiet; [reflexivity|..]|..].
  all: unfold claim; destruct (hp_session h) as [x|] eqn:Es; [|by eapply Hquiet; [reflexivity|..]].
  all: destruct (negb _) eqn:Eid; [by eapply Hquiet; [reflexivity|..]|]; destruct (hs_stop_requested x) eqn:Est; [by eapply Hquiet; [reflexivity|..]|].
  all: destruct (hs_publishing_in_progress x) eqn:Epr; [by eapply Hquiet; [reflexivity|..]|].
  all: apply negb_false_iff, String.eqb_eq in Eid; pose proof (os_id _ _ H _ Es) as Hid.
  all: destruct (hs_published x) eqn:Epu; simpl.
  1: by eapply Hquiet; [reflexivity|..].
  2: { destruct (cap_resolution _ _ _); by eapply Hquiet; [reflexivity|..]. }
  all: assert (claimable x = true) as Hc by (unfold claimable; by rewrite Epr, Epu, Est).
  1: by eapply (claimed_ok id h _ t _ _ x H Hl Ht eq_refl Es Hc); try reflexivity; [by rewrite Est, Epu|left].
  assert (sid = id) as -> by congruence.
  destruct (cap_resolution _ _ _);
    by eapply (claimed_ok id h _ t _ _ x H Hl Ht eq_refl Es Hc); try reflexivity; simpl; rewrite ?Est, ?Epu; auto.
Qed.

Lemma feed_fields t frame h :
  let h' := feed t frame h in
  (∃ r, hp_threads h' = <[t := HDone r]> (hp_threads h)) ∧ hp_session h' = hp_session h ∧
  hp_session_lock h' = hp_session_lock h ∧ hp_lk_lock h' = None ∧ hp_published_by h' = hp_published_by h.
Proof.
  unfold feed. destruct (md_lk (hp_media h)) as [c|]; [destruct (feed_video_frame _ _ _ _) as [r s]|]; simpl.
  all: split_and!; [by eexists|done..].
Qed.

Lemma published_ok id h h' t sid f r :
  one_session id h → hp_threads h !! t = Some (FPublish sid f true) → hp_lk_lock h = None →
  hp_threads h' = <[t := FUpdate sid f r]> (hp_threads h) → hp_session h' = hp_session h →
  hp_session_lock h' = hp_session_lock h → hp_lk_lock h' = Some t →
  hp_published_by h' = hp_published_by h ++ (if is_Ok r then [sid] else []) → one_session id h'.
Proof.
  intros H Ht Hl Et Es Esl Elk Elog.
  destruct (os_publisher _ _ H _ _ _ Ht eq_refl) as (Hid & Hx & Hlog). simpl in Hid, Hlog. subst sid.
  rewrite Hlog in Elog. simpl in Elog.
  assert (∀ t' th', t' ≠ t → hp_threads h !! t' = Some th' → publisher th' = None) as Hother.
  { intros t' th' Hne Hi. destruct (publisher th') as [p|] eqn:E; [|done]. destruct Hne.
    apply (os_unique _ _ H t' t th' _ Hi Ht); [by rewrite E|by eexists]. }
  destruct H as [H1 H2 H3 H4 H5 H6 H7 H8 H9 H10].
  split; rewrite ?Et, ?Es, ?Esl, ?Elk, ?Elog; try done.
  - intros t' Ht'. destruct (H2 _ Ht') as (th' & Hi & Hs). exists th'. split; [|done].
    rewrite lookup_insert_ne; [done|]. intros ->. rewrite Ht in Hi. injection Hi as <-. by destruct Hs.
  - intros t' th' c. rewrite lookup_insert_Some. intros [[<- <-]|[_ Hi]]; [done|by apply H3].
  - intros t' [= <-]. exists (FUpdate id f r). by rewrite lookup_insert_eq.
  - intros t' th'. rewrite lookup_insert_Some. intros [[<- <-]|[_ Hi]] Hh; [done|].
    specialize (H5 _ _ Hi Hh). congruence.
  - intros t' th'. rewrite lookup_insert_Some. intros [[<- <-]|[_ Hi]]; [done|by apply (H6 t')].
  - intros t' th' p. rewrite lookup_insert_Some. intros [[<- <-]|[Hne Hi]] Hp.
    + injection Hp as <-. split_and!; [done|by intros x Hsx; apply Hx|done].
    + by rewrite (Hother _ _ (not_eq_sym Hne) Hi) in Hp.
  - intros t1 t2 th1 th2. rewrite !lookup_insert_Some.
    intros [[<- <-]|[N1 I1]] [[<- <-]|[N2 I2]] [p1 P1] [p2 P2]; [done|..|by eapply (H8 t1 t2)].
    + by rewrite (Hother _ _ (not_eq_sym N2) I2) in P2.
    + by rewrite (Hother _ _ (not_eq_sym N1) I1) in P1.
  - intros x Hsx Hc. destruct (Hx x Hsx) as [E1 _]. unfold claimable in Hc. by rewrite E1 in Hc.
  - destruct r; simpl; lia.
Qed.

Lemma frame_publish_ok id t sid f needs a h :
  one_session id h → hp_threads h !! t = Some (FPublish sid f needs) → hp_lk_lock h = None →
  one_session id (frame_publish t sid f needs a h).
Proof.
  intros H Ht Hl.
  assert (∀ th0, hp_threads h !! t = Some th0 → holds_session th0 = None ∧ holds_lk th0 = false) as Hth0.
  { intros th0 E. simplify_eq. done. }
  unfold frame_publish. destruct (md_lk (hp_media h)) as [c|].
  - destruct needs.
    + destruct (publish_video _ _) as [r s]. destruct r as [[]|e]; simpl.
      * by apply (published_ok id h _ t sid f (Ok tt) H Ht Hl).
      * apply (published_ok id h _ t sid f (Err e) H Ht Hl); try done. simpl. by rewrite app_nil_r.
    + destruct (feed_fields t f h) as ([r E1] & E2 & E3 & E4 & E5).
      eapply (one_session_quiet id h t (HDone r)); try done. congruence.
  - by eapply (one_session_quiet id h t (HDone (Err "not connected to a room"))).
Qed.

Lemma frame_update_ok id t sid f r h :
  one_session id h → hp_threads h !! t = Some (FUpdate sid f r) → hp_session_lock h = None →
  one_session id (frame_update t sid f r h).
Proof.
  intros H Ht Hl.
  destruct (os_publisher _ _ H _ _ _ Ht eq_refl) as (Hid & Hx & Hlog). simpl in Hid, Hlog. subst sid.
  pose proof (os_lk_held _ _ H _ _ Ht eq_refl) as Hlk.
  set (s' := mark_published id (is_Ok r) (hp_session h)).
  assert (∃ o, hp_threads (frame_update t id f r h) = <[t := HDone o]> (hp_threads h) ∧
    hp_session (frame_update t id f r h) = s' ∧ hp_session_lock (frame_update t id f r h) = hp_session_lock h ∧
    hp_lk_lock (frame_update t id f r h) = None ∧ hp_published_by (frame_update t id f r h) = hp_published_by h)
    as (o & E1 & E2 & E3 & E4 & E5).
  { unfold frame_update. destruct r as [[]|e]; [|by eexists].
    destruct (feed_fields t f (set_hp_session s' h)) as ([o E1] & E2 & E3 & E4 & E5). by exists o. }
  assert (∀ t' th', t' ≠ t → hp_threads h !! t' = Some th' → publisher th' = None) as Hother.
  { intros t' th' Hne Hi. destruct (publisher th') as [p|] eqn:E; [|done]. destruct Hne.
    apply (os_unique _ _ H t' t th' _ Hi Ht); [by rewrite E|by eexists]. }
  eapply (session_updated id h _ t (HDone o) H E1); rewrite ?E2, ?E3, ?E4, ?E5; try done.
  - intros t' th' _. by apply (session_free id h H Hl).
  - intros t' th' Hne Hi Hh. pose proof (os_lk_held _ _ H _ _ Hi Hh). congruence.
  - unfold s', mark_published. intros x. destruct (hp_session h) as [y|] eqn:Es; [|done].
    pose proof (os_id _ _ H y Es) as Hy. rewrite Hy, String.eqb_refl. by intros [= <-].
  - intros t' th' p Hne Hi. by rewrite (Hother _ _ Hne Hi).
  - unfold s', mark_published. intros x. destruct (hp_session h) as [y|] eqn:Es; [|done].
    pose proof (os_id _ _ H y Es) as Hy. rewrite Hy, String.eqb_refl. intros [= <-]. rewrite Hlog.
    by destruct r as [[]|e].
Qed.

(** A closing ends: the session is gone or stopping. *)
Lemma closed_ok id h h' t th0 r :
  one_session id h → hp_threads h !! t = Some th0 → holds_lk th0 = false →
  hp_session_lock h = None ∨ hp_session_lock h = Some t →
  hp_threads h' = <[t := HDone r]> (hp_threads h) → hp_session_lock h' = None → hp_lk_lock h' = hp_lk_lock h →
  hp_published_by h' = hp_published_by h →
  (∀ y, hp_session h' = Some y → hs_stop_requested y = true ∧
    ∃ x, hp_session h = Some x ∧ hs_id y = hs_id x ∧ hs_publishing_in_progress y = hs_publishing_in_progress x ∧
      (hs_published x = false → hs_published y = false)) →
  one_session id h'.
Proof.
  intros H Ht Hh Hl Et Esl Elk Elog Hs. destruct (lk_kept id h t th0 H Ht Hh) as [K1 K2].
  eapply (session_updated id h h' t (HDone r) H Et); rewrite ?Elk, ?Esl, ?Elog; try done.
  - intros t' th' Hne Hi. destruct (holds_session th') as [c|] eqn:E; [|done].
    destruct (os_held _ _ H _ _ _ Hi E) as [Hl' _]. destruct Hl; congruence.
  - intros y Hy. destruct (Hs y Hy) as (_ & x & Hx & -> & _). by apply (os_id _ _ H).
  - intros t' th' p _ Hi Hp. split; [done|]. destruct (os_publisher _ _ H _ _ _ Hi Hp) as (P1 & P2 & P3).
    split_and!; [done| |done]. intros y Hy. destruct (Hs y Hy) as (_ & x & Hx & _ & -> & Hpub).
    destruct (P2 x Hx). auto.
  - intros y Hy Hc. destruct (Hs y Hy) as [Hst _]. unfold claimable in Hc. by rewrite Hst, andb_false_r in Hc.
Qed.

(** A closing finds the track and waits for the connection. *)
Lemma unpublishing_ok id h h' t th0 c x :
  one_session id h → hp_threads h !! t = Some th0 → holds_lk th0 = false → hp_session_lock h = None →
  starting (CUnpublish c) = false →
  hp_threads h' = <[t := CUnpublish c]> (hp_threads h) → hp_session_lock h' = Some t → hp_lk_lock h' = hp_lk_lock h →
  hp_published_by h' = hp_published_by h → hs_published x = true → (c = ByStop → hs_stop_requested x = true) →
  hp_session h' = Some x →
  (∃ y, hp_session h = Some y ∧ hs_id y = hs_id x ∧ hs_published y = true) → one_session id h'.
Proof.
  intros H Ht Hh Hl Hst Et Esl Elk Elog Hp Hc Es (y & Hy & Hid & Hpy). destruct (lk_kept id h t th0 H Ht Hh) as [K1 K2].
  assert (∀ t' th', hp_threads h !! t' = Some th' → publisher th' = None) as Hnone.
  { apply (no_publisher id h y H Hy). by rewrite Hpy, andb_false_r. }
  eapply (session_updated id h h' t (CUnpublish c) H Et); rewrite ?Elk, ?Esl, ?Elog, ?Es; try done.
  - intros t' th' _. by apply (session_free id h H Hl).
  - intros c' [= <-]. by exists x.
  - intros z [= <-]. rewrite <- Hid. by apply (os_id _ _ H).
  - intros t' th' p _ Hi. by rewrite (Hnone _ _ Hi).
  - intros z [= <-] Hcl. unfold claimable in Hcl. by rewrite Hp, andb_false_r in Hcl.
Qed.

Lemma closing_enter_ok id t c h :
  one_session id h → hp_threads h !! t = Some (CEnter c) → hp_session_lock h = None →
  one_session id (closing_enter t c h).
Proof.
  intros H Ht Hl. pose proof (os_start _ _ H _ _ Ht) as Hst.
  assert (∀ r h', hp_threads h' = <[t := HDone r]> (hp_threads h) → hp_session h' = hp_session h →
    hp_session_lock h' = hp_session_lock h → hp_lk_lock h' = hp_lk_lock h → hp_published_by h' = hp_published_by h →
    one_session id h') as Hquiet.
  { intros r h' ? ? ? ? ?. apply (one_session_quiet id h t (HDone r) h' H); try done. intros th0 E. by simplify_eq. }
  unfold closing_enter. destruct c as [e| |new_id]; [..|done].
  - destruct (hp_session h) as [x|] eqn:Es; [|by eapply Hquiet].
    destruct (negb _); [by eapply Hquiet|]. destruct (String.eqb _ "started"); [by eapply Hquiet|].
    destruct (_ || _); [|by eapply Hquiet]. unfold close_track. rewrite Es.
    destruct (hs_published x) eqn:Ep; simpl.
    + eapply (unpublishing_ok id h _ t _ (ByEvent e) x H Ht); try done. by exists x.
    + by eapply (closed_ok id h _ t _ (Ok tt) H Ht eq_refl (or_introl Hl)).
  - unfold close_track, mark_stop. simpl. destruct (hp_session h) as [x|] eqn:Es; simpl.
    + destruct (hs_published x) eqn:Ep; simpl.
      * eapply (unpublishing_ok id h _ t _ ByStop (mkHelperSession (hs_id x) true true (hs_publishing_in_progress x)) H Ht); try done.
        by exists x.
      * eapply (closed_ok id h _ t _ (Ok tt) H Ht eq_refl (or_introl Hl)); try done.
        intros y [= <-]. split; [done|]. exists x. by split_and!.
    + by eapply (closed_ok id h _ t _ (Ok tt) H Ht eq_refl (or_introl Hl)).
Qed.

Lemma closing_unpublish_ok id t c a h :
  one_session id h → hp_threads h !! t = Some (CUnpublish c) → one_session id (closing_unpublish t c a h).
Proof.
  intros H Ht. pose proof (os_start _ _ H _ _ Ht) as Hst.
  destruct (os_held _ _ H _ _ c Ht eq_refl) as (Hl & x & Hx & Hp & Hc).
  unfold closing_unpublish, finish_closing, mark_unpublished. destruct c as [e| |new_id]; [..|done];
    eapply (closed_ok id h _ t _ (Ok tt) H Ht eq_refl (or_intror Hl)); try done.
  simpl. rewrite Hx. intros y [= <-]. simpl. split; [by apply Hc|]. exists x. by split_and!.
Qed.

(** A thread that begins, in place of none. *)
Lemma begins_ok id t th h :
  one_session id h → hp_threads h !! t = None → starts th = true → starting th = false → one_session id (set_thread t th h).
Proof.
  intros H Ht Hs Hst. apply (one_session_quiet id h t th); try done.
  - intros th0. congruence.
  - by destruct th as [| | | | |[]| | |].
Qed.

(** No second session, nothing that starts one. *)
Definition same_session (x : HelperAction) : bool :=
  match x with AStart _ (SCheck _ _) => false | _ => true end.

Lemma helper_act_ok id h x h' :
  one_session id h → same_session x = true → helper_act h x = Some h' → one_session id h'.
Proof.
  intros H Hx. destruct x as [t th|t a|st]; simpl.
  - destruct (starts th && _) eqn:E; [|done]. intros [= <-]. apply andb_true_iff in E as [E1 E2].
    apply bool_decide_eq_true in E2. apply begins_ok; try done. by destruct th as [| | | | |[]| | |].
  - unfold helper_step. destruct (hp_threads h !! t) as [th|] eqn:Ht; [|done].
    pose proof (os_start _ _ H _ _ Ht) as Hst.
    destruct th; try done; destruct (hp_session_lock h) eqn:El, (hp_lk_lock h) eqn:Elk; try done; intros [= <-];
      eauto using frame_claim_ok, frame_publish_ok, frame_update_ok, closing_enter_ok, closing_unpublish_ok.
  - destruct (hp_lk_lock h) eqn:El; [done|]. intros [= <-]. by destruct H; split.
Qed.
Lemma helper_run_ok id h xs h' :
  one_session id h → Forall (λ x, same_session x = true) xs → helper_run h xs = Some h' → one_session id h'.
Proof.
  intros H Hxs. revert h H. induction Hxs as [|x xs Hx _ IH]; simpl; intros h H; [by intros [= <-]|].
  intros Hr. apply bind_Some in Hr as (h1 & H1 & H2). eapply IH; [|exact H2]. by eapply helper_act_ok.
Qed.

(** A new session, no request yet. *)
Definition session_begun (id : string) (media : Media) (config : ScreenShareConfig) (port : Z) : Helper :=
  set_hp_port (Some port) (set_hp_session (Some (session_new id)) (helper_new media config)).
Lemma session_begun_ok id media config port : one_session id (session_begun id media config port).
Proof. split; simpl; try done; [by intros x [= <-]|lia]. Qed.

(** Nobody waits for a lock whose holder waits. *)
Lemma one_session_progress id h : one_session id h → ¬ deadlocked h.
Proof.
  intros H [(t & th & Ht & Hf) Hstuck]. pose (a := mkHelperAnswers (Ok tt) true).
  assert (∀ t' th', hp_threads h !! t' = Some th' → finished th' = true ∨ waits h th' = true) as Hw.
  { intros t' th' Ht'. by apply (step_or_wait t' th' a h Ht'). }
  destruct (hp_session_lock h) as [ts|] eqn:El.
  - destruct (os_lock _ _ H _ El) as (th1 & Ht1 & [c Hc]).
    destruct (os_held _ _ H _ _ _ Ht1 Hc) as (_ & x & Hx & Hp & _).
    destruct (Hw _ _ Ht1) as [Hw1|Hw1]; destruct th1; try done. simpl in Hw1. apply bool_decide_eq_true in Hw1 as [tk Hk].
    destruct (os_lk _ _ H _ Hk) as (th2 & Ht2 & Hlk). destruct th2; try done.
    destruct (os_publisher _ _ H _ _ _ Ht2 eq_refl) as (_ & Hpub & _). destruct (Hpub x Hx). congruence.
  - destruct (hp_lk_lock h) as [tk|] eqn:Ek.
    + destruct (os_lk _ _ H _ Ek) as (th2 & Ht2 & Hlk). destruct th2; try done.
      destruct (Hw _ _ Ht2) as [Hw2|Hw2]; [done|]. simpl in Hw2. rewrite El in Hw2. done.
    + destruct (Hw _ _ Ht) as [Hw1|Hw1]; [congruence|]. destruct th; simpl in *; try done; by rewrite ?El, ?Ek in Hw1.
Qed.

(** C29: however the threads of one session interleave with each other and with the other
    commands of the client, they never block each other for good, and the screen is
    published at most once. *)
Theorem one_session_live (id : string) (media : Media) (config : ScreenShareConfig) (port : Z)
    (xs : list HelperAction) (h : Helper) :
  Forall (λ x, same_session x = true) xs → helper_run (session_begun id media config port) xs = Some h →
  ¬ deadlocked h ∧ (length (hp_published_by h) ≤ 1)%nat.
Proof.
  intros Hxs Hr. pose proof (helper_run_ok id _ xs h (session_begun_ok id media config port) Hxs Hr) as H.
  split; [by eapply one_session_progress|apply (os_log _ _ H)].
Qed.

(** ** A first frame that cannot be decoded *)

(** The session is marked as publishing, and nobody publishes. *)
Definition abandoned (h : Helper) : Prop :=
  (∀ x, hp_session h = Some x → hs_publishing_in_progress x = true) ∧
  (∀ t th, hp_threads h !! t = Some th → publisher th = None ∧ starting th = false) ∧
  hp_published_by h = [].

Lemma abandoned_update h h' t th :
  abandoned h → publisher th = None → starting th = false → hp_threads h' = <[t := th]> (hp_threads h) →
  (∀ y, hp_session h' = Some y → ∃ x, hp_session h = Some x ∧ hs_publishing_in_progress y = hs_publishing_in_progress x) →
  hp_published_by h' = hp_published_by h → abandoned h'.
Proof.
  intros (H1 & H2 & H3) Hp Hst Et Es El. split_and!; [| |congruence].
  - intros y Hy. destruct (Es y Hy) as (x & Hx & ->). by apply H1.
  - intros t' th'. rewrite Et, lookup_insert_Some. intros [[<- <-]|[_ Hi]]; [done|by apply (H2 t')].
Qed.

Lemma helper_act_abandoned h x h' :
  abandoned h → same_session x = true → helper_act h x = Some h' → abandoned h'.
Proof.
  intros H Hx.
  assert (∀ y, hp_session h = Some y → ∃ x, hp_session h = Some x ∧ hs_publishing_in_progress y = hs_publishing_in_progress x)
    as Hkeep by eauto.
  destruct x as [t th|t a|st]; simpl.
  - destruct (starts th && _) eqn:E; [|done]. intros [= <-]. apply andb_true_iff in E as [E1 _].
    eapply (abandoned_update h _ t th H); try done; by destruct th as [| | | | |[]| | |].
  - unfold helper_step. destruct (hp_threads h !! t) as [th|] eqn:Ht; [|done].
    pose proof H as (H1 & H2 & _). destruct (H2 _ _ Ht) as [Hp Hst].
    assert (∀ r h', hp_threads h' = <[t := HDone r]> (hp_threads h) →
      (∀ y, hp_session h' = Some y → ∃ x, hp_session h = Some x ∧ hs_publishing_in_progress y = hs_publishing_in_progress x) →
      hp_published_by h' = hp_published_by h → abandoned h') as Hdone
      by (intros r h1 ? ? ?; by eapply (abandoned_update h h1 t (HDone r))).
    destruct th as [sid b|sid f []|sid f r| | |[e| |n]|[e| |n]| |]; try done;
      destruct (hp_session_lock h), (hp_lk_lock h); try done; intros [= <-].
    1-2: unfold frame_claim, claim; destruct b; [by eapply Hdone; [reflexivity|first [exact Hkeep|simpl; intros; congruence]|]|..];
      (destruct (hp_session h) as [x|] eqn:Es; [rewrite (H1 x eq_refl)|]); simpl; repeat case_match; simplify_eq/=;
      (eapply Hdone; [reflexivity|simpl; first [exact Hkeep|intros; congruence|by eauto]|done]).
    1-2: unfold frame_publish; destruct (md_lk (hp_media h)); [|by eapply Hdone; [reflexivity|first [exact Hkeep|simpl; intros; congruence]|]];
      destruct (feed_fields t f h) as ([r E1] & E2 & _ & _ & E5); eapply Hdone; [exact E1|rewrite E2; exact Hkeep|exact E5].
    1-2: unfold closing_enter; destruct (hp_session h) as [x|] eqn:Es; [|by eapply Hdone; [reflexivity|first [exact Hkeep|simpl; intros; congruence]|]];
      unfold close_track; rewrite Es; repeat case_match; simplify_eq;
      (eapply (abandoned_update h); [exact H|..|reflexivity|simpl; rewrite ?Es; by eauto|reflexivity]; done).
    1-2: unfold closing_enter, close_track; simpl; destruct (hp_session h) as [x|] eqn:Es; simpl; repeat case_match; simplify_eq;
      (eapply (abandoned_update h); [exact H|..|reflexivity| |reflexivity]; [done..|]); simpl; rewrite ?Es; naive_solver.
    all: unfold closing_unpublish, finish_closing, mark_unpublished; (eapply Hdone; [reflexivity| |reflexivity]); simpl;
      destruct (hp_session h); naive_solver.
  - destruct (hp_lk_lock h); [done|]. by intros [= <-].
Qed.

(** One bad first frame, and the session publishes nothing, whatever is sent: the flag that
    its thread set is never cleared, so that every later frame counts as one that arrives
    during the publication. *)
Theorem bad_first_frame_ends_share (id : string) (media : Media) (config : ScreenShareConfig) (port : Z)
    (a : HelperAnswers) (xs : list HelperAction) (h : Helper) :
  Forall (λ x, same_session x = true) xs →
  helper_run (session_begun id media config port) (AStart 0 (FClaim id BadImage) :: AStep 0 a :: xs) = Some h →
  hp_published_by h = [].
Proof.
  intros Hxs Hr. cbn [helper_run] in Hr. apply bind_Some in Hr as (h1 & H1 & Hr). apply bind_Some in Hr as (h2 & H2 & Hr).
  assert (h1 = set_thread 0 (FClaim id BadImage) (session_begun id media config port)) as -> by (by injection H1 as <-).
  unfold helper_act, helper_step in H2. cbn [hp_threads set_thread] in H2. rewrite lookup_insert_eq in H2.
  unfold frame_claim, claim in H2. simpl in H2. rewrite String.eqb_refl in H2. simpl in H2. injection H2 as <-.
  match type of Hr with helper_run ?s _ = _ => assert (abandoned s) as H; [|revert H Hr; generalize s] end.
  { split_and!; [by intros x [= <-]| |done]. intros t th. simpl. rewrite !lookup_insert_Some. naive_solver. }
  induction Hxs as [|x xs Hx _ IH]; simpl; intros h0 H; [by intros [= <-]; apply H|].
  intros Hr. apply bind_Some in Hr as (h3 & H3 & H4). eapply IH; [|exact H4]. by eapply helper_act_abandoned.
Qed.

Module HelperDemo.
Definition a : HelperAnswers := mkHelperAnswers (Ok tt) true.
Definition px : CapturedFrame := mkCapturedFrame 1 1 [10; 20; 30; 255] 0.
Definition idle_helper : Helper := helper_new LkDemo.joined screen_share_config_new.
Definition start (t : nat) (id : string) : list HelperAction :=
  [AStart t (SCheck id (Ok 4000)); AStep t a; AStep t a; AStep t a].
Definition frame (t : nat) (id : string) : HelperThread := FClaim id (Image px).
Definition tracks (h : Helper) : nat := LkDemo.published Screenshare (hp_media h).

(** A page of an older session is told to stop; a frame is posted to its own. *)
Example requests :
  read_reply (route "GET" "/api/control?session=helper-1" NoBody) (Some (session_new "helper-2")) = Some (ReplyControl true) ∧
  request_thread (route "POST" "/api/frame?session=helper-2" (FrameData (Image px))) = Some (FClaim "helper-2" (Image px)) ∧
  reply_status <$> read_reply (route "PUT" "/api/frame" NoBody) None = Some 404.
Proof. vm_compute. by split_and!. Qed.

Example request_read :
  read_request ("POST /api/event HTTP/1.1" +:+ crlf +:+ "Host: x" +:+ crlf +:+ crlf +:+ "{}") = Ok (Some ("POST", "/api/event", "{}")).
Proof. vm_compute. reflexivity. Qed.

(** A share from start to end. *)
Example share_runs :
  (h ← helper_run idle_helper
         (start 0 "helper-1" ++ [AStart 1 (frame 1 "helper-1"); AStep 1 a; AStep 1 a; AStep 1 a;
          AStart 2 (frame 2 "helper-1"); AStep 2 a; AStep 2 a]);
   h' ← helper_run h [AStart 3 (CEnter (ByEvent (mkHelperEvent "helper-1" "stopped" None))); AStep 3 a; AStep 3 a];
   Some (tracks h, length (sdk_frames (md_sdk (hp_media h))), tracks h', hp_session h', hp_notices h'))
  = Some (1%nat, 2%nat, 0%nat, None, [ShareStopped "helper-1"]).
Proof. vm_compute. reflexivity. Qed.

(** The session is replaced while a thread of the old one publishes: the old thread holds the
    connection and waits for the session, a stop holds the session and waits for the
    connection. *)
Definition replaced : list HelperAction :=
  start 0 "helper-1" ++ [AStart 1 (frame 1 "helper-1"); AStep 1 a] ++
  start 2 "helper-2" ++ [AStart 3 (frame 3 "helper-2"); AStep 3 a; AStep 3 a; AStep 3 a;
  AStep 1 a; AStart 4 (CEnter ByStop); AStep 4 a].
Theorem replaced_session_deadlocks : ∃ h, helper_run idle_helper replaced = Some h ∧ deadlocked h.
Proof.
  assert (deadlockedb <$> helper_run idle_helper replaced = Some true) as H by (vm_compute; reflexivity).
  apply fmap_Some in H as (h & Hh & Hd). exists h. split; [exact Hh|]. by apply deadlockedb_sound.
Qed.

(** The first frame cannot be decoded; the next ones are answered and dropped. *)
Definition bad_then_good : list HelperAction :=
  [AStart 0 (FClaim "helper-1" BadImage); AStep 0 a; AStart 1 (frame 1 "helper-1"); AStep 1 a;
   AStart 2 (frame 2 "helper-1"); AStep 2 a].
Lemma bad_first_frame_ends_share_witness :
  ∃ h, helper_run (session_begun "helper-1" LkDemo.joined screen_share_config_new 4000) bad_then_good = Some h ∧
    hp_threads h !! 2%nat = Some (HDone (Ok tt)) ∧ hp_published_by h = [].
Proof.
  assert ((λ h, hp_threads h !! 2%nat) <$> helper_run (session_begun "helper-1" LkDemo.joined screen_share_config_new 4000) bad_then_good
    = Some (Some (HDone (Ok tt)))) as Hrun by (vm_compute; reflexivity).
  apply fmap_Some in Hrun as (h & E & Ht). exists h. split; [exact E|]. split; [symmetry; exact Ht|].
  eapply bad_first_frame_ends_share; [|exact E]. repeat constructor.
Defined.

(** Frames, an event and a command at the same time. *)
Definition interleaved : list HelperAction :=
  [AStart 1 (frame 1 "helper-1"); AStart 2 (frame 2 "helper-1"); AStep 1 a; AStep 2 a; AStart 3 (CEnter ByStop); AStep 1 a;
   AStep 3 a; AStep 1 a; AStart 4 (CEnter (ByEvent (mkHelperEvent "helper-1" "stopped" None))); AStep 4 a].
Lemma one_session_live_witness :
  ∃ h, helper_run (session_begun "helper-1" LkDemo.joined screen_share_config_new 4000) interleaved = Some h ∧
    ¬ deadlocked h ∧ (length (hp_published_by h) ≤ 1)%nat.
Proof.
  assert ((λ h, length (hp_published_by h)) <$> helper_run (session_begun "helper-1" LkDemo.joined screen_share_config_new 4000) interleaved
    = Some 1%nat) as Hrun by (vm_compute; reflexivity).
  apply fmap_Some in Hrun as (h & E & _). exists h. split; [exact E|].
  apply (one_session_live "helper-1" LkDemo.joined screen_share_config_new 4000 interleaved h); [repeat constructor|exact E].
Defined.

(** Stopping while the track is being published finds nothing to take back: the track stays. *)
Theorem stop_during_publish_keeps_track :
  (h ← helper_run idle_helper
         (start 0 "helper-1" ++ [AStart 1 (frame 1 "helper-1"); AStep 1 a;
          AStart 2 (CEnter ByStop); AStep 2 a; AStep 1 a; AStep 1 a]);
   Some (hp_threads h !! 2%nat, stop_requested "helper-1" (hp_session h), tracks h))
  = Some (Some (HDone (Ok tt)), true, 1%nat).
Proof. vm_compute. reflexivity. Qed.
End HelperDemo.
