(* ===== verification/MicCapture.v ===== *)
(** * From the microphone to the wire
    (clients/shared/src/biquad.rs, passthrough_filter.rs, deesser_filter.rs,
    denoise_filter.rs, the capture loop of livekit_connection.rs)

    The biquad filter and the two stages built on it, the gate behind the noise
    suppressor, and the loop that takes 20 ms of the capture ring at a time, filters
    them and sends them as [i16].  RNNoise and the [sin], [cos] and [powf] of the
    platform are parameters. *)

From Stdlib Require Import Floats.SpecFloat.
From S2P Require Import Prelude Floats JitterBuffer AudioBuffer AudioMixing.
Local Open Scope Z_scope.

(** ** Biquads (biquad.rs) *)

Class Libm : Type := {
  fsin : spec_float → spec_float;
  fcos : spec_float → spec_float;
  fpowf : spec_float → spec_float → spec_float
}.

Definition PI : spec_float := F32.lit 13176795 4194304.
Definition fopp (x : spec_float) : spec_float := SFopp x.
Definition zero : spec_float := F32.of_Z 0.
Definition one : spec_float := F32.of_Z 1.
Definition two : spec_float := F32.of_Z 2.
Definition half : spec_float := F32.lit 1 2.
Definition milli : spec_float := F32.lit 1 1000.

Record Biquad : Type := mkBiquad {
  bq_b0 : spec_float; bq_b1 : spec_float; bq_b2 : spec_float;
  bq_a1 : spec_float; bq_a2 : spec_float;
  bq_z1 : spec_float; bq_z2 : spec_float
}.
Definition biquad_identity : Biquad := mkBiquad one zero zero zero zero zero zero.

(** [set_normalized]: the state stays. *)
Definition set_normalized (b0 b1 b2 a0 a1 a2 : spec_float) (q : Biquad) : Biquad :=
  if negb (is_finite a0) || flt (fabs a0) f32_epsilon then mkBiquad one zero zero zero zero (bq_z1 q) (bq_z2 q)
  else mkBiquad (F32.div b0 a0) (F32.div b1 a0) (F32.div b2 a0) (F32.div a1 a0) (F32.div a2 a0) (bq_z1 q) (bq_z2 q).

Section filters.
Context `{Libm}.

(** The angle of a frequency, cut to what the rate can carry. *)
Definition omega_of (sample_rate frequency : spec_float) : spec_float :=
  let f := fclamp (F32.of_Z 20) (F32.mul sample_rate (F32.lit 45 100)) frequency in
  F32.div (F32.mul (F32.mul two PI) f) sample_rate.

(** [retune_low_pass], [retune_high_pass], [retune_high_shelf]. *)
Definition retune_low_pass (sample_rate cutoff_hz q : spec_float) : Biquad → Biquad :=
  let omega := omega_of sample_rate cutoff_hz in
  let cos := fcos omega in
  let alpha := F32.div (fsin omega) (F32.mul two (fmax q milli)) in
  let b0 := F32.mul (F32.sub one cos) half in
  set_normalized b0 (F32.sub one cos) b0 (F32.add one alpha) (F32.mul (fopp two) cos) (F32.sub one alpha).
Definition retune_high_pass (sample_rate cutoff_hz q : spec_float) : Biquad → Biquad :=
  let omega := omega_of sample_rate cutoff_hz in
  let cos := fcos omega in
  let alpha := F32.div (fsin omega) (F32.mul two (fmax q milli)) in
  let b0 := F32.mul (F32.add one cos) half in
  set_normalized b0 (fopp (F32.add one cos)) b0 (F32.add one alpha) (F32.mul (fopp two) cos) (F32.sub one alpha).
Definition retune_high_shelf (sample_rate frequency_hz gain_db slope : spec_float) : Biquad → Biquad :=
  let omega := omega_of sample_rate frequency_hz in
  let a := fpowf (F32.of_Z 10) (F32.div gain_db (F32.of_Z 40)) in
  let sin := fsin omega in
  let cos := fcos omega in
  let sqrt_a := F32.sqrt a in
  let alpha :=
    F32.mul (F32.div sin two)
      (F32.sqrt (F32.add (F32.mul (F32.add a (F32.div one a)) (F32.sub (F32.div one (fmax slope milli)) one)) two)) in
  let side := F32.mul (F32.mul two sqrt_a) alpha in
  let up := F32.add a one in
  let down := F32.sub a one in
  let plus := F32.add up (F32.mul down cos) in
  let minus := F32.sub up (F32.mul down cos) in
  set_normalized (F32.mul a (F32.add plus side))
    (F32.mul (F32.mul (fopp two) a) (F32.add down (F32.mul up cos)))
    (F32.mul a (F32.sub plus side))
    (F32.add minus side)
    (F32.mul two (F32.sub down (F32.mul up cos)))
    (F32.sub minus side).

(** [process]. *)
Definition biquad_process (input : spec_float) (q : Biquad) : spec_float * Biquad :=
  let input := sanitize input in
  let output := F32.add (F32.mul input (bq_b0 q)) (bq_z1 q) in
  let z1 := F32.sub (F32.add (F32.mul input (bq_b1 q)) (bq_z2 q)) (F32.mul (bq_a1 q) output) in
  let z2 := F32.sub (F32.mul input (bq_b2 q)) (F32.mul (bq_a2 q) output) in
  (output, mkBiquad (bq_b0 q) (bq_b1 q) (bq_b2 q) (bq_a1 q) (bq_a2 q) z1 z2).

(** A stage over a frame, sample by sample. *)
Fixpoint run_stage {S} (step : spec_float → S → spec_float * S) (samples : list spec_float) (s : S) :
    list spec_float * S :=
  match samples with
  | [] => ([], s)
  | x :: rest => let '(y, s1) := step x s in let '(ys, s2) := run_stage step rest s1 in (y :: ys, s2)
  end.

(** ** Passthrough tone ([PassthroughBiquadChain]) *)

Record PassthroughBiquadChain : Type := mkChain {
  ch_low_pass : Biquad;
  ch_high_shelf : Biquad;
  ch_last_settings : option (bool * Z)
}.
Definition chain_new : PassthroughBiquadChain := mkChain biquad_identity biquad_identity None.
Definition F32_48000 : spec_float := F32.of_Z 48000.
Definition q707 : spec_float := F32.lit 707 1000.
Definition chain_sample (x : spec_float) (c : PassthroughBiquadChain) : spec_float * PassthroughBiquadChain :=
  let '(low, lp) := biquad_process x (ch_low_pass c) in
  let '(y, hs) := biquad_process low (ch_high_shelf c) in
  (sanitize y, mkChain lp hs (ch_last_settings c)).
Definition chain_process_frame (settings : PassthroughFilterSettings) (samples : list spec_float)
    (c : PassthroughBiquadChain) : list spec_float * PassthroughBiquadChain :=
  if negb (fs_enabled settings) || (fs_strength settings =? 0) then (samples, c)
  else
    let key := (fs_enabled settings, fs_strength settings) in
    let c1 :=
      if bool_decide (ch_last_settings c = Some key) then c
      else
        let '(cutoff, shelf_db) := passthrough_filter_params (fs_strength settings) in
        mkChain (retune_low_pass F32_48000 cutoff q707 biquad_identity)
          (retune_high_shelf F32_48000 (F32.of_Z 3000) shelf_db q707 biquad_identity) (Some key) in
    run_stage chain_sample samples c1.

(** ** The de-esser (deesser_filter.rs) *)

Definition ENGAGE_RMS : spec_float := F32.lit 5 100.
Definition MAX_CUT_DB : spec_float := F32.of_Z (-14).
Definition CUT_DB_PER_RMS : spec_float := F32.of_Z 60.
Definition GAIN_SMOOTHING : spec_float := F32.lit 35 100.
Definition DETECT_HZ : spec_float := F32.of_Z 5000.

Record DeesserFilter : Type := mkDeesser { de_detector : Biquad; de_shelf : Biquad; de_gain_db : spec_float }.
Definition deesser_new : DeesserFilter :=
  mkDeesser (retune_high_pass F32_48000 DETECT_HZ q707 biquad_identity)
    (retune_high_shelf F32_48000 DETECT_HZ zero q707 biquad_identity) zero.

Definition detect (acc : Biquad * spec_float) (sample : spec_float) : Biquad * spec_float :=
  let '(d, detector) := biquad_process (sanitize sample) acc.1 in
  (detector, F32.add acc.2 (F32.mul d d)).
Definition shelf_sample (x : spec_float) (q : Biquad) : spec_float * Biquad :=
  let '(y, q') := biquad_process (sanitize x) q in (sanitize y, q').
(** The depth of the cut for a detected level. *)
Definition target_db (detect_rms : spec_float) : spec_float :=
  if fgt detect_rms ENGAGE_RMS then
    fmax (F32.mul (fopp (F32.sub detect_rms ENGAGE_RMS)) CUT_DB_PER_RMS) MAX_CUT_DB
  else zero.
Definition deesser_process (frame : list spec_float) (f : DeesserFilter) : list spec_float * DeesserFilter :=
  match frame with
  | [] => ([], f)
  | _ =>
      let '(detector, sum_sq) := fold_left detect frame (de_detector f, zero) in
      let detect_rms := F32.sqrt (F32.div sum_sq (F32.of_Z (len frame))) in
      let gain_db := F32.add (de_gain_db f) (F32.mul (F32.sub (target_db detect_rms) (de_gain_db f)) GAIN_SMOOTHING) in
      let '(out, shelf) := run_stage shelf_sample frame (retune_high_shelf F32_48000 DETECT_HZ gain_db q707 (de_shelf f)) in
      (out, mkDeesser detector shelf gain_db)
  end.
End filters.

(** ** The gate (denoise_filter.rs) *)

Definition RNN_FRAME_SAMPLES : nat := 480.
Definition I16_SCALE : spec_float := F32.of_Z 32767.
Definition VAD_GATE_RMS_THRESHOLD : spec_float := F32.of_Z 150.
Definition VAD_PROB_THRESHOLD : spec_float := half.
Definition GATE_ATTACK_STEP : spec_float := F32.lit 1 10.
Definition GATE_RELEASE_STEP : spec_float := F32.lit 1 5.
Definition GATE_CLOSE_HOLD_FRAMES : Z := 2.
Definition GATE_GAIN_FLOOR : spec_float := F32.lit 1 100.

(** [rms_i16], [should_gate]. *)
Definition rms_i16 (buf : list spec_float) : spec_float :=
  let sum_sq := fold_left (λ acc s, F64.add acc (F64.mul (F64.of_f32 s) (F64.of_f32 s))) buf (F64.of_Z 0) in
  F32.of_f64 (F64.sqrt (F64.div sum_sq (F64.of_Z (len buf)))).
Definition should_gate (vad_prob frame_rms : spec_float) : bool :=
  flt vad_prob VAD_PROB_THRESHOLD || flt frame_rms VAD_GATE_RMS_THRESHOLD.

(** [GateState], [compute_gate_gain], [advance]. *)
Record GateState : Type := mkGate { gs_gain : spec_float; gs_close_hold_frames : Z }.
Definition gate_new : GateState := mkGate one 0.
Definition compute_gate_gain (current_gain : spec_float) (gate_closed : bool) : spec_float :=
  if gate_closed then
    let g := F32.sub current_gain GATE_ATTACK_STEP in
    if flt g GATE_GAIN_FLOOR then zero else g
  else
    let g := F32.add current_gain GATE_RELEASE_STEP in
    if fgt g one then one else g.
Definition advance (gate_closed : bool) (g : GateState) : spec_float * spec_float * GateState :=
  let hold := if gate_closed then Z.min 4294967295 (gs_close_hold_frames g + 1) else 0 in
  let effective_closed := gate_closed && (GATE_CLOSE_HOLD_FRAMES <? hold) in
  let gain := compute_gate_gain (gs_gain g) effective_closed in
  (gs_gain g, gain, mkGate gain hold).

(** [==] on [f32], [apply_gate_gain], [apply_gate_gain_ramped]. *)
Definition feq (x y : spec_float) : bool := SFeqb x y.
Definition apply_gate_gain (gain : spec_float) (buf : list spec_float) : list spec_float :=
  if feq gain one then buf
  else if feq gain zero then (λ _, zero) <$> buf
  else (λ s, F32.mul s gain) <$> buf.
Definition apply_gate_gain_ramped (start_gain end_gain : spec_float) (buf : list spec_float) : list spec_float :=
  if feq start_gain end_gain then apply_gate_gain end_gain buf
  else
    let denom := F32.of_Z (Z.max (len buf - 1) 1) in
    imap (λ i s,
      let t := F32.div (F32.of_Z (Z.of_nat i)) denom in
      F32.mul s (F32.add start_gain (F32.mul (F32.sub end_gain start_gain) t))) buf.

(** The suppressor: a state, and what a frame of 480 samples becomes, with the
    probability that it is speech. *)
Class Rnn (D : Type) : Type := {
  rnn_new : D;
  rnn_process : list spec_float → D → spec_float * list spec_float * D
}.

Section denoise.
Context {D : Type} `{Rnn D}.

(** [process_subframe]. *)
Definition process_subframe (subframe : list spec_float) (s : D * GateState) : list spec_float * (D * GateState) :=
  let tmp := (λ x, F32.mul x I16_SCALE) <$> subframe in
  let '(vad, out, d) := rnn_process tmp s.1 in
  let '(start_gain, end_gain, gate) := advance (should_gate vad (rms_i16 out)) s.2 in
  ((λ x, F32.div x I16_SCALE) <$> apply_gate_gain_ramped start_gain end_gain out, (d, gate)).

(** [DenoiseFilter]: [new], [process], [reset_state], [set_enabled]. *)
Record DenoiseFilter : Type := mkDenoise { dn_state : D; dn_gate : GateState; dn_enabled : bool }.
Definition denoise_new (enabled : bool) : DenoiseFilter := mkDenoise rnn_new gate_new enabled.
Definition denoise_process (frame : list spec_float) (f : DenoiseFilter) : list spec_float * DenoiseFilter :=
  if dn_enabled f then
    let '(first, s1) := process_subframe (take RNN_FRAME_SAMPLES frame) (dn_state f, dn_gate f) in
    let '(second, s2) := process_subframe (drop RNN_FRAME_SAMPLES frame) s1 in
    (first ++ second, mkDenoise s2.1 s2.2 true)
  else (frame, f).
Definition reset_state (f : DenoiseFilter) : DenoiseFilter := mkDenoise rnn_new gate_new (dn_enabled f).
Definition set_enabled (enabled : bool) (f : DenoiseFilter) : DenoiseFilter := mkDenoise (dn_state f) (dn_gate f) enabled.

(** ** The capture loop *)

Definition READ_CHUNK_SAMPLES : nat := FRAME_SAMPLES * 2.
Definition MAX_PENDING_SAMPLES : nat := FRAME_SAMPLES * 6.
Definition TARGET_PENDING_SAMPLES : nat := FRAME_SAMPLES * 3.
Definition PREFILL_SAMPLES : nat := FRAME_SAMPLES * 3.

(** [x as i16]. *)
Definition as_i16 (x : spec_float) : Z :=
  match x with
  | S754_finite true m e => - trunc_to 32768 (S754_finite false m e)
  | S754_infinity true => -32768
  | _ => trunc_to 32767 x
  end.

Record CaptureLoop : Type := mkCapture {
  cl_pending : list spec_float;
  cl_last_sample : spec_float;
  cl_primed : bool;
  cl_deesser : DeesserFilter;
  cl_frames_sent : Z
}.
Definition capture_new `{Libm} : CaptureLoop := mkCapture [] zero false deesser_new 0.

(** What is pulled from the ring and kept. *)
Definition pull (buf : AudioBuffer) (pending : list spec_float) : list spec_float * AudioBuffer :=
  let to_read := Nat.min (fill buf) READ_CHUNK_SAMPLES in
  let '(samples, buf') := if (0 <? to_read)%nat then read to_read buf else ([], buf) in
  let pending := pending ++ samples in
  (if (MAX_PENDING_SAMPLES <? length pending)%nat then drop (length pending - TARGET_PENDING_SAMPLES) pending else pending, buf').

(** A frame: the oldest samples, clamped; a short one is filled up with the last. *)
Definition clamp_sample (s : spec_float) : spec_float := fclamp (F32.of_Z (-1)) one s.
Definition next_frame (pending : list spec_float) (last_sample : spec_float) : list spec_float * spec_float :=
  let taken := clamp_sample <$> take FRAME_SAMPLES pending in
  let last_sample := List.last taken last_sample in
  (taken ++ replicate (FRAME_SAMPLES - length taken) last_sample, last_sample).

(** A tick of the loop, if the connection is not closing: the frame it sends. *)
Definition capture_tick `{Libm} (buf : AudioBuffer) (denoise : option DenoiseFilter) (l : CaptureLoop) :
    option (list Z) * AudioBuffer * option DenoiseFilter * CaptureLoop :=
  let '(pending, buf') := pull buf (cl_pending l) in
  if negb (cl_primed l) && (length pending <? PREFILL_SAMPLES)%nat then
    (None, buf', denoise, mkCapture pending (cl_last_sample l) false (cl_deesser l) (cl_frames_sent l))
  else
    let '(frame, last_sample) := next_frame pending (cl_last_sample l) in
    let '(frame, denoise') :=
      match denoise with
      | Some dn => let '(frame', dn') := denoise_process frame dn in (frame', Some dn')
      | None => (frame, None)
      end in
    let '(frame, deesser) := deesser_process frame (cl_deesser l) in
    (Some ((λ s, as_i16 (F32.mul s (F32.of_Z 32767))) <$> frame), buf', denoise',
     mkCapture (drop FRAME_SAMPLES pending) last_sample true deesser (incr_u64 (cl_frames_sent l))).
End denoise.

(** ** The gate never amplifies *)

Definition gate_after (g : GateState) (decisions : list bool) : GateState :=
  fold_left (λ g c, (advance c g).2) decisions g.

(** A finite [f32] between zero and one. *)
Record unit_gain (x : spec_float) : Prop := {
  ug_finite : is_finite x = true;
  ug_nonneg : fnonneg x = true;
  ug_valid : valid_binary F32.prec F32.emax x = true;
  ug_le : fle x one = true
}.

(** Below one there is no infinity. *)
Lemma small_finite x : fnonneg x = true → fle x one = true → is_finite x = true.
Proof. by destruct x as [[]|[]| |[]]. Qed.

Lemma compute_gate_gain_unit g closed : unit_gain g → unit_gain (compute_gate_gain g closed).
Proof.
  intros [Hf Hn Hv Hl]. unfold compute_gate_gain. destruct closed.
  - destruct (flt _ _) eqn:E; [by vm_compute|].
    pose proof (sub_le F32.prec F32.emax g GATE_ATTACK_STEP Hf Hn Hv eq_refl) as Hle.
    change (SFsub F32.prec F32.emax g GATE_ATTACK_STEP) with (F32.sub g GATE_ATTACK_STEP) in Hle.
    destruct (fle_not_nan _ _ Hle) as [Hnan _].
    pose proof (not_flt_fle _ GATE_GAIN_FLOOR Hnan eq_refl E) as Hge.
    assert (fnonneg (F32.sub g GATE_ATTACK_STEP) = true) as Hn' by (eapply fle_trans; [|exact Hge]; done).
    assert (fle (F32.sub g GATE_ATTACK_STEP) one = true) as Hl' by (by eapply fle_trans).
    split; try done; [by apply small_finite|].
    destruct g as [[]|[]| |[] m e]; try done. by apply sub_valid.
  - destruct (fgt _ _) eqn:E; [by vm_compute|].
    assert (fnonneg (F32.add g GATE_RELEASE_STEP) = true) as Hn' by (by apply add_nonneg).
    destruct (fle_not_nan _ _ Hn') as [_ Hnan].
    assert (fle (F32.add g GATE_RELEASE_STEP) one = true) as Hl' by (by apply not_flt_fle).
    split; try done; [by apply small_finite|]. by apply add_valid.
Qed.

(** Whatever the decisions, the gain stays between zero and one. *)
Theorem gate_gain_bounded (decisions : list bool) :
  fin_range zero one (gs_gain (gate_after gate_new decisions)).
Proof.
  assert (∀ g, unit_gain (gs_gain g) → unit_gain (gs_gain (gate_after g decisions))) as Hall.
  { induction decisions as [|c ds IH]; simpl; intros g Hg; [done|]. apply IH. by apply compute_gate_gain_unit. }
  destruct (Hall gate_new) as [_ Hn _ Hl]; [by vm_compute|]. by split.
Qed.

(** The gains of the sub-frames. *)
Fixpoint gate_run (decisions : list bool) (g : GateState) : list (spec_float * spec_float) :=
  match decisions with
  | [] => []
  | c :: ds => let '(a, b, g') := advance c g in (a, b) :: gate_run ds g'
  end.
(** No more than two sub-frames in a row that ask for the gate to close. *)
Fixpoint brief_dips (hold : nat) (decisions : list bool) : bool :=
  match decisions with
  | [] => true
  | true :: ds => (hold <? 2)%nat && brief_dips (S hold) ds
  | false :: ds => brief_dips 0 ds
  end.

(** Dips of at most two sub-frames in speech are not cut: every frame leaves the gate as
    the suppressor made it. *)
Theorem brief_dips_pass (decisions : list bool) :
  brief_dips 0 decisions = true →
  gate_run decisions gate_new = replicate (length decisions) (one, one) ∧
  ∀ buf, apply_gate_gain_ramped one one buf = buf.
Proof.
  intros Hd. split; [|done]. unfold gate_new. change 0 with (Z.of_nat 0).
  revert Hd. generalize 0%nat. induction decisions as [|c ds IH]; simpl; intros hold Hd; [done|].
  destruct c; simpl.
  - apply andb_true_iff in Hd as [Hh Hd]. apply Nat.ltb_lt in Hh. unfold advance. cbn [gs_close_hold_frames gs_gain andb].
    replace (Z.min 4294967295 (Z.of_nat hold + 1)) with (Z.of_nat (S hold)) by lia.
    assert ((GATE_CLOSE_HOLD_FRAMES <? Z.of_nat (S hold)) = false) as -> by (apply Z.ltb_ge; unfold GATE_CLOSE_HOLD_FRAMES; lia).
    change (compute_gate_gain one false) with one. by rewrite IH.
  - change (compute_gate_gain one false) with one. specialize (IH 0%nat Hd). change (Z.of_nat 0) with 0 in IH. by rewrite IH.
Qed.

(** A closing gate holds for two sub-frames and is silent after ten more; it opens in five. *)
Example gate_timing :
  gs_gain (gate_after gate_new (replicate 11 true)) ≠ zero ∧
  gs_gain (gate_after gate_new (replicate 12 true)) = zero ∧
  gs_gain (gate_after gate_new (replicate 12 true ++ replicate 4 false)) ≠ one ∧
  gs_gain (gate_after gate_new (replicate 12 true ++ replicate 5 false)) = one.
Proof. vm_compute. by split_and!. Qed.

(** ** The loop *)

Lemma run_stage_length {S} (step : spec_float → S → spec_float * S) xs s :
  length (run_stage step xs s).1 = length xs.
Proof.
  revert s. induction xs as [|x xs IH]; simpl; intros s; [done|]. destruct (step x s) as [y s1].
  specialize (IH s1). destruct (run_stage step xs s1). simpl in *. by rewrite IH.
Qed.
Lemma run_stage_forall {S} (P : spec_float → Prop) (step : spec_float → S → spec_float * S) xs s :
  (∀ x s, P (step x s).1) → Forall P (run_stage step xs s).1.
Proof.
  intros Hs. revert s. induction xs as [|x xs IH]; simpl; intros s; [constructor|]. specialize (Hs x s).
  destruct (step x s) as [y s1]. specialize (IH s1). destruct (run_stage step xs s1). by constructor.
Qed.
Lemma sanitize_finite x : is_finite (sanitize x) = true.
Proof. unfold sanitize. by destruct (is_finite x) eqn:E. Qed.

(** The de-esser keeps the length of a frame and leaves only finite samples, whatever it
    is given. *)
Theorem deesser_output_finite `{Libm} (frame : list spec_float) (f : DeesserFilter) :
  length (deesser_process frame f).1 = length frame ∧
  Forall (λ s, is_finite s = true) (deesser_process frame f).1.
Proof.
  unfold deesser_process. destruct frame as [|x xs]; [by split; [|constructor]|].
  destruct (fold_left _ _ _) as [detector sum_sq].
  match goal with |- context [run_stage ?st ?l ?s] =>
    pose proof (run_stage_length st l s) as Hlen;
    pose proof (run_stage_forall (λ v, is_finite v = true) st l s) as Hfin; destruct (run_stage st l s) as [out shelf] end.
  split; [done|]. apply Hfin. intros y q. unfold shelf_sample. destruct (biquad_process _ _). apply sanitize_finite.
Qed.

Lemma as_i16_range x : -32768 ≤ as_i16 x ≤ 32767.
Proof.
  assert (∀ max y, 0 ≤ max → 0 ≤ trunc_to max y ≤ max) as Ht.
  { intros max y Hm. unfold trunc_to. destruct y as [|[]| |[] m e]; try lia. split; [|lia]. apply Z.min_glb; [done|].
    destruct (0 <=? e); [apply Z.mul_nonneg_nonneg; [lia|apply Z.pow_nonneg; lia]|apply Z_div_nonneg_nonneg; [lia|]].
    apply Z.pow_nonneg. lia. }
  unfold as_i16. destruct x as [s|[]| |[] m e]; try (cbn [trunc_to]; lia).
  - pose proof (Ht 32768 (S754_finite false m e)). lia.
  - pose proof (Ht 32767 (S754_finite false m e)). lia.
Qed.

Lemma pull_bound buf pending : (length (pull buf pending).1 ≤ MAX_PENDING_SAMPLES)%nat.
Proof.
  unfold pull. destruct (if (0 <? _)%nat then _ else _) as [samples buf']. simpl. destruct (_ <? _)%nat eqn:E.
  - apply Nat.ltb_lt in E. rewrite length_drop. unfold MAX_PENDING_SAMPLES, TARGET_PENDING_SAMPLES, FRAME_SAMPLES in *. lia.
  - by apply Nat.ltb_ge in E.
Qed.
Lemma next_frame_length pending last : length (next_frame pending last).1 = FRAME_SAMPLES.
Proof.
  unfold next_frame. simpl. rewrite length_app, length_replicate, length_fmap, length_take. lia.
Qed.

Section loop.
Context `{Libm} {D : Type} `{Rnn D}.
(** The output buffer of the suppressor has as many samples as its input. *)
Hypothesis rnn_length : ∀ tmp d, length (rnn_process tmp d).1.2 = length tmp.

Lemma process_subframe_length sub (s : D * GateState) : length (process_subframe sub s).1 = length sub.
Proof.
  unfold process_subframe. pose proof (rnn_length ((λ x, F32.mul x I16_SCALE) <$> sub) s.1) as Hl.
  destruct (rnn_process _ _) as [[vad out] d]. simpl in Hl. destruct (advance _ _) as [[a b] g]. simpl.
  rewrite length_fmap in *. rewrite <- Hl. unfold apply_gate_gain_ramped, apply_gate_gain.
  repeat case_match; by rewrite ?length_fmap, ?length_imap.
Qed.
Lemma denoise_process_length frame (f : DenoiseFilter) : length (denoise_process frame f).1 = length frame.
Proof.
  unfold denoise_process. destruct (dn_enabled f); [|done].
  pose proof (process_subframe_length (take RNN_FRAME_SAMPLES frame) (dn_state f, dn_gate f)) as H1.
  destruct (process_subframe (take _ _) _) as [first s1].
  pose proof (process_subframe_length (drop RNN_FRAME_SAMPLES frame) s1) as H2.
  destruct (process_subframe (drop _ _) s1) as [second s2]. simpl in *.
  rewrite length_app, H1, H2, <- length_app, take_drop. done.
Qed.

(** After the first 60 ms every tick sends one frame of 960 samples in the range of [i16],
    and never are more than 100 ms of samples kept back, whatever the ring holds. *)
Theorem capture_tick_spec (buf : AudioBuffer) (denoise : option DenoiseFilter) (l : CaptureLoop) :
  match capture_tick buf denoise l with
  | (sent, _, _, l') =>
      (length (cl_pending l') ≤ 5 * FRAME_SAMPLES)%nat ∧
      match sent with
      | Some frame =>
          cl_primed l' = true ∧ length frame = FRAME_SAMPLES ∧ Forall (λ z, -32768 ≤ z ≤ 32767) frame
      | None => cl_primed l = false ∧ cl_primed l' = false ∧ (length (cl_pending l') < PREFILL_SAMPLES)%nat
      end
  end.
Proof.
  unfold capture_tick. pose proof (pull_bound buf (cl_pending l)) as Hp.
  destruct (pull buf (cl_pending l)) as [pending buf']. simpl in Hp.
  destruct (negb (cl_primed l) && _) eqn:E.
  - apply andb_true_iff in E as [E1 E2]. apply negb_true_iff in E1. apply Nat.ltb_lt in E2. simpl.
    unfold PREFILL_SAMPLES, FRAME_SAMPLES in *. split_and!; try done; lia.
  - clear E. pose proof (next_frame_length pending (cl_last_sample l)) as Hf.
    destruct (next_frame _ _) as [frame last]. simpl in Hf.
    assert (∃ frame' dn', match denoise with
      | Some dn => let '(frame', dn') := denoise_process frame dn in (frame', Some dn')
      | None => (frame, None) end = (frame', dn') ∧ length frame' = FRAME_SAMPLES) as (frame' & dn' & -> & Hf').
    { destruct denoise as [dn|]; [|by do 2 eexists]. pose proof (denoise_process_length frame dn) as Hd.
      destruct (denoise_process frame dn) as [frame' dn'']. do 2 eexists. split; [done|]. simpl in Hd. congruence. }
    destruct (deesser_output_finite frame' (cl_deesser l)) as [Hl _].
    destruct (deesser_process frame' (cl_deesser l)) as [out de]. simpl in *. rewrite length_drop.
    split; [unfold MAX_PENDING_SAMPLES, FRAME_SAMPLES in *; lia|]. split_and!; [done|by rewrite length_fmap; congruence|].
    apply Forall_fmap, Forall_true. intros x. apply as_i16_range.
Qed.
End loop.

Module CaptureDemo.
(** A suppressor that changes nothing and is sure to hear speech. *)
Definition Clean : Rnn unit := {| rnn_new := tt; rnn_process tmp d := (one, tmp, d) |}.
(** A platform whose sines are zero. *)
Definition Flat : Libm := {| fsin _ := zero; fcos _ := zero; fpowf _ _ := one |}.
#[local] Existing Instance Clean.
#[local] Existing Instance Flat.

Definition ring : AudioBuffer :=
  default (with_target 100 80 10) (write_mono (replicate 3000 (F32.lit 1 4)) (with_target 100 80 10)).
Definition first_tick := capture_tick ring None capture_new.
Definition second_tick := capture_tick first_tick.1.1.2 first_tick.1.2 first_tick.2.
(** 1920 samples are not enough to begin with; the next tick sends. *)
Example loop_waits_for_a_cushion :
  (length <$> first_tick.1.1.1, length <$> second_tick.1.1.1, length (cl_pending second_tick.2))
  = (None, Some FRAME_SAMPLES, 2040%nat).
Proof. vm_compute. reflexivity. Qed.
End CaptureDemo.
