(* ===== verification/LiveKitStats.v ===== *)
(** * Transport statistics of a LiveKit room
    (clients/shared/src/livekit_network_monitor.rs)

    Once a second the client reads the statistics of both peer connections: the round
    trip goes to the network monitor, and all three figures to the user.  [RtcStats]
    has the fields the code reads. *)

From Stdlib Require Import Floats.SpecFloat.
From S2P Require Import Prelude Floats FloatBounds NetworkControl.
Local Open Scope Z_scope.

Inductive RtcStats : Type :=
| CandidatePair (current_round_trip_time : spec_float)
| RemoteInboundRtp (round_trip_time : spec_float)
| InboundRtp (kind : string) (packets_received packets_lost : Z) (jitter : spec_float)
| OtherStats.

(** Positive and finite, in milliseconds. *)
Definition positive_ms (x : spec_float) : option spec_float :=
  if fgt x (F64.of_Z 0) && is_finite x then Some (F64.mul x (F64.of_Z 1000)) else None.

(** [extract_livekit_rtt_from_stats]: a candidate pair before a remote report. *)
Definition extract_livekit_rtt_from_stats (publisher subscriber : list RtcStats) : option spec_float :=
  let all := publisher ++ subscriber in
  match head (omap (λ s, match s with CandidatePair t => positive_ms t | _ => None end) all) with
  | Some rtt => Some rtt
  | None => head (omap (λ s, match s with RemoteInboundRtp t => positive_ms t | _ => None end) all)
  end.

(** [i64] and [u64] sums of a release build. *)
Definition wrap_u64 (x : Z) : Z := x `mod` 2 ^ 64.
Definition wrap_i64 (x : Z) : Z := (x + 2 ^ 63) `mod` 2 ^ 64 - 2 ^ 63.

(** The totals over the audio streams. *)
Record LossTotals : Type := mkTotals { lt_packets : Z; lt_lost : Z; lt_jitter_ms : spec_float }.
Definition add_stat (t : LossTotals) (s : RtcStats) : LossTotals :=
  match s with
  | InboundRtp kind received lost jitter =>
      if String.eqb kind "audio" then
        mkTotals (wrap_u64 (lt_packets t + wrap_u64 (received + Z.max lost 0))) (wrap_i64 (lt_lost t + lost))
          (default (lt_jitter_ms t) (positive_ms jitter))
      else t
  | _ => t
  end.
Definition totals (publisher subscriber : list RtcStats) : LossTotals :=
  fold_left add_stat (publisher ++ subscriber) (mkTotals 0 0 (F64.of_Z 0)).

(** [f64::round]: to the nearest integer, halves away from zero. *)
Definition round_f64 (x : spec_float) : spec_float :=
  match x with
  | S754_finite s m e =>
      if 0 <=? e then x
      else
        let n := (2 * Z.pos m + 2 ^ (- e)) / (2 * 2 ^ (- e)) in
        if n =? 0 then S754_zero s else F64.of_Z (if s then - n else n)
  | _ => x
  end.

(** [extract_livekit_loss_jitter]: the loss with one decimal. *)
Definition loss_percent (t : LossTotals) : spec_float :=
  if 0 <? lt_packets t then
    let loss := F64.mul (F64.div (F64.of_Z (Z.max (lt_lost t) 0)) (F64.of_Z (lt_packets t))) (F64.of_Z 100) in
    F64.div (round_f64 (F64.mul loss (F64.of_Z 10))) (F64.of_Z 10)
  else F64.of_Z 0.
Definition extract_livekit_loss_jitter (publisher subscriber : list RtcStats) : spec_float * spec_float :=
  let t := totals publisher subscriber in (loss_percent t, lt_jitter_ms t).

(** A round of [run_stats_task]: the monitor, and what the callback is given. *)
Definition stats_round (now : Instant) (publisher subscriber : list RtcStats) (monitor : option NetworkMonitorInput) :
    option NetworkMonitorInput * (spec_float * spec_float * spec_float) :=
  let rtt_ms := extract_livekit_rtt_from_stats publisher subscriber in
  let '(loss, jitter) := extract_livekit_loss_jitter publisher subscriber in
  ((λ input, match rtt_ms with
             | Some rtt => if fge rtt (F64.of_Z 0) then set_rtt now rtt RttLiveKit input else input
             | None => input
             end) <$> monitor,
   (default (F64.of_Z 0) rtt_ms, loss, jitter)).

(** ** The loss is a percentage *)

Lemma mul_comm_f64 x y : F64.mul x y = F64.mul y x.
Proof.
  unfold F64.mul, SFmul. destruct x as [sx|sx| |sx mx ex], y as [sy|sy| |sy my ey];
    rewrite ?(xorb_comm sx), ?(Pos.mul_comm mx), ?(Z.add_comm ex); done.
Qed.

Lemma round_f64_at_most x n : 0 < n < 2 ^ 53 → at_most x n 0 → at_most (round_f64 x) n 0.
Proof.
  intros Hn [->|(m & e & -> & He & Hm)]; [by left|]. simpl. destruct (Z.leb_spec 0 e); [by right; exists m, e|].
  destruct (Z.eqb_spec ((2 * Z.pos m + 2 ^ (- e)) / (2 * 2 ^ (- e))) 0) as [|Hz]; [by left|].
  assert (0 < 2 ^ (- e)) as Hp by (apply Z.pow_pos_nonneg; lia).
  assert (0 ≤ (2 * Z.pos m + 2 ^ (- e)) / (2 * 2 ^ (- e)) ≤ n) as Hr.
  { replace (- 0 - e) with (- e) in Hm by lia. split; [apply Z.div_pos; lia|].
    apply Z.lt_succ_r, Z.div_lt_upper_bound; nia. }
  destruct (of_Z_at_most ((2 * Z.pos m + 2 ^ (- e)) / (2 * 2 ^ (- e)))) as [->|(m' & e' & -> & He' & Hm')]; [lia|by left|].
  right. exists m', e'. split_and!; [done|lia|]. etrans; [exact Hm'|]. apply Z.mul_le_mono_nonneg_r; [|lia].
  apply Z.pow_nonneg. lia.
Qed.

Lemma loss_within_percent (t : LossTotals) :
  lt_packets t < 2 ^ 53 → Z.max (lt_lost t) 0 ≤ lt_packets t → at_most (loss_percent t) 100 0.
Proof.
  intros Hp Hl. unfold loss_percent. destruct (Z.ltb_spec 0 (lt_packets t)); [|by left].
  remember (Z.max (lt_lost t) 0) as lost eqn:E. assert (0 ≤ lost) by lia. clear E.
  assert (at_most (F64.div (F64.of_Z lost) (F64.of_Z (lt_packets t))) 1 0) as H1.
  { destruct (decide (lost = 0)) as [->|].
    - apply (quot_at_most _ 0 0); [by left|lia..].
    - apply div_at_most; lia. }
  assert (at_most (F64.mul (F64.div (F64.of_Z lost) (F64.of_Z (lt_packets t))) (F64.of_Z 100)) 100 0) as H2
    by (rewrite mul_comm_f64; eapply mul_at_most; [lia|exact H1|lia..]).
  assert (at_most (F64.mul (F64.mul (F64.div (F64.of_Z lost) (F64.of_Z (lt_packets t))) (F64.of_Z 100)) (F64.of_Z 10)) 1000 0) as H3
    by (rewrite (mul_comm_f64 _ (F64.of_Z 10)); eapply mul_at_most; [lia|exact H2|lia..]).
  apply (quot_at_most _ 1000 0); [apply round_f64_at_most; [lia|done]|lia..].
Qed.

(** What a connection of years reports: packets in [0, 2^40), losses in [i32]. *)
Definition plausible (s : RtcStats) : Prop :=
  match s with
  | InboundRtp _ received lost _ => 0 ≤ received < 2 ^ 40 ∧ - 2 ^ 31 ≤ lost < 2 ^ 31
  | _ => True
  end.

Lemma totals_bounded l t k :
  Forall plausible l → 0 ≤ k → k + len l < 4096 →
  0 ≤ lt_packets t ≤ k * 2 ^ 41 → Z.abs (lt_lost t) ≤ k * 2 ^ 31 → Z.max (lt_lost t) 0 ≤ lt_packets t →
  let t' := fold_left add_stat l t in Z.max (lt_lost t') 0 ≤ lt_packets t' < 2 ^ 53.
Proof.
  intros Hl. revert t k. induction Hl as [|s l Hs _ IH]; simpl; intros t k Hk Hlen Hp Hlost Hmax; [lia|].
  apply (IH _ (k + 1)); [lia|lia|..].
  all: destruct s as [| |kind received lost jitter|]; simpl; try lia.
  all: destruct (String.eqb kind "audio"); simpl; [|lia].
  all: simpl in Hs; unfold wrap_u64, wrap_i64; rewrite ?(Z.mod_small (received + Z.max lost 0)) by lia;
    rewrite ?(Z.mod_small (lt_packets t + _)) by lia; rewrite ?(Z.mod_small (lt_lost t + lost + 2 ^ 63)) by lia; lia.
Qed.

(** A packet counted as lost is counted as expected: the loss shown to the user is never
    above 100 percent. *)
Theorem loss_is_percentage (publisher subscriber : list RtcStats) :
  Forall plausible (publisher ++ subscriber) → len (publisher ++ subscriber) < 4096 →
  at_most (extract_livekit_loss_jitter publisher subscriber).1 100 0.
Proof.
  intros Hl Hlen. simpl. unfold totals.
  pose proof (totals_bounded (publisher ++ subscriber) (mkTotals 0 0 (F64.of_Z 0)) 0 Hl ltac:(lia) ltac:(lia)) as H.
  apply loss_within_percent; apply H; simpl; lia.
Qed.

(** Half of the packets of a stream lost; the round trip of the candidate pair is taken. *)
Example stats_demo :
  stats_round 0 [CandidatePair (F64.lit 1 8); InboundRtp "audio" 50 50 (F64.lit 1 4)] [RemoteInboundRtp (F64.of_Z 1)] None
  = (None, (F64.of_Z 125, F64.of_Z 50, F64.of_Z 250)).
Proof. vm_compute. reflexivity. Qed.
