(* ===== verification/CallLoops.v ===== *)
(** * The loops of a peer-to-peer call
    (clients/shared/src/webrtc_loops.rs, webrtc_apm.rs, audio_pipeline_real.rs)

    Three tasks run during a call: one reads the microphone, processes and encodes it,
    one decodes what the jitter buffer releases, one adapts the encoder to the network;
    a fourth reads RTCP reports.  Here is a round of each, over the ring buffer, the
    jitter buffer, the network monitor and the bitrate controller.  The Opus codec and
    the native processing module are classes, the answers of the track arguments. *)

From Stdlib Require Import Floats.SpecFloat.
From S2P Require Import Prelude Floats JitterBuffer NetworkControl AudioBuffer AudioMixing MicCapture.
Local Open Scope Z_scope.

Definition APM_FRAME_SAMPLES : nat := 480.
Definition MAX_FRAMES_PER_TICK : nat := 2.

(** ** Traits *)

(** [OpusEncode], [OpusDecode]: a frame of samples to a packet, and back. *)
Class OpusEncode (E : Type) : Type := {
  encode_frame : list spec_float → E → Result string string * E;
  set_bitrate : Z → E → Result unit string * E;
  set_fec : bool → E → Result unit string * E;
  set_dtx : bool → E → Result unit string * E;
  set_packet_loss_percentage : Z → E → Result unit string * E;
  bitrate : E → Z
}.
Class OpusDecode (C : Type) : Type := {
  decode_frame : string → C → Result (list spec_float) string * C;
  decode_plc : C → Result (list spec_float) string * C
}.
(** The library's encoder (audiopus), for frames of any length. *)
Class Encoder (N : Type) : Type := {
  native_new : Result N string;
  encode_float : list spec_float → N → Result string string * N;
  native_set_bitrate : Z → N → Result unit string * N;
  set_inband_fec : bool → N → Result unit string * N;
  set_packet_loss_perc : Z → N → Result unit string * N;
  set_encoder_ctl_request : Z → Z → N → Result unit string * N;
  OPUS_SET_DTX_REQUEST : Z;
  OPUS_SET_COMPLEXITY_REQUEST : Z
}.
(** The native [AudioProcessingModule]: built with or without noise suppression. *)
Class AudioProcessingModule (A : Type) : Type := {
  apm_build : bool → A;
  process_reverse_stream : list Z → A → Result (list Z) string * A;
  process_stream : list Z → A → Result (list Z) string * A
}.

(** ** The encoder ([RealOpusEncoder]) *)

Section encoder.
Context {N : Type} `{Encoder N}.

Record RealOpusEncoder : Type := mkEncoder { oe_encoder : N; oe_current_bitrate : Z }.

(** [new]: the first refusal is the result. *)
Definition encoder_new (initial_bitrate : Z) : Result RealOpusEncoder string :=
  match native_new with
  | Err e => Err e
  | Ok n =>
      let bitrate := clamp 16000 64000 initial_bitrate in
      let '(r, n) := native_set_bitrate bitrate n in
      match r with
      | Err e => Err e
      | Ok _ =>
          let '(r, n) := set_encoder_ctl_request OPUS_SET_DTX_REQUEST 1 n in
          match r with
          | Err e => Err ("DTX enable failed: " +:+ e)
          | Ok _ =>
              let '(r, n) := set_encoder_ctl_request OPUS_SET_COMPLEXITY_REQUEST 10 n in
              match r with Err e => Err ("Complexity set failed: " +:+ e) | Ok _ => Ok (mkEncoder n bitrate) end
          end
      end
  end.

Definition real_encode_frame (pcm : list spec_float) (e : RealOpusEncoder) : Result string string * RealOpusEncoder :=
  if negb (length pcm =? FRAME_SAMPLES)%nat then (Err "wrong frame length"%string, e)
  else let '(r, n) := encode_float pcm (oe_encoder e) in (r, mkEncoder n (oe_current_bitrate e)).
Definition real_set_bitrate (bps : Z) (e : RealOpusEncoder) : Result unit string * RealOpusEncoder :=
  let bps := clamp 16000 64000 bps in
  let '(r, n) := native_set_bitrate bps (oe_encoder e) in
  (r, mkEncoder n (match r with Ok _ => bps | Err _ => oe_current_bitrate e end)).
Definition real_set_fec (enabled : bool) (e : RealOpusEncoder) : Result unit string * RealOpusEncoder :=
  let '(r, n) := set_inband_fec enabled (oe_encoder e) in (r, mkEncoder n (oe_current_bitrate e)).
Definition real_set_dtx (enabled : bool) (e : RealOpusEncoder) : Result unit string * RealOpusEncoder :=
  let '(r, n) := set_encoder_ctl_request OPUS_SET_DTX_REQUEST (if enabled then 1 else 0) (oe_encoder e) in
  (match r with Ok _ => Ok tt | Err msg => Err ("DTX set failed: " +:+ msg) end, mkEncoder n (oe_current_bitrate e)).
Definition real_set_packet_loss (pct : Z) (e : RealOpusEncoder) : Result unit string * RealOpusEncoder :=
  let '(r, n) := set_packet_loss_perc pct (oe_encoder e) in (r, mkEncoder n (oe_current_bitrate e)).
#[export] Instance RealOpusEncode : OpusEncode RealOpusEncoder := {
  encode_frame := real_encode_frame;
  set_bitrate := real_set_bitrate;
  set_fec := real_set_fec;
  set_dtx := real_set_dtx;
  set_packet_loss_percentage := real_set_packet_loss;
  bitrate := oe_current_bitrate
}.
End encoder.

(** ** Processing ([RealAudioProcessor], [ApmPipeline]) *)

Section apm.
Context {A : Type} `{AudioProcessingModule A} {D : Type} `{Rnn D}.

Record RealAudioProcessor : Type := mkProcessor { ap_processor : option A; ap_ns_enabled : bool }.
Definition processor_new : RealAudioProcessor := mkProcessor (Some (apm_build true)) true.
Definition processor_bypass : RealAudioProcessor := mkProcessor None false.

(** [set_ns_enabled]: the module is built again. *)
Definition set_ns_enabled (enabled : bool) (p : RealAudioProcessor) : RealAudioProcessor :=
  match ap_processor p with
  | None => p
  | Some _ => if Bool.eqb (ap_ns_enabled p) enabled then p else mkProcessor (Some (apm_build enabled)) enabled
  end.

(** [f32_to_i16]; [copy_i16_to_f32] writes as far as both slices go. *)
Definition f32_to_i16 (input : list spec_float) : list Z :=
  (λ s, as_i16 (F32.mul (clamp_sample s) I16_SCALE)) <$> input.
Definition copy_i16_to_f32 (input : list Z) (output : list spec_float) : list spec_float :=
  take (length output) ((λ z, F32.div (F32.of_Z z) I16_SCALE) <$> input) ++ drop (length input) output.

(** [process_capture_frame]: after an error the frame is as it was. *)
Definition process_capture_frame (capture reference : list spec_float) (p : RealAudioProcessor) :
    list spec_float * RealAudioProcessor :=
  match ap_processor p with
  | None => (capture, p)
  | Some m =>
      if negb (length capture =? APM_FRAME_SAMPLES)%nat || negb (length reference =? APM_FRAME_SAMPLES)%nat then (capture, p)
      else
        let '(r, m1) := process_reverse_stream (f32_to_i16 reference) m in
        match r with
        | Err _ => (capture, mkProcessor (Some m1) (ap_ns_enabled p))
        | Ok _ =>
            let '(r, m2) := process_stream (f32_to_i16 capture) m1 in
            (match r with Ok out => copy_i16_to_f32 out capture | Err _ => capture end, mkProcessor (Some m2) (ap_ns_enabled p))
        end
  end.

Record ApmPipeline : Type := mkPipeline { pl_processor : RealAudioProcessor; pl_prev_denoise_enabled : bool }.
Definition pipeline_new (dn : DenoiseFilter (D := D)) : ApmPipeline :=
  mkPipeline (if dn_enabled dn then set_ns_enabled false processor_new else processor_new) (dn_enabled dn).

(** [apply_denoise]: the switch is read here and again by the filter; between the two
    the user may have moved it. *)
Definition coordinate (dn : DenoiseFilter (D := D)) (p : ApmPipeline) : DenoiseFilter * ApmPipeline :=
  let current := dn_enabled dn in
  if Bool.eqb current (pl_prev_denoise_enabled p) then (dn, p)
  else if current then (MicCapture.reset_state dn, mkPipeline (set_ns_enabled false (pl_processor p)) true)
  else (dn, mkPipeline (set_ns_enabled true (pl_processor p)) false).
Definition apply_denoise (pcm : list spec_float) (moved : option bool) (dn : DenoiseFilter (D := D)) (p : ApmPipeline) :
    list spec_float * DenoiseFilter * ApmPipeline :=
  let '(dn, p) := coordinate dn p in
  let dn := match moved with Some b => set_enabled b dn | None => dn end in
  let '(pcm, dn) := denoise_process pcm dn in
  (pcm, dn, p).

(** [process_apm]: two chunks, each with what the speaker plays at that moment. *)
Definition process_apm (pcm : list spec_float) (playback1 playback2 : AudioBuffer) (p : ApmPipeline) :
    list spec_float * ApmPipeline :=
  let reference1 := (peek_recent APM_FRAME_SAMPLES playback1).1 in
  let '(first, q1) := process_capture_frame (take APM_FRAME_SAMPLES pcm) reference1 (pl_processor p) in
  let reference2 := (peek_recent APM_FRAME_SAMPLES playback2).1 in
  let '(second, q2) := process_capture_frame (drop APM_FRAME_SAMPLES pcm) reference2 q1 in
  (first ++ second, mkPipeline q2 (pl_prev_denoise_enabled p)).

(** Which of the two suppressors a frame meets. *)
Definition suppressors (moved : option bool) (dn : DenoiseFilter (D := D)) (p : ApmPipeline) : bool * bool :=
  let '(dn', p') := coordinate dn p in
  (match moved with Some b => b | None => dn_enabled dn' end, ap_ns_enabled (pl_processor p')).
End apm.

(** ** Sending *)

(** The counters that the control loop reads and resets. *)
Record SenderCounters : Type := mkCounters { sc_sent : Z; sc_dropped : Z; sc_max_backlog : Z }.

(** [sender_frame_selection]. *)
Definition sender_frame_selection (available : nat) : nat * nat :=
  if (available <=? MAX_FRAMES_PER_TICK)%nat then (available, 0%nat) else (MAX_FRAMES_PER_TICK, (available - MAX_FRAMES_PER_TICK)%nat).

(** What happens around a frame: the switch is moved, the speaker plays, the track
    takes the packet or not. *)
Record Round : Type := mkRound {
  rd_moved : option bool;
  rd_playback1 : AudioBuffer;
  rd_playback2 : AudioBuffer;
  rd_written : bool
}.

Section send.
Context {E : Type} `{OpusEncode E} {A : Type} `{AudioProcessingModule A} {D : Type} `{Rnn D}.

(** What the send task uses, and the packets the track has taken. *)
Record Sender : Type := mkSender {
  sd_capture : AudioBuffer;
  sd_denoise : DenoiseFilter (D := D);
  sd_pipeline : ApmPipeline (A := A);
  sd_encoder : option E;
  sd_capture_meter : AudioMeter;
  sd_post_denoise_meter : AudioMeter;
  sd_post_apm_meter : AudioMeter;
  sd_counters : SenderCounters;
  sd_written : list string
}.

(** Encoding, [Err] without an encoder. *)
Definition encode (pcm : list spec_float) (encoder : option E) : Result string string * option E :=
  match encoder with
  | Some e => let '(r, e') := encode_frame pcm e in (r, Some e')
  | None => (Err "encoder not available"%string, None)
  end.

(** One frame. *)
Definition send_frame (rd : Round) (s : Sender) : Sender :=
  let '(pcm, capture) := read FRAME_SAMPLES (sd_capture s) in
  let m1 := analyze pcm (sd_capture_meter s) in
  let '(pcm, dn, p) := apply_denoise pcm (rd_moved rd) (sd_denoise s) (sd_pipeline s) in
  let m2 := analyze pcm (sd_post_denoise_meter s) in
  let '(pcm, p) := process_apm pcm (rd_playback1 rd) (rd_playback2 rd) p in
  let m3 := analyze pcm (sd_post_apm_meter s) in
  let '(r, encoder) := encode pcm (sd_encoder s) in
  let k := sd_counters s in
  match r with
  | Ok packet =>
      if rd_written rd then
        mkSender capture dn p encoder m1 m2 m3
          (mkCounters (incr_u64 (sc_sent k)) (sc_dropped k) (sc_max_backlog k)) (sd_written s ++ [packet])
      else mkSender capture dn p encoder m1 m2 m3 k (sd_written s)
  | Err _ => mkSender capture dn p encoder m1 m2 m3 k (sd_written s)
  end.

(** The frames of a tick, one per round as long as the ring holds one: how many. *)
Fixpoint send_frames (rounds : list Round) (s : Sender) : nat * Sender :=
  match rounds with
  | [] => (O, s)
  | rd :: rounds =>
      if (fill (sd_capture s) <? FRAME_SAMPLES)%nat then (O, s)
      else let '(n, s') := send_frames rounds (send_frame rd s) in (S n, s')
  end.

(** The backlog: its peak is kept, and what exceeds two frames is dropped. *)
Definition shed_backlog (s : Sender) : Sender :=
  let backlog := (fill (sd_capture s) / FRAME_SAMPLES)%nat in
  let k := sd_counters s in
  let k := mkCounters (sc_sent k) (sc_dropped k) (Z.max (sc_max_backlog k) (Z.of_nat backlog)) in
  let '(capture, k) :=
    if (MAX_FRAMES_PER_TICK <? backlog)%nat then
      let to_drop := (backlog - MAX_FRAMES_PER_TICK)%nat in
      (skip_frames to_drop FRAME_SAMPLES (sd_capture s),
       mkCounters (sc_sent k) ((sc_dropped k + Z.of_nat to_drop) `mod` u64_modulus) (sc_max_backlog k))
    else (sd_capture s, k) in
  mkSender capture (sd_denoise s) (sd_pipeline s) (sd_encoder s) (sd_capture_meter s) (sd_post_denoise_meter s)
    (sd_post_apm_meter s) k (sd_written s).

(** A tick of the send loop. *)
Definition send_tick (rd1 rd2 : Round) (s : Sender) : nat * Sender := send_frames [rd1; rd2] (shed_backlog s).

(** ** Adapting ([start_control_loop]) *)

(** [x.round() as u8] for an [f64]: halves go away from zero. *)
Definition round_as_u8 (x : spec_float) : Z :=
  match x with
  | S754_finite false m e =>
      Z.min 255 (if 0 <=? e then Z.pos m * 2 ^ e else (2 * Z.pos m + 2 ^ (- e)) / (2 * 2 ^ (- e)))
  | S754_infinity false => 255
  | _ => 0
  end.
Definition loss_pct (stats : NetworkStats) : Z :=
  Z.min (round_as_u8 (F64.mul (ns_packet_loss stats) (F64.of_Z 100))) 100.

(** The three settings: a refusal is logged. *)
Definition configure (stats : NetworkStats) (d : BitrateDecision) (e : E) : E :=
  let e := (set_bitrate (bd_bitrate_bps d) e).2 in
  let e := (set_fec (bd_fec_enabled d) e).2 in
  (set_packet_loss_percentage (loss_pct stats) e).2.

(** [PipelineTelemetry], without the processing mode. *)
Record PipelineTelemetry : Type := mkTelemetry {
  pt_network : NetworkStats;
  pt_jitter : JitterBufferStats;
  pt_bitrate : BitrateDecision;
  pt_capture_fill_ms : nat;
  pt_playback_fill_ms : nat;
  pt_capture_underruns : Z;
  pt_capture_overruns : Z;
  pt_playback_underruns : Z;
  pt_playback_overruns : Z;
  pt_backlog_drops : Z;
  pt_backlog_dropped_samples : Z;
  pt_frames_sent : Z;
  pt_frames_dropped : Z;
  pt_max_backlog_frames : Z
}.

(** A second of the control loop: [None] is the panic of the controller. *)
Definition control_tick (now : Instant) (playback : AudioBuffer) (m : RealNetworkMonitor) (c : AdaptiveBitrateController)
    (jitter : option AdaptiveJitterBuffer) (s : Sender) :
    option (PipelineTelemetry * RealNetworkMonitor * AdaptiveBitrateController * option AdaptiveJitterBuffer * Sender) :=
  let '(stats, m) := poll_stats m in
  '(decision, c) ← on_stats stats c;
  let encoder := configure stats decision <$> sd_encoder s in
  let jitter := update_stats now (ns_jitter_ms stats) (ns_jitter_stddev_ms stats) <$> jitter in
  let cap := sd_capture s in
  let k := sd_counters s in
  let t := mkTelemetry stats (default (mkJitterStats (F64.of_Z 0) (F64.of_Z 0) 0 0 0) (jitter_stats <$> jitter)) decision (fill_ms cap) (fill_ms playback)
             (ab_underruns cap) (ab_overruns cap) (ab_underruns playback) (ab_overruns playback)
             ((ab_backlog_drops cap + ab_backlog_drops playback) `mod` u64_modulus)
             ((ab_backlog_dropped_samples cap + ab_backlog_dropped_samples playback) `mod` u64_modulus)
             (sc_sent k) (sc_dropped k) (sc_max_backlog k) in
  Some (t, m, c, jitter,
        mkSender cap (sd_denoise s) (sd_pipeline s) encoder (meter_reset (sd_capture_meter s)) (sd_post_denoise_meter s)
          (meter_reset (sd_post_apm_meter s)) (mkCounters 0 0 0) (sd_written s)).
End send.

(** ** Receiving ([run_receive_loop]) *)

Section receive.
Context {C : Type} `{OpusDecode C}.

Record Receiver : Type := mkReceiver {
  rv_input : NetworkMonitorInput;
  rv_jitter : option AdaptiveJitterBuffer;
  rv_decoder : C;
  rv_playback : AudioBuffer;
  rv_meter : AudioMeter
}.

(** Concealment; [None] is a panic of the ring. *)
Definition conceal (s : Receiver) : option Receiver :=
  let '(r, c) := decode_plc (rv_decoder s) in
  match r with
  | Ok pcm => pb ← write_mono pcm (rv_playback s); Some (mkReceiver (rv_input s) (rv_jitter s) c pb (rv_meter s))
  | Err _ => Some (mkReceiver (rv_input s) (rv_jitter s) c (rv_playback s) (rv_meter s))
  end.

(** A packet; one that cannot be decoded is concealed. *)
Definition decode (data : string) (s : Receiver) : option Receiver :=
  let '(r, c) := decode_frame data (rv_decoder s) in
  match r with
  | Ok pcm =>
      pb ← write_mono pcm (rv_playback s);
      Some (mkReceiver (rv_input s) (rv_jitter s) c pb (analyze pcm (rv_meter s)))
  | Err _ => conceal (mkReceiver (rv_input s) (rv_jitter s) c (rv_playback s) (rv_meter s))
  end.

(** The next result of the jitter buffer. *)
Definition pop_next (now : Instant) (s : Receiver) : option (JitterResult * Receiver) :=
  match rv_jitter s with
  | Some jb =>
      '(r, jb) ← pop now jb;
      Some (r, mkReceiver (rv_input s) (Some jb) (rv_decoder s) (rv_playback s) (rv_meter s))
  | None => Some (NotReady, s)
  end.

(** The inner loop, which reads the clock before each result: whether it has ended. *)
Fixpoint drain (nows : list Instant) (s : Receiver) : option (bool * Receiver) :=
  match nows with
  | [] => Some (false, s)
  | now :: nows =>
      '(r, s) ← pop_next now s;
      match r with
      | Packet data => s ← decode data s; drain nows s
      | Missing => s ← conceal s; drain nows s
      | NotReady => Some (true, s)
      end
  end.

(** A packet from the track, recorded, buffered and followed by the inner loop. *)
Definition receive_packet (t t1 t2 : Instant) (nows : list Instant) (seq : Z) (payload : string) (s : Receiver) :
    option (bool * Receiver) :=
  if (String.length payload =? 0)%nat then Some (true, s)
  else
    let input := record_packet t seq (rv_input s) in
    jitter ← match rv_jitter s with
             | Some jb => jb ← push t1 t2 seq payload jb; Some (Some jb)
             | None => Some None
             end;
    drain nows (mkReceiver input jitter (rv_decoder s) (rv_playback s) (rv_meter s)).
End receive.

(** ** Round trips ([run_rtcp_reader]) *)

(** [dlsr_to_duration]: the delay since the last report, in 65536ths of a second. *)
Definition dlsr_to_duration (dlsr : Z) : Duration :=
  let secs := Z.shiftr dlsr 16 in
  let frac := Z.land dlsr 0xFFFF in
  from_secs secs + frac * 1000000000 / 65536.

(** [compute_rtcp_rtt_ms]: the round trip, .. *)
Definition rtcp_rtt (sr_send_instant rr_arrival : Instant) (dlsr : Duration) : option Duration :=
  let elapsed := duration_since rr_arrival sr_send_instant in
  if elapsed <? dlsr then None else Some (elapsed - dlsr).
(** .. in milliseconds. *)
Definition compute_rtcp_rtt_ms (sr_send_instant rr_arrival : Instant) (dlsr : Duration) : option spec_float :=
  (λ rtt, F64.mul (as_secs_f64 rtt) (F64.of_Z 1000)) <$> rtcp_rtt sr_send_instant rr_arrival dlsr.

Definition oldest (instants : gmap Z Instant) : option (Z * Instant) :=
  foldr (λ e o, Some (match o with Some e' => if (e.2 <=? e'.2)%Z then e else e' | None => e end)) None (map_to_list instants).

(** One report of a receiver, [(last_sender_report, delay)]. *)
Definition on_report (now : Instant) (report : Z * Z) (st : gmap Z Instant * NetworkMonitorInput) :
    gmap Z Instant * NetworkMonitorInput :=
  let '(lsr, delay) := report in
  let '(instants, input) := st in
  if lsr =? 0 then st
  else
    let sr_instant := default now (instants !! lsr) in
    let instants := <[lsr := sr_instant]> instants in
    let input :=
      match compute_rtcp_rtt_ms sr_instant now (dlsr_to_duration delay) with
      | Some rtt_ms => if flt rtt_ms (F64.of_Z 10000) then set_rtt now rtt_ms RttRtcp input else input
      | None => input
      end in
    (if (16 <? size instants)%nat
     then match oldest instants with Some (k, _) => delete k instants | None => instants end
     else instants, input).
(** The reports of a packet share its arrival. *)
Definition on_receiver_report (now : Instant) (reports : list (Z * Z)) (st : gmap Z Instant * NetworkMonitorInput) :
    gmap Z Instant * NetworkMonitorInput :=
  fold_left (λ st r, on_report now r st) reports st.

(** ** One suppressor at a time *)

Section suppression.
Context {A : Type} `{AudioProcessingModule A} {D : Type} `{Rnn D}.

(** The module suppresses noise exactly when the filter did not at the last frame. *)
Definition pipeline_ok (p : ApmPipeline (A := A)) : Prop :=
  match ap_processor (pl_processor p) with
  | Some _ => ap_ns_enabled (pl_processor p) = negb (pl_prev_denoise_enabled p)
  | None => ap_ns_enabled (pl_processor p) = false
  end.

Lemma set_ns_enabled_spec (b : bool) (p : RealAudioProcessor (A := A)) :
  is_Some (ap_processor p) → is_Some (ap_processor (set_ns_enabled b p)) ∧ ap_ns_enabled (set_ns_enabled b p) = b.
Proof.
  intros [m Hm]. unfold set_ns_enabled. rewrite Hm. destruct (Bool.eqb_spec (ap_ns_enabled p) b); cbn; [|eauto].
  rewrite Hm. eauto.
Qed.
Lemma pipeline_new_ok (dn : DenoiseFilter (D := D)) : pipeline_ok (pipeline_new dn).
Proof. unfold pipeline_ok, pipeline_new. by destruct (dn_enabled dn). Qed.

Lemma coordinate_ok (dn : DenoiseFilter (D := D)) (p : ApmPipeline (A := A)) :
  pipeline_ok p → let '(dn', p') := coordinate dn p in
  pipeline_ok p' ∧ dn_enabled dn' = dn_enabled dn ∧ pl_prev_denoise_enabled p' = dn_enabled dn ∧
  (is_Some (ap_processor (pl_processor p')) ↔ is_Some (ap_processor (pl_processor p))).
Proof.
  intros Hp. unfold coordinate. destruct (Bool.eqb_spec (dn_enabled dn) (pl_prev_denoise_enabled p)) as [He|He]; [done|].
  unfold pipeline_ok in *. destruct (ap_processor (pl_processor p)) as [m|] eqn:Hm.
  - destruct (set_ns_enabled_spec (negb (dn_enabled dn)) (pl_processor p)) as [[m' Hm'] Hn]; [by eexists|].
    destruct (dn_enabled dn) eqn:Hd; cbn in *; rewrite Hm', Hn; split_and!; try done; split; by eexists.
  - destruct (dn_enabled dn) eqn:Hd; unfold set_ns_enabled; rewrite Hm; cbn; rewrite Hm; done.
Qed.

Lemma process_capture_ok capture reference (p : RealAudioProcessor (A := A)) :
  let '(out, p') := process_capture_frame capture reference p in
  length out = length capture ∧ ap_ns_enabled p' = ap_ns_enabled p ∧
  (is_Some (ap_processor p') ↔ is_Some (ap_processor p)).
Proof.
  unfold process_capture_frame. destruct (ap_processor p) as [m|] eqn:Hm; [|by rewrite Hm].
  destruct (_ || _); [by rewrite Hm|]. destruct (process_reverse_stream _ m) as [[?|?] m1]; [|by cbn].
  destruct (process_stream _ m1) as [[out|?] m2]; cbn; [|done]. split; [|done]. unfold copy_i16_to_f32.
  rewrite length_app, length_take, length_fmap, length_drop. lia.
Qed.

Lemma process_apm_ok pcm pb1 pb2 (p : ApmPipeline (A := A)) :
  let '(out, p') := process_apm pcm pb1 pb2 p in
  length out = length pcm ∧ pl_prev_denoise_enabled p' = pl_prev_denoise_enabled p ∧ (pipeline_ok p → pipeline_ok p').
Proof.
  unfold process_apm. pose proof (process_capture_ok (take APM_FRAME_SAMPLES pcm) (peek_recent APM_FRAME_SAMPLES pb1).1 (pl_processor p)) as H1.
  destruct (process_capture_frame _ _ (pl_processor p)) as [first q1]. destruct H1 as (Hl1 & Hn1 & Hs1).
  pose proof (process_capture_ok (drop APM_FRAME_SAMPLES pcm) (peek_recent APM_FRAME_SAMPLES pb2).1 q1) as H2.
  destruct (process_capture_frame _ _ q1) as [second q2]. destruct H2 as (Hl2 & Hn2 & Hs2).
  split; [|split; [done|]]. { rewrite length_app, Hl1, Hl2, <-length_app, take_drop. done. }
  unfold pipeline_ok. cbn. rewrite Hn2, Hn1.
  destruct (ap_processor q2), (ap_processor q1), (ap_processor (pl_processor p));
    unfold is_Some in *; naive_solver.
Qed.

Lemma apply_denoise_ok pcm moved (dn : DenoiseFilter (D := D)) (p : ApmPipeline (A := A)) :
  pipeline_ok p → pipeline_ok (apply_denoise pcm moved dn p).2.
Proof.
  intros Hp. pose proof (coordinate_ok dn p Hp) as Hc. unfold apply_denoise. destruct (coordinate dn p) as [dn' p'].
  destruct (denoise_process _ _). apply Hc.
Qed.

(** As long as the switch is not moved while a frame is between its two reads, a frame
    meets exactly one of the two suppressors: the filter if it is on, else the module's. *)
Theorem one_suppressor (dn : DenoiseFilter (D := D)) (p : ApmPipeline (A := A)) :
  pipeline_ok p → is_Some (ap_processor (pl_processor p)) →
  suppressors None dn p = (dn_enabled dn, negb (dn_enabled dn)).
Proof.
  intros Hp Hs. pose proof (coordinate_ok dn p Hp) as Hc. unfold suppressors. destruct (coordinate dn p) as [dn' p'].
  destruct Hc as (Hp' & -> & Hprev & Hs'). unfold pipeline_ok in Hp'. apply Hs' in Hs as [m Hm]. rewrite Hm in Hp'.
  by rewrite Hp', Hprev.
Qed.

(** Moved to on between the reads, it makes a frame meet both; moved to off, none. *)
Theorem switch_race (b : bool) (dn : DenoiseFilter (D := D)) (p : ApmPipeline (A := A)) :
  pipeline_ok p → is_Some (ap_processor (pl_processor p)) → dn_enabled dn = negb b →
  suppressors (Some b) dn p = (b, b).
Proof.
  intros Hp Hs Hd. pose proof (one_suppressor dn p Hp Hs) as Hone. unfold suppressors in *.
  destruct (coordinate dn p) as [dn' p']. injection Hone as _ ->. by rewrite Hd, negb_involutive.
Qed.
End suppression.

(** ** Two frames a tick *)

Section sending.
Context {E : Type} `{OpusEncode E} {A : Type} `{AudioProcessingModule A} {D : Type} `{Rnn D}.
Abbreviation Sender' := (Sender (E := E) (A := A) (D := D)).

(** A frame takes 960 samples from the ring, whatever becomes of it. *)
Lemma send_frame_ok (rd : Round) (s : Sender') :
  ring_ok (sd_capture s) → pipeline_ok (sd_pipeline s) →
  let s' := send_frame rd s in
  ring_ok (sd_capture s') ∧ pipeline_ok (sd_pipeline s') ∧
  queue (sd_capture s') = drop FRAME_SAMPLES (queue (sd_capture s)) ∧
  sc_dropped (sd_counters s') = sc_dropped (sd_counters s) ∧
  sc_max_backlog (sd_counters s') = sc_max_backlog (sd_counters s) ∧
  (sd_written s' = sd_written s ∧ sc_sent (sd_counters s') = sc_sent (sd_counters s) ∨
   ∃ packet, sd_written s' = sd_written s ++ [packet] ∧ sc_sent (sd_counters s') = incr_u64 (sc_sent (sd_counters s))).
Proof.
  intros Hr Hp. unfold send_frame. pose proof (read_ok FRAME_SAMPLES (sd_capture s) Hr) as Hread.
  destruct (read FRAME_SAMPLES (sd_capture s)) as [pcm capture]. destruct Hread as (Hr' & _ & Hq & _).
  pose proof (apply_denoise_ok pcm (rd_moved rd) (sd_denoise s) (sd_pipeline s) Hp) as Hp1.
  destruct (apply_denoise _ _ _ _) as [[pcm1 dn] p1].
  pose proof (process_apm_ok pcm1 (rd_playback1 rd) (rd_playback2 rd) p1) as Hp2.
  destruct (process_apm _ _ _ p1) as [pcm2 p2]. destruct Hp2 as (_ & _ & Hp2). specialize (Hp2 Hp1).
  destruct (encode pcm2 (sd_encoder s)) as [[packet|?] e]; [destruct (rd_written rd)|]; cbn; split_and!; try done; eauto.
Qed.

Lemma send_frames_ok (rounds : list Round) (s : Sender') :
  ring_ok (sd_capture s) → pipeline_ok (sd_pipeline s) →
  let '(n, s') := send_frames rounds s in
  ring_ok (sd_capture s') ∧ pipeline_ok (sd_pipeline s') ∧
  n = Nat.min (length rounds) (fill (sd_capture s) / FRAME_SAMPLES) ∧
  queue (sd_capture s') = drop (n * FRAME_SAMPLES) (queue (sd_capture s)) ∧
  sc_dropped (sd_counters s') = sc_dropped (sd_counters s) ∧
  sc_max_backlog (sd_counters s') = sc_max_backlog (sd_counters s) ∧
  (length (sd_written s) ≤ length (sd_written s') ≤ length (sd_written s) + n)%nat.
Proof.
  revert s. induction rounds as [|rd rounds IH]; intros s Hr Hp; cbn [send_frames length].
  { split_and!; try done; lia. }
  destruct (Nat.ltb_spec (fill (sd_capture s)) FRAME_SAMPLES) as [Hf|Hf].
  { rewrite Nat.div_small by done. split_and!; try done; lia. }
  destruct (send_frame_ok rd s Hr Hp) as (Hr1 & Hp1 & Hq1 & Hd1 & Hb1 & Hw1). specialize (IH _ Hr1 Hp1).
  destruct (send_frames rounds (send_frame rd s)) as [n s']. destruct IH as (Hr2 & Hp2 & Hn & Hq2 & Hd2 & Hb2 & Hw2).
  assert (Hfill : fill (sd_capture s) = (fill (sd_capture (send_frame rd s)) + 1 * FRAME_SAMPLES)%nat).
  { rewrite <-!queue_length, Hq1, length_drop, queue_length. lia. }
  split_and!; [done..| | |congruence|congruence| |].
  - rewrite Hfill, Nat.div_add by done. lia.
  - rewrite Hq2, Hq1, drop_drop. done.
  - destruct Hw1 as [[Hw1 _]|(packet & Hw1 & _)]; rewrite Hw1, ?length_app in Hw2; cbn in Hw2; lia.
  - destruct Hw1 as [[Hw1 _]|(packet & Hw1 & _)]; rewrite Hw1, ?length_app in Hw2; cbn in Hw2; lia.
Qed.

Lemma shed_backlog_ok (s : Sender') :
  ring_ok (sd_capture s) →
  let s' := shed_backlog s in
  let '(keep, shed) := sender_frame_selection (fill (sd_capture s) / FRAME_SAMPLES) in
  ring_ok (sd_capture s') ∧ queue (sd_capture s') = drop (shed * FRAME_SAMPLES) (queue (sd_capture s)) ∧
  sd_pipeline s' = sd_pipeline s ∧ sd_written s' = sd_written s ∧
  (shed = O ∨ sc_dropped (sd_counters s') = (sc_dropped (sd_counters s) + Z.of_nat shed) `mod` u64_modulus) ∧
  Z.of_nat (keep + shed) ≤ sc_max_backlog (sd_counters s').
Proof.
  intros Hr. unfold shed_backlog, sender_frame_selection. generalize (fill (sd_capture s) / FRAME_SAMPLES)%nat as backlog. intros backlog.
  destruct (Nat.leb_spec backlog MAX_FRAMES_PER_TICK) as [Hb|Hb].
  - rewrite (proj2 (Nat.ltb_ge _ _)) by done. cbn. split_and!; try done; [by left|lia].
  - rewrite (proj2 (Nat.ltb_lt _ _)) by done. cbn -[skip_frames].
    destruct (skip_ok (backlog - MAX_FRAMES_PER_TICK) FRAME_SAMPLES (sd_capture s) Hr) as (Hr' & _ & Hq).
    split_and!; try done; [by right|]. unfold MAX_FRAMES_PER_TICK in *. lia.
Qed.

(** A tick handles as many whole frames as [sender_frame_selection] says and drops the
    others, the oldest first: less than one frame stays in the ring, so the microphone
    never falls behind by more than a tick, and every packet sent counts once. *)
Theorem tick_clears_backlog (rd1 rd2 : Round) (s : Sender') :
  ring_ok (sd_capture s) → pipeline_ok (sd_pipeline s) →
  let backlog := (fill (sd_capture s) / FRAME_SAMPLES)%nat in
  let '(keep, shed) := sender_frame_selection backlog in
  let '(n, s') := send_tick rd1 rd2 s in
  n = keep ∧ (keep + shed)%nat = backlog ∧
  queue (sd_capture s') = drop (backlog * FRAME_SAMPLES) (queue (sd_capture s)) ∧
  fill (sd_capture s') = (fill (sd_capture s) `mod` FRAME_SAMPLES)%nat ∧
  (shed = O ∨ sc_dropped (sd_counters s') = (sc_dropped (sd_counters s) + Z.of_nat shed) `mod` u64_modulus) ∧
  (length (sd_written s') ≤ length (sd_written s) + 2)%nat ∧
  ring_ok (sd_capture s') ∧ pipeline_ok (sd_pipeline s').
Proof.
  intros Hr Hp. cbv zeta. pose proof (shed_backlog_ok s Hr) as Hs.
  destruct (sender_frame_selection _) as [keep shed] eqn:Hsel. destruct Hs as (Hr1 & Hq1 & Hp1 & Hw1 & Hd1 & _).
  unfold send_tick. pose proof (send_frames_ok [rd1; rd2] (shed_backlog s) Hr1 ltac:(congruence)) as Hf.
  destruct (send_frames [rd1; rd2] (shed_backlog s)) as [n s']. destruct Hf as (Hr2 & Hp2 & Hn & Hq2 & Hd2 & _ & Hw2).
  assert (Hk : (keep + shed)%nat = (fill (sd_capture s) / FRAME_SAMPLES)%nat ∧ (keep ≤ 2)%nat ∧ (shed = 0 ∨ keep = 2)%nat).
  { unfold sender_frame_selection, MAX_FRAMES_PER_TICK in Hsel. destruct (Nat.leb_spec (fill (sd_capture s) / FRAME_SAMPLES) 2); simplify_eq; lia. }
  destruct Hk as (Hk & Hk2 & Hk3). pose proof (Nat.div_mod_eq (fill (sd_capture s)) FRAME_SAMPLES) as Hdiv.
  assert (Hfill : fill (sd_capture (shed_backlog s)) = (fill (sd_capture s) `mod` FRAME_SAMPLES + keep * FRAME_SAMPLES)%nat).
  { rewrite <-queue_length, Hq1, length_drop, queue_length. lia. }
  pose proof (Nat.mod_upper_bound (fill (sd_capture s)) FRAME_SAMPLES ltac:(done)) as Hlt.
  rewrite Hfill, Nat.div_add, Nat.div_small in Hn by done. cbn [length] in Hn.
  assert (n = keep) as -> by lia.
  assert (Hq : queue (sd_capture s') = drop (fill (sd_capture s) / FRAME_SAMPLES * FRAME_SAMPLES) (queue (sd_capture s))).
  { rewrite Hq2, Hq1, drop_drop, <-Hk. f_equal. lia. }
  split_and!; try done.
  - rewrite <-queue_length, Hq, length_drop, queue_length. lia.
  - by rewrite Hd2.
  - rewrite <-Hw1. lia.
Qed.
End sending.

(** ** A second of control *)

Lemma loss_pct_range (stats : NetworkStats) : 0 ≤ loss_pct stats ≤ 100.
Proof.
  unfold loss_pct, round_as_u8. split; [|lia]. destruct (F64.mul _ _) as [?|[]| |[] m e]; try lia.
  destruct (Z.leb_spec 0 e); [nia|]. assert (0 ≤ (2 * Z.pos m + 2 ^ (- e)) / (2 * 2 ^ (- e))) by (apply Z.div_pos; nia). lia.
Qed.

Section control.
Context {N : Type} `{Encoder N} {A : Type} `{AudioProcessingModule A} {D : Type} `{Rnn D}.

(** With the limits of the encoder the controller never panics, and a library that takes
    its settings is set to exactly the bitrate decided; the loss hint is a percentage,
    and the counters start again. *)
Theorem control_sets_bitrate (now : Instant) (playback : AudioBuffer) (m : RealNetworkMonitor)
    (c : AdaptiveBitrateController) (jitter : option AdaptiveJitterBuffer) (s : Sender (E := RealOpusEncoder (N := N)) (A := A) (D := D)) :
  (∀ bps n, (native_set_bitrate bps n).1 = Ok tt) →
  controller_ok c → bc_min_bitrate (ac_config c) = 16000 → bc_max_bitrate (ac_config c) = 64000 →
  ∃ t m' c' jitter' s', control_tick now playback m c jitter s = Some (t, m', c', jitter', s') ∧
    controller_ok c' ∧ ac_config c' = ac_config c ∧ 16000 ≤ bd_bitrate_bps (pt_bitrate t) ≤ 64000 ∧
    oe_current_bitrate <$> sd_encoder s' = (λ _, bd_bitrate_bps (pt_bitrate t)) <$> sd_encoder s ∧
    0 ≤ loss_pct (pt_network t) ≤ 100 ∧ sd_counters s' = mkCounters 0 0 0 ∧ pt_frames_sent t = sc_sent (sd_counters s).
Proof.
  intros Hlib Hc Hmin Hmax. unfold control_tick. destruct (poll_stats m) as [stats m'].
  destruct (on_stats_ok stats c Hc) as (d & c' & -> & Hc' & Hcfg & Hcur). cbn.
  do 5 eexists. split; [done|]. cbn. destruct Hc' as (Hr & Hrest). rewrite Hcfg, Hmin, Hmax, Hcur in Hr.
  split_and!; try done; try lia; try apply loss_pct_range; [by split; [rewrite Hcfg, Hmin, Hmax, Hcur|]|].
  destruct (sd_encoder s) as [e|]; [|done]. cbn. f_equal. unfold configure, set_bitrate, set_fec, set_packet_loss_percentage. cbn.
  unfold real_set_bitrate. specialize (Hlib (clamp 16000 64000 (bd_bitrate_bps d)) (oe_encoder e)).
  destruct (native_set_bitrate _ _) as [r n]. cbn in Hlib. subst r. cbn. unfold real_set_fec, real_set_packet_loss. cbn.
  destruct (set_inband_fec _ n) as [? n1]. cbn. destruct (set_packet_loss_perc _ n1) as [? n2]. cbn.
  unfold clamp. destruct (Z.ltb_spec (bd_bitrate_bps d) 16000); [lia|]. destruct (Z.ltb_spec 64000 (bd_bitrate_bps d)); lia.
Qed.

(** A new encoder, at whatever bitrate it was asked for, is within the limits. *)
Lemma encoder_new_limits (initial_bitrate : Z) (e : RealOpusEncoder (N := N)) :
  encoder_new initial_bitrate = Ok e → 16000 ≤ bitrate e ≤ 64000.
Proof.
  unfold encoder_new. intros He. assert (oe_current_bitrate e = clamp 16000 64000 initial_bitrate) as Hb.
  { repeat case_match; by simplify_eq. }
  cbn. rewrite Hb. by apply clamp_range.
Qed.
End control.

(** The sender's counters start again each second, those of the rings do not: a drop of
    samples is reported, and warned about, again every second for the rest of the call. *)
Theorem drops_reported_again {E A D : Type} `{OpusEncode E} `{AudioProcessingModule A} `{Rnn D}
    (now1 now2 : Instant) (playback : AudioBuffer) m1 c1 j1 (s1 : Sender (E := E) (A := A) (D := D)) t1 m2 c2 j2 s2 t2 m3 c3 j3 s3 :
  control_tick now1 playback m1 c1 j1 s1 = Some (t1, m2, c2, j2, s2) →
  control_tick now2 playback m2 c2 j2 s2 = Some (t2, m3, c3, j3, s3) →
  pt_backlog_drops t2 = pt_backlog_drops t1 ∧ pt_capture_overruns t2 = pt_capture_overruns t1 ∧
  pt_frames_sent t2 = 0 ∧ pt_frames_dropped t2 = 0.
Proof.
  unfold control_tick. intros Ht1 Ht2. destruct (poll_stats m1) as [st1 ?], (poll_stats m2) as [st2 ?].
  apply bind_Some in Ht1 as ([d1 ?] & _ & ?), Ht2 as ([d2 ?] & _ & ?). by simplify_eq.
Qed.

(** ** The receive loop comes back to the track *)

Section receiving.
Context {C : Type} `{OpusDecode C}.
Abbreviation Receiver' := (Receiver (C := C)).

(** Frames the stream can still play. *)
Definition frames_left (jitter : option AdaptiveJitterBuffer) : nat :=
  match jitter with
  | Some b => match jb_first_seq b, jb_next_seq b with
              | Some first, Some next => Z.to_nat (32768 - position first next)
              | _, _ => O
              end
  | None => O
  end.
Definition receiver_ok (s : Receiver') : Prop :=
  (∀ b, rv_jitter s = Some b → jitter_ok b) ∧ ring_ok (rv_playback s).

Lemma conceal_ok (s : Receiver') :
  receiver_ok s → ∃ s', conceal s = Some s' ∧ receiver_ok s' ∧ rv_jitter s' = rv_jitter s ∧ rv_input s' = rv_input s.
Proof.
  intros [Hj Hr]. unfold conceal. destruct (decode_plc (rv_decoder s)) as [[pcm|?] c]; [|by eexists].
  destruct (write_all_ok pcm (rv_playback s) Hr) as (pb & Hw & Hpb & _). unfold write_mono. rewrite Hw. by eexists.
Qed.
Lemma decode_ok (data : string) (s : Receiver') :
  receiver_ok s → ∃ s', decode data s = Some s' ∧ receiver_ok s' ∧ rv_jitter s' = rv_jitter s ∧ rv_input s' = rv_input s.
Proof.
  intros Hs. unfold decode. destruct (decode_frame data (rv_decoder s)) as [[pcm|?] c].
  2: { by apply (conceal_ok (mkReceiver (rv_input s) (rv_jitter s) c (rv_playback s) (rv_meter s))). }
  destruct Hs as [Hj Hr]. destruct (write_all_ok pcm (rv_playback s) Hr) as (pb & Hw & Hpb & _).
  unfold write_mono. rewrite Hw. by eexists.
Qed.

(** A result other than [NotReady] uses up a frame. *)
Lemma pop_next_ok (now : Instant) (s : Receiver') :
  receiver_ok s → ∃ r s', pop_next now s = Some (r, s') ∧ receiver_ok s' ∧ rv_input s' = rv_input s ∧
    (r = NotReady ∨ (frames_left (rv_jitter s') < frames_left (rv_jitter s))%nat).
Proof.
  intros [Hj Hr]. unfold pop_next. destruct (rv_jitter s) as [b|] eqn:Hb.
  2: { do 2 eexists. split; [done|]. split_and!; [|done|by left]. split; [by rewrite Hb|done]. }
  specialize (Hj b eq_refl). destruct (pop_ok now b Hj) as (r & b' & -> & Hb' & Hpop & Hex). cbn.
  do 2 eexists. split; [done|]. split_and!; [|done|]. { split; [by intros ? [= <-]|done]. }
  assert (Hadvance : ∀ n, jb_first_seq b' = jb_first_seq b → jb_next_seq b = Some n →
    jb_next_seq b' = Some (wrapping_add_u16 n 1) → r ≠ NotReady → (frames_left (Some b') < frames_left (Some b))%nat).
  { intros n Hf Hn Hn' Hne. pose proof (jo_window b Hj) as Hw. unfold window_ok in Hw. unfold frames_left. cbn.
    rewrite Hf, Hn'. rewrite Hn in *. destruct (jb_first_seq b) as [f|] eqn:Hfb; [|done].
    destruct (jb_playout_origin b); [|done]. destruct Hw as (_ & ? & ? & Hp & _).
    assert (position f n ≠ 32768) by (intros Hx; apply Hne, Hex; by exists f, n).
    assert (position f (wrapping_add_u16 n 1) = position f n + 1) by wrap. lia. }
  destruct Hpop as [Hf Hpop]. destruct r; [right|right|by left]; destruct Hpop as (n & Hn & Hn' & _); by eapply Hadvance.
Qed.

Lemma drain_ok (nows : list Instant) (s : Receiver') :
  receiver_ok s → ∃ b s', drain nows s = Some (b, s') ∧ receiver_ok s' ∧ rv_input s' = rv_input s ∧
    ((frames_left (rv_jitter s) < length nows)%nat → b = true).
Proof.
  revert s. induction nows as [|now nows IH]; intros s Hs; cbn [drain length].
  { do 2 eexists. split; [done|]. split_and!; try done. lia. }
  destruct (pop_next_ok now s Hs) as (r & s1 & -> & Hs1 & Hi1 & Hleft). cbn.
  assert (Hgo : ∀ o, (∃ s2, o = Some s2 ∧ receiver_ok s2 ∧ rv_jitter s2 = rv_jitter s1 ∧ rv_input s2 = rv_input s1) →
    r ≠ NotReady → ∃ b s', (s2 ← o; drain nows s2) = Some (b, s') ∧ receiver_ok s' ∧ rv_input s' = rv_input s ∧
      ((frames_left (rv_jitter s) < S (length nows))%nat → b = true)).
  { intros o (s2 & -> & Hs2 & Hj2 & Hi2) Hr. destruct Hleft as [?|Hleft]; [done|]. cbn.
    destruct (IH s2 Hs2) as (b & s' & -> & Hs' & Hi' & Hb). exists b, s'. split_and!; [done..|congruence|].
    intros Hlt. apply Hb. rewrite Hj2. lia. }
  destruct r; [by apply Hgo; [apply decode_ok|]|by apply Hgo; [apply conceal_ok|]|]. by exists true, s1.
Qed.

(** Whatever a packet holds and whatever the clock says, handling it never panics, keeps
    the bounds of the jitter buffer and the ring, and comes back to the track after at
    most 32769 reads of the clock. *)
Theorem receive_terminates (t t1 t2 : Instant) (nows : list Instant) (seq : Z) (payload : string) (s : Receiver') :
  receiver_ok s → 0 ≤ seq < 65536 → 32768 < len nows →
  ∃ s', receive_packet t t1 t2 nows seq payload s = Some (true, s') ∧ receiver_ok s' ∧
    (String.length payload ≠ O → in_pending (rv_input s') = in_pending (rv_input s) ++ [(seq, t)]).
Proof.
  intros [Hj Hr] Hseq Hlen. unfold receive_packet. destruct (Nat.eqb_spec (String.length payload) 0); [by exists s|].
  assert (∃ jitter, match rv_jitter s with
    | Some jb => jb ← push t1 t2 seq payload jb; Some (Some jb) | None => Some None end = Some jitter ∧
    ∀ b, jitter = Some b → jitter_ok b) as (jitter & -> & Hj').
  { destruct (rv_jitter s) as [jb|]; [|by eexists].
    destruct (push_ok t1 t2 seq payload jb Hseq (Hj jb eq_refl)) as (jb' & -> & Hjb' & _). cbn.
    eexists; split; [done|]. by intros ? [= <-]. }
  cbn. set (s1 := mkReceiver _ _ _ _ _). destruct (drain_ok nows s1) as (b & s' & -> & Hs' & Hi & Hb); [by split|].
  rewrite Hb; [exists s'; by rewrite Hi|]. cbn. unfold frames_left. destruct jitter as [b1|]; [|cbn; lia].
  destruct (jb_first_seq b1) as [f|], (jb_next_seq b1) as [n'|]; try (cbn; lia).
  pose proof (Z.mod_pos_bound (n' - f) 65536). unfold position, wrapping_sub_u16. lia.
Qed.
End receiving.

(** ** What the reports measure *)

(** The field a receiver fills in for a delay, and what is read from it. *)
Definition dlsr_of (d : Duration) : Z := d * 65536 / 1000000000.

Lemma dlsr_close (d : Duration) : 0 ≤ d → d - 15260 < dlsr_to_duration (dlsr_of d) ≤ d.
Proof.
  intros Hd. unfold dlsr_to_duration, dlsr_of, from_secs, nanos_per_sec.
  rewrite Z.shiftr_div_pow2 by done. change 0xFFFF with (Z.ones 16). rewrite Z.land_ones by done.
  change (2 ^ 16) with 65536. Z.to_euclidean_division_equations. lia.
Qed.

(** Given the instant its report was sent, a measurement is the true round trip,
    [out] there and [back] here, with less than 16 microseconds to spare. *)
Theorem rtt_accurate (sent : Instant) (out held back : Duration) :
  0 ≤ out → 0 ≤ held → 0 ≤ back →
  ∃ rtt, rtcp_rtt sent (sent + out + held + back) (dlsr_to_duration (dlsr_of held)) = Some rtt ∧
    out + back ≤ rtt < out + back + 15260.
Proof.
  intros Ho Hh Hb. pose proof (dlsr_close held Hh) as Hd. unfold rtcp_rtt, duration_since, saturating_sub.
  set (d := dlsr_to_duration _) in *. clearbody d.
  rewrite (proj2 (Z.ltb_ge _ _)) by lia. eexists; split; [done|]. lia.
Qed.

(** Reports that travel over a path of constant delay [back]: report [(lsr, s)] leaves the
    receiver at [s]; [arrived lsr] is when that sender report had reached it. *)
Definition steady_reports (arrived : Z → Instant) (back : Duration) (reports : list (Z * Instant))
    (st : gmap Z Instant * NetworkMonitorInput) : gmap Z Instant * NetworkMonitorInput :=
  fold_left (λ st r, on_report (r.2 + back) (r.1, dlsr_of (r.2 - arrived r.1)) st) reports st.

Lemma steady_report (arrived : Z → Instant) (back : Duration) (lsr : Z) (s : Instant) instants input :
  20000 ≤ s - arrived lsr → 0 ≤ back →
  (∀ k t, instants !! k = Some t → arrived k + back + 20000 ≤ t) →
  let '(instants', input') := on_report (s + back) (lsr, dlsr_of (s - arrived lsr)) (instants, input) in
  input' = input ∧ ∀ k t, instants' !! k = Some t → arrived k + back + 20000 ≤ t.
Proof.
  intros Hs Hb Hi. unfold on_report. destruct (lsr =? 0); [done|].
  pose proof (dlsr_close (s - arrived lsr) ltac:(lia)) as Hd. set (d := dlsr_to_duration _) in *. clearbody d.
  assert (Hsr : arrived lsr + back + 20000 ≤ default (s + back) (instants !! lsr)).
  { destruct (instants !! lsr) as [t|] eqn:Ht; cbn; [by apply Hi|lia]. }
  set (t0 := default _ _) in *. clearbody t0. unfold compute_rtcp_rtt_ms, rtcp_rtt, duration_since, saturating_sub.
  rewrite (proj2 (Z.ltb_lt _ _)) by lia. cbn [fmap option_fmap option_map]. split; [done|].
  assert (Hins : ∀ k t, <[lsr := t0]> instants !! k = Some t → arrived k + back + 20000 ≤ t).
  { intros k t. rewrite lookup_insert_Some. intros [[<- <-]|[_ ?]]; [done|by apply Hi]. }
  destruct (16 <? _)%nat; [|done]. destruct (oldest _) as [[k0 t1]|]; [|done].
  intros k t [_ ?]%lookup_delete_Some. by apply Hins.
Qed.

(** The reader has no such instant: it takes the arrival of the first report instead.
    Over a path of constant delay, with receivers that hold a sender's report for at
    least 20 microseconds, no report ever gives a round trip, however many arrive. *)
Theorem steady_path_never_measured (arrived : Z → Instant) (back : Duration) (reports : list (Z * Instant))
    (input : NetworkMonitorInput) :
  0 ≤ back → Forall (λ r, 20000 ≤ r.2 - arrived r.1) reports →
  (steady_reports arrived back reports (∅, input)).2 = input.
Proof.
  intros Hb Hr. assert (Hg : ∀ instants, (∀ k t, instants !! k = Some t → arrived k + back + 20000 ≤ t) →
    (steady_reports arrived back reports (instants, input)).2 = input).
  { induction Hr as [|[lsr s] reports Hs _ IH]; intros instants Hi; [done|]. unfold steady_reports. cbn [fold_left fst snd].
    pose proof (steady_report arrived back lsr s instants input Hs Hb Hi) as Hst.
    destruct (on_report _ _ _) as [instants' input']. destruct Hst as [-> Hi']. by apply IH. }
  apply Hg. intros k t. by rewrite lookup_empty.
Qed.

Module LoopDemo.
(** A module that passes frames on, and libraries that accept everything. *)
Definition Passes : AudioProcessingModule bool :=
  {| apm_build ns := ns; process_reverse_stream l a := (Ok l, a); process_stream l a := (Ok l, a) |}.
Definition Codec : OpusEncode Z :=
  {| encode_frame l n := (Ok (String.string_of_list_ascii [Ascii.ascii_of_nat (length l / 10)]), n + 1);
     set_bitrate b n := (Ok tt, b); set_fec _ n := (Ok tt, n); set_dtx _ n := (Ok tt, n); bitrate n := n; set_packet_loss_percentage _ n := (Ok tt, n) |}.
Definition Silence : OpusDecode unit :=
  {| decode_frame d c := (Ok (replicate FRAME_SAMPLES zero), c); decode_plc c := (Ok (replicate FRAME_SAMPLES zero), c) |}.
#[local] Existing Instance Passes.
#[local] Existing Instance Codec.
#[local] Existing Instance Silence.
#[local] Existing Instance CaptureDemo.Clean.

Definition speaker : AudioBuffer := with_target 100 80 10.
Definition mic : AudioBuffer := default speaker (write_mono (replicate 4000 (F32.lit 1 4)) speaker).
Definition sender : Sender :=
  mkSender mic (denoise_new false) (pipeline_new (D := unit) (denoise_new false)) (Some 0) meter_new meter_new meter_new (mkCounters 0 0 0) [].
Definition calm : Round := mkRound None speaker speaker true.

(** 4000 samples are four frames and a part: two frames are dropped, two taken, and the
    track accepts one of them. *)
Example two_of_four :
  let '(n, s) := send_tick calm (mkRound (Some true) speaker speaker false) sender in
  (n, fill (sd_capture s), length (sd_written s), sd_counters s, sd_encoder s) = (2%nat, 160%nat, 1%nat, mkCounters 1 2 4, Some 2).
Proof. vm_compute. reflexivity. Qed.

Definition receiver : Receiver := mkReceiver input_new (Some (jitter_new 0)) tt speaker meter_new.
Lemma receiver_starts_ok : receiver_ok receiver.
Proof. split; [intros b [= <-]; apply jitter_new_ok|]. vm_compute. split; vm_compute; (lia || done). Qed.
(** A packet and then its successor but one: the first is played, the gap concealed. *)
Example gap_concealed :
  ('(_, s) ← receive_packet 0 0 0 [0] 7 "a" receiver;
   '(b, s) ← receive_packet 1 1 1 [from_secs 1; from_secs 1; from_secs 1; from_secs 1] 9 "b" s;
   Some (b, fill (rv_playback s), am_frame_count (rv_meter s), jb_next_seq <$> rv_jitter s)) =
  Some (true, 2880%nat, 2, Some (Some 10)).
Proof. vm_compute. reflexivity. Qed.
Lemma receive_terminates_witness :
  ∃ s', receive_packet 0 0 0 (repeat 0 (Z.to_nat 32769)) 7 "a" receiver = Some (true, s') ∧ receiver_ok s' ∧
    (String.length "a" ≠ O → in_pending (rv_input s') = [(7, 0)]).
Proof. apply (receive_terminates 0 0 0 _ 7 "a" receiver); [apply receiver_starts_ok|done|]. rewrite repeat_length. lia. Defined.

(** Half a second of hold and three reports over a path of 40 ms: nothing is measured. *)
Lemma steady_path_never_measured_witness :
  (steady_reports (λ _, 0) 40000000 [(1, 500000000); (1, 1500000000); (1, 2500000000)] (∅, input_new)).2 = input_new.
Proof. apply (steady_path_never_measured (λ _, 0) 40000000); [done|]. repeat constructor; cbn; lia. Defined.
(** With the instant the report was sent, 40 ms earlier, each would be. *)
Example known_instant_measured :
  compute_rtcp_rtt_ms (-40000000) 540000000 (dlsr_to_duration (dlsr_of 500000000)) = Some (F64.of_Z 80).
Proof. vm_compute. reflexivity. Qed.
End LoopDemo.
