(* ===== verification/SystemAudio.v ===== *)
(** * Sharing the system's audio on Linux
    (clients/wavis-gui/src-tauri/src/audio_capture/platform/linux.rs, audio_capture_state.rs)

    To share what the computer plays without the voices of the call, the desktop
    client puts a sink of its own in front of the sound card: it loads two modules
    into the sound server, makes its sink the default and moves every stream, and
    undoes all of it when the share ends.  Everything goes through the programs
    [pactl] and [pw-link]: [command] runs one, their text is parsed as the source
    parses it.  The server's native API, the clock and the thread of the capture are
    arguments. *)

From Stdlib Require Import Ascii String.
From stdpp Require Import gmap strings pretty.
From S2P Require Import Prelude SfuBridge Config SfuRelay Accounts BugReports Commands RoomSession LiveKit ShareStream.
Local Open Scope Z_scope.
Local Open Scope prog_scope.

(** ** Programs *)

(** [Command::new(program).args(args).output()]: [None] when it cannot be run; the reason
    is left out of the messages that quote it.  The output is text already. *)
Record Output : Type := mkOutput { out_success : bool; out_stdout : string }.
Class Programs (W : Type) : Type := command : string → list string → W → option Output * W.

(** [Ok(output) if output.status.success()]. *)
Definition succeeded (o : option Output) : option Output :=
  match o with Some x => if out_success x then Some x else None | None => None end.

Definition newline : ascii := "010"%char.
Definition tab : ascii := "009"%char.
Definition tabs : string := String tab EmptyString.

(** [str::lines]. *)
Definition lines (s : string) : list string :=
  let parts := split_on newline s in
  let parts := match rev parts with EmptyString :: rest => rev rest | _ => parts end in
  (λ l, default l (strip_suffix (String "013"%char EmptyString) l)) <$> parts.
(** [trim_matches] of a quotation mark, [trim_end_matches(suffix)]. *)
Definition unquote (s : string) : string := drop_leading "034"%char (trim_end_matches "034"%char s).
Fixpoint trim_suffixes (fuel : nat) (suf s : string) : string :=
  match fuel with
  | O => s
  | S n => match strip_suffix suf s with Some s' => trim_suffixes n suf s' | None => s end
  end.
Definition parse_u32 (s : string) : option Z := parse_unsigned u32_max s.

(** ** What is kept (audio_capture_state.rs) *)

Record MovedSinkInput : Type := mkMoved { mi_index : Z; mi_original_sink : option string }.
(** [pa_thread] is the source its loop reads. *)
Record AudioCaptureHandle : Type := mkHandle {
  ah_pa_thread : string;
  ah_source_id : string;
  ah_null_sink_module : option Z;
  ah_loopback_module : option Z;
  ah_moved_inputs : list MovedSinkInput;
  ah_original_default_sink : option string
}.
Record LoopbackExclusion : Type := mkExclusion {
  le_null_sink_module : option Z;
  le_loopback_module : option Z;
  le_moved_inputs : list MovedSinkInput;
  le_warning : option string;
  le_effective_capture_source : option string;
  le_original_default_sink : option string
}.
Definition handle_of (source_id : string) (x : LoopbackExclusion) : AudioCaptureHandle :=
  mkHandle (default source_id (le_effective_capture_source x)) source_id (le_null_sink_module x) (le_loopback_module x) (le_moved_inputs x) (le_original_default_sink x).

(** ** Reading the output of pactl *)

(** [SinkInputBlock], and the scan of [pactl list sink-inputs]. *)
Record SinkInputBlock : Type := mkBlock { sb_index : Z; sb_sink : option string; sb_is_wavis : bool }.
Record Scan : Type := mkScan { sn_blocks : list SinkInputBlock; sn_index : option Z; sn_sink : option string; sn_wavis : bool }.

Definition flush_block (s : Scan) : list SinkInputBlock :=
  match sn_index s with Some idx => sn_blocks s ++ [mkBlock idx (sn_sink s) (sn_wavis s)] | None => sn_blocks s end.
Definition names_wavis (rest : string) : bool := str_contains "wavis" (to_lowercase (unquote rest)).
Definition scan_line (my_pid : string) (s : Scan) (line : string) : Scan :=
  let trimmed := trim line in
  match strip_prefix "Sink Input #" trimmed with
  | Some rest => mkScan (flush_block s) (parse_u32 rest) None false
  | None =>
  match strip_prefix "Sink: " trimmed with
  | Some rest => mkScan (sn_blocks s) (sn_index s) (Some rest) (sn_wavis s)
  | None =>
  match strip_prefix "application.process.id = " trimmed with
  | Some rest => mkScan (sn_blocks s) (sn_index s) (sn_sink s) (sn_wavis s || bool_decide (unquote rest = my_pid))
  | None =>
  match strip_prefix "application.name = " trimmed with
  | Some rest => mkScan (sn_blocks s) (sn_index s) (sn_sink s) (sn_wavis s || names_wavis rest)
  | None =>
  match strip_prefix "node.name = " trimmed with
  | Some rest => mkScan (sn_blocks s) (sn_index s) (sn_sink s) (sn_wavis s || names_wavis rest)
  | None => s
  end end end end end.
Definition sink_inputs (my_pid stdout : string) : list SinkInputBlock :=
  flush_block (fold_left (scan_line my_pid) (lines stdout) (mkScan [] None None false)).

(** The default sink in [pactl info]. *)
Definition default_sink_line (stdout : string) : option string :=
  head (omap (strip_prefix "Default Sink: ") (lines stdout)).

(** The modules [cleanup_stale_wavis_modules] looks for. *)
Definition stale_module (line : string) : option string :=
  match split_on tab line with
  | idx :: name :: ((_ :: _) as rest) =>
      let args := String.concat tabs rest in
      let module_name := trim name in
      if str_contains "wavis_capture" args && bool_decide (module_name = "module-null-sink" ∨ module_name = "module-loopback")%string
      then Some (trim idx) else None
  | _ => None
  end.

(** [query_sink_format]: a line with one column ends the search. *)
Definition parse_spec (spec : string) : option (string * Z * Z) :=
  match split_whitespace spec with
  | format :: rest =>
      match rest with
      | ch :: rest =>
          channels ← parse_u32 (trim_suffixes (String.length ch) "ch" ch);
          match rest with
          | r :: _ => rate ← parse_u32 (trim_suffixes (String.length r) "Hz" r); Some (format, channels, rate)
          | [] => None
          end
      | [] => None
      end
  | [] => None
  end.
Fixpoint find_format (sink_name : string) (ls : list string) : option (string * Z * Z) :=
  match ls with
  | [] => None
  | l :: ls =>
      match split_on tab l with
      | _ :: name :: rest =>
          if bool_decide (name = sink_name)
          then match rest with _ :: spec :: _ => parse_spec spec | _ => None end
          else find_format sink_name ls
      | _ => None
      end
  end.

Section system_audio.
Context {W : Type} `{Programs W}.

Definition pactl {E} (args : list string) : M W E (option Output) := state (command "pactl" args).
Definition pw_link {E} (args : list string) : M W E (option Output) := state (command "pw-link" args).
Definition set_default_sink {E} (sink : string) : M W E (option Output) := pactl ["set-default-sink"; sink].
Definition move_sink_input {E} (index : Z) (sink : string) : M W E (option Output) :=
  pactl ["move-sink-input"; pretty index; sink].
Definition unload_module {E} (index : string) : M W E (option Output) := pactl ["unload-module"; index].
Definition when_some {E A} (o : option A) (f : A → M W E (option Output)) : M W E unit :=
  match o with Some a => do! f a in mret tt | None => mret tt end.

(** ** Setting up ([setup_loopback_exclusion_pactl]) *)

Definition capture_sink : string := "wavis_capture".
Definition hardware_sink (capture_source_id : string) : string :=
  default capture_source_id (strip_suffix ".monitor" capture_source_id).

(** [restore_partial_loopback_setup]. *)
Definition restore_partial_loopback_setup {E} (original_default_sink : option string) (null_sink_module : option Z) : M W E unit :=
  do! when_some original_default_sink set_default_sink in
  let hardware := default capture_sink original_default_sink in
  do! pw_link ["-d"; "wavis_capture:monitor_FL"; hardware +:+ ":playback_FL"] in
  do! pw_link ["-d"; "wavis_capture:monitor_FR"; hardware +:+ ":playback_FR"] in
  when_some null_sink_module (λ idx, unload_module (pretty idx)).

(** Step 1. *)
Definition original_default_sink {E} : M W E (option string) :=
  let! o := pactl ["info"] in
  mret (o ← succeeded o; trim <$> default_sink_line (out_stdout o)).
(** Step 1.5, [cleanup_stale_wavis_modules]. *)
Definition cleanup_stale_wavis_modules {E} : M W E unit :=
  let! o := pactl ["list"; "short"; "modules"] in
  match succeeded o with
  | None => mret tt
  | Some o => for_each (λ idx, do! unload_module idx in mret tt) (omap stale_module (lines (out_stdout o)))
  end.
(** Step 2. *)
Definition query_sink_format {E} (sink_name : string) : M W E (option (string * Z * Z)) :=
  let! o := pactl ["list"; "sinks"; "short"] in
  mret (o ← succeeded o; find_format sink_name (lines (out_stdout o))).
Definition load_args (format : option (string * Z * Z)) : list string :=
  ["load-module"; "module-null-sink"; "sink_name=wavis_capture"; "sink_properties=device.description=wavis_capture"] ++
  match format with
  | Some (f, channels, rate) => ["format=" +:+ f; "channels=" +:+ pretty channels; "rate=" +:+ pretty rate]
  | None => []
  end.
Definition module_index (o : Output) : option Z := parse_u32 (trim (out_stdout o)).
Definition load_capture_sink (hardware : string) : M W string (option Z) :=
  let! format := query_sink_format hardware in
  let! o := pactl (load_args format) in
  match o with
  | None => throw "failed to create capture sink"%string
  | Some o => if out_success o then mret (module_index o) else throw "failed to create capture sink: pactl returned error"%string
  end.

(** Step 4: the streams of others are moved, the call's own are pinned. *)
Fixpoint move_others {E} (blocks : list SinkInputBlock) : M W E (list MovedSinkInput * Z) :=
  match blocks with
  | [] => mret ([], 0)
  | b :: blocks =>
      let! o := move_sink_input (sb_index b) capture_sink in
      let! r := move_others blocks in
      mret (match succeeded o with Some _ => (mkMoved (sb_index b) (sb_sink b) :: r.1, r.2) | None => (r.1, r.2 + 1) end)
  end.
Definition pin_wavis {E} (hardware : string) (blocks : list SinkInputBlock) : M W E unit :=
  for_each (λ b, do! move_sink_input (sb_index b) hardware in mret tt) blocks.

(** Step 5.5. *)
Definition load_loopback {E} (hardware : string) : M W E (option Output) :=
  pactl ["load-module"; "module-loopback"; "source=wavis_capture.monitor"; "sink=" +:+ hardware; "latency_msec=20"].

(** Step 6: a sink given by its number counts as the hardware. *)
Definition on_hardware (hardware : string) (sink : option string) : bool :=
  match sink with Some s => bool_decide (s = hardware) || bool_decide (is_Some (parse_u32 s)) | None => false end.
Definition repin {E} (hardware : string) (b : SinkInputBlock) : M W E unit :=
  if negb (sb_is_wavis b) || on_hardware hardware (sb_sink b) then mret tt
  else do! move_sink_input (sb_index b) hardware in mret tt.
Definition repin_all {E} (my_pid hardware : string) : M W E unit :=
  let! o := pactl ["list"; "sink-inputs"] in
  match o with
  | Some o => for_each (repin hardware) (sink_inputs my_pid (out_stdout o))
  | None => mret tt
  end.

(** [wait_for_pa_source]: [elapsed] are the readings of the clock, the last one at the
    timeout or past it. *)
Fixpoint wait_for_pa_source {E} (source_id : string) (timeout : Duration) (elapsed : list Duration) : M W E bool :=
  let! o := pactl ["list"; "short"; "sources"] in
  let seen := match succeeded o with
              | Some o => existsb (λ l, bool_decide (split_on tab l !! 1%nat = Some source_id)) (lines (out_stdout o))
              | None => false
              end in
  if seen then mret true
  else match elapsed with
       | [] => mret false
       | t :: elapsed => if timeout <=? t then mret false else wait_for_pa_source source_id timeout elapsed
       end.

Definition failed_moves (failures : Z) (total : Z) : option string :=
  if 0 <? failures
  then Some ("echo possible: " +:+ pretty failures +:+ " of " +:+ pretty total +:+ " non-Wavis streams could not be redirected")
  else None.

(** [setup_loopback_exclusion_pactl_inner], from the created sink on, .. *)
Definition route_streams (my_pid : string) (elapsed : list Duration) (hardware : string) (original : option string)
    (null_sink_module : option Z) : M W string LoopbackExclusion :=
  do! set_default_sink capture_sink in
  let! o := pactl ["list"; "sink-inputs"] in
  match o with
  | None => throw "failed to list sink-inputs"%string
  | Some o =>
      if negb (out_success o) then
        do! restore_partial_loopback_setup original null_sink_module in
        throw "failed to list sink-inputs: pactl returned error"%string
      else
        let blocks := sink_inputs my_pid (out_stdout o) in
        let non_wavis := filter (λ b, sb_is_wavis b = false) blocks in
        let wavis_inputs := filter (λ b, sb_is_wavis b = true) blocks in
        let! moved := move_others non_wavis in
        do! pin_wavis hardware wavis_inputs in
        do! pactl ["set-sink-mute"; capture_sink; "0"] in
        let! o := load_loopback hardware in
        match succeeded o with
        | None =>
            do! restore_partial_loopback_setup original null_sink_module in
            throw ("failed to create audio loopback " +:+ dash +:+ " keeping current system audio routing")
        | Some o =>
            do! repin_all my_pid hardware in
            do! wait_for_pa_source "wavis_capture.monitor" 500000000 elapsed in
            mret (mkExclusion null_sink_module (module_index o) moved.1 (failed_moves moved.2 (len non_wavis))
                    (Some "wavis_capture.monitor"%string) original)
        end
  end.
(** .. and as a whole. *)
Definition setup_loopback_exclusion_pactl_inner (my_pid : string) (elapsed : list Duration) (capture_source_id : string) :
    M W string LoopbackExclusion :=
  let! original := original_default_sink in
  do! cleanup_stale_wavis_modules in
  let hardware := hardware_sink capture_source_id in
  let! null_sink_module := load_capture_sink hardware in
  route_streams my_pid elapsed hardware original null_sink_module.

(** [setup_loopback_exclusion_pactl]. *)
Definition setup_loopback_exclusion_pactl (my_pid : string) (elapsed : list Duration) (capture_source_id : string) :
    W → LoopbackExclusion * W := λ w,
  match setup_loopback_exclusion_pactl_inner my_pid elapsed capture_source_id w with
  | (Ok x, w) => (x, w)
  | (Err warning, w) => (mkExclusion None None [] (Some warning) None None, w)
  end.

(** [check_loopback_exclusion]. *)
Definition check_loopback_exclusion (x : LoopbackExclusion) : option string :=
  (λ w, "system audio sharing blocked to prevent echo: " +:+ w) <$> le_warning x.

(** ** Tearing down ([teardown_loopback_exclusion]) *)

Definition needs_loopback_teardown (h : AudioCaptureHandle) : bool :=
  negb (bool_decide (ah_moved_inputs h = [])) || bool_decide (is_Some (ah_null_sink_module h)) ||
  bool_decide (is_Some (ah_loopback_module h)) || bool_decide (is_Some (ah_original_default_sink h)).

(** Whether a stream is on the capture sink, by name or by number. *)
Definition on_capture {E} (sink : option string) : M W E bool :=
  match sink with
  | None => mret false
  | Some s =>
      if bool_decide (s = capture_sink) then mret true
      else
        let! o := pactl ["list"; "short"; "sinks"] in
        mret (match o with
              | Some o => existsb (λ l, str_contains capture_sink l && String.prefix (s +:+ tabs) l) (lines (out_stdout o))
              | None => false
              end)
  end.
Definition move_if_on_capture {E} (hardware : string) (b : SinkInputBlock) : M W E unit :=
  let! on := on_capture (sb_sink b) in
  if on then do! move_sink_input (sb_index b) hardware in mret tt else mret tt.

Definition teardown_loopback_exclusion_pactl {E} (h : AudioCaptureHandle) : M W E unit :=
  do! when_some (ah_original_default_sink h) set_default_sink in
  let hardware := default (hardware_sink (ah_source_id h)) (ah_original_default_sink h) in
  let! o := pactl ["list"; "sink-inputs"] in
  do! (match o with
       | Some o => for_each (move_if_on_capture hardware) (sink_inputs EmptyString (out_stdout o))
       | None => mret tt
       end) in
  do! when_some (ah_loopback_module h) (λ idx, unload_module (pretty idx)) in
  when_some (ah_null_sink_module h) (λ idx, unload_module (pretty idx)).
Definition teardown_loopback_exclusion (h : AudioCaptureHandle) : W → W := λ w,
  if needs_loopback_teardown h then (teardown_loopback_exclusion_pactl (E := string) h w).2 else w.

(** [rollback_loopback_exclusion]: how many streams could not be put back. *)
Fixpoint restore_inputs {E} (moved : list MovedSinkInput) : M W E Z :=
  match moved with
  | [] => mret 0
  | mi :: moved =>
      match mi_original_sink mi with
      | None => restore_inputs moved
      | Some sink =>
          let! o := move_sink_input (mi_index mi) sink in
          let! failed := restore_inputs moved in
          mret (match succeeded o with Some _ => failed | None => failed + 1 end)
      end
  end.
Definition rollback_loopback_exclusion (x : LoopbackExclusion) : M W string unit :=
  let! failed := restore_inputs (le_moved_inputs x) in
  do! when_some (le_null_sink_module x) (λ idx, unload_module (pretty idx)) in
  if failed =? 0 then mret tt
  else throw ("failed to restore " +:+ pretty failed +:+ " of " +:+ pretty (len (le_moved_inputs x)) +:+ " sink-inputs").

(** ** The commands of the page *)

(** [validate_pa_source]: [native] is the answer of the server's own interface, [None]
    when it does not come in time. *)
Definition validate_pa_source_pactl (source_id : string) : M W string unit :=
  let! o := pactl ["list"; "sources"; "short"] in
  match o with
  | None => throw ("audio source not found: " +:+ source_id +:+ ": pactl failed")
  | Some o =>
      if negb (out_success o) then throw ("audio source not found: " +:+ source_id +:+ ": pactl returned error")
      else if existsb (str_contains source_id) (lines (out_stdout o)) then mret tt
      else throw ("audio source not found: " +:+ source_id)
  end.
Definition validate_pa_source (native : option (Result unit string)) (source_id : string) : M W string unit :=
  match native with Some r => lift_result r | None => validate_pa_source_pactl source_id end.

(** [get_default_audio_monitor], likewise. *)
Definition get_default_audio_monitor_pactl : M W string string :=
  let! o := pactl ["info"] in
  match o with
  | None => throw "could not resolve default audio monitor: pactl failed"%string
  | Some o =>
      if negb (out_success o) then throw "could not resolve default audio monitor: pactl returned error"%string
      else match default_sink_line (out_stdout o) with
           | Some sink => mret (trim sink +:+ ".monitor")
           | None => throw "could not resolve default audio monitor: no default sink in pactl output"%string
           end
  end.
Definition get_default_audio_monitor (native : option (Result string string)) : M W string string :=
  match native with Some r => lift_result r | None => get_default_audio_monitor_pactl end.

(** [ensure_pactl_available]. *)
Definition ensure_pactl_available {E} : M W E bool :=
  let! o := pactl ["--version"] in mret (bool_decide (is_Some (succeeded o))).

Inductive ShareError : Type :=
| PactlMissing
| ShareInProgress
| EmptySource
| SourceNotFound (reason : string)
| NotConnectedToRoom
| TrackNotPublished (e : RoomError)
| EchoBlocked (reason : string)
| ThreadNotSpawned (reason : string).

(** The answers a start meets. *)
Record StartAnswers : Type := mkStartAnswers {
  sa_native : option (Result unit string);
  sa_publish : Result unit string;
  sa_my_pid : string;
  sa_elapsed : list Duration;
  sa_spawn : Result unit string;
  sa_taken : bool
}.

Record Desktop : Type := mkDesktop {
  dk_media : Media;
  dk_active : option AudioCaptureHandle;
  dk_world : W;
  dk_fallbacks : list ShareError
}.
Definition emit_fallback (e : ShareError) (d : Desktop) : Desktop :=
  mkDesktop (dk_media d) (dk_active d) (dk_world d) (dk_fallbacks d ++ [e]).
Definition set_dk_world (w : W) (d : Desktop) : Desktop := mkDesktop (dk_media d) (dk_active d) w (dk_fallbacks d).
Definition set_dk_media (m : Media) (d : Desktop) : Desktop := mkDesktop m (dk_active d) (dk_world d) (dk_fallbacks d).

(** [cleanup_publish_on_error]. *)
Definition cleanup_publish_on_error (taken : bool) (d : Desktop) : Desktop :=
  set_dk_media (with_lk (unpublish_screen_audio taken) (dk_media d)) d.

(** What a start that has published the track does when it cannot go on. *)
Definition abandon_share (taken : bool) (h : AudioCaptureHandle) (e : ShareError) (d : Desktop) : Result unit ShareError * Desktop :=
  let d := set_dk_world (teardown_loopback_exclusion h (dk_world d)) d in
  (Err e, emit_fallback e (cleanup_publish_on_error taken d)).

(** The track is there: the streams are routed and the thread is started. *)
Definition begin_capture (a : StartAnswers) (source_id : string) (d : Desktop) : Result unit ShareError * Desktop :=
  let '(x, w) := setup_loopback_exclusion_pactl (sa_my_pid a) (sa_elapsed a) source_id (dk_world d) in
  let d := set_dk_world w d in
  let h := handle_of source_id x in
  match check_loopback_exclusion x with
  | Some error => abandon_share (sa_taken a) h (EchoBlocked error) d
  | None =>
      match sa_spawn a with
      | Err e => abandon_share (sa_taken a) h (ThreadNotSpawned e) d
      | Ok _ => (Ok tt, mkDesktop (dk_media d) (Some h) (dk_world d) (dk_fallbacks d))
      end
  end.

(** [conn.publish_screen_audio()] on the connection, if there is one. *)
Definition publish_share (answer : Result unit string) (d : Desktop) : Result unit ShareError * Desktop :=
  match md_lk (dk_media d) with
  | None => (Err NotConnectedToRoom, d)
  | Some c =>
      let '(r, s) := publish_screen_audio answer (mkLk c (md_sdk (dk_media d))) in
      (match r with Ok _ => Ok tt | Err e => Err (TrackNotPublished e) end,
       set_dk_media (mkMedia (Some (lk_conn s)) (lk_sdk s)) d)
  end.

(** [audio_share_start]. *)
Definition audio_share_start (a : StartAnswers) (source_id : string) (d : Desktop) : Result unit ShareError * Desktop :=
  let '(available, w) := ensure_pactl_available (E := string) (dk_world d) in
  let d := set_dk_world w d in
  match available with
  | Err _ | Ok false => (Err PactlMissing, emit_fallback PactlMissing d)
  | Ok true =>
      match dk_active d with
      | Some _ => (Err ShareInProgress, d)
      | None =>
          if bool_decide (source_id = EmptyString) then (Err EmptySource, emit_fallback EmptySource d)
          else
            let '(valid, w) := validate_pa_source (sa_native a) source_id (dk_world d) in
            let d := set_dk_world w d in
            match valid with
            | Err e => (Err (SourceNotFound e), emit_fallback (SourceNotFound e) d)
            | Ok _ =>
                match publish_share (sa_publish a) d with
                | (Err e, d) => (Err e, d)
                | (Ok _, d) => begin_capture a source_id d
                end
            end
      end
  end.

(** [audio_share_stop]. *)
Definition audio_share_stop (taken : bool) (d : Desktop) : Desktop :=
  match dk_active d with
  | None => d
  | Some h =>
      let w := teardown_loopback_exclusion h (dk_world d) in
      mkDesktop (with_lk (unpublish_screen_audio taken) (dk_media d)) None w (dk_fallbacks d)
  end.
End system_audio.
Arguments Desktop : clear implicits.

(** ** The thread of the capture ([audio_capture_loop]) *)

Definition PA_OPEN_ATTEMPTS : nat := 3.
Definition MAX_CAPTURE_LATENCY_US : Z := 250000.

(** [Simple::new], tried again twice. *)
Fixpoint open_source (attempts : nat) (answers : list (Result unit string)) (last_err : string) : Result unit string :=
  match attempts, answers with
  | S n, Ok _ :: _ => Ok tt
  | S n, Err e :: answers => open_source n answers e
  | _, _ => Err last_err
  end.

(** A round: the flag, the latency, the read, the track. *)
Record CaptureRound : Type := mkCaptureRound {
  cr_stop : bool;
  cr_latency : option Z;
  cr_read : Result unit string;
  cr_feed : Result unit string
}.
Inductive LoopEnd : Type := LoopStopped | SourceLost (message : string) | TrackGone.

(** How the loop ends, after how many flushes and frames; [None] while it goes on. *)
Fixpoint capture_rounds (taken : bool) (rounds : list CaptureRound) (s : Lk) : option LoopEnd * nat * nat * Lk :=
  match rounds with
  | [] => (None, O, O, s)
  | r :: rounds =>
      if cr_stop r then (Some LoopStopped, O, O, s)
      else
        let flushed := match cr_latency r with Some l => if MAX_CAPTURE_LATENCY_US <? l then 1%nat else O | None => O end in
        match cr_read r with
        | Err _ => (Some (SourceLost "Audio source disconnected"), flushed, O, (unpublish_screen_audio taken s).2)
        | Ok _ =>
            match feed_screen_audio (cr_feed r) s with
            | (Err _, s) => (Some TrackGone, flushed, O, s)
            | (Ok _, s) =>
                let '(e, f, n, s) := capture_rounds taken rounds s in (e, (flushed + f)%nat, S n, s)
            end
        end
  end.
Definition audio_capture_loop (taken : bool) (opens : list (Result unit string)) (rounds : list CaptureRound) (s : Lk) :
    option LoopEnd * nat * nat * Lk :=
  match open_source PA_OPEN_ATTEMPTS opens "unknown" with
  | Err e => (Some (SourceLost ("Audio capture failed: " +:+ e)), O, O, (unpublish_screen_audio taken s).2)
  | Ok _ => capture_rounds taken rounds s
  end.

(** ** What the client has asked of the sound server *)

(** A command with its output, and the world that remembers all of them. *)
Definition Entry : Type := string * list string * option Output.
#[export] Instance logged {W} `{Programs W} : Programs (W * list Entry) := λ p args s,
  let '(o, w) := command p args s.1 in (o, (w, s.2 ++ [(p, args, o)])).

(** The modules loaded and not unloaded since, under the numbers they are unloaded by;
    the default sink the client has set since it last asked for the server's, and the
    answer it was given. *)
Record Ledger : Type := mkLedger { lg_modules : gset string; lg_default : option string; lg_original : option string }.
Definition ledger_new : Ledger := mkLedger ∅ None None.
Definition of_option (o : option Z) : gset string := match o with Some i => {[pretty i]} | None => ∅ end.

Definition post (g : Ledger) (e : Entry) : Ledger :=
  let '(p, args, o) := e in
  if bool_decide (p = "pactl"%string) then
    match args with
    | ["info"%string] => mkLedger (lg_modules g) None (o ← succeeded o; trim <$> default_sink_line (out_stdout o))
    | ["set-default-sink"%string; s] => mkLedger (lg_modules g) (Some s) (lg_original g)
    | ["unload-module"%string; s] => mkLedger (lg_modules g ∖ {[s]}) (lg_default g) (lg_original g)
    | "load-module"%string :: _ => mkLedger (lg_modules g ∪ of_option (succeeded o ≫= module_index)) (lg_default g) (lg_original g)
    | _ => g
    end
  else g.
Definition ledger (l : list Entry) : Ledger := fold_left post l ledger_new.
Lemma ledger_snoc (l : list Entry) (e : Entry) : ledger (l ++ [e]) = post (ledger l) e.
Proof. unfold ledger. by rewrite fold_left_app. Qed.

(** Nothing of a share is left: no module, and the default sink is the one it found. *)
Definition traceless (g : Ledger) : Prop :=
  lg_modules g = ∅ ∧ (lg_original g = None ∨ lg_default g = None ∨ lg_default g = lg_original g).
(** What a handle undoes covers what is there. *)
Definition covered (h : AudioCaptureHandle) (g : Ledger) : Prop :=
  lg_modules g ⊆ of_option (ah_null_sink_module h) ∪ of_option (ah_loopback_module h) ∧
  lg_original g = ah_original_default_sink h.

Section ledger.
Context {W : Type} `{Programs W}.
Abbreviation LW := (W * list Entry)%type.

(** From a ledger with [P], the computation ends with a result and a ledger with [Q]. *)
Definition posts {E A} (P : Ledger → Prop) (m : M LW E A) (Q : Result A E → Ledger → Prop) : Prop :=
  ∀ s, P (ledger s.2) → let '(r, s') := m s in Q r (ledger s'.2).

Lemma posts_bind {E A B} P (m : M LW E A) (k : A → M LW E B) Q R :
  posts P m Q → (∀ a, posts (Q (Ok a)) (k a) R) → (∀ e g, Q (Err e) g → R (Err e) g) → posts P (mbind_ m k) R.
Proof.
  intros Hm Hk He s Hs. unfold mbind_. specialize (Hm s Hs). destruct (m s) as [[a|e] s']; [|by apply He]. by apply Hk.
Qed.
Lemma posts_ret {E A} (P : Ledger → Prop) (a : A) (Q : Result A E → Ledger → Prop) :
  (∀ g, P g → Q (Ok a) g) → posts P (mret a) Q.
Proof. intros HQ s Hs. by apply HQ. Qed.
Lemma posts_pactl {E} (P : Ledger → Prop) (args : list string) (Q : Result (option Output) E → Ledger → Prop) :
  (∀ o g, P g → Q (Ok o) (post g ("pactl"%string, args, o))) → posts P (pactl args) Q.
Proof.
  intros HQ s Hs. unfold pactl, state, command, logged. destruct (command "pactl" args s.1) as [o w]. cbn [fst snd].
  rewrite ledger_snoc. by apply HQ.
Qed.

(** A computation that leaves the ledger alone and does not fail. *)
Definition quiet {E A} (m : M LW E A) : Prop := ∀ g, posts (eq g) m (λ r g', g' = g ∧ ∃ a, r = Ok a).
Definition quiet_args (args : list string) : Prop := ∀ g o, post g ("pactl"%string, args, o) = g.

Lemma quiet_pactl {E} (args : list string) : quiet_args args → quiet (E := E) (pactl args).
Proof. intros Hq g. apply posts_pactl. intros o g' <-. rewrite Hq. eauto. Qed.
Lemma quiet_pw_link {E} (args : list string) : quiet (E := E) (pw_link args).
Proof.
  intros g s ->. unfold pw_link, state, command, logged. destruct (command "pw-link" args s.1) as [o w]. cbn [fst snd].
  rewrite ledger_snoc. cbn. eauto.
Qed.
Lemma quiet_ret {E A} (a : A) : quiet (E := E) (mret a).
Proof. intros g. apply posts_ret. intros ? <-. eauto. Qed.
Lemma quiet_bind {E A B} (m : M LW E A) (k : A → M LW E B) : quiet m → (∀ a, quiet (k a)) → quiet (mbind_ m k).
Proof.
  intros Hm Hk g. eapply posts_bind; [apply Hm| |]; cbn.
  - intros a s [Hs _]. by apply (Hk a g).
  - intros e g' [_ [a ?]]. done.
Qed.
Lemma quiet_each {E A} (f : A → M LW E unit) (l : list A) : (∀ a, quiet (f a)) → quiet (for_each f l).
Proof. intros Hf. induction l as [|a l IH]; cbn; [apply quiet_ret|]. by apply quiet_bind. Qed.
(** A quiet step before another changes nothing. *)
Lemma posts_quiet {E A B} P (m : M LW E A) (k : A → M LW E B) Q :
  quiet m → (∀ a, posts P (k a) Q) → posts P (mbind_ m k) Q.
Proof.
  intros Hm Hk s Hs. pose proof (Hm (ledger s.2) s eq_refl) as Hq. unfold mbind_. destruct (m s) as [r s'].
  destruct Hq as [Hq [a ->]]. apply Hk. by rewrite Hq.
Qed.
Lemma posts_quiet_last {E A} P (m : M LW E A) Q : quiet m → (∀ a g, P g → Q (Ok a) g) → posts P m Q.
Proof.
  intros Hm HQ s Hs. pose proof (Hm (ledger s.2) s eq_refl) as Hq. destruct (m s) as [r s'].
  destruct Hq as [-> [a ->]]. by apply HQ.
Qed.

(** ** Every step on the ledger *)

Definition stands (m : gset string) (d o : option string) (g : Ledger) : Prop :=
  lg_modules g ⊆ m ∧ lg_default g = d ∧ lg_original g = o.
Definition stands_ok {E A} (m : gset string) (d o : option string) (r : Result A E) (g : Ledger) : Prop :=
  (∃ a, r = Ok a) ∧ stands m d o g.

Lemma quiet_list : quiet_args ["list"; "sink-inputs"] ∧ quiet_args ["list"; "short"; "modules"] ∧
  quiet_args ["list"; "sinks"; "short"] ∧ quiet_args ["list"; "short"; "sources"] ∧ quiet_args ["list"; "sources"; "short"] ∧
  quiet_args ["list"; "short"; "sinks"] ∧ quiet_args ["--version"] ∧ quiet_args ["set-sink-mute"; capture_sink; "0"].
Proof. by repeat split. Qed.
Lemma quiet_move (i sink : string) : quiet_args ["move-sink-input"; i; sink].
Proof. done. Qed.
#[local] Hint Resolve quiet_pactl quiet_pw_link quiet_ret quiet_bind quiet_each quiet_move : quiet.
#[local] Hint Extern 1 (quiet (pactl _)) => apply quiet_pactl; apply quiet_list : quiet.
#[local] Hint Extern 2 (quiet (match ?x with _ => _ end)) => destruct x : quiet.
#[local] Hint Extern 2 (quiet (if ?x then _ else _)) => destruct x : quiet.

Lemma quiet_move_others {E} (bs : list SinkInputBlock) : quiet (E := E) (move_others bs).
Proof. induction bs as [|b bs IH]; cbn; [apply quiet_ret|]. unfold move_sink_input. auto 8 with quiet. Qed.
Lemma quiet_wait {E} src t elapsed : quiet (E := E) (wait_for_pa_source src t elapsed).
Proof.
  induction elapsed as [|e elapsed IH]; cbn; (apply quiet_bind; [apply quiet_pactl, quiet_list|]); intros o;
    (match goal with |- quiet (if ?b then _ else _) => destruct b end; [apply quiet_ret|]); [apply quiet_ret|].
  destruct (t <=? e); [apply quiet_ret|apply IH].
Qed.
Lemma quiet_pin {E} hw bs : quiet (E := E) (pin_wavis hw bs).
Proof. unfold pin_wavis, move_sink_input. auto 8 with quiet. Qed.
Lemma quiet_repin {E} pid hw : quiet (E := E) (repin_all pid hw).
Proof.
  unfold repin_all, repin, move_sink_input. apply quiet_bind; [apply quiet_pactl, quiet_list|]. intros [o|]; [|apply quiet_ret].
  apply quiet_each. intros b. destruct (_ || _); auto 8 with quiet.
Qed.
Lemma quiet_move_if {E} hw b : quiet (E := E) (move_if_on_capture hw b).
Proof.
  unfold move_if_on_capture, on_capture, move_sink_input. apply quiet_bind.
  - destruct (sb_sink b) as [s|]; [|apply quiet_ret]. destruct (bool_decide _); [apply quiet_ret|].
    apply quiet_bind; [apply quiet_pactl, quiet_list|]. auto with quiet.
  - intros []; auto 8 with quiet.
Qed.

Lemma unload_posts {E} (m : gset string) (d o : option string) (i : string) :
  posts (stands m d o) (unload_module (E := E) i) (stands_ok (m ∖ {[i]}) d o).
Proof. apply posts_pactl. intros out g (Hm & Hd & Ho). split; [eauto|]. split; cbn; [set_solver|done]. Qed.
Lemma unload_some_posts {E} (m : gset string) (d o : option string) (i : option Z) :
  posts (stands m d o) (when_some (E := E) i (λ idx, unload_module (pretty idx))) (stands_ok (m ∖ of_option i) d o).
Proof.
  destruct i as [i|]; cbn.
  - eapply posts_bind; [apply unload_posts|..]; cbn.
    + intros a. apply posts_ret. intros g [_ Hg]. split; [eauto|done].
    + by intros e g [[? ?] _].
  - apply posts_ret. intros g Hg. split; [eauto|]. by rewrite difference_empty_L.
Qed.
Lemma default_some_posts {E} (m : gset string) (d o s : option string) :
  posts (stands m d o) (when_some (E := E) s set_default_sink) (stands_ok m (match s with Some x => Some x | None => d end) o).
Proof.
  destruct s as [s|]; cbn; [|apply posts_ret; intros g Hg; split; [eauto|done]].
  eapply (posts_bind _ _ _ (stands_ok m (Some s) o)); cbn.
  - apply posts_pactl. intros out g (Hm & Hd & Ho). split; [eauto|done].
  - intros a. apply posts_ret. intros g [_ Hg]. split; [eauto|done].
  - by intros e g [[? ?] _].
Qed.
Lemma cleanup_posts {E} (d o : option string) :
  posts (stands ∅ d o) (cleanup_stale_wavis_modules (E := E)) (stands_ok ∅ d o).
Proof.
  unfold cleanup_stale_wavis_modules. apply posts_quiet; [apply quiet_pactl, quiet_list|]. intros out.
  destruct (succeeded out) as [x|]; [|apply posts_ret; intros g Hg; split; [eauto|done]].
  induction (omap _ _) as [|i l IH]; cbn; [apply posts_ret; intros g Hg; split; [eauto|done]|].
  eapply posts_bind; [eapply posts_bind; [apply unload_posts|..]| |]; cbn.
  - intros a. apply (posts_ret _ _ (stands_ok ∅ d o)). intros g [_ [Hm Hg]]. split; [eauto|]. split; [set_solver|done].
  - by intros e g [[? ?] _].
  - intros a s [_ Hs]. by apply IH.
  - by intros e g [[? ?] _].
Qed.
Lemma load_posts (hw : string) (d o : option string) :
  posts (stands ∅ d o) (load_capture_sink hw)
    (λ r g, match r with Ok i => stands (of_option i) d o g | Err _ => stands ∅ d o g end).
Proof.
  unfold load_capture_sink, query_sink_format.
  apply posts_quiet; [apply quiet_bind; [apply quiet_pactl, quiet_list|auto with quiet]|]. intros fmt.
  eapply posts_bind with (Q := λ r g, ∃ out, r = Ok out ∧ stands (of_option (succeeded out ≫= module_index)) d o g).
  - apply posts_pactl. intros out g (Hm & Hd & Ho). exists out. split; [done|].
    destruct fmt as [[[f c] rt]|]; cbn; (split; [set_solver|done]).
  - intros [x|] s (out & [= <-] & Hs); cbn in *; [destruct (out_success x); cbn in *; done|done].
  - by intros e g (? & ? & _).
Qed.
Lemma restore_posts {E} (i : option Z) (d o s : option string) :
  posts (stands (of_option i) d o) (restore_partial_loopback_setup (E := E) s i)
    (stands_ok ∅ (match s with Some x => Some x | None => d end) o).
Proof.
  unfold restore_partial_loopback_setup. eapply posts_bind; [apply default_some_posts|..]; cbn.
  - intros a. do 2 (apply posts_quiet; [apply quiet_pw_link|intros ?]). intros st [_ Hs].
    pose proof (unload_some_posts (E := E) (of_option i) (match s with Some x => Some x | None => d end) o i st Hs) as Hu.
    by rewrite difference_diag_L in Hu.
  - by intros e g [[? ?] _].
Qed.
Lemma original_posts {E} (m : gset string) (d o : option string) :
  posts (stands m d o) (original_default_sink (E := E)) (λ r g, ∃ s, r = Ok s ∧ stands m None s g).
Proof.
  unfold original_default_sink.
  eapply posts_bind with (Q := λ r g, ∃ out, r = Ok out ∧ stands m None (x ← succeeded out; trim <$> default_sink_line (out_stdout x)) g).
  - apply posts_pactl. intros out g (Hm & _ & _). exists out. split; [done|]. by split.
  - intros out s (? & [= <-] & Hs). cbn. by eexists.
  - by intros e g (? & ? & _).
Qed.

(** A handle undoes everything it covers. *)
Lemma teardown_posts (h : AudioCaptureHandle) (s : LW) :
  covered h (ledger s.2) → traceless (ledger (teardown_loopback_exclusion h s).2).
Proof.
  intros [Hm Ho]. unfold teardown_loopback_exclusion. destruct (needs_loopback_teardown h) eqn:Hneed.
  - assert (Hpost : posts (stands (of_option (ah_null_sink_module h) ∪ of_option (ah_loopback_module h)) (lg_default (ledger s.2)) (ah_original_default_sink h))
      (teardown_loopback_exclusion_pactl (E := string) h) (λ _, traceless)).
    { unfold teardown_loopback_exclusion_pactl. eapply posts_bind; [apply default_some_posts|..]; cbn; [|by intros e g [[? ?] _]].
      intros a1. apply posts_quiet; [apply quiet_pactl, quiet_list|]. intros out.
      apply posts_quiet; [destruct out; [apply quiet_each; intros b; apply quiet_move_if|apply quiet_ret]|]. intros a2 st [_ Hs].
      revert st Hs. eapply posts_bind; [apply unload_some_posts|..]; cbn; [|by intros e g [[? ?] _]].
      intros a3 st [_ Hs]. pose proof (unload_some_posts (E := string) _ _ _ (ah_null_sink_module h) st Hs) as Hu.
      destruct (when_some _ _ st) as [r st']. destruct Hu as [_ (Hm' & Hd' & Ho')]. split; [set_solver|].
      rewrite Hd', Ho'. destruct (ah_original_default_sink h); auto. }
    specialize (Hpost s). destruct (teardown_loopback_exclusion_pactl h s) as [r s']. by apply Hpost.
  - unfold needs_loopback_teardown in Hneed. apply orb_false_iff in Hneed as [[[_ Hn]%orb_false_iff Hl]%orb_false_iff Ho'].
    apply bool_decide_eq_false in Hn, Hl, Ho'. apply eq_None_not_Some in Hn, Hl, Ho'. rewrite Hn, Hl in Hm. rewrite Ho' in Ho.
    split; [set_solver|by left].
Qed.

(** [pactl] is installed: every command can be run. *)
Hypothesis starts : ∀ p args w, is_Some (command p args (w : W)).1.

Lemma list_posts {E} (P : Ledger → Prop) :
  posts P (pactl (E := E) ["list"; "sink-inputs"]) (λ r g, P g ∧ ∃ x, r = Ok (Some x)).
Proof.
  intros s Hs. pose proof (quiet_pactl (E := E) _ (proj1 quiet_list) (ledger s.2) s eq_refl) as Hq.
  destruct (starts "pactl" ["list"; "sink-inputs"] s.1) as [x Hx]. unfold pactl, state, command, logged in Hq |- *.
  destruct (command "pactl" ["list"; "sink-inputs"] s.1) as [out w]. cbn [fst snd] in *. subst out.
  destruct Hq as [-> _]. eauto.
Qed.

(** What a set-up leaves: something its handle covers, or nothing. *)
Definition routed (src : string) (r : Result LoopbackExclusion string) (g : Ledger) : Prop :=
  match r with Ok x => covered (handle_of src x) g | Err _ => traceless g end.

Lemma route_posts (pid hw src : string) elapsed (o : option string) (i : option Z) :
  posts (stands (of_option i) None o) (route_streams pid elapsed hw o i)
    (routed src).
Proof.
  assert (Hrestore : ∀ msg : string, posts (stands (of_option i) (Some capture_sink) o)
    (do! restore_partial_loopback_setup o i in throw msg)
    (routed src)).
  { intros msg. eapply posts_bind; [apply restore_posts|..]; cbn.
    - intros a s [_ (Hm & Hd & Ho)]. cbn. split; [set_solver|]. rewrite Hd, Ho. destruct o; auto.
    - by intros e g [[? ?] _]. }
  unfold route_streams. eapply (posts_bind _ _ _ (stands_ok (of_option i) (Some capture_sink) o)); [..|by intros e g [[? ?] _]].
  { apply posts_pactl. intros out g (Hm & Hd & Ho). split; [eauto|done]. }
  intros a0. eapply posts_bind; [apply list_posts|..]; cbn; [|by intros e g [_ [? ?]]].
  intros out s [[_ Hs] [x [= ->]]]. revert s Hs. destruct (out_success x); cbn [negb]; [|apply Hrestore].
  apply posts_quiet; [apply quiet_move_others|]. intros moved. apply posts_quiet; [apply quiet_pin|]. intros a1.
  apply posts_quiet; [apply quiet_pactl, quiet_list|]. intros a2.
  eapply posts_bind with (Q := λ r g, ∃ out, r = Ok out ∧
    stands (of_option i ∪ of_option (succeeded out ≫= module_index)) (Some capture_sink) o g); [..|by intros e g [? [? _]]].
  { apply posts_pactl. intros out g (Hm & Hd & Ho). exists out. split; [done|]. split; cbn; [set_solver|done]. }
  intros out s (? & [= <-] & Hs). destruct (succeeded out) as [y|] eqn:Hy; cbn in Hs.
  - revert s Hs. apply posts_quiet; [apply quiet_repin|]. intros a3. apply posts_quiet; [apply quiet_wait|]. intros a4.
    apply posts_ret. intros g (Hm & Hd & Ho). split; cbn; [done|]. done.
  - apply Hrestore. rewrite union_empty_r_L in Hs. done.
Qed.

(** What is set up is covered by its handle; a set-up that fails leaves no trace. *)
Lemma setup_posts (pid src : string) elapsed (s : LW) :
  lg_modules (ledger s.2) = ∅ →
  let '(x, s') := setup_loopback_exclusion_pactl pid elapsed src s in
  if le_warning x then (covered (handle_of src x) (ledger s'.2) ∨ handle_of src x = mkHandle src src None None [] None ∧ traceless (ledger s'.2))
  else covered (handle_of src x) (ledger s'.2).
Proof.
  intros Hm. unfold setup_loopback_exclusion_pactl, setup_loopback_exclusion_pactl_inner.
  assert (Hpost : posts (λ g, lg_modules g = ∅)
    (let! original := original_default_sink in do! cleanup_stale_wavis_modules in
     let! null_sink_module := load_capture_sink (hardware_sink src) in
     route_streams pid elapsed (hardware_sink src) original null_sink_module)
    (routed src)).
  { intros st Hst. assert (∃ d o, stands ∅ d o (ledger st.2)) as (d & o0 & Hst') by (do 2 eexists; split; [set_solver|done]).
    clear Hst. revert st Hst'. eapply posts_bind; [apply original_posts|..]; [|by intros e g (? & ? & _)].
    intros o s1 (? & [= <-] & Hs1). revert s1 Hs1. eapply posts_bind; [apply cleanup_posts|..]; [|by intros e g [[? ?] _]].
    intros a s1 [_ Hs1]. revert s1 Hs1. eapply posts_bind; [apply load_posts|..]; cbn.
    - intros i. apply route_posts.
    - intros e g (Hg & Hd & _). split; [set_solver|]. auto. }
  specialize (Hpost s Hm). destruct (mbind_ _ _ s) as [[x|e] s']; cbn.
  - destruct (le_warning x); auto.
  - by right.
Qed.

(** ** Shares leave no trace *)

(** A share that runs is covered by its handle, without one there is no trace. *)
Definition desktop_ok (d : Desktop LW) : Prop :=
  match dk_active d with Some h => covered h (ledger (dk_world d).2) | None => traceless (ledger (dk_world d).2) end.

Lemma ensure_ledger (s : LW) : ledger (ensure_pactl_available (E := string) s).2.2 = ledger s.2.
Proof.
  assert (Hq : quiet (E := string) ensure_pactl_available)
    by (apply quiet_bind; [apply quiet_pactl, quiet_list|intros ?; apply quiet_ret]).
  specialize (Hq (ledger s.2) s eq_refl). destruct (ensure_pactl_available s). apply Hq.
Qed.
Lemma validate_ledger native src (s : LW) : ledger (validate_pa_source native src s).2.2 = ledger s.2.
Proof.
  destruct native as [r|]; [done|]. unfold validate_pa_source, validate_pa_source_pactl, mbind_.
  pose proof (quiet_pactl (E := string) ["list"; "sources"; "short"] ltac:(apply quiet_list) (ledger s.2) s eq_refl) as Hq.
  destruct (pactl _ s) as [r s']. destruct Hq as [Hq [out ->]]. destruct out as [x|]; [|done].
  destruct (out_success x); [|done]. by destruct (existsb _ _).
Qed.

Lemma abandon_ok taken h e (d : Desktop LW) :
  dk_active d = None →
  covered h (ledger (dk_world d).2) ∨ needs_loopback_teardown h = false ∧ traceless (ledger (dk_world d).2) →
  desktop_ok (abandon_share taken h e d).2.
Proof.
  intros Ha Hh. unfold abandon_share, desktop_ok. cbn. rewrite Ha. destruct Hh as [Hh|[Hn Ht]]; [by apply teardown_posts|].
  unfold teardown_loopback_exclusion. by rewrite Hn.
Qed.

Lemma begin_capture_ok a src (d : Desktop LW) :
  dk_active d = None → traceless (ledger (dk_world d).2) → desktop_ok (begin_capture a src d).2.
Proof.
  intros Ha [Hm _]. unfold begin_capture. pose proof (setup_posts (sa_my_pid a) src (sa_elapsed a) (dk_world d) Hm) as Hs.
  destruct (setup_loopback_exclusion_pactl _ _ _ _) as [x s']. unfold check_loopback_exclusion.
  destruct (le_warning x) as [wn|]; cbn [fmap option_fmap option_map].
  - apply abandon_ok; [done|]. cbn. destruct Hs as [?|[-> ?]]; auto.
  - destruct (sa_spawn a); [done|]. apply abandon_ok; auto.
Qed.

Lemma start_ok a src (d : Desktop LW) : desktop_ok d → desktop_ok (audio_share_start a src d).2.
Proof.
  intros Hd. unfold audio_share_start. pose proof (ensure_ledger (dk_world d)) as He.
  destruct (ensure_pactl_available (dk_world d)) as [av w1]. cbn in He.
  assert (Hd1 : desktop_ok (set_dk_world w1 d)) by (unfold desktop_ok in *; cbn; by rewrite He).
  destruct av as [[]|]; [|done..]. cbn. destruct (dk_active d) as [h|] eqn:Ha; [done|].
  destruct (bool_decide _); [done|].
  pose proof (validate_ledger (sa_native a) src w1) as Hv. destruct (validate_pa_source _ _ w1) as [valid w2]. cbn in Hv.
  assert (Ht : traceless (ledger w2.2)) by (unfold desktop_ok in Hd1; cbn in Hd1; rewrite Ha in Hd1; by rewrite Hv).
  destruct valid as [u|e]; [|by unfold desktop_ok; cbn; rewrite Ha].
  destruct (publish_share _ _) as [r d2] eqn:Hp.
  assert (dk_active d2 = None ∧ dk_world d2 = w2) as [Ha2 Hw2].
  { unfold publish_share in Hp. cbn in Hp. destruct (md_lk (dk_media d)); [|by simplify_eq].
    destruct (publish_screen_audio _ _) as [r0 s0]. by simplify_eq. }
  destruct r as [u'|e]; [|unfold desktop_ok; cbn [snd]; by rewrite Ha2, Hw2].
  apply begin_capture_ok; [done|by rewrite Hw2].
Qed.

(** What the user does, and what happens outside the client. *)
Inductive ShareStep : Type :=
| StartShare (a : StartAnswers) (source_id : string)
| StopShare (taken : bool)
| Elsewhere (w : W) (m : Media).
Definition share_step (d : Desktop LW) (st : ShareStep) : Desktop LW :=
  match st with
  | StartShare a src => (audio_share_start a src d).2
  | StopShare taken => audio_share_stop taken d
  | Elsewhere w m => mkDesktop m (dk_active d) (w, (dk_world d).2) (dk_fallbacks d)
  end.
Definition share_run (d : Desktop LW) (steps : list ShareStep) : Desktop LW := fold_left share_step steps d.

(** If every command can be run, then whatever the commands answer, whichever of them
    fail and whatever else happens to the sound server: whenever no share is running,
    every module the client has loaded, and whose number it could read, it has asked
    to unload again, and the default sink it has set last is the one it found. *)
Theorem no_share_no_trace (w : W) (m : Media) (steps : list ShareStep) :
  let d := share_run (mkDesktop m None (w, []) []) steps in
  dk_active d = None → traceless (ledger (dk_world d).2).
Proof.
  cbv zeta. assert (Hg : ∀ d, desktop_ok d → desktop_ok (share_run d steps)).
  { induction steps as [|st steps IH]; intros d Hd; [done|]. apply IH. destruct st as [a src|taken|w' m']; cbn.
    - by apply start_ok.
    - unfold audio_share_stop. unfold desktop_ok in Hd. destruct (dk_active d) as [h|] eqn:Ha.
      + unfold desktop_ok. cbn. by apply teardown_posts.
      + unfold desktop_ok. by rewrite Ha.
    - done. }
  intros Ha. specialize (Hg (mkDesktop m None (w, []) []) ltac:(split; auto)). unfold desktop_ok in Hg. by rewrite Ha in Hg.
Qed.

(** A start that fails changes neither the handle nor, if the track was not published
    before, what is published. *)
Lemma unpublished taken (m : Media) c :
  md_lk (with_lk (unpublish_screen_audio taken) m) = Some c → lk_tracks c !! ScreenshareAudio = None.
Proof.
  unfold with_lk, unpublish_screen_audio, unpublish, mbind_, modify, gets. destruct (md_lk m) as [c0|] eqn:Hm; [|by rewrite Hm].
  cbn. destruct (lk_tracks c0 !! ScreenshareAudio) as [sid|]; cbn; intros [= <-]; cbn; [|by rewrite lookup_delete_eq].
  destruct (lk_connected c0), (lk_room c0), taken; cbn; by rewrite lookup_delete_eq.
Qed.
Theorem failed_share_unpublished a src (d : Desktop LW) e d' :
  audio_share_start a src d = (Err e, d') →
  dk_active d' = dk_active d ∧
  (e = ShareInProgress ∨ md_lk (dk_media d') = md_lk (dk_media d) ∨ (∃ r, e = TrackNotPublished r) ∨
   ∀ c, md_lk (dk_media d') = Some c → lk_tracks c !! ScreenshareAudio = None).
Proof.
  unfold audio_share_start. destruct (ensure_pactl_available _) as [av w1]. destruct av as [[]|]; [|intros [= <- <-]; auto..].
  cbn. destruct (dk_active d) as [h|] eqn:Ha; [intros [= <- <-]; auto|].
  destruct (bool_decide _); [intros [= <- <-]; auto|]. destruct (validate_pa_source _ _ w1) as [valid w2].
  destruct valid as [u|e0]; [|intros [= <- <-]; auto]. destruct (publish_share _ _) as [r d2] eqn:Hp.
  assert (Ha2 : dk_active d2 = None).
  { unfold publish_share in Hp. cbn in Hp. destruct (md_lk (dk_media d)) as [c|]; [|by simplify_eq].
    destruct (publish_screen_audio _ _) as [[?|?] s0]; by simplify_eq. }
  destruct r as [u'|e0].
  - unfold begin_capture. destruct (setup_loopback_exclusion_pactl _ _ _ _) as [x s'].
    destruct (check_loopback_exclusion x) as [err|]; [|destruct (sa_spawn a) as [?|?]; [done|]];
      intros [= <- <-]; cbn; (split; [by rewrite Ha2|]); right; right; right; apply unpublished.
  - intros [= <- <-]. split; [done|]. unfold publish_share in Hp. cbn in Hp. destruct (md_lk (dk_media d)) as [c|] eqn:Hmd.
    + destruct (publish_screen_audio _ _) as [[?|re] s0]; simplify_eq. eauto 6.
    + simplify_eq. cbn. auto.
Qed.
End ledger.

(** ** The order of the teardown *)

Definition is_unload (e : Entry) : bool :=
  match e.1.2 with arg :: _ => bool_decide (arg = "unload-module"%string) | [] => false end.

Section order.
Context {W : Type} `{Programs W}.
Abbreviation LW := (W * list Entry)%type.

(** All commands of a computation are unloads ([b]), or none is. *)
Definition logs {E A} (b : bool) (m : M LW E A) : Prop :=
  ∀ s, ∃ es, (m s).2.2 = s.2 ++ es ∧ Forall (λ e, is_unload e = b) es.
Definition phased {E A} (m : M LW E A) : Prop :=
  ∀ s, ∃ es us, (m s).2.2 = s.2 ++ es ++ us ∧ Forall (λ e, is_unload e = false) es ∧ Forall (λ e, is_unload e = true) us.

Lemma logs_pactl {E} b (arg : string) args : bool_decide (arg = "unload-module"%string) = b → logs (E := E) b (pactl (arg :: args)).
Proof.
  intros <- s. unfold pactl, state, command, logged. destruct (command "pactl" (arg :: args) s.1) as [o w]. cbn [fst snd].
  eexists; split; [done|]. by constructor.
Qed.
Lemma logs_ret {E A} b (a : A) : logs (E := E) b (mret a).
Proof. intros s. exists []. by rewrite app_nil_r. Qed.
Lemma logs_bind {E A B} b (m : M LW E A) (k : A → M LW E B) : logs b m → (∀ a, logs b (k a)) → logs b (mbind_ m k).
Proof.
  intros Hm Hk s. unfold mbind_. destruct (Hm s) as (es & Hes & Hf). destruct (m s) as [[a|e] s'] eqn:Hs; [|by exists es].
  destruct (Hk a s') as (es' & Hes' & Hf'). exists (es ++ es'). rewrite Hes', app_assoc. cbn in Hes. by rewrite Hes, Forall_app.
Qed.
Lemma logs_each {E A} b (f : A → M LW E unit) (l : list A) : (∀ a, logs b (f a)) → logs b (for_each f l).
Proof. intros Hf. induction l as [|a l IH]; cbn; [apply logs_ret|]. by apply logs_bind. Qed.
Lemma phased_bind {E A B} (m : M LW E A) (k : A → M LW E B) : logs false m → (∀ a, phased (k a)) → phased (mbind_ m k).
Proof.
  intros Hm Hk s. unfold mbind_. destruct (Hm s) as (es & Hes & Hf). destruct (m s) as [[a|e] s'] eqn:Hs.
  - destruct (Hk a s') as (es' & us & Hes' & Hf' & Hu). exists (es ++ es'), us. cbn in Hes. rewrite Hes', Hes, <-!app_assoc, Forall_app. done.
  - exists es, []. cbn in Hes. by rewrite app_nil_r.
Qed.
Lemma phased_unloads {E A} (m : M LW E A) : logs true m → phased m.
Proof. intros Hm s. destruct (Hm s) as (us & Hus & Hf). exists [], us. by rewrite app_nil_l. Qed.
Lemma logs_when {E A} b (o : option A) (f : A → M LW E (option Output)) : (∀ a, logs b (f a)) → logs b (when_some o f).
Proof. intros Hf. destruct o; cbn; [apply logs_bind; [done|intros ?]|]; apply logs_ret. Qed.

(** Streams are taken off the sink before it goes: the teardown restores the default and
    moves streams first, and unloads modules only when all of that is done. *)
Theorem unloads_come_last (h : AudioCaptureHandle) : phased (E := string) (teardown_loopback_exclusion_pactl h).
Proof.
  unfold teardown_loopback_exclusion_pactl. apply phased_bind; [apply logs_when; intros ?; by apply logs_pactl|]. intros _.
  apply phased_bind; [by apply logs_pactl|]. intros o.
  apply phased_bind; [|intros _; apply phased_unloads, logs_bind; [|intros _]; apply logs_when; intros i; by apply logs_pactl].
  destruct o as [x|]; [|apply logs_ret]. apply logs_each. intros b. unfold move_if_on_capture, on_capture.
  apply logs_bind; [|intros []; [apply logs_bind; [by apply logs_pactl|intros ?]|]; apply logs_ret].
  destruct (sb_sink b); [|apply logs_ret]. destruct (bool_decide _); [apply logs_ret|].
  apply logs_bind; [by apply logs_pactl|intros ?; apply logs_ret].
Qed.
End order.

(** ** A sound server *)

Module AudioDemo.
(** Sink 1 is the sound card, 2 a headset, the module of number [n] has sink [n]; a
    stream whose sink goes is left without one. *)
Record Sim : Type := mkSim {
  sm_default : string;
  sm_modules : list (Z * string);
  sm_next : Z;
  sm_streams : list (Z * Z * string);
  sm_broken : list string;
  sm_missing : list string;
  sm_drift : bool
}.
Definition sink_name (m : list (Z * string)) (n : Z) : string :=
  if n =? 1 then "card" else if n =? 2 then "headset"
  else if bool_decide ((n, "module-null-sink"%string) ∈ m) then "wavis_capture" else "none".
Definition sink_number (m : list (Z * string)) (s : string) : Z :=
  if bool_decide (s = "card"%string) then 1 else if bool_decide (s = "headset"%string) then 2
  else if bool_decide (s = "wavis_capture"%string) then default 0 (head (omap (λ x, if bool_decide (x.2 = "module-null-sink"%string) then Some x.1 else None) m))
  else 0.
Definition nl : string := String newline EmptyString.
Definition quote (s : string) : string := String "034"%char (s +:+ String "034"%char EmptyString).
Definition show_stream (x : Z * Z * string) : string :=
  "Sink Input #" +:+ pretty x.1.1 +:+ nl +:+ tabs +:+ "Sink: " +:+ pretty x.1.2 +:+ nl +:+ tabs +:+ "application.name = " +:+ quote x.2 +:+ nl.
Definition show_module (x : Z * string) : string := pretty x.1 +:+ tabs +:+ x.2 +:+ tabs +:+ "sink_name=wavis_capture" +:+ nl.
Definition show_sink (m : list (Z * string)) (n : Z) : string :=
  pretty n +:+ tabs +:+ sink_name m n +:+ tabs +:+ "PipeWire" +:+ tabs +:+ "s16le 2ch 48000Hz" +:+ nl.
Definition sinks (s : Sim) : list Z := [1; 2] ++ omap (λ x, if bool_decide (x.2 = "module-null-sink"%string) then Some x.1 else None) (sm_modules s).
Definition unload (n : Z) (s : Sim) : Sim :=
  mkSim (sm_default s) (filter (λ x, x.1 ≠ n) (sm_modules s)) (sm_next s)
    ((λ x, if x.1.2 =? n then (x.1.1, 0, x.2) else x) <$> sm_streams s) (sm_broken s) (sm_missing s) (sm_drift s).
Definition move_stream (i n : Z) (s : Sim) : Sim :=
  mkSim (sm_default s) (sm_modules s) (sm_next s) ((λ x, if x.1.1 =? i then (i, n, x.2) else x) <$> sm_streams s) (sm_broken s) (sm_missing s) (sm_drift s).
Definition load (kind : string) (s : Sim) : Sim :=
  let s' := mkSim (sm_default s) (sm_modules s ++ [(sm_next s, kind)]) (sm_next s + 1) (sm_streams s) (sm_broken s) (sm_missing s) (sm_drift s) in
  if sm_drift s && bool_decide (kind = "module-loopback"%string)
  then mkSim (sm_default s') (sm_modules s') (sm_next s')
         ((λ x, if bool_decide (x.2 = "Wavis"%string) then (x.1.1, sink_number (sm_modules s') "wavis_capture", x.2) else x) <$> sm_streams s')
         (sm_broken s') (sm_missing s') (sm_drift s')
  else s'.
#[local] Instance sim : Programs Sim := λ p args s,
  let fine := λ out s', (Some (mkOutput true out), s') in
  if bool_decide (args = sm_missing s) then (None, s)
  else if bool_decide (take 2 args = sm_broken s) then (Some (mkOutput false EmptyString), s)
  else match args with
  | ["info"%string] => fine ("Default Sink: " +:+ sm_default s +:+ nl) s
  | ["set-default-sink"%string; x] => fine EmptyString (mkSim x (sm_modules s) (sm_next s) (sm_streams s) (sm_broken s) (sm_missing s) (sm_drift s))
  | ["move-sink-input"%string; i; x] => fine EmptyString (move_stream (default 0 (parse_u32 i)) (sink_number (sm_modules s) x) s)
  | ["unload-module"%string; i] => fine EmptyString (unload (default 0 (parse_u32 i)) s)
  | "load-module"%string :: kind :: _ => fine (pretty (sm_next s) +:+ nl) (load kind s)
  | ["list"%string; "sink-inputs"%string] => fine (String.concat EmptyString (show_stream <$> sm_streams s)) s
  | ["list"%string; "short"%string; "modules"%string] => fine (String.concat EmptyString (show_module <$> sm_modules s)) s
  | "list"%string :: _ => fine (String.concat EmptyString (show_sink (sm_modules s) <$> sinks s)) s
  | _ => fine EmptyString s
  end.

Definition quiet_room : Sim := mkSim "card" [] 10 [(5, 1, "Firefox"%string); (6, 2, "Music"%string); (7, 1, "Wavis"%string)] [] ["none"%string] false.
Definition answers : StartAnswers := mkStartAnswers (Some (Ok tt)) (Ok tt) "4711" [600000000] (Ok tt) true.
Definition desktop (s : Sim) : Desktop Sim := mkDesktop LkDemo.joined None s [].
Definition shared (s : Sim) : Result unit ShareError * Desktop Sim := audio_share_start answers "card.monitor" (desktop s).
Definition sinks_of (d : Desktop Sim) : list Z := (λ x, x.1.2) <$> sm_streams (dk_world d).

(** While a share runs every other stream plays into sink 10, and the call's own does not. *)
Example share_routes :
  ((shared quiet_room).1, sm_default (dk_world (shared quiet_room).2), sinks_of (shared quiet_room).2) = (Ok tt, "wavis_capture"%string, [10; 10; 1]).
Proof. vm_compute. reflexivity. Qed.
(** Afterwards nothing of it is left, but the music plays on the sound card now, not on
    the headset it was on. *)
Example music_leaves_the_headset :
  let d := audio_share_stop true (shared quiet_room).2 in
  (sm_default (dk_world d), sm_modules (dk_world d), sinks_of d) = ("card"%string, [], [1; 1; 1]).
Proof. vm_compute. reflexivity. Qed.
(** A list of streams that cannot be run stops the share with the capture sink loaded and
    the default, and with no handle to take it back. *)
Example unlisted_streams_leave_the_sink :
  let d := (shared (mkSim "card" [] 10 (sm_streams quiet_room) [] ["list"; "sink-inputs"]%string false)).2 in
  (dk_active d, sm_default (dk_world d), sm_modules (dk_world d)) = (None, "wavis_capture"%string, [(10, "module-null-sink"%string)]).
Proof. vm_compute. reflexivity. Qed.
(** When the loopback is refused the sink is unloaded under the streams moved to it. *)
Example refused_loopback_silences :
  let d := (shared (mkSim "card" [] 10 (sm_streams quiet_room) ["load-module"; "module-loopback"]%string ["none"%string] false)).2 in
  (dk_active d, sm_default (dk_world d), sinks_of d) = (None, "card"%string, [0; 0; 1]).
Proof. vm_compute. reflexivity. Qed.
(** After a crash the default is the stale sink; it is saved before the clean-up, so the
    next share ends with a default that does not exist and its streams without a sink. *)
Example crash_is_restored :
  let crashed := mkSim "wavis_capture" [(9, "module-null-sink"%string)] 10 [(5, 1, "Firefox"%string)] [] ["none"%string] false in
  let d := audio_share_stop true (shared crashed).2 in
  (sm_default (dk_world d), sm_modules (dk_world d), sinks_of d) = ("wavis_capture"%string, [], [0]).
Proof. vm_compute. reflexivity. Qed.
(** The stream of the call that drifts to the capture sink stays there: the second scan
    takes the number of its sink for the hardware. *)
Example drift_is_not_seen :
  let d := (shared (mkSim "card" [] 10 (sm_streams quiet_room) [] ["none"%string] true)).2 in
  (bool_decide (is_Some (dk_active d)), sinks_of d) = (true, [10; 10; 10]).
Proof. vm_compute. reflexivity. Qed.

(** A server that answers seven to everything. *)
Definition seven : Programs unit := λ _ _ w, (Some (mkOutput true "7"), w).
Definition seven_run : list ShareStep := [StartShare answers "card.monitor"; Elsewhere tt LkDemo.joined; StopShare true].
Lemma no_share_no_trace_witness :
  dk_active (share_run (H := seven) (mkDesktop LkDemo.joined None (tt, []) []) seven_run) = None ∧
  traceless (ledger (dk_world (share_run (H := seven) (mkDesktop LkDemo.joined None (tt, []) []) seven_run)).2).
Proof.
  assert (Ha : dk_active (share_run (H := seven) (mkDesktop LkDemo.joined None (tt, []) []) seven_run) = None) by (vm_compute; reflexivity).
  split; [exact Ha|]. apply (no_share_no_trace (H := seven)); [by intros p args w; eexists|exact Ha].
Defined.
End AudioDemo.
